(* ===== verification/_CoqProject ===== *)
-Q . S2P
Prelude.v
ParseInt.v
Bitarray.v
DiOps.v
Strings.v
Smartlist.v
SmartlistFacts.v
Smartutil.v
Binascii.v
Pqueue.v
ConsDiff.v
ConsDiffFacts.v
ConsDiffDoc.v
Buffers.v
Endian.v
Address.v
Policies.v
PolicySummary.v
PolicyText.v
Cells.v
RelayCell.v
SendmeCell.v
RelayCrypto.v
Onion.v
Sendme.v
SendmeFacts.v
SendmeDir.v
SendmeFlow.v
Scanf.v
Inaddr.v
InaddrFacts.v
InaddrSafe.v
CryptoRsa.v
CryptoFormat.v
ParseCommon.v
ParseFacts.v
Gsri.v
GsriFacts.v
GsriLines.v
GsriRoundtrip.v
Bkem.v
BkemFacts.v
Consensus.v
ConsensusFacts.v
StringOrder.v
Versions.v
VersionsFacts.v
Protover.v
ProtoverFacts.v
ProtoSummary.v
TimeFmt.v
TimeFmtFacts.v
RequiredProtos.v
TokenBucket.v
CellExtensions.v
HsDos.v
Dos.v
ClientMap.v
DosFacts.v
Contract.v
ContractFacts.v
ChainPy.v
Publish.v
PublishFacts.v
PublishErrors.v
LinkSpec.v
CircuitCells.v
CircuitCellsFacts.v
ExtendCircuit.v
ExtendCircuitFacts.v
