(* ===== verification/Prelude.v ===== *)
(** * A verification development for BADNET

    BADNET is a derivative of Tor 0.4.6.5, in C, under [src/BADNET/src]. Its relays publish their
    entries on a blockchain instead of sending descriptors to directory authorities, and its clients
    read the concatenation of these entries, the GSRI, where a Tor client reads a signed consensus.
    The rest is Tor: cells over OR connections, circuits with layered encryption and flow control,
    exit policies, consensus diffs, and the libraries under [lib]. Paths below are relative to
    [src/BADNET/src].

    ** How the code is modelled

    Functions of the C code become functions on values. What can fail or go wrong is an [outcome]
    (this file): [Ok] is a result, [Err] the error value that the C function returns ([-1] or NULL),
    and [Stuck] a failed assertion, an access outside an object, or the end of the fuel of a loop.
    A theorem that an outcome is not [Stuck] is thus a theorem of memory safety and of termination.
    Bytes are characters, C strings are lists of them without the NUL, a pointer into a text is the
    rest of the text. Integers are [Z] with the wrap-around of their width written out ([wrap], and
    the 64 bits of [size_t]). Loops whose recursion is not structural take fuel; the callers pass
    the length of the input plus one, and the theorems show that this is enough.

    ** The files

    - [ParseInt] ([lib/string/parse_int.c]), [Strings] ([lib/string/util_string.c],
      [compat_ctype.c]), [Scanf] ([lib/string/scanf.c]), [Binascii] ([lib/encoding/binascii.c]),
      [Endian] ([lib/arch/bytes.h]): numbers, characters, scanning, base 16, 32 and 64. Shown:
      exactness and bounds of the number parser, correctness of the UTF-8 validator, the round
      trips of the three encodings, that decoders stay within their buffers on any input.
    - [Bitarray], [DiOps] ([lib/ctime/di_ops.c]), [Smartlist] with [SmartlistFacts]
      ([lib/smartlist_core]), [Smartutil] ([lib/container], [lib/smartlist_core]), [Pqueue]
      ([lib/container/smartlist.c]): containers. Shown: the array implementation of smartlists
      refines lists, the linked digest map refines a finite map, constant-time comparison is
      comparison, binary search, splitting and joining, the heap invariant of priority queues.
    - [Buffers] ([lib/buf/buffers.c]): chains of chunks in a heap with addresses; they refine a
      byte queue, and searching finds the first occurrence.
    - [Address] ([lib/net/address.c]), [Inaddr] with [InaddrFacts] and [InaddrSafe]
      ([lib/net/inaddr.c]): IP addresses, their order, their text. Shown: the round trip of every
      IPv4 and IPv6 address, and safety of the parsers.
    - [Policies], [PolicySummary], [PolicyText] ([core/or/policies.c]): exit policies, removal of
      redundant entries, and the summary that clients read in place of the policy.
    - [ConsDiff], [ConsDiffFacts], [ConsDiffDoc] ([feature/dircommon/consdiff.c]): generation and
      application of consensus diffs; applying a generated diff gives the new consensus, and any
      input to the application is handled safely.
    - [Cells] ([core/or/connection_or.c], [core/proto/proto_cell.c]), [RelayCell]
      ([core/or/relay.c]), [SendmeCell] ([trunnel/sendme_cell.c]), [RelayCrypto] with [Onion]
      ([core/crypto/relay_crypto.c], [core/or/crypt_path.c]), [Sendme] with [SendmeFacts],
      [SendmeDir] and [SendmeFlow] ([core/or/sendme.c]): cells on the wire, relay cells, layered
      encryption, and the flow control of a circuit. Shown: cells written are the cells read
      whatever the fragmentation, a cell is recognised at the hop it is meant for and nowhere else,
      and over any interleaving of the two ends of a circuit the windows stay balanced, honest
      SENDMEs are never refused, and data keeps flowing. The stream cipher, the running digest and
      the random bytes are parameters.
    - [CryptoRsa] ([lib/crypt_ops/crypto_rsa.c], [crypto_rsa_openssl.c], [lib/encoding/pem.c]) and
      [CryptoFormat] ([lib/crypt_ops/crypto_format.c], [feature/nodelist/nickname.c]): public keys
      over an abstract OpenSSL (the class [OpenSSL]), their PEM form, digests and keys in base 64.
    - [ParseCommon] with [ParseFacts] ([feature/dirparse/parsecommon.c]): the tokenizer of directory
      documents; any text is refused or gives a document that obeys its table of rules.
    - [Gsri], [GsriFacts], [GsriLines], [GsriRoundtrip] ([feature/relay/router.c],
      [feature/dirparse/ns_parse.c]): the entry a relay publishes and the document a client parses.
      Shown: the parser is total and safe on any bytes, and what relays publish is what clients get.
    - [Contract], [ContractFacts] ([DirectoryContract.sol], at the root of the repository), [ChainPy] ([SC/Relay.py], [SC/Client.py])
      and [Publish] with [PublishFacts] and [PublishErrors] ([feature/relay/router.c], [relay_periodic.c]): the path of an entry from
      one relay to another, through C, Python and the contract. The contract is a record with a function per method; Python functions
      and C functions are runs over a state, with exceptions as [Err], and a schedule of what other accounts do between the requests
      of a relay, and of requests that fail. Shown: up to 254 operations the contract is a log of joins and removals; a relay
      decrypts an entry with the very set it was encrypted for; what a relay uploads is what the others read, whatever other accounts
      upload and register in between; what a download leaves in the files, what clients get; the life of the relay's own
      descriptor. And what stops the network: a removal, a cancellation, a registration at the wrong moment, a
      member that has not published, a header that is too short, a failed request, the 255th operation.
    - [Bkem], [BkemFacts] ([feature/relay/router.c]): the broadcast encryption of a bridge's entry,
      over an abstract pairing (the class [PBC]). Shown: encryption to a set of receivers is undone
      by each of them when the blocks have spare bytes, and what goes wrong without them.
    - [Consensus], [ConsensusFacts] ([feature/nodelist/networkstatus.c]): the current consensus, its
      lookups, and what a new consensus takes over from the old one; no sequence of documents breaks
      the invariant, and lookups can miss relays because a GSRI is not sorted.
    - [StringOrder], [Versions], [VersionsFacts], [ProtoSummary] ([core/or/versions.c]), [Protover],
      [ProtoverFacts] ([core/or/protover.c]), [RequiredProtos] ([feature/nodelist/networkstatus.c]):
      versions of Tor and of its subprotocols. Shown: the comparison of versions is a total order,
      lists of protocols are read back as written unless a mask is full, votes are counted exactly
      (by the first entry of a name in each),
      what is missing is named exactly, and the cache of summaries cannot be noticed.
    - [TimeFmt], [TimeFmtFacts] ([lib/encoding/time_fmt.c], [lib/wallclock/time_to_tm.c]): dates, by
      an executable account of the C library's [gmtime_r]; texts of dates are read back for all
      seconds of the years 1970 to 9999, but for the leap days that [tor_timegm] does not know.
    - [TokenBucket] ([lib/evloop/token_bucket.c]): rate limits with 32-bit levels and timestamps. Shown: they are
      token buckets over the integers as long as no debt exceeds 2^31.
    - [CellExtensions] ([trunnel/hs/cell_common.c], [cell_establish_intro.c]) and [HsDos] ([feature/hs/hs_dos.c],
      [hs_intropoint.c], [hs_cell.c]): the limit on INTRODUCE2 cells, from the service's configuration through the
      extension of an ESTABLISH_INTRO cell to the bucket of a circuit. Encoders and parsers meet one interface
      (the class [Codec]), with arrays of objects proved once. Shown: the configured limit arrives, it is kept, and
      a consensus can set one that divides by zero.
    - [Dos], [ClientMap], [DosFacts] ([core/or/dos.c], [feature/stats/geoip_stats.c]): the mitigation of denial of
      service, with the map of clients it counts in. Shown, for any run of connections, circuits, directory requests, parameter
      changes and removals of entries: the counts are those of the open connections, unless clients use a pluggable transport;
      what one CREATE cell does, and which periods stop the relay.
    - [LinkSpec] ([trunnel/ed25519_cert.c]), [CircuitCells] with [CircuitCellsFacts] ([core/or/onion.c], the answer of [core/or/command.c]
      to a CREATED cell), and [ExtendCircuit] with [ExtendCircuitFacts] ([feature/relay/circuitbuild_relay.c], [core/or/channel.c],
      [core/or/circuitbuild.c]): the extension of a circuit by a relay, from an EXTEND cell to the CREATE cell for the next relay and back.
      The bodies of the cells are codecs of the class [Codec]; the list of nodes, the map of channels by identity and the map of circuit
      identifiers are values. Shown: handshakes and replies arrive, in whatever version of the cells they travel; parsers are total and
      what they accept is sound; a circuit is only extended to the relay named, never back, on a best channel and with an unused
      identifier, or waits, and refused
      only for one of six reasons; those that wait are served when a connection is there, but then take one from any address.

    ** Parameters and bounds

    Hash functions, ciphers, random bytes, the pairing, web3 and OpenSSL's objects are parameters, with the laws that
    the theorems need as hypotheses; each theorem with such a hypothesis is applied to a concrete
    instance in its witness. Sizes are bounded only where the code bounds them ([SIZE_T_CEILING],
    [INT_MAX], [BUF_MAX_LEN], the lengths of the arrays).

    ** Not modelled

    Input and output (sockets, files, processes, the event loop, TLS, logging), the wrappers of
    third-party libraries, configure.py, which creates a relay's account, generated trunnel parsers other
    than those of the SENDME cell, the cell extensions and the bodies of circuit creation cells, and the
    parts of the program that drive the modelled code from global state: path selection, the circuits that this program builds itself, the handshakes, the life of circuits (but for their
    extension by relays) and of connections, entry guards, onion services but for
    their rate limits, the control port, directory requests and the voting of authorities. Allocation is taken to succeed,
    as [tor_malloc] ends the process otherwise; memory that is released is not tracked, except in
    [Buffers]. *)

From stdpp Require Export base tactics option list numbers strings.
From Stdlib Require Export ZArith Lia Ascii ZifyNat.

Declare Scope tor_scope.
Delimit Scope tor_scope with tor.
#[global] Open Scope Z_scope.
#[global] Open Scope tor_scope.

(** ** Bytes and C strings *)

Abbreviation bytes := (list ascii).
Definition bs (s : string) : bytes := String.list_ascii_of_string s.
Definition b2z (c : ascii) : Z := Z.of_N (N_of_ascii c).
Definition z2b (z : Z) : ascii := ascii_of_N (Z.to_N (z mod 256)).
Definition NUL : ascii := "000"%char.
Definition NL : ascii := "010"%char.
Definition SP : ascii := " "%char.

(** Reading through a [char *] into a NUL-terminated string: past the last
    character the pointer shows the terminator. *)
Definition deref (s : bytes) : ascii := match s with [] => NUL | c :: _ => c end.

Definition TOR_ISDIGIT (c : ascii) : bool := (48 <=? b2z c) && (b2z c <=? 57).

(** [fast_memeq(a, b, n)] on objects of at least [n] bytes. *)
Definition fast_memeq (a b : bytes) (n : nat) : bool :=
  bool_decide (take n a = take n b).

(** ** Machine integers *)

Definition INT_MAX : Z := 2147483647.
Definition INT32_MAX : Z := 2147483647.
Definition INT32_MIN : Z := -2147483648.
Definition UINT32_MAX : Z := 4294967295.
Definition LONG_MAX : Z := 9223372036854775807.
Definition LONG_MIN : Z := -9223372036854775808.
Definition ULONG_MAX : Z := 18446744073709551615.
Definition UINT64_MAX : Z := 18446744073709551615.
Definition SIZE_T_CEILING : Z := 9223372036854775807 - 16.
Definition wrap (w : Z) (z : Z) : Z := z mod 2 ^ w.
(** An [int] from a wider or unsigned integer. *)
Definition to_int (z : Z) : Z := let w := wrap 32 z in if w <? 2 ^ 31 then w else w - 2 ^ 32.

(** ** Outcomes

    [Ok] is a normal return, [Err] the failure value the C function itself
    reports (NULL, or a negative status), and [Stuck] is everything the code must
    never do: a failed [tor_assert], an access outside an object, or a loop
    that runs out of the fuel the model gives it. *)
Inductive outcome (A : Type) : Type :=
  | Ok (a : A)
  | Err
  | Stuck.
Arguments Ok {A} a.
Arguments Err {A}.
Arguments Stuck {A}.

Definition obind {A B} (m : outcome A) (k : A -> outcome B) : outcome B :=
  match m with Ok a => k a | Err => Err | Stuck => Stuck end.
Definition omap {A B} (f : A -> B) (m : outcome A) : outcome B :=
  obind m (fun a => Ok (f a)).

Notation "'let*' x := c1 'in' c2" := (obind c1 (fun x => c2))
  (at level 10, x pattern, c1 at level 100, c2 at level 200) : tor_scope.

(** [tor_assert(b)]: abort unless [b]. *)
Definition tor_assert {A} (b : bool) (k : outcome A) : outcome A :=
  if b then k else Stuck.

(** Reading an object that has to be there: a NULL or out-of-bounds access is
    stuck. *)
Definition get {A} (o : option A) : outcome A :=
  match o with Some a => Ok a | None => Stuck end.

(** Indexing an array with a C [int]. *)
Definition aget {A} (l : list A) (i : Z) : option A :=
  if i <? 0 then None else l !! Z.to_nat i.

(** Writing through an array with a C [int] index. *)
Definition aset {A} (l : list A) (i : Z) (x : A) : outcome (list A) :=
  if (i <? 0) || (Z.of_nat (length l) <=? i) then Stuck
  else Ok (<[Z.to_nat i := x]> l).

(** ** Generic lemmas *)

Lemma obind_ok {A B} (m : outcome A) (k : A -> outcome B) (b : B) :
  obind m k = Ok b <-> exists a, m = Ok a /\ k a = Ok b.
Proof.
  destruct m as [a| |]; simpl; split; try (intros (? & ? & ?); congruence); try done.
  eauto.
Qed.

Lemma get_ok {A} (o : option A) (a : A) : get o = Ok a <-> o = Some a.
Proof. destruct o; simpl; split; congruence. Qed.

Lemma aget_nat {A} (l : list A) (i : nat) : aget l (Z.of_nat i) = l !! i.
Proof. unfold aget. destruct (Z.ltb_spec (Z.of_nat i) 0); [lia|]. by rewrite Nat2Z.id. Qed.

Lemma aget_Some {A} (l : list A) (i : Z) (x : A) :
  aget l i = Some x <-> 0 <= i /\ l !! Z.to_nat i = Some x.
Proof.
  unfold aget. destruct (Z.ltb_spec i 0); split; [done|lia|done|tauto].
Qed.

Lemma aget_lt {A} (l : list A) (i : Z) :
  0 <= i < Z.of_nat (length l) -> exists x, aget l i = Some x /\ l !! Z.to_nat i = Some x.
Proof.
  intros Hi. destruct (lookup_lt_is_Some_2 l (Z.to_nat i)) as [x Hx]; [lia|].
  exists x. split; [|done]. apply aget_Some. split; [lia|done].
Qed.

Lemma aset_nat {A} (l : list A) (i : nat) (x : A) :
  (i < length l)%nat -> aset l (Z.of_nat i) x = Ok (<[i := x]> l).
Proof.
  intros Hi. unfold aset.
  destruct (Z.ltb_spec (Z.of_nat i) 0), (Z.leb_spec (Z.of_nat (length l)) (Z.of_nat i));
    simpl; try lia. by rewrite Nat2Z.id.
Qed.

(** The tactics of the development. [cases_b] splits on the boolean comparison the
    goal is stuck on, with its arithmetic meaning; [inv_ok] opens the successful runs
    of the outcome monad in the hypotheses. *)
Ltac cases_b :=
  match goal with
  | |- context [Z.ltb ?a ?b] => destruct (Z.ltb_spec a b)
  | |- context [Z.leb ?a ?b] => destruct (Z.leb_spec a b)
  | |- context [Z.eqb ?a ?b] => destruct (Z.eqb_spec a b)
  | |- context [Nat.ltb ?a ?b] => destruct (Nat.ltb_spec a b)
  | |- context [Nat.leb ?a ?b] => destruct (Nat.leb_spec a b)
  | |- context [Nat.eqb ?a ?b] => destruct (Nat.eqb_spec a b)
  end; simpl; try lia.

(** Linear arithmetic with division and remainder by constants, on [nat] and [Z]. *)
Ltac dlia := zify; Z.div_mod_to_equations; lia.

Lemma to_int_small (z : Z) : INT32_MIN <= z <= INT32_MAX -> to_int z = z.
Proof. unfold to_int, wrap, INT32_MIN, INT32_MAX. intros. cases_b; dlia. Qed.


Ltac cases_bh H :=
  match type of H with
  | context [Z.ltb ?a ?b] => destruct (Z.ltb_spec a b)
  | context [Z.leb ?a ?b] => destruct (Z.leb_spec a b)
  | context [Z.eqb ?a ?b] => destruct (Z.eqb_spec a b)
  | context [Nat.ltb ?a ?b] => destruct (Nat.ltb_spec a b)
  | context [Nat.leb ?a ?b] => destruct (Nat.leb_spec a b)
  | context [Nat.eqb ?a ?b] => destruct (Nat.eqb_spec a b)
  end; simpl in H; try lia.

Ltac inv_ok :=
  repeat match goal with
  | H : obind _ _ = Ok _ |- _ => apply obind_ok in H; destruct H as (? & ? & ?)
  | H : get _ = Ok _ |- _ => apply get_ok in H
  | H : Ok _ = Ok _ |- _ => injection H as H; subst
  | H : Err = Ok _ |- _ => discriminate H
  | H : Stuck = Ok _ |- _ => discriminate H
  | H : tor_assert ?b _ = Ok _ |- _ =>
      let E := fresh "Hassert" in
      unfold tor_assert in H; destruct b eqn:E; [|discriminate H]
  end.

(** [memmove(l + dst, l + src, n)] inside one array, bounds included. *)
Definition amove {A} (l : list A) (dst src n : Z) : outcome (list A) :=
  if (dst <? 0) || (src <? 0) || (n <? 0)
     || (Z.of_nat (length l) <? dst + n) || (Z.of_nat (length l) <? src + n)
  then Stuck
  else Ok (take (Z.to_nat dst) l
           ++ take (Z.to_nat n) (drop (Z.to_nat src) l)
           ++ drop (Z.to_nat dst + Z.to_nat n) l).

(** [memset(l + start, x, n)] on whole elements. *)
Definition afill {A} (l : list A) (start n : Z) (x : A) : outcome (list A) :=
  if (start <? 0) || (n <? 0) || (Z.of_nat (length l) <? start + n) then Stuck
  else Ok (take (Z.to_nat start) l ++ replicate (Z.to_nat n) x
           ++ drop (Z.to_nat start + Z.to_nat n) l).

Lemma filter_all {A} (P : A -> Prop) `{!forall x, Decision (P x)} (l : list A) :
  Forall P l -> filter P l = l.
Proof.
  induction 1 as [|x l Hx _ IH]; [done|]. by rewrite filter_cons_True, IH.
Qed.

Lemma snoc_inv {A} (l : list A) : l <> [] -> exists l0 y, l = l0 ++ [y].
Proof. induction l using rev_ind; [done|eauto]. Qed.

Lemma take_S_insert {A} (l : list A) (i : nat) (x : A) :
  (i < length l)%nat -> take (S i) (<[i := x]> l) = take i l ++ [x].
Proof.
  intros Hi. rewrite (take_S_r _ _ x) by (by apply list_lookup_insert_eq).
  by rewrite take_insert_ge by lia.
Qed.

(** Storing at the end of what has been written so far. *)
Lemma aset_emit {A} (out rest : list A) (x y : A) (i : Z) :
  i = Z.of_nat (length out) -> aset (out ++ x :: rest) i y = Ok ((out ++ [y]) ++ rest).
Proof.
  intros ->. rewrite aset_nat by (rewrite length_app; simpl; lia).
  rewrite insert_app_r_alt by lia. rewrite Nat.sub_diag. simpl.
  by rewrite <- app_assoc.
Qed.

Lemma aset_fill {A} (out : list A) (k : nat) (z y : A) (i : Z) :
  (0 < k)%nat -> i = Z.of_nat (length out) ->
  aset (out ++ replicate k z) i y = Ok ((out ++ [y]) ++ replicate (k - 1) z).
Proof.
  intros Hk Hi. destruct k as [|k]; [lia|]. simpl. rewrite Nat.sub_0_r. by apply aset_emit.
Qed.

Lemma aset_in {A} (l : list A) (i : Z) (x : A) : 0 <= i < Z.of_nat (length l) ->
  exists l', aset l i x = Ok l' /\ length l' = length l.
Proof.
  intros Hi. exists (<[Z.to_nat i := x]> l). unfold aset.
  rewrite (proj2 (Z.ltb_ge _ _)), (proj2 (Z.leb_gt _ _)) by lia.
  split; [done|apply length_insert].
Qed.

(** A property of the integers of a finite range, decided by running it. *)
Lemma forall_range (P : Z -> bool) (n : Z) :
  forallb P (seqZ 0 n) = true -> forall k, 0 <= k < n -> P k = true.
Proof.
  intros H k Hk. rewrite forallb_forall in H. apply H.
  apply list_elem_of_In, elem_of_seqZ. lia.
Qed.

Definition zlen {A} (l : list A) : Z := Z.of_nat (length l).

Lemma zlen_app {A} (l l' : list A) : zlen (l ++ l') = zlen l + zlen l'.
Proof. unfold zlen. rewrite length_app. lia. Qed.

Lemma zlen_nonneg {A} (l : list A) : 0 <= zlen l.
Proof. unfold zlen. lia. Qed.

(** Bit operations as arithmetic. *)
Lemma lor_shiftl_add (a b k : Z) : 0 <= k -> 0 <= b < 2 ^ k ->
  Z.lor (Z.shiftl a k) b = a * 2 ^ k + b.
Proof.
  intros Hk Hb. rewrite <- Z.shiftl_mul_pow2 by done.
  symmetry. rewrite <- Z.add_lor_land.
  enough (Z.land (Z.shiftl a k) b = 0) by lia. apply Z.bits_inj'. intros i Hi.
  rewrite Z.land_spec, Z.bits_0. destruct (Z.ltb_spec i k).
  - rewrite Z.shiftl_spec_low by done. done.
  - rewrite andb_false_iff. right. destruct (decide (b = 0)) as [->|]; [apply Z.bits_0|].
    apply Z.bits_above_log2; [lia|]. apply Z.log2_lt_pow2; [lia|].
    eapply Z.lt_le_trans; [apply Hb|]. apply Z.pow_le_mono_r; lia.
Qed.

Lemma land_ones_mod (n : Z) (k : Z) : 0 <= k -> Z.land n (Z.ones k) = n mod 2 ^ k.
Proof. intros. by apply Z.land_ones. Qed.

Lemma shiftl32 (n k : Z) : 0 <= n -> 0 <= k -> n * 2 ^ k < 4294967296 ->
  wrap 32 (Z.shiftl n k) = n * 2 ^ k.
Proof.
  intros. unfold wrap. rewrite Z.shiftl_mul_pow2 by done.
  apply Z.mod_small. change (2 ^ 32) with 4294967296. nia.
Qed.

Lemma wrap32_6 (n k : Z) : 0 <= n < 262144 -> 0 <= k < 64 ->
  Z.lor (wrap 32 (Z.shiftl n 6)) k = n * 64 + k.
Proof.
  intros. rewrite shiftl32 by lia. rewrite <- Z.shiftl_mul_pow2 by lia.
  by rewrite lor_shiftl_add by lia.
Qed.

(** ** Safe runs: normal with a property of the result, or the code's own failure *)

Definition safe {A} (P : A -> Prop) (m : outcome A) : Prop :=
  match m with Ok a => P a | Err => True | Stuck => False end.

Lemma safe_bind {A B} (P : A -> Prop) (Q : B -> Prop) (m : outcome A) (k : A -> outcome B) :
  safe P m -> (forall a, P a -> safe Q (k a)) -> safe Q (obind m k).
Proof. destruct m; simpl; auto. Qed.

Lemma safe_mono {A} (P Q : A -> Prop) (m : outcome A) :
  safe P m -> (forall a, P a -> Q a) -> safe Q m.
Proof. destruct m; simpl; auto. Qed.

Lemma safe_ok {A} (P : A -> Prop) (m : outcome A) (a : A) : safe P m -> m = Ok a -> P a.
Proof. intros H ->. exact H. Qed.

Create HintDb tor.
#[export] Hint Rewrite @length_app @length_replicate @length_take @length_drop @length_insert
  @length_fmap @length_reverse @length_cons : tor.

(** Lengths of lists built from lists, then arithmetic. *)
Ltac len := unfold zlen in *; autorewrite with tor in *; cbn [length] in *; lia.
