(* ===== verification/ParseInt.v ===== *)
(** * Number parsing: [src/BADNET/src/lib/string/parse_int.c]

    The wrappers [tor_parse_long], [tor_parse_ulong] and [tor_parse_uint64] over
    the C library's [strtol] family, on the LP64 ABI ([long] is 64 bits wide),
    and the decimal conversion of [printf] that the callers' output uses. *)

From S2P Require Import Prelude.

(** ** The C library's conversions *)

Definition isspace (c : ascii) : bool :=
  (b2z c =? 32) || ((9 <=? b2z c) && (b2z c <=? 13)).

Definition digit_val (c : ascii) : option Z :=
  let z := b2z c in
  if (48 <=? z) && (z <=? 57) then Some (z - 48)
  else if (97 <=? z) && (z <=? 122) then Some (z - 87)
  else if (65 <=? z) && (z <=? 90) then Some (z - 55)
  else None.

Definition digit_in (base : Z) (c : ascii) : option Z :=
  match digit_val c with
  | Some d => if d <? base then Some d else None
  | None => None
  end.

Fixpoint skip_space (s : bytes) : bytes :=
  match s with c :: s' => if isspace c then skip_space s' else s | [] => [] end.

Fixpoint scan_digits (base acc : Z) (s : bytes) : Z * bytes :=
  match s with
  | c :: s' =>
      match digit_in base c with
      | Some d => scan_digits base (acc * base + d) s'
      | None => (acc, s)
      end
  | [] => (acc, [])
  end.

(** Strip an optional ["0x"] prefix that a hexadecimal digit follows, and settle
    the base when it is 0. *)
Definition resolve_base (base : Z) (s : bytes) : Z * bytes :=
  let hex := match s with
             | z :: x :: d :: _ =>
                 (b2z z =? 48) && ((b2z x =? 120) || (b2z x =? 88))
                 && bool_decide (is_Some (digit_in 16 d))
             | _ => false
             end in
  if ((base =? 0) || (base =? 16)) && hex then (16, drop 2 s)
  else if base =? 0 then
    (if b2z (deref s) =? 48 then 8 else 10, s)
  else (base, s).

(** The subject sequence: sign, magnitude and unconverted rest; [None] when no
    conversion can be performed. *)
Definition strtox (base : Z) (s : bytes) : option (bool * Z * bytes) :=
  let s1 := skip_space s in
  let '(neg, s2) := match s1 with
                    | c :: s' => if b2z c =? 45 then (true, s')
                                 else if b2z c =? 43 then (false, s')
                                 else (false, s1)
                    | [] => (false, s1)
                    end in
  let '(b, s3) := resolve_base base s2 in
  match digit_in b (deref s3) with
  | Some _ => let '(v, rest) := scan_digits b 0 s3 in Some (neg, v, rest)
  | None => None
  end.

(** What a conversion leaves behind: the value, [*endptr] and whether [errno] is
    [ERANGE]. *)
Record strto_res := { st_val : Z; st_end : bytes; st_erange : bool }.

Definition strtol (s : bytes) (base : Z) : strto_res :=
  match strtox base s with
  | None => {| st_val := 0; st_end := s; st_erange := false |}
  | Some (neg, v, rest) =>
      let r := if neg : bool then - v else v in
      if r <? LONG_MIN then {| st_val := LONG_MIN; st_end := rest; st_erange := true |}
      else if LONG_MAX <? r then
        {| st_val := LONG_MAX; st_end := rest; st_erange := true |}
      else {| st_val := r; st_end := rest; st_erange := false |}
  end.

Definition strtoul (s : bytes) (base : Z) : strto_res :=
  match strtox base s with
  | None => {| st_val := 0; st_end := s; st_erange := false |}
  | Some (neg, v, rest) =>
      if ULONG_MAX <? v then {| st_val := ULONG_MAX; st_end := rest; st_erange := true |}
      else {| st_val := if neg : bool then wrap 64 (- v) else v;
              st_end := rest; st_erange := false |}
  end.

(** ** The wrappers *)

(** The returned value, [*ok] and [*next] ([None] when it is not written). *)
Record parsed := { p_val : Z; p_ok : bool; p_next : option bytes }.

(** [CHECK_STRTOX_RESULT]: [next] tells whether the caller passed a [next]
    pointer. *)
Definition CHECK_STRTOX_RESULT (s : bytes) (min max : Z) (next : bool)
    (r : strto_res) : parsed :=
  let fail := {| p_val := 0; p_ok := false;
                 p_next := if next then Some (st_end r) else None |} in
  if st_erange r then fail
  else if bool_decide (st_end r = s) then fail
  else if negb next && negb (b2z (deref (st_end r)) =? 0) then fail
  else if max <? min then fail
  else if (st_val r <? min) || (max <? st_val r) then fail
  else {| p_val := st_val r; p_ok := true;
          p_next := if next then Some (st_end r) else None |}.

Definition tor_parse_long (s : bytes) (base min max : Z) (next : bool) : parsed :=
  if base <? 0 then {| p_val := 0; p_ok := false; p_next := None |}
  else CHECK_STRTOX_RESULT s min max next (strtol s base).

Definition tor_parse_ulong (s : bytes) (base min max : Z) (next : bool) : parsed :=
  if base <? 0 then {| p_val := 0; p_ok := false; p_next := None |}
  else CHECK_STRTOX_RESULT s min max next (strtoul s base).

Definition tor_parse_uint64 (s : bytes) (base min max : Z) (next : bool) : parsed :=
  if base <? 0 then {| p_val := 0; p_ok := false; p_next := None |}
  else CHECK_STRTOX_RESULT s min max next (strtoul s base).

(** ** The [%d] conversion of [printf] *)

Fixpoint dec_digits (fuel : nat) (n : Z) (acc : bytes) : bytes :=
  match fuel with
  | O => acc
  | S f =>
      let acc' := z2b (48 + n mod 10) :: acc in
      if n <? 10 then acc' else dec_digits f (n / 10) acc'
  end.

Definition print_nat (n : Z) : bytes := dec_digits (S (Z.to_nat (Z.log2 n))) n [].

Definition print_int (z : Z) : bytes :=
  if z <? 0 then "-"%char :: print_nat (- z) else print_nat z.

(** ** Lemmas *)

Lemma b2z_z2b (z : Z) : 0 <= z < 256 -> b2z (z2b z) = z.
Proof.
  intros Hz. unfold b2z, z2b. rewrite N_ascii_embedding.
  - rewrite Z2N.id; [apply Z.mod_small; lia|]. apply Z.mod_pos_bound; lia.
  - assert (z mod 256 = z) as -> by (apply Z.mod_small; lia). lia.
Qed.

Lemma b2z_range (c : ascii) : 0 <= b2z c < 256.
Proof. unfold b2z. pose proof (N_ascii_bounded c). lia. Qed.

#[export] Hint Resolve b2z_range : tor.

Lemma b2z_inj (c d : ascii) : b2z c = b2z d -> c = d.
Proof.
  unfold b2z. intros H. apply N2Z.inj in H.
  rewrite <-(ascii_N_embedding c), H. apply ascii_N_embedding.
Qed.

Lemma z2b_b2z (c : ascii) : z2b (b2z c) = c.
Proof. apply b2z_inj, b2z_z2b, b2z_range. Qed.

Lemma digit_in_dec_char (k : Z) : 0 <= k < 10 -> digit_in 10 (z2b (48 + k)) = Some k.
Proof.
  intros Hk. unfold digit_in, digit_val. rewrite b2z_z2b by lia.
  destruct (Z.leb_spec 48 (48 + k)), (Z.leb_spec (48 + k) 57); simpl; try lia.
  replace (48 + k - 48) with k by lia.
  destruct (Z.ltb_spec k 10); [done|lia].
Qed.

Lemma isdigit_dec_char (k : Z) : 0 <= k < 10 -> TOR_ISDIGIT (z2b (48 + k)) = true.
Proof. intros Hk. unfold TOR_ISDIGIT. rewrite b2z_z2b by lia. lia. Qed.

Lemma digit_in_10_isdigit (c : ascii) : is_Some (digit_in 10 c) <-> TOR_ISDIGIT c = true.
Proof.
  unfold digit_in, digit_val, TOR_ISDIGIT. pose proof (b2z_range c).
  destruct ((48 <=? b2z c) && (b2z c <=? 57)) eqn:E1.
  - destruct (Z.ltb_spec (b2z c - 48) 10); [split; eauto|lia].
  - destruct ((97 <=? b2z c) && (b2z c <=? 122)) eqn:E2.
    + destruct (Z.ltb_spec (b2z c - 87) 10); [lia|]. split; [intros [? ?]|]; done.
    + destruct ((65 <=? b2z c) && (b2z c <=? 90)) eqn:E3.
      * destruct (Z.ltb_spec (b2z c - 55) 10); [lia|]. split; [intros [? ?]|]; done.
      * split; [intros [? ?]|]; done.
Qed.

(** Scanning the digits that [dec_digits] prints gives the number back, whatever
    follows it. *)
Lemma scan_dec_digits (fuel : nat) : forall n acc tail,
  0 <= n < 10 ^ Z.of_nat fuel -> (0 < fuel)%nat ->
  exists k, scan_digits 10 acc (dec_digits fuel n tail)
            = scan_digits 10 (acc * 10 ^ k + n) tail /\ 0 <= k.
Proof.
  induction fuel as [|f IH]; intros n acc tail Hn Hf; [lia|].
  cbn [dec_digits].
  pose proof (Z.mod_pos_bound n 10 ltac:(lia)) as Hm.
  assert (scan1 : forall a, scan_digits 10 a (z2b (48 + n mod 10) :: tail)
            = scan_digits 10 (a * 10 + n mod 10) tail).
  { intros a. cbn [scan_digits]. by rewrite digit_in_dec_char. }
  destruct (Z.ltb_spec n 10).
  - exists 1. rewrite scan1. rewrite (Z.mod_small n 10) by lia. split; [f_equal; lia|lia].
  - rewrite Nat2Z.inj_succ, Z.pow_succ_r in Hn by lia.
    destruct f as [|f'].
    { simpl in Hn. lia. }
    destruct (IH (n / 10) acc (z2b (48 + n mod 10) :: tail)) as (k & Hk & Hk0).
    { split; [apply Z.div_pos; lia|]. apply Z.div_lt_upper_bound; lia. }
    { lia. }
    exists (k + 1). rewrite Hk, scan1. split; [|lia]. f_equal.
    rewrite Z.pow_add_r by lia. pose proof (Z.div_mod n 10 ltac:(lia)). nia.
Qed.

Lemma dec_digits_head (fuel : nat) : forall n tail, (0 < fuel)%nat -> 0 <= n ->
  exists k l, dec_digits fuel n tail = z2b (48 + k) :: l /\ 0 <= k < 10.
Proof.
  induction fuel as [|f IH]; intros n tail Hf Hn; [lia|]. cbn [dec_digits].
  pose proof (Z.mod_pos_bound n 10 ltac:(lia)).
  destruct (Z.ltb_spec n 10); [eauto|].
  destruct f as [|f']; [simpl; eauto|]. apply IH; [lia|]. apply Z.div_pos; lia.
Qed.

Lemma dec_digits_length (fuel : nat) : forall n tail (k : nat),
  0 <= n < 10 ^ Z.of_nat k -> (0 < k)%nat ->
  (length (dec_digits fuel n tail) <= k + length tail)%nat.
Proof.
  induction fuel as [|f IH]; intros n tail k Hn Hk; cbn [dec_digits]; [lia|].
  destruct (Z.ltb_spec n 10); [simpl; lia|].
  destruct k as [|k]; [lia|]. rewrite Nat2Z.inj_succ, Z.pow_succ_r in Hn by lia.
  destruct k as [|k]; [simpl in Hn; lia|].
  specialize (IH (n / 10) (z2b (48 + n mod 10) :: tail) (S k)).
  simpl in IH |- *. etransitivity; [apply IH|lia]; [|lia].
  split; [apply Z.div_pos; lia|]. apply Z.div_lt_upper_bound; lia.
Qed.

Lemma dec_digits_app (fuel : nat) : forall n tail rest,
  dec_digits fuel n tail ++ rest = dec_digits fuel n (tail ++ rest).
Proof.
  induction fuel as [|f IH]; intros n tail rest; cbn [dec_digits]; [done|].
  destruct (n <? 10); [done|]. by rewrite IH.
Qed.

Lemma print_nat_fuel (n : Z) : 0 <= n -> n < 10 ^ Z.of_nat (S (Z.to_nat (Z.log2 n))).
Proof.
  intros Hn. pose proof (Z.log2_nonneg n).
  rewrite Nat2Z.inj_succ, Z2Nat.id by lia.
  destruct (decide (n = 0)) as [->|]; [done|].
  pose proof (Z.log2_spec n ltac:(lia)) as [_ Hlt].
  eapply Z.lt_le_trans; [exact Hlt|]. apply Z.pow_le_mono_l. lia.
Qed.

Lemma scan_print_nat (n : Z) (rest : bytes) :
  0 <= n -> TOR_ISDIGIT (deref rest) = false ->
  scan_digits 10 0 (print_nat n ++ rest) = (n, rest).
Proof.
  intros Hn Hr. unfold print_nat. rewrite dec_digits_app. simpl app.
  destruct (scan_dec_digits (S (Z.to_nat (Z.log2 n))) n 0 rest) as (k & -> & _).
  - split; [done|]. by apply print_nat_fuel.
  - lia.
  - replace (0 * 10 ^ k + n) with n by lia.
    destruct rest as [|c rest]; [done|]. cbn [scan_digits].
    destruct (digit_in 10 c) as [d|] eqn:E; [|done].
    assert (TOR_ISDIGIT c = true) by (apply digit_in_10_isdigit; eauto).
    simpl in Hr. congruence.
Qed.

Lemma print_nat_head (n : Z) : 0 <= n ->
  exists c l, print_nat n = c :: l /\ TOR_ISDIGIT c = true.
Proof.
  intros Hn. destruct (dec_digits_head (S (Z.to_nat (Z.log2 n))) n []) as (k & l & H & Hk).
  - lia.
  - done.
  - exists (z2b (48 + k)), l. split; [exact H|]. by apply isdigit_dec_char.
Qed.

Lemma print_nat_length (n : Z) : 0 <= n <= INT32_MAX -> (length (print_nat n) <= 10)%nat.
Proof.
  intros Hn. unfold print_nat.
  pose proof (dec_digits_length (S (Z.to_nat (Z.log2 n))) n [] 10) as H.
  simpl length in H at 2. rewrite Nat.add_0_r in H. apply H; [|lia].
  unfold INT32_MAX in Hn. split; [lia|]. simpl. lia.
Qed.

Lemma isdigit_not_space (c : ascii) : TOR_ISDIGIT c = true ->
  isspace c = false /\ (b2z c =? 45) = false /\ (b2z c =? 43) = false.
Proof. unfold TOR_ISDIGIT, isspace. lia. Qed.

(** [strtox] in base 10 on a string that begins with a digit. *)
Lemma strtox_10 (c : ascii) (s : bytes) : TOR_ISDIGIT c = true ->
  strtox 10 (c :: s) = Some (false, fst (scan_digits 10 0 (c :: s)),
                                snd (scan_digits 10 0 (c :: s))).
Proof.
  intros Hc. destruct (isdigit_not_space c Hc) as (H1 & H2 & H3).
  unfold strtox. cbn [skip_space]. rewrite H1, H2, H3. unfold resolve_base.
  change ((10 =? 0) || (10 =? 16)) with false.
  change (10 =? 0) with false. cbn [andb]. cbn iota beta.
  apply digit_in_10_isdigit in Hc as [d Hd]. cbn [deref]. rewrite Hd.
  by destruct (scan_digits 10 0 (c :: s)).
Qed.

Lemma strtox_10_neg (c : ascii) (s : bytes) : TOR_ISDIGIT c = true ->
  strtox 10 ("-"%char :: c :: s) = Some (true, fst (scan_digits 10 0 (c :: s)),
                                snd (scan_digits 10 0 (c :: s))).
Proof.
  intros Hc. unfold strtox. cbn [skip_space].
  change (isspace "-"%char) with false. cbn iota beta.
  change (b2z "-"%char =? 45) with true. cbn iota beta.
  unfold resolve_base. change ((10 =? 0) || (10 =? 16)) with false.
  change (10 =? 0) with false. cbn [andb]. cbn iota beta.
  apply digit_in_10_isdigit in Hc as [d Hd]. cbn [deref]. rewrite Hd.
  by destruct (scan_digits 10 0 (c :: s)).
Qed.

Lemma app_ne_suffix {A} (l rest : list A) : l <> [] -> rest <> l ++ rest.
Proof.
  intros Hl H. apply (f_equal length) in H. rewrite length_app in H.
  destruct l; simpl in *; [done|lia].
Qed.

(** A value that [strtol] can hold, printed and followed by anything that is not
    a digit, is what [tor_parse_long] reads, with [next] at the rest. *)
Lemma tor_parse_long_print (z min max : Z) (rest : bytes) :
  LONG_MIN <= z <= LONG_MAX -> min <= z <= max -> TOR_ISDIGIT (deref rest) = false ->
  tor_parse_long (print_int z ++ rest) 10 min max true
  = {| p_val := z; p_ok := true; p_next := Some rest |}.
Proof.
  intros Hl Hr Hd. unfold tor_parse_long. change (10 <? 0) with false. cbn iota.
  assert (Hs : strtol (print_int z ++ rest) 10
               = {| st_val := z; st_end := rest; st_erange := false |}).
  { unfold strtol, print_int. destruct (Z.ltb_spec z 0).
    - destruct (print_nat_head (- z)) as (c & l & Hp & Hc); [lia|].
      pose proof (scan_print_nat (- z) rest ltac:(lia) Hd) as Hscan.
      rewrite Hp in *. cbn [app] in *. rewrite strtox_10_neg, Hscan by done.
      cbn [fst snd]. rewrite Z.opp_involutive.
      destruct (Z.ltb_spec z LONG_MIN); [lia|]. destruct (Z.ltb_spec LONG_MAX z); [lia|done].
    - destruct (print_nat_head z) as (c & l & Hp & Hc); [lia|].
      pose proof (scan_print_nat z rest ltac:(lia) Hd) as Hscan.
      rewrite Hp in *. cbn [app] in *. rewrite strtox_10, Hscan by done. cbn [fst snd].
      destruct (Z.ltb_spec z LONG_MIN); [lia|]. destruct (Z.ltb_spec LONG_MAX z); [lia|done]. }
  rewrite Hs. unfold CHECK_STRTOX_RESULT. cbn [st_erange st_end st_val].
  rewrite bool_decide_false.
  - cbn. destruct (Z.ltb_spec max min); [lia|].
    destruct (Z.ltb_spec z min); [lia|]. destruct (Z.ltb_spec max z); [lia|]. done.
  - apply app_ne_suffix. unfold print_int. destruct (Z.ltb_spec z 0); [done|].
    by destruct (print_nat_head z ltac:(lia)) as (c & l & -> & _).
Qed.

Lemma strtol_print (z : Z) (rest : bytes) : TOR_ISDIGIT (deref rest) = false ->
  strtol (print_int z ++ rest) 10
  = {| st_val := Z.max LONG_MIN (Z.min z LONG_MAX); st_end := rest;
       st_erange := (z <? LONG_MIN) || (LONG_MAX <? z) |}.
Proof.
  intros Hd.
  assert (Hs : exists neg v, strtox 10 (print_int z ++ rest) = Some (neg, v, rest) /\
            (if neg : bool then - v else v) = z).
  { unfold print_int. destruct (Z.ltb_spec z 0).
    - destruct (print_nat_head (- z)) as (c & l & Hp & Hc); [lia|].
      pose proof (scan_print_nat (- z) rest ltac:(lia) Hd) as Hscan.
      rewrite Hp in *. cbn [app] in *. rewrite strtox_10_neg, Hscan by done.
      exists true, (- z). split; [done|lia].
    - destruct (print_nat_head z) as (c & l & Hp & Hc); [lia|].
      pose proof (scan_print_nat z rest ltac:(lia) Hd) as Hscan.
      rewrite Hp in *. cbn [app] in *. rewrite strtox_10, Hscan by done.
      by exists false, z. }
  destruct Hs as (neg & v & Hs & Hz). unfold strtol. rewrite Hs, Hz.
  unfold LONG_MIN, LONG_MAX. repeat cases_b; f_equal; lia.
Qed.

Lemma print_int_nonnil (z : Z) : print_int z <> [].
Proof.
  unfold print_int. destruct (Z.ltb_spec z 0); [done|].
  by destruct (print_nat_head z ltac:(lia)) as (c & l & -> & _).
Qed.

(** The same for the unsigned conversion. *)
Lemma tor_parse_ulong_print (z min max : Z) (rest : bytes) :
  0 <= z <= ULONG_MAX -> min <= z <= max -> TOR_ISDIGIT (deref rest) = false ->
  tor_parse_ulong (print_int z ++ rest) 10 min max true
  = {| p_val := z; p_ok := true; p_next := Some rest |}.
Proof.
  intros Hl Hr Hd. unfold tor_parse_ulong. change (10 <? 0) with false. cbn iota.
  assert (Hs : strtoul (print_int z ++ rest) 10
               = {| st_val := z; st_end := rest; st_erange := false |}).
  { unfold strtoul, print_int. rewrite (proj2 (Z.ltb_ge _ _)) by lia.
    destruct (print_nat_head z) as (c & l & Hp & Hc); [lia|].
    pose proof (scan_print_nat z rest ltac:(lia) Hd) as Hscan.
    rewrite Hp in *. cbn [app] in *. rewrite strtox_10, Hscan by done. cbn [fst snd].
    by rewrite (proj2 (Z.ltb_ge _ _)) by lia. }
  rewrite Hs. unfold CHECK_STRTOX_RESULT. cbn [st_erange st_end st_val].
  rewrite bool_decide_false by apply app_ne_suffix, print_int_nonnil.
  cbn [negb andb]. rewrite !(proj2 (Z.ltb_ge _ _)) by lia. done.
Qed.

Lemma CHECK_STRTOX_bounds (s : bytes) (min max : Z) (next : bool) (r : strto_res) :
  p_ok (CHECK_STRTOX_RESULT s min max next r) = true ->
  min <= p_val (CHECK_STRTOX_RESULT s min max next r) <= max.
Proof.
  unfold CHECK_STRTOX_RESULT. destruct (st_erange r); [done|]. case_bool_decide; [done|].
  destruct (_ && _); [done|]. destruct (max <? min); [done|].
  destruct ((st_val r <? min) || (max <? st_val r)) eqn:E; [done|].
  apply orb_false_iff in E as [?%Z.ltb_ge ?%Z.ltb_ge]. cbn. lia.
Qed.

Lemma tor_parse_long_bounds (s : bytes) (base min max : Z) (next : bool) :
  p_ok (tor_parse_long s base min max next) = true ->
  min <= p_val (tor_parse_long s base min max next) <= max.
Proof. unfold tor_parse_long. destruct (base <? 0); [done|apply CHECK_STRTOX_bounds]. Qed.

(** ** Properties *)

(** [tor_parse_long] on the decimal numeral of any integer, however large, followed by any
    text that does not start with a digit: it succeeds with exactly that value when the
    value is a [long] within the caller's bounds and, if the caller passed no [next], the text is empty;
    in every other case (overflow of [long] included) it returns 0 and clears [ok].
    [next] is set to the text in both cases. *)
Theorem tor_parse_long_exact (z min max : Z) (rest : bytes) (next : bool) :
  TOR_ISDIGIT (deref rest) = false ->
  let good := (LONG_MIN <=? z) && (z <=? LONG_MAX) && (min <=? z) && (z <=? max)
              && (next || (b2z (deref rest) =? 0)) in
  tor_parse_long (print_int z ++ rest) 10 min max next
  = {| p_val := if good then z else 0; p_ok := good;
       p_next := if next then Some rest else None |}.
Proof.
  intros Hd good. unfold tor_parse_long. change (10 <? 0) with false. cbn iota.
  rewrite strtol_print by done. unfold CHECK_STRTOX_RESULT. cbn [st_erange st_end st_val].
  rewrite bool_decide_false by (apply app_ne_suffix, print_int_nonnil).
  unfold good, LONG_MIN, LONG_MAX.
  destruct next; cbn [negb andb orb]; destruct (b2z (deref rest) =? 0); cbn [negb];
    repeat cases_b; f_equal; lia.
Qed.

Theorem tor_parse_long_exact_witness :
  tor_parse_long (bs "9223372036854775808 ") 10 0 LONG_MAX true
  = {| p_val := 0; p_ok := false; p_next := Some [SP] |}.
Proof. apply (tor_parse_long_exact 9223372036854775808 0 LONG_MAX [SP] true). reflexivity. Defined.

(** What [tor_parse_uint64] accepts is within the bounds the caller gave and, when the
    caller passed no [next], the whole string was converted; otherwise 0 is returned. *)
Theorem tor_parse_uint64_bounds (s : bytes) (base min max : Z) (next : bool) :
  let r := tor_parse_uint64 s base min max next in
  (p_ok r = true -> min <= p_val r <= max /\ st_end (strtoul s base) <> s /\
     (next = false -> b2z (deref (st_end (strtoul s base))) = 0)) /\
  (p_ok r = false -> p_val r = 0).
Proof.
  unfold tor_parse_uint64. destruct (base <? 0); [done|].
  unfold CHECK_STRTOX_RESULT. destruct (st_erange _); [done|].
  case_bool_decide; [done|].
  destruct next; cbn [negb andb].
  - destruct (Z.ltb_spec max min); [done|].
    destruct (Z.ltb_spec (st_val (strtoul s base)) min); [done|].
    destruct (Z.ltb_spec max (st_val (strtoul s base))); [done|]. cbn. split; [|done].
    intros _. split; [lia|]. by split.
  - destruct (Z.eqb_spec (b2z (deref (st_end (strtoul s base)))) 0); cbn [negb]; [|done].
    destruct (Z.ltb_spec max min); [done|].
    destruct (Z.ltb_spec (st_val (strtoul s base)) min); [done|].
    destruct (Z.ltb_spec max (st_val (strtoul s base))); [done|]. cbn. split; [|done].
    intros _. split; [lia|]. by split.
Qed.

Theorem tor_parse_uint64_bounds_witness :
  (7 <= p_val (tor_parse_uint64 (bs "42") 10 7 100 false) <= 100) /\
  p_val (tor_parse_uint64 (bs "42") 10 7 100 false) = 42.
Proof.
  split; [|reflexivity]. apply (tor_parse_uint64_bounds (bs "42") 10 7 100 false). reflexivity.
Defined.
