(* ===== verification/Bitarray.v ===== *)
(** * Bit arrays: [src/BADNET/src/lib/container/bitarray.h]

    The word-level implementation ([unsigned int] words of 32 bits) and the interface
    [BitArray] its clients are proved against, with the words as its instance. *)

From S2P Require Import Prelude.

(** ** The interface *)

Class BitArray (T : Type) := {
  ba_init_zero : Z -> T;
  ba_expand : T -> Z -> Z -> T;
  ba_set : T -> Z -> outcome T;
  ba_clear : T -> Z -> outcome T;
  ba_is_set : T -> Z -> outcome bool;
}.

(** [ba_repr t l]: [t] holds exactly the bits [l], and zeros in its slack. *)
Class BitArrayLaws (T : Type) `{BitArray T} := {
  ba_repr : T -> list bool -> Prop;
  ba_repr_zero (n : nat) : Z.of_nat n <= INT_MAX ->
    ba_repr (ba_init_zero (Z.of_nat n)) (replicate n false);
  ba_repr_set t l i : ba_repr t l -> (i < length l)%nat ->
    exists t', ba_set t (Z.of_nat i) = Ok t' /\ ba_repr t' (<[i := true]> l);
  ba_repr_clear t l i : ba_repr t l -> (i < length l)%nat ->
    exists t', ba_clear t (Z.of_nat i) = Ok t' /\ ba_repr t' (<[i := false]> l);
  ba_repr_is_set t l i b : ba_repr t l -> l !! i = Some b ->
    ba_is_set t (Z.of_nat i) = Ok b;
  ba_repr_expand t l (n : nat) : ba_repr t l -> (length l <= n)%nat ->
    Z.of_nat n <= INT_MAX ->
    ba_repr (ba_expand t (Z.of_nat (length l)) (Z.of_nat n))
            (l ++ replicate (n - length l) false);
}.

(** ** The implementation *)

Definition BITARRAY_SHIFT : Z := 5.
Definition BITARRAY_MASK : Z := Z.shiftl 1 BITARRAY_SHIFT - 1.

Abbreviation bitarray_t := (list Z).

Definition ba_words (n_bits : Z) : Z :=
  Z.shiftr (wrap 32 (n_bits + BITARRAY_MASK)) BITARRAY_SHIFT.

Definition bitarray_init_zero (n_bits : Z) : bitarray_t :=
  replicate (Z.to_nat (ba_words n_bits)) 0.

Definition bitarray_expand (ba : bitarray_t) (n_bits_old n_bits_new : Z) : bitarray_t :=
  let sz_old := ba_words n_bits_old in
  let sz_new := ba_words n_bits_new in
  if sz_new <=? sz_old then ba
  else take (Z.to_nat sz_old) ba ++ replicate (Z.to_nat (sz_new - sz_old)) 0.

Definition bitarray_set (b : bitarray_t) (bit : Z) : outcome bitarray_t :=
  let i := Z.shiftr bit BITARRAY_SHIFT in
  let* w := get (aget b i) in
  aset b i (Z.lor w (wrap 32 (Z.shiftl 1 (Z.land bit BITARRAY_MASK)))).

Definition bitarray_clear (b : bitarray_t) (bit : Z) : outcome bitarray_t :=
  let i := Z.shiftr bit BITARRAY_SHIFT in
  let* w := get (aget b i) in
  aset b i (Z.land w (wrap 32 (Z.lnot (Z.shiftl 1 (Z.land bit BITARRAY_MASK))))).

(** The C function returns the masked word; its clients test it against zero. *)
Definition bitarray_is_set (b : bitarray_t) (bit : Z) : outcome Z :=
  let* w := get (aget b (Z.shiftr bit BITARRAY_SHIFT)) in
  Ok (Z.land w (wrap 32 (Z.shiftl 1 (Z.land bit BITARRAY_MASK)))).

#[export] Instance bitarray_words : BitArray bitarray_t := {|
  ba_init_zero := bitarray_init_zero;
  ba_expand := bitarray_expand;
  ba_set := bitarray_set;
  ba_clear := bitarray_clear;
  ba_is_set b i := let* r := bitarray_is_set b i in Ok (negb (r =? 0));
|}.

(** ** Representation *)

Definition bit_at (b : bitarray_t) (i : nat) : bool :=
  Z.testbit (default 0 (b !! (i / 32)%nat)) (Z.of_nat (i mod 32)).

Definition words_repr (b : bitarray_t) (l : list bool) : Prop :=
  length b = ((length l + 31) / 32)%nat /\
  Forall (fun w => 0 <= w < 2 ^ 32) b /\
  (forall i, bit_at b i = default false (l !! i)).

Lemma bit_index (i : nat) :
  Z.shiftr (Z.of_nat i) BITARRAY_SHIFT = Z.of_nat (i / 32) /\
  Z.land (Z.of_nat i) BITARRAY_MASK = Z.of_nat (i mod 32).
Proof.
  unfold BITARRAY_MASK, BITARRAY_SHIFT. split.
  - rewrite Z.shiftr_div_pow2 by lia. rewrite Nat2Z.inj_div. done.
  - change (Z.shiftl 1 5 - 1) with (Z.ones 5). rewrite Z.land_ones by lia.
    rewrite Nat2Z.inj_mod. done.
Qed.

Lemma ba_words_nat (n : nat) : Z.of_nat n <= INT_MAX ->
  ba_words (Z.of_nat n) = Z.of_nat ((n + 31) / 32).
Proof.
  unfold INT_MAX. intros Hn. unfold ba_words, BITARRAY_MASK, BITARRAY_SHIFT, wrap.
  change (Z.shiftl 1 5 - 1) with 31. rewrite Z.mod_small by lia.
  rewrite Z.shiftr_div_pow2 by lia. rewrite Nat2Z.inj_div, Nat2Z.inj_add. done.
Qed.

Lemma mask_wrap (k : nat) : (k < 32)%nat ->
  wrap 32 (Z.shiftl 1 (Z.of_nat k)) = 2 ^ Z.of_nat k.
Proof.
  intros Hk. unfold wrap. rewrite Z.shiftl_mul_pow2, Z.mul_1_l by lia.
  apply Z.mod_small. split; [apply Z.pow_nonneg; lia|]. apply Z.pow_lt_mono_r; lia.
Qed.

Lemma testbit_high (w : Z) (k : Z) : 0 <= w < 2 ^ 32 -> 32 <= k -> Z.testbit w k = false.
Proof.
  intros Hw Hk. rewrite <-(Z.mod_small w (2 ^ 32)) by done.
  apply Z.mod_pow2_bits_high. lia.
Qed.

Lemma bits_range (w : Z) : 0 <= w -> (forall k, 32 <= k -> Z.testbit w k = false) ->
  0 <= w < 2 ^ 32.
Proof.
  intros Hw Hb. split; [done|].
  assert (w mod 2 ^ 32 = w) as <-.
  { apply Z.bits_inj'. intros k Hk. destruct (Z.le_gt_cases 32 k).
    - rewrite Z.mod_pow2_bits_high by lia. by rewrite Hb.
    - by rewrite Z.mod_pow2_bits_low by lia. }
  apply Z.mod_pos_bound. lia.
Qed.

Lemma bit_at_insert (b : bitarray_t) (j : nat) (w : Z) (i : nat) :
  (j < length b)%nat ->
  bit_at (<[j := w]> b) i =
    if decide (i / 32 = j)%nat then Z.testbit w (Z.of_nat (i mod 32)) else bit_at b i.
Proof.
  intros Hj. unfold bit_at. case_decide as E.
  - subst. by rewrite list_lookup_insert_eq.
  - by rewrite list_lookup_insert_ne.
Qed.

Lemma words_index (b : bitarray_t) (l : list bool) (i : nat) :
  words_repr b l -> (i < length l)%nat -> (i / 32 < length b)%nat.
Proof.
  intros (-> & _ & _) Hi.
  assert (i / 32 < (length l + 31) / 32)%nat; [|done].
  apply Nat.Div0.div_lt_upper_bound.
  pose proof (Nat.div_mod (length l + 31) 32 ltac:(lia)).
  pose proof (Nat.mod_upper_bound (length l + 31) 32 ltac:(lia)). lia.
Qed.

(** Replacing word [i / 32] by one that differs from it in bit [i mod 32] alone
    represents the update of bit [i]. *)
Lemma words_repr_update (b : bitarray_t) (l : list bool) (i : nat) (w w' : Z) (v : bool) :
  words_repr b l -> (i < length l)%nat -> b !! (i / 32)%nat = Some w ->
  0 <= w' ->
  (forall k, 0 <= k -> Z.testbit w' k =
     if decide (k = Z.of_nat (i mod 32)) then v else Z.testbit w k) ->
  words_repr (<[(i / 32)%nat := w']> b) (<[i := v]> l).
Proof.
  intros Hr Hi Hw Hpos Hbits. pose proof (words_index _ _ _ Hr Hi) as Hj.
  destruct Hr as (Hlen & Hall & Hrep).
  pose proof (Forall_lookup_1 _ _ _ _ Hall Hw) as Hwr. simpl in Hwr.
  pose proof (Nat.mod_upper_bound i 32 ltac:(lia)) as Hm.
  split; [by rewrite !length_insert|]. split.
  - apply Forall_insert; [done|]. apply bits_range; [done|]. intros k Hk.
    rewrite Hbits by lia. case_decide; [lia|]. by apply testbit_high.
  - intros k. rewrite bit_at_insert by done. case_decide as E.
    + rewrite Hbits by lia. case_decide as E'.
      * assert (k = i) as ->.
        { pose proof (Nat.div_mod k 32 ltac:(lia)). pose proof (Nat.div_mod i 32 ltac:(lia)).
          lia. }
        by rewrite list_lookup_insert_eq.
      * rewrite list_lookup_insert_ne by congruence.
        rewrite <-Hrep. unfold bit_at. by rewrite E, Hw.
    + rewrite list_lookup_insert_ne by congruence. apply Hrep.
Qed.

Lemma words_access (b : bitarray_t) (l : list bool) (i : nat) :
  words_repr b l -> (i < length l)%nat ->
  exists w, b !! (i / 32)%nat = Some w /\ 0 <= w < 2 ^ 32.
Proof.
  intros Hr Hi. pose proof (words_index _ _ _ Hr Hi) as Hj.
  apply lookup_lt_is_Some in Hj as [w Hw]. exists w. split; [done|].
  destruct Hr as (_ & Hall & _). by apply (Forall_lookup_1 _ _ _ _ Hall Hw).
Qed.

Lemma words_set (b : bitarray_t) (l : list bool) (i : nat) :
  words_repr b l -> (i < length l)%nat ->
  exists b', bitarray_set b (Z.of_nat i) = Ok b' /\ words_repr b' (<[i := true]> l).
Proof.
  intros Hr Hi. destruct (words_access _ _ _ Hr Hi) as (w & Hw & Hwr).
  pose proof (words_index _ _ _ Hr Hi) as Hj.
  pose proof (Nat.mod_upper_bound i 32 ltac:(lia)) as Hm.
  destruct (bit_index i) as [E1 E2].
  unfold bitarray_set. rewrite E1, E2, aget_nat, Hw. cbn [get obind].
  rewrite mask_wrap by done. rewrite aset_nat by done. eexists. split; [done|].
  apply (words_repr_update _ _ _ w); [done|done|done| |].
  - apply Z.lor_nonneg. split; [lia|]. apply Z.pow_nonneg. lia.
  - intros k Hk. rewrite Z.lor_spec, Z.pow2_bits_eqb by lia.
    case_decide as E; [subst; rewrite Z.eqb_refl; apply orb_true_r|].
    replace (Z.of_nat (i mod 32) =? k) with false by (symmetry; apply Z.eqb_neq; congruence).
    apply orb_false_r.
Qed.

Lemma words_clear (b : bitarray_t) (l : list bool) (i : nat) :
  words_repr b l -> (i < length l)%nat ->
  exists b', bitarray_clear b (Z.of_nat i) = Ok b' /\ words_repr b' (<[i := false]> l).
Proof.
  intros Hr Hi. destruct (words_access _ _ _ Hr Hi) as (w & Hw & Hwr).
  pose proof (words_index _ _ _ Hr Hi) as Hj.
  pose proof (Nat.mod_upper_bound i 32 ltac:(lia)) as Hm.
  destruct (bit_index i) as [E1 E2].
  unfold bitarray_clear. rewrite E1, E2, aget_nat, Hw. cbn [get obind].
  rewrite aset_nat by done. eexists. split; [done|].
  apply (words_repr_update _ _ _ w); [done|done|done| |].
  - apply Z.land_nonneg. lia.
  - intros k Hk. rewrite Z.land_spec. unfold wrap.
    rewrite Z.shiftl_mul_pow2, Z.mul_1_l by lia.
    destruct (Z.le_gt_cases 32 k).
    + rewrite Z.mod_pow2_bits_high by lia. rewrite andb_false_r.
      case_decide; [done|]. symmetry. by apply testbit_high.
    + rewrite Z.mod_pow2_bits_low by lia. rewrite Z.lnot_spec, Z.pow2_bits_eqb by lia.
      case_decide as E; [subst; rewrite Z.eqb_refl; apply andb_false_r|].
      replace (Z.of_nat (i mod 32) =? k) with false by (symmetry; apply Z.eqb_neq; congruence).
      apply andb_true_r.
Qed.

Lemma words_is_set (b : bitarray_t) (l : list bool) (i : nat) (v : bool) :
  words_repr b l -> l !! i = Some v ->
  (let* r := bitarray_is_set b (Z.of_nat i) in Ok (negb (r =? 0))) = Ok v.
Proof.
  intros Hr Hv. pose proof (lookup_lt_Some _ _ _ Hv) as Hi.
  destruct (words_access _ _ _ Hr Hi) as (w & Hw & Hwr).
  pose proof (Nat.mod_upper_bound i 32 ltac:(lia)) as Hm.
  destruct (bit_index i) as [E1 E2].
  unfold bitarray_is_set. rewrite E1, E2, aget_nat, Hw. cbn [get obind].
  rewrite mask_wrap by done. f_equal.
  destruct Hr as (_ & _ & Hrep). specialize (Hrep i). rewrite Hv in Hrep. simpl in Hrep.
  unfold bit_at in Hrep. rewrite Hw in Hrep. simpl in Hrep. rewrite <-Hrep.
  destruct (Z.testbit w (Z.of_nat (i mod 32))) eqn:T.
  - destruct (Z.eqb_spec (Z.land w (2 ^ Z.of_nat (i mod 32))) 0) as [E|]; [|done].
    apply (f_equal (fun z => Z.testbit z (Z.of_nat (i mod 32)))) in E.
    rewrite Z.land_spec, T, Z.pow2_bits_true, Z.testbit_0_l in E by lia. done.
  - destruct (Z.eqb_spec (Z.land w (2 ^ Z.of_nat (i mod 32))) 0) as [|E]; [done|].
    exfalso. apply E. apply Z.bits_inj'. intros k Hk.
    rewrite Z.land_spec, Z.pow2_bits_eqb, Z.testbit_0_l by lia.
    destruct (Z.eqb_spec (Z.of_nat (i mod 32)) k) as [<-|]; [by rewrite T|apply andb_false_r].
Qed.

Lemma words_zero (n : nat) : Z.of_nat n <= INT_MAX ->
  words_repr (bitarray_init_zero (Z.of_nat n)) (replicate n false).
Proof.
  intros Hn. unfold bitarray_init_zero. rewrite ba_words_nat, Nat2Z.id by done.
  split; [by rewrite !length_replicate|]. split.
  - apply Forall_replicate. lia.
  - intros i. unfold bit_at.
    assert (default 0 (replicate ((n + 31) / 32) 0 !! (i / 32)%nat) = 0) as ->.
    { destruct (_ !! _) eqn:E; [|done]. by apply lookup_replicate in E as [-> _]. }
    rewrite Z.testbit_0_l. destruct (replicate n false !! i) eqn:E; [|done].
    by apply lookup_replicate in E as [-> _].
Qed.

Lemma default_app_replicate {A} (l : list A) (n i : nat) (d : A) :
  default d ((l ++ replicate n d) !! i) = default d (l !! i).
Proof.
  destruct (decide (i < length l)%nat).
  - by rewrite lookup_app_l.
  - rewrite lookup_app_r by lia. rewrite (lookup_ge_None_2 l) by lia.
    destruct (_ !! _) eqn:E; [|done]. by apply lookup_replicate in E as [-> _].
Qed.

Lemma words_expand (b : bitarray_t) (l : list bool) (n : nat) :
  words_repr b l -> (length l <= n)%nat -> Z.of_nat n <= INT_MAX ->
  words_repr (bitarray_expand b (Z.of_nat (length l)) (Z.of_nat n))
             (l ++ replicate (n - length l) false).
Proof.
  intros (Hlen & Hall & Hrep) Hl Hn. unfold bitarray_expand.
  rewrite !ba_words_nat by lia.
  assert (Hmono : ((length l + 31) / 32 <= (n + 31) / 32)%nat)
    by (apply Nat.Div0.div_le_mono; lia).
  assert (Htot : length (l ++ replicate (n - length l) false) = n)
    by (rewrite length_app, length_replicate; lia).
  destruct (Z.leb_spec (Z.of_nat ((n + 31) / 32)) (Z.of_nat ((length l + 31) / 32))).
  - split; [rewrite Htot; lia|]. split; [done|]. intros i.
    by rewrite default_app_replicate.
  - rewrite Nat2Z.id, take_ge by lia.
    split; [rewrite length_app, length_replicate, Htot; lia|]. split.
    + apply Forall_app. split; [done|]. apply Forall_replicate. lia.
    + intros i. rewrite default_app_replicate, <-Hrep. unfold bit_at.
      by rewrite default_app_replicate.
Qed.

#[export] Instance bitarray_words_laws : BitArrayLaws bitarray_t := {|
  ba_repr := words_repr;
  ba_repr_zero := words_zero;
  ba_repr_set := words_set;
  ba_repr_clear := words_clear;
  ba_repr_is_set := words_is_set;
  ba_repr_expand := words_expand;
|}.
