(* ===== verification/DiOps.v ===== *)
(** * Data-independent operations: [src/BADNET/src/lib/ctime/di_ops.c]

    The comparisons, lookups and selections that avoid branches on secret data, with
    the masks and shifts the code computes, and their equivalence with the obvious
    definitions. A [uint32_t] or [uintptr_t] is a [Z] with its wrap-around written out. *)

From S2P Require Import Prelude ParseInt.

(** ** Memory comparison *)

(** One turn of the loop of [tor_memcmp], on [int]s. *)
Definition memcmp_step (retval v1 v2 : Z) : Z :=
  let equal_p := Z.shiftr (Z.lxor v1 v2 - 1) 8 in
  Z.land retval equal_p + (v1 - v2).

Fixpoint memcmp_loop (i : nat) (x y : bytes) (retval : Z) : outcome Z :=
  match i with
  | O => Ok retval
  | S i' =>
      let* v1 := get (x !! i') in
      let* v2 := get (y !! i') in
      memcmp_loop i' x y (memcmp_step retval (b2z v1) (b2z v2))
  end.

Definition tor_memcmp (a b : bytes) (len : nat) : outcome Z := memcmp_loop len a b 0.

Fixpoint memeq_loop (sz : nat) (ba bb : bytes) (any_difference : Z) : outcome Z :=
  match sz with
  | O => Ok any_difference
  | S sz' =>
      match ba, bb with
      | c :: ba', d :: bb' =>
          memeq_loop sz' ba' bb' (Z.lor any_difference (Z.lxor (b2z c) (b2z d)))
      | _, _ => Stuck
      end
  end.

(** [1 & ((x - 1) >> 8)] on a [uint32_t]. *)
Definition is_zero_bit (x : Z) : Z := Z.land 1 (Z.shiftr (wrap 32 (x - 1)) 8).

Definition tor_memeq (a b : bytes) (sz : nat) : outcome Z :=
  let* any_difference := memeq_loop sz a b 0 in Ok (is_zero_bit any_difference).

Fixpoint mem_or_loop (sz : nat) (mem : bytes) (total : Z) : outcome Z :=
  match sz with
  | O => Ok total
  | S sz' => match mem with
             | c :: mem' => mem_or_loop sz' mem' (Z.lor total (b2z c))
             | [] => Stuck
             end
  end.

Definition safe_mem_is_zero (mem : bytes) (sz : nat) : outcome Z :=
  let* total := mem_or_loop sz mem 0 in Ok (is_zero_bit total).

(** ** The digest map: a linked list, the newest entry first *)

Definition DIGEST256_LEN : nat := 32.

Record di_entry := { ent_key : bytes; ent_val : Z }.
Abbreviation di_digest256_map := (list di_entry).

Definition lnot64 (z : Z) : Z := wrap 64 (Z.lnot z).

Fixpoint dimap_search (map : di_digest256_map) (key : bytes) (result : Z) : outcome Z :=
  match map with
  | [] => Ok result
  | e :: map' =>
      let* r := tor_memeq (ent_key e) key DIGEST256_LEN in
      let r := wrap 64 (r - 1) in
      let result := Z.lor (Z.land result r) (Z.land (ent_val e) (lnot64 r)) in
      dimap_search map' key result
  end.

Definition dimap_add_entry (map : di_digest256_map) (key : bytes) (val : Z)
    : outcome di_digest256_map :=
  let* old_val := dimap_search map key 0 in
  tor_assert (old_val =? 0) (
  tor_assert (negb (val =? 0)) (
  Ok ({| ent_key := take DIGEST256_LEN key; ent_val := val |} :: map))).

(** ** Cumulative selection *)

Definition INT64_MAX : Z := 9223372036854775807.

Fixpoint select_loop (entries : list Z) (i i_chosen n_chosen total_so_far rand_val : Z)
    : Z * Z * Z :=
  match entries with
  | [] => (i_chosen, n_chosen, total_so_far)
  | x :: entries' =>
      let total_so_far := wrap 64 (total_so_far + x) in
      if rand_val <? total_so_far
      then select_loop entries' (i + 1) i (n_chosen + 1) total_so_far INT64_MAX
      else select_loop entries' (i + 1) i_chosen n_chosen total_so_far rand_val
  end.

Definition select_array_member_cumulative_timei (entries : list Z) (total rand_val : Z)
    : outcome Z :=
  let '(i_chosen, n_chosen, total_so_far) := select_loop entries 0 (-1) 0 0 rand_val in
  tor_assert (total_so_far =? total) (
  tor_assert (n_chosen =? 1) (
  tor_assert (0 <=? i_chosen) (
  tor_assert (i_chosen <? zlen entries) (Ok i_chosen)))).

(** ** Conditional copy *)

(** On bytes: [(d & ~mask) | (s & mask)]. *)
Definition mask_byte (mask : Z) (d s : ascii) : ascii :=
  z2b (Z.lor (Z.land (b2z d) (wrap 8 (Z.lnot mask))) (Z.land (b2z s) mask)).

Fixpoint copy_loop (n : nat) (mask : Z) (dest src : bytes) : outcome bytes :=
  match n with
  | O => Ok dest
  | S n' => match dest, src with
            | d :: dest', s :: src' =>
                let* r := copy_loop n' mask dest' src' in Ok (mask_byte mask d s :: r)
            | _, _ => Stuck
            end
  end.

Definition memcpy_if_true_timei (s : bool) (dest src : bytes) (n : nat) : outcome bytes :=
  copy_loop n (wrap 8 (- (if s then 1 else 0))) dest src.

(** ** The obvious definitions *)

(** [memcmp]: the difference at the first byte that differs. *)
Fixpoint first_diff (a b : bytes) : Z :=
  match a, b with
  | c :: a', d :: b' => if b2z c =? b2z d then first_diff a' b' else b2z c - b2z d
  | _, _ => 0
  end.

(** The first index whose running total exceeds [r]. *)
Fixpoint first_above (entries : list Z) (r : Z) : option nat :=
  match entries with
  | [] => None
  | x :: entries' => if r <? x then Some O else S <$> first_above entries' (r - x)
  end.

(** ** Lemmas *)

Lemma lxor_byte (c d : ascii) :
  0 <= Z.lxor (b2z c) (b2z d) < 256 /\ (Z.lxor (b2z c) (b2z d) = 0 <-> c = d).
Proof.
  pose proof (b2z_range c); pose proof (b2z_range d). split.
  - assert (Z.lxor (b2z c) (b2z d) = Z.lxor (b2z c) (b2z d) mod 2 ^ 8) as ->.
    { rewrite <- Z.land_ones by lia. apply Z.bits_inj'. intros i Hi.
      rewrite Z.land_spec, Z.lxor_spec, Z.testbit_ones_nonneg by lia.
      destruct (Z.ltb_spec i 8); [by rewrite andb_true_r|]. rewrite andb_false_r.
      rewrite <- (Z.mod_small (b2z c) (2 ^ 8)), <- (Z.mod_small (b2z d) (2 ^ 8)) by lia.
      by rewrite !Z.mod_pow2_bits_high by lia. }
    apply Z.mod_pos_bound. lia.
  - split; [intros ?%Z.lxor_eq; by apply b2z_inj|]. intros ->. apply Z.lxor_nilpotent.
Qed.

Lemma memcmp_step_ok (retval : Z) (c d : ascii) :
  memcmp_step retval (b2z c) (b2z d)
  = if b2z c =? b2z d then retval else b2z c - b2z d.
Proof.
  unfold memcmp_step. pose proof (lxor_byte c d) as [H1 H2].
  rewrite Z.shiftr_div_pow2 by lia. change (2 ^ 8) with 256.
  destruct (Z.eqb_spec (b2z c) (b2z d)) as [E|E].
  - apply b2z_inj in E as ->. rewrite Z.lxor_nilpotent. change ((0 - 1) / 256) with (-1).
    rewrite Z.land_m1_r. lia.
  - assert (Z.lxor (b2z c) (b2z d) <> 0) by (intros ->%H2; done).
    replace ((Z.lxor (b2z c) (b2z d) - 1) / 256) with 0 by dlia.
    rewrite Z.land_0_r. lia.
Qed.

Lemma first_diff_app (a b a' b' : bytes) : length a = length b ->
  first_diff (a ++ a') (b ++ b')
  = if bool_decide (a = b) then first_diff a' b' else first_diff a b.
Proof.
  revert b. induction a as [|c a IH]; intros [|d b] Hl; try done.
  cbn [app first_diff]. injection Hl as Hl. rewrite IH by done.
  destruct (Z.eqb_spec (b2z c) (b2z d)) as [->%b2z_inj|E].
  - repeat case_bool_decide; simplify_eq; done.
  - rewrite bool_decide_false by congruence. done.
Qed.

Lemma first_diff_eq (a : bytes) : first_diff a a = 0.
Proof. induction a as [|c a IH]; [done|]. cbn. by rewrite Z.eqb_refl. Qed.

Lemma first_diff_0 (a b : bytes) : length a = length b -> first_diff a b = 0 -> a = b.
Proof.
  revert b. induction a as [|c a IH]; intros [|d b] Hl; try done.
  cbn [first_diff]. destruct (Z.eqb_spec (b2z c) (b2z d)) as [->%b2z_inj|]; [|lia].
  intros H. f_equal. apply IH; [by injection Hl|done].
Qed.

Lemma memcmp_loop_ok (i : nat) (x y : bytes) : forall ret,
  (i <= length x)%nat -> (i <= length y)%nat ->
  memcmp_loop i x y ret
  = Ok (if bool_decide (take i x = take i y) then ret else first_diff (take i x) (take i y)).
Proof.
  induction i as [|i IH]; intros ret Hx Hy; cbn [memcmp_loop]; [done|].
  destruct (lookup_lt_is_Some_2 x i) as [c Hc]; [lia|].
  destruct (lookup_lt_is_Some_2 y i) as [d Hd]; [lia|].
  rewrite Hc, Hd. cbn [get obind]. rewrite memcmp_step_ok, IH by lia.
  rewrite (take_S_r _ _ _ Hc), (take_S_r _ _ _ Hd). rewrite first_diff_app.
  2:{ rewrite !length_take. lia. }
  f_equal. case_bool_decide as E; cbn [first_diff].
  - rewrite E. destruct (Z.eqb_spec (b2z c) (b2z d)) as [->%b2z_inj|N].
    + by rewrite bool_decide_true.
    + rewrite bool_decide_false; [done|]. intros [_ [=]]%app_inj_tail. congruence.
  - rewrite bool_decide_false; [done|]. by intros [? _]%app_inj_tail.
Qed.

Lemma is_zero_bit_ok (x : Z) : 0 <= x < 256 -> is_zero_bit x = if x =? 0 then 1 else 0.
Proof.
  intros Hx. unfold is_zero_bit, wrap. destruct (Z.eqb_spec x 0) as [->|]; [done|].
  rewrite Z.mod_small by lia. rewrite Z.shiftr_div_pow2 by lia.
  by replace ((x - 1) / 2 ^ 8) with 0 by dlia.
Qed.

Lemma lor_byte_range (x y : Z) : 0 <= x < 256 -> 0 <= y < 256 -> 0 <= Z.lor x y < 256.
Proof.
  intros Hx Hy. split; [apply Z.lor_nonneg; lia|].
  destruct (decide (Z.lor x y = 0)) as [->|Hn]; [lia|].
  assert (0 <= Z.lor x y) by (apply Z.lor_nonneg; lia).
  change 256 with (2 ^ 8). apply Z.log2_lt_pow2; [lia|]. rewrite Z.log2_lor by lia.
  assert (HL : forall z, 0 <= z < 256 -> Z.log2 z < 8).
  { intros z Hz. destruct (decide (z = 0)) as [->|]; [done|]. apply Z.log2_lt_pow2; lia. }
  apply Z.max_lub_lt; apply HL; lia.
Qed.

Lemma memeq_loop_ok (n : nat) : forall a b acc, 0 <= acc < 256 ->
  (n <= length a)%nat -> (n <= length b)%nat ->
  exists d, memeq_loop n a b acc = Ok d /\ 0 <= d < 256 /\
    (d = 0 <-> acc = 0 /\ take n a = take n b).
Proof.
  induction n as [|n IH]; intros a b acc Hacc Ha Hb; cbn [memeq_loop].
  - exists acc. rewrite !take_0. intuition.
  - destruct a as [|c a]; [simpl in Ha; lia|]. destruct b as [|d b]; [simpl in Hb; lia|].
    pose proof (lxor_byte c d) as [H1 H2].
    destruct (IH a b (Z.lor acc (Z.lxor (b2z c) (b2z d)))) as (r & -> & Hr & Hz).
    { by apply lor_byte_range. }
    { simpl in Ha. lia. }
    { simpl in Hb. lia. }
    exists r. split; [done|]. split; [done|]. rewrite Hz, Z.lor_eq_0_iff, H2. cbn [take].
    split; [intros [[-> ->] ->]; done|]. intros [-> [= -> ->]]. done.
Qed.

Lemma tor_memeq_ok (a b : bytes) (n : nat) : (n <= length a)%nat -> (n <= length b)%nat ->
  tor_memeq a b n = Ok (if fast_memeq a b n then 1 else 0).
Proof.
  intros Ha Hb. unfold tor_memeq, fast_memeq.
  destruct (memeq_loop_ok n a b 0) as (d & -> & Hd & Hz); [lia|done|done|]. cbn [obind].
  rewrite is_zero_bit_ok by done. f_equal.
  destruct (Z.eqb_spec d 0) as [E|E]; [rewrite bool_decide_true by tauto; done|].
  rewrite bool_decide_false by tauto. done.
Qed.

Lemma mem_or_loop_ok (n : nat) : forall m acc, 0 <= acc < 256 -> (n <= length m)%nat ->
  exists d, mem_or_loop n m acc = Ok d /\ 0 <= d < 256 /\
    (d = 0 <-> acc = 0 /\ take n m = replicate n NUL).
Proof.
  induction n as [|n IH]; intros m acc Hacc Hm; cbn [mem_or_loop].
  - exists acc. rewrite !take_0. intuition.
  - destruct m as [|c m]; [simpl in Hm; lia|].
    destruct (IH m (Z.lor acc (b2z c))) as (r & -> & Hr & Hz).
    { apply lor_byte_range; [done|apply b2z_range]. }
    { simpl in Hm. lia. }
    exists r. split; [done|]. split; [done|]. rewrite Hz, Z.lor_eq_0_iff. cbn [take replicate].
    split; [|by intros [-> [= -> ->]]].
    intros [[-> E] ->]. split; [done|]. f_equal. apply b2z_inj. by rewrite E.
Qed.

(** The masked update of [dimap_search] keeps [result] or takes the entry's value. *)
Lemma mask64 (b : bool) (x v : Z) : 0 <= x < 2 ^ 64 -> 0 <= v < 2 ^ 64 ->
  let r := wrap 64 ((if b then 1 else 0) - 1) in
  Z.lor (Z.land x r) (Z.land v (lnot64 r)) = if b then v else x.
Proof.
  intros Hx Hv. unfold lnot64, wrap. destruct b; cbn [Z.sub Z.add Z.opp].
  - change ((1 - 1) mod 2 ^ 64) with 0. change (Z.lnot 0 mod 2 ^ 64) with (Z.ones 64).
    rewrite Z.land_0_r, Z.lor_0_l, Z.land_ones by lia. by apply Z.mod_small.
  - change ((0 - 1) mod 2 ^ 64) with (Z.ones 64). change (Z.lnot (Z.ones 64) mod 2 ^ 64) with 0.
    rewrite Z.land_0_r, Z.lor_0_r, Z.land_ones by lia. by apply Z.mod_small.
Qed.

(** A well-formed map: full-length keys, distinct, and non-null values that fit a
    pointer. *)
Definition dimap_ok (map : di_digest256_map) : Prop :=
  NoDup (ent_key <$> map) /\
  Forall (fun e => length (ent_key e) = DIGEST256_LEN /\ 0 < ent_val e < 2 ^ 64) map.

(** The abstract map. *)
Definition dimap_get (map : di_digest256_map) (key : bytes) : option Z :=
  ent_val <$> List.find (fun e => bool_decide (ent_key e = key)) map.

Lemma dimap_get_none (map : di_digest256_map) (key : bytes) :
  dimap_get map key = None <-> key ∉ ent_key <$> map.
Proof.
  unfold dimap_get. induction map as [|e map IH]; cbn [List.find fmap list_fmap].
  - split; [intros _; apply not_elem_of_nil|done].
  - rewrite not_elem_of_cons. case_bool_decide as E; cbn [fmap option_fmap option_map].
    + split; [done|]. intros [? _]. congruence.
    + rewrite IH. split; [intros ?; split; [congruence|done]|by intros [_ ?]].
Qed.

Lemma dimap_search_ok (map : di_digest256_map) (key : bytes) : forall dflt,
  dimap_ok map -> length key = DIGEST256_LEN -> 0 <= dflt < 2 ^ 64 ->
  dimap_search map key dflt = Ok (default dflt (dimap_get map key)).
Proof.
  induction map as [|e map IH]; intros dflt [Hnd Hall] Hk Hd; [done|]. cbn [dimap_search].
  apply Forall_cons in Hall as [[Hlen Hv] Hall]. apply NoDup_cons in Hnd as [Hnot Hnd].
  rewrite tor_memeq_ok by lia. cbn [obind]. rewrite mask64 by lia.
  unfold dimap_get. cbn [List.find]. unfold fast_memeq. rewrite !take_ge by lia.
  case_bool_decide as E; rewrite IH; try done; try lia; cbn [default fmap option_fmap option_map].
  apply dimap_get_none in Hnot. by rewrite <- E, Hnot.
Qed.

Lemma select_loop_done (entries : list Z) : forall i ic nc tot total,
  Forall (fun x => 0 <= x) entries -> 0 <= tot -> total <= INT64_MAX ->
  total = tot + foldr Z.add 0 entries ->
  select_loop entries i ic nc tot INT64_MAX = (ic, nc, total).
Proof.
  induction entries as [|x l IH]; intros i ic nc tot total Hall Ht Hm Hsum;
    cbn [select_loop foldr] in *; [by rewrite Hsum, Z.add_0_r|].
  apply Forall_cons in Hall as [Hx Hall].
  assert (0 <= foldr Z.add 0 l).
  { clear -Hall. induction Hall; simpl; lia. }
  unfold INT64_MAX in *. unfold wrap. rewrite Z.mod_small by lia.
  destruct (Z.ltb_spec 9223372036854775807 (tot + x)); [lia|]. apply IH; try done; lia.
Qed.

Lemma select_loop_ok (entries : list Z) : forall i tot total r k,
  Forall (fun x => 0 <= x) entries -> 0 <= tot -> total <= INT64_MAX ->
  total = tot + foldr Z.add 0 entries -> first_above entries (r - tot) = Some k ->
  select_loop entries i (-1) 0 tot r = (i + Z.of_nat k, 1, total).
Proof.
  induction entries as [|x l IH]; intros i tot total r k Hall Ht Hm Hsum Hk;
    cbn [select_loop foldr first_above] in *; [done|].
  apply Forall_cons in Hall as [Hx Hall].
  assert (0 <= foldr Z.add 0 l).
  { clear -Hall. induction Hall; simpl; lia. }
  unfold INT64_MAX in *. unfold wrap. rewrite Z.mod_small by lia.
  destruct (Z.ltb_spec (r - tot) x).
  - injection Hk as <-. rewrite (proj2 (Z.ltb_lt _ _)) by lia.
    rewrite (select_loop_done l _ _ _ _ total) by (done || lia). by rewrite Z.add_0_r.
  - apply fmap_Some in Hk as (k' & Hk & ->). rewrite (proj2 (Z.ltb_ge _ _)) by lia.
    rewrite (IH (i + 1) (tot + x) total r k') by (done || lia || (rewrite <- Hk; f_equal; lia)).
    do 2 f_equal. lia.
Qed.

Lemma first_above_exists (entries : list Z) : forall r,
  r < foldr Z.add 0 entries -> 0 <= r ->
  exists k, first_above entries r = Some k /\ (k < length entries)%nat /\
    foldr Z.add 0 (take k entries) <= r < foldr Z.add 0 (take (S k) entries).
Proof.
  induction entries as [|x l IH]; intros r Hr H0; cbn [foldr first_above] in *; [lia|].
  destruct (Z.ltb_spec r x).
  - exists O. change (take 1 (x :: l)) with [x]. change (take 0 (x :: l)) with (@nil Z).
    cbn [foldr length]. split; [done|]. split; [lia|]. lia.
  - destruct (IH (r - x)) as (k & -> & Hk & Hb); [lia|lia|].
    exists (S k). cbn [fmap option_fmap option_map length]. split; [done|].
    split; [lia|]. change (take (S (S k)) (x :: l)) with (x :: take (S k) l).
    change (take (S k) (x :: l)) with (x :: take k l). cbn [foldr]. lia.
Qed.

Lemma mask_byte_ok (s : bool) (d c : ascii) :
  mask_byte (wrap 8 (- (if s then 1 else 0))) d c = if s then c else d.
Proof.
  unfold mask_byte, wrap. pose proof (b2z_range c); pose proof (b2z_range d). destruct s.
  - change ((- (1)) mod 2 ^ 8) with (Z.ones 8). change (Z.lnot (Z.ones 8) mod 2 ^ 8) with 0.
    rewrite Z.land_0_r, Z.lor_0_l, Z.land_ones, Z.mod_small by lia. apply z2b_b2z.
  - change ((- 0) mod 2 ^ 8) with 0. change (Z.lnot 0 mod 2 ^ 8) with (Z.ones 8).
    rewrite Z.land_0_r, Z.lor_0_r, Z.land_ones, Z.mod_small by lia. apply z2b_b2z.
Qed.

Lemma copy_loop_ok (s : bool) (n : nat) : forall dest src,
  (n <= length dest)%nat -> (n <= length src)%nat ->
  copy_loop n (wrap 8 (- (if s then 1 else 0))) dest src
  = Ok (if s then take n src ++ drop n dest else dest).
Proof.
  induction n as [|n IH]; intros dest src Hd Hs; cbn [copy_loop].
  - by destruct s.
  - destruct dest as [|d dest]; [simpl in Hd; lia|]. destruct src as [|c src]; [simpl in Hs; lia|].
    rewrite IH by (simpl in *; lia). cbn [obind]. rewrite mask_byte_ok. by destruct s.
Qed.

Lemma safe_mem_is_zero_ok (a : bytes) (n : nat) : (n <= length a)%nat ->
  safe_mem_is_zero a n = Ok (if bool_decide (take n a = replicate n NUL) then 1 else 0).
Proof.
  intros Ha. unfold safe_mem_is_zero. destruct (mem_or_loop_ok n a 0) as (d & -> & Hd & Hz); [lia|done|].
  cbn [obind]. rewrite is_zero_bit_ok by done. f_equal.
  destruct (Z.eqb_spec d 0) as [E|E]; [rewrite bool_decide_true by tauto; done|].
  rewrite bool_decide_false by tauto. done.
Qed.

(** ** Properties *)

(** The branch-free comparisons agree with the ordinary ones on any two buffers of at least [n]
    bytes: [tor_memcmp] is the difference at the first byte that differs, 0 only on equal
    ranges, although it scans from the end and keeps no branch; [tor_memeq] and
    [safe_mem_is_zero] are equality and the zero test, as 0 or 1; [memcpy_if_true_timei]
    copies exactly when its flag is set. *)
Theorem di_compare_correct (a b : bytes) (n : nat) (s : bool) :
  (n <= length a)%nat -> (n <= length b)%nat ->
  tor_memcmp a b n = Ok (first_diff (take n a) (take n b)) /\
  (first_diff (take n a) (take n b) = 0 <-> take n a = take n b) /\
  tor_memeq a b n = Ok (if bool_decide (take n a = take n b) then 1 else 0) /\
  safe_mem_is_zero a n = Ok (if bool_decide (take n a = replicate n NUL) then 1 else 0) /\
  memcpy_if_true_timei s a b n = Ok (if s then take n b ++ drop n a else a).
Proof.
  intros Ha Hb. split; [|split; [|split; [|split]]].
  - unfold tor_memcmp. rewrite memcmp_loop_ok by done. f_equal.
    case_bool_decide as E; [|done]. by rewrite E, first_diff_eq.
  - split; [|intros ->; apply first_diff_eq]. apply first_diff_0. rewrite !length_take. lia.
  - by apply tor_memeq_ok.
  - by apply safe_mem_is_zero_ok.
  - by apply copy_loop_ok.
Qed.

Theorem di_compare_correct_witness :
  tor_memcmp (bs "abcx") (bs "abd") 3 = Ok (-1) /\
  tor_memeq (bs "abcx") (bs "abd") 2 = Ok 1.
Proof.
  split.
  - apply (di_compare_correct (bs "abcx") (bs "abd") 3 true); simpl; lia.
  - apply (di_compare_correct (bs "abcx") (bs "abd") 2 true); simpl; lia.
Defined.

(** The constant-time digest map is a finite map: adding a fresh 32-byte key with a
    non-null value succeeds and keeps the representation well formed, after which a search gives
    that value for that key and what it gave before for every other key, the default
    included. *)
Theorem dimap_correct (map : di_digest256_map) (key key' : bytes) (v dflt : Z) :
  dimap_ok map -> length key = DIGEST256_LEN -> length key' = DIGEST256_LEN ->
  0 < v < 2 ^ 64 -> 0 <= dflt < 2 ^ 64 -> dimap_get map key = None ->
  exists map', dimap_add_entry map key v = Ok map' /\ dimap_ok map' /\
    dimap_search map' key' dflt
    = Ok (if bool_decide (key = key') then v else default dflt (dimap_get map key')).
Proof.
  intros Hok Hk Hk' Hv Hd Hn. unfold dimap_add_entry.
  rewrite dimap_search_ok by (done || lia). rewrite Hn. cbn [default obind].
  unfold tor_assert. cbn [Z.eqb]. destruct (Z.eqb_spec v 0); [lia|]. cbn [negb].
  eexists. split; [done|]. rewrite take_ge by lia.
  assert (Hok' : dimap_ok ({| ent_key := key; ent_val := v |} :: map)).
  { destruct Hok as [H1 H2]. split; [|by constructor]. rewrite fmap_cons. constructor; [|done].
    by apply dimap_get_none. }
  split; [done|]. rewrite dimap_search_ok by done. unfold dimap_get. cbn [List.find ent_key].
  by case_bool_decide.
Qed.

Theorem dimap_correct_witness :
  exists map', dimap_add_entry [] (replicate 32 SP) 9 = Ok map' /\ dimap_ok map' /\
    dimap_search map' (replicate 32 NL) 5 = Ok 5.
Proof.
  apply (dimap_correct [] (replicate 32 SP) (replicate 32 NL) 9 5);
    [split; constructor|reflexivity|reflexivity|lia|lia|reflexivity].
Defined.

(** [select_array_member_cumulative_timei] on weights whose sum is the announced total, at
    most [INT64_MAX], and a random value below it: no assertion fails and the index
    returned is the one whose cumulative range contains the random value. *)
Theorem select_array_member_correct (entries : list Z) (total r : Z) :
  Forall (fun x => 0 <= x) entries -> total = foldr Z.add 0 entries ->
  total <= INT64_MAX -> 0 <= r < total ->
  exists k, select_array_member_cumulative_timei entries total r = Ok (Z.of_nat k) /\
    (k < length entries)%nat /\
    foldr Z.add 0 (take k entries) <= r < foldr Z.add 0 (take (S k) entries).
Proof.
  intros Hall Hsum Hm [H0 Hr].
  destruct (first_above_exists entries r) as (k & Hk & Hlt & Hb); [lia|done|].
  exists k. split; [|done]. unfold select_array_member_cumulative_timei.
  rewrite (select_loop_ok entries 0 0 total r k) by (done || lia || (by rewrite Z.sub_0_r)).
  unfold tor_assert, zlen. rewrite !Z.eqb_refl. cbn [Z.add].
  rewrite (proj2 (Z.leb_le _ _)), (proj2 (Z.ltb_lt _ _)) by lia. f_equal.
Qed.

Theorem select_array_member_correct_witness :
  exists k, select_array_member_cumulative_timei [5; 0; 7] 12 5 = Ok (Z.of_nat k) /\
    (k < 3)%nat /\ foldr Z.add 0 (take k [5; 0; 7]) <= 5 < foldr Z.add 0 (take (S k) [5; 0; 7]).
Proof.
  apply (select_array_member_correct [5; 0; 7] 12 5); [|reflexivity|vm_compute; discriminate|lia].
  repeat constructor; lia.
Defined.
