(* ===== verification/Strings.v ===== *)
(** * Strings: [src/BADNET/src/lib/string/util_string.c] and [compat_ctype.c]

    A NUL-terminated string is the list of its characters, a pointer into it the list of
    the characters from there on; a memory range is the list of its bytes. *)

From S2P Require Import Prelude ParseInt DiOps.

(** ** Character classes *)

Definition TOR_ISALPHA_TABLE : list Z := [0; 0; 0x7fffffe; 0x7fffffe; 0; 0; 0; 0].
Definition TOR_ISALNUM_TABLE : list Z := [0; 0x3ff0000; 0x7fffffe; 0x7fffffe; 0; 0; 0; 0].
Definition TOR_ISSPACE_TABLE : list Z := [0x3e00; 0x1; 0; 0; 0; 0; 0; 0].
Definition TOR_ISXDIGIT_TABLE : list Z := [0; 0x3ff0000; 0x7e; 0x7e; 0; 0; 0; 0].
Definition TOR_ISDIGIT_TABLE : list Z := [0; 0x3ff0000; 0; 0; 0; 0; 0; 0].
Definition TOR_ISPRINT_TABLE : list Z := [0; 0xffffffff; 0xffffffff; 0x7fffffff; 0; 0; 0; 0].
Definition TOR_ISUPPER_TABLE : list Z := [0; 0; 0x7fffffe; 0; 0; 0; 0; 0].
Definition TOR_ISLOWER_TABLE : list Z := [0; 0; 0; 0x7fffffe; 0; 0; 0; 0].

(** [TOR_##name] of [DECLARE_CTYPE_FN]. *)
Definition ctype_fn (table : list Z) (c : ascii) : bool :=
  let u := b2z c in
  negb (Z.land (nth (Z.to_nat (Z.land (Z.shiftr u 5) 7)) table 0)
               (Z.shiftl 1 (Z.land u 31)) =? 0).

Definition TOR_ISALPHA := ctype_fn TOR_ISALPHA_TABLE.
Definition TOR_ISALNUM := ctype_fn TOR_ISALNUM_TABLE.
Definition TOR_ISSPACE := ctype_fn TOR_ISSPACE_TABLE.
Definition TOR_ISXDIGIT := ctype_fn TOR_ISXDIGIT_TABLE.
Definition TOR_ISPRINT := ctype_fn TOR_ISPRINT_TABLE.
Definition TOR_ISUPPER := ctype_fn TOR_ISUPPER_TABLE.
Definition TOR_ISLOWER := ctype_fn TOR_ISLOWER_TABLE.

Definition TOR_TOUPPER_TABLE : list Z :=
  [0; 1; 2; 3; 4; 5; 6; 7; 8; 9; 10; 11; 12; 13; 14; 15;
   16; 17; 18; 19; 20; 21; 22; 23; 24; 25; 26; 27; 28; 29; 30; 31;
   32; 33; 34; 35; 36; 37; 38; 39; 40; 41; 42; 43; 44; 45; 46; 47;
   48; 49; 50; 51; 52; 53; 54; 55; 56; 57; 58; 59; 60; 61; 62; 63;
   64; 65; 66; 67; 68; 69; 70; 71; 72; 73; 74; 75; 76; 77; 78; 79;
   80; 81; 82; 83; 84; 85; 86; 87; 88; 89; 90; 91; 92; 93; 94; 95;
   96; 65; 66; 67; 68; 69; 70; 71; 72; 73; 74; 75; 76; 77; 78; 79;
   80; 81; 82; 83; 84; 85; 86; 87; 88; 89; 90; 123; 124; 125; 126; 127;
   128; 129; 130; 131; 132; 133; 134; 135; 136; 137; 138; 139; 140; 141; 142; 143;
   144; 145; 146; 147; 148; 149; 150; 151; 152; 153; 154; 155; 156; 157; 158; 159;
   160; 161; 162; 163; 164; 165; 166; 167; 168; 169; 170; 171; 172; 173; 174; 175;
   176; 177; 178; 179; 180; 181; 182; 183; 184; 185; 186; 187; 188; 189; 190; 191;
   192; 193; 194; 195; 196; 197; 198; 199; 200; 201; 202; 203; 204; 205; 206; 207;
   208; 209; 210; 211; 212; 213; 214; 215; 216; 217; 218; 219; 220; 221; 222; 223;
   224; 225; 226; 227; 228; 229; 230; 231; 232; 233; 234; 235; 236; 237; 238; 239;
   240; 241; 242; 243; 244; 245; 246; 247; 248; 249; 250; 251; 252; 253; 254; 255].

Definition TOR_TOLOWER_TABLE : list Z :=
  [0; 1; 2; 3; 4; 5; 6; 7; 8; 9; 10; 11; 12; 13; 14; 15;
   16; 17; 18; 19; 20; 21; 22; 23; 24; 25; 26; 27; 28; 29; 30; 31;
   32; 33; 34; 35; 36; 37; 38; 39; 40; 41; 42; 43; 44; 45; 46; 47;
   48; 49; 50; 51; 52; 53; 54; 55; 56; 57; 58; 59; 60; 61; 62; 63;
   64; 97; 98; 99; 100; 101; 102; 103; 104; 105; 106; 107; 108; 109; 110; 111;
   112; 113; 114; 115; 116; 117; 118; 119; 120; 121; 122; 91; 92; 93; 94; 95;
   96; 97; 98; 99; 100; 101; 102; 103; 104; 105; 106; 107; 108; 109; 110; 111;
   112; 113; 114; 115; 116; 117; 118; 119; 120; 121; 122; 123; 124; 125; 126; 127;
   128; 129; 130; 131; 132; 133; 134; 135; 136; 137; 138; 139; 140; 141; 142; 143;
   144; 145; 146; 147; 148; 149; 150; 151; 152; 153; 154; 155; 156; 157; 158; 159;
   160; 161; 162; 163; 164; 165; 166; 167; 168; 169; 170; 171; 172; 173; 174; 175;
   176; 177; 178; 179; 180; 181; 182; 183; 184; 185; 186; 187; 188; 189; 190; 191;
   192; 193; 194; 195; 196; 197; 198; 199; 200; 201; 202; 203; 204; 205; 206; 207;
   208; 209; 210; 211; 212; 213; 214; 215; 216; 217; 218; 219; 220; 221; 222; 223;
   224; 225; 226; 227; 228; 229; 230; 231; 232; 233; 234; 235; 236; 237; 238; 239;
   240; 241; 242; 243; 244; 245; 246; 247; 248; 249; 250; 251; 252; 253; 254; 255].

Definition TOR_TOUPPER (c : ascii) : ascii := z2b (nth (Z.to_nat (b2z c)) TOR_TOUPPER_TABLE 0).
Definition TOR_TOLOWER (c : ascii) : ascii := z2b (nth (Z.to_nat (b2z c)) TOR_TOLOWER_TABLE 0).

(** ** The C library's string functions *)

(** The sign of the first difference; the end of a string shows its NUL. *)
Fixpoint strncmp (s1 s2 : bytes) (n : nat) : Z :=
  match n with
  | O => 0
  | S n' =>
      let c := b2z (deref s1) in
      let d := b2z (deref s2) in
      if c =? d then
        match s1, s2 with _ :: s1', _ :: s2' => strncmp s1' s2' n' | _, _ => 0 end
      else c - d
  end.

Definition strcmp (s1 s2 : bytes) : Z := strncmp s1 s2 (S (length s1)).

Definition lower (s : bytes) : bytes := TOR_TOLOWER <$> s.
Definition strcasecmp (s1 s2 : bytes) : Z := strcmp (lower s1) (lower s2).
Definition strncasecmp (s1 s2 : bytes) (n : nat) : Z := strncmp (lower s1) (lower s2) n.

(** [strchr] for a character other than NUL: the string from its first occurrence on. *)
Fixpoint strchr (s : bytes) (c : ascii) : option bytes :=
  match s with
  | [] => None
  | d :: s' => if decide (d = c) then Some s else strchr s' c
  end.

Fixpoint starts_with (pre s : bytes) : bool :=
  match pre, s with
  | [], _ => true
  | c :: pre', d :: s' => bool_decide (c = d) && starts_with pre' s'
  | _ :: _, [] => false
  end.

(** [strstr]: the string from the first occurrence of [needle] on. *)
Fixpoint strstr (s needle : bytes) : option bytes :=
  if starts_with needle s then Some s
  else match s with [] => None | _ :: s' => strstr s' needle end.

(** [memchr] within the first [n] bytes, as an offset. *)
Fixpoint memchr (s : bytes) (c : ascii) (n : nat) : option nat :=
  match n, s with
  | S n', d :: s' => if decide (d = c) then Some O else S <$> memchr s' c n'
  | _, _ => None
  end.

(** ** Searching *)

(** The loop of [tor_memmem]: [p] and [last_possible_start] are offsets. *)
Fixpoint memmem_loop (fuel : nat) (haystack needle : bytes) (first : ascii)
    (p last_possible_start : nat) : outcome (option nat) :=
  match fuel with
  | O => Stuck
  | S f =>
      match memchr (drop p haystack) first (last_possible_start + 1 - p) with
      | None => Ok None
      | Some k =>
          let p := (p + k)%nat in
          if fast_memeq (drop p haystack) needle (length needle) then Ok (Some p)
          else if (last_possible_start <? p + 1)%nat then Ok None
          else memmem_loop f haystack needle first (p + 1) last_possible_start
      end
  end.

Definition tor_memmem (haystack needle : bytes) : outcome (option nat) :=
  match needle with
  | [] => Stuck
  | first :: _ =>
      if (length haystack <? length needle)%nat then Ok None
      else memmem_loop (S (length haystack)) haystack needle first 0
             (length haystack - length needle)
  end.

Definition tor_memstr (haystack needle : bytes) : outcome (option nat) :=
  tor_memmem haystack needle.

(** ** Zero tests, stripping and case *)

(** 32 bytes at a time, then the rest. *)
Fixpoint fast_mem_is_zero_loop (fuel : nat) (mem : bytes) : bool :=
  if (32 <=? length mem)%nat then
    match fuel with
    | O => false
    | S f => if fast_memeq mem (replicate 32 NUL) 32
             then fast_mem_is_zero_loop f (drop 32 mem) else false
    end
  else if (length mem =? 0)%nat then true
  else fast_memeq mem (replicate 32 NUL) (length mem).

Definition fast_mem_is_zero (mem : bytes) : bool := fast_mem_is_zero_loop (length mem) mem.

Definition tor_digest_is_zero (digest : bytes) : outcome Z := safe_mem_is_zero digest 20.
Definition tor_digest256_is_zero (digest : bytes) : outcome Z := safe_mem_is_zero digest 32.

Fixpoint tor_strstrip (s strip : bytes) : bytes :=
  match s with
  | [] => []
  | c :: s' => match strchr strip c with
               | Some _ => tor_strstrip s' strip
               | None => c :: tor_strstrip s' strip
               end
  end.

Definition tor_strlower (s : bytes) : bytes := TOR_TOLOWER <$> s.
Definition tor_strupper (s : bytes) : bytes := TOR_TOUPPER <$> s.

Fixpoint tor_strreplacechar (s : bytes) (find replacement : ascii) : bytes :=
  match s with
  | [] => []
  | c :: s' => (if decide (c = find) then replacement else c)
               :: tor_strreplacechar s' find replacement
  end.

Fixpoint tor_strisprint (s : bytes) : bool :=
  match s with [] => true | c :: s' => if TOR_ISPRINT c then tor_strisprint s' else false end.

Fixpoint tor_strisnonupper (s : bytes) : bool :=
  match s with [] => true | c :: s' => if TOR_ISUPPER c then false else tor_strisnonupper s' end.

Fixpoint tor_strisspace (s : bytes) : bool :=
  match s with [] => true | c :: s' => if TOR_ISSPACE c then tor_strisspace s' else false end.

(** ** Comparisons *)

Definition strcmp_opt (s1 s2 : option bytes) : Z :=
  match s1, s2 with
  | None, None => 0
  | None, Some _ => -1
  | Some _, None => 1
  | Some a, Some b => strcmp a b
  end.

Definition strcmpstart (s1 s2 : bytes) : Z := strncmp s1 s2 (length s2).
Definition strcasecmpstart (s1 s2 : bytes) : Z := strncasecmp s1 s2 (length s2).

Definition fast_memcmpstart (mem prefix : bytes) : Z :=
  if (length mem <? length prefix)%nat then -1
  else first_diff (take (length prefix) mem) prefix.

Definition strcmpend (s1 s2 : bytes) : Z :=
  let n1 := length s1 in let n2 := length s2 in
  if (n1 <? n2)%nat then strcmp s1 s2 else strncmp (drop (n1 - n2) s1) s2 n2.

Definition strcasecmpend (s1 s2 : bytes) : Z :=
  let n1 := length s1 in let n2 := length s2 in
  if (n1 <? n2)%nat then strcasecmp s1 s2 else strncasecmp (drop (n1 - n2) s1) s2 n2.

(** ** Whitespace *)

Definition is_blank (c : ascii) : bool :=
  (b2z c =? 32) || (b2z c =? 9) || (b2z c =? 10) || (b2z c =? 13).
Definition is_blank_no_nl (c : ascii) : bool := (b2z c =? 32) || (b2z c =? 9) || (b2z c =? 13).

(** [in_comment]: inside the inner loop that skips a comment up to its newline. *)
Fixpoint eat_ws (in_comment : bool) (s : bytes) : bytes :=
  match s with
  | [] => []
  | c :: s' =>
      if in_comment && negb (b2z c =? 10) then
        if b2z c =? 0 then s else eat_ws true s'
      else if is_blank c then eat_ws false s'
      else if b2z c =? 35 then eat_ws true s'
      else s
  end.

Definition eat_whitespace (s : bytes) : bytes := eat_ws false s.
(** The same loop bounded by [eos]: the range is the list of its bytes. *)
Definition eat_whitespace_eos (s : bytes) : bytes := eat_ws false s.

Fixpoint eat_whitespace_no_nl (s : bytes) : bytes :=
  match s with
  | [] => []
  | c :: s' => if is_blank_no_nl c then eat_whitespace_no_nl s' else s
  end.

Definition eat_whitespace_eos_no_nl (s : bytes) : bytes := eat_whitespace_no_nl s.

Definition ends_word (c : ascii) : bool := (b2z c =? 0) || (b2z c =? 35) || is_blank c.

Fixpoint find_whitespace (s : bytes) : bytes :=
  match s with [] => [] | c :: s' => if ends_word c then s else find_whitespace s' end.

Definition find_whitespace_eos (s : bytes) : bytes := find_whitespace s.

Fixpoint find_str_at_start_of_line_loop (fuel : nat) (haystack needle : bytes)
    : outcome (option bytes) :=
  match fuel with
  | O => Stuck
  | S f =>
      if strncmp haystack needle (length needle) =? 0 then Ok (Some haystack)
      else match strchr haystack NL with
           | None => Ok None
           | Some h =>
               let h := drop 1 h in
               match h with
               | [] => Ok None
               | _ => find_str_at_start_of_line_loop f h needle
               end
           end
  end.

Definition find_str_at_start_of_line (haystack needle : bytes) : outcome (option bytes) :=
  find_str_at_start_of_line_loop (S (length haystack)) haystack needle.

Definition C_ident_rest (c : ascii) : bool := TOR_ISALPHA c || TOR_ISDIGIT c || (b2z c =? 95).

Definition string_is_C_identifier (s : bytes) : bool :=
  match s with
  | [] => false
  | c :: s' => (TOR_ISALPHA c || (b2z c =? 95)) && forallb C_ident_rest s'
  end.

(** ** UTF-8 *)

Definition TOP_BITS (x : Z) : Z := wrap 8 (Z.shiftl 255 (8 - x)).
Definition LOW_BITS (x : Z) : Z := wrap 8 (Z.shiftr 255 (8 - x)).

Definition bytes_in_char (b : Z) : Z :=
  if Z.land (TOP_BITS 1) b =? 0 then 1
  else if Z.land (TOP_BITS 3) b =? TOP_BITS 2 then 2
  else if Z.land (TOP_BITS 4) b =? TOP_BITS 3 then 3
  else if Z.land (TOP_BITS 5) b =? TOP_BITS 4 then 4
  else 0.

Definition is_continuation_byte (b : Z) : bool := Z.land b (TOP_BITS 2) =? TOP_BITS 1.

(** The continuation bytes [c[1..len-1]]: [None] when one of them is not one. *)
Fixpoint continuation (cs : bytes) (codepoint : Z) : option Z :=
  match cs with
  | [] => Some codepoint
  | c :: cs' =>
      if is_continuation_byte (b2z c)
      then continuation cs' (Z.lor (wrap 32 (Z.shiftl codepoint 6)) (Z.land (b2z c) (LOW_BITS 6)))
      else None
  end.

Definition validate_char (c : bytes) (len : Z) : bool :=
  if len =? 1 then true
  else
    match c with
    | [] => false
    | c0 :: cs =>
        match continuation cs (Z.land (b2z c0) (LOW_BITS (7 - len))) with
        | None => false
        | Some codepoint =>
            if (len =? 2) && (codepoint <=? 0x7f) then false
            else if (len =? 3) && (codepoint <=? 0x7ff) then false
            else if (len =? 4) && (codepoint <=? 0xffff) then false
            else if (0xd800 <=? codepoint) && (codepoint <=? 0xdfff) then false
            else codepoint <=? 0x10ffff
        end
    end.

Fixpoint utf8_loop (fuel : nat) (s : bytes) : outcome bool :=
  match s with
  | [] => Ok true
  | c :: _ =>
      match fuel with
      | O => Stuck
      | S f =>
          let num_bytes := bytes_in_char (b2z c) in
          if num_bytes =? 0 then Ok false
          else if zlen s <? num_bytes then Ok false
          else if negb (validate_char (take (Z.to_nat num_bytes) s) num_bytes) then Ok false
          else utf8_loop f (drop (Z.to_nat num_bytes) s)
      end
  end.

Definition string_is_utf8 (str : bytes) : outcome bool := utf8_loop (length str) str.

Definition string_is_utf8_no_bom (str : bytes) : outcome bool :=
  if (3 <=? zlen str)
     && ((strcmpstart str [z2b 0xEF; z2b 0xBB; z2b 0xBF] =? 0)
         || (strcmpstart str [z2b 0xEF; z2b 0xBF; z2b 0xBE] =? 0))
  then Ok false else string_is_utf8 str.

(** ** UTF-8: the encoding of Unicode scalar values *)

Definition scalar_value (cp : Z) : Prop := 0 <= cp < 0xd800 \/ 0xe000 <= cp <= 0x10ffff.

Definition utf8_enc (cp : Z) : bytes :=
  if cp <=? 0x7f then [z2b cp]
  else if cp <=? 0x7ff then [z2b (0xc0 + cp / 64); z2b (0x80 + cp mod 64)]
  else if cp <=? 0xffff then
    [z2b (0xe0 + cp / 4096); z2b (0x80 + cp / 64 mod 64); z2b (0x80 + cp mod 64)]
  else [z2b (0xf0 + cp / 262144); z2b (0x80 + cp / 4096 mod 64);
        z2b (0x80 + cp / 64 mod 64); z2b (0x80 + cp mod 64)].

Lemma strcmpstart_app (p s : bytes) : strcmpstart (p ++ s) p = 0.
Proof.
  unfold strcmpstart. induction p as [|c p IH]; [by destruct s|].
  cbn [app length strncmp deref]. by rewrite Z.eqb_refl.
Qed.

Lemma bytes_in_char_ok (b : Z) : 0 <= b < 256 ->
  bytes_in_char b = if b <? 128 then 1 else if b <? 192 then 0 else if b <? 224 then 2
                    else if b <? 240 then 3 else if b <? 248 then 4 else 0.
Proof.
  intros Hb. pose proof (forall_range (fun b => bytes_in_char b =?
    (if b <? 128 then 1 else if b <? 192 then 0 else if b <? 224 then 2
     else if b <? 240 then 3 else if b <? 248 then 4 else 0)) 256 eq_refl b Hb) as H.
  by apply Z.eqb_eq in H.
Qed.

Lemma continuation_byte_ok (b : Z) : 0 <= b < 256 ->
  is_continuation_byte b = (128 <=? b) && (b <? 192).
Proof.
  intros Hb. pose proof (forall_range (fun b => Bool.eqb (is_continuation_byte b)
    ((128 <=? b) && (b <? 192))) 256 eq_refl b Hb). by apply eqb_prop.
Qed.

Lemma low_bits (b k : Z) : 0 < k <= 8 -> Z.land b (LOW_BITS k) = b mod 2 ^ k.
Proof.
  intros Hk. assert (LOW_BITS k = Z.ones k) as ->; [|apply Z.land_ones; lia].
  pose proof (forall_range (fun k => LOW_BITS (k + 1) =? Z.ones (k + 1)) 8 eq_refl (k - 1)
    ltac:(lia)) as H. apply Z.eqb_eq in H. by replace (k - 1 + 1) with k in H by lia.
Qed.

Lemma continuation_cons (c : ascii) (cs : bytes) (cp r : Z) : 0 <= cp < 262144 ->
  continuation (c :: cs) cp = Some r <->
  128 <= b2z c < 192 /\ continuation cs (cp * 64 + b2z c mod 64) = Some r.
Proof.
  intros Hcp. cbn [continuation]. pose proof (b2z_range c).
  rewrite continuation_byte_ok, low_bits by lia. change (2 ^ 6) with 64.
  rewrite wrap32_6 by dlia.
  destruct (Z.leb_spec 128 (b2z c)), (Z.ltb_spec (b2z c) 192); cbn [andb];
    split; intros ?; try done; try (split; [lia|done]); destruct_and?; try lia; done.
Qed.

(** What one accepted character is. *)
Lemma utf8_char_sound (s : bytes) (c : ascii) (s' : bytes) (n : Z) :
  s = c :: s' -> n = bytes_in_char (b2z c) -> n <> 0 -> n <= zlen s ->
  validate_char (take (Z.to_nat n) s) n = true ->
  exists cp, scalar_value cp /\ take (Z.to_nat n) s = utf8_enc cp.
Proof.
  intros -> -> Hn Hl Hv. pose proof (b2z_range c) as Hc. rewrite bytes_in_char_ok in * by done.
  unfold scalar_value, utf8_enc, zlen in *. revert Hn Hl Hv.
  destruct (Z.ltb_spec (b2z c) 128) as [H1|H1].
  { intros _ _ _. exists (b2z c). split; [lia|].
    rewrite (proj2 (Z.leb_le _ _)) by lia. cbn. by rewrite z2b_b2z. }
  destruct (Z.ltb_spec (b2z c) 192); [done|].
  destruct (Z.ltb_spec (b2z c) 224); [|destruct (Z.ltb_spec (b2z c) 240);
    [|destruct (Z.ltb_spec (b2z c) 248); [|done]]]; intros _ Hl Hv.
  - destruct s' as [|c1 s']; [simpl in Hl; lia|]. change (Z.to_nat 2) with 2%nat in *.
    cbn [take validate_char Z.eqb Pos.eqb andb] in *. rewrite low_bits in Hv by lia.
    destruct (continuation _ _) as [cp|] eqn:E; [|done].
    apply continuation_cons in E as [Ha [= E]]; [|dlia]. change (2 ^ (7 - 2)) with 32 in *.
    destruct (Z.leb_spec cp 127); [done|]. exists cp. split; [lia|].
    rewrite (proj2 (Z.leb_gt _ _)), (proj2 (Z.leb_le _ _)) by dlia.
    rewrite <- (z2b_b2z c) at 1. rewrite <- (z2b_b2z c1) at 1. f_equal; [|f_equal]; f_equal; dlia.
  - destruct s' as [|c1 [|c2 s']]; [simpl in Hl; lia..|]. change (Z.to_nat 3) with 3%nat in *.
    cbn [take validate_char Z.eqb Pos.eqb andb] in *. rewrite low_bits in Hv by lia.
    destruct (continuation _ _) as [cp|] eqn:E; [|done].
    apply continuation_cons in E as [Ha E]; [|dlia].
    apply continuation_cons in E as [Hb [= E]]; [|dlia]. change (2 ^ (7 - 3)) with 16 in *.
    destruct (Z.leb_spec cp 2047); [done|]. exists cp.
    destruct (Z.leb_spec 55296 cp), (Z.leb_spec cp 57343); cbn [andb] in Hv; try done;
      (split; [lia|]); rewrite (proj2 (Z.leb_gt _ _)), (proj2 (Z.leb_gt _ _)),
        (proj2 (Z.leb_le _ _)) by dlia;
      rewrite <- (z2b_b2z c) at 1; rewrite <- (z2b_b2z c1) at 1; rewrite <- (z2b_b2z c2) at 1;
      (f_equal; [|f_equal; [|f_equal]]); f_equal; dlia.
  - destruct s' as [|c1 [|c2 [|c3 s']]]; [simpl in Hl; lia..|].
    change (Z.to_nat 4) with 4%nat in *.
    cbn [take validate_char Z.eqb Pos.eqb andb] in *. rewrite low_bits in Hv by lia.
    destruct (continuation _ _) as [cp|] eqn:E; [|done].
    apply continuation_cons in E as [Ha E]; [|dlia].
    apply continuation_cons in E as [Hb E]; [|dlia].
    apply continuation_cons in E as [Hd [= E]]; [|dlia]. change (2 ^ (7 - 4)) with 8 in *.
    destruct (Z.leb_spec cp 65535); [done|]. exists cp.
    destruct (Z.leb_spec 55296 cp), (Z.leb_spec cp 57343); cbn [andb] in Hv; try done;
      try lia. apply Z.leb_le in Hv. split; [lia|].
    do 3 rewrite (proj2 (Z.leb_gt _ _)) by dlia.
    rewrite <- (z2b_b2z c) at 1; rewrite <- (z2b_b2z c1) at 1; rewrite <- (z2b_b2z c2) at 1.
    rewrite <- (z2b_b2z c3) at 1.
    (f_equal; [|f_equal; [|f_equal; [|f_equal]]]); f_equal; dlia.
Qed.

Lemma utf8_enc_range (cp : Z) : scalar_value cp -> (1 <= length (utf8_enc cp) <= 4)%nat.
Proof. intros _. unfold utf8_enc. repeat cases_b. Qed.

Lemma continuation_step (c : ascii) (cs : bytes) (cp r : Z) : 0 <= cp < 262144 ->
  128 <= b2z c < 192 -> continuation cs (cp * 64 + b2z c mod 64) = Some r ->
  continuation (c :: cs) cp = Some r.
Proof. intros Hcp Hc H. by apply continuation_cons. Qed.

(** Every scalar value's encoding is accepted. *)
Lemma utf8_char_complete (cp : Z) : scalar_value cp ->
  exists c cs, utf8_enc cp = c :: cs /\
    bytes_in_char (b2z c) = zlen (c :: cs) /\ validate_char (c :: cs) (zlen (c :: cs)) = true.
Proof.
  unfold scalar_value, utf8_enc, zlen. intros Hs.
  destruct (Z.leb_spec cp 127); [|destruct (Z.leb_spec cp 2047);
    [|destruct (Z.leb_spec cp 65535)]]; (do 2 eexists; split; [reflexivity|]);
    cbn [length]; (rewrite bytes_in_char_ok, b2z_z2b by (try apply b2z_range; dlia)).
  - split; [|done]. by rewrite (proj2 (Z.ltb_lt _ _)) by lia.
  - change (Z.of_nat 2) with 2. split; [repeat cases_b; dlia|].
    cbn [validate_char Z.eqb Pos.eqb andb]. rewrite low_bits, b2z_z2b by dlia.
    change (2 ^ (7 - 2)) with 32.
    rewrite (continuation_step _ _ _ cp); [|dlia|rewrite b2z_z2b by dlia; dlia|
      rewrite b2z_z2b by dlia; cbn [continuation]; f_equal; dlia].
    destruct (Z.leb_spec cp 127); [lia|].
    destruct (Z.leb_spec 55296 cp), (Z.leb_spec cp 57343); cbn [andb]; lia.
  - change (Z.of_nat 3) with 3. split; [repeat cases_b; dlia|].
    cbn [validate_char Z.eqb Pos.eqb andb]. rewrite low_bits, b2z_z2b by dlia.
    change (2 ^ (7 - 3)) with 16.
    rewrite (continuation_step _ _ _ cp); [|dlia|rewrite b2z_z2b by dlia; dlia|
      apply continuation_step; [rewrite b2z_z2b by dlia; dlia|rewrite b2z_z2b by dlia; dlia|
      rewrite !b2z_z2b by dlia; cbn [continuation]; f_equal; dlia]].
    destruct (Z.leb_spec cp 2047); [lia|].
    destruct (Z.leb_spec 55296 cp), (Z.leb_spec cp 57343); cbn [andb]; lia.
  - change (Z.of_nat 4) with 4. split; [repeat cases_b; dlia|].
    cbn [validate_char Z.eqb Pos.eqb andb]. rewrite low_bits, b2z_z2b by dlia.
    change (2 ^ (7 - 4)) with 8.
    rewrite (continuation_step _ _ _ cp); [|dlia|rewrite b2z_z2b by dlia; dlia|
      apply continuation_step; [rewrite b2z_z2b by dlia; dlia|rewrite b2z_z2b by dlia; dlia|
      apply continuation_step; [rewrite !b2z_z2b by dlia; dlia|rewrite b2z_z2b by dlia; dlia|
      rewrite !b2z_z2b by dlia; cbn [continuation]; f_equal; dlia]]].
    destruct (Z.leb_spec cp 65535); [lia|].
    destruct (Z.leb_spec 55296 cp), (Z.leb_spec cp 57343); cbn [andb]; lia.
Qed.

Definition is_utf8 (s : bytes) : Prop :=
  exists cps, Forall scalar_value cps /\ s = concat (utf8_enc <$> cps).

Lemma bytes_in_char_range (b : Z) : 0 <= b < 256 -> 0 <= bytes_in_char b <= 4.
Proof. intros Hb. rewrite bytes_in_char_ok by done. repeat cases_b. Qed.

(** An encoding begins with a byte that tells its length, so a valid string can only be
    split one way. *)
Lemma is_utf8_cons (c : ascii) (s : bytes) : is_utf8 (c :: s) ->
  exists cp rest, scalar_value cp /\ c :: s = utf8_enc cp ++ rest /\ is_utf8 rest.
Proof.
  intros ([|cp cps] & Hall & E); [done|]. apply Forall_cons in Hall as [Hcp Hall].
  rewrite fmap_cons in E. cbn [concat] in E. exists cp, (concat (utf8_enc <$> cps)).
  split; [done|]. split; [done|]. by exists cps.
Qed.

Lemma utf8_loop_ok (fuel : nat) : forall s, (length s <= fuel)%nat ->
  exists b, utf8_loop fuel s = Ok b /\ (b = true <-> is_utf8 s).
Proof.
  induction fuel as [|f IH]; intros [|c s] Hf; cbn [length] in Hf; try lia.
  1,2: exists true; split; [done|]; split; [|done]; intros _; by exists [].
  cbn [utf8_loop]. pose proof (bytes_in_char_range (b2z c) (b2z_range c)) as Hr.
  assert (Hcomplete : is_utf8 (c :: s) -> exists rest, let n := bytes_in_char (b2z c) in
    n <> 0 /\ n <= zlen (c :: s) /\ validate_char (take (Z.to_nat n) (c :: s)) n = true /\
    drop (Z.to_nat n) (c :: s) = rest /\ is_utf8 rest).
  { intros (cp & rest & Hcp & E & Hrest)%is_utf8_cons. exists rest. cbn zeta.
    destruct (utf8_char_complete cp Hcp) as (c' & cs & E' & Hn & Hv).
    rewrite E' in E. cbn [app] in E. injection E as <- ->. rewrite Hn. unfold zlen in *.
    rewrite Nat2Z.id. cbn [length] in *. rewrite length_app.
    change (c :: cs ++ rest) with ((c :: cs) ++ rest).
    rewrite (take_app_length' (c :: cs) rest), (drop_app_length' (c :: cs) rest) by done.
    split; [lia|]. split; [lia|]. by repeat split. }
  destruct (Z.eqb_spec (bytes_in_char (b2z c)) 0) as [E|E].
  { exists false. split; [done|]. split; [done|]. intros (rest & ? & _)%Hcomplete. lia. }
  destruct (Z.ltb_spec (zlen (c :: s)) (bytes_in_char (b2z c))) as [L|L].
  { exists false. split; [done|]. split; [done|]. intros (rest & _ & ? & _)%Hcomplete. lia. }
  destruct (validate_char _ _) eqn:V; cbn [negb].
  2:{ exists false. split; [done|]. split; [done|].
      intros (rest & _ & _ & ? & _)%Hcomplete. congruence. }
  destruct (IH (drop (Z.to_nat (bytes_in_char (b2z c))) (c :: s))) as (b & -> & Hb).
  { rewrite length_drop. cbn [length]. lia. }
  exists b. split; [done|]. rewrite Hb. split.
  - intros (cps & Hall & Hd).
    destruct (utf8_char_sound (c :: s) c s _ eq_refl eq_refl E L V) as (cp & Hcp & Ht).
    exists (cp :: cps). split; [by constructor|]. rewrite fmap_cons. cbn [concat].
    rewrite <- Ht, <- Hd. by rewrite take_drop.
  - by intros (rest & _ & _ & _ & <- & ?)%Hcomplete.
Qed.

(** ** Searching: the first occurrence *)

Lemma memchr_ok (n : nat) : forall s c,
  match memchr s c n with
  | Some k => s !! k = Some c /\ (k < n)%nat /\ forall i, (i < k)%nat -> s !! i <> Some c
  | None => forall i, (i < n)%nat -> s !! i <> Some c
  end.
Proof.
  induction n as [|n IH]; intros [|d s] c; cbn [memchr]; try (intros; lia || done).
  destruct (decide (d = c)) as [->|Hd]; [split; [done|split; [lia|lia]]|].
  specialize (IH s c). destruct (memchr s c n) as [k|]; cbn [fmap option_fmap option_map].
  - destruct IH as (H1 & H2 & H3). split; [done|]. split; [lia|].
    intros [|i] Hi; cbn; [congruence|]. apply H3. lia.
  - intros [|i] Hi; cbn; [congruence|]. apply IH. lia.
Qed.

Lemma memchr_here (l rest : bytes) (c : ascii) (n : nat) : Forall (fun d => d <> c) l -> (length l < n)%nat ->
  memchr (l ++ c :: rest) c n = Some (length l).
Proof.
  intros Hl. revert n. induction Hl as [|d l Hd _ IH]; intros n Hn; (destruct n as [|n]; [lia|]); cbn [app memchr length] in *.
  - by destruct (decide (c = c)).
  - destruct (decide (d = c)); [done|]. by rewrite IH by lia.
Qed.

Lemma memchr_absent (l : bytes) (c : ascii) (n : nat) : Forall (fun d => d <> c) l -> memchr l c n = None.
Proof.
  intros Hl. revert n. induction Hl as [|d l Hd _ IH]; intros [|n]; cbn [memchr]; [done..|].
  destruct (decide (d = c)); [done|]. by rewrite IH.
Qed.

Lemma memchr_prefix_absent (l rest : bytes) (c : ascii) : Forall (fun d => d <> c) l -> memchr (l ++ rest) c (length l) = None.
Proof. induction 1 as [|d l Hd _ IH]; [by destruct rest|]. cbn [app length memchr]. destruct (decide (d = c)); [done|]. by rewrite IH. Qed.

Definition occurs_at (haystack needle : bytes) (p : nat) : Prop :=
  (p + length needle <= length haystack)%nat /\
  take (length needle) (drop p haystack) = needle.

Lemma memmem_loop_ok (haystack needle : bytes) (first : ascii) (rest : bytes) :
  needle = first :: rest -> (length needle <= length haystack)%nat ->
  forall last fuel p, last = (length haystack - length needle)%nat ->
  (p <= last)%nat -> (last - p < fuel)%nat ->
  exists r, memmem_loop fuel haystack needle first p last = Ok r /\
    match r with
    | Some q => (p <= q)%nat /\ occurs_at haystack needle q /\
                forall q', (p <= q' < q)%nat -> ~ occurs_at haystack needle q'
    | None => forall q', (p <= q')%nat -> ~ occurs_at haystack needle q'
    end.
Proof.
  intros Hn Hle last fuel. induction fuel as [|f IH]; intros p El Hp Hf; [lia|].
  cbn [memmem_loop]. pose proof (memchr_ok (last + 1 - p) (drop p haystack) first) as Hm.
  assert (Hfirst : forall q, occurs_at haystack needle q -> haystack !! q = Some first).
  { intros q [Hq1 Hq2]. rewrite Hn in Hq2. apply (f_equal head) in Hq2. cbn [take length head] in Hq2.
    rewrite <- (Nat.add_0_r q), <- lookup_drop. by destruct (drop q haystack). }
  destruct (memchr _ _ _) as [k|].
  2:{ exists None. split; [done|]. intros q' Hq Ho. pose proof (Hfirst q' Ho) as Hl.
      destruct Ho as [Ho _]. specialize (Hm (q' - p)%nat). rewrite lookup_drop in Hm.
      replace (p + (q' - p))%nat with q' in Hm by lia. apply Hm in Hl; [done|lia]. }
  destruct Hm as (H1 & H2 & H3). rewrite lookup_drop in H1.
  assert (Hskip : forall q', (p <= q' < p + k)%nat -> ~ occurs_at haystack needle q').
  { intros q' Hq Ho. apply Hfirst in Ho. specialize (H3 (q' - p)%nat ltac:(lia)).
    rewrite lookup_drop in H3. by replace (p + (q' - p))%nat with q' in H3 by lia. }
  unfold fast_memeq. rewrite (take_ge needle) by lia. case_bool_decide as E.
  { exists (Some (p + k)%nat). split; [done|]. split; [lia|]. split; [|done]. split; [lia|done]. }
  assert (Hno : ~ occurs_at haystack needle (p + k)) by (by intros [_ ?]).
  assert (Hskip' : forall q', (p <= q' < p + k + 1)%nat -> ~ occurs_at haystack needle q').
  { intros q' Hq. destruct (decide (q' = p + k)%nat) as [->|]; [done|]. apply Hskip. lia. }
  destruct (Nat.ltb_spec last (p + k + 1)).
  { exists None. split; [done|]. intros q' Hq Ho. apply (Hskip' q'); [|done].
    destruct Ho as [Ho _]. lia. }
  destruct (IH (p + k + 1)%nat) as (r & -> & Hr); [done|lia|lia|].
  exists r. split; [done|]. destruct r as [q|].
  - destruct Hr as (? & ? & Hr). split; [lia|]. split; [done|]. intros q' Hq.
    destruct (decide (q' < p + k + 1)%nat); [apply Hskip'; lia|apply Hr; lia].
  - intros q' Hq. destruct (decide (q' < p + k + 1)%nat); [apply Hskip'; lia|apply Hr; lia].
Qed.

Lemma tor_memmem_ok (haystack needle : bytes) : needle <> [] ->
  exists r, tor_memmem haystack needle = Ok r /\
    match r with
    | Some q => occurs_at haystack needle q /\
                forall q', (q' < q)%nat -> ~ occurs_at haystack needle q'
    | None => forall q', ~ occurs_at haystack needle q'
    end.
Proof.
  intros Hn. destruct needle as [|first rest]; [done|].
  unfold tor_memmem. set (needle := first :: rest).
  destruct (Nat.ltb_spec (length haystack) (length needle)) as [L|L].
  { exists None. split; [done|]. intros q' [H _]. lia. }
  destruct (memmem_loop_ok haystack needle first rest eq_refl L _ (S (length haystack)) 0 eq_refl)
    as (r & Hr & Hp); [lia|lia|].
  exists r. rewrite Hr. split; [done|]. destruct r as [q|].
  - destruct Hp as (_ & ? & Hp). split; [done|]. intros q' Hq. apply Hp. lia.
  - intros q'. apply Hp. lia.
Qed.

(** ** Properties *)

(** [string_is_utf8] decides well-formed UTF-8: it terminates on every byte string and
    accepts exactly the concatenations of encodings of Unicode scalar values, so
    overlong forms, surrogates, values above 0x10FFFF, stray continuation bytes and
    truncated characters are all rejected. *)
Theorem string_is_utf8_correct (s : bytes) :
  exists b, string_is_utf8 s = Ok b /\ (b = true <-> is_utf8 s).
Proof. by apply utf8_loop_ok. Qed.

(** [tor_memmem] (and [tor_memstr]) returns the first occurrence of a non-empty needle, and
    NULL exactly when there is none; its [memchr]-driven loop ends. *)
Theorem tor_memmem_first (haystack needle : bytes) : needle <> [] ->
  exists r, tor_memmem haystack needle = Ok r /\
    match r with
    | Some q => occurs_at haystack needle q /\
                forall q', (q' < q)%nat -> ~ occurs_at haystack needle q'
    | None => forall q', ~ occurs_at haystack needle q'
    end.
Proof. apply tor_memmem_ok. Qed.

Theorem tor_memmem_first_witness :
  exists r, tor_memmem (bs "aabab") (bs "ab") = Ok r /\
    match r with
    | Some q => occurs_at (bs "aabab") (bs "ab") q /\
                forall q', (q' < q)%nat -> ~ occurs_at (bs "aabab") (bs "ab") q'
    | None => forall q', ~ occurs_at (bs "aabab") (bs "ab") q'
    end.
Proof. apply (tor_memmem_first (bs "aabab") (bs "ab")). discriminate. Defined.
