(* ===== verification/Smartlist.v ===== *)
(** * Smartlists: [src/BADNET/src/lib/smartlist_core/smartlist_core.c]

    The resizeable pointer array at the level of its slots, capacity and [num_used],
    and the refinement of plain lists by it.  The heap-ordered operations are in
    Pqueue, sorting-related ones and string splitting in Smartutil. *)

From S2P Require Import Prelude.

(** ** The array *)

Definition SMARTLIST_DEFAULT_CAPACITY : Z := 16.
Definition MAX_CAPACITY : Z := INT_MAX.

(** A [void *]: [None] is NULL. *)
Abbreviation ptr A := (option A).

Record smartlist (A : Type) := mk_smartlist {
  sl_list : list (ptr A);
  num_used : Z;
  capacity : Z;
}.
Arguments mk_smartlist {A} _ _ _.
Arguments sl_list {A} _.
Arguments num_used {A} _.
Arguments capacity {A} _.

Section operations.
Context {A : Type} `{EqDecision A}.
Implicit Types sl : smartlist A.

Definition smartlist_new : smartlist A :=
{| sl_list := replicate (Z.to_nat SMARTLIST_DEFAULT_CAPACITY) None;
   num_used := 0; capacity := SMARTLIST_DEFAULT_CAPACITY |}.

Definition smartlist_clear sl : outcome (smartlist A) :=
let* l := afill (sl_list sl) 0 (num_used sl) None in
Ok {| sl_list := l; num_used := 0; capacity := capacity sl |}.

(** [while (size > higher) higher *= 2;] *)
Fixpoint double_until (fuel : nat) (size higher : Z) : outcome Z :=
if higher <? size then
  match fuel with O => Stuck | S f => double_until f size (higher * 2) end
else Ok higher.

Definition smartlist_ensure_capacity sl (size : Z) : outcome (smartlist A) :=
tor_assert (size <=? MAX_CAPACITY) (
  if capacity sl <? size then
    let* higher := if MAX_CAPACITY / 2 <? size then Ok MAX_CAPACITY
                   else double_until 31 size (capacity sl) in
    let* l := afill (sl_list sl ++ replicate (Z.to_nat (higher - capacity sl)) None)
                    (capacity sl) (higher - capacity sl) None in
    Ok {| sl_list := l; num_used := num_used sl; capacity := higher |}
  else Ok sl).

Definition smartlist_grow sl (new_size : Z) : outcome (smartlist A) :=
let* sl := smartlist_ensure_capacity sl new_size in
if num_used sl <? new_size then
  let* l := afill (sl_list sl) (num_used sl) (new_size - num_used sl) None in
  Ok {| sl_list := l; num_used := new_size; capacity := capacity sl |}
else Ok sl.

Definition smartlist_add sl (element : ptr A) : outcome (smartlist A) :=
let* sl := smartlist_ensure_capacity sl (num_used sl + 1) in
let* l := aset (sl_list sl) (num_used sl) element in
Ok {| sl_list := l; num_used := num_used sl + 1; capacity := capacity sl |}.

(** [memcpy] of the first [n] slots of [src] to offset [dst] of [l]. *)
Definition acopy (l : list (ptr A)) (dst : Z) (src : list (ptr A)) (n : Z) :
  outcome (list (ptr A)) :=
if (dst <? 0) || (n <? 0) || (Z.of_nat (length l) <? dst + n)
   || (Z.of_nat (length src) <? n) then Stuck
else Ok (take (Z.to_nat dst) l ++ take (Z.to_nat n) src
         ++ drop (Z.to_nat dst + Z.to_nat n) l).

Definition smartlist_add_all s1 (s2 : smartlist A) : outcome (smartlist A) :=
let new_size := num_used s1 + num_used s2 in
tor_assert (num_used s1 <=? new_size) (
  let* s1 := smartlist_ensure_capacity s1 new_size in
  let* l := acopy (sl_list s1) (num_used s1) (sl_list s2) (num_used s2) in
  tor_assert (new_size <=? INT_MAX)
    (Ok {| sl_list := l; num_used := new_size; capacity := capacity s1 |})).

(** The body shared by [smartlist_remove] and [smartlist_del]: the last element
  moves into slot [i]. *)
Definition swap_with_end sl (i : Z) : outcome (smartlist A) :=
let n := num_used sl - 1 in
let* x := get (aget (sl_list sl) n) in
let* l := aset (sl_list sl) i x in
let* l := aset l n None in
Ok {| sl_list := l; num_used := n; capacity := capacity sl |}.

Fixpoint remove_loop (fuel : nat) (i : Z) (element : A) sl : outcome (smartlist A) :=
match fuel with
| O => Stuck
| S f =>
    if i <? num_used sl then
      let* x := get (aget (sl_list sl) i) in
      if decide (x = Some element) then
        let* sl := swap_with_end sl i in remove_loop f i element sl
      else remove_loop f (i + 1) element sl
    else Ok sl
end.

Definition smartlist_remove sl (element : ptr A) : outcome (smartlist A) :=
match element with
| None => Ok sl
| Some e => remove_loop (S (Z.to_nat (num_used sl))) 0 e sl
end.

(** The loop of [smartlist_remove_keeporder] over [j], [n] steps to go. *)
Fixpoint keeporder_loop (n : nat) (i j : Z) (element : A) sl :
  outcome (smartlist A) :=
match n with
| O => Ok sl
| S n' =>
    let* x := get (aget (sl_list sl) j) in
    if decide (x = Some element) then
      keeporder_loop n' i (j + 1) element
        {| sl_list := sl_list sl; num_used := num_used sl - 1;
           capacity := capacity sl |}
    else
      let* l := aset (sl_list sl) i x in
      keeporder_loop n' (i + 1) (j + 1) element
        {| sl_list := l; num_used := num_used sl; capacity := capacity sl |}
end.

Definition smartlist_remove_keeporder sl (element : ptr A) : outcome (smartlist A) :=
match element with
| None => Ok sl
| Some e =>
    let num_used_orig := num_used sl in
    let* sl := keeporder_loop (Z.to_nat num_used_orig) 0 0 e sl in
    let* l := afill (sl_list sl) (num_used sl) (num_used_orig - num_used sl) None in
    Ok {| sl_list := l; num_used := num_used sl; capacity := capacity sl |}
end.

Definition smartlist_pop_last sl : outcome (ptr A * smartlist A) :=
if num_used sl =? 0 then Ok (None, sl)
else
  let n := num_used sl - 1 in
  let* tmp := get (aget (sl_list sl) n) in
  let* l := aset (sl_list sl) n None in
  Ok (tmp, {| sl_list := l; num_used := n; capacity := capacity sl |}).

Fixpoint contains_loop (n : nat) (i : Z) (element : ptr A) sl : outcome bool :=
match n with
| O => Ok false
| S n' =>
    let* x := get (aget (sl_list sl) i) in
    if decide (x = element) then Ok true else contains_loop n' (i + 1) element sl
end.

Definition smartlist_contains sl (element : ptr A) : outcome bool :=
contains_loop (Z.to_nat (num_used sl)) 0 element sl.

Definition smartlist_del sl (idx : Z) : outcome (smartlist A) :=
tor_assert ((0 <=? idx) && (idx <? num_used sl)) (swap_with_end sl idx).

Definition smartlist_del_keeporder sl (idx : Z) : outcome (smartlist A) :=
tor_assert ((0 <=? idx) && (idx <? num_used sl)) (
  let n := num_used sl - 1 in
  let* l := if idx <? n then amove (sl_list sl) idx (idx + 1) (n - idx)
            else Ok (sl_list sl) in
  let* l := aset l n None in
  Ok {| sl_list := l; num_used := n; capacity := capacity sl |}).

Definition smartlist_insert sl (idx : Z) (val : ptr A) : outcome (smartlist A) :=
tor_assert ((0 <=? idx) && (idx <=? num_used sl)) (
  if idx =? num_used sl then smartlist_add sl val
  else
    let* sl := smartlist_ensure_capacity sl (num_used sl + 1) in
    let* l := if idx <? num_used sl
              then amove (sl_list sl) (idx + 1) idx (num_used sl - idx)
              else Ok (sl_list sl) in
    let* l := aset l idx val in
    Ok {| sl_list := l; num_used := num_used sl + 1; capacity := capacity sl |}).

(** [smartlist_reverse] of [smartlist.c]. *)
Fixpoint reverse_loop (fuel : nat) (i j : Z) (l : list (ptr A)) :
  outcome (list (ptr A)) :=
if i <? j then
  match fuel with
  | O => Stuck
  | S f =>
      let* tmp := get (aget l i) in
      let* lj := get (aget l j) in
      let* l := aset l i lj in
      let* l := aset l j tmp in
      reverse_loop f (i + 1) (j - 1) l
  end
else Ok l.

Definition smartlist_reverse sl : outcome (smartlist A) :=
let* l := reverse_loop (Z.to_nat (num_used sl)) 0 (num_used sl - 1) (sl_list sl) in
Ok {| sl_list := l; num_used := num_used sl; capacity := capacity sl |}.

Definition smartlist_swap sl (idx1 idx2 : Z) : outcome (smartlist A) :=
if idx1 =? idx2 then Ok sl
else
  let* elt := get (aget (sl_list sl) idx1) in
  let* e2 := get (aget (sl_list sl) idx2) in
  let* l := aset (sl_list sl) idx1 e2 in
  let* l := aset l idx2 elt in
  Ok {| sl_list := l; num_used := num_used sl; capacity := capacity sl |}.

(** ** The operations as one command language *)

Inductive slcmd : Type :=
| SlClear
| SlGrow (n : Z)
| SlAdd (x : ptr A)
| SlAddAll (s2 : smartlist A)
| SlRemove (x : ptr A)
| SlRemoveKeeporder (x : ptr A)
| SlPopLast
| SlDel (i : Z)
| SlDelKeeporder (i : Z)
| SlInsert (i : Z) (x : ptr A)
| SlReverse
| SlSwap (i j : Z).

Definition slexec (c : slcmd) sl : outcome (option (ptr A) * smartlist A) :=
let ret m := omap (pair None) m in
match c with
| SlClear => ret (smartlist_clear sl)
| SlGrow n => ret (smartlist_grow sl n)
| SlAdd x => ret (smartlist_add sl x)
| SlAddAll s2 => ret (smartlist_add_all sl s2)
| SlRemove x => ret (smartlist_remove sl x)
| SlRemoveKeeporder x => ret (smartlist_remove_keeporder sl x)
| SlPopLast => omap (fun '(r, sl) => (Some r, sl)) (smartlist_pop_last sl)
| SlDel i => ret (smartlist_del sl i)
| SlDelKeeporder i => ret (smartlist_del_keeporder sl i)
| SlInsert i x => ret (smartlist_insert sl i x)
| SlReverse => ret (smartlist_reverse sl)
| SlSwap i j => ret (smartlist_swap sl i j)
end.

(** ** The abstract specification: a plain list *)

(** The slots are the list, then NULLs up to the capacity. *)
Definition sl_repr sl (l : list (ptr A)) : Prop :=
num_used sl = Z.of_nat (length l) /\
16 <= capacity sl <= MAX_CAPACITY /\
Z.of_nat (length l) <= capacity sl /\
sl_list sl = l ++ replicate (Z.to_nat (capacity sl) - length l) None.

(** What each operation promises of the list before ([l]) and after ([l']), and what
  it requires. *)
Definition slpre (c : slcmd) (l : list (ptr A)) : Prop :=
match c with
| SlGrow n => 0 <= n <= INT_MAX
| SlAdd _ => Z.of_nat (length l) < INT_MAX
| SlAddAll s2 => exists l2, sl_repr s2 l2 /\ Z.of_nat (length l + length l2) <= INT_MAX
| SlDel i | SlDelKeeporder i => 0 <= i < Z.of_nat (length l)
| SlInsert i _ => 0 <= i <= Z.of_nat (length l) /\ Z.of_nat (length l) < INT_MAX
| SlSwap i j => 0 <= i < Z.of_nat (length l) /\ 0 <= j < Z.of_nat (length l)
| _ => True
end.

(** Deleting slot [i] by moving the last element there. *)
Definition del_swap (l : list (ptr A)) (i : nat) : list (ptr A) :=
match last l with
| None => []
| Some x => take (pred (length l)) (<[i := x]> l)
end.

Definition slpost (c : slcmd) (l : list (ptr A)) (r : option (ptr A))
  (l' : list (ptr A)) : Prop :=
match c with
| SlClear => l' = []
| SlGrow n => l' = l ++ replicate (Z.to_nat n - length l) None
| SlAdd x => l' = l ++ [x]
| SlAddAll s2 => forall l2, sl_repr s2 l2 -> l' = l ++ l2
| SlRemove None | SlRemoveKeeporder None => l' = l
| SlRemove (Some x) =>
    l' ≡ₚ filter (fun y => y <> Some x) l /\
    forall k, Some x ∉ take k l -> take k l' = take k l
| SlRemoveKeeporder (Some x) => l' = filter (fun y => y <> Some x) l
| SlPopLast => r = Some (mjoin (last l)) /\ l' = take (pred (length l)) l
| SlDel i => l' = del_swap l (Z.to_nat i) /\ l ≡ₚ default None (l !! Z.to_nat i) :: l'
| SlDelKeeporder i => l' = take (Z.to_nat i) l ++ drop (S (Z.to_nat i)) l
| SlInsert i x => l' = take (Z.to_nat i) l ++ x :: drop (Z.to_nat i) l
| SlReverse => l' = reverse l
| SlSwap i j => l' !! Z.to_nat i = l !! Z.to_nat j /\ l' !! Z.to_nat j = l !! Z.to_nat i
                /\ length l' = length l
                /\ forall k, k <> Z.to_nat i -> k <> Z.to_nat j -> l' !! k = l !! k
end.
End operations.
Arguments slcmd : clear implicits.
