(* ===== verification/SmartlistFacts.v ===== *)
(** * The smartlist implementation refines plain lists *)

From S2P Require Import Prelude Smartlist.

Section facts.
Context {A : Type} `{EqDecision A}.
Implicit Types (sl : smartlist A) (l s : list (ptr A)).

(** The canonical array for a list and a capacity. *)
Definition sl_of (l : list (ptr A)) (cap : Z) : smartlist A :=
{| sl_list := l ++ replicate (Z.to_nat cap - length l) None;
   num_used := Z.of_nat (length l); capacity := cap |}.

Definition cap_ok (l : list (ptr A)) (cap : Z) : Prop :=
16 <= cap <= MAX_CAPACITY /\ Z.of_nat (length l) <= cap.

Lemma sl_repr_of sl l : sl_repr sl l <-> sl = sl_of l (capacity sl) /\ cap_ok l (capacity sl).
Proof.
unfold sl_repr, sl_of, cap_ok. destruct sl as [s n c]; simpl. split.
- intros (-> & ? & ? & ->). auto.
- intros [[= -> ->] [? ?]]. auto.
Qed.

Lemma sl_of_repr l cap : cap_ok l cap -> sl_repr (sl_of l cap) l.
Proof. intros H. apply sl_repr_of. auto. Qed.

(** ** Array primitives on a list and its NULL padding *)

Lemma aget_pad l k (i : nat) x : l !! i = Some x ->
aget (l ++ replicate k None) (Z.of_nat i) = Some x.
Proof. intros H. rewrite aget_nat. by apply lookup_app_l_Some. Qed.

Lemma aset_pad l k (i : nat) x : (i < length l)%nat ->
aset (l ++ replicate k None) (Z.of_nat i) x = Ok (<[i := x]> l ++ replicate k None).
Proof.
intros H. rewrite aset_nat by (rewrite length_app; lia). by rewrite insert_app_l.
Qed.

Lemma aset_end l k x : (0 < k)%nat ->
aset (l ++ replicate k None) (Z.of_nat (length l)) x
= Ok ((l ++ [x]) ++ replicate (pred k) None).
Proof.
intros Hk. rewrite aset_nat by (rewrite length_app, length_replicate; lia).
rewrite insert_app_r_alt by lia. rewrite Nat.sub_diag.
destruct k as [|k]; [lia|]. simpl. by rewrite <-app_assoc.
Qed.

(** Clearing the last used slot. *)
Lemma aset_null_last l k y :
aset ((l ++ [y]) ++ replicate k None) (Z.of_nat (length l)) None
= Ok (l ++ replicate (S k) None).
Proof.
rewrite aset_pad by (rewrite length_app; simpl; lia).
rewrite insert_app_r_alt by lia. rewrite Nat.sub_diag. simpl.
by rewrite <-app_assoc.
Qed.

Lemma afill_tail l (s n : nat) : (length l = s + n)%nat -> forall k,
afill (l ++ replicate k None) (Z.of_nat s) (Z.of_nat n) None
= Ok (take s l ++ replicate (n + k) None).
Proof.
intros Hl k. unfold afill. rewrite length_app, length_replicate.
repeat cases_b. rewrite !Nat2Z.id. rewrite take_app_le by lia.
rewrite drop_app_ge by lia. replace (s + n - length l)%nat with 0%nat by lia.
by rewrite replicate_add, drop_0.
Qed.

Lemma afill_pad l (n k : nat) : (n <= k)%nat ->
afill (l ++ replicate k None) (Z.of_nat (length l)) (Z.of_nat n) None
= Ok (l ++ replicate k None).
Proof.
intros Hn. unfold afill. rewrite length_app, length_replicate.
repeat cases_b. rewrite !Nat2Z.id. rewrite take_app_length.
rewrite drop_app_ge by lia. replace (length l + n - length l)%nat with n by lia.
rewrite drop_replicate, <-replicate_add. do 3 f_equal. lia.
Qed.

(** ** Capacity *)

Lemma double_until_ok (fuel : nat) : forall size h,
16 <= h -> size <= h * 2 ^ Z.of_nat fuel -> size <= MAX_CAPACITY / 2 ->
h <= MAX_CAPACITY ->
exists h', double_until fuel size h = Ok h' /\ h <= h' <= MAX_CAPACITY /\ size <= h'.
Proof.
unfold MAX_CAPACITY, INT_MAX.
induction fuel as [|f IH]; intros size h Hh Hs Hm Hc; cbn [double_until].
- simpl in Hs. cases_b. eauto with lia.
- cases_b.
  + destruct (IH size (h * 2)) as (h' & -> & ? & ?); [lia| |lia| |].
    * rewrite Nat2Z.inj_succ, Z.pow_succ_r in Hs by lia. lia.
    * change (2147483647 / 2) with 1073741823 in Hm. lia.
    * exists h'. split; [done|]. lia.
  + eauto with lia.
Qed.

Lemma ensure_capacity_ok l cap size : cap_ok l cap -> size <= MAX_CAPACITY ->
exists cap', smartlist_ensure_capacity (sl_of l cap) size = Ok (sl_of l cap') /\
  cap <= cap' /\ size <= cap' /\ cap_ok l cap'.
Proof.
intros [Hc Hl] Hs. unfold smartlist_ensure_capacity, tor_assert.
destruct (Z.leb_spec size MAX_CAPACITY); [|lia]. cbn [capacity sl_of].
destruct (Z.ltb_spec cap size) as [Hlt|]; [|exists cap; unfold cap_ok; auto with lia].
assert (exists h, (if MAX_CAPACITY / 2 <? size then Ok MAX_CAPACITY
                   else double_until 31 size cap) = Ok h
          /\ cap <= h <= MAX_CAPACITY /\ size <= h) as (h & -> & Hh & Hsh).
{ destruct (Z.ltb_spec (MAX_CAPACITY / 2) size).
  - exists MAX_CAPACITY. split; [done|]. lia.
  - apply double_until_ok; try lia. unfold MAX_CAPACITY, INT_MAX in *.
    change (2 ^ Z.of_nat 31) with 2147483648. lia. }
cbn [obind sl_list sl_of num_used]. rewrite <-app_assoc, <-replicate_add.
assert (Hz : (length l <= Z.to_nat cap)%nat) by lia.
exists h. split; [|unfold cap_ok; lia].
unfold afill. rewrite length_app, length_replicate. repeat cases_b.
cbn [obind]. unfold sl_of. do 2 f_equal.
rewrite take_app_ge, drop_app_ge by lia.
rewrite take_replicate, drop_replicate, <-app_assoc, <-!replicate_add.
do 2 f_equal. lia.
Qed.

(** ** One lemma per operation *)

Lemma add_ok l cap x : cap_ok l cap -> Z.of_nat (length l) < INT_MAX ->
exists cap', smartlist_add (sl_of l cap) x = Ok (sl_of (l ++ [x]) cap') /\
  cap_ok (l ++ [x]) cap'.
Proof.
intros Hc Hl. unfold smartlist_add.
destruct (ensure_capacity_ok l cap (num_used (sl_of l cap) + 1) Hc) as
  (cap' & -> & ? & Hs & Hc'); [unfold MAX_CAPACITY; simpl; lia|].
cbn [obind sl_of sl_list num_used capacity]. simpl in Hs. destruct Hc' as [? ?].
rewrite aset_end by lia. cbn [obind]. exists cap'. split.
- unfold sl_of. do 2 f_equal.
  + do 2 f_equal. rewrite length_app. simpl. lia.
  + rewrite length_app. simpl. lia.
- split; [done|]. rewrite length_app. simpl. lia.
Qed.

Lemma grow_ok l cap n : cap_ok l cap -> 0 <= n <= INT_MAX ->
exists cap', smartlist_grow (sl_of l cap) n
  = Ok (sl_of (l ++ replicate (Z.to_nat n - length l) None) cap') /\
  cap_ok (l ++ replicate (Z.to_nat n - length l) None) cap'.
Proof.
intros Hc Hn. unfold smartlist_grow.
destruct (ensure_capacity_ok l cap n Hc) as (cap' & -> & ? & Hs & Hc');
  [unfold MAX_CAPACITY; lia|].
cbn [obind sl_of sl_list num_used capacity]. destruct Hc' as [? ?].
destruct (Z.ltb_spec (Z.of_nat (length l)) n).
- replace (n - Z.of_nat (length l)) with (Z.of_nat (Z.to_nat n - length l)) by lia.
  rewrite afill_pad by lia. cbn [obind]. exists cap'. split.
  + unfold sl_of. do 2 f_equal.
    * rewrite <-app_assoc, <-replicate_add. do 2 f_equal.
      rewrite length_app, length_replicate. lia.
    * rewrite length_app, length_replicate. lia.
  + split; [done|]. rewrite length_app, length_replicate. lia.
- exists cap'. replace (Z.to_nat n - length l)%nat with 0%nat by lia.
  simpl. rewrite app_nil_r. split; [done|]. by split.
Qed.

Lemma add_all_ok l cap (s2 : smartlist A) l2 : cap_ok l cap -> sl_repr s2 l2 ->
Z.of_nat (length l + length l2) <= INT_MAX ->
exists cap', smartlist_add_all (sl_of l cap) s2 = Ok (sl_of (l ++ l2) cap') /\
  cap_ok (l ++ l2) cap'.
Proof.
intros Hc [Hs2 [Hc2 Hl2]]%sl_repr_of Hn. rewrite Hs2. unfold smartlist_add_all.
cbn [num_used sl_of]. unfold tor_assert at 1. cases_b.
destruct (ensure_capacity_ok l cap (Z.of_nat (length l) + Z.of_nat (length l2)) Hc)
  as (cap' & -> & ? & Hs & Hc'); [unfold MAX_CAPACITY; lia|].
cbn [obind sl_of sl_list num_used capacity]. destruct Hc' as [? ?].
unfold acopy. rewrite !length_app, !length_replicate. repeat cases_b.
exists cap'. split.
- unfold sl_of. do 2 f_equal.
  + rewrite !Nat2Z.id, !take_app_length. rewrite drop_app_ge by lia.
    rewrite drop_replicate, app_assoc. do 2 f_equal. rewrite length_app. lia.
  + rewrite length_app. lia.
- split; [done|]. rewrite length_app. lia.
Qed.

Lemma clear_ok l cap : cap_ok l cap ->
smartlist_clear (sl_of l cap) = Ok (sl_of [] cap) /\ cap_ok [] cap.
Proof.
intros [Hc Hl]. unfold smartlist_clear. cbn [sl_of sl_list num_used capacity].
change 0 with (Z.of_nat 0) at 1. rewrite afill_tail by done. cbn [obind].
split; [|split; [done|simpl; lia]]. unfold sl_of. do 2 f_equal.
simpl. f_equal. lia.
Qed.

Lemma take_pred_snoc l (y : ptr A) : take (pred (length (l ++ [y]))) (l ++ [y]) = l.
Proof. rewrite length_app, Nat.add_comm. simpl. by rewrite take_app_length. Qed.

Lemma pop_last_ok l cap : cap_ok l cap ->
smartlist_pop_last (sl_of l cap)
  = Ok (mjoin (last l), sl_of (take (pred (length l)) l) cap) /\
cap_ok (take (pred (length l)) l) cap.
Proof.
intros [Hc Hl]. unfold smartlist_pop_last. cbn [sl_of sl_list num_used capacity].
destruct (decide (l = [])) as [->|[l0 [y ->]]%snoc_inv].
{ cbn [length Z.of_nat Z.eqb]. split; [done|]. split; [done|simpl; lia]. }
rewrite take_pred_snoc. rewrite last_snoc.
destruct (Z.eqb_spec (Z.of_nat (length (l0 ++ [y]))) 0) as [E|_];
  [rewrite length_app in E; simpl in E; lia|].
rewrite length_app in *. simpl length in *.
replace (Z.of_nat (length l0 + 1) - 1) with (Z.of_nat (length l0)) by lia.
erewrite aget_pad by (apply list_lookup_middle; done). cbn [get obind].
rewrite aset_null_last. cbn [obind]. split; [|split; [done|lia]].
do 3 f_equal. unfold sl_of. f_equal. do 2 f_equal. lia.
Qed.

Lemma del_swap_snoc l (y : ptr A) (i : nat) : (i <= length l)%nat ->
del_swap (l ++ [y]) i = <[i := y]> l.
Proof.
intros Hi. unfold del_swap. rewrite last_snoc, length_app, Nat.add_comm. simpl.
destruct (decide (i < length l)%nat).
- rewrite insert_app_l by lia. rewrite take_app_le by (rewrite length_insert; lia).
  rewrite <-(length_insert l i y). by rewrite firstn_all.
- replace i with (length l + 0)%nat by lia. rewrite insert_app_r. simpl.
  rewrite take_app_length. by rewrite (list_insert_ge l) by lia.
Qed.

Lemma swap_with_end_ok l cap (i : nat) : cap_ok l cap -> (i < length l)%nat ->
swap_with_end (sl_of l cap) (Z.of_nat i) = Ok (sl_of (del_swap l i) cap) /\
cap_ok (del_swap l i) cap.
Proof.
intros [Hc Hl] Hi. destruct (snoc_inv l) as (l0 & y & ->); [by intros ->; simpl in *; lia|].
rewrite length_app in *. simpl in Hi, Hl.
rewrite del_swap_snoc by lia. unfold swap_with_end.
cbn [sl_of sl_list num_used capacity]. rewrite length_app. simpl length.
replace (Z.of_nat (length l0 + 1) - 1) with (Z.of_nat (length l0)) by lia.
erewrite aget_pad by (apply list_lookup_middle; done). cbn [get obind].
rewrite aset_pad by (rewrite length_app; simpl; lia). cbn [obind].
assert (Hlen : length (<[i:=y]> l0) = length l0) by apply length_insert.
assert (<[i:=y]> (l0 ++ [y]) = <[i:=y]> l0 ++ [y]) as ->.
{ destruct (decide (i < length l0)%nat).
  - by rewrite insert_app_l.
  - rewrite (list_insert_ge l0) by lia. replace i with (length l0 + 0)%nat by lia.
    by rewrite insert_app_r. }
rewrite <-Hlen at 2. rewrite aset_null_last. cbn [obind].
split; [|split; [done|lia]]. unfold sl_of. do 2 f_equal; [|lia].
do 2 f_equal. lia.
Qed.

Lemma del_swap_perm l (i : nat) x : l !! i = Some x -> l ≡ₚ x :: del_swap l i.
Proof.
intros Hx. destruct (snoc_inv l) as (l0 & y & ->); [by intros ->|].
pose proof (lookup_lt_Some _ _ _ Hx) as Hi. rewrite length_app in Hi. simpl in Hi.
rewrite del_swap_snoc by lia.
destruct (decide (i < length l0)%nat).
- rewrite lookup_app_l in Hx by done.
  rewrite (insert_take_drop l0 i y) by done.
  rewrite <-(take_drop_middle l0 i x Hx) at 1. solve_Permutation.
- assert (i = length l0) as -> by lia. rewrite list_lookup_middle in Hx by done.
  injection Hx as <-. rewrite list_insert_ge by lia. solve_Permutation.
Qed.

Lemma del_swap_take l (i k : nat) : (k <= i < length l)%nat ->
take k (del_swap l i) = take k l.
Proof.
intros Hk. destruct (snoc_inv l) as (l0 & y & ->); [by intros ->; simpl in *; lia|].
rewrite length_app in Hk. simpl in Hk. rewrite del_swap_snoc by lia.
rewrite take_insert_ge by lia. by rewrite take_app_le by lia.
Qed.

Lemma del_swap_length l i : (i < length l)%nat -> length (del_swap l i) = pred (length l).
Proof.
intros Hi. destruct (snoc_inv l) as (l0 & y & ->); [by intros ->; simpl in *; lia|].
rewrite length_app in *. simpl in *. rewrite del_swap_snoc by lia.
rewrite length_insert. lia.
Qed.

(** The unordered removal loop: everything before [i] is already clean. *)
Lemma remove_loop_ok (fuel : nat) : forall (i : nat) l cap x,
cap_ok l cap -> (length l < fuel + i)%nat -> (i <= length l)%nat ->
Some x ∉ take i l ->
exists l', remove_loop fuel (Z.of_nat i) x (sl_of l cap) = Ok (sl_of l' cap) /\
  cap_ok l' cap /\ l' ≡ₚ filter (fun y => y <> Some x) l /\
  (forall k, Some x ∉ take k l -> take k l' = take k l).
Proof.
induction fuel as [|f IH]; intros i l cap x Hc Hf Hi Hn; [lia|]. cbn [remove_loop].
change (num_used (sl_of l cap)) with (Z.of_nat (length l)).
destruct (Z.ltb_spec (Z.of_nat i) (Z.of_nat (length l))).
- destruct (lookup_lt_is_Some_2 l i) as [y Hy]; [lia|].
  change (sl_list (sl_of l cap))
    with (l ++ replicate (Z.to_nat cap - length l) None). rewrite (aget_pad _ _ _ _ Hy). cbn [get obind].
  case_decide as E; subst.
  + destruct (swap_with_end_ok l cap i Hc) as [Hsw Hc']; [lia|].
    rewrite Hsw. cbn [obind].
    pose proof (del_swap_length l i ltac:(lia)) as Hlen.
    pose proof (del_swap_perm l i _ Hy) as Hp.
    destruct (IH i (del_swap l i) cap x Hc') as (l' & Hl' & Hc'' & Hp' & Ht).
    * lia.
    * lia.
    * by rewrite del_swap_take by lia.
    * exists l'. split; [exact Hl'|]. split; [done|]. split.
      -- rewrite Hp'. trans (filter (fun y => y <> Some x) (Some x :: del_swap l i)).
         ++ rewrite filter_cons_False; [done|]. tauto.
         ++ apply filter_Permutation. by symmetry.
      -- intros k Hk. destruct (decide (k <= i)%nat).
         ++ rewrite Ht; rewrite del_swap_take by lia; done.
         ++ exfalso. apply Hk. apply list_elem_of_lookup. exists i.
            by rewrite lookup_take_lt by lia.
  + replace (Z.of_nat i + 1) with (Z.of_nat (S i)) by lia.
    apply IH; [done|lia|lia|]. rewrite (take_S_r _ _ _ Hy), elem_of_app.
    intros [?|?%list_elem_of_singleton]; congruence.
- exists l. split; [done|]. split; [done|].
  assert (i = length l) as -> by lia. rewrite firstn_all in Hn. split; [|done].
  rewrite filter_all; [done|]. apply Forall_forall. intros y Hy ->. done.
Qed.

(** The ordered removal loop: [i] clean slots so far, [n] slots from [j] to go. *)
Lemma keeporder_loop_ok (n : nat) : forall (i j : nat) s used cap x,
(i <= j)%nat -> (j + n <= length s)%nat ->
exists s', keeporder_loop n (Z.of_nat i) (Z.of_nat j) x
             {| sl_list := s; num_used := used; capacity := cap |}
  = Ok {| sl_list := s';
          num_used := used - Z.of_nat n
            + Z.of_nat (length (filter (fun y => y <> Some x) (take n (drop j s))));
          capacity := cap |} /\
  length s' = length s /\ drop (j + n) s' = drop (j + n) s /\
  take (i + length (filter (fun y => y <> Some x) (take n (drop j s)))) s'
  = take i s ++ filter (fun y => y <> Some x) (take n (drop j s)).
Proof.
induction n as [|n IH]; intros i j s used cap x Hij Hj; cbn [keeporder_loop].
- exists s. rewrite !take_0, filter_nil. simpl. rewrite app_nil_r, !Nat.add_0_r.
  split; [do 2 f_equal; lia|]. done.
- destruct (lookup_lt_is_Some_2 s j) as [y Hy]; [lia|].
  cbn [sl_list]. rewrite aget_nat, Hy. cbn [get obind].
  assert (Hd : take (S n) (drop j s) = y :: take n (drop (S j) s))
    by (by rewrite (drop_S _ _ _ Hy)).
  rewrite Hd. replace (Z.of_nat j + 1) with (Z.of_nat (S j)) by lia.
  case_decide as E; cbn [num_used capacity].
  + destruct (IH i (S j) s (used - 1) cap x) as (s' & -> & Hl & Hr & Ht); [lia|lia|].
    exists s'. rewrite filter_cons_False by tauto.
    split; [do 2 f_equal; lia|]. rewrite <-Nat.add_succ_comm. auto.
  + rewrite aset_nat by lia. cbn [obind].
    replace (Z.of_nat i + 1) with (Z.of_nat (S i)) by lia.
    assert (Hd' : drop (S j) (<[i:=y]> s) = drop (S j) s) by (apply drop_insert_lt; lia).
    destruct (IH (S i) (S j) (<[i:=y]> s) used cap x) as (s' & -> & Hl & Hr & Ht);
      [lia|rewrite length_insert; lia|].
    rewrite length_insert in Hl. rewrite Hd' in *.
    exists s'. rewrite filter_cons_True by done. cbn [length].
    split; [do 2 f_equal; lia|]. split; [done|]. split.
    * rewrite <-Nat.add_succ_comm, Hr. apply drop_insert_lt. lia.
    * rewrite <-Nat.add_succ_comm, Ht, take_S_insert by lia.
      by rewrite <-app_assoc.
Qed.

Lemma remove_keeporder_ok l cap x : cap_ok l cap ->
smartlist_remove_keeporder (sl_of l cap) (Some x)
  = Ok (sl_of (filter (fun y => y <> Some x) l) cap) /\
cap_ok (filter (fun y => y <> Some x) l) cap.
Proof.
intros [Hc Hl]. unfold smartlist_remove_keeporder.
change (num_used (sl_of l cap)) with (Z.of_nat (length l)). rewrite Nat2Z.id.
pose proof (length_filter (fun y => y <> Some x) l) as Hf.
destruct (keeporder_loop_ok (length l) 0 0 (l ++ replicate (Z.to_nat cap - length l) None)
            (Z.of_nat (length l)) cap x) as (s' & Hs & Hlen & Hr & Ht);
  [lia|rewrite length_app; lia|].
rewrite drop_0, take_app_length, Nat.add_0_l, take_0, app_nil_l in *.
change (Z.of_nat 0) with 0 in Hs. unfold sl_of at 1. rewrite Hs.
cbn [obind sl_list num_used capacity].
set (l' := filter _ l) in *.
rewrite length_app, length_replicate in Hlen. rewrite drop_app_length in Hr.
replace (Z.of_nat (length l) - Z.of_nat (length l) + Z.of_nat (length l'))
  with (Z.of_nat (length l')) by lia.
assert (Hs' : s' = (l' ++ take (length l - length l') (drop (length l') s'))
                    ++ replicate (Z.to_nat cap - length l) None).
{ rewrite <-Ht at 1. rewrite <-Hr, <-app_assoc.
  rewrite <-(take_drop (length l') s') at 1. f_equal.
  rewrite <-(take_drop (length l - length l') (drop (length l') s')) at 1. f_equal.
  rewrite drop_drop. f_equal. lia. }
rewrite Hs'. replace (Z.of_nat (length l) - Z.of_nat (length l'))
  with (Z.of_nat (length l - length l')) by lia.
rewrite afill_tail.
2: { rewrite length_app, length_take, length_drop. lia. }
cbn [obind]. rewrite take_app_length.
split; [|split; [done|lia]]. unfold sl_of. do 2 f_equal. f_equal. f_equal. lia.
Qed.

Lemma del_keeporder_ok l cap (i : nat) : cap_ok l cap -> (i < length l)%nat ->
smartlist_del_keeporder (sl_of l cap) (Z.of_nat i)
  = Ok (sl_of (take i l ++ drop (S i) l) cap) /\
cap_ok (take i l ++ drop (S i) l) cap.
Proof.
intros [Hc Hl] Hi. unfold smartlist_del_keeporder, tor_assert.
cbn [num_used sl_of sl_list capacity].
destruct (Z.leb_spec 0 (Z.of_nat i)), (Z.ltb_spec (Z.of_nat i) (Z.of_nat (length l)));
  try lia. cbn [andb].
destruct (snoc_inv l) as (l0 & y & ->); [by intros ->; simpl in *; lia|].
rewrite length_app in *. simpl length in *.
replace (Z.of_nat (length l0 + 1) - 1) with (Z.of_nat (length l0)) by lia.
set (k := (Z.to_nat cap - (length l0 + 1))%nat) in *.
assert (Hlen : length (take i (l0 ++ [y]) ++ drop (S i) (l0 ++ [y])) = length l0).
{ rewrite length_app, length_take, length_drop, length_app. simpl. lia. }
assert (exists z, (if Z.of_nat i <? Z.of_nat (length l0)
   then amove ((l0 ++ [y]) ++ replicate k None) (Z.of_nat i) (Z.of_nat i + 1)
          (Z.of_nat (length l0) - Z.of_nat i)
   else Ok ((l0 ++ [y]) ++ replicate k None))
  = Ok (((take i (l0 ++ [y]) ++ drop (S i) (l0 ++ [y])) ++ [z]) ++ replicate k None))
  as (z & ->).
{ exists y. destruct (Z.ltb_spec (Z.of_nat i) (Z.of_nat (length l0))).
  - unfold amove. rewrite !length_app. simpl length. repeat cases_b.
    f_equal. replace (Z.to_nat (Z.of_nat i)) with i by lia.
    replace (Z.to_nat (Z.of_nat i + 1)) with (S i) by lia.
    replace (Z.to_nat (Z.of_nat (length l0) - Z.of_nat i)) with (length l0 - i)%nat by lia.
    rewrite <-!app_assoc. rewrite !(take_app_le l0), !(drop_app_le l0) by lia.
    replace (i + (length l0 - i))%nat with (length l0) by lia.
    rewrite (drop_ge l0 (length l0)), app_nil_l by lia.
    rewrite (app_assoc (drop (S i) l0)), take_app_le,
      (take_ge (drop (S i) l0 ++ [y]));
      [by rewrite <-!app_assoc|..]; rewrite length_app, length_drop; simpl; lia.
  - assert (i = length l0) as -> by lia. rewrite take_app_length.
    rewrite drop_ge by (rewrite length_app; simpl; lia). by rewrite app_nil_r. }
pose proof (aset_null_last (take i (l0 ++ [y]) ++ drop (S i) (l0 ++ [y])) k z) as Hn.
rewrite Hlen in Hn. cbn [obind]. rewrite Hn. cbn [obind].
split; [|split; [done|lia]]. unfold sl_of. do 2 f_equal; [|lia]. do 2 f_equal. lia.
Qed.

Lemma insert_ok l cap (i : nat) x : cap_ok l cap -> (i <= length l)%nat ->
Z.of_nat (length l) < INT_MAX ->
exists cap', smartlist_insert (sl_of l cap) (Z.of_nat i) x
  = Ok (sl_of (take i l ++ x :: drop i l) cap') /\
  cap_ok (take i l ++ x :: drop i l) cap'.
Proof.
intros Hc Hi Hn. unfold smartlist_insert, tor_assert.
change (num_used (sl_of l cap)) with (Z.of_nat (length l)).
destruct (Z.leb_spec 0 (Z.of_nat i)), (Z.leb_spec (Z.of_nat i) (Z.of_nat (length l)));
  try lia. cbn [andb].
destruct (Z.eqb_spec (Z.of_nat i) (Z.of_nat (length l))).
- assert (i = length l) as -> by lia. rewrite take_ge, drop_ge by lia.
  by apply add_ok.
- destruct (ensure_capacity_ok l cap (Z.of_nat (length l) + 1) Hc)
    as (cap' & -> & ? & Hs & Hc'); [unfold MAX_CAPACITY; lia|].
  cbn [obind sl_of sl_list num_used capacity]. destruct Hc' as [? ?].
  cases_b. exists cap'.
  assert (Hlen : length (take i l ++ x :: drop i l) = S (length l)).
  { rewrite length_app, length_take. simpl. rewrite length_drop. lia. }
  split; [|split; [done|lia]].
  destruct (Z.to_nat cap' - length l)%nat as [|k] eqn:Hk; [lia|].
  unfold amove. rewrite !length_app, length_replicate. repeat cases_b.
  replace (Z.to_nat (Z.of_nat i)) with i by lia.
  replace (Z.to_nat (Z.of_nat i + 1)) with (S i) by lia.
  replace (Z.to_nat (Z.of_nat (length l) - Z.of_nat i)) with (length l - i)%nat by lia.
  replace (S i + (length l - i))%nat with (length l + 1)%nat by lia.
  destruct (lookup_lt_is_Some_2 l i) as [y Hy]; [lia|].
  rewrite take_app_le, (drop_app_le _ _ i) by lia. rewrite drop_app_add.
  rewrite take_app_le, (take_ge (drop i l)) by (rewrite length_drop; lia).
  rewrite (take_S_r _ _ _ Hy), <-app_assoc.
  rewrite aset_nat.
  2: { rewrite !length_app, length_take. simpl. lia. }
  cbn [obind]. rewrite insert_app_r_alt by (rewrite length_take; lia).
  replace (i - length (take i l))%nat with 0%nat by (rewrite length_take; lia).
  unfold sl_of. rewrite Hlen. simpl. do 2 f_equal; [|lia].
  rewrite <-app_assoc. simpl.
  replace (Z.to_nat cap' - S (length l))%nat with k by lia. by rewrite drop_0.
Qed.

Lemma reverse_loop_ok (fuel : nat) : forall a m b,
(length m <= 2 * fuel + 1)%nat ->
reverse_loop fuel (Z.of_nat (length a)) (Z.of_nat (length a + length m) - 1)
  (a ++ m ++ b : list (ptr A)) = Ok (a ++ reverse m ++ b).
Proof.
induction fuel as [|f IH]; intros a m b Hm.
- destruct m as [|x [|y m]]; cbn [reverse_loop length] in *; [cases_b|cases_b|lia]; done.
- destruct m as [|x m]; [cbn [reverse_loop length]; cases_b; done|].
  destruct (decide (m = [])) as [->|(m' & y & ->)%snoc_inv].
  { cbn [reverse_loop length]. cases_b. done. }
  cbn [reverse_loop length] in *. rewrite !length_app in *. cbn [length] in *.
  destruct (Z.ltb_spec (Z.of_nat (length a))
              (Z.of_nat (length a + S (length m' + 1)) - 1)); [|lia].
  replace (Z.of_nat (length a + S (length m' + 1)) - 1)
    with (Z.of_nat (length (a ++ x :: m'))) by (rewrite length_app; simpl; lia).
  rewrite <-app_comm_cons.
  assert (Ha : forall z : ptr A, a ++ z :: (m' ++ [y]) ++ b = (a ++ z :: m') ++ y :: b).
  { intros z. by rewrite <-!app_assoc. }
  assert (Hset : forall z w : ptr A, aset ((a ++ z :: m') ++ y :: b)
            (Z.of_nat (length (a ++ x :: m'))) w = Ok ((a ++ z :: m') ++ w :: b)).
  { intros z w. replace (length (a ++ x :: m')) with (length (a ++ z :: m') + 0)%nat
      by (rewrite !length_app; simpl; lia).
    rewrite aset_nat by (rewrite !length_app; simpl; lia). by rewrite insert_app_r. }
  rewrite !aget_nat. rewrite list_lookup_middle by done. cbn [get obind].
  rewrite Ha, list_lookup_middle by done. cbn [get obind].
  rewrite <-Ha, aset_nat by (rewrite !length_app; simpl; lia). cbn [obind].
  rewrite insert_app_r_alt, Nat.sub_diag by lia. cbn [insert list_insert].
  rewrite Ha, Hset. cbn [obind].
  replace (Z.of_nat (length a) + 1) with (Z.of_nat (length (a ++ [y])))
    by (rewrite length_app; simpl; lia).
  replace (Z.of_nat (length (a ++ x :: m')) - 1)
    with (Z.of_nat (length (a ++ [y]) + length m') - 1)
    by (rewrite !length_app; simpl; lia).
  replace ((a ++ y :: m') ++ x :: b) with ((a ++ [y]) ++ m' ++ x :: b)
    by (by rewrite <-!app_assoc).
  rewrite IH by (simpl in *; lia). f_equal.
  rewrite reverse_cons, reverse_snoc. by rewrite <-!app_assoc.
Qed.

Lemma reverse_ok l cap : cap_ok l cap ->
smartlist_reverse (sl_of l cap) = Ok (sl_of (reverse l) cap) /\
cap_ok (reverse l) cap.
Proof.
intros [Hc Hl]. unfold smartlist_reverse. cbn [sl_of sl_list num_used capacity].
rewrite Nat2Z.id.
pose proof (reverse_loop_ok (length l) [] l (replicate (Z.to_nat cap - length l) None))
  as Hr. simpl in Hr. change (Z.of_nat 0) with 0 in Hr. rewrite Hr by lia. cbn [obind].
split; [|split; [done|by rewrite length_reverse]]. unfold sl_of. by rewrite length_reverse.
Qed.

Lemma swap_ok l cap (i j : nat) : cap_ok l cap -> (i < length l)%nat -> (j < length l)%nat ->
exists l', smartlist_swap (sl_of l cap) (Z.of_nat i) (Z.of_nat j) = Ok (sl_of l' cap) /\
  cap_ok l' cap /\ l' !! i = l !! j /\ l' !! j = l !! i /\ length l' = length l /\
  forall k, k <> i -> k <> j -> l' !! k = l !! k.
Proof.
intros [Hc Hl] Hi Hj. unfold smartlist_swap.
destruct (Z.eqb_spec (Z.of_nat i) (Z.of_nat j)).
{ assert (i = j) as -> by lia. exists l. repeat split; try done; lia. }
destruct (lookup_lt_is_Some_2 l i Hi) as [x Hx].
destruct (lookup_lt_is_Some_2 l j Hj) as [y Hy].
cbn [sl_of sl_list num_used capacity].
rewrite (aget_pad _ _ _ _ Hx), (aget_pad _ _ _ _ Hy). cbn [get obind].
rewrite aset_pad by done. cbn [obind]. rewrite aset_pad by (by rewrite length_insert).
cbn [obind]. exists (<[j:=x]> (<[i:=y]> l)).
split; [unfold sl_of; by rewrite !length_insert|]. rewrite !length_insert.
split; [split; [done|by rewrite !length_insert]|].
assert (i <> j) by lia. split.
- rewrite list_lookup_insert_ne by done. by rewrite list_lookup_insert_eq.
- split; [by rewrite list_lookup_insert_eq by (by rewrite length_insert)|].
  split; [done|]. intros k ? ?. by rewrite !list_lookup_insert_ne.
Qed.

(** ** The refinement *)

Lemma slexec_ok (c : slcmd A) l cap : cap_ok l cap -> slpre c l ->
exists r l' cap', slexec c (sl_of l cap) = Ok (r, sl_of l' cap') /\
  cap_ok l' cap' /\ slpost c l r l'.
Proof.
intros Hc Hp. destruct c as [|n|x|s2|x|x| |i|i|i x| |i j]; cbn [slexec slpost slpre] in *.
- destruct (clear_ok l cap Hc) as [-> ?]. eauto 10.
- destruct (grow_ok l cap n Hc Hp) as (cap' & -> & ?). eauto 10.
- destruct (add_ok l cap x Hc Hp) as (cap' & -> & ?). eauto 10.
- destruct Hp as (l2 & Hs2 & Hn).
  destruct (add_all_ok l cap s2 l2 Hc Hs2 Hn) as (cap' & -> & ?).
  exists None, (l ++ l2), cap'. repeat split; try done; try apply H.
  intros l3 Hs3. f_equal. apply sl_repr_of in Hs2 as [E2 _], Hs3 as [E3 _].
  rewrite E2 in E3. injection E3 as E3 En. apply Nat2Z.inj in En.
  apply (f_equal (take (length l2))) in E3.
  rewrite take_app_length, En, take_app_length in E3. done.
- destruct x as [x|]; [|simpl; eauto 10].
  destruct (remove_loop_ok (S (length l)) 0 l cap x) as (l' & Hl' & ? & ? & ?);
    [done|lia|lia|rewrite take_0; apply not_elem_of_nil|].
  unfold smartlist_remove. change (num_used (sl_of l cap)) with (Z.of_nat (length l)).
  rewrite Nat2Z.id. change 0 with (Z.of_nat 0). rewrite Hl'. eauto 10.
- destruct x as [x|]; [|simpl; eauto 10].
  destruct (remove_keeporder_ok l cap x Hc) as [-> ?]. eauto 10.
- destruct (pop_last_ok l cap Hc) as [-> ?]. eauto 10.
- destruct (swap_with_end_ok l cap (Z.to_nat i) Hc) as [Hs ?]; [lia|].
  unfold smartlist_del, tor_assert.
  change (num_used (sl_of l cap)) with (Z.of_nat (length l)).
  destruct (Z.leb_spec 0 i), (Z.ltb_spec i (Z.of_nat (length l))); try lia.
  cbn [andb]. rewrite Z2Nat.id in Hs by lia. rewrite Hs.
  destruct (lookup_lt_is_Some_2 l (Z.to_nat i)) as [x Hx]; [lia|].
  do 3 eexists. split; [done|]. split; [done|]. split; [done|].
  rewrite Hx. by apply del_swap_perm.
- destruct (del_keeporder_ok l cap (Z.to_nat i) Hc) as [Hs ?]; [lia|].
  rewrite Z2Nat.id in Hs by lia. rewrite Hs. eauto 10.
- destruct (insert_ok l cap (Z.to_nat i) x Hc) as (cap' & Hs & ?); [lia|lia|].
  rewrite Z2Nat.id in Hs by lia. rewrite Hs. eauto 10.
- destruct (reverse_ok l cap Hc) as [-> ?]. eauto 10.
- destruct (swap_ok l cap (Z.to_nat i) (Z.to_nat j) Hc) as (l' & Hs & ? & ? & ? & ? & ?);
    [lia|lia|]. rewrite !Z2Nat.id in Hs by lia. rewrite Hs. eauto 15.
Qed.
End facts.

Lemma sl_repr_new {A} `{EqDecision A} : sl_repr (smartlist_new (A:=A)) [].
Proof.
  unfold sl_repr, smartlist_new, SMARTLIST_DEFAULT_CAPACITY, MAX_CAPACITY, INT_MAX.
  cbn [num_used capacity sl_list length]. split; [done|]. split; [lia|]. by split.
Qed.

(** ** Properties *)

(** Smartlists refine lists: the empty smartlist represents the empty list, and every
    operation of the module, run on an array that represents [l] within its precondition
    (an index in range, no more than [INT_MAX] elements), returns normally, with no
    access outside the allocated slots and no failed assertion, and leaves an array that
    represents the list its documentation promises: appended, inserted at, deleted with or
    without keeping the order, filtered, reversed or swapped. *)
Theorem smartlist_refines_list {A} `{EqDecision A} (c : slcmd A) (sl : smartlist A)
    (l : list (ptr A)) :
  sl_repr sl l -> slpre c l ->
  sl_repr (smartlist_new (A:=A)) [] /\
  exists r sl' l', slexec c sl = Ok (r, sl') /\ sl_repr sl' l' /\ slpost c l r l'.
Proof.
  intros [-> Hc]%sl_repr_of Hp. split; [apply sl_repr_new|].
  destruct (slexec_ok c l (capacity sl) Hc Hp) as (r & l' & cap' & Hx & Hc' & Hpost).
  exists r, (sl_of l' cap'), l'. split; [done|]. split; [|done].
  by apply sl_repr_of.
Qed.

Theorem smartlist_refines_list_witness :
  sl_repr (smartlist_new (A:=Z)) [] /\
  exists r sl' l', slexec (SlAdd (Some 7)) (smartlist_new (A:=Z)) = Ok (r, sl') /\
    sl_repr sl' l' /\ l' = [Some 7].
Proof.
  apply (smartlist_refines_list (A:=Z) (SlAdd (Some 7)) smartlist_new []).
  - apply sl_repr_new.
  - reflexivity.
Defined.
