(* ===== verification/Smartutil.v ===== *)
(** * Smartlist utilities: [smartlist.c] and [smartlist_split.c]

    Splitting and joining of strings, binary search, removal of duplicates, most frequent
    elements and the membership tests, on the list that a smartlist represents (see
    SmartlistFacts for the array below it). *)

From S2P Require Import Prelude ParseInt DiOps Strings.

(** ** Splitting *)

Definition SPLIT_SKIP_SPACE : Z := 1.
Definition SPLIT_IGNORE_BLANK : Z := 2.
Definition SPLIT_STRIP_SPACE : Z := 4.

Definition flag_set (flags f : Z) : bool := negb (Z.land flags f =? 0).

Fixpoint skip_while (p : ascii -> bool) (s : bytes) : bytes :=
  match s with c :: s' => if p c then skip_while p s' else s | [] => [] end.

Fixpoint index_of (p : ascii -> bool) (s : bytes) : nat :=
  match s with c :: s' => if p c then O else S (index_of p s') | [] => O end.

(** [while (end > cp && TOR_ISSPACE(end[-1])) --end;], [end] as an offset in [cp]. *)
Fixpoint trim_end (cp : bytes) (e : nat) : nat :=
  match e with
  | O => O
  | S e' => match cp !! e' with
            | Some c => if TOR_ISSPACE c then trim_end cp e' else e
            | None => e
            end
  end.

Definition is_tab_or_space (c : ascii) : bool := (b2z c =? 9) || (b2z c =? 32).

(** Where the piece that starts at [cp] ends. *)
Definition split_end (cp : bytes) (sep : option bytes) (max n : Z) : nat :=
  if (0 <? max) && (n =? max - 1) then length cp
  else match sep with
       | Some sep => match strstr cp sep with
                     | Some r => (length cp - length r)%nat
                     | None => length cp
                     end
       | None => index_of is_tab_or_space cp
       end.

Fixpoint split_loop (fuel : nat) (sl : list bytes) (cp : bytes) (sep : option bytes)
    (flags max n : Z) : outcome (list bytes * Z) :=
  match fuel with
  | O => Stuck
  | S f =>
      let cp := if flag_set flags SPLIT_SKIP_SPACE then skip_while TOR_ISSPACE cp else cp in
      let e := split_end cp sep max n in
      let next := match drop e cp with
                  | [] => None
                  | _ => Some (match sep with
                               | Some sep => drop (e + length sep) cp
                               | None => skip_while is_tab_or_space (drop (e + 1) cp)
                               end)
                  end in
      let e := if flag_set flags SPLIT_SKIP_SPACE then trim_end cp e else e in
      let '(sl, n) :=
        if negb (e =? 0)%nat || negb (flag_set flags SPLIT_IGNORE_BLANK) then
          let string := take e cp in
          let string := if flag_set flags SPLIT_STRIP_SPACE then tor_strstrip string [SP]
                        else string in
          (sl ++ [string], n + 1)
        else (sl, n) in
      match next with
      | None => Ok (sl, n)
      | Some cp => split_loop f sl cp sep flags max n
      end
  end.

Definition smartlist_split_string (sl : list bytes) (str : bytes) (sep : option bytes)
    (flags max : Z) : outcome (list bytes * Z) :=
  split_loop (S (length str)) sl str sep flags max 0.

(** ** Joining *)

(** The first loop computes the length, the second one fills the buffer. *)
Fixpoint join_length (sl : list bytes) (join_len : nat) : nat :=
  match sl with
  | [] => O
  | [s] => length s
  | s :: sl' => (length s + join_len + join_length sl' join_len)%nat
  end.

Fixpoint join_fill (sl : list bytes) (join : bytes) : bytes :=
  match sl with
  | [] => []
  | [s] => s
  | s :: sl' => s ++ join ++ join_fill sl' join
  end.

(** The buffer has [n + 1] bytes; what is written and its NUL have to fit. *)
Definition smartlist_join_strings2 (sl : list bytes) (join : bytes) (terminate : bool)
    : outcome bytes :=
  let n := ((if terminate then length join else O) + join_length sl (length join))%nat in
  let r := join_fill sl join ++ (if terminate then join else []) in
  if (n + 1 <? length r + 1)%nat then Stuck else Ok r.

Definition smartlist_join_strings (sl : list bytes) (join : bytes) (terminate : bool)
    : outcome bytes := smartlist_join_strings2 sl join terminate.

(** ** Membership *)

Fixpoint smartlist_string_pos_from (sl : list bytes) (element : bytes) (i : Z) : Z :=
  match sl with
  | [] => -1
  | s :: sl' => if strcmp s element =? 0 then i else smartlist_string_pos_from sl' element (i + 1)
  end.

Definition smartlist_string_pos (sl : list bytes) (element : bytes) : Z :=
  smartlist_string_pos_from sl element 0.

Definition smartlist_contains_string (sl : list bytes) (element : bytes) : bool :=
  existsb (fun s => strcmp s element =? 0) sl.

Definition smartlist_contains_string_case (sl : list bytes) (element : bytes) : bool :=
  existsb (fun s => strcasecmp s element =? 0) sl.

Definition smartlist_contains_int_as_string (sl : list bytes) (num : Z) : bool :=
  smartlist_contains_string sl (print_int num).

Definition smartlist_contains_digest (sl : list bytes) (element : bytes) : outcome bool :=
  foldr (fun s r => let* eq := tor_memeq s element 20 in
                    if eq =? 1 then Ok true else r) (Ok false) sl.

Fixpoint strings_eq_loop (sl1 sl2 : list bytes) : bool :=
  match sl1, sl2 with
  | [], _ => true
  | a :: sl1', b :: sl2' => if strcmp a b =? 0 then strings_eq_loop sl1' sl2' else false
  | _ :: _, [] => false
  end.

Definition smartlist_strings_eq (sl1 sl2 : option (list bytes)) : bool :=
  match sl1, sl2 with
  | None, None => true
  | Some a, Some b => if (length a =? length b)%nat then strings_eq_loop a b else false
  | _, _ => false
  end.

Section compare.
Context {A : Type}.

(** ** Binary search: [compare] is the comparison of the key with a member *)

Fixpoint bsearch_loop (fuel : nat) (sl : list A) (compare : A -> Z) (len lo hi : Z)
  : outcome (Z * bool) :=
match fuel with
| O => Stuck
| S f =>
    if lo <=? hi then
      let diff := hi - lo in
      let mid := lo + diff / 2 in
      let* x := get (aget sl mid) in
      let cmp := compare x in
      if cmp =? 0 then Ok (mid, true)
      else if 0 <? cmp then
        tor_assert (mid <? len) (bsearch_loop f sl compare len (mid + 1) hi)
      else
        tor_assert (cmp <? 0) (
        if 0 <? mid then bsearch_loop f sl compare len lo (mid - 1)
        else tor_assert (mid =? lo) (tor_assert (mid =? 0) (Ok (0, false))))
    else
      tor_assert (lo =? hi + 1) (
      tor_assert (0 <=? lo) (tor_assert (lo <=? len) (
      tor_assert (0 <=? hi) (tor_assert (hi <=? len) (
      if lo <? len then
        let* x := get (aget sl lo) in tor_assert (compare x <? 0) (Ok (lo, false))
      else
        let* x := get (aget sl (len - 1)) in tor_assert (0 <? compare x) (Ok (lo, false)))))))
end.

Definition smartlist_bsearch_idx (sl : list A) (compare : A -> Z) : outcome (Z * bool) :=
let len := zlen sl in
if len =? 0 then Ok (0, false)
else tor_assert (0 <? len) (bsearch_loop (S (length sl)) sl compare len 0 (len - 1)).

Definition smartlist_bsearch (sl : list A) (compare : A -> Z) : outcome (option A) :=
let* (idx, found) := smartlist_bsearch_idx sl compare in
if found : bool then let* x := get (aget sl idx) in Ok (Some x) else Ok None.

(** ** Duplicates and frequencies: [compare] on two members *)

(** The loop at index [i], [prev] and [rest] being the elements before and from [i] on;
  deleting element [i] keeps [prev]. *)
Fixpoint uniq_loop (compare : A -> A -> Z) (prev : A) (rest : list A) : list A :=
match rest with
| [] => []
| x :: rest' => if compare prev x =? 0 then uniq_loop compare prev rest'
                else x :: uniq_loop compare x rest'
end.

Definition smartlist_uniq (sl : list A) (compare : A -> A -> Z) : list A :=
match sl with [] => [] | x :: rest => x :: uniq_loop compare x rest end.

Fixpoint most_frequent_loop (compare : A -> A -> Z) (sl : list A) (cur : option A)
  (count : Z) (most_frequent : option A) (most_frequent_count : Z) : option A * Z :=
let flush := match cur with
             | Some _ => if most_frequent_count <=? count then (cur, count)
                         else (most_frequent, most_frequent_count)
             | None => (most_frequent, most_frequent_count)
             end in
match sl with
| [] => flush
| item :: sl' =>
    if match cur with Some c => compare c item =? 0 | None => false end
    then most_frequent_loop compare sl' cur (count + 1) most_frequent most_frequent_count
    else most_frequent_loop compare sl' (Some item) 1 (fst flush) (snd flush)
end.

Definition smartlist_get_most_frequent_ (sl : list A) (compare : A -> A -> Z)
  : option A * Z :=
most_frequent_loop compare sl None 0 None 0.
End compare.

(** ** Lemmas: binary search *)

(** The members are in order with respect to the key. *)
Definition key_sorted {A} (sl : list A) (compare : A -> Z) : Prop :=
  forall i j x y, (i < j)%nat -> sl !! i = Some x -> sl !! j = Some y ->
    (0 < compare y -> 0 < compare x) /\ (compare x < 0 -> compare y < 0).

Definition bsearch_post {A} (sl : list A) (compare : A -> Z) (idx : Z) (found : bool) : Prop :=
  if found then exists x, aget sl idx = Some x /\ compare x = 0
  else 0 <= idx <= zlen sl /\
       forall i x, sl !! i = Some x ->
         if bool_decide (Z.of_nat i < idx) then 0 < compare x else compare x < 0.

Lemma bsearch_loop_ok {A} (sl : list A) (compare : A -> Z) :
  key_sorted sl compare -> sl <> [] ->
  forall fuel lo hi, 0 <= lo -> lo <= hi + 1 -> 0 <= hi < zlen sl ->
  hi - lo + 1 < Z.of_nat fuel ->
  (forall i x, Z.of_nat i < lo -> sl !! i = Some x -> 0 < compare x) ->
  (forall i x, hi < Z.of_nat i -> sl !! i = Some x -> compare x < 0) ->
  exists idx found, bsearch_loop fuel sl compare (zlen sl) lo hi = Ok (idx, found) /\
    bsearch_post sl compare idx found.
Proof.
  intros Hs Hne. unfold zlen.
  induction fuel as [|f IH]; intros lo hi Hlo Hlh Hhi Hf Hbelow Habove; [lia|].
  cbn [bsearch_loop]. unfold tor_assert. destruct (Z.leb_spec lo hi) as [L|L].
  - set (mid := lo + (hi - lo) / 2). assert (Hmid : lo <= mid <= hi) by (unfold mid; dlia).
    destruct (aget_lt sl mid) as (x & Hx & Hx'); [lia|]. rewrite Hx. cbn [get obind].
    destruct (Z.eqb_spec (compare x) 0) as [E|E].
    { exists mid, true. split; [done|]. exists x. done. }
    destruct (Z.ltb_spec 0 (compare x)) as [Lc|Lc].
    + rewrite (proj2 (Z.ltb_lt _ _)) by lia.
      assert (Hb' : forall i y, Z.of_nat i < mid + 1 -> sl !! i = Some y -> 0 < compare y).
      { intros i y Hi Hy. destruct (decide (Z.of_nat i = mid)) as [Ei|].
        - rewrite <- Ei, Nat2Z.id in Hx'. rewrite Hx' in Hy. by injection Hy as ->.
        - apply (Hs i (Z.to_nat mid) y x); [lia|done|done|lia]. }
      destruct (Z.leb_spec (mid + 1) hi) as [Lm|Lm]; [apply IH; try done; lia|].
      apply IH; try done; lia.
    + rewrite (proj2 (Z.ltb_lt _ _)) by lia.
      assert (Ha' : forall i y, mid - 1 < Z.of_nat i -> sl !! i = Some y -> compare y < 0).
      { intros i y Hi Hy. destruct (decide (Z.of_nat i = mid)) as [Ei|].
        - rewrite <- Ei, Nat2Z.id in Hx'. rewrite Hx' in Hy. injection Hy as ->. lia.
        - apply (Hs (Z.to_nat mid) i x y); [lia|done|done|lia]. }
      destruct (Z.ltb_spec 0 mid) as [L0|L0].
      * apply IH; try done; lia.
      * rewrite (proj2 (Z.eqb_eq _ _)) by lia. rewrite (proj2 (Z.eqb_eq mid 0)) by lia.
        exists 0, false. split; [done|]. split; [unfold zlen; lia|]. intros i y Hy.
        rewrite bool_decide_false by lia. apply (Ha' i); [lia|done].
  - rewrite (proj2 (Z.eqb_eq _ _)), !(proj2 (Z.leb_le _ _)) by lia.
    assert (Hpost : bsearch_post sl compare lo false).
    { split; [unfold zlen; lia|]. intros i y Hy. case_bool_decide; [by apply (Hbelow i)|].
      apply (Habove i); [lia|done]. }
    destruct (Z.ltb_spec lo (Z.of_nat (length sl))) as [Ll|Ll].
    + destruct (aget_lt sl lo) as (x & Hx & Hx'); [lia|]. rewrite Hx. cbn [get obind].
      rewrite (proj2 (Z.ltb_lt _ _)); [eauto|]. apply (Habove (Z.to_nat lo)); [lia|done].
    + destruct (aget_lt sl (Z.of_nat (length sl) - 1)) as (x & Hx & Hx'); [lia|].
      rewrite Hx. cbn [get obind]. rewrite (proj2 (Z.ltb_lt _ _)); [eauto|].
      apply (Hbelow (Z.to_nat (Z.of_nat (length sl) - 1))); [lia|done].
Qed.

Lemma bsearch_idx_ok {A} (sl : list A) (compare : A -> Z) : key_sorted sl compare ->
  exists idx found, smartlist_bsearch_idx sl compare = Ok (idx, found) /\
    bsearch_post sl compare idx found.
Proof.
  intros Hs. unfold smartlist_bsearch_idx, tor_assert.
  destruct (Z.eqb_spec (zlen sl) 0) as [E|E].
  - exists 0, false. split; [done|]. split; [lia|]. intros i x Hx.
    apply lookup_lt_Some in Hx. unfold zlen in E. lia.
  - rewrite (proj2 (Z.ltb_lt _ _)) by (unfold zlen in *; lia).
    apply bsearch_loop_ok; try done; unfold zlen in *; try lia.
    + intros ->. done.
    + intros i x Hi Hx. apply lookup_lt_Some in Hx. lia.
Qed.

(** ** Lemmas: splitting and joining *)

Lemma starts_with_app (pre s : bytes) : starts_with pre s = true <-> exists t, s = pre ++ t.
Proof.
  revert s. induction pre as [|c pre IH]; intros [|d s]; cbn [starts_with app].
  - split; [|done]. by exists [].
  - split; [|done]. by exists (d :: s).
  - split; [done|]. by intros [t H].
  - rewrite andb_true_iff, bool_decide_eq_true, IH. split.
    + intros [-> [t ->]]. by exists t.
    + intros [t [= -> ->]]. split; [done|by exists t].
Qed.

Lemma strstr_unfold (s needle : bytes) :
  strstr s needle = if starts_with needle s then Some s
                    else match s with [] => None | _ :: s' => strstr s' needle end.
Proof. by destruct s. Qed.

(** [strstr] splits the string just before the first occurrence. *)
Lemma strstr_split (needle : bytes) (s r : bytes) : strstr s needle = Some r ->
  exists pre t, s = pre ++ r /\ r = needle ++ t.
Proof.
  induction s as [|c s IH]; rewrite strstr_unfold; destruct (starts_with needle _) eqn:E; try done.
  - intros [= <-]. apply starts_with_app in E as [t E]. by exists [], t.
  - intros [= <-]. apply starts_with_app in E as [t E]. by exists [], t.
  - intros (pre & t & -> & ->)%IH. by exists (c :: pre), t.
Qed.

Lemma split_end_sep (cp sep : bytes) : sep <> [] ->
  (let e := split_end cp (Some sep) 0 0 in
   drop e cp = [] /\ take e cp = cp) \/
  (let e := split_end cp (Some sep) 0 0 in
   drop e cp <> [] /\ cp = take e cp ++ sep ++ drop (e + length sep) cp).
Proof.
  intros Hsep. unfold split_end. cbn [Z.ltb andb Z.compare].
  destruct (strstr cp sep) as [r|] eqn:E.
  - right. apply strstr_split in E as (pre & t & -> & ->). cbn zeta.
    rewrite !length_app. replace (length pre + (length sep + length t) - (length sep + length t))%nat
      with (length pre) by lia.
    rewrite take_app_length, drop_app_length. split; [by destruct sep|]. f_equal. f_equal.
    rewrite <- drop_drop, drop_app_length. by rewrite drop_app_length.
  - left. cbn zeta. rewrite drop_ge, take_ge by lia. done.
Qed.

Lemma split_end_n (cp : bytes) (sep : option bytes) (n : Z) :
  split_end cp sep 0 n = split_end cp sep 0 0.
Proof. done. Qed.

Lemma split_step (f : nat) (sl : list bytes) (cp sep : bytes) (n : Z) :
  split_loop (S f) sl cp (Some sep) 0 0 n
  = (let e := split_end cp (Some sep) 0 0 in
     match drop e cp with
     | [] => Ok (sl ++ [take e cp], n + 1)
     | _ => split_loop f (sl ++ [take e cp]) (drop (e + length sep) cp) (Some sep) 0 0 (n + 1)
     end).
Proof.
  cbn [split_loop]. change (flag_set 0 SPLIT_SKIP_SPACE) with false.
  change (flag_set 0 SPLIT_IGNORE_BLANK) with false.
  change (flag_set 0 SPLIT_STRIP_SPACE) with false. rewrite split_end_n.
  cbn [negb]. rewrite orb_true_r. cbn zeta iota.
  by destruct (drop (split_end cp (Some sep) 0 0) cp).
Qed.

(** With no flags and no limit: the pieces, joined again, are the string. *)
Lemma split_loop_join (sep : bytes) : sep <> [] -> forall fuel sl cp n,
  (length cp < fuel)%nat ->
  exists pieces m, split_loop fuel sl cp (Some sep) 0 0 n = Ok (sl ++ pieces, m) /\
    pieces <> [] /\ join_fill pieces sep = cp /\ m = n + zlen pieces.
Proof.
  intros Hsep. induction fuel as [|f IH]; intros sl cp n Hf; [lia|]. rewrite split_step.
  destruct (split_end_sep cp sep Hsep) as [[Hd Ht]|[Hd Hcp]]; cbn zeta in *.
  - rewrite Hd, Ht. exists [cp], (n + 1). by repeat split.
  - set (e := split_end cp (Some sep) 0 0) in *.
    destruct (drop e cp) as [|c l] eqn:E; [done|].
    destruct (IH (sl ++ [take e cp]) (drop (e + length sep) cp) (n + 1)) as (ps & m & -> & Hne & Hj & ->).
    { rewrite Hcp in Hf. rewrite !length_app in Hf. destruct sep; [done|]. cbn [length] in *. lia. }
    exists (take e cp :: ps), (n + 1 + zlen ps). rewrite <- app_assoc. split; [done|].
    split; [done|]. split; [|unfold zlen; cbn [length]; lia].
    destruct ps as [|p ps]; [done|]. cbn [join_fill] in *. by rewrite Hj.
Qed.

Lemma strstr_char (c : ascii) (s t : bytes) : c ∉ s ->
  strstr (s ++ c :: t) [c] = Some (c :: t) /\ strstr s [c] = None.
Proof.
  induction s as [|d s IH]; intros Hc; cbn [app].
  - split; [|done]. cbn. by rewrite bool_decide_true.
  - apply not_elem_of_cons in Hc as [Hcd Hc]. destruct (IH Hc) as [H1 H2].
    split; rewrite strstr_unfold; cbn [starts_with]; rewrite bool_decide_false by done; done.
Qed.

Lemma split_loop_of_join (c : ascii) (pieces : list bytes) : forall fuel sl n,
  pieces <> [] -> Forall (fun s => c ∉ s) pieces ->
  (length (join_fill pieces [c]) < fuel)%nat ->
  split_loop fuel sl (join_fill pieces [c]) (Some [c]) 0 0 n = Ok (sl ++ pieces, n + zlen pieces).
Proof.
  induction pieces as [|p ps IH]; intros fuel sl n Hne Hall Hf; [done|].
  apply Forall_cons in Hall as [Hp Hall]. destruct fuel as [|f]; [lia|]. rewrite split_step.
  destruct ps as [|q ps].
  - cbn [join_fill]. unfold split_end. cbn [Z.ltb andb Z.compare].
    destruct (strstr_char c p [] Hp) as [_ ->]. cbn zeta.
    rewrite drop_ge, take_ge by lia. done.
  - change (join_fill (p :: q :: ps) [c]) with (p ++ c :: join_fill (q :: ps) [c]) in *.
    set (rest := join_fill (q :: ps) [c]) in *.
    assert (He : split_end (p ++ c :: rest) (Some [c]) 0 0 = length p).
    { unfold split_end. cbn [Z.ltb andb Z.compare].
      destruct (strstr_char c p rest Hp) as [-> _]. rewrite length_app. cbn [length]. lia. }
    cbn zeta. rewrite He, drop_app_length, take_app_length. cbn [length].
    replace (drop (length p + 1) (p ++ c :: rest)) with rest.
    2:{ rewrite <- drop_drop, drop_app_length. done. }
    rewrite length_app in Hf. cbn [length] in Hf.
    rewrite IH by (done || (fold rest; lia)). f_equal. f_equal.
    + by rewrite <- app_assoc.
    + unfold zlen. cbn [length]. lia.
Qed.

Lemma join_length_ok (sl : list bytes) (join : bytes) :
  join_length sl (length join) = length (join_fill sl join).
Proof.
  induction sl as [|s [|s' sl] IH]; [done..|].
  change (join_length (s :: s' :: sl) (length join))
    with (length s + length join + join_length (s' :: sl) (length join))%nat.
  change (join_fill (s :: s' :: sl) join) with (s ++ join ++ join_fill (s' :: sl) join).
  rewrite !length_app, IH. lia.
Qed.

Lemma join_strings_ok (sl : list bytes) (join : bytes) (terminate : bool) :
  smartlist_join_strings sl join terminate
  = Ok (join_fill sl join ++ (if terminate then join else [])).
Proof.
  unfold smartlist_join_strings, smartlist_join_strings2. rewrite join_length_ok, length_app.
  rewrite (proj2 (Nat.ltb_ge _ _)); [done|]. destruct terminate; cbn [length]; lia.
Qed.

(** ** Properties *)

(** Binary search is correct on a list whose members are in order relative to the key:
    the loop ends, none of the assertions of the code fails, no index is out of range, a
    reported match compares equal to the key, and without a match the index returned
    is the boundary: every member before it is smaller and every member from it on is
    greater. *)
Theorem smartlist_bsearch_idx_correct {A} (sl : list A) (compare : A -> Z) :
  key_sorted sl compare ->
  exists idx found, smartlist_bsearch_idx sl compare = Ok (idx, found) /\
    (if found : bool then exists x, aget sl idx = Some x /\ compare x = 0
     else 0 <= idx <= zlen sl /\
          forall i x, sl !! i = Some x ->
            if bool_decide (Z.of_nat i < idx) then 0 < compare x else compare x < 0).
Proof. intros H. by destruct (bsearch_idx_ok sl compare H) as (i & b & ? & ?); exists i, b. Qed.

Lemma key_sorted_sub (sl : list Z) (k : Z) : (forall i j x y, (i < j)%nat -> sl !! i = Some x ->
  sl !! j = Some y -> x <= y) -> key_sorted sl (Z.sub k).
Proof. intros H i j x y Hij Hx Hy. specialize (H i j x y Hij Hx Hy). lia. Qed.

Theorem smartlist_bsearch_idx_correct_witness :
  exists idx found, smartlist_bsearch_idx [2; 4; 6] (Z.sub 5) = Ok (idx, found) /\
    (if found : bool then exists x, aget [2; 4; 6] idx = Some x /\ 5 - x = 0
     else 0 <= idx <= 3 /\
          forall i x, [2; 4; 6] !! i = Some x ->
            if bool_decide (Z.of_nat i < idx) then 0 < 5 - x else 5 - x < 0).
Proof.
  apply (smartlist_bsearch_idx_correct [2; 4; 6] (Z.sub 5)). apply key_sorted_sub.
  intros [|[|[|i]]] [|[|[|j]]] x y Hij Hx Hy; cbn in *; simplify_eq; lia.
Defined.

(** Splitting and joining are inverse. For any separator that is not empty,
    [smartlist_split_string] without flags appends pieces to the list, returns their number, and
    [smartlist_join_strings] of the pieces gives the string back; and for a one-character
    separator, splitting the join of strings that do not contain it gives exactly those strings. *)
Theorem split_join_roundtrip (sep str : bytes) (sl pieces : list bytes) (c : ascii) :
  sep <> [] -> pieces <> [] -> Forall (fun s => c ∉ s) pieces ->
  (exists ps, smartlist_split_string sl str (Some sep) 0 0 = Ok (sl ++ ps, zlen ps) /\
     smartlist_join_strings ps sep false = Ok str) /\
  (exists s, smartlist_join_strings pieces [c] false = Ok s /\
     smartlist_split_string sl s (Some [c]) 0 0 = Ok (sl ++ pieces, zlen pieces)).
Proof.
  intros Hs Hp Hall. split.
  - destruct (split_loop_join sep Hs (S (length str)) sl str 0) as (ps & m & H & _ & Hj & ->); [lia|].
    exists ps. split; [done|]. by rewrite join_strings_ok, Hj, app_nil_r.
  - eexists. rewrite join_strings_ok, app_nil_r. split; [done|].
    unfold smartlist_split_string. by rewrite split_loop_of_join by (done || lia).
Qed.

Theorem split_join_roundtrip_witness :
  (exists ps, smartlist_split_string [] (bs "a, b,c") (Some (bs ", ")) 0 0 = Ok ([] ++ ps, zlen ps) /\
     smartlist_join_strings ps (bs ", ") false = Ok (bs "a, b,c")) /\
  (exists s, smartlist_join_strings [bs "x"; []; bs "y"] [SP] false = Ok s /\
     smartlist_split_string [] s (Some [SP]) 0 0 = Ok ([] ++ [bs "x"; []; bs "y"], 3)).
Proof.
  apply (split_join_roundtrip (bs ", ") (bs "a, b,c") [] [bs "x"; []; bs "y"] SP);
    [discriminate|discriminate|].
  repeat constructor; try apply not_elem_of_nil; apply not_elem_of_cons; split;
    try discriminate; apply not_elem_of_nil.
Defined.
