(* ===== verification/Binascii.v ===== *)
(** * Base-16, base-32 and base-64: [src/BADNET/src/lib/encoding/binascii.c]

    The encoders and decoders as they run: a destination buffer of [destlen] bytes that
    every store goes through, so that a store outside it is [Stuck]. The second half has
    the encodings as functions on byte strings and the proofs that the loops compute
    them. *)

From S2P Require Import Prelude ParseInt.

(** ** Sizes *)

Definition CEIL_DIV (a b : Z) : Z := (a + (b - 1)) / b.
Definition BASE64_LEN (n : Z) : Z := CEIL_DIV n 3 * 4.
Definition BASE16_BUFSIZE (n : Z) : Z := n * 2 + 1.
Definition BASE32_NOPAD_BUFSIZE (n : Z) : Z := CEIL_DIV (n * 8) 5 + 1.
Definition BASE64_OPENSSL_LINELEN : Z := 64.
Definition BASE64_ENCODE_MULTILINE : Z := 1.

Definition size (s : bytes) : Z := Z.of_nat (length s).

Definition base32_encoded_size (srclen : Z) : outcome Z :=
  tor_assert (srclen <? SIZE_T_CEILING / 8) (
  let enclen := BASE32_NOPAD_BUFSIZE srclen in
  tor_assert ((enclen <? INT_MAX) && (srclen <? enclen)) (Ok enclen)).

Definition base64_encode_size (srclen flags : Z) : outcome Z :=
  tor_assert (srclen <? INT_MAX) (
  tor_assert (CEIL_DIV srclen 3 <? INT_MAX / 4) (
  let enclen := BASE64_LEN srclen in
  let enclen := if Z.land flags BASE64_ENCODE_MULTILINE =? 0 then enclen
                else enclen + CEIL_DIV enclen BASE64_OPENSSL_LINELEN in
  tor_assert ((enclen <? INT_MAX) && ((enclen =? 0) || (srclen <? enclen))) (Ok enclen))).

Definition base64_decode_maxsize (srclen : Z) : outcome Z :=
  tor_assert (srclen <? INT_MAX / 3) (Ok (CEIL_DIV (srclen * 3) 4)).

(** [memset(dest, 0, destlen)]. *)
Definition zeroed (dest : bytes) : bytes := replicate (length dest) NUL.

(** ** Base 16 *)

Definition hex_decode_digit (c : ascii) : Z :=
  match c with
  | "0"%char => 0 | "1"%char => 1 | "2"%char => 2 | "3"%char => 3 | "4"%char => 4
  | "5"%char => 5 | "6"%char => 6 | "7"%char => 7 | "8"%char => 8 | "9"%char => 9
  | "A"%char | "a"%char => 10 | "B"%char | "b"%char => 11
  | "C"%char | "c"%char => 12 | "D"%char | "d"%char => 13
  | "E"%char | "e"%char => 14 | "F"%char | "f"%char => 15
  | _ => -1
  end.

Definition HEX_CHARS : bytes := bs "0123456789ABCDEF".

Fixpoint base16_encode_loop (src dest : bytes) (cp : Z) : outcome (bytes * Z) :=
  match src with
  | [] => Ok (dest, cp)
  | c :: src' =>
      let* hi := get (aget HEX_CHARS (Z.shiftr (b2z c) 4)) in
      let* dest1 := aset dest cp hi in
      let* lo := get (aget HEX_CHARS (Z.land (b2z c) 15)) in
      let* dest2 := aset dest1 (cp + 1) lo in
      base16_encode_loop src' dest2 (cp + 2)
  end.

Definition base16_encode (dest src : bytes) : outcome bytes :=
  tor_assert (size src <? SIZE_T_CEILING / 2 - 1) (
  tor_assert (BASE16_BUFSIZE (size src) <=? size dest) (
  tor_assert (size dest <? SIZE_T_CEILING) (
  let* (dest1, cp) := base16_encode_loop src (zeroed dest) 0 in
  aset dest1 cp NUL))).

Definition hex_str (from : bytes) (fromlen : Z) : outcome bytes :=
  let buf := replicate 65 NUL in
  let n := if (size buf - 1) / 2 <? fromlen then (size buf - 1) / 2 else fromlen in
  base16_encode buf (take (Z.to_nat n) from).

(** The loop reads two characters at a time; [srclen] is even when it starts. *)
Fixpoint base16_decode_loop (src dest : bytes) (d : Z) : outcome (bytes * Z) :=
  match src with
  | [] => Ok (dest, d)
  | c1 :: c2 :: src' =>
      let v1 := hex_decode_digit c1 in
      let v2 := hex_decode_digit c2 in
      if (v1 <? 0) || (v2 <? 0) then Err
      else let* dest1 := aset dest d (z2b (Z.lor (Z.shiftl v1 4) v2)) in
           base16_decode_loop src' dest1 (d + 1)
  | [_] => Stuck
  end.

Definition base16_decode (dest src : bytes) : outcome (Z * bytes) :=
  if negb (size src mod 2 =? 0) then Err
  else if (size dest <? size src / 2) || (INT_MAX <? size dest) then Err
  else let* (dest1, d) := base16_decode_loop src (zeroed dest) 0 in
       tor_assert (d <=? size dest) (Ok (d, dest1)).

(** ** Base 32 *)

Definition BASE32_CHARS : bytes := bs "abcdefghijklmnopqrstuvwxyz234567".

Fixpoint base32_encode_loop (fuel : nat) (src : bytes) (nbits i bit : Z) (dest : bytes)
    : outcome (bytes * Z) :=
  match fuel with
  | O => Stuck
  | S f =>
      if bit <? nbits then
        let idx := bit / 8 in
        let* b0 := get (aget src idx) in
        let v := Z.shiftl (b2z b0) 8 in
        let* v := if idx + 1 <? size src
                  then let* b1 := get (aget src (idx + 1)) in Ok (v + b2z b1)
                  else Ok v in
        let u := Z.land (Z.shiftr v (11 - bit mod 8)) 31 in
        let* ch := get (aget BASE32_CHARS u) in
        let* dest1 := aset dest i ch in
        base32_encode_loop f src nbits (i + 1) (bit + 5) dest1
      else Ok (dest, i)
  end.

Definition base32_encode (dest src : bytes) : outcome bytes :=
  let nbits := size src * 8 in
  let* enclen := base32_encoded_size (size src) in
  tor_assert (enclen <=? size dest) (
  tor_assert (size dest <? SIZE_T_CEILING) (
  let* (dest1, i) := base32_encode_loop (S (Z.to_nat nbits)) src nbits 0 0 (zeroed dest) in
  aset dest1 i NUL)).

(** One character to its 5-bit value; [None] is the illegal character. *)
Definition base32_value (c : ascii) : option Z :=
  let z := b2z c in
  if (96 <? z) && (z <? 123) then Some (z - 97)
  else if (49 <? z) && (z <? 56) then Some (z - 24)
  else if (64 <? z) && (z <? 91) then Some (z - 65)
  else None.

Definition base32_byte (tmp : list Z) (bit : Z) : outcome Z :=
  let* t0 := get (aget tmp (bit / 5)) in
  let* t1 := get (aget tmp (bit / 5 + 1)) in
  let t2 := get (aget tmp (bit / 5 + 2)) in
  if bit mod 40 =? 0 then Ok (Z.shiftl t0 3 + Z.shiftr t1 2)
  else if bit mod 40 =? 8 then
    let* t2 := t2 in Ok (Z.shiftl t0 6 + Z.shiftl t1 1 + Z.shiftr t2 4)
  else if bit mod 40 =? 16 then Ok (Z.shiftl t0 4 + Z.shiftr t1 1)
  else if bit mod 40 =? 24 then
    let* t2 := t2 in Ok (Z.shiftl t0 7 + Z.shiftl t1 2 + Z.shiftr t2 3)
  else Ok (Z.shiftl t0 5 + t1).

Fixpoint base32_decode_loop (fuel : nat) (tmp : list Z) (nbits i bit : Z) (dest : bytes)
    : outcome (bytes * Z) :=
  match fuel with
  | O => Stuck
  | S f =>
      if bit <? nbits then
        let* v := base32_byte tmp bit in
        let* dest1 := aset dest i (z2b v) in
        base32_decode_loop f tmp nbits (i + 1) (bit + 8) dest1
      else Ok (dest, i)
  end.

Definition base32_decode (dest src : bytes) : outcome (Z * bytes) :=
  let nbits := size src * 5 / 8 * 8 in
  tor_assert (size src <? SIZE_T_CEILING / 5) (
  tor_assert (nbits / 8 <=? size dest) (
  tor_assert (size dest <? SIZE_T_CEILING) (
  match mapM base32_value src with
  | None => Err
  | Some tmp =>
      let* (dest1, i) :=
        base32_decode_loop (S (Z.to_nat nbits)) tmp nbits 0 0 (zeroed dest) in
      Ok (i, dest1)
  end))).

(** ** Base 64 *)

Definition base64_encode_table : bytes :=
  bs "ABCDEFGHIJKLMNOPQRSTUVWXYZabcdefghijklmnopqrstuvwxyz0123456789+/".

(** The encoder's cursor: the buffer, [d - dest] and [linelen]. *)
Record encst := { e_dest : bytes; e_d : Z; e_linelen : Z }.

Definition ENCODE_CHAR (flags : Z) (ch : ascii) (e : encst) : outcome encst :=
  let* dest := aset (e_dest e) (e_d e) ch in
  if Z.land flags BASE64_ENCODE_MULTILINE =? 0
  then Ok {| e_dest := dest; e_d := e_d e + 1; e_linelen := e_linelen e |}
  else if (e_linelen e + 1) mod BASE64_OPENSSL_LINELEN =? 0 then
    let* dest := aset dest (e_d e + 1) NL in
    Ok {| e_dest := dest; e_d := e_d e + 2; e_linelen := 0 |}
  else Ok {| e_dest := dest; e_d := e_d e + 1; e_linelen := e_linelen e + 1 |}.

Definition ENCODE_N (flags n idx : Z) (e : encst) : outcome encst :=
  let* ch := get (aget base64_encode_table (Z.land (Z.shiftr n ((3 - idx) * 6)) 63)) in
  ENCODE_CHAR flags ch e.

Definition ENCODE_PAD (flags : Z) (e : encst) : outcome encst := ENCODE_CHAR flags "="%char e.

Fixpoint base64_encode_loop (flags : Z) (usrc : bytes) (n n_idx : Z) (e : encst)
    : outcome (Z * Z * encst) :=
  match usrc with
  | [] => Ok (n, n_idx, e)
  | c :: usrc' =>
      let n := Z.lor (wrap 32 (Z.shiftl n 8)) (b2z c) in
      let n_idx := n_idx + 1 in
      if n_idx =? 3 then
        let* e := ENCODE_N flags n 0 e in
        let* e := ENCODE_N flags n 1 e in
        let* e := ENCODE_N flags n 2 e in
        let* e := ENCODE_N flags n 3 e in
        base64_encode_loop flags usrc' 0 0 e
      else base64_encode_loop flags usrc' n n_idx e
  end.

Definition base64_encode_tail (flags n n_idx : Z) (e : encst) : outcome encst :=
  if n_idx =? 0 then Ok e
  else if n_idx =? 1 then
    let n := wrap 32 (Z.shiftl n 4) in
    let* e := ENCODE_N flags n 2 e in
    let* e := ENCODE_N flags n 3 e in
    let* e := ENCODE_PAD flags e in
    ENCODE_PAD flags e
  else if n_idx =? 2 then
    let n := wrap 32 (Z.shiftl n 2) in
    let* e := ENCODE_N flags n 1 e in
    let* e := ENCODE_N flags n 2 e in
    let* e := ENCODE_N flags n 3 e in
    ENCODE_PAD flags e
  else Err.

Definition base64_encode (dest src : bytes) (flags : Z) : outcome (Z * bytes) :=
  let* enclen := base64_encode_size (size src) flags in
  if size dest <? enclen + 1 then Err
  else if SIZE_T_CEILING <? size dest then Err
  else if INT_MAX <? enclen then Err
  else
    let e := {| e_dest := zeroed dest; e_d := 0; e_linelen := 0 |} in
    let* (n, n_idx, e) := base64_encode_loop flags src 0 0 e in
    let* e := base64_encode_tail flags n n_idx e in
    let* e := if negb (Z.land flags BASE64_ENCODE_MULTILINE =? 0) && negb (e_linelen e =? 0)
              then let* dest := aset (e_dest e) (e_d e) NL in
                   Ok {| e_dest := dest; e_d := e_d e + 1; e_linelen := e_linelen e |}
              else Ok e in
    tor_assert (e_d e =? enclen) (
    let* dest := aset (e_dest e) (e_d e) NUL in
    Ok (enclen, dest)).

(** The in-place copy of [base64_encode_nopad]: [in] and [out] are offsets in the same
    buffer. *)
Fixpoint nopad_loop (fuel : nat) (dest : bytes) (inp out : Z) : outcome (bytes * Z) :=
  match fuel with
  | O => Stuck
  | S f =>
      let* c := get (aget dest inp) in
      if b2z c =? 0 then Ok (dest, out)
      else if (b2z c =? 61) || (b2z c =? 10) then nopad_loop f dest (inp + 1) out
      else let* dest1 := aset dest out c in nopad_loop f dest1 (inp + 1) (out + 1)
  end.

Definition base64_encode_nopad (dest src : bytes) : outcome (Z * bytes) :=
  let* (n, dest1) := base64_encode dest src 0 in
  if n <=? 0 then Ok (n, dest1)
  else
    let* z := get (aget dest1 n) in
    tor_assert ((n <? size dest) && (b2z z =? 0)) (
    let* (dest2, out) := nopad_loop (S (length dest1)) dest1 0 0 in
    let* dest3 := aset dest2 out NUL in
    tor_assert (out <=? INT_MAX) (Ok (out, dest3))).

Definition X : Z := 255.
Definition SPC : Z := 64.
Definition PAD : Z := 65.

Definition base64_decode_table : list Z :=
  [X; X; X; X; X; X; X; X; X; SPC; SPC; SPC; X; SPC; X; X;
   X; X; X; X; X; X; X; X; X; X; X; X; X; X; X; X;
   SPC; X; X; X; X; X; X; X; X; X; X; 62; X; X; X; 63;
   52; 53; 54; 55; 56; 57; 58; 59; 60; 61; X; X; X; PAD; X; X;
   X; 0; 1; 2; 3; 4; 5; 6; 7; 8; 9; 10; 11; 12; 13; 14;
   15; 16; 17; 18; 19; 20; 21; 22; 23; 24; 25; X; X; X; X; X;
   X; 26; 27; 28; 29; 30; 31; 32; 33; 34; 35; 36; 37; 38; 39; 40;
   41; 42; 43; 44; 45; 46; 47; 48; 49; 50; 51; X; X; X; X; X]
  ++ replicate 128 X.

(** Three stores into [dest], or [-1] when they do not fit. *)
Definition flush24 (dest : bytes) (di n : Z) : outcome (bytes * Z) :=
  if (size dest <? 3) || (size dest - 3 <? di) then Err
  else
    let* dest := aset dest di (z2b (Z.shiftr n 16)) in
    let* dest := aset dest (di + 1) (z2b (Z.land (Z.shiftr n 8) 255)) in
    let* dest := aset dest (di + 2) (z2b (Z.land n 255)) in
    Ok (dest, di + 3).

Fixpoint base64_decode_loop (src : bytes) (n n_idx : Z) (dest : bytes) (di : Z)
    : outcome (Z * Z * bytes * Z) :=
  match src with
  | [] => Ok (n, n_idx, dest, di)
  | c :: src' =>
      let* v := get (aget base64_decode_table (b2z c)) in
      if v =? X then Err
      else if v =? SPC then base64_decode_loop src' n n_idx dest di
      else if v =? PAD then Ok (n, n_idx, dest, di)
      else
        let n := Z.lor (wrap 32 (Z.shiftl n 6)) v in
        let n_idx := n_idx + 1 in
        if n_idx =? 4 then
          let* (dest, di) := flush24 dest di n in
          base64_decode_loop src' 0 0 dest di
        else base64_decode_loop src' n n_idx dest di
  end.

Definition base64_decode_tail (n n_idx : Z) (dest : bytes) (di : Z) : outcome (bytes * Z) :=
  if n_idx =? 1 then Err
  else if n_idx =? 2 then
    if (size dest <? 1) || (size dest - 1 <? di) then Err
    else let* dest := aset dest di (z2b (Z.shiftr n 4)) in Ok (dest, di + 1)
  else if n_idx =? 3 then
    if (size dest <? 2) || (size dest - 2 <? di) then Err
    else let* dest := aset dest di (z2b (Z.shiftr n 10)) in
         let* dest := aset dest (di + 1) (z2b (Z.shiftr n 2)) in Ok (dest, di + 2)
  else Ok (dest, di).

Definition base64_decode (dest src : bytes) : outcome (Z * bytes) :=
  if INT_MAX <? size dest then Err
  else
    let* (n, n_idx, dest1, di) := base64_decode_loop src 0 0 (zeroed dest) 0 in
    let* (dest2, di) := base64_decode_tail n n_idx dest1 di in
    tor_assert (di <=? size dest) (Ok (di, dest2)).

(** ** Base 16: the encoding as a function, and the round trip *)

Definition hexd (k : Z) : ascii := nth (Z.to_nat k) HEX_CHARS NUL.
Definition hi4 (c : ascii) : Z := Z.shiftr (b2z c) 4.
Definition lo4 (c : ascii) : Z := Z.land (b2z c) 15.

Fixpoint base16_of (src : bytes) : bytes :=
  match src with
  | [] => []
  | c :: src' => hexd (hi4 c) :: hexd (lo4 c) :: base16_of src'
  end.

Lemma base16_of_length (src : bytes) : length (base16_of src) = (2 * length src)%nat.
Proof. induction src as [|c src IH]; simpl; [done|]. rewrite IH. lia. Qed.

Lemma hex_byte (c : ascii) :
  aget HEX_CHARS (Z.shiftr (b2z c) 4) = Some (hexd (hi4 c)) /\
  aget HEX_CHARS (Z.land (b2z c) 15) = Some (hexd (lo4 c)) /\
  hex_decode_digit (hexd (hi4 c)) = hi4 c /\ hex_decode_digit (hexd (lo4 c)) = lo4 c /\
  (hi4 c <? 0) || (lo4 c <? 0) = false /\
  z2b (Z.lor (Z.shiftl (hi4 c) 4) (lo4 c)) = c.
Proof. destruct c as [[] [] [] [] [] [] [] []]; vm_compute; done. Qed.

Lemma base16_encode_loop_ok (src : bytes) : forall out (k : nat) d,
  (2 * length src <= k)%nat -> d = size out ->
  base16_encode_loop src (out ++ replicate k NUL) d
  = Ok ((out ++ base16_of src) ++ replicate (k - 2 * length src) NUL,
        size (out ++ base16_of src)).
Proof.
  induction src as [|c src IH]; intros out k d Hk ->; cbn [base16_encode_loop base16_of].
  - rewrite app_nil_r. simpl. by rewrite Nat.sub_0_r.
  - destruct (hex_byte c) as (-> & -> & _). cbn [get obind]. simpl length in Hk.
    rewrite aset_fill by (done || lia). cbn [obind].
    rewrite aset_fill; [|lia|unfold size; rewrite length_app; simpl; lia]. cbn [obind].
    rewrite IH.
    + rewrite <- !app_assoc. cbn [app length].
      by replace (k - 2 * S (length src))%nat with (k - 1 - 1 - 2 * length src)%nat by lia.
    + lia.
    + unfold size. rewrite !length_app. simpl. lia.
Qed.

(** The bytes a successful encoder leaves in a buffer of [n] bytes. *)
Definition padded (out : bytes) (n : nat) : bytes := out ++ replicate (n - length out) NUL.

Lemma padded_term (out : bytes) (n : nat) : (length out < n)%nat ->
  aset (padded out n) (size out) NUL = Ok (padded out n).
Proof.
  intros Hn. unfold padded. rewrite aset_fill by (done || lia). f_equal.
  rewrite <- app_assoc. f_equal. destruct (n - length out)%nat eqn:E; [lia|].
  simpl. f_equal. f_equal. lia.
Qed.

Lemma base16_encode_ok (dest src : bytes) :
  size src < SIZE_T_CEILING / 2 - 1 -> BASE16_BUFSIZE (size src) <= size dest ->
  size dest < SIZE_T_CEILING ->
  base16_encode dest src = Ok (padded (base16_of src) (length dest)).
Proof.
  intros H1 H2 H3. unfold base16_encode, tor_assert.
  rewrite (proj2 (Z.ltb_lt _ _) H1), (proj2 (Z.leb_le _ _) H2), (proj2 (Z.ltb_lt _ _) H3).
  unfold BASE16_BUFSIZE, size in *. unfold zeroed.
  pose proof (base16_encode_loop_ok src [] (length dest) 0) as H. cbn [app] in H.
  rewrite H by (done || lia). cbn [obind].
  pose proof (padded_term (base16_of src) (length dest)) as Hp.
  unfold padded in *. rewrite base16_of_length in *. apply Hp. lia.
Qed.

Lemma base16_decode_loop_ok (src : bytes) : forall out (k : nat) d,
  (length src <= k)%nat -> d = size out ->
  base16_decode_loop (base16_of src) (out ++ replicate k NUL) d
  = Ok ((out ++ src) ++ replicate (k - length src) NUL, size (out ++ src)).
Proof.
  induction src as [|c src IH]; intros out k d Hk ->; cbn [base16_decode_loop base16_of].
  - rewrite app_nil_r. simpl. by rewrite Nat.sub_0_r.
  - destruct (hex_byte c) as (_ & _ & -> & -> & -> & ->). simpl length in Hk.
    rewrite aset_fill by (done || lia). cbn [obind]. rewrite IH; [|lia|].
    + rewrite <- !app_assoc. cbn [app length].
      by replace (k - S (length src))%nat with (k - 1 - length src)%nat by lia.
    + unfold size. rewrite length_app. simpl. lia.
Qed.

(** Decoding the case the encoder produces, into any buffer that is large enough. *)
Lemma base16_decode_ok (dest src : bytes) :
  size src <= size dest <= INT_MAX ->
  base16_decode dest (base16_of src) = Ok (size src, padded src (length dest)).
Proof.
  intros [H1 H2]. unfold base16_decode, size in *. rewrite base16_of_length.
  replace (Z.of_nat (2 * length src)) with (Z.of_nat (length src) * 2) by lia.
  rewrite Z_mod_mult, Z.div_mul by lia. cbn [Z.eqb negb].
  rewrite (proj2 (Z.ltb_ge _ _) H1), (proj2 (Z.ltb_ge _ _) H2). cbn [orb].
  pose proof (base16_decode_loop_ok src [] (length dest) 0) as H. cbn [app] in H.
  unfold zeroed. rewrite H by (done || lia). cbn [obind]. unfold tor_assert, size.
  by rewrite (proj2 (Z.leb_le _ _) H1).
Qed.

(** ** Base 64: the encoding as a function *)

Definition b64c (k : Z) : ascii := nth (Z.to_nat k) base64_encode_table NUL.
Definition n24 (a b c : ascii) : Z := b2z a * 65536 + b2z b * 256 + b2z c.

Fixpoint base64_of (src : bytes) : bytes :=
  match src with
  | [] => []
  | [a] => [b64c (b2z a / 4); b64c (b2z a mod 4 * 16); "="%char; "="%char]
  | [a; b] =>
      [b64c (b2z a / 4); b64c (b2z a mod 4 * 16 + b2z b / 16);
       b64c (b2z b mod 16 * 4); "="%char]
  | a :: b :: c :: src' =>
      b64c (b2z a / 4) :: b64c (b2z a mod 4 * 16 + b2z b / 16)
      :: b64c (b2z b mod 16 * 4 + b2z c / 64) :: b64c (b2z c mod 64) :: base64_of src'
  end.

(** Lines of 64 characters, each ended by a newline; [ll] characters of the current line
    are already out. *)
Fixpoint wrapped (ll : Z) (cs : bytes) : bytes :=
  match cs with
  | [] => []
  | c :: cs' => if (ll + 1) mod 64 =? 0 then c :: NL :: wrapped 0 cs'
                else c :: wrapped (ll + 1) cs'
  end.

Definition multiline (flags : Z) : bool := negb (Z.land flags BASE64_ENCODE_MULTILINE =? 0).

Definition b64_body (flags : Z) (cs : bytes) : bytes :=
  if multiline flags then wrapped 0 cs else cs.

Definition base64_text (flags : Z) (src : bytes) : bytes :=
  b64_body flags (base64_of src)
  ++ (if multiline flags && negb (size (base64_of src) mod 64 =? 0) then [NL] else []).

(** Three-at-a-time induction on the source. *)
Lemma list_ind3 {A} (P : list A -> Prop) :
  P [] -> (forall a, P [a]) -> (forall a b, P [a; b]) ->
  (forall a b c l, P l -> P (a :: b :: c :: l)) -> forall l, P l.
Proof.
  intros H0 H1 H2 H3. fix IH 1. intros [|a [|b [|c l]]];
    [exact H0|exact (H1 a)|exact (H2 a b)|exact (H3 a b c l (IH l))].
Qed.

Lemma base64_of_length (src : bytes) : size (base64_of src) = BASE64_LEN (size src).
Proof.
  unfold size, BASE64_LEN, CEIL_DIV.
  induction src as [|a|a b|a b c l IH] using list_ind3; [done..|].
  cbn [base64_of length]. dlia.
Qed.

Lemma wrapped_length (cs : bytes) : forall ll, 0 <= ll < 64 ->
  size (wrapped ll cs) = size cs + (ll + size cs) / 64.
Proof.
  unfold size. induction cs as [|c cs IH]; intros ll Hll; cbn [wrapped length]; [dlia|].
  destruct (Z.eqb_spec ((ll + 1) mod 64) 0); cbn [length].
  - rewrite !Nat2Z.inj_succ, IH by lia. dlia.
  - rewrite !Nat2Z.inj_succ, IH by dlia. dlia.
Qed.

Lemma wrapped_snoc (cs : bytes) (c : ascii) : forall ll, 0 <= ll < 64 ->
  wrapped ll (cs ++ [c])
  = wrapped ll cs ++ (if (ll + size cs + 1) mod 64 =? 0 then [c; NL] else [c]).
Proof.
  unfold size. induction cs as [|d cs IH]; intros ll Hll; cbn [wrapped length app].
  - rewrite Z.add_0_r. by destruct (_ =? 0).
  - destruct (Z.eqb_spec ((ll + 1) mod 64) 0) as [E|E].
    + rewrite IH by lia. cbn [app]. do 3 f_equal.
      replace (ll + Z.of_nat (S (length cs)) + 1)
        with (0 + Z.of_nat (length cs) + 1 + (ll + 1)) by lia.
      rewrite <- (Z.add_mod_idemp_r _ (ll + 1)), E, Z.add_0_r by done. done.
    + rewrite IH by dlia. cbn [app]. f_equal.
      by replace (ll + Z.of_nat (S (length cs)) + 1) with (ll + 1 + Z.of_nat (length cs) + 1)
        by lia.
Qed.

Lemma b64_body_length (flags : Z) (cs : bytes) :
  size (b64_body flags cs) = size cs + (if multiline flags then size cs / 64 else 0).
Proof.
  unfold b64_body. destruct (multiline flags); [|lia].
  rewrite wrapped_length by lia. lia.
Qed.

(** *** The encoder computes it *)

Definition enc_state (flags : Z) (n : nat) (cs : bytes) : encst :=
  {| e_dest := padded (b64_body flags cs) n; e_d := size (b64_body flags cs);
     e_linelen := if multiline flags then size cs mod 64 else 0 |}.

Lemma padded_emit (out : bytes) (n : nat) (c : ascii) : (length out < n)%nat ->
  aset (padded out n) (size out) c = Ok (padded (out ++ [c]) n).
Proof.
  intros Hn. unfold padded. rewrite aset_fill by (done || lia).
  rewrite length_app. cbn [length].
  by replace (n - (length out + 1))%nat with (n - length out - 1)%nat by lia.
Qed.

Lemma ENCODE_CHAR_ok (flags : Z) (n : nat) (cs : bytes) (c : ascii) :
  size (b64_body flags (cs ++ [c])) <= Z.of_nat n ->
  ENCODE_CHAR flags c (enc_state flags n cs) = Ok (enc_state flags n (cs ++ [c])).
Proof.
  unfold ENCODE_CHAR, enc_state, b64_body, multiline. cbn [e_dest e_d e_linelen].
  destruct (Z.eqb_spec (Z.land flags BASE64_ENCODE_MULTILINE) 0); cbn [negb]; intros Hn.
  - unfold size in Hn. rewrite length_app in Hn. cbn [length] in Hn.
    rewrite padded_emit by lia. cbn [obind]. unfold size. rewrite length_app. cbn [length].
    do 2 f_equal. lia.
  - change BASE64_OPENSSL_LINELEN with 64.
    rewrite wrapped_snoc, Z.add_0_l in * by lia.
    rewrite (Z.add_mod_idemp_l (size cs) 1 64) by lia.
    replace (size (cs ++ [c])) with (size cs + 1)
      by (unfold size; rewrite length_app; cbn [length]; lia).
    revert Hn. destruct (Z.eqb_spec ((size cs + 1) mod 64) 0) as [E|E];
      intros Hn; unfold size in Hn; rewrite length_app in Hn; cbn [length] in Hn;
      rewrite padded_emit by lia; cbn [obind].
    + replace (size (wrapped 0 cs) + 1) with (size (wrapped 0 cs ++ [c]))
        by (unfold size; rewrite length_app; cbn [length]; lia).
      rewrite padded_emit by (rewrite length_app; cbn [length]; lia). cbn [obind].
      rewrite <- app_assoc. cbn [app].
      rewrite E. f_equal. f_equal. unfold size. rewrite !length_app. cbn [length]. lia.
    + f_equal. f_equal; [unfold size; rewrite length_app; cbn [length]; lia|dlia].
Qed.

Lemma b64_body_mono (flags : Z) (cs cs' : bytes) :
  size (b64_body flags cs) <= size (b64_body flags (cs ++ cs')).
Proof.
  rewrite !b64_body_length. unfold size. rewrite length_app.
  destruct (multiline flags); dlia.
Qed.

Fixpoint encode_chars (flags : Z) (cs : bytes) (e : encst) : outcome encst :=
  match cs with
  | [] => Ok e
  | c :: cs' => let* e := ENCODE_CHAR flags c e in encode_chars flags cs' e
  end.

Lemma encode_chars_ok (flags : Z) (n : nat) (cs' : bytes) : forall cs,
  size (b64_body flags (cs ++ cs')) <= Z.of_nat n ->
  encode_chars flags cs' (enc_state flags n cs) = Ok (enc_state flags n (cs ++ cs')).
Proof.
  induction cs' as [|c cs' IH]; intros cs Hn; cbn [encode_chars].
  - by rewrite app_nil_r.
  - rewrite cons_middle, app_assoc in Hn |- *. rewrite ENCODE_CHAR_ok.
    + cbn [obind]. by apply IH.
    + etransitivity; [apply b64_body_mono|exact Hn].
Qed.

Lemma encode_chars_app (flags : Z) (cs cs' : bytes) : forall e,
  encode_chars flags (cs ++ cs') e
  = let* e := encode_chars flags cs e in encode_chars flags cs' e.
Proof.
  induction cs as [|c cs IH]; intros e; cbn [encode_chars app obind]; [done|].
  destruct (ENCODE_CHAR flags c e); cbn [obind]; auto.
Qed.

Lemma b64c_get (k : Z) : 0 <= k < 64 -> aget base64_encode_table k = Some (b64c k).
Proof.
  intros Hk. pose proof (forall_range
    (fun k => bool_decide (aget base64_encode_table k = Some (b64c k))) 64 eq_refl k Hk) as H.
  by apply bool_decide_eq_true in H.
Qed.

Lemma ENCODE_N_char (flags n idx : Z) (e : encst) : 0 <= idx <= 3 ->
  ENCODE_N flags n idx e = ENCODE_CHAR flags (b64c (n / 2 ^ ((3 - idx) * 6) mod 64)) e.
Proof.
  intros Hi. unfold ENCODE_N. change 63 with (Z.ones 6).
  rewrite land_ones_mod, Z.shiftr_div_pow2 by lia. change (2 ^ 6) with 64.
  rewrite b64c_get; [done|]. apply Z.mod_pos_bound. lia.
Qed.

Lemma n24_lor (a b c : ascii) :
  Z.lor (wrap 32 (Z.shiftl (Z.lor (wrap 32 (Z.shiftl (Z.lor (wrap 32 (Z.shiftl 0 8)) (b2z a)) 8))
    (b2z b)) 8)) (b2z c) = n24 a b c.
Proof.
  pose proof (b2z_range a); pose proof (b2z_range b); pose proof (b2z_range c).
  unfold n24, wrap. rewrite Z.shiftl_0_l. change (0 mod 2 ^ 32) with 0. rewrite Z.lor_0_l.
  rewrite (Z.mod_small (Z.shiftl (b2z a) 8))
    by (rewrite Z.shiftl_mul_pow2 by lia; lia).
  rewrite lor_shiftl_add by lia.
  rewrite (Z.mod_small (Z.shiftl _ 8)) by (rewrite Z.shiftl_mul_pow2 by lia; lia).
  rewrite lor_shiftl_add by lia. lia.
Qed.

Lemma n16_lor (a b : ascii) :
  Z.lor (wrap 32 (Z.shiftl (Z.lor (wrap 32 (Z.shiftl 0 8)) (b2z a)) 8)) (b2z b)
  = b2z a * 256 + b2z b.
Proof.
  pose proof (b2z_range a); pose proof (b2z_range b).
  unfold wrap. rewrite Z.shiftl_0_l. change (0 mod 2 ^ 32) with 0. rewrite Z.lor_0_l.
  rewrite (Z.mod_small (Z.shiftl (b2z a) 8))
    by (rewrite Z.shiftl_mul_pow2 by lia; lia).
  by rewrite lor_shiftl_add by lia.
Qed.

(** The four sextets of a full group, and the partial ones. *)
Lemma sextets (a b c : ascii) :
  n24 a b c / 2 ^ ((3 - 0) * 6) mod 64 = b2z a / 4 /\
  n24 a b c / 2 ^ ((3 - 1) * 6) mod 64 = b2z a mod 4 * 16 + b2z b / 16 /\
  n24 a b c / 2 ^ ((3 - 2) * 6) mod 64 = b2z b mod 16 * 4 + b2z c / 64 /\
  n24 a b c / 2 ^ ((3 - 3) * 6) mod 64 = b2z c mod 64.
Proof.
  pose proof (b2z_range a); pose proof (b2z_range b); pose proof (b2z_range c).
  unfold n24. repeat split.
  - change (2 ^ ((3 - 0) * 6)) with 262144. dlia.
  - change (2 ^ ((3 - 1) * 6)) with 4096. dlia.
  - change (2 ^ ((3 - 2) * 6)) with 64. dlia.
  - change (2 ^ ((3 - 3) * 6)) with 1. dlia.
Qed.

Lemma wrap0 (c : ascii) : Z.lor (wrap 32 (Z.shiftl 0 8)) (b2z c) = b2z c.
Proof. done. Qed.

Ltac enc_steps :=
  repeat match goal with
  | |- context [obind (ENCODE_CHAR ?f ?c ?e) _] =>
      destruct (ENCODE_CHAR f c e); cbn [obind]; [|done..]
  end.

Lemma base64_encode_run (flags : Z) (src : bytes) : forall e,
  (let* (n, n_idx, e) := base64_encode_loop flags src 0 0 e in
   base64_encode_tail flags n n_idx e)
  = encode_chars flags (base64_of src) e.
Proof.
  induction src as [|a|a b|a b c l IH] using list_ind3; intros e;
    cbn [base64_encode_loop base64_of encode_chars].
  - done.
  - rewrite wrap0. change (0 + 1 =? 3) with false. cbn [obind].
    unfold base64_encode_tail, ENCODE_PAD. change (0 + 1) with 1. cbn [Z.eqb Pos.eqb].
    pose proof (b2z_range a).
    rewrite shiftl32 by lia. rewrite ENCODE_N_char by lia.
    assert (b2z a * 2 ^ 4 / 2 ^ ((3 - 2) * 6) mod 64 = b2z a / 4) as ->
      by (change (2 ^ ((3 - 2) * 6)) with 64; dlia).
    destruct (ENCODE_CHAR flags _ e) as [e1| |]; cbn [obind]; [|done..].
    rewrite ENCODE_N_char by lia.
    assert (b2z a * 2 ^ 4 / 2 ^ ((3 - 3) * 6) mod 64 = b2z a mod 4 * 16) as ->
      by (change (2 ^ ((3 - 3) * 6)) with 1; dlia).
    enc_steps. done.
  - change (0 + 1 =? 3) with false. cbn iota. rewrite n16_lor.
    change (0 + 1 + 1 =? 3) with false. cbn [obind].
    unfold base64_encode_tail, ENCODE_PAD. change (0 + 1 + 1) with 2. cbn [Z.eqb Pos.eqb].
    pose proof (b2z_range a). pose proof (b2z_range b).
    rewrite shiftl32 by lia. rewrite ENCODE_N_char by lia.
    assert ((b2z a * 256 + b2z b) * 2 ^ 2 / 2 ^ ((3 - 1) * 6) mod 64 = b2z a / 4) as ->
      by (change (2 ^ ((3 - 1) * 6)) with 4096; dlia).
    destruct (ENCODE_CHAR flags _ e) as [e1| |]; cbn [obind]; [|done..].
    rewrite ENCODE_N_char by lia.
    assert ((b2z a * 256 + b2z b) * 2 ^ 2 / 2 ^ ((3 - 2) * 6) mod 64
            = b2z a mod 4 * 16 + b2z b / 16) as ->
      by (change (2 ^ ((3 - 2) * 6)) with 64; dlia).
    destruct (ENCODE_CHAR flags _ e1) as [e2| |]; cbn [obind]; [|done..].
    rewrite ENCODE_N_char by lia.
    assert ((b2z a * 256 + b2z b) * 2 ^ 2 / 2 ^ ((3 - 3) * 6) mod 64 = b2z b mod 16 * 4) as ->
      by (change (2 ^ ((3 - 3) * 6)) with 1; dlia).
    enc_steps. done.
  - change (0 + 1 =? 3) with false. change (0 + 1 + 1 =? 3) with false.
    change (0 + 1 + 1 + 1 =? 3) with true. cbn iota. rewrite n24_lor.
    destruct (sextets a b c) as (E0 & E1 & E2 & E3).
    rewrite ENCODE_N_char, E0 by lia.
    destruct (ENCODE_CHAR flags _ e) as [e1| |]; cbn [obind]; [|done..].
    rewrite ENCODE_N_char, E1 by lia.
    destruct (ENCODE_CHAR flags _ e1) as [e2| |]; cbn [obind]; [|done..].
    rewrite ENCODE_N_char, E2 by lia.
    destruct (ENCODE_CHAR flags _ e2) as [e3| |]; cbn [obind]; [|done..].
    rewrite ENCODE_N_char, E3 by lia.
    destruct (ENCODE_CHAR flags _ e3) as [e4| |]; cbn [obind]; [|done..].
    apply IH.
Qed.

(** The size function is the length of the text, where it does not overflow. *)
Lemma base64_encode_size_ok (src : bytes) (flags : Z) :
  CEIL_DIV (size src) 3 < INT_MAX / 8 ->
  base64_encode_size (size src) flags = Ok (size (base64_text flags src)).
Proof.
  intros H. unfold base64_encode_size.
  assert (Hl : 0 <= size src) by (unfold size; lia).
  assert (Ht : size (base64_text flags src)
          = if multiline flags then BASE64_LEN (size src) + CEIL_DIV (BASE64_LEN (size src)) 64
            else BASE64_LEN (size src)).
  { unfold base64_text. unfold size at 1. rewrite length_app, Nat2Z.inj_add.
    change (Z.of_nat (length (b64_body flags (base64_of src))))
      with (size (b64_body flags (base64_of src))).
    rewrite b64_body_length, base64_of_length.
    destruct (multiline flags); cbn [andb length]; [|lia].
    destruct (Z.eqb_spec (BASE64_LEN (size src) mod 64) 0); cbn [negb length];
      unfold CEIL_DIV; dlia. }
  rewrite Ht. unfold multiline.
  unfold tor_assert, INT_MAX, BASE64_OPENSSL_LINELEN, BASE64_LEN, CEIL_DIV in *.
  change (2147483647 / 8) with 268435455 in H. change (2147483647 / 4) with 536870911.
  destruct (Z.ltb_spec (size src) 2147483647); [|dlia].
  destruct (Z.ltb_spec ((size src + (3 - 1)) / 3) 536870911); [|lia].
  destruct (Z.land flags BASE64_ENCODE_MULTILINE =? 0); cbn [negb].
  - destruct (Z.ltb_spec ((size src + (3 - 1)) / 3 * 4) 2147483647); [|lia].
    destruct (Z.eqb_spec ((size src + (3 - 1)) / 3 * 4) 0); [done|]. cbn [orb andb].
    destruct (Z.ltb_spec (size src) ((size src + (3 - 1)) / 3 * 4)); [done|dlia].
  - set (m := (size src + (3 - 1)) / 3 * 4) in *.
    destruct (Z.ltb_spec (m + (m + (64 - 1)) / 64) 2147483647); [|dlia].
    destruct (Z.eqb_spec (m + (m + (64 - 1)) / 64) 0); [done|]. cbn [orb andb].
    destruct (Z.ltb_spec (size src) (m + (m + (64 - 1)) / 64)); [done|dlia].
Qed.

Lemma base64_text_small (src : bytes) (flags : Z) :
  CEIL_DIV (size src) 3 < INT_MAX / 8 -> size (base64_text flags src) < INT_MAX.
Proof.
  intros H. pose proof (base64_encode_size_ok src flags H) as Hs.
  unfold base64_encode_size, tor_assert in Hs.
  destruct (size src <? INT_MAX); [|done].
  destruct (CEIL_DIV (size src) 3 <? INT_MAX / 4); [|done].
  set (m := if Z.land _ _ =? 0 then _ else _) in Hs.
  destruct (Z.ltb_spec m INT_MAX); cbn [andb] in Hs; [|done].
  destruct ((m =? 0) || (size src <? m)); [|done]. injection Hs as <-. done.
Qed.

Lemma base64_encode_ok (dest src : bytes) (flags : Z) :
  CEIL_DIV (size src) 3 < INT_MAX / 8 ->
  size (base64_text flags src) < size dest <= SIZE_T_CEILING ->
  base64_encode dest src flags
  = Ok (size (base64_text flags src), padded (base64_text flags src) (length dest)).
Proof.
  intros H [H1 H2]. unfold base64_encode. rewrite base64_encode_size_ok by done. cbn [obind].
  pose proof (base64_text_small src flags H) as H3.
  rewrite (proj2 (Z.ltb_ge _ _)) by lia. rewrite (proj2 (Z.ltb_ge _ _) H2).
  rewrite (proj2 (Z.ltb_ge _ _)) by lia.
  pose proof (base64_encode_run flags src (enc_state flags (length dest) [])) as Hrun.
  assert (Hst : enc_state flags (length dest) []
                = {| e_dest := zeroed dest; e_d := 0; e_linelen := 0 |}).
  { unfold enc_state, padded, b64_body. by destruct (multiline flags); rewrite Nat.sub_0_r. }
  rewrite <- Hst. rewrite encode_chars_ok in Hrun.
  2:{ cbn [app]. unfold base64_text, size in *. rewrite length_app in H1. lia. }
  destruct (base64_encode_loop flags src 0 0 (enc_state flags (length dest) []))
    as [[[n n_idx] e]| |]; cbn [obind] in Hrun |- *; [|done..].
  rewrite Hrun. cbn [obind app]. unfold enc_state. cbn [e_dest e_d e_linelen].
  change (negb (Z.land flags BASE64_ENCODE_MULTILINE =? 0)) with (multiline flags).
  clear Hrun H3 H2. revert H1. unfold base64_text.
  destruct (multiline flags) eqn:Eml; cbn [andb].
  - destruct (Z.eqb_spec (size (base64_of src) mod 64) 0); cbn [negb]; intros H1.
    + rewrite app_nil_r in *. cbn [obind e_dest e_d]. unfold tor_assert.
      rewrite Z.eqb_refl. unfold size in H1. rewrite padded_term by lia. done.
    + unfold size in H1. rewrite length_app in H1. cbn [length] in H1.
      rewrite padded_emit by lia. cbn [obind e_dest e_d].
      replace (size (b64_body flags (base64_of src)) + 1)
        with (size (b64_body flags (base64_of src) ++ [NL]))
        by (unfold size; rewrite length_app; cbn [length]; lia).
      unfold tor_assert. rewrite Z.eqb_refl.
      rewrite padded_term by (rewrite length_app; cbn [length]; lia). done.
  - intros H1. rewrite app_nil_r in *. cbn [obind e_dest e_d]. unfold tor_assert.
    rewrite Z.eqb_refl. unfold size in H1. rewrite padded_term by lia. done.
Qed.

(** *** The decoder reads it back *)

Lemma decode_char (k : Z) (s : bytes) (n i : Z) (dest : bytes) (di : Z) : 0 <= k < 64 ->
  base64_decode_loop (b64c k :: s) n i dest di
  = (let n := Z.lor (wrap 32 (Z.shiftl n 6)) k in
     if i + 1 =? 4 then
       let* (dest, di) := flush24 dest di n in base64_decode_loop s 0 0 dest di
     else base64_decode_loop s n (i + 1) dest di).
Proof.
  intros Hk. cbn [base64_decode_loop].
  pose proof (forall_range (fun k => bool_decide
    (aget base64_decode_table (b2z (b64c k)) = Some k)) 64 eq_refl k Hk) as H.
  apply bool_decide_eq_true in H. rewrite H. cbn [get obind]. unfold X, SPC, PAD.
  destruct (Z.eqb_spec k 255); [lia|]. destruct (Z.eqb_spec k 64); [lia|].
  destruct (Z.eqb_spec k 65); [lia|]. done.
Qed.

Lemma decode_pad (s : bytes) (n i : Z) (dest : bytes) (di : Z) :
  base64_decode_loop ("="%char :: s) n i dest di = Ok (n, i, dest, di).
Proof. done. Qed.

Lemma decode_nl (s : bytes) (n i : Z) (dest : bytes) (di : Z) :
  base64_decode_loop (NL :: s) n i dest di = base64_decode_loop s n i dest di.
Proof. done. Qed.

(** Newlines between and after the characters change nothing. *)
Lemma decode_wrapped (cs tail : bytes) :
  (forall n i dest di, base64_decode_loop tail n i dest di = Ok (n, i, dest, di)) ->
  forall ll n i dest di,
  base64_decode_loop (wrapped ll cs ++ tail) n i dest di = base64_decode_loop cs n i dest di.
Proof.
  intros Ht. induction cs as [|c cs IH]; intros ll n i dest di; [apply Ht|].
  assert (E : forall r, (forall n i dest di,
    base64_decode_loop r n i dest di = base64_decode_loop cs n i dest di) ->
    base64_decode_loop (c :: r) n i dest di = base64_decode_loop (c :: cs) n i dest di).
  { intros r Hr. cbn [base64_decode_loop].
    destruct (get (aget base64_decode_table (b2z c))) as [v| |]; cbn [obind]; [|done..].
    destruct (v =? X); [done|]. destruct (v =? SPC); [done|]. destruct (v =? PAD); [done|].
    destruct (i + 1 =? 4); [|done]. by destruct (flush24 _ _ _) as [[]| |]; cbn [obind]. }
  cbn [wrapped]. destruct ((ll + 1) mod 64 =? 0); cbn [app]; apply E; intros.
  - rewrite decode_nl. apply IH.
  - apply IH.
Qed.

Lemma decode_text (flags : Z) (src : bytes) (n i : Z) (dest : bytes) (di : Z) :
  base64_decode_loop (base64_text flags src) n i dest di
  = base64_decode_loop (base64_of src) n i dest di.
Proof.
  unfold base64_text, b64_body. destruct (multiline flags); cbn [andb].
  - apply decode_wrapped. intros. by destruct (negb _).
  - by rewrite app_nil_r.
Qed.

Definition acc6 (n k : Z) : Z := Z.lor (wrap 32 (Z.shiftl n 6)) k.

Lemma acc6_ok (n k : Z) : 0 <= n < 262144 -> 0 <= k < 64 -> acc6 n k = n * 64 + k.
Proof. apply wrap32_6. Qed.

Ltac acc6_norm :=
  repeat match goal with
  | |- context [Z.lor (wrap 32 (Z.shiftl ?n 6)) ?k] =>
      change (Z.lor (wrap 32 (Z.shiftl n 6)) k) with (acc6 n k)
  end;
  repeat match goal with
  | |- context [acc6 ?n ?k] =>
      lazymatch n with context [acc6 _ _] => fail | _ => idtac end;
      rewrite (acc6_ok n k) by dlia
  end.

Lemma z2b_mod (z : Z) : z2b z = z2b (z mod 256).
Proof. unfold z2b. by rewrite Z.mod_mod. Qed.

Lemma z2b_eq (z : Z) (c : ascii) : z mod 256 = b2z c -> z2b z = c.
Proof. intros H. rewrite z2b_mod, H. apply z2b_b2z. Qed.

Lemma aset_buf (out : bytes) (k : nat) (z : Z) (c : ascii) (i : Z) :
  (0 < k)%nat -> i = size out -> z mod 256 = b2z c ->
  aset (out ++ replicate k NUL) i (z2b z) = Ok ((out ++ [c]) ++ replicate (k - 1) NUL).
Proof. intros Hk -> Hz. rewrite (z2b_eq z c Hz). by apply aset_fill. Qed.

Lemma size_app (l l' : bytes) : size (l ++ l') = size l + size l'.
Proof. unfold size. rewrite length_app. lia. Qed.

Lemma size_fill (out : bytes) (k : nat) : size (out ++ replicate k NUL) = size out + Z.of_nat k.
Proof. rewrite size_app. unfold size. by rewrite length_replicate. Qed.

Lemma size_cons (c : ascii) (l : bytes) : size (c :: l) = size l + 1.
Proof. unfold size. cbn [length]. lia. Qed.

Lemma flush24_ok (out : bytes) (m : nat) (a b c : ascii) (n : Z) :
  (3 <= m)%nat -> n = n24 a b c ->
  flush24 (out ++ replicate m NUL) (size out) n
  = Ok ((out ++ [a; b; c]) ++ replicate (m - 3) NUL, size (out ++ [a; b; c])).
Proof.
  intros Hm ->. unfold flush24. rewrite size_fill.
  pose proof (b2z_range a); pose proof (b2z_range b); pose proof (b2z_range c).
  assert (0 <= size out) by (unfold size; lia).
  destruct (Z.ltb_spec (size out + Z.of_nat m) 3); [lia|].
  destruct (Z.ltb_spec (size out + Z.of_nat m - 3) (size out)); [lia|]. cbn [orb].
  change 255 with (Z.ones 8). rewrite !land_ones_mod, !Z.shiftr_div_pow2 by lia.
  rewrite (aset_buf out m _ a) by (lia || (unfold n24; dlia)). cbn [obind].
  rewrite (aset_buf _ _ _ b); [|lia|rewrite size_app, size_cons; unfold size; cbn; lia|unfold n24; dlia].
  cbn [obind].
  rewrite (aset_buf _ _ _ c);
    [|lia|rewrite !size_app, !size_cons; unfold size; cbn; lia|unfold n24; dlia].
  cbn [obind]. rewrite <- !app_assoc. cbn [app]. rewrite size_app, !size_cons.
  replace (m - 1 - 1 - 1)%nat with (m - 3)%nat by lia. do 2 f_equal.
Qed.

Lemma base64_decode_run (src : bytes) : forall out (m : nat), (length src <= m)%nat ->
  (let* (n, n_idx, dest, di) :=
     base64_decode_loop (base64_of src) 0 0 (out ++ replicate m NUL) (size out) in
   base64_decode_tail n n_idx dest di)
  = Ok ((out ++ src) ++ replicate (m - length src) NUL, size (out ++ src)).
Proof.
  induction src as [|a|a b|a b c l IH] using list_ind3; intros out m Hm; cbn [base64_of].
  - cbn. rewrite app_nil_r. by rewrite Nat.sub_0_r.
  - pose proof (b2z_range a). cbn [length] in Hm.
    rewrite decode_char by dlia. cbn zeta. change (0 + 1 =? 4) with false. cbn iota.
    rewrite decode_char by dlia. cbn zeta. change (0 + 1 + 1 =? 4) with false. cbn iota.
    rewrite decode_pad. cbn [obind]. change (0 + 1 + 1) with 2.
    unfold base64_decode_tail. cbn [Z.eqb Pos.eqb]. rewrite size_fill.
    assert (0 <= size out) by (unfold size; lia).
    destruct (Z.ltb_spec (size out + Z.of_nat m) 1); [lia|].
    destruct (Z.ltb_spec (size out + Z.of_nat m - 1) (size out)); [lia|]. cbn [orb].
    acc6_norm. rewrite Z.shiftr_div_pow2 by lia.
    rewrite (aset_buf out m _ a); [|lia|done|dlia]. cbn [obind].
    rewrite size_app, size_cons. done.
  - pose proof (b2z_range a). pose proof (b2z_range b). cbn [length] in Hm.
    rewrite decode_char by dlia. cbn zeta. change (0 + 1 =? 4) with false. cbn iota.
    rewrite decode_char by dlia. cbn zeta. change (0 + 1 + 1 =? 4) with false. cbn iota.
    rewrite decode_char by dlia. cbn zeta. change (0 + 1 + 1 + 1 =? 4) with false. cbn iota.
    rewrite decode_pad. cbn [obind]. change (0 + 1 + 1 + 1) with 3.
    unfold base64_decode_tail. cbn [Z.eqb Pos.eqb]. rewrite size_fill.
    assert (0 <= size out) by (unfold size; lia).
    destruct (Z.ltb_spec (size out + Z.of_nat m) 2); [lia|].
    destruct (Z.ltb_spec (size out + Z.of_nat m - 2) (size out)); [lia|]. cbn [orb].
    acc6_norm. rewrite !Z.shiftr_div_pow2 by lia.
    rewrite (aset_buf out m _ a); [|lia|done|dlia]. cbn [obind].
    rewrite (aset_buf _ _ _ b); [|lia|rewrite size_app, size_cons; unfold size; cbn; lia|dlia].
    cbn [obind]. rewrite <- !app_assoc, size_app, !size_cons. cbn [app length].
    replace (m - 1 - 1)%nat with (m - 2)%nat by lia. do 2 f_equal.
  - pose proof (b2z_range a). pose proof (b2z_range b). pose proof (b2z_range c).
    cbn [length] in Hm.
    rewrite decode_char by dlia. cbn zeta. change (0 + 1 =? 4) with false. cbn iota.
    rewrite decode_char by dlia. cbn zeta. change (0 + 1 + 1 =? 4) with false. cbn iota.
    rewrite decode_char by dlia. cbn zeta. change (0 + 1 + 1 + 1 =? 4) with false. cbn iota.
    rewrite decode_char by dlia. cbn zeta. change (0 + 1 + 1 + 1 + 1 =? 4) with true. cbn iota.
    acc6_norm.
    rewrite (flush24_ok out m a b c); [|lia|unfold n24; dlia]. cbn [obind].
    rewrite IH by lia. rewrite <- !app_assoc. cbn [app length].
    by replace (m - 3 - length l)%nat with (m - S (S (S (length l))))%nat by lia.
Qed.

Lemma base64_decode_ok (dest src : bytes) (flags : Z) :
  size src <= size dest <= INT_MAX ->
  base64_decode dest (base64_text flags src) = Ok (size src, padded src (length dest)).
Proof.
  intros [H1 H2]. unfold base64_decode. rewrite (proj2 (Z.ltb_ge _ _) H2).
  rewrite decode_text. pose proof (base64_decode_run src [] (length dest)) as H.
  unfold zeroed. cbn [app] in H. change (size []) with 0 in H. unfold size in H1.
  destruct (base64_decode_loop _ _ _ _ _) as [[[[n i] d] di]| |];
    cbn [obind] in H |- *; [|specialize (H ltac:(lia)); done..].
  rewrite H by lia. cbn [obind]. unfold tor_assert, size.
  by rewrite (proj2 (Z.leb_le _ _)) by lia.
Qed.

(** ** Base 32: the encoding as a function, and the round trip *)

Definition byte_at (src : bytes) (k : Z) : Z :=
  match aget src k with Some c => b2z c | None => 0 end.

Definition quintet (src : bytes) (i : Z) : Z :=
  (byte_at src (5 * i / 8) * 256 + byte_at src (5 * i / 8 + 1)) / 2 ^ (11 - 5 * i mod 8) mod 32.

Definition b32c (k : Z) : ascii := nth (Z.to_nat k) BASE32_CHARS NUL.
Definition quintets (src : bytes) (n : Z) : list Z := quintet src <$> seqZ 0 n.
Definition base32_of (src : bytes) : bytes := b32c <$> quintets src (CEIL_DIV (size src * 8) 5).

Lemma byte_at_range (src : bytes) (k : Z) : 0 <= byte_at src k < 256.
Proof. unfold byte_at. destruct (aget src k); [apply b2z_range|lia]. Qed.

Lemma byte_at_get (src : bytes) (k : Z) : 0 <= k < size src ->
  exists c, aget src k = Some c /\ byte_at src k = b2z c /\ src !! Z.to_nat k = Some c.
Proof.
  intros Hk. destruct (aget_lt src k Hk) as (c & Hc & Hc'). exists c.
  unfold byte_at. by rewrite Hc.
Qed.

Lemma byte_at_out (src : bytes) (k : Z) : size src <= k -> byte_at src k = 0.
Proof.
  intros Hk. unfold byte_at. destruct (aget src k) eqn:E; [|done].
  apply aget_Some in E as [_ E]. apply lookup_lt_Some in E. unfold size in Hk. lia.
Qed.

Lemma quintet_range (src : bytes) (i : Z) : 0 <= quintet src i < 32.
Proof. unfold quintet. apply Z.mod_pos_bound. lia. Qed.

Lemma b32c_char (k : Z) : 0 <= k < 32 ->
  aget BASE32_CHARS k = Some (b32c k) /\ base32_value (b32c k) = Some k.
Proof.
  intros Hk. pose proof (forall_range (fun k => bool_decide
    (aget BASE32_CHARS k = Some (b32c k) /\ base32_value (b32c k) = Some k)) 32 eq_refl k Hk).
  by apply bool_decide_eq_true in H.
Qed.

Lemma quintets_snoc (src : bytes) (i : Z) : 0 <= i ->
  quintets src (i + 1) = quintets src i ++ [quintet src i].
Proof.
  intros Hi. unfold quintets. by rewrite seqZ_app, fmap_app, Z.add_0_l by lia.
Qed.

Lemma quintets_length (src : bytes) (i : Z) : 0 <= i -> Z.of_nat (length (quintets src i)) = i.
Proof. intros Hi. unfold quintets. rewrite length_fmap, length_seqZ. lia. Qed.

Lemma base32_of_length (src : bytes) : size (base32_of src) = CEIL_DIV (size src * 8) 5.
Proof.
  unfold base32_of. unfold size at 1. rewrite length_fmap, quintets_length; [done|].
  unfold CEIL_DIV, size. dlia.
Qed.

(** One step of the encoder stores the next quintet. *)
Lemma base32_encode_loop_ok (src : bytes) (k : nat) : forall fuel i bit,
  0 <= i -> bit = i * 5 -> i <= CEIL_DIV (size src * 8) 5 <= Z.of_nat k ->
  size src * 8 + 4 < bit + 5 * Z.of_nat fuel ->
  base32_encode_loop fuel src (size src * 8) i bit (padded (b32c <$> quintets src i) k)
  = Ok (padded (base32_of src) k, size (base32_of src)).
Proof.
  assert (Hs : 0 <= size src) by (unfold size; lia).
  induction fuel as [|f IH]; intros i bit Hi -> Hk Hf; [unfold CEIL_DIV in *; dlia|].
  cbn [base32_encode_loop]. destruct (Z.ltb_spec (i * 5) (size src * 8)).
  - destruct (byte_at_get src (i * 5 / 8)) as (c0 & E0 & B0 & _); [dlia|].
    rewrite E0. cbn [get obind].
    assert (Hv : (if i * 5 / 8 + 1 <? size src
                  then let* b1 := get (aget src (i * 5 / 8 + 1)) in
                       Ok (Z.shiftl (b2z c0) 8 + b2z b1)
                  else Ok (Z.shiftl (b2z c0) 8))
                 = Ok (byte_at src (5 * i / 8) * 256 + byte_at src (5 * i / 8 + 1))).
    { rewrite (Z.mul_comm 5 i), B0, Z.shiftl_mul_pow2 by lia. change (2 ^ 8) with 256.
      destruct (Z.ltb_spec (i * 5 / 8 + 1) (size src)).
      - destruct (byte_at_get src (i * 5 / 8 + 1)) as (c1 & E1 & B1 & _); [dlia|].
        by rewrite E1, B1.
      - rewrite byte_at_out by lia. f_equal. lia. }
    rewrite Hv. cbn [obind]. change 31 with (Z.ones 5).
    pose proof (Z.mod_pos_bound (i * 5) 8 ltac:(lia)).
    rewrite land_ones_mod, Z.shiftr_div_pow2 by lia. change (2 ^ 5) with 32.
    rewrite (Z.mul_comm i 5). change (_ mod 32) with (quintet src i).
    destruct (b32c_char (quintet src i) (quintet_range src i)) as [-> _]. cbn [get obind].
    assert (Hlen : size (b32c <$> quintets src i) = i)
      by (unfold size; rewrite length_fmap; by apply quintets_length).
    pose proof (padded_emit (b32c <$> quintets src i) k (b32c (quintet src i))) as Hp.
    rewrite Hlen in Hp. rewrite Hp by (unfold CEIL_DIV, size in *; dlia). cbn [obind].
    assert (E : (b32c <$> quintets src i) ++ [b32c (quintet src i)]
            = b32c <$> quintets src (i + 1))
      by (rewrite quintets_snoc, fmap_app by lia; done).
    rewrite E. apply IH; unfold CEIL_DIV in *; dlia.
  - assert (i = CEIL_DIV (size src * 8) 5) as -> by (unfold CEIL_DIV in *; dlia).
    by rewrite base32_of_length.
Qed.

Lemma base32_encode_ok (dest src : bytes) :
  BASE32_NOPAD_BUFSIZE (size src) < INT_MAX ->
  BASE32_NOPAD_BUFSIZE (size src) <= size dest < SIZE_T_CEILING ->
  base32_encode dest src = Ok (padded (base32_of src) (length dest)).
Proof.
  intros H1 [H2 H3]. unfold base32_encode, base32_encoded_size, tor_assert.
  assert (Hs : 0 <= size src) by (unfold size; lia).
  pose proof (base32_of_length src) as Hl.
  unfold BASE32_NOPAD_BUFSIZE in *.
  destruct (Z.ltb_spec (size src) (SIZE_T_CEILING / 8)).
  2:{ unfold SIZE_T_CEILING, CEIL_DIV, INT_MAX in *. dlia. }
  rewrite (proj2 (Z.ltb_lt _ _) H1). cbn [andb].
  destruct (Z.ltb_spec (size src) (CEIL_DIV (size src * 8) 5 + 1)).
  2:{ unfold CEIL_DIV in *. dlia. }
  cbn [obind]. rewrite (proj2 (Z.leb_le _ _) H2), (proj2 (Z.ltb_lt _ _) H3).
  pose proof (base32_encode_loop_ok src (length dest) (S (Z.to_nat (size src * 8))) 0 0) as H'.
  unfold zeroed. change (quintets src 0) with (@nil Z) in H'. unfold padded at 1 in H'.
  cbn [fmap list_fmap app length] in H'. rewrite Nat.sub_0_r in H'.
  rewrite H' by (unfold CEIL_DIV, size in *; dlia || done). cbn [obind].
  apply padded_term. unfold size in *. lia.
Qed.

(** Byte [j] of the source, from the quintets around bit [8 * j]. *)
Lemma base32_byte_ok (src : bytes) (j : Z) :
  0 <= j < size src ->
  exists v, base32_byte (quintets src (CEIL_DIV (size src * 8) 5)) (8 * j) = Ok v /\
            v mod 256 = byte_at src j.
Proof.
  intros Hj. set (cnt := CEIL_DIV (size src * 8) 5).
  assert (Hcnt : size src * 8 <= 5 * cnt < size src * 8 + 5) by (unfold cnt, CEIL_DIV; dlia).
  assert (G : forall k, 0 <= k < cnt -> aget (quintets src cnt) k = Some (quintet src k)).
  { intros k Hk. apply aget_Some. split; [lia|]. unfold quintets.
    rewrite list_lookup_fmap, lookup_seqZ_lt by lia. cbn. do 2 f_equal. lia. }
  unfold base32_byte. set (q := j / 5).
  pose proof (byte_at_range src) as B.
  assert (Hr : j = 5 * q + 0 \/ j = 5 * q + 1 \/ j = 5 * q + 2 \/ j = 5 * q + 3 \/ j = 5 * q + 4)
    by (unfold q; dlia).
  rewrite !G by dlia. cbn [get obind].
  assert (Q : forall i a r, 5 * i = 8 * a + r -> 0 <= r < 8 ->
    quintet src i = (byte_at src a * 256 + byte_at src (a + 1)) / 2 ^ (11 - r) mod 32).
  { intros i a r E Hr'. unfold quintet. replace (5 * i / 8) with a by dlia.
    by replace (5 * i mod 8) with r by dlia. }
  destruct Hr as [E|[E|[E|[E|E]]]].
  - replace (8 * j mod 40) with 0 by dlia. cbn [Z.eqb]. eexists. split; [reflexivity|].
    rewrite (Q (8 * j / 5) j 0), (Q (8 * j / 5 + 1) j 5) by dlia.
    change (2 ^ (11 - 0)) with 2048. change (2 ^ (11 - 5)) with 64.
    rewrite Z.shiftl_mul_pow2, Z.shiftr_div_pow2 by lia.
    pose proof (B j); pose proof (B (j + 1)). dlia.
  - replace (8 * j mod 40) with 8 by dlia. cbn [Z.eqb Pos.eqb].
    rewrite G by dlia. cbn [get obind]. eexists. split; [reflexivity|].
    rewrite (Q (8 * j / 5) (j - 1) 5), (Q (8 * j / 5 + 1) j 2), (Q (8 * j / 5 + 2) j 7) by dlia.
    change (2 ^ (11 - 5)) with 64. change (2 ^ (11 - 2)) with 512. change (2 ^ (11 - 7)) with 16.
    rewrite !Z.shiftl_mul_pow2, Z.shiftr_div_pow2 by lia.
    replace (j - 1 + 1) with j by lia.
    pose proof (B (j - 1)); pose proof (B j); pose proof (B (j + 1)). dlia.
  - replace (8 * j mod 40) with 16 by dlia. cbn [Z.eqb Pos.eqb]. eexists. split; [reflexivity|].
    rewrite (Q (8 * j / 5) (j - 1) 7), (Q (8 * j / 5 + 1) j 4) by dlia.
    change (2 ^ (11 - 7)) with 16. change (2 ^ (11 - 4)) with 128.
    rewrite !Z.shiftl_mul_pow2, Z.shiftr_div_pow2 by lia.
    replace (j - 1 + 1) with j by lia.
    pose proof (B (j - 1)); pose proof (B j); pose proof (B (j + 1)). dlia.
  - replace (8 * j mod 40) with 24 by dlia. cbn [Z.eqb Pos.eqb].
    rewrite G by dlia. cbn [get obind]. eexists. split; [reflexivity|].
    rewrite (Q (8 * j / 5) (j - 1) 4), (Q (8 * j / 5 + 1) j 1), (Q (8 * j / 5 + 2) j 6) by dlia.
    change (2 ^ (11 - 4)) with 128. change (2 ^ (11 - 1)) with 1024. change (2 ^ (11 - 6)) with 32.
    rewrite !Z.shiftl_mul_pow2, Z.shiftr_div_pow2 by lia.
    replace (j - 1 + 1) with j by lia.
    pose proof (B (j - 1)); pose proof (B j); pose proof (B (j + 1)). dlia.
  - replace (8 * j mod 40) with 32 by dlia. cbn [Z.eqb Pos.eqb]. eexists. split; [reflexivity|].
    rewrite (Q (8 * j / 5) (j - 1) 6), (Q (8 * j / 5 + 1) j 3) by dlia.
    change (2 ^ (11 - 6)) with 32. change (2 ^ (11 - 3)) with 256.
    rewrite !Z.shiftl_mul_pow2 by lia.
    replace (j - 1 + 1) with j by lia.
    pose proof (B (j - 1)); pose proof (B j); pose proof (B (j + 1)). dlia.
Qed.

Lemma mapM_base32 (src : bytes) (n : Z) :
  mapM base32_value (b32c <$> quintets src n) = Some (quintets src n).
Proof.
  unfold quintets. induction (seqZ 0 n) as [|i l IH]; [done|]. rewrite !fmap_cons.
  cbn [mapM]. destruct (b32c_char (quintet src i) (quintet_range src i)) as [_ ->].
  by rewrite IH.
Qed.

Lemma base32_decode_loop_ok (src : bytes) (k : nat) : (length src <= k)%nat ->
  forall fuel j, (j <= length src)%nat -> (length src - j < fuel)%nat ->
  base32_decode_loop fuel (quintets src (CEIL_DIV (size src * 8) 5)) (8 * size src)
    (Z.of_nat j) (8 * Z.of_nat j) (padded (take j src) k)
  = Ok (padded src k, size src).
Proof.
  intros Hk. induction fuel as [|f IH]; intros j Hj Hf; [lia|]. cbn [base32_decode_loop].
  destruct (Z.ltb_spec (8 * Z.of_nat j) (8 * size src)) as [Hlt|Hge]; unfold size in *.
  - destruct (base32_byte_ok src (Z.of_nat j)) as (v & Hv & Hm); [unfold size; lia|].
    unfold size in Hv. rewrite Hv. cbn [obind].
    destruct (byte_at_get src (Z.of_nat j)) as (c & _ & E & El); [unfold size; lia|].
    rewrite Nat2Z.id in El. rewrite (z2b_eq v c) by congruence.
    assert (Hlen : size (take j src) = Z.of_nat j)
      by (unfold size; rewrite length_take_le; lia).
    rewrite <- Hlen at 1. rewrite padded_emit by (rewrite length_take_le; lia). cbn [obind].
    rewrite <- (take_S_r src j c El).
    replace (Z.of_nat j + 1) with (Z.of_nat (S j)) by lia.
    replace (8 * Z.of_nat j + 8) with (8 * Z.of_nat (S j)) by lia. apply IH; lia.
  - replace j with (length src) by lia. by rewrite take_ge by lia.
Qed.

Lemma base32_decode_ok (dest src : bytes) :
  size (base32_of src) < SIZE_T_CEILING / 5 -> size src <= size dest < SIZE_T_CEILING ->
  base32_decode dest (base32_of src) = Ok (size src, padded src (length dest)).
Proof.
  intros H1 [H2 H3]. unfold base32_decode, tor_assert.
  assert (Hs : 0 <= size src) by (unfold size; lia).
  pose proof (base32_of_length src) as Hl.
  rewrite (proj2 (Z.ltb_lt _ _) H1).
  assert (size (base32_of src) * 5 / 8 = size src) as -> by (unfold CEIL_DIV in Hl; dlia).
  rewrite Z.div_mul by lia.
  rewrite (proj2 (Z.leb_le _ _) H2), (proj2 (Z.ltb_lt _ _) H3).
  unfold base32_of. rewrite mapM_base32. rewrite (Z.mul_comm (size src) 8).
  pose proof (base32_decode_loop_ok src (length dest)) as H.
  unfold size in H2. specialize (H ltac:(lia) (S (Z.to_nat (8 * size src))) 0%nat).
  change (Z.of_nat 0) with 0 in H. change (8 * 0) with 0 in H. unfold zeroed.
  rewrite (Z.mul_comm (size src) 8) in H.
  assert (padded (take 0 src) (length dest) = replicate (length dest) NUL) as E
    by (unfold padded; cbn; by rewrite Nat.sub_0_r).
  rewrite E in H. rewrite H by (unfold size; lia). done.
Qed.

(** ** The decoders on arbitrary input *)

(** A decoder's result: it fails, or it has written at most [destlen] bytes of its own
    buffer. *)
Definition decodes_within (dest : bytes) (r : outcome (Z * bytes)) : Prop :=
  match r with
  | Ok (n, d) => length d = length dest /\ 0 <= n <= size dest
  | Err => True
  | Stuck => False
  end.

Lemma base16_decode_loop_within (n : nat) : forall src dest d,
  length src = (2 * n)%nat -> 0 <= d -> d + Z.of_nat n <= size dest ->
  match base16_decode_loop src dest d with
  | Ok (dest', d') => length dest' = length dest /\ 0 <= d' <= size dest
  | Err => True
  | Stuck => False
  end.
Proof.
  induction n as [|n IH]; intros src dest d Hl Hd Hn.
  - destruct src; [|done]. cbn. split; [done|lia].
  - destruct src as [|c1 [|c2 src]]; cbn [length] in Hl; [lia..|].
    cbn [base16_decode_loop]. destruct (_ || _); [done|].
    destruct (aset_in dest d (z2b (Z.lor (Z.shiftl (hex_decode_digit c1) 4)
      (hex_decode_digit c2)))) as (dest1 & -> & Hl1); [unfold size in *; lia|]. cbn [obind].
    specialize (IH src dest1 (d + 1)). unfold size in *. rewrite Hl1 in IH. apply IH; lia.
Qed.

Lemma base16_decode_within (dest src : bytes) : decodes_within dest (base16_decode dest src).
Proof.
  unfold base16_decode. destruct (Z.eqb_spec (size src mod 2) 0); cbn [negb]; [|done].
  destruct (Z.ltb_spec (size dest) (size src / 2)); [done|].
  destruct (INT_MAX <? size dest); [done|]. cbn [orb].
  pose proof (base16_decode_loop_within (Nat.div2 (length src)) src (zeroed dest) 0) as H'.
  pose proof (Nat.div2_odd (length src)).
  assert (Nat.odd (length src) = false) as Ho.
  { destruct (Nat.odd (length src)) eqn:E; [|done].
    apply Nat.odd_spec in E as [m E]. unfold size in *. dlia. }
  rewrite Ho in *. cbn [Nat.b2n] in *. unfold size, zeroed in *. rewrite length_replicate in H'.
  specialize (H' ltac:(lia) ltac:(lia) ltac:(dlia)).
  destruct (base16_decode_loop src _ 0) as [[d1 n]| |]; cbn [obind]; [|done..].
  unfold tor_assert. rewrite (proj2 (Z.leb_le _ _)) by lia. exact H'.
Qed.

Lemma base64_table_get (c : ascii) :
  exists v, aget base64_decode_table (b2z c) = Some v.
Proof.
  destruct (aget_lt base64_decode_table (b2z c)) as (v & H & _); [|eauto].
  change (Z.of_nat (length base64_decode_table)) with 256. apply b2z_range.
Qed.

Definition stores_within (dest : bytes) (r : outcome (bytes * Z)) : Prop :=
  match r with
  | Ok (dest', di) => length dest' = length dest /\ 0 <= di <= size dest
  | Err => True
  | Stuck => False
  end.

Lemma flush24_within (dest : bytes) (di n : Z) : 0 <= di -> stores_within dest (flush24 dest di n).
Proof.
  intros Hd. unfold flush24, size. destruct (Z.ltb_spec (Z.of_nat (length dest)) 3); [done|].
  destruct (Z.ltb_spec (Z.of_nat (length dest) - 3) di); [done|]. cbn [orb].
  edestruct (aset_in dest di) as (d1 & -> & H1); [lia|]. cbn [obind].
  edestruct (aset_in d1 (di + 1)) as (d2 & -> & H2); [lia|]. cbn [obind].
  edestruct (aset_in d2 (di + 2)) as (d3 & -> & H3); [lia|]. cbn [obind stores_within].
  unfold size. split; [congruence|lia].
Qed.

Lemma base64_decode_loop_within (src : bytes) : forall n i dest di, 0 <= di <= size dest ->
  match base64_decode_loop src n i dest di with
  | Ok (_, _, dest', di') => length dest' = length dest /\ 0 <= di' <= size dest
  | Err => True
  | Stuck => False
  end.
Proof.
  induction src as [|c src IH]; intros n i dest di Hd; cbn [base64_decode_loop]; [by split|].
  destruct (base64_table_get c) as [v ->]. cbn [get obind].
  destruct (v =? X); [done|]. destruct (v =? SPC); [by apply IH|].
  destruct (v =? PAD); [by split|]. destruct (i + 1 =? 4); [|by apply IH].
  pose proof (flush24_within dest di (Z.lor (wrap 32 (Z.shiftl n 6)) v) ltac:(lia)) as H.
  destruct (flush24 dest di _) as [[d1 di1]| |]; cbn [obind stores_within] in *; [|done..].
  destruct H as [H1 H2]. specialize (IH 0 0 d1 di1). unfold size in *. rewrite H1 in IH.
  by apply IH.
Qed.

Lemma base64_decode_tail_within (n i : Z) (dest : bytes) (di : Z) : 0 <= di <= size dest ->
  stores_within dest (base64_decode_tail n i dest di).
Proof.
  intros Hd. unfold base64_decode_tail, size in *.
  destruct (i =? 1); [done|]. destruct (i =? 2); [|destruct (i =? 3); [|by split]].
  - destruct (Z.ltb_spec (Z.of_nat (length dest)) 1); [done|].
    destruct (Z.ltb_spec (Z.of_nat (length dest) - 1) di); [done|]. cbn [orb].
    edestruct (aset_in dest di) as (d1 & -> & H1); [lia|]. cbn. unfold size. split; [done|lia].
  - destruct (Z.ltb_spec (Z.of_nat (length dest)) 2); [done|].
    destruct (Z.ltb_spec (Z.of_nat (length dest) - 2) di); [done|]. cbn [orb].
    edestruct (aset_in dest di) as (d1 & -> & H1); [lia|]. cbn [obind].
    edestruct (aset_in d1 (di + 1)) as (d2 & -> & H2); [lia|]. cbn. unfold size.
    split; [congruence|lia].
Qed.

Lemma base64_decode_within (dest src : bytes) : decodes_within dest (base64_decode dest src).
Proof.
  unfold base64_decode. destruct (INT_MAX <? size dest); [done|].
  pose proof (base64_decode_loop_within src 0 0 (zeroed dest) 0) as H.
  assert (Hz : size (zeroed dest) = size dest)
    by (unfold size, zeroed; by rewrite length_replicate).
  specialize (H ltac:(rewrite Hz; unfold size; lia)). rewrite Hz in H.
  destruct (base64_decode_loop _ _ _ _ _) as [[[[n i] d1] di]| |]; cbn [obind]; [|done..].
  destruct H as [H1 H2]. assert (Hl : length d1 = length dest)
    by (rewrite H1; apply length_replicate).
  pose proof (base64_decode_tail_within n i d1 di) as Ht. unfold size in *. rewrite Hl in Ht.
  specialize (Ht H2). destruct (base64_decode_tail n i d1 di) as [[d2 n2]| |];
    cbn [obind stores_within] in *; [|done..]. destruct Ht as [Ht1 Ht2].
  unfold tor_assert, size in *. rewrite Hl in Ht2. rewrite (proj2 (Z.leb_le _ _)) by lia.
  cbn. unfold size. split; [by rewrite Ht1|lia].
Qed.

Lemma base32_decode_loop_within (tmp : list Z) : forall fuel i dest,
  0 <= i -> let nb := Z.of_nat (length tmp) * 5 / 8 in
  i <= nb -> nb <= size dest -> nb - i < Z.of_nat fuel ->
  match base32_decode_loop fuel tmp (nb * 8) i (8 * i) dest with
  | Ok (dest', i') => length dest' = length dest /\ 0 <= i' <= size dest
  | Err => True
  | Stuck => False
  end.
Proof.
  induction fuel as [|f IH]; intros i dest Hi nb Hn Hs Hf; [lia|]. cbn [base32_decode_loop].
  destruct (Z.ltb_spec (8 * i) (nb * 8)) as [Hlt|]; [|split; [done|lia]].
  assert (Hb : exists v, base32_byte tmp (8 * i) = Ok v).
  { unfold base32_byte.
    destruct (aget_lt tmp (8 * i / 5)) as (t0 & -> & _); [unfold nb in *; dlia|].
    destruct (aget_lt tmp (8 * i / 5 + 1)) as (t1 & -> & _); [unfold nb in *; dlia|].
    cbn [get obind]. destruct (8 * i mod 40 =? 0); [eauto|].
    destruct (Z.eqb_spec (8 * i mod 40) 8).
    { destruct (aget_lt tmp (8 * i / 5 + 2)) as (t2 & -> & _); [unfold nb in *; dlia|].
      cbn. eauto. }
    destruct (8 * i mod 40 =? 16); [eauto|].
    destruct (Z.eqb_spec (8 * i mod 40) 24); [|eauto].
    destruct (aget_lt tmp (8 * i / 5 + 2)) as (t2 & -> & _); [unfold nb in *; dlia|].
    cbn. eauto. }
  destruct Hb as [v ->]. cbn [obind]. unfold size in *.
  destruct (aset_in dest i (z2b v)) as (d1 & -> & H1); [lia|]. cbn [obind].
  specialize (IH (i + 1) d1 ltac:(lia)). cbn zeta in IH. rewrite H1 in IH.
  replace (8 * i + 8) with (8 * (i + 1)) by lia. apply IH; unfold nb in *; lia.
Qed.

Lemma base32_decode_within (dest src : bytes) :
  size src < SIZE_T_CEILING / 5 -> size src * 5 / 8 <= size dest < SIZE_T_CEILING ->
  decodes_within dest (base32_decode dest src).
Proof.
  intros H1 [H2 H3]. unfold base32_decode, tor_assert.
  rewrite (proj2 (Z.ltb_lt _ _) H1), Z.div_mul by lia.
  rewrite (proj2 (Z.leb_le _ _) H2), (proj2 (Z.ltb_lt _ _) H3).
  destruct (mapM base32_value src) as [tmp|] eqn:E; [|done].
  assert (Hl : length tmp = length src)
    by (apply mapM_Some_1, Forall2_length in E; done).
  pose proof (base32_decode_loop_within tmp (S (Z.to_nat (size src * 5 / 8 * 8))) 0 (zeroed dest))
    as H. cbn zeta in H. unfold size in *. rewrite Hl in H. unfold zeroed in *.
  rewrite length_replicate in H. change (8 * 0) with 0 in H.
  specialize (H ltac:(lia) ltac:(dlia) ltac:(lia) ltac:(dlia)).
  by destruct (base32_decode_loop _ _ _ _ _ _) as [[d1 i]| |].
Qed.

(** ** Properties *)

(** Base-64 round trip: for every byte string, with and without multi-line output, if
    the destination of [base64_encode] has room for the text and its NUL then encoding
    succeeds, reports the size that [base64_encode_size] announces, and [base64_decode] of
    exactly that many bytes gives the original bytes back in any buffer of at least
    their length, zeroes behind them. *)
Theorem base64_roundtrip (src dest dest2 : bytes) (flags enclen : Z) :
  CEIL_DIV (size src) 3 < INT_MAX / 8 ->
  base64_encode_size (size src) flags = Ok enclen ->
  enclen + 1 <= size dest <= SIZE_T_CEILING -> size src <= size dest2 <= INT_MAX ->
  exists enc, base64_encode dest src flags = Ok (enclen, enc) /\ length enc = length dest /\
    base64_decode dest2 (take (Z.to_nat enclen) enc) = Ok (size src, padded src (length dest2)).
Proof.
  intros H1 Hs H2 H3. rewrite base64_encode_size_ok in Hs by done. injection Hs as <-.
  rewrite base64_encode_ok by (done || lia). eexists. split; [done|].
  unfold padded at 1 2, size at 1. rewrite length_app, length_replicate, Nat2Z.id, take_app_length.
  split; [unfold size in H2; lia|]. by apply base64_decode_ok.
Qed.

Theorem base64_roundtrip_witness :
  exists enc, base64_encode (replicate 12 NUL) (bs "Tor!") 1 = Ok (9, enc) /\
    length enc = 12%nat /\
    base64_decode (replicate 4 NUL) (take 9 enc) = Ok (4, bs "Tor!").
Proof.
  apply (base64_roundtrip (bs "Tor!") (replicate 12 NUL) (replicate 4 NUL) 1 9);
    vm_compute; repeat split; discriminate.
Defined.

(** Base-32 round trip: every byte string whose encoding fits is decoded to itself, the
    encoder writing exactly [base32_encoded_size] bytes with the NUL. *)
Theorem base32_roundtrip (src dest dest2 : bytes) (enclen : Z) :
  base32_encoded_size (size src) = Ok enclen -> enclen <= size dest < SIZE_T_CEILING ->
  size src <= size dest2 < SIZE_T_CEILING ->
  exists enc, base32_encode dest src = Ok enc /\ length enc = length dest /\
    base32_decode dest2 (take (Z.to_nat (enclen - 1)) enc)
    = Ok (size src, padded src (length dest2)).
Proof.
  unfold base32_encoded_size. intros Hs H1 H2.
  destruct (size src <? SIZE_T_CEILING / 8); [|done]. cbn in Hs.
  destruct (Z.ltb_spec (BASE32_NOPAD_BUFSIZE (size src)) INT_MAX); [|done].
  destruct (_ <? _); [|done]. injection Hs as <-.
  rewrite base32_encode_ok by done. eexists. split; [done|].
  pose proof (base32_of_length src) as Hl. unfold BASE32_NOPAD_BUFSIZE in *.
  rewrite <- Hl in *. replace (size (base32_of src) + 1 - 1) with (size (base32_of src)) by lia.
  unfold padded at 1 2, size at 1. rewrite length_app, length_replicate, Nat2Z.id, take_app_length.
  split; [unfold size in *; lia|]. apply base32_decode_ok; [|done].
  change (SIZE_T_CEILING / 5) with 1844674407370955158. unfold INT_MAX in *. lia.
Qed.

Theorem base32_roundtrip_witness :
  exists enc, base32_encode (replicate 12 NUL) (bs "onion") = Ok enc /\
    length enc = 12%nat /\ base32_decode (replicate 6 NUL) (take 8 enc)
    = Ok (5, bs "onion" ++ [NUL]).
Proof.
  apply (base32_roundtrip (bs "onion") (replicate 12 NUL) (replicate 6 NUL) 9);
    vm_compute; repeat split; discriminate.
Defined.

(** Base-16 round trip: encoding any byte string into a large enough buffer and
    decoding the digits gives the bytes back. *)
Theorem base16_roundtrip (src dest dest2 : bytes) :
  BASE16_BUFSIZE (size src) <= size dest < SIZE_T_CEILING ->
  size src <= size dest2 <= INT_MAX ->
  exists enc, base16_encode dest src = Ok enc /\ length enc = length dest /\
    base16_decode dest2 (take (Z.to_nat (2 * size src)) enc)
    = Ok (size src, padded src (length dest2)).
Proof.
  intros [H1 H2] H3. rewrite base16_encode_ok; [|unfold BASE16_BUFSIZE, INT_MAX, SIZE_T_CEILING in *; dlia|done..].
  eexists. split; [done|]. pose proof (base16_of_length src) as Hl.
  replace (Z.to_nat (2 * size src)) with (length (base16_of src)) by (unfold size; lia).
  unfold padded at 1 2. rewrite length_app, length_replicate, take_app_length.
  unfold BASE16_BUFSIZE, size in H1. split; [lia|]. by apply base16_decode_ok.
Qed.

Theorem base16_roundtrip_witness :
  exists enc, base16_encode (replicate 8 NUL) (bs "abc") = Ok enc /\
    length enc = 8%nat /\ base16_decode (replicate 4 NUL) (take 6 enc)
    = Ok (3, bs "abc" ++ [NUL]).
Proof.
  apply (base16_roundtrip (bs "abc") (replicate 8 NUL) (replicate 4 NUL));
    vm_compute; repeat split; discriminate.
Defined.

(** The decoders on arbitrary, hostile input: whatever the bytes, none of the three
    accesses memory outside its objects or fails an assertion; each either reports
    failure or has written at most [destlen] bytes (for base 32, under the two size
    preconditions that its assertions state). *)
Theorem decoders_within (dest src : bytes) :
  decodes_within dest (base64_decode dest src) /\ decodes_within dest (base16_decode dest src) /\
  (size src < SIZE_T_CEILING / 5 -> size src * 5 / 8 <= size dest < SIZE_T_CEILING ->
   decodes_within dest (base32_decode dest src)).
Proof.
  split; [apply base64_decode_within|]. split; [apply base16_decode_within|].
  apply base32_decode_within.
Qed.

Theorem decoders_within_witness :
  decodes_within (replicate 2 NUL) (base32_decode (replicate 2 NUL) (bs "mfr0")) /\
  base32_decode (replicate 2 NUL) (bs "mfr0") = Err.
Proof.
  split; [|reflexivity]. apply (decoders_within (replicate 2 NUL) (bs "mfr0"));
    vm_compute; repeat split; discriminate.
Defined.
