(* ===== verification/Pqueue.v ===== *)
(** * Heap-ordered smartlists: [src/BADNET/src/lib/container/smartlist.c]

    The priority queue that timers, the scheduler and the circuitmux policy keep in a
    smartlist.  Every item stores its own index in the heap, so the state is the list of
    items together with the index field of each item. *)

From stdpp Require Import gmap.
From S2P Require Import Prelude.

(** ** Definitions *)

Definition MAX_PARENT_IDX : Z := (INT_MAX - 2) / 2.
Definition IDX_MAY_HAVE_CHILDREN (i : nat) : bool := Z.of_nat i <=? MAX_PARENT_IDX.
Definition LEFT_CHILD (i : nat) : nat := 2 * i + 1.
Definition PARENT (i : nat) : nat := (i - 1) / 2.

Record pqueue (A : Type) `{Countable A} := mk_pqueue {
  pq_list : list A;
  pq_idx : gmap A Z;
}.
Arguments mk_pqueue {A _ _} _ _.
Arguments pq_list {A _ _} _.
Arguments pq_idx {A _ _} _.

Section operations.
Context {A : Type} `{Countable A} (compare : A -> A -> Z).

Definition UPDATE_IDX (h : pqueue A) (i : nat) : outcome (pqueue A) :=
let* updated := get (pq_list h !! i) in
Ok {| pq_list := pq_list h; pq_idx := <[updated := Z.of_nat i]> (pq_idx h) |}.

(** Exchange slots [i] and [j] and update the indices stored in both items. *)
Definition pq_swap (h : pqueue A) (i j : nat) : outcome (pqueue A) :=
let* tmp := get (pq_list h !! i) in
let* other := get (pq_list h !! j) in
let h := {| pq_list := <[j := tmp]> (<[i := other]> (pq_list h)); pq_idx := pq_idx h |} in
let* h := UPDATE_IDX h i in
UPDATE_IDX h j.

(** The choice of [best_idx] in the loop of [smartlist_heapify]. *)
Definition best_child (h : pqueue A) (idx : nat) : outcome nat :=
let left_idx := LEFT_CHILD idx in
let* x := get (pq_list h !! idx) in
let* xl := get (pq_list h !! left_idx) in
let best_idx := if compare x xl <? 0 then idx else left_idx in
if (left_idx + 1 <? length (pq_list h))%nat then
  let* xr := get (pq_list h !! (left_idx + 1)%nat) in
  let* xb := get (pq_list h !! best_idx) in
  Ok (if compare xr xb <? 0 then (left_idx + 1)%nat else best_idx)
else Ok best_idx.

Fixpoint smartlist_heapify (fuel : nat) (h : pqueue A) (idx : nat) : outcome (pqueue A) :=
match fuel with
| O => Stuck
| S f =>
    if negb (IDX_MAY_HAVE_CHILDREN idx) then Ok h
    else if (length (pq_list h) <=? LEFT_CHILD idx)%nat then Ok h
    else
      let* best_idx := best_child h idx in
      if (best_idx =? idx)%nat then Ok h
      else
        let* h := pq_swap h idx best_idx in
        smartlist_heapify f h best_idx
end.

(** The sift-up loop of [smartlist_pqueue_add]. *)
Fixpoint pqueue_up (fuel : nat) (h : pqueue A) (idx : nat) : outcome (pqueue A) :=
if (idx =? 0)%nat then Ok h
else
  match fuel with
  | O => Stuck
  | S f =>
      let parent := PARENT idx in
      let* x := get (pq_list h !! idx) in
      let* xp := get (pq_list h !! parent) in
      if compare x xp <? 0 then
        let* h := pq_swap h parent idx in
        pqueue_up f h parent
      else Ok h
  end.

Definition smartlist_pqueue_add (h : pqueue A) (item : A) : outcome (pqueue A) :=
let h := {| pq_list := pq_list h ++ [item]; pq_idx := pq_idx h |} in
let n := length (pq_list h) in
let* h := UPDATE_IDX h (n - 1) in
pqueue_up n h (n - 1).

Definition smartlist_pqueue_pop (h : pqueue A) : outcome (A * pqueue A) :=
tor_assert (negb (length (pq_list h) =? 0)%nat) (
  let* top := get (pq_list h !! 0%nat) in
  let idx := <[top := -1]> (pq_idx h) in
  let n := (length (pq_list h) - 1)%nat in
  if (n =? 0)%nat then Ok (top, {| pq_list := []; pq_idx := idx |})
  else
    let* last := get (pq_list h !! n) in
    let h := {| pq_list := take n (<[0%nat := last]> (pq_list h)); pq_idx := idx |} in
    let* h := UPDATE_IDX h 0 in
    let* h := smartlist_heapify (S n) h 0 in
    Ok (top, h)).

Definition smartlist_pqueue_remove (h : pqueue A) (item : A) : outcome (pqueue A) :=
let* idx := get (pq_idx h !! item) in
tor_assert (0 <=? idx) (
  let* at_idx := get (pq_list h !! Z.to_nat idx) in
  tor_assert (bool_decide (at_idx = item)) (
    let n := (length (pq_list h) - 1)%nat in
    let idxs := <[item := -1]> (pq_idx h) in
    if (Z.to_nat idx =? n)%nat then
      Ok {| pq_list := take n (pq_list h); pq_idx := idxs |}
    else
      let* last := get (pq_list h !! n) in
      let h := {| pq_list := take n (<[Z.to_nat idx := last]> (pq_list h));
                  pq_idx := idxs |} in
      let* h := UPDATE_IDX h (Z.to_nat idx) in
      smartlist_heapify (S n) h (Z.to_nat idx))).

(** The loop of [smartlist_pqueue_assert_ok], over the slots below [i]. *)
Fixpoint pqueue_assert_loop (h : pqueue A) (i : nat) : outcome unit :=
match i with
| O => Ok tt
| S i' =>
    let* x := get (pq_list h !! i') in
    let* xp := get (pq_list h !! PARENT i') in
    tor_assert ((i' =? 0)%nat || (compare xp x <=? 0)) (
      let* ix := get (pq_idx h !! x) in
      tor_assert (ix =? Z.of_nat i') (pqueue_assert_loop h i'))
end.

Definition smartlist_pqueue_assert_ok (h : pqueue A) : outcome unit :=
pqueue_assert_loop h (length (pq_list h)).
End operations.

(** ** The invariant *)

(** What the callers' comparison functions have to satisfy. *)
Class CompareOrder {A} (compare : A -> A -> Z) : Prop := {
  compare_flip x y : 0 <= compare x y -> compare y x <= 0;
  compare_trans x y z : compare x y <= 0 -> compare y z <= 0 -> compare x z <= 0;
}.

Section facts.
Context {A : Type} `{Countable A} (compare : A -> A -> Z).
Implicit Types (l : list A) (h : pqueue A).

Definition le (x y : A) : Prop := compare x y <= 0.

Definition edge l (i : nat) : Prop :=
forall x y, l !! PARENT i = Some x -> l !! i = Some y -> le x y.

Definition heap_ordered l : Prop := forall i, (0 < i)%nat -> edge l i.

Definition indexed h : Prop :=
forall i x, pq_list h !! i = Some x -> pq_idx h !! x = Some (Z.of_nat i).

Definition pq_ok h : Prop := heap_ordered (pq_list h) /\ indexed h.

(** Every slot below [k] is above its children, and [k] may be out of order with its
  children ([down_at]) or its parent ([up_at]) only. *)
Definition grand l (k : nat) : Prop :=
forall c x y, (0 < k)%nat -> (0 < c)%nat -> PARENT c = k ->
  l !! PARENT k = Some x -> l !! c = Some y -> le x y.

Definition down_at l (k : nat) : Prop :=
(forall i, (0 < i)%nat -> PARENT i <> k -> edge l i) /\ grand l k.

Definition up_at l (k : nat) : Prop :=
(forall i, (0 < i)%nat -> i <> k -> edge l i) /\ grand l k.

Lemma indexed_inj h i j x : indexed h ->
pq_list h !! i = Some x -> pq_list h !! j = Some x -> i = j.
Proof. intros Hi H1%Hi H2%Hi. rewrite H1 in H2. injection H2. lia. Qed.

(** *** Exchanging two slots *)

Lemma exchange_lookup l i j x y k : (i < length l)%nat -> (j < length l)%nat -> i <> j ->
l !! i = Some x -> l !! j = Some y ->
<[j := x]> (<[i := y]> l) !! k =
  if decide (k = i) then Some y else if decide (k = j) then Some x else l !! k.
Proof.
intros Hi Hj Hne Hx Hy. case_decide; [subst|case_decide; [subst|]].
- rewrite list_lookup_insert_ne by done. by apply list_lookup_insert_eq.
- apply list_lookup_insert_eq. by rewrite length_insert.
- by rewrite !list_lookup_insert_ne.
Qed.

Lemma exchange_perm l i j x y : i <> j -> l !! i = Some x -> l !! j = Some y ->
<[j := x]> (<[i := y]> l) ≡ₚ l.
Proof.
intros Hne Hx Hy.
pose proof (lookup_lt_Some _ _ _ Hx). pose proof (lookup_lt_Some _ _ _ Hy).
rewrite (insert_take_drop (<[i:=y]> l) j x) by (by rewrite length_insert).
rewrite <-(take_drop_middle l j y Hy) at 3.
destruct (decide (i < j)%nat).
- rewrite drop_insert_lt by lia. rewrite take_insert_lt by lia.
  rewrite (insert_take_drop (take j l) i y) by (rewrite length_take; lia).
  rewrite <-(take_drop_middle (take j l) i x) at 3
    by (by rewrite lookup_take_lt by lia).
  solve_Permutation.
- rewrite take_insert_ge by lia. rewrite drop_insert_ge by lia.
  assert (Hx' : drop (S j) l !! (i - S j)%nat = Some x).
  { rewrite lookup_drop. rewrite <-Hx. f_equal. lia. }
  pose proof (lookup_lt_Some _ _ _ Hx').
  rewrite (insert_take_drop (drop (S j) l)) by done.
  rewrite <-(take_drop_middle (drop (S j) l) (i - S j) x Hx') at 3.
  solve_Permutation.
Qed.

Lemma pq_swap_ok h i j x y : i <> j -> indexed h ->
pq_list h !! i = Some x -> pq_list h !! j = Some y ->
exists h', pq_swap h i j = Ok h' /\ indexed h' /\
  pq_list h' = <[j := x]> (<[i := y]> (pq_list h)) /\
  pq_idx h' = <[x := Z.of_nat j]> (<[y := Z.of_nat i]> (pq_idx h)).
Proof.
intros Hne Hix Hx Hy.
pose proof (lookup_lt_Some _ _ _ Hx) as Hi. pose proof (lookup_lt_Some _ _ _ Hy) as Hj.
unfold pq_swap, UPDATE_IDX. rewrite Hx, Hy. cbn [get obind pq_list].
rewrite !(exchange_lookup _ _ _ _ _ _ Hi Hj Hne Hx Hy).
rewrite decide_True by done. cbn [get obind pq_list pq_idx].
rewrite !(exchange_lookup _ _ _ _ _ _ Hi Hj Hne Hx Hy).
rewrite decide_False, decide_True by done. cbn [get obind].
eexists. split; [done|]. split; [|done].
intros k z. cbn [pq_list pq_idx].
rewrite (exchange_lookup _ _ _ _ _ _ Hi Hj Hne Hx Hy).
assert (x <> y) by (intros ->; apply Hne; by eapply indexed_inj).
case_decide as E1; [|case_decide as E2].
- intros [= <-]. rewrite lookup_insert_ne by done. subst. by rewrite lookup_insert_eq.
- intros [= <-]. subst. by rewrite lookup_insert_eq.
- intros Hz. rewrite !lookup_insert_ne; [by apply Hix|..];
    intros ->; [apply E2|apply E1]; by eapply (indexed_inj h).
Qed.

Context {HC : CompareOrder compare}.

Lemma le_dec x y : (compare x y <? 0) = true -> le x y.
Proof. unfold le. lia. Qed.

Lemma le_flip x y : (compare x y <? 0) = false -> le y x.
Proof. intros Hf. apply compare_flip. lia. Qed.

Lemma le_trans x y z : le x y -> le y z -> le x z.
Proof. apply compare_trans. Qed.

Lemma le_refl x : le x x.
Proof. destruct (compare x x <? 0) eqn:E; [by apply le_dec|by apply le_flip]. Qed.

(** Swapping [k] with its least child [b] moves the disorder down to [b]. *)
Lemma down_step l k b x xb : (0 < b)%nat -> PARENT b = k -> down_at l k ->
l !! k = Some x -> l !! b = Some xb -> le xb x ->
(forall c xc, (0 < c)%nat -> PARENT c = k -> l !! c = Some xc -> le xb xc) ->
down_at (<[b := x]> (<[k := xb]> l)) b.
Proof.
intros Hb Hp [He Hg] Hx Hxb Hle Hmin.
assert (Hkb : k <> b) by (unfold PARENT in Hp; dlia).
pose proof (lookup_lt_Some _ _ _ Hx) as Hlk. pose proof (lookup_lt_Some _ _ _ Hxb) as Hlb.
split.
- intros i Hi Hpi u v.
  rewrite !(exchange_lookup _ _ _ _ _ _ Hlk Hlb Hkb Hx Hxb).
  rewrite (decide_False (P := PARENT i = b)) by done.
  destruct (decide (PARENT i = k)) as [Hpk|Hpk].
  + intros [= <-]. destruct (decide (i = k)); [unfold PARENT in *; dlia|].
    destruct (decide (i = b)); [by intros [= <-]|]. intros Hv. by apply (Hmin i).
  + intros Hu. destruct (decide (i = k)) as [->|].
    * intros [= <-]. by apply (Hg b u xb).
    * destruct (decide (i = b)) as [->|]; [done|]. intros Hv. by apply (He i Hi Hpk).
- intros c u v _ Hc Hpc.
  rewrite !(exchange_lookup _ _ _ _ _ _ Hlk Hlb Hkb Hx Hxb).
  rewrite Hp, (decide_True (P := k = k)) by done. intros [= <-].
  destruct (decide (c = k)); [unfold PARENT in *; dlia|].
  destruct (decide (c = b)); [unfold PARENT in *; dlia|].
  intros Hv. apply (He c Hc); [congruence| |done]. by rewrite Hpc.
Qed.

Lemma PARENT_children c k : (0 < c)%nat -> PARENT c = k ->
c = LEFT_CHILD k \/ c = (LEFT_CHILD k + 1)%nat.
Proof. unfold PARENT, LEFT_CHILD. dlia. Qed.

Lemma PARENT_left k : PARENT (LEFT_CHILD k) = k /\ PARENT (LEFT_CHILD k + 1) = k.
Proof. unfold PARENT, LEFT_CHILD. dlia. Qed.

Lemma IDX_leaf h k : Z.of_nat (length (pq_list h)) <= INT_MAX ->
IDX_MAY_HAVE_CHILDREN k = false -> (length (pq_list h) <= LEFT_CHILD k)%nat.
Proof.
unfold IDX_MAY_HAVE_CHILDREN, MAX_PARENT_IDX, INT_MAX, LEFT_CHILD.
intros Hl Hk. apply Z.leb_gt in Hk. dlia.
Qed.

Lemma heap_leaf l k : (length l <= LEFT_CHILD k)%nat -> down_at l k -> heap_ordered l.
Proof.
intros Hn Hd i Hi. destruct (decide (PARENT i = k)) as [Hp|Hp]; [|by apply Hd].
intros u v _ Hv%lookup_lt_Some. destruct (PARENT_children i k Hi Hp); lia.
Qed.

(** The least of the two candidates of a comparison. *)
Lemma pick_least x y : exists z, z = (if compare x y <? 0 then x else y) /\
le z x /\ le z y.
Proof.
eexists. split; [done|]. destruct (compare x y <? 0) eqn:E.
- split; [apply le_refl|by apply le_dec].
- split; [by apply le_flip|apply le_refl].
Qed.

Lemma best_child_ok h k x : (LEFT_CHILD k < length (pq_list h))%nat ->
pq_list h !! k = Some x ->
exists b xb, best_child compare h k = Ok b /\ pq_list h !! b = Some xb /\ le xb x /\
  (b = k \/ PARENT b = k /\ (k < b)%nat) /\
  (forall c xc, (0 < c)%nat -> PARENT c = k -> pq_list h !! c = Some xc -> le xb xc).
Proof.
intros Hn Hx. destruct (lookup_lt_is_Some_2 _ _ Hn) as [xl Hxl].
destruct (PARENT_left k) as [Hpl Hpr].
assert (Hkl : (k < LEFT_CHILD k)%nat) by (unfold LEFT_CHILD; lia).
unfold best_child. rewrite Hx, Hxl. cbn [get obind].
destruct (pick_least x xl) as (x0 & Hx0 & H0x & H0l).
set (b0 := if compare x xl <? 0 then k else LEFT_CHILD k).
assert (Hb0 : pq_list h !! b0 = Some x0) by (subst x0; unfold b0; by destruct (_ <? 0)).
assert (Hb0k : b0 = k \/ PARENT b0 = k /\ (k < b0)%nat)
  by (unfold b0; destruct (_ <? 0); auto).
clearbody b0. clear Hx0. rewrite Hb0.
destruct (Nat.ltb_spec (LEFT_CHILD k + 1) (length (pq_list h))) as [Hr|Hr].
- destruct (lookup_lt_is_Some_2 _ _ Hr) as [xr Hxr]. rewrite Hxr. cbn [get obind].
  destruct (pick_least xr x0) as (xb & Hxb & Hbr & Hb0').
  exists (if compare xr x0 <? 0 then (LEFT_CHILD k + 1)%nat else b0), xb.
  split; [done|]. split; [subst xb; by destruct (_ <? 0)|].
  split; [by apply (le_trans _ x0)|].
  split; [destruct (_ <? 0); [right; split; [done|lia]|done]|].
  intros c xc Hc Hpc Hxc. destruct (PARENT_children c k Hc Hpc) as [-> | ->].
  + rewrite Hxl in Hxc. injection Hxc as <-. by apply (le_trans _ x0).
  + rewrite Hxr in Hxc. by injection Hxc as <-.
- exists b0, x0. split; [done|]. split; [done|]. split; [done|]. split; [done|].
  intros c xc Hc Hpc Hxc. pose proof (lookup_lt_Some _ _ _ Hxc) as Hlc.
  destruct (PARENT_children c k Hc Hpc) as [-> | ->]; [|lia].
  rewrite Hxl in Hxc. by injection Hxc as <-.
Qed.

Lemma heapify_ok (fuel : nat) : forall h k, (k < length (pq_list h))%nat ->
Z.of_nat (length (pq_list h)) <= INT_MAX -> (length (pq_list h) < fuel + k)%nat ->
down_at (pq_list h) k -> indexed h ->
exists h', smartlist_heapify compare fuel h k = Ok h' /\ pq_ok h' /\
  pq_list h' ≡ₚ pq_list h /\
  (forall z, z ∉ pq_list h -> pq_idx h' !! z = pq_idx h !! z).
Proof.
induction fuel as [|f IH]; intros h k Hk Hmax Hf Hd Hix; [lia|]. cbn [smartlist_heapify].
destruct (IDX_MAY_HAVE_CHILDREN k) eqn:Hm; cbn [negb].
2: { exists h. split; [done|]. split; [|done]. split; [|done].
     apply (heap_leaf _ k); [|done]. by apply IDX_leaf. }
destruct (Nat.leb_spec (length (pq_list h)) (LEFT_CHILD k)) as [Hn|Hn].
{ exists h. split; [done|]. split; [|done]. split; [|done]. by apply (heap_leaf _ k). }
destruct (lookup_lt_is_Some_2 _ _ Hk) as [x Hx].
destruct (best_child_ok h k x Hn Hx) as (b & xb & -> & Hb & Hbx & Hbk & Hmin).
cbn [obind]. destruct (Nat.eqb_spec b k) as [->|Hne].
- rewrite Hx in Hb. injection Hb as <-. exists h. split; [done|]. split; [|done].
  split; [|done]. intros i Hi. destruct (decide (PARENT i = k)) as [Hp|Hp].
  + intros u v Hu Hv. rewrite Hp, Hx in Hu. injection Hu as <-. by apply (Hmin i).
  + by apply Hd.
- destruct Hbk as [|[Hpb Hkb]]; [done|].
  destruct (pq_swap_ok h k b x xb) as (h1 & -> & Hix1 & Hl1 & Hi1); [done..|].
  cbn [obind].
  assert (Hlen : length (pq_list h1) = length (pq_list h))
    by (by rewrite Hl1, !length_insert).
  assert (Hperm : pq_list h1 ≡ₚ pq_list h) by (rewrite Hl1; by apply exchange_perm).
  pose proof (lookup_lt_Some _ _ _ Hb) as Hlb.
  destruct (IH h1 b) as (h' & -> & Hok & Hp & Hfr); [lia|lia|lia| |done|].
  + rewrite Hl1. apply down_step; auto. lia.
  + exists h'. split; [done|]. split; [done|]. split; [by rewrite Hp|].
    intros z Hz. rewrite Hfr by (by rewrite Hperm). rewrite Hi1.
    rewrite !lookup_insert_ne; [done|..]; intros ->; apply Hz; by eapply list_elem_of_lookup_2.
Qed.

Lemma up_step l k x xp : (0 < k)%nat -> up_at l k ->
l !! k = Some x -> l !! PARENT k = Some xp -> le x xp ->
up_at (<[k := xp]> (<[PARENT k := x]> l)) (PARENT k).
Proof.
intros Hk [He Hg] Hx Hxp Hle.
assert (Hpk : PARENT k <> k) by (unfold PARENT; dlia).
pose proof (lookup_lt_Some _ _ _ Hx) as Hlk. pose proof (lookup_lt_Some _ _ _ Hxp) as Hlp.
assert (Hlook := fun n => exchange_lookup _ _ _ _ _ n Hlp Hlk Hpk Hxp Hx).
split.
- intros i Hi Hip u v. rewrite !Hlook. rewrite (decide_False (P := i = PARENT k)) by done.
  destruct (decide (PARENT i = PARENT k)) as [E|E].
  + intros [= <-]. destruct (decide (i = k)) as [->|]; [by intros [= <-]|].
    intros Hv. apply (le_trans _ xp); [done|]. apply (He i Hi); [done|by rewrite E|done].
  + intros Hu. destruct (decide (i = k)) as [->|]; [done|].
    destruct (decide (PARENT i = k)) as [Ek|].
    * injection Hu as <-. intros Hv. by apply (Hg i).
    * intros Hv. by apply (He i).
- intros c u v Hp0 Hc Hpc. rewrite !Hlook.
  destruct (decide (PARENT (PARENT k) = PARENT k)); [unfold PARENT in *; dlia|].
  destruct (decide (PARENT (PARENT k) = k)); [unfold PARENT in *; dlia|].
  intros Hu. destruct (decide (c = PARENT k)) as [->|]; [unfold PARENT in *; dlia|].
  assert (Hup : le u xp) by (by apply (He (PARENT k) Hp0)).
  destruct (decide (c = k)); [by intros [= <-]|].
  intros Hv. apply (le_trans _ xp); [done|]. apply (He c Hc); [done|by rewrite Hpc|done].
Qed.

Lemma pqueue_up_ok (fuel : nat) : forall h k, (k < length (pq_list h))%nat ->
(k <= fuel)%nat -> up_at (pq_list h) k -> indexed h ->
exists h', pqueue_up compare fuel h k = Ok h' /\ pq_ok h' /\
  pq_list h' ≡ₚ pq_list h /\
  (forall z, z ∉ pq_list h -> pq_idx h' !! z = pq_idx h !! z).
Proof.
induction fuel as [|f IH]; intros h k Hk Hf Hu Hix; cbn [pqueue_up].
all: destruct (Nat.eqb_spec k 0) as [->|Hne].
1,3: exists h; split; [done|]; split; [|done]; split; [|done];
     intros i Hi; apply Hu; lia.
{ lia. }
destruct (lookup_lt_is_Some_2 _ _ Hk) as [x Hx].
destruct (lookup_lt_is_Some_2 (pq_list h) (PARENT k)) as [xp Hxp];
  [unfold PARENT; dlia|].
rewrite Hx, Hxp. cbn [get obind].
destruct (compare x xp <? 0) eqn:E.
- assert (Hpk : PARENT k <> k) by (unfold PARENT; dlia).
  destruct (pq_swap_ok h (PARENT k) k xp x) as (h1 & -> & Hix1 & Hl1 & Hi1); [done..|].
  cbn [obind].
  assert (Hlen : length (pq_list h1) = length (pq_list h))
    by (by rewrite Hl1, !length_insert).
  assert (Hperm : pq_list h1 ≡ₚ pq_list h) by (rewrite Hl1; by apply exchange_perm).
  destruct (IH h1 (PARENT k)) as (h' & -> & Hok & Hp & Hfr).
  + unfold PARENT. dlia.
  + unfold PARENT. dlia.
  + rewrite Hl1. apply up_step; [lia|done|done|done|]. by apply le_dec.
  + done.
  + exists h'. split; [done|]. split; [done|]. split; [by rewrite Hp|].
    intros z Hz. rewrite Hfr by (by rewrite Hperm). rewrite Hi1.
    rewrite !lookup_insert_ne; [done|..]; intros ->; apply Hz; by eapply list_elem_of_lookup_2.
- exists h. split; [done|]. split; [|done]. split; [|done].
  intros i Hi. destruct (decide (i = k)) as [->|]; [|by apply Hu].
  intros u v Hu' Hv. rewrite Hxp in Hu'. rewrite Hx in Hv. injection Hu' as <-.
  injection Hv as <-. by apply le_flip.
Qed.

(** *** Replacing slot [k] by the last item *)

Definition pq_shrink (l : list A) (k : nat) (last : A) : list A :=
take (length l - 1) (<[k := last]> l).

Lemma shrink_lookup l k z i : (k < length l - 1)%nat ->
pq_shrink l k z !! i =
  if decide (i < length l - 1)%nat then if decide (i = k) then Some z else l !! i else None.
Proof.
intros Hk. unfold pq_shrink. destruct (decide (i < length l - 1)%nat).
- rewrite lookup_take_lt by done. destruct (decide (i = k)) as [->|].
  + apply list_lookup_insert_eq. lia.
  + by apply list_lookup_insert_ne.
- apply lookup_take_ge. lia.
Qed.

Lemma shrink_length l k z : length (pq_shrink l k z) = (length l - 1)%nat.
Proof. unfold pq_shrink. rewrite length_take, length_insert. lia. Qed.

Lemma shrink_perm l k x z : (k < length l - 1)%nat -> l !! k = Some x ->
l !! (length l - 1)%nat = Some z -> l ≡ₚ x :: pq_shrink l k z.
Proof.
intros Hk Hx Hz. unfold pq_shrink.
destruct (snoc_inv l) as (l0 & y & ->); [by intros ->|].
rewrite length_app, Nat.add_sub in *. rewrite list_lookup_middle in Hz by done.
injection Hz as ->. rewrite lookup_app_l in Hx by done.
rewrite insert_app_l by done. rewrite take_app_le by (rewrite length_insert; lia).
rewrite take_ge by (rewrite length_insert; lia).
rewrite (insert_take_drop l0 k z) by done.
rewrite <-(take_drop_middle l0 k x Hx) at 1. solve_Permutation.
Qed.

Lemma shrink_indexed h k x z : (k < length (pq_list h) - 1)%nat -> indexed h ->
pq_list h !! k = Some x -> pq_list h !! (length (pq_list h) - 1)%nat = Some z ->
indexed {| pq_list := pq_shrink (pq_list h) k z;
           pq_idx := <[z := Z.of_nat k]> (<[x := -1]> (pq_idx h)) |}.
Proof.
intros Hk Hix Hx Hz i w. cbn [pq_list pq_idx]. rewrite shrink_lookup by done.
repeat case_decide; intros Hw.
- injection Hw as <-. subst. by rewrite lookup_insert_eq.
- rewrite !lookup_insert_ne; [by apply Hix|..]; intros ->.
  + pose proof (indexed_inj h _ _ _ Hix Hw Hx). lia.
  + pose proof (indexed_inj h _ _ _ Hix Hw Hz). lia.
- done.
Qed.

Lemma shrink_down_at l k z : heap_ordered l -> (k < length l - 1)%nat ->
(forall p, (0 < k)%nat -> l !! PARENT k = Some p -> le p z) ->
down_at (pq_shrink l k z) k.
Proof.
intros Hh Hk Hz. split.
- intros i Hi Hp u v. rewrite !shrink_lookup by done.
  rewrite (decide_False (P := PARENT i = k)) by done.
  repeat case_decide; try done; intros Hu Hv.
  + injection Hv as <-. subst. by apply Hz.
  + by apply (Hh i Hi).
- intros c u v Hk0 Hc Hpc. rewrite !shrink_lookup by done.
  assert (PARENT k < k)%nat by (unfold PARENT; dlia).
  assert (k < c)%nat by (destruct (PARENT_children c k Hc Hpc); unfold LEFT_CHILD in *; lia).
  repeat case_decide; try done; try lia. intros Hu Hv.
  destruct (lookup_lt_is_Some_2 l k) as [w Hw]; [lia|].
  apply (le_trans _ w); [by apply (Hh k)|]. apply (Hh c Hc); [by rewrite Hpc|done].
Qed.

Lemma heap_min l top : heap_ordered l -> l !! 0%nat = Some top ->
forall i x, l !! i = Some x -> le top x.
Proof.
intros Hh Ht i. induction i as [i IH] using lt_wf_ind. intros x Hx.
destruct (decide (i = 0%nat)) as [->|Hi].
- rewrite Ht in Hx. injection Hx as <-. apply le_refl.
- assert (Hlt : (PARENT i < i)%nat) by (unfold PARENT; dlia).
  destruct (lookup_lt_is_Some_2 l (PARENT i)) as [y Hy].
  { pose proof (lookup_lt_Some _ _ _ Hx). lia. }
  apply (le_trans _ y); [by apply (IH (PARENT i))|]. apply (Hh i); [lia|done|done].
Qed.

(** ** Theorems *)

(** Adding an item that is not in the queue keeps the heap invariant (order and
  stored indices) and adds exactly that item. *)
Theorem pqueue_add_correct h item : pq_ok h -> item ∉ pq_list h ->
exists h', smartlist_pqueue_add compare h item = Ok h' /\ pq_ok h' /\
  pq_list h' ≡ₚ item :: pq_list h.
Proof.
intros [Hh Hix] Hnew. unfold smartlist_pqueue_add, UPDATE_IDX. cbn [pq_list pq_idx].
rewrite length_app. cbn [length]. rewrite Nat.add_sub, list_lookup_middle by done.
cbn [get obind]. set (h1 := {| pq_list := _; pq_idx := _ |}).
destruct (pqueue_up_ok (length (pq_list h) + 1) h1 (length (pq_list h)))
  as (h' & -> & Hok & Hp & _); unfold h1; cbn [pq_list].
- rewrite length_app. simpl. lia.
- lia.
- split.
  + intros i Hi Hne u v Hu Hv.
    pose proof (lookup_lt_Some _ _ _ Hv) as Hl. rewrite length_app in Hl. simpl in Hl.
    assert (PARENT i < i)%nat by (unfold PARENT; dlia).
    rewrite lookup_app_l in Hu by lia. rewrite lookup_app_l in Hv by lia.
    by apply (Hh i).
  + intros c u v Hk Hc Hpc _ Hv. pose proof (lookup_lt_Some _ _ _ Hv) as Hl.
    rewrite length_app in Hl. simpl in Hl. unfold PARENT in Hpc. dlia.
- intros i x. cbn [pq_list pq_idx]. intros [Hx|[Hl Hx]]%lookup_app_Some.
  + rewrite lookup_insert_ne; [by apply Hix|]. intros ->. apply Hnew.
    by eapply list_elem_of_lookup_2.
  + apply list_lookup_singleton_Some in Hx as [Hi <-].
    rewrite lookup_insert_eq. f_equal. lia.
- exists h'. split; [done|]. split; [done|]. rewrite Hp. unfold h1. cbn [pq_list].
  by rewrite Permutation_app_comm.
Qed.

(** popping a nonempty queue succeeds, returns an item no other one precedes, marks
  it as out of the heap, and leaves a well-formed queue of the remaining items. *)
Theorem pqueue_pop_correct h : pq_ok h -> pq_list h <> [] ->
Z.of_nat (length (pq_list h)) <= INT_MAX ->
exists top h', smartlist_pqueue_pop compare h = Ok (top, h') /\ pq_ok h' /\
  pq_list h ≡ₚ top :: pq_list h' /\ Forall (le top) (pq_list h) /\
  pq_idx h' !! top = Some (-1).
Proof.
intros [Hh Hix] Hne Hmax. unfold smartlist_pqueue_pop, tor_assert.
destruct (pq_list h) as [|top l] eqn:El; [done|]. rewrite <-El in *.
assert (Ht : pq_list h !! 0%nat = Some top) by (by rewrite El).
assert (Hlen : length (pq_list h) = S (length l)) by (by rewrite El).
assert (Hmin : Forall (le top) (pq_list h)).
{ apply Forall_lookup. intros i x. by apply heap_min. }
destruct (Nat.eqb_spec (length (pq_list h)) 0); [lia|]. cbn [negb].
rewrite Ht. cbn [get obind]. destruct (Nat.eqb_spec (length (pq_list h) - 1) 0) as [E|E].
- exists top. eexists. split; [done|]. cbn [pq_list pq_idx].
  split; [split; intros ? ?; done|]. split; [|split; [done|by rewrite lookup_insert_eq]].
  rewrite El. destruct l; [done|simpl in *; lia].
- destruct (lookup_lt_is_Some_2 (pq_list h) (length (pq_list h) - 1)) as [z Hz]; [lia|].
  rewrite Hz. cbn [get obind]. unfold UPDATE_IDX. cbn [pq_list pq_idx].
  fold (pq_shrink (pq_list h) 0 z). rewrite shrink_lookup by lia.
  rewrite decide_True, decide_True by (done || lia). cbn [get obind].
  set (h1 := {| pq_list := _; pq_idx := _ |}).
  destruct (heapify_ok (S (length (pq_list h) - 1)) h1 0) as (h' & -> & Hok & Hp & Hfr).
  + unfold h1. cbn [pq_list]. rewrite shrink_length. lia.
  + unfold h1. cbn [pq_list]. rewrite shrink_length. lia.
  + unfold h1. cbn [pq_list]. rewrite shrink_length. lia.
  + unfold h1. cbn [pq_list]. apply shrink_down_at; [done|lia|lia].
  + change 0 with (Z.of_nat 0). apply shrink_indexed; [lia|done|done|done].
  + cbn [obind]. exists top, h'. split; [done|]. split; [done|].
    assert (Hperm : pq_list h ≡ₚ top :: pq_shrink (pq_list h) 0 z)
      by (apply shrink_perm; [lia|done|done]).
    split; [by rewrite Hp|]. split; [done|]. rewrite Hfr; unfold h1; cbn [pq_list pq_idx].
    * rewrite lookup_insert_ne, lookup_insert_eq; [done|]. intros ->.
      pose proof (indexed_inj h _ _ _ Hix Hz Ht). lia.
    * intros (i & Hi)%list_elem_of_lookup. rewrite shrink_lookup in Hi by lia.
      repeat case_decide; try done.
      -- injection Hi as ->. pose proof (indexed_inj h _ _ _ Hix Hz Ht). lia.
      -- by pose proof (indexed_inj h _ _ _ Hix Hi Ht).
Qed.

(** removing an item from inside the heap keeps the invariant whenever the item
  that takes over its slot does not precede the parent of that slot. *)
Theorem pqueue_remove_correct_below h item k : pq_ok h ->
pq_list h !! k = Some item -> Z.of_nat (length (pq_list h)) <= INT_MAX ->
(forall p z, (0 < k)%nat -> pq_list h !! PARENT k = Some p ->
   pq_list h !! (length (pq_list h) - 1)%nat = Some z -> le p z) ->
exists h', smartlist_pqueue_remove compare h item = Ok h' /\ pq_ok h' /\
  pq_list h ≡ₚ item :: pq_list h'.
Proof.
intros [Hh Hix] Hk Hmax Hpar. unfold smartlist_pqueue_remove.
pose proof (lookup_lt_Some _ _ _ Hk) as Hlt.
rewrite (Hix k item Hk). cbn [get obind]. unfold tor_assert.
destruct (Z.leb_spec 0 (Z.of_nat k)); [|lia]. rewrite Nat2Z.id, Hk. cbn [get obind].
rewrite bool_decide_true by done.
destruct (Nat.eqb_spec k (length (pq_list h) - 1)) as [E|E].
- eexists. split; [done|]. cbn [pq_list pq_idx].
  assert (Hx : pq_list h = take (length (pq_list h) - 1) (pq_list h) ++ [item]).
  { rewrite <-(take_S_r _ _ item) by (by rewrite <-E).
    rewrite take_ge; [done|lia]. }
  split; [|rewrite Hx at 1; by rewrite Permutation_app_comm].
  split; [intros i Hi u v|intros i u]; cbn [pq_list pq_idx].
  + rewrite !lookup_take_Some. intros [? _] [? _]. by apply (Hh i).
  + rewrite lookup_take_Some. intros [Hu Hi]. rewrite lookup_insert_ne; [by apply Hix|].
    intros ->. pose proof (indexed_inj h _ _ _ Hix Hu Hk). lia.
- destruct (lookup_lt_is_Some_2 (pq_list h) (length (pq_list h) - 1)) as [z Hz]; [lia|].
  rewrite Hz. cbn [get obind]. unfold UPDATE_IDX. cbn [pq_list pq_idx].
  fold (pq_shrink (pq_list h) k z). rewrite shrink_lookup by lia.
  rewrite decide_True, decide_True by (done || lia). cbn [get obind].
  set (h1 := {| pq_list := _; pq_idx := _ |}).
  destruct (heapify_ok (S (length (pq_list h) - 1)) h1 k) as (h' & -> & Hok & Hp & Hfr).
  + unfold h1. cbn [pq_list]. rewrite shrink_length. lia.
  + unfold h1. cbn [pq_list]. rewrite shrink_length. lia.
  + unfold h1. cbn [pq_list]. rewrite shrink_length. lia.
  + unfold h1. cbn [pq_list]. apply shrink_down_at; [done|lia|]. eauto.
  + apply shrink_indexed; [lia|done|done|done].
  + exists h'. split; [done|]. split; [done|]. rewrite Hp. unfold h1. cbn [pq_list].
    apply shrink_perm; [lia|done|done].
Qed.

(** The debugging check accepts exactly the well-formed queues. *)
Lemma pqueue_assert_ok_iff h : smartlist_pqueue_assert_ok compare h = Ok tt <-> pq_ok h.
Proof.
assert (Hloop : forall i, (i <= length (pq_list h))%nat ->
  pqueue_assert_loop compare h i = Ok tt <->
  forall k x, (k < i)%nat -> pq_list h !! k = Some x ->
    ((0 < k)%nat -> edge (pq_list h) k) /\ pq_idx h !! x = Some (Z.of_nat k)).
{ induction i as [|i IH]; intros Hi; cbn [pqueue_assert_loop].
  { split; [intros _ k x Hk; lia|done]. }
  destruct (lookup_lt_is_Some_2 (pq_list h) i) as [x Hx]; [lia|].
  destruct (lookup_lt_is_Some_2 (pq_list h) (PARENT i)) as [xp Hxp];
    [unfold PARENT; dlia|].
  rewrite Hx, Hxp. cbn [get obind]. specialize (IH ltac:(lia)). unfold tor_assert. split.
  - destruct ((i =? 0)%nat || (compare xp x <=? 0)) eqn:E1; [|done].
    destruct (pq_idx h !! x) as [ix|] eqn:Eix; [|done]. cbn [get obind].
    destruct (Z.eqb_spec ix (Z.of_nat i)); [|done]. intros Hrec k y Hk Hy.
    destruct (decide (k = i)) as [->|]; [|apply IH; [done|lia|done]].
    rewrite Hx in Hy. injection Hy as <-. split; [|by subst].
    intros Hi0 u v Hu Hv. rewrite Hxp in Hu. rewrite Hx in Hv.
    injection Hu as <-. injection Hv as <-.
    apply orb_true_iff in E1 as [?%Nat.eqb_eq|?%Z.leb_le]; [lia|done].
  - intros Hall. destruct (Hall i x) as [He Hidx]; [lia|done|].
    rewrite Hidx. cbn [get obind]. rewrite Z.eqb_refl.
    assert ((i =? 0)%nat || (compare xp x <=? 0) = true) as ->.
    { destruct (Nat.eqb_spec i 0); [done|]. simpl. apply Z.leb_le.
      apply (He ltac:(lia) xp x Hxp Hx). }
    apply IH. intros k y Hk. apply Hall. lia. }
unfold smartlist_pqueue_assert_ok. rewrite Hloop by lia. split.
- intros Hall. split.
  + intros i Hi u v Hu Hv. pose proof (lookup_lt_Some _ _ _ Hv).
    by apply (Hall i v).
  + intros i x Hx. pose proof (lookup_lt_Some _ _ _ Hx). by apply (Hall i x).
- intros [Hh Hix] k x Hk Hx. split; [apply Hh|by apply Hix].
Qed.
End facts.

(** ** A concrete queue: integers, by value *)

#[export] Instance Zsub_order : CompareOrder Z.sub.
Proof. split; lia. Qed.

Definition pq_of (l : list Z) : pqueue Z :=
  {| pq_list := l; pq_idx := list_to_map (imap (fun i x => (x, Z.of_nat i)) l) |}.

(** The heap property, decided by the program's own check. *)
Definition pq_okb (h : pqueue Z) : bool :=
  match smartlist_pqueue_assert_ok Z.sub h with Ok _ => true | _ => false end.

Lemma pq_okb_ok h : pq_okb h = true <-> pq_ok Z.sub h.
Proof.
  rewrite <-(pqueue_assert_ok_iff Z.sub). unfold pq_okb.
  destruct (smartlist_pqueue_assert_ok Z.sub h) as [[]| |]; split; done.
Qed.

Lemma pqueue_add_correct_witness :
  exists h', smartlist_pqueue_add Z.sub (pq_of [2; 5; 3]) 1 = Ok h' /\ pq_ok Z.sub h' /\ pq_list h' ≡ₚ 1 :: pq_list (pq_of [2; 5; 3]).
Proof.
  apply (pqueue_add_correct Z.sub (pq_of [2; 5; 3]) 1).
  - apply pq_okb_ok. reflexivity.
  - set_solver by lia.
Defined.

Lemma pqueue_pop_correct_witness :
  exists top h', smartlist_pqueue_pop Z.sub (pq_of [2; 5; 3; 9]) = Ok (top, h') /\ pq_ok Z.sub h' /\ pq_list (pq_of [2; 5; 3; 9]) ≡ₚ top :: pq_list h' /\ Forall (le Z.sub top) (pq_list (pq_of [2; 5; 3; 9])) /\ pq_idx h' !! top = Some (-1).
Proof.
  apply (pqueue_pop_correct Z.sub (pq_of [2; 5; 3; 9])).
  - apply pq_okb_ok. reflexivity.
  - done.
  - vm_compute. congruence.
Defined.

Lemma pqueue_remove_correct_below_witness :
  exists h', smartlist_pqueue_remove Z.sub (pq_of [2; 5; 3; 9]) 5 = Ok h' /\ pq_ok Z.sub h' /\ pq_list (pq_of [2; 5; 3; 9]) ≡ₚ 5 :: pq_list h'.
Proof.
  apply (pqueue_remove_correct_below Z.sub (pq_of [2; 5; 3; 9]) 5 1).
  - apply pq_okb_ok. reflexivity.
  - reflexivity.
  - vm_compute. congruence.
  - intros p z _ [= <-] [= <-]. unfold le. lia.
Defined.

(** [smartlist_pqueue_remove] sifts the item it moves into the hole downwards only, so
    removing an item from a well-formed heap can leave an item before its parent: the
    queue below satisfies the invariant, and removing 11 from it moves 3 under 10. *)
Theorem pqueue_remove_breaks_heap :
  exists (h h' : pqueue Z) (item : Z),
    pq_ok Z.sub h /\ smartlist_pqueue_remove Z.sub h item = Ok h' /\ ~ pq_ok Z.sub h'.
Proof.
  exists (pq_of [1; 10; 2; 11; 12; 4; 3]).
  eexists _, 11. split; [by apply pq_okb_ok|]. split; [vm_compute; reflexivity|].
  rewrite <-pq_okb_ok. by vm_compute.
Qed.
