(* ===== verification/ConsDiff.v ===== *)
(** * Consensus diffs: [src/BADNET/src/feature/dircommon/consdiff.c]

    Generation and application of the ed-style diffs that directory caches serve. A
    [cdline_t] is the list of its bytes, which excludes the newline that follows it in
    memory; a smartlist of lines is the list it represents. Functions that return NULL or
    -1 after logging return [Err]. The bit arrays are used through their interface. *)

From S2P Require Import Prelude ParseInt Bitarray Strings Smartutil Binascii.

Abbreviation line := bytes.

(** ** Lines *)

Definition lines_eq (a b : line) : bool :=
  (zlen a =? zlen b) && fast_memeq a b (length a).

Definition line_str_eq (a : line) (b : bytes) : bool := lines_eq a b.

Definition line_starts_with_str (a : line) (b : bytes) : bool :=
  (zlen b <=? zlen a) && fast_memeq a b (length b).

(** ** Slices and the longest common subsequence *)

Record slice := mk_slice { s_list : list line; s_offset : Z; s_len : Z }.

Definition smartlist_slice (list : list line) (start end_ : Z) : outcome slice :=
  let list_len := zlen list in
  tor_assert (0 <=? start) (
  tor_assert (start <=? list_len) (
  let end_ := if end_ =? -1 then list_len else end_ in
  tor_assert (start <=? end_) (
  Ok {| s_list := list; s_offset := start; s_len := end_ - start |}))).

(** The inner loop of [lcs_lengths], [n] columns to go. *)
Fixpoint lcs_row (n : nat) (line1 : line) (list2 : list line) (direction j sj : Z)
    (prev result : list Z) : outcome (list Z) :=
  match n with
  | O => Ok result
  | S n' =>
      let* line2 := get (aget list2 sj) in
      let* v :=
        if lines_eq line1 line2 then let* p := get (aget prev j) in Ok (p + 1)
        else let* r := get (aget result j) in
             let* p := get (aget prev (j + 1)) in Ok (Z.max r p) in
      let* result := aset result (j + 1) v in
      lcs_row n' line1 list2 direction (j + 1) (sj + direction) prev result
  end.

Fixpoint lcs_rows (n : nat) (slice1 slice2 : slice) (direction si : Z) (result : list Z)
    : outcome (list Z) :=
  match n with
  | O => Ok result
  | S n' =>
      let* line1 := get (aget (s_list slice1) si) in
      let prev := result in
      let sj := if direction =? -1 then s_offset slice2 + (s_len slice2 - 1)
                else s_offset slice2 in
      let* result := lcs_row (Z.to_nat (s_len slice2)) line1 (s_list slice2) direction 0 sj
                       prev result in
      lcs_rows n' slice1 slice2 direction (si + direction) result
  end.

Definition lcs_lengths (slice1 slice2 : slice) (direction : Z) : outcome (list Z) :=
  let result := replicate (Z.to_nat (s_len slice2 + 1)) 0 in
  tor_assert ((direction =? 1) || (direction =? -1)) (
  let si := if direction =? -1 then s_offset slice1 + (s_len slice1 - 1)
            else s_offset slice1 in
  lcs_rows (Z.to_nat (s_len slice1)) slice1 slice2 direction si result).

(** The two loops of [trim_slices]. *)
Fixpoint trim_front (fuel : nat) (slice1 slice2 : slice) : outcome (slice * slice) :=
  match fuel with
  | O => Stuck
  | S f =>
      if (0 <? s_len slice1) && (0 <? s_len slice2) then
        let* line1 := get (aget (s_list slice1) (s_offset slice1)) in
        let* line2 := get (aget (s_list slice2) (s_offset slice2)) in
        if negb (lines_eq line1 line2) then Ok (slice1, slice2)
        else trim_front f
               {| s_list := s_list slice1; s_offset := s_offset slice1 + 1;
                  s_len := s_len slice1 - 1 |}
               {| s_list := s_list slice2; s_offset := s_offset slice2 + 1;
                  s_len := s_len slice2 - 1 |}
      else Ok (slice1, slice2)
  end.

Fixpoint trim_back (fuel : nat) (slice1 slice2 : slice) (i1 i2 : Z) : outcome (slice * slice) :=
  match fuel with
  | O => Stuck
  | S f =>
      if (0 <? s_len slice1) && (0 <? s_len slice2) then
        let* line1 := get (aget (s_list slice1) i1) in
        let* line2 := get (aget (s_list slice2) i2) in
        if negb (lines_eq line1 line2) then Ok (slice1, slice2)
        else trim_back f
               {| s_list := s_list slice1; s_offset := s_offset slice1; s_len := s_len slice1 - 1 |}
               {| s_list := s_list slice2; s_offset := s_offset slice2; s_len := s_len slice2 - 1 |}
               (i1 - 1) (i2 - 1)
      else Ok (slice1, slice2)
  end.

Definition trim_slices (slice1 slice2 : slice) : outcome (slice * slice) :=
  let fuel := S (Z.to_nat (s_len slice1)) in
  let* (slice1, slice2) := trim_front fuel slice1 slice2 in
  let i1 := s_offset slice1 + s_len slice1 - 1 in
  let i2 := s_offset slice2 + s_len slice2 - 1 in
  trim_back fuel slice1 slice2 i1 i2.

Fixpoint string_pos_loop (n : nat) (list : list line) (string : line) (i : Z) : outcome Z :=
  match n with
  | O => Ok (-1)
  | S n' =>
      let* el := get (aget list i) in
      if lines_eq el string then Ok i else string_pos_loop n' list string (i + 1)
  end.

Definition smartlist_slice_string_pos (sl : slice) (string : line) : outcome Z :=
  string_pos_loop (Z.to_nat (s_len sl)) (s_list sl) string (s_offset sl).

(** ** Marking the changed lines *)

Section bits.
Context {T : Type} `{BitArray T}.

Fixpoint set_range (n : nat) (changed : T) (i toskip : Z) : outcome T :=
match n with
| O => Ok changed
| S n' =>
    let* changed := if negb (i =? toskip) then ba_set changed i else Ok changed in
    set_range n' changed (i + 1) toskip
end.

Definition set_changed (changed1 changed2 : T) (slice1 slice2 : slice) : outcome (T * T) :=
tor_assert ((s_len slice1 =? 0) || (s_len slice1 =? 1)) (
let* (toskip, changed1) :=
  if s_len slice1 =? 1 then
    let* line_common := get (aget (s_list slice1) (s_offset slice1)) in
    let* toskip := smartlist_slice_string_pos slice2 line_common in
    let* changed1 := if toskip =? -1 then ba_set changed1 (s_offset slice1) else Ok changed1 in
    Ok (toskip, changed1)
  else Ok (-1, changed1) in
let* changed2 := set_range (Z.to_nat (s_len slice2)) changed2 (s_offset slice2) toskip in
Ok (changed1, changed2)).

Fixpoint best_column (n : nat) (lens_top lens_bot : list Z) (len2 i column max_sum : Z)
  : outcome Z :=
match n with
| O => Ok column
| S n' =>
    let* a := get (aget lens_top i) in
    let* b := get (aget lens_bot (len2 - i)) in
    let sum := a + b in
    if max_sum <? sum then best_column n' lens_top lens_bot len2 (i + 1) i sum
    else best_column n' lens_top lens_bot len2 (i + 1) column max_sum
end.

Definition optimal_column_to_split (top bot slice2 : slice) : outcome Z :=
let* lens_top := lcs_lengths top slice2 1 in
let* lens_bot := lcs_lengths bot slice2 (-1) in
best_column (Z.to_nat (s_len slice2 + 1)) lens_top lens_bot (s_len slice2) 0 0 (-1).

Fixpoint calc_changes (fuel : nat) (slice1 slice2 : slice) (changed1 changed2 : T)
  : outcome (T * T) :=
match fuel with
| O => Stuck
| S f =>
    let* (slice1, slice2) := trim_slices slice1 slice2 in
    if s_len slice1 <=? 1 then set_changed changed1 changed2 slice1 slice2
    else if s_len slice2 <=? 1 then
      let* (changed2, changed1) := set_changed changed2 changed1 slice2 slice1 in
      Ok (changed1, changed2)
    else
      let mid := s_len slice1 / 2 in
      let* top := smartlist_slice (s_list slice1) (s_offset slice1) (s_offset slice1 + mid) in
      let* bot := smartlist_slice (s_list slice1) (s_offset slice1 + mid)
                    (s_offset slice1 + s_len slice1) in
      let* mid2 := optimal_column_to_split top bot slice2 in
      let* left_ := smartlist_slice (s_list slice2) (s_offset slice2) (s_offset slice2 + mid2) in
      let* right_ := smartlist_slice (s_list slice2) (s_offset slice2 + mid2)
                      (s_offset slice2 + s_len slice2) in
      let* (changed1, changed2) := calc_changes f top left_ changed1 changed2 in
      calc_changes f bot right_ changed1 changed2
end.
End bits.

(** ** Router entries *)

Definition NOT_VALID_BASE64 : Z := 255.

Definition base64_compare_table : list Z :=
  let X := NOT_VALID_BASE64 in
  [X; X; X; X; X; X; X; X; X; X; X; X; X; X; X; X;
   X; X; X; X; X; X; X; X; X; X; X; X; X; X; X; X;
   X; X; X; X; X; X; X; X; X; X; X; 62; X; X; X; 63;
   52; 53; 54; 55; 56; 57; 58; 59; 60; 61; X; X; X; X; X; X;
   X; 0; 1; 2; 3; 4; 5; 6; 7; 8; 9; 10; 11; 12; 13; 14;
   15; 16; 17; 18; 19; 20; 21; 22; 23; 24; 25; X; X; X; X; X;
   X; 26; 27; 28; 29; 30; 31; 32; 33; 34; 35; 36; 37; 38; 39; 40;
   41; 42; 43; 44; 45; 46; 47; 48; 49; 50; 51; X; X; X; X; X]
  ++ replicate 128 X.

Definition base64_val (c : ascii) : Z := nth (Z.to_nat (b2z c)) base64_compare_table NOT_VALID_BASE64.

(** From [hash] on: the code looks at one character past the line before it compares
    with the line's end; that character is the newline, which is not valid either. *)
Fixpoint hash_prefix (s : bytes) : bytes :=
  match s with
  | c :: s' => if base64_val c =? NOT_VALID_BASE64 then [] else c :: hash_prefix s'
  | [] => []
  end.

Definition get_id_hash (ln : line) : outcome bytes :=
  if zlen ln <? 2 then Err
  else
    match memchr (drop 2 ln) SP (length ln - 2) with
    | None => Err
    | Some k =>
        let hash := hash_prefix (drop (2 + k + 1) ln) in
        match hash with [] => Err | _ => Ok hash end
    end.

Definition is_valid_router_entry (ln : line) : bool :=
  if (zlen ln <? 2) || negb (fast_memeq ln (bs "r ") 2) then false
  else match get_id_hash ln with Ok _ => true | _ => false end.

Fixpoint next_router_loop (fuel : nat) (cons : list line) (cur len : Z) : outcome Z :=
  let* ln := get (aget cons cur) in
  if is_valid_router_entry ln then Ok cur
  else
    let cur := cur + 1 in
    if len <=? cur then Ok len
    else match fuel with
         | O => Stuck
         | S f => next_router_loop f cons cur len
         end.

Definition next_router (cons : list line) (cur : Z) : outcome Z :=
  let len := zlen cons in
  tor_assert ((-1 <=? cur) && (cur <? len)) (
  let cur := cur + 1 in
  if len <=? cur then Ok len else next_router_loop (length cons) cons cur len).

(** Both pointers are dereferenced before the ends are looked at. *)
Fixpoint base64cmp_loop (a b : bytes) : outcome Z :=
  match a, b with
  | c :: a', d :: b' =>
      let av := base64_val c in
      let bv := base64_val d in
      if av =? NOT_VALID_BASE64 then
        if bv =? NOT_VALID_BASE64 then Ok 0 else Ok (-1)
      else if bv =? NOT_VALID_BASE64 then Ok 1
      else if av <? bv then Ok (-1)
      else if bv <? av then Ok 1
      else match a', b' with
           | [], [] => Ok 0
           | [], _ => Ok (-1)
           | _, [] => Ok 1
           | _, _ => base64cmp_loop a' b'
           end
  | _, _ => Stuck
  end.

Definition base64cmp (hash1 hash2 : option bytes) : outcome Z :=
  match hash1, hash2 with
  | None, None => Ok 0
  | None, Some _ => Ok (-1)
  | Some _, None => Ok 1
  | Some a, Some b => base64cmp_loop a b
  end.

Record router_id_iterator := { last_hash : option bytes; hash : option bytes }.
Definition ROUTER_ID_ITERATOR_INIT : router_id_iterator := {| last_hash := None; hash := None |}.

Definition find_next_router_line (cons : list line) (idx : Z) (iter : router_id_iterator)
    : outcome (Z * router_id_iterator) :=
  let* idx := next_router cons idx in
  if idx <? zlen cons then
    let last := hash iter in
    let* ln := get (aget cons idx) in
    let* h := get_id_hash ln in
    let* cmp := base64cmp (Some h) last in
    if cmp <=? 0 then Err else Ok (idx, {| last_hash := last; hash := Some h |})
  else Ok (idx, iter).

(** ** Generation *)

Definition START_OF_SIGNATURES_SECTION : bytes := bs "directory-signature ".

Fixpoint find_signature (cons : list line) (idx : Z) : Z :=
  match cons with
  | [] => -1
  | ln :: cons' => if line_starts_with_str ln START_OF_SIGNATURES_SECTION then idx
                   else find_signature cons' (idx + 1)
  end.

(** [smartlist_del]: the last element replaces the deleted one. *)
Definition smartlist_del_line (cons : list line) (idx : Z) : outcome (list line) :=
  tor_assert ((0 <=? idx) && (idx <? zlen cons)) (
  let* x := get (aget cons (zlen cons - 1)) in
  let* cons := aset cons idx x in
  Ok (take (length cons - 1) cons)).

Fixpoint del_trailer (fuel : nat) (cons : list line) (dirsig_idx : Z) : outcome (list line) :=
  if dirsig_idx <? zlen cons then
    match fuel with
    | O => Stuck
    | S f => let* cons := smartlist_del_line cons dirsig_idx in del_trailer f cons dirsig_idx
    end
  else Ok cons.

(** The shortened consensus and the delete command, if there is one. *)
Definition preprocess_consensus (cons : list line) : outcome (list line * option line) :=
  let dirsig_idx := find_signature cons 0 in
  if 0 <=? dirsig_idx then
    let* cons := del_trailer (length cons) cons dirsig_idx in
    Ok (cons, Some (print_int (dirsig_idx + 1) ++ bs ",$d"))
  else Ok (cons, None).

Definition MAX_LINE_COUNT : Z := 10000.

Record gen_st := {
  g_i1 : Z; g_i2 : Z; g_iter1 : router_id_iterator; g_iter2 : router_id_iterator
}.

(** The inner loop that advances the lower position until the hashes match. *)
Fixpoint sync_loop (fuel : nat) (cons1 cons2 : list line) (cmp : Z) (g : gen_st) : outcome gen_st :=
  let len1 := zlen cons1 in
  let len2 := zlen cons2 in
  if cmp =? 0 then Ok g
  else
    match fuel with
    | O => Stuck
    | S f =>
        if (g_i1 g <? len1) && (cmp <? 0) then
          let* (i1, iter1) := find_next_router_line cons1 (g_i1 g) (g_iter1 g) in
          if i1 =? len1 then
            Ok {| g_i1 := i1; g_i2 := len2; g_iter1 := iter1; g_iter2 := g_iter2 g |}
          else
            let* cmp := base64cmp (hash iter1) (hash (g_iter2 g)) in
            sync_loop f cons1 cons2 cmp
              {| g_i1 := i1; g_i2 := g_i2 g; g_iter1 := iter1; g_iter2 := g_iter2 g |}
        else if (g_i2 g <? len2) && (0 <? cmp) then
          let* (i2, iter2) := find_next_router_line cons2 (g_i2 g) (g_iter2 g) in
          if i2 =? len2 then
            Ok {| g_i1 := len1; g_i2 := i2; g_iter1 := g_iter1 g; g_iter2 := iter2 |}
          else
            let* cmp := base64cmp (hash (g_iter1 g)) (hash iter2) in
            sync_loop f cons1 cons2 cmp
              {| g_i1 := g_i1 g; g_i2 := i2; g_iter1 := g_iter1 g; g_iter2 := iter2 |}
        else Ok {| g_i1 := len1; g_i2 := len2; g_iter1 := g_iter1 g; g_iter2 := g_iter2 g |}
    end.

(** One advance of both positions, up to the chunk's end. *)
Definition next_chunk (cons1 cons2 : list line) (g : gen_st) : outcome gen_st :=
  let len1 := zlen cons1 in
  let len2 := zlen cons2 in
  let* (i1, iter1) := if g_i1 g <? len1 then find_next_router_line cons1 (g_i1 g) (g_iter1 g)
                      else Ok (g_i1 g, g_iter1 g) in
  let* (i2, iter2) := if g_i2 g <? len2 then find_next_router_line cons2 (g_i2 g) (g_iter2 g)
                      else Ok (g_i2 g, g_iter2 g) in
  let g := {| g_i1 := i1; g_i2 := i2; g_iter1 := iter1; g_iter2 := iter2 |} in
  if (i1 <? len1) || (i2 <? len2) then
    let* cmp := base64cmp (hash iter1) (hash iter2) in
    sync_loop (length cons1 + length cons2) cons1 cons2 cmp g
  else Ok g.

Section generate.
Context {T : Type} `{BitArray T}.

Fixpoint diff_loop (fuel : nat) (cons1 cons2 : list line) (start1 start2 : Z) (g : gen_st)
  (changed1 changed2 : T) : outcome (T * T) :=
let len1 := zlen cons1 in
let len2 := zlen cons2 in
if (g_i1 g <? len1) || (g_i2 g <? len2) then
  match fuel with
  | O => Stuck
  | S f =>
      let* g := next_chunk cons1 cons2 g in
      if (MAX_LINE_COUNT <? g_i1 g - start1) || (MAX_LINE_COUNT <? g_i2 g - start2) then Err
      else
        let* cons1_sl := smartlist_slice cons1 start1 (g_i1 g) in
        let* cons2_sl := smartlist_slice cons2 start2 (g_i2 g) in
        let* (changed1, changed2) :=
          calc_changes (S (Z.to_nat (s_len cons1_sl))) cons1_sl cons2_sl changed1 changed2 in
        diff_loop f cons1 cons2 (g_i1 g) (g_i2 g) g changed1 changed2
  end
else Ok (changed1, changed2).

(** [while (i >= 0 && bitarray_is_set(changed, i)) i--;] *)
Fixpoint back_changed (fuel : nat) (changed : T) (i : Z) : outcome Z :=
if 0 <=? i then
  let* b := ba_is_set changed i in
  if b : bool then match fuel with O => Stuck | S f => back_changed f changed (i - 1) end
  else Ok i
else Ok i.

(** The lines [cons2[i..end2]], copied into the diff. *)
Fixpoint add_lines (n : nat) (cons2 : list line) (i : Z) (result : list line) : outcome (list line) :=
match n with
| O => Ok result
| S n' =>
    let* ln := get (aget cons2 i) in
    if line_str_eq ln (bs ".") then Err else add_lines n' cons2 (i + 1) (result ++ [ln])
end.

Definition bit_and_in (changed : T) (i : Z) : outcome bool :=
if 0 <=? i then ba_is_set changed i else Ok false.

Definition range_cmd (a b : Z) (c : string) : line :=
print_int a ++ bs "," ++ print_int b ++ bs c.

(** One hunk: deletion, addition or change. *)
Definition emit_hunk (cons2 : list line) (start1 start2 end2 added deleted : Z)
  (result : list line) : outcome (list line) :=
if added =? 0 then
  if deleted =? 1 then Ok (result ++ [print_int (start1 + 1) ++ bs "d"])
  else Ok (result ++ [range_cmd (start1 + 1) (start1 + deleted) "d"])
else
  let cmd := if deleted =? 0 then print_int start1 ++ bs "a"
             else if deleted =? 1 then print_int (start1 + 1) ++ bs "c"
             else range_cmd (start1 + 1) (start1 + deleted) "c" in
  let* result := add_lines (Z.to_nat (end2 - start2 + 1)) cons2 start2 (result ++ [cmd]) in
  Ok (result ++ [bs "."]).

Fixpoint emit_loop (fuel : nat) (cons2 : list line) (changed1 changed2 : T) (i1 i2 : Z)
  (result : list line) : outcome (list line) :=
if (0 <=? i1) || (0 <=? i2) then
  match fuel with
  | O => Stuck
  | S f =>
      let* b1 := bit_and_in changed1 i1 in
      let* b2 := bit_and_in changed2 i2 in
      if negb b1 && negb b2 then
        emit_loop f cons2 changed1 changed2 (if 0 <=? i1 then i1 - 1 else i1)
          (if 0 <=? i2 then i2 - 1 else i2) result
      else
        let end1 := i1 in
        let end2 := i2 in
        let* i1 := back_changed (S (Z.to_nat i1)) changed1 i1 in
        let* i2 := back_changed (S (Z.to_nat i2)) changed2 i2 in
        let start1 := i1 + 1 in
        let start2 := i2 + 1 in
        let added := end2 - i2 in
        let deleted := end1 - i1 in
        let* result := emit_hunk cons2 start1 start2 end2 added deleted result in
        emit_loop f cons2 changed1 changed2 i1 i2 result
  end
else Ok result.

Definition gen_ed_diff (cons1_orig cons2 : list line) : outcome (list line) :=
let* (cons1, remove_trailer) := preprocess_consensus cons1_orig in
let len1 := zlen cons1 in
let len2 := zlen cons2 in
let result := match remove_trailer with Some l => [l] | None => [] end in
let changed1 : T := ba_init_zero len1 in
let changed2 : T := ba_init_zero len2 in
let g := {| g_i1 := -1; g_i2 := -1; g_iter1 := ROUTER_ID_ITERATOR_INIT;
            g_iter2 := ROUTER_ID_ITERATOR_INIT |} in
let* (changed1, changed2) :=
  diff_loop (length cons1 + length cons2 + 3) cons1 cons2 0 0 g changed1 changed2 in
emit_loop (length cons1 + length cons2 + 1) cons2 changed1 changed2 (len1 - 1) (len2 - 1) result.
End generate.

(** ** Application *)

(** The number and the rest of the command. *)
Definition get_linenum (s : bytes) : outcome (Z * bytes) :=
  if negb (TOR_ISDIGIT (deref s)) then Err
  else
    let r := tor_parse_long s 10 0 INT32_MAX true in
    match p_ok r, p_next r with
    | true, Some next => Ok (p_val r, next)
    | _, _ => Err
    end.

Record ed_cmd := { c_start : Z; c_end : Z; c_action : ascii }.

(** The part of the loop of [apply_ed_diff] that reads one command line; [j] is the
    number of lines of [cons1] still to be treated. *)
Definition parse_ed_command (cons1_len j : Z) (diff_cdline : line) : outcome ed_cmd :=
  if 127 <? zlen diff_cdline then Err
  else
    let* (start, ptr) := get_linenum diff_cdline in
    let* (end_, had_range, end_was_eof, ptr) :=
      if b2z (deref ptr) =? 44 then
        let ptr := drop 1 ptr in
        let* (end_, end_was_eof, ptr) :=
          if b2z (deref ptr) =? 36 then Ok (cons1_len, true, drop 1 ptr)
          else let* (e, ptr) := get_linenum ptr in Ok (e, false, ptr) in
        if end_ <=? start then Err else Ok (end_, true, end_was_eof, ptr)
      else Ok (start, false, false, ptr) in
    if j <? end_ then Err
    else if b2z (deref ptr) =? 0 then Err
    else if negb (b2z (deref (drop 1 ptr)) =? 0) then Err
    else
      let action := deref ptr in
      if negb ((b2z action =? 97) || (b2z action =? 99) || (b2z action =? 100)) then Err
      else if end_was_eof && negb (b2z action =? 100) then Err
      else if had_range && (b2z action =? 97) then Err
      else Ok {| c_start := start; c_end := end_; c_action := action |}.

(** [for (; j && j > end; --j) smartlist_add(cons2, cons1[j-1]);] *)
Fixpoint copy_down (fuel : nat) (cons1 : list line) (j end_ : Z) (cons2 : list line)
    : outcome (Z * list line) :=
  if negb (j =? 0) && (end_ <? j) then
    match fuel with
    | O => Stuck
    | S f => let* ln := get (aget cons1 (j - 1)) in
             copy_down f cons1 (j - 1) end_ (cons2 ++ [ln])
    end
  else Ok (j, cons2).

(** [while (--j >= start);] *)
Fixpoint skip_lines (fuel : nat) (j start : Z) : outcome Z :=
  let j := j - 1 in
  if start <=? j then match fuel with O => Stuck | S f => skip_lines f j start end
  else Ok j.

(** The scan for the line ["."] that ends the added lines. *)
Fixpoint find_dot (fuel : nat) (diff : list line) (diff_len i : Z) : outcome Z :=
  if i <? diff_len then
    let* ln := get (aget diff i) in
    if line_str_eq ln (bs ".") then Ok i
    else
      let i := i + 1 in
      if i =? diff_len then Err
      else match fuel with O => Stuck | S f => find_dot f diff diff_len i end
  else Ok i.

(** [while (added_i > added_end) smartlist_add(cons2, diff[added_i--]);] *)
Fixpoint add_reversed (fuel : nat) (diff : list line) (added_i added_end : Z) (cons2 : list line)
    : outcome (list line) :=
  if added_end <? added_i then
    match fuel with
    | O => Stuck
    | S f => let* ln := get (aget diff added_i) in
             add_reversed f diff (added_i - 1) added_end (cons2 ++ [ln])
    end
  else Ok cons2.

Fixpoint apply_loop (fuel : nat) (cons1 diff : list line) (i j : Z) (cons2 : list line)
    : outcome (Z * list line) :=
  let diff_len := zlen diff in
  if i <? diff_len then
    match fuel with
    | O => Stuck
    | S f =>
        let* diff_cdline := get (aget diff i) in
        let* cmd := parse_ed_command (zlen cons1) j diff_cdline in
        let* (j, cons2) := copy_down (length cons1) cons1 j (c_end cmd) cons2 in
        let* j := if (b2z (c_action cmd) =? 99) || (b2z (c_action cmd) =? 100)
                  then skip_lines (length cons1) j (c_start cmd) else Ok j in
        let* (i, cons2) :=
          if (b2z (c_action cmd) =? 97) || (b2z (c_action cmd) =? 99) then
            let added_end := i in
            let* i := find_dot (length diff) diff diff_len (i + 1) in
            let added_i := i - 1 in
            if added_i =? added_end then Err
            else
              let* cons2 := add_reversed (length diff) diff added_i added_end cons2 in
              Ok (i, cons2)
          else Ok (i, cons2) in
        apply_loop f cons1 diff (i + 1) j cons2
    end
  else Ok (j, cons2).

Definition apply_ed_diff (cons1 diff : list line) (diff_starting_line : Z) : outcome (list line) :=
  let* (j, cons2) := apply_loop (length diff) cons1 diff diff_starting_line (zlen cons1) [] in
  let* (j, cons2) := copy_down (length cons1) cons1 j 0 cons2 in
  Ok (reverse cons2).
