(* ===== verification/ConsDiffFacts.v ===== *)
(** * Consensus diffs: proofs

    The longest-common-subsequence marking leaves equal kept lines on both sides; the
    ed script emitted from it, applied to the base consensus, gives the target; nothing in
    generation or application leaves its bounds. *)

From S2P Require Import Prelude ParseInt Bitarray Strings Smartutil Binascii ConsDiff.

(** ** Lines *)

Lemma lines_eq_spec (a b : line) : lines_eq a b = true <-> a = b.
Proof.
  unfold lines_eq, fast_memeq, zlen. rewrite andb_true_iff, Z.eqb_eq, bool_decide_eq_true.
  split.
  - intros [Hl Ht]. rewrite !take_ge in Ht by lia. done.
  - by intros ->.
Qed.

Lemma lines_eq_refl (a : line) : lines_eq a a = true.
Proof. by apply lines_eq_spec. Qed.

(** ** The lines that stay *)

Fixpoint kept (l : list line) (b : list bool) : list line :=
  match l, b with
  | x :: l', c :: b' => if c : bool then kept l' b' else x :: kept l' b'
  | _, _ => []
  end.

Lemma kept_app (l1 l2 : list line) (b1 b2 : list bool) : length l1 = length b1 ->
  kept (l1 ++ l2) (b1 ++ b2) = kept l1 b1 ++ kept l2 b2.
Proof.
  revert b1. induction l1 as [|x l1 IH]; intros [|c b1] H; try done. cbn [app kept].
  injection H as H. rewrite IH by done. by destruct c.
Qed.

Lemma kept_false (l : list line) : kept l (replicate (length l) false) = l.
Proof. induction l as [|x l IH]; cbn; [done|]. by rewrite IH. Qed.

Lemma kept_true (l : list line) (n : nat) : kept l (replicate n true) = [].
Proof. revert n. induction l as [|x l IH]; intros [|n]; cbn; auto. Qed.

(** ** Slices *)

(** The slice [m] between [P] and [R] in its list. *)
Definition mks (P m R : list line) : slice :=
  {| s_list := P ++ m ++ R; s_offset := zlen P; s_len := zlen m |}.

Lemma mks_front (P m R : list line) (x : line) :
  {| s_list := s_list (mks P (x :: m) R); s_offset := zlen P + 1; s_len := zlen (x :: m) - 1 |}
  = mks (P ++ [x]) m R.
Proof.
  unfold mks. cbn [s_list]. rewrite <- app_assoc. cbn [app]. f_equal; len.
Qed.

Lemma mks_back (P m R : list line) (x : line) :
  {| s_list := s_list (mks P (m ++ [x]) R); s_offset := s_offset (mks P (m ++ [x]) R);
     s_len := zlen (m ++ [x]) - 1 |}
  = mks P m (x :: R).
Proof.
  unfold mks. cbn [s_list s_offset]. rewrite <- app_assoc. cbn [app]. f_equal. len.
Qed.

Lemma aget_at {A} (P m R : list A) (i : Z) : zlen P <= i < zlen P + zlen m ->
  exists x, aget (P ++ m ++ R) i = Some x.
Proof.
  intros Hi. destruct (aget_lt (P ++ m ++ R) i) as (x & Hx & _); [len|by exists x].
Qed.

Lemma aget_mid {A} (P R : list A) (x : A) (i : Z) : i = zlen P -> aget (P ++ x :: R) i = Some x.
Proof.
  intros ->. unfold zlen. rewrite aget_nat. by rewrite list_lookup_middle.
Qed.

Lemma aget_mks_last (P m R : list line) (x : line) :
  aget (s_list (mks P (m ++ [x]) R)) (zlen P + zlen (m ++ [x]) - 1) = Some x.
Proof.
  cbn [s_list mks]. rewrite <- app_assoc, app_assoc. cbn [app]. apply aget_mid. len.
Qed.

Lemma smartlist_slice_ok (P m R : list line) (start end_ : Z) :
  start = zlen P -> end_ = zlen P + zlen m ->
  smartlist_slice (P ++ m ++ R) start end_ = Ok (mks P m R).
Proof.
  intros -> ->. unfold smartlist_slice, tor_assert, zlen. autorewrite with tor.
  rewrite !(proj2 (Z.leb_le _ _)) by lia.
  destruct (Z.eqb_spec (Z.of_nat (length P) + Z.of_nat (length m)) (-1)); [lia|].
  rewrite (proj2 (Z.leb_le _ _)) by lia. unfold mks, zlen. do 2 f_equal. lia.
Qed.

(** *** Longest common subsequence lengths: in bounds, one entry per column *)

Lemma lcs_row_ok (P m R : list line) (line1 : line) (dir : Z) : dir = 1 \/ dir = -1 ->
  forall n j sj prev result, 0 <= j -> j + Z.of_nat n = zlen m ->
  (dir = 1 -> sj = zlen P + j) -> (dir = -1 -> sj = zlen P + zlen m - 1 - j) ->
  length prev = S (length m) -> length result = S (length m) ->
  exists r, lcs_row n line1 (P ++ m ++ R) dir j sj prev result = Ok r /\
    length r = S (length m).
Proof.
  intros Hdir. induction n as [|n IH]; intros j sj prev result Hj Hn H1 H2 Hp Hr; cbn [lcs_row].
  - by exists result.
  - destruct (aget_at P m R sj) as [l2 ->]; [destruct Hdir; unfold zlen in *; lia|].
    cbn [get obind]. unfold zlen in *.
    assert (Hv : exists v, (if lines_eq line1 l2 then let* p := get (aget prev j) in Ok (p + 1)
      else let* r := get (aget result j) in
           let* p := get (aget prev (j + 1)) in Ok (Z.max r p)) = Ok v).
    { destruct (aget_lt prev j) as (p & Ep & _); [lia|].
      destruct (aget_lt result j) as (r & Er & _); [lia|].
      destruct (aget_lt prev (j + 1)) as (p' & Ep' & _); [lia|]. rewrite Ep, Er, Ep'. cbn.
      destruct (lines_eq line1 l2); eauto. }
    destruct Hv as [v ->]. cbn [obind].
    destruct (aset_in result (j + 1) v) as (r' & -> & Hr'); [lia|]. cbn [obind].
    apply IH; lia || done.
Qed.

Lemma lcs_rows_ok (P1 m1 R1 P2 m2 R2 : list line) (dir : Z) : dir = 1 \/ dir = -1 ->
  forall n si result, Z.of_nat n <= zlen m1 ->
  (dir = 1 -> si = zlen P1 + zlen m1 - Z.of_nat n) -> (dir = -1 -> si = zlen P1 + Z.of_nat n - 1) ->
  length result = S (length m2) ->
  exists r, lcs_rows n (mks P1 m1 R1) (mks P2 m2 R2) dir si result = Ok r /\
    length r = S (length m2).
Proof.
  intros Hdir. induction n as [|n IH]; intros si result Hn H1 H2 Hr; cbn [lcs_rows]; [eauto|].
  cbn [mks s_list s_len s_offset] in *.
  destruct (aget_at P1 m1 R1 si) as [l1 ->]; [destruct Hdir; lia|]. cbn [get obind].
  destruct (lcs_row_ok P2 m2 R2 l1 dir Hdir (Z.to_nat (zlen m2)) 0
    (if dir =? -1 then zlen P2 + (zlen m2 - 1) else zlen P2) result result) as (r & -> & Hr');
    try done; try (unfold zlen; lia).
  - intros ->. cbn. lia.
  - intros ->. cbn. lia.
  - cbn [obind]. apply IH; [lia|intros; lia|intros; lia|done].
Qed.

Lemma lcs_lengths_ok (P1 m1 R1 P2 m2 R2 : list line) (dir : Z) : dir = 1 \/ dir = -1 ->
  exists r, lcs_lengths (mks P1 m1 R1) (mks P2 m2 R2) dir = Ok r /\ length r = S (length m2).
Proof.
  intros Hdir. unfold lcs_lengths, tor_assert. cbn [s_len s_offset mks].
  replace ((dir =? 1) || (dir =? -1)) with true by (destruct Hdir as [->| ->]; done).
  apply (lcs_rows_ok P1 m1 R1 P2 m2 R2 dir Hdir).
  - unfold zlen. lia.
  - intros ->. cbn. unfold zlen. lia.
  - intros ->. cbn. unfold zlen. lia.
  - rewrite length_replicate. unfold zlen. lia.
Qed.

(** *** Trimming *)

Lemma both_pos (x y : line) (m1 m2 : list line) :
  (0 <? zlen (x :: m1)) && (0 <? zlen (y :: m2)) = true.
Proof. unfold zlen. cbn [length]. by rewrite !(proj2 (Z.ltb_lt 0 _)) by lia. Qed.

Lemma trim_front_ok : forall fuel P1 m1 R1 P2 m2 R2, (length m1 < fuel)%nat ->
  exists pre m1' m2', m1 = pre ++ m1' /\ m2 = pre ++ m2' /\
    trim_front fuel (mks P1 m1 R1) (mks P2 m2 R2)
    = Ok (mks (P1 ++ pre) m1' R1, mks (P2 ++ pre) m2' R2).
Proof.
  induction fuel as [|f IH]; intros P1 m1 R1 P2 m2 R2 Hf; [lia|].
  cbn [trim_front].
  assert (Hstop : exists pre m1' m2', m1 = pre ++ m1' /\ m2 = pre ++ m2' /\
    Ok (mks P1 m1 R1, mks P2 m2 R2) = Ok (mks (P1 ++ pre) m1' R1, mks (P2 ++ pre) m2' R2)).
  { exists [], m1, m2. by rewrite !app_nil_r. }
  destruct m1 as [|x m1]; [exact Hstop|]. destruct m2 as [|y m2]; [by rewrite andb_false_r|].
  cbn [s_len s_offset mks]. rewrite both_pos. cbn [s_list mks app].
  rewrite !aget_mid by done. cbn [get obind]. destruct (lines_eq x y) eqn:E; cbn [negb]; [|exact Hstop].
  apply lines_eq_spec in E as ->.
  pose proof (mks_front P1 m1 R1 y) as E1. pose proof (mks_front P2 m2 R2 y) as E2.
  cbn [s_list mks app] in E1, E2. rewrite E1, E2.
  destruct (IH (P1 ++ [y]) m1 R1 (P2 ++ [y]) m2 R2) as (pre & m1' & m2' & -> & -> & ->);
    [cbn [length] in Hf; lia|].
  exists (y :: pre), m1', m2'. rewrite <- !app_assoc. done.
Qed.

Lemma trim_back_ok : forall fuel P1 m1 R1 P2 m2 R2, (length m1 < fuel)%nat ->
  exists suf m1' m2', m1 = m1' ++ suf /\ m2 = m2' ++ suf /\
    trim_back fuel (mks P1 m1 R1) (mks P2 m2 R2) (zlen P1 + zlen m1 - 1) (zlen P2 + zlen m2 - 1)
    = Ok (mks P1 m1' (suf ++ R1), mks P2 m2' (suf ++ R2)).
Proof.
  induction fuel as [|f IH]; intros P1 m1 R1 P2 m2 R2 Hf; [lia|].
  cbn [trim_back].
  assert (Hstop : exists suf m1' m2', m1 = m1' ++ suf /\ m2 = m2' ++ suf /\
    Ok (mks P1 m1 R1, mks P2 m2 R2) = Ok (mks P1 m1' (suf ++ R1), mks P2 m2' (suf ++ R2))).
  { exists [], m1, m2. by rewrite !app_nil_r. }
  destruct m1 as [|x0 m0] eqn:Em1; [exact Hstop|]. destruct m2 as [|y0 n0] eqn:Em2;
    [by rewrite andb_false_r|].
  cbn [s_len mks]. rewrite both_pos. cbn [s_offset].
  rewrite <- Em1, <- Em2 in *.
  destruct (snoc_inv m1) as (m1a & x & Ex); [by rewrite Em1|].
  destruct (snoc_inv m2) as (m2a & y & Ey); [by rewrite Em2|].
  clear x0 y0 m0 n0 Em1 Em2. subst m1 m2.
  rewrite !aget_mks_last. cbn [get obind].
  destruct (lines_eq x y) eqn:E; cbn [negb]; [|exact Hstop].
  apply lines_eq_spec in E as ->.
  rewrite !mks_back.
  destruct (IH P1 m1a (y :: R1) P2 m2a (y :: R2)) as (suf & m1' & m2' & -> & -> & Hx);
    [rewrite length_app in Hf; cbn [length] in Hf; lia|].
  exists (suf ++ [y]), m1', m2'. rewrite <- !app_assoc. cbn [app].
  split; [done|]. split; [done|]. rewrite <- Hx. f_equal; len.
Qed.

Lemma trim_slices_ok (P1 m1 R1 P2 m2 R2 : list line) :
  exists pre m1' m2' suf, m1 = pre ++ m1' ++ suf /\ m2 = pre ++ m2' ++ suf /\
    trim_slices (mks P1 m1 R1) (mks P2 m2 R2)
    = Ok (mks (P1 ++ pre) m1' (suf ++ R1), mks (P2 ++ pre) m2' (suf ++ R2)).
Proof.
  unfold trim_slices. cbn [s_len mks].
  destruct (trim_front_ok (S (Z.to_nat (zlen m1))) P1 m1 R1 P2 m2 R2) as (pre & m1' & m2' & E1 & E2 & H);
    [unfold zlen; lia|].
  change {| s_list := P1 ++ m1 ++ R1; s_offset := zlen P1; s_len := zlen m1 |} with (mks P1 m1 R1).
  change {| s_list := P2 ++ m2 ++ R2; s_offset := zlen P2; s_len := zlen m2 |} with (mks P2 m2 R2).
  rewrite H. cbn [obind s_offset s_len mks].
  destruct (trim_back_ok (S (Z.to_nat (zlen m1))) (P1 ++ pre) m1' R1 (P2 ++ pre) m2' R2)
    as (suf & a & b & Ea & Eb & Hb); [subst m1; len|].
  exists pre, a, b, suf. subst. done.
Qed.

(** ** Marking *)

Section marking.
Context {T : Type} `{BitArrayLaws T}.

Lemma ba_set_mid (ch : T) (p s : list bool) (b : bool) (i : Z) : i = zlen p ->
ba_repr ch (p ++ b :: s) ->
exists ch', ba_set ch i = Ok ch' /\ ba_repr ch' (p ++ true :: s).
Proof.
intros -> Hr. unfold zlen.
destruct (ba_repr_set ch (p ++ b :: s) (length p) Hr) as (ch' & Hs & Hr'); [len|].
exists ch'. split; [done|]. rewrite insert_app_r_alt, Nat.sub_diag in Hr' by lia. exact Hr'.
Qed.

Lemma set_range_all (n : nat) : forall ch p s i toskip, i = zlen p -> toskip < i ->
ba_repr ch (p ++ replicate n false ++ s) ->
exists ch', set_range n ch i toskip = Ok ch' /\ ba_repr ch' (p ++ replicate n true ++ s).
Proof.
induction n as [|n IH]; intros ch p s i toskip Hi Ht Hr; cbn [set_range replicate app] in *; [eauto|].
destruct (Z.eqb_spec i toskip); [lia|]. cbn [negb].
destruct (ba_set_mid ch p (replicate n false ++ s) false i Hi Hr) as (ch1 & -> & Hr1).
cbn [obind]. destruct (IH ch1 (p ++ [true]) s (i + 1) toskip) as (ch' & -> & Hr'); [len|lia| |].
- by rewrite <- app_assoc.
- exists ch'. split; [done|]. by rewrite <- app_assoc in Hr'.
Qed.

Lemma set_range_skip (na nb : nat) : forall ch p s i toskip, i = zlen p ->
toskip = i + Z.of_nat na ->
ba_repr ch (p ++ replicate (na + S nb) false ++ s) ->
exists ch', set_range (na + S nb) ch i toskip = Ok ch' /\
  ba_repr ch' (p ++ (replicate na true ++ false :: replicate nb true) ++ s).
Proof.
induction na as [|na IH]; intros ch p s i toskip Hi Ht Hr;
  cbn [Nat.add set_range replicate app] in *.
- destruct (Z.eqb_spec i toskip); [|lia]. cbn [negb obind].
  destruct (set_range_all nb ch (p ++ [false]) s (i + 1) toskip) as (ch' & -> & Hr'); [len|lia| |].
  + by rewrite <- app_assoc.
  + exists ch'. split; [done|]. by rewrite <- app_assoc in Hr'.
- destruct (Z.eqb_spec i toskip); [lia|]. cbn [negb].
  destruct (ba_set_mid ch p (replicate (na + S nb) false ++ s) false i Hi Hr) as (ch1 & -> & Hr1).
  cbn [obind]. destruct (IH ch1 (p ++ [true]) s (i + 1) toskip) as (ch' & -> & Hr'); [len|lia| |].
  + by rewrite <- app_assoc.
  + exists ch'. split; [done|]. by rewrite <- app_assoc in Hr'.
Qed.

Lemma string_pos_ok (x : line) (m : list line) : forall P R i, i = zlen P ->
exists r, string_pos_loop (length m) (P ++ m ++ R) x i = Ok r /\
  (r = -1 \/ exists a b, m = a ++ x :: b /\ r = i + zlen a).
Proof.
induction m as [|y m IH]; intros P R i Hi; cbn [string_pos_loop length app]; [eauto|].
rewrite aget_mid by done. cbn [get obind]. destruct (lines_eq y x) eqn:E.
- apply lines_eq_spec in E as ->. exists i. split; [done|]. right. exists [], m.
  split; [done|]. unfold zlen. cbn. lia.
- destruct (IH (P ++ [y]) R (i + 1)) as (r & Hx & Hr); [len|]. rewrite <- app_assoc in Hx.
  cbn [app] in Hx. exists r. split; [done|]. destruct Hr as [->|(a & b & -> & ->)]; [by left|].
  right. exists (y :: a), b. split; [done|]. len.
Qed.

(** A line that stays, and everything around it changed. *)
Lemma kept_skip (a b : list line) (x : line) :
kept (a ++ x :: b) (replicate (length a) true ++ false :: replicate (length b) true) = [x].
Proof. rewrite kept_app by len. rewrite kept_true. cbn. by rewrite kept_true. Qed.

(** The marks of two slices agree on what is kept. *)
Definition marked (ch1 ch2 : T) (p1 s1 p2 s2 : list bool) (m1 m2 : list line)
  (r : outcome (T * T)) : Prop :=
exists ch1' ch2' c1 c2, r = Ok (ch1', ch2') /\
  ba_repr ch1' (p1 ++ c1 ++ s1) /\ ba_repr ch2' (p2 ++ c2 ++ s2) /\
  length c1 = length m1 /\ length c2 = length m2 /\ kept m1 c1 = kept m2 c2.

Lemma set_changed_ok (ch1 ch2 : T) (p1 s1 p2 s2 : list bool) (P1 m1 R1 P2 m2 R2 : list line) :
(length m1 <= 1)%nat -> length p1 = length P1 -> length p2 = length P2 ->
ba_repr ch1 (p1 ++ replicate (length m1) false ++ s1) ->
ba_repr ch2 (p2 ++ replicate (length m2) false ++ s2) ->
marked ch1 ch2 p1 s1 p2 s2 m1 m2 (set_changed ch1 ch2 (mks P1 m1 R1) (mks P2 m2 R2)).
Proof.
intros Hm Hp1 Hp2 H1 H2. unfold set_changed, tor_assert, smartlist_slice_string_pos.
cbn [s_len s_list s_offset mks].
replace (Z.to_nat (zlen m2)) with (length m2) by (unfold zlen; lia).
destruct m1 as [|x [|]]; [| |simpl in Hm; lia].
- change (zlen []) with 0. cbn [Z.eqb orb obind].
  destruct (set_range_all (length m2) ch2 p2 s2 (zlen P2) (-1)) as (ch2' & -> & Hr);
    [unfold zlen; lia|unfold zlen; lia|done|].
  exists ch1, ch2', [], (replicate (length m2) true). cbn [obind].
  do 3 (split; [done|]). split; [done|]. split; [apply length_replicate|]. by rewrite kept_true.
- change (zlen [x]) with 1. cbn [Z.eqb Pos.eqb orb app]. rewrite aget_mid by done. cbn [get obind].
  destruct (string_pos_ok x m2 P2 R2 (zlen P2) eq_refl) as (r & -> & Hr). cbn [obind].
  destruct Hr as [->|(a & b & -> & ->)].
  + cbn [Z.eqb Pos.eqb].
    destruct (ba_set_mid ch1 p1 s1 false (zlen P1)) as (ch1' & -> & Hr1);
      [unfold zlen; lia|done|]. cbn [obind].
    destruct (set_range_all (length m2) ch2 p2 s2 (zlen P2) (-1)) as (ch2' & -> & Hr2);
      [unfold zlen; lia|unfold zlen; lia|done|]. cbn [obind].
    exists ch1', ch2', [true], (replicate (length m2) true).
    do 4 (split; [done|]). split; [apply length_replicate|]. by rewrite kept_true.
  + destruct (Z.eqb_spec (zlen P2 + zlen a) (-1)); [unfold zlen in *; lia|]. cbn [obind].
    rewrite length_app in *. cbn [length] in *.
    destruct (set_range_skip (length a) (length b) ch2 p2 s2 (zlen P2) (zlen P2 + zlen a))
      as (ch2' & -> & Hr2); [unfold zlen; lia|done|done|]. cbn [obind].
    exists ch1, ch2', [false], (replicate (length a) true ++ false :: replicate (length b) true).
    do 4 (split; [done|]). split; [len|]. by rewrite kept_skip.
Qed.

Lemma marked_swap (ch1 ch2 : T) (p1 s1 p2 s2 : list bool) (m1 m2 : list line)
  (r : outcome (T * T)) : marked ch2 ch1 p2 s2 p1 s1 m2 m1 r ->
marked ch1 ch2 p1 s1 p2 s2 m1 m2 (let* (a, b) := r in Ok (b, a)).
Proof.
intros (a & b & c1 & c2 & -> & ? & ? & ? & ? & ?). exists b, a, c2, c1. cbn [obind]. eauto 10.
Qed.

Lemma best_column_ok (lens_top lens_bot : list Z) (len2 : nat) :
length lens_top = S len2 -> length lens_bot = S len2 ->
forall n i column max_sum, 0 <= column <= Z.of_nat len2 -> 0 <= i ->
i + Z.of_nat n = Z.of_nat len2 + 1 ->
exists c, best_column n lens_top lens_bot (Z.of_nat len2) i column max_sum = Ok c /\
  0 <= c <= Z.of_nat len2.
Proof.
intros Ht Hb. induction n as [|n IH]; intros i column max_sum Hc Hi Hn; cbn [best_column]; [eauto|].
destruct (aget_lt lens_top i) as (a & -> & _); [lia|].
destruct (aget_lt lens_bot (Z.of_nat len2 - i)) as (b & -> & _); [lia|]. cbn [get obind].
destruct (max_sum <? a + b); apply IH; lia.
Qed.

Lemma optimal_column_ok (P1 m1 R1 P1' m1' R1' P2 m2 R2 : list line) :
exists c, optimal_column_to_split (mks P1 m1 R1) (mks P1' m1' R1') (mks P2 m2 R2) = Ok c /\
  0 <= c <= zlen m2.
Proof.
unfold optimal_column_to_split.
destruct (lcs_lengths_ok P1 m1 R1 P2 m2 R2 1) as (lt & -> & Hlt); [by left|].
destruct (lcs_lengths_ok P1' m1' R1' P2 m2 R2 (-1)) as (lb & -> & Hlb); [by right|].
cbn [obind s_len mks]. apply (best_column_ok lt lb (length m2) Hlt Hlb); unfold zlen; lia.
Qed.

(** Marks of adjacent parts, and of unchanged surroundings. *)
Lemma marked_widen (ch1 ch2 : T) (p1 s1 p2 s2 : list bool) (pre suf m1 m2 : list line)
  (r : outcome (T * T)) :
marked ch1 ch2 (p1 ++ replicate (length pre) false) (replicate (length suf) false ++ s1)
  (p2 ++ replicate (length pre) false) (replicate (length suf) false ++ s2) m1 m2 r ->
marked ch1 ch2 p1 s1 p2 s2 (pre ++ m1 ++ suf) (pre ++ m2 ++ suf) r.
Proof.
intros (a & b & c1 & c2 & -> & H1 & H2 & Hc1 & Hc2 & Hk). exists a, b,
  (replicate (length pre) false ++ c1 ++ replicate (length suf) false),
  (replicate (length pre) false ++ c2 ++ replicate (length suf) false).
split; [done|]. rewrite <- !app_assoc in *. do 2 (split; [done|]).
do 2 (split; [len|]). rewrite !kept_app by len. by rewrite !kept_false, Hk.
Qed.

Lemma calc_changes_ok : forall fuel ch1 ch2 p1 s1 p2 s2 P1 m1 R1 P2 m2 R2,
length p1 = length P1 -> length p2 = length P2 ->
ba_repr ch1 (p1 ++ replicate (length m1) false ++ s1) ->
ba_repr ch2 (p2 ++ replicate (length m2) false ++ s2) -> (length m1 < fuel)%nat ->
marked ch1 ch2 p1 s1 p2 s2 m1 m2 (calc_changes fuel (mks P1 m1 R1) (mks P2 m2 R2) ch1 ch2).
Proof.
induction fuel as [|f IH]; intros ch1 ch2 p1 s1 p2 s2 P1 m1 R1 P2 m2 R2 Hp1 Hp2 H1 H2 Hf; [lia|].
cbn [calc_changes].
destruct (trim_slices_ok P1 m1 R1 P2 m2 R2) as (pre & n1 & n2 & suf & -> & -> & ->).
cbn [obind]. apply marked_widen. rewrite !length_app, !replicate_add, <- !app_assoc in H1, H2.
set (q1 := p1 ++ _). set (q2 := p2 ++ _). set (t1 := _ ++ s1). set (t2 := _ ++ s2).
rewrite app_assoc in H1, H2. fold q1 t1 in H1. fold q2 t2 in H2.
assert (Hq1 : length q1 = length (P1 ++ pre)) by (unfold q1; len).
assert (Hq2 : length q2 = length (P2 ++ pre)) by (unfold q2; len).
cbn [s_len mks]. destruct (Z.leb_spec (zlen n1) 1) as [L1|L1].
{ apply set_changed_ok; try done. unfold zlen in L1. lia. }
destruct (Z.leb_spec (zlen n2) 1) as [L2|L2].
{ apply marked_swap, set_changed_ok; try done. unfold zlen in L2. lia. }
cbn [s_list s_offset mks].
set (mid := zlen n1 / 2).
assert (Hmid : 0 < mid < zlen n1) by (unfold mid; dlia).
set (t := take (Z.to_nat mid) n1). set (b := drop (Z.to_nat mid) n1).
assert (En1 : n1 = t ++ b) by (symmetry; apply take_drop).
assert (Ht : zlen t = mid) by (unfold t; len).
assert (Hb : zlen b = zlen n1 - mid) by (unfold b; len).
clearbody t b. subst n1. rewrite <- (app_assoc t).
rewrite smartlist_slice_ok by (unfold zlen in *; lia). cbn [obind].
rewrite (app_assoc (P1 ++ pre)).
rewrite (smartlist_slice_ok ((P1 ++ pre) ++ t)) by len. cbn [obind].
change {| s_list := (P2 ++ pre) ++ n2 ++ suf ++ R2; s_offset := zlen (P2 ++ pre);
          s_len := zlen n2 |} with (mks (P2 ++ pre) n2 (suf ++ R2)).
destruct (optimal_column_ok (P1 ++ pre) t (b ++ suf ++ R1) ((P1 ++ pre) ++ t) b (suf ++ R1)
  (P2 ++ pre) n2 (suf ++ R2)) as (mid2 & -> & Hm2). cbn [obind].
set (l := take (Z.to_nat mid2) n2). set (r := drop (Z.to_nat mid2) n2).
assert (En2 : n2 = l ++ r) by (symmetry; apply take_drop).
assert (Hl : zlen l = mid2) by (unfold l; len).
clearbody l r. subst n2. rewrite <- (app_assoc l).
rewrite smartlist_slice_ok by (unfold zlen in *; lia). cbn [obind].
rewrite (app_assoc (P2 ++ pre)).
rewrite (smartlist_slice_ok ((P2 ++ pre) ++ l)) by len. cbn [obind].
rewrite !length_app, !replicate_add, <- !app_assoc in H1, H2.
edestruct (IH ch1 ch2 q1 (replicate (length b) false ++ t1) q2 (replicate (length r) false ++ t2)
  (P1 ++ pre) t (b ++ suf ++ R1) (P2 ++ pre) l (r ++ suf ++ R2))
  as (ch1' & ch2' & c1 & c2 & -> & G1 & G2 & Hc1 & Hc2 & Hk); [done|done|done|done|len|].
cbn [obind]. rewrite app_assoc in G1, G2.
edestruct (IH ch1' ch2' (q1 ++ c1) t1 (q2 ++ c2) t2
  ((P1 ++ pre) ++ t) b (suf ++ R1) ((P2 ++ pre) ++ l) r (suf ++ R2))
  as (ch1'' & ch2'' & d1 & d2 & -> & K1 & K2 & Hd1 & Hd2 & Hk'); [len|len|done|done|len|].
exists ch1'', ch2'', (c1 ++ d1), (c2 ++ d2). rewrite <- !app_assoc in *.
split; [done|]. do 2 (split; [done|]). do 2 (split; [len|]).
rewrite !kept_app by len. by rewrite Hk, Hk'.
Qed.
End marking.

(** ** Router entries *)

(** A hash as [get_id_hash] leaves it: valid characters, at least one. *)
Definition hash_ok (h : option bytes) : Prop := h <> Some [].

Lemma get_id_hash_safe (ln : line) : safe (fun h => h <> []) (get_id_hash ln).
Proof.
  unfold get_id_hash. destruct (zlen ln <? 2); [done|]. destruct (memchr _ _ _); [|done].
  by destruct (hash_prefix _).
Qed.

Lemma base64cmp_loop_safe (a : bytes) : forall b, a <> [] -> b <> [] ->
  exists c, base64cmp_loop a b = Ok c.
Proof.
  induction a as [|c a IH]; intros [|d b] Ha Hb; try done. cbn [base64cmp_loop].
  repeat (case_match; eauto).
Qed.

Lemma base64cmp_safe (h1 h2 : option bytes) : hash_ok h1 -> hash_ok h2 ->
  exists c, base64cmp h1 h2 = Ok c.
Proof.
  unfold hash_ok, base64cmp. intros H1 H2. destruct h1, h2; [|eauto..].
  apply base64cmp_loop_safe; congruence.
Qed.

Lemma next_router_loop_ok (cons : list line) : forall fuel cur, 0 <= cur < zlen cons ->
  zlen cons - cur <= Z.of_nat fuel ->
  exists r, next_router_loop fuel cons cur (zlen cons) = Ok r /\ cur <= r <= zlen cons.
Proof.
  induction fuel as [|f IH]; intros cur Hc Hf; [lia|]. cbn [next_router_loop].
  destruct (aget_lt cons cur Hc) as (x & -> & _). cbn [get obind].
  destruct (is_valid_router_entry x); [exists cur; split; [done|lia]|].
  destruct (Z.leb_spec (zlen cons) (cur + 1)); [exists (zlen cons); split; [done|lia]|].
  destruct (IH (cur + 1)) as (r & -> & ?); [lia|lia|]. exists r. split; [done|lia].
Qed.

Lemma next_router_ok (cons : list line) (cur : Z) : -1 <= cur < zlen cons ->
  exists r, next_router cons cur = Ok r /\ cur < r <= zlen cons.
Proof.
  intros Hc. unfold next_router, tor_assert.
  rewrite (proj2 (Z.leb_le _ _)), (proj2 (Z.ltb_lt _ _)) by lia. cbn [andb].
  destruct (Z.leb_spec (zlen cons) (cur + 1)); [exists (zlen cons); split; [done|lia]|].
  destruct (next_router_loop_ok cons (length cons) (cur + 1)) as (r & -> & ?);
    [lia|unfold zlen; lia|]. exists r. split; [done|lia].
Qed.

Lemma find_next_ok (cons : list line) (idx : Z) (it : router_id_iterator) :
  -1 <= idx < zlen cons -> hash_ok (hash it) ->
  safe (fun '(idx', it') => idx < idx' <= zlen cons /\ hash_ok (hash it'))
    (find_next_router_line cons idx it).
Proof.
  intros Hi Hh. unfold find_next_router_line.
  destruct (next_router_ok cons idx Hi) as (r & -> & Hr). cbn [obind].
  destruct (Z.ltb_spec r (zlen cons)); [|by split].
  destruct (aget_lt cons r) as (x & -> & _); [unfold zlen in *; lia|]. cbn [get obind].
  eapply safe_bind; [apply get_id_hash_safe|]. intros h Hne.
  destruct (base64cmp_safe (Some h) (hash it)) as (c & ->); [congruence|done|]. cbn [obind].
  destruct (c <=? 0); [done|]. split; [lia|]. unfold hash_ok. cbn. congruence.
Qed.

(** The positions stay in range and the iterators usable. *)
Definition gen_ok (cons1 cons2 : list line) (g : gen_st) : Prop :=
  -1 <= g_i1 g <= zlen cons1 /\ -1 <= g_i2 g <= zlen cons2 /\
  hash_ok (hash (g_iter1 g)) /\ hash_ok (hash (g_iter2 g)).

Definition gen_le (g g' : gen_st) : Prop := g_i1 g <= g_i1 g' /\ g_i2 g <= g_i2 g'.

Lemma sync_loop_ok (cons1 cons2 : list line) : forall fuel cmp g,
  gen_ok cons1 cons2 g ->
  1 <= zlen cons1 - g_i1 g + (zlen cons2 - g_i2 g) <= Z.of_nat fuel ->
  safe (fun g' => gen_ok cons1 cons2 g' /\ gen_le g g') (sync_loop fuel cons1 cons2 cmp g).
Proof.
  unfold gen_ok, gen_le.
  induction fuel as [|f IH]; intros cmp g (H1 & H2 & H3 & H4) Hf; [lia|]. cbn [sync_loop].
  destruct (cmp =? 0); [simpl; repeat split; try done; lia|].
  destruct ((g_i1 g <? zlen cons1) && (cmp <? 0)) eqn:E1.
  { apply andb_true_iff in E1 as [E1%Z.ltb_lt _].
    eapply safe_bind; [apply find_next_ok; [lia|done]|]. intros [i1 iter1] [Hi Hh].
    destruct (Z.eqb_spec i1 (zlen cons1)); [simpl; repeat split; try done; lia|].
    destruct (base64cmp_safe (hash iter1) (hash (g_iter2 g)) Hh H4) as (c & ->). cbn [obind].
    eapply safe_mono; [apply IH; simpl; [repeat split; try done; lia|lia]|].
    simpl. intros g' [? [? ?]]. split; [done|lia]. }
  destruct ((g_i2 g <? zlen cons2) && (0 <? cmp)) eqn:E2.
  { apply andb_true_iff in E2 as [E2%Z.ltb_lt _].
    eapply safe_bind; [apply find_next_ok; [lia|done]|]. intros [i2 iter2] [Hi Hh].
    destruct (Z.eqb_spec i2 (zlen cons2)); [simpl; repeat split; try done; lia|].
    destruct (base64cmp_safe (hash (g_iter1 g)) (hash iter2) H3 Hh) as (c & ->). cbn [obind].
    eapply safe_mono; [apply IH; simpl; [repeat split; try done; lia|lia]|].
    simpl. intros g' [? [? ?]]. split; [done|lia]. }
  simpl. repeat split; try done; lia.
Qed.

Lemma advance_ok (cons : list line) (i : Z) (it : router_id_iterator) :
  -1 <= i <= zlen cons -> hash_ok (hash it) ->
  safe (fun '(i', it') => 0 <= i' <= zlen cons /\ i <= i' /\ hash_ok (hash it') /\
                          (i < zlen cons -> i < i'))
    (if i <? zlen cons then find_next_router_line cons i it else Ok (i, it)).
Proof.
  intros Hi Hh. destruct (Z.ltb_spec i (zlen cons)).
  - eapply safe_mono; [apply find_next_ok; [lia|done]|]. intros [i' it'] [? ?].
    repeat split; try done; lia.
  - simpl. unfold zlen in *. repeat split; try done; lia.
Qed.

Lemma next_chunk_ok (cons1 cons2 : list line) (g : gen_st) : gen_ok cons1 cons2 g ->
  g_i1 g < zlen cons1 \/ g_i2 g < zlen cons2 ->
  safe (fun g' => gen_ok cons1 cons2 g' /\ gen_le g g' /\ 0 <= g_i1 g' /\ 0 <= g_i2 g' /\
                  g_i1 g + g_i2 g < g_i1 g' + g_i2 g') (next_chunk cons1 cons2 g).
Proof.
  intros (H1 & H2 & H3 & H4) Hlt. unfold next_chunk.
  eapply safe_bind; [by apply advance_ok|]. intros [i1 it1] (Ha1 & Hb1 & Hc1 & Hd1).
  eapply safe_bind; [by apply advance_ok|]. intros [i2 it2] (Ha2 & Hb2 & Hc2 & Hd2).
  set (g1 := {| g_i1 := i1; g_i2 := i2; g_iter1 := it1; g_iter2 := it2 |}).
  assert (Hg1 : gen_ok cons1 cons2 g1) by (repeat split; simpl; done || lia).
  destruct ((i1 <? zlen cons1) || (i2 <? zlen cons2)) eqn:E.
  - destruct (base64cmp_safe (hash it1) (hash it2) Hc1 Hc2) as (c & ->). cbn [obind].
    eapply safe_mono; [apply sync_loop_ok; [done|]|].
    + unfold g1; simpl. apply orb_true_iff in E. unfold zlen in *. lia.
    + unfold gen_le, g1. simpl. intros g' [? [? ?]]. split; [done|]. lia.
  - unfold gen_le. simpl. split; [done|]. lia.
Qed.

(** ** The marking loop *)

Section diffloop.
Context {T : Type} `{BitArrayLaws T}.

(** Everything before [start1], [start2] is marked, nothing after it. *)
Definition marked_upto (cons1 cons2 : list line) (start1 start2 : Z) (ch1 ch2 : T) : Prop :=
exists p1 p2, zlen p1 = start1 /\ zlen p2 = start2 /\
  ba_repr ch1 (p1 ++ replicate (length cons1 - length p1) false) /\
  ba_repr ch2 (p2 ++ replicate (length cons2 - length p2) false) /\
  kept (take (length p1) cons1) p1 = kept (take (length p2) cons2) p2.

Lemma chunk_ok (cons1 cons2 : list line) (start1 start2 e1 e2 : Z) (ch1 ch2 : T) :
marked_upto cons1 cons2 start1 start2 ch1 ch2 ->
start1 <= e1 <= zlen cons1 -> start2 <= e2 <= zlen cons2 ->
exists sl1 sl2 ch1' ch2', smartlist_slice cons1 start1 e1 = Ok sl1 /\
  smartlist_slice cons2 start2 e2 = Ok sl2 /\
  calc_changes (S (Z.to_nat (s_len sl1))) sl1 sl2 ch1 ch2 = Ok (ch1', ch2') /\
  marked_upto cons1 cons2 e1 e2 ch1' ch2'.
Proof.
intros (p1 & p2 & Hp1 & Hp2 & H1 & H2 & Hk) He1 He2.
assert (Hsplit : forall (c : list line) (p : list bool) s e, zlen p = s -> s <= e <= zlen c ->
  exists P m R, c = P ++ m ++ R /\ length P = length p /\ zlen m = e - s /\
    take (length p) c = P).
{ intros c p s e Hs He. exists (take (length p) c), (take (Z.to_nat (e - s)) (drop (length p) c)),
    (drop (Z.to_nat (e - s)) (drop (length p) c)). rewrite !take_drop. repeat split; len. }
destruct (Hsplit cons1 p1 start1 e1 Hp1 He1) as (P1 & m1 & R1 & -> & HP1 & Hm1 & Ht1).
destruct (Hsplit cons2 p2 start2 e2 Hp2 He2) as (P2 & m2 & R2 & -> & HP2 & Hm2 & Ht2).
clear Hsplit. rewrite Ht1, Ht2 in Hk.
exists (mks P1 m1 R1), (mks P2 m2 R2).
assert (Hr : forall (p : list bool) (P m R : list line), length P = length p ->
  replicate (length (P ++ m ++ R) - length p) false
  = replicate (length m) false ++ replicate (length R) false).
{ intros. rewrite <- replicate_add. f_equal. len. }
rewrite Hr in H1, H2 by done.
destruct (calc_changes_ok (S (Z.to_nat (s_len (mks P1 m1 R1)))) ch1 ch2 p1
  (replicate (length R1) false) p2 (replicate (length R2) false) P1 m1 R1 P2 m2 R2)
  as (ch1' & ch2' & c1 & c2 & Hc & G1 & G2 & Hc1 & Hc2 & Hk'); try done.
{ cbn. unfold zlen. lia. }
exists ch1', ch2'. split; [apply smartlist_slice_ok; unfold zlen in *; lia|].
split; [apply smartlist_slice_ok; unfold zlen in *; lia|]. split; [done|].
exists (p1 ++ c1), (p2 ++ c2). split; [len|]. split; [len|].
assert (Hr' : forall (p c : list bool) (P m R : list line), length P = length p ->
  length c = length m -> (length (P ++ m ++ R) - length (p ++ c))%nat = length R).
{ intros. len. }
rewrite !Hr' by done. rewrite <- !app_assoc. do 2 (split; [done|]).
assert (Hr'' : forall (p c : list bool) (P m R : list line), length P = length p ->
  length c = length m -> take (length (p ++ c)) (P ++ m ++ R) = P ++ m).
{ intros. rewrite app_assoc. apply take_app_length'. len. }
rewrite !Hr'' by done. rewrite !kept_app by done. by rewrite Hk, Hk'.
Qed.

Lemma diff_loop_ok (cons1 cons2 : list line) : forall fuel g ch1 ch2,
gen_ok cons1 cons2 g ->
zlen cons1 - g_i1 g + (zlen cons2 - g_i2 g) <= Z.of_nat fuel ->
marked_upto cons1 cons2 (Z.max 0 (g_i1 g)) (Z.max 0 (g_i2 g)) ch1 ch2 ->
safe (fun '(ch1', ch2') => marked_upto cons1 cons2 (zlen cons1) (zlen cons2) ch1' ch2')
  (diff_loop fuel cons1 cons2 (Z.max 0 (g_i1 g)) (Z.max 0 (g_i2 g)) g ch1 ch2).
Proof.
induction fuel as [|f IH]; intros g ch1 ch2 Hg Hf Hm; cbn [diff_loop].
all: destruct ((g_i1 g <? zlen cons1) || (g_i2 g <? zlen cons2)) eqn:E.
1: { apply orb_true_iff in E. destruct Hg as (? & ? & _). lia. }
2: { apply orb_true_iff in E. eapply safe_bind; [apply next_chunk_ok; [done|lia]|].
  intros g' (Hg' & [Hle1 Hle2] & H1 & H2 & Hlt).
  destruct (_ || _); [done|].
  pose proof Hg' as (Hr1 & Hr2 & _).
  destruct (chunk_ok cons1 cons2 (Z.max 0 (g_i1 g)) (Z.max 0 (g_i2 g)) (g_i1 g') (g_i2 g')
    ch1 ch2 Hm) as (sl1 & sl2 & ch1' & ch2' & -> & -> & Hc & Hm'); [lia|lia|].
  cbn [obind]. rewrite Hc. cbn [obind].
  replace (g_i1 g') with (Z.max 0 (g_i1 g')) at 1 by lia.
  replace (g_i2 g') with (Z.max 0 (g_i2 g')) at 1 by lia.
  apply IH; [done|lia|]. by rewrite !Z.max_r by lia. }
all: apply orb_false_iff in E as [E1%Z.ltb_ge E2%Z.ltb_ge]; destruct Hg as (? & ? & _);
  simpl; unfold zlen in *; rewrite !Z.max_r in Hm by lia.
all: by replace (Z.of_nat (length cons1)) with (g_i1 g) by lia;
  replace (Z.of_nat (length cons2)) with (g_i2 g) by lia.
Qed.
End diffloop.

(** ** Reading and writing ed commands *)

Lemma get_linenum_print (z : Z) (rest : bytes) : 0 <= z <= INT32_MAX ->
  TOR_ISDIGIT (deref rest) = false -> get_linenum (print_int z ++ rest) = Ok (z, rest).
Proof.
  intros Hz Hr. unfold get_linenum.
  assert (Hd : TOR_ISDIGIT (deref (print_int z ++ rest)) = true).
  { unfold print_int. rewrite (proj2 (Z.ltb_ge _ _)) by lia.
    destruct (print_nat_head z) as (c & l & -> & Hc); [lia|done]. }
  rewrite Hd. cbn [negb]. rewrite tor_parse_long_print; [done|..|done].
  - unfold LONG_MIN, LONG_MAX, INT32_MAX in *. lia.
  - done.
Qed.

Lemma print_int_length (z : Z) : 0 <= z <= INT32_MAX -> (length (print_int z) <= 10)%nat.
Proof.
  intros Hz. unfold print_int. rewrite (proj2 (Z.ltb_ge _ _)) by lia. by apply print_nat_length.
Qed.

(** The command for [del] deleted lines after the first [start], and added lines or not. *)
Definition ed_action (del : nat) (adds : bool) : ascii :=
  if adds then (if (del =? 0)%nat then "a"%char else "c"%char) else "d"%char.

Definition ed_text (start del : nat) (adds : bool) : line :=
  if (del =? 0)%nat then print_int (Z.of_nat start) ++ [ed_action del adds]
  else if (del =? 1)%nat then print_int (Z.of_nat start + 1) ++ [ed_action del adds]
  else print_int (Z.of_nat start + 1) ++ bs "," ++ print_int (Z.of_nat start + Z.of_nat del)
       ++ [ed_action del adds].

Definition ed_read (start del : nat) (adds : bool) : ed_cmd :=
  {| c_start := if (del =? 0)%nat then Z.of_nat start else Z.of_nat start + 1;
     c_end := Z.of_nat (start + del); c_action := ed_action del adds |}.

Lemma ed_action_facts (del : nat) (adds : bool) :
  TOR_ISDIGIT (ed_action del adds) = false /\ (b2z (ed_action del adds) =? 44) = false /\
  (b2z (ed_action del adds) =? 0) = false /\
  (b2z (ed_action del adds) =? 97) || (b2z (ed_action del adds) =? 99)
    || (b2z (ed_action del adds) =? 100) = true.
Proof. unfold ed_action. by destruct adds, (del =? 0)%nat. Qed.

Lemma parse_ed_text (n j : Z) (start del : nat) (adds : bool) :
  Z.of_nat (start + del) <= j <= INT32_MAX -> (0 < del)%nat \/ adds = true ->
  parse_ed_command n j (ed_text start del adds) = Ok (ed_read start del adds).
Proof.
  intros Hj Hne. unfold parse_ed_command, ed_text, ed_read.
  destruct (ed_action_facts del adds) as (Hd & H44 & H0 & Hact).
  assert (Hshort : forall z, 0 <= z <= INT32_MAX -> zlen (print_int z) <= 10)
    by (intros z Hz; pose proof (print_int_length z Hz); unfold zlen; lia).
  assert (Hrange : (b2z (ed_action del adds) =? 97) = (del =? 0)%nat && adds)
    by (unfold ed_action; by destruct adds, (del =? 0)%nat).
  destruct (Nat.eqb_spec del 0) as [->|]; [|destruct (Nat.eqb_spec del 1) as [->|]].
  - rewrite (proj2 (Z.ltb_ge _ _)).
    2:{ pose proof (Hshort (Z.of_nat start) ltac:(lia)). len. }
    rewrite get_linenum_print by (done || lia). cbn [obind deref drop].
    rewrite H44. cbn [obind deref drop]. rewrite (proj2 (Z.ltb_ge _ _)) by lia. rewrite H0.
    cbn [deref drop]. change (b2z NUL =? 0) with true. cbn [negb]. rewrite Hact. cbn [negb andb].
    by rewrite Nat.add_0_r.
  - rewrite (proj2 (Z.ltb_ge _ _)).
    2:{ pose proof (Hshort (Z.of_nat start + 1) ltac:(lia)). len. }
    rewrite get_linenum_print by (done || lia). cbn [obind deref drop].
    rewrite H44. cbn [obind deref drop]. rewrite (proj2 (Z.ltb_ge _ _)) by lia. rewrite H0.
    cbn [deref drop]. change (b2z NUL =? 0) with true. cbn [negb]. rewrite Hact. cbn [negb andb].
    do 3 f_equal. lia.
  - rewrite (proj2 (Z.ltb_ge _ _)).
    2:{ pose proof (Hshort (Z.of_nat start + 1) ltac:(lia)).
        pose proof (Hshort (Z.of_nat start + Z.of_nat del) ltac:(lia)).
        change (length (bs ",")) with 1%nat in *. unfold zlen in *. autorewrite with tor.
        change (length (bs ",")) with 1%nat. cbn [length]. lia. }
    rewrite get_linenum_print by (done || lia). cbn [obind].
    change (deref (bs "," ++ ?x)) with ","%char. cbn [obind].
    change (b2z ","%char =? 44) with true. cbn iota.
    change (drop 1 (bs "," ++ ?x)) with x.
    assert (H36 : (b2z (deref (print_int (Z.of_nat start + Z.of_nat del) ++ [ed_action del adds]))
                   =? 36) = false).
    { unfold print_int. rewrite (proj2 (Z.ltb_ge _ _)) by lia.
      destruct (print_nat_head (Z.of_nat start + Z.of_nat del)) as (c & l & -> & Hc); [lia|].
      cbn [app deref]. unfold TOR_ISDIGIT in Hc. lia. }
    rewrite H36, get_linenum_print by (done || lia). cbn [obind].
    rewrite (proj2 (Z.leb_gt _ _)) by lia. cbn [obind deref drop].
    rewrite (proj2 (Z.ltb_ge _ _)) by lia. rewrite H0. change (b2z NUL =? 0) with true.
    cbn [negb]. rewrite Hact. cbn [negb andb]. rewrite Hrange.
    cbn [andb]. do 3 f_equal. lia.
Qed.

(** ** The loops of the application *)

Lemma copy_down_ok (L R : list line) (end_ : Z) (M : list line) : forall fuel acc,
  end_ = zlen L -> (length M <= fuel)%nat ->
  copy_down fuel (L ++ M ++ R) (zlen (L ++ M)) end_ acc = Ok (end_, acc ++ reverse M).
Proof.
  revert R. induction M as [|x M IH] using rev_ind; intros R fuel acc -> Hf.
  - rewrite app_nil_r. assert ((negb (zlen L =? 0) && (zlen L <? zlen L)) = false) as E
      by (by rewrite Z.ltb_irrefl, andb_false_r).
    destruct fuel; cbn [copy_down]; rewrite E; by rewrite reverse_nil, app_nil_r.
  - destruct fuel as [|fuel]; [len|]. cbn [copy_down].
    assert ((negb (zlen (L ++ M ++ [x]) =? 0) && (zlen L <? zlen (L ++ M ++ [x]))) = true) as ->.
    { rewrite (proj2 (Z.eqb_neq _ _)), (proj2 (Z.ltb_lt _ _)) by len. done. }
    replace (zlen (L ++ M ++ [x]) - 1) with (zlen (L ++ M)) by len.
    rewrite <- !app_assoc. rewrite (app_assoc L M). cbn [app]. rewrite aget_mid by done.
    cbn [get obind]. rewrite <- app_assoc. rewrite (IH (x :: R)); [|done|len].
    by rewrite reverse_app, reverse_singleton, <- app_assoc.
Qed.

Lemma skip_lines_ok (start : Z) : forall fuel j, start <= j + 1 -> j - start < Z.of_nat fuel + 1 ->
  start <= j -> skip_lines fuel j start = Ok (start - 1).
Proof.
  induction fuel as [|f IH]; intros j H1 H2 H3; cbn [skip_lines];
    destruct (Z.leb_spec start (j - 1)); try lia; [f_equal; lia|apply IH; lia|f_equal; lia].
Qed.

Definition dot : line := bs ".".

Lemma find_dot_ok (A : list line) : forall fuel D0 D1, dot ∉ A -> (length A <= fuel)%nat ->
  let diff := D0 ++ A ++ dot :: D1 in
  find_dot fuel diff (zlen diff) (zlen D0) = Ok (zlen D0 + zlen A).
Proof.
  induction A as [|x A IH]; intros fuel D0 D1 HA Hf; cbn zeta; cbn [app].
  - assert ((zlen D0 <? zlen (D0 ++ dot :: D1)) = true) as E by (apply Z.ltb_lt; len).
    destruct fuel; cbn [find_dot]; rewrite E, aget_mid by done; cbn [get obind];
      unfold line_str_eq; rewrite lines_eq_refl; f_equal; unfold zlen; cbn; lia.
  - apply not_elem_of_cons in HA as [Hx HA]. destruct fuel as [|f]; [len|]. cbn [find_dot].
    rewrite (proj2 (Z.ltb_lt _ _)) by len. rewrite aget_mid by done. cbn [get obind].
    assert (line_str_eq x (bs ".") = false) as ->.
    { unfold line_str_eq. destruct (lines_eq x (bs ".")) eqn:E; [|done].
      apply lines_eq_spec in E. by destruct Hx. }
    destruct (Z.eqb_spec (zlen D0 + 1) (zlen (D0 ++ x :: A ++ dot :: D1))); [len|].
    pose proof (IH f (D0 ++ [x]) D1 HA ltac:(len)) as H. cbn zeta in H.
    rewrite <- app_assoc in H. cbn [app] in H.
    replace (zlen (D0 ++ [x])) with (zlen D0 + 1) in H by len. rewrite H. f_equal. len.
Qed.

Lemma add_reversed_ok (D0 : list line) (A : list line) : forall fuel D1 acc,
  (length A <= fuel)%nat ->
  add_reversed fuel (D0 ++ A ++ D1) (zlen D0 + zlen A - 1) (zlen D0 - 1) acc
  = Ok (acc ++ reverse A).
Proof.
  induction A as [|x A IH] using rev_ind; intros fuel D1 acc Hf.
  - replace (zlen D0 + zlen [] - 1) with (zlen D0 - 1) by len.
    destruct fuel; cbn [add_reversed]; rewrite Z.ltb_irrefl; by rewrite reverse_nil, app_nil_r.
  - destruct fuel as [|f]; [len|]. cbn [add_reversed]. rewrite (proj2 (Z.ltb_lt _ _)) by len.
    rewrite <- app_assoc. cbn [app].
    replace (zlen D0 + zlen (A ++ [x]) - 1) with (zlen (D0 ++ A)) by len.
    rewrite (app_assoc D0 A (x :: D1)) at 1. rewrite aget_mid by done. cbn [get obind].
    replace (zlen (D0 ++ A) - 1) with (zlen D0 + zlen A - 1) by len. rewrite IH by len.
    by rewrite reverse_app, reverse_singleton, <- app_assoc.
Qed.

(** One hunk of the script: [D] deleted, [A] added. *)
Definition hunk (start : nat) (D A : list line) : list line :=
  match A with
  | [] => [ed_text start (length D) false]
  | _ => ed_text start (length D) true :: A ++ [dot]
  end.

Lemma apply_hunk (La D M R A D0 D1 : list line) (f : nat) (acc : list line) :
  D <> [] \/ A <> [] -> dot ∉ A -> zlen (La ++ D ++ M ++ R) <= INT32_MAX ->
  let cons1 := La ++ D ++ M ++ R in
  let diff := D0 ++ hunk (length La) D A ++ D1 in
  apply_loop (S f) cons1 diff (zlen D0) (zlen (La ++ D ++ M)) acc
  = apply_loop f cons1 diff (zlen (D0 ++ hunk (length La) D A)) (zlen La)
      (acc ++ reverse M ++ reverse A).
Proof.
  intros Hne HA Hlen. cbn zeta. set (cons1 := La ++ D ++ M ++ R).
  set (adds := match A with [] => false | _ => true end).
  assert (Hh : exists tl, hunk (length La) D A = ed_text (length La) (length D) adds :: tl)
    by (unfold hunk, adds; destruct A; eauto).
  destruct Hh as [tl Hh].
  cbn [apply_loop]. rewrite (proj2 (Z.ltb_lt _ _)) by (rewrite Hh; len).
  rewrite Hh at 1. cbn [app]. rewrite aget_mid by done. cbn [get obind].
  rewrite parse_ed_text.
  2:{ len. }
  2:{ unfold adds. destruct A; [left|by right]. destruct D; [by destruct Hne|]. cbn. lia. }
  cbn [obind]. unfold ed_read. cbn [c_start c_end c_action].
  replace cons1 with ((La ++ D) ++ M ++ R) by (unfold cons1; by rewrite <- app_assoc).
  replace (La ++ D ++ M) with ((La ++ D) ++ M) by (by rewrite <- app_assoc).
  rewrite copy_down_ok by len. cbn [obind].
  assert (Hskip : (if (b2z (ed_action (length D) adds) =? 99) || (b2z (ed_action (length D) adds) =? 100)
     then skip_lines (length ((La ++ D) ++ M ++ R)) (Z.of_nat (length La + length D))
            (if (length D =? 0)%nat then Z.of_nat (length La) else Z.of_nat (length La) + 1)
     else Ok (Z.of_nat (length La + length D))) = Ok (zlen La)).
  { unfold ed_action. destruct (Nat.eqb_spec (length D) 0) as [E|E].
    - assert (adds = true) as -> by (unfold adds; destruct A; [|done]; destruct D; [by destruct Hne|done]).
      cbn. f_equal. unfold zlen. lia.
    - destruct adds; cbn; rewrite skip_lines_ok by len; f_equal; len. }
  rewrite Hskip. cbn [obind].
  destruct (decide (A = [])) as [->|HAne].
  - unfold adds, ed_action. cbn [obind]. change (b2z "d"%char =? 97) with false.
    change (b2z "d"%char =? 99) with false. cbn [orb obind].
    rewrite reverse_nil, app_nil_r. f_equal. unfold hunk. len.
  - replace adds with true by (unfold adds; by destruct A).
    assert (HA0 : (0 < length A)%nat) by (destruct A; [done|cbn; lia]).
    assert ((b2z (ed_action (length D) true) =? 97) || (b2z (ed_action (length D) true) =? 99)
            = true) as ->.
    { unfold ed_action. by destruct (length D =? 0)%nat. }
    assert (Eh : hunk (length La) D A = ed_text (length La) (length D) true :: A ++ [dot])
      by (unfold hunk; by destruct A).
    rewrite Eh. set (cmd := ed_text _ _ _). cbn [app]. rewrite <- !app_assoc. cbn [app].
    pose proof (find_dot_ok A (length (D0 ++ cmd :: A ++ dot :: D1)) (D0 ++ [cmd]) D1 HA ltac:(len))
      as Hd. cbn zeta in Hd. rewrite <- app_assoc in Hd. cbn [app] in Hd.
    replace (zlen (D0 ++ [cmd])) with (zlen D0 + 1) in Hd by len. rewrite Hd. cbn [obind].
    destruct (Z.eqb_spec (zlen D0 + 1 + zlen A - 1) (zlen D0)); [len|].
    pose proof (add_reversed_ok (D0 ++ [cmd]) A (length (D0 ++ cmd :: A ++ dot :: D1)) (dot :: D1)
      (acc ++ reverse M) ltac:(len)) as Hr. rewrite <- app_assoc in Hr. cbn [app] in Hr.
    replace (zlen (D0 ++ [cmd])) with (zlen D0 + 1) in Hr by len.
    replace (zlen D0 + 1 - 1) with (zlen D0) in Hr by lia. rewrite Hr. cbn [obind].
    rewrite <- !app_assoc. f_equal. len.
Qed.

(** ** What a script does *)

(** [d] rewrites [L1] into [L2], wherever it stands in a script and whatever unchanged lines
    [M] are still to be copied below [L1]. *)
Definition applies (L1 L2 d : list line) : Prop :=
  forall D0 M R acc f, zlen (L1 ++ M ++ R) <= INT32_MAX -> (length d <= f)%nat ->
  let cons1 := L1 ++ M ++ R in
  (let* (j, c) := apply_loop f cons1 (D0 ++ d) (zlen D0) (zlen (L1 ++ M)) acc in
   copy_down (length cons1) cons1 j 0 c) = Ok (0, acc ++ reverse (L2 ++ M)).

Lemma apply_loop_end (f : nat) (cons1 D0 : list line) (j : Z) (acc : list line) :
  apply_loop f cons1 D0 (zlen D0) j acc = Ok (j, acc).
Proof. destruct f; cbn [apply_loop]; by rewrite Z.ltb_irrefl. Qed.

Lemma applies_nil (L : list line) : applies L L [].
Proof.
  intros D0 M R acc f _ _. cbn zeta. rewrite app_nil_r, apply_loop_end. cbn [obind].
  pose proof (copy_down_ok [] R 0 (L ++ M) (length (L ++ M ++ R)) acc eq_refl) as H.
  cbn [app] in H. rewrite <- app_assoc in H. rewrite H by len. done.
Qed.

Lemma applies_keep (L1 L2 d : list line) (x : line) :
  applies L1 L2 d -> applies (L1 ++ [x]) (L2 ++ [x]) d.
Proof.
  intros H D0 M R acc f. specialize (H D0 (x :: M) R acc f). cbn [app] in H.
  rewrite <- !app_assoc. cbn [app]. exact H.
Qed.

Lemma applies_hunk (La D A L2a d : list line) :
  D <> [] \/ A <> [] -> dot ∉ A -> applies La L2a d ->
  applies (La ++ D) (L2a ++ A) (hunk (length La) D A ++ d).
Proof.
  intros Hne HA H D0 M R acc f Hlen Hf. cbn zeta. rewrite <- !app_assoc in *.
  destruct f as [|f]; [unfold hunk in Hf; destruct A; len|].
  rewrite apply_hunk by done.
  specialize (H (D0 ++ hunk (length La) D A) [] (D ++ M ++ R) (acc ++ reverse M ++ reverse A) f).
  cbn [app] in H. rewrite !app_nil_r, <- !app_assoc in H. rewrite H; [|done|].
  - rewrite !reverse_app, <- !app_assoc. done.
  - unfold hunk in Hf. destruct A; len.
Qed.

Lemma add_lines_ok (A : list line) : forall L R res,
  add_lines (length A) (L ++ A ++ R) (zlen L) res
  = if decide (dot ∈ A) then Err else Ok (res ++ A).
Proof.
  induction A as [|x A IH]; intros L R res; cbn [add_lines length app].
  - destruct (decide _) as [E|]; [by apply elem_of_nil in E|]. by rewrite app_nil_r.
  - rewrite aget_mid by done. cbn [get obind]. unfold line_str_eq.
    destruct (lines_eq x (bs ".")) eqn:E.
    + apply lines_eq_spec in E as ->. change (bs ".") with dot.
      rewrite decide_True; [done|]. apply list_elem_of_here.
    + assert (Hx : x <> dot) by (intros ->; by rewrite lines_eq_refl in E).
      specialize (IH (L ++ [x]) R (res ++ [x])). rewrite <- !app_assoc in IH. cbn [app] in IH.
      replace (zlen (L ++ [x])) with (zlen L + 1) in IH by len. rewrite IH.
      destruct (decide (dot ∈ A)) as [E1|E1], (decide (dot ∈ x :: A)) as [E2|E2]; try done.
      * destruct E2. by apply list_elem_of_further.
      * apply elem_of_cons in E2 as [E2|E2]; [by subst x|done].
Qed.

Lemma emit_hunk_ok (start : nat) (D A L2a R2 result : list line) : D <> [] \/ A <> [] ->
  emit_hunk (L2a ++ A ++ R2) (Z.of_nat start) (zlen L2a) (zlen L2a + zlen A - 1)
    (zlen A) (zlen D) result
  = if decide (dot ∈ A) then Err else Ok (result ++ hunk start D A).
Proof.
  intros Hne. unfold emit_hunk, hunk, ed_text, ed_action, range_cmd.
  destruct A as [|a A].
  - change (zlen [] =? 0) with true. cbn iota.
    destruct (decide _) as [E|]; [by apply elem_of_nil in E|].
    destruct Hne as [Hne|]; [|done]. destruct D as [|x [|y D]]; [done|done|].
    destruct (Z.eqb_spec (zlen (x :: y :: D)) 1) as [E1|_]; [len|]. cbn [length Nat.eqb].
    reflexivity.
  - destruct (Z.eqb_spec (zlen (a :: A)) 0); [len|].
    replace (Z.to_nat (zlen L2a + zlen (a :: A) - 1 - zlen L2a + 1)) with (length (a :: A)) by len.
    rewrite add_lines_ok. destruct (decide _); [done|]. cbn [obind]. f_equal.
    rewrite <- !app_assoc. f_equal. cbn [app]. f_equal.
    destruct D as [|x [|y D]]; [done|done|].
    destruct (Z.eqb_spec (zlen (x :: y :: D)) 0); [len|].
    destruct (Z.eqb_spec (zlen (x :: y :: D)) 1); [len|done].
Qed.

(** The lines a script is made of: commands, dots and lines of the target. *)
Definition from_script (n : nat) (L2 : list line) (x : line) : Prop :=
  x ∈ L2 \/ x = dot \/ exists start del adds, (start + del <= n)%nat /\ x = ed_text start del adds.

Lemma from_script_mono (n n' : nat) (L2 L2' d : list line) : (n <= n')%nat ->
  Forall (from_script n L2) d -> Forall (from_script n' (L2 ++ L2')) d.
Proof.
  intros Hn Hd. eapply Forall_impl; [exact Hd|]. intros x [Hx|[->|(s & dl & b & ? & ->)]].
  - left. apply elem_of_app. by left.
  - right. by left.
  - do 2 right. exists s, dl, b. split; [lia|done].
Qed.

Lemma from_script_hunk (La D L2a A : list line) :
  Forall (from_script (length (La ++ D)) (L2a ++ A)) (hunk (length La) D A).
Proof.
  assert (Hc : forall b, from_script (length (La ++ D)) (L2a ++ A) (ed_text (length La) (length D) b)).
  { intros b. do 2 right. exists (length La), (length D), b. split; [len|done]. }
  unfold hunk. destruct A as [|a A]; [by constructor|]. constructor; [done|].
  apply Forall_app. split; [|constructor; [right; by left|done]].
  apply Forall_forall. intros x Hx. left. apply elem_of_app. by right.
Qed.

Section emit.
Context {T : Type} `{BitArrayLaws T}.

Lemma ba_is_set_mid (ch : T) (p s : list bool) (b : bool) (i : Z) : i = zlen p ->
ba_repr ch (p ++ b :: s) -> ba_is_set ch i = Ok b.
Proof.
intros -> Hr. unfold zlen. apply (ba_repr_is_set ch (p ++ b :: s)); [done|].
by apply list_lookup_middle.
Qed.

Lemma back_changed_ok (ch : T) (pre : list bool) : forall fuel post,
ba_repr ch (pre ++ post) -> (length pre <= fuel)%nat ->
exists b0 k, back_changed fuel ch (zlen pre - 1) = Ok (zlen b0 - 1) /\
  pre = b0 ++ replicate k true /\ (b0 = [] \/ exists b', b0 = b' ++ [false]).
Proof.
induction pre as [|b pre IH] using rev_ind; intros fuel post Hr Hf.
- exists [], 0%nat. split; [|by split; [|left]]. by destruct fuel.
- destruct fuel as [|f]; [len|]. cbn [back_changed].
  rewrite (proj2 (Z.leb_le _ _)) by len. rewrite <- app_assoc in Hr. cbn [app] in Hr.
  rewrite (ba_is_set_mid ch pre post b) by (done || len). cbn [obind]. destruct b.
  + replace (zlen (pre ++ [true]) - 1 - 1) with (zlen pre - 1) by len.
    destruct (IH f (true :: post) Hr) as (b0 & k & -> & -> & Hb0); [len|]. exists b0, (S k).
    split; [done|]. split; [|done]. by rewrite replicate_S_end, app_assoc.
  + exists (pre ++ [false]), 0%nat. split; [done|]. rewrite app_nil_r. split; [done|].
    right. by exists pre.
Qed.

Lemma bit_and_in_ok (ch : T) (B post : list bool) : ba_repr ch (B ++ post) ->
(B = [] /\ bit_and_in ch (zlen B - 1) = Ok false) \/
exists B' b, B = B' ++ [b] /\ bit_and_in ch (zlen B - 1) = Ok b.
Proof.
intros Hr. unfold bit_and_in. destruct B as [|b0 B0] eqn:E; [by left|right].
rewrite <- E in *. destruct (snoc_inv B) as (B' & b & ->); [by rewrite E|]. exists B', b.
split; [done|]. rewrite (proj2 (Z.leb_le _ _)) by len. rewrite <- app_assoc in Hr.
apply (ba_is_set_mid ch B' post b); [len|done].
Qed.

Lemma split_same_length {A B} (l : list A) (b1 b2 : list B) : length l = length (b1 ++ b2) ->
exists l1 l2, l = l1 ++ l2 /\ length l1 = length b1 /\ length l2 = length b2.
Proof.
intros Hl. exists (take (length b1) l), (drop (length b1) l). rewrite take_drop.
rewrite length_app in Hl. rewrite length_take, length_drop. split; [done|]. lia.
Qed.

Lemma emit_loop_ok : forall fuel L1 B1 post1 L2 R2 B2 post2 ch1 ch2 result,
length L1 = length B1 -> length L2 = length B2 ->
ba_repr ch1 (B1 ++ post1) -> ba_repr ch2 (B2 ++ post2) -> kept L1 B1 = kept L2 B2 ->
(length L1 + length L2 <= fuel)%nat ->
safe (fun d' => exists d, d' = result ++ d /\ applies L1 L2 d /\
                          Forall (from_script (length L1) L2) d)
  (emit_loop fuel (L2 ++ R2) ch1 ch2 (zlen L1 - 1) (zlen L2 - 1) result).
Proof.
induction fuel as [|f IH];
  intros L1 B1 post1 L2 R2 B2 post2 ch1 ch2 result Hl1 Hl2 H1 H2 Hk Hf.
{ destruct L1; [|simpl in Hf; lia]. destruct L2; [|simpl in Hf; lia]. cbn.
  exists []. rewrite app_nil_r. split; [done|]. split; [apply applies_nil|done]. }
cbn [emit_loop].
destruct ((0 <=? zlen L1 - 1) || (0 <=? zlen L2 - 1)) eqn:E.
2:{ apply orb_false_iff in E as [E1%Z.leb_gt E2%Z.leb_gt].
    destruct L1; [|len]. destruct L2; [|len]. cbn. exists []. rewrite app_nil_r.
    split; [done|]. split; [apply applies_nil|done]. }
assert (Z1 : zlen L1 = zlen B1) by (unfold zlen; lia).
assert (Z2 : zlen L2 = zlen B2) by (unfold zlen; lia).
assert (Hbits : exists b1 b2, bit_and_in ch1 (zlen L1 - 1) = Ok b1 /\
  bit_and_in ch2 (zlen L2 - 1) = Ok b2 /\
  (b1 = false -> B1 = [] \/ exists B1', B1 = B1' ++ [false]) /\
  (b2 = false -> B2 = [] \/ exists B2', B2 = B2' ++ [false]) /\
  (b1 = true -> exists B1', B1 = B1' ++ [true]) /\
  (b2 = true -> exists B2', B2 = B2' ++ [true])).
{ rewrite Z1, Z2.
  destruct (bit_and_in_ok ch1 B1 post1 H1) as [[-> ->]|(B1' & b1 & -> & ->)];
  destruct (bit_and_in_ok ch2 B2 post2 H2) as [[-> ->]|(B2' & b2 & -> & ->)];
  do 2 eexists; (split; [done|]); (split; [done|]); repeat split; intros; subst; eauto; done. }
destruct Hbits as (b1 & b2 & -> & -> & F1 & F2 & T1 & T2). cbn [obind].
destruct (negb b1 && negb b2) eqn:Eb.
- apply andb_true_iff in Eb as [->%negb_true_iff ->%negb_true_iff].
  specialize (F1 eq_refl). specialize (F2 eq_refl). clear T1 T2.
  assert (Hx : exists x L1' L2' B1' B2', L1 = L1' ++ [x] /\ L2 = L2' ++ [x] /\
    B1 = B1' ++ [false] /\ B2 = B2' ++ [false] /\ length L1' = length B1' /\
    length L2' = length B2' /\ kept L1' B1' = kept L2' B2').
  { apply orb_true_iff in E.
    destruct F1 as [->|[B1' ->]], F2 as [->|[B2' ->]].
    - rewrite Z1, Z2 in E. destruct E as [E|E]; vm_compute in E; discriminate.
    - destruct L1; [|done].
      destruct (split_same_length L2 B2' [false] Hl2) as (L2' & [|y [|]] & -> & ? & ?); try done.
      rewrite kept_app in Hk by done. cbn in Hk. by destruct (kept L2' B2').
    - destruct L2; [|done].
      destruct (split_same_length L1 B1' [false] Hl1) as (L1' & [|y [|]] & -> & ? & ?); try done.
      rewrite kept_app in Hk by done. cbn in Hk. by destruct (kept L1' B1').
    - destruct (split_same_length L1 B1' [false] Hl1) as (L1' & [|y [|]] & -> & ? & ?); try done.
      destruct (split_same_length L2 B2' [false] Hl2) as (L2' & [|z [|]] & -> & ? & ?); try done.
      rewrite !kept_app in Hk by done. cbn in Hk. apply app_inj_tail in Hk as [Hk ->].
      by exists z, L1', L2', B1', B2'. }
  destruct Hx as (x & L1' & L2' & B1' & B2' & -> & -> & -> & -> & Hl1' & Hl2' & Hk').
  rewrite !(proj2 (Z.leb_le 0 _)) by len. rewrite <- !app_assoc in *.
  replace (zlen (L1' ++ [x]) - 1 - 1) with (zlen L1' - 1) by len.
  replace (zlen (L2' ++ [x]) - 1 - 1) with (zlen L2' - 1) by len.
  eapply safe_mono; [eapply IH; try done; len|].
  intros d' (d & -> & Hd & Hs). exists d. split; [done|]. split; [by apply applies_keep|].
  apply (from_script_mono (length L1')); [len|done].
- clear F1 F2.
  assert (Hends : forall (B c : list bool) k, B = c ++ replicate k true ->
    (c = [] \/ exists c', c = c' ++ [false]) -> (exists B', B = B' ++ [true]) -> (0 < k)%nat).
  { intros B c [|k] EB Hc [B' EB']; [|lia]. rewrite app_nil_r in EB. subst c.
    rewrite EB' in Hc. destruct Hc as [Hc|[c' Hc]].
    - by apply app_nil in Hc as [_ ?].
    - by apply app_inj_tail in Hc as [_ ?]. }
  destruct (back_changed_ok ch1 B1 (S (Z.to_nat (zlen L1 - 1))) post1 H1) as (c1 & k1 & Hb1 & E1 & S1);
    [unfold zlen in *; lia|].
  destruct (back_changed_ok ch2 B2 (S (Z.to_nat (zlen L2 - 1))) post2 H2) as (c2 & k2 & Hb2 & E2 & S2);
    [unfold zlen in *; lia|].
  rewrite <- Z1 in Hb1. rewrite <- Z2 in Hb2. rewrite Hb1, Hb2. cbn [obind].
  assert (Hne : (0 < k1)%nat \/ (0 < k2)%nat).
  { apply andb_false_iff in Eb as [->%negb_false_iff| ->%negb_false_iff];
      [left|right]; eapply Hends; eauto. }
  clear Hends T1 T2 Eb. subst B1 B2.
  destruct (split_same_length L1 c1 (replicate k1 true) Hl1) as (La & D & -> & HLa & HD).
  destruct (split_same_length L2 c2 (replicate k2 true) Hl2) as (L2a & A & -> & HL2a & HA).
  rewrite !kept_app, !kept_true, !app_nil_r in Hk by done.
  rewrite length_replicate in HD, HA.
  assert (HneDA : D <> [] \/ A <> []).
  { destruct Hne; [left|right]; intros ->; simpl in *; lia. }
  rewrite <- !app_assoc in *.
  replace (zlen c1 - 1 + 1) with (Z.of_nat (length La)) by (unfold zlen; lia).
  replace (zlen c2 - 1 + 1) with (zlen L2a) by (unfold zlen; lia).
  replace (zlen (L2a ++ A) - 1) with (zlen L2a + zlen A - 1) by len.
  replace (zlen L2a + zlen A - 1 - (zlen c2 - 1)) with (zlen A) by (unfold zlen; lia).
  replace (zlen (La ++ D) - 1 - (zlen c1 - 1)) with (zlen D) by len.
  rewrite emit_hunk_ok by done. destruct (decide (dot ∈ A)) as [|Hdot]; [done|]. cbn [obind].
  replace (zlen c1 - 1) with (zlen La - 1) by (unfold zlen; lia).
  replace (zlen c2 - 1) with (zlen L2a - 1) by (unfold zlen; lia).
  eapply safe_mono; [eapply (IH La c1 _ L2a (A ++ R2) c2); try done|].
  { rewrite !length_app in Hf. destruct HneDA; [destruct D|destruct A]; try done; simpl in *; lia. }
  intros d' (d & -> & Hd & Hs). exists (hunk (length La) D A ++ d).
  split; [by rewrite app_assoc|]. split; [by apply applies_hunk|].
  apply Forall_app. split; [apply from_script_hunk|].
  apply (from_script_mono (length La)); [len|done].
Qed.
End emit.

(** ** The trailer *)

Lemma find_signature_ok (cons : list line) : forall idx, 0 <= idx ->
  find_signature cons idx = -1 \/
  exists P x R, cons = P ++ x :: R /\ find_signature cons idx = idx + zlen P.
Proof.
  induction cons as [|x cons IH]; intros idx Hi; cbn [find_signature]; [by left|].
  destruct (line_starts_with_str x _).
  - right. exists [], x, cons. split; [done|]. unfold zlen. cbn. lia.
  - destruct (IH (idx + 1)) as [->|(P & y & R & -> & ->)]; [lia|by left|]. right.
    exists (x :: P), y, R. split; [done|]. len.
Qed.

Lemma del_trailer_ok (P : list line) : forall fuel R, (length R <= fuel)%nat ->
  del_trailer fuel (P ++ R) (zlen P) = Ok P.
Proof.
  induction fuel as [|f IH]; intros R Hf.
  { destruct R; [|simpl in Hf; lia]. rewrite app_nil_r. cbn. by rewrite Z.ltb_irrefl. }
  destruct R as [|x R]; cbn [del_trailer].
  { rewrite app_nil_r. by rewrite Z.ltb_irrefl. }
  rewrite (proj2 (Z.ltb_lt _ _)) by len. unfold smartlist_del_line, tor_assert.
  rewrite (proj2 (Z.leb_le _ _)), (proj2 (Z.ltb_lt _ _)) by len. cbn [andb].
  destruct (aget_lt (P ++ x :: R) (zlen (P ++ x :: R) - 1)) as (y & -> & _); [len|].
  cbn [get obind]. unfold aset. rewrite (proj2 (Z.ltb_ge _ _)), (proj2 (Z.leb_gt _ _)) by len.
  cbn [orb obind]. replace (Z.to_nat (zlen P)) with (length P) by (unfold zlen; lia).
  rewrite !insert_app_r_alt, Nat.sub_diag by lia.
  change (<[0%nat:=y]> (x :: R)) with (y :: R).
  assert (Ht : exists R', take (length (P ++ y :: R) - 1) (P ++ y :: R) = P ++ R' /\
                          length R' = length R).
  { exists (take (length R) (y :: R)). rewrite take_app_ge by len.
    split; [f_equal; f_equal; len|]. len. }
  destruct Ht as (R' & -> & Hl). apply IH. simpl in Hf. lia.
Qed.

(** The first signature line, when there is one, is the last line of the document. *)
Definition lone_signature (cons : list line) : bool :=
  let idx := find_signature cons 0 in (0 <=? idx) && (idx =? zlen cons - 1).

Lemma preprocess_ok (cons : list line) :
  (find_signature cons 0 = -1 /\ preprocess_consensus cons = Ok (cons, None)) \/
  exists P x R, cons = P ++ x :: R /\ find_signature cons 0 = zlen P /\
    preprocess_consensus cons = Ok (P, Some (print_int (zlen P + 1) ++ bs ",$d")).
Proof.
  unfold preprocess_consensus.
  destruct (find_signature_ok cons 0) as [->|(P & x & R & E & ->)]; [lia|by left|right].
  exists P, x, R. split; [done|]. split; [lia|]. rewrite Z.add_0_l.
  rewrite (proj2 (Z.leb_le _ _)) by (unfold zlen; lia). subst cons.
  rewrite del_trailer_ok by len. done.
Qed.

Lemma parse_trailer_cmd (n j : Z) (k : Z) : 0 <= k < INT32_MAX -> j = n ->
  parse_ed_command n j (print_int (k + 1) ++ bs ",$d")
  = if n <=? k + 1 then Err else Ok {| c_start := k + 1; c_end := n; c_action := "d"%char |}.
Proof.
  intros Hk ->. unfold parse_ed_command.
  rewrite (proj2 (Z.ltb_ge _ _)).
  2:{ pose proof (print_int_length (k + 1) ltac:(lia)). unfold zlen. rewrite length_app.
      change (length (bs ",$d")) with 3%nat. lia. }
  rewrite get_linenum_print by (done || lia). cbn [obind].
  change (b2z (deref (bs ",$d")) =? 44) with true. cbn iota.
  change (b2z (deref (drop 1 (bs ",$d"))) =? 36) with true. cbn iota. cbn [obind].
  destruct (n <=? k + 1); [done|]. cbn [obind]. by rewrite Z.ltb_irrefl.
Qed.

(** ** Generation, then application *)

Section main.
Context {T : Type} `{BitArrayLaws T}.

(** The script for the body, once the trailer is off. *)
Lemma gen_body (cons1 cons2 : list line) (result : list line) :
zlen cons1 <= INT32_MAX -> zlen cons2 <= INT32_MAX ->
safe (fun d' => exists d, d' = result ++ d /\ applies cons1 cons2 d /\
                          Forall (from_script (length cons1) cons2) d)
  (let* (ch1, ch2) := diff_loop (T:=T) (length cons1 + length cons2 + 3) cons1 cons2 0 0
     {| g_i1 := -1; g_i2 := -1; g_iter1 := ROUTER_ID_ITERATOR_INIT;
        g_iter2 := ROUTER_ID_ITERATOR_INIT |}
     (ba_init_zero (zlen cons1)) (ba_init_zero (zlen cons2)) in
   emit_loop (length cons1 + length cons2 + 1) cons2 ch1 ch2 (zlen cons1 - 1) (zlen cons2 - 1)
     result).
Proof.
intros Hn1 Hn2. set (g := {| g_i1 := -1; g_i2 := -1; g_iter1 := _; g_iter2 := _ |}).
eapply safe_bind.
- apply (diff_loop_ok cons1 cons2 _ g).
  + repeat split; simpl; unfold zlen; try lia; done.
  + simpl. unfold zlen. lia.
  + exists [], []. simpl. rewrite !Nat.sub_0_r. repeat split; try done;
      apply ba_repr_zero; unfold zlen, INT32_MAX, INT_MAX in *; lia.
- intros [ch1 ch2] (p1 & p2 & Hp1 & Hp2 & H1 & H2 & Hk). unfold zlen in Hp1, Hp2.
  rewrite !take_ge in Hk by lia.
  replace (length cons1 - length p1)%nat with 0%nat in H1 by lia.
  replace (length cons2 - length p2)%nat with 0%nat in H2 by lia.
  pose proof (emit_loop_ok (length cons1 + length cons2 + 1) cons1 p1 [] cons2 [] p2 []
    ch1 ch2 result) as He. rewrite (app_nil_r cons2) in He. apply He; try done; lia.
Qed.

Lemma apply_ed_diff_unfold (cons1 diff cons2 : list line) (i : Z) :
(let* (j, c) := apply_loop (length diff) cons1 diff i (zlen cons1) [] in
 copy_down (length cons1) cons1 j 0 c) = Ok (0, reverse cons2) ->
apply_ed_diff cons1 diff i = Ok cons2.
Proof.
unfold apply_ed_diff. destruct (apply_loop _ _ _ _ _ _) as [[j c]| |]; cbn [obind]; try done.
intros ->. cbn [obind]. by rewrite reverse_involutive.
Qed.

Lemma applies_whole (cons1 cons2 d D0 : list line) : zlen cons1 <= INT32_MAX ->
applies cons1 cons2 d -> apply_ed_diff cons1 (D0 ++ d) (zlen D0) = Ok cons2.
Proof.
intros Hn Ha. apply apply_ed_diff_unfold.
specialize (Ha D0 [] [] [] (length (D0 ++ d))). cbn zeta in Ha. rewrite !app_nil_r in Ha.
apply Ha; [done|len].
Qed.

(** The trailer command, then the body's script. *)
Lemma applies_trailer (P : list line) (x : line) (R cons2 d D0 : list line) :
zlen (P ++ x :: R) <= INT32_MAX -> applies P cons2 d ->
apply_ed_diff (P ++ x :: R) (D0 ++ (print_int (zlen P + 1) ++ bs ",$d") :: d) (zlen D0)
= match R with [] => Err | _ => Ok cons2 end.
Proof.
intros Hn Ha. set (cmd := print_int _ ++ _). set (diff := D0 ++ cmd :: d).
assert (Hstep : forall f acc, apply_loop (S f) (P ++ x :: R) diff (zlen D0) (zlen (P ++ x :: R)) acc
  = match R with [] => Err
    | _ => apply_loop f (P ++ x :: R) diff (zlen (D0 ++ [cmd])) (zlen P) acc end).
{ intros f acc. cbn [apply_loop]. rewrite (proj2 (Z.ltb_lt _ _)) by (unfold diff; len).
  assert (aget diff (zlen D0) = Some cmd) as -> by (by apply aget_mid).
  cbn [get obind]. unfold cmd at 1. rewrite parse_trailer_cmd by (done || len).
  destruct R as [|y R].
  - rewrite (proj2 (Z.leb_le _ _)) by len. done.
  - rewrite (proj2 (Z.leb_gt _ _)) by len. cbn [obind c_start c_end c_action].
    assert (Hc : copy_down (length (P ++ x :: y :: R)) (P ++ x :: y :: R)
      (zlen (P ++ x :: y :: R)) (zlen (P ++ x :: y :: R)) acc
      = Ok (zlen (P ++ x :: y :: R), acc)).
    { pose proof (copy_down_ok (P ++ x :: y :: R) [] _ [] (length (P ++ x :: y :: R)) acc eq_refl) as Hc.
      rewrite !app_nil_r in Hc. apply Hc. simpl. lia. }
    rewrite Hc. cbn [obind]. change (b2z "d"%char =? 99) with false.
    change (b2z "d"%char =? 100) with true. cbn [orb]. rewrite skip_lines_ok by len.
    cbn [obind]. change (b2z "d"%char =? 97) with false. cbn [orb obind]. f_equal; len. }
destruct R as [|y R].
- unfold apply_ed_diff. destruct (length diff) as [|f] eqn:E; [unfold diff in E; len|].
  by rewrite Hstep.
- apply apply_ed_diff_unfold. destruct (length diff) as [|f] eqn:E; [unfold diff in E; len|].
  rewrite Hstep. unfold diff. rewrite (cons_middle cmd D0 d), (app_assoc D0 [cmd] d).
  specialize (Ha (D0 ++ [cmd]) [] (x :: y :: R) [] f). cbn [app] in Ha. cbn zeta in Ha.
  rewrite !app_nil_r in Ha. apply Ha; [done|]. unfold diff in E. len.
Qed.

Definition from_gen (cons1 cons2 : list line) (x : line) : Prop :=
from_script (length cons1) cons2 x \/
exists k, 0 <= k < zlen cons1 /\ x = print_int (k + 1) ++ bs ",$d".

Lemma gen_ed_diff_ok (cons1 cons2 : list line) :
zlen cons1 <= INT32_MAX -> zlen cons2 <= INT32_MAX ->
safe (fun d => (forall D0, apply_ed_diff cons1 (D0 ++ d) (zlen D0)
                = if lone_signature cons1 then Err else Ok cons2) /\
               Forall (from_gen cons1 cons2) d) (gen_ed_diff (T:=T) cons1 cons2).
Proof.
intros Hn1 Hn2. unfold gen_ed_diff, lone_signature.
destruct (preprocess_ok cons1) as [[-> ->]|(P & x & R & -> & -> & ->)]; cbn [obind].
- eapply safe_mono; [by apply gen_body|]. intros d' (d & -> & Hd & Hs). cbn [app].
  split; [intros D0; by apply applies_whole|].
  eapply Forall_impl; [exact Hs|]. intros y Hy. by left.
- eapply safe_mono; [apply gen_body; [len|done]|]. intros d' (d & -> & Hd & Hs). cbn [app].
  split.
  + intros D0. rewrite (applies_trailer P x R cons2 d D0) by done.
    rewrite (proj2 (Z.leb_le _ _)) by (unfold zlen; lia).
    cbn [andb]. destruct R as [|y R].
    * rewrite (proj2 (Z.eqb_eq _ _)) by len. done.
    * rewrite (proj2 (Z.eqb_neq _ _)) by len. done.
  + constructor; [right; exists (zlen P); split; [len|done]|].
    eapply Forall_impl; [exact Hs|]. intros y Hy. left.
    pose proof (from_script_mono (length P) (length (P ++ x :: R)) cons2 [] [y]) as Hm.
    rewrite app_nil_r in Hm. specialize (Hm ltac:(len) ltac:(by constructor)).
    by apply Forall_cons in Hm as [? _].
Qed.
End main.

(** ** Application on any input *)

Lemma get_linenum_safe (s : bytes) : safe (fun '(z, _) => 0 <= z <= INT32_MAX) (get_linenum s).
Proof.
  unfold get_linenum. destruct (negb _); [done|].
  pose proof (tor_parse_long_bounds s 10 0 INT32_MAX true) as Hb.
  destruct (tor_parse_long s 10 0 INT32_MAX true) as [v ok next]. cbn [p_ok p_next p_val] in *.
  destruct ok; [|done]. destruct next as [rest|]; [|done]. by apply Hb.
Qed.

Lemma parse_ed_command_safe (n j : Z) (ln : line) : 0 <= n ->
  safe (fun c => 0 <= c_start c <= c_end c /\ c_end c <= j) (parse_ed_command n j ln).
Proof.
  intros Hn. unfold parse_ed_command. destruct (127 <? zlen ln); [done|].
  eapply safe_bind; [apply get_linenum_safe|]. intros [start ptr] Hstart.
  eapply (safe_bind (fun '(e, _, _, _) => start <= e)).
  { destruct (b2z (deref ptr) =? 44); [|simpl; lia].
    eapply (safe_bind (fun _ => True)).
    - destruct (b2z (deref (drop 1 ptr)) =? 36); [done|].
      eapply safe_bind; [apply get_linenum_safe|]. by intros [e p] _.
    - intros [[e b] p] _. destruct (Z.leb_spec e start); [done|]. simpl. lia. }
  intros [[[e hr] eof] p] He. destruct (Z.ltb_spec j e); [done|].
  repeat (case_match; [done|]). simpl. lia.
Qed.

Lemma copy_down_safe (cons1 : list line) (end_ : Z) : 0 <= end_ -> forall fuel j acc,
  j <= zlen cons1 -> j - end_ <= Z.of_nat fuel -> end_ <= j ->
  exists acc', copy_down fuel cons1 j end_ acc = Ok (end_, acc').
Proof.
  intros He. induction fuel as [|f IH]; intros j acc Hj Hf Hej; cbn [copy_down].
  - assert (end_ = j) as -> by lia. rewrite Z.ltb_irrefl, andb_false_r. eauto.
  - destruct (negb (j =? 0) && (end_ <? j)) eqn:E.
    + apply andb_true_iff in E as [_ E%Z.ltb_lt].
      destruct (aget_lt cons1 (j - 1)) as (x & -> & _); [unfold zlen in *; lia|]. cbn [get obind].
      apply IH; lia.
    + apply andb_false_iff in E as [E%negb_false_iff%Z.eqb_eq|E%Z.ltb_ge];
        [assert (end_ = j) as -> by lia; eauto|assert (end_ = j) as -> by lia; eauto].
Qed.

Lemma find_dot_safe (diff : list line) : forall fuel i, 0 <= i <= zlen diff ->
  zlen diff - i <= Z.of_nat fuel ->
  safe (fun r => i <= r <= zlen diff) (find_dot fuel diff (zlen diff) i).
Proof.
  induction fuel as [|f IH]; intros i Hi Hf; cbn [find_dot].
  - rewrite (proj2 (Z.ltb_ge _ _)) by lia. simpl. lia.
  - destruct (Z.ltb_spec i (zlen diff)); [|simpl; lia].
    destruct (aget_lt diff i) as (x & -> & _); [unfold zlen in *; lia|]. cbn [get obind].
    destruct (line_str_eq x (bs ".")); [simpl; lia|].
    destruct (Z.eqb_spec (i + 1) (zlen diff)); [done|].
    eapply safe_mono; [apply IH; lia|]. simpl. intros r ?. lia.
Qed.

Lemma add_reversed_safe (diff : list line) (added_end : Z) : -1 <= added_end ->
  forall fuel added_i acc, added_i < zlen diff -> added_i - added_end <= Z.of_nat fuel ->
  exists acc', add_reversed fuel diff added_i added_end acc = Ok acc'.
Proof.
  intros He. induction fuel as [|f IH]; intros i acc Hi Hf; cbn [add_reversed].
  - rewrite (proj2 (Z.ltb_ge _ _)) by lia. eauto.
  - destruct (Z.ltb_spec added_end i); [|eauto].
    destruct (aget_lt diff i) as (x & -> & _); [unfold zlen in *; lia|]. cbn [get obind].
    apply IH; lia.
Qed.

Lemma apply_loop_safe (cons1 diff : list line) : forall fuel i j acc,
  0 <= i -> zlen diff - i <= Z.of_nat fuel -> -1 <= j <= zlen cons1 ->
  safe (fun '(j', _) => -1 <= j' <= zlen cons1) (apply_loop fuel cons1 diff i j acc).
Proof.
  induction fuel as [|f IH]; intros i j acc Hi Hf Hj; cbn [apply_loop].
  { rewrite (proj2 (Z.ltb_ge _ _)) by lia. simpl. lia. }
  destruct (Z.ltb_spec i (zlen diff)); [|simpl; lia].
  destruct (aget_lt diff i) as (x & -> & _); [unfold zlen in *; lia|]. cbn [get obind].
  eapply safe_bind; [apply parse_ed_command_safe; unfold zlen; lia|]. intros cmd [Hc1 Hc2].
  destruct (copy_down_safe cons1 (c_end cmd) ltac:(lia) (length cons1) j acc) as (acc1 & ->);
    [lia|unfold zlen in *; lia|lia|]. cbn [obind].
  eapply (safe_bind (fun j' => -1 <= j' <= zlen cons1)).
  { destruct (_ || _); [|simpl; lia]. rewrite skip_lines_ok by (unfold zlen in *; lia). simpl. lia. }
  intros j' Hj'. eapply (safe_bind (fun '(i', _) => i <= i')).
  2:{ intros [i' acc2] Hi'. apply IH; lia. }
  destruct (_ || _); [|simpl; lia].
  eapply safe_bind; [apply find_dot_safe; unfold zlen in *; lia|]. intros r Hr. simpl in Hr.
  destruct (Z.eqb_spec (r - 1) i); [done|].
  destruct (add_reversed_safe diff i ltac:(lia) (length diff) (r - 1) acc1) as (acc2 & ->);
    [lia|unfold zlen in *; lia|]. simpl. lia.
Qed.

Lemma apply_ed_diff_safe (cons1 diff : list line) (i : Z) : 0 <= i ->
  safe (fun _ => True) (apply_ed_diff cons1 diff i).
Proof.
  intros Hi. unfold apply_ed_diff.
  eapply safe_bind; [apply apply_loop_safe; unfold zlen; lia|]. intros [j c] Hj.
  destruct (decide (j = -1)) as [->|].
  - assert (copy_down (length cons1) cons1 (-1) 0 c = Ok (-1, c)) as ->; [|done].
    by destruct (length cons1).
  - destruct (copy_down_safe cons1 0 ltac:(lia) (length cons1) j c) as (acc' & ->);
      [lia|unfold zlen in *; lia|lia|]. done.
Qed.

(** ** Properties *)

(** The diff generator is correct: for any two consensuses of at most [INT32_MAX] lines and any
    implementation of bit arrays, [gen_ed_diff] either refuses (mis-sorted router entries, a
    chunk over the line limit, a line ["."] to add) or returns an ed script that
    [apply_ed_diff], run from whatever header [D0] precedes the script, turns the base
    consensus into exactly the target, provided the signatures section of the base is not a single
    last line. No assertion fails, no index leaves its array and every loop ends. *)
Theorem gen_ed_diff_correct {T} `{BitArrayLaws T} (cons1 cons2 D0 : list line) :
  zlen cons1 <= INT32_MAX -> zlen cons2 <= INT32_MAX -> lone_signature cons1 = false ->
  match gen_ed_diff (T:=T) cons1 cons2 with
  | Ok d => apply_ed_diff cons1 (D0 ++ d) (zlen D0) = Ok cons2
  | Err => True
  | Stuck => False
  end.
Proof.
  intros H1 H2 Hl. pose proof (gen_ed_diff_ok (T:=T) cons1 cons2 H1 H2) as Hg.
  destruct (gen_ed_diff cons1 cons2); try done. destruct Hg as [Hg _]. by rewrite Hg, Hl.
Qed.

Definition ex_base : list line :=
  [bs "v 1"; bs "r a AAA x"; bs "s q"; bs "r b BBB y"; bs "directory-signature 1"; bs "zz"].
Definition ex_target : list line :=
  [bs "v 2"; bs "r a AAA x"; bs "s q2"; bs "r b BBB y"; bs "directory-signature 2"; bs "ww"].

Theorem gen_ed_diff_correct_witness :
  match gen_ed_diff (T:=bitarray_t) ex_base ex_target with
  | Ok d => apply_ed_diff ex_base ([bs "h1"; bs "h2"] ++ d) 2 = Ok ex_target
  | Err => True
  | Stuck => False
  end /\
  gen_ed_diff (T:=bitarray_t) ex_base ex_target
  = Ok [bs "5,$d"; bs "4a"; bs "directory-signature 2"; bs "ww"; bs ".";
        bs "3c"; bs "s q2"; bs "."; bs "1c"; bs "v 2"; bs "."].
Proof.
  split; [|vm_compute; reflexivity].
  apply (gen_ed_diff_correct (T:=bitarray_t) ex_base ex_target [bs "h1"; bs "h2"]);
    [vm_compute; discriminate|vm_compute; discriminate|vm_compute; reflexivity].
Defined.

(** C33: Applying a diff is safe on any input: whatever lines an attacker sends as a diff, [apply_ed_diff]
    never reads outside the base consensus or the diff, never loops forever, and returns a
    consensus or an error. *)
Theorem apply_ed_diff_any_input (cons1 diff : list line) (i : Z) : 0 <= i ->
  (exists cons2, apply_ed_diff cons1 diff i = Ok cons2) \/ apply_ed_diff cons1 diff i = Err.
Proof.
  intros Hi. pose proof (apply_ed_diff_safe cons1 diff i Hi) as Hs.
  destruct (apply_ed_diff cons1 diff i); [left; eauto|by right|done].
Qed.

Theorem apply_ed_diff_any_input_witness :
  ((exists cons2, apply_ed_diff [bs "a"] [bs "0d"; bs "0d"] 0 = Ok cons2) \/
   apply_ed_diff [bs "a"] [bs "0d"; bs "0d"] 0 = Err) /\
  apply_ed_diff [bs "a"] [bs "0d"] 0 = Ok [bs "a"].
Proof. split; [|reflexivity]. apply (apply_ed_diff_any_input [bs "a"] [bs "0d"; bs "0d"] 0). lia. Defined.

(** The case the generator gets wrong: when the base consensus ends with its only
    signature line, every script it produces begins with [<n>,$d] for the last line [n],
    which [apply_ed_diff] rejects as an empty range, so that the diff, although generated, cannot be
    applied. *)
Theorem gen_ed_diff_lone_signature {T} `{BitArrayLaws T} (cons1 cons2 d : list line) :
  zlen cons1 <= INT32_MAX -> zlen cons2 <= INT32_MAX -> lone_signature cons1 = true ->
  gen_ed_diff (T:=T) cons1 cons2 = Ok d -> apply_ed_diff cons1 d 0 = Err.
Proof.
  intros H1 H2 Hl Hd. pose proof (gen_ed_diff_ok (T:=T) cons1 cons2 H1 H2) as Hg.
  rewrite Hd in Hg. destruct Hg as [Hg _]. specialize (Hg []). by rewrite Hl in Hg.
Qed.

Theorem gen_ed_diff_lone_signature_witness :
  gen_ed_diff (T:=bitarray_t) [bs "v 1"; bs "directory-signature x"] [bs "v 1"] = Ok [bs "2,$d"] /\
  apply_ed_diff [bs "v 1"; bs "directory-signature x"] [bs "2,$d"] 0 = Err.
Proof.
  split; [vm_compute; reflexivity|].
  apply (gen_ed_diff_lone_signature (T:=bitarray_t) [bs "v 1"; bs "directory-signature x"] [bs "v 1"]);
    try (vm_compute; reflexivity); vm_compute; discriminate.
Defined.
