(* ===== verification/ConsDiffDoc.v ===== *)
(** * Consensus diffs as documents: the rest of [consdiff.c]

    Splitting a consensus into lines, the diff header with its two digests, and the
    two entry points [consensus_diff_generate] and [consensus_diff_apply]; the digest
    over the signed part comes from [dirparse/sigcommon.c] and [dirparse/ns_parse.c].
    SHA3-256 is OpenSSL's: a parameter. *)

From S2P Require Import Prelude ParseInt Bitarray DiOps Strings Smartutil Binascii.
From S2P Require Import ConsDiff ConsDiffFacts.

Definition HEX_DIGEST256_LEN : Z := 64.
Definition CONSENSUS_LINE_MAX_LEN : Z := 1048576.
Definition ns_diff_version : bytes := bs "network-status-diff-version 1".
Definition hash_token : bytes := bs "hash".

(** The bytes of a buffer up to its first NUL. *)
Fixpoint cstr (s : bytes) : bytes :=
  match s with c :: s' => if b2z c =? 0 then [] else c :: cstr s' | [] => [] end.

(** ** Lines *)

Fixpoint split_lines_loop (fuel : nat) (out : list line) (s : bytes) : outcome (list line) :=
  match s with
  | [] => Ok out
  | _ =>
      match fuel with
      | O => Stuck
      | S f =>
          match memchr s NL (length s) with
          | None => Err
          | Some eol =>
              if CONSENSUS_LINE_MAX_LEN <? Z.of_nat eol then Err
              else split_lines_loop f (out ++ [take eol s]) (drop (eol + 1) s)
          end
      end
  end.

Definition consensus_split_lines (s : bytes) : outcome (list line) :=
  split_lines_loop (length s) [] s.

Definition consensus_join_lines (inp : list line) : bytes := concat ((fun l => l ++ [NL]) <$> inp).

(** ** The signed part *)

(** Offsets of the start and of the end of the hashed material. *)
Definition router_get_hash_impl_helper (s start_str end_str : bytes) (end_c : ascii)
    : outcome (nat * nat) :=
  let* r := tor_memstr s start_str in
  match r with
  | None => Err
  | Some start =>
      if negb (start =? 0)%nat && negb (bool_decide (s !! (start - 1)%nat = Some NL)) then Err
      else
        let off := (start + length start_str)%nat in
        let* r := tor_memstr (drop off s) end_str in
        match r with
        | None => Err
        | Some e =>
            let off := (off + e + length end_str)%nat in
            match memchr (drop off s) end_c (length s - off) with
            | None => Err
            | Some k => Ok (start, (off + k + 1)%nat)
            end
        end
  end.

Definition router_get_networkstatus_v3_signed_boundaries (s : bytes) : outcome (nat * nat) :=
  router_get_hash_impl_helper s (bs "network-status-version") (NL :: bs "directory-signature") SP.

Section digest.
Variable sha3_256 : bytes -> bytes.

Definition router_get_networkstatus_v3_sha3_as_signed (s : bytes) : outcome bytes :=
match router_get_networkstatus_v3_signed_boundaries s with
| Ok (start, end_) => Ok (sha3_256 (take (end_ - start) (drop start s)))
| Err => Ok (sha3_256 s)
| Stuck => Stuck
end.

Definition consensus_compute_digest (cons : bytes) : bytes := sha3_256 cons.
Definition consensus_compute_digest_as_signed (cons : bytes) : outcome bytes :=
router_get_networkstatus_v3_sha3_as_signed cons.

Definition consensus_digest_eq (d1 d2 : bytes) : bool := fast_memeq d1 d2 DIGEST256_LEN.

(** ** Generation *)

Section generate.
Context {T : Type} `{BitArray T}.

Fixpoint all_lines_eq (a b : list line) : bool :=
match a, b with
| x :: a', y :: b' => if lines_eq x y then all_lines_eq a' b' else false
| _, _ => true
end.

Definition consdiff_gen_diff (cons1 cons2 : list line) (digests1 digests2 : bytes)
  : outcome (list line) :=
let* ed_diff := gen_ed_diff (T:=T) cons1 cons2 in
let* ed_cons2 := apply_ed_diff cons1 ed_diff 0 in
let cons2_eq := if zlen cons2 =? zlen ed_cons2 then all_lines_eq cons2 ed_cons2 else false in
if negb cons2_eq then Err
else
  let buf := replicate (Z.to_nat (HEX_DIGEST256_LEN + 1)) NUL in
  let* cons1_hash_hex := base16_encode buf (take DIGEST256_LEN digests1) in
  let* cons2_hash_hex := base16_encode buf (take DIGEST256_LEN digests2) in
  Ok ([ns_diff_version;
       hash_token ++ bs " " ++ cstr cons1_hash_hex ++ bs " " ++ cstr cons2_hash_hex] ++ ed_diff).

Definition consensus_diff_generate (cons1 cons2 : bytes) : outcome bytes :=
let* d1 := consensus_compute_digest_as_signed cons1 in
let d2 := consensus_compute_digest cons2 in
let* lines1 := consensus_split_lines cons1 in
let* lines2 := consensus_split_lines cons2 in
let* result_lines := consdiff_gen_diff lines1 lines2 d1 d2 in
Ok (consensus_join_lines result_lines).
End generate.

(** ** Application *)

(** Both digests, or failure (the code returns 1). *)
Definition consdiff_get_digests (diff : list line) : outcome (bytes * bytes) :=
if zlen diff <? 2 then Err
else
  let* format := get (aget diff 0) in
  if negb (line_str_eq format ns_diff_version) then Err
  else
    let* line2 := get (aget diff 1) in
    let* (hash_words, _) := smartlist_split_string [] (cstr line2) (Some [SP]) 0 0 in
    if negb (zlen hash_words =? 3) then Err
    else
      let* w0 := get (aget hash_words 0) in
      if negb (strcmp w0 hash_token =? 0) then Err
      else
        let* cons1_hash_hex := get (aget hash_words 1) in
        let* cons2_hash_hex := get (aget hash_words 2) in
        if negb (zlen cons1_hash_hex =? HEX_DIGEST256_LEN)
           || negb (zlen cons2_hash_hex =? HEX_DIGEST256_LEN) then Err
        else
          let buf := replicate DIGEST256_LEN NUL in
          let* (n1, cons1_hash) := base16_decode buf cons1_hash_hex in
          if negb (n1 =? Z.of_nat DIGEST256_LEN) then Err
          else
            let* (n2, cons2_hash) := base16_decode buf cons2_hash_hex in
            if negb (n2 =? Z.of_nat DIGEST256_LEN) then Err else Ok (cons1_hash, cons2_hash).

Definition consdiff_apply_diff (cons1 diff : list line) (digests1 : bytes) : outcome bytes :=
let* (e_cons1_hash, e_cons2_hash) := consdiff_get_digests diff in
if negb (consensus_digest_eq digests1 e_cons1_hash) then Err
else
  let* cons2 := apply_ed_diff cons1 diff 2 in
  let cons2_str := consensus_join_lines cons2 in
  let cons2_digests := consensus_compute_digest (cstr cons2_str) in
  if negb (consensus_digest_eq cons2_digests e_cons2_hash) then Err else Ok cons2_str.

Definition consensus_diff_apply (consensus diff : bytes) : outcome bytes :=
let* d1 := consensus_compute_digest_as_signed consensus in
let* lines1 := consensus_split_lines consensus in
let* lines2 := consensus_split_lines diff in
consdiff_apply_diff lines1 lines2 d1.
End digest.

Definition looks_like_a_consensus_diff (document : bytes) : bool :=
  (zlen ns_diff_version <=? zlen document)
  && fast_memeq document ns_diff_version (length ns_diff_version).

(** ** Lemmas: lines *)

Definition good_line (l : line) : Prop := (NL ∉ l) /\ zlen l <= CONSENSUS_LINE_MAX_LEN.

Lemma memchr_line (l rest : bytes) (n : nat) : NL ∉ l -> (length l < n)%nat ->
  memchr (l ++ NL :: rest) NL n = Some (length l).
Proof.
  revert n. induction l as [|c l IH]; intros [|n] Hl Hn; cbn [memchr app length] in *; try lia.
  - by rewrite decide_True.
  - apply not_elem_of_cons in Hl as [Hc Hl]. rewrite decide_False by congruence.
    by rewrite IH by (done || lia).
Qed.

Lemma consensus_join_cons (l : line) (ls : list line) :
  consensus_join_lines (l :: ls) = l ++ NL :: consensus_join_lines ls.
Proof. unfold consensus_join_lines. rewrite fmap_cons. cbn [concat]. by rewrite <- app_assoc. Qed.

Lemma split_join_lines (ls : list line) : Forall good_line ls -> forall fuel out,
  (length (consensus_join_lines ls) <= fuel)%nat ->
  split_lines_loop fuel out (consensus_join_lines ls) = Ok (out ++ ls).
Proof.
  induction 1 as [|l ls [Hl Hlen] _ IH]; intros fuel out Hf.
  - destruct fuel; cbn; by rewrite app_nil_r.
  - rewrite consensus_join_cons in *. destruct fuel as [|f]; [len|]. cbn [split_lines_loop].
    rewrite memchr_line by (done || len). unfold zlen in Hlen.
    rewrite (proj2 (Z.ltb_ge _ _)) by lia. rewrite take_app_length.
    replace (drop (length l + 1) (l ++ NL :: consensus_join_lines ls)) with (consensus_join_lines ls)
      by (by rewrite <- drop_drop, drop_app_length).
    rewrite IH by len. rewrite <- app_assoc. by destruct l.
Qed.

Lemma memchr_some (s : bytes) : forall n k, memchr s NL n = Some k ->
  exists rest, s = take k s ++ NL :: rest /\ (NL ∉ take k s) /\ drop (k + 1) s = rest /\
               length (take k s) = k.
Proof.
  induction s as [|c s IH]; intros [|n] k; cbn [memchr]; try done.
  destruct (decide (c = NL)) as [->|Hc].
  - intros [= <-]. exists s. split; [done|]. split; [apply not_elem_of_nil|done].
  - destruct (memchr s NL n) as [k'|] eqn:E; [|done]. intros [= <-].
    destruct (IH n k' E) as (rest & Hs & Hn & Hd & Hl). exists rest. cbn [take drop Nat.add app length].
    split; [by f_equal|]. split; [apply not_elem_of_cons; by split|]. split; [done|by rewrite Hl].
Qed.

(** What the splitter accepts is the join of the lines it returns. *)
Lemma split_lines_sound : forall fuel s out, (length s <= fuel)%nat ->
  safe (fun r => exists ls, r = out ++ ls /\ s = consensus_join_lines ls /\ Forall good_line ls)
    (split_lines_loop fuel out s).
Proof.
  induction fuel as [|f IH]; intros [|c s] out Hf; try (simpl in Hf; lia).
  1,2: exists []; rewrite app_nil_r; done.
  cbn [split_lines_loop]. destruct (memchr _ _ _) as [k|] eqn:E; [|done].
  destruct (Z.ltb_spec CONSENSUS_LINE_MAX_LEN (Z.of_nat k)); [done|].
  apply memchr_some in E as (rest & Hs & Hn & Hd & Hl). rewrite Hd.
  assert (Hrest : (length rest <= f)%nat) by (apply (f_equal length) in Hs; len).
  eapply safe_mono; [by apply IH|]. intros r (ls & -> & -> & Hall).
  exists (take k (c :: s) :: ls). rewrite <- app_assoc. split; [done|].
  split; [by rewrite consensus_join_cons|]. constructor; [|done]. split; [done|].
  unfold zlen. rewrite Hl. lia.
Qed.

Lemma consensus_split_ok (s : bytes) :
  safe (fun ls => s = consensus_join_lines ls /\ Forall good_line ls) (consensus_split_lines s).
Proof.
  eapply safe_mono; [by apply split_lines_sound|]. intros r (ls & -> & H). done.
Qed.

(** *** Lines the generator writes are good lines *)

Lemma dec_digits_no_nl (fuel : nat) : forall n acc, NL ∉ acc -> NL ∉ dec_digits fuel n acc.
Proof.
  induction fuel as [|f IH]; intros n acc Ha; cbn [dec_digits]; [done|].
  assert (H : NL ∉ z2b (48 + n mod 10) :: acc).
  { apply not_elem_of_cons. split; [|done]. intros E. apply (f_equal b2z) in E.
    rewrite b2z_z2b in E by dlia. change (b2z NL) with 10 in E. dlia. }
  destruct (n <? 10); [done|by apply IH].
Qed.

Lemma print_int_no_nl (z : Z) : NL ∉ print_int z.
Proof.
  unfold print_int, print_nat. destruct (z <? 0); [|apply dec_digits_no_nl, not_elem_of_nil].
  apply not_elem_of_cons. split; [done|]. apply dec_digits_no_nl, not_elem_of_nil.
Qed.

Lemma good_line_app (a b : line) : NL ∉ a -> NL ∉ b -> zlen a + zlen b <= CONSENSUS_LINE_MAX_LEN ->
  good_line (a ++ b).
Proof. intros. split; [apply not_elem_of_app; by split|len]. Qed.

Lemma no_nl_dec (c : ascii) (l : line) : bool_decide (c ∉ l) = true -> c ∉ l.
Proof. apply bool_decide_eq_true_1. Qed.

Lemma from_gen_good (cons1 cons2 : list line) (x : line) :
  zlen cons1 <= INT32_MAX -> Forall good_line cons2 -> from_gen cons1 cons2 x -> good_line x.
Proof.
  intros Hn Hall Hx.
  assert (Hp : forall z, 0 <= z <= INT32_MAX -> zlen (print_int z) <= 10)
    by (intros z Hz; pose proof (print_int_length z Hz); unfold zlen; lia).
  destruct Hx as [[Hx|[->|(st & dl & b & Hs & ->)]]|(k & Hk & ->)].
  - rewrite Forall_forall in Hall. by apply Hall.
  - split; [by apply no_nl_dec|done].
  - assert (Ha : (NL ∉ [ed_action dl b]) /\ zlen [ed_action dl b] = 1).
    { split; [|done]. apply no_nl_dec. unfold ed_action. by destruct b, (dl =? 0)%nat. }
    destruct Ha as [Ha Hal]. unfold ed_text, zlen in Hn |- *.
    pose proof (Hp (Z.of_nat st)). pose proof (Hp (Z.of_nat st + 1)).
    pose proof (Hp (Z.of_nat st + Z.of_nat dl)). unfold CONSENSUS_LINE_MAX_LEN.
    destruct (Nat.eqb_spec dl 0); [|destruct (Nat.eqb_spec dl 1)].
    + apply good_line_app; [apply print_int_no_nl|done|]. unfold CONSENSUS_LINE_MAX_LEN. lia.
    + apply good_line_app; [apply print_int_no_nl|done|]. unfold CONSENSUS_LINE_MAX_LEN. lia.
    + apply good_line_app; [apply print_int_no_nl| |].
      * rewrite !not_elem_of_app. split; [by apply no_nl_dec|]. split; [apply print_int_no_nl|done].
      * unfold CONSENSUS_LINE_MAX_LEN. unfold zlen in *. rewrite !length_app.
        change (length (bs ",")) with 1%nat. lia.
  - pose proof (Hp (k + 1) ltac:(lia)).
    apply good_line_app; [apply print_int_no_nl|by apply no_nl_dec|].
    change (zlen (bs ",$d")) with 3. unfold CONSENSUS_LINE_MAX_LEN. lia.
Qed.

(** ** Lemmas: digests in the header *)

Lemma base16_chars (d : bytes) : Forall (fun c => c <> NUL /\ c <> SP /\ c <> NL) (base16_of d).
Proof.
  induction d as [|c d IH]; cbn [base16_of]; [done|].
  assert (H : forall k, 0 <= k < 16 -> hexd k <> NUL /\ hexd k <> SP /\ hexd k <> NL).
  { intros k Hk. pose proof (forall_range (fun k => bool_decide
      (hexd k <> NUL /\ hexd k <> SP /\ hexd k <> NL)) 16 eq_refl k Hk) as H.
    by apply bool_decide_eq_true in H. }
  assert (Hc : 0 <= hi4 c < 16 /\ 0 <= lo4 c < 16)
    by (destruct c as [[] [] [] [] [] [] [] []]; vm_compute; done).
  constructor; [apply H; tauto|]. constructor; [apply H; tauto|done].
Qed.

Lemma cstr_app (s t : bytes) : Forall (fun c => c <> NUL) s -> cstr (s ++ NUL :: t) = s.
Proof.
  induction 1 as [|c s Hc _ IH]; cbn; [done|].
  destruct (Z.eqb_spec (b2z c) 0) as [E|]; [|by rewrite IH].
  destruct Hc. by apply b2z_inj.
Qed.

Lemma cstr_id (s : bytes) : Forall (fun c => c <> NUL) s -> cstr s = s.
Proof.
  induction 1 as [|c s Hc _ IH]; cbn; [done|].
  destruct (Z.eqb_spec (b2z c) 0) as [E|]; [|by rewrite IH]. destruct Hc. by apply b2z_inj.
Qed.

Lemma Forall_nul (d : bytes) : Forall (fun c => c <> NUL) (base16_of d).
Proof. eapply Forall_impl; [apply base16_chars|]. by intros ? []. Qed.

Lemma hex_digest (d : bytes) : length d = DIGEST256_LEN ->
  (let* h := base16_encode (replicate (Z.to_nat (HEX_DIGEST256_LEN + 1)) NUL)
               (take DIGEST256_LEN d) in Ok (cstr h)) = Ok (base16_of d) /\
  base16_decode (replicate DIGEST256_LEN NUL) (base16_of d) = Ok (32, d) /\
  zlen (base16_of d) = 64.
Proof.
  intros Hd. rewrite take_ge by lia. unfold DIGEST256_LEN in Hd.
  pose proof (base16_of_length d) as Hl. split; [|split].
  - rewrite base16_encode_ok.
    + cbn [obind]. unfold padded. rewrite Hl, Hd, length_replicate.
      change (Z.to_nat (HEX_DIGEST256_LEN + 1) - 2 * 32)%nat with 1%nat. cbn [replicate].
      by rewrite cstr_app by apply Forall_nul.
    + unfold size. rewrite Hd. vm_compute. done.
    + unfold size. rewrite Hd. vm_compute. done.
    + vm_compute. done.
  - rewrite base16_decode_ok.
    + unfold size, padded. rewrite Hd, length_replicate. cbn. by rewrite app_nil_r.
    + unfold size. rewrite Hd. vm_compute. done.
  - unfold zlen. rewrite Hl, Hd. done.
Qed.

Section document.
Variable sha3_256 : bytes -> bytes.
(** SHA3-256 gives 32 bytes. *)
Hypothesis sha3_length : forall s, length (sha3_256 s) = DIGEST256_LEN.

Lemma as_signed_length (s : bytes) :
exists d, consensus_compute_digest_as_signed sha3_256 s = Ok d /\ length d = DIGEST256_LEN.
Proof.
unfold consensus_compute_digest_as_signed, router_get_networkstatus_v3_sha3_as_signed,
  router_get_networkstatus_v3_signed_boundaries, router_get_hash_impl_helper.
destruct (tor_memmem_ok s (bs "network-status-version")) as (r & Hr & _); [done|].
unfold tor_memstr. rewrite Hr. cbn [obind]. destruct r as [start|]; [|eauto].
destruct (_ && _); [eauto|].
destruct (tor_memmem_ok (drop (start + length (bs "network-status-version")) s)
  (NL :: bs "directory-signature")) as (r & Hr' & _); [done|].
rewrite Hr'. cbn [obind]. destruct r as [e|]; [|eauto].
destruct (memchr _ _ _); eauto.
Qed.

Lemma get_digests_ok (d1 d2 : bytes) (rest : list line) :
length d1 = DIGEST256_LEN -> length d2 = DIGEST256_LEN ->
consdiff_get_digests
  ([ns_diff_version; hash_token ++ bs " " ++ base16_of d1 ++ bs " " ++ base16_of d2] ++ rest)
= Ok (d1, d2).
Proof.
intros Hd1 Hd2. destruct (hex_digest d1 Hd1) as (_ & Hx1 & Hl1).
destruct (hex_digest d2 Hd2) as (_ & Hx2 & Hl2).
unfold consdiff_get_digests. set (l2 := hash_token ++ _).
rewrite (proj2 (Z.ltb_ge _ _)) by len. cbn [app].
change (aget (ns_diff_version :: l2 :: rest) 0) with (Some ns_diff_version).
change (aget (ns_diff_version :: l2 :: rest) 1) with (Some l2). cbn [get obind].
unfold line_str_eq. rewrite lines_eq_refl. cbn [negb].
assert (Hjoin : l2 = join_fill [hash_token; base16_of d1; base16_of d2] [SP]) by done.
assert (Hc : cstr l2 = l2).
{ apply cstr_id. unfold l2. repeat (apply Forall_app; split); try apply Forall_nul;
    repeat constructor; done. }
rewrite Hc, Hjoin. unfold smartlist_split_string. rewrite split_loop_of_join.
- cbn [obind app]. unfold tor_assert.
  change (zlen [hash_token; base16_of d1; base16_of d2] =? 3) with true. cbn [negb].
  change (aget [hash_token; base16_of d1; base16_of d2] 0) with (Some hash_token).
  change (aget [hash_token; base16_of d1; base16_of d2] 1) with (Some (base16_of d1)).
  change (aget [hash_token; base16_of d1; base16_of d2] 2) with (Some (base16_of d2)).
  cbn [get obind]. change (strcmp hash_token hash_token =? 0) with true. cbn [negb].
  rewrite Hl1, Hl2. change (64 =? HEX_DIGEST256_LEN) with true. cbn [negb orb].
  rewrite Hx1. cbn [obind]. change (32 =? Z.of_nat DIGEST256_LEN) with true. cbn [negb].
  rewrite Hx2. cbn [obind]. done.
- done.
- assert (Hsp : forall d, SP ∉ base16_of d).
  { intros d Hin. pose proof (base16_chars d) as Hf. rewrite Forall_forall in Hf.
    by apply Hf in Hin as (_ & ? & _). }
  repeat constructor; try apply Hsp. by apply no_nl_dec.
- lia.
Qed.

Lemma all_lines_eq_spec (a b : list line) : zlen a = zlen b ->
all_lines_eq a b = true <-> a = b.
Proof.
revert b. induction a as [|x a IH]; intros [|y b] Hl; try (unfold zlen in Hl; simpl in Hl; lia).
- done.
- cbn [all_lines_eq]. destruct (lines_eq x y) eqn:E.
  + apply lines_eq_spec in E as ->. rewrite IH by len. split; [by intros ->|by intros [= ->]].
  + split; [done|]. intros [= -> ->]. by rewrite lines_eq_refl in E.
Qed.

Context {T : Type} `{BitArrayLaws T}.

(** What the generator produces for two lists of lines. *)
Lemma consdiff_gen_diff_ok (cons1 cons2 : list line) (d1 d2 : bytes) :
zlen cons1 <= INT32_MAX -> zlen cons2 <= INT32_MAX ->
length d1 = DIGEST256_LEN -> length d2 = DIGEST256_LEN ->
safe (fun d => exists ed, gen_ed_diff (T:=T) cons1 cons2 = Ok ed /\
        lone_signature cons1 = false /\
        d = [ns_diff_version; hash_token ++ bs " " ++ base16_of d1 ++ bs " " ++ base16_of d2]
            ++ ed)
  (consdiff_gen_diff (T:=T) cons1 cons2 d1 d2).
Proof.
intros Hn1 Hn2 Hd1 Hd2. unfold consdiff_gen_diff.
pose proof (gen_ed_diff_ok (T:=T) cons1 cons2 Hn1 Hn2) as Hg.
destruct (gen_ed_diff cons1 cons2) as [ed| |]; [|done|done]. cbn [obind].
destruct Hg as [Hg _]. specialize (Hg []). change (zlen []) with 0 in Hg. cbn [app] in Hg.
rewrite Hg. destruct (lone_signature cons1) eqn:El; [done|]. cbn [obind].
rewrite Z.eqb_refl. rewrite (proj2 (all_lines_eq_spec cons2 cons2 eq_refl)) by done. cbn [negb].
destruct (hex_digest d1 Hd1) as (Hh1 & _ & _). destruct (hex_digest d2 Hd2) as (Hh2 & _ & _).
destruct (base16_encode _ (take DIGEST256_LEN d1)) as [h1| |]; [|done..].
destruct (base16_encode _ (take DIGEST256_LEN d2)) as [h2| |]; [|done..].
cbn [obind] in *. injection Hh1 as ->. injection Hh2 as ->. exists ed. done.
Qed.

Lemma join_length_lines (ls : list line) : zlen ls <= zlen (consensus_join_lines ls).
Proof.
induction ls as [|l ls IH]; [done|]. rewrite consensus_join_cons. len.
Qed.

(** Both directions of the generator's contract on documents. *)
Lemma generate_ok (c1 c2 : bytes) :
zlen c1 <= INT32_MAX -> zlen c2 <= INT32_MAX -> Forall (fun c => c <> NUL) c2 ->
safe (fun d => consensus_diff_apply sha3_256 c1 d = Ok c2)
  (consensus_diff_generate sha3_256 (T:=T) c1 c2).
Proof.
intros Hn1 Hn2 Hnul. unfold consensus_diff_generate, consensus_diff_apply.
destruct (as_signed_length c1) as (d1 & -> & Hd1). cbn [obind].
pose proof (consensus_split_ok c1) as Hs1. pose proof (consensus_split_ok c2) as Hs2.
destruct (consensus_split_lines c1) as [l1| |]; [|done|done]. cbn [obind].
destruct (consensus_split_lines c2) as [l2| |]; [|done|done]. cbn [obind].
destruct Hs1 as [E1 G1]. destruct Hs2 as [E2 G2].
pose proof (join_length_lines l1). pose proof (join_length_lines l2). rewrite <- E1, <- E2 in *.
set (d2 := consensus_compute_digest sha3_256 c2).
assert (Hd2 : length d2 = DIGEST256_LEN) by apply sha3_length.
eapply safe_bind; [apply consdiff_gen_diff_ok; (done || lia)|].
intros diff (ed & Hed & Hlone & ->). cbn [safe].
pose proof (gen_ed_diff_ok (T:=T) l1 l2 ltac:(lia) ltac:(lia)) as Hg. rewrite Hed in Hg.
destruct Hg as [Happ Hfrom]. rewrite Hlone in Happ.
set (hdr := [ns_diff_version; _]) in *.
assert (Hgood : Forall good_line (hdr ++ ed)).
{ apply Forall_app. split.
  - constructor; [split; [by apply no_nl_dec|by vm_compute]|]. constructor; [|done].
    destruct (hex_digest d1 Hd1) as (_ & _ & Hl1). destruct (hex_digest d2 Hd2) as (_ & _ & Hl2).
    assert (Hb : forall d, NL ∉ base16_of d).
    { intros d Hin. pose proof (base16_chars d) as Hf. rewrite Forall_forall in Hf.
      by apply Hf in Hin as (_ & _ & ?). }
    split.
    + rewrite !not_elem_of_app. repeat split; try apply Hb; by apply no_nl_dec.
    + unfold zlen in *. rewrite !length_app. change (length hash_token) with 4%nat.
      change (length (bs " ")) with 1%nat. unfold CONSENSUS_LINE_MAX_LEN. lia.
  - eapply Forall_impl; [exact Hfrom|]. intros x Hx. apply (from_gen_good l1 l2 x); [lia|done|done]. }
unfold consensus_split_lines. rewrite split_join_lines by done. cbn [obind app].
unfold consdiff_apply_diff. change (hdr ++ ed) with ([ns_diff_version;
  hash_token ++ bs " " ++ base16_of d1 ++ bs " " ++ base16_of d2] ++ ed).
rewrite get_digests_ok by done. cbn [obind]. unfold consensus_digest_eq, fast_memeq.
rewrite bool_decide_true by done. cbn [negb].
change ([ns_diff_version; _] ++ ed) with (hdr ++ ed).
specialize (Happ hdr). change (zlen hdr) with 2 in Happ. rewrite Happ. cbn [obind].
rewrite <- E2, cstr_id by done. fold d2. rewrite bool_decide_true by done. done.
Qed.
End document.

Section certified.
Variable sha3_256 : bytes -> bytes.

Lemma get_digests_safe (diff : list line) :
safe (fun '(d1, d2) => length d1 = DIGEST256_LEN /\ length d2 = DIGEST256_LEN)
  (consdiff_get_digests diff).
Proof.
unfold consdiff_get_digests. destruct (Z.ltb_spec (zlen diff) 2); [done|].
destruct (aget_lt diff 0) as (x0 & -> & _); [unfold zlen in *; lia|].
destruct (aget_lt diff 1) as (x1 & -> & _); [unfold zlen in *; lia|]. cbn [get obind].
destruct (negb _); [done|].
destruct (split_loop_join [SP] ltac:(done) (S (length (cstr x1))) [] (cstr x1) 0)
  as (ps & m & Hs & _); [lia|]. unfold smartlist_split_string. rewrite Hs. cbn [obind app].
destruct (Z.eqb_spec (zlen ps) 3) as [E|]; [|done]. cbn [negb].
destruct ps as [|w0 [|w1 [|w2 [|]]]]; try (unfold zlen in E; simpl in E; lia).
change (aget [w0; w1; w2] 0) with (Some w0). change (aget [w0; w1; w2] 1) with (Some w1).
change (aget [w0; w1; w2] 2) with (Some w2). cbn [get obind].
destruct (negb _); [done|]. destruct (_ || _); [done|].
pose proof (base16_decode_within (replicate DIGEST256_LEN NUL) w1) as H1.
pose proof (base16_decode_within (replicate DIGEST256_LEN NUL) w2) as H2.
destruct (base16_decode _ w1) as [[n1 e1]| |]; [|done|done]. cbn [obind].
destruct (negb _); [done|].
destruct (base16_decode _ w2) as [[n2 e2]| |]; [|done|done]. cbn [obind].
destruct (negb _); [done|]. destruct H1 as [H1 _]. destruct H2 as [H2 _].
simpl. rewrite H1, H2. by rewrite length_replicate.
Qed.

Lemma as_signed_safe (s : bytes) :
exists d, consensus_compute_digest_as_signed sha3_256 s = Ok d.
Proof.
unfold consensus_compute_digest_as_signed, router_get_networkstatus_v3_sha3_as_signed,
  router_get_networkstatus_v3_signed_boundaries, router_get_hash_impl_helper, tor_memstr.
destruct (tor_memmem_ok s (bs "network-status-version")) as (r & -> & _); [done|].
cbn [obind]. destruct r as [start|]; [|eauto]. destruct (_ && _); [eauto|].
destruct (tor_memmem_ok (drop (start + length (bs "network-status-version")) s)
  (NL :: bs "directory-signature")) as (r & -> & _); [done|].
cbn [obind]. destruct r as [e|]; [|eauto]. destruct (memchr _ _ _); eauto.
Qed.

(** A result that [consensus_diff_apply] returns is certified by the header of the diff. *)
Definition certified (consensus diff result : bytes) : Prop :=
exists lines e1 e2 d1, consensus_split_lines diff = Ok lines /\
  consdiff_get_digests lines = Ok (e1, e2) /\
  consensus_compute_digest_as_signed sha3_256 consensus = Ok d1 /\
  take DIGEST256_LEN d1 = take DIGEST256_LEN e1 /\
  take DIGEST256_LEN (sha3_256 (cstr result)) = take DIGEST256_LEN e2.

Lemma consensus_diff_apply_certified (consensus diff : bytes) :
safe (certified consensus diff) (consensus_diff_apply sha3_256 consensus diff).
Proof.
unfold consensus_diff_apply, certified.
destruct (as_signed_safe consensus) as [d1 E1]. rewrite E1. cbn [obind].
pose proof (consensus_split_ok consensus) as Hs1. pose proof (consensus_split_ok diff) as Hs2.
destruct (consensus_split_lines consensus) as [l1| |]; [|done|done]. cbn [obind].
destruct (consensus_split_lines diff) as [l2| |]; [|done|done]. cbn [obind].
unfold consdiff_apply_diff. pose proof (get_digests_safe l2) as Hd.
destruct (consdiff_get_digests l2) as [[e1 e2]| |] eqn:Eg; [|done|done]. cbn [obind].
unfold consensus_digest_eq, fast_memeq. case_bool_decide as H1; [|done]. cbn [negb].
pose proof (apply_ed_diff_safe l1 l2 2 ltac:(lia)) as Ha.
destruct (apply_ed_diff l1 l2 2) as [r| |]; [|done|done]. cbn [obind].
case_bool_decide as H2; [|done]. cbn [negb safe]. exists l2, e1, e2, d1. done.
Qed.
End certified.

(** ** Properties *)

(** C32: Round trip on documents: whenever [consensus_diff_generate] returns a diff between two consensus
    documents (of at most 2^31 - 1 bytes, the target without NUL), [consensus_diff_apply] of
    that diff to the first document returns exactly the second one; the generator
    itself never leaves its bounds. SHA3-256 is any function with 32-byte results. *)
Theorem consensus_diff_roundtrip {T} `{BitArrayLaws T} (sha3_256 : bytes -> bytes) (c1 c2 : bytes) :
  (forall s, length (sha3_256 s) = DIGEST256_LEN) ->
  zlen c1 <= INT32_MAX -> zlen c2 <= INT32_MAX -> Forall (fun c => c <> NUL) c2 ->
  match consensus_diff_generate sha3_256 (T:=T) c1 c2 with
  | Ok d => consensus_diff_apply sha3_256 c1 d = Ok c2
  | Err => True
  | Stuck => False
  end.
Proof. intros Hs H1 H2 Hn. exact (generate_ok sha3_256 Hs (T:=T) c1 c2 H1 H2 Hn). Qed.

(** A stand-in for SHA3-256 in the examples. *)
Definition toy_digest (s : bytes) : bytes := take 32 (s ++ replicate 32 "x"%char).

Definition ex_doc1 : bytes := consensus_join_lines ex_base.
Definition ex_doc2 : bytes := consensus_join_lines ex_target.

Theorem consensus_diff_roundtrip_witness :
  match consensus_diff_generate toy_digest (T:=bitarray_t) ex_doc1 ex_doc2 with
  | Ok d => consensus_diff_apply toy_digest ex_doc1 d = Ok ex_doc2
  | Err => True
  | Stuck => False
  end /\
  exists d, consensus_diff_generate toy_digest (T:=bitarray_t) ex_doc1 ex_doc2 = Ok d.
Proof.
  split.
  - apply (consensus_diff_roundtrip (T:=bitarray_t) toy_digest ex_doc1 ex_doc2).
    + intros s. unfold toy_digest. rewrite length_take, length_app, length_replicate.
      unfold DIGEST256_LEN. lia.
    + vm_compute. discriminate.
    + vm_compute. discriminate.
    + apply (bool_decide_unpack _). vm_compute. exact I.
  - eexists. vm_compute. reflexivity.
Defined.

(** A consensus obtained from a diff is certified: for any diff document, however malformed,
    [consensus_diff_apply] does not get stuck, and if it returns a consensus then the
    digest-as-signed of the base equals the first digest of the diff's header and the SHA3
    digest of the returned string equals the second one. *)
Theorem consensus_diff_apply_checked (sha3_256 : bytes -> bytes) (consensus diff : bytes) :
  match consensus_diff_apply sha3_256 consensus diff with
  | Ok result => certified sha3_256 consensus diff result
  | Err => True
  | Stuck => False
  end.
Proof. exact (consensus_diff_apply_certified sha3_256 consensus diff). Qed.

(** Line splitting is exact: a document is accepted only if it is the concatenation of
    newline-terminated lines of at most 2^20 bytes, the lines returned are those, and
    conversely the join of any such lines is split into them. *)
Theorem consensus_lines_roundtrip (ls : list line) (s : bytes) :
  (Forall (fun l => ~ In NL l /\ zlen l <= CONSENSUS_LINE_MAX_LEN) ls ->
   consensus_split_lines (consensus_join_lines ls) = Ok ls) /\
  match consensus_split_lines s with
  | Ok ls' => consensus_join_lines ls' = s
  | Err => True
  | Stuck => False
  end.
Proof.
  split.
  - intros H. unfold consensus_split_lines. rewrite split_join_lines; [done| |done].
    eapply Forall_impl; [exact H|]. intros l [H1 H2]. split; [|done].
    intros Hin. apply H1. by apply list_elem_of_In.
  - pose proof (consensus_split_ok s) as Hs. destruct (consensus_split_lines s); [|done|done].
    by destruct Hs as [-> _].
Qed.

Theorem consensus_lines_roundtrip_witness :
  consensus_split_lines (consensus_join_lines [bs "a"; []; bs "bc"]) = Ok [bs "a"; []; bs "bc"].
Proof.
  apply (consensus_lines_roundtrip [bs "a"; []; bs "bc"] []).
  repeat constructor; try (vm_compute; discriminate); cbn; intuition discriminate.
Defined.
