(* ===== verification/Buffers.v ===== *)
(** * Buffers as chains of chunks: [lib/buf/buffers.c]

    A buffer is a singly linked list of chunks. A chunk is modelled with its address,
    the offset [data - mem], and its memory cell by cell: [None] is a byte that malloc
    returned and nobody has written, and reading one is stuck. The list [b_chunks] is
    the chain from [head] along [next]; [b_tail] is the pointer the code keeps beside it.
    The file-level counter [total_bytes_allocated_in_chunks] and the source of fresh
    addresses are the state [heap] that the operations pass along. *)
From S2P Require Import Prelude Strings.

(** ** Constants: an LP64 machine, with the memory sentinels on *)

Definition BUF_MAX_LEN : Z := INT_MAX - 1.
(** [offsetof(chunk_t, mem[0])]: five words and the 32-bit [inserted_time]. *)
Definition CHUNK_HEADER_LEN : Z := 44.
Definition SENTINEL_LEN : Z := 4.
Definition CHUNK_OVERHEAD : Z := CHUNK_HEADER_LEN + SENTINEL_LEN.
Definition CHUNK_ALLOC_SIZE (memlen : Z) : Z := CHUNK_OVERHEAD + memlen.
Definition CHUNK_SIZE_WITH_ALLOC (memlen : Z) : Z := memlen - CHUNK_OVERHEAD.
Definition MIN_CHUNK_ALLOC : Z := 256.
Definition MAX_CHUNK_ALLOC : Z := 65536.
Definition PEEK_BUF_STARTSWITH_MAX : Z := 16.

(** ** State *)

Abbreviation cell := (option ascii).

Record chunk := {
  ch_addr : Z;
  ch_datalen : Z;
  ch_memlen : Z;
  ch_DBG_alloc : Z;
  ch_data : Z;            (* data - mem *)
  ch_inserted_time : Z;
  ch_mem : list cell      (* up to the end of the allocation *)
}.

Record buf := {
  b_datalen : Z;
  b_default_chunk_size : Z;
  b_chunks : list chunk;
  b_tail : option Z
}.

Record heap := {
  h_next : Z;     (* the next address malloc returns *)
  h_total : Z;    (* total_bytes_allocated_in_chunks *)
  h_stamp : Z     (* monotime_coarse_get_stamp() *)
}.

(** ** Memory of a chunk *)

Definition mem_read (mem : list cell) (off n : Z) : outcome bytes :=
  if (off <? 0) || (n <? 0) || (zlen mem <? off + n) then Stuck
  else get (mapM id (take (Z.to_nat n) (drop (Z.to_nat off) mem))).

(** [memcpy(mem + off, s, n)]. *)
Definition mem_write (mem : list cell) (off : Z) (s : bytes) : outcome (list cell) :=
  if (off <? 0) || (zlen mem <? off + zlen s) then Stuck
  else Ok (take (Z.to_nat off) mem ++ map Some s ++ drop (Z.to_nat off + length s) mem).

Definition CHUNK_REMAINING_CAPACITY (c : chunk) : Z := ch_memlen c - (ch_data c + ch_datalen c).
Definition CHUNK_WRITE_PTR (c : chunk) : Z := ch_data c + ch_datalen c.

Definition CHUNK_SET_SENTINEL (c : chunk) (alloclen : Z) : outcome chunk :=
  tor_assert (CHUNK_HEADER_LEN + ch_memlen c =? alloclen - SENTINEL_LEN) (
  let* mem := mem_write (ch_mem c) (ch_memlen c) (replicate (Z.to_nat SENTINEL_LEN) NUL) in
  Ok {| ch_addr := ch_addr c; ch_datalen := ch_datalen c; ch_memlen := ch_memlen c;
        ch_DBG_alloc := ch_DBG_alloc c; ch_data := ch_data c;
        ch_inserted_time := ch_inserted_time c; ch_mem := mem |}).

(** The chunk with its window on the memory moved. *)
Definition chunk_window (c : chunk) (data datalen : Z) (mem : list cell) : chunk :=
  {| ch_addr := ch_addr c; ch_datalen := datalen; ch_memlen := ch_memlen c;
     ch_DBG_alloc := ch_DBG_alloc c; ch_data := data;
     ch_inserted_time := ch_inserted_time c; ch_mem := mem |}.

Definition chunk_repack (c : chunk) : outcome chunk :=
  let* mem := if negb (ch_datalen c =? 0) && negb (ch_data c =? 0)
              then amove (ch_mem c) 0 (ch_data c) (ch_datalen c) else Ok (ch_mem c) in
  Ok (chunk_window c 0 (ch_datalen c) mem).

Definition buf_chunk_free_unchecked (h : heap) (c : chunk) : outcome heap :=
  tor_assert (CHUNK_ALLOC_SIZE (ch_memlen c) =? ch_DBG_alloc c) (
  tor_assert (CHUNK_ALLOC_SIZE (ch_memlen c) <=? h_total h) (
  Ok {| h_next := h_next h; h_total := h_total h - CHUNK_ALLOC_SIZE (ch_memlen c);
        h_stamp := h_stamp h |})).

(** [tor_malloc(alloc)] gives [alloc - offsetof(mem)] uninitialised cells. *)
Definition chunk_new_with_alloc_size (h : heap) (alloc : Z) : outcome (chunk * heap) :=
  let ch := {| ch_addr := h_next h; ch_datalen := 0; ch_memlen := CHUNK_SIZE_WITH_ALLOC alloc;
               ch_DBG_alloc := alloc; ch_data := 0; ch_inserted_time := 0;
               ch_mem := replicate (Z.to_nat (alloc - CHUNK_HEADER_LEN)) None |} in
  let* ch := CHUNK_SET_SENTINEL ch alloc in
  Ok (ch, {| h_next := h_next h + 1; h_total := h_total h + alloc; h_stamp := h_stamp h |}).

Fixpoint preferred_loop (fuel : nat) (sz target : Z) : outcome Z :=
  if CHUNK_SIZE_WITH_ALLOC sz <? target then
    match fuel with O => Stuck | S f => preferred_loop f (Z.shiftl sz 1) target end
  else Ok sz.

Definition buf_preferred_chunk_size (target : Z) : outcome Z :=
  tor_assert (target <=? SIZE_T_CEILING - CHUNK_OVERHEAD) (
  if MAX_CHUNK_ALLOC <=? CHUNK_ALLOC_SIZE target then Ok (CHUNK_ALLOC_SIZE target)
  else preferred_loop 8 MIN_CHUNK_ALLOC target).

(** ** Creation and release *)

Definition buf_new : buf :=
  {| b_datalen := 0; b_default_chunk_size := 4096; b_chunks := []; b_tail := None |}.

Definition buf_new_with_capacity (size : Z) : outcome buf :=
  let* sz := buf_preferred_chunk_size size in
  Ok {| b_datalen := 0; b_default_chunk_size := sz; b_chunks := []; b_tail := None |}.

Fixpoint free_chunks (h : heap) (cs : list chunk) : outcome heap :=
  match cs with
  | [] => Ok h
  | c :: cs' => let* h := buf_chunk_free_unchecked h c in free_chunks h cs'
  end.

Definition buf_clear (h : heap) (b : buf) : outcome (buf * heap) :=
  let* h := free_chunks h (b_chunks b) in
  Ok ({| b_datalen := 0; b_default_chunk_size := b_default_chunk_size b;
         b_chunks := []; b_tail := None |}, h).

Definition buf_allocation (b : buf) : Z :=
  foldr (fun c t => CHUNK_ALLOC_SIZE (ch_memlen c) + t) 0 (b_chunks b).

(** The chunk at an address of the chain, with what comes before it. *)
Fixpoint chunk_at (cs : list chunk) (a : Z) : option (list chunk * chunk) :=
  match cs with
  | [] => None
  | c :: cs' => if ch_addr c =? a then Some ([], c)
                else match chunk_at cs' a with
                     | Some (pre, c') => Some (c :: pre, c') | None => None
                     end
  end.

Definition buf_slack (b : buf) : outcome Z :=
  match b_tail b with
  | None => Ok 0
  | Some t => let* (_, c) := get (chunk_at (b_chunks b) t) in Ok (CHUNK_REMAINING_CAPACITY c)
  end.

(** ** Making room at the front *)

Section pullup.
(** Whether realloc moves the object at an address. *)
Context (realloc_moves : Z -> bool).

Definition chunk_grow (h : heap) (c : chunk) (sz : Z) : outcome (chunk * heap) :=
let orig_alloc := CHUNK_ALLOC_SIZE (ch_memlen c) in
let new_alloc := CHUNK_ALLOC_SIZE sz in
tor_assert (ch_memlen c <? sz) (
let moved := realloc_moves (ch_addr c) in
tor_assert (ch_DBG_alloc c =? orig_alloc) (
let c' := {| ch_addr := if moved then h_next h else ch_addr c;
             ch_datalen := ch_datalen c; ch_memlen := sz; ch_DBG_alloc := new_alloc;
             ch_data := ch_data c; ch_inserted_time := ch_inserted_time c;
             ch_mem := ch_mem c ++ replicate (Z.to_nat (new_alloc - orig_alloc)) None |} in
let* c' := CHUNK_SET_SENTINEL c' new_alloc in
Ok (c', {| h_next := if moved then h_next h + 1 else h_next h;
           h_total := h_total h + (new_alloc - orig_alloc); h_stamp := h_stamp h |}))).

(** The copying loop: [dest] is the head, [rest] the chain after it. *)
Fixpoint pullup_loop (h : heap) (dest : chunk) (rest : list chunk) (tail : option Z) (n_bytes : Z)
  : outcome (chunk * list chunk * option Z * heap) :=
if ch_datalen dest <? n_bytes then
  let n := n_bytes - ch_datalen dest in
  match rest with
  | [] => Stuck
  | src :: rest' =>
      if ch_datalen src <=? n then
        let* s := mem_read (ch_mem src) (ch_data src) (ch_datalen src) in
        let* mem := mem_write (ch_mem dest) (CHUNK_WRITE_PTR dest) s in
        let dest := chunk_window dest (ch_data dest) (ch_datalen dest + ch_datalen src) mem in
        let tail := if bool_decide (tail = Some (ch_addr src)) then Some (ch_addr dest) else tail in
        let* h := buf_chunk_free_unchecked h src in
        pullup_loop h dest rest' tail n_bytes
      else
        let* s := mem_read (ch_mem src) (ch_data src) n in
        let* mem := mem_write (ch_mem dest) (CHUNK_WRITE_PTR dest) s in
        let dest := chunk_window dest (ch_data dest) (ch_datalen dest + n) mem in
        let src := chunk_window src (ch_data src + n) (ch_datalen src - n) (ch_mem src) in
        tor_assert (ch_datalen dest =? n_bytes) (Ok (dest, src :: rest', tail, h))
  end
else Ok (dest, rest, tail, h).

(** The part of [buf_pullup] that makes the head large enough; also the new tail. *)
Definition pullup_room (h : heap) (b : buf) (head : chunk) (capacity : Z)
  : outcome (chunk * option Z * heap) :=
if capacity <=? ch_memlen head then
  (* no need to grow the first chunk, but perhaps to repack it *)
  let needed := capacity - ch_datalen head in
  let* head := if CHUNK_REMAINING_CAPACITY head <? needed then chunk_repack head else Ok head in
  tor_assert (needed <=? CHUNK_REMAINING_CAPACITY head) (Ok (head, b_tail b, h))
else
  let* head := chunk_repack head in
  let* sz := buf_preferred_chunk_size capacity in
  let* (newhead, h) := chunk_grow h head (CHUNK_SIZE_WITH_ALLOC sz) in
  tor_assert (capacity <=? ch_memlen newhead) (
  let tail := if bool_decide (b_tail b = Some (ch_addr head))
              then Some (ch_addr newhead) else b_tail b in
  Ok (newhead, tail, h)).

(** The bytes that [*head_out] and [*len_out] delimit are the second component. *)
Definition buf_pullup (h : heap) (b : buf) (n_bytes : Z) : outcome (buf * bytes * heap) :=
match b_chunks b with
| [] => Ok (b, [], h)
| head :: rest =>
    let n_bytes := if b_datalen b <? n_bytes then b_datalen b else n_bytes in
    let capacity := n_bytes in
    if n_bytes <=? ch_datalen head then
      let* out := mem_read (ch_mem head) (ch_data head) (ch_datalen head) in Ok (b, out, h)
    else
      let* (newhead, tail, h) := pullup_room h b head capacity in
      let* (dest, rest, tail, h) := pullup_loop h newhead rest tail n_bytes in
      let* out := mem_read (ch_mem dest) (ch_data dest) (ch_datalen dest) in
      Ok ({| b_datalen := b_datalen b; b_default_chunk_size := b_default_chunk_size b;
             b_chunks := dest :: rest; b_tail := tail |}, out, h)
end.
End pullup.

(** ** Copies and additions *)

Definition chunk_copy (h : heap) (c : chunk) : chunk * heap :=
  ({| ch_addr := h_next h; ch_datalen := ch_datalen c; ch_memlen := ch_memlen c;
      ch_DBG_alloc := CHUNK_ALLOC_SIZE (ch_memlen c); ch_data := ch_data c;
      ch_inserted_time := ch_inserted_time c; ch_mem := ch_mem c |},
   {| h_next := h_next h + 1; h_total := h_total h + CHUNK_ALLOC_SIZE (ch_memlen c);
      h_stamp := h_stamp h |}).

(** [buf->tail->next = ch; buf->tail = ch], or the first chunk of an empty buffer. *)
Definition link_tail (b : buf) (more : list chunk) (new_tail : option Z) : outcome (list chunk) :=
  match b_tail b with
  | Some t => let* (pre, c) := get (chunk_at (b_chunks b) t) in Ok (pre ++ c :: more)
  | None => Ok more
  end.

Definition with_chunks (b : buf) (datalen : Z) (cs : list chunk) (tail : option Z) : buf :=
  {| b_datalen := datalen; b_default_chunk_size := b_default_chunk_size b;
     b_chunks := cs; b_tail := tail |}.

Fixpoint copy_chunks (h : heap) (out : buf) (cs : list chunk) : outcome (buf * heap) :=
  match cs with
  | [] => Ok (out, h)
  | c :: cs' =>
      let '(newch, h) := chunk_copy h c in
      let* chunks := link_tail out [newch] (Some (ch_addr newch)) in
      copy_chunks h (with_chunks out (b_datalen out) chunks (Some (ch_addr newch))) cs'
  end.

Definition buf_copy (h : heap) (b : buf) : outcome (buf * heap) :=
  let out := {| b_datalen := 0; b_default_chunk_size := b_default_chunk_size b;
                b_chunks := []; b_tail := None |} in
  let* (out, h) := copy_chunks h out (b_chunks b) in
  Ok (with_chunks out (b_datalen b) (b_chunks out) (b_tail out), h).

(** The old [*output] is released first. *)
Definition buf_set_to_copy (h : heap) (output : option buf) (input : buf) : outcome (buf * heap) :=
  let* h := match output with
            | Some o => let* (_, h) := buf_clear h o in Ok h
            | None => Ok h
            end in
  buf_copy h input.

Definition buf_add_chunk_with_capacity (h : heap) (b : buf) (capacity : Z) (capped : bool)
    : outcome (buf * heap) :=
  let alloc := wrap 64 (CHUNK_ALLOC_SIZE capacity) in
  let* (ch, h) :=
    if alloc <? b_default_chunk_size b then chunk_new_with_alloc_size h (b_default_chunk_size b)
    else if capped && (MAX_CHUNK_ALLOC <? alloc) then chunk_new_with_alloc_size h MAX_CHUNK_ALLOC
    else let* sz := buf_preferred_chunk_size capacity in chunk_new_with_alloc_size h sz in
  let ch := {| ch_addr := ch_addr ch; ch_datalen := ch_datalen ch; ch_memlen := ch_memlen ch;
               ch_DBG_alloc := ch_DBG_alloc ch; ch_data := ch_data ch;
               ch_inserted_time := h_stamp h; ch_mem := ch_mem ch |} in
  match b_tail b with
  | Some _ =>
      tor_assert (negb (bool_decide (length (b_chunks b) = 0%nat))) (
      let* cs := link_tail b [ch] (Some (ch_addr ch)) in
      Ok (with_chunks b (b_datalen b) cs (Some (ch_addr ch)), h))
  | None =>
      tor_assert (bool_decide (length (b_chunks b) = 0%nat)) (
      Ok (with_chunks b (b_datalen b) [ch] (Some (ch_addr ch)), h))
  end.

(** Writing at the tail: the update of the chunk that [buf->tail] points to. *)
Definition tail_write (b : buf) (s : bytes) : outcome buf :=
  let* t := get (b_tail b) in
  let* (pre, c) := get (chunk_at (b_chunks b) t) in
  let* mem := mem_write (ch_mem c) (CHUNK_WRITE_PTR c) s in
  let c' := chunk_window c (ch_data c) (ch_datalen c + zlen s) mem in
  Ok (with_chunks b (b_datalen b + zlen s) (pre ++ c' :: drop (S (length pre)) (b_chunks b))
        (b_tail b)).

Fixpoint add_loop (fuel : nat) (h : heap) (b : buf) (string : bytes) : outcome (buf * heap) :=
  match string with
  | [] => Ok (b, h)
  | _ :: _ =>
      match fuel with
      | O => Stuck
      | S f =>
          let* room := buf_slack b in
          let* (b, h) := if bool_decide (b_tail b = None) || (room =? 0)
                         then buf_add_chunk_with_capacity h b (zlen string) true
                         else Ok (b, h) in
          let* room := buf_slack b in
          let copy := if zlen string <? room then zlen string else room in
          let* b := tail_write b (take (Z.to_nat copy) string) in
          add_loop f h b (drop (Z.to_nat copy) string)
      end
  end.

(** The result is the new length; [Err] is the [-1] of the two guards, whose
    subtraction is in [size_t]. *)
Definition buf_add (h : heap) (b : buf) (string : bytes) : outcome (Z * buf * heap) :=
  if zlen string =? 0 then Ok (b_datalen b, b, h)
  else if BUF_MAX_LEN <? b_datalen b then Err
  else if wrap 64 (BUF_MAX_LEN - zlen string) <? b_datalen b then Err
  else
    let* (b, h) := add_loop (length string) h b string in
    tor_assert (b_datalen b <=? BUF_MAX_LEN) (Ok (b_datalen b, b, h)).

Definition buf_add_string (h : heap) (b : buf) (string : bytes) : outcome (Z * buf * heap) :=
  buf_add h b string.

(** ** Removal *)

Fixpoint peek_loop (cs : list chunk) (string_len : Z) : outcome bytes :=
  if string_len =? 0 then Ok []
  else
    match cs with
    | [] => Stuck
    | c :: cs' =>
        let copy := if ch_datalen c <? string_len then ch_datalen c else string_len in
        let* s := mem_read (ch_mem c) (ch_data c) copy in
        let* rest := peek_loop cs' (string_len - copy) in
        Ok (s ++ rest)
    end.

(** The bytes written to [string]. *)
Definition buf_peek (b : buf) (string_len : Z) : outcome bytes :=
  tor_assert (string_len <=? b_datalen b) (peek_loop (b_chunks b) string_len).

Definition buf_extract (b : buf) : outcome (bytes * Z) :=
  let sz := b_datalen b in
  let* result := buf_peek b sz in Ok (result ++ [NUL], sz).

Fixpoint drain_loop (h : heap) (datalen : Z) (cs : list chunk) (tail : option Z) (n : Z)
    : outcome (Z * list chunk * option Z * heap) :=
  if n =? 0 then Ok (datalen, cs, tail, h)
  else
    match cs with
    | [] => Stuck
    | c :: cs' =>
        if n <? ch_datalen c then
          Ok (datalen - n,
              chunk_window c (ch_data c + n) (ch_datalen c - n) (ch_mem c) :: cs', tail, h)
        else
          let tail := if bool_decide (tail = Some (ch_addr c)) then None else tail in
          let* h := buf_chunk_free_unchecked h c in
          drain_loop h (datalen - ch_datalen c) cs' tail (n - ch_datalen c)
    end.

Definition buf_drain (h : heap) (b : buf) (n : Z) : outcome (buf * heap) :=
  tor_assert (n <=? b_datalen b) (
  let* (datalen, cs, tail, h) := drain_loop h (b_datalen b) (b_chunks b) (b_tail b) n in
  Ok (with_chunks b datalen cs tail, h)).

Definition buf_get_bytes (h : heap) (b : buf) (string_len : Z) : outcome (bytes * Z * buf * heap) :=
  let* string := buf_peek b string_len in
  let* (b, h) := buf_drain h b string_len in
  tor_assert (b_datalen b <=? BUF_MAX_LEN) (Ok (string, b_datalen b, b, h)).

(** ** Moving data between buffers *)

Fixpoint move_loop (fuel : nat) (h : heap) (buf_out buf_in : buf) (len : Z)
    : outcome (buf * buf * heap) :=
  if len =? 0 then Ok (buf_out, buf_in, h)
  else
    match fuel with
    | O => Stuck
    | S f =>
        let n := if 4096 <? len then 4096 else len in
        let* (b, _, buf_in, h) := buf_get_bytes h buf_in n in
        (* a failed addition is ignored *)
        let* (buf_out, h) := match buf_add h buf_out b with
                             | Ok (_, bo, h') => Ok (bo, h')
                             | Err => Ok (buf_out, h)
                             | Stuck => Stuck
                             end in
        move_loop f h buf_out buf_in (len - n)
    end.

(** The result: the number of bytes copied, and the new [*buf_flushlen]. *)
Definition buf_move_to_buf (h : heap) (buf_out buf_in : buf) (buf_flushlen : Z)
    : outcome (Z * Z * buf * buf * heap) :=
  if (BUF_MAX_LEN <? b_datalen buf_out) || (BUF_MAX_LEN <? buf_flushlen) then Err
  else if BUF_MAX_LEN - buf_flushlen <? b_datalen buf_out then Err
  else
    let len := if b_datalen buf_in <? buf_flushlen then b_datalen buf_in else buf_flushlen in
    tor_assert (len <=? BUF_MAX_LEN) (
    let* (buf_out, buf_in, h) := move_loop (Z.to_nat len) h buf_out buf_in len in
    Ok (len, buf_flushlen - len, buf_out, buf_in, h)).

(** A failed size guard moves nothing and returns 0, like an empty [buf_in]. *)
Definition buf_move_all (buf_out buf_in : buf) : outcome (Z * buf * buf) :=
  if b_datalen buf_in =? 0 then Ok (0, buf_out, buf_in)
  else if (BUF_MAX_LEN <? b_datalen buf_out) || (BUF_MAX_LEN <? b_datalen buf_in)
       then Ok (0, buf_out, buf_in)
  else if BUF_MAX_LEN - b_datalen buf_in <? b_datalen buf_out then Ok (0, buf_out, buf_in)
  else
    let* cs := match b_chunks buf_out with
               | [] => Ok (b_chunks buf_in)
               | _ :: _ => let* _ := get (b_tail buf_out) in
                           link_tail buf_out (b_chunks buf_in) (b_tail buf_in)
               end in
    Ok (b_datalen buf_in,
        with_chunks buf_out (b_datalen buf_out + b_datalen buf_in) cs (b_tail buf_in),
        with_chunks buf_in 0 [] None).

(** ** Searching *)

(** [chunk] and its followers, the offset in it, and the length of what precedes it. *)
Record buf_pos := { p_chunk : list chunk; p_pos : Z; p_chunk_pos : Z }.

Definition buf_pos_init (b : buf) : buf_pos :=
  {| p_chunk := b_chunks b; p_pos := 0; p_chunk_pos := 0 |}.

(** [memchr(chunk->data + pos, ch, chunk->datalen - pos)]. *)
Definition chunk_memchr (c : chunk) (pos : Z) (ch : ascii) : outcome (option Z) :=
  let* s := mem_read (ch_mem c) (ch_data c + pos) (ch_datalen c - pos) in
  Ok ((fun i : nat => pos + Z.of_nat i) <$> memchr s ch (length s)).

Fixpoint find_char_loop (cs : list chunk) (pos chunk_pos : Z) (ch : ascii) : outcome (option buf_pos) :=
  match cs with
  | [] => Ok None
  | c :: cs' =>
      let* r := chunk_memchr c pos ch in
      match r with
      | Some i => tor_assert (i <=? BUF_MAX_LEN)
                    (Ok (Some {| p_chunk := cs; p_pos := i; p_chunk_pos := chunk_pos |}))
      | None => find_char_loop cs' 0 (chunk_pos + ch_datalen c) ch
      end
  end.

Definition buf_find_pos_of_char (ch : ascii) (out : buf_pos) : outcome (option buf_pos) :=
  let k := find_char_loop (p_chunk out) (p_pos out) (p_chunk_pos out) ch in
  match p_chunk out with
  | [] => k
  | c :: _ => if negb (ch_datalen c =? 0) then tor_assert (p_pos out <? ch_datalen c) k
              else tor_assert (p_pos out =? 0) k
  end.

(** [None] is the result [-1]. *)
Definition buf_pos_inc (pos : buf_pos) : outcome (option buf_pos) :=
  tor_assert (p_pos pos <? BUF_MAX_LEN) (
  match p_chunk pos with
  | [] => Stuck
  | c :: next =>
      if p_pos pos + 1 =? ch_datalen c then
        match next with
        | [] => Ok None
        | _ :: _ => Ok (Some {| p_chunk := next; p_pos := 0;
                                p_chunk_pos := p_chunk_pos pos + ch_datalen c |})
        end
      else Ok (Some {| p_chunk := p_chunk pos; p_pos := p_pos pos + 1;
                       p_chunk_pos := p_chunk_pos pos |})
  end).

(** [s] holds the [n] characters to compare. *)
Fixpoint buf_matches_at_pos (p : buf_pos) (s : bytes) : outcome bool :=
  match s with
  | [] => Ok true
  | x :: s' =>
      match p_chunk p with
      | [] => Stuck
      | c :: _ =>
          let* r := mem_read (ch_mem c) (ch_data c + p_pos p) 1 in
          if negb (bool_decide (r = [x])) then Ok false
          else if bool_decide (s' = []) then Ok true
          else
            let* q := buf_pos_inc p in
            match q with None => Ok false | Some p' => buf_matches_at_pos p' s' end
      end
  end.

Fixpoint find_string_loop (fuel : nat) (pos : buf_pos) (s : bytes) : outcome (option Z) :=
  match fuel with
  | O => Stuck
  | S f =>
      let* r := buf_find_pos_of_char (deref s) pos in
      match r with
      | None => Ok None
      | Some pos =>
          let* m := buf_matches_at_pos pos s in
          if m : bool then
            tor_assert (p_chunk_pos pos + p_pos pos <=? BUF_MAX_LEN)
              (Ok (Some (p_chunk_pos pos + p_pos pos)))
          else
            let* q := buf_pos_inc pos in
            match q with None => Ok None | Some pos => find_string_loop f pos s end
      end
  end.

(** The offset of the first occurrence; [None] is [-1]. *)
Definition buf_find_string_offset (b : buf) (s : bytes) : outcome (option Z) :=
  find_string_loop (S (Z.to_nat (b_datalen b))) (buf_pos_init b) s.

Definition buf_peek_startswith (b : buf) (cmd : bytes) : outcome bool :=
  let clen := zlen cmd in
  if clen =? 0 then Ok true
  else if PEEK_BUF_STARTSWITH_MAX <? clen then Ok false
  else if b_datalen b <? clen then Ok false
  else let* tmp := buf_peek b clen in Ok (fast_memeq tmp cmd (length cmd)).

Fixpoint find_offset_loop (cs : list chunk) (ch : ascii) (offset : Z) : outcome (option Z) :=
  match cs with
  | [] => Ok None
  | c :: cs' =>
      let* r := chunk_memchr c 0 ch in
      match r with
      | Some i => Ok (Some (offset + i))
      | None => find_offset_loop cs' ch (offset + ch_datalen c)
      end
  end.

Definition buf_find_offset_of_char (b : buf) (ch : ascii) : outcome (option Z) :=
  tor_assert (b_datalen b <=? BUF_MAX_LEN) (find_offset_loop (b_chunks b) ch 0).

(** The results of [buf_get_line]: 0, -1 with the length needed, and 1 with [data_out]
    and [*data_len]. *)
Inductive line_result :=
  | NoLine
  | LineTooLong (data_len : Z)
  | Line (data_out : bytes) (data_len : Z) (b : buf) (h : heap).

Definition buf_get_line (h : heap) (b : buf) (data_out : bytes) (data_len : Z)
    : outcome line_result :=
  match b_chunks b with
  | [] => Ok NoLine
  | _ :: _ =>
      let* offset := buf_find_offset_of_char b NL in
      match offset with
      | None => Ok NoLine
      | Some sz =>
          if data_len <? sz + 2 then Ok (LineTooLong (sz + 2))
          else
            let* (ln, _, b, h) := buf_get_bytes h b (sz + 1) in
            if zlen data_out <? zlen ln then Stuck
            else
              let* data_out := aset (ln ++ drop (length ln) data_out) (sz + 1) NUL in
              Ok (Line data_out (sz + 1) b h)
      end
  end.

(** [buf_assert_ok], as a boolean. *)
Fixpoint chunks_assert_ok (cs : list chunk) (tail : option Z) (total : Z) : option Z :=
  match cs with
  | [] => Some total
  | c :: cs' =>
      if (ch_datalen c <=? ch_memlen c) && (ch_datalen c <=? BUF_MAX_LEN)
         && (0 <=? ch_data c) && (ch_data c <=? ch_memlen c)
         && (ch_data c + ch_datalen c <=? ch_memlen c)
         && (match cs' with [] => bool_decide (tail = Some (ch_addr c)) | _ :: _ => true end)
      then chunks_assert_ok cs' tail (total + ch_datalen c) else None
  end.

Definition buf_assert_ok (b : buf) : bool :=
  match b_chunks b with
  | [] => bool_decide (b_tail b = None) && (b_datalen b =? 0)
  | cs => negb (bool_decide (b_tail b = None)) && bool_decide (chunks_assert_ok cs (b_tail b) 0 = Some (b_datalen b))
  end.

(** ** Memory lemmas *)

Lemma mapM_id_Some (s : bytes) : mapM id (map Some s) = Some s.
Proof. induction s as [|x s IH]; [done|]. cbn [map mapM]. unfold mbind in *. simpl. by rewrite IH. Qed.

(** A slice of the written part of a memory. *)
Lemma mem_read_mid (mem pre post : list cell) (a m c : bytes) (off n : Z) :
  mem = pre ++ map Some (a ++ m ++ c) ++ post -> off = zlen pre + zlen a -> n = zlen m ->
  mem_read mem off n = Ok m.
Proof.
  intros -> -> ->. unfold mem_read, zlen.
  rewrite (proj2 (Z.ltb_ge _ _)), (proj2 (Z.ltb_ge _ _)), (proj2 (Z.ltb_ge _ _)) by
    (rewrite ?length_app, ?length_map, ?length_app; lia).
  simpl. rewrite Z2Nat.inj_add, !Nat2Z.id by lia.
  rewrite !map_app.
  rewrite drop_app_add, <- !app_assoc.
  rewrite drop_app_length' by (by rewrite length_map).
  rewrite take_app_length' by (by rewrite length_map).
  by rewrite mapM_id_Some.
Qed.

(** Writing just after the written part. *)
Lemma mem_write_after (mem pre post : list cell) (s s' : bytes) (off : Z) :
  mem = pre ++ map Some s ++ post -> off = zlen pre + zlen s -> zlen s' <= zlen post ->
  mem_write mem off s' = Ok (pre ++ map Some (s ++ s') ++ drop (length s') post).
Proof.
  intros -> -> Hl. unfold mem_write, zlen in *.
  rewrite (proj2 (Z.ltb_ge _ _)), (proj2 (Z.ltb_ge _ _)) by
    (rewrite ?length_app, ?length_map, ?length_app; lia).
  simpl. rewrite Z2Nat.inj_add, !Nat2Z.id by lia. f_equal.
  rewrite map_app, <- (app_assoc (map Some s)), !(app_assoc pre). f_equal; [|f_equal].
  - rewrite take_app_le by (rewrite length_app, length_map; lia).
    apply take_ge. rewrite length_app, length_map. lia.
  - replace (length pre + length s + length s')%nat
      with (length (pre ++ map Some s) + length s')%nat by (rewrite length_app, length_map; lia).
    apply drop_app_add.
Qed.

Definition sentinel : list cell := replicate 4 (Some NUL).

(** ** Well-formed chunks and buffers *)

(** The chunk holds the bytes [s]. *)
Definition chunk_ok (c : chunk) (s : bytes) : Prop :=
  exists pre post : list cell,
    ch_mem c = pre ++ map Some s ++ post /\
    ch_data c = zlen pre /\ ch_datalen c = zlen s /\
    ch_data c + ch_datalen c <= ch_memlen c /\
    zlen (ch_mem c) = ch_memlen c + SENTINEL_LEN /\
    ch_DBG_alloc c = CHUNK_ALLOC_SIZE (ch_memlen c).

Definition addrs (b : buf) : list Z := map ch_addr (b_chunks b).

Definition chunks_alloc (cs : list chunk) : Z :=
  foldr (fun c t => CHUNK_ALLOC_SIZE (ch_memlen c) + t) 0 cs.

(** A chain of chunks that holds [ss], with the pointer to its last chunk; [rest] bytes
    of the heap belong to other buffers. *)
Record chain (h : heap) (rest : Z) (cs : list chunk) (ss : list bytes) (tail : option Z)
    : Prop := {
  r_chunks : Forall2 chunk_ok cs ss;
  r_tail : tail = ch_addr <$> last cs;
  r_nodup : NoDup (map ch_addr cs);
  r_addrs : Forall (fun a => a < h_next h) (map ch_addr cs);
  r_rest : 0 <= rest;
  r_total : h_total h = chunks_alloc cs + rest
}.

Record buf_repr (h : heap) (rest : Z) (b : buf) (ss : list bytes) : Prop := {
  r_chain : chain h rest (b_chunks b) ss (b_tail b);
  r_datalen : b_datalen b = zlen (concat ss);
  r_default : MIN_CHUNK_ALLOC <= b_default_chunk_size b
}.

(** What an operation may do to the heap: its chunks stay, go, or are fresh. *)
Definition heap_grows (h : heap) (b : buf) (h' : heap) (b' : buf) : Prop :=
  h_next h <= h_next h' /\
  Forall (fun a => a ∈ addrs b \/ h_next h <= a) (addrs b').

Lemma heap_grows_refl (h : heap) (b : buf) : heap_grows h b h b.
Proof. split; [lia|]. apply Forall_forall. eauto. Qed.

Lemma heap_grows_trans (h1 h2 h3 : heap) (b1 b2 b3 : buf) :
  heap_grows h1 b1 h2 b2 -> heap_grows h2 b2 h3 b3 -> heap_grows h1 b1 h3 b3.
Proof.
  intros [Hn1 H1] [Hn2 H2]. split; [lia|]. rewrite Forall_forall in *.
  intros a Ha. destruct (H2 a Ha) as [Hb|]; [|right; lia]. destruct (H1 a Hb); [by left|right; lia].
Qed.

Lemma chunk_alloc_nonneg (c : chunk) (s : bytes) : chunk_ok c s -> 0 <= ch_memlen c.
Proof. intros (pre & post & _ & ? & ? & ? & _). unfold zlen in *. lia. Qed.

Lemma chunks_alloc_app (cs cs' : list chunk) :
  chunks_alloc (cs ++ cs') = chunks_alloc cs + chunks_alloc cs'.
Proof. induction cs as [|c cs IH]; simpl; lia. Qed.

Lemma chunks_alloc_nonneg (cs : list chunk) (ss : list bytes) :
  Forall2 chunk_ok cs ss -> 0 <= chunks_alloc cs.
Proof.
  induction 1 as [|c s cs ss Hc _ IH]; simpl; [lia|]. apply chunk_alloc_nonneg in Hc.
  unfold CHUNK_ALLOC_SIZE, CHUNK_OVERHEAD, CHUNK_HEADER_LEN, SENTINEL_LEN. lia.
Qed.

(** The chain is not empty exactly when it has a tail, which [chunk_at] finds. *)
Lemma chunk_at_last (cs : list chunk) (c : chunk) : NoDup (map ch_addr (cs ++ [c])) ->
  chunk_at (cs ++ [c]) (ch_addr c) = Some (cs, c).
Proof.
  induction cs as [|x cs IH]; simpl; intros Hnd.
  - by rewrite Z.eqb_refl.
  - apply NoDup_cons in Hnd as [Hx Hnd]. rewrite IH by done.
    destruct (Z.eqb_spec (ch_addr x) (ch_addr c)) as [E|]; [|done].
    destruct Hx. rewrite E, map_app. simpl. apply elem_of_app. right. by left.
Qed.

Ltac consts := unfold CHUNK_ALLOC_SIZE, CHUNK_SIZE_WITH_ALLOC, CHUNK_OVERHEAD, CHUNK_HEADER_LEN,
  SENTINEL_LEN, MIN_CHUNK_ALLOC, MAX_CHUNK_ALLOC, BUF_MAX_LEN, INT_MAX, SIZE_T_CEILING in *.

(** ** Freeing and draining *)

Lemma chain_free_head (h : heap) (rest : Z) (c : chunk) (cs : list chunk) (s : bytes)
    (ss : list bytes) (tail : option Z) :
  chain h rest (c :: cs) (s :: ss) tail ->
  exists h', buf_chunk_free_unchecked h c = Ok h' /\ h_next h' = h_next h /\
    h_stamp h' = h_stamp h /\
    chain h' rest cs ss (if bool_decide (tail = Some (ch_addr c)) then None else tail).
Proof.
  intros [[Hc Hcs]%Forall2_cons_1 -> [Hni Hnd]%NoDup_cons [_ Ha]%Forall_cons Hr Ht].
  pose proof (chunk_alloc_nonneg _ _ Hc). pose proof (chunks_alloc_nonneg _ _ Hcs).
  destruct Hc as (_ & _ & _ & _ & _ & _ & _ & Hdbg). cbn [chunks_alloc foldr] in Ht.
  fold (chunks_alloc cs) in Ht.
  unfold buf_chunk_free_unchecked, tor_assert. rewrite Hdbg, Z.eqb_refl.
  rewrite (proj2 (Z.leb_le _ _)) by lia. eexists. split; [done|]. simpl.
  split; [done|]. split; [done|]. split; simpl; try done; [|lia].
  destruct cs as [|c' cs]; simpl.
  - by rewrite bool_decide_true.
  - rewrite bool_decide_false; [done|]. intros [= E]. apply Hni.
    change (last (c' :: cs)) with (last (c' :: cs)) in E.
    destruct (last (c' :: cs)) as [x|] eqn:El; [|done]. simpl in E. injection E as E. subst.
    rewrite <- E. apply list_elem_of_In, (in_map ch_addr (c' :: cs)), list_elem_of_In.
    by apply last_Some_elem_of.
Qed.

Lemma chunk_ok_drop (c : chunk) (s : bytes) (n : Z) : chunk_ok c s -> 0 <= n <= zlen s ->
  chunk_ok (chunk_window c (ch_data c + n) (ch_datalen c - n) (ch_mem c)) (drop (Z.to_nat n) s).
Proof.
  intros (pre & post & Hm & Hd & Hl & Hb & Hz & Hg) Hn. unfold chunk_window, chunk_ok. simpl.
  exists (pre ++ map Some (take (Z.to_nat n) s)), post. rewrite <- app_assoc, (app_assoc (map Some _)).
  rewrite <- map_app, take_drop. split; [done|]. unfold zlen in *.
  rewrite length_app, length_map, length_take, length_drop. lia.
Qed.

Lemma chunk_read (c : chunk) (s : bytes) (off n : Z) : chunk_ok c s ->
  0 <= off -> 0 <= n -> off + n <= zlen s ->
  mem_read (ch_mem c) (ch_data c + off) n = Ok (take (Z.to_nat n) (drop (Z.to_nat off) s)).
Proof.
  intros (pre & post & Hm & Hd & _) Ho Hn Hl. unfold zlen in *.
  eapply (mem_read_mid _ pre post (take (Z.to_nat off) s) _
            (drop (Z.to_nat n) (drop (Z.to_nat off) s))).
  - by rewrite !take_drop.
  - unfold zlen. rewrite Hd, length_take. lia.
  - unfold zlen. rewrite length_take, length_drop. lia.
Qed.

Lemma chunk_datalen (c : chunk) (s : bytes) : chunk_ok c s -> ch_datalen c = zlen s.
Proof. by intros (pre & post & _ & _ & H & _). Qed.

Lemma drop_app_z {A} (n : Z) (l l' : list A) : zlen l <= n ->
  drop (Z.to_nat n) (l ++ l') = drop (Z.to_nat (n - zlen l)) l'.
Proof. intros. unfold zlen in *. rewrite drop_app_ge by lia. f_equal. lia. Qed.

Lemma take_app_z {A} (n : Z) (l l' : list A) : zlen l <= n ->
  take (Z.to_nat n) (l ++ l') = l ++ take (Z.to_nat (n - zlen l)) l'.
Proof. intros. unfold zlen in *. rewrite take_app_ge by lia. do 2 f_equal. lia. Qed.

Lemma drain_loop_ok (cs : list chunk) : forall (h : heap) (rest : Z) (ss : list bytes)
    (tail : option Z) (n datalen : Z),
  chain h rest cs ss tail -> datalen = zlen (concat ss) -> 0 <= n <= zlen (concat ss) ->
  exists cs' ss' tail' h',
    drain_loop h datalen cs tail n = Ok (zlen (concat ss'), cs', tail', h') /\
    chain h' rest cs' ss' tail' /\ concat ss' = drop (Z.to_nat n) (concat ss) /\
    h_next h' = h_next h /\ h_stamp h' = h_stamp h /\
    (forall a, a ∈ map ch_addr cs' -> a ∈ map ch_addr cs) /\
    (Forall (fun s => s <> []) ss -> Forall (fun s => s <> []) ss').
Proof.
  induction cs as [|c cs IH]; intros h rest ss tail n datalen Hch -> Hn.
  - pose proof (Forall2_nil_inv_l _ _ (r_chunks _ _ _ _ _ Hch)) as ->. cbn [concat] in *.
    assert (n = 0) as -> by (unfold zlen in *; simpl in *; lia). simpl.
    exists [], [], tail, h. eauto 10.
  - destruct (Forall2_cons_inv_l _ _ _ _ (r_chunks _ _ _ _ _ Hch)) as (s & ss' & Hc & Hcs & ->).
    cbn [concat] in *. rewrite zlen_app in *. cbn [drain_loop].
    destruct (Z.eqb_spec n 0) as [->|Hn0].
    { exists (c :: cs), (s :: ss'), tail, h. cbn [concat]. rewrite zlen_app. simpl. eauto 10. }
    pose proof (chunk_datalen _ _ Hc) as Hd. rewrite Hd. pose proof (zlen_nonneg s).
    destruct (Z.ltb_spec n (zlen s)) as [Hlt|Hge].
    + exists (chunk_window c (ch_data c + n) (ch_datalen c - n) (ch_mem c) :: cs),
        (drop (Z.to_nat n) s :: ss'), tail, h. rewrite Hd.
      assert (Hz : zlen (drop (Z.to_nat n) s) = zlen s - n) by (unfold zlen in *; rewrite length_drop; lia).
      cbn [concat]. rewrite zlen_app, Hz. split; [do 2 f_equal; do 2 f_equal; lia|].
      split; [|split; [|split; [|split; [|split]]]]; try done.
      * destruct Hch as [H1 H2 H3 H4 H5 H6]. split; try done.
        -- constructor; [|done]. rewrite <- Hd. apply chunk_ok_drop; [done|lia].
        -- rewrite H2. by destruct cs.
      * unfold zlen in *. rewrite drop_app_le by lia. done.
      * intros [Hs Hss]%Forall_cons. constructor; [|done]. intros E.
        rewrite E in Hz. unfold zlen in *. simpl in *. lia.
    + destruct (chain_free_head _ _ _ _ _ _ _ Hch) as (h' & -> & Hnx & Hst & Hch'). cbn [obind].
      destruct (IH h' rest ss' _ (n - zlen s) (zlen s + zlen (concat ss') - zlen s) Hch')
        as (cs' & ss2 & tail' & h2 & -> & Hch2 & Hco & Hnx2 & Hst2 & Ha & Hne); [lia|lia|].
      exists cs', ss2, tail', h2. split; [done|]. split; [done|]. split.
      { rewrite Hco. by rewrite drop_app_z by lia. }
      split; [congruence|]. split; [congruence|]. split.
      * intros a Hin. apply elem_of_cons. right. by apply Ha.
      * intros [_ Hss]%Forall_cons. by apply Hne.
Qed.

Lemma peek_loop_ok (cs : list chunk) (ss : list bytes) : Forall2 chunk_ok cs ss -> forall n,
  0 <= n <= zlen (concat ss) -> peek_loop cs n = Ok (take (Z.to_nat n) (concat ss)).
Proof.
  induction 1 as [|c s cs ss Hc _ IH]; intros n Hn; cbn [concat] in *.
  - assert (n = 0) as -> by (unfold zlen in *; simpl in *; lia). done.
  - cbn [peek_loop]. destruct (Z.eqb_spec n 0) as [->|Hn0]; [done|].
    rewrite zlen_app in Hn. rewrite (chunk_datalen _ _ Hc). pose proof (zlen_nonneg s).
    rewrite <- (Z.add_0_r (ch_data c)). destruct (Z.ltb_spec (zlen s) n).
    + rewrite (chunk_read c s 0 (zlen s)) by (done || lia). cbn [obind]. rewrite IH by lia. simpl.
      rewrite drop_0, take_app_z by lia. unfold zlen at 1. rewrite Nat2Z.id, firstn_all. done.
    + rewrite (chunk_read c s 0 n) by (done || lia). cbn [obind]. rewrite Z.sub_diag.
      destruct cs; simpl; rewrite app_nil_r, drop_0; unfold zlen in *; by rewrite take_app_le by lia.
Qed.

(** ** Adding *)

Lemma chain_empty_tail (h : heap) (rest : Z) (cs : list chunk) (ss : list bytes) (tail : option Z) :
  chain h rest cs ss tail -> (tail = None /\ cs = [] /\ ss = []) \/
  (exists cs0 c ss0 s, cs = cs0 ++ [c] /\ ss = ss0 ++ [s] /\ tail = Some (ch_addr c) /\
     chunk_ok c s /\ Forall2 chunk_ok cs0 ss0 /\ chunk_at cs (ch_addr c) = Some (cs0, c)).
Proof.
  intros [H1 H2 H3 H4 H5 H6]. destruct (decide (cs = [])) as [->|Hne].
  - left. apply Forall2_nil_inv_l in H1 as ->. done.
  - right. destruct (snoc_inv cs Hne) as (cs0 & c & ->).
    apply Forall2_app_inv_l in H1 as (ss0 & ss1 & Hss & Hs1 & ->).
    apply Forall2_cons_inv_l in Hs1 as (s & ss2 & Hc & Hs2 & ->).
    apply Forall2_nil_inv_l in Hs2 as ->.
    exists cs0, c, ss0, s. rewrite H2, last_snoc. simpl. repeat (split; [done|]).
    by apply chunk_at_last.
Qed.

Lemma link_tail_ok (h : heap) (rest : Z) (b : buf) (ss : list bytes) (more : list chunk)
    (t : option Z) :
  chain h rest (b_chunks b) ss (b_tail b) -> link_tail b more t = Ok (b_chunks b ++ more).
Proof.
  intros Hch. unfold link_tail.
  destruct (chain_empty_tail _ _ _ _ _ Hch) as [(-> & -> & _)|(cs0 & c & ss0 & s & E & _ & -> & _ & _ & Hat)];
    [done|]. rewrite Hat. cbn [get obind]. rewrite E. by rewrite <- app_assoc.
Qed.

Lemma chunk_new_ok (h : heap) (alloc : Z) : CHUNK_OVERHEAD <= alloc ->
  exists c, chunk_new_with_alloc_size h alloc =
    Ok (c, {| h_next := h_next h + 1; h_total := h_total h + alloc; h_stamp := h_stamp h |}) /\
    chunk_ok c [] /\ ch_addr c = h_next h /\ ch_memlen c = CHUNK_SIZE_WITH_ALLOC alloc /\ ch_data c = 0.
Proof.
  intros Ha. unfold chunk_new_with_alloc_size, CHUNK_SET_SENTINEL, tor_assert. cbn.
  rewrite (proj2 (Z.eqb_eq _ _)) by (consts; lia).
  assert (E : replicate (Z.to_nat (alloc - CHUNK_HEADER_LEN)) (None : cell) =
    replicate (Z.to_nat (alloc - CHUNK_OVERHEAD)) None ++ map Some [] ++ replicate 4 None).
  { cbn [map]. rewrite app_nil_l, <- replicate_add. f_equal. consts. lia. }
  rewrite (mem_write_after _ _ _ _ _ _ E) by (unfold zlen; rewrite ?length_replicate; consts; simpl; lia).
  simpl. eexists. split; [done|]. split; [|done].
  exists [], (replicate (Z.to_nat (alloc - CHUNK_OVERHEAD)) None ++ [Some NUL; Some NUL; Some NUL; Some NUL]).
  unfold zlen. simpl. rewrite length_app, length_replicate. simpl. consts.
  repeat split; lia.
Qed.

Lemma chain_snoc (h : heap) (rest alloc : Z) (cs : list chunk) (ss : list bytes) (tail : option Z)
    (c : chunk) (s : bytes) :
  chain h rest cs ss tail -> chunk_ok c s -> ch_addr c = h_next h ->
  alloc = CHUNK_ALLOC_SIZE (ch_memlen c) ->
  chain {| h_next := h_next h + 1; h_total := h_total h + alloc; h_stamp := h_stamp h |}
    rest (cs ++ [c]) (ss ++ [s]) (Some (ch_addr c)).
Proof.
  intros [H1 H2 H3 H4 H5 H6] Hc Ha ->. split; simpl.
  - apply Forall2_app; [done|by constructor].
  - by rewrite last_snoc.
  - rewrite map_app. apply NoDup_app. split; [done|]. split; [|apply NoDup_singleton].
    intros x Hx Hx2. apply list_elem_of_singleton in Hx2. rewrite Forall_forall in H4.
    specialize (H4 x Hx). lia.
  - rewrite map_app. apply Forall_app. split; [|by repeat constructor; lia].
    eapply Forall_impl; [exact H4|]. simpl. lia.
  - done.
  - rewrite chunks_alloc_app. simpl. lia.
Qed.

(** The doubling loop stops at the first size that is enough. *)
Lemma preferred_loop_ok (fuel : nat) : forall sz target,
  0 < sz -> target <= CHUNK_SIZE_WITH_ALLOC (sz * 2 ^ Z.of_nat fuel) ->
  exists sz', preferred_loop fuel sz target = Ok sz' /\ target <= CHUNK_SIZE_WITH_ALLOC sz' /\
    sz <= sz' <= sz * 2 ^ Z.of_nat fuel /\
    (sz' = sz \/ CHUNK_SIZE_WITH_ALLOC (sz' / 2) < target).
Proof.
  induction fuel as [|f IH]; intros sz target Hsz Ht; cbn [preferred_loop].
  - change (2 ^ Z.of_nat 0) with 1 in *. rewrite Z.mul_1_r in *.
    rewrite (proj2 (Z.ltb_ge _ _)) by done. exists sz. repeat split; try lia; by left.
  - rewrite Nat2Z.inj_succ, Z.pow_succ_r in * by lia.
    destruct (Z.ltb_spec (CHUNK_SIZE_WITH_ALLOC sz) target) as [Hlt|Hge].
    + rewrite Z.shiftl_mul_pow2 by lia. change (2 ^ 1) with 2.
      destruct (IH (sz * 2) target) as (sz' & -> & H1 & H2 & H3); [lia| |].
      { by rewrite <- Z.mul_assoc. }
      exists sz'. split; [done|]. split; [done|]. split; [lia|]. right.
      destruct H3 as [->|]; [|done]. by rewrite Z.div_mul by lia.
    + exists sz. split; [done|]. split; [lia|]. split; [|by left]. nia.
Qed.

(** The allocation [buf_preferred_chunk_size] chooses. *)
Lemma preferred_ok (target : Z) : target <= SIZE_T_CEILING - CHUNK_OVERHEAD ->
  exists sz, buf_preferred_chunk_size target = Ok sz /\
    target <= CHUNK_SIZE_WITH_ALLOC sz /\ MIN_CHUNK_ALLOC <= sz /\
    (sz = CHUNK_ALLOC_SIZE target \/ sz = MIN_CHUNK_ALLOC \/
       sz <= MAX_CHUNK_ALLOC /\ CHUNK_SIZE_WITH_ALLOC (sz / 2) < target).
Proof.
  intros Ht. unfold buf_preferred_chunk_size, tor_assert. rewrite (proj2 (Z.leb_le _ _)) by done.
  destruct (Z.leb_spec MAX_CHUNK_ALLOC (CHUNK_ALLOC_SIZE target)).
  - eexists. split; [done|]. consts. lia.
  - destruct (preferred_loop_ok 8 MIN_CHUNK_ALLOC target) as (sz & -> & H1 & H2 & H3).
    + done.
    + change (CHUNK_SIZE_WITH_ALLOC _) with 65488. consts. lia.
    + exists sz. split; [done|]. split; [done|].
      change (MIN_CHUNK_ALLOC * 2 ^ Z.of_nat 8) with MAX_CHUNK_ALLOC in H2. split; [lia|].
      right. destruct H3; [by left|right]. split; [lia|done].
Qed.

Lemma add_chunk_ok (h : heap) (rest : Z) (b : buf) (ss : list bytes) (capacity : Z) (capped : bool) :
  buf_repr h rest b ss -> 0 <= capacity <= SIZE_T_CEILING - CHUNK_OVERHEAD ->
  exists b' c h', buf_add_chunk_with_capacity h b capacity capped = Ok (b', h') /\
    b_chunks b' = b_chunks b ++ [c] /\ chunk_ok c [] /\ ch_addr c = h_next h /\
    0 < CHUNK_REMAINING_CAPACITY c /\ h_next h' = h_next h + 1 /\
    buf_repr h' rest b' (ss ++ [[]]).
Proof.
  intros [Hch Hdl Hdf] Hcap. unfold buf_add_chunk_with_capacity.
  assert (Hw : wrap 64 (CHUNK_ALLOC_SIZE capacity) = CHUNK_ALLOC_SIZE capacity)
    by (apply Z.mod_small; consts; lia). rewrite Hw. clear Hw.
  assert (exists alloc, MIN_CHUNK_ALLOC <= alloc /\
    (if CHUNK_ALLOC_SIZE capacity <? b_default_chunk_size b
     then chunk_new_with_alloc_size h (b_default_chunk_size b)
     else if capped && (MAX_CHUNK_ALLOC <? CHUNK_ALLOC_SIZE capacity)
          then chunk_new_with_alloc_size h MAX_CHUNK_ALLOC
          else let* sz := buf_preferred_chunk_size capacity in chunk_new_with_alloc_size h sz)
    = chunk_new_with_alloc_size h alloc) as (alloc & Hal & ->).
  { destruct (_ <? b_default_chunk_size b); [eauto|].
    destruct (capped && _); [exists MAX_CHUNK_ALLOC; split; [by consts|reflexivity]|].
    destruct (preferred_ok capacity) as (sz & -> & _ & Hsz & _); [lia|]. exists sz. split; [done|reflexivity]. }
  destruct (chunk_new_ok h alloc) as (c & -> & Hc & Hca & Hm & Hd0); [consts; lia|]. cbn [obind].
  set (c' := Build_chunk (ch_addr c) _ _ _ _ _ _).
  assert (Hc' : chunk_ok c' []) by exact Hc.
  assert (Hal2 : alloc = CHUNK_ALLOC_SIZE (ch_memlen c')) by (simpl; rewrite Hm; consts; lia).
  pose proof (chain_snoc h rest alloc _ _ _ c' [] Hch Hc' Hca Hal2) as Hch'.
  eexists (with_chunks b (b_datalen b) (b_chunks b ++ [c']) (Some (ch_addr c'))), c', _.
  split; [|split; [done|split; [done|split; [done|split; [|split; [|split; [exact Hch'| |done]]]]]]].
  - rewrite (link_tail_ok _ _ _ _ _ _ Hch). cbn [obind]. unfold tor_assert.
    destruct (chain_empty_tail _ _ _ _ _ Hch) as [(-> & -> & _)|(cs0 & x & _ & _ & -> & _ & -> & _)];
      [reflexivity|]. rewrite bool_decide_false; [reflexivity|]. rewrite length_app. simpl. lia.
  - unfold CHUNK_REMAINING_CAPACITY. rewrite (chunk_datalen _ _ Hc'). simpl.
    rewrite Hm, Hd0. unfold zlen. simpl. consts. lia.
  - done.
  - simpl. rewrite Hdl, concat_app. simpl. by rewrite app_nil_r.
Qed.

(** Appending to a chunk that has the room. *)
Lemma chunk_append (c : chunk) (s s' : bytes) : chunk_ok c s ->
  zlen s' <= CHUNK_REMAINING_CAPACITY c ->
  exists mem, mem_write (ch_mem c) (CHUNK_WRITE_PTR c) s' = Ok mem /\
    chunk_ok (chunk_window c (ch_data c) (ch_datalen c + zlen s') mem) (s ++ s').
Proof.
  intros (pre & post & Hm & Hd & Hn & Hb & Hz & Hg) Hl.
  unfold CHUNK_REMAINING_CAPACITY, CHUNK_WRITE_PTR in *.
  assert (Hpost : zlen s' <= zlen post).
  { unfold zlen in *. rewrite Hm, !length_app, length_map in Hz. consts. lia. }
  rewrite (mem_write_after _ pre post s s' (ch_data c + ch_datalen c) Hm) by lia.
  eexists. split; [done|]. unfold chunk_ok, chunk_window. simpl.
  eexists pre, _. split; [done|]. rewrite zlen_app. split; [done|]. split; [lia|]. split; [lia|].
  split; [|done]. rewrite <- Hz, Hm. unfold zlen in *.
  rewrite !length_app, !length_map, length_app, length_drop. lia.
Qed.

Lemma tail_write_ok (h : heap) (rest : Z) (b : buf) (cs0 : list chunk) (c : chunk)
    (ss0 : list bytes) (s s' : bytes) :
  buf_repr h rest b (ss0 ++ [s]) -> b_chunks b = cs0 ++ [c] ->
  zlen s' <= CHUNK_REMAINING_CAPACITY c ->
  exists b' c', tail_write b s' = Ok b' /\ b_chunks b' = cs0 ++ [c'] /\ ch_addr c' = ch_addr c /\
    buf_repr h rest b' (ss0 ++ [s ++ s']).
Proof.
  intros [Hch Hdl Hdf] Hcs Hl. unfold tail_write.
  destruct (chain_empty_tail _ _ _ _ _ Hch)
    as [(_ & E & _)|(cs1 & c1 & ss1 & s1 & E & Es & Et & Hc & Hcs1 & Hat)].
  { rewrite E in Hcs. by destruct cs0. }
  rewrite E in Hcs. apply app_inj_2 in Hcs as [-> [= ->]]; [|done].
  apply app_inj_2 in Es as [<- [= <-]]; [|done].
  rewrite Et. cbn [get obind]. rewrite Hat. cbn [get obind].
  destruct (chunk_append c s s' Hc Hl) as (mem & -> & Hc'). cbn [obind].
  set (c' := chunk_window c _ _ _) in *. eexists _, c'. split; [done|].
  assert (E2 : cs0 ++ c' :: drop (S (length cs0)) (b_chunks b) = cs0 ++ [c']).
  { rewrite E. change (cs0 ++ [c]) with (cs0 ++ [c] ++ []). rewrite app_assoc.
    rewrite drop_app_length' by (rewrite length_app; simpl; lia). done. }
  rewrite E2. split; [done|]. split; [done|]. split; simpl; [|rewrite Hdl, !concat_app; simpl|done].
  - destruct Hch as [H1 H2 H3 H4 H5 H6]. rewrite E in *. split; try done.
    + apply Forall2_app; [done|]. by constructor.
    + by rewrite last_snoc.
    + revert H3. by rewrite !map_app.
    + revert H4. by rewrite !map_app.
    + rewrite chunks_alloc_app in *. simpl in *. lia.
  - rewrite !app_nil_r, !zlen_app. lia.
Qed.

Lemma buf_slack_ok (h : heap) (rest : Z) (b : buf) (ss : list bytes) (cs0 : list chunk) (c : chunk) :
  buf_repr h rest b ss -> b_chunks b = cs0 ++ [c] -> buf_slack b = Ok (CHUNK_REMAINING_CAPACITY c).
Proof.
  intros [[_ Ht Hnd _ _ _] _ _] E. unfold buf_slack. rewrite Ht, E, last_snoc. cbn [fmap option_fmap option_map].
  rewrite chunk_at_last by (by rewrite <- E). done.
Qed.

(** The first half of a round of [buf_add]: the tail, or a new chunk, has room. *)
Lemma make_room_ok (h : heap) (rest : Z) (b : buf) (ss : list bytes) (n : Z) :
  buf_repr h rest b ss -> 0 < n <= SIZE_T_CEILING - CHUNK_OVERHEAD ->
  exists b1 h1 cs0 c ss0 s,
    (let* room := buf_slack b in
     if bool_decide (b_tail b = None) || (room =? 0)
     then buf_add_chunk_with_capacity h b n true else Ok (b, h)) = Ok (b1, h1) /\
    buf_repr h1 rest b1 (ss0 ++ [s]) /\ b_chunks b1 = cs0 ++ [c] /\
    0 < CHUNK_REMAINING_CAPACITY c /\ concat (ss0 ++ [s]) = concat ss /\ heap_grows h b h1 b1 /\
    (Forall (fun s => s <> []) ss -> Forall (fun s => s <> []) ss0).
Proof.
  intros Hb Hn. pose proof (r_chain _ _ _ _ Hb) as Hch.
  destruct (add_chunk_ok h rest b ss n true Hb) as
    (b2 & c2 & h2 & Hadd & Ec2 & Hc2 & Ha2 & Hr2 & Hn2 & Hb2); [lia|].
  assert (Hgr : heap_grows h b h2 b2).
  { split; [lia|]. unfold addrs. rewrite Ec2, map_app. apply Forall_app. split.
    - apply Forall_forall. eauto.
    - apply Forall_singleton. right. lia. }
  assert (Hco : concat (ss ++ [[]]) = concat ss) by (rewrite concat_app; simpl; by rewrite app_nil_r).
  destruct (chain_empty_tail _ _ _ _ _ Hch) as [(Et & Ec & Ess)|(cs0 & c & ss0 & s & E & Ess & Et & Hc & _ & _)].
  - exists b2, h2, (b_chunks b), c2, ss, []. unfold buf_slack. rewrite Et. cbn [obind].
    rewrite bool_decide_true by done. by repeat (split; [done|]).
  - rewrite (buf_slack_ok _ _ _ _ _ _ Hb E). cbn [obind]. rewrite Et, bool_decide_false by done. cbn [orb].
    destruct (Z.eqb_spec (CHUNK_REMAINING_CAPACITY c) 0) as [Hz|Hz].
    + exists b2, h2, (b_chunks b), c2, ss, []. by repeat (split; [done|]).
    + exists b, h, cs0, c, ss0, s. rewrite <- Ess. split; [done|]. split; [done|]. split; [done|]. split.
      { destruct Hc as (pre & post & _ & _ & _ & Hcap & _).
        unfold CHUNK_REMAINING_CAPACITY in *. lia. }
      split; [done|]. split; [apply heap_grows_refl|].
      rewrite Ess. intros [? _]%Forall_app. done.
Qed.

Lemma add_loop_ok (fuel : nat) : forall (h : heap) (rest : Z) (b : buf) (ss : list bytes) (s' : bytes),
  (length s' <= fuel)%nat -> zlen s' <= SIZE_T_CEILING - CHUNK_OVERHEAD -> buf_repr h rest b ss ->
  exists b' h' ss', add_loop fuel h b s' = Ok (b', h') /\ buf_repr h' rest b' ss' /\
    concat ss' = concat ss ++ s' /\ heap_grows h b h' b' /\
    (Forall (fun s => s <> []) ss -> Forall (fun s => s <> []) ss').
Proof.
  induction fuel as [|f IH]; intros h rest b ss s' Hf Hmax Hb.
  - destruct s'; [|simpl in Hf; lia]. exists b, h, ss. rewrite app_nil_r.
    by pose proof (heap_grows_refl h b).
  - destruct s' as [|x s0] eqn:Es.
    { exists b, h, ss. rewrite app_nil_r. by pose proof (heap_grows_refl h b). }
    rewrite <- Es in *. assert (Hne : s' <> []) by (by rewrite Es).
    assert (Hpos : 0 < zlen s') by (rewrite Es; unfold zlen; simpl; lia).
    destruct (make_room_ok h rest b ss (zlen s') Hb) as
      (b1 & h1 & cs0 & c & ss0 & s & Hmk & Hb1 & Ecs & Hroom & Hco & Hgr & Hnn); [lia|].
    assert (add_loop (S f) h b s' =
      (let* (b1, h1) := let* room := buf_slack b in
                        if bool_decide (b_tail b = None) || (room =? 0)
                        then buf_add_chunk_with_capacity h b (zlen s') true else Ok (b, h) in
       let* room := buf_slack b1 in
       let copy := if zlen s' <? room then zlen s' else room in
       let* b := tail_write b1 (take (Z.to_nat copy) s') in
       add_loop f h1 b (drop (Z.to_nat copy) s'))) as ->
      by (rewrite Es; cbn [add_loop]; by destruct (buf_slack b)).
    rewrite Hmk. cbn [obind]. rewrite (buf_slack_ok _ _ _ _ _ _ Hb1 Ecs). cbn [obind].
    set (copy := if _ <? _ then _ else _).
    assert (Hcopy : 0 < copy <= zlen s' /\ copy <= CHUNK_REMAINING_CAPACITY c)
      by (unfold copy; destruct (Z.ltb_spec (zlen s') (CHUNK_REMAINING_CAPACITY c)); lia).
    clearbody copy. assert (Hlt : zlen (take (Z.to_nat copy) s') = copy)
      by (unfold zlen in *; rewrite length_take; lia).
    destruct (tail_write_ok h1 rest b1 cs0 c ss0 s (take (Z.to_nat copy) s') Hb1 Ecs)
      as (b2 & c2 & -> & Ec2 & Ea2 & Hb2); [lia|]. cbn [obind].
    assert (Hld : zlen (drop (Z.to_nat copy) s') = zlen s' - copy)
      by (unfold zlen in *; rewrite length_drop; lia).
    destruct (fun H1 H2 => IH h1 rest b2 _ (drop (Z.to_nat copy) s') H1 H2 Hb2)
      as (b3 & h3 & ss3 & -> & Hb3 & Hco3 & Hgr3 & Hne3); [unfold zlen in *; lia|lia|].
    exists b3, h3, ss3. split; [done|]. split; [done|]. split.
    { rewrite Hco3, <- Hco, !concat_app. simpl. rewrite !app_nil_r, <- !app_assoc.
      by rewrite take_drop. }
    split.
    + eapply heap_grows_trans; [exact Hgr|]. eapply heap_grows_trans; [|exact Hgr3].
      split; [lia|]. unfold addrs. rewrite Ec2, Ecs, !map_app. simpl. rewrite Ea2.
      apply Forall_forall. eauto.
    + intros Hss. apply Hne3, Forall_app. split; [by apply Hnn|]. repeat constructor.
      intros [_ E]%app_eq_nil. rewrite E in Hlt. unfold zlen in *. simpl in Hlt. lia.
Qed.

(** ** Contents *)

Lemma buf_peek_ok (h : heap) (rest : Z) (b : buf) (ss : list bytes) (n : Z) :
  buf_repr h rest b ss -> 0 <= n <= zlen (concat ss) ->
  buf_peek b n = Ok (take (Z.to_nat n) (concat ss)).
Proof.
  intros [Hch Hdl _] Hn. unfold buf_peek, tor_assert. rewrite (proj2 (Z.leb_le _ _)) by lia.
  apply peek_loop_ok; [apply Hch|done].
Qed.

Lemma buf_drain_ok (h : heap) (rest : Z) (b : buf) (ss : list bytes) (n : Z) :
  buf_repr h rest b ss -> 0 <= n <= zlen (concat ss) ->
  exists b' h' ss', buf_drain h b n = Ok (b', h') /\ buf_repr h' rest b' ss' /\
    concat ss' = drop (Z.to_nat n) (concat ss) /\ heap_grows h b h' b' /\ h_next h' = h_next h /\
    (Forall (fun s => s <> []) ss -> Forall (fun s => s <> []) ss').
Proof.
  intros [Hch Hdl Hdf] Hn. unfold buf_drain, tor_assert. rewrite (proj2 (Z.leb_le _ _)) by lia.
  destruct (drain_loop_ok _ _ _ _ _ n (b_datalen b) Hch Hdl Hn)
    as (cs' & ss' & tail' & h' & -> & Hch' & Hco & Hnx & _ & Ha & Hne). cbn [obind].
  eexists _, h', ss'. split; [done|]. split; [by split|]. split; [done|]. split; [|done].
  split; [lia|]. apply Forall_forall. intros a Hin. left. by apply Ha.
Qed.

Lemma buf_get_bytes_ok (h : heap) (rest : Z) (b : buf) (ss : list bytes) (n : Z) :
  buf_repr h rest b ss -> 0 <= n <= zlen (concat ss) -> zlen (concat ss) <= BUF_MAX_LEN ->
  exists b' h' ss',
    buf_get_bytes h b n = Ok (take (Z.to_nat n) (concat ss), zlen (concat ss'), b', h') /\
    buf_repr h' rest b' ss' /\ concat ss' = drop (Z.to_nat n) (concat ss) /\
    heap_grows h b h' b' /\ (Forall (fun s => s <> []) ss -> Forall (fun s => s <> []) ss').
Proof.
  intros Hb Hn Hmax. unfold buf_get_bytes. rewrite (buf_peek_ok _ _ _ _ _ Hb Hn). cbn [obind].
  destruct (buf_drain_ok _ _ _ _ _ Hb Hn) as (b' & h' & ss' & -> & Hb' & Hco & Hgr & _ & Hne).
  cbn [obind]. rewrite (r_datalen _ _ _ _ Hb'). unfold tor_assert.
  rewrite (proj2 (Z.leb_le _ _)) by (rewrite Hco; unfold zlen in *; rewrite length_drop; lia).
  exists b', h', ss'. by repeat (split; [done|]).
Qed.

Lemma buf_add_ok (h : heap) (rest : Z) (b : buf) (ss : list bytes) (s : bytes) :
  buf_repr h rest b ss -> zlen (concat ss) <= BUF_MAX_LEN -> zlen s <= BUF_MAX_LEN ->
  if zlen (concat ss) + zlen s <=? BUF_MAX_LEN
  then exists b' h' ss', buf_add h b s = Ok (zlen (concat ss ++ s), b', h') /\ buf_repr h' rest b' ss' /\
         concat ss' = concat ss ++ s /\ heap_grows h b h' b' /\
         (Forall (fun s => s <> []) ss -> Forall (fun s => s <> []) ss')
  else buf_add h b s = Err.
Proof.
  intros Hb Hmax Hs. unfold buf_add. rewrite (r_datalen _ _ _ _ Hb).
  rewrite (proj2 (Z.ltb_ge _ _)) by done.
  assert (wrap 64 (BUF_MAX_LEN - zlen s) = BUF_MAX_LEN - zlen s) as ->
    by (apply Z.mod_small; unfold zlen in *; consts; lia).
  destruct (Z.leb_spec (zlen (concat ss) + zlen s) BUF_MAX_LEN) as [Hle|Hgt].
  - destruct (Z.eqb_spec (zlen s) 0) as [Hz|Hz].
    { assert (s = []) as -> by (destruct s; [done|unfold zlen in Hz; simpl in Hz; lia]).
      exists b, h, ss. rewrite app_nil_r. split; [done|]. split; [done|]. split; [done|].
      split; [apply heap_grows_refl|done]. }
    rewrite (proj2 (Z.ltb_ge _ _)) by lia.
    destruct (add_loop_ok (length s) h rest b ss s) as (b' & h' & ss' & -> & Hb' & Hco & Hgr & Hne);
      [lia|consts; lia|done|]. cbn [obind]. rewrite (r_datalen _ _ _ _ Hb'), Hco. unfold tor_assert.
    rewrite (proj2 (Z.leb_le _ _)) by (rewrite zlen_app; lia).
    exists b', h', ss'. by repeat (split; [done|]).
  - pose proof (zlen_nonneg (concat ss)). rewrite (proj2 (Z.eqb_neq _ _)) by lia.
    by rewrite (proj2 (Z.ltb_lt _ _)) by lia.
Qed.

Lemma free_chunks_ok (cs : list chunk) : forall (h : heap) (rest : Z) (ss : list bytes) (tail : option Z),
  chain h rest cs ss tail ->
  exists h', free_chunks h cs = Ok h' /\ h_next h' = h_next h /\ h_total h' = rest.
Proof.
  induction cs as [|c cs IH]; intros h rest ss tail Hch.
  - exists h. split; [done|]. split; [done|]. apply Hch.
  - destruct (Forall2_cons_inv_l _ _ _ _ (r_chunks _ _ _ _ _ Hch)) as (s & ss' & _ & _ & ->).
    destruct (chain_free_head _ _ _ _ _ _ _ Hch) as (h1 & E & Hn & _ & Hch').
    destruct (IH _ _ _ _ Hch') as (h' & E' & Hn' & Ht'). exists h'. cbn [free_chunks].
    rewrite E. cbn [obind]. split; [done|]. split; [congruence|done].
Qed.

Lemma buf_clear_ok (h : heap) (rest : Z) (b : buf) (ss : list bytes) :
  buf_repr h rest b ss ->
  exists b' h', buf_clear h b = Ok (b', h') /\ buf_repr h' rest b' [] /\ heap_grows h b h' b' /\
    h_total h' = rest /\ b_chunks b' = [].
Proof.
  intros [Hch Hdl Hdf]. unfold buf_clear.
  destruct (free_chunks_ok _ _ _ _ _ Hch) as (h' & -> & Hn & Ht). cbn [obind].
  eexists _, h'. split; [done|]. split; [|split; [|done]].
  - split; simpl; [|done|done]. pose proof (r_rest _ _ _ _ _ Hch). split; simpl; (done || apply NoDup_nil_2 || constructor || lia).
  - split; [lia|constructor].
Qed.

(** ** Lines *)

Lemma memchr_app (s t : bytes) (ch : ascii) :
  memchr (s ++ t) ch (length (s ++ t)) =
  match memchr s ch (length s) with
  | Some k => Some k
  | None => (fun k : nat => (length s + k)%nat) <$> memchr t ch (length t)
  end.
Proof.
  induction s as [|x s IH]; cbn [app length memchr].
  - by destruct (memchr t ch (length t)).
  - destruct (decide (x = ch)); [done|]. rewrite IH. destruct (memchr s ch (length s)); [done|].
    by destruct (memchr t ch (length t)).
Qed.

Lemma chunk_memchr_ok (c : chunk) (s : bytes) (pos : Z) (ch : ascii) :
  chunk_ok c s -> 0 <= pos <= zlen s ->
  chunk_memchr c pos ch = Ok ((fun i : nat => pos + Z.of_nat i) <$>
    memchr (drop (Z.to_nat pos) s) ch (length (drop (Z.to_nat pos) s))).
Proof.
  intros Hc Hp. unfold chunk_memchr. rewrite (chunk_datalen _ _ Hc).
  rewrite (chunk_read c s pos (zlen s - pos)) by (done || lia). cbn [obind].
  rewrite take_ge by (rewrite length_drop; unfold zlen in *; lia). done.
Qed.

Lemma find_offset_loop_ok (cs : list chunk) (ss : list bytes) (ch : ascii) :
  Forall2 chunk_ok cs ss -> forall offset, find_offset_loop cs ch offset =
    Ok ((fun i : nat => offset + Z.of_nat i) <$> memchr (concat ss) ch (length (concat ss))).
Proof.
  induction 1 as [|c s cs ss Hc _ IH]; intros offset; cbn [find_offset_loop concat]; [done|].
  rewrite (chunk_memchr_ok c s 0 ch Hc) by (pose proof (zlen_nonneg s); lia). cbn [obind].
  rewrite memchr_app. simpl. rewrite drop_0.
  destruct (memchr s ch (length s)) as [k|]; simpl; [done|].
  rewrite IH, (chunk_datalen _ _ Hc). destruct (memchr (concat ss) ch _); simpl; [|done].
  do 2 f_equal. unfold zlen. lia.
Qed.

(** ** Pulling up *)

Lemma mem_write_split (mem a b : list cell) (s : bytes) (off : Z) :
  mem = a ++ b -> off = zlen a -> zlen s <= zlen b ->
  mem_write mem off s = Ok (a ++ map Some s ++ drop (length s) b).
Proof.
  intros -> -> Hs. pose proof (mem_write_after (a ++ b) a b [] s (zlen a) eq_refl) as H.
  simpl in H. apply H; [unfold zlen; simpl; lia|done].
Qed.

Lemma chunk_repack_ok (c : chunk) (s : bytes) : chunk_ok c s ->
  exists c', chunk_repack c = Ok c' /\ chunk_ok c' s /\ ch_addr c' = ch_addr c /\
    ch_memlen c' = ch_memlen c /\ ch_DBG_alloc c' = ch_DBG_alloc c /\ ch_data c' = 0.
Proof.
  intros (pre & post & Hm & Hd & Hn & Hb & Hz & Hg). unfold chunk_repack.
  destruct (Z.eqb_spec (ch_datalen c) 0) as [E|E]; cbn [negb andb obind].
  { eexists. split; [done|]. split; [|done]. assert (s = []) as -> by (destruct s; [done|len]).
    exists [], (ch_mem c). unfold chunk_window. simpl. unfold zlen in *. simpl in *. repeat split; lia. }
  destruct (Z.eqb_spec (ch_data c) 0) as [E2|E2]; cbn [negb andb obind].
  { eexists. split; [done|]. split; [|done]. assert (pre = []) as -> by (destruct pre; [done|len]).
    exists [], post. unfold chunk_window. simpl. unfold zlen in *. simpl in *. repeat split; try done; lia. }
  unfold amove. rewrite !(proj2 (Z.ltb_ge _ _)) by (unfold zlen in *; consts; lia). cbn [orb obind].
  eexists. split; [done|]. split; [|done].
  assert (Ht : take (Z.to_nat (ch_datalen c)) (drop (Z.to_nat (ch_data c)) (ch_mem c)) = map Some s).
  { rewrite Hm, Hd, Hn. unfold zlen. rewrite !Nat2Z.id, drop_app_length.
    by rewrite take_app_length' by (by rewrite length_map). }
  exists [], (drop (Z.to_nat (ch_datalen c)) (ch_mem c)). unfold chunk_window. simpl. rewrite Ht.
  split; [done|]. split; [done|]. split; [done|]. split; [unfold zlen in *; lia|]. split; [|done].
  rewrite <- Hz. unfold zlen in *. rewrite length_app, length_map, length_drop. consts. lia.
Qed.

Lemma chunk_grow_ok (rm : Z -> bool) (h : heap) (c : chunk) (s : bytes) (sz : Z) :
  chunk_ok c s -> ch_memlen c < sz ->
  exists c' h', chunk_grow rm h c sz = Ok (c', h') /\ chunk_ok c' s /\ ch_memlen c' = sz /\
    ch_data c' = ch_data c /\ ch_datalen c' = ch_datalen c /\
    h_total h' = h_total h + (CHUNK_ALLOC_SIZE sz - CHUNK_ALLOC_SIZE (ch_memlen c)) /\
    (ch_addr c' = ch_addr c /\ h_next h' = h_next h \/
     ch_addr c' = h_next h /\ h_next h' = h_next h + 1).
Proof.
  intros (pre & post & Hm & Hd & Hn & Hb & Hz & Hg) Hsz. unfold chunk_grow, tor_assert.
  rewrite (proj2 (Z.ltb_lt _ _)) by done. rewrite Hg, Z.eqb_refl. unfold CHUNK_SET_SENTINEL, tor_assert.
  cbn [ch_memlen ch_mem]. rewrite (proj2 (Z.eqb_eq _ _)) by (consts; lia).
  set (mem := ch_mem c ++ _).
  assert (Hml : zlen mem = sz + 4).
  { unfold mem, zlen in *. rewrite length_app, length_replicate. consts. lia. }
  assert (Ea : mem = (pre ++ map Some s ++ take (Z.to_nat (sz - zlen pre - zlen s)) (drop (length (pre ++ map Some s)) mem))
                  ++ drop (Z.to_nat sz) mem).
  { rewrite (app_assoc pre (map Some s)), <- app_assoc.
    replace (drop (Z.to_nat sz) mem) with
      (drop (Z.to_nat (sz - zlen pre - zlen s)) (drop (length (pre ++ map Some s)) mem)).
    - rewrite take_drop. unfold mem at 1. rewrite Hm, app_assoc, <- app_assoc. f_equal.
      unfold mem. by rewrite Hm, (app_assoc pre), <- app_assoc, drop_app_length.
    - rewrite drop_drop. f_equal. unfold zlen in *. rewrite length_app, length_map. lia. }
  pose proof (mem_write_split mem _ _ (replicate (Z.to_nat SENTINEL_LEN) NUL) sz Ea) as Hw.
  rewrite Hw; clear Hw; unfold zlen in *; rewrite ?length_app, ?length_take, ?length_drop, ?length_app,
    ?length_map, ?length_replicate in *; [|consts; lia|consts; lia].
  cbn [obind]. eexists _, _. split; [reflexivity|]. cbn.
  split; [|repeat (split; [done|]); destruct (rm (ch_addr c)); [by right|by left]].
  eexists pre, _. cbn. rewrite <- !app_assoc. split; [reflexivity|]. split; [done|]. split; [done|].
  split; [lia|]. split; [|done]. unfold zlen.
  rewrite ?length_app, ?length_map, ?length_take, ?length_drop, ?length_app, ?length_map, ?length_replicate.
  consts. lia.
Qed.

(** The second chunk is emptied into the first, which keeps its place. *)
Lemma chain_merge (h : heap) (rest : Z) (d c d' : chunk) (cs : list chunk) (sd s sd' : bytes)
    (ss : list bytes) (tail : option Z) :
  chain h rest (d :: c :: cs) (sd :: s :: ss) tail ->
  chunk_ok d' sd' -> ch_addr d' = ch_addr d -> ch_memlen d' = ch_memlen d ->
  exists h', buf_chunk_free_unchecked h c = Ok h' /\ h_next h' = h_next h /\
    chain h' rest (d' :: cs) (sd' :: ss)
      (if bool_decide (tail = Some (ch_addr c)) then Some (ch_addr d') else tail).
Proof.
  intros [[Hd [Hc Hcs]%Forall2_cons_1]%Forall2_cons_1 -> Hnd Ha Hr Ht] Hd' Ead Eml.
  pose proof (chunk_alloc_nonneg _ _ Hc). pose proof (chunk_alloc_nonneg _ _ Hd).
  pose proof (chunks_alloc_nonneg _ _ Hcs). cbn [chunks_alloc foldr] in Ht. fold (chunks_alloc cs) in Ht.
  cbn [map] in *. apply NoDup_cons in Hnd as [Hnd0 Hnd]. apply NoDup_cons in Hnd as [Hnc Hnd].
  apply Forall_cons in Ha as [Ha0 Ha]. apply Forall_cons in Ha as [Ha1 Ha].
  assert (Hdbg : ch_DBG_alloc c = CHUNK_ALLOC_SIZE (ch_memlen c))
    by (by destruct Hc as (? & ? & ? & ? & ? & ? & ? & ?)).
  unfold buf_chunk_free_unchecked, tor_assert. rewrite Hdbg, Z.eqb_refl.
  rewrite (proj2 (Z.leb_le _ _)) by (consts; lia). eexists. split; [done|]. split; [done|].
  split; cbn [map h_next h_total]; try done.
  - by constructor.
  - destruct cs as [|x cs]; [by rewrite bool_decide_true|]. rewrite !last_cons_cons.
    rewrite bool_decide_false; [done|]. intros E. apply Hnc.
    destruct (last (x :: cs)) as [y|] eqn:El; [|done]. injection E as E. rewrite <- E.
    apply list_elem_of_In, (in_map ch_addr (x :: cs)), list_elem_of_In. by apply last_Some_elem_of.
  - rewrite Ead. constructor; [|done]. intros Hin. apply Hnd0. by right.
  - constructor; [lia|done].
  - cbn [chunks_alloc foldr]. fold (chunks_alloc cs). rewrite Eml. lia.
Qed.

Lemma chain_replace_head (h : heap) (rest : Z) (d d' : chunk) (cs : list chunk) (sd sd' : bytes)
    (ss : list bytes) (tail : option Z) :
  chain h rest (d :: cs) (sd :: ss) tail ->
  chunk_ok d' sd' -> ch_addr d' = ch_addr d -> ch_memlen d' = ch_memlen d ->
  chain h rest (d' :: cs) (sd' :: ss) tail.
Proof.
  intros [[Hd Hcs]%Forall2_cons_1 -> Hnd Ha Hr Ht] Hd' Ead Eml. cbn [map] in *.
  split; cbn [map]; rewrite ?Ead; try done.
  - by constructor.
  - destruct cs; [simpl; by rewrite Ead|done].
  - cbn [chunks_alloc foldr] in *. by rewrite Eml.
Qed.

Lemma pullup_loop_ok (n : Z) (cs : list chunk) : forall (h : heap) (rest : Z) (d : chunk) (sd : bytes)
    (ss : list bytes) (tail : option Z),
  chain h rest (d :: cs) (sd :: ss) tail -> n <= zlen (concat (sd :: ss)) ->
  ch_data d + n <= ch_memlen d ->
  exists d' cs' sd' ss' tail' h',
    pullup_loop h d cs tail n = Ok (d', cs', tail', h') /\ chain h' rest (d' :: cs') (sd' :: ss') tail' /\
    concat (sd' :: ss') = concat (sd :: ss) /\ n <= zlen sd' /\ h_next h' = h_next h /\
    (forall a, a ∈ map ch_addr (d' :: cs') -> a ∈ map ch_addr (d :: cs)).
Proof.
  induction cs as [|c cs IH]; intros h rest d sd ss tail Hch Hn Hroom; cbn [pullup_loop];
    destruct (Forall2_cons_1 _ _ _ _ _ (r_chunks _ _ _ _ _ Hch)) as [Hd Hcs];
    rewrite (chunk_datalen _ _ Hd).
  - apply Forall2_nil_inv_l in Hcs as ->. cbn [concat] in *. rewrite app_nil_r in Hn.
    rewrite (proj2 (Z.ltb_ge _ _)) by done. exists d, [], sd, [], tail, h. by repeat (split; [done|]).
  - destruct (Z.ltb_spec (zlen sd) n) as [Hlt|Hge].
    2: { exists d, (c :: cs), sd, ss, tail, h. by repeat (split; [done|]). }
    apply Forall2_cons_inv_l in Hcs as (s & ss' & Hc & Hcs & ->). rewrite (chunk_datalen _ _ Hc).
    pose proof (zlen_nonneg s). rewrite <- (Z.add_0_r (ch_data c)).
    assert (Hcap : CHUNK_REMAINING_CAPACITY d = ch_memlen d - ch_data d - zlen sd)
      by (unfold CHUNK_REMAINING_CAPACITY; rewrite (chunk_datalen _ _ Hd); lia).
    destruct (Z.leb_spec (zlen s) (n - zlen sd)) as [Hle|Hgt].
    + rewrite (chunk_read c s 0 (zlen s) Hc) by lia. rewrite drop_0.
      replace (take (Z.to_nat (zlen s)) s) with s by (rewrite take_ge; unfold zlen; [done|lia]).
      cbn [obind]. destruct (chunk_append d sd s Hd) as (mem & -> & Hd'); [lia|]. cbn [obind].
      rewrite (chunk_datalen _ _ Hd) in Hd'.
      destruct (chain_merge _ _ _ _ _ _ _ _ _ _ _ Hch Hd' eq_refl eq_refl) as (h' & -> & Hnx & Hch').
      cbn [obind]. cbn [ch_addr chunk_window] in Hch' |- *.
      destruct (IH _ _ _ _ _ _ Hch') as (d' & cs' & sd' & ss2 & tail' & h2 & -> & Hch2 & Hco & Hn2 & Hnx2 & Ha).
      * cbn [concat] in *. rewrite <- app_assoc. done.
      * done.
      * exists d', cs', sd', ss2, tail', h2. split; [done|]. split; [done|]. split.
        { rewrite Hco. cbn [concat]. by rewrite <- app_assoc. }
        split; [done|]. split; [congruence|]. intros a Hin. apply Ha in Hin.
        cbn [map] in *. apply elem_of_cons in Hin as [->|Hin]; [by left|by right; right].
    + rewrite (chunk_read c s 0 (n - zlen sd) Hc) by lia. rewrite drop_0.
      assert (Hzt : zlen (take (Z.to_nat (n - zlen sd)) s) = n - zlen sd)
        by (unfold zlen in *; rewrite length_take; lia).
      cbn [obind]. destruct (chunk_append d sd (take (Z.to_nat (n - zlen sd)) s) Hd) as (mem & -> & Hd'); [lia|].
      cbn [obind]. rewrite Hzt, (chunk_datalen _ _ Hd) in Hd'. unfold tor_assert.
      rewrite (proj2 (Z.eqb_eq _ _)) by (cbn; lia).
      eexists _, _, (sd ++ take (Z.to_nat (n - zlen sd)) s), (drop (Z.to_nat (n - zlen sd)) s :: ss'), tail, h.
      split; [reflexivity|]. split; [|split; [|split; [|split; [done|done]]]].
      * pose proof (chain_replace_head _ _ _ _ _ _ _ _ _ Hch Hd' eq_refl eq_refl) as Hch1.
        destruct Hch1 as [[H1 [_ H2]%Forall2_cons_1]%Forall2_cons_1 H3 H4 H5 H6 H7]. split; try done.
        -- constructor; [done|]. constructor; [|done]. rewrite Z.add_0_r.
           rewrite <- (chunk_datalen _ _ Hc). apply (chunk_ok_drop c s (n - zlen sd) Hc). lia.
        -- rewrite H3. by destruct cs.
      * cbn [concat]. rewrite <- app_assoc. f_equal. by rewrite app_assoc, take_drop.
      * rewrite zlen_app. lia.
Qed.

Lemma chain_grow_head (h h' : heap) (rest : Z) (c c' : chunk) (cs : list chunk) (s : bytes)
    (ss : list bytes) (tail : option Z) :
  chain h rest (c :: cs) (s :: ss) tail -> chunk_ok c' s ->
  h_total h' = h_total h + (CHUNK_ALLOC_SIZE (ch_memlen c') - CHUNK_ALLOC_SIZE (ch_memlen c)) ->
  (ch_addr c' = ch_addr c /\ h_next h' = h_next h \/
   ch_addr c' = h_next h /\ h_next h' = h_next h + 1) ->
  chain h' rest (c' :: cs) (s :: ss)
    (if bool_decide (tail = Some (ch_addr c)) then Some (ch_addr c') else tail).
Proof.
  intros [[Hc Hcs]%Forall2_cons_1 -> Hnd Ha Hr Ht] Hc' Htot Haddr. cbn [map] in *.
  apply NoDup_cons in Hnd as [Hni Hnd]. apply Forall_cons in Ha as [Ha0 Ha].
  rewrite Forall_forall in Ha. split; cbn [map]; try done.
  - by constructor.
  - destruct cs as [|x cs]; [by rewrite bool_decide_true|]. rewrite !last_cons_cons.
    rewrite bool_decide_false; [done|]. intros E. apply Hni.
    destruct (last (x :: cs)) as [y|] eqn:El; [|done]. injection E as E. rewrite <- E.
    apply list_elem_of_In, (in_map ch_addr (x :: cs)), list_elem_of_In. by apply last_Some_elem_of.
  - constructor; [|done]. intros Hin. destruct Haddr as [[E _]|[E _]]; rewrite E in Hin; [done|].
    specialize (Ha _ Hin). lia.
  - apply Forall_forall. intros a [->|Hin]%elem_of_cons; [lia|]. specialize (Ha _ Hin). lia.
  - cbn [chunks_alloc foldr] in *. lia.
Qed.

Lemma pullup_room_ok (rm : Z -> bool) (h : heap) (rest : Z) (b : buf) (head : chunk) (cs : list chunk)
    (s : bytes) (ss : list bytes) (capacity : Z) :
  chain h rest (head :: cs) (s :: ss) (b_tail b) -> zlen s < capacity <= BUF_MAX_LEN ->
  exists c tail h', pullup_room rm h b head capacity = Ok (c, tail, h') /\
    chain h' rest (c :: cs) (s :: ss) tail /\ ch_data c + capacity <= ch_memlen c /\
    (ch_addr c = ch_addr head /\ h_next h' = h_next h \/
     ch_addr c = h_next h /\ h_next h' = h_next h + 1).
Proof.
  intros Hch Hcap. destruct (Forall2_cons_1 _ _ _ _ _ (r_chunks _ _ _ _ _ Hch)) as [Hc _].
  pose proof (chunk_datalen _ _ Hc) as Hd. pose proof (zlen_nonneg s).
  destruct (chunk_repack_ok head s Hc) as (c1 & Er & Hc1 & Ha1 & Hm1 & _ & Hd1).
  unfold pullup_room. destruct (Z.leb_spec capacity (ch_memlen head)) as [Hle|Hgt].
  - assert (exists c, (if CHUNK_REMAINING_CAPACITY head <? capacity - ch_datalen head
                       then chunk_repack head else Ok head) = Ok c /\ chunk_ok c s /\
              ch_addr c = ch_addr head /\ ch_memlen c = ch_memlen head /\
              ch_data c + capacity <= ch_memlen c) as (c & -> & Hc2 & Ha2 & Hm2 & Hroom).
    { unfold CHUNK_REMAINING_CAPACITY. destruct (Z.ltb_spec (ch_memlen head - (ch_data head + ch_datalen head))
        (capacity - ch_datalen head)).
      - exists c1. split; [done|]. split; [done|]. split; [done|]. split; [done|lia].
      - exists head. split; [done|]. split; [done|]. split; [done|]. split; [done|lia]. }
    cbn [obind]. unfold tor_assert, CHUNK_REMAINING_CAPACITY. rewrite (chunk_datalen _ _ Hc2), Hd.
    rewrite (proj2 (Z.leb_le _ _)) by lia. exists c, (b_tail b), h. split; [done|].
    split; [by apply (chain_replace_head _ _ _ _ _ _ _ _ _ Hch)|]. split; [done|]. by left.
  - rewrite Er. cbn [obind]. destruct (preferred_ok capacity) as (sz & -> & Hsz & _); [consts; lia|].
    cbn [obind]. destruct (chunk_grow_ok rm h c1 s (CHUNK_SIZE_WITH_ALLOC sz) Hc1)
      as (c2 & h2 & -> & Hc2 & Hm2 & Hd2 & _ & Ht2 & Ha2); [lia|]. cbn [obind]. unfold tor_assert.
    rewrite (proj2 (Z.leb_le _ _)) by lia. eexists c2, _, h2. split; [reflexivity|].
    rewrite Ha1. split; [|split; [lia|by rewrite <- Ha1]].
    apply (chain_grow_head _ _ _ _ _ _ _ _ _ Hch Hc2); [rewrite Hm2, <- Hm1; lia|by rewrite <- Ha1].
Qed.

Lemma buf_pullup_ok (rm : Z -> bool) (h : heap) (rest : Z) (b : buf) (ss : list bytes) (n : Z) :
  buf_repr h rest b ss -> 0 <= n -> zlen (concat ss) <= BUF_MAX_LEN ->
  exists b' out h' ss' more, buf_pullup rm h b n = Ok (b', out, h') /\ buf_repr h' rest b' ss' /\
    concat ss' = concat ss /\ heap_grows h b h' b' /\
    concat ss = out ++ more /\ Z.min n (zlen (concat ss)) <= zlen out.
Proof.
  intros Hb Hn Hmax. destruct Hb as [Hch Hdl Hdf]. unfold buf_pullup.
  destruct (b_chunks b) as [|head cs] eqn:Ec.
  { pose proof (Forall2_nil_inv_l _ _ (r_chunks _ _ _ _ _ Hch)) as ->.
    exists b, [], h, [], []. split; [done|]. split; [by split; rewrite ?Ec|]. split; [done|].
    split; [apply heap_grows_refl|]. split; [done|]. unfold zlen. simpl. lia. }
  destruct (Forall2_cons_inv_l _ _ _ _ (r_chunks _ _ _ _ _ Hch)) as (s & ss' & Hc & _ & ->).
  set (m := if b_datalen b <? n then b_datalen b else n).
  assert (Hm : m = Z.min n (zlen (concat (s :: ss')))) by (unfold m; destruct (Z.ltb_spec (b_datalen b) n); lia).
  clearbody m. rewrite (chunk_datalen _ _ Hc). pose proof (zlen_nonneg s).
  destruct (Z.leb_spec m (zlen s)) as [Hle|Hgt].
  - rewrite <- (Z.add_0_r (ch_data head)), (chunk_read head s 0 (zlen s) Hc) by lia. cbn [obind].
    rewrite drop_0, take_ge by (unfold zlen; lia).
    exists b, s, h, (s :: ss'), (concat ss'). split; [done|]. split; [by split; rewrite ?Ec|].
    split; [done|]. split; [apply heap_grows_refl|]. split; [done|]. lia.
  - destruct (pullup_room_ok rm h rest b head cs s ss' m Hch) as (c & tail & h1 & -> & Hch1 & Hroom & Ha);
      [lia|]. cbn [obind].
    destruct (pullup_loop_ok m cs h1 rest c s ss' tail Hch1) as
      (d' & cs' & sd' & ss2 & tail' & h2 & -> & Hch2 & Hco & Hn2 & Hnx & Hin); [lia|done|]. cbn [obind].
    destruct (Forall2_cons_1 _ _ _ _ _ (r_chunks _ _ _ _ _ Hch2)) as [Hd' _].
    rewrite (chunk_datalen _ _ Hd'). rewrite <- (Z.add_0_r (ch_data d')).
    pose proof (zlen_nonneg sd'). rewrite (chunk_read d' sd' 0 (zlen sd') Hd') by lia. cbn [obind].
    rewrite drop_0, take_ge by (unfold zlen; lia).
    eexists _, sd', h2, (sd' :: ss2), (concat ss2). split; [reflexivity|]. split.
    { split; cbn; [done|by rewrite Hdl, <- Hco|done]. }
    split; [done|]. split; [|split; [by rewrite <- Hco|lia]].
    split; [lia|]. apply Forall_forall. intros a Hi. apply Hin in Hi. unfold addrs. rewrite Ec.
    cbn [map] in *. apply elem_of_cons in Hi as [->|Hi]; [|left; by right].
    destruct Ha as [[-> _]|[-> _]]; [left; by left|right; lia].
Qed.

(** ** One buffer: searches and lines *)

Lemma startswith_ok (h : heap) (rest : Z) (b : buf) (ss : list bytes) (cmd : bytes) :
  buf_repr h rest b ss -> zlen cmd <= PEEK_BUF_STARTSWITH_MAX ->
  buf_peek_startswith b cmd = Ok (bool_decide (cmd `prefix_of` concat ss)).
Proof.
  intros Hb Hc. unfold buf_peek_startswith. pose proof (zlen_nonneg cmd).
  destruct (Z.eqb_spec (zlen cmd) 0) as [Hz|Hz].
  { assert (cmd = []) as -> by (destruct cmd; [done|len]).
    rewrite bool_decide_true by apply prefix_nil. done. }
  rewrite (proj2 (Z.ltb_ge _ _)) by done. rewrite (r_datalen _ _ _ _ Hb).
  destruct (Z.ltb_spec (zlen (concat ss)) (zlen cmd)) as [Hlt|Hge].
  - rewrite bool_decide_false; [done|]. intros Hp%prefix_length. unfold zlen in *. lia.
  - rewrite (buf_peek_ok _ _ _ _ _ Hb) by lia. cbn [obind]. unfold fast_memeq. f_equal.
    rewrite take_take. unfold zlen. rewrite Nat2Z.id, Nat.min_id, firstn_all.
    apply bool_decide_ext. split.
    + intros E. rewrite <- E. apply prefix_take.
    + intros [k ->]. by rewrite take_app_length.
Qed.

Lemma buf_get_line_ok (h : heap) (rest : Z) (b : buf) (ss : list bytes) (data_out : bytes) :
  buf_repr h rest b ss -> zlen (concat ss) <= BUF_MAX_LEN ->
  match memchr (concat ss) NL (length (concat ss)) with
  | None => buf_get_line h b data_out (zlen data_out) = Ok NoLine
  | Some k =>
      if zlen data_out <? Z.of_nat k + 2
      then buf_get_line h b data_out (zlen data_out) = Ok (LineTooLong (Z.of_nat k + 2))
      else exists b' h' ss', buf_get_line h b data_out (zlen data_out) =
             Ok (Line (take (k + 1) (concat ss) ++ NUL :: drop (k + 2) data_out) (Z.of_nat k + 1) b' h') /\
             buf_repr h' rest b' ss' /\ concat ss' = drop (k + 1) (concat ss) /\ heap_grows h b h' b'
  end.
Proof.
  intros Hb Hmax. unfold buf_get_line, buf_find_offset_of_char.
  destruct (b_chunks b) as [|c cs] eqn:Ec.
  { pose proof (r_chunks _ _ _ _ _ (r_chain _ _ _ _ Hb)) as Hc. rewrite Ec in Hc.
    by apply Forall2_nil_inv_l in Hc as ->. }
  rewrite (r_datalen _ _ _ _ Hb). unfold tor_assert. rewrite (proj2 (Z.leb_le _ _)) by done.
  rewrite <- Ec, (find_offset_loop_ok _ ss NL (r_chunks _ _ _ _ _ (r_chain _ _ _ _ Hb)) 0).
  cbn [obind]. pose proof (memchr_ok (length (concat ss)) (concat ss) NL) as Hk.
  destruct (memchr (concat ss) NL _) as [k|]; cbn [fmap option_fmap option_map]; [|done].
  destruct Hk as (_ & Hk & _). rewrite Z.add_0_l.
  destruct (Z.ltb_spec (zlen data_out) (Z.of_nat k + 2)) as [Hlt|Hge]; [done|].
  destruct (buf_get_bytes_ok h rest b ss (Z.of_nat k + 1) Hb) as (b' & h' & ss' & -> & Hb' & Hco & Hgr & _);
    [unfold zlen in *; lia|done|]. cbn [obind].
  replace (Z.to_nat (Z.of_nat k + 1)) with (k + 1)%nat in * by lia.
  assert (Hl : length (take (k + 1) (concat ss)) = (k + 1)%nat) by (rewrite length_take; lia).
  unfold zlen at 1 2. rewrite Hl, (proj2 (Z.ltb_ge _ _)) by (unfold zlen in *; lia).
  assert (Ed : drop (k + 1) data_out = deref (drop (k + 1) data_out) :: drop (k + 2) data_out).
  { destruct (drop (k + 1) data_out) as [|x t] eqn:E.
    - apply (f_equal length) in E. rewrite length_drop in E. unfold zlen in *. simpl in E. lia.
    - cbn [deref]. f_equal. replace (k + 2)%nat with (k + 1 + 1)%nat by lia.
      rewrite <- (drop_drop data_out 1 (k + 1)), E. done. }
  rewrite Ed, aset_emit by (rewrite Hl; lia). cbn [obind]. rewrite <- app_assoc.
  exists b', h', ss'. done.
Qed.

(** The buffer holds [l] in chunks of some sizes, within the documented maximum. *)
Definition buf_holds (h : heap) (rest : Z) (b : buf) (l : bytes) : Prop :=
  zlen l <= BUF_MAX_LEN /\ exists ss, concat ss = l /\ buf_repr h rest b ss.

Lemma buf_new_holds (h : heap) : 0 <= h_total h -> buf_holds h (h_total h) buf_new [].
Proof.
  intros Ht. split; [done|]. exists []. split; [done|].
  split; cbn; [|done|done]. split; cbn; (done || apply NoDup_nil_2 || constructor || lia).
Qed.

(** ** Two buffers on one heap *)

Record two_bufs (h : heap) (rest : Z) (b1 : buf) (ss1 : list bytes) (b2 : buf) (ss2 : list bytes)
    : Prop := {
  t_one : buf_repr h (buf_allocation b2 + rest) b1 ss1;
  t_two : buf_repr h (buf_allocation b1 + rest) b2 ss2;
  t_disjoint : forall a, a ∈ addrs b1 -> a ∈ addrs b2 -> False;
  t_rest : 0 <= rest
}.

Lemma two_bufs_sym (h : heap) (rest : Z) (b1 b2 : buf) (ss1 ss2 : list bytes) :
  two_bufs h rest b1 ss1 b2 ss2 -> two_bufs h rest b2 ss2 b1 ss1.
Proof. intros [H1 H2 H3 H4]. split; eauto. Qed.

(** An operation on one buffer leaves the other alone. *)
Lemma two_bufs_frame (h h' : heap) (rest : Z) (b1 b2 b2' : buf) (ss1 ss2 ss2' : list bytes) :
  two_bufs h rest b1 ss1 b2 ss2 -> buf_repr h' (buf_allocation b1 + rest) b2' ss2' ->
  heap_grows h b2 h' b2' -> two_bufs h' rest b1 ss1 b2' ss2'.
Proof.
  intros [[[H1 H2 H3 H4 H5 H6] H7 H8] [Hc2 _ _] Hd Hr] Hb [Hnx Hgr]. rewrite Forall_forall in H4, Hgr.
  split; try done.
  - split; [|done|done]. split; try done.
    + apply Forall_forall. intros a Ha. specialize (H4 a Ha). lia.
    + pose proof (chunks_alloc_nonneg _ _ (r_chunks _ _ _ _ _ (r_chain _ _ _ _ Hb))) as Hn.
      change (chunks_alloc (b_chunks b2')) with (buf_allocation b2') in Hn. lia.
    + pose proof (r_total _ _ _ _ _ (r_chain _ _ _ _ Hb)) as Ht.
      change (chunks_alloc (b_chunks b2')) with (buf_allocation b2') in Ht.
      change (chunks_alloc (b_chunks b1)) with (buf_allocation b1). lia.
  - intros a Ha1 Ha2. destruct (Hgr a Ha2) as [Hin|Hge]; [eauto|]. specialize (H4 a Ha1). simpl in H4. lia.
Qed.

Lemma move_loop_ok (fuel : nat) : forall (h : heap) (rest : Z) (bo bi : buf) (so si : list bytes) (len : Z),
  two_bufs h rest bo so bi si -> 0 <= len <= zlen (concat si) -> len <= Z.of_nat fuel ->
  zlen (concat si) <= BUF_MAX_LEN -> zlen (concat so) + len <= BUF_MAX_LEN ->
  exists bo' bi' h' so' si', move_loop fuel h bo bi len = Ok (bo', bi', h') /\
    two_bufs h' rest bo' so' bi' si' /\
    concat so' = concat so ++ take (Z.to_nat len) (concat si) /\
    concat si' = drop (Z.to_nat len) (concat si).
Proof.
  induction fuel as [|f IH]; intros h rest bo bi so si len H2 Hl Hf Hmi Hmo; cbn [move_loop];
    destruct (Z.eqb_spec len 0) as [->|Hz]; try lia.
  1, 2: exists bo, bi, h, so, si; rewrite app_nil_r; done.
  set (n := if 4096 <? len then 4096 else len).
  assert (Hn : 0 < n <= len) by (unfold n; destruct (Z.ltb_spec 4096 len); lia). clearbody n.
  destruct (buf_get_bytes_ok h _ bi si n (t_two _ _ _ _ _ _ H2)) as (bi1 & h1 & si1 & -> & Hbi & Hco & Hgr & _);
    [lia|done|]. cbn [obind].
  pose proof (two_bufs_frame _ _ _ _ _ _ _ _ _ H2 Hbi Hgr) as H3.
  apply two_bufs_sym in H3.
  assert (Hzt : zlen (take (Z.to_nat n) (concat si)) = n) by (unfold zlen in *; rewrite length_take; lia).
  pose proof (buf_add_ok h1 _ bo so (take (Z.to_nat n) (concat si)) (t_two _ _ _ _ _ _ H3)) as Ha.
  rewrite Hzt, (proj2 (Z.leb_le _ _)) in Ha by lia.
  destruct Ha as (bo1 & h2 & so1 & -> & Hbo & Hco2 & Hgr2 & _); [lia|lia|]. cbn [obind].
  pose proof (two_bufs_sym _ _ _ _ _ _ (two_bufs_frame _ _ _ _ _ _ _ _ _ H3 Hbo Hgr2)) as H4.
  destruct (IH h2 rest bo1 bi1 so1 si1 (len - n) H4) as (bo' & bi' & h' & so' & si' & -> & H5 & E1 & E2).
  - rewrite Hco. unfold zlen in *. rewrite length_drop. lia.
  - lia.
  - rewrite Hco. unfold zlen in *. rewrite length_drop. lia.
  - rewrite Hco2, zlen_app, Hzt. lia.
  - exists bo', bi', h', so', si'. split; [done|]. split; [done|]. rewrite E1, E2, Hco2, Hco.
    rewrite <- app_assoc. split; [f_equal|].
    + replace (Z.to_nat len) with (Z.to_nat n + Z.to_nat (len - n))%nat by lia. by rewrite take_take_drop.
    + rewrite drop_drop. f_equal. lia.
Qed.

Lemma buf_move_all_ok (h : heap) (rest : Z) (bo bi : buf) (so si : list bytes) :
  two_bufs h rest bo so bi si -> zlen (concat so) + zlen (concat si) <= BUF_MAX_LEN ->
  exists bo' bi' so' si', buf_move_all bo bi = Ok (zlen (concat si), bo', bi') /\
    two_bufs h rest bo' so' bi' si' /\
    concat so' = concat so ++ concat si /\ concat si' = [].
Proof.
  intros H2 Hmax. pose proof (t_one _ _ _ _ _ _ H2) as [Ho Hdo Hfo].
  pose proof (t_two _ _ _ _ _ _ H2) as [Hi Hdi Hfi]. unfold buf_move_all. rewrite Hdo, Hdi.
  pose proof (zlen_nonneg (concat so)). pose proof (zlen_nonneg (concat si)).
  destruct (Z.eqb_spec (zlen (concat si)) 0) as [Hz|Hz].
  { assert (E : concat si = []) by (destruct (concat si); [done|len]). rewrite E.
    exists bo, bi, so, si. rewrite app_nil_r. done. }
  rewrite (proj2 (Z.ltb_ge BUF_MAX_LEN _)), (proj2 (Z.ltb_ge _ _)), (proj2 (Z.ltb_ge _ _)) by lia.
  cbn [orb].
  assert ((match b_chunks bo with [] => Ok (b_chunks bi)
           | _ :: _ => let* _ := get (b_tail bo) in link_tail bo (b_chunks bi) (b_tail bi) end)
          = Ok (b_chunks bo ++ b_chunks bi)) as ->.
  { rewrite (link_tail_ok _ _ _ _ _ _ Ho).
    destruct (chain_empty_tail _ _ _ _ _ Ho) as [(-> & -> & _)|(c0 & c & _ & _ & E & _ & -> & _)]; [done|].
    rewrite E. by destruct c0. }
  cbn [obind]. eexists _, _, (so ++ si), []. split; [reflexivity|]. rewrite concat_app. split; [|done].
  assert (Hne : b_chunks bi <> []).
  { intros E. pose proof (r_chunks _ _ _ _ _ Hi) as Hc. rewrite E in Hc.
    apply Forall2_nil_inv_l in Hc as ->. apply Hz. done. }
  assert (Hchain : chain h rest (b_chunks bo ++ b_chunks bi) (so ++ si) (b_tail bi)).
  { destruct Ho as [O1 O2 O3 O4 O5 O6], Hi as [I1 I2 I3 I4 I5 I6]. split.
    - by apply Forall2_app.
    - rewrite I2. destruct (snoc_inv _ Hne) as (c0 & c & ->). by rewrite app_assoc, !last_snoc.
    - rewrite map_app. apply NoDup_app. split; [done|]. split; [|done].
      intros a Ha Hb. by apply (t_disjoint _ _ _ _ _ _ H2 a).
    - rewrite map_app. by apply Forall_app.
    - apply H2.
    - rewrite chunks_alloc_app. change (buf_allocation bi) with (chunks_alloc (b_chunks bi)) in O6. lia. }
  split; [split; [|rewrite concat_app, zlen_app; done|done]|split; [|done|done]| |apply H2].
  - exact Hchain.
  - split; cbn; (done || apply NoDup_nil_2 || constructor || idtac).
    + pose proof (chunks_alloc_nonneg _ _ (r_chunks _ _ _ _ _ Hchain)) as Hn.
      unfold buf_allocation, with_chunks. cbn. unfold chunks_alloc in Hn. pose proof (t_rest _ _ _ _ _ _ H2). lia.
    + by rewrite (r_total _ _ _ _ _ Hchain).
  - intros a _ Hb. cbn in Hb. by apply elem_of_nil in Hb.
Qed.

Lemma copy_chunks_ok (cs : list chunk) (ss : list bytes) : Forall2 chunk_ok cs ss ->
  forall (h : heap) (rest : Z) (out : buf) (so : list bytes),
  chain h rest (b_chunks out) so (b_tail out) ->
  exists out' h', copy_chunks h out cs = Ok (out', h') /\
    chain h' rest (b_chunks out') (so ++ ss) (b_tail out') /\ heap_grows h out h' out' /\
    b_default_chunk_size out' = b_default_chunk_size out.
Proof.
  induction 1 as [|c s cs ss Hc _ IH]; intros h rest out so Hch; cbn [copy_chunks].
  - exists out, h. rewrite app_nil_r. split; [done|]. split; [done|]. split; [apply heap_grows_refl|done].
  - destruct (chunk_copy h c) as [c' h1] eqn:Ecp. unfold chunk_copy in Ecp.
    assert (Hc' : chunk_ok c' s /\ ch_addr c' = h_next h /\
      h1 = {| h_next := h_next h + 1; h_total := h_total h + CHUNK_ALLOC_SIZE (ch_memlen c');
              h_stamp := h_stamp h |}).
    { injection Ecp as <- <-. split; [|done]. destruct Hc as (pre & post & ? & ? & ? & ? & ? & ?).
      by exists pre, post. }
    destruct Hc' as (Hc' & Ha & ->). clear Ecp.
    pose proof (chain_snoc _ _ _ _ _ _ c' s Hch Hc' Ha eq_refl) as Hch1.
    rewrite (link_tail_ok _ _ _ _ _ _ Hch). cbn [obind].
    destruct (IH _ rest (with_chunks out (b_datalen out) (b_chunks out ++ [c']) (Some (ch_addr c'))) _ Hch1)
      as (out' & h' & -> & Hch' & Hgr & Hdf).
    exists out', h'. rewrite <- app_assoc in Hch'. split; [done|]. split; [done|].
    split; [|done]. eapply heap_grows_trans; [|exact Hgr]. split; [cbn; lia|].
    unfold addrs. cbn. rewrite map_app. apply Forall_app. split; [apply Forall_forall; eauto|].
    apply Forall_singleton. right. lia.
Qed.

Lemma buf_copy_ok (h : heap) (rest : Z) (b : buf) (ss : list bytes) :
  buf_repr h rest b ss ->
  exists out h', buf_copy h b = Ok (out, h') /\ two_bufs h' rest b ss out ss.
Proof.
  intros Hb. unfold buf_copy. set (out0 := Build_buf 0 _ [] None).
  pose proof (r_chain _ _ _ _ Hb) as Hch. pose proof (r_rest _ _ _ _ _ Hch) as Hr.
  pose proof (chunks_alloc_nonneg _ _ (r_chunks _ _ _ _ _ Hch)) as Ha.
  assert (Hout0 : buf_repr h (buf_allocation b + rest) out0 []).
  { split; [|done|apply Hb]. split; cbn; (done || apply NoDup_nil_2 || constructor || idtac).
    - unfold buf_allocation. unfold chunks_alloc in Ha. lia.
    - apply Hch. }
  assert (H2 : two_bufs h rest b ss out0 []).
  { split; [done|done| |done]. intros a _ Hin. by apply elem_of_nil in Hin. }
  destruct (copy_chunks_ok _ _ (r_chunks _ _ _ _ _ Hch) h _ out0 [] (r_chain _ _ _ _ Hout0))
    as (out' & h' & -> & Hch' & Hgr & Hdf). cbn [obind].
  eexists _, h'. split; [reflexivity|]. apply (two_bufs_frame _ _ _ _ _ _ _ _ _ H2); [|done].
  split; [done|apply Hb|]. cbn. rewrite Hdf. apply Hb.
Qed.

(** ** Searching *)

(** The position shows the bytes [r] to the end of the buffer; no chunk is empty. *)
Definition pos_shows (p : buf_pos) (r : bytes) : Prop :=
  exists ss, Forall2 chunk_ok (p_chunk p) ss /\ Forall (fun s => s <> []) ss /\
    zlen (concat ss) <= BUF_MAX_LEN /\ r = drop (Z.to_nat (p_pos p)) (concat ss) /\
    match ss with [] => p_pos p = 0 | s :: _ => 0 <= p_pos p < zlen s end.

Definition abs_pos (p : buf_pos) : Z := p_chunk_pos p + p_pos p.

Lemma find_char_loop_ok (ch : ascii) (cs : list chunk) (ss : list bytes) :
  Forall2 chunk_ok cs ss -> Forall (fun s => s <> []) ss ->
  zlen (concat ss) <= BUF_MAX_LEN -> forall pos cp,
  match ss with [] => pos = 0 | s :: _ => 0 <= pos < zlen s end ->
  let r := drop (Z.to_nat pos) (concat ss) in
  match memchr r ch (length r) with
  | None => find_char_loop cs pos cp ch = Ok None
  | Some k => exists p', find_char_loop cs pos cp ch = Ok (Some p') /\
                pos_shows p' (drop k r) /\ abs_pos p' = cp + pos + Z.of_nat k
  end.
Proof.
  induction 1 as [|c s cs ss Hc Hcs IH]; intros Hne Hmax pos cp Hpos; cbn zeta;
    cbn [find_char_loop concat]; [by rewrite drop_nil|].
  apply Forall_cons in Hne as [Hs Hne]. cbn [concat] in Hmax. rewrite zlen_app in Hmax.
  pose proof (zlen_nonneg (concat ss)).
  rewrite (chunk_memchr_ok c s pos ch Hc) by lia. cbn [obind].
  assert (Hdl : length (drop (Z.to_nat pos) s) = (length s - Z.to_nat pos)%nat) by apply length_drop.
  rewrite drop_app_le by (unfold zlen in *; lia). rewrite memchr_app.
  pose proof (memchr_ok (length (drop (Z.to_nat pos) s)) (drop (Z.to_nat pos) s) ch) as Hk.
  destruct (memchr (drop (Z.to_nat pos) s) ch _) as [k|]; cbn [fmap option_fmap option_map].
  - destruct Hk as (_ & Hk & _). unfold tor_assert. unfold zlen in *.
    rewrite (proj2 (Z.leb_le _ _)) by lia.
    eexists. split; [done|]. split; [|unfold abs_pos; cbn; lia].
    exists (s :: ss). split; [by constructor|]. split; [by constructor|].
    cbn [concat p_pos]. unfold zlen. rewrite length_app. split; [lia|]. split; [|lia].
    rewrite !drop_app_le by lia. rewrite drop_drop. do 2 f_equal. lia.
  - specialize (IH Hne ltac:(lia) 0 (cp + ch_datalen c)). cbn zeta in IH.
    change (Z.to_nat 0) with 0%nat in IH. rewrite !drop_0 in IH.
    assert (Hp0 : match ss with [] => 0 = 0 | s :: _ => 0 <= 0 < zlen s end).
    { destruct ss as [|s' ss']; [done|]. apply Forall_cons in Hne as [Hs' _].
      destruct s'; [done|len]. }
    specialize (IH Hp0). rewrite (chunk_datalen _ _ Hc) in *.
    destruct (memchr (concat ss) ch _) as [k|]; cbn [fmap option_fmap option_map]; [|done].
    destruct IH as (p' & -> & Hp' & Habs). exists p'. split; [done|]. split.
    + by rewrite drop_app_add.
    + rewrite Habs, Hdl. unfold zlen in *. lia.
Qed.

Lemma find_char_ok (p : buf_pos) (r : bytes) (ch : ascii) : pos_shows p r ->
  match memchr r ch (length r) with
  | None => buf_find_pos_of_char ch p = Ok None
  | Some k => exists p', buf_find_pos_of_char ch p = Ok (Some p') /\
                pos_shows p' (drop k r) /\ abs_pos p' = abs_pos p + Z.of_nat k
  end.
Proof.
  intros (ss & Hc & Hne & Hmax & -> & Hpos).
  pose proof (find_char_loop_ok ch _ _ Hc Hne Hmax (p_pos p) (p_chunk_pos p) Hpos) as Hloop. cbn zeta in Hloop.
  unfold buf_find_pos_of_char, abs_pos.
  destruct (p_chunk p) as [|c cs] eqn:Ec; [done|].
  inversion Hc as [|? s ? ss' Hcs Hcss]; subst.
  destruct (Z.eqb_spec (ch_datalen c) 0) as [Hz|Hz]; cbn [negb]; unfold tor_assert.
  - rewrite (chunk_datalen _ _ Hcs) in Hz. lia.
  - rewrite (proj2 (Z.ltb_lt _ _)) by (rewrite (chunk_datalen _ _ Hcs); lia). done.
Qed.

Lemma pos_inc_ok (p : buf_pos) (x : ascii) (r : bytes) : pos_shows p (x :: r) ->
  match r with
  | [] => buf_pos_inc p = Ok None
  | _ :: _ => exists p', buf_pos_inc p = Ok (Some p') /\ pos_shows p' r /\ abs_pos p' = abs_pos p + 1
  end.
Proof.
  intros (ss & Hc & Hne & Hmax & Hr & Hpos).
  destruct ss as [|s ss]; [cbn [concat] in Hr; by rewrite drop_nil in Hr|].
  inversion Hc as [|c ? cs ? Hcs Hcss Ep]; subst. cbn [concat] in *. rewrite zlen_app in Hmax.
  pose proof (zlen_nonneg (concat ss)). apply Forall_cons in Hne as [Hs Hne].
  rewrite drop_app_le in Hr by (unfold zlen in *; lia).
  unfold buf_pos_inc, tor_assert. rewrite (proj2 (Z.ltb_lt _ _)) by lia. rewrite <- Ep.
  rewrite (chunk_datalen _ _ Hcs).
  assert (Ed : drop (Z.to_nat (p_pos p + 1)) s ++ concat ss = r).
  { destruct (drop (Z.to_nat (p_pos p)) s) as [|y t] eqn:E.
    - apply (f_equal length) in E. rewrite length_drop in E. unfold zlen in *. simpl in E. lia.
    - replace (Z.to_nat (p_pos p + 1)) with (Z.to_nat (p_pos p) + 1)%nat by lia.
      rewrite <- (drop_drop s 1), E. simpl in *. by injection Hr. }
  destruct (Z.eqb_spec (p_pos p + 1) (zlen s)) as [Hend|Hin].
  - rewrite drop_ge in Ed by (unfold zlen in *; lia). cbn [app] in Ed.
    destruct Hcss as [|c2 s2 cs2 ss2 Hc2 Hcs2].
    + by cbn in Ed; subst r.
    + cbn [concat] in Ed. apply Forall_cons in Hne as [Hs2 Hne]. destruct s2 as [|y s2]; [done|].
      destruct r; [done|]. eexists. split; [done|]. split; [|unfold abs_pos; cbn; lia].
      exists ((y :: s2) :: ss2). split; [by constructor|]. split; [by constructor|].
      split; [unfold zlen in *; lia|]. cbn [p_pos]. rewrite <- Ed. split; [done|]. len.
  - destruct (drop (Z.to_nat (p_pos p + 1)) s) as [|y t] eqn:E.
    { apply (f_equal length) in E. rewrite length_drop in E. unfold zlen in *. simpl in E. lia. }
    destruct r; [done|]. eexists. split; [done|]. split; [|unfold abs_pos; cbn; lia].
    exists (s :: ss). cbn [p_chunk p_pos concat].
    split; [by constructor|]. split; [by constructor|]. rewrite zlen_app. split; [lia|].
    split; [|unfold zlen in *; lia]. rewrite drop_app_le by (unfold zlen in *; lia).
    by rewrite E.
Qed.

Lemma occurs_prefix (r s : bytes) (j : nat) : s <> [] ->
  occurs_at r s j <-> s `prefix_of` drop j r.
Proof.
  intros Hs. unfold occurs_at. split.
  - intros [_ <-]. apply prefix_take.
  - intros [k E]. assert (Hl : length (drop j r) = (length s + length k)%nat) by (by rewrite E, length_app).
    rewrite length_drop in Hl. destruct s; [done|]. split; [simpl in *; lia|].
    by rewrite E, take_app_length.
Qed.

Lemma matches_ok (s : bytes) : forall (p : buf_pos) (r : bytes), pos_shows p r -> r <> [] ->
  buf_matches_at_pos p s = Ok (bool_decide (s `prefix_of` r)).
Proof.
  induction s as [|x s IH]; intros p r Hp Hr; cbn [buf_matches_at_pos].
  { by rewrite bool_decide_true by apply prefix_nil. }
  destruct r as [|y r]; [done|]. pose proof (pos_inc_ok _ _ _ Hp) as Hinc.
  destruct Hp as (ss & Hc & Hne & Hmax & Er & Hpos).
  destruct ss as [|s1 ss]; [cbn [concat] in Er; by rewrite drop_nil in Er|].
  inversion Hc as [|c ? cs ? Hcs Hcss Ep]; subst.
  rewrite (chunk_read c s1 (p_pos p) 1 Hcs) by lia. cbn [obind].
  assert (take (Z.to_nat 1) (drop (Z.to_nat (p_pos p)) s1) = [y]) as ->.
  { cbn [concat] in Er. rewrite drop_app_le in Er by (unfold zlen in *; lia).
    destruct (drop (Z.to_nat (p_pos p)) s1) as [|z t] eqn:E; simpl in *; [|by injection Er as ->].
    apply (f_equal length) in E. rewrite length_drop in E. unfold zlen in *. simpl in E. lia. }
  destruct (decide (y = x)) as [->|Hyx]; cycle 1.
  { rewrite bool_decide_false by congruence. cbn [negb].
    rewrite bool_decide_false; [done|]. intros Hpre%prefix_cons_inv_1. congruence. }
  rewrite (bool_decide_true ([x] = [x])) by done. cbn [negb].
  assert (Hcons : bool_decide (x :: s `prefix_of` x :: r) = bool_decide (s `prefix_of` r)).
  { apply bool_decide_ext. split; [apply prefix_cons_inv_2|apply prefix_cons]. }
  rewrite Hcons. destruct (decide (s = [])) as [->|Hs].
  { by rewrite !bool_decide_true by (done || apply prefix_nil). }
  rewrite bool_decide_false by done.
  destruct r as [|z r].
  - rewrite Hinc. cbn [obind]. rewrite bool_decide_false; [done|]. intros Hpre%prefix_nil_inv. done.
  - destruct Hinc as (p' & -> & Hp' & _). cbn [obind]. by apply IH.
Qed.

Lemma find_string_loop_ok (s : bytes) (fuel : nat) : s <> [] -> forall (p : buf_pos) (r : bytes),
  pos_shows p r -> (length r < fuel)%nat -> 0 <= abs_pos p -> abs_pos p + zlen r <= BUF_MAX_LEN ->
  exists res, find_string_loop fuel p s = Ok res /\
    match res with
    | Some q => exists k, q = abs_pos p + Z.of_nat k /\ occurs_at r s k /\
                  forall j, (j < k)%nat -> ~ occurs_at r s j
    | None => forall j, ~ occurs_at r s j
    end.
Proof.
  intros Hs. induction fuel as [|f IH]; intros p r Hp Hf Habs Hmax; [lia|]. cbn [find_string_loop].
  destruct s as [|x s0] eqn:Es; [done|]. cbn [deref]. rewrite <- Es in *.
  pose proof (find_char_ok p r x Hp) as Hfind. pose proof (memchr_ok (length r) r x) as Hk.
  assert (Hno : forall j, r !! j <> Some x -> ~ occurs_at r s j).
  { intros j Hj Ho. rewrite occurs_prefix in Ho by done. rewrite Es in Ho. destruct Ho as [t Ht].
    apply Hj. rewrite <- (Nat.add_0_r j), <- lookup_drop, Ht. done. }
  assert (Hout : forall j, (length r <= j)%nat -> ~ occurs_at r s j).
  { intros j Hj. apply Hno. rewrite lookup_ge_None_2 by done. done. }
  destruct (memchr r x (length r)) as [k|].
  2: { rewrite Hfind. exists None. split; [done|]. intros j. destruct (decide (j < length r)%nat); auto with lia. }
  destruct Hfind as (p' & -> & Hp' & Hab). destruct Hk as (Hkx & Hkl & Hkb). cbn [obind].
  assert (Edrop : drop k r = x :: drop (S k) r) by (by apply drop_S).
  rewrite (matches_ok s p' (drop k r) Hp') by (by rewrite Edrop). cbn [obind].
  destruct (bool_decide_reflect (s `prefix_of` drop k r)) as [Hpre|Hpre];
    rewrite <- occurs_prefix in Hpre by done.
  - unfold tor_assert. fold (abs_pos p'). rewrite Hab, (proj2 (Z.leb_le _ _)) by (unfold zlen in *; lia).
    exists (Some (abs_pos p + Z.of_nat k)). split; [done|]. exists k. split; [done|]. split; [done|]. auto.
  - rewrite Edrop in Hp'. pose proof (pos_inc_ok _ _ _ Hp') as Hinc.
    assert (Hdl : length (drop (S k) r) = (length r - S k)%nat) by apply length_drop.
    destruct (drop (S k) r) as [|z r'] eqn:Er.
    + rewrite Hinc. cbn [obind]. exists None. split; [done|]. intros j. simpl in Hdl.
      destruct (decide (j < k)%nat); [auto|]. destruct (decide (j = k)) as [->|]; [done|]. apply Hout. lia.
    + destruct Hinc as (p2 & -> & Hp2 & Hab2). cbn [obind]. rewrite <- Er in *.
      destruct (IH p2 (drop (S k) r) Hp2) as (res & Hres & Hspec);
        [rewrite length_drop; lia|lia|unfold zlen in *; rewrite length_drop; lia|].
      exists res. split; [done|].
      assert (Hshift : forall j, (S k <= j)%nat -> occurs_at r s j <-> occurs_at (drop (S k) r) s (j - S k)).
      { intros j Hj. rewrite !occurs_prefix, drop_drop by done. by replace (S k + (j - S k))%nat with j by lia. }
      assert (Hbelow : forall j, (j <= k)%nat -> ~ occurs_at r s j).
      { intros j Hj. destruct (decide (j = k)) as [->|]; [done|]. apply Hno, Hkb. lia. }
      destruct res as [q|].
      * destruct Hspec as (k' & -> & Ho & Hb). exists (S k + k')%nat. split; [lia|]. split.
        -- apply Hshift; [lia|]. by replace (S k + k' - S k)%nat with k' by lia.
        -- intros j Hj. destruct (decide (j <= k)%nat); [auto|]. rewrite Hshift by lia. apply Hb. lia.
      * intros j. destruct (decide (j <= k)%nat); [auto|]. rewrite Hshift by lia. apply Hspec.
Qed.

(** In a buffer without empty chunks, [buf_find_string_offset] returns the offset of the
    first occurrence of the string, however it is spread over chunks, and -1 exactly when
    there is none. *)
Theorem buf_find_string_offset_first (h : heap) (rest : Z) (b : buf) (l s : bytes) :
  buf_holds h rest b l -> Forall (fun c => ch_datalen c <> 0) (b_chunks b) -> s <> [] ->
  exists r, buf_find_string_offset b s = Ok r /\
    match r with
    | Some q => exists k, q = Z.of_nat k /\ occurs_at l s k /\ forall j, (j < k)%nat -> ~ occurs_at l s j
    | None => forall j, ~ occurs_at l s j
    end.
Proof.
  intros [Hmax (ss & <- & Hb)] Hdense Hs. unfold buf_find_string_offset.
  rewrite (r_datalen _ _ _ _ Hb). pose proof (r_chunks _ _ _ _ _ (r_chain _ _ _ _ Hb)) as Hc.
  assert (Hne : Forall (fun s => s <> []) ss).
  { clear - Hc Hdense. induction Hc as [|c x cs ss Hc _ IH]; [constructor|].
    apply Forall_cons in Hdense as [H1 H2]. constructor; [|auto]. intros ->.
    by rewrite (chunk_datalen _ _ Hc) in H1. }
  destruct (find_string_loop_ok s (S (Z.to_nat (zlen (concat ss)))) Hs (buf_pos_init b) (concat ss))
    as (r & -> & Hr).
  - exists ss. repeat (split; [done|]).
    destruct ss as [|x ss]; [done|]. apply Forall_cons in Hne as [Hx _].
    destruct x; [done|]. cbn [buf_pos_init p_pos]. len.
  - unfold zlen. lia.
  - done.
  - unfold abs_pos. cbn [buf_pos_init p_pos p_chunk_pos]. lia.
  - exists r. split; [done|]. destruct r as [q|]; [|done]. destruct Hr as (k & -> & Ho). by exists k.
Qed.

(** ** One buffer: refinement to a byte queue *)

(** The offset of the first occurrence of a string, or -1 if there is none. *)
Definition first_occurrence (l s : bytes) (q : Z) : Prop :=
  (q = -1 /\ forall j, ~ occurs_at l s j) \/ exists k, q = Z.of_nat k /\ occurs_at l s k /\ forall j, (j < k)%nat -> ~ occurs_at l s j.

Inductive bufcmd :=
  | BAdd (s : bytes)
  | BPeek (n : Z)
  | BDrain (n : Z)
  | BGetBytes (n : Z)
  | BPullup (n : Z)
  | BGetLine (data_out : bytes) (data_len : Z)
  | BStartsWith (cmd : bytes)
  | BFindChar (ch : ascii)
  | BFindString (s : bytes)
  | BExtract
  | BClear.

Inductive bufres :=
  | RInt (n : Z)
  | RBytes (s : bytes)
  | RBytesLen (s : bytes) (n : Z)
  | RBool (b : bool)
  | RUnit.

(** Running an operation; an error return leaves the buffer as it is. *)
Definition bufexec (rm : Z -> bool) (h : heap) (b : buf) (c : bufcmd) : outcome (bufres * buf * heap) :=
  match c with
  | BAdd s => match buf_add h b s with
              | Ok (n, b', h') => Ok (RInt n, b', h')
              | Err => Ok (RInt (-1), b, h)
              | Stuck => Stuck
              end
  | BPeek n => let* s := buf_peek b n in Ok (RBytes s, b, h)
  | BDrain n => let* (b, h) := buf_drain h b n in Ok (RUnit, b, h)
  | BGetBytes n => let* (s, len, b, h) := buf_get_bytes h b n in Ok (RBytesLen s len, b, h)
  | BPullup n => let* (b, s, h) := buf_pullup rm h b n in Ok (RBytes s, b, h)
  | BGetLine data_out data_len =>
      let* r := buf_get_line h b data_out data_len in
      match r with
      | NoLine => Ok (RInt 0, b, h)
      | LineTooLong n => Ok (RInt (-1), b, h)
      | Line out n b h => Ok (RBytesLen out n, b, h)
      end
  | BStartsWith cmd => let* r := buf_peek_startswith b cmd in Ok (RBool r, b, h)
  | BFindChar ch => let* r := buf_find_offset_of_char b ch in Ok (RInt (default (-1) r), b, h)
  | BFindString s => let* r := buf_find_string_offset b s in Ok (RInt (default (-1) r), b, h)
  | BExtract => let* (s, n) := buf_extract b in Ok (RBytesLen s n, b, h)
  | BClear => let* (b, h) := buf_clear h b in Ok (RUnit, b, h)
  end.

(** What callers have to respect. A search for a string is only safe where no chunk is empty. *)
Definition bufpre (b : buf) (c : bufcmd) (l : bytes) : Prop :=
  match c with
  | BAdd s => zlen s <= BUF_MAX_LEN
  | BPeek n | BDrain n | BGetBytes n => 0 <= n <= zlen l
  | BPullup n => 0 <= n
  | BGetLine data_out data_len => zlen data_out = data_len
  | BStartsWith cmd => zlen cmd <= PEEK_BUF_STARTSWITH_MAX
  | BFindString s => s <> [] /\ Forall (fun c => ch_datalen c <> 0) (b_chunks b)
  | BFindChar _ | BExtract | BClear => True
  end.

(** The queue after the operation, and its result. *)
Definition bufpost (c : bufcmd) (l : bytes) (r : bufres) (l' : bytes) : Prop :=
  match c with
  | BAdd s => if zlen l + zlen s <=? BUF_MAX_LEN then l' = l ++ s /\ r = RInt (zlen l') 
              else l' = l /\ r = RInt (-1)
  | BPeek n => l' = l /\ r = RBytes (take (Z.to_nat n) l)
  | BDrain n => l' = drop (Z.to_nat n) l /\ r = RUnit
  | BGetBytes n => l' = drop (Z.to_nat n) l /\ r = RBytesLen (take (Z.to_nat n) l) (zlen l')
  | BPullup n => l' = l /\ exists s more, r = RBytes s /\ l = s ++ more /\ Z.min n (zlen l) <= zlen s
  | BGetLine data_out data_len =>
      match memchr l NL (length l) with
      | None => l' = l /\ r = RInt 0
      | Some k => if data_len <? Z.of_nat k + 2 then l' = l /\ r = RInt (-1)
                  else l' = drop (k + 1) l /\
                       r = RBytesLen (take (k + 1) l ++ NUL :: drop (k + 2) data_out) (Z.of_nat k + 1)
      end
  | BStartsWith cmd => l' = l /\ r = RBool (bool_decide (cmd `prefix_of` l))
  | BFindChar ch => l' = l /\ r = RInt (default (-1) (Z.of_nat <$> memchr l ch (length l)))
  | BFindString s => l' = l /\ exists q, r = RInt q /\ first_occurrence l s q
  | BExtract => l' = l /\ r = RBytesLen (l ++ [NUL]) (zlen l)
  | BClear => l' = [] /\ r = RUnit
  end.

Lemma bufexec_ok (rm : Z -> bool) (h : heap) (rest : Z) (b : buf) (l : bytes) (c : bufcmd) :
  buf_holds h rest b l -> bufpre b c l ->
  exists r b' h' l', bufexec rm h b c = Ok (r, b', h') /\ bufpost c l r l' /\
    buf_holds h' rest b' l' /\ heap_grows h b h' b'.
Proof.
  intros [Hmax (ss & <- & Hb)] Hpre.
  assert (Hkeep : forall r l', l' = concat ss -> bufpost c (concat ss) r l' ->
    exists r0 b' h' l', Ok (r, b, h) = Ok (r0, b', h') /\ bufpost c (concat ss) r0 l' /\
      buf_holds h' rest b' l' /\ heap_grows h b h' b').
  { intros r l' -> Hp. exists r, b, h, (concat ss). split; [done|]. split; [done|].
    split; [split; [done|eauto]|apply heap_grows_refl]. }
  assert (Hnew : forall r b' h' ss', buf_repr h' rest b' ss' -> bufpost c (concat ss) r (concat ss') ->
    heap_grows h b h' b' -> zlen (concat ss') <= BUF_MAX_LEN ->
    exists r0 b0 h0 l0, Ok (r, b', h') = Ok (r0, b0, h0) /\ bufpost c (concat ss) r0 l0 /\
      buf_holds h0 rest b0 l0 /\ heap_grows h b h0 b0).
  { intros r b' h' ss' H1 H2 H3 H4. exists r, b', h', (concat ss'). split; [done|]. split; [done|].
    split; [split; [done|eauto]|done]. }
  assert (Hdrop : forall n, zlen (drop n (concat ss)) <= BUF_MAX_LEN)
    by (intros n; unfold zlen in *; rewrite length_drop; lia).
  destruct c as [s|n|n|n|n|data_out data_len|cmd|ch|s| |]; cbn [bufexec bufpre] in *.
  - pose proof (buf_add_ok h rest b ss s Hb Hmax Hpre) as Ha. cbn [bufpost] in *.
    destruct (Z.leb_spec (zlen (concat ss) + zlen s) BUF_MAX_LEN).
    + destruct Ha as (b' & h' & ss' & -> & Hb' & Hco & Hgr & _).
      apply (Hnew _ b' h' ss'); [done|by rewrite Hco|done|]. by rewrite Hco, zlen_app.
    + rewrite Ha. by apply (Hkeep _ (concat ss)).
  - rewrite (buf_peek_ok _ _ _ _ _ Hb Hpre). cbn [obind]. by apply (Hkeep _ (concat ss)).
  - destruct (buf_drain_ok _ _ _ _ _ Hb Hpre) as (b' & h' & ss' & -> & Hb' & Hco & Hgr & _ & _).
    cbn [obind]. apply (Hnew _ b' h' ss'); [done|done|done|by rewrite Hco].
  - destruct (buf_get_bytes_ok _ _ _ _ _ Hb Hpre Hmax) as (b' & h' & ss' & -> & Hb' & Hco & Hgr & _).
    cbn [obind]. apply (Hnew _ b' h' ss'); [done|done|done|by rewrite Hco].
  - destruct (buf_pullup_ok rm _ _ _ _ n Hb Hpre Hmax)
      as (b' & out & h' & ss' & more & -> & Hb' & Hco & Hgr & Ho & Hlen).
    cbn [obind]. apply (Hnew _ b' h' ss'); [done| |done|by rewrite Hco].
    cbn [bufpost]. rewrite Hco. split; [done|]. by exists out, more.
  - subst data_len. pose proof (buf_get_line_ok h rest b ss data_out Hb Hmax) as Hg. cbn [bufpost] in *.
    destruct (memchr (concat ss) NL _) as [k|].
    + destruct (zlen data_out <? Z.of_nat k + 2).
      * rewrite Hg. cbn [obind]. by apply (Hkeep _ (concat ss)).
      * destruct Hg as (b' & h' & ss' & -> & Hb' & Hco & Hgr). cbn [obind].
        apply (Hnew _ b' h' ss'); [done|done|done|by rewrite Hco].
    + rewrite Hg. cbn [obind]. by apply (Hkeep _ (concat ss)).
  - rewrite (startswith_ok _ _ _ _ _ Hb Hpre). cbn [obind]. by apply (Hkeep _ (concat ss)).
  - unfold buf_find_offset_of_char. rewrite (r_datalen _ _ _ _ Hb). unfold tor_assert. rewrite (proj2 (Z.leb_le _ _)) by done.
    rewrite (find_offset_loop_ok _ ss ch (r_chunks _ _ _ _ _ (r_chain _ _ _ _ Hb)) 0). cbn [obind]. apply (Hkeep _ (concat ss)); [done|]. split; [done|].
    by destruct (memchr _ _ _).
  - destruct Hpre as (Hs & Hdense). destruct (buf_find_string_offset_first h rest b (concat ss) s) as (q & -> & Hq); [split; [done|by exists ss]|done|done|].
    cbn [obind]. apply (Hkeep _ (concat ss)); [done|]. split; [done|]. eexists. split; [done|]. destruct q as [q|]; [by right|by left].
  - unfold buf_extract. rewrite (r_datalen _ _ _ _ Hb), (buf_peek_ok _ _ _ _ _ Hb) by (pose proof (zlen_nonneg (concat ss)); lia).
    cbn [obind]. rewrite take_ge by (unfold zlen; lia). by apply (Hkeep _ (concat ss)).
  - destruct (buf_clear_ok _ _ _ _ Hb) as (b' & h' & -> & Hb' & Hgr & _). cbn [obind].
    apply (Hnew _ b' h' []); [done|done|done|]. done.
Qed.

(** What the transfers between two buffers do. *)
Definition transferred (h : heap) (rest : Z) (bo bi : buf) (so si : list bytes) (n : Z) : Prop :=
  (if zlen (concat so) + n <=? BUF_MAX_LEN
   then exists k bo' bi' h' so' si', k = Z.min n (zlen (concat si)) /\
          buf_move_to_buf h bo bi n = Ok (k, n - k, bo', bi', h') /\ two_bufs h' rest bo' so' bi' si' /\
          concat so' = concat so ++ take (Z.to_nat k) (concat si) /\
          concat si' = drop (Z.to_nat k) (concat si)
   else buf_move_to_buf h bo bi n = Err) /\
  (zlen (concat so) + zlen (concat si) <= BUF_MAX_LEN ->
   exists bo' bi' so' si', buf_move_all bo bi = Ok (zlen (concat si), bo', bi') /\
     two_bufs h rest bo' so' bi' si' /\ concat so' = concat so ++ concat si /\ concat si' = []) /\
  (exists out h', buf_copy h bi = Ok (out, h') /\ two_bufs h' (buf_allocation bo + rest) bi si out si).

(** data moves between buffers without loss: [buf_move_to_buf] takes the announced bytes, or
    all there are, from the front of one queue to the end of the other and counts them;
    [buf_move_all] moves everything by relinking; [buf_copy] gives a second buffer with the same bytes and
    chunks of its own. In each case the two buffers never share a chunk and the
    global allocation counter is exact. *)
Theorem buf_transfer_correct (h : heap) (rest : Z) (bo bi : buf) (so si : list bytes) (n : Z) :
  two_bufs h rest bo so bi si -> 0 <= n -> zlen (concat si) <= BUF_MAX_LEN -> transferred h rest bo bi so si n.
Proof.
  intros H2 Hn Hmi. split; [|split].
  - unfold buf_move_to_buf. rewrite (r_datalen _ _ _ _ (t_one _ _ _ _ _ _ H2)).
    rewrite (r_datalen _ _ _ _ (t_two _ _ _ _ _ _ H2)). pose proof (zlen_nonneg (concat so)).
    pose proof (zlen_nonneg (concat si)).
    destruct (Z.leb_spec (zlen (concat so) + n) BUF_MAX_LEN) as [Hle|Hgt].
    + rewrite !(proj2 (Z.ltb_ge BUF_MAX_LEN _)), (proj2 (Z.ltb_ge (BUF_MAX_LEN - n) _)) by lia. cbn [orb].
      assert ((if zlen (concat si) <? n then zlen (concat si) else n) = Z.min n (zlen (concat si))) as ->
        by (destruct (Z.ltb_spec (zlen (concat si)) n); lia).
      set (k := Z.min n (zlen (concat si))). unfold tor_assert. rewrite (proj2 (Z.leb_le k _)) by lia.
      destruct (move_loop_ok (Z.to_nat k) h rest bo bi so si k H2)
        as (bo' & bi' & h' & so' & si' & -> & H3 & E1 & E2); [lia|lia|lia|lia|].
      exists k, bo', bi', h', so', si'. by repeat (split; [done|]).
    + destruct (Z.ltb_spec BUF_MAX_LEN (zlen (concat so))), (Z.ltb_spec BUF_MAX_LEN n); try done.
      cbn [orb]. by rewrite (proj2 (Z.ltb_lt _ _)) by lia.
  - by apply buf_move_all_ok.
  - apply (buf_copy_ok h _ bi si). apply H2.
Qed.

(** [buf_add] does not reject every addition that is too long: for a string longer than
    [BUF_MAX_LEN] the subtraction of its guard wraps around in [size_t], the bytes are
    copied, and the program dies in the final assertion instead of returning -1. *)
Theorem buf_add_oversize_aborts (h : heap) (rest : Z) (b : buf) (l s : bytes) :
  buf_holds h rest b l -> BUF_MAX_LEN < zlen s <= SIZE_T_CEILING - CHUNK_OVERHEAD ->
  buf_add h b s = Stuck.
Proof.
  intros [Hmax (ss & <- & Hb)] Hs. unfold buf_add. rewrite (r_datalen _ _ _ _ Hb).
  pose proof (zlen_nonneg (concat ss)). rewrite (proj2 (Z.eqb_neq _ _)) by (consts; lia).
  rewrite (proj2 (Z.ltb_ge _ _)) by done.
  assert (wrap 64 (BUF_MAX_LEN - zlen s) = BUF_MAX_LEN - zlen s + 2 ^ 64) as ->.
  { unfold wrap. rewrite <- (Z.mod_add _ 1) by lia. apply Z.mod_small. consts. lia. }
  rewrite (proj2 (Z.ltb_ge _ _)) by (consts; lia).
  destruct (add_loop_ok (length s) h rest b ss s) as (b' & h' & ss' & -> & Hb' & Hco & _); [lia|lia|done|].
  cbn [obind]. unfold tor_assert. rewrite (r_datalen _ _ _ _ Hb'), Hco, zlen_app.
  by rewrite (proj2 (Z.leb_gt _ _)) by lia.
Qed.

(** ** Properties *)

(** C40: A buffer is a byte queue. Let the chunks of a buffer hold the bytes [l], of which there are at most [BUF_MAX_LEN]. Appending at most [BUF_MAX_LEN] bytes, peeking at, draining or
    getting no more bytes than there are, pulling up, getting a line into an array of the size given, comparing with a prefix of at most 16 bytes, finding a character, finding a string that is not
    empty where no chunk is empty, extracting and clearing all return normally, with no access outside a chunk's memory, no read of a byte that was never written and no failed
    assertion (those on [DBG_alloc], the sentinels and the global allocation counter included), and leave chunks that hold the queue the documentation
    promises; an addition that would pass [BUF_MAX_LEN] returns -1 and changes nothing, and only the buffer's own or fresh chunks are in use afterwards. Between two
    buffers, [buf_move_to_buf] takes the bytes asked for, or all there are, from the front of one to the end of the other, or refuses what would pass [BUF_MAX_LEN]; [buf_move_all] moves everything that
    fits; [buf_copy] gives the same bytes in chunks of their own. But adding a single string longer than [BUF_MAX_LEN] is not refused: it ends in a failed assertion. *)
Theorem buf_refines_queue (rm : Z -> bool) (h : heap) (rest : Z) :
  (forall b l c, buf_holds h rest b l -> bufpre b c l ->
    exists r b' h' l', bufexec rm h b c = Ok (r, b', h') /\ bufpost c l r l' /\
      buf_holds h' rest b' l' /\ heap_grows h b h' b') /\
  (forall bo bi so si n, two_bufs h rest bo so bi si -> 0 <= n -> zlen (concat si) <= BUF_MAX_LEN -> transferred h rest bo bi so si n) /\
  (forall b l s, buf_holds h rest b l -> BUF_MAX_LEN < zlen s <= SIZE_T_CEILING - CHUNK_OVERHEAD -> buf_add h b s = Stuck).
Proof. split; [apply bufexec_ok|]. split; [apply buf_transfer_correct|apply buf_add_oversize_aborts]. Qed.

Definition ex_heap : heap := {| h_next := 1; h_total := 0; h_stamp := 0 |}.

Lemma ex_two_bufs : two_bufs ex_heap 0 buf_new [] buf_new [].
Proof.
  assert (Hb : buf_repr ex_heap 0 buf_new [])
    by (split; cbn; [|done|done]; split; cbn; (done || apply NoDup_nil_2 || constructor || lia)).
  split; [done|done| |done]. intros a Ha. by apply elem_of_nil in Ha.
Qed.

Theorem buf_refines_queue_witness :
  exists r b' h' l',
    bufexec (fun _ => true) ex_heap buf_new (BAdd (bs "GET / HTTP")) = Ok (r, b', h') /\
    bufpost (BAdd (bs "GET / HTTP")) [] r l' /\ buf_holds h' 0 b' l' /\
    heap_grows ex_heap buf_new h' b' /\ transferred ex_heap 0 buf_new buf_new [] [] 5.
Proof.
  destruct (buf_refines_queue (fun _ => true) ex_heap 0) as (H1 & H2 & _).
  destruct (H1 buf_new [] (BAdd (bs "GET / HTTP"))) as (r & b' & h' & l' & E & Hp & Hh & Hg).
  - apply (buf_new_holds ex_heap). vm_compute. discriminate.
  - vm_compute. discriminate.
  - exists r, b', h', l'. do 4 (split; [done|]). apply H2; [apply ex_two_bufs|discriminate|vm_compute; discriminate].
Defined.

Theorem buf_transfer_correct_witness :
  exists out h', buf_copy ex_heap buf_new = Ok (out, h') /\ two_bufs h' (buf_allocation buf_new + 0) buf_new [] out [].
Proof.
  apply (buf_transfer_correct ex_heap 0 buf_new buf_new [] [] 5).
  - apply ex_two_bufs.
  - discriminate.
  - vm_compute. discriminate.
Defined.

Definition ex_buf : buf :=
  match buf_add ex_heap buf_new (bs "abcab") with Ok (_, b, _) => b | _ => buf_new end.

Definition ex_heap2 : heap :=
  match buf_add ex_heap buf_new (bs "abcab") with Ok (_, _, h) => h | _ => ex_heap end.

Lemma ex_buf_holds : buf_holds ex_heap2 0 ex_buf (bs "abcab").
Proof.
  destruct (bufexec_ok (fun _ => true) ex_heap 0 buf_new [] (BAdd (bs "abcab"))) as (r & b' & h' & l' & E & Hp & Hh & _).
  - apply (buf_new_holds ex_heap). vm_compute. discriminate.
  - vm_compute. discriminate.
  - unfold ex_buf, ex_heap2. cbn [bufexec] in E. destruct (buf_add _ _ _) as [[[n b] h]| |] eqn:E2; [|by vm_compute in E2|done].
    injection E as <- <- <-. destruct Hp as [-> _]. exact Hh.
Qed.

Theorem buf_find_string_offset_first_witness :
  exists r, buf_find_string_offset ex_buf (bs "ca") = Ok r /\
    match r with
    | Some q => exists k, q = Z.of_nat k /\ occurs_at (bs "abcab") (bs "ca") k /\
                  forall j, (j < k)%nat -> ~ occurs_at (bs "abcab") (bs "ca") j
    | None => forall j, ~ occurs_at (bs "abcab") (bs "ca") j
    end.
Proof.
  apply (buf_find_string_offset_first ex_heap2 0 ex_buf (bs "abcab") (bs "ca")).
  - apply ex_buf_holds.
  - repeat constructor. vm_compute. discriminate.
  - discriminate.
Defined.

(** with an empty chunk at the tail, which is what [buf_add_chunk_with_capacity] leaves when
    nothing could be read into it, [buf_find_string_offset] can read a byte that was
    never written: a partial match that ends at the end of the data goes on in the
    memory of the empty chunk. *)
Theorem buf_find_string_reads_uninitialised :
  exists b1 b2 h1 h2,
    (let* b := buf_new_with_capacity 8 in buf_add ex_heap b (replicate 208 "a"%char)) = Ok (208, b1, h1) /\
    buf_add_chunk_with_capacity h1 b1 1 true = Ok (b2, h2) /\
    buf_assert_ok b2 = true /\ b_datalen b2 = 208 /\
    buf_find_string_offset b2 (bs "ab") = Stuck.
Proof.
  eexists _, _, _, _. split; [vm_compute; reflexivity|]. split; [vm_compute; reflexivity|].
  split; [vm_compute; reflexivity|]. split; [reflexivity|]. vm_compute. reflexivity.
Qed.

Theorem buf_add_oversize_aborts_witness :
  buf_add ex_heap buf_new (replicate (Z.to_nat INT_MAX) NUL) = Stuck.
Proof.
  apply (buf_add_oversize_aborts ex_heap 0 buf_new [] (replicate (Z.to_nat INT_MAX) NUL)).
  - apply (buf_new_holds ex_heap). vm_compute. discriminate.
  - unfold zlen. rewrite length_replicate, Z2Nat.id by (unfold INT_MAX; lia). consts. lia.
Defined.
