(* ===== verification/Endian.v ===== *)
(** * Integers in network byte order, [lib/arch/bytes.h]

    The unaligned reads and writes of 8, 16 and 32 bit integers, with the conversion
    between host and network order that every use of them in the cell code applies. *)
From S2P Require Import Prelude ParseInt.

(** A big-endian integer. *)
Fixpoint be_acc (s : bytes) (acc : Z) : Z :=
  match s with [] => acc | c :: s' => be_acc s' (256 * acc + b2z c) end.

Definition be (s : bytes) : Z := be_acc s 0.

(** [ntohs(get_uint16(p))] and its like: a read past the object is stuck. *)
Definition get_be (n : nat) (p : bytes) : outcome Z :=
  if (length p <? n)%nat then Stuck else Ok (be (take n p)).
Definition get_uint8 (p : bytes) : outcome Z := get_be 1 p.
Definition get_uint16 (p : bytes) : outcome Z := get_be 2 p.
Definition get_uint32 (p : bytes) : outcome Z := get_be 4 p.

(** The bytes that [set_uint16(p, htons(v))] and its like store. *)
Fixpoint be_bytes (n : nat) (v : Z) : bytes :=
  match n with O => [] | S n' => be_bytes n' (v / 256) ++ [z2b v] end.
Definition set_uint8 (v : Z) : bytes := be_bytes 1 v.
Definition set_uint16 (v : Z) : bytes := be_bytes 2 v.
Definition set_uint32 (v : Z) : bytes := be_bytes 4 v.

(** ** Lemmas: big-endian integers *)

Lemma be_acc_spec (s : bytes) : forall acc, be_acc s acc = acc * 2 ^ (8 * zlen s) + be s.
Proof.
  unfold be. induction s as [|c s IH]; intros acc; cbn [be_acc]; [unfold zlen; simpl; lia|].
  rewrite IH, (IH (256 * 0 + b2z c)). unfold zlen. cbn [length]. rewrite Nat2Z.inj_succ.
  replace (8 * Z.succ (Z.of_nat (length s))) with (8 * Z.of_nat (length s) + 8) by lia.
  rewrite Z.pow_add_r by lia. change (2 ^ 8) with 256. lia.
Qed.

Lemma be_cons (c : ascii) (s : bytes) : be (c :: s) = b2z c * 2 ^ (8 * zlen s) + be s.
Proof. unfold be at 1. cbn [be_acc]. rewrite be_acc_spec. lia. Qed.

Lemma be_app (s t : bytes) : be (s ++ t) = be s * 2 ^ (8 * zlen t) + be t.
Proof.
  induction s as [|c s IH]; [done|]. cbn [app]. rewrite !be_cons, IH. unfold zlen.
  rewrite length_app, Nat2Z.inj_add, Z.mul_add_distr_l, Z.pow_add_r by lia. lia.
Qed.

Lemma be_range (s : bytes) : 0 <= be s < 2 ^ (8 * zlen s).
Proof.
  induction s as [|c s IH]; [done|]. rewrite be_cons. pose proof (b2z_range c).
  unfold zlen in *. cbn [length]. rewrite Nat2Z.inj_succ, Z.mul_succ_r, Z.pow_add_r by lia.
  change (2 ^ 8) with 256. nia.
Qed.

Lemma be_bytes_length (n : nat) : forall v, length (be_bytes n v) = n.
Proof. induction n as [|n IH]; intros v; cbn [be_bytes]; [done|]. rewrite length_app, IH. simpl. lia. Qed.

Lemma be_be_bytes (n : nat) : forall v, be (be_bytes n v) = v mod 2 ^ (8 * Z.of_nat n).
Proof.
  induction n as [|n IH]; intros v; cbn [be_bytes]; [by rewrite Z.mod_1_r|].
  rewrite be_app, IH. change (be [z2b v]) with (256 * 0 + b2z (z2b v)).
  assert (b2z (z2b v) = v mod 256) as ->.
  { rewrite <- (b2z_z2b (v mod 256)) by (apply Z.mod_pos_bound; lia). unfold z2b. by rewrite Z.mod_mod by lia. }
  change (2 ^ (8 * zlen [z2b v])) with 256.
  replace (8 * Z.of_nat (S n)) with (8 + 8 * Z.of_nat n) by lia.
  rewrite Z.pow_add_r by lia. change (2 ^ 8) with 256.
  rewrite (Z.rem_mul_r v 256) by (try apply Z.pow_pos_nonneg; lia). lia.
Qed.

Lemma get_be_app (n : nat) (v : Z) (rest : bytes) : 0 <= v < 2 ^ (8 * Z.of_nat n) ->
  get_be n (be_bytes n v ++ rest) = Ok v.
Proof.
  intros Hv. unfold get_be. rewrite (proj2 (Nat.ltb_ge _ _)) by (rewrite length_app, be_bytes_length; lia).
  rewrite take_app_le, take_ge by (rewrite be_bytes_length; lia).
  by rewrite be_be_bytes, Z.mod_small.
Qed.

(** Reading integers and writing them back gives the same bytes. *)
Lemma be_bytes_be (s : bytes) : be_bytes (length s) (be s) = s.
Proof.
  induction s as [|c s IH] using rev_ind; [done|]. rewrite length_app. cbn [length].
  rewrite Nat.add_1_r. cbn [be_bytes]. rewrite be_app. change (2 ^ (8 * zlen [c])) with 256.
  assert (be [c] = b2z c) as -> by (unfold be; cbn [be_acc]; lia). pose proof (b2z_range c).
  rewrite Z.div_add_l, Z.div_small, Z.add_0_r, IH by lia. do 2 f_equal.
  unfold z2b. rewrite Z.add_comm, Z_mod_plus_full, Z.mod_small by lia.
  rewrite <- (z2b_b2z c) at 2. unfold z2b. by rewrite Z.mod_small by lia.
Qed.

Lemma get_be_split (n : nat) (s : bytes) : (n <= length s)%nat ->
  exists v, get_be n s = Ok v /\ 0 <= v < 2 ^ (8 * Z.of_nat n) /\ s = be_bytes n v ++ drop n s.
Proof.
  intros Hn. unfold get_be. rewrite (proj2 (Nat.ltb_ge _ _)) by lia. exists (be (take n s)). split; [done|].
  assert (Hl : length (take n s) = n) by (rewrite length_take; lia). split.
  - pose proof (be_range (take n s)) as H. unfold zlen in H. by rewrite Hl in H.
  - pose proof (be_bytes_be (take n s)) as E. rewrite Hl in E. by rewrite E, take_drop.
Qed.
