(* ===== verification/Address.v ===== *)
(** * IP addresses: the representation-level part of [lib/net/address.c]

    A [tor_addr_t] with its family; IPv4 addresses are kept in host order (what
    [tor_addr_to_ipv4h] returns), IPv6 addresses as the 16 bytes of [s6_addr]. A
    [tor_addr_t] of family [AF_UNIX] carries only the address of the structure, which is
    all the code compares. Parsing, printing and the interface queries are not here. *)
From S2P Require Import Prelude ParseInt DiOps Endian.

Definition AF_UNSPEC : Z := 0.
Definition AF_UNIX : Z := 1.
Definition AF_INET : Z := 2.
Definition AF_INET6 : Z := 10.

Inductive tor_addr :=
  | TA_UNSPEC
  | TA_UNIX (ptr : Z)
  | TA_INET (ipv4h : Z)
  | TA_INET6 (s6_addr : bytes).

#[export] Instance tor_addr_eq_dec : EqDecision tor_addr.
Proof. solve_decision. Defined.

Inductive tor_addr_comparison := CMP_EXACT | CMP_SEMANTIC.

(** What the C representation guarantees: 32-bit and 16-byte members, 64-bit pointers. *)
Definition addr_ok (a : tor_addr) : Prop :=
  match a with
  | TA_INET v => 0 <= v < 2 ^ 32
  | TA_INET6 b => length b = 16%nat
  | TA_UNIX p => 0 <= p < 2 ^ 64
  | TA_UNSPEC => True
  end.

(** ** Accessors *)

Definition tor_addr_family (a : tor_addr) : Z :=
  match a with
  | TA_UNSPEC => AF_UNSPEC | TA_UNIX _ => AF_UNIX | TA_INET _ => AF_INET | TA_INET6 _ => AF_INET6
  end.

Definition tor_addr_is_unspec (a : tor_addr) : bool := tor_addr_family a =? AF_UNSPEC.

Definition tor_addr_to_ipv4h (a : tor_addr) : Z := match a with TA_INET v => v | _ => 0 end.

Definition tor_addr_eq_ipv4h (a : tor_addr) (u : Z) : bool :=
  match a with TA_INET v => v =? u | _ => false end.

(** [ntohl(S6_ADDR32(a)[i])]. *)
Definition addr32 (b : bytes) (i : nat) : Z := be (take 4 (drop (4 * i) b)).

Definition tor_addr_to_mapped_ipv4h (a : tor_addr) : Z :=
  match a with TA_INET6 b => addr32 b 3 | _ => 0 end.

Definition tor_addr_is_v4 (a : tor_addr) : bool :=
  match a with
  | TA_INET _ => true
  | TA_INET6 b => (addr32 b 0 =? 0) && (addr32 b 1 =? 0) && (addr32 b 2 =? 0xffff)
  | _ => false
  end.

Definition tor_addr_is_v6 (a : tor_addr) : bool := tor_addr_family a =? AF_INET6.

Definition tor_addr_is_null (a : tor_addr) : bool :=
  match a with
  | TA_INET6 b => (addr32 b 0 =? 0) && (addr32 b 1 =? 0) && (addr32 b 2 =? 0) && (addr32 b 3 =? 0)
  | TA_INET v => v =? 0
  | TA_UNIX _ => true
  | TA_UNSPEC => true
  end.

(** An [AF_UNIX] address is a bug here: the assertion is fragile and the answer 0. *)
Definition tor_addr_is_loopback (a : tor_addr) : bool :=
  match a with
  | TA_INET6 b => (addr32 b 0 =? 0) && (addr32 b 1 =? 0) && (addr32 b 2 =? 0) && (addr32 b 3 =? 1)
  | TA_INET v => Z.land v 0xff000000 =? 0x7f000000
  | TA_UNSPEC | TA_UNIX _ => false
  end.

Definition tor_addr_is_multicast (a : tor_addr) : bool :=
  match a with
  | TA_INET v => Z.shiftr v 24 =? 0xe0
  | TA_INET6 b => b2z (deref b) =? 0xff
  | _ => false
  end.

(** [None] is a NULL pointer. *)
Definition tor_addr_is_valid (a : option tor_addr) (for_listening : bool) : bool :=
  match a with
  | None => false
  | Some a =>
      if for_listening && ((tor_addr_family a =? AF_INET) || (tor_addr_family a =? AF_INET6))
      then true else negb (tor_addr_is_null a)
  end.

Definition tor_addr_is_valid_ipv4n (v4n_addr : Z) (for_listening : bool) : bool :=
  if for_listening then true else negb (v4n_addr =? 0).

Definition tor_port_is_valid (port : Z) (for_listening : bool) : bool :=
  if for_listening then true else negb (port =? 0).

(** The IPv4 networks and the IPv6 networks that [tor_addr_is_internal_] lists. *)
Definition internal_v4 (iph4 : Z) (for_listening : bool) : bool :=
  if for_listening && ((iph4 =? 0) || (Z.land iph4 0xffc00000 =? 0x64400000)) then false
  else
    (Z.land iph4 0xff000000 =? 0x0a000000) || (Z.land iph4 0xff000000 =? 0x00000000)
    || (Z.land iph4 0xff000000 =? 0x7f000000) || (Z.land iph4 0xffc00000 =? 0x64400000)
    || (Z.land iph4 0xffff0000 =? 0xa9fe0000) || (Z.land iph4 0xfff00000 =? 0xac100000)
    || (Z.land iph4 0xffff0000 =? 0xc0a80000).

Definition internal_v6 (b : bytes) (for_listening : bool) : bool :=
  let iph6 := addr32 b in
  if for_listening && (iph6 0%nat =? 0) && (iph6 1%nat =? 0) && (iph6 2%nat =? 0) && (iph6 3%nat =? 0)
  then false
  else if (Z.land (iph6 0%nat) 0xfe000000 =? 0xfc000000)
          || (Z.land (iph6 0%nat) 0xffc00000 =? 0xfe800000)
          || (Z.land (iph6 0%nat) 0xffc00000 =? 0xfec00000) then true
  else (iph6 0%nat =? 0) && (iph6 1%nat =? 0) && (iph6 2%nat =? 0)
       && (Z.land (iph6 3%nat) 0xfffffffe =? 0).

Definition tor_addr_is_internal (a : tor_addr) (for_listening : bool) : bool :=
  match a with
  | TA_INET v => internal_v4 v for_listening
  | TA_INET6 b => if tor_addr_is_v4 a then internal_v4 (addr32 b 3) for_listening
                  else internal_v6 b for_listening
  | _ => true
  end.

(** ** Comparison *)

Definition TRISTATE (a b : Z) : Z := if a <? b then -1 else if a =? b then 0 else 1.

(** Two IPv4 addresses under a mask of at least one bit. *)
Definition compare_v4 (a1 a2 mbits : Z) : Z :=
  let mbits := if 32 <? mbits then 32 else mbits in
  TRISTATE (Z.shiftr a1 (32 - mbits)) (Z.shiftr a2 (32 - mbits)).

Definition compare_v6 (a1 a2 : bytes) (mbits : Z) : outcome Z :=
  let mbits := if 128 <? mbits then 128 else mbits in
  let nbytes := Z.shiftr mbits 3 in
  let leftover_bits := Z.land mbits 7 in
  let* r := if nbytes =? 0 then Ok 0 else tor_memcmp a1 a2 (Z.to_nat nbytes) in
  if negb (nbytes =? 0) && negb (r =? 0) then Ok r
  else if negb (leftover_bits =? 0) then
    let* c1 := get (aget a1 nbytes) in
    let* c2 := get (aget a2 nbytes) in
    Ok (TRISTATE (Z.shiftr (b2z c1) (8 - leftover_bits)) (Z.shiftr (b2z c2) (8 - leftover_bits)))
  else Ok 0.

Definition tor_addr_compare_masked (addr1 addr2 : tor_addr) (mbits : Z)
    (how : tor_addr_comparison) : outcome Z :=
  let family1 := tor_addr_family addr1 in
  let family2 := tor_addr_family addr2 in
  if family1 =? family2 then
    match addr1, addr2 with
    | TA_UNSPEC, _ => Ok 0
    | TA_INET a1, TA_INET a2 => if mbits <=? 0 then Ok 0 else Ok (compare_v4 a1 a2 mbits)
    | TA_INET6 a1, TA_INET6 a2 => compare_v6 a1 a2 mbits
    | TA_UNIX p1, TA_UNIX p2 => Ok (if p1 <? p2 then -1 else if p1 =? p2 then 0 else 1)
    | _, _ => Ok 0
    end
  else
    match how with
    | CMP_EXACT => Ok (TRISTATE family1 family2)
    | CMP_SEMANTIC =>
        if mbits =? 0 then Ok 0
        else
          let v_family1 := if (family1 =? AF_INET6) && tor_addr_is_v4 addr1 then AF_INET else family1 in
          let v_family2 := if (family2 =? AF_INET6) && tor_addr_is_v4 addr2 then AF_INET else family2 in
          if v_family1 =? v_family2 then
            let a2 := if family2 =? AF_INET6 then tor_addr_to_mapped_ipv4h addr2
                      else tor_addr_to_ipv4h addr2 in
            if family1 =? AF_INET6 then
              if mbits <=? 96 then Ok 0
              else Ok (compare_v4 (tor_addr_to_mapped_ipv4h addr1) a2 (mbits - 96))
            else Ok (compare_v4 (tor_addr_to_ipv4h addr1) a2 mbits)
          else Ok (TRISTATE family1 family2)
    end.

Definition tor_addr_compare (addr1 addr2 : tor_addr) (how : tor_addr_comparison) : outcome Z :=
  tor_addr_compare_masked addr1 addr2 128 how.

Definition tor_addr_eq (a b : tor_addr) : bool :=
  match tor_addr_compare a b CMP_EXACT with Ok r => r =? 0 | _ => false end.

(** ** Lemmas: the order of big-endian integers *)

(** The first differing byte decides the order of two integers of the same length. *)
Lemma first_diff_sgn (a : bytes) : forall b, length a = length b ->
  Z.sgn (first_diff a b) = Z.sgn (be a - be b).
Proof.
  induction a as [|c a IH]; intros [|d b] Hl; try done. injection Hl as Hl. cbn [first_diff].
  rewrite !be_cons. pose proof (be_range a) as Ha. pose proof (be_range b) as Hb.
  unfold zlen in *. rewrite <- Hl in *. destruct (Z.eqb_spec (b2z c) (b2z d)) as [->|Hne].
  - rewrite IH by done. f_equal. lia.
  - set (k := 2 ^ (8 * Z.of_nat (length a))) in *.
    destruct (Z.lt_total (b2z c) (b2z d)) as [Hlt|[?|Hgt]]; [|lia|].
    + rewrite !Z.sgn_neg by nia. done.
    + rewrite !Z.sgn_pos by nia. done.
Qed.

Lemma TRISTATE_sgn (a b : Z) : TRISTATE a b = Z.sgn (a - b).
Proof.
  unfold TRISTATE. destruct (Z.ltb_spec a b); [by rewrite Z.sgn_neg by lia|].
  destruct (Z.eqb_spec a b) as [->|]; [by rewrite Z.sub_diag|by rewrite Z.sgn_pos by lia].
Qed.

(** ** The order *)

(** The most significant [m] bits of a 16-byte integer: the whole bytes and what is
    left of the next one. *)
Lemma be_masked (b : bytes) (k l : Z) : length b = 16%nat -> 0 <= k < 16 -> 0 <= l < 8 ->
  exists c, aget b k = Some c /\
    Z.shiftr (be b) (128 - (8 * k + l)) = be (take (Z.to_nat k) b) * 2 ^ l + Z.shiftr (b2z c) (8 - l).
Proof.
  intros Hb Hk Hl. destruct (aget_lt b k) as (c & Hg & Hlk); [lia|]. exists c. split; [done|].
  rewrite <- (take_drop_middle b (Z.to_nat k) c Hlk) at 1.
  set (rest := drop (S (Z.to_nat k)) b).
  assert (Hr : zlen rest = 15 - k) by (unfold rest, zlen; rewrite length_drop; lia).
  rewrite be_app, be_cons. pose proof (be_range rest) as Hrest. pose proof (b2z_range c) as Hc.
  replace (zlen (c :: rest)) with (zlen rest + 1) by (unfold zlen; cbn [length]; lia).
  rewrite Hr in *. rewrite !Z.shiftr_div_pow2 by lia.
  replace (8 * (15 - k + 1)) with (l + (8 - l) + 8 * (15 - k)) by lia.
  replace (128 - (8 * k + l)) with ((8 - l) + 8 * (15 - k)) by lia.
  rewrite !Z.pow_add_r by lia. set (X := be (take (Z.to_nat k) b)).
  set (P := 2 ^ (8 * (15 - k))) in *. assert (HP : 0 < P) by (apply Z.pow_pos_nonneg; lia).
  rewrite (Z.mul_comm (2 ^ (8 - l)) P), <- Z.div_div by (try apply Z.pow_pos_nonneg; lia).
  replace (X * _ + (b2z c * P + be rest))
    with ((X * 2 ^ l * 2 ^ (8 - l) + b2z c) * P + be rest) by lia.
  rewrite Z.div_add_l, (Z.div_small (be rest)), Z.add_0_r by lia.
  rewrite Z.div_add_l by (apply Z.pow_nonzero; lia). lia.
Qed.

Lemma memcmp_first_diff (a b : bytes) (n : nat) : (n <= length a)%nat -> (n <= length b)%nat ->
  tor_memcmp a b n = Ok (first_diff (take n a) (take n b)).
Proof.
  intros. unfold tor_memcmp. rewrite memcmp_loop_ok by done. f_equal.
  case_bool_decide as E; [|done]. by rewrite E, first_diff_eq.
Qed.

Lemma compare_v6_ok (a b : bytes) (m : Z) : length a = 16%nat -> length b = 16%nat -> 0 <= m ->
  exists r, compare_v6 a b m = Ok r /\
    Z.sgn r = Z.sgn (Z.shiftr (be a) (128 - Z.min m 128) - Z.shiftr (be b) (128 - Z.min m 128)).
Proof.
  intros Ha Hb Hm. unfold compare_v6.
  assert ((if 128 <? m then 128 else m) = Z.min m 128) as -> by (destruct (Z.ltb_spec 128 m); lia).
  set (mb := Z.min m 128). assert (Hmb : 0 <= mb <= 128) by lia. clearbody mb.
  rewrite Z.shiftr_div_pow2 by lia. change 7 with (Z.ones 3). rewrite Z.land_ones by lia.
  change (2 ^ 3) with 8. set (k := mb / 8). set (l := mb mod 8).
  assert (Hk : 0 <= k <= 16 /\ 0 <= l < 8 /\ mb = 8 * k + l) by (unfold k, l; dlia).
  destruct Hk as (Hk & Hl & Hkl). clearbody k l. subst mb.
  assert (Hcmp : (if k =? 0 then Ok 0 else tor_memcmp a b (Z.to_nat k)) =
                 Ok (first_diff (take (Z.to_nat k) a) (take (Z.to_nat k) b))).
  { destruct (Z.eqb_spec k 0) as [->|]; [done|]. apply memcmp_first_diff; lia. }
  rewrite Hcmp. cbn [obind].
  assert (Hlt : length (take (Z.to_nat k) a) = length (take (Z.to_nat k) b)) by (rewrite !length_take; lia).
  pose proof (first_diff_sgn _ _ Hlt) as Hs. set (r1 := first_diff _ _) in *.
  assert (Hk0 : negb (k =? 0) && negb (r1 =? 0) = negb (r1 =? 0)).
  { destruct (Z.eqb_spec k 0) as [->|]; [|done]. done. }
  rewrite Hk0. destruct (decide (k = 16)) as [->|Hk16].
  { assert (l = 0) as -> by lia. change (8 * 16 + 0) with 128. change (128 - 128) with 0. rewrite !Z.shiftr_0_r.
    rewrite !take_ge in Hs by lia. cbn [negb Z.eqb]. exists r1.
    split; [|done]. destruct (Z.eqb_spec r1 0) as [E|E]; cbn [negb]; [by rewrite E|done]. }
  destruct (be_masked a k l Ha) as (c & Hc & ->); [lia|lia|].
  destruct (be_masked b k l Hb) as (d & Hd & ->); [lia|lia|].
  set (x := be (take _ a)) in *. set (y := be (take _ b)) in *.
  assert (Hlow : forall e, 0 <= Z.shiftr (b2z e) (8 - l) < 2 ^ l).
  { intros e. rewrite Z.shiftr_div_pow2 by lia. pose proof (b2z_range e).
    split; [apply Z.div_pos; [lia|apply Z.pow_pos_nonneg; lia]|].
    apply Z.div_lt_upper_bound; [apply Z.pow_pos_nonneg; lia|].
    rewrite <- Z.pow_add_r by lia. replace (8 - l + l) with 8 by lia. lia. }
  pose proof (Hlow c) as Hlc. pose proof (Hlow d) as Hld.
  destruct (Z.eqb_spec r1 0) as [E|E]; cbn [negb].
  - rewrite E in Hs. cbn in Hs. symmetry in Hs. apply Z.sgn_null_iff in Hs.
    assert (x = y) as -> by lia. destruct (Z.eqb_spec l 0) as [->|Hl0]; cbn [negb].
    + exists 0. split; [done|]. change (2 ^ 0) with 1 in *. f_equal. lia.
    + rewrite Hc, Hd. cbn [get obind]. eexists. split; [done|]. rewrite TRISTATE_sgn, Z.sgn_sgn.
      f_equal. lia.
  - exists r1. split; [done|]. rewrite Hs.
    assert (x <> y) by (intros E2; rewrite E2, Z.sub_diag in Hs; apply Z.sgn_null_iff in Hs; lia).
    destruct (Z.lt_total x y) as [?|[?|?]]; [|lia|].
    + rewrite !Z.sgn_neg by nia. done.
    + rewrite !Z.sgn_pos by nia. done.
Qed.

Lemma shiftr_range (v k n : Z) : 0 <= v < 2 ^ n -> 0 <= k -> 0 <= Z.shiftr v k < 2 ^ n.
Proof.
  intros Hv Hk. rewrite Z.shiftr_div_pow2 by done. pose proof (Z.pow_pos_nonneg 2 k ltac:(lia) Hk).
  split; [apply Z.div_pos; lia|]. eapply Z.le_lt_trans; [apply Z.div_le_upper_bound; [lia|]|apply Hv].
  nia.
Qed.

(** The part of the key that does not depend on the family. *)
Definition masked_val (m : Z) (a : tor_addr) : Z :=
  match a with
  | TA_UNSPEC => 0
  | TA_UNIX p => p
  | TA_INET v => Z.shiftr v (32 - Z.min m 32)
  | TA_INET6 b => Z.shiftr (be b) (128 - Z.min m 128)
  end.

Lemma masked_val_range (m : Z) (a : tor_addr) : addr_ok a -> 0 <= m -> 0 <= masked_val m a < 2 ^ 129.
Proof.
  intros Ha Hm. destruct a as [|p|v|b]; cbn [masked_val addr_ok] in *; [lia|lia| |].
  - pose proof (shiftr_range v (32 - Z.min m 32) 32 Ha ltac:(lia)). lia.
  - pose proof (be_range b) as Hb. unfold zlen in Hb. rewrite Ha in Hb.
    pose proof (shiftr_range (be b) (128 - Z.min m 128) 128 Hb ltac:(lia)). lia.
Qed.

(** Under its family, the part of an address that a mask of [m] bits keeps. *)
Definition masked_key (m : Z) (a : tor_addr) : Z := 2 ^ 129 * tor_addr_family a + masked_val m a.

(** An exact comparison is the comparison of the masked keys. *)
Lemma compare_masked_sgn (a b : tor_addr) (m : Z) : addr_ok a -> addr_ok b -> 0 <= m ->
  exists r, tor_addr_compare_masked a b m CMP_EXACT = Ok r /\
    Z.sgn r = Z.sgn (masked_key m a - masked_key m b).
Proof.
  intros Ha Hb Hm. unfold tor_addr_compare_masked, masked_key.
  pose proof (masked_val_range m a Ha Hm) as Hra. pose proof (masked_val_range m b Hb Hm) as Hrb.
  destruct (Z.eqb_spec (tor_addr_family a) (tor_addr_family b)) as [E|Hne].
  - assert (Hd : forall x y, 2 ^ 129 * tor_addr_family a + x - (2 ^ 129 * tor_addr_family b + y) = x - y)
      by (intros; rewrite E; lia). rewrite Hd. clear Hd.
    destruct a as [|p|v|s], b as [|q|w|t]; try discriminate E; cbn [masked_val addr_ok] in *.
    + by exists 0.
    + exists (TRISTATE p q). split; [done|]. by rewrite TRISTATE_sgn, Z.sgn_sgn.
    + destruct (Z.leb_spec m 0).
      * exists 0. split; [done|]. replace m with 0 by lia. rewrite !Z.shiftr_div_pow2 by lia.
        change (32 - Z.min 0 32) with 32. rewrite !Z.div_small by lia. done.
      * eexists. split; [done|]. unfold compare_v4.
        assert ((if 32 <? m then 32 else m) = Z.min m 32) as -> by (destruct (Z.ltb_spec 32 m); lia).
        by rewrite TRISTATE_sgn, Z.sgn_sgn.
    + by apply compare_v6_ok.
  - eexists. split; [done|]. rewrite TRISTATE_sgn, Z.sgn_sgn.
    destruct (Z.lt_total (tor_addr_family a) (tor_addr_family b)) as [?|[?|?]]; [|lia|].
    + rewrite !Z.sgn_neg by nia. done.
    + rewrite !Z.sgn_pos by nia. done.
Qed.


Lemma be_inj (s t : bytes) : length s = length t -> be s = be t -> s = t.
Proof.
  intros Hl Hb. apply first_diff_0; [done|]. pose proof (first_diff_sgn s t Hl) as H.
  rewrite Hb, Z.sub_diag in H. lia.
Qed.

Lemma masked_key_family (m : Z) (a b : tor_addr) : addr_ok a -> addr_ok b -> 0 <= m ->
  masked_key m a = masked_key m b ->
  tor_addr_family a = tor_addr_family b /\ masked_val m a = masked_val m b.
Proof.
  intros Ha Hb Hm. unfold masked_key. pose proof (masked_val_range m a Ha Hm).
  pose proof (masked_val_range m b Hb Hm). intros E. split; nia.
Qed.

Lemma masked_key_128 (a b : tor_addr) : addr_ok a -> addr_ok b ->
  masked_key 128 a = masked_key 128 b <-> a = b.
Proof.
  intros Ha Hb. split; [|by intros ->]. intros E.
  apply (masked_key_family 128) in E as [Ef Ev]; [|done|done|lia].
  destruct a, b; try discriminate Ef; cbn [masked_val addr_ok] in *.
  - done.
  - by subst.
  - change (32 - Z.min 128 32) with 0 in Ev. rewrite !Z.shiftr_0_r in Ev. by subst.
  - change (128 - Z.min 128 128) with 0 in Ev. rewrite !Z.shiftr_0_r in Ev.
    f_equal. apply be_inj; [congruence|done].
Qed.

(** A shorter mask keeps less. *)
Lemma masked_key_mono (m m' : Z) (a b : tor_addr) : addr_ok a -> addr_ok b -> 0 <= m' <= m ->
  masked_key m a = masked_key m b -> masked_key m' a = masked_key m' b.
Proof.
  intros Ha Hb Hm E. apply (masked_key_family m) in E as [Ef Ev]; [|done|done|lia].
  unfold masked_key. rewrite Ef. f_equal.
  destruct a, b; try discriminate Ef; cbn [masked_val] in *; try done.
  - replace (32 - Z.min m' 32) with ((32 - Z.min m 32) + (Z.min m 32 - Z.min m' 32)) by lia.
    rewrite <- !Z.shiftr_shiftr, Ev by lia. done.
  - replace (128 - Z.min m' 128) with ((128 - Z.min m 128) + (Z.min m 128 - Z.min m' 128)) by lia.
    rewrite <- !Z.shiftr_shiftr, Ev by lia. done.
Qed.

(** The test the callers make: 0 exactly when the kept parts agree. *)
Lemma compare_masked_zero (a b : tor_addr) (m : Z) : addr_ok a -> addr_ok b -> 0 <= m ->
  exists r, tor_addr_compare_masked a b m CMP_EXACT = Ok r /\
    (r =? 0) = bool_decide (masked_key m a = masked_key m b).
Proof.
  intros Ha Hb Hm. destruct (compare_masked_sgn a b m Ha Hb Hm) as (r & Hr & Hs). exists r.
  split; [done|]. destruct (Z.eqb_spec r 0) as [->|Hne].
  - rewrite bool_decide_true; [done|]. symmetry in Hs. apply Z.sgn_null_iff in Hs. lia.
  - rewrite bool_decide_false; [done|]. intros E. rewrite E, Z.sub_diag in Hs.
    lia.
Qed.

(** ** Properties *)

(** The exact comparison of addresses is a total order: it always answers, it is 0 exactly
    on equal addresses, exchanging the arguments exchanges the sign, and it is
    transitive, over all families. *)
Theorem tor_addr_compare_exact_order (a b c : tor_addr) : addr_ok a -> addr_ok b -> addr_ok c ->
  exists rab rba rbc rac,
    tor_addr_compare a b CMP_EXACT = Ok rab /\ tor_addr_compare b a CMP_EXACT = Ok rba /\
    tor_addr_compare b c CMP_EXACT = Ok rbc /\ tor_addr_compare a c CMP_EXACT = Ok rac /\
    (rab = 0 <-> a = b) /\ Z.sgn rba = - Z.sgn rab /\
    (rab <= 0 -> rbc <= 0 -> rac <= 0).
Proof.
  intros Ha Hb Hc. unfold tor_addr_compare.
  destruct (compare_masked_sgn a b 128 Ha Hb) as (rab & -> & Hab); [lia|].
  destruct (compare_masked_sgn b a 128 Hb Ha) as (rba & -> & Hba); [lia|].
  destruct (compare_masked_sgn b c 128 Hb Hc) as (rbc & -> & Hbc); [lia|].
  destruct (compare_masked_sgn a c 128 Ha Hc) as (rac & -> & Hac); [lia|].
  exists rab, rba, rbc, rac. do 4 (split; [done|]). split; [|split].
  - rewrite <- (masked_key_128 a b Ha Hb), <- (Z.sgn_null_iff rab), Hab, Z.sgn_null_iff. lia.
  - rewrite Hab, Hba, <- Z.sgn_opp. f_equal. lia.
  - assert (Hle : forall x, x <= 0 <-> Z.sgn x <= 0) by lia.
    rewrite (Hle rab), (Hle rbc), (Hle rac), Hab, Hbc, Hac, <- !Hle. lia.
Qed.

Theorem tor_addr_compare_exact_order_witness :
  exists rab rba rbc rac,
    tor_addr_compare (TA_INET 1) (TA_INET 2) CMP_EXACT = Ok rab /\
    tor_addr_compare (TA_INET 2) (TA_INET 1) CMP_EXACT = Ok rba /\
    tor_addr_compare (TA_INET 2) TA_UNSPEC CMP_EXACT = Ok rbc /\
    tor_addr_compare (TA_INET 1) TA_UNSPEC CMP_EXACT = Ok rac /\
    (rab = 0 <-> TA_INET 1 = TA_INET 2) /\ Z.sgn rba = - Z.sgn rab /\
    (rab <= 0 -> rbc <= 0 -> rac <= 0).
Proof. apply (tor_addr_compare_exact_order (TA_INET 1) (TA_INET 2) TA_UNSPEC); cbn; lia. Defined.

(** The semantic comparison, with which an IPv4 address equals its IPv6-mapped form, is
    not an order, although the comment above [tor_addr_compare_masked] guarantees one:
    1.2.3.4 equals ::ffff:1.2.3.4, which comes after ::1, which comes after 1.2.3.4. *)
Theorem tor_addr_compare_semantic_intransitive :
  let a := TA_INET 0x01020304 in
  let b := TA_INET6 (replicate 10 NUL ++ map z2b [255; 255; 1; 2; 3; 4]) in
  let c := TA_INET6 (replicate 15 NUL ++ [z2b 1]) in
  addr_ok a /\ addr_ok b /\ addr_ok c /\ tor_addr_compare a b CMP_SEMANTIC = Ok 0 /\
  tor_addr_compare a c CMP_SEMANTIC = Ok (-1) /\ tor_addr_compare b c CMP_SEMANTIC = Ok 255.
Proof. cbn zeta. do 5 (split; [vm_compute; try done; by split|]). vm_compute. reflexivity. Qed.

(** Equality of addresses is equality. *)
Lemma addr_eqb (a b : tor_addr) : addr_ok a -> addr_ok b -> tor_addr_eq a b = bool_decide (a = b).
Proof.
  intros Ha Hb. destruct (tor_addr_compare_exact_order a b b Ha Hb Hb) as (r & _ & _ & _ & E & _ & _ & _ & H & _).
  unfold tor_addr_eq. rewrite E. apply Bool.eq_iff_eq_true. rewrite Z.eqb_eq, bool_decide_eq_true. exact H.
Qed.
