(* ===== verification/Policies.v ===== *)
(** * Address policies: matching and simplification, [core/or/policies.c]

    A policy is the list of its entries. The reference counts and the table of canonical
    entries share memory between equal entries and are not modelled; parsing of the
    configuration is not in this file, so the private networks are given as the
    addresses and prefix lengths they parse to. *)
From S2P Require Import Prelude ParseInt Endian Address.

Inductive addr_policy_action := ADDR_POLICY_ACCEPT | ADDR_POLICY_REJECT.

#[export] Instance addr_policy_action_eq_dec : EqDecision addr_policy_action.
Proof. solve_decision. Defined.

Record addr_policy := {
  policy_type : addr_policy_action;
  is_private : bool;
  maskbits : Z;
  pol_addr : tor_addr;
  prt_min : Z;
  prt_max : Z
}.

Inductive addr_policy_result :=
  | ADDR_POLICY_ACCEPTED
  | ADDR_POLICY_REJECTED
  | ADDR_POLICY_PROBABLY_ACCEPTED
  | ADDR_POLICY_PROBABLY_REJECTED.

#[export] Instance addr_policy_result_eq_dec : EqDecision addr_policy_result.
Proof. solve_decision. Defined.

(** What the member types of [addr_policy_t] guarantee. *)
Definition pol_ok (p : addr_policy) : Prop :=
  addr_ok (pol_addr p) /\ 0 <= maskbits p < 256 /\
  0 <= prt_min p <= 65535 /\ 0 <= prt_max p <= 65535.

(** [!tor_addr_compare_masked(a, b, mbits, CMP_EXACT)]. *)
Definition same_masked (a b : tor_addr) (mbits : Z) : outcome bool :=
  let* r := tor_addr_compare_masked a b mbits CMP_EXACT in Ok (r =? 0).

(** ** Equality of policies *)

Definition single_addr_policy_eq (a b : addr_policy) : outcome bool :=
  if negb (bool_decide (policy_type a = policy_type b)) then Ok false
  else if negb (Bool.eqb (is_private a) (is_private b)) then Ok false
  else
    let* r := tor_addr_compare (pol_addr a) (pol_addr b) CMP_EXACT in
    if negb (r =? 0) then Ok false
    else Ok ((maskbits a =? maskbits b) && (prt_min a =? prt_min b) && (prt_max a =? prt_max b)).

Fixpoint policies_eq_loop (a b : list addr_policy) : outcome bool :=
  match a, b with
  | x :: a', y :: b' =>
      let* e := single_addr_policy_eq x y in if e : bool then policies_eq_loop a' b' else Ok false
  | _, _ => Ok true
  end.

(** A NULL policy counts as an empty one. *)
Definition addr_policies_eq (a b : option (list addr_policy)) : outcome bool :=
  let la := default [] a in
  let lb := default [] b in
  if negb (zlen la =? zlen lb) then Ok false else policies_eq_loop la lb.

(** ** Matching *)

Fixpoint compare_known_tor_addr_to_addr_policy (addr : tor_addr) (port : Z)
    (policy : list addr_policy) : outcome addr_policy_result :=
  match policy with
  | [] => Ok ADDR_POLICY_ACCEPTED
  | tmpe :: rest =>
      let* m := same_masked addr (pol_addr tmpe) (maskbits tmpe) in
      if m && (prt_min tmpe <=? port) && (port <=? prt_max tmpe) then
        Ok (match policy_type tmpe with
            | ADDR_POLICY_ACCEPT => ADDR_POLICY_ACCEPTED
            | ADDR_POLICY_REJECT => ADDR_POLICY_REJECTED
            end)
      else compare_known_tor_addr_to_addr_policy addr port rest
  end.

(** The answer at an entry that matches for certain. *)
Definition definite_answer (t : addr_policy_action) (maybe_accept maybe_reject : bool)
    : addr_policy_result :=
  match t with
  | ADDR_POLICY_ACCEPT =>
      if maybe_reject then ADDR_POLICY_PROBABLY_ACCEPTED else ADDR_POLICY_ACCEPTED
  | ADDR_POLICY_REJECT =>
      if maybe_accept then ADDR_POLICY_PROBABLY_REJECTED else ADDR_POLICY_REJECTED
  end.

Fixpoint noport_loop (addr : tor_addr) (policy : list addr_policy) (maybe_accept maybe_reject : bool)
    : outcome addr_policy_result :=
  match policy with
  | [] => Ok (if maybe_reject then ADDR_POLICY_PROBABLY_ACCEPTED else ADDR_POLICY_ACCEPTED)
  | tmpe :: rest =>
      let* m := same_masked addr (pol_addr tmpe) (maskbits tmpe) in
      if m : bool then
        if (prt_min tmpe <=? 1) && (65535 <=? prt_max tmpe) then
          Ok (definite_answer (policy_type tmpe) maybe_accept maybe_reject)
        else
          match policy_type tmpe with
          | ADDR_POLICY_REJECT => noport_loop addr rest maybe_accept true
          | ADDR_POLICY_ACCEPT => noport_loop addr rest true maybe_reject
          end
      else noport_loop addr rest maybe_accept maybe_reject
  end.

Definition compare_known_tor_addr_to_addr_policy_noport (addr : tor_addr)
    (policy : list addr_policy) : outcome addr_policy_result :=
  noport_loop addr policy false false.

Fixpoint unknown_loop (port : Z) (policy : list addr_policy) (maybe_accept maybe_reject : bool)
    : addr_policy_result :=
  match policy with
  | [] => if maybe_reject then ADDR_POLICY_PROBABLY_ACCEPTED else ADDR_POLICY_ACCEPTED
  | tmpe :: rest =>
      if (prt_min tmpe <=? port) && (port <=? prt_max tmpe) then
        if maskbits tmpe =? 0 then definite_answer (policy_type tmpe) maybe_accept maybe_reject
        else
          match policy_type tmpe with
          | ADDR_POLICY_REJECT => unknown_loop port rest maybe_accept true
          | ADDR_POLICY_ACCEPT => unknown_loop port rest true maybe_reject
          end
      else unknown_loop port rest maybe_accept maybe_reject
  end.

Definition compare_unknown_tor_addr_to_addr_policy (port : Z) (policy : list addr_policy)
    : addr_policy_result := unknown_loop port policy false false.

(** [None] is a NULL address or policy. *)
Definition compare_tor_addr_to_addr_policy (addr : option tor_addr) (port : Z)
    (policy : option (list addr_policy)) : outcome addr_policy_result :=
  match policy with
  | None => Ok ADDR_POLICY_ACCEPTED
  | Some policy =>
      let known := match addr with Some a => if tor_addr_is_null a then None else Some a
                                 | None => None end in
      match known with
      | None => if port =? 0 then Ok ADDR_POLICY_REJECTED
                else Ok (compare_unknown_tor_addr_to_addr_policy port policy)
      | Some a => if port =? 0 then compare_known_tor_addr_to_addr_policy_noport a policy
                  else compare_known_tor_addr_to_addr_policy a port policy
      end
  end.

Definition addr_policy_permits_tor_addr (addr : option tor_addr) (port : Z)
    (policy : option (list addr_policy)) : outcome bool :=
  let* p := compare_tor_addr_to_addr_policy addr port policy in
  Ok (match p with
      | ADDR_POLICY_PROBABLY_ACCEPTED | ADDR_POLICY_ACCEPTED => true
      | ADDR_POLICY_PROBABLY_REJECTED | ADDR_POLICY_REJECTED => false
      end).

(** ** Relations between entries *)

Definition addr_policy_covers (a b : addr_policy) : outcome bool :=
  if negb (tor_addr_family (pol_addr a) =? tor_addr_family (pol_addr b)) then Ok false
  else if maskbits b <? maskbits a then Ok false
  else
    let* m := same_masked (pol_addr a) (pol_addr b) (maskbits a) in
    if negb m then Ok false else Ok ((prt_min a <=? prt_min b) && (prt_max b <=? prt_max a)).

Definition addr_policy_intersects (a b : addr_policy) : outcome bool :=
  let minbits := if maskbits a <? maskbits b then maskbits a else maskbits b in
  let* m := same_masked (pol_addr a) (pol_addr b) minbits in
  if negb m then Ok false
  else if (prt_max a <? prt_min b) || (prt_max b <? prt_min a) then Ok false
  else Ok true.

(** ** Simplification *)

(** Step one: entries after the catch-all entry of their family are dropped. *)
Fixpoint kill_after_star (kill_v4 kill_v6 : bool) (dest : list addr_policy) : list addr_policy :=
  match dest with
  | [] => []
  | ap :: rest =>
      let family := tor_addr_family (pol_addr ap) in
      if ((family =? AF_INET) && kill_v4) || ((family =? AF_INET6) && kill_v6)
      then kill_after_star kill_v4 kill_v6 rest
      else
        let star := (maskbits ap =? 0) && (prt_min ap <=? 1) && (65535 <=? prt_max ap) in
        ap :: kill_after_star (kill_v4 || (star && (family =? AF_INET)))
                (kill_v6 || (star && (family =? AF_INET6))) rest
  end.

(** The inner loop of step two: what [ap] does not cover stays. *)
Fixpoint drop_covered (ap : addr_policy) (l : list addr_policy) : outcome (list addr_policy) :=
  match l with
  | [] => Ok []
  | tmp :: rest =>
      let* c := addr_policy_covers ap tmp in
      let* rest := drop_covered ap rest in
      Ok (if c : bool then rest else tmp :: rest)
  end.

Fixpoint drop_covered_later (fuel : nat) (dest : list addr_policy) : outcome (list addr_policy) :=
  match dest with
  | [] => Ok []
  | ap :: rest =>
      match fuel with
      | O => Stuck
      | S f => let* rest := drop_covered ap rest in
               let* rest := drop_covered_later f rest in Ok (ap :: rest)
      end
  end.

(** The inner loop of step three: whether a later entry of the same type covers [ap],
    before any entry of the other type that intersects it. *)
Fixpoint covered_later (ap : addr_policy) (l : list addr_policy) : outcome bool :=
  match l with
  | [] => Ok false
  | tmp :: rest =>
      if negb (bool_decide (policy_type ap = policy_type tmp)) then
        let* i := addr_policy_intersects ap tmp in
        if i : bool then Ok false else covered_later ap rest
      else
        let* c := addr_policy_covers tmp ap in
        if c : bool then Ok true else covered_later ap rest
  end.

Fixpoint drop_covered_earlier (dest : list addr_policy) : outcome (list addr_policy) :=
  match dest with
  | [] => Ok []
  | ap :: rest =>
      let* r := covered_later ap rest in
      let* rest := drop_covered_earlier rest in
      Ok (if r : bool then rest else ap :: rest)
  end.

Definition exit_policy_remove_redundancies (dest : list addr_policy) : outcome (list addr_policy) :=
  let dest := kill_after_star false false dest in
  let* dest := drop_covered_later (length dest) dest in
  drop_covered_earlier dest.

(** ** Expansion of the pseudo-addresses *)

Definition ip4 (a b c d : Z) : tor_addr := TA_INET (((a * 256 + b) * 256 + c) * 256 + d).

(** An IPv6 address with the given first bytes and zeros after them. *)
Definition ip6 (first : list Z) : tor_addr :=
  TA_INET6 (map z2b first ++ replicate (16 - length first) NUL).

(** The parsed form of the strings of [private_nets]. *)
Definition private_nets : list (tor_addr * Z) :=
  [(ip4 0 0 0 0, 8); (ip4 169 254 0 0, 16); (ip4 127 0 0 0, 8); (ip4 192 168 0 0, 16);
   (ip4 10 0 0 0, 8); (ip4 172 16 0 0, 12);
   (ip6 [], 8); (ip6 [0xfc], 7); (ip6 [0xfe; 0x80], 10); (ip6 [0xfe; 0xc0], 10);
   (ip6 [0xff], 8); (ip6 [], 127)].

Definition with_net (p : addr_policy) (private : bool) (addr : tor_addr) (bits : Z) : addr_policy :=
  {| policy_type := policy_type p; is_private := private; maskbits := bits; pol_addr := addr;
     prt_min := prt_min p; prt_max := prt_max p |}.

Definition policy_expand_private (policy : list addr_policy) : list addr_policy :=
  flat_map (fun p => if negb (is_private p) then [p]
                     else map (fun net => with_net p false (fst net) (snd net)) private_nets) policy.

Definition policy_expand_unspec (policy : list addr_policy) : list addr_policy :=
  flat_map (fun p =>
    let family := tor_addr_family (pol_addr p) in
    if (family =? AF_INET6) || (family =? AF_INET) || is_private p then [p]
    else if family =? AF_UNSPEC then
      let bits := if negb (maskbits p =? 0) then 0 else maskbits p in
      [with_net p (is_private p) (TA_INET 0) bits;
       with_net p (is_private p) (TA_INET6 (replicate 16 NUL)) bits]
    else [p]) policy.

(** ** Entries that reject the relay's own addresses *)

Definition addr_policy_append_reject_addr (dest : list addr_policy) (addr : tor_addr)
    : list addr_policy :=
  dest ++ [{| policy_type := ADDR_POLICY_REJECT; is_private := false;
              maskbits := if tor_addr_family addr =? AF_INET6 then 128 else 32;
              pol_addr := addr; prt_min := 1; prt_max := 65535 |}].

Definition tor_addr_is_public_for_reject (addr : tor_addr) : bool :=
  negb (tor_addr_is_null addr) && negb (tor_addr_is_internal addr false)
  && negb (tor_addr_is_multicast addr).

Definition addr_policy_append_reject_addr_filter (dest : list addr_policy) (addr : tor_addr)
    (ipv4_rules ipv6_rules : bool) : list addr_policy :=
  if tor_addr_is_public_for_reject addr then
    let is_ipv4 := tor_addr_is_v4 addr in
    if (is_ipv4 && ipv4_rules) || (negb is_ipv4 && ipv6_rules)
    then addr_policy_append_reject_addr dest addr else dest
  else dest.

Definition addr_policy_append_reject_addr_list (dest : list addr_policy) (addrs : list tor_addr)
    : list addr_policy :=
  fold_left addr_policy_append_reject_addr addrs dest.

Definition addr_policy_append_reject_addr_list_filter (dest : list addr_policy)
    (addrs : list tor_addr) (ipv4_rules ipv6_rules : bool) : list addr_policy :=
  fold_left (fun d a => addr_policy_append_reject_addr_filter d a ipv4_rules ipv6_rules) addrs dest.

(** [port_addrs] are the addresses of the configured ports that are not Unix sockets, and
    [interface4], [interface6] what [get_interface_address6_list] returns per family. *)
Definition policies_parse_exit_policy_reject_private (port_addrs interface4 interface6 : list tor_addr)
    (dest : list addr_policy) (ipv6_exit : bool) (configured_addresses : option (list tor_addr))
    (reject_interface_addresses reject_configured_port_addresses : bool)
    : outcome (list addr_policy) :=
  let dest := match configured_addresses with
              | Some l => addr_policy_append_reject_addr_list_filter dest l true ipv6_exit
              | None => dest end in
  let dest := if reject_configured_port_addresses
              then addr_policy_append_reject_addr_list_filter dest port_addrs true ipv6_exit
              else dest in
  let dest :=
    if reject_interface_addresses then
      let dest := addr_policy_append_reject_addr_list_filter dest interface4 true false in
      if ipv6_exit then addr_policy_append_reject_addr_list_filter dest interface6 false true else dest
    else dest in
  exit_policy_remove_redundancies dest.

(** ** Questions about whole policies *)

(** The index of the first redundant entry that [policies_log_first_redundant_entry] warns
    about, if any. The two [found] flags are declared in the loop's body. *)
Fixpoint log_first_redundant_loop (len i : Z) (policy : list addr_policy) : option Z :=
  match policy with
  | [] => None
  | p :: rest =>
      let family := tor_addr_family (pol_addr p) in
      let star := (prt_min p <=? 1) && (prt_max p =? 65535) && (maskbits p =? 0) in
      let found_ipv4_wildcard := star && ((family =? AF_INET) || (family =? AF_UNSPEC)) in
      let found_ipv6_wildcard := star && ((family =? AF_INET6) || (family =? AF_UNSPEC)) in
      if found_ipv4_wildcard && found_ipv6_wildcard then
        if i <? len - 1 then Some (i + 1) else None
      else log_first_redundant_loop len (i + 1) rest
  end.

Definition policies_log_first_redundant_entry (policy : list addr_policy) : option Z :=
  log_first_redundant_loop (zlen policy) 0 policy.

Fixpoint policy_is_reject_star_loop (policy : list addr_policy) (family : Z) (default_reject : bool)
    : bool :=
  match policy with
  | [] => default_reject
  | p :: rest =>
      let f := tor_addr_family (pol_addr p) in
      let family_matches := (f =? family) || (f =? AF_UNSPEC) in
      match policy_type p with
      | ADDR_POLICY_ACCEPT =>
          if family_matches then false else policy_is_reject_star_loop rest family default_reject
      | ADDR_POLICY_REJECT =>
          if (prt_min p <=? 1) && (prt_max p =? 65535) && (maskbits p =? 0) && family_matches
          then true else policy_is_reject_star_loop rest family default_reject
      end
  end.

Definition policy_is_reject_star (policy : option (list addr_policy)) (family : Z)
    (default_reject : bool) : bool :=
  match policy with
  | None => default_reject
  | Some l => policy_is_reject_star_loop l family default_reject
  end.

Section general_exit.
(** [get_options()->DirAllowPrivateAddresses]. *)
Context (DirAllowPrivateAddresses : bool).

(** The loop over the /8 networks an entry touches; the result says whether the function
    returns 1. *)
Fixpoint subnet_loop (fuel : nat) (p : addr_policy) (subnet_status : list bool) (i last : Z)
  : outcome (bool * list bool) :=
if i <=? last then
  match fuel with
  | O => Stuck
  | S f =>
      let* status := get (aget subnet_status i) in
      if status : bool then subnet_loop f p subnet_status (i + 1) last
      else if tor_addr_is_internal (TA_INET (wrap 32 (Z.shiftl i 24))) false
              && negb DirAllowPrivateAddresses
      then subnet_loop f p subnet_status (i + 1) last
      else
        match policy_type p with
        | ADDR_POLICY_ACCEPT =>
            if 8 <? maskbits p then subnet_loop f p subnet_status (i + 1) last
            else Ok (true, subnet_status)
        | ADDR_POLICY_REJECT =>
            let* subnet_status := aset subnet_status i true in
            subnet_loop f p subnet_status (i + 1) last
        end
  end
else Ok (false, subnet_status).

Fixpoint general_exit_loop (policy : list addr_policy) (port : Z) (subnet_status : list bool)
  : outcome bool :=
match policy with
| [] => Ok false
| p :: rest =>
    match pol_addr p with
    | TA_INET ip =>
        if (port <? prt_min p) || (prt_max p <? port) then general_exit_loop rest port subnet_status
        else
          tor_assert (maskbits p <=? 32) (
          let mask := if negb (maskbits p =? 0)
                      then wrap 32 (Z.shiftl 0xffffffff (32 - maskbits p)) else 0 in
          let first := Z.shiftr (Z.land mask ip) 24 in
          let last := Z.shiftr (Z.lxor 0xffffffff (Z.lxor (Z.land mask ip) mask)) 24 in
          let* (found, subnet_status) := subnet_loop 257 p subnet_status first last in
          if found : bool then Ok true else general_exit_loop rest port subnet_status)
    | _ => general_exit_loop rest port subnet_status
    end
end.

Definition exit_policy_is_general_exit_helper (policy : list addr_policy) (port : Z) : outcome bool :=
  general_exit_loop policy port (replicate 256 false).

Definition exit_policy_is_general_exit (policy : option (list addr_policy)) : outcome bool :=
match policy with
| None => Ok false
| Some l =>
    let* a := exit_policy_is_general_exit_helper l 80 in
    if a : bool then exit_policy_is_general_exit_helper l 443 else Ok false
end.
End general_exit.

Definition star4 (t : addr_policy_action) : addr_policy :=
  {| policy_type := t; is_private := false; maskbits := 0; pol_addr := TA_INET 0;
     prt_min := 1; prt_max := 65535 |}.
Definition star6 (t : addr_policy_action) : addr_policy :=
  {| policy_type := t; is_private := false; maskbits := 0; pol_addr := TA_INET6 (replicate 16 NUL);
     prt_min := 1; prt_max := 65535 |}.

(** The entries [reject *4:*] and [reject *6:*] parse to are [star4] and [star6]. *)
Definition policies_exit_policy_append_reject_star (dest : list addr_policy) : list addr_policy :=
  dest ++ [star4 ADDR_POLICY_REJECT; star6 ADDR_POLICY_REJECT].

(** ** The meaning of a policy *)

(** Whether an entry matches an address and a port. *)
Definition matches (addr : tor_addr) (port : Z) (p : addr_policy) : bool :=
  bool_decide (masked_key (maskbits p) addr = masked_key (maskbits p) (pol_addr p))
  && (prt_min p <=? port) && (port <=? prt_max p).

(** The first entry that matches decides. *)
Fixpoint first_match (addr : tor_addr) (port : Z) (policy : list addr_policy)
    : option addr_policy_action :=
  match policy with
  | [] => None
  | p :: rest => if matches addr port p then Some (policy_type p) else first_match addr port rest
  end.

Definition answer (m : option addr_policy_action) : addr_policy_result :=
  match m with Some ADDR_POLICY_REJECT => ADDR_POLICY_REJECTED | _ => ADDR_POLICY_ACCEPTED end.

Lemma same_masked_ok (a b : tor_addr) (m : Z) : addr_ok a -> addr_ok b -> 0 <= m ->
  same_masked a b m = Ok (bool_decide (masked_key m a = masked_key m b)).
Proof.
  intros Ha Hb Hm. unfold same_masked.
  destruct (compare_masked_zero a b m Ha Hb Hm) as (r & -> & Hr). cbn [obind]. by rewrite Hr.
Qed.

Lemma compare_known_ok (addr : tor_addr) (port : Z) (policy : list addr_policy) :
  addr_ok addr -> Forall pol_ok policy ->
  compare_known_tor_addr_to_addr_policy addr port policy = Ok (answer (first_match addr port policy)).
Proof.
  intros Ha. induction 1 as [|p rest (Hp & Hm & _) _ IH]; [done|].
  cbn [compare_known_tor_addr_to_addr_policy first_match].
  rewrite same_masked_ok by (done || lia). cbn [obind]. unfold matches.
  destruct (_ && _ && _); [by destruct (policy_type p)|done].
Qed.

Lemma covers_ok (a b : addr_policy) : pol_ok a -> pol_ok b ->
  exists r, addr_policy_covers a b = Ok r /\
    (r = true -> forall addr port, addr_ok addr -> matches addr port b = true -> matches addr port a = true).
Proof.
  intros (Ha & Hma & Hpa & Hqa) (Hb & Hmb & Hpb & Hqb). unfold addr_policy_covers.
  destruct (Z.eqb_spec (tor_addr_family (pol_addr a)) (tor_addr_family (pol_addr b))) as [_|];
    cbn [negb]; [|by exists false].
  destruct (Z.ltb_spec (maskbits b) (maskbits a)) as [|Hle]; [by exists false|].
  rewrite same_masked_ok by (done || lia). cbn [obind].
  destruct (bool_decide_reflect (masked_key (maskbits a) (pol_addr a) = masked_key (maskbits a) (pol_addr b)))
    as [E|]; cbn [negb]; [|by exists false].
  eexists. split; [done|]. intros [H1 H2]%andb_true_iff addr port Haddr. unfold matches.
  rewrite !andb_true_iff, !Z.leb_le, !bool_decide_eq_true. intros [[H3 H4] H5].
  apply Z.leb_le in H1, H2. split; [split; [|lia]|lia]. rewrite E.
  apply (masked_key_mono (maskbits b)); [done|done|lia|done].
Qed.

Lemma intersects_ok (a b : addr_policy) : pol_ok a -> pol_ok b ->
  exists r, addr_policy_intersects a b = Ok r /\
    (r = false -> forall addr port, addr_ok addr -> matches addr port a = true -> matches addr port b = false).
Proof.
  intros (Ha & Hma & Hpa & Hqa) (Hb & Hmb & Hpb & Hqb). unfold addr_policy_intersects.
  set (m := if maskbits a <? maskbits b then maskbits a else maskbits b).
  assert (Hm : 0 <= m <= maskbits a /\ m <= maskbits b)
    by (unfold m; destruct (Z.ltb_spec (maskbits a) (maskbits b)); lia). clearbody m.
  rewrite same_masked_ok by (done || lia). cbn [obind].
  assert (Hport : forall addr port, matches addr port a = true -> matches addr port b = true ->
    prt_min a <= port <= prt_max a /\ prt_min b <= port <= prt_max b).
  { intros addr port. unfold matches. rewrite !andb_true_iff, !Z.leb_le. intuition. }
  destruct (bool_decide_reflect (masked_key m (pol_addr a) = masked_key m (pol_addr b))) as [E|E]; cbn [negb].
  - destruct (Z.ltb_spec (prt_max a) (prt_min b)), (Z.ltb_spec (prt_max b) (prt_min a)); cbn [orb];
      eexists; (split; [done|]); try done; intros _ addr port Haddr H1;
      apply not_true_iff_false; intros H2; specialize (Hport addr port H1 H2); lia.
  - exists false. split; [done|]. intros _ addr port Haddr H1. apply not_true_iff_false. intros H2.
    unfold matches in H1, H2. rewrite !andb_true_iff, !bool_decide_eq_true in H1, H2.
    destruct H1 as [[H1 _] _], H2 as [[H2 _] _]. apply E.
    apply (masked_key_mono (maskbits a) m) in H1; [|done|done|lia].
    apply (masked_key_mono (maskbits b) m) in H2; [|done|done|lia]. congruence.
Qed.

(** ** Simplification keeps the meaning *)

Section meaning.
Context (addr : tor_addr) (port : Z) (Haddr : addr_ok addr) (Hport : 1 <= port <= 65535).

Lemma masked_key_0 (a b : tor_addr) : addr_ok a -> addr_ok b ->
  tor_addr_family a = tor_addr_family b -> tor_addr_family a <> AF_UNIX -> masked_key 0 a = masked_key 0 b.
Proof.
intros Ha Hb Hf Hu. unfold masked_key. rewrite Hf. f_equal.
destruct a as [| |v|s], b as [| |w|t]; try discriminate Hf; cbn [masked_val addr_ok] in *; try done.
- change (32 - Z.min 0 32) with 32. rewrite !Z.shiftr_div_pow2, !Z.div_small by lia. done.
- change (128 - Z.min 0 128) with 128. pose proof (be_range s) as Hs. pose proof (be_range t) as Ht.
  unfold zlen in *. rewrite Ha in Hs. rewrite Hb in Ht.
  rewrite !Z.shiftr_div_pow2, !Z.div_small by lia. done.
Qed.

Lemma matches_family (p : addr_policy) : pol_ok p -> matches addr port p = true ->
  tor_addr_family addr = tor_addr_family (pol_addr p).
Proof.
intros (Hp & Hm & _). unfold matches. rewrite !andb_true_iff, bool_decide_eq_true.
intros [[E _] _]. by apply masked_key_family in E as [E _]; [|done|done|lia].
Qed.

(** An entry that cannot be the first match can go. *)
Lemma kill_after_star_ok (dest : list addr_policy) : forall k4 k6, Forall pol_ok dest ->
  (k4 = true -> tor_addr_family addr <> AF_INET) -> (k6 = true -> tor_addr_family addr <> AF_INET6) ->
  first_match addr port (kill_after_star k4 k6 dest) = first_match addr port dest.
Proof.
induction dest as [|p rest IH]; intros k4 k6 Hok H4 H6; [done|].
apply Forall_cons in Hok as [Hp Hrest]. cbn [kill_after_star first_match].
set (family := tor_addr_family (pol_addr p)).
destruct (((family =? AF_INET) && k4) || ((family =? AF_INET6) && k6)) eqn:Hkill.
- rewrite IH by done. destruct (matches addr port p) eqn:Hm; [|done].
  apply (matches_family p Hp) in Hm. fold family in Hm.
  apply orb_true_iff in Hkill as [[Hf%Z.eqb_eq Hk]%andb_true_iff|[Hf%Z.eqb_eq Hk]%andb_true_iff];
    exfalso; [apply H4|apply H6]; congruence.
- cbn [first_match]. destruct (matches addr port p) eqn:Hm; [done|].
  assert (Hstar : (maskbits p =? 0) && (prt_min p <=? 1) && (65535 <=? prt_max p) = true ->
    (family =? AF_INET) || (family =? AF_INET6) = true -> tor_addr_family addr <> family).
  { rewrite !andb_true_iff, orb_true_iff, !Z.eqb_eq, !Z.leb_le. intros [[Hz Hmin] Hmax] Hf E.
    apply not_true_iff_false in Hm. apply Hm. unfold matches. rewrite Hz.
    rewrite !andb_true_iff, bool_decide_eq_true, !Z.leb_le. split; [split; [|lia]|lia].
    apply masked_key_0; [done|apply Hp|done|]. rewrite E. destruct Hf as [->| ->]; done. }
  apply IH; [done| |].
  + intros [Hk|[Hs Hf]%andb_true_iff]%orb_true_iff; [by apply H4|].
    apply Z.eqb_eq in Hf as Hf'. rewrite <- Hf'. apply Hstar; [done|]. by rewrite Hf.
  + intros [Hk|[Hs Hf]%andb_true_iff]%orb_true_iff; [by apply H6|].
    apply Z.eqb_eq in Hf as Hf'. rewrite <- Hf'. apply Hstar; [done|]. rewrite Hf. apply orb_true_r.
Qed.

Lemma drop_covered_ok (ap : addr_policy) (l : list addr_policy) : pol_ok ap -> Forall pol_ok l ->
  exists l', drop_covered ap l = Ok l' /\ Forall pol_ok l' /\ (length l' <= length l)%nat /\
    (matches addr port ap = false -> first_match addr port l' = first_match addr port l) /\
    sublist l' l.
Proof.
intros Hap. induction 1 as [|tmp rest Ht Hrest IH]; [exists []; split_and!; done || constructor|]. cbn [drop_covered].
destruct (covers_ok ap tmp Hap Ht) as (c & -> & Hc).
destruct IH as (l' & -> & Hok & Hlen & Hfm & Hsub). cbn [obind]. destruct c.
- exists l'. split; [done|]. split; [done|]. split; [simpl; lia|]. split; [|by constructor].
  intros Hm. cbn [first_match]. destruct (matches addr port tmp) eqn:E; [|auto].
  rewrite (Hc eq_refl addr port Haddr E) in Hm. done.
- exists (tmp :: l'). split; [done|]. split; [by constructor|]. split; [simpl; lia|].
  split; [|by constructor]. intros Hm. cbn [first_match]. by rewrite Hfm.
Qed.

Lemma drop_covered_later_ok (fuel : nat) : forall dest, (length dest <= fuel)%nat -> Forall pol_ok dest ->
  exists l', drop_covered_later fuel dest = Ok l' /\ Forall pol_ok l' /\
    first_match addr port l' = first_match addr port dest /\ sublist l' dest.
Proof.
induction fuel as [|f IH]; intros [|ap rest] Hf Hok; cbn [drop_covered_later length] in *; try lia;
  try (exists []; split_and!; done || constructor).
apply Forall_cons in Hok as [Hap Hrest].
destruct (drop_covered_ok ap rest Hap Hrest) as (l1 & -> & Hok1 & Hlen & Hfm & Hsub1). cbn [obind].
destruct (IH l1) as (l2 & -> & Hok2 & Hfm2 & Hsub2); [lia|done|]. cbn [obind].
exists (ap :: l2). split; [done|]. split; [by constructor|]. split; [|constructor; by etrans].
cbn [first_match]. destruct (matches addr port ap) eqn:E; [done|]. rewrite Hfm2. by apply Hfm.
Qed.

Lemma covered_later_ok (ap : addr_policy) (l : list addr_policy) : pol_ok ap -> Forall pol_ok l ->
  exists r, covered_later ap l = Ok r /\
    (r = true -> matches addr port ap = true -> first_match addr port l = Some (policy_type ap)).
Proof.
intros Hap. induction 1 as [|tmp rest Ht Hrest IH]; [by exists false|]. cbn [covered_later first_match].
destruct (bool_decide_reflect (policy_type ap = policy_type tmp)) as [Et|Et]; cbn [negb].
- destruct (covers_ok tmp ap Ht Hap) as (c & -> & Hc). cbn [obind]. destruct c.
  + exists true. split; [done|]. intros _ Hm. by rewrite (Hc eq_refl addr port Haddr Hm), Et.
  + destruct IH as (r & Hr & Hfm). exists r. split; [done|]. intros Hrt Hm.
    destruct (matches addr port tmp); [by rewrite Et|auto].
- destruct (intersects_ok ap tmp Hap Ht) as (i & -> & Hi). cbn [obind]. destruct i; [by exists false|].
  destruct IH as (r & Hr & Hfm). exists r. split; [done|]. intros Hrt Hm.
  rewrite (Hi eq_refl addr port Haddr Hm). auto.
Qed.

Lemma drop_covered_earlier_ok (dest : list addr_policy) : Forall pol_ok dest ->
  exists l', drop_covered_earlier dest = Ok l' /\ Forall pol_ok l' /\
    first_match addr port l' = first_match addr port dest /\ sublist l' dest.
Proof.
induction 1 as [|ap rest Hap Hrest IH]; [exists []; split_and!; done || constructor|]. cbn [drop_covered_earlier].
destruct (covered_later_ok ap rest Hap Hrest) as (r & -> & Hr).
destruct IH as (l' & -> & Hok & Hfm & Hsub). cbn [obind]. destruct r.
- exists l'. split; [done|]. split; [done|]. split; [|by constructor]. rewrite Hfm. cbn [first_match].
  destruct (matches addr port ap) eqn:E; [|done]. by apply Hr.
- exists (ap :: l'). split; [done|]. split; [by constructor|]. split; [|by constructor].
  cbn [first_match]. by rewrite Hfm.
Qed.
End meaning.

Lemma kill_after_star_sublist (dest : list addr_policy) : forall k4 k6,
  sublist (kill_after_star k4 k6 dest) dest.
Proof.
  induction dest as [|p rest IH]; intros k4 k6; cbn [kill_after_star]; [done|].
  destruct (_ || _); by constructor.
Qed.

Lemma sublist_Forall {A} (P : A -> Prop) (l l' : list A) : sublist l' l -> Forall P l -> Forall P l'.
Proof. induction 1; intros Hf; try apply Forall_cons in Hf as [? ?]; try constructor; auto. Qed.

(** C39: simplifying an exit policy never changes what it says: [exit_policy_remove_redundancies]
    always succeeds, keeps a subsequence of the entries, and for every known address and
    port the simplified policy accepts or rejects exactly as the original does. *)
Theorem exit_policy_remove_redundancies_sound (policy : list addr_policy) (addr : tor_addr) (port : Z) :
  Forall pol_ok policy -> addr_ok addr -> 1 <= port <= 65535 ->
  exists policy', exit_policy_remove_redundancies policy = Ok policy' /\ sublist policy' policy /\
    compare_known_tor_addr_to_addr_policy addr port policy'
    = compare_known_tor_addr_to_addr_policy addr port policy.
Proof.
  intros Hok Ha Hp. unfold exit_policy_remove_redundancies.
  pose proof (kill_after_star_sublist policy false false) as Hs1.
  pose proof (kill_after_star_ok addr port Ha Hp policy false false Hok ltac:(done) ltac:(done)) as Hf1.
  set (l1 := kill_after_star false false policy) in *. pose proof (sublist_Forall _ _ _ Hs1 Hok) as Hok1.
  destruct (drop_covered_later_ok addr port Ha (length l1) l1) as (l2 & -> & Hok2 & Hf2 & Hs2); [lia|done|].
  cbn [obind]. destruct (drop_covered_earlier_ok addr port Ha l2 Hok2) as (l3 & -> & Hok3 & Hf3 & Hs3).
  exists l3. split; [done|]. split; [exact (transitivity Hs3 (transitivity Hs2 Hs1))|].
  rewrite !compare_known_ok by done. by rewrite Hf3, Hf2, Hf1.
Qed.

Definition ex_policy : list addr_policy :=
  [{| policy_type := ADDR_POLICY_REJECT; is_private := false; maskbits := 8; pol_addr := ip4 10 0 0 0;
      prt_min := 1; prt_max := 65535 |};
   {| policy_type := ADDR_POLICY_REJECT; is_private := false; maskbits := 16; pol_addr := ip4 10 1 0 0;
      prt_min := 80; prt_max := 80 |};
   star4 ADDR_POLICY_ACCEPT; star4 ADDR_POLICY_REJECT].

Theorem exit_policy_remove_redundancies_sound_witness :
  exists policy', exit_policy_remove_redundancies ex_policy = Ok policy' /\ sublist policy' ex_policy /\
    compare_known_tor_addr_to_addr_policy (ip4 10 1 2 3) 80 policy'
    = compare_known_tor_addr_to_addr_policy (ip4 10 1 2 3) 80 ex_policy.
Proof.
  apply (exit_policy_remove_redundancies_sound ex_policy (ip4 10 1 2 3) 80).
  - repeat (constructor; [repeat split; vm_compute; (discriminate || reflexivity)|]). constructor.
  - split; vm_compute; (discriminate || reflexivity).
  - lia.
Defined.

(** ** Answers from partial information *)

(** A definite answer speaks for every port (or address) that could complete the query. *)
Definition definite (r : addr_policy_result) (f : option addr_policy_action) : Prop :=
  match r with
  | ADDR_POLICY_ACCEPTED => answer f = ADDR_POLICY_ACCEPTED
  | ADDR_POLICY_REJECTED => answer f = ADDR_POLICY_REJECTED
  | _ => True
  end.

(** The invariant of the two loops: a flag that is set forbids the definite answer. *)
Definition allowed (r : addr_policy_result) (maybe_accept maybe_reject : bool) : Prop :=
  (r = ADDR_POLICY_ACCEPTED -> maybe_reject = false) /\ (r = ADDR_POLICY_REJECTED -> maybe_accept = false).

Lemma definite_answer_ok (p : addr_policy) (rest : list addr_policy) (addr : tor_addr) (port : Z) (ma mr : bool) :
  matches addr port p = true ->
  definite (definite_answer (policy_type p) ma mr) (first_match addr port (p :: rest)) /\
  allowed (definite_answer (policy_type p) ma mr) ma mr.
Proof.
  intros Hm. cbn [first_match]. rewrite Hm. unfold definite_answer, allowed.
  destruct (policy_type p), ma, mr; repeat split; cbn; try done.
Qed.

(** Going past an entry that may match: whichever way it goes, the definite answers left agree. *)
Lemma definite_past (r : addr_policy_result) (p : addr_policy) (rest : list addr_policy)
    (addr : tor_addr) (port : Z) (ma mr : bool) :
  definite r (first_match addr port rest) ->
  match policy_type p with
  | ADDR_POLICY_REJECT => allowed r ma true
  | ADDR_POLICY_ACCEPT => allowed r true mr
  end ->
  definite r (first_match addr port (p :: rest)) /\ allowed r ma mr.
Proof.
  intros Hd Hal. unfold allowed in *. cbn [first_match]. destruct (matches addr port p);
    destruct (policy_type p), r, ma, mr; cbn in *; intuition; try done.
Qed.

Lemma noport_loop_ok (addr : tor_addr) (port : Z) (policy : list addr_policy) :
  addr_ok addr -> 1 <= port <= 65535 -> Forall pol_ok policy -> forall ma mr,
  exists r, noport_loop addr policy ma mr = Ok r /\
    definite r (first_match addr port policy) /\ allowed r ma mr.
Proof.
  intros Ha Hport. induction 1 as [|p rest Hp _ IH]; intros ma mr; cbn [noport_loop].
  { eexists. split; [done|]. by destruct mr. }
  destruct Hp as (Hpa & Hm & _). rewrite same_masked_ok by (done || lia). cbn [obind].
  destruct (bool_decide_reflect (masked_key (maskbits p) addr = masked_key (maskbits p) (pol_addr p))) as [E|E].
  - destruct ((prt_min p <=? 1) && (65535 <=? prt_max p)) eqn:Hports.
    + eexists. split; [done|]. apply definite_answer_ok. unfold matches.
      rewrite !andb_true_iff, !Z.leb_le, bool_decide_eq_true in *. intuition lia.
    + destruct (policy_type p) eqn:Et.
      * destruct (IH true mr) as (r & -> & Hd & Hal). exists r. split; [done|].
        apply definite_past; [done|]. by rewrite Et.
      * destruct (IH ma true) as (r & -> & Hd & Hal). exists r. split; [done|].
        apply definite_past; [done|]. by rewrite Et.
  - destruct (IH ma mr) as (r & -> & Hd & Hal). exists r. split; [done|]. split; [|done].
    cbn [first_match]. unfold matches. by rewrite bool_decide_false.
Qed.

Lemma unknown_loop_ok (addr : tor_addr) (port : Z) (policy : list addr_policy) :
  addr_ok addr -> tor_addr_family addr <> AF_UNIX ->
  Forall pol_ok policy ->
  Forall (fun p => maskbits p = 0 -> tor_addr_family (pol_addr p) = tor_addr_family addr) policy ->
  forall ma mr, definite (unknown_loop port policy ma mr) (first_match addr port policy) /\
    allowed (unknown_loop port policy ma mr) ma mr.
Proof.
  intros Ha Hu Hok Hfam. induction policy as [|p rest IH]; intros ma mr; cbn [unknown_loop].
  { by destruct mr. }
  apply Forall_cons in Hok as [Hp Hok]. apply Forall_cons in Hfam as [Hf Hfam]. specialize (IH Hok Hfam).
  destruct ((prt_min p <=? port) && (port <=? prt_max p)) eqn:Hports.
  - destruct (Z.eqb_spec (maskbits p) 0) as [Hz|Hz].
    + apply definite_answer_ok. unfold matches. rewrite <- andb_assoc, Hports, andb_true_r, bool_decide_eq_true.
      rewrite Hz. apply masked_key_0; [done|apply Hp|by rewrite Hf|done].
    + destruct (policy_type p) eqn:Et; [destruct (IH true mr) as [Hd Hal]|destruct (IH ma true) as [Hd Hal]];
        (apply definite_past; [done|]; by rewrite Et).
  - destruct (IH ma mr) as [Hd Hal]. split; [|done]. cbn [first_match]. unfold matches.
    by rewrite <- andb_assoc, Hports, andb_false_r.
Qed.

(** the definite answers that a policy gives on partial information can be relied on. With
    the port unknown, ACCEPTED or REJECTED is the answer for every port of that address.
    With the address unknown, it is the answer for every address of a family to which all
    the policy's catch-all entries belong. *)
Theorem compare_addr_policy_partial_sound (policy : list addr_policy) (addr : tor_addr) (port : Z) :
  Forall pol_ok policy -> addr_ok addr -> 1 <= port <= 65535 ->
  (exists r, compare_known_tor_addr_to_addr_policy_noport addr policy = Ok r /\
     ((r = ADDR_POLICY_ACCEPTED \/ r = ADDR_POLICY_REJECTED) ->
      compare_known_tor_addr_to_addr_policy addr port policy = Ok r)) /\
  (tor_addr_family addr <> AF_UNIX ->
   Forall (fun p => maskbits p = 0 -> tor_addr_family (pol_addr p) = tor_addr_family addr) policy ->
   forall r, compare_unknown_tor_addr_to_addr_policy port policy = r ->
     r = ADDR_POLICY_ACCEPTED \/ r = ADDR_POLICY_REJECTED ->
     compare_known_tor_addr_to_addr_policy addr port policy = Ok r).
Proof.
  intros Hok Ha Hport. rewrite compare_known_ok by done. split.
  - destruct (noport_loop_ok addr port policy Ha Hport Hok false false) as (r & Hr & Hd & _).
    exists r. split; [done|]. intros [->| ->]; cbn in Hd; by rewrite Hd.
  - intros Hu Hf r <- Hr. unfold compare_unknown_tor_addr_to_addr_policy in *.
    destruct (unknown_loop_ok addr port policy Ha Hu Hok Hf false false) as [Hd _].
    destruct Hr as [Hr|Hr]; rewrite Hr in *; cbn in Hd; by rewrite Hd.
Qed.

Theorem compare_addr_policy_partial_sound_witness :
  exists r, compare_known_tor_addr_to_addr_policy_noport (ip4 10 1 2 3) ex_policy = Ok r /\
     ((r = ADDR_POLICY_ACCEPTED \/ r = ADDR_POLICY_REJECTED) ->
      compare_known_tor_addr_to_addr_policy (ip4 10 1 2 3) 80 ex_policy = Ok r).
Proof.
  apply (compare_addr_policy_partial_sound ex_policy (ip4 10 1 2 3) 80).
  - repeat (constructor; [repeat split; vm_compute; (discriminate || reflexivity)|]). constructor.
  - split; vm_compute; (discriminate || reflexivity).
  - lia.
Defined.

(** The restriction on the families is needed: after [reject *4:*] the answer for an unknown
    address is a definite rejection, although the policy accepts every IPv6 address. *)
Theorem compare_unknown_family_bug :
  let policy := [star4 ADDR_POLICY_REJECT; star6 ADDR_POLICY_ACCEPT] in
  compare_tor_addr_to_addr_policy None 443 (Some policy) = Ok ADDR_POLICY_REJECTED /\
  compare_tor_addr_to_addr_policy (Some (ip6 [0x20; 0x01])) 443 (Some policy) = Ok ADDR_POLICY_ACCEPTED.
Proof. split; vm_compute; reflexivity. Qed.

(** The warning about redundant entries misses the case its comment describes: two
    catch-all entries, one per family, and an entry after them. *)
Theorem log_first_redundant_misses :
  let policy := [star4 ADDR_POLICY_ACCEPT; star6 ADDR_POLICY_REJECT; star4 ADDR_POLICY_REJECT] in
  policies_log_first_redundant_entry policy = None /\
  exit_policy_remove_redundancies policy = Ok [star4 ADDR_POLICY_ACCEPT; star6 ADDR_POLICY_REJECT].
Proof. split; vm_compute; reflexivity. Qed.

(** ** The /8 loop stays in its array *)

Lemma subnet_loop_safe (dap : bool) (fuel : nat) (p : addr_policy) : forall status i last,
  length status = 256%nat -> 0 <= i -> last < 256 -> last - i < Z.of_nat fuel ->
  exists r status', subnet_loop dap fuel p status i last = Ok (r, status') /\ length status' = 256%nat.
Proof.
  induction fuel as [|f IH]; intros status i last Hl Hi Hlast Hf; cbn [subnet_loop].
  - rewrite (proj2 (Z.leb_gt _ _)) by lia. eauto.
  - destruct (Z.leb_spec i last); [|eauto].
    destruct (aget_lt status i) as (b & -> & _); [lia|]. cbn [get obind].
    destruct b; [apply IH; lia|]. destruct (_ && _); [apply IH; lia|].
    destruct (policy_type p).
    + destruct (_ <? _); [apply IH; lia|eauto].
    + destruct (aset_in status i true) as (status' & -> & Hl'); [lia|]. cbn [obind]. apply IH; lia.
Qed.

Lemma shiftr24_range (x : Z) : 0 <= x < 2 ^ 32 -> 0 <= Z.shiftr x 24 < 256.
Proof. intros. rewrite Z.shiftr_div_pow2 by lia. change (2 ^ 24) with 16777216. dlia. Qed.

Lemma bitop_range (op : Z -> Z -> Z) (x y : Z) :
  (forall x y, 0 <= x -> 0 <= y -> 0 <= op x y /\ Z.log2 (op x y) <= Z.max (Z.log2 x) (Z.log2 y)) ->
  0 <= x < 2 ^ 32 -> 0 <= y < 2 ^ 32 -> 0 <= op x y < 2 ^ 32.
Proof.
  intros Hop Hx Hy. destruct (Hop x y) as [Hn Hl]; [lia|lia|]. split; [done|].
  destruct (decide (op x y = 0)) as [->|]; [lia|]. apply Z.log2_lt_pow2; [lia|].
  assert (forall z, 0 <= z < 2 ^ 32 -> Z.log2 z < 32).
  { intros z Hz. destruct (decide (z = 0)) as [->|]; [done|]. apply Z.log2_lt_pow2; lia. }
  pose proof (H x Hx). pose proof (H y Hy). lia.
Qed.

Lemma land_range (x y : Z) : 0 <= x < 2 ^ 32 -> 0 <= y < 2 ^ 32 -> 0 <= Z.land x y < 2 ^ 32.
Proof.
  apply (bitop_range Z.land). intros. split; [apply Z.land_nonneg; lia|].
  pose proof (Z.log2_land x0 y0). lia.
Qed.

Lemma lxor_range (x y : Z) : 0 <= x < 2 ^ 32 -> 0 <= y < 2 ^ 32 -> 0 <= Z.lxor x y < 2 ^ 32.
Proof.
  apply (bitop_range Z.lxor). intros. split; [apply Z.lxor_nonneg; lia|]. by apply Z.log2_lxor.
Qed.

(** The search for a general exit answers on every policy whose IPv4 entries have
    prefixes of at most 32 bits. *)
Lemma general_exit_total (dap : bool) (policy : list addr_policy) (port : Z) :
  Forall pol_ok policy ->
  Forall (fun p => tor_addr_family (pol_addr p) = AF_INET -> maskbits p <= 32) policy ->
  exists r, exit_policy_is_general_exit_helper dap policy port = Ok r.
Proof.
  intros Hok Hmask. unfold exit_policy_is_general_exit_helper.
  assert (Hl : length (replicate 256 false) = 256%nat) by done. revert Hl.
  generalize (replicate 256 false). induction policy as [|p rest IH]; intros status Hl; [by exists false|].
  apply Forall_cons in Hok as [(Ha & Hm & _) Hok]. apply Forall_cons in Hmask as [Hp Hmask].
  specialize (IH Hok Hmask). cbn [general_exit_loop].
  destruct (pol_addr p) as [|u|ip|b] eqn:Ea; auto. specialize (Hp eq_refl). cbn [addr_ok] in Ha.
  destruct (_ || _); auto. unfold tor_assert. rewrite (proj2 (Z.leb_le _ _)) by done.
  set (mask := if negb (maskbits p =? 0) then _ else _).
  assert (Hmk : 0 <= mask < 2 ^ 32)
    by (unfold mask, wrap; destruct (negb _); [apply Z.mod_pos_bound; lia|lia]).
  pose proof (land_range mask ip Hmk Ha) as Hand. pose proof (lxor_range _ _ Hand Hmk) as Hx.
  pose proof (lxor_range 0xffffffff _ ltac:(lia) Hx) as Hnot.
  pose proof (shiftr24_range _ Hand). pose proof (shiftr24_range _ Hnot).
  destruct (subnet_loop_safe dap 257 p status (Z.shiftr (Z.land mask ip) 24)
    (Z.shiftr (Z.lxor 4294967295 (Z.lxor (Z.land mask ip) mask)) 24) Hl) as (r & status' & -> & Hl');
    [lia|lia|lia|]. cbn [obind]. destruct r; [by exists true|auto].
Qed.
