(* ===== verification/PolicySummary.v ===== *)
(** * Exit policy summaries and short policies, [core/or/policies.c]

    A relay's exit policy is summarised per port into a string such as
    [accept 80,443,8000-9000], which clients parse into a [short_policy_t]. *)
From S2P Require Import Prelude ParseInt DiOps Strings Smartutil Address Policies.

Definition MAX_EXITPOLICY_SUMMARY_LEN : Z := 1000.
Definition UINT16_MAX : Z := 65535.

(** ** The summary of a policy *)

Record policy_summary_item := {
  sum_min : Z;
  sum_max : Z;
  reject_count : Z;
  accepted : bool
}.

Definition policy_summary_create : list policy_summary_item :=
  [{| sum_min := 1; sum_max := 65535; reject_count := 0; accepted := false |}].

(** The shortened old item and the new one. *)
Definition policy_summary_item_split (old : policy_summary_item) (new_starts : Z)
    : outcome (policy_summary_item * policy_summary_item) :=
  let new := {| sum_min := new_starts; sum_max := sum_max old; reject_count := reject_count old;
                accepted := accepted old |} in
  let old := {| sum_min := sum_min old; sum_max := wrap 16 (new_starts - 1);
                reject_count := reject_count old; accepted := accepted old |} in
  tor_assert (sum_min old <=? sum_max old) (
  tor_assert (sum_min new <=? sum_max new) (Ok (old, new))).

Definition IPV4_BITS : Z := 32.
Definition REJECT_CUTOFF_SCALE_IPV4 : Z := 0.
Definition REJECT_CUTOFF_COUNT_IPV4 : Z := Z.shiftl 1 (IPV4_BITS - REJECT_CUTOFF_SCALE_IPV4 - 7).
Definition IPV6_BITS : Z := 128.
Definition REJECT_CUTOFF_SCALE_IPV6 : Z := 64.
Definition REJECT_CUTOFF_COUNT_IPV6 : Z := Z.shiftl 1 (IPV6_BITS - REJECT_CUTOFF_SCALE_IPV6 - 16).

(** [while (AT(i)->prt_max < prt) i++;] *)
Fixpoint find_end (fuel : nat) (summary : list policy_summary_item) (i prt : Z) : outcome Z :=
  let* x := get (aget summary i) in
  if sum_max x <? prt then
    match fuel with O => Stuck | S f => find_end f summary (i + 1) prt end
  else Ok i.

(** [smartlist_insert(summary, i + 1, new)] after the item at [i] has been replaced by [old]. *)
Definition split_at (summary : list policy_summary_item) (i new_starts : Z)
    : outcome (list policy_summary_item) :=
  let* x := get (aget summary i) in
  let* (old, new) := policy_summary_item_split x new_starts in
  Ok (take (Z.to_nat i) summary ++ old :: new :: drop (S (Z.to_nat i)) summary).

Definition policy_summary_split (summary : list policy_summary_item) (p_min p_max : Z)
    : outcome (list policy_summary_item * Z) :=
  let* i := find_end (length summary) summary 0 p_min in
  let* x := get (aget summary i) in
  let* (summary, i) :=
    if negb (sum_min x =? p_min)
    then let* s := split_at summary i p_min in Ok (s, i + 1)
    else Ok (summary, i) in
  let start_at_index := i in
  let* i := find_end (length summary) summary i p_max in
  let* x := get (aget summary i) in
  let* summary := if negb (sum_max x =? p_max) then split_at summary i (wrap 16 (p_max + 1))
                  else Ok summary in
  Ok (summary, start_at_index).

(** The loops of [policy_summary_accept] and [policy_summary_reject] over the items that
    end by [p_max]; also where they stop. *)
Fixpoint update_items (fuel : nat) (f : policy_summary_item -> policy_summary_item)
    (summary : list policy_summary_item) (i p_max : Z) : outcome (list policy_summary_item * Z) :=
  if i <? zlen summary then
    let* x := get (aget summary i) in
    if sum_max x <=? p_max then
      match fuel with
      | O => Stuck
      | S fu => let* summary := aset summary i (f x) in update_items fu f summary (i + 1) p_max
      end
    else Ok (summary, i)
  else Ok (summary, i).

Definition accept_item (family_reject_count : Z) (x : policy_summary_item) : policy_summary_item :=
  if negb (accepted x) && (reject_count x <=? family_reject_count)
  then {| sum_min := sum_min x; sum_max := sum_max x; reject_count := reject_count x; accepted := true |}
  else x.

Definition policy_summary_accept (summary : list policy_summary_item) (p_min p_max family : Z)
    : outcome (list policy_summary_item) :=
  let family_reject_count := if family =? AF_INET then REJECT_CUTOFF_COUNT_IPV4
                             else REJECT_CUTOFF_COUNT_IPV6 in
  let* (summary, i) := policy_summary_split summary p_min p_max in
  let* (summary, i) := update_items (length summary) (accept_item family_reject_count) summary i p_max in
  tor_assert ((i <? zlen summary) || (p_max =? 65535)) (Ok summary).

(** Saturating addition. *)
Definition reject_item (count : Z) (x : policy_summary_item) : policy_summary_item :=
  {| sum_min := sum_min x; sum_max := sum_max x;
     reject_count := if reject_count x <=? UINT64_MAX - count then reject_count x + count else UINT64_MAX;
     accepted := accepted x |}.

(** How many addresses a prefix counts for; [None] when it is too long to count. *)
Definition count_rejected (bits family : Z) : option Z :=
  let addrbits := if family =? AF_INET then IPV4_BITS else IPV6_BITS in
  let scale := if family =? AF_INET then REJECT_CUTOFF_SCALE_IPV4 else REJECT_CUTOFF_SCALE_IPV6 in
  if addrbits - scale <? bits then None
  else if 64 <=? addrbits - scale - bits then Some UINT64_MAX
  else Some (Z.shiftl 1 (addrbits - scale - bits)).

Definition policy_summary_reject (summary : list policy_summary_item) (bits p_min p_max family : Z)
    : outcome (list policy_summary_item) :=
  let* (summary, i) := policy_summary_split summary p_min p_max in
  match count_rejected bits family with
  | None => Ok summary
  | Some count =>
      let* (summary, i) := update_items (length summary) (reject_item count) summary i p_max in
      tor_assert ((i <? zlen summary) || (p_max =? 65535)) (Ok summary)
  end.

Fixpoint is_private_net (p : addr_policy) (nets : list (tor_addr * Z)) : outcome bool :=
  match nets with
  | [] => Ok false
  | (addr, bits) :: rest =>
      let* r := tor_addr_compare (pol_addr p) addr CMP_EXACT in
      if (r =? 0) && (maskbits p =? bits) then Ok true else is_private_net p rest
  end.

Definition policy_summary_add_item (summary : list policy_summary_item) (p : addr_policy)
    : outcome (list policy_summary_item) :=
  let family := tor_addr_family (pol_addr p) in
  match policy_type p with
  | ADDR_POLICY_ACCEPT =>
      if maskbits p =? 0 then policy_summary_accept summary (prt_min p) (prt_max p) family
      else Ok summary
  | ADDR_POLICY_REJECT =>
      let* private := is_private_net p private_nets in
      if private : bool then Ok summary
      else policy_summary_reject summary (maskbits p) (prt_min p) (prt_max p) family
  end.

Fixpoint summarize_items (summary : list policy_summary_item) (policy : list addr_policy) (family : Z)
    : outcome (list policy_summary_item) :=
  match policy with
  | [] => Ok summary
  | p :: rest =>
      let* summary := if negb (tor_addr_family (pol_addr p) =? family) then Ok summary
                      else policy_summary_add_item summary p in
      summarize_items summary rest family
  end.

(** One entry of the string. *)
Definition show_range (lo hi : Z) : bytes :=
  if lo =? hi then print_int lo else print_int lo ++ bs "-" ++ print_int hi.

(** The two lists of port ranges, adjacent items of the same kind merged. *)
Fixpoint collect_ranges (fuel : nat) (summary : list policy_summary_item) (i start_prt : Z)
    (accepts rejects : list bytes) : outcome (list bytes * list bytes) :=
  match fuel with
  | O => Stuck
  | S f =>
      let last := i =? zlen summary - 1 in
      let* x := get (aget summary i) in
      let* change := if last then Ok true
                     else let* y := get (aget summary (i + 1)) in
                          Ok (negb (Bool.eqb (accepted x) (accepted y))) in
      if change : bool then
        let buf := show_range start_prt (sum_max x) in
        let accepts := if accepted x then accepts ++ [buf] else accepts in
        let rejects := if accepted x then rejects else rejects ++ [buf] in
        if last then Ok (accepts, rejects)
        else let* y := get (aget summary (i + 1)) in
             collect_ranges f summary (i + 1) (sum_min y) accepts rejects
      else collect_ranges f summary (i + 1) start_prt accepts rejects
  end.

(** [while ( *c != ',' && c >= shorter_str) c--], then cut there. *)
Fixpoint cut_back (fuel : nat) (s : bytes) (c : Z) : outcome bytes :=
  match fuel with
  | O => Stuck
  | S f =>
      let* x := get (aget s c) in
      if b2z x =? 44 then Ok (take (Z.to_nat c) s)
      else cut_back f s (c - 1)
  end.

Definition policy_summarize (policy : list addr_policy) (family : Z) : outcome bytes :=
  let* summary := summarize_items policy_summary_create policy family in
  let* (accepts, rejects) := collect_ranges (length summary) summary 0 1 [] [] in
  if zlen accepts =? 0 then Ok (bs "reject 1-65535")
  else if zlen rejects =? 0 then Ok (bs "accept 1-65535")
  else
    let* accepts_str := smartlist_join_strings accepts (bs ",") false in
    let* rejects_str := smartlist_join_strings rejects (bs ",") false in
    let room := MAX_EXITPOLICY_SUMMARY_LEN - 6 - 1 in
    if (room <? zlen rejects_str) && (room <? zlen accepts_str) then
      let* shorter_str := cut_back (Z.to_nat (room + 1)) accepts_str room in
      Ok (bs "accept " ++ shorter_str)
    else if zlen rejects_str <? zlen accepts_str then Ok (bs "reject " ++ rejects_str)
    else Ok (bs "accept " ++ accepts_str).

(** ** Short policies *)

Record short_policy_entry := { min_port : Z; max_port : Z }.
Record short_policy := { is_accept : bool; entries : list short_policy_entry }.

(** The loop over the entries of the string. *)
Fixpoint parse_entries (fuel : nat) (summary : bytes) (acc : list short_policy_entry)
    : outcome (list short_policy_entry) :=
  match summary with
  | [] => Ok acc
  | c :: _ =>
      match fuel with
      | O => Stuck
      | S f =>
          if zlen acc =? MAX_EXITPOLICY_SUMMARY_LEN then Err
          else
            let r := tor_parse_ulong summary 10 1 65535 true in
            let* next := get (p_next r) in
            if negb (p_ok r) then
              if negb (TOR_ISDIGIT c) || (b2z c =? 44) then
                (* skip_ent *)
                match strchr next ","%char with
                | None => Ok acc
                | Some comma => parse_entries f (drop 1 comma) acc
                end
              else Err
            else
              let low := p_val r in
              let d := b2z (deref next) in
              if (d =? 44) || (d =? 0) then
                parse_entries f (if d =? 44 then drop 1 next else next)
                  (acc ++ [{| min_port := low; max_port := low |}])
              else if d =? 45 then
                let r := tor_parse_ulong (drop 1 next) 10 low 65535 true in
                if negb (p_ok r) then Err
                else
                  let* next := get (p_next r) in
                  let d := b2z (deref next) in
                  if (d =? 44) || (d =? 0) then
                    parse_entries f (if d =? 44 then drop 1 next else next)
                      (acc ++ [{| min_port := low; max_port := p_val r |}])
                  else Err
              else Err
      end
  end.

(** [Err] is the NULL of a string that is not well formed. *)
Definition parse_short_policy (summary : bytes) : outcome short_policy :=
  let* (acc, rest) :=
    if strcmpstart summary (bs "accept ") =? 0 then Ok (true, drop 7 summary)
    else if strcmpstart summary (bs "reject ") =? 0 then Ok (false, drop 7 summary)
    else Err in
  let* es := parse_entries (length rest) rest [] in
  if zlen es =? 0 then Err else Ok {| is_accept := acc; entries := es |}.

Definition write_short_policy (policy : short_policy) : outcome bytes :=
  smartlist_join_strings
    ((if is_accept policy then bs "accept " else bs "reject ")
     :: concat (imap (fun i e => show_range (min_port e) (max_port e)
                  :: if (Z.of_nat i <? zlen (entries policy) - 1) then [bs ","] else [])
                (entries policy))) [] false.

Fixpoint find_port (es : list short_policy_entry) (port : Z) : bool :=
  match es with
  | [] => false
  | e :: rest => if (min_port e <=? port) && (port <=? max_port e) then true else find_port rest port
  end.

(** [ClientRejectInternalAddresses] is the option; [None] is a NULL address. *)
Definition compare_tor_addr_to_short_policy (ClientRejectInternalAddresses : bool)
    (addr : option tor_addr) (port : Z) (policy : short_policy) : outcome addr_policy_result :=
  tor_assert (negb (port =? 0)) (
  let addr := match addr with Some a => if tor_addr_is_null a then None else Some a | None => None end in
  let reject := match addr with
                | Some a => ClientRejectInternalAddresses
                            && (tor_addr_is_internal a false || tor_addr_is_loopback a)
                | None => false
                end in
  if reject then Ok ADDR_POLICY_REJECTED
  else
    let found_match := find_port (entries policy) port in
    let accept_ := if found_match then is_accept policy else negb (is_accept policy) in
    Ok (if accept_ then ADDR_POLICY_PROBABLY_ACCEPTED else ADDR_POLICY_REJECTED)).

Definition short_policy_is_reject_star (policy : short_policy) : bool :=
  match is_accept policy, entries policy with
  | false, [e] => (min_port e =? 1) && (max_port e =? 65535)
  | _, _ => false
  end.

(** ** The items partition the ports *)

Fixpoint part (lo hi : Z) (l : list policy_summary_item) : Prop :=
  match l with
  | [] => lo = hi + 1
  | x :: rest => sum_min x = lo /\ lo <= sum_max x /\ part (sum_max x + 1) hi rest
  end.

Lemma part_le (l : list policy_summary_item) : forall lo hi, part lo hi l -> lo <= hi + 1.
Proof. induction l as [|x l IH]; cbn [part]; intros lo hi; [lia|]. intros (_ & ? & ?%IH). lia. Qed.

Lemma part_app (l1 l2 : list policy_summary_item) : forall lo hi,
  part lo hi (l1 ++ l2) <-> exists m, part lo (m - 1) l1 /\ part m hi l2.
Proof.
  induction l1 as [|x l1 IH]; intros lo hi; cbn [app part].
  - split; [intros H; exists lo; split; [lia|done]|]. intros (m & -> & H). by replace (m - 1 + 1) with m by lia.
  - rewrite IH. split.
    + intros (E & Hle & m & H1 & H2). exists m. repeat split; try done.
    + intros (m & (E & Hle & H1) & H2). repeat split; try done. by exists m.
Qed.

Lemma aget_middle {A} (pre post : list A) (x : A) (i : Z) : i = zlen pre ->
  aget (pre ++ x :: post) i = Some x.
Proof. intros ->. unfold zlen. rewrite aget_nat. by apply list_lookup_middle. Qed.

(** The scan for the item that holds a port. *)
Lemma find_end_ok (fuel : nat) : forall (pre rest : list policy_summary_item) lo hi prt,
  (length rest <= fuel)%nat -> part lo hi rest -> lo <= prt <= hi ->
  exists mid x post, rest = mid ++ x :: post /\ sum_min x <= prt <= sum_max x /\ lo <= sum_min x /\
    find_end fuel (pre ++ rest) (zlen pre) prt = Ok (zlen (pre ++ mid)).
Proof.
  induction fuel as [|f IH]; intros pre [|x rest] lo hi prt Hf Hp Hprt; cbn [length part] in *; try lia.
  destruct Hp as (E & Hle & Hp). cbn [find_end]. rewrite aget_middle by done. cbn [get obind].
  destruct (Z.ltb_spec (sum_max x) prt) as [Hlt|Hge].
  - destruct (IH (pre ++ [x]) rest (sum_max x + 1) hi prt) as (mid & y & post & -> & Hy & Hlo & Hfe);
      [lia|done|lia|]. exists (x :: mid), y, post. split; [done|]. split; [done|]. split; [lia|].
    rewrite <- app_assoc in Hfe. cbn [app] in Hfe.
    replace (zlen pre + 1) with (zlen (pre ++ [x])) by (unfold zlen; rewrite length_app; simpl; lia).
    rewrite Hfe, <- app_assoc. done.
  - exists [], x, rest. rewrite app_nil_r. split; [done|]. split; [lia|]. split; [lia|done].
Qed.

(** Splitting the item that holds [port] strictly inside. *)
Lemma split_at_ok (pre post : list policy_summary_item) (x : policy_summary_item) (port : Z) :
  0 <= sum_min x -> sum_max x <= UINT16_MAX -> sum_min x < port <= sum_max x ->
  exists a b, split_at (pre ++ x :: post) (zlen pre) port = Ok (pre ++ a :: b :: post) /\
    sum_min a = sum_min x /\ sum_max a = port - 1 /\ sum_min b = port /\ sum_max b = sum_max x /\
    reject_count a = reject_count x /\ accepted a = accepted x /\
    reject_count b = reject_count x /\ accepted b = accepted x.
Proof.
  intros H0 H1 H2. unfold split_at. rewrite aget_middle by done. cbn [get obind].
  unfold policy_summary_item_split, tor_assert. cbn [sum_min sum_max].
  assert (wrap 16 (port - 1) = port - 1) as -> by (apply Z.mod_small; unfold UINT16_MAX in *; lia).
  rewrite !(proj2 (Z.leb_le _ _)) by lia. cbn [obind]. eexists _, _. split.
  - unfold zlen. rewrite Nat2Z.id, take_app_length.
    change (pre ++ x :: post) with (pre ++ [x] ++ post). rewrite app_assoc.
    by rewrite drop_app_length' by (rewrite length_app; simpl; lia).
  - cbn. repeat split.
Qed.

(** The state of a port: how many rejected addresses, and whether it is accepted. *)
Fixpoint port_state (l : list policy_summary_item) (port : Z) : option (Z * bool) :=
  match l with
  | [] => None
  | x :: rest => if port <=? sum_max x then Some (reject_count x, accepted x) else port_state rest port
  end.

Lemma port_state_app (l1 l2 : list policy_summary_item) : forall (lo m port : Z),
  part lo (m - 1) l1 -> lo <= port ->
  port_state (l1 ++ l2) port = if port <? m then port_state l1 port else port_state l2 port.
Proof.
  induction l1 as [|x l1 IH]; cbn [app part port_state]; intros lo m port Hp Hlo.
  - by rewrite (proj2 (Z.ltb_ge _ _)) by lia.
  - destruct Hp as (E & Hle & Hp). pose proof (part_le _ _ _ Hp).
    destruct (Z.leb_spec port (sum_max x)); [by rewrite (proj2 (Z.ltb_lt _ _)) by lia|].
    apply (IH _ _ _ Hp). lia.
Qed.

Lemma port_state_split (pre post : list policy_summary_item) (x a b : policy_summary_item) (port : Z) :
  sum_max a <= sum_max x -> sum_max b = sum_max x ->
  reject_count a = reject_count x -> accepted a = accepted x ->
  reject_count b = reject_count x -> accepted b = accepted x ->
  port_state (pre ++ a :: b :: post) port = port_state (pre ++ x :: post) port.
Proof.
  intros Ha Hb E1 E2 E3 E4. induction pre as [|y pre IH]; cbn [app port_state]; [|by rewrite IH].
  rewrite E1, E2, E3, E4, Hb. destruct (Z.leb_spec port (sum_max a)); [|done].
  by rewrite (proj2 (Z.leb_le _ _)) by lia.
Qed.

Lemma part_mid (mid post : list policy_summary_item) (x : policy_summary_item) (lo hi : Z) :
  part lo hi (mid ++ x :: post) ->
  part lo (sum_min x - 1) mid /\ lo <= sum_min x <= sum_max x /\ part (sum_max x + 1) hi post /\ sum_max x <= hi.
Proof.
  intros (m & H1 & E & Hle & H2)%part_app. subst m. pose proof (part_le _ _ _ H1). pose proof (part_le _ _ _ H2).
  repeat split; try done; lia.
Qed.

(** The first half of [policy_summary_split]: a boundary before [p_min]. *)
Lemma split_start_ok (l : list policy_summary_item) (p_min : Z) :
  part 1 UINT16_MAX l -> 1 <= p_min <= UINT16_MAX ->
  exists pre rest,
    (let* i := find_end (length l) l 0 p_min in
     let* x := get (aget l i) in
     if negb (sum_min x =? p_min) then let* s := split_at l i p_min in Ok (s, i + 1) else Ok (l, i))
    = Ok (pre ++ rest, zlen pre) /\
    part 1 (p_min - 1) pre /\ part p_min UINT16_MAX rest /\
    forall port, port_state (pre ++ rest) port = port_state l port.
Proof.
  intros Hp Hm.
  destruct (find_end_ok (length l) [] l 1 UINT16_MAX p_min) as (mid & x & post & E & Hx & Hlo & Hf); [lia|done|lia|].
  cbn [app] in Hf. change (zlen []) with 0 in Hf. rewrite Hf. cbn [obind]. subst l. rewrite aget_middle by done.
  cbn [get obind]. apply part_mid in Hp as (H1 & H2 & H3 & H4).
  destruct (Z.eqb_spec (sum_min x) p_min) as [<-|Hne]; cbn [negb].
  - exists mid, (x :: post). split; [done|]. split; [done|]. split; [|done].
    cbn [part]. split; [done|]. split; [lia|done].
  - destruct (split_at_ok mid post x p_min) as (a & b & -> & Ha1 & Ha2 & Hb1 & Hb2 & E1 & E2 & E3 & E4); [lia|lia|lia|].
    cbn [obind]. exists (mid ++ [a]), (b :: post). rewrite <- app_assoc. cbn [app].
    split; [do 2 f_equal; unfold zlen; rewrite length_app; simpl; lia|].
    split; [|split; [cbn [part]; rewrite Hb2; repeat split; try done; lia|]].
    + apply part_app. exists (sum_min x). split; [done|]. cbn [part]. repeat split; lia.
    + intros port. apply port_state_split; lia || done.
Qed.

Lemma policy_summary_split_ok (l : list policy_summary_item) (p_min p_max : Z) :
  part 1 UINT16_MAX l -> 1 <= p_min -> p_min <= p_max <= UINT16_MAX ->
  exists pre mid post, policy_summary_split l p_min p_max = Ok (pre ++ mid ++ post, zlen pre) /\
    part 1 (p_min - 1) pre /\ part p_min p_max mid /\ part (p_max + 1) UINT16_MAX post /\
    forall port, port_state (pre ++ mid ++ post) port = port_state l port.
Proof.
  intros Hp Hm HM. destruct (split_start_ok l p_min Hp) as (pre & rest & Hs & Hpre & Hrest & Hst); [lia|].
  unfold policy_summary_split.
  assert (Hunf : forall (k : list policy_summary_item * Z -> outcome (list policy_summary_item * Z)),
    (let* i := find_end (length l) l 0 p_min in
     let* x := get (aget l i) in
     obind (if negb (sum_min x =? p_min) then let* s := split_at l i p_min in Ok (s, i + 1) else Ok (l, i)) k)
    = k (pre ++ rest, zlen pre)).
  { intros k. destruct (find_end (length l) l 0 p_min) as [i| |]; try done. cbn [obind] in *.
    destruct (get (aget l i)) as [x| |]; try done. cbn [obind] in *. by rewrite Hs. }
  rewrite Hunf. clear Hunf Hs.
  destruct (find_end_ok (length (pre ++ rest)) pre rest p_min UINT16_MAX p_max)
    as (mid & y & post & -> & Hy & Hlo & ->); [rewrite length_app; lia|done|lia|]. cbn [obind].
  rewrite (app_assoc pre mid), aget_middle by done. cbn [get obind].
  apply part_mid in Hrest as (H1 & H2 & H3 & H4).
  destruct (Z.eqb_spec (sum_max y) p_max) as [<-|Hne]; cbn [negb].
  - exists pre, (mid ++ [y]), post. cbn [obind]. rewrite <- !app_assoc. split; [done|]. split; [done|].
    split; [|split; [done|]].
    + apply part_app. exists (sum_min y). split; [done|]. cbn [part]. repeat split; lia.
    + intros port. cbn [app]. apply Hst.
  - assert (wrap 16 (p_max + 1) = p_max + 1) as -> by (apply Z.mod_small; unfold UINT16_MAX in *; lia).
    destruct (split_at_ok (pre ++ mid) post y (p_max + 1)) as (a & b & -> & Ha1 & Ha2 & Hb1 & Hb2 & E1 & E2 & E3 & E4);
      [lia|lia|lia|]. cbn [obind]. exists pre, (mid ++ [a]), (b :: post). rewrite <- !app_assoc. cbn [app].
    split; [done|]. split; [done|]. split; [|split].
    + apply part_app. exists (sum_min y). split; [done|]. cbn [part]. repeat split; lia.
    + cbn [part]. rewrite Hb2. repeat split; done || lia.
    + intros port. rewrite <- Hst, !app_assoc. apply port_state_split; lia || done.
Qed.

(** The update loops change the items between two boundaries and no others. *)
Lemma update_items_ok (f : policy_summary_item -> policy_summary_item) (p_min p_max : Z)
    (post : list policy_summary_item) : part (p_max + 1) UINT16_MAX post ->
  forall mid fuel pre lo, part lo p_max mid -> (length mid <= fuel)%nat ->
  update_items fuel f (pre ++ mid ++ post) (zlen pre) p_max
  = Ok (pre ++ map f mid ++ post, zlen pre + zlen mid).
Proof.
  intros Hpost. induction mid as [|x mid IH]; intros fuel pre lo Hmid Hf.
  - cbn [app map]. rewrite Z.add_0_r. destruct fuel; cbn [update_items].
    all: destruct post as [|y post]; [rewrite app_nil_r, (proj2 (Z.ltb_ge _ _)) by lia; done|];
      rewrite (proj2 (Z.ltb_lt _ _)) by (unfold zlen; rewrite length_app; simpl; lia);
      rewrite aget_middle by done; cbn [get obind]; destruct Hpost as (E & Hle & _);
      rewrite (proj2 (Z.leb_gt _ _)) by lia; done.
  - destruct fuel as [|fuel]; [simpl in Hf; lia|]. cbn [update_items app].
    destruct Hmid as (E & Hle & Hmid). pose proof (part_le _ _ _ Hmid).
    rewrite (proj2 (Z.ltb_lt _ _)) by (unfold zlen; rewrite length_app; simpl; lia).
    rewrite aget_middle by done. cbn [get obind]. rewrite (proj2 (Z.leb_le _ _)) by lia.
    rewrite aset_emit by done. cbn [obind]. cbn [app map].
    replace (zlen pre + 1) with (zlen (pre ++ [f x])) by (unfold zlen; rewrite length_app; simpl; lia).
    rewrite <- (app_assoc pre [f x]). cbn [app].
    change (pre ++ f x :: mid ++ post) with (pre ++ [f x] ++ (mid ++ post)).
    rewrite (app_assoc pre). rewrite (IH fuel (pre ++ [f x]) _ Hmid) by (simpl in Hf; lia).
    rewrite <- app_assoc. do 2 f_equal. unfold zlen. rewrite length_app. simpl. lia.
Qed.

(** ** One port through the summary *)

Definition cutoff (family : Z) : Z :=
  if family =? AF_INET then REJECT_CUTOFF_COUNT_IPV4 else REJECT_CUTOFF_COUNT_IPV6.

Definition private_entry (p : addr_policy) : bool :=
  existsb (fun net => bool_decide (pol_addr p = fst net) && (maskbits p =? snd net)) private_nets.

Definition saturate (count c : Z) : Z := if count <=? UINT64_MAX - c then count + c else UINT64_MAX.

(** What an entry does to the count of rejected addresses and the flag of a port. *)
Definition port_step (port : Z) (st : Z * bool) (p : addr_policy) : Z * bool :=
  let family := tor_addr_family (pol_addr p) in
  if (prt_min p <=? port) && (port <=? prt_max p) then
    match policy_type p with
    | ADDR_POLICY_ACCEPT =>
        if maskbits p =? 0 then (fst st, snd st || (fst st <=? cutoff family)) else st
    | ADDR_POLICY_REJECT =>
        if private_entry p then st
        else match count_rejected (maskbits p) family with
             | None => st
             | Some c => (saturate (fst st) c, snd st)
             end
    end
  else st.

(** The specification of the summary: the entries of one family, in order. *)
Definition port_accepted (policy : list addr_policy) (family port : Z) : bool :=
  snd (fold_left (port_step port)
         (filter (fun p => tor_addr_family (pol_addr p) = family) policy) (0, false)).

Definition ports_ok (p : addr_policy) : Prop := 1 <= prt_min p <= prt_max p.

Lemma part_map (f : policy_summary_item -> policy_summary_item) (l : list policy_summary_item) :
  (forall x, sum_min (f x) = sum_min x /\ sum_max (f x) = sum_max x) ->
  forall lo hi, part lo hi l -> part lo hi (map f l).
Proof.
  intros Hf. induction l as [|x l IH]; intros lo hi; cbn [map part]; [done|].
  destruct (Hf x) as [-> ->]. intros (H1 & H2 & H3). split; [done|]. split; [done|]. by apply IH.
Qed.

Lemma port_state_map (f : policy_summary_item -> policy_summary_item) (g : Z * bool -> Z * bool) l port :
  (forall x, sum_max (f x) = sum_max x) ->
  (forall x, (reject_count (f x), accepted (f x)) = g (reject_count x, accepted x)) ->
  port_state (map f l) port = g <$> port_state l port.
Proof.
  intros Hm Hf. induction l as [|x l IH]; cbn [map port_state]; [done|]. rewrite Hm, Hf, IH.
  by destruct (port <=? sum_max x).
Qed.

(** An update of a range of ports: split, change the items between, and check the end. *)
Lemma update_range_ok (l : list policy_summary_item) (p_min p_max : Z)
    (f : policy_summary_item -> policy_summary_item) (g : Z * bool -> Z * bool) :
  part 1 UINT16_MAX l -> 1 <= p_min <= p_max -> p_max <= UINT16_MAX ->
  (forall x, sum_min (f x) = sum_min x /\ sum_max (f x) = sum_max x) ->
  (forall x, (reject_count (f x), accepted (f x)) = g (reject_count x, accepted x)) ->
  exists l',
    (let* (summary, i) := policy_summary_split l p_min p_max in
     let* (summary, i) := update_items (length summary) f summary i p_max in
     tor_assert ((i <? zlen summary) || (p_max =? 65535)) (Ok summary)) = Ok l' /\
    part 1 UINT16_MAX l' /\
    forall port, 1 <= port -> port_state l' port =
      (if (p_min <=? port) && (port <=? p_max) then g else id) <$> port_state l port.
Proof.
  intros Hp Hmin Hmax Hf Hg.
  destruct (policy_summary_split_ok l p_min p_max Hp) as (pre & mid & post & -> & H1 & H2 & H3 & Hst);
    [lia|lia|]. cbn [obind].
  rewrite (update_items_ok f p_min p_max post H3 mid _ pre p_min H2) by (rewrite !length_app; lia).
  cbn [obind]. exists (pre ++ map f mid ++ post). unfold tor_assert.
  assert (Hend : (zlen pre + zlen mid <? zlen (pre ++ map f mid ++ post)) || (p_max =? 65535) = true).
  { destruct post as [|y post].
    - cbn [part] in H3. unfold UINT16_MAX in H3. rewrite (proj2 (Z.eqb_eq p_max 65535)) by lia. apply orb_true_r.
    - rewrite (proj2 (Z.ltb_lt _ _)) by (unfold zlen; rewrite !length_app, length_map; simpl; lia). done. }
  rewrite Hend. split; [done|]. pose proof (part_map f mid Hf _ _ H2) as H2'. split.
  - apply part_app. exists p_min. split; [done|]. apply part_app. exists (p_max + 1).
    replace (p_max + 1 - 1) with p_max by lia. done.
  - intros port Hport. rewrite <- Hst. rewrite !(port_state_app pre _ 1 p_min) by done.
    replace p_max with (p_max + 1 - 1) in H2, H2' by lia.
    destruct (Z.ltb_spec port p_min) as [Hlt|Hge].
    + rewrite (proj2 (Z.leb_gt _ _)) by lia. cbn [andb]. by rewrite option_fmap_id.
    + rewrite (proj2 (Z.leb_le _ _)) by lia. cbn [andb].
      rewrite !(port_state_app _ post p_min (p_max + 1)) by (done || lia).
      destruct (Z.ltb_spec port (p_max + 1)), (Z.leb_spec port p_max); try lia.
      * apply port_state_map; [by apply Hf|done].
      * by rewrite option_fmap_id.
Qed.

Lemma private_net_ok (p : addr_policy) : pol_ok p ->
  is_private_net p private_nets = Ok (private_entry p).
Proof.
  intros (Ha & Hm & _). unfold private_entry.
  assert (Hall : Forall (fun net => addr_ok (fst net)) private_nets)
    by (repeat (constructor; [vm_compute; (done || (split; [discriminate|reflexivity]))|]); constructor).
  revert Hall. generalize private_nets.
  induction l as [|[addr bits] l IH]; intros Hall; [done|].
  apply Forall_cons in Hall as [Hn Hall]. cbn [fst] in Hn. cbn [is_private_net existsb fst snd].
  unfold tor_addr_compare. destruct (compare_masked_zero (pol_addr p) addr 128 Ha Hn) as (r & -> & Hr); [lia|].
  cbn [obind]. rewrite Hr. rewrite (bool_decide_ext _ _ (masked_key_128 _ _ Ha Hn)).
  destruct (_ && _); [done|]. by apply IH.
Qed.

Lemma add_item_ok (l : list policy_summary_item) (p : addr_policy) :
  part 1 UINT16_MAX l -> pol_ok p -> ports_ok p ->
  exists l', policy_summary_add_item l p = Ok l' /\ part 1 UINT16_MAX l' /\
    forall port, 1 <= port -> port_state l' port = (fun st => port_step port st p) <$> port_state l port.
Proof.
  intros Hl Hp Hports. unfold policy_summary_add_item, port_step.
  assert (Hid : exists l', Ok l = Ok l' /\ part 1 UINT16_MAX l' /\
    forall port, 1 <= port -> port_state l' port = id <$> port_state l port).
  { exists l. split; [done|]. split; [done|]. intros. by rewrite option_fmap_id. }
  pose proof Hp as (Ha & Hm & Hmin & Hmax). unfold ports_ok in Hports.
  destruct (policy_type p).
  - destruct (maskbits p =? 0).
    + destruct (update_range_ok l (prt_min p) (prt_max p) (accept_item (cutoff (tor_addr_family (pol_addr p))))
        (fun st => (fst st, snd st || (fst st <=? cutoff (tor_addr_family (pol_addr p)))))) as (l' & H1 & H2 & H3);
        [done|lia|unfold UINT16_MAX; lia| | |].
      * intros x. unfold accept_item. by destruct (_ && _).
      * intros x. unfold accept_item. cbn. destruct (accepted x) eqn:E; cbn; [by rewrite E|].
        destruct (_ <=? _); cbn; [done|by rewrite E].
      * exists l'. split; [exact H1|]. split; [done|]. intros port Hport. rewrite H3 by done.
        destruct (_ && _); [done|]. destruct (port_state l port); done.
    + destruct Hid as (l' & ? & ? & H). exists l'. split; [done|]. split; [done|]. intros port Hport.
      rewrite H by done. destruct (port_state l port); cbn; [|done]. by destruct (_ && _).
  - rewrite (private_net_ok p Hp). cbn [obind]. destruct (private_entry p).
    + destruct Hid as (l' & ? & ? & H). exists l'. split; [done|]. split; [done|]. intros port Hport.
      rewrite H by done. destruct (port_state l port); cbn; [|done]. by destruct (_ && _).
    + unfold policy_summary_reject. destruct (count_rejected (maskbits p) _) as [c|].
      * destruct (update_range_ok l (prt_min p) (prt_max p) (reject_item c)
          (fun st => (saturate (fst st) c, snd st))) as (l' & H1 & H2 & H3);
          [done|lia|unfold UINT16_MAX; lia|done|done|].
        exists l'. split; [|split; [done|]].
        -- rewrite <- H1. by destruct (policy_summary_split l (prt_min p) (prt_max p)) as [[s i]| |].
        -- intros port Hport. rewrite H3 by done. destruct (_ && _); [done|]. by destruct (port_state l port).
      * destruct (policy_summary_split_ok l (prt_min p) (prt_max p) Hl)
          as (pre & mid & post & -> & H1 & H2 & H3 & Hst); [lia|unfold UINT16_MAX; lia|]. cbn [obind].
        exists (pre ++ mid ++ post). split; [done|]. split.
        -- apply part_app. exists (prt_min p). split; [done|]. apply part_app. exists (prt_max p + 1).
           replace (prt_max p + 1 - 1) with (prt_max p) by lia. done.
        -- intros port Hport. rewrite Hst. destruct (port_state l port); cbn; [|done]. by destruct (_ && _).
Qed.

Lemma summarize_items_ok (policy : list addr_policy) (family : Z) :
  Forall (fun p => pol_ok p /\ ports_ok p) policy -> forall l, part 1 UINT16_MAX l ->
  exists l', summarize_items l policy family = Ok l' /\ part 1 UINT16_MAX l' /\
    forall port, 1 <= port -> port_state l' port =
      (fun st => fold_left (port_step port)
                   (filter (fun p => tor_addr_family (pol_addr p) = family) policy) st) <$> port_state l port.
Proof.
  induction 1 as [|p policy [Hp Hports] _ IH]; intros l Hl; cbn [summarize_items].
  - exists l. split; [done|]. split; [done|]. intros. cbn. by destruct (port_state l port).
  - rewrite filter_cons. destruct (decide (tor_addr_family (pol_addr p) = family)) as [E|E].
    + rewrite (proj2 (Z.eqb_eq _ _) E). cbn [negb].
      destruct (add_item_ok l p Hl Hp Hports) as (l1 & -> & Hl1 & H1). cbn [obind].
      destruct (IH l1 Hl1) as (l' & -> & Hl' & H'). exists l'. split; [done|]. split; [done|].
      intros port Hport. rewrite H', H1 by done. by destruct (port_state l port).
    + rewrite (proj2 (Z.eqb_neq _ _) E). cbn [negb obind]. by apply IH.
Qed.
