(* ===== verification/PolicyText.v ===== *)
(** * The text of an exit policy summary and what clients read in it

    The merging of the items of a summary into port ranges, the choice and truncation of
    the string, and its parsing into a short policy. *)
From S2P Require Import Prelude ParseInt DiOps Strings Smartutil Address Policies PolicySummary.

(** ** The runs of a summary *)

(** The maximal runs of equally flagged items, from port [start] on. *)
Fixpoint runs (start : Z) (l : list policy_summary_item) : list (bool * short_policy_entry) :=
  match l with
  | [] => []
  | x :: rest =>
      match rest with
      | [] => [(accepted x, {| min_port := start; max_port := sum_max x |})]
      | y :: _ => if Bool.eqb (accepted x) (accepted y) then runs start rest
                  else (accepted x, {| min_port := start; max_port := sum_max x |}) :: runs (sum_min y) rest
      end
  end.

Definition entry_text (e : short_policy_entry) : bytes := show_range (min_port e) (max_port e).
Definition entries_of (b : bool) (rs : list (bool * short_policy_entry)) : list short_policy_entry :=
  concat (map (fun r => if Bool.eqb (fst r) b then [snd r] else []) rs).
Definition entry_in (lo hi : Z) (e : short_policy_entry) : Prop :=
  lo <= min_port e <= max_port e /\ max_port e <= hi.

Lemma collect_ranges_ok (rest : list policy_summary_item) : forall fuel pre start acc rej,
  rest <> [] -> (length rest <= fuel)%nat ->
  collect_ranges fuel (pre ++ rest) (zlen pre) start acc rej
  = Ok (acc ++ map entry_text (entries_of true (runs start rest)),
        rej ++ map entry_text (entries_of false (runs start rest))).
Proof.
  induction rest as [|x rest IH]; intros fuel pre start acc rej Hne Hf; [done|].
  destruct fuel as [|fuel]; [simpl in Hf; lia|]. cbn [collect_ranges].
  rewrite aget_middle by done. cbn [get obind].
  assert (Hstep : zlen pre + 1 = zlen (pre ++ [x])) by (unfold zlen; rewrite length_app; simpl; lia).
  destruct rest as [|y rest].
  - rewrite (proj2 (Z.eqb_eq _ _)) by (unfold zlen; rewrite length_app; simpl; lia). cbn [obind].
    cbn [runs]. destruct (accepted x); cbn; by rewrite ?app_nil_r.
  - rewrite (proj2 (Z.eqb_neq _ _)) by (unfold zlen; rewrite length_app; simpl; lia).
    assert (Hy : aget (pre ++ x :: y :: rest) (zlen pre + 1) = Some y).
    { change (x :: y :: rest) with ([x] ++ y :: rest). rewrite app_assoc. by apply aget_middle. }
    rewrite Hy. cbn [get obind]. rewrite Hstep.
    change (pre ++ x :: y :: rest) with (pre ++ [x] ++ y :: rest). rewrite app_assoc.
    change (runs start (x :: y :: rest)) with
      (if Bool.eqb (accepted x) (accepted y) then runs start (y :: rest)
       else (accepted x, {| min_port := start; max_port := sum_max x |}) :: runs (sum_min y) (y :: rest)).
    destruct (Bool.eqb (accepted x) (accepted y)); cbn [negb]; rewrite IH by (done || (simpl in *; lia)); [done|].
    destruct (accepted x); unfold entries_of; cbn [map concat fst snd Bool.eqb app]; by rewrite <- ?app_assoc.
Qed.

Lemma runs_cons (start : Z) (x y : policy_summary_item) (l : list policy_summary_item) :
  runs start (x :: y :: l)
  = if Bool.eqb (accepted x) (accepted y) then runs start (y :: l)
    else (accepted x, {| min_port := start; max_port := sum_max x |}) :: runs (sum_min y) (y :: l).
Proof. done. Qed.

Lemma entries_of_cons (b c : bool) (e : short_policy_entry) (rs : list (bool * short_policy_entry)) :
  entries_of b ((c, e) :: rs) = (if Bool.eqb c b then [e] else []) ++ entries_of b rs.
Proof. done. Qed.

Lemma find_port_app (l1 l2 : list short_policy_entry) (port : Z) :
  find_port (l1 ++ l2) port = find_port l1 port || find_port l2 port.
Proof. induction l1 as [|e l1 IH]; cbn; [done|]. destruct (_ && _); [done|apply IH]. Qed.

(** Every run lies between the start and the end of the summary. *)
Lemma runs_bounds (b : bool) (l : list policy_summary_item) : forall lo hi start,
  part lo hi l -> start <= lo -> Forall (entry_in start hi) (entries_of b (runs start l)).
Proof.
  induction l as [|x l IH]; intros lo hi start Hp Hs; [constructor|].
  destruct Hp as (E & Hle & Hp). pose proof (part_le _ _ _ Hp) as Hend. destruct l as [|y l].
  - cbn. destruct (Bool.eqb _ _); [|constructor]. repeat constructor; cbn; lia.
  - rewrite runs_cons. destruct Hp as (Ey & Hley & Hp').
    assert (Hy : part (sum_max x + 1) hi (y :: l)) by (split; [done|]; split; [lia|done]).
    destruct (Bool.eqb (accepted x) (accepted y)); [by apply (IH _ hi start Hy); lia|].
    rewrite entries_of_cons. apply Forall_app. split.
    + destruct (Bool.eqb _ _); [|constructor]. repeat constructor; cbn; lia.
    + eapply Forall_impl; [apply (IH _ hi (sum_min y) Hy); lia|]. intros e. unfold entry_in. lia.
Qed.

Lemma find_port_outside (es : list short_policy_entry) (lo hi port : Z) :
  Forall (entry_in lo hi) es -> ~ lo <= port <= hi -> find_port es port = false.
Proof.
  induction 1 as [|e es He _ IH]; intros Hport; [done|]. cbn [find_port]. unfold entry_in in He.
  destruct (_ && _) eqn:Hin; [|by apply IH]. apply andb_prop in Hin as [?%Z.leb_le ?%Z.leb_le]. lia.
Qed.

(** The runs tell the flag of every port. *)
Lemma runs_flag (b : bool) (port : Z) (l : list policy_summary_item) : forall lo hi start,
  l <> [] -> part lo hi l -> start <= lo -> start <= port <= hi ->
  find_port (entries_of b (runs start l)) port = true <-> snd <$> port_state l port = Some b.
Proof.
  induction l as [|x l IH]; intros lo hi start Hne Hp Hs Hport; [done|].
  destruct Hp as (E & Hle & Hp). pose proof (part_le _ _ _ Hp) as Hend. cbn [port_state].
  destruct l as [|y l].
  - unfold part in Hp. rewrite (proj2 (Z.leb_le _ _)) by lia. cbn.
    destruct (Bool.eqb (accepted x) b) eqn:Eb; cbn.
    + apply eqb_prop in Eb. rewrite Eb. rewrite !(proj2 (Z.leb_le _ _)) by lia. done.
    + apply eqb_false_iff in Eb. split; congruence.
  - rewrite runs_cons. destruct Hp as (Ey & Hley & Hp').
    assert (Hy : part (sum_max x + 1) hi (y :: l)) by (split; [done|]; split; [lia|done]).
    destruct (Bool.eqb (accepted x) (accepted y)) eqn:Exy.
    + apply eqb_prop in Exy. rewrite (IH (sum_max x + 1) hi start) by (done || lia).
      cbn [port_state]. destruct (Z.leb_spec port (sum_max x)); [|done].
      rewrite (proj2 (Z.leb_le _ (sum_max y))) by lia. cbn. by rewrite Exy.
    + apply eqb_false_iff in Exy. rewrite entries_of_cons, find_port_app.
      assert (Hhere : find_port (if Bool.eqb (accepted x) b
          then [{| min_port := start; max_port := sum_max x |}] else []) port
        = Bool.eqb (accepted x) b && (port <=? sum_max x)).
      { destruct (Bool.eqb _ _); cbn; [|done]. rewrite (proj2 (Z.leb_le start port)) by lia.
        cbn. by destruct (_ <=? _). }
      rewrite Hhere. destruct (Z.leb_spec port (sum_max x)) as [Hin|Hout].
      * rewrite (find_port_outside _ (sum_min y) hi), andb_true_r, orb_false_r by
          (apply (runs_bounds b (y :: l) _ hi (sum_min y) Hy) || lia; lia).
        cbn. rewrite eqb_true_iff. split; congruence.
      * rewrite andb_false_r. cbn [orb]. by apply (IH (sum_max x + 1) hi (sum_min y)); try lia.
Qed.

(** ** The text of the entries and its parsing *)

Definition port_entry (e : short_policy_entry) : Prop := entry_in 1 65535 e.

Lemma dec_digits_all (fuel : nat) : forall n acc, 0 <= n ->
  Forall (fun c => TOR_ISDIGIT c = true) acc ->
  Forall (fun c => TOR_ISDIGIT c = true) (dec_digits fuel n acc).
Proof.
  induction fuel as [|f IH]; intros n acc Hn Hacc; cbn [dec_digits]; [done|].
  assert (Hall : Forall (fun c => TOR_ISDIGIT c = true) (z2b (48 + n mod 10) :: acc)).
  { constructor; [|done]. apply isdigit_dec_char. apply Z.mod_pos_bound. lia. }
  destruct (n <? 10); [done|]. apply IH; [|done]. apply Z.div_pos; lia.
Qed.

Lemma print_int_digits (n : Z) : 0 <= n -> Forall (fun c => TOR_ISDIGIT c = true) (print_int n).
Proof.
  intros Hn. unfold print_int. rewrite (proj2 (Z.ltb_ge _ _)) by lia. by apply dec_digits_all.
Qed.

Lemma entry_text_shape (e : short_policy_entry) : port_entry e ->
  ~ (","%char ∈ entry_text e) /\ (1 <= length (entry_text e) <= 11)%nat /\
  exists c l, entry_text e = c :: l /\ TOR_ISDIGIT c = true.
Proof.
  intros [He Hm]. unfold entry_text, show_range.
  assert (Hp : forall n, 1 <= n <= 65535 -> ~ (","%char ∈ print_int n) /\ (1 <= length (print_int n) <= 5)%nat /\
    exists c l, print_int n = c :: l /\ TOR_ISDIGIT c = true).
  { intros n Hn. split; [|split].
    - intros Hin. pose proof (print_int_digits n ltac:(lia)) as Hall.
      rewrite Forall_forall in Hall. by specialize (Hall _ Hin).
    - unfold print_int. rewrite (proj2 (Z.ltb_ge _ _)) by lia. split.
      + destruct (print_nat_head n) as (c & l & -> & _); [lia|]. simpl. lia.
      + unfold print_nat. pose proof (dec_digits_length (S (Z.to_nat (Z.log2 n))) n [] 5) as H.
        simpl length in H at 2. rewrite Nat.add_0_r in H. apply H; [|lia]. split; [lia|]. simpl. lia.
    - unfold print_int. rewrite (proj2 (Z.ltb_ge _ _)) by lia. apply print_nat_head. lia. }
  destruct (Hp (min_port e)) as (A1 & A2 & c & l & A3 & A4); [lia|].
  destruct (_ =? _).
  - split; [done|]. split; [lia|]. by exists c, l.
  - destruct (Hp (max_port e)) as (B1 & B2 & _); [lia|]. split; [|split].
    + rewrite !elem_of_app. intros [?|[Hd|?]]; [done| |done]. change (bs "-") with ["-"%char] in Hd.
      by apply list_elem_of_singleton in Hd.
    + rewrite !length_app. change (length (bs "-")) with 1%nat. lia.
    + exists c, (l ++ bs "-" ++ print_int (max_port e)). by rewrite A3.
Qed.

(** One step of the loop of [parse_short_policy] over a well-formed entry. *)
Lemma parse_entries_step (e : short_policy_entry) (f : nat) (rest : bytes) acc :
  port_entry e -> zlen acc < MAX_EXITPOLICY_SUMMARY_LEN ->
  rest = [] \/ deref rest = ","%char ->
  parse_entries (S f) (entry_text e ++ rest) acc
  = parse_entries f (drop 1 rest) (acc ++ [e]).
Proof.
  intros He Hacc Hrest. pose proof (entry_text_shape e He) as (_ & _ & c & l & Hc & Hd).
  assert (Hdr : TOR_ISDIGIT (deref rest) = false) by (destruct Hrest as [->|Hr]; [done|by rewrite Hr]).
  assert (Hsep : (b2z (deref rest) =? 44) || (b2z (deref rest) =? 0) = true)
    by (destruct Hrest as [->|Hr]; [done|by rewrite Hr]).
  assert (Hnext : (if b2z (deref rest) =? 44 then drop 1 rest else rest) = drop 1 rest).
  { destruct Hrest as [->|Hr]; [done|]. by rewrite Hr. }
  rewrite Hc. cbn [app parse_entries]. change (c :: l ++ rest) with ((c :: l) ++ rest). rewrite <- Hc.
  rewrite (proj2 (Z.eqb_neq _ _)) by lia. destruct He as [He Hm]. unfold entry_text, show_range.
  destruct (Z.eqb_spec (min_port e) (max_port e)) as [E|E].
  - rewrite tor_parse_ulong_print by (done || (unfold ULONG_MAX; lia)). cbn [p_next get obind p_ok negb p_val].
    rewrite Hsep, Hnext. destruct e as [lo hi]. cbn [min_port max_port] in *. by subst hi.
  - rewrite <- !app_assoc. rewrite tor_parse_ulong_print by (done || (unfold ULONG_MAX; lia)).
    cbn [p_next get obind p_ok negb p_val]. change (b2z (deref (bs "-" ++ _))) with 45. cbn [Z.eqb Pos.eqb orb].
    change (drop 1 (bs "-" ++ print_int (max_port e) ++ rest)) with (print_int (max_port e) ++ rest).
    rewrite tor_parse_ulong_print by (done || (unfold ULONG_MAX; lia)). cbn [p_next get obind p_ok negb p_val].
    rewrite Hsep, Hnext. by destruct e.
Qed.

Definition entries_text (es : list short_policy_entry) : bytes := join_fill (map entry_text es) (bs ",").

Lemma entries_text_cons (e e' : short_policy_entry) (es : list short_policy_entry) :
  entries_text (e :: e' :: es) = entry_text e ++ ","%char :: entries_text (e' :: es).
Proof. done. Qed.

Lemma entries_text_length (es : list short_policy_entry) : Forall port_entry es ->
  (2 * length es <= S (length (entries_text es)))%nat.
Proof.
  induction 1 as [|e [|e' es] He _ IH]; [cbn; lia| |].
  - destruct (entry_text_shape e He) as (_ & ? & _). change (entries_text [e]) with (entry_text e). simpl. lia.
  - rewrite entries_text_cons, length_app. destruct (entry_text_shape e He) as (_ & ? & _). simpl in *. lia.
Qed.

Lemma parse_entries_text (es : list short_policy_entry) : forall fuel acc,
  Forall port_entry es -> zlen acc + zlen es <= MAX_EXITPOLICY_SUMMARY_LEN ->
  (length (entries_text es) <= fuel)%nat ->
  parse_entries fuel (entries_text es) acc = Ok (acc ++ es).
Proof.
  induction es as [|e es IH]; intros fuel acc Hall Hlen Hf.
  - destruct fuel; cbn; by rewrite app_nil_r.
  - apply Forall_cons in Hall as [He Hall]. pose proof (entry_text_shape e He) as (_ & Hl & _).
    unfold zlen in Hlen. cbn [length] in Hlen.
    destruct es as [|e' es].
    + change (entries_text [e]) with (entry_text e) in *. destruct fuel as [|f]; [lia|].
      rewrite <- (app_nil_r (entry_text e)). rewrite parse_entries_step by (done || (unfold zlen; lia) || by left).
      by destruct f.
    + rewrite entries_text_cons in *. rewrite length_app in Hf. cbn [length] in Hf.
      destruct fuel as [|f]; [lia|]. rewrite parse_entries_step by (done || (unfold zlen; lia) || by right).
      cbn [drop]. rewrite IH; [by rewrite <- app_assoc|done| |lia].
      unfold zlen. rewrite length_app. cbn [length] in *. lia.
Qed.

(** ** The truncation *)

Lemma cut_back_ok (s : bytes) (j : nat) : s !! j = Some ","%char -> forall fuel c,
  Z.of_nat j <= c < zlen s -> c < Z.of_nat fuel ->
  exists k, cut_back fuel s c = Ok (take k s) /\ s !! k = Some ","%char /\ Z.of_nat j <= Z.of_nat k <= c.
Proof.
  intros Hj. induction fuel as [|f IH]; intros c Hc Hf; [lia|]. cbn [cut_back].
  destruct (aget_lt s c) as (x & -> & Hx); [unfold zlen in Hc; lia|]. cbn [get obind].
  destruct (Z.eqb_spec (b2z x) 44) as [E|E].
  - exists (Z.to_nat c). split; [done|]. split; [|lia]. rewrite Hx. f_equal. by apply b2z_inj.
  - destruct (decide (Z.of_nat j = c)) as [<-|]; [rewrite Nat2Z.id in Hx; by simplify_eq|].
    destruct (IH (c - 1)) as (k & -> & ? & ?); [lia|lia|]. exists k. split; [done|]. split; [done|lia].
Qed.

(** Close before any position of the text but the first few there is a comma. *)
Lemma comma_near (es : list short_policy_entry) : Forall port_entry es -> forall c : nat,
  (11 <= c)%nat -> (c < length (entries_text es))%nat ->
  exists j, entries_text es !! j = Some ","%char /\ (c - 11 <= j <= c)%nat.
Proof.
  induction 1 as [|e es He Hes IH]; intros c Hc Hlen; [cbn in Hlen; lia|].
  destruct (entry_text_shape e He) as (_ & Hl & _). destruct es as [|e' es].
  - change (entries_text [e]) with (entry_text e) in *. lia.
  - rewrite entries_text_cons in *. rewrite length_app in Hlen. cbn [length] in Hlen.
    destruct (decide (c <= length (entry_text e) + 11)%nat).
    + exists (length (entry_text e)). split; [by rewrite list_lookup_middle|lia].
    + destruct (IH (c - S (length (entry_text e)))%nat) as (j & Hj & ?); [lia|lia|].
      exists (length (entry_text e) + S j)%nat. split; [|lia].
      rewrite lookup_app_r by lia. by replace (length (entry_text e) + S j - length (entry_text e))%nat with (S j) by lia.
Qed.

(** Cutting the text at a comma leaves the text of a prefix of the entries. *)
Lemma cut_text (es : list short_policy_entry) : Forall port_entry es -> forall k,
  entries_text es !! k = Some ","%char ->
  exists es1 es2, es = es1 ++ es2 /\ es1 <> [] /\ take k (entries_text es) = entries_text es1.
Proof.
  assert (Hno : forall e k, port_entry e -> entry_text e !! k <> Some ","%char).
  { intros e k He Hk. destruct (entry_text_shape e He) as (Hc & _). by apply Hc, list_elem_of_lookup_2 with k. }
  induction 1 as [|e es He Hes IH]; intros k Hk; [done|]. destruct es as [|e' es].
  - by apply Hno in Hk.
  - rewrite entries_text_cons in *. destruct (decide (k < length (entry_text e))%nat) as [Hlt|Hge].
    { rewrite lookup_app_l in Hk by done. by apply Hno in Hk. }
    destruct (decide (k = length (entry_text e))) as [->|Hne].
    + exists [e], (e' :: es). split; [done|]. split; [done|]. by rewrite take_app_length.
    + rewrite lookup_app_r in Hk by lia.
      destruct (k - length (entry_text e))%nat as [|i] eqn:Ei; [lia|].
      destruct (IH i Hk) as (es1 & es2 & E & Hne1 & Ht).
      destruct es1 as [|e1 es1]; [done|]. cbn [app] in E. injection E as <- ->.
      exists (e :: e' :: es1), es2. split; [done|]. split; [done|].
      rewrite take_app_ge, Ei by lia. cbn [take]. by rewrite Ht.
Qed.

Lemma find_port_prefix (es1 es2 : list short_policy_entry) (port : Z) :
  find_port es1 port = true -> find_port (es1 ++ es2) port = true.
Proof. intros H. by rewrite find_port_app, H. Qed.

(** The keyword of a summary is recognised. *)
Lemma parse_keyword (acc : bool) (t : bytes) :
  parse_short_policy ((if acc then bs "accept " else bs "reject ") ++ t)
  = let* es := parse_entries (length t) t [] in
    if zlen es =? 0 then Err else Ok {| is_accept := acc; entries := es |}.
Proof.
  unfold parse_short_policy. destruct acc.
  - by rewrite strcmpstart_app.
  - change (strcmpstart (bs "reject " ++ t) (bs "accept ") =? 0) with false. cbn iota.
    by rewrite strcmpstart_app.
Qed.

Lemma parse_text_ok (acc : bool) (es : list short_policy_entry) :
  es <> [] -> Forall port_entry es -> zlen (entries_text es) <= 993 ->
  parse_short_policy ((if acc then bs "accept " else bs "reject ") ++ entries_text es)
  = Ok {| is_accept := acc; entries := es |}.
Proof.
  intros Hne Hes Hlen. rewrite parse_keyword. pose proof (entries_text_length es Hes).
  rewrite parse_entries_text by (done || unfold zlen, MAX_EXITPOLICY_SUMMARY_LEN in *; simpl; lia).
  cbn [obind app]. rewrite (proj2 (Z.eqb_neq _ _)); [done|]. unfold zlen. destruct es; [done|simpl; lia].
Qed.

(** ** From the policy to the short policy *)

(** What [policy_summarize] computes, in terms of the runs of the final summary. *)
Lemma policy_summarize_runs (policy : list addr_policy) (family : Z) :
  Forall (fun p => pol_ok p /\ ports_ok p) policy ->
  exists acc rej,
    Forall port_entry acc /\ Forall port_entry rej /\
    (forall port, 1 <= port <= 65535 -> find_port acc port = port_accepted policy family port /\
       find_port rej port = negb (port_accepted policy family port)) /\
    policy_summarize policy family =
      if zlen acc =? 0 then Ok (bs "reject 1-65535")
      else if zlen rej =? 0 then Ok (bs "accept 1-65535")
      else if (993 <? zlen (entries_text rej)) && (993 <? zlen (entries_text acc)) then
        let* s := cut_back 994 (entries_text acc) 993 in Ok (bs "accept " ++ s)
      else if zlen (entries_text rej) <? zlen (entries_text acc) then Ok (bs "reject " ++ entries_text rej)
      else Ok (bs "accept " ++ entries_text acc).
Proof.
  intros Hpol.
  assert (Hp0 : part 1 UINT16_MAX policy_summary_create) by (cbn; unfold UINT16_MAX; lia).
  destruct (summarize_items_ok policy family Hpol _ Hp0) as (items & Hi & Hpart & Hst).
  assert (Hne : items <> []) by (intros ->; cbn in Hpart; unfold UINT16_MAX in Hpart; lia).
  exists (entries_of true (runs 1 items)), (entries_of false (runs 1 items)).
  split; [by apply (runs_bounds true _ 1)|]. split; [by apply (runs_bounds false _ 1)|]. split.
  - intros port Hport.
    assert (Hs : snd <$> port_state items port = Some (port_accepted policy family port)).
    { rewrite Hst by lia. cbn [policy_summary_create port_state sum_max].
      rewrite (proj2 (Z.leb_le _ _)) by lia. done. }
    pose proof (fun b => runs_flag b port items 1 UINT16_MAX 1 Hne Hpart ltac:(lia) Hport) as Hf.
    rewrite Hs in Hf. pose proof (Hf true) as Ht. pose proof (Hf false) as Hfa.
    destruct (port_accepted policy family port).
    + split; [by apply Ht|]. apply not_true_is_false. intros H%Hfa. done.
    + split; [apply not_true_is_false; intros H%Ht; done|by apply Hfa].
  - unfold policy_summarize. rewrite Hi. cbn [obind].
    pose proof (collect_ranges_ok items (length items) [] 1 [] [] Hne ltac:(lia)) as Hc.
    cbn [app] in Hc. change (zlen []) with 0 in Hc. rewrite Hc. cbn [obind].
    unfold zlen at 1 2. rewrite !length_map, !join_strings_ok. cbn [obind]. rewrite !app_nil_r. done.
Qed.

(** What a client concludes from a short policy about a port at an unknown address. *)
Definition client_accepts (sp : short_policy) (port : Z) : outcome addr_policy_result :=
  compare_tor_addr_to_short_policy true None port sp.

Lemma client_accepts_ok (sp : short_policy) (port : Z) : 1 <= port ->
  client_accepts sp port = Ok (if Bool.eqb (find_port (entries sp) port) (is_accept sp)
    then ADDR_POLICY_PROBABLY_ACCEPTED else ADDR_POLICY_REJECTED).
Proof.
  intros Hp. unfold client_accepts, compare_tor_addr_to_short_policy, tor_assert.
  rewrite (proj2 (Z.eqb_neq _ _)) by lia. cbn [negb]. by destruct (find_port _ _), (is_accept sp).
Qed.

(** A summary that the client reads without accepting too much, and exactly when short. *)
Definition reads_as (policy : list addr_policy) (family : Z) (s : bytes) : Prop :=
  exists sp, zlen s <= MAX_EXITPOLICY_SUMMARY_LEN /\
    parse_short_policy s = Ok sp /\ Forall port_entry (entries sp) /\
    forall port, 1 <= port <= 65535 ->
      (client_accepts sp port = Ok ADDR_POLICY_PROBABLY_ACCEPTED -> port_accepted policy family port = true) /\
      (zlen s < 989 -> client_accepts sp port =
         Ok (if port_accepted policy family port then ADDR_POLICY_PROBABLY_ACCEPTED else ADDR_POLICY_REJECTED)).

(** The text of exactly the accepted, or exactly the rejected, ports. *)
Lemma exact_reads (policy : list addr_policy) (family : Z) (b : bool) (es : list short_policy_entry) :
  es <> [] -> Forall port_entry es -> zlen (entries_text es) <= 993 ->
  (forall port, 1 <= port <= 65535 -> find_port es port = Bool.eqb b (port_accepted policy family port)) ->
  reads_as policy family ((if b then bs "accept " else bs "reject ") ++ entries_text es).
Proof.
  intros Hne Hes Hlen Hp. exists {| is_accept := b; entries := es |}. split.
  { unfold zlen, MAX_EXITPOLICY_SUMMARY_LEN in *. rewrite length_app.
    destruct b; [change (length (bs "accept ")) with 7%nat|change (length (bs "reject ")) with 7%nat]; lia. }
  split; [by apply parse_text_ok|]. split; [done|]. intros port Hport.
  rewrite client_accepts_ok by lia. cbn [entries is_accept]. rewrite Hp by done.
  destruct b, (port_accepted policy family port); done.
Qed.

(** The text of the accepted ports cut at a comma. *)
Lemma cut_reads (policy : list addr_policy) (family : Z) (acc : list short_policy_entry) :
  Forall port_entry acc -> 993 < zlen (entries_text acc) ->
  (forall port, 1 <= port <= 65535 -> find_port acc port = port_accepted policy family port) ->
  exists s, cut_back 994 (entries_text acc) 993 = Ok s /\ reads_as policy family (bs "accept " ++ s).
Proof.
  intros Ha Hlong Hports.
  destruct (comma_near acc Ha 993) as (j & Hj & Hjr); [lia|unfold zlen in Hlong; lia|].
  destruct (cut_back_ok _ j Hj 994 993) as (k & -> & Hk & Hkr); [lia|lia|].
  destruct (cut_text acc Ha k Hk) as (es1 & es2 & -> & Hne & Ht). rewrite Ht.
  exists (entries_text es1). split; [done|].
  assert (Hlen1 : length (entries_text es1) = k).
  { rewrite <- Ht. rewrite length_take. apply lookup_lt_Some in Hk. lia. }
  apply Forall_app in Ha as [Ha1 _].
  assert (Hlen : zlen (bs "accept " ++ entries_text es1) = 7 + Z.of_nat k).
  { unfold zlen. rewrite length_app, Hlen1. change (length (bs "accept ")) with 7%nat. lia. }
  exists {| is_accept := true; entries := es1 |}. rewrite Hlen. unfold MAX_EXITPOLICY_SUMMARY_LEN.
  split; [lia|].
  split; [by apply (parse_text_ok true); [..|unfold zlen; lia]|]. split; [done|]. intros port Hport.
  split; [|lia]. rewrite client_accepts_ok by lia. cbn [entries is_accept]. rewrite <- Hports by done.
  destruct (find_port es1 port) eqn:Hf; [|done]. intros _. by apply find_port_prefix.
Qed.

(** C38: A relay's exit policy summary, read back by a client, tells which ports the policy
    accepts. For every policy of well-formed entries and either family, [policy_summarize]
    ends without a failed assertion and gives a string of at most 1000 characters that
    [parse_short_policy] accepts; every port range read is within 1..65535; the client never
    believes a port accepted that the specification [port_accepted] (the entries of the
    family in order, counting rejected addresses against the cutoff) rejects; and when the
    string has fewer than 989 characters, so that nothing was cut off, the client's answer is
    exactly the specification's for every port. *)
Theorem policy_summarize_correct (policy : list addr_policy) (family : Z) :
  Forall (fun p => pol_ok p /\ ports_ok p) policy ->
  exists s, policy_summarize policy family = Ok s /\ reads_as policy family s.
Proof.
  intros Hpol. destruct (policy_summarize_runs policy family Hpol) as (acc & rej & Ha & Hr & Hports & ->).
  pose proof (fun port H => proj1 (Hports port H)) as Hacc.
  pose proof (fun port H => proj2 (Hports port H)) as Hrej.
  destruct (Z.eqb_spec (zlen acc) 0) as [E|Eacc]; [|destruct (Z.eqb_spec (zlen rej) 0) as [E|Erej]].
  - destruct acc; [|unfold zlen in E; simpl in E; lia]. eexists. split; [done|].
    apply (exact_reads policy family false [{| min_port := 1; max_port := 65535 |}]); [done| |by vm_compute|].
    { repeat constructor; cbn; lia. }
    intros port Hport. rewrite <- Hacc by done. cbn. by rewrite !(proj2 (Z.leb_le _ _)) by lia.
  - destruct rej; [|unfold zlen in E; simpl in E; lia]. eexists. split; [done|].
    apply (exact_reads policy family true [{| min_port := 1; max_port := 65535 |}]); [done| |by vm_compute|].
    { repeat constructor; cbn; lia. }
    intros port Hport. pose proof (Hrej port Hport) as H. symmetry in H. apply negb_false_iff in H.
    rewrite H. cbn. by rewrite !(proj2 (Z.leb_le _ _)) by lia.
  - destruct ((993 <? zlen (entries_text rej)) && (993 <? zlen (entries_text acc))) eqn:Ecut.
    + apply andb_prop in Ecut as [_ Hlong%Z.ltb_lt].
      destruct (cut_reads policy family acc Ha Hlong Hacc) as (s & -> & Hs). by eexists.
    + apply andb_false_iff in Ecut. rewrite !Z.ltb_ge in Ecut.
      destruct (Z.ltb_spec (zlen (entries_text rej)) (zlen (entries_text acc)));
        (eexists; split; [done|]).
      * apply (exact_reads policy family false rej); [by intros ->|done|lia|]. intros port Hport.
        rewrite Hrej by done. by destruct (port_accepted _ _ _).
      * apply (exact_reads policy family true acc); [by intros ->|done|lia|]. intros port Hport.
        rewrite Hacc by done. by destruct (port_accepted _ _ _).
Qed.

Definition ex_exit : list addr_policy :=
  [{| policy_type := ADDR_POLICY_REJECT; is_private := false; maskbits := 8; pol_addr := ip4 10 0 0 0;
      prt_min := 1; prt_max := 65535 |};
   {| policy_type := ADDR_POLICY_REJECT; is_private := false; maskbits := 1; pol_addr := ip4 128 0 0 0;
      prt_min := 25; prt_max := 25 |};
   {| policy_type := ADDR_POLICY_ACCEPT; is_private := false; maskbits := 0; pol_addr := ip4 0 0 0 0;
      prt_min := 20; prt_max := 80 |};
   star4 ADDR_POLICY_REJECT; star6 ADDR_POLICY_ACCEPT].

Example summarize_ex :
  policy_summarize ex_exit AF_INET = Ok (bs "accept 20-24,26-80") /\
  parse_short_policy (bs "accept 20-24,26-80")
  = Ok {| is_accept := true; entries := [{| min_port := 20; max_port := 24 |}; {| min_port := 26; max_port := 80 |}] |}.
Proof. split; vm_compute; reflexivity. Qed.

Theorem policy_summarize_correct_witness :
  exists s, policy_summarize ex_exit AF_INET = Ok s /\ reads_as ex_exit AF_INET s.
Proof.
  apply (policy_summarize_correct ex_exit AF_INET).
  repeat (constructor; [split; [repeat split; vm_compute; (discriminate || reflexivity)
                               |split; vm_compute; discriminate]|]). constructor.
Defined.
