(* ===== verification/Cells.v ===== *)
(** * Cells on an OR connection: [core/or/connection_or.c] and [core/proto/proto_cell.c]

    Fixed and variable length cells, their wire format, the writers that append them to
    an outbuf and the loop that takes them off an inbuf. What a handler does to the
    connection (the link protocol it negotiates) is a parameter. *)
From S2P Require Import Prelude ParseInt Endian Buffers.

Definition CELL_PAYLOAD_SIZE : Z := 509.
Definition CELL_MAX_NETWORK_SIZE : Z := 514.
Definition VAR_CELL_MAX_HEADER_SIZE : Z := 7.
Definition CELL_VERSIONS : Z := 7.
Definition MIN_LINK_PROTO_FOR_WIDE_CIRC_IDS : Z := 4.

Definition get_cell_network_size (wide_circ_ids : bool) : Z :=
  if wide_circ_ids then CELL_MAX_NETWORK_SIZE else CELL_MAX_NETWORK_SIZE - 2.
Definition get_var_cell_header_size (wide_circ_ids : bool) : Z :=
  if wide_circ_ids then VAR_CELL_MAX_HEADER_SIZE else VAR_CELL_MAX_HEADER_SIZE - 2.
Definition get_circ_id_size (wide_circ_ids : bool) : Z := if wide_circ_ids then 4 else 2.

Record cell := { circ_id : Z; command : Z; payload : bytes }.

(** [vc_payload] is the flexible array; [payload_len] may say less than was allocated. *)
Record var_cell := { vc_command : Z; vc_circ_id : Z; payload_len : Z; vc_payload : bytes }.

Definition var_cell_new (payload_len : Z) : var_cell :=
  {| vc_command := 0; vc_circ_id := 0; payload_len := payload_len;
     vc_payload := replicate (Z.to_nat payload_len) NUL |}.

Definition var_cell_copy (src : option var_cell) : option var_cell :=
  match src with
  | None => None
  | Some src => Some {| vc_command := vc_command src; vc_circ_id := vc_circ_id src;
                        payload_len := payload_len src;
                        vc_payload := take (Z.to_nat (payload_len src)) (vc_payload src) |}
  end.

(** The whole body: the writes cover all of its 514 bytes. *)
Definition cell_pack (src : cell) (wide_circ_ids : bool) : bytes :=
  if wide_circ_ids
  then set_uint32 (circ_id src) ++ set_uint8 (command src) ++ payload src
  else set_uint16 (circ_id src) ++ set_uint8 (command src) ++ payload src ++ [NUL; NUL].

Definition cell_unpack (src : bytes) (wide_circ_ids : bool) : outcome cell :=
  let* id := if wide_circ_ids then get_uint32 src else get_uint16 src in
  let src := drop (if wide_circ_ids then 4 else 2) src in
  let* cmd := get_uint8 src in
  let src := drop 1 src in
  if zlen src <? CELL_PAYLOAD_SIZE then Stuck
  else Ok {| circ_id := id; command := cmd; payload := take (Z.to_nat CELL_PAYLOAD_SIZE) src |}.

(** The header and the number of bytes used. *)
Definition var_cell_pack_header (c : var_cell) (wide_circ_ids : bool) : bytes * Z :=
  let r := if wide_circ_ids then VAR_CELL_MAX_HEADER_SIZE else VAR_CELL_MAX_HEADER_SIZE - 2 in
  ((if wide_circ_ids then set_uint32 (vc_circ_id c) else set_uint16 (vc_circ_id c))
   ++ set_uint8 (vc_command c) ++ set_uint16 (payload_len c), r).

Definition cell_command_is_var_length (cmd linkproto : Z) : bool :=
  if linkproto =? 1 then false
  else if linkproto =? 2 then cmd =? CELL_VERSIONS
  else (cmd =? CELL_VERSIONS) || (128 <=? cmd).

(** [true] when what is on the buffer is a variable-length cell; the cell when all of
    it is there. *)
Definition fetch_var_cell_from_buf (h : heap) (b : buf) (linkproto : Z)
    : outcome (bool * option var_cell * buf * heap) :=
  let wide_circ_ids := MIN_LINK_PROTO_FOR_WIDE_CIRC_IDS <=? linkproto in
  let circ_id_len := Z.to_nat (get_circ_id_size wide_circ_ids) in
  let header_len := get_var_cell_header_size wide_circ_ids in
  if b_datalen b <? header_len then Ok (false, None, b, h)
  else
    let* hdr := buf_peek b header_len in
    let* cmd := get_uint8 (drop circ_id_len hdr) in
    if negb (cell_command_is_var_length cmd linkproto) then Ok (false, None, b, h)
    else
      let* len := get_uint16 (drop (circ_id_len + 1) hdr) in
      if b_datalen b <? header_len + len then Ok (true, None, b, h)
      else
        let result := var_cell_new len in
        let* id := if wide_circ_ids then get_uint32 hdr else get_uint16 hdr in
        let* (b, h) := buf_drain h b header_len in
        let* pl := buf_peek b len in
        let* (b, h) := buf_drain h b len in
        Ok (true, Some {| vc_command := cmd; vc_circ_id := id; payload_len := payload_len result;
                          vc_payload := pl ++ drop (Z.to_nat len) (vc_payload result) |}, b, h).

(** The writers; [Err] when the outbuf is full. *)
Definition connection_or_write_cell_to_buf (h : heap) (outbuf : buf) (c : cell) (wide_circ_ids : bool)
    : outcome (buf * heap) :=
  let networkcell := cell_pack c wide_circ_ids in
  let* (_, b, h) := buf_add h outbuf (take (Z.to_nat (get_cell_network_size wide_circ_ids)) networkcell) in
  Ok (b, h).

Definition connection_or_write_var_cell_to_buf (h : heap) (outbuf : buf) (c : var_cell) (wide_circ_ids : bool)
    : outcome (buf * heap) :=
  let '(hdr, n) := var_cell_pack_header c wide_circ_ids in
  let* (_, b, h) := buf_add h outbuf (take (Z.to_nat n) hdr) in
  let* (_, b, h) := buf_add h b (take (Z.to_nat (payload_len c)) (vc_payload c)) in
  Ok (b, h).

(** What the loop hands to the channel layer. *)
Inductive incoming :=
  | InVar (c : var_cell)
  | InCell (c : cell).

Section connection.
Context {St : Type} (link_proto : St -> Z) (wide : St -> bool) (handle : St -> incoming -> St).

Fixpoint connection_or_process_cells_from_inbuf (fuel : nat) (h : heap) (inbuf : buf) (st : St)
    : outcome (list incoming * St * buf * heap) :=
  let* (is_var, out, b, h) := fetch_var_cell_from_buf h inbuf (link_proto st) in
  let next i b h :=
    match fuel with
    | O => Stuck
    | S f => let* (l, st, b, h) := connection_or_process_cells_from_inbuf f h b (handle st i) in
             Ok (i :: l, st, b, h)
    end in
  if is_var : bool then
    match out with
    | None => Ok ([], st, b, h)
    | Some c => next (InVar c) b h
    end
  else
    let wide_circ_ids := wide st in
    let cell_network_size := get_cell_network_size wide_circ_ids in
    if b_datalen b <? cell_network_size then Ok ([], st, b, h)
    else
      let* (s, _, b, h) := buf_get_bytes h b cell_network_size in
      let* c := cell_unpack s wide_circ_ids in
      next (InCell c) b h.
End connection.

(** ** Buffers as byte queues *)

Lemma holds_datalen (h : heap) (rest : Z) (b : buf) (l : bytes) :
  buf_holds h rest b l -> b_datalen b = zlen l.
Proof. intros [_ (ss & <- & Hb)]. apply (r_datalen _ _ _ _ Hb). Qed.

Lemma holds_peek (h : heap) (rest : Z) (b : buf) (l : bytes) (n : Z) :
  buf_holds h rest b l -> 0 <= n <= zlen l -> buf_peek b n = Ok (take (Z.to_nat n) l).
Proof. intros [_ (ss & <- & Hb)] Hn. by apply (buf_peek_ok h rest). Qed.

Lemma holds_drain (h : heap) (rest : Z) (b : buf) (l : bytes) (n : Z) :
  buf_holds h rest b l -> 0 <= n <= zlen l ->
  exists b' h', buf_drain h b n = Ok (b', h') /\ buf_holds h' rest b' (drop (Z.to_nat n) l).
Proof.
  intros [Hm (ss & <- & Hb)] Hn. destruct (buf_drain_ok _ _ _ _ _ Hb Hn) as (b' & h' & ss' & -> & Hb' & Hc & _).
  exists b', h'. split; [done|]. split; [|by exists ss'].
  unfold zlen in *. rewrite length_drop. lia.
Qed.

Lemma holds_get (h : heap) (rest : Z) (b : buf) (l : bytes) (n : Z) :
  buf_holds h rest b l -> 0 <= n <= zlen l ->
  exists b' h' left, buf_get_bytes h b n = Ok (take (Z.to_nat n) l, left, b', h') /\
    buf_holds h' rest b' (drop (Z.to_nat n) l).
Proof.
  intros [Hm (ss & <- & Hb)] Hn.
  destruct (buf_get_bytes_ok _ _ _ _ _ Hb Hn Hm) as (b' & h' & ss' & -> & Hb' & Hc & _).
  eexists b', h', _. split; [done|]. split; [|by exists ss'].
  unfold zlen in *. rewrite length_drop. lia.
Qed.

Lemma holds_add (h : heap) (rest : Z) (b : buf) (l s : bytes) :
  buf_holds h rest b l -> zlen l + zlen s <= BUF_MAX_LEN ->
  exists n b' h', buf_add h b s = Ok (n, b', h') /\ buf_holds h' rest b' (l ++ s).
Proof.
  intros [Hm (ss & <- & Hb)] Hs. pose proof (zlen_nonneg (concat ss)).
  pose proof (buf_add_ok h rest b ss s Hb Hm ltac:(lia)) as H1.
  rewrite (proj2 (Z.leb_le _ _)) in H1 by lia. destruct H1 as (b' & h' & ss' & -> & Hb' & Hc & _).
  eexists _, b', h'. split; [done|]. split; [rewrite zlen_app; lia|by exists ss'].
Qed.

(** ** The wire format *)

Definition wide_of (linkproto : Z) : bool := MIN_LINK_PROTO_FOR_WIDE_CIRC_IDS <=? linkproto.
Definition id_len (linkproto : Z) : nat := if wide_of linkproto then 4 else 2.

Definition wire (linkproto : Z) (i : incoming) : bytes :=
  match i with
  | InCell c => be_bytes (id_len linkproto) (circ_id c) ++ set_uint8 (command c) ++ payload c
  | InVar c => be_bytes (id_len linkproto) (vc_circ_id c) ++ set_uint8 (vc_command c)
               ++ set_uint16 (payload_len c) ++ vc_payload c
  end.

(** The cells a link of that protocol can carry. *)
Definition item_ok (linkproto : Z) (i : incoming) : Prop :=
  match i with
  | InCell c => 0 <= circ_id c < 2 ^ (8 * Z.of_nat (id_len linkproto)) /\ 0 <= command c < 256 /\
                zlen (payload c) = CELL_PAYLOAD_SIZE /\
                cell_command_is_var_length (command c) linkproto = false
  | InVar c => 0 <= vc_circ_id c < 2 ^ (8 * Z.of_nat (id_len linkproto)) /\ 0 <= vc_command c < 256 /\
               payload_len c = zlen (vc_payload c) /\ payload_len c < 65536 /\
               cell_command_is_var_length (vc_command c) linkproto = true
  end.

(** The first cell of a string of bytes, if all of it is there. *)
Definition next_cell (linkproto : Z) (l : bytes) : option (incoming * bytes) :=
  let k := id_len linkproto in
  let id := be (take k l) in
  let cmd := be (take 1 (drop k l)) in
  let len := be (take 2 (drop (k + 1) l)) in
  if (Z.of_nat k + 3 <=? zlen l) && cell_command_is_var_length cmd linkproto then
    if zlen l <? Z.of_nat k + 3 + len then None
    else Some (InVar {| vc_command := cmd; vc_circ_id := id; payload_len := len;
                        vc_payload := take (Z.to_nat len) (drop (k + 3) l) |},
               drop (k + 3 + Z.to_nat len) l)
  else if zlen l <? Z.of_nat k + 510 then None
  else Some (InCell {| circ_id := id; command := cmd; payload := take 509 (drop (k + 1) l) |},
             drop (k + 510) l).

Lemma be_take_bytes (n : nat) (v : Z) (l : bytes) : 0 <= v < 2 ^ (8 * Z.of_nat n) ->
  be (take n (be_bytes n v ++ l)) = v.
Proof.
  intros Hv. rewrite take_app_le, take_ge by (rewrite be_bytes_length; lia).
  by rewrite be_be_bytes, Z.mod_small.
Qed.

Lemma drop_be_bytes (n : nat) (v : Z) (l : bytes) : drop n (be_bytes n v ++ l) = l.
Proof. rewrite drop_app_le, drop_ge by (rewrite be_bytes_length; lia). done. Qed.

Lemma drop_be_bytes3 (u v : Z) (l : bytes) : drop 3 (be_bytes 1 u ++ be_bytes 2 v ++ l) = l.
Proof. change 3%nat with (1 + 2)%nat. by rewrite <- drop_drop, (drop_be_bytes 1), (drop_be_bytes 2). Qed.

Lemma next_cell_wire (linkproto : Z) (i : incoming) (r : bytes) : item_ok linkproto i ->
  next_cell linkproto (wire linkproto i ++ r) = Some (i, r).
Proof.
  set (k := id_len linkproto). unfold next_cell. fold k. destruct i as [c|c]; unfold wire, item_ok; fold k.
  - intros (Hi & Hc & Hl & Hl' & Hv). unfold set_uint8, set_uint16. rewrite <- !app_assoc.
    rewrite be_take_bytes by done. rewrite <- !drop_drop, !drop_be_bytes.
    rewrite !(be_take_bytes 1) by (simpl; lia). rewrite ?(drop_be_bytes 1).
    pose proof (zlen_nonneg (vc_payload c)) as Hp.
    rewrite (be_take_bytes 2) by (simpl; lia).
    assert (Hlen : zlen (be_bytes k (vc_circ_id c) ++ be_bytes 1 (vc_command c) ++ be_bytes 2 (payload_len c)
              ++ vc_payload c ++ r) = Z.of_nat k + 3 + payload_len c + zlen r).
    { rewrite !zlen_app, <- Hl. unfold zlen. rewrite !be_bytes_length. lia. }
    rewrite Hlen, Hv. pose proof (zlen_nonneg r). rewrite (proj2 (Z.leb_le _ _)), (proj2 (Z.ltb_ge _ _)) by lia.
    cbn [andb]. rewrite !drop_be_bytes3.
    assert (Z.to_nat (payload_len c) = length (vc_payload c)) as -> by (unfold zlen in *; lia).
    rewrite take_app_length, drop_app_length. by destruct c.
  - intros (Hi & Hc & Hl & Hv). unfold set_uint8. rewrite <- !app_assoc.
    rewrite be_take_bytes by done. rewrite <- !drop_drop, !drop_be_bytes.
    rewrite !(be_take_bytes 1) by (simpl; lia). rewrite ?(drop_be_bytes 1), Hv, andb_false_r.
    assert (Hlen : zlen (be_bytes k (circ_id c) ++ be_bytes 1 (command c) ++ payload c ++ r)
                   = Z.of_nat k + 510 + zlen r).
    { rewrite !zlen_app, Hl. unfold zlen, CELL_PAYLOAD_SIZE. rewrite !be_bytes_length. lia. }
    rewrite Hlen. pose proof (zlen_nonneg r). rewrite (proj2 (Z.ltb_ge _ _)) by lia.
    assert (509%nat = length (payload c)) as E by (unfold zlen, CELL_PAYLOAD_SIZE in Hl; lia).
    change 510%nat with (1 + 509)%nat. rewrite <- !drop_drop, !drop_be_bytes, E.
    rewrite take_app_length, drop_app_length. by destruct c.
Qed.

Lemma split_be (n : nat) (l : bytes) : (n <= length l)%nat ->
  l = be_bytes n (be (take n l)) ++ drop n l /\ 0 <= be (take n l) < 2 ^ (8 * Z.of_nat n).
Proof.
  intros Hn. assert (Hl : length (take n l) = n) by (rewrite length_take; lia). split.
  - pose proof (be_bytes_be (take n l)) as E. rewrite Hl in E. by rewrite E, take_drop.
  - pose proof (be_range (take n l)) as H. unfold zlen in H. by rewrite Hl in H.
Qed.

Lemma take_drop_more {A} (n m : nat) (l : list A) : take n (drop m l) ++ drop (m + n) l = drop m l.
Proof. by rewrite <- drop_drop, take_drop. Qed.

Lemma id_len_cases (linkproto : Z) : (2 <= id_len linkproto <= 4)%nat.
Proof. unfold id_len. destruct (wide_of _); lia. Qed.

Lemma next_cell_Some (linkproto : Z) (l : bytes) (i : incoming) (r : bytes) :
  next_cell linkproto l = Some (i, r) -> item_ok linkproto i /\ l = wire linkproto i ++ r.
Proof.
  unfold next_cell. set (k := id_len linkproto). pose proof (id_len_cases linkproto) as Hk. fold k in Hk.
  destruct (_ && _) eqn:Hvar.
  - apply andb_prop in Hvar as [Hl%Z.leb_le Hvar]. unfold zlen in Hl.
    destruct (Z.ltb_spec (zlen l) (Z.of_nat k + 3 + be (take 2 (drop (k + 1) l)))) as [|Hge]; [done|].
    intros H. injection H as <- <-. unfold zlen in Hge.
    destruct (split_be k l) as [E1 R1]; [lia|].
    destruct (split_be 1 (drop k l)) as [E2 R2]; [rewrite length_drop; lia|].
    destruct (split_be 2 (drop (k + 1) l)) as [E3 R3]; [rewrite length_drop; lia|].
    rewrite drop_drop in E2. rewrite drop_drop, <- Nat.add_assoc in E3. change (1 + 2)%nat with 3%nat in E3.
    split.
    + unfold item_ok. fold k. cbn [vc_circ_id vc_command payload_len vc_payload].
      split; [done|]. split; [done|]. split; [|split; [apply R3|done]].
      unfold zlen. rewrite length_take, length_drop. lia.
    + unfold wire. fold k. cbn [vc_circ_id vc_command payload_len vc_payload].
      rewrite <- !app_assoc, take_drop_more. unfold set_uint8, set_uint16.
      by rewrite <- E3, <- E2, <- E1.
  - destruct (Z.ltb_spec (zlen l) (Z.of_nat k + 510)) as [|Hge]; [done|].
    intros H. injection H as <- <-. unfold zlen in *.
    destruct (split_be k l) as [E1 R1]; [lia|].
    destruct (split_be 1 (drop k l)) as [E2 R2]; [rewrite length_drop; lia|].
    rewrite drop_drop in E2. split.
    + unfold item_ok. fold k. cbn [circ_id command payload]. split; [done|]. split; [done|].
      rewrite (proj2 (Z.leb_le _ _)) in Hvar by (unfold zlen; lia). split; [|done].
      unfold zlen, CELL_PAYLOAD_SIZE. rewrite length_take, length_drop. lia.
    + unfold wire. fold k. cbn [circ_id command payload].
      rewrite <- !app_assoc. replace (k + 510)%nat with ((k + 1) + 509)%nat by lia.
      rewrite take_drop_more. unfold set_uint8. by rewrite <- E2, <- E1.
Qed.

(** The packed forms are the wire format. *)
Lemma cell_pack_wire (linkproto : Z) (c : cell) : item_ok linkproto (InCell c) ->
  take (Z.to_nat (get_cell_network_size (wide_of linkproto))) (cell_pack c (wide_of linkproto))
  = wire linkproto (InCell c).
Proof.
  intros (_ & _ & Hl & _). unfold cell_pack, wire, id_len, get_cell_network_size, CELL_MAX_NETWORK_SIZE, zlen, CELL_PAYLOAD_SIZE in *.
  destruct (wide_of linkproto); unfold set_uint32, set_uint16, set_uint8.
  - rewrite take_ge; [done|]. rewrite !length_app, !be_bytes_length. lia.
  - rewrite app_assoc, (app_assoc (_ ++ _)), take_app_le, take_ge
      by (rewrite !length_app, !be_bytes_length; lia). by rewrite <- app_assoc.
Qed.

Lemma cell_unpack_wire (linkproto : Z) (l : bytes) :
  zlen l = get_cell_network_size (wide_of linkproto) ->
  cell_unpack l (wide_of linkproto) =
    Ok {| circ_id := be (take (id_len linkproto) l); command := be (take 1 (drop (id_len linkproto) l));
          payload := take 509 (drop (id_len linkproto + 1) l) |}.
Proof.
  intros Hl. unfold cell_unpack, id_len, get_cell_network_size, CELL_MAX_NETWORK_SIZE in *.
  assert (Hlen : length l = if wide_of linkproto then 514%nat else 512%nat)
    by (unfold zlen in Hl; destruct (wide_of linkproto); lia).
  destruct (wide_of linkproto); unfold get_uint32, get_uint16, get_uint8, get_be;
    rewrite (proj2 (Nat.ltb_ge _ _)) by lia; cbn [obind];
    rewrite (proj2 (Nat.ltb_ge _ _)) by (rewrite length_drop; lia); cbn [obind];
    rewrite (proj2 (Z.ltb_ge _ _)) by (unfold zlen, CELL_PAYLOAD_SIZE; rewrite !length_drop; lia);
    by rewrite drop_drop.
Qed.

(** ** The processing loop *)

Lemma fetch_ok (h : heap) (rest : Z) (b : buf) (l : bytes) (linkproto : Z) :
  buf_holds h rest b l ->
  let k := id_len linkproto in
  if (Z.of_nat k + 3 <=? zlen l) && cell_command_is_var_length (be (take 1 (drop k l))) linkproto then
    match next_cell linkproto l with
    | Some (InVar c, r) => exists b' h', fetch_var_cell_from_buf h b linkproto = Ok (true, Some c, b', h') /\
                             buf_holds h' rest b' r
    | Some (InCell _, _) => False
    | None => fetch_var_cell_from_buf h b linkproto = Ok (true, None, b, h)
    end
  else fetch_var_cell_from_buf h b linkproto = Ok (false, None, b, h).
Proof.
  intros Hb k. pose proof (id_len_cases linkproto) as Hk. fold k in Hk. pose proof (holds_datalen _ _ _ _ Hb) as Hdl.
  unfold fetch_var_cell_from_buf. fold (wide_of linkproto).
  assert (Hid : Z.to_nat (get_circ_id_size (wide_of linkproto)) = k)
    by (unfold k, id_len, get_circ_id_size; destruct (wide_of _); done).
  assert (Hhd : get_var_cell_header_size (wide_of linkproto) = Z.of_nat k + 3)
    by (unfold k, id_len, get_var_cell_header_size; destruct (wide_of _); done).
  assert (Hget : forall n p, (n <= length p)%nat -> get_be n p = Ok (be (take n p)))
    by (intros n p Hn; unfold get_be; by rewrite (proj2 (Nat.ltb_ge _ _)) by lia).
  rewrite Hid, Hhd, Hdl.
  destruct (Z.leb_spec (Z.of_nat k + 3) (zlen l)) as [Hlen|Hlen]; cbn [andb];
    [|by rewrite (proj2 (Z.ltb_lt _ _)) by lia].
  rewrite (proj2 (Z.ltb_ge _ _)) by lia. rewrite (holds_peek _ _ _ _ _ Hb) by lia. cbn [obind].
  unfold zlen in Hlen. set (hdr := take (Z.to_nat (Z.of_nat k + 3)) l).
  assert (Hh : hdr = take (k + 3) l) by (unfold hdr; f_equal; lia). rewrite Hh.
  assert (Hdr : forall m n, (m + n <= k + 3)%nat -> take n (drop m (take (k + 3) l)) = take n (drop m l)).
  { intros m n Hmn. rewrite !take_drop_commute, take_take. do 2 f_equal. lia. }
  unfold get_uint8, get_uint16, get_uint32.
  rewrite (Hget 1%nat) by (rewrite length_drop, length_take; lia). cbn [obind]. rewrite (Hdr k 1%nat) by lia.
  unfold next_cell. fold k. rewrite (proj2 (Z.leb_le _ _)) by (unfold zlen; lia). cbn [andb].
  destruct (cell_command_is_var_length _ linkproto); cbn [negb]; [|done].
  rewrite (Hget 2%nat) by (rewrite length_drop, length_take; lia). cbn [obind]. rewrite (Hdr (k + 1)%nat 2%nat) by lia.
  set (len := be (take 2 (drop (k + 1) l))).
  destruct (Z.ltb_spec (zlen l) (Z.of_nat k + 3 + len)) as [|Hge]; [done|].
  assert (Hln : 0 <= len) by apply be_range.
  assert ((if wide_of linkproto then get_be 4 (take (k + 3) l) else get_be 2 (take (k + 3) l))
          = Ok (be (take k l))) as ->.
  { pose proof (Hdr 0%nat k) as H0. rewrite !drop_0 in H0.
    unfold k, id_len in *. destruct (wide_of linkproto); rewrite Hget by (rewrite length_take; lia);
      by rewrite H0 by lia. }
  cbn [obind].
  destruct (holds_drain _ _ _ _ (Z.of_nat k + 3) Hb) as (b1 & h1 & -> & Hb1); [unfold zlen; lia|]. cbn [obind].
  replace (Z.to_nat (Z.of_nat k + 3)) with (k + 3)%nat in Hb1 by lia.
  assert (Hl1 : len <= zlen (drop (k + 3) l)) by (unfold zlen in *; rewrite length_drop; lia).
  rewrite (holds_peek _ _ _ _ _ Hb1) by lia. cbn [obind].
  destruct (holds_drain _ _ _ _ len Hb1) as (b2 & h2 & -> & Hb2); [lia|]. cbn [obind].
  rewrite drop_drop in Hb2. exists b2, h2. split; [|done]. cbn [vc_payload var_cell_new payload_len].
  rewrite (drop_ge (replicate _ _)) by (rewrite length_replicate; lia). by rewrite app_nil_r.
Qed.

Section connection_facts.
Context {St : Type} (link_proto : St -> Z) (wide : St -> bool) (handle : St -> incoming -> St).

(** The negotiated protocol decides the width of circuit identifiers, as
    [channel_tls_process_versions_cell] sets it. *)
Hypothesis Hwide : forall st, wide st = wide_of (link_proto st).

(** The cells at the front of a string of bytes, each read under the protocol that the
    handling of the previous ones left, and the bytes that no cell begins. *)
Inductive delivers (st : St) : list incoming -> bytes -> St -> bytes -> Prop :=
  | delivers_none (tail : bytes) :
      (forall i r, item_ok (link_proto st) i -> tail <> wire (link_proto st) i ++ r) ->
      delivers st [] tail st tail
  | delivers_cell (i : incoming) (items : list incoming) (l : bytes) (st' : St) (tail : bytes) :
      item_ok (link_proto st) i -> delivers (handle st i) items l st' tail ->
      delivers st (i :: items) (wire (link_proto st) i ++ l) st' tail.

Lemma delivers_fun (st : St) (items : list incoming) (l : bytes) (st1 : St) (tail1 : bytes) :
  delivers st items l st1 tail1 -> forall items2 st2 tail2, delivers st items2 l st2 tail2 ->
  items2 = items /\ st2 = st1 /\ tail2 = tail1.
Proof.
  induction 1 as [st tail Hno|st i items l st1 tail1 Hi _ IH]; intros items2 st2 tail2 H2.
  - inversion H2 as [|i ? l' ? ? Hi]; subst; [done|]. by destruct (Hno i l').
  - remember (wire (link_proto st) i ++ l) as l0 eqn:E.
    destruct H2 as [? Hno|i' items' l' ? ? Hi' H']; [by subst; destruct (Hno i l)|].
    pose proof (next_cell_wire _ _ l Hi) as N1. pose proof (next_cell_wire _ _ l' Hi') as N2.
    rewrite <- E, N2 in N1. injection N1 as <- <-.
    destruct (IH _ _ _ H') as (-> & -> & ->). done.
Qed.

Lemma next_cell_shorter (linkproto : Z) (l : bytes) (i : incoming) (r : bytes) :
  next_cell linkproto l = Some (i, r) -> (length r < length l)%nat.
Proof.
  intros H. apply next_cell_Some in H as [_ ->]. destruct i; cbn [wire];
    rewrite !length_app, be_bytes_length; pose proof (id_len_cases linkproto); lia.
Qed.

Abbreviation process := (connection_or_process_cells_from_inbuf link_proto wide handle).

Lemma process_step (fuel : nat) (h : heap) (rest : Z) (b : buf) (l : bytes) (st : St) :
  buf_holds h rest b l ->
  match next_cell (link_proto st) l with
  | None => process fuel h b st = Ok ([], st, b, h)
  | Some (i, r) => exists b' h', buf_holds h' rest b' r /\
      process fuel h b st = match fuel with
        | O => Stuck
        | S f => let* (l, st, b, h) := process f h' b' (handle st i) in Ok (i :: l, st, b, h)
        end
  end.
Proof.
  intros Hb. pose proof (fetch_ok h rest b l (link_proto st) Hb) as Hf. cbn zeta in Hf.
  set (k := id_len (link_proto st)) in *. pose proof (id_len_cases (link_proto st)) as Hk. fold k in Hk.
  destruct (_ && _) eqn:Hvar.
  - destruct (next_cell (link_proto st) l) as [[[c|c] r]|]; [|done|].
    + destruct Hf as (b' & h' & Hf & Hb'). exists b', h'. split; [done|].
      destruct fuel; cbn [connection_or_process_cells_from_inbuf]; by rewrite Hf.
    + destruct fuel; cbn [connection_or_process_cells_from_inbuf]; by rewrite Hf.
  - pose proof (holds_datalen _ _ _ _ Hb) as Hdl.
    assert (Hns : get_cell_network_size (wide st) = Z.of_nat k + 510).
    { rewrite Hwide. unfold k, id_len, get_cell_network_size, CELL_MAX_NETWORK_SIZE. by destruct (wide_of _). }
    unfold next_cell. fold k. rewrite Hvar.
    destruct (Z.ltb_spec (zlen l) (Z.of_nat k + 510)) as [Hlt|Hge].
    + destruct fuel; cbn [connection_or_process_cells_from_inbuf]; rewrite Hf; cbn [obind];
        by rewrite Hdl, Hns, (proj2 (Z.ltb_lt _ _)) by lia.
    + destruct (holds_get _ _ _ _ (Z.of_nat k + 510) Hb) as (b' & h' & left & Hg & Hb'); [lia|].
      exists b', h'. replace (Z.to_nat (Z.of_nat k + 510)) with (k + 510)%nat in * by lia. split; [done|].
      set (s := take (k + 510) l) in *.
      assert (Hu : cell_unpack s (wide st) = Ok {| circ_id := be (take k l); command := be (take 1 (drop k l));
                payload := take 509 (drop (k + 1) l) |}).
      { rewrite Hwide, cell_unpack_wire.
        - fold k. unfold s. rewrite take_take, Nat.min_l by lia.
          rewrite !take_drop_commute, !take_take. by rewrite !Nat.min_l by lia.
        - rewrite <- Hwide, Hns. unfold s, zlen in *. rewrite length_take. lia. }
      destruct fuel; cbn [connection_or_process_cells_from_inbuf]; rewrite Hf; cbn [obind];
        rewrite Hdl, Hns, (proj2 (Z.ltb_ge _ _)) by lia; rewrite Hg; cbn [obind]; by rewrite Hu.
Qed.

Lemma process_ok (fuel : nat) : forall (h : heap) (rest : Z) (b : buf) (l : bytes) (st : St),
  buf_holds h rest b l -> (length l <= fuel)%nat ->
  exists items st' tail b' h', process fuel h b st = Ok (items, st', b', h') /\
    buf_holds h' rest b' tail /\ delivers st items l st' tail.
Proof.
  induction fuel as [|fuel IH]; intros h rest b l st Hb Hf;
    pose proof (process_step) as Hs.
  - specialize (Hs 0%nat h rest b l st Hb). destruct (next_cell (link_proto st) l) as [[i r]|] eqn:E.
    + apply next_cell_shorter in E. lia.
    + exists [], st, l, b, h. split; [done|]. split; [done|]. constructor. intros i r Hi ->.
      by rewrite next_cell_wire in E.
  - specialize (Hs (S fuel) h rest b l st Hb). destruct (next_cell (link_proto st) l) as [[i r]|] eqn:E.
    + destruct Hs as (b1 & h1 & Hb1 & ->). pose proof (next_cell_shorter _ _ _ _ E).
      destruct (IH h1 rest b1 r (handle st i) Hb1) as (items & st' & tail & b' & h' & -> & Hb' & Hd); [lia|].
      cbn [obind]. apply next_cell_Some in E as [Hi ->].
      exists (i :: items), st', tail, b', h'. split; [done|]. split; [done|]. by constructor.
    + exists [], st, l, b, h. split; [done|]. split; [done|]. constructor. intros i r Hi ->.
      by rewrite next_cell_wire in E.
Qed.

(** ** Properties *)

(** What the writers append. *)
Lemma write_cell_ok (h : heap) (rest : Z) (b : buf) (l : bytes) (linkproto : Z) (c : cell) :
  buf_holds h rest b l -> item_ok linkproto (InCell c) ->
  zlen (l ++ wire linkproto (InCell c)) <= BUF_MAX_LEN ->
  exists b' h', connection_or_write_cell_to_buf h b c (wide_of linkproto) = Ok (b', h') /\
    buf_holds h' rest b' (l ++ wire linkproto (InCell c)).
Proof.
  intros Hb Hc Hm. unfold connection_or_write_cell_to_buf. rewrite cell_pack_wire by done.
  rewrite zlen_app in Hm. destruct (holds_add _ _ _ _ _ Hb Hm) as (n & b' & h' & -> & Hb'). by exists b', h'.
Qed.

Lemma write_var_cell_ok (h : heap) (rest : Z) (b : buf) (l : bytes) (linkproto : Z) (c : var_cell) :
  buf_holds h rest b l -> item_ok linkproto (InVar c) ->
  zlen (l ++ wire linkproto (InVar c)) <= BUF_MAX_LEN ->
  exists b' h', connection_or_write_var_cell_to_buf h b c (wide_of linkproto) = Ok (b', h') /\
    buf_holds h' rest b' (l ++ wire linkproto (InVar c)).
Proof.
  intros Hb (_ & _ & Hl & _) Hm.
  set (hdr := (if wide_of linkproto then set_uint32 (vc_circ_id c) else set_uint16 (vc_circ_id c))
              ++ set_uint8 (vc_command c) ++ set_uint16 (payload_len c)).
  assert (Hw : wire linkproto (InVar c) = hdr ++ vc_payload c).
  { unfold wire, hdr, id_len, set_uint32, set_uint16. rewrite <- !app_assoc. by destruct (wide_of _). }
  unfold connection_or_write_var_cell_to_buf, var_cell_pack_header. fold hdr.
  rewrite (take_ge hdr) by (unfold hdr, set_uint32, set_uint16, set_uint8, VAR_CELL_MAX_HEADER_SIZE;
    rewrite !length_app; destruct (wide_of _); rewrite !be_bytes_length; lia).
  rewrite Hl, (take_ge (vc_payload c)) by (unfold zlen; lia). rewrite Hw in *.
  rewrite !zlen_app in Hm. pose proof (zlen_nonneg (vc_payload c)).
  destruct (holds_add _ _ _ _ hdr Hb) as (n & b1 & h1 & -> & Hb1); [lia|]. cbn [obind].
  destruct (holds_add _ _ _ _ (vc_payload c) Hb1) as (n2 & b2 & h2 & -> & Hb2); [rewrite zlen_app; lia|].
  exists b2, h2. rewrite <- app_assoc in Hb2. done.
Qed.

(** C37: Cells survive the byte stream of an OR connection. Whatever bytes the inbuf of a connection holds, up to the maximum of a buffer,
    [connection_or_process_cells_from_inbuf] ends, without touching memory outside the buffer, having delivered exactly the cells that these bytes begin
    with and leaving exactly the bytes after them, which begin no cell; no other division of the bytes into cells exists, however the handling of one cell
    changes the link protocol under which the next is read, if identifiers are wide exactly from protocol 4 on, as the code sets them. And what the two
    writers append to an outbuf is the wire form of their cell, if its fields have their sizes, its command is of the writer's kind and the outbuf has
    room for it; so the cells written are the cells read. *)
Theorem or_cells_framing (h : heap) (rest : Z) (b : buf) (l : bytes) (st : St) :
  buf_holds h rest b l ->
  (exists items st' tail b' h',
     process (length l) h b st = Ok (items, st', b', h') /\
     buf_holds h' rest b' tail /\ delivers st items l st' tail /\
     forall items2 st2 tail2, delivers st items2 l st2 tail2 ->
       items2 = items /\ st2 = st' /\ tail2 = tail) /\
  (forall i, item_ok (link_proto st) i -> zlen (l ++ wire (link_proto st) i) <= BUF_MAX_LEN ->
     exists b' h',
       match i with
       | InCell c => connection_or_write_cell_to_buf h b c (wide st) = Ok (b', h')
       | InVar c => connection_or_write_var_cell_to_buf h b c (wide st) = Ok (b', h')
       end /\ buf_holds h' rest b' (l ++ wire (link_proto st) i)).
Proof.
  intros Hb. split.
  - destruct (process_ok (length l) h rest b l st Hb) as (items & st' & tail & b' & h' & Hp & Hb' & Hd); [lia|].
    exists items, st', tail, b', h'. split; [done|]. split; [done|]. split; [done|]. by apply delivers_fun.
  - intros [c|c] Hi Hm; rewrite Hwide.
    + by apply write_var_cell_ok.
    + by apply write_cell_ok.
Qed.
End connection_facts.

(** A VERSIONS cell under the protocol 0 of a new connection, which negotiates protocol 4,
    and the beginning of the next cell. *)
Definition ex_versions : bytes := map z2b [0; 0; 7; 0; 2; 0; 4; 0; 0].

Lemma ex_versions_holds : exists b h, buf_add ex_heap buf_new ex_versions = Ok (9, b, h) /\
  buf_holds h 0 b ex_versions.
Proof.
  destruct (holds_add ex_heap 0 buf_new [] ex_versions) as (n & b & h & E & Hb).
  - apply (buf_new_holds ex_heap). vm_compute. discriminate.
  - vm_compute. discriminate.
  - exists b, h. split; [|exact Hb]. rewrite E. do 3 f_equal. revert E. vm_compute. congruence.
Qed.

Theorem or_cells_framing_witness :
  exists b h, buf_holds h 0 b ex_versions /\
  exists items st' tail b' h',
     connection_or_process_cells_from_inbuf (fun p => p) wide_of (fun p _ => 4) (length ex_versions) h b 0
     = Ok (items, st', b', h') /\
     buf_holds h' 0 b' tail /\ delivers (fun p => p) (fun p _ => 4) 0 items ex_versions st' tail.
Proof.
  destruct ex_versions_holds as (b & h & _ & Hb). exists b, h. split; [exact Hb|].
  destruct (or_cells_framing (fun p => p) wide_of (fun p _ => 4) (fun st => eq_refl) h 0 b ex_versions 0 Hb)
    as [(items & st' & tail & b' & h' & H1 & H2 & H3 & _) _].
  exists items, st', tail, b', h'. split; [exact H1|]. split; [exact H2|exact H3].
Defined.
