(* ===== verification/RelayCell.v ===== *)
(** * Relay cells: the header, the padding and the packaging of stream data

    From [core/or/relay.c]. The payload of a relay cell is the 509 bytes of a fixed cell:
    an 11-byte header, the data, four zero bytes and random padding. *)
From S2P Require Import Prelude ParseInt Endian Cells.

Definition RELAY_HEADER_SIZE : Z := 1 + 2 + 2 + 4 + 2.
Definition RELAY_PAYLOAD_SIZE : Z := CELL_PAYLOAD_SIZE - RELAY_HEADER_SIZE.
Definition RELAY_COMMAND_DATA : Z := 2.
Definition RELAY_COMMAND_SENDME : Z := 5.
Definition CIRCWINDOW_START : Z := 1000.
Definition CIRCWINDOW_START_MIN : Z := 100.
Definition CIRCWINDOW_START_MAX : Z := 1000.
Definition CIRCWINDOW_INCREMENT : Z := 100.
Definition STREAMWINDOW_START : Z := 500.
Definition STREAMWINDOW_START_MAX : Z := 500.
Definition STREAMWINDOW_INCREMENT : Z := 50.

(** ** The header *)

Record relay_header := {
  rh_command : Z;
  recognized : Z;
  stream_id : Z;
  integrity : bytes;
  rh_length : Z
}.

(** [relay_header_pack] writes over the first 11 bytes of the payload. *)
Definition relay_header_pack (dest : bytes) (src : relay_header) : outcome bytes :=
  if (zlen dest <? RELAY_HEADER_SIZE) || negb (zlen (integrity src) =? 4) then Stuck
  else Ok (set_uint8 (rh_command src) ++ set_uint16 (recognized src) ++ set_uint16 (stream_id src)
           ++ integrity src ++ set_uint16 (rh_length src) ++ drop (Z.to_nat RELAY_HEADER_SIZE) dest).

Definition relay_header_unpack (src : bytes) : outcome relay_header :=
  let* cmd := get_uint8 src in
  let* rec := get_uint16 (drop 1 src) in
  let* sid := get_uint16 (drop 3 src) in
  let* len := get_uint16 (drop 9 src) in
  Ok {| rh_command := cmd; recognized := rec; stream_id := sid;
        integrity := take 4 (drop 5 src); rh_length := len |}.

(** ** Padding *)

Definition CELL_PADDING_GAP : Z := 4.

Definition get_pad_cell_offset (data_len : Z) : outcome Z :=
  tor_assert (data_len <=? RELAY_PAYLOAD_SIZE) (
  let offset := RELAY_HEADER_SIZE + data_len + CELL_PADDING_GAP in
  Ok (if CELL_PAYLOAD_SIZE <=? offset then 0 else offset)).

(** [random] is what [crypto_fast_rng_getbytes] gives, at least as long as asked for. *)
Definition pad_cell_payload (cell_payload : bytes) (data_len : Z) (random : bytes) : outcome bytes :=
  let* pad_offset := get_pad_cell_offset data_len in
  if pad_offset =? 0 then Ok cell_payload
  else
    let pad_len := CELL_PAYLOAD_SIZE - pad_offset in
    if (zlen cell_payload <? CELL_PAYLOAD_SIZE) || (zlen random <? pad_len) then Stuck
    else Ok (take (Z.to_nat pad_offset) cell_payload ++ take (Z.to_nat pad_len) random
             ++ drop (Z.to_nat CELL_PAYLOAD_SIZE) cell_payload).

(** The part of [relay_send_command_from_edge_] that builds the payload. *)
Definition build_payload (sid relay_command : Z) (data random : bytes) : outcome bytes :=
  tor_assert (zlen data <=? RELAY_PAYLOAD_SIZE) (
  let rh := {| rh_command := relay_command; recognized := 0; stream_id := sid;
               integrity := replicate 4 NUL; rh_length := zlen data |} in
  let* p := relay_header_pack (replicate (Z.to_nat CELL_PAYLOAD_SIZE) NUL) rh in
  let p := take (Z.to_nat RELAY_HEADER_SIZE) p ++ data
           ++ drop (Z.to_nat RELAY_HEADER_SIZE + length data) p in
  pad_cell_payload p (zlen data) random).

(** ** How many bytes of a stream go into a cell *)

Record randomness := { send_randomness_after_n_cells : Z; have_sent_sufficiently_random_cell : bool }.

(** [r] is the random number below [CIRCWINDOW_INCREMENT / 2]. *)
Definition circuit_reset_sendme_randomness (r : Z) : randomness :=
  {| have_sent_sufficiently_random_cell := false;
     send_randomness_after_n_cells := CIRCWINDOW_INCREMENT / 2 + r |}.

Definition RELAY_PAYLOAD_LENGTH_FOR_RANDOM_SENDMES : Z := RELAY_PAYLOAD_SIZE - CELL_PADDING_GAP - 16.

Definition connection_edge_get_inbuf_bytes_to_package (n_available : Z) (package_partial : bool)
    (c : randomness) (r : Z) : Z * randomness :=
  if n_available =? 0 then (0, c)
  else
    let force_random_bytes := (send_randomness_after_n_cells c =? 0)
                              && negb (have_sent_sufficiently_random_cell c) in
    let target_length := if force_random_bytes then RELAY_PAYLOAD_LENGTH_FOR_RANDOM_SENDMES
                         else RELAY_PAYLOAD_SIZE in
    let send package_length :=
      let c := if package_length <=? RELAY_PAYLOAD_LENGTH_FOR_RANDOM_SENDMES
               then {| send_randomness_after_n_cells := send_randomness_after_n_cells c;
                       have_sent_sufficiently_random_cell := true |}
               else c in
      let c := if send_randomness_after_n_cells c =? 0 then circuit_reset_sendme_randomness r else c in
      (package_length,
       {| send_randomness_after_n_cells := wrap 16 (send_randomness_after_n_cells c - 1);
          have_sent_sufficiently_random_cell := have_sent_sufficiently_random_cell c |}) in
    if target_length <=? n_available then send target_length
    else if package_partial then send n_available
    else (0, c).

(** ** Lemmas *)

Definition header_ok (rh : relay_header) : Prop :=
  0 <= rh_command rh < 256 /\ 0 <= recognized rh < 65536 /\ 0 <= stream_id rh < 65536 /\
  zlen (integrity rh) = 4 /\ 0 <= rh_length rh < 65536.

Definition header_bytes (rh : relay_header) : bytes :=
  set_uint8 (rh_command rh) ++ set_uint16 (recognized rh) ++ set_uint16 (stream_id rh)
  ++ integrity rh ++ set_uint16 (rh_length rh).

Lemma header_bytes_length (rh : relay_header) : zlen (integrity rh) = 4 ->
  length (header_bytes rh) = 11%nat.
Proof.
  intros Hi. unfold zlen in Hi. unfold header_bytes, set_uint8, set_uint16.
  rewrite !length_app, !be_bytes_length. lia.
Qed.

Lemma header_pack_eq (dest : bytes) (rh : relay_header) : zlen (integrity rh) = 4 ->
  RELAY_HEADER_SIZE <= zlen dest ->
  relay_header_pack dest rh = Ok (header_bytes rh ++ drop 11 dest).
Proof.
  intros Hi Hd. unfold relay_header_pack. rewrite (proj2 (Z.ltb_ge _ _)) by lia. rewrite Hi. cbn [orb negb Z.eqb Pos.eqb].
  unfold header_bytes. rewrite <- !app_assoc. done.
Qed.

Lemma header_unpack_bytes (rh : relay_header) (rest : bytes) : header_ok rh ->
  relay_header_unpack (header_bytes rh ++ rest) = Ok rh.
Proof.
  intros (Hc & Hr & Hs & Hi & Hl). unfold relay_header_unpack, header_bytes, get_uint8, get_uint16, set_uint8, set_uint16.
  rewrite <- !app_assoc, get_be_app by (simpl; lia). cbn [obind].
  assert (H1 : forall u l, drop 1 (be_bytes 1 u ++ l) = l) by (intros; apply drop_app_length'; by rewrite be_bytes_length).
  assert (H2 : forall u l, drop 2 (be_bytes 2 u ++ l) = l) by (intros; apply drop_app_length'; by rewrite be_bytes_length).
  assert (H4 : forall l, drop 4 (integrity rh ++ l) = l) by (intros; apply drop_app_length'; unfold zlen in Hi; lia).
  assert (D3 : forall l : bytes, drop 3 l = drop 2 (drop 1 l)) by (intros; by rewrite drop_drop).
  assert (D5 : forall l : bytes, drop 5 l = drop 2 (drop 3 l)) by (intros; by rewrite drop_drop).
  assert (D9 : forall l : bytes, drop 9 l = drop 4 (drop 5 l)) by (intros; by rewrite drop_drop).
  rewrite !D9, !D5, !D3, !H1, !H2, !H4.
  rewrite get_be_app by (simpl; lia). cbn [obind]. rewrite get_be_app by (simpl; lia). cbn [obind].
  rewrite get_be_app by (simpl; lia). cbn [obind].
  rewrite take_app_length' by (unfold zlen in Hi; lia). by destruct rh.
Qed.

(** Every payload begins with a header, and packing it again changes nothing. *)
Lemma header_split (p : bytes) : RELAY_HEADER_SIZE <= zlen p ->
  exists rh, header_ok rh /\ relay_header_unpack p = Ok rh /\ p = header_bytes rh ++ drop 11 p.
Proof.
  intros Hp. unfold RELAY_HEADER_SIZE, zlen in Hp.
  destruct (get_be_split 1 p) as (cmd & _ & Rc & E1); [lia|].
  destruct (get_be_split 2 (drop 1 p)) as (rec & _ & Rr & E2); [rewrite length_drop; lia|].
  destruct (get_be_split 2 (drop 3 p)) as (sid & _ & Rs & E3); [rewrite length_drop; lia|].
  destruct (get_be_split 2 (drop 9 p)) as (len & _ & Rl & E4); [rewrite length_drop; lia|].
  rewrite !drop_drop in E2, E3, E4. cbn [Nat.add] in E2, E3, E4.
  pose (rh := {| rh_command := cmd; recognized := rec; stream_id := sid;
                 integrity := take 4 (drop 5 p); rh_length := len |}).
  assert (Hok : header_ok rh).
  { unfold rh. repeat split; cbn; try (simpl in *; lia). unfold zlen. rewrite length_take, length_drop. lia. }
  assert (Ep : p = header_bytes rh ++ drop 11 p).
  { unfold header_bytes, rh, set_uint8, set_uint16. cbn [rh_command recognized stream_id integrity rh_length].
    rewrite <- !app_assoc, <- E4.
    assert (E5 : take 4 (drop 5 p) ++ drop 9 p = drop 5 p).
    { change 9%nat with (5 + 4)%nat. by rewrite <- drop_drop, take_drop. }
    by rewrite E5, <- E3, <- E2, <- E1. }
  exists rh. split; [done|]. split; [|done]. rewrite Ep at 1. by apply header_unpack_bytes.
Qed.

(** The payload that [relay_send_command_from_edge_] builds. *)
Lemma build_payload_ok (sid cmd : Z) (data random : bytes) :
  0 <= sid < 65536 -> 0 <= cmd < 256 -> zlen data <= RELAY_PAYLOAD_SIZE -> CELL_PAYLOAD_SIZE <= zlen random ->
  exists p, build_payload sid cmd data random = Ok p /\ zlen p = CELL_PAYLOAD_SIZE /\
    relay_header_unpack p = Ok {| rh_command := cmd; recognized := 0; stream_id := sid;
                                  integrity := replicate 4 NUL; rh_length := zlen data |} /\
    take (length data) (drop 11 p) = data.
Proof.
  intros Hs Hc Hd Hr. unfold build_payload, tor_assert. rewrite (proj2 (Z.leb_le _ _)) by done.
  set (rh := {| rh_command := cmd; recognized := 0; stream_id := sid;
                integrity := replicate 4 NUL; rh_length := zlen data |}).
  assert (Hok : header_ok rh).
  { pose proof (zlen_nonneg data). unfold RELAY_PAYLOAD_SIZE, CELL_PAYLOAD_SIZE, RELAY_HEADER_SIZE in Hd.
    repeat split; cbn [rh rh_command recognized stream_id integrity rh_length]; (lia || done). }
  pose proof Hok as (_ & _ & _ & Hi & _).
  rewrite header_pack_eq by (done || vm_compute; discriminate). cbn [obind].
  rewrite drop_replicate. change (Z.to_nat CELL_PAYLOAD_SIZE - 11)%nat with 498%nat.
  rewrite take_app_length' by (rewrite header_bytes_length by done; done).
  rewrite <- drop_drop, drop_app_length' by (rewrite header_bytes_length by done; done).
  rewrite drop_replicate. set (p := header_bytes rh ++ data ++ replicate (498 - length data) NUL).
  unfold zlen, RELAY_PAYLOAD_SIZE, CELL_PAYLOAD_SIZE, RELAY_HEADER_SIZE in *.
  assert (Hp : length p = 509%nat).
  { unfold p. rewrite !length_app, header_bytes_length, length_replicate by done. lia. }
  assert (Hun : forall q, relay_header_unpack (header_bytes rh ++ q) = Ok rh) by (intros; by apply header_unpack_bytes).
  unfold pad_cell_payload, get_pad_cell_offset, tor_assert, RELAY_PAYLOAD_SIZE, CELL_PAYLOAD_SIZE, RELAY_HEADER_SIZE, CELL_PADDING_GAP.
  rewrite (proj2 (Z.leb_le (Z.of_nat (length data)) _)) by lia. cbn [obind].
  destruct (Z.leb_spec 509 (1 + 2 + 2 + 4 + 2 + Z.of_nat (length data) + 4)) as [|Hlt]; cbn [Z.eqb].
  - exists p. split; [done|]. split; [by rewrite Hp|]. split; [apply Hun|].
    unfold p. rewrite drop_app_length' by (rewrite header_bytes_length by done; done). by rewrite take_app_length.
  - unfold zlen in *. set (off := 1 + 2 + 2 + 4 + 2 + Z.of_nat (length data) + 4) in *.
    rewrite (proj2 (Z.eqb_neq off 0)) by lia. rewrite Hp.
    do 2 rewrite (proj2 (Z.ltb_ge _ _)) by lia. cbn [orb].
    rewrite (drop_ge p) by lia. rewrite app_nil_r.
    assert (Ht : take (Z.to_nat off) p = header_bytes rh ++ data ++ take 4 (replicate (498 - length data) NUL)).
    { unfold p. rewrite take_app_ge by (rewrite header_bytes_length by done; lia).
      rewrite header_bytes_length by done. rewrite take_app_ge by lia. do 3 f_equal. lia. }
    rewrite Ht. eexists. split; [done|]. split; [|split].
    + rewrite !length_app, header_bytes_length, !length_take, length_replicate by done. lia.
    + rewrite <- !app_assoc. apply Hun.
    + rewrite <- !app_assoc. rewrite drop_app_length' by (rewrite header_bytes_length by done; done). by rewrite take_app_length.
Qed.
