(* ===== verification/SendmeCell.v ===== *)
(** * The payload of a SENDME cell, [trunnel/sendme_cell.c]

    The object, its accessors, its check, and the encoder and parser with their error
    codes. Allocation does not fail. *)
From S2P Require Import Prelude ParseInt Endian.

Definition TRUNNEL_SENDME_V1_DIGEST_LEN : Z := 20.

Record sendme_cell := {
  version : Z;
  data_len : Z;
  data_v1_digest : bytes;
  trunnel_error_code_ : bool
}.

Definition sendme_cell_new : sendme_cell :=
  {| version := 0; data_len := 0;
     data_v1_digest := replicate (Z.to_nat TRUNNEL_SENDME_V1_DIGEST_LEN) NUL; trunnel_error_code_ := false |}.

Definition sendme_cell_get_version (inp : sendme_cell) : Z := version inp.
Definition sendme_cell_get_data_len (inp : sendme_cell) : Z := data_len inp.
Definition sendme_cell_getarray_data_v1_digest (inp : sendme_cell) : bytes := data_v1_digest inp.
Definition sendme_cell_getlen_data_v1_digest (inp : sendme_cell) : Z := TRUNNEL_SENDME_V1_DIGEST_LEN.

Definition sendme_cell_set_version (inp : sendme_cell) (val : Z) : sendme_cell * Z :=
  if negb ((val =? 0) || (val =? 1))
  then ({| version := version inp; data_len := data_len inp; data_v1_digest := data_v1_digest inp;
           trunnel_error_code_ := true |}, -1)
  else ({| version := val; data_len := data_len inp; data_v1_digest := data_v1_digest inp;
           trunnel_error_code_ := trunnel_error_code_ inp |}, 0).

Definition sendme_cell_set_data_len (inp : sendme_cell) (val : Z) : sendme_cell :=
  {| version := version inp; data_len := val; data_v1_digest := data_v1_digest inp;
     trunnel_error_code_ := trunnel_error_code_ inp |}.

Definition sendme_cell_get_data_v1_digest (inp : sendme_cell) (idx : Z) : outcome ascii :=
  tor_assert (idx <? TRUNNEL_SENDME_V1_DIGEST_LEN) (get (aget (data_v1_digest inp) idx)).

Definition with_digest (inp : sendme_cell) (d : bytes) : sendme_cell :=
  {| version := version inp; data_len := data_len inp; data_v1_digest := d;
     trunnel_error_code_ := trunnel_error_code_ inp |}.

Definition sendme_cell_set_data_v1_digest (inp : sendme_cell) (idx : Z) (elt : ascii) : outcome sendme_cell :=
  tor_assert (idx <? TRUNNEL_SENDME_V1_DIGEST_LEN) (
  let* d := aset (data_v1_digest inp) idx elt in Ok (with_digest inp d)).

Definition sendme_cell_clear_errors (obj : sendme_cell) : sendme_cell * bool :=
  ({| version := version obj; data_len := data_len obj; data_v1_digest := data_v1_digest obj;
      trunnel_error_code_ := false |}, trunnel_error_code_ obj).

(** [None] is NULL: the object is fine. *)
Definition sendme_cell_check (obj : option sendme_cell) : option bytes :=
  match obj with
  | None => Some (bs "Object was NULL")
  | Some obj =>
      if trunnel_error_code_ obj then Some (bs "A set function failed on this object")
      else if negb ((version obj =? 0) || (version obj =? 1)) then Some (bs "Integer out of bounds")
      else None
  end.

Definition sendme_cell_encoded_len (obj : sendme_cell) : outcome Z :=
  match sendme_cell_check (Some obj) with
  | Some _ => Ok (-1)
  | None =>
      if version obj =? 0 then Ok (1 + 2)
      else if version obj =? 1 then Ok (1 + 2 + TRUNNEL_SENDME_V1_DIGEST_LEN)
      else Stuck
  end.

(** The result and what has been written to a buffer of [avail] bytes: on success the
    length, -2 when there is no room, -1 when the object is bad. *)
Definition sendme_cell_encode (avail : Z) (obj : sendme_cell) : outcome (Z * bytes) :=
  match sendme_cell_check (Some obj) with
  | Some _ => Ok (-1, [])
  | None =>
      tor_assert (0 <=? avail) (
      if avail - 0 <? 1 then Ok (-2, [])
      else
        let out := set_uint8 (version obj) in
        if avail - 1 <? 2 then Ok (-2, out)
        else
          let before := out in
          let written := 3 in
          let union_ :=
            if version obj =? 0 then Ok (inr [])
            else if version obj =? 1 then
              if avail - written <? TRUNNEL_SENDME_V1_DIGEST_LEN then Ok (inl (-2))
              else if zlen (data_v1_digest obj) <? TRUNNEL_SENDME_V1_DIGEST_LEN then Stuck
              else Ok (inr (take (Z.to_nat TRUNNEL_SENDME_V1_DIGEST_LEN) (data_v1_digest obj)))
            else Stuck in
          let* u := union_ in
          match u with
          | inl e => Ok (e, before ++ set_uint16 (data_len obj))
          | inr d =>
              if 65535 <? zlen d then Ok (-1, before ++ set_uint16 (data_len obj) ++ d)
              else Ok (written + zlen d, before ++ set_uint16 (zlen d) ++ d)
          end)
  end.

(** The number of bytes used and the object; -2 when the input is truncated, -1 when it
    is not well formed. *)
Definition sendme_cell_parse_into (obj : sendme_cell) (input : bytes) : outcome (Z * sendme_cell) :=
  let len_in := zlen input in
  if len_in <? 1 then Ok (-2, obj)
  else
    let* v := get_uint8 input in
    let obj := {| version := v; data_len := data_len obj; data_v1_digest := data_v1_digest obj;
                  trunnel_error_code_ := trunnel_error_code_ obj |} in
    let remaining := len_in - 1 in
    if negb ((v =? 0) || (v =? 1)) then Ok (-1, obj)
    else if remaining <? 2 then Ok (-2, obj)
    else
      let* n := get_uint16 (drop 1 input) in
      let obj := sendme_cell_set_data_len obj n in
      let ptr := drop 3 input in
      let remaining := remaining - 2 in
      if remaining <? n then Ok (-2, obj)
      else
        let remaining_after := remaining - n in
        if v =? 0 then Ok (len_in - remaining_after, obj)
        else if n <? TRUNNEL_SENDME_V1_DIGEST_LEN then Ok (-1, obj)
        else
          let obj := with_digest obj (take (Z.to_nat TRUNNEL_SENDME_V1_DIGEST_LEN) ptr) in
          if negb (n - TRUNNEL_SENDME_V1_DIGEST_LEN =? 0) then Ok (-1, obj)
          else Ok (len_in - remaining_after, obj).

Definition sendme_cell_parse (input : bytes) : outcome (option sendme_cell * Z) :=
  let* (result, obj) := sendme_cell_parse_into sendme_cell_new input in
  if result <? 0 then Ok (None, result) else Ok (Some obj, result).

(** ** Lemmas *)

(** The parser returns on every input. *)
Lemma sendme_cell_parse_total (input : bytes) : exists o n, sendme_cell_parse input = Ok (o, n) /\
  (forall c, o = Some c -> (version c = 0 \/ version c = 1) /\ 3 <= n <= zlen input).
Proof.
  unfold sendme_cell_parse, sendme_cell_parse_into, get_uint8, get_uint16, get_be.
  destruct (Z.ltb_spec (zlen input) 1) as [H1|H1]; [by eexists _, _|]. unfold zlen in *.
  rewrite (proj2 (Nat.ltb_ge _ _)) by lia. cbn [obind]. set (v := be (take 1 input)).
  destruct (negb _) eqn:Hv; [by eexists _, _|]. apply negb_false_iff, orb_true_iff in Hv.
  rewrite !Z.eqb_eq in Hv.
  destruct (Z.ltb_spec (Z.of_nat (length input) - 1) 2) as [H2|H2]; [by eexists _, _|].
  rewrite (proj2 (Nat.ltb_ge _ _)) by (rewrite length_drop; lia). cbn [obind].
  set (n := be (take 2 (drop 1 input))). assert (0 <= n) by apply be_range.
  destruct (Z.ltb_spec (Z.of_nat (length input) - 1 - 2) n) as [H3|H3]; [by eexists _, _|].
  assert (Hn : Z.of_nat (length input) - (Z.of_nat (length input) - 1 - 2 - n) <? 0 = false)
    by (apply Z.ltb_ge; lia).
  assert (Hfin : forall obj, version obj = v -> exists o m,
     (if Z.of_nat (length input) - (Z.of_nat (length input) - 1 - 2 - n) <? 0
      then Ok (None, Z.of_nat (length input) - (Z.of_nat (length input) - 1 - 2 - n))
      else Ok (Some obj, Z.of_nat (length input) - (Z.of_nat (length input) - 1 - 2 - n))) = Ok (o, m) /\
     (forall c, o = Some c -> (version c = 0 \/ version c = 1) /\ 3 <= m <= Z.of_nat (length input))).
  { intros obj Ho. rewrite Hn. eexists _, _. split; [done|]. intros c [= <-]. rewrite Ho. split; [done|lia]. }
  destruct (v =? 0); cbn [obind]; [by apply Hfin|].
  destruct (n <? _); cbn [obind]; [by eexists _, _|].
  destruct (negb _); cbn [obind]; [by eexists _, _|]. by apply Hfin.
Qed.

(** A version 1 payload, encoded and parsed with any bytes after it. *)
Lemma sendme_cell_roundtrip (obj : sendme_cell) (avail : Z) (rest : bytes) :
  version obj = 1 -> trunnel_error_code_ obj = false -> length (data_v1_digest obj) = 20%nat -> 23 <= avail ->
  exists p, sendme_cell_encode avail obj = Ok (23, p) /\ length p = 23%nat /\
    sendme_cell_parse (p ++ rest) =
      Ok (Some {| version := 1; data_len := 20; data_v1_digest := data_v1_digest obj;
                  trunnel_error_code_ := false |}, 23).
Proof.
  intros Hv He Hd Ha. exists (set_uint8 1 ++ set_uint16 20 ++ data_v1_digest obj). split; [|split].
  - unfold sendme_cell_encode, sendme_cell_check. rewrite He, Hv. cbn [Z.eqb Pos.eqb orb negb].
    unfold tor_assert, zlen, TRUNNEL_SENDME_V1_DIGEST_LEN. rewrite (proj2 (Z.leb_le _ _)) by lia.
    do 3 rewrite (proj2 (Z.ltb_ge _ _)) by lia. rewrite Hd. change (Z.of_nat 20 <? 20) with false. cbn iota. cbn [obind].
    rewrite take_ge by lia. by rewrite Hd.
  - unfold set_uint8, set_uint16. rewrite !length_app, !be_bytes_length. lia.
  - assert (Hl : zlen ((set_uint8 1 ++ set_uint16 20 ++ data_v1_digest obj) ++ rest) = 23 + zlen rest).
    { rewrite !zlen_app. unfold zlen at 3. rewrite Hd. unfold zlen, set_uint8, set_uint16. rewrite !be_bytes_length. lia. }
    pose proof (zlen_nonneg rest).
    unfold sendme_cell_parse, sendme_cell_parse_into. rewrite Hl. do 1 rewrite (proj2 (Z.ltb_ge _ _)) by lia.
    rewrite <- !app_assoc. unfold get_uint8, get_uint16, set_uint8, set_uint16.
    rewrite get_be_app by (simpl; lia). cbn [obind].
    change (negb ((1 =? 0) || (1 =? 1))) with false. cbn iota.
    rewrite (proj2 (Z.ltb_ge _ 2)) by lia.
    assert (D1 : forall l, drop 1 (be_bytes 1 1 ++ l) = l) by done. rewrite D1.
    rewrite get_be_app by (simpl; lia). cbn [obind]. rewrite (proj2 (Z.ltb_ge _ 20)) by lia.
    change (1 =? 0) with false. change (20 <? TRUNNEL_SENDME_V1_DIGEST_LEN) with false.
    change (negb (20 - TRUNNEL_SENDME_V1_DIGEST_LEN =? 0)) with false. cbn iota.
    assert (D3 : forall l, drop 3 (be_bytes 1 1 ++ be_bytes 2 20 ++ l) = l) by done. rewrite D3.
    change (Z.to_nat TRUNNEL_SENDME_V1_DIGEST_LEN) with 20%nat. rewrite take_app_length' by done. cbn [obind].
    rewrite (proj2 (Z.ltb_ge _ 0)) by lia. do 2 f_equal. lia.
Qed.
