(* ===== verification/RelayCrypto.v ===== *)
(** * Circuits and the cryptography of relay cells

    [core/crypto/relay_crypto.c], the [cpath_*] crypto functions of [core/or/crypt_path.c] and the
    recording functions of [core/or/sendme.c] they call. The stream cipher and the hash are
    those of the cryptographic library: parameters. A running digest is the
    list of the bytes it has absorbed. *)
From stdpp Require Import gmap.
From S2P Require Import Prelude ParseInt Endian Cells RelayCell.

Definition DIGEST_LEN : Z := 20.

Inductive cell_direction := CELL_DIRECTION_IN | CELL_DIRECTION_OUT.

Record relay_crypto {cipher : Type} := {
  f_crypto : cipher;
  b_crypto : cipher;
  f_digest : bytes;
  b_digest : bytes;
  sendme_digest : bytes
}.
Arguments relay_crypto : clear implicits.

(** A hop of the path of an origin circuit; [hop_open] is [state == CPATH_STATE_OPEN]. *)
Record hop {cipher : Type} := {
  hop_open : bool;
  hop_package_window : Z;
  hop_deliver_window : Z;
  pvt_crypto : relay_crypto cipher
}.
Arguments hop : clear implicits.

(** The flow control windows of a stream. *)
Record edge := { e_package_window : Z; e_deliver_window : Z }.

(** [CIRCUIT_IS_ORIGIN] and the casts: an origin circuit has a path, another one the crypto
    state it shares with the origin. *)
Inductive circ_kind {cipher : Type} :=
  | ORIGIN_CIRCUIT (cpath : list (hop cipher))
  | OR_CIRCUIT (crypto : relay_crypto cipher).
Arguments circ_kind : clear implicits.

Record circuit {cipher : Type} := {
  kind : circ_kind cipher;
  package_window : Z;
  deliver_window : Z;
  sendme_last_digests : option (list bytes);
  streams : gmap Z edge
}.
Arguments circuit : clear implicits.

Section relay_crypto.
Context {cipher : Type}.
(** [crypto_cipher_crypt_inplace]: the result and the advanced cipher. *)
Context (crypt : cipher -> bytes -> bytes * cipher).
(** What [crypto_digest_get_digest] gives for what has been absorbed. *)
Context (hash : bytes -> bytes).

Abbreviation relay_crypto := (relay_crypto cipher).
Abbreviation hop := (hop cipher).
Abbreviation circuit := (circuit cipher).

Definition CIRCUIT_IS_ORIGIN (c : circuit) : bool :=
  match kind c with ORIGIN_CIRCUIT _ => true | OR_CIRCUIT _ => false end.

Definition with_kind (c : circuit) (k : circ_kind cipher) : circuit :=
  {| kind := k; package_window := package_window c; deliver_window := deliver_window c;
     sendme_last_digests := sendme_last_digests c; streams := streams c |}.

(** [layer_hint->...] *)
Definition get_hop (c : circuit) (layer_hint : nat) : outcome hop :=
  match kind c with ORIGIN_CIRCUIT cpath => get (cpath !! layer_hint) | OR_CIRCUIT _ => Stuck end.

Definition set_hop (c : circuit) (layer_hint : nat) (h : hop) : outcome circuit :=
  match kind c with
  | ORIGIN_CIRCUIT cpath => Ok (with_kind c (ORIGIN_CIRCUIT (<[layer_hint := h]> cpath)))
  | OR_CIRCUIT _ => Stuck
  end.

(** [cpath ? cpath->pvt_crypto : TO_OR_CIRCUIT(circ)->crypto]. *)
Definition get_crypto (c : circuit) (cpath : option nat) : outcome relay_crypto :=
  match cpath with
  | Some i => let* h := get_hop c i in Ok (pvt_crypto h)
  | None => match kind c with OR_CIRCUIT crypto => Ok crypto | ORIGIN_CIRCUIT _ => Stuck end
  end.

Definition hop_with_crypto (h : hop) (cr : relay_crypto) : hop :=
  {| hop_open := hop_open h; hop_package_window := hop_package_window h;
     hop_deliver_window := hop_deliver_window h; pvt_crypto := cr |}.

Definition set_crypto (c : circuit) (cpath : option nat) (cr : relay_crypto) : outcome circuit :=
  match cpath with
  | Some i => let* h := get_hop c i in set_hop c i (hop_with_crypto h cr)
  | None => match kind c with
            | OR_CIRCUIT _ => Ok (with_kind c (OR_CIRCUIT cr))
            | ORIGIN_CIRCUIT _ => Stuck
            end
  end.

(** ** Digests *)

(** The digest and the payload with its integrity field set. *)
Definition relay_set_digest (digest : bytes) (payload : bytes) : outcome (bytes * bytes) :=
  let digest := digest ++ payload in
  let integrity := take 4 (hash digest) in
  let* rh := relay_header_unpack payload in
  let* p := relay_header_pack payload {| rh_command := rh_command rh; recognized := recognized rh;
              stream_id := stream_id rh; integrity := integrity; rh_length := rh_length rh |} in
  Ok (digest, p).

Definition relay_digest_matches (digest : bytes) (payload : bytes) : outcome (bool * bytes * bytes) :=
  let backup_digest := digest in
  let* rh := relay_header_unpack payload in
  let received_integrity := integrity rh in
  let rh := {| rh_command := rh_command rh; recognized := recognized rh; stream_id := stream_id rh;
               integrity := replicate 4 NUL; rh_length := rh_length rh |} in
  let* payload := relay_header_pack payload rh in
  let digest := digest ++ payload in
  let calculated_integrity := take 4 (hash digest) in
  if negb (bool_decide (calculated_integrity = received_integrity)) then
    let rh := {| rh_command := rh_command rh; recognized := recognized rh; stream_id := stream_id rh;
                 integrity := received_integrity; rh_length := rh_length rh |} in
    let* payload := relay_header_pack payload rh in
    Ok (false, backup_digest, payload)
  else Ok (true, digest, payload).

Definition relay_crypt_one_payload (c : cipher) (p : bytes) : bytes * cipher := crypt c p.

Definition relay_crypto_get_sendme_digest (crypto : relay_crypto) : bytes := sendme_digest crypto.

Definition relay_crypto_record_sendme_digest (crypto : relay_crypto) (is_foward_digest : bool) : relay_crypto :=
  {| f_crypto := f_crypto crypto; b_crypto := b_crypto crypto; f_digest := f_digest crypto;
     b_digest := b_digest crypto;
     sendme_digest := take (Z.to_nat DIGEST_LEN)
                        (hash (if is_foward_digest then f_digest crypto else b_digest crypto)) |}.

Definition with_f (cr : relay_crypto) (c : cipher) (d : bytes) : relay_crypto :=
  {| f_crypto := c; b_crypto := b_crypto cr; f_digest := d; b_digest := b_digest cr;
     sendme_digest := sendme_digest cr |}.
Definition with_b (cr : relay_crypto) (c : cipher) (d : bytes) : relay_crypto :=
  {| f_crypto := f_crypto cr; b_crypto := c; f_digest := f_digest cr; b_digest := d;
     sendme_digest := sendme_digest cr |}.

(** [cpath_crypt_cell]. *)
Definition cpath_crypt_cell (cpath : hop) (payload : bytes) (is_decrypt : bool) : hop * bytes :=
  let cr := pvt_crypto cpath in
  if is_decrypt then
    let '(p, c) := relay_crypt_one_payload (b_crypto cr) payload in
    (hop_with_crypto cpath (with_b cr c (b_digest cr)), p)
  else
    let '(p, c) := relay_crypt_one_payload (f_crypto cr) payload in
    (hop_with_crypto cpath (with_f cr c (f_digest cr)), p).

Definition cpath_get_sendme_digest (cpath : hop) : bytes := relay_crypto_get_sendme_digest (pvt_crypto cpath).

Definition cpath_sendme_record_cell_digest (cpath : hop) (is_foward_digest : bool) : hop :=
  hop_with_crypto cpath (relay_crypto_record_sendme_digest (pvt_crypto cpath) is_foward_digest).

Definition cpath_set_cell_forward_digest (cpath : hop) (payload : bytes) : outcome (hop * bytes) :=
  let cr := pvt_crypto cpath in
  let* (d, p) := relay_set_digest (f_digest cr) payload in
  Ok (hop_with_crypto cpath (with_f cr (f_crypto cr) d), p).

(** ** Recording digests for SENDMEs: [core/or/sendme.c] *)

Definition circuit_sendme_cell_is_next (window : Z) : bool :=
  if window =? CIRCWINDOW_START then false
  else if negb (Z.rem (window - 1) CIRCWINDOW_INCREMENT =? 0) then false
  else true.

(** [cpath ? cpath->package_window : circ->package_window], and the deliver window. *)
Definition the_package_window (c : circuit) (cpath : option nat) : outcome Z :=
  match cpath with Some i => let* h := get_hop c i in Ok (hop_package_window h) | None => Ok (package_window c) end.
Definition the_deliver_window (c : circuit) (cpath : option nat) : outcome Z :=
  match cpath with Some i => let* h := get_hop c i in Ok (hop_deliver_window h) | None => Ok (deliver_window c) end.

Definition record_digest (c : circuit) (cpath : option nat) (sending : bool) : outcome circuit :=
  match cpath with
  | Some i => let* h := get_hop c i in set_hop c i (cpath_sendme_record_cell_digest h sending)
  | None => let* cr := get_crypto c None in
            set_crypto c None (relay_crypto_record_sendme_digest cr (negb sending))
  end.

Definition sendme_record_sending_cell_digest (c : circuit) (cpath : option nat) : outcome circuit :=
  let* w := the_package_window c cpath in
  if negb (circuit_sendme_cell_is_next w) then Ok c else record_digest c cpath true.

Definition sendme_record_received_cell_digest (c : circuit) (cpath : option nat) : outcome circuit :=
  let* w := the_deliver_window c cpath in
  if negb (circuit_sendme_cell_is_next w) then Ok c else record_digest c cpath false.

(** ** Encryption and decryption of relay cells *)

(** The hops of the path, from the first, until one recognizes the cell. *)
Fixpoint decrypt_loop (cpath : list hop) (i : nat) (payload : bytes) : outcome (list hop * bytes * nat) :=
  match cpath with
  | [] => Err
  | thishop :: rest =>
      let '(thishop, payload) := cpath_crypt_cell thishop payload true in
      let* rh := relay_header_unpack payload in
      let* (ok, d, payload) := if recognized rh =? 0
                               then relay_digest_matches (b_digest (pvt_crypto thishop)) payload
                               else Ok (false, b_digest (pvt_crypto thishop), payload) in
      let cr := pvt_crypto thishop in
      let thishop := hop_with_crypto thishop (with_b cr (b_crypto cr) d) in
      if ok : bool then Ok (thishop :: rest, payload, i)
      else
        match rest with
        | [] => Err
        | next :: _ =>
            if hop_open next then
              let* (rest, payload, j) := decrypt_loop rest (S i) payload in Ok (thishop :: rest, payload, j)
            else Err
        end
  end.

(** The circuit, the payload, whether it is recognized and by which hop; [Err] is -1. *)
Definition relay_decrypt_cell (c : circuit) (payload : bytes) (dir : cell_direction)
    : outcome (circuit * bytes * bool * option nat) :=
  match dir, kind c with
  | CELL_DIRECTION_IN, ORIGIN_CIRCUIT cpath =>
      match cpath with
      | [] => Stuck
      | first :: _ =>
          if negb (hop_open first) then Err
          else let* (cpath, payload, i) := decrypt_loop cpath 0 payload in
               Ok (with_kind c (ORIGIN_CIRCUIT cpath), payload, true, Some i)
      end
  | CELL_DIRECTION_IN, OR_CIRCUIT crypto =>
      let '(payload, bc) := relay_crypt_one_payload (b_crypto crypto) payload in
      Ok (with_kind c (OR_CIRCUIT (with_b crypto bc (b_digest crypto))), payload, false, None)
  | CELL_DIRECTION_OUT, ORIGIN_CIRCUIT _ => Stuck
  | CELL_DIRECTION_OUT, OR_CIRCUIT crypto =>
      let '(payload, fc) := relay_crypt_one_payload (f_crypto crypto) payload in
      let crypto := with_f crypto fc (f_digest crypto) in
      let* rh := relay_header_unpack payload in
      let* (ok, d, payload) := if recognized rh =? 0 then relay_digest_matches (f_digest crypto) payload
                               else Ok (false, f_digest crypto, payload) in
      Ok (with_kind c (OR_CIRCUIT (with_f crypto fc d)), payload, ok, None)
  end.

(** From the farthest hop to the nearest. *)
Fixpoint encrypt_loop (c : circuit) (i : nat) (payload : bytes) : outcome (circuit * bytes) :=
  let* h := get_hop c i in
  let '(h, payload) := cpath_crypt_cell h payload false in
  let* c := set_hop c i h in
  match i with O => Ok (c, payload) | S i' => encrypt_loop c i' payload end.

Definition relay_encrypt_cell_outbound (c : circuit) (payload : bytes) (layer_hint : nat)
    : outcome (circuit * bytes) :=
  let* h := get_hop c layer_hint in
  let* (h, payload) := cpath_set_cell_forward_digest h payload in
  let* c := set_hop c layer_hint h in
  let* c := sendme_record_sending_cell_digest c (Some layer_hint) in
  encrypt_loop c layer_hint payload.

Definition relay_encrypt_cell_inbound (c : circuit) (payload : bytes) : outcome (circuit * bytes) :=
  let* crypto := get_crypto c None in
  let* (d, payload) := relay_set_digest (b_digest crypto) payload in
  let* c := set_crypto c None (with_b crypto (b_crypto crypto) d) in
  let* c := sendme_record_sending_cell_digest c None in
  let* crypto := get_crypto c None in
  let '(payload, bc) := relay_crypt_one_payload (b_crypto crypto) payload in
  let* c := set_crypto c None (with_b crypto bc (b_digest crypto)) in
  Ok (c, payload).
End relay_crypto.
