(* ===== verification/Onion.v ===== *)
(** * Onion routing: a cell reaches the hop it is meant for

    The layered encryption at the origin of a circuit and the single layers that the relays
    remove or add, for paths of any length. *)
From stdpp Require Import gmap.
From S2P Require Import Prelude ParseInt Endian Cells RelayCell RelayCrypto.

Section onion.
Context {cipher : Type} (crypt : cipher -> bytes -> bytes * cipher) (hash : bytes -> bytes).

(** The stream cipher: encryption and decryption are the same operation, it keeps the length,
    and the cipher advances by the length alone. *)
Hypothesis crypt_length : forall c p, length (fst (crypt c p)) = length p.
Hypothesis crypt_involutive : forall c p, fst (crypt c (fst (crypt c p))) = p.
Hypothesis crypt_advance : forall c p q, length p = length q -> snd (crypt c p) = snd (crypt c q).
(** The hash has at least the four bytes of the integrity field. *)
Hypothesis hash_length : forall s, (4 <= length (hash s))%nat.

Abbreviation relay_crypto := (relay_crypto cipher).
Abbreviation hop := (hop cipher).
Abbreviation circuit := (circuit cipher).

(** ** Sealing and recognizing a payload *)

(** A payload as it is built: recognized and integrity fields are zero. *)
Definition clear (p : bytes) : Prop :=
  zlen p = CELL_PAYLOAD_SIZE /\
  exists rh, relay_header_unpack p = Ok rh /\ header_ok rh /\ recognized rh = 0 /\ integrity rh = replicate 4 NUL.

Definition with_integrity (rh : relay_header) (i : bytes) : relay_header :=
  {| rh_command := rh_command rh; recognized := recognized rh; stream_id := stream_id rh;
     integrity := i; rh_length := rh_length rh |}.

(** The payload [p] with the integrity field for a digest that has absorbed [d]. *)
Definition seal (d p : bytes) : bytes :=
  match relay_header_unpack p with
  | Ok rh => header_bytes (with_integrity rh (take 4 (hash (d ++ p)))) ++ drop 11 p
  | _ => p
  end.

(** Whether a hop whose digest has absorbed [d] takes the payload for its own. *)
Definition recognizes (d x : bytes) : bool :=
  match relay_header_unpack x with
  | Ok rh => (recognized rh =? 0) &&
             bool_decide (take 4 (hash (d ++ header_bytes (with_integrity rh (replicate 4 NUL)) ++ drop 11 x))
                          = integrity rh)
  | _ => false
  end.

Lemma take4_hash (s : bytes) : zlen (take 4 (hash s)) = 4.
Proof. pose proof (hash_length s). unfold zlen. rewrite length_take. lia. Qed.

Lemma header_ok_with (rh : relay_header) (i : bytes) : header_ok rh -> zlen i = 4 -> header_ok (with_integrity rh i).
Proof. intros (? & ? & ? & _ & ?) Hi. repeat split; cbn; (done || lia). Qed.

Lemma split_payload (x : bytes) : zlen x = CELL_PAYLOAD_SIZE ->
  exists rh, header_ok rh /\ relay_header_unpack x = Ok rh /\ x = header_bytes rh ++ drop 11 x.
Proof. intros Hx. apply header_split. rewrite Hx. vm_compute. discriminate. Qed.

Lemma set_digest_ok (d p : bytes) : clear p -> relay_set_digest hash d p = Ok (d ++ p, seal d p).
Proof.
  intros (Hl & rh & Hu & Hok & Hr & Hi). unfold relay_set_digest, seal. rewrite Hu. cbn [obind].
  rewrite header_pack_eq; [done|apply take4_hash|rewrite Hl; vm_compute; discriminate].
Qed.

Lemma seal_length (d p : bytes) : clear p -> zlen (seal d p) = CELL_PAYLOAD_SIZE.
Proof.
  intros (Hl & rh & Hu & Hok & Hr & Hi). unfold seal. rewrite Hu. unfold zlen, CELL_PAYLOAD_SIZE in *.
  rewrite length_app, header_bytes_length, length_drop by apply take4_hash. lia.
Qed.

(** Matching a payload: what is recognized is cleared and absorbed, anything else is left. *)
Lemma digest_matches_ok (d x : bytes) (rh : relay_header) : zlen x = CELL_PAYLOAD_SIZE ->
  relay_header_unpack x = Ok rh -> recognized rh = 0 ->
  relay_digest_matches hash d x =
    if recognizes d x
    then Ok (true, d ++ header_bytes (with_integrity rh (replicate 4 NUL)) ++ drop 11 x,
             header_bytes (with_integrity rh (replicate 4 NUL)) ++ drop 11 x)
    else Ok (false, d, x).
Proof.
  intros Hl Hu Hr. destruct (split_payload x Hl) as (rh' & Hok & Hu' & Ex). rewrite Hu in Hu'. injection Hu' as <-.
  pose proof Hok as (_ & _ & _ & Hil & _).
  unfold relay_digest_matches, recognizes. rewrite Hu, Hr. cbn [obind Z.eqb andb].
  fold (with_integrity rh (replicate 4 NUL)).
  rewrite header_pack_eq by (done || (rewrite Hl; vm_compute; discriminate)). cbn [obind].
  destruct (bool_decide _); cbn [negb]; [done|].
  fold (with_integrity (with_integrity rh (replicate 4 NUL)) (integrity rh)).
  assert (Hlen : zlen (header_bytes (with_integrity rh (replicate 4 NUL)) ++ drop 11 x) = CELL_PAYLOAD_SIZE).
  { unfold zlen, CELL_PAYLOAD_SIZE in *. rewrite length_app, header_bytes_length, length_drop by done. lia. }
  rewrite header_pack_eq by (done || (rewrite Hlen; vm_compute; discriminate)). cbn [obind].
  rewrite drop_app_length' by (rewrite header_bytes_length by done; done).
  assert (with_integrity (with_integrity rh (replicate 4 NUL)) (integrity rh) = rh) as -> by (by destruct rh).
  by rewrite <- Ex.
Qed.

(** The payload comes back from its seal. *)
Lemma seal_recognized (d p : bytes) : clear p ->
  exists rh, relay_header_unpack (seal d p) = Ok rh /\ recognized rh = 0 /\ recognizes d (seal d p) = true /\
    header_bytes (with_integrity rh (replicate 4 NUL)) ++ drop 11 (seal d p) = p.
Proof.
  intros (Hl & rh & Hu & Hok & Hr & Hi). destruct (split_payload p Hl) as (rh' & _ & Hu' & Ep).
  rewrite Hu in Hu'. injection Hu' as <-. set (i := take 4 (hash (d ++ p))).
  assert (Es : seal d p = header_bytes (with_integrity rh i) ++ drop 11 p) by (unfold seal; by rewrite Hu).
  pose proof (header_ok_with rh i Hok (take4_hash _)) as Hok'.
  assert (Hd : drop 11 (seal d p) = drop 11 p).
  { rewrite Es. by rewrite drop_app_length' by (rewrite header_bytes_length by apply take4_hash; done). }
  assert (Hback : header_bytes (with_integrity (with_integrity rh i) (replicate 4 NUL)) ++ drop 11 (seal d p) = p).
  { rewrite Hd. rewrite Ep at 2. f_equal. destruct rh. cbn in *. by subst. }
  assert (Hun : relay_header_unpack (seal d p) = Ok (with_integrity rh i)) by (rewrite Es; by apply header_unpack_bytes).
  exists (with_integrity rh i). split; [done|]. split; [done|]. split; [|done].
  unfold recognizes. rewrite Hun, Hback.
  cbn [recognized with_integrity]. rewrite Hr. by apply bool_decide_true.
Qed.

(** ** The shared state *)

(** What a hop of the path and the relay there have in common. *)
Definition core (cr : relay_crypto) : cipher * cipher * bytes * bytes :=
  (f_crypto cr, b_crypto cr, f_digest cr, b_digest cr).
Definition hop_core (h : hop) : cipher * cipher * bytes * bytes := core (pvt_crypto h).
Definition relay_core (c : circuit) (k : cipher * cipher * bytes * bytes) : Prop :=
  exists cr, kind c = OR_CIRCUIT cr /\ core cr = k.

Definition path (c : circuit) : list hop := match kind c with ORIGIN_CIRCUIT cpath => cpath | OR_CIRCUIT _ => [] end.

Definition adv (c : cipher) : cipher := snd (crypt c (replicate 509 NUL)).

Lemma snd_crypt (c : cipher) (p : bytes) : zlen p = CELL_PAYLOAD_SIZE -> snd (crypt c p) = adv c.
Proof.
  intros Hp. unfold adv. apply crypt_advance. rewrite length_replicate. unfold zlen, CELL_PAYLOAD_SIZE in Hp. lia.
Qed.

Lemma fst_crypt_length (c : cipher) (p : bytes) : zlen p = CELL_PAYLOAD_SIZE ->
  zlen (fst (crypt c p)) = CELL_PAYLOAD_SIZE.
Proof. intros Hp. unfold zlen in *. by rewrite crypt_length. Qed.

(** The layers of a cell, the nearest hop's outermost. *)
Definition onion (cs : list cipher) (p : bytes) : bytes := foldr (fun c p => fst (crypt c p)) p cs.

Lemma onion_length (cs : list cipher) (p : bytes) : zlen p = CELL_PAYLOAD_SIZE ->
  zlen (onion cs p) = CELL_PAYLOAD_SIZE.
Proof. intros Hp. induction cs; cbn; [done|]. by apply fst_crypt_length. Qed.

(** How the shared state moves when a cell [p] goes out to, or comes in from, hop [k]. *)
Fixpoint out_step (k : nat) (p : bytes) (l : list (cipher * cipher * bytes * bytes)) :=
  match l with
  | [] => []
  | (f, b, fd, bd) :: t =>
      match k with
      | O => (adv f, b, fd ++ p, bd) :: t
      | S k' => (adv f, b, fd, bd) :: out_step k' p t
      end
  end.
Fixpoint in_step (k : nat) (p : bytes) (l : list (cipher * cipher * bytes * bytes)) :=
  match l with
  | [] => []
  | (f, b, fd, bd) :: t =>
      match k with
      | O => (f, adv b, fd, bd ++ p) :: t
      | S k' => (f, adv b, fd, bd) :: in_step k' p t
      end
  end.

Definition fwd (k : cipher * cipher * bytes * bytes) : cipher := fst (fst (fst k)).
Definition bwd (k : cipher * cipher * bytes * bytes) : cipher := snd (fst (fst k)).
Definition fdig (k : cipher * cipher * bytes * bytes) : bytes := snd (fst k).
Definition bdig (k : cipher * cipher * bytes * bytes) : bytes := snd k.

(** The relays along a circuit: each takes off its layer, and passes on what it does not
    recognize; where the cell stops, and the payload it has there. *)
Fixpoint route_out (relays : list circuit) (p : bytes) : outcome (list circuit * nat * bytes) :=
  match relays with
  | [] => Err
  | r :: rest =>
      let* (r, p, ok, _) := relay_decrypt_cell crypt hash r p CELL_DIRECTION_OUT in
      if ok : bool then Ok (r :: rest, O, p)
      else let* (rest, k, p) := route_out rest p in Ok (r :: rest, S k, p)
  end.

(** Towards the origin: relay [k] sends, the ones before it add a layer each. *)
Fixpoint route_in (relays : list circuit) (k : nat) (p : bytes) : outcome (list circuit * bytes) :=
  match relays with
  | [] => Err
  | r :: rest =>
      match k with
      | O => let* (r, p) := relay_encrypt_cell_inbound crypt hash r p in Ok (r :: rest, p)
      | S k' =>
          let* (rest, p) := route_in rest k' p in
          let* (r, p, ok, _) := relay_decrypt_cell crypt hash r p CELL_DIRECTION_IN in
          if ok : bool then Err else Ok (r :: rest, p)
      end
  end.

(** No hop before [k] takes the cell on its way for its own: each would need its recognized field
    to decrypt to zero and the four bytes of its digest to match. [dir] selects the ciphers
    and digests of one direction. *)
Definition no_accident (ciph : cipher * cipher * bytes * bytes -> cipher)
    (dig : cipher * cipher * bytes * bytes -> bytes)
    (cores : list (cipher * cipher * bytes * bytes)) (k : nat) (x : bytes) : Prop :=
  forall j core, (j < k)%nat -> cores !! j = Some core ->
    recognizes (dig core) (onion (drop (S j) (map ciph (take (S k) cores))) x) = false.

Lemma no_accident_tail ciph dig core cores k x :
  no_accident ciph dig (core :: cores) (S k) x -> no_accident ciph dig cores k x.
Proof. intros H j c Hj Hc. apply (H (S j) c); [lia|done]. Qed.

(** A relay that removes its layer from what it does not recognize. *)
Lemma relay_out_step (r : circuit) (core : cipher * cipher * bytes * bytes) (y : bytes) :
  relay_core r core -> zlen y = CELL_PAYLOAD_SIZE ->
  if recognizes (fdig core) y
  then forall d p, d = fdig core -> clear p -> y = seal d p ->
    exists r', relay_decrypt_cell crypt hash r (fst (crypt (fwd core) y)) CELL_DIRECTION_OUT = Ok (r', p, true, None) /\
      relay_core r' (adv (fwd core), bwd core, fdig core ++ p, bdig core)
  else exists r', relay_decrypt_cell crypt hash r (fst (crypt (fwd core) y)) CELL_DIRECTION_OUT = Ok (r', y, false, None) /\
      relay_core r' (adv (fwd core), bwd core, fdig core, bdig core).
Proof.
  intros (cr & Hk & <-) Hy. unfold relay_decrypt_cell. rewrite Hk. unfold relay_crypt_one_payload.
  cbn [core fwd bwd fdig bdig fst snd].
  destruct (crypt (f_crypto cr) (fst (crypt (f_crypto cr) y))) as [q fc] eqn:Eq.
  pose proof (crypt_involutive (f_crypto cr) y) as Hinv. rewrite Eq in Hinv. cbn in Hinv. subst q.
  assert (fc = adv (f_crypto cr)) as ->.
  { rewrite <- (snd_crypt (f_crypto cr) (fst (crypt (f_crypto cr) y))) by by apply fst_crypt_length. by rewrite Eq. }
  destruct (split_payload y Hy) as (rh & Hok & Hu & Ey). rewrite Hu. cbn [obind].
  destruct (recognizes (f_digest cr) y) eqn:Hrec.
  - intros d p -> Hp ->. destruct (seal_recognized (f_digest cr) p Hp) as (rh' & Hu' & Hr0 & _ & Hback).
    rewrite Hu in Hu'. injection Hu' as <-. rewrite Hr0. cbn [Z.eqb with_f f_digest].
    rewrite (digest_matches_ok _ _ rh Hy Hu Hr0), Hrec, Hback. cbn [obind].
    eexists. split; [done|]. by eexists.
  - destruct (Z.eqb_spec (recognized rh) 0) as [Hr0|Hr0]; cbn [with_f f_digest].
    + rewrite (digest_matches_ok _ _ rh Hy Hu Hr0), Hrec. cbn [obind]. eexists. split; [done|]. by eexists.
    + cbn [obind]. eexists. split; [done|]. by eexists.
Qed.

Lemma route_out_ok (cores : list (cipher * cipher * bytes * bytes)) : forall relays k p core,
  Forall2 relay_core relays cores -> cores !! k = Some core -> clear p ->
  no_accident fwd fdig cores k (seal (fdig core) p) ->
  exists relays', route_out relays (onion (map fwd (take (S k) cores)) (seal (fdig core) p)) = Ok (relays', k, p) /\
    Forall2 relay_core relays' (out_step k p cores).
Proof.
  induction cores as [|c0 cores IH]; intros relays k p core Hr Hk Hp Hno; [done|].
  apply Forall2_cons_inv_r in Hr as (r & relays' & Hr & Hrest & ->). cbn [take map onion foldr route_out].
  pose proof (seal_length (fdig core) p Hp) as Hsl.
  destruct k as [|k].
  - injection Hk as ->. rewrite take_0. cbn [map foldr].
    destruct (seal_recognized (fdig core) p Hp) as (rh & _ & _ & Hrec & _).
    pose proof (relay_out_step r core (seal (fdig core) p) Hr Hsl) as H. rewrite Hrec in H.
    destruct (H _ p eq_refl Hp eq_refl) as (r' & -> & Hr'). cbn [obind].
    eexists. split; [done|]. destruct core as [[[f b] fd] bd]. cbn in *. by constructor.
  - cbn [lookup list_lookup] in Hk. fold (onion (map fwd (take (S k) cores)) (seal (fdig core) p)).
    set (y := onion (map fwd (take (S k) cores)) (seal (fdig core) p)).
    assert (Hy : zlen y = CELL_PAYLOAD_SIZE) by (by apply onion_length).
    assert (Hrec : recognizes (fdig c0) y = false).
    { apply (Hno 0%nat c0); [lia|done]. }
    pose proof (relay_out_step r c0 y Hr Hy) as H. rewrite Hrec in H. destruct H as (r' & -> & Hr'). cbn [obind].
    destruct (IH relays' k p core Hrest Hk Hp) as (rs & Hro & Hrs); [by eapply no_accident_tail|].
    fold y in Hro. rewrite Hro. cbn [obind]. eexists. split; [done|].
    destruct c0 as [[[f b] fd] bd]. cbn in *. by constructor.
Qed.

(** ** The origin's side *)

Definition hop_meta (h : hop) : bool * Z * Z := (hop_open h, hop_package_window h, hop_deliver_window h).

Definition adv_hop (h : hop) : hop :=
  hop_with_crypto h (with_f (pvt_crypto h) (adv (f_crypto (pvt_crypto h))) (f_digest (pvt_crypto h))).

Lemma encrypt_loop_ok (i : nat) : forall c cpath p, kind c = ORIGIN_CIRCUIT cpath -> (i < length cpath)%nat ->
  zlen p = CELL_PAYLOAD_SIZE ->
  encrypt_loop crypt c i p =
    Ok (with_kind c (ORIGIN_CIRCUIT (map adv_hop (take (S i) cpath) ++ drop (S i) cpath)),
        onion (map fwd (take (S i) (map hop_core cpath))) p).
Proof.
  induction i as [|i IH]; intros c cpath p Hc Hi Hp.
  all: destruct (lookup_lt_is_Some_2 cpath _ Hi) as [h Hh]; cbn [encrypt_loop];
    unfold get_hop; rewrite Hc, Hh; cbn [get obind]; unfold cpath_crypt_cell, relay_crypt_one_payload;
    destruct (crypt (f_crypto (pvt_crypto h)) p) as [q fc] eqn:Eq;
    assert (Hfc : fc = adv (f_crypto (pvt_crypto h))) by (by rewrite <- (snd_crypt _ p Hp), Eq);
    assert (Hq : q = fst (crypt (f_crypto (pvt_crypto h)) p)) by (by rewrite Eq);
    unfold set_hop; rewrite Hc; cbn [obind]; rewrite Hfc; fold (adv_hop h).
  - destruct cpath as [|h0 t]; [done|]. injection Hh as ->. cbn. by rewrite Hq.
  - assert (Hq' : zlen q = CELL_PAYLOAD_SIZE) by (rewrite Hq; by apply fst_crypt_length).
    rewrite (IH _ (<[S i := adv_hop h]> cpath) q) by (done || (rewrite length_insert; lia)).
    do 2 f_equal.
    + unfold with_kind. cbn. f_equal. f_equal.
      rewrite take_insert_ge by lia. rewrite (take_S_r cpath (S i) h) by done. rewrite map_app, <- app_assoc. f_equal.
      rewrite drop_insert_ge by lia. replace (S i - S i)%nat with 0%nat by lia.
      rewrite (drop_S cpath h (S i)) by done. done.
    + assert (Ht : take (S i) (map hop_core (<[S i := adv_hop h]> cpath)) = take (S i) (map hop_core cpath)).
      { rewrite !firstn_map. f_equal. by apply take_insert_ge. }
      rewrite Ht, (take_S_r (map hop_core cpath) (S i) (hop_core h)) by (by rewrite list_lookup_fmap, Hh).
      rewrite map_app. unfold onion. rewrite foldr_app. cbn. by rewrite Hq.
Qed.

(** Recording a digest for a SENDME touches nothing else. *)
Lemma record_sending_ok (c : circuit) (cpath : list hop) (k : nat) (h : hop) :
  kind c = ORIGIN_CIRCUIT cpath -> cpath !! k = Some h ->
  exists h', sendme_record_sending_cell_digest hash c (Some k)
             = Ok (with_kind c (ORIGIN_CIRCUIT (<[k := h']> cpath))) /\
    hop_core h' = hop_core h /\ hop_meta h' = hop_meta h.
Proof.
  intros Hc Hh. unfold sendme_record_sending_cell_digest, the_package_window, record_digest, get_hop, set_hop.
  rewrite Hc, Hh. cbn [get obind]. destruct (negb _).
  - exists h. split; [|done]. rewrite list_insert_id by done. rewrite <- Hc. by destruct c.
  - eexists. split; [done|]. done.
Qed.

Lemma out_step_insert (cores : list (cipher * cipher * bytes * bytes)) (p : bytes) : forall k core, cores !! k = Some core ->
  out_step k p cores = map (fun c => (adv (fwd c), bwd c, fdig c, bdig c)) (take k cores)
    ++ (adv (fwd core), bwd core, fdig core ++ p, bdig core) :: drop (S k) cores.
Proof.
  induction cores as [|[[[f b] fd] bd] cores IH]; intros k core Hk; [done|]. destruct k as [|k].
  - by injection Hk as <-.
  - cbn. f_equal. by apply IH.
Qed.

Lemma origin_out_ok (c : circuit) (cpath : list hop) (k : nat) (h : hop) (p : bytes) :
  kind c = ORIGIN_CIRCUIT cpath -> cpath !! k = Some h -> clear p ->
  exists cpath', relay_encrypt_cell_outbound crypt hash c p k
      = Ok (with_kind c (ORIGIN_CIRCUIT cpath'),
            onion (map fwd (take (S k) (map hop_core cpath))) (seal (f_digest (pvt_crypto h)) p)) /\
    map hop_core cpath' = out_step k p (map hop_core cpath) /\ map hop_meta cpath' = map hop_meta cpath.
Proof.
  intros Hc Hh Hp. pose proof (lookup_lt_Some _ _ _ Hh) as Hlt.
  unfold relay_encrypt_cell_outbound, get_hop. rewrite Hc, Hh. cbn [get obind].
  unfold cpath_set_cell_forward_digest. rewrite set_digest_ok by done. cbn [obind].
  set (d := f_digest (pvt_crypto h)). set (h1 := hop_with_crypto h (with_f (pvt_crypto h) (f_crypto (pvt_crypto h)) (d ++ p))).
  unfold set_hop. rewrite Hc. cbn [obind].
  destruct (record_sending_ok (with_kind c (ORIGIN_CIRCUIT (<[k := h1]> cpath))) (<[k := h1]> cpath) k h1)
    as (h2 & -> & Hcore & Hmeta); [done|by apply list_lookup_insert_eq|]. cbn [obind].
  rewrite list_insert_insert_eq.
  rewrite (encrypt_loop_ok k _ (<[k := h2]> cpath)) by (done || (by rewrite length_insert) || by apply seal_length).
  assert (Ht : take (S k) (<[k := h2]> cpath) = take k cpath ++ [h2]).
  { rewrite (take_S_r _ k h2) by (by apply list_lookup_insert_eq). by rewrite take_insert_ge by lia. }
  assert (Hd : drop (S k) (<[k := h2]> cpath) = drop (S k) cpath) by (apply drop_insert_lt; lia).
  eexists. split; [|split].
  - unfold with_kind. cbn. do 2 f_equal.
    rewrite !firstn_map, Ht, (take_S_r cpath k h Hh), !map_app. cbn [map].
    change (fwd (hop_core h2)) with (f_crypto (pvt_crypto h2)). change (fwd (hop_core h)) with (f_crypto (pvt_crypto h)).
    unfold hop_core, core in Hcore. by injection Hcore as -> _ _ _.
  - rewrite Ht, Hd, (out_step_insert _ p k (hop_core h)) by (by rewrite list_lookup_fmap, Hh).
    rewrite !map_app, <- app_assoc, !map_map, !firstn_map, map_map, skipn_map. f_equal. cbn [map app]. f_equal.
    unfold hop_core, core, adv_hop. cbn. unfold hop_core, core in Hcore. injection Hcore as E1 E2 E3 E4.
    by rewrite E1, E2, E3, E4.
  - rewrite Ht, Hd, !map_app, !map_map, <- app_assoc. cbn [map app].
    change (hop_meta (adv_hop h2)) with (hop_meta h2). rewrite Hmeta. change (hop_meta h1) with (hop_meta h).
    rewrite <- (take_drop_middle cpath k h Hh) at 3. by rewrite map_app.
Qed.

(** ** Towards the origin *)

Lemma record_sending_or_ok (r : circuit) (cr : relay_crypto) : kind r = OR_CIRCUIT cr ->
  exists sd, sendme_record_sending_cell_digest hash r None = Ok (with_kind r (OR_CIRCUIT
    {| f_crypto := f_crypto cr; b_crypto := b_crypto cr; f_digest := f_digest cr; b_digest := b_digest cr;
       sendme_digest := sd |})).
Proof.
  intros Hk. unfold sendme_record_sending_cell_digest, the_package_window, record_digest, get_crypto, set_crypto.
  cbn [obind]. destruct (negb _).
  - exists (sendme_digest cr). assert ({| f_crypto := f_crypto cr; b_crypto := b_crypto cr; f_digest := f_digest cr;
      b_digest := b_digest cr; sendme_digest := sendme_digest cr |} = cr) as -> by (by destruct cr).
    rewrite <- Hk. by destruct r.
  - rewrite Hk. cbn [obind]. by eexists.
Qed.

(** The relay that sends a cell to the origin. *)
Lemma relay_send_ok (r : circuit) (core : cipher * cipher * bytes * bytes) (p : bytes) :
  relay_core r core -> clear p ->
  exists r', relay_encrypt_cell_inbound crypt hash r p = Ok (r', fst (crypt (bwd core) (seal (bdig core) p))) /\
    relay_core r' (fwd core, adv (bwd core), fdig core, bdig core ++ p).
Proof.
  intros (cr & Hk & <-) Hp. unfold relay_encrypt_cell_inbound, get_crypto at 1. rewrite Hk. cbn [obind].
  rewrite set_digest_ok by done. cbn [obind]. unfold set_crypto at 1. rewrite Hk. cbn [obind].
  destruct (record_sending_or_ok (with_kind r (OR_CIRCUIT (with_b cr (b_crypto cr) (b_digest cr ++ p))))
    (with_b cr (b_crypto cr) (b_digest cr ++ p))) as (sd & ->); [done|]. cbn [obind get_crypto kind with_kind].
  unfold relay_crypt_one_payload. cbn [b_crypto with_b bwd core bdig fst snd fdig fwd].
  destruct (crypt (b_crypto cr) (seal (b_digest cr) p)) as [q bc] eqn:Eq. cbn [set_crypto kind obind].
  eexists. split; [done|]. eexists. split; [done|]. unfold core, with_b. cbn.
  rewrite <- (snd_crypt (b_crypto cr) (seal (b_digest cr) p)) by by apply seal_length. by rewrite Eq.
Qed.

(** A relay on the way adds its layer. *)
Lemma relay_in_step (r : circuit) (core : cipher * cipher * bytes * bytes) (y : bytes) :
  relay_core r core -> zlen y = CELL_PAYLOAD_SIZE ->
  exists r', relay_decrypt_cell crypt hash r y CELL_DIRECTION_IN = Ok (r', fst (crypt (bwd core) y), false, None) /\
    relay_core r' (fwd core, adv (bwd core), fdig core, bdig core).
Proof.
  intros (cr & Hk & <-) Hy. unfold relay_decrypt_cell. rewrite Hk. unfold relay_crypt_one_payload. cbn [bwd core fst snd].
  destruct (crypt (b_crypto cr) y) as [q bc] eqn:Eq. eexists. split; [done|]. eexists. split; [done|].
  unfold core, with_b. cbn. rewrite <- (snd_crypt (b_crypto cr) y) by done. by rewrite Eq.
Qed.

Lemma route_in_ok (cores : list (cipher * cipher * bytes * bytes)) : forall relays k p core,
  Forall2 relay_core relays cores -> cores !! k = Some core -> clear p ->
  exists relays', route_in relays k p = Ok (relays', onion (map bwd (take (S k) cores)) (seal (bdig core) p)) /\
    Forall2 relay_core relays' (in_step k p cores).
Proof.
  induction cores as [|c0 cores IH]; intros relays k p core Hr Hk Hp; [done|].
  apply Forall2_cons_inv_r in Hr as (r & relays' & Hr & Hrest & ->). cbn [route_in].
  destruct k as [|k].
  - injection Hk as ->. destruct (relay_send_ok r core p Hr Hp) as (r' & -> & Hr'). cbn [obind].
    eexists. split; [done|]. destruct core as [[[f b] fd] bd]. cbn in *. by constructor.
  - destruct (IH relays' k p core Hrest Hk Hp) as (rs & -> & Hrs). cbn [obind].
    destruct (relay_in_step r c0 (onion (map bwd (take (S k) cores)) (seal (bdig core) p)) Hr) as (r' & -> & Hr').
    { by apply onion_length, seal_length. }
    cbn [obind]. eexists. split; [done|]. destruct c0 as [[[f b] fd] bd]. cbn in *. by constructor.
Qed.

Lemma decrypt_loop_ok (cpath : list hop) : forall k i p h,
  cpath !! k = Some h -> Forall (fun h => hop_open h = true) (take (S k) cpath) -> clear p ->
  no_accident bwd bdig (map hop_core cpath) k (seal (b_digest (pvt_crypto h)) p) ->
  exists cpath', decrypt_loop crypt hash cpath i
      (onion (map bwd (take (S k) (map hop_core cpath))) (seal (b_digest (pvt_crypto h)) p))
    = Ok (cpath', p, (i + k)%nat) /\
    map hop_core cpath' = in_step k p (map hop_core cpath) /\ map hop_meta cpath' = map hop_meta cpath.
Proof.
  induction cpath as [|h0 cpath IH]; intros k i p h Hk Hop Hp Hno; [done|].
  set (s := seal (b_digest (pvt_crypto h)) p) in *.
  assert (Hsl : zlen s = CELL_PAYLOAD_SIZE) by (by apply seal_length).
  cbn [map take onion foldr decrypt_loop]. unfold cpath_crypt_cell, relay_crypt_one_payload.
  set (y := foldr (fun c p => fst (crypt c p)) s (map bwd (take k (map hop_core cpath)))).
  assert (Hy : zlen y = CELL_PAYLOAD_SIZE) by (by apply onion_length).
  change (bwd (hop_core h0)) with (b_crypto (pvt_crypto h0)).
  destruct (crypt (b_crypto (pvt_crypto h0)) (fst (crypt (b_crypto (pvt_crypto h0)) y))) as [q bc] eqn:Eq.
  pose proof (crypt_involutive (b_crypto (pvt_crypto h0)) y) as Hinv. rewrite Eq in Hinv. cbn in Hinv. subst q.
  assert (bc = adv (b_crypto (pvt_crypto h0))) as ->.
  { rewrite <- (snd_crypt (b_crypto (pvt_crypto h0)) (fst (crypt (b_crypto (pvt_crypto h0)) y)))
      by by apply fst_crypt_length. by rewrite Eq. }
  destruct (split_payload y Hy) as (rh & Hok & Hu & Ey). rewrite Hu. cbn [obind hop_with_crypto pvt_crypto with_b b_digest].
  destruct k as [|k].
  - injection Hk as ->. subst y. rewrite take_0 in *. cbn [map foldr] in *.
    destruct (seal_recognized (b_digest (pvt_crypto h)) p Hp) as (rh' & Hu' & Hr0 & Hrec & Hback).
    fold s in Hu', Hrec, Hback. rewrite Hu in Hu'. injection Hu' as <-. rewrite Hr0. cbn [Z.eqb].
    rewrite (digest_matches_ok _ _ rh Hsl Hu Hr0), Hrec, Hback. cbn [obind].
    rewrite Nat.add_0_r. eexists. split; [done|]. done.
  - assert (Hrec : recognizes (b_digest (pvt_crypto h0)) y = false).
    { pose proof (Hno 0%nat (hop_core h0) ltac:(lia) eq_refl) as H. exact H. }
    assert (Hd : (if recognized rh =? 0 then relay_digest_matches hash (b_digest (pvt_crypto h0)) y
                  else Ok (false, b_digest (pvt_crypto h0), y)) = Ok (false, b_digest (pvt_crypto h0), y)).
    { destruct (Z.eqb_spec (recognized rh) 0) as [Hr0|]; [|done].
      by rewrite (digest_matches_ok _ _ rh Hy Hu Hr0), Hrec. }
    rewrite Hd. cbn [obind]. cbn [lookup list_lookup] in Hk.
    destruct cpath as [|h1 cpath]; [done|]. cbn [take] in Hop.
    apply Forall_cons in Hop as [_ Hop]. pose proof Hop as Hop'. apply Forall_cons in Hop' as [Hh1 _]. rewrite Hh1.
    destruct (IH k (S i) p h Hk Hop Hp) as (cpath' & Hdl & Hcore & Hmeta).
    { by eapply (no_accident_tail bwd bdig (hop_core h0)). }
    fold s in Hdl. change y with (onion (map bwd (take (S k) (map hop_core (h1 :: cpath)))) s).
    rewrite Hdl. cbn [obind]. eexists. split; [do 2 f_equal; lia|].
    split; [change (map hop_core (h0 :: h1 :: cpath)) with (hop_core h0 :: map hop_core (h1 :: cpath));
      cbn [in_step]; by rewrite <- Hcore|].
    change (map hop_meta (h0 :: h1 :: cpath)) with (hop_meta h0 :: map hop_meta (h1 :: cpath)). by rewrite <- Hmeta.
Qed.

(** ** Property *)

(** The origin and the relays of its path agree on ciphers and digests. *)
Definition in_sync (c : circuit) (relays : list circuit) : Prop :=
  Forall2 relay_core relays (map hop_core (path c)).

(** C36: onion routing delivers. On a circuit of any length whose relays are in sync with the
    origin, a cell that the origin encrypts for hop [k] is passed on by every relay before [k],
    recognized by relay [k], and shows it exactly the payload that was sent; a cell that
    relay [k] sends back is recognized by the origin as coming from hop [k], again with exactly
    the payload sent. Afterwards origin and relays are in sync again, so the same holds for the
    next cell, and the windows of the hops are untouched. The one assumption on a cell is that
    none of the hops before [k] accepts it by accident (a zero field and a matching four-byte digest
    in what looks random to it). *)
Theorem onion_delivers (c : circuit) (relays : list circuit) (k : nat) (h : hop) (p : bytes) :
  path c !! k = Some h -> in_sync c relays -> clear p ->
  (no_accident fwd fdig (map hop_core (path c)) k (seal (f_digest (pvt_crypto h)) p) ->
   exists c' e relays', relay_encrypt_cell_outbound crypt hash c p k = Ok (c', e) /\
     route_out relays e = Ok (relays', k, p) /\ in_sync c' relays' /\
     map hop_meta (path c') = map hop_meta (path c)) /\
  (Forall (fun h => hop_open h = true) (take (S k) (path c)) ->
   no_accident bwd bdig (map hop_core (path c)) k (seal (b_digest (pvt_crypto h)) p) ->
   exists relays' e c', route_in relays k p = Ok (relays', e) /\
     relay_decrypt_cell crypt hash c e CELL_DIRECTION_IN = Ok (c', p, true, Some k) /\ in_sync c' relays' /\
     map hop_meta (path c') = map hop_meta (path c)).
Proof.
  intros Hh Hsync Hp. unfold in_sync, path in *. destruct (kind c) as [cpath|cr] eqn:Hc; [|done].
  assert (Hcore : map hop_core cpath !! k = Some (hop_core h)) by (by rewrite list_lookup_fmap, Hh). split.
  - intros Hno. destruct (origin_out_ok c cpath k h p Hc Hh Hp) as (cpath' & -> & Hcores & Hmeta).
    destruct (route_out_ok (map hop_core cpath) relays k p (hop_core h) Hsync Hcore Hp Hno) as (relays' & Hr & Hs').
    eexists _, _, relays'. split; [done|]. split; [exact Hr|]. cbn [kind with_kind]. by rewrite Hcores.
  - intros Hopen Hno.
    destruct (route_in_ok (map hop_core cpath) relays k p (hop_core h) Hsync Hcore Hp) as (relays' & Hr & Hs').
    destruct (decrypt_loop_ok cpath k 0 p h Hh Hopen Hp Hno) as (cpath' & Hd & Hcores & Hmeta).
    eexists relays', _, _. split; [exact Hr|]. unfold relay_decrypt_cell. rewrite Hc.
    destruct cpath as [|h0 t]; [done|]. cbn [take] in Hopen. apply Forall_cons in Hopen as [-> _]. cbn [negb].
    change (bdig (hop_core h)) with (b_digest (pvt_crypto h)). rewrite Hd. cbn [obind].
    split; [done|]. cbn [kind with_kind]. by rewrite Hcores.
Qed.
End onion.

(** A cipher and a hash to run the code with: the cipher inverts every other payload. *)
Definition ex_flip (c : ascii) : ascii := z2b (255 - b2z c).
Definition ex_crypt (c : bool) (p : bytes) : bytes * bool := (if c then map ex_flip p else p, negb c).
Definition ex_hash (s : bytes) : bytes := be_bytes 4 (zlen s + 7) ++ replicate 16 NUL.

Lemma ex_flip_flip (c : ascii) : ex_flip (ex_flip c) = c.
Proof.
  apply b2z_inj. pose proof (b2z_range c). unfold ex_flip. rewrite !b2z_z2b; rewrite ?b2z_z2b; lia.
Qed.

Lemma ex_crypt_laws :
  (forall c p, length (fst (ex_crypt c p)) = length p) /\
  (forall c p, fst (ex_crypt c (fst (ex_crypt c p))) = p) /\
  (forall c p q, length p = length q -> snd (ex_crypt c p) = snd (ex_crypt c q)) /\
  (forall s, (4 <= length (ex_hash s))%nat).
Proof.
  split; [intros [] p; cbn; by rewrite ?length_map|]. split; [|split; [done|]].
  - intros [] p; cbn; [|done]. rewrite map_map. rewrite <- (map_id p) at 2. apply map_ext. apply ex_flip_flip.
  - intros s. unfold ex_hash. rewrite length_app, be_bytes_length. lia.
Qed.

Definition ex_relay (f b : bool) (fd bd : bytes) : relay_crypto bool :=
  {| f_crypto := f; b_crypto := b; f_digest := fd; b_digest := bd; sendme_digest := [] |}.
Definition ex_hop (cr : relay_crypto bool) : hop bool :=
  {| hop_open := true; hop_package_window := 1000; hop_deliver_window := 1000; pvt_crypto := cr |}.
Definition ex_circuit (k : circ_kind bool) : circuit bool :=
  {| kind := k; package_window := 1000; deliver_window := 1000; sendme_last_digests := None; streams := ∅ |}.
Definition ex_cores : list (relay_crypto bool) :=
  [ex_relay true false (bs "a") (bs "b"); ex_relay false true (bs "cd") (bs "e"); ex_relay true true (bs "xyz") []].
Definition ex_payload : bytes :=
  match build_payload 5 RELAY_COMMAND_DATA (bs "hello") (replicate 509 "r"%char) with Ok p => p | _ => [] end.

Lemma ex_payload_clear : clear ex_payload.
Proof.
  split; [by vm_compute|]. eexists. split; [by vm_compute|]. split; [|done].
  repeat split; vm_compute; (done || discriminate).
Qed.

Theorem onion_delivers_witness :
  exists c' e relays',
    relay_encrypt_cell_outbound ex_crypt ex_hash (ex_circuit (ORIGIN_CIRCUIT (map ex_hop ex_cores))) ex_payload 1
    = Ok (c', e) /\
    route_out ex_crypt ex_hash (map (fun cr => ex_circuit (OR_CIRCUIT cr)) ex_cores) e = Ok (relays', 1%nat, ex_payload).
Proof.
  destruct ex_crypt_laws as (H1 & H2 & H3 & H4).
  destruct (onion_delivers ex_crypt ex_hash H1 H2 H3 H4 (ex_circuit (ORIGIN_CIRCUIT (map ex_hop ex_cores)))
    (map (fun cr => ex_circuit (OR_CIRCUIT cr)) ex_cores) 1 (ex_hop (ex_relay false true (bs "cd") (bs "e"))) ex_payload)
    as [Hout _]; [reflexivity| |apply ex_payload_clear|].
  - repeat constructor; by eexists.
  - destruct Hout as (c' & e & relays' & E1 & E2 & _); [|by exists c', e, relays'].
    intros j core Hj. destruct j as [|j]; [|lia]. intros [= <-]. by vm_compute.
Defined.
