(* ===== verification/Sendme.v ===== *)
(** * Flow control: SENDME cells, [core/or/sendme.c]

    The windows of circuits and streams, the authenticated SENDME cells that refill them, and
    the parts of [core/or/relay.c] that send, package and receive relay cells around them.
    What only logs or counts is left out; [random] is the padding of the cells a call sends. *)
From stdpp Require Import gmap.
From S2P Require Import Prelude ParseInt Endian DiOps Strings Cells RelayCell SendmeCell RelayCrypto.

(** ** Consensus parameters: [feature/nodelist/networkstatus.c] *)

Fixpoint find_param (net_params : list bytes) (param_name : bytes) : option Z :=
  match net_params with
  | [] => None
  | p :: rest =>
      if (strcmpstart p param_name =? 0) && (b2z (deref (drop (length param_name) p)) =? 61) then
        let r := tor_parse_long (drop (length param_name + 1) p) 10 (- INT32_MAX - 1) INT32_MAX false in
        if p_ok r then Some (p_val r) else find_param rest param_name
      else find_param rest param_name
  end.

Definition get_net_param_from_list (net_params : list bytes) (param_name : bytes)
    (default_val min_val max_val : Z) : outcome Z :=
  tor_assert (min_val <? max_val) (
  tor_assert (min_val <=? default_val) (
  tor_assert (default_val <=? max_val) (
  let res := match find_param net_params param_name with Some v => v | None => default_val end in
  let res := if res <? min_val then min_val else if max_val <? res then max_val else res in
  tor_assert (min_val <=? res) (
  tor_assert (res <=? max_val) (Ok res))))).

(** [None] is a node without a consensus, or a consensus without parameters. *)
Definition networkstatus_get_param (net_params : option (list bytes)) (param_name : bytes)
    (default_val min_val max_val : Z) : outcome Z :=
  match net_params with
  | None => Ok default_val
  | Some l => get_net_param_from_list l param_name default_val min_val max_val
  end.

Definition circuit_initial_package_window (net_params : option (list bytes)) : outcome Z :=
  let* num := networkstatus_get_param net_params (bs "circwindow") CIRCWINDOW_START CIRCWINDOW_START_MIN
                CIRCWINDOW_START_MAX in
  Ok (if num <? 0 then CIRCWINDOW_START else num).

Definition SENDME_MAX_SUPPORTED_VERSION : Z := 1.

Definition get_emit_min_version (net_params : option (list bytes)) : outcome Z :=
  networkstatus_get_param net_params (bs "sendme_emit_min_version") 1 0 255.
Definition get_accept_min_version (net_params : option (list bytes)) : outcome Z :=
  networkstatus_get_param net_params (bs "sendme_accept_min_version") 0 0 255.

Definition cell_version_can_be_handled (net_params : option (list bytes)) (cell_version : Z) : outcome bool :=
  let* accept_version := get_accept_min_version net_params in
  Ok (if SENDME_MAX_SUPPORTED_VERSION <? accept_version then false
      else if cell_version <? accept_version then false
      else if SENDME_MAX_SUPPORTED_VERSION <? cell_version then false
      else true).

Definition build_cell_payload_v1 (cell_digest : bytes) : outcome (Z * bytes) :=
  let '(c, _) := sendme_cell_set_version sendme_cell_new 1 in
  let c := sendme_cell_set_data_len c TRUNNEL_SENDME_V1_DIGEST_LEN in
  if zlen cell_digest <? sendme_cell_get_data_len c then Stuck
  else sendme_cell_encode RELAY_PAYLOAD_SIZE
         (with_digest c (take (Z.to_nat (sendme_cell_get_data_len c)) cell_digest)).

Section sendme.
Context {cipher : Type} (crypt : cipher -> bytes -> bytes * cipher) (hash : bytes -> bytes).
Context (net_params : option (list bytes)).

Abbreviation hop := (hop cipher).
Abbreviation circuit := (circuit cipher).

(** ** Circuit fields *)

Definition with_digests (c : circuit) (l : option (list bytes)) : circuit :=
  {| kind := kind c; package_window := package_window c; deliver_window := deliver_window c;
     sendme_last_digests := l; streams := streams c |}.
Definition with_streams (c : circuit) (s : gmap Z edge) : circuit :=
  {| kind := kind c; package_window := package_window c; deliver_window := deliver_window c;
     sendme_last_digests := sendme_last_digests c; streams := s |}.

(** [layer_hint ? layer_hint->package_window : circ->package_window], for writing. *)
Definition set_package_window (c : circuit) (layer_hint : option nat) (w : Z) : outcome circuit :=
  match layer_hint with
  | Some i => let* h := get_hop c i in
              set_hop c i {| hop_open := hop_open h; hop_package_window := w;
                             hop_deliver_window := hop_deliver_window h; pvt_crypto := pvt_crypto h |}
  | None => Ok {| kind := kind c; package_window := w; deliver_window := deliver_window c;
                  sendme_last_digests := sendme_last_digests c; streams := streams c |}
  end.
Definition set_deliver_window (c : circuit) (layer_hint : option nat) (w : Z) : outcome circuit :=
  match layer_hint with
  | Some i => let* h := get_hop c i in
              set_hop c i {| hop_open := hop_open h; hop_package_window := hop_package_window h;
                             hop_deliver_window := w; pvt_crypto := pvt_crypto h |}
  | None => Ok {| kind := kind c; package_window := package_window c; deliver_window := w;
                  sendme_last_digests := sendme_last_digests c; streams := streams c |}
  end.

(** ** The digests a circuit expects back *)

(** [None] is NULL. *)
Definition pop_first_cell_digest (c : circuit) : circuit * option bytes :=
  match sendme_last_digests c with
  | None | Some [] => (c, None)
  | Some (d :: rest) => (with_digests c (Some rest), Some d)
  end.

Definition record_cell_digest_on_circ (c : circuit) (sendme_digest : bytes) : circuit :=
  let l := match sendme_last_digests c with None => [] | Some l => l end in
  with_digests c (Some (l ++ [sendme_digest])).

Definition sendme_record_cell_digest_on_circ (c : circuit) (cpath : option nat) : outcome circuit :=
  let* w := the_package_window c cpath in
  if negb (circuit_sendme_cell_is_next w) then Ok c
  else let* cr := get_crypto c cpath in
       Ok (record_cell_digest_on_circ c (relay_crypto_get_sendme_digest cr)).

Definition v1_digest_matches (circ_digest cell_digest : bytes) : outcome bool :=
  let* r := tor_memeq circ_digest cell_digest (Z.to_nat TRUNNEL_SENDME_V1_DIGEST_LEN) in
  Ok (negb (r =? 0)).

Definition cell_v1_is_valid (c : sendme_cell) (circ_digest : bytes) : outcome bool :=
  v1_digest_matches circ_digest (sendme_cell_getarray_data_v1_digest c).

(** The circuit is changed by the pop whatever the answer. *)
Definition sendme_is_valid (c : circuit) (cell_payload : bytes) (cell_payload_len : Z) : outcome (circuit * bool) :=
  let* parsed :=
    if cell_payload_len =? 0 then Ok (Some (sendme_cell_new, 0))
    else let* (o, r) := sendme_cell_parse (take (Z.to_nat cell_payload_len) cell_payload) in
         if r <? 0 then Ok None
         else let* o := get o in Ok (Some (o, sendme_cell_get_version o)) in
  match parsed with
  | None => Ok (c, false)
  | Some (cl, cell_version) =>
      let* ok := cell_version_can_be_handled net_params cell_version in
      if negb ok then Ok (c, false)
      else
        match pop_first_cell_digest c with
        | (c, None) => Ok (c, false)
        | (c, Some circ_digest) =>
            if cell_version =? 1 then let* v := cell_v1_is_valid cl circ_digest in Ok (c, v)
            else Ok (c, true)
        end
  end.

(** ** Sending relay cells *)

(** [circuit_package_relay_cell], to the cell that goes on the queue of the channel. *)
Definition circuit_package_relay_cell (c : circuit) (payload : bytes) (layer_hint : option nat)
    : outcome (circuit * bytes) :=
  match layer_hint with
  | Some i => relay_encrypt_cell_outbound crypt hash c payload i
  | None => relay_encrypt_cell_inbound crypt hash c payload
  end.

Definition relay_send_command_from_edge (sid : Z) (c : circuit) (relay_command : Z) (data : bytes)
    (cpath_layer : option nat) (random : bytes) : outcome (circuit * bytes) :=
  tor_assert (Bool.eqb (CIRCUIT_IS_ORIGIN c) (match cpath_layer with Some _ => true | None => false end)) (
  let* p := build_payload sid relay_command data random in
  let* (c, w) := circuit_package_relay_cell c p cpath_layer in
  let* c := if relay_command =? RELAY_COMMAND_DATA then sendme_record_cell_digest_on_circ c cpath_layer else Ok c in
  Ok (c, w)).

Definition send_circuit_level_sendme (c : circuit) (layer_hint : option nat) (cell_digest random : bytes)
    : outcome (circuit * bytes) :=
  let* emit_version := get_emit_min_version net_params in
  let* payload :=
    if emit_version =? 1 then
      let* (len, p) := build_cell_payload_v1 cell_digest in
      if len <? 0 then Err else Ok (take (Z.to_nat len) p)
    else Ok [] in
  relay_send_command_from_edge 0 c RELAY_COMMAND_SENDME payload layer_hint random.

(** The circuit and the cells sent. *)
Fixpoint sendme_circuit_consider_sending (fuel : nat) (c : circuit) (layer_hint : option nat)
    (random : nat -> bytes) : outcome (circuit * list bytes) :=
  let* w := the_deliver_window c layer_hint in
  if w <=? CIRCWINDOW_START - CIRCWINDOW_INCREMENT then
    match fuel with
    | O => Stuck
    | S f =>
        let* c := set_deliver_window c layer_hint (w + CIRCWINDOW_INCREMENT) in
        let* cr := get_crypto c layer_hint in
        let* (c, s) := send_circuit_level_sendme c layer_hint (relay_crypto_get_sendme_digest cr) (random O) in
        let* (c, l) := sendme_circuit_consider_sending f c layer_hint (fun i => random (S i)) in
        Ok (c, s :: l)
    end
  else Ok (c, []).

(** The loop of [sendme_connection_edge_consider_sending]. *)
Fixpoint stream_consider_loop (fuel : nat) (c : circuit) (sid : Z) (cpath_layer : option nat)
    (random : nat -> bytes) : outcome (circuit * list bytes) :=
  let* e := get (streams c !! sid) in
  if e_deliver_window e <=? STREAMWINDOW_START - STREAMWINDOW_INCREMENT then
    match fuel with
    | O => Stuck
    | S f =>
        let c := with_streams c (<[sid := {| e_package_window := e_package_window e;
                   e_deliver_window := e_deliver_window e + STREAMWINDOW_INCREMENT |}]> (streams c)) in
        let* (c, s) := relay_send_command_from_edge sid c RELAY_COMMAND_SENDME [] cpath_layer (random O) in
        let* (c, l) := stream_consider_loop f c sid cpath_layer (fun i => random (S i)) in
        Ok (c, s :: l)
    end
  else Ok (c, []).

Definition sendme_connection_edge_consider_sending (c : circuit) (sid : Z) (cpath_layer : option nat)
    (outbuf_too_full : bool) (random : nat -> bytes) : outcome (circuit * list bytes) :=
  if outbuf_too_full then Ok (c, [])
  else let* e := get (streams c !! sid) in
       stream_consider_loop (Z.to_nat (STREAMWINDOW_START - e_deliver_window e)) c sid cpath_layer random.

(** ** Windows *)

Definition sendme_circuit_data_received (c : circuit) (layer_hint : option nat) : outcome (circuit * Z) :=
  tor_assert (Bool.eqb (CIRCUIT_IS_ORIGIN c) (match layer_hint with Some _ => true | None => false end)) (
  let* w := the_deliver_window c layer_hint in
  let* c := set_deliver_window c layer_hint (w - 1) in Ok (c, w - 1)).

Definition sendme_note_circuit_data_packaged (c : circuit) (layer_hint : option nat) : outcome (circuit * Z) :=
  tor_assert (Bool.eqb (CIRCUIT_IS_ORIGIN c) (match layer_hint with Some _ => true | None => false end)) (
  let* w := the_package_window c layer_hint in
  let* c := set_package_window c layer_hint (w - 1) in Ok (c, w - 1)).

Definition sendme_stream_data_received (c : circuit) (sid : Z) : outcome (circuit * Z) :=
  let* e := get (streams c !! sid) in
  Ok (with_streams c (<[sid := {| e_package_window := e_package_window e;
        e_deliver_window := e_deliver_window e - 1 |}]> (streams c)), e_deliver_window e - 1).

Definition sendme_note_stream_data_packaged (c : circuit) (sid : Z) : outcome (circuit * Z) :=
  let* e := get (streams c !! sid) in
  Ok (with_streams c (<[sid := {| e_package_window := e_package_window e - 1;
        e_deliver_window := e_deliver_window e |}]> (streams c)), e_package_window e - 1).

(** [Err]: the circuit is closed for a protocol violation. *)
Definition sendme_process_circuit_level (layer_hint : option nat) (c : circuit) (cell_payload : bytes)
    (cell_payload_len : Z) : outcome circuit :=
  let* (c, ok) := sendme_is_valid c cell_payload cell_payload_len in
  if negb ok then Err
  else
    let update layer_hint :=
      let* w := the_package_window c layer_hint in
      if CIRCWINDOW_START_MAX <? w + CIRCWINDOW_INCREMENT then Err
      else set_package_window c layer_hint (w + CIRCWINDOW_INCREMENT) in
    if CIRCUIT_IS_ORIGIN c then match layer_hint with None => Err | Some _ => update layer_hint end
    else update None.

Definition sendme_process_stream_level (c : circuit) (sid : Z) : outcome circuit :=
  let* e := get (streams c !! sid) in
  if STREAMWINDOW_START_MAX <? e_package_window e + STREAMWINDOW_INCREMENT then Err
  else Ok (with_streams c (<[sid := {| e_package_window := e_package_window e + STREAMWINDOW_INCREMENT;
             e_deliver_window := e_deliver_window e |}]> (streams c))).

(** ** Packaging and receiving: [core/or/relay.c] *)

Definition circuit_consider_stop_edge_reading (c : circuit) (layer_hint : option nat) : outcome bool :=
  let* w := the_package_window c layer_hint in Ok (w <=? 0).

(** One turn of [connection_edge_package_raw_inbuf], with the bytes [data] it took from the
    stream; the cell it queues, or none when a window is empty. *)
Definition package_data (c : circuit) (sid : Z) (cpath_layer : option nat) (data random : bytes)
    : outcome (circuit * option bytes) :=
  let* stop := circuit_consider_stop_edge_reading c cpath_layer in
  if stop : bool then Ok (c, None)
  else
    let* e := get (streams c !! sid) in
    if e_package_window e <=? 0 then Ok (c, None)
    else
      let* (c, s) := relay_send_command_from_edge sid c RELAY_COMMAND_DATA data cpath_layer random in
      let* (c, w) := sendme_note_circuit_data_packaged c cpath_layer in
      if w <? 0 then Err
      else let* (c, _) := sendme_note_stream_data_packaged c sid in Ok (c, Some s).

Definition process_sendme_cell (rh : relay_header) (payload : bytes) (c : circuit) (layer_hint : option nat)
    : outcome circuit :=
  if stream_id rh =? 0 then
    sendme_process_circuit_level layer_hint c (drop (Z.to_nat RELAY_HEADER_SIZE) payload) (rh_length rh)
  else
    match streams c !! stream_id rh with
    | None => Ok c
    | Some _ => sendme_process_stream_level c (stream_id rh)
    end.

(** The [RELAY_COMMAND_DATA] case of [handle_relay_cell_command]. *)
Definition handle_data_cell (rh : relay_header) (c : circuit) (layer_hint : option nat)
    (optimistic_data outbuf_too_full : bool) (random : nat -> bytes) : outcome (circuit * list bytes) :=
  let* (c, w) := sendme_circuit_data_received c layer_hint in
  if w <? 0 then Err
  else
    let* (c, l1) := sendme_circuit_consider_sending (Z.to_nat (CIRCWINDOW_START - w)) c layer_hint random in
    if stream_id rh =? 0 then Ok (c, l1)
    else
      match streams c !! stream_id rh with
      | None => Ok (c, l1)
      | Some _ =>
          let* (c, w) := sendme_stream_data_received c (stream_id rh) in
          if w <? 0 then Err
          else if optimistic_data then Ok (c, l1)
          else
            let* (c, l2) := sendme_connection_edge_consider_sending c (stream_id rh) layer_hint
                              outbuf_too_full (fun i => random (length l1 + i)%nat) in
            Ok (c, l1 ++ l2)
      end.

(** [circuit_receive_relay_cell] at an end of the circuit, where a cell that is not recognized
    has nowhere to go. Commands other than DATA and SENDME do not touch the windows. *)
Definition receive_relay_cell (c : circuit) (payload : bytes) (dir : cell_direction)
    (optimistic_data outbuf_too_full : bool) (random : nat -> bytes) : outcome (circuit * list bytes) :=
  let* (c, payload, ok, layer_hint) := relay_decrypt_cell crypt hash c payload dir in
  if negb ok then Err
  else
    let* c := sendme_record_received_cell_digest hash c layer_hint in
    let* rh := relay_header_unpack payload in
    if RELAY_PAYLOAD_SIZE <? rh_length rh then Err
    else if rh_command rh =? RELAY_COMMAND_DATA then
      handle_data_cell rh c layer_hint optimistic_data outbuf_too_full random
    else if rh_command rh =? RELAY_COMMAND_SENDME then
      let* c := process_sendme_cell rh payload c layer_hint in Ok (c, [])
    else Ok (c, []).
End sendme.
