(* ===== verification/SendmeFacts.v ===== *)
(** * Flow control between the two ends of a circuit

    The origin of a one-hop circuit and the exit, the cells in flight both ways, and any
    interleaving of what the two ends do: authenticated SENDMEs never close a circuit between
    honest ends, the windows bound the data in flight, and the data never stops for good.
    (Longer circuits deliver their cells just so, by the theorem on onion routing.) *)
From stdpp Require Import gmap.
From S2P Require Import Prelude ParseInt Endian DiOps Strings Cells RelayCell SendmeCell RelayCrypto Onion Sendme.

(** ** Views of an end *)

Inductive side := Client | Exit.
Definition other (s : side) : side := match s with Client => Exit | Exit => Client end.
Definition layer (s : side) : option nat := match s with Client => Some O | Exit => None end.
(** The direction of the cells a side receives. *)
Definition rdir (s : side) : cell_direction := match s with Client => CELL_DIRECTION_IN | Exit => CELL_DIRECTION_OUT end.

Record view {cipher : Type} := {
  v_pkg : Z; v_dlv : Z; v_last : list bytes; v_str : gmap Z edge;
  v_sc : cipher; v_sd : bytes;
  v_rc : cipher; v_rd : bytes;
  v_sdig : bytes
}.
Arguments view : clear implicits.

Section views.
Context {cipher : Type} (crypt : cipher -> bytes -> bytes * cipher) (hash : bytes -> bytes).
Hypothesis crypt_length : forall c p, length (fst (crypt c p)) = length p.
Hypothesis crypt_involutive : forall c p, fst (crypt c (fst (crypt c p))) = p.
Hypothesis crypt_advance : forall c p q, length p = length q -> snd (crypt c p) = snd (crypt c q).
Hypothesis hash_length : forall s, (20 <= length (hash s))%nat.

Abbreviation circuit := (circuit cipher).
Abbreviation view := (view cipher).
Abbreviation adv := (adv crypt).
Abbreviation seal := (seal hash).

Lemma hash_length4 (s : bytes) : (4 <= length (hash s))%nat.
Proof. pose proof (hash_length s). lia. Qed.

Definition end_view (s : side) (c : circuit) : option view :=
  match s, kind c with
  | Client, ORIGIN_CIRCUIT [h] =>
      if hop_open h then
        Some {| v_pkg := hop_package_window h; v_dlv := hop_deliver_window h;
                v_last := match sendme_last_digests c with Some l => l | None => [] end; v_str := streams c;
                v_sc := f_crypto (pvt_crypto h); v_sd := f_digest (pvt_crypto h);
                v_rc := b_crypto (pvt_crypto h); v_rd := b_digest (pvt_crypto h);
                v_sdig := sendme_digest (pvt_crypto h) |}
      else None
  | Exit, OR_CIRCUIT cr =>
      Some {| v_pkg := package_window c; v_dlv := deliver_window c;
              v_last := match sendme_last_digests c with Some l => l | None => [] end; v_str := streams c;
              v_sc := b_crypto cr; v_sd := b_digest cr; v_rc := f_crypto cr; v_rd := f_digest cr;
              v_sdig := sendme_digest cr |}
  | _, _ => None
  end.

Definition vw_windows (v : view) (pkg dlv : Z) : view :=
  {| v_pkg := pkg; v_dlv := dlv; v_last := v_last v; v_str := v_str v; v_sc := v_sc v; v_sd := v_sd v;
     v_rc := v_rc v; v_rd := v_rd v; v_sdig := v_sdig v |}.
Definition vw_last (v : view) (l : list bytes) : view :=
  {| v_pkg := v_pkg v; v_dlv := v_dlv v; v_last := l; v_str := v_str v; v_sc := v_sc v; v_sd := v_sd v;
     v_rc := v_rc v; v_rd := v_rd v; v_sdig := v_sdig v |}.
Definition vw_str (v : view) (m : gmap Z edge) : view :=
  {| v_pkg := v_pkg v; v_dlv := v_dlv v; v_last := v_last v; v_str := m; v_sc := v_sc v; v_sd := v_sd v;
     v_rc := v_rc v; v_rd := v_rd v; v_sdig := v_sdig v |}.
Definition vw_send (v : view) (sc : cipher) (sd sdig : bytes) : view :=
  {| v_pkg := v_pkg v; v_dlv := v_dlv v; v_last := v_last v; v_str := v_str v; v_sc := sc; v_sd := sd;
     v_rc := v_rc v; v_rd := v_rd v; v_sdig := sdig |}.
Definition vw_recv (v : view) (rc : cipher) (rd : bytes) : view :=
  {| v_pkg := v_pkg v; v_dlv := v_dlv v; v_last := v_last v; v_str := v_str v; v_sc := v_sc v; v_sd := v_sd v;
     v_rc := rc; v_rd := rd; v_sdig := v_sdig v |}.
Definition vw_sdig (v : view) (sdig : bytes) : view :=
  {| v_pkg := v_pkg v; v_dlv := v_dlv v; v_last := v_last v; v_str := v_str v; v_sc := v_sc v; v_sd := v_sd v;
     v_rc := v_rc v; v_rd := v_rd v; v_sdig := sdig |}.

(** The two shapes of an end. *)
Lemma end_view_inv (s : side) (c : circuit) (v : view) : end_view s c = Some v ->
  (s = Client /\ exists h, kind c = ORIGIN_CIRCUIT [h] /\ hop_open h = true) \/
  (s = Exit /\ exists cr, kind c = OR_CIRCUIT cr).
Proof.
  unfold end_view. destruct s, (kind c) as [[|h [|h' t]]|cr] eqn:E; try done.
  - destruct (hop_open h) eqn:Ho; [|done]. left. eauto.
  - right. eauto.
Qed.

Ltac open_view H :=
  let h := fresh "h" in let Hk := fresh "Hk" in let Ho := fresh "Ho" in let cr := fresh "cr" in
  let Hv := fresh "Hv" in
  pose proof (end_view_inv _ _ _ H) as [(-> & h & Hk & Ho)|(-> & cr & Hk)];
  unfold end_view in H; rewrite Hk in H; rewrite ?Ho in H; injection H as <-.

Lemma ev_windows (s : side) (c : circuit) (v : view) : end_view s c = Some v ->
  the_package_window c (layer s) = Ok (v_pkg v) /\ the_deliver_window c (layer s) = Ok (v_dlv v).
Proof. intros H. open_view H; unfold layer, the_package_window, the_deliver_window, get_hop; rewrite ?Hk; done. Qed.

Lemma ev_set_windows (s : side) (c : circuit) (v : view) (w : Z) : end_view s c = Some v ->
  (exists c', set_package_window c (layer s) w = Ok c' /\ end_view s c' = Some (vw_windows v w (v_dlv v))) /\
  (exists c', set_deliver_window c (layer s) w = Ok c' /\ end_view s c' = Some (vw_windows v (v_pkg v) w)).
Proof.
  intros H. open_view H; unfold layer, set_package_window, set_deliver_window, get_hop, set_hop; rewrite ?Hk;
    cbn [lookup list_lookup get obind insert list_insert]; rewrite ?Hk;
    (split; eexists; (split; [done|]); unfold end_view, with_kind; cbn; rewrite ?Ho, ?Hk; done).
Qed.

Lemma ev_crypto (s : side) (c : circuit) (v : view) : end_view s c = Some v ->
  exists cr, get_crypto c (layer s) = Ok cr /\ sendme_digest cr = v_sdig v.
Proof. intros H. open_view H; unfold layer, get_crypto, get_hop; rewrite Hk; eexists; by split. Qed.

Lemma ev_origin (s : side) (c : circuit) (v : view) : end_view s c = Some v ->
  Bool.eqb (CIRCUIT_IS_ORIGIN c) (match layer s with Some _ => true | None => false end) = true.
Proof. intros H. open_view H; unfold CIRCUIT_IS_ORIGIN; by rewrite Hk. Qed.

Lemma ev_streams (s : side) (c : circuit) (v : view) (m : gmap Z edge) : end_view s c = Some v ->
  streams c = v_str v /\ end_view s (with_streams c m) = Some (vw_str v m).
Proof. intros H. open_view H; unfold end_view; cbn; rewrite Hk, ?Ho; done. Qed.

Lemma ev_last (s : side) (c : circuit) (v : view) (l : list bytes) : end_view s c = Some v ->
  match sendme_last_digests c with Some l => l | None => [] end = v_last v /\
  end_view s (with_digests c (Some l)) = Some (vw_last v l).
Proof. intros H. open_view H; unfold end_view; cbn; rewrite Hk, ?Ho; done. Qed.

Definition digest20 (d : bytes) : bytes := take 20 (hash d).

(** Encrypting a clear payload for the other end. *)
Lemma ev_encrypt (s : side) (c : circuit) (v : view) (p : bytes) : end_view s c = Some v -> clear p ->
  exists c', circuit_package_relay_cell crypt hash c p (layer s) = Ok (c', fst (crypt (v_sc v) (seal (v_sd v) p))) /\
    end_view s c' = Some (vw_send v (adv (v_sc v)) (v_sd v ++ p)
      (if circuit_sendme_cell_is_next (v_pkg v) then digest20 (v_sd v ++ p) else v_sdig v)).
Proof.
  intros H Hp. pose proof (seal_length hash hash_length4 (v_sd v) p Hp) as Hsl.
  assert (Hadv : snd (crypt (v_sc v) (seal (v_sd v) p)) = adv (v_sc v)) by (by apply snd_crypt).
  open_view H; cbn [layer circuit_package_relay_cell v_sc v_sd v_pkg v_sdig] in *.
  - unfold relay_encrypt_cell_outbound, get_hop. rewrite Hk. cbn [lookup list_lookup get obind].
    unfold cpath_set_cell_forward_digest. rewrite set_digest_ok by (done || apply hash_length4). cbn [obind].
    unfold set_hop at 1. rewrite Hk. cbn [obind insert list_insert].
    unfold sendme_record_sending_cell_digest, the_package_window, get_hop.
    set (y := seal (f_digest (pvt_crypto h)) p) in *. clearbody y. cbn.
    destruct (circuit_sendme_cell_is_next (hop_package_window h)); cbn;
      unfold get_hop, set_hop, cpath_crypt_cell, relay_crypt_one_payload; cbn;
      destruct (crypt (f_crypto (pvt_crypto h)) y) as [q fc]; cbn in Hadv; subst fc;
      (eexists; split; [done|]; unfold end_view; cbn; by rewrite Ho).
  - unfold relay_encrypt_cell_inbound, get_crypto at 1. rewrite Hk. cbn [obind].
    rewrite set_digest_ok by (done || apply hash_length4). cbn [obind]. unfold set_crypto at 1. rewrite Hk. cbn [obind].
    set (y := seal (b_digest cr) p) in *. clearbody y. cbn.
    destruct (circuit_sendme_cell_is_next (package_window c)); cbn; unfold relay_crypt_one_payload; cbn;
      destruct (crypt (b_crypto cr) y) as [q bc]; cbn in Hadv; subst bc;
      (eexists; split; [done|]; unfold end_view; cbn; done).
Qed.

(** Decrypting what the other end encrypted. *)
Lemma ev_decrypt (s : side) (c : circuit) (v : view) (p : bytes) : end_view s c = Some v -> clear p ->
  exists c', relay_decrypt_cell crypt hash c (fst (crypt (v_rc v) (seal (v_rd v) p))) (rdir s)
      = Ok (c', p, true, layer s) /\
    end_view s c' = Some (vw_recv v (adv (v_rc v)) (v_rd v ++ p)).
Proof.
  intros H Hp. pose proof (seal_length hash hash_length4 (v_rd v) p Hp) as Hsl.
  set (y := seal (v_rd v) p) in *.
  destruct (seal_recognized hash hash_length4 (v_rd v) p Hp) as (rh & Hu & Hr0 & Hrec & Hback).
  fold y in Hu, Hrec, Hback. pose proof (digest_matches_ok hash (v_rd v) y rh Hsl Hu Hr0) as Hm.
  rewrite Hrec, Hback in Hm.
  assert (Hadv : snd (crypt (v_rc v) (fst (crypt (v_rc v) y))) = adv (v_rc v))
    by (apply snd_crypt; [done|]; by apply fst_crypt_length).
  pose proof (crypt_involutive (v_rc v) y) as Hinv.
  open_view H; cbn [layer rdir v_rc v_rd] in *; unfold relay_decrypt_cell; rewrite Hk.
  - rewrite Ho. cbn [negb decrypt_loop]. unfold cpath_crypt_cell, relay_crypt_one_payload.
    destruct (crypt (b_crypto (pvt_crypto h)) (fst (crypt (b_crypto (pvt_crypto h)) y))) as [q bc].
    cbn in Hadv, Hinv. subst q bc. rewrite Hu. cbn [obind]. rewrite Hr0. cbn [Z.eqb hop_with_crypto pvt_crypto with_b b_digest].
    rewrite Hm. cbn [obind]. eexists. split; [done|]. unfold end_view. cbn. by rewrite Ho.
  - unfold relay_crypt_one_payload.
    destruct (crypt (f_crypto cr) (fst (crypt (f_crypto cr) y))) as [q fc].
    cbn in Hadv, Hinv. subst q fc. rewrite Hu. cbn [obind]. rewrite Hr0. cbn [Z.eqb with_f f_digest].
    rewrite Hm. cbn [obind]. eexists. split; [done|]. unfold end_view. cbn. done.
Qed.

Lemma ev_record (s : side) (c : circuit) (v : view) : end_view s c = Some v ->
  exists c', sendme_record_received_cell_digest hash c (layer s) = Ok c' /\
    end_view s c' = Some (vw_sdig v (if circuit_sendme_cell_is_next (v_dlv v) then digest20 (v_rd v) else v_sdig v)).
Proof.
  intros H. unfold sendme_record_received_cell_digest. rewrite (proj2 (ev_windows s c v H)). cbn [obind].
  destruct (circuit_sendme_cell_is_next (v_dlv v)); cbn [negb].
  - open_view H; cbn [layer record_digest]; unfold get_hop, get_crypto, set_hop, set_crypto; rewrite Hk;
      cbn [lookup list_lookup get obind]; (eexists; split; [done|]; unfold end_view; cbn; rewrite ?Ho; done).
  - exists c. split; [done|]. rewrite H. by destruct v.
Qed.

(** ** What a cell is *)

Definition header (p : bytes) : relay_header :=
  match relay_header_unpack p with
  | Ok rh => rh
  | _ => {| rh_command := 0; recognized := 0; stream_id := 0; integrity := []; rh_length := 0 |}
  end.

Definition is_data (p : bytes) : bool := rh_command (header p) =? RELAY_COMMAND_DATA.
Definition is_csend (p : bytes) : bool := (rh_command (header p) =? RELAY_COMMAND_SENDME) && (stream_id (header p) =? 0).
Definition data_of (sid : Z) (p : bytes) : bool := is_data p && (stream_id (header p) =? sid).
Definition ssend_of (sid : Z) (p : bytes) : bool :=
  (rh_command (header p) =? RELAY_COMMAND_SENDME) && (stream_id (header p) =? sid).

(** The cells that the two ends exchange. *)
Definition okp (p : bytes) : Prop := clear p /\ rh_length (header p) <= RELAY_PAYLOAD_SIZE.

Lemma okp_unpack (p : bytes) : okp p -> relay_header_unpack p = Ok (header p).
Proof. intros [(_ & rh & Hu & _) _]. unfold header. by rewrite Hu. Qed.

(** A SENDME that acknowledges the cell with digest [d]; [v1] is the version that is sent. *)
Definition valid_sendme (v1 : bool) (p d : bytes) : Prop :=
  if v1 then
    exists n c, sendme_cell_parse (take (Z.to_nat (rh_length (header p))) (drop 11 p)) = Ok (Some c, n) /\
      0 <= n /\ rh_length (header p) <> 0 /\ version c = 1 /\ data_v1_digest c = d /\ length d = 20%nat
  else rh_length (header p) = 0.

(** ** Operations on views *)

Lemma send_ok (s : side) (c : circuit) (v : view) (sid cmd : Z) (data random : bytes) :
  end_view s c = Some v -> 0 <= sid < 65536 -> 0 <= cmd < 256 -> zlen data <= RELAY_PAYLOAD_SIZE ->
  CELL_PAYLOAD_SIZE <= zlen random ->
  exists p c' sdig,
    relay_send_command_from_edge crypt hash sid c cmd data (layer s) random
      = Ok (c', fst (crypt (v_sc v) (seal (v_sd v) p))) /\
    okp p /\ rh_command (header p) = cmd /\ stream_id (header p) = sid /\ rh_length (header p) = zlen data /\
    take (length data) (drop 11 p) = data /\
    end_view s c' = Some (vw_last (vw_send v (adv (v_sc v)) (v_sd v ++ p) sdig)
      (if (cmd =? RELAY_COMMAND_DATA) && circuit_sendme_cell_is_next (v_pkg v)
       then v_last v ++ [digest20 (v_sd v ++ p)] else v_last v)).
Proof.
  intros H Hs Hc Hd Hr. unfold relay_send_command_from_edge, tor_assert. rewrite (ev_origin s c v H).
  destruct (build_payload_ok sid cmd data random Hs Hc Hd Hr) as (p & -> & Hl & Hu & Ht). cbn [obind].
  assert (Hp : clear p).
  { split; [done|]. eexists. split; [exact Hu|]. pose proof (zlen_nonneg data).
    unfold RELAY_PAYLOAD_SIZE, CELL_PAYLOAD_SIZE, RELAY_HEADER_SIZE in Hd. repeat split; cbn; (done || lia). }
  assert (Hh : header p = {| rh_command := cmd; recognized := 0; stream_id := sid; integrity := replicate 4 NUL;
                             rh_length := zlen data |}) by (unfold header; by rewrite Hu).
  destruct (ev_encrypt s c v p H Hp) as (c1 & -> & H1). cbn [obind].
  set (v1 := vw_send v (adv (v_sc v)) (v_sd v ++ p)
      (if circuit_sendme_cell_is_next (v_pkg v) then digest20 (v_sd v ++ p) else v_sdig v)) in H1.
  assert (Hrec : exists c', (if cmd =? RELAY_COMMAND_DATA then sendme_record_cell_digest_on_circ c1 (layer s) else Ok c1)
    = Ok c' /\ end_view s c' = Some (vw_last v1 (if (cmd =? RELAY_COMMAND_DATA) && circuit_sendme_cell_is_next (v_pkg v)
       then v_last v ++ [digest20 (v_sd v ++ p)] else v_last v))).
  { destruct (cmd =? RELAY_COMMAND_DATA); cbn [andb].
    - unfold sendme_record_cell_digest_on_circ. rewrite (proj1 (ev_windows s c1 v1 H1)). cbn [obind v_pkg v1 vw_send].
      destruct (circuit_sendme_cell_is_next (v_pkg v)) eqn:En; cbn [negb].
      + destruct (ev_crypto s c1 v1 H1) as (cr & -> & Hcr). cbn [obind]. eexists. split; [done|].
        unfold record_cell_digest_on_circ, relay_crypto_get_sendme_digest. rewrite Hcr.
        unfold v1 at 1. cbn [v_sdig vw_send].
        destruct (ev_last s c1 v1 (match sendme_last_digests c1 with None => [] | Some l => l end
                                   ++ [digest20 (v_sd v ++ p)]) H1) as [El ->].
        assert (El' : match sendme_last_digests c1 with None => [] | Some l => l end = v_last v).
        { rewrite <- (El : _ = v_last v). by destruct (sendme_last_digests c1). }
        by rewrite El'.
      + exists c1. split; [done|]. rewrite H1. by destruct v.
    - exists c1. split; [done|]. rewrite H1. by destruct v. }
  destruct Hrec as (c' & -> & Hc'). cbn [obind].
  exists p, c', (if circuit_sendme_cell_is_next (v_pkg v) then digest20 (v_sd v ++ p) else v_sdig v).
  split; [done|]. rewrite Hh. cbn [rh_command stream_id rh_length].
  split; [split; [done|by rewrite Hh]|]. by repeat (split; [done|]).
Qed.

(** The cells in flight: [ws] on the wire are the payloads [ps], from the receiver's cipher and
    digest to the sender's. *)
Fixpoint flight (c : cipher) (d : bytes) (ws ps : list bytes) (c' : cipher) (d' : bytes) : Prop :=
  match ws, ps with
  | [], [] => c = c' /\ d = d'
  | w :: ws, p :: ps => okp p /\ w = fst (crypt c (seal d p)) /\ flight (adv c) (d ++ p) ws ps c' d'
  | _, _ => False
  end.

Lemma flight_app (ws1 : list bytes) : forall c d ps1 c1 d1 ws2 ps2 c2 d2,
  flight c d ws1 ps1 c1 d1 -> flight c1 d1 ws2 ps2 c2 d2 -> flight c d (ws1 ++ ws2) (ps1 ++ ps2) c2 d2.
Proof.
  induction ws1 as [|w ws1 IH]; intros c d [|p ps1] c1 d1 ws2 ps2 c2 d2; try done.
  - by intros [-> ->].
  - intros (Hp & -> & Hf) H2. cbn. split; [done|]. split; [done|]. by apply (IH _ _ _ c1 d1).
Qed.

Lemma flight_one (c : cipher) (d p : bytes) : okp p -> flight c d [fst (crypt c (seal d p))] [p] (adv c) (d ++ p).
Proof. intros Hp. by repeat split; try apply Hp. Qed.

Lemma flight_digest (ws : list bytes) : forall c d ps c' d', flight c d ws ps c' d' -> d' = d ++ concat ps.
Proof.
  induction ws as [|w ws IH]; intros c d [|p ps] c' d'; try done; cbn.
  - intros [_ ->]. by rewrite app_nil_r.
  - intros (_ & _ & Hf). rewrite (IH _ _ _ _ _ Hf). by rewrite <- app_assoc.
Qed.

Lemma flight_nil (c : cipher) (d : bytes) (ps : list bytes) (c' : cipher) (d' : bytes) :
  flight c d [] ps c' d' -> ps = [].
Proof. by destruct ps. Qed.

(** ** Consensus parameters and versions *)

Lemma get_param_range (np : option (list bytes)) (name : bytes) (def min max : Z) :
  min < max -> min <= def <= max ->
  exists v, networkstatus_get_param np name def min max = Ok v /\ min <= v <= max.
Proof.
  intros Hm Hd. destruct np as [l|]; [|by exists def]. cbn [networkstatus_get_param].
  unfold get_net_param_from_list, tor_assert. rewrite (proj2 (Z.ltb_lt _ _)), !(proj2 (Z.leb_le _ _)) by lia.
  set (res := match find_param l name with Some v => v | None => def end).
  destruct (Z.ltb_spec res min); [|destruct (Z.ltb_spec max res)];
    (rewrite !(proj2 (Z.leb_le _ _)) by lia; eexists; split; [done|lia]).
Qed.

Definition emits_v1 (np : option (list bytes)) : bool :=
  match get_emit_min_version np with Ok e => e =? 1 | _ => false end.

(** A node with these parameters accepts the SENDMEs of that version. *)
Definition accepts (np : option (list bytes)) (v1 : bool) : Prop :=
  exists a, get_accept_min_version np = Ok a /\ a <= (if v1 then 1 else 0).

Lemma digest20_length (d : bytes) : length (digest20 d) = 20%nat.
Proof. unfold digest20. rewrite length_take. pose proof (hash_length d). lia. Qed.

(** ** SENDMEs *)

Lemma send_csend_ok (np : option (list bytes)) (s : side) (c : circuit) (v : view) (random : bytes) :
  end_view s c = Some v -> length (v_sdig v) = 20%nat -> CELL_PAYLOAD_SIZE <= zlen random ->
  exists p c' sdig,
    send_circuit_level_sendme crypt hash np c (layer s) (v_sdig v) random
      = Ok (c', fst (crypt (v_sc v) (seal (v_sd v) p))) /\
    okp p /\ rh_command (header p) = RELAY_COMMAND_SENDME /\ stream_id (header p) = 0 /\
    valid_sendme (emits_v1 np) p (v_sdig v) /\
    end_view s c' = Some (vw_send v (adv (v_sc v)) (v_sd v ++ p) sdig).
Proof.
  intros H Hl Hr. unfold send_circuit_level_sendme, emits_v1, get_emit_min_version.
  destruct (get_param_range np (bs "sendme_emit_min_version") 1 0 255) as (e & -> & _); [lia|lia|]. cbn [obind].
  destruct (Z.eqb_spec e 1) as [->|Hne].
  - set (cell := {| version := 1; data_len := 20; data_v1_digest := v_sdig v; trunnel_error_code_ := false |}).
    assert (Hb : build_cell_payload_v1 (v_sdig v) = sendme_cell_encode RELAY_PAYLOAD_SIZE cell).
    { unfold build_cell_payload_v1. cbn -[Z.ltb zlen sendme_cell_encode take].
      rewrite (proj2 (Z.ltb_ge _ _)) by (unfold zlen; rewrite Hl; done). unfold with_digest. cbn -[sendme_cell_encode take].
      rewrite take_ge by (rewrite Hl; done). done. }
    rewrite Hb. destruct (sendme_cell_roundtrip cell RELAY_PAYLOAD_SIZE [] eq_refl eq_refl Hl ltac:(by vm_compute))
      as (enc & -> & Hel & Hparse). cbn [obind]. change (23 <? 0) with false. cbn iota. cbn [obind].
    rewrite take_ge by (rewrite Hel; done).
    destruct (send_ok s c v 0 RELAY_COMMAND_SENDME enc random H) as (p & c' & sdig & -> & Hp & Hc & Hs & Hlen & Ht & Hv);
      [lia|by vm_compute|unfold zlen; rewrite Hel; by vm_compute|done|].
    exists p, c', sdig. split; [done|]. split; [done|]. split; [done|]. split; [done|]. split.
    + unfold valid_sendme. rewrite Hlen. unfold zlen at 1 2. rewrite Nat2Z.id, Ht. rewrite app_nil_r in Hparse.
      exists 23, cell. split; [exact Hparse|]. split; [lia|]. split; [rewrite Hel; done|]. by split.
    + exact Hv.
  - cbn [obind]. destruct (send_ok s c v 0 RELAY_COMMAND_SENDME [] random H) as (p & c' & sdig & -> & Hp & Hc & Hs & Hlen & Ht & Hv);
      [lia|by vm_compute|by vm_compute|done|].
    exists p, c', sdig. split; [done|]. split; [done|]. split; [done|]. split; [done|]. split; [exact Hlen|exact Hv].
Qed.

(** Considering to acknowledge: at most one SENDME, with the digest recorded last. *)
Lemma consider_ok (np : option (list bytes)) (s : side) (c : circuit) (v : view) (fuel : nat) (random : nat -> bytes) :
  end_view s c = Some v -> 800 < v_dlv v <= 1000 -> (v_dlv v <= 900 -> length (v_sdig v) = 20%nat) ->
  (1000 - v_dlv v < Z.of_nat fuel + 100) -> (forall i, CELL_PAYLOAD_SIZE <= zlen (random i)) ->
  exists c' ws ps sc sd sdig,
    sendme_circuit_consider_sending crypt hash np fuel c (layer s) random = Ok (c', ws) /\
    flight (v_sc v) (v_sd v) ws ps sc sd /\
    end_view s c' = Some (vw_send (vw_windows v (v_pkg v) (if v_dlv v <=? 900 then v_dlv v + 100 else v_dlv v)) sc sd sdig) /\
    (if v_dlv v <=? 900
     then exists p, ps = [p] /\ rh_command (header p) = RELAY_COMMAND_SENDME /\ stream_id (header p) = 0 /\
            valid_sendme (emits_v1 np) p (v_sdig v)
     else ps = []).
Proof.
  intros H Hd Hl Hf Hr. destruct fuel as [|f]; cbn [sendme_circuit_consider_sending];
    rewrite (proj2 (ev_windows s c v H)); cbn [obind];
    change (CIRCWINDOW_START - CIRCWINDOW_INCREMENT) with 900; destruct (Z.leb_spec (v_dlv v) 900) as [Hle|Hgt].
  - lia.
  - eexists c, [], [], _, _, (v_sdig v). split; [done|]. split; [by split|]. split; [|done]. rewrite H. by destruct v.
  - destruct (proj2 (ev_set_windows s c v (v_dlv v + CIRCWINDOW_INCREMENT) H)) as (c1 & -> & H1). cbn [obind].
    destruct (ev_crypto s c1 _ H1) as (cr & -> & Hcr). cbn [obind]. unfold relay_crypto_get_sendme_digest.
    rewrite Hcr. cbn [v_sdig vw_windows].
    destruct (send_csend_ok np s c1 _ (random O) H1 (Hl Hle) (Hr O)) as (p & c2 & sdig & E & Hp & Hc & Hs & Hv & H2).
    cbn [v_sdig vw_windows v_sc v_sd] in E, Hv, H2. rewrite E. cbn [obind].
    assert (Hstop : sendme_circuit_consider_sending crypt hash np f c2 (layer s) (fun i => random (S i)) = Ok (c2, [])).
    { destruct f; cbn [sendme_circuit_consider_sending]; rewrite (proj2 (ev_windows s c2 _ H2)); cbn [obind v_dlv vw_send vw_windows];
        change (CIRCWINDOW_START - CIRCWINDOW_INCREMENT) with 900; unfold CIRCWINDOW_INCREMENT;
        by rewrite (proj2 (Z.leb_gt _ _)) by lia. }
    rewrite Hstop. cbn [obind].
    eexists c2, _, [p], _, _, sdig. split; [done|]. split; [by apply flight_one|]. split; [exact H2|]. by exists p.
  - eexists c, [], [], _, _, (v_sdig v). split; [done|]. split; [by split|]. split; [|done]. rewrite H. by destruct v.
Qed.

(** Acknowledging a stream: SENDMEs until the window is over 450 again. *)
Lemma stream_loop_ok (s : side) (sid : Z) (fuel : nat) : 0 <= sid < 65536 ->
  forall (c : circuit) (v : view) (e : edge) (random : nat -> bytes),
  end_view s c = Some v -> v_str v !! sid = Some e -> 500 - e_deliver_window e < Z.of_nat fuel + 50 ->
  (forall i, CELL_PAYLOAD_SIZE <= zlen (random i)) ->
  exists c' ws ps e' sc sd sdig,
    stream_consider_loop crypt hash fuel c sid (layer s) random = Ok (c', ws) /\
    flight (v_sc v) (v_sd v) ws ps sc sd /\
    end_view s c' = Some (vw_str (vw_send v sc sd sdig) (<[sid := e']> (v_str v))) /\
    Forall (fun p => rh_command (header p) = RELAY_COMMAND_SENDME /\ stream_id (header p) = sid) ps /\
    e_package_window e' = e_package_window e /\ e_deliver_window e' = e_deliver_window e + 50 * zlen ps /\
    450 < e_deliver_window e' /\ (e_deliver_window e <= 500 -> e_deliver_window e' <= 500).
Proof.
  intros Hsid. induction fuel as [|f IH]; intros c v e random H He Hf Hr; cbn [stream_consider_loop];
    rewrite (proj1 (ev_streams s c v ∅ H)), He; cbn [get obind];
    change (STREAMWINDOW_START - STREAMWINDOW_INCREMENT) with 450; destruct (Z.leb_spec (e_deliver_window e) 450) as [Hle|Hgt].
  - lia.
  - eexists c, [], [], e, _, _, (v_sdig v). split; [done|]. split; [by split|].
    rewrite insert_id by done. split; [rewrite H; by destruct v|]. split; [constructor|]. change (zlen []) with 0. repeat split; lia.
  - set (e1 := {| e_package_window := e_package_window e;
                  e_deliver_window := e_deliver_window e + STREAMWINDOW_INCREMENT |}).
    pose proof (proj2 (ev_streams s c v (<[sid := e1]> (v_str v)) H)) as H1.
    destruct (send_ok s _ _ sid RELAY_COMMAND_SENDME [] (random O) H1 Hsid) as (p & c2 & sdig & E & Hp & Hc & Hs & _ & _ & H2);
      [by vm_compute|by vm_compute|apply Hr|].
    cbn [vw_str v_sc v_sd v_last] in E, H2. rewrite E. cbn [obind].
    assert (He1 : v_str (vw_last (vw_send (vw_str v (<[sid:=e1]> (v_str v))) (adv (v_sc v)) (v_sd v ++ p) sdig) (v_last v))
                  !! sid = Some e1) by apply lookup_insert_eq.
    destruct (IH c2 _ e1 (fun i => random (S i)) H2 He1) as (c' & ws & ps & e' & sc & sd & sdig' & -> & Hfl & H3 & Hall & Hpk & Hdl & Hlo & Hhi);
      [cbn; unfold STREAMWINDOW_INCREMENT; lia|intros; apply Hr|]. cbn [obind].
    eexists c', _, (p :: ps), e', sc, sd, sdig'. split; [done|]. split; [cbn; by split|].
    split; [rewrite H3; unfold vw_str, vw_send, vw_last; cbn; by rewrite insert_insert_eq|].
    split; [by constructor|]. cbn in Hpk, Hdl, Hhi. unfold STREAMWINDOW_INCREMENT in *.
    split; [done|]. unfold zlen in *. cbn [length]. split; [lia|]. split; [done|]. intros. apply Hhi. lia.
  - eexists c, [], [], e, _, _, (v_sdig v). split; [done|]. split; [by split|].
    rewrite insert_id by done. split; [rewrite H; by destruct v|]. split; [constructor|]. change (zlen []) with 0. repeat split; lia.
Qed.

(** ** Packaging a cell of stream data *)

Lemma package_ok (s : side) (c : circuit) (v : view) (sid : Z) (e : edge) (data random : bytes) :
  end_view s c = Some v -> v_str v !! sid = Some e -> 0 <= sid < 65536 -> zlen data <= RELAY_PAYLOAD_SIZE ->
  CELL_PAYLOAD_SIZE <= zlen random ->
  if (v_pkg v <=? 0) || (e_package_window e <=? 0)
  then package_data crypt hash c sid (layer s) data random = Ok (c, None)
  else exists p c' sdig,
    package_data crypt hash c sid (layer s) data random = Ok (c', Some (fst (crypt (v_sc v) (seal (v_sd v) p)))) /\
    okp p /\ rh_command (header p) = RELAY_COMMAND_DATA /\ stream_id (header p) = sid /\
    take (length data) (drop 11 p) = data /\ rh_length (header p) = zlen data /\
    end_view s c' = Some
      {| v_pkg := v_pkg v - 1; v_dlv := v_dlv v;
         v_last := if circuit_sendme_cell_is_next (v_pkg v) then v_last v ++ [digest20 (v_sd v ++ p)] else v_last v;
         v_str := <[sid := {| e_package_window := e_package_window e - 1;
                              e_deliver_window := e_deliver_window e |}]> (v_str v);
         v_sc := adv (v_sc v); v_sd := v_sd v ++ p; v_rc := v_rc v; v_rd := v_rd v; v_sdig := sdig |}.
Proof.
  intros H He Hs Hd Hr. unfold package_data, circuit_consider_stop_edge_reading.
  rewrite (proj1 (ev_windows s c v H)), (proj1 (ev_streams s c v ∅ H)), He. cbn [obind get].
  destruct (Z.leb_spec (v_pkg v) 0) as [|Hpk]; [done|]. cbn [orb].
  destruct (Z.leb_spec (e_package_window e) 0) as [|Hepk]; [done|].
  destruct (send_ok s c v sid RELAY_COMMAND_DATA data random H Hs) as (p & c1 & sdig & -> & Hp & Hc & Hsi & Hlen & Ht & H1);
    [by vm_compute|done|done|]. cbn [obind]. change (RELAY_COMMAND_DATA =? RELAY_COMMAND_DATA) with true in H1. cbn [andb] in H1.
  unfold sendme_note_circuit_data_packaged, tor_assert. rewrite (ev_origin s c1 _ H1), (proj1 (ev_windows s c1 _ H1)).
  cbn [obind v_pkg vw_last vw_send].
  destruct (proj1 (ev_set_windows s c1 _ (v_pkg v - 1) H1)) as (c2 & -> & H2). cbn [obind].
  rewrite (proj2 (Z.ltb_ge _ _)) by lia. unfold sendme_note_stream_data_packaged.
  rewrite (proj1 (ev_streams s c2 _ ∅ H2)). cbn [v_str vw_windows vw_last vw_send]. rewrite He. cbn [get obind].
  exists p. eexists _, sdig. split; [done|]. split; [done|]. split; [done|]. split; [done|]. split; [done|]. split; [done|].
  apply (ev_streams s c2 _ _ H2).
Qed.

(** ** Receiving a cell *)

Abbreviation received v p :=
  (vw_sdig (vw_recv v (adv (v_rc v)) (v_rd v ++ p))
     (if circuit_sendme_cell_is_next (v_dlv v) then digest20 (v_rd v ++ p) else v_sdig v)).

(** What every recognized cell does first. *)
Lemma receive_start (np : option (list bytes)) (s : side) (c : circuit) (v : view) (p : bytes) (opt full : bool)
    (random : nat -> bytes) : end_view s c = Some v -> okp p ->
  exists c1, end_view s c1 = Some (received v p) /\
    receive_relay_cell crypt hash np c (fst (crypt (v_rc v) (seal (v_rd v) p))) (rdir s) opt full random =
      if rh_command (header p) =? RELAY_COMMAND_DATA
      then handle_data_cell crypt hash np (header p) c1 (layer s) opt full random
      else if rh_command (header p) =? RELAY_COMMAND_SENDME
      then (let* c := process_sendme_cell np (header p) p c1 (layer s) in Ok (c, []))
      else Ok (c1, []).
Proof.
  intros H Hp. destruct (ev_decrypt s c v p H (proj1 Hp)) as (c0 & E0 & H0).
  destruct (ev_record s c0 _ H0) as (c1 & E1 & H1). cbn [v_dlv v_rd vw_recv v_sdig] in H1.
  exists c1. split; [exact H1|]. unfold receive_relay_cell. rewrite E0. cbn [obind negb]. rewrite E1. cbn [obind].
  rewrite (okp_unpack p Hp). cbn [obind]. by rewrite (proj2 (Z.ltb_ge _ _)) by apply Hp.
Qed.

Lemma recv_other (np : option (list bytes)) (s : side) (c : circuit) (v : view) (p : bytes) (opt full : bool)
    (random : nat -> bytes) : end_view s c = Some v -> okp p ->
  rh_command (header p) <> RELAY_COMMAND_DATA -> rh_command (header p) <> RELAY_COMMAND_SENDME ->
  exists c', receive_relay_cell crypt hash np c (fst (crypt (v_rc v) (seal (v_rd v) p))) (rdir s) opt full random
      = Ok (c', []) /\ end_view s c' = Some (received v p).
Proof.
  intros H Hp Hd Hs. destruct (receive_start np s c v p opt full random H Hp) as (c1 & H1 & ->). exists c1.
  by rewrite (proj2 (Z.eqb_neq _ _) Hd), (proj2 (Z.eqb_neq _ _) Hs).
Qed.

(** A circuit-level SENDME that carries the digest the circuit expects. *)
Lemma sendme_valid_ok (np : option (list bytes)) (v1 : bool) (s : side) (c : circuit) (v : view) (p d : bytes) (rest : list bytes) :
  end_view s c = Some v -> okp p -> v_last v = d :: rest -> valid_sendme v1 p d -> accepts np v1 ->
  exists c', sendme_is_valid np c (drop 11 p) (rh_length (header p)) = Ok (c', true) /\
    end_view s c' = Some (vw_last v rest).
Proof.
  intros H Hp Hl Hv (a & Ha & Hle). unfold sendme_is_valid, cell_version_can_be_handled. rewrite Ha.
  assert (Hlast : sendme_last_digests c = Some (d :: rest)).
  { destruct (ev_last s c v [] H) as [El _]. destruct (sendme_last_digests c); [congruence|]. by rewrite Hl in El. }
  assert (Hpop : pop_first_cell_digest c = (with_digests c (Some rest), Some d)) by (unfold pop_first_cell_digest; by rewrite Hlast).
  assert (Hv0 : forall x, 0 <= x <= 1 -> a <= x ->
     (if SENDME_MAX_SUPPORTED_VERSION <? a then false else if x <? a then false else if SENDME_MAX_SUPPORTED_VERSION <? x then false else true) = true).
  { intros x Hx Hax. unfold SENDME_MAX_SUPPORTED_VERSION. by rewrite !(proj2 (Z.ltb_ge _ _)) by lia. }
  exists (with_digests c (Some rest)). split; [|by apply ev_last]. destruct v1; unfold valid_sendme in Hv.
  - destruct Hv as (n & cl & Hparse & Hn & Hlen & Hver & Hdig & Hd20).
    rewrite (proj2 (Z.eqb_neq _ _) Hlen), Hparse. cbn [obind]. rewrite (proj2 (Z.ltb_ge _ _)) by lia. cbn [get obind].
    unfold sendme_cell_get_version. rewrite Hver, Hv0 by lia. cbn [negb obind]. rewrite Hpop.
    change (1 =? 1) with true. cbn iota. unfold cell_v1_is_valid, v1_digest_matches, sendme_cell_getarray_data_v1_digest.
    rewrite Hdig. change (Z.to_nat TRUNNEL_SENDME_V1_DIGEST_LEN) with 20%nat.
    rewrite tor_memeq_ok by lia. unfold fast_memeq. by rewrite bool_decide_true.
  - rewrite Hv. cbn [Z.eqb obind]. rewrite Hv0 by lia. cbn [negb obind]. by rewrite Hpop.
Qed.

Lemma recv_csend (np : option (list bytes)) (v1 : bool) (s : side) (c : circuit) (v : view) (p d : bytes)
    (rest : list bytes) (opt full : bool) (random : nat -> bytes) :
  end_view s c = Some v -> okp p ->
  rh_command (header p) = RELAY_COMMAND_SENDME -> stream_id (header p) = 0 ->
  v_last v = d :: rest -> valid_sendme v1 p d -> accepts np v1 -> v_pkg v + 100 <= 1000 ->
  exists c', receive_relay_cell crypt hash np c (fst (crypt (v_rc v) (seal (v_rd v) p))) (rdir s) opt full random
      = Ok (c', []) /\
    end_view s c' = Some (vw_windows (vw_last (received v p) rest) (v_pkg v + 100) (v_dlv v)).
Proof.
  intros H Hp Hc Hs Hl Hv Ha Hpk. destruct (receive_start np s c v p opt full random H Hp) as (c1 & H1 & ->).
  rewrite Hc. change (RELAY_COMMAND_SENDME =? RELAY_COMMAND_DATA) with false.
  change (RELAY_COMMAND_SENDME =? RELAY_COMMAND_SENDME) with true. cbn iota.
  unfold process_sendme_cell. rewrite Hs. change (0 =? 0) with true. cbn iota.
  unfold sendme_process_circuit_level. change (Z.to_nat RELAY_HEADER_SIZE) with 11%nat.
  destruct (sendme_valid_ok np v1 s c1 _ p d rest H1 Hp Hl Hv Ha) as (c2 & -> & H2). cbn [obind negb].
  assert (Hupd : forall l, l = layer s -> exists c', (let* w := the_package_window c2 l in
      if CIRCWINDOW_START_MAX <? w + CIRCWINDOW_INCREMENT then Err
      else set_package_window c2 l (w + CIRCWINDOW_INCREMENT)) = Ok c' /\
    end_view s c' = Some (vw_windows (vw_last (received v p) rest) (v_pkg v + 100) (v_dlv v))).
  { intros l ->. rewrite (proj1 (ev_windows s c2 _ H2)). cbn [obind v_pkg vw_last vw_sdig vw_recv].
    unfold CIRCWINDOW_START_MAX, CIRCWINDOW_INCREMENT. rewrite (proj2 (Z.ltb_ge _ _)) by lia.
    apply (proj1 (ev_set_windows s c2 _ _ H2)). }
  pose proof (ev_origin s c2 _ H2) as Ho.
  destruct s; cbn [layer] in *; destruct (CIRCUIT_IS_ORIGIN c2); try done;
    destruct (Hupd _ eq_refl) as (c' & Hc' & H'); rewrite Hc'; cbn [obind]; by exists c'.
Qed.

Lemma recv_ssend (np : option (list bytes)) (s : side) (c : circuit) (v : view) (p : bytes) (opt full : bool)
    (random : nat -> bytes) :
  end_view s c = Some v -> okp p ->
  rh_command (header p) = RELAY_COMMAND_SENDME -> stream_id (header p) <> 0 ->
  (forall e, v_str v !! stream_id (header p) = Some e -> e_package_window e + 50 <= 500) ->
  exists c', receive_relay_cell crypt hash np c (fst (crypt (v_rc v) (seal (v_rd v) p))) (rdir s) opt full random
      = Ok (c', []) /\
    end_view s c' = Some (match v_str v !! stream_id (header p) with
      | None => received v p
      | Some e => vw_str (received v p) (<[stream_id (header p) :=
                    {| e_package_window := e_package_window e + 50; e_deliver_window := e_deliver_window e |}]> (v_str v))
      end).
Proof.
  intros H Hp Hc Hs Hw. destruct (receive_start np s c v p opt full random H Hp) as (c1 & H1 & ->).
  rewrite Hc. change (RELAY_COMMAND_SENDME =? RELAY_COMMAND_DATA) with false.
  change (RELAY_COMMAND_SENDME =? RELAY_COMMAND_SENDME) with true. cbn iota.
  unfold process_sendme_cell. rewrite (proj2 (Z.eqb_neq _ _) Hs).
  rewrite (proj1 (ev_streams s c1 _ ∅ H1)). cbn [v_str vw_sdig vw_recv].
  destruct (v_str v !! stream_id (header p)) as [e|] eqn:He; [|cbn [obind]; by exists c1].
  unfold sendme_process_stream_level. rewrite (proj1 (ev_streams s c1 _ ∅ H1)). cbn [v_str vw_sdig vw_recv].
  rewrite He. cbn [get obind]. unfold STREAMWINDOW_START_MAX, STREAMWINDOW_INCREMENT.
  pose proof (Hw e eq_refl). rewrite (proj2 (Z.ltb_ge _ _)) by lia. cbn [obind].
  eexists. split; [done|]. apply (proj2 (ev_streams s c1 _ _ H1)).
Qed.

(** A DATA cell: the windows go down, and come up again by what is acknowledged. *)
Lemma recv_data (np : option (list bytes)) (s : side) (c : circuit) (v : view) (p : bytes) (opt full : bool)
    (random : nat -> bytes) :
  end_view s c = Some v -> okp p -> rh_command (header p) = RELAY_COMMAND_DATA ->
  0 <= stream_id (header p) < 65536 -> 900 < v_dlv v <= 1000 ->
  (forall e, v_str v !! stream_id (header p) = Some e -> 0 < e_deliver_window e <= 500) ->
  (forall i, CELL_PAYLOAD_SIZE <= zlen (random i)) ->
  exists c' ws cs ss v',
    receive_relay_cell crypt hash np c (fst (crypt (v_rc v) (seal (v_rd v) p))) (rdir s) opt full random = Ok (c', ws) /\
    end_view s c' = Some v' /\ flight (v_sc v) (v_sd v) ws (cs ++ ss) (v_sc v') (v_sd v') /\
    v_pkg v' = v_pkg v /\ v_last v' = v_last v /\ v_rc v' = adv (v_rc v) /\ v_rd v' = v_rd v ++ p /\
    v_dlv v' = (if v_dlv v =? 901 then 1000 else v_dlv v - 1) /\
    (if v_dlv v =? 901
     then exists q, cs = [q] /\ rh_command (header q) = RELAY_COMMAND_SENDME /\ stream_id (header q) = 0 /\
            valid_sendme (emits_v1 np) q (digest20 (v_rd v ++ p))
     else cs = []) /\
    Forall (fun q => rh_command (header q) = RELAY_COMMAND_SENDME /\ stream_id (header q) = stream_id (header p)) ss /\
    (length ss <= 10)%nat /\
    (match v_str v !! stream_id (header p) with
     | Some e => if stream_id (header p) =? 0 then v_str v' = v_str v /\ ss = [] else
         exists e', v_str v' = <[stream_id (header p) := e']> (v_str v) /\
           e_package_window e' = e_package_window e /\
           e_deliver_window e' = e_deliver_window e - 1 + 50 * zlen ss /\ e_deliver_window e' <= 500
     | None => v_str v' = v_str v /\ ss = []
     end).
Proof.
  intros H Hp Hc Hs Hd Hw Hr. destruct (receive_start np s c v p opt full random H Hp) as (c1 & H1 & ->).
  rewrite Hc. change (RELAY_COMMAND_DATA =? RELAY_COMMAND_DATA) with true. cbn iota.
  set (v1 := received v p) in *. unfold handle_data_cell, sendme_circuit_data_received, tor_assert.
  rewrite (ev_origin s c1 _ H1), (proj2 (ev_windows s c1 _ H1)). cbn [obind]. change (v_dlv v1) with (v_dlv v).
  destruct (proj2 (ev_set_windows s c1 v1 (v_dlv v - 1) H1)) as (c2 & -> & H2). cbn [obind].
  rewrite (proj2 (Z.ltb_ge _ _)) by lia.
  destruct (consider_ok np s c2 _ (Z.to_nat (CIRCWINDOW_START - (v_dlv v - 1))) random H2)
    as (c3 & ws & cs & sc & sd & sdig & -> & Hfl & H3 & Hcs).
  { cbn. lia. }
  { cbn. intros Hle. assert (v_dlv v = 901) as E by lia. rewrite E.
    change (circuit_sendme_cell_is_next 901) with true. apply digest20_length. }
  { cbn. unfold CIRCWINDOW_START. lia. }
  { done. }
  cbn [obind]. cbn [v_dlv vw_windows v_pkg v1 vw_sdig vw_recv v_sc v_sd v_sdig] in Hfl, H3, Hcs.
  assert (Hif : forall A (a b : A), (if v_dlv v - 1 <=? 900 then a else b) = (if v_dlv v =? 901 then a else b)).
  { intros A a b. destruct (Z.leb_spec (v_dlv v - 1) 900), (Z.eqb_spec (v_dlv v) 901); (done || lia). }
  rewrite Hif in H3, Hcs.
  assert (Hdl : (if v_dlv v =? 901 then v_dlv v - 1 + 100 else v_dlv v - 1) = (if v_dlv v =? 901 then 1000 else v_dlv v - 1)).
  { destruct (Z.eqb_spec (v_dlv v) 901); lia. }
  rewrite Hdl in H3.
  set (v3 := vw_send (vw_windows (vw_windows v1 (v_pkg v) (v_dlv v - 1)) (v_pkg v)
                (if v_dlv v =? 901 then 1000 else v_dlv v - 1)) sc sd sdig) in *.
  assert (Hcs' : if v_dlv v =? 901
     then exists q, cs = [q] /\ rh_command (header q) = RELAY_COMMAND_SENDME /\ stream_id (header q) = 0 /\
            valid_sendme (emits_v1 np) q (digest20 (v_rd v ++ p)) else cs = []).
  { destruct (Z.eqb_spec (v_dlv v) 901) as [E|E]; [|done]. rewrite E in Hcs. exact Hcs. }
  (* without a stream, that is all *)
  assert (Hdone : forall ws', ws' = ws -> (stream_id (header p) = 0 \/ v_str v !! stream_id (header p) = None) ->
    exists c' ws0 cs ss v',
    Ok (c3, ws') = Ok (c', ws0) /\
    end_view s c' = Some v' /\ flight (v_sc v) (v_sd v) ws0 (cs ++ ss) (v_sc v') (v_sd v') /\
    v_pkg v' = v_pkg v /\ v_last v' = v_last v /\ v_rc v' = adv (v_rc v) /\ v_rd v' = v_rd v ++ p /\
    v_dlv v' = (if v_dlv v =? 901 then 1000 else v_dlv v - 1) /\
    (if v_dlv v =? 901
     then exists q, cs = [q] /\ rh_command (header q) = RELAY_COMMAND_SENDME /\ stream_id (header q) = 0 /\
            valid_sendme (emits_v1 np) q (digest20 (v_rd v ++ p))
     else cs = []) /\
    Forall (fun q => rh_command (header q) = RELAY_COMMAND_SENDME /\ stream_id (header q) = stream_id (header p)) ss /\
    (length ss <= 10)%nat /\
    (match v_str v !! stream_id (header p) with
     | Some e => if stream_id (header p) =? 0 then v_str v' = v_str v /\ ss = [] else
         exists e', v_str v' = <[stream_id (header p) := e']> (v_str v) /\
           e_package_window e' = e_package_window e /\
           e_deliver_window e' = e_deliver_window e - 1 + 50 * zlen ss /\ e_deliver_window e' <= 500
     | None => v_str v' = v_str v /\ ss = []
     end)).
  { intros ws' -> Hno. exists c3, ws, cs, [], v3. rewrite app_nil_r.
    repeat (split; [first [done|simpl; lia|constructor]|]).
    destruct Hno as [E|E]; [rewrite E; by destruct (v_str v !! 0)|by rewrite E]. }
  destruct (Z.eqb_spec (stream_id (header p)) 0) as [E0|E0]; [apply Hdone; [done|by left]|].
  rewrite (proj1 (ev_streams s c3 _ ∅ H3)). change (v_str v3) with (v_str v).
  destruct (v_str v !! stream_id (header p)) as [e|] eqn:He; [|apply Hdone; [done|by right]].
  clear Hdone. destruct (Hw e eq_refl) as [Hw0 Hw5].
  unfold sendme_stream_data_received. rewrite (proj1 (ev_streams s c3 _ ∅ H3)). change (v_str v3) with (v_str v).
  rewrite He. cbn [get obind]. rewrite (proj2 (Z.ltb_ge _ _)) by lia.
  set (e1 := {| e_package_window := e_package_window e; e_deliver_window := e_deliver_window e - 1 |}).
  pose proof (proj2 (ev_streams s c3 _ (<[stream_id (header p) := e1]> (v_str v)) H3)) as H4.
  assert (Hquiet : forall c4, c4 = with_streams c3 (<[stream_id (header p) := e1]> (v_str v)) ->
     exists v', end_view s c4 = Some v' /\ v_sc v' = sc /\ v_sd v' = sd /\ v_pkg v' = v_pkg v /\ v_last v' = v_last v /\
       v_rc v' = adv (v_rc v) /\ v_rd v' = v_rd v ++ p /\
       v_dlv v' = (if v_dlv v =? 901 then 1000 else v_dlv v - 1) /\ v_str v' = <[stream_id (header p) := e1]> (v_str v)).
  { intros c4 ->. eexists. split; [exact H4|]. done. }
  destruct opt; [|unfold sendme_connection_edge_consider_sending; destruct full].
  1, 2: destruct (Hquiet _ eq_refl) as (v' & Hv' & Esc & Esd & E1 & E2 & E3 & E4 & E5 & E6); cbn [obind];
    exists (with_streams c3 (<[stream_id (header p) := e1]> (v_str v))), ws, cs, [], v';
    rewrite ?app_nil_r, Esc, Esd;
    (split; [by rewrite ?app_nil_r|]); repeat (split; [first [done|simpl; lia|constructor]|]);
    exists e1; split; [done|]; split; [done|]; change (zlen []) with 0; cbn; lia.
  clear Hquiet. rewrite (proj1 (ev_streams s _ _ ∅ H4)). cbn [v_str vw_str]. rewrite lookup_insert_eq. cbn [get obind].
  destruct (stream_loop_ok s (stream_id (header p)) (Z.to_nat (STREAMWINDOW_START - e_deliver_window e1)) Hs _ _ e1
     (fun i => random (length ws + i)%nat) H4) as (c' & ws2 & ss & e' & sc' & sd' & sdig' & -> & Hfl2 & H5 & Hall & Hpk & Hdl2 & Hlo & Hhi).
  { cbn. apply lookup_insert_eq. }
  { cbn. unfold STREAMWINDOW_START. lia. }
  { intros i. apply Hr. }
  cbn [obind]. cbn [e1 e_deliver_window e_package_window] in Hdl2, Hhi, Hpk.
  eexists c', (ws ++ ws2), cs, ss, _. split; [done|]. split; [exact H5|].
  split; [by apply (flight_app ws _ _ cs sc sd)|]. repeat (split; [done|]).
  specialize (Hhi ltac:(lia)). split; [unfold zlen in Hdl2; lia|].
  exists e'. split; [cbn; by rewrite insert_insert_eq|]. split; [done|]. split; [done|done].
Qed.
End views.
