(* ===== verification/SendmeDir.v ===== *)
(** * Flow control in one direction of a circuit

    What relates the windows of the end that sends DATA cells, those of the end that receives
    them, and the cells in flight between the two; and that every event keeps it. *)
From stdpp Require Import gmap.
From S2P Require Import Prelude ParseInt Endian DiOps Strings Cells RelayCell SendmeCell RelayCrypto Onion Sendme SendmeFacts.

(** ** Counting cells *)

Fixpoint count (f : bytes -> bool) (l : list bytes) : Z :=
  match l with [] => 0 | p :: l => Z.b2z (f p) + count f l end.

Lemma count_app (f : bytes -> bool) (l1 l2 : list bytes) : count f (l1 ++ l2) = count f l1 + count f l2.
Proof. induction l1 as [|p l1 IH]; [done|]. cbn [app count]. rewrite IH. lia. Qed.

Lemma count_nonneg (f : bytes -> bool) (l : list bytes) : 0 <= count f l.
Proof. induction l as [|p l IH]; cbn [count]; [lia|]. destruct (f p); simpl; lia. Qed.

Lemma count_none (f : bytes -> bool) (l : list bytes) : Forall (fun p => f p = false) l -> count f l = 0.
Proof. induction 1 as [|p l Hp _ IH]; [done|]. cbn [count]. by rewrite Hp, IH. Qed.

Lemma count_all (f : bytes -> bool) (l : list bytes) : Forall (fun p => f p = true) l -> count f l = zlen l.
Proof.
  induction 1 as [|p l Hp _ IH]; [done|]. cbn [count]. rewrite Hp, IH. unfold zlen. cbn [length Z.b2z]. lia.
Qed.

(** ** Kinds of cells *)

Definition cmd_of (p : bytes) : Z := rh_command (header p).
Definition sid_of (p : bytes) : Z := stream_id (header p).

Lemma kind_data (p : bytes) (sid : Z) : cmd_of p = RELAY_COMMAND_DATA ->
  is_data p = true /\ is_csend p = false /\ data_of sid p = (sid_of p =? sid) /\ ssend_of sid p = false.
Proof. unfold cmd_of, is_data, is_csend, data_of, ssend_of, is_data. by intros ->. Qed.

Lemma kind_sendme (p : bytes) (sid : Z) : cmd_of p = RELAY_COMMAND_SENDME ->
  is_data p = false /\ is_csend p = (sid_of p =? 0) /\ data_of sid p = false /\ ssend_of sid p = (sid_of p =? sid).
Proof. unfold cmd_of, is_data, is_csend, data_of, ssend_of, is_data. by intros ->. Qed.

Lemma kind_other (p : bytes) (sid : Z) : cmd_of p <> RELAY_COMMAND_SENDME ->
  is_csend p = false /\ ssend_of sid p = false.
Proof. unfold cmd_of, is_csend, ssend_of. by intros ->%Z.eqb_neq. Qed.

Lemma kind_nodata (p : bytes) (sid : Z) : cmd_of p <> RELAY_COMMAND_DATA ->
  is_data p = false /\ data_of sid p = false.
Proof. unfold cmd_of, data_of, is_data. by intros ->%Z.eqb_neq. Qed.

Lemma header_sid_range (p : bytes) : okp p -> 0 <= sid_of p < 65536.
Proof.
  intros Hp. pose proof (okp_unpack p Hp) as Hu. destruct Hp as [(_ & rh & Hu' & (_ & _ & H & _) & _) _].
  unfold sid_of. rewrite Hu in Hu'. injection Hu' as ->. lia.
Qed.

Lemma sendme_next (w : Z) : 0 < w -> circuit_sendme_cell_is_next w = ((w - 1) mod 100 =? 0).
Proof.
  intros Hw. unfold circuit_sendme_cell_is_next, CIRCWINDOW_START, CIRCWINDOW_INCREMENT.
  rewrite Z.rem_mod_nonneg by lia. destruct (Z.eqb_spec w 1000) as [->|_]; [done|].
  by destruct ((w - 1) mod 100 =? 0).
Qed.

Section dir.
Context (hash : bytes -> bytes).

Abbreviation digest20 := (digest20 hash).

(** The digests, among those of the DATA cells [ps] in flight, that the receiver will
    acknowledge: [w] is its window now, [rd] what its digest has absorbed. *)
Fixpoint marked (w : Z) (rd : bytes) (ps : list bytes) : list bytes :=
  match ps with
  | [] => []
  | p :: ps =>
      if is_data p
      then (if (w - 1) mod 100 =? 0 then [digest20 (rd ++ p)] else []) ++ marked (w - 1) (rd ++ p) ps
      else marked w (rd ++ p) ps
  end.

Lemma marked_shift (ps : list bytes) : forall w rd, marked (w + 100) rd ps = marked w rd ps.
Proof.
  induction ps as [|p ps IH]; intros w rd; cbn [marked]; [done|].
  replace (w + 100 - 1) with ((w - 1) + 100) by lia. rewrite !IH.
  replace ((w - 1 + 100) mod 100) with ((w - 1) mod 100); [done|].
  by rewrite <- (Z_mod_plus_full (w - 1) 1 100).
Qed.

Lemma marked_app (ps1 ps2 : list bytes) : forall w rd,
  marked w rd (ps1 ++ ps2) = marked w rd ps1 ++ marked (w - count is_data ps1) (rd ++ concat ps1) ps2.
Proof.
  induction ps1 as [|p ps1 IH]; intros w rd; cbn [app marked count concat].
  - by rewrite Z.sub_0_r, app_nil_r.
  - destruct (is_data p); cbn [Z.b2z]; rewrite IH, <- !app_assoc; [|done]. do 3 f_equal. lia.
Qed.

Lemma marked_none (ps : list bytes) : forall w rd, Forall (fun p => is_data p = false) ps -> marked w rd ps = [].
Proof.
  induction ps as [|p ps IH]; intros w rd Hps; [done|]. apply Forall_cons in Hps as [Hp Hps].
  cbn [marked]. rewrite Hp. by apply IH.
Qed.

(** ** The invariant

    [initial] is the package window the sender started with, [v1] the version of the SENDMEs of
    the receiver. Of the sender: its package window [pkg], the digests [last] it expects back,
    the package windows [px] of its streams. Of the receiver: its deliver window [dlv], what
    its digest has absorbed, the deliver windows [dy] of its streams. In flight: [ps] to
    the receiver, [qs] to the sender. *)
Record dir (initial : Z) (v1 : bool) (pkg : Z) (last : list bytes) (px : gmap Z Z) (dlv : Z) (rd : bytes)
    (dy : gmap Z Z) (ps qs : list bytes) : Prop := {
  d_sum : pkg + count is_data ps + 100 * count is_csend qs = dlv - (1000 - initial);
  d_pkg : 0 <= pkg;
  d_dlv : 900 < dlv <= 1000;
  d_last : exists ds, last = ds ++ marked dlv rd ps /\
             Forall2 (valid_sendme v1) (List.filter is_csend qs) ds;
  d_ids : (forall sid w, px !! sid = Some w -> 0 < sid < 65536) /\ (forall sid w, dy !! sid = Some w -> 0 < sid < 65536);
  d_px : forall sid w, px !! sid = Some w ->
           0 <= w /\ w + count (data_of sid) ps + 50 * count (ssend_of sid) qs <= 500;
  d_dy : forall sid w, dy !! sid = Some w -> count (data_of sid) ps <= w <= 500;
  d_both : forall sid w w', px !! sid = Some w -> dy !! sid = Some w' ->
           w + count (data_of sid) ps + 50 * count (ssend_of sid) qs = w'
}.

Context (initial : Z) (v1 : bool).
Hypothesis initial_ok : 100 <= initial <= 1000 /\ initial mod 100 = 0.

Abbreviation dirI := (dir initial v1).

Lemma dir_start (rd : bytes) (m : gmap Z Z) : (forall sid w, m !! sid = Some w -> 0 < sid < 65536 /\ w = 500) ->
  dirI initial [] m 1000 rd m [] [].
Proof.
  intros Hm. split; cbn [count]; try lia.
  - exists []. by split.
  - split; intros sid w H; by destruct (Hm sid w H).
  - intros sid w H. destruct (Hm sid w H). lia.
  - intros sid w H. destruct (Hm sid w H). lia.
  - intros sid w w' H H'. destruct (Hm sid w H), (Hm sid w' H'). lia.
Qed.

(** The sender packages a DATA cell. *)
Lemma dir_package (pkg : Z) (last : list bytes) (px : gmap Z Z) (dlv : Z) (rd : bytes) (dy : gmap Z Z)
    (ps qs : list bytes) (p : bytes) (w : Z) :
  dirI pkg last px dlv rd dy ps qs -> cmd_of p = RELAY_COMMAND_DATA -> px !! sid_of p = Some w -> 0 < w -> 0 < pkg ->
  dirI (pkg - 1) (if circuit_sendme_cell_is_next pkg then last ++ [digest20 (rd ++ concat ps ++ p)] else last)
    (<[sid_of p := w - 1]> px) dlv rd dy (ps ++ [p]) qs.
Proof.
  intros [Hsum Hpkg Hdlv (ds & -> & Hds) [Hi1 Hi2] Hpx Hdy Hb] Hc Hw Hw0 Hp0.
  destruct (kind_data p 0 Hc) as (Hd & _).
  assert (Hof : forall sid, count (data_of sid) (ps ++ [p]) = count (data_of sid) ps + Z.b2z (sid_of p =? sid)).
  { intros sid. rewrite count_app. cbn [count]. destruct (kind_data p sid Hc) as (_ & _ & -> & _). lia. }
  destruct (Hpx _ _ Hw) as [_ Hw5]. pose proof (count_nonneg (data_of (sid_of p)) ps).
  pose proof (count_nonneg (ssend_of (sid_of p)) qs).
  split.
  - rewrite count_app. cbn [count]. rewrite Hd. cbn [Z.b2z]. lia.
  - lia.
  - done.
  - exists ds. split; [|done]. rewrite marked_app. cbn [marked]. rewrite Hd, !app_nil_r, sendme_next by lia.
    assert (E : (pkg - 1) mod 100 = (dlv - count is_data ps - 1) mod 100).
    { rewrite <- (Z_mod_plus_full (pkg - 1) (count is_csend qs + (1000 - initial) / 100) 100). f_equal.
      destruct initial_ok as [_ Hm]. lia. }
    rewrite E. destruct (_ =? 0); [|by rewrite app_nil_r]. by rewrite <- !app_assoc.
  - split; [|done]. intros sid x. destruct (decide (sid = sid_of p)) as [->|Hne].
    + intros _. by apply (Hi1 _ w).
    + rewrite lookup_insert_ne by done. apply Hi1.
  - intros sid x. rewrite Hof. destruct (decide (sid_of p = sid)) as [<-|Hne].
    + rewrite lookup_insert_eq. intros [= <-]. rewrite Z.eqb_refl. cbn. lia.
    + rewrite lookup_insert_ne by done. rewrite (proj2 (Z.eqb_neq _ _) Hne). intros Hx. apply Hpx in Hx. cbn. lia.
  - intros sid x Hx. rewrite Hof. destruct (Z.eqb_spec (sid_of p) sid) as [<-|Hne]; cbn [Z.b2z].
    + pose proof (Hb _ _ _ Hw Hx). pose proof (Hdy _ _ Hx). lia.
    + pose proof (Hdy _ _ Hx). lia.
  - intros sid x x'. rewrite Hof. destruct (decide (sid_of p = sid)) as [<-|Hne].
    + rewrite lookup_insert_eq. intros [= <-] Hx. rewrite Z.eqb_refl. cbn. pose proof (Hb _ _ _ Hw Hx). lia.
    + rewrite lookup_insert_ne by done. rewrite (proj2 (Z.eqb_neq _ _) Hne). cbn. intros Hx Hx'.
      pose proof (Hb _ _ _ Hx Hx'). lia.
Qed.
(** The sender sends cells that are not DATA. *)
Lemma dir_send_ps (pkg : Z) (last : list bytes) (px : gmap Z Z) (dlv : Z) (rd : bytes) (dy : gmap Z Z)
    (ps qs l : list bytes) :
  dirI pkg last px dlv rd dy ps qs -> Forall (fun p => cmd_of p <> RELAY_COMMAND_DATA) l ->
  dirI pkg last px dlv rd dy (ps ++ l) qs.
Proof.
  intros [Hsum Hpkg Hdlv (ds & -> & Hds) Hi Hpx Hdy Hb] Hl.
  assert (H0 : count is_data (ps ++ l) = count is_data ps).
  { rewrite count_app, (count_none _ l); [lia|]. eapply Forall_impl; [exact Hl|]. intros p Hp. by apply (kind_nodata p 0). }
  assert (H1 : forall sid, count (data_of sid) (ps ++ l) = count (data_of sid) ps).
  { intros sid. rewrite count_app, (count_none _ l); [lia|]. eapply Forall_impl; [exact Hl|]. intros p Hp. by apply kind_nodata. }
  split; try done.
  - by rewrite H0.
  - exists ds. rewrite marked_app, (marked_none l), app_nil_r; [done|].
    eapply Forall_impl; [exact Hl|]. intros p Hp. by apply (kind_nodata p 0).
  - intros sid w. rewrite H1. apply Hpx.
  - intros sid w. rewrite H1. apply Hdy.
  - intros sid w w'. rewrite H1. apply Hb.
Qed.

(** The receiver sends cells that are not SENDMEs. *)
Lemma dir_send_qs (pkg : Z) (last : list bytes) (px : gmap Z Z) (dlv : Z) (rd : bytes) (dy : gmap Z Z)
    (ps qs l : list bytes) :
  dirI pkg last px dlv rd dy ps qs -> Forall (fun p => cmd_of p <> RELAY_COMMAND_SENDME) l ->
  dirI pkg last px dlv rd dy ps (qs ++ l).
Proof.
  intros [Hsum Hpkg Hdlv (ds & -> & Hds) Hi Hpx Hdy Hb] Hl.
  assert (H0 : count is_csend (qs ++ l) = count is_csend qs /\ List.filter is_csend (qs ++ l) = List.filter is_csend qs).
  { induction Hl as [|p l Hp _ [IH1 IH2]]; [by rewrite app_nil_r|].
    rewrite count_app in *. rewrite List.filter_app in *. cbn [count List.filter].
    destruct (kind_other p 0 Hp) as [-> _]. cbn [Z.b2z]. split; [lia|done]. }
  assert (H1 : forall sid, count (ssend_of sid) (qs ++ l) = count (ssend_of sid) qs).
  { intros sid. rewrite count_app, (count_none _ l); [lia|]. eapply Forall_impl; [exact Hl|]. intros p Hp. by apply kind_other. }
  destruct H0 as [H0 H2]. split; try done.
  - by rewrite H0.
  - exists ds. by rewrite H2.
  - intros sid w. rewrite H1. apply Hpx.
  - intros sid w w'. rewrite H1. apply Hb.
Qed.

(** The receiver takes a cell that is not DATA. *)
Lemma dir_recv_ps (pkg : Z) (last : list bytes) (px : gmap Z Z) (dlv : Z) (rd : bytes) (dy : gmap Z Z)
    (ps qs : list bytes) (p : bytes) :
  dirI pkg last px dlv rd dy (p :: ps) qs -> cmd_of p <> RELAY_COMMAND_DATA ->
  dirI pkg last px dlv (rd ++ p) dy ps qs.
Proof.
  intros [Hsum Hpkg Hdlv (ds & -> & Hds) Hi Hpx Hdy Hb] Hp.
  cbn [count marked] in *. rewrite (proj1 (kind_nodata p 0 Hp)) in *. cbn [Z.b2z] in *.
  assert (H1 : forall sid, data_of sid p = false) by (intros sid; by apply kind_nodata).
  split; try done.
  - by exists ds.
  - intros sid w Hw. specialize (Hpx sid w Hw). rewrite H1 in Hpx. cbn in Hpx. lia.
  - intros sid w Hw. specialize (Hdy sid w Hw). rewrite H1 in Hdy. cbn in Hdy. lia.
  - intros sid w w' Hw Hw'. specialize (Hb sid w w' Hw Hw'). rewrite H1 in Hb. cbn in Hb. lia.
Qed.

(** The sender takes a cell that is not a SENDME. *)
Lemma dir_recv_qs (pkg : Z) (last : list bytes) (px : gmap Z Z) (dlv : Z) (rd : bytes) (dy : gmap Z Z)
    (ps qs : list bytes) (p : bytes) :
  dirI pkg last px dlv rd dy ps (p :: qs) -> cmd_of p <> RELAY_COMMAND_SENDME ->
  dirI pkg last px dlv rd dy ps qs.
Proof.
  intros [Hsum Hpkg Hdlv (ds & -> & Hds) Hi Hpx Hdy Hb] Hp.
  cbn [count List.filter] in *. rewrite (proj1 (kind_other p 0 Hp)) in *. cbn [Z.b2z] in *.
  assert (H1 : forall sid, ssend_of sid p = false) by (intros sid; by apply kind_other).
  split; try done.
  - by exists ds.
  - intros sid w Hw. specialize (Hpx sid w Hw). rewrite H1 in Hpx. cbn in Hpx. lia.
  - intros sid w w' Hw Hw'. specialize (Hb sid w w' Hw Hw'). rewrite H1 in Hb. cbn in Hb. lia.
Qed.

(** The sender takes a circuit-level SENDME: it carries the digest that is expected, and makes
    room for no more than the sender started with. *)
Lemma dir_recv_csend (pkg : Z) (last : list bytes) (px : gmap Z Z) (dlv : Z) (rd : bytes) (dy : gmap Z Z)
    (ps qs : list bytes) (p : bytes) :
  dirI pkg last px dlv rd dy ps (p :: qs) -> cmd_of p = RELAY_COMMAND_SENDME -> sid_of p = 0 ->
  pkg + 100 <= initial /\
  exists d rest, last = d :: rest /\ valid_sendme v1 p d /\ dirI (pkg + 100) rest px dlv rd dy ps qs.
Proof.
  intros [Hsum Hpkg Hdlv (ds & -> & Hds) [Hi1 Hi2] Hpx Hdy Hb] Hp Hs.
  cbn [count List.filter] in *. destruct (kind_sendme p 0 Hp) as (_ & Hcs & _). rewrite Hcs, Hs in *. cbn [Z.eqb Z.b2z] in *.
  apply Forall2_cons_inv_l in Hds as (d & ds' & Hd & Hds & ->).
  pose proof (count_nonneg is_data ps). pose proof (count_nonneg is_csend qs).
  assert (H1 : forall sid, 0 < sid -> ssend_of sid p = false).
  { intros sid Hsid. destruct (kind_sendme p sid Hp) as (_ & _ & _ & ->). apply Z.eqb_neq. lia. }
  split; [lia|]. exists d, (ds' ++ marked dlv rd ps). split; [done|]. split; [done|]. split; try done; try lia.
  - by exists ds'.
  - intros sid w Hw. destruct (Hi1 sid w Hw). specialize (Hpx sid w Hw). rewrite H1 in Hpx by done. cbn in Hpx. lia.
  - intros sid w w' Hw Hw'. destruct (Hi1 sid w Hw). specialize (Hb sid w w' Hw Hw'). rewrite H1 in Hb by done. cbn in Hb. lia.
Qed.

(** The sender takes a SENDME for a stream. *)
Lemma dir_recv_ssend (pkg : Z) (last : list bytes) (px : gmap Z Z) (dlv : Z) (rd : bytes) (dy : gmap Z Z)
    (ps qs : list bytes) (p : bytes) :
  dirI pkg last px dlv rd dy ps (p :: qs) -> cmd_of p = RELAY_COMMAND_SENDME -> sid_of p <> 0 ->
  (forall w, px !! sid_of p = Some w -> w + 50 <= 500) /\
  dirI pkg last (match px !! sid_of p with Some w => <[sid_of p := w + 50]> px | None => px end) dlv rd dy ps qs.
Proof.
  intros [Hsum Hpkg Hdlv (ds & -> & Hds) [Hi1 Hi2] Hpx Hdy Hb] Hp Hs.
  cbn [count List.filter] in *. destruct (kind_sendme p 0 Hp) as (_ & Hcs & _).
  rewrite Hcs, (proj2 (Z.eqb_neq _ _) Hs) in *. cbn [Z.b2z] in *.
  assert (H1 : forall sid, ssend_of sid p = (sid_of p =? sid)) by (intros sid; by apply kind_sendme).
  split.
  { intros w Hw. destruct (Hpx _ _ Hw) as [_ Hle]. rewrite H1, Z.eqb_refl in Hle. cbn in Hle.
    pose proof (count_nonneg (data_of (sid_of p)) ps). pose proof (count_nonneg (ssend_of (sid_of p)) qs). lia. }
  set (px' := match px !! sid_of p with Some w => <[sid_of p := w + 50]> px | None => px end).
  assert (Hpx' : forall sid w, px' !! sid = Some w -> exists w0, px !! sid = Some w0 /\ w = w0 + 50 * Z.b2z (sid_of p =? sid)).
  { intros sid w. unfold px'. destruct (px !! sid_of p) as [w0|] eqn:E.
    - destruct (decide (sid_of p = sid)) as [<-|Hne].
      + rewrite lookup_insert_eq, Z.eqb_refl. intros [= <-]. exists w0. split; [done|]. cbn. lia.
      + rewrite lookup_insert_ne by done. rewrite (proj2 (Z.eqb_neq _ _) Hne). exists w. split; [done|]. cbn. lia.
    - intros Hw. exists w. split; [done|]. destruct (Z.eqb_spec (sid_of p) sid) as [<-|]; [congruence|]. cbn. lia. }
  clearbody px'. split; try done.
  - by exists ds.
  - split; [|done]. intros sid w Hw. destruct (Hpx' sid w Hw) as (w0 & Hw0 & _). by apply (Hi1 sid w0).
  - intros sid w Hw. destruct (Hpx' sid w Hw) as (w0 & Hw0 & ->). specialize (Hpx sid w0 Hw0).
    rewrite H1 in Hpx. destruct (sid_of p =? sid); cbn [Z.b2z] in *; lia.
  - intros sid w w' Hw Hw'. destruct (Hpx' sid w Hw) as (w0 & Hw0 & ->). specialize (Hb sid w0 w' Hw0 Hw').
    rewrite H1 in Hb. destruct (sid_of p =? sid); cbn [Z.b2z] in *; lia.
Qed.

(** The receiver acknowledges a stream. *)
Lemma dir_flush (pkg : Z) (last : list bytes) (px : gmap Z Z) (dlv : Z) (rd : bytes) (dy : gmap Z Z)
    (ps qs ss : list bytes) (sid w : Z) :
  dirI pkg last px dlv rd dy ps qs -> dy !! sid = Some w -> w + 50 * zlen ss <= 500 ->
  Forall (fun p => cmd_of p = RELAY_COMMAND_SENDME /\ sid_of p = sid) ss ->
  dirI pkg last px dlv rd (<[sid := w + 50 * zlen ss]> dy) ps (qs ++ ss).
Proof.
  intros [Hsum Hpkg Hdlv (ds & -> & Hds) [Hi1 Hi2] Hpx Hdy Hb] Hw Hle Hss.
  pose proof (Hi2 _ _ Hw) as Hsid. pose proof (zlen_nonneg ss) as Hz.
  assert (H0 : count is_csend ss = 0 /\ List.filter is_csend ss = []).
  { clear Hz Hle. induction Hss as [|p ss [Hp Hs] _ [IH1 IH2]]; [done|]. cbn [count List.filter].
    destruct (kind_sendme p 0 Hp) as (_ & -> & _). rewrite Hs, (proj2 (Z.eqb_neq _ _)) by lia. by rewrite IH1. }
  assert (H1 : forall sid', count (ssend_of sid') (qs ++ ss) =
                 count (ssend_of sid') qs + (if sid =? sid' then zlen ss else 0)).
  { intros sid'. rewrite count_app. f_equal. destruct (Z.eqb_spec sid sid') as [<-|Hne].
    - apply count_all. eapply Forall_impl; [exact Hss|]. intros p [Hp <-].
      destruct (kind_sendme p (sid_of p) Hp) as (_ & _ & _ & ->). apply Z.eqb_refl.
    - apply count_none. eapply Forall_impl; [exact Hss|]. intros p [Hp <-].
      destruct (kind_sendme p sid' Hp) as (_ & _ & _ & ->). by apply Z.eqb_neq. }
  destruct H0 as [H0 H2]. split; try done.
  - rewrite count_app, H0. lia.
  - exists ds. by rewrite List.filter_app, H2, app_nil_r.
  - split; [done|]. intros sid' x. destruct (decide (sid = sid')) as [<-|Hne]; [done|].
    rewrite lookup_insert_ne by done. apply Hi2.
  - intros sid' x Hx. rewrite H1. specialize (Hpx sid' x Hx). destruct (Z.eqb_spec sid sid') as [<-|]; [|lia].
    specialize (Hb sid x w Hx Hw). lia.
  - intros sid' x. destruct (decide (sid = sid')) as [<-|Hne].
    + rewrite lookup_insert_eq. intros [= <-]. specialize (Hdy sid w Hw). lia.
    + rewrite lookup_insert_ne by done. apply Hdy.
  - intros sid' x x' Hx. rewrite H1. destruct (Z.eqb_spec sid sid') as [<-|Hne].
    + rewrite lookup_insert_eq. intros [= <-]. specialize (Hb sid x w Hx Hw). lia.
    + rewrite lookup_insert_ne by done. intros Hx'. specialize (Hb sid' x x' Hx Hx'). lia.
Qed.

(** The receiver takes a DATA cell, and answers the hundredth with a SENDME of its digest. *)
Lemma dir_recv_data (pkg : Z) (last : list bytes) (px : gmap Z Z) (dlv : Z) (rd : bytes) (dy : gmap Z Z)
    (ps qs cs : list bytes) (p : bytes) :
  dirI pkg last px dlv rd dy (p :: ps) qs -> cmd_of p = RELAY_COMMAND_DATA ->
  (if dlv =? 901 then exists q, cs = [q] /\ cmd_of q = RELAY_COMMAND_SENDME /\ sid_of q = 0 /\
                          valid_sendme v1 q (digest20 (rd ++ p)) else cs = []) ->
  dirI pkg last px (if dlv =? 901 then 1000 else dlv - 1) (rd ++ p)
    (match dy !! sid_of p with Some w => <[sid_of p := w - 1]> dy | None => dy end) ps (qs ++ cs).
Proof.
  intros [Hsum Hpkg Hdlv (ds & -> & Hds) [Hi1 Hi2] Hpx Hdy Hb] Hc Hcs.
  cbn [count marked] in *. destruct (kind_data p 0 Hc) as (Hd & _). rewrite Hd in *. cbn [Z.b2z] in *.
  assert (H1 : forall sid, data_of sid p = (sid_of p =? sid)) by (intros sid; by apply kind_data).
  assert (H2 : forall sid, 0 < sid -> count (ssend_of sid) (qs ++ cs) = count (ssend_of sid) qs).
  { intros sid Hsid. rewrite count_app. destruct (Z.eqb_spec dlv 901) as [->|]; [|subst cs; cbn; lia].
    destruct Hcs as (q & -> & Hq & Hq0 & _). cbn [count]. destruct (kind_sendme q sid Hq) as (_ & _ & _ & ->).
    rewrite Hq0, (proj2 (Z.eqb_neq _ _)) by lia. cbn. lia. }
  set (dy' := match dy !! sid_of p with Some w => <[sid_of p := w - 1]> dy | None => dy end).
  assert (Hdy' : forall sid w, dy' !! sid = Some w -> exists w0, dy !! sid = Some w0 /\ w = w0 - Z.b2z (sid_of p =? sid)).
  { intros sid w. unfold dy'. destruct (dy !! sid_of p) as [w0|] eqn:E.
    - destruct (decide (sid_of p = sid)) as [<-|Hne].
      + rewrite lookup_insert_eq, Z.eqb_refl. intros [= <-]. by exists w0.
      + rewrite lookup_insert_ne by done. rewrite (proj2 (Z.eqb_neq _ _) Hne). exists w. split; [done|]. cbn. lia.
    - intros Hw. exists w. split; [done|]. destruct (Z.eqb_spec (sid_of p) sid) as [<-|]; [congruence|]. cbn. lia. }
  clearbody dy'. split.
  - rewrite count_app. destruct (Z.eqb_spec dlv 901) as [->|]; [|subst cs; cbn; lia].
    destruct Hcs as (q & -> & Hq & Hq0 & _). cbn [count]. destruct (kind_sendme q 0 Hq) as (_ & -> & _).
    rewrite Hq0. cbn. lia.
  - done.
  - destruct (Z.eqb_spec dlv 901); lia.
  - destruct (Z.eqb_spec dlv 901) as [->|Hne].
    + destruct Hcs as (q & -> & Hq & Hq0 & Hv). exists (ds ++ [digest20 (rd ++ p)]). split.
      * change ((901 - 1) mod 100 =? 0) with true. cbn iota. change (1000) with (901 - 1 + 100).
        rewrite marked_shift. by rewrite <- !app_assoc.
      * rewrite List.filter_app. cbn [List.filter]. destruct (kind_sendme q 0 Hq) as (_ & -> & _). rewrite Hq0. cbn.
        apply Forall2_app; [done|]. by repeat constructor.
    + exists ds. subst cs. rewrite app_nil_r. split; [|done].
      assert (((dlv - 1) mod 100 =? 0) = false) as -> by (apply Z.eqb_neq; lia). done.
  - split; [done|]. intros sid w Hw. destruct (Hdy' sid w Hw) as (w0 & Hw0 & _). by apply (Hi2 sid w0).
  - intros sid w Hw. pose proof (Hi1 sid w Hw). rewrite H2 by lia. specialize (Hpx sid w Hw). rewrite H1 in Hpx.
    destruct (sid_of p =? sid); cbn [Z.b2z] in *; lia.
  - intros sid w Hw. destruct (Hdy' sid w Hw) as (w0 & Hw0 & ->). specialize (Hdy sid w0 Hw0). rewrite H1 in Hdy.
    destruct (sid_of p =? sid); cbn [Z.b2z] in *; lia.
  - intros sid w w' Hw Hw'. pose proof (Hi1 sid w Hw). rewrite H2 by lia.
    destruct (Hdy' sid w' Hw') as (w0 & Hw0 & ->). specialize (Hb sid w w0 Hw Hw0). rewrite H1 in Hb.
    destruct (sid_of p =? sid); cbn [Z.b2z] in *; lia.
Qed.

(** A stream ends, at one end or the other. *)
Lemma dir_close (pkg : Z) (last : list bytes) (px px' : gmap Z Z) (dlv : Z) (rd : bytes) (dy dy' : gmap Z Z)
    (ps qs : list bytes) :
  dirI pkg last px dlv rd dy ps qs -> px' ⊆ px -> dy' ⊆ dy -> dirI pkg last px' dlv rd dy' ps qs.
Proof.
  intros [Hsum Hpkg Hdlv Hl [Hi1 Hi2] Hpx Hdy Hb] Hsx Hsy.
  assert (Hx : forall sid w, px' !! sid = Some w -> px !! sid = Some w) by (intros sid w H; exact (lookup_weaken _ _ _ _ H Hsx)).
  assert (Hy : forall sid w, dy' !! sid = Some w -> dy !! sid = Some w) by (intros sid w H; exact (lookup_weaken _ _ _ _ H Hsy)).
  split; try done; [split|..]; eauto.
Qed.

(** The DATA cells in flight are no more than the receiver still takes. *)
Lemma dir_bounds (pkg : Z) (last : list bytes) (px : gmap Z Z) (dlv : Z) (rd : bytes) (dy : gmap Z Z)
    (ps qs : list bytes) : dirI pkg last px dlv rd dy ps qs ->
  0 <= pkg <= initial /\ count is_data ps + pkg <= initial /\ (length last <= 10)%nat.
Proof.
  intros [Hsum Hpkg Hdlv (ds & -> & Hds) _ _ _ _].
  pose proof (count_nonneg is_data ps). pose proof (count_nonneg is_csend qs).
  split; [lia|]. split; [lia|]. rewrite length_app.
  assert (Hlen : Z.of_nat (length ds) = count is_csend qs).
  { apply Forall2_length in Hds. rewrite <- Hds. clear. induction qs as [|q qs IH]; [done|]. cbn [List.filter count].
    destruct (is_csend q); cbn [length Z.b2z]; lia. }
  assert (Hm : forall ps w rd, (length (marked w rd ps) <= Z.to_nat ((w - 1) / 100 - (w - count is_data ps - 1) / 100))%nat).
  { clear. induction ps as [|p ps IH]; intros w rd; cbn [marked count length]; [lia|].
    pose proof (count_nonneg is_data ps). destruct (is_data p); cbn [Z.b2z]; [|replace (0 + count is_data ps) with (count is_data ps) by lia; apply IH].
    rewrite length_app. specialize (IH (w - 1) (rd ++ p)).
    replace (w - 1 - count is_data ps - 1) with (w - (1 + count is_data ps) - 1) in IH by lia.
    destruct (Z.eqb_spec ((w - 1) mod 100) 0); cbn [length]; lia. }
  specialize (Hm ps dlv rd). lia.
Qed.
End dir.
