(* ===== verification/SendmeFlow.v ===== *)
(** * Flow control between the two ends of a circuit

    The origin of a circuit and its exit, the cells in flight both ways, and any interleaving
    of what the two ends do: between honest ends the authenticated SENDMEs never close the
    circuit, the windows bound the data in flight, and the data never stops for good. *)
From stdpp Require Import gmap.
From S2P Require Import Prelude ParseInt Endian DiOps Strings Cells RelayCell SendmeCell RelayCrypto Onion Sendme SendmeFacts SendmeDir.

(** ** The two ends and the cells between them *)

Record sys {cipher : Type} := {
  circ_of : side -> circuit cipher;
  wires_to : side -> list bytes
}.
Arguments sys : clear implicits.

(** What an end does. [Package] is one turn of the loop of [connection_edge_package_raw_inbuf],
    [Send] any other relay cell, [Flush] what [connection_edge_process_flushed_some] does,
    [Close] the end of a stream, [Receive] the arrival of the next cell in flight. *)
Inductive action :=
  | Package (s : side) (sid : Z) (data random : bytes)
  | Send (s : side) (sid cmd : Z) (data random : bytes)
  | Flush (s : side) (sid : Z) (random : nat -> bytes)
  | Close (s : side) (sid : Z)
  | Receive (s : side) (optimistic_data outbuf_too_full : bool) (random : nat -> bytes).

Definition is_side (s t : side) : bool :=
  match s, t with Client, Client => true | Exit, Exit => true | _, _ => false end.
Definition upd {A : Type} (f : side -> A) (s : side) (x : A) : side -> A := fun t => if is_side s t then x else f t.

Lemma upd_same {A : Type} (f : side -> A) (s : side) (x : A) : upd f s x s = x.
Proof. by destruct s. Qed.
Lemma upd_other {A : Type} (f : side -> A) (s : side) (x : A) : upd f s x (other s) = f (other s).
Proof. by destruct s. Qed.
Lemma upd_other' {A : Type} (f : side -> A) (s : side) (x : A) : upd f (other s) x s = f s.
Proof. by destruct s. Qed.
Lemma other_other (s : side) : other (other s) = s.
Proof. by destruct s. Qed.
Lemma side_cases (s t : side) : t = s \/ t = other s.
Proof. destruct s, t; auto. Qed.

Section flow.
Context {cipher : Type} (crypt : cipher -> bytes -> bytes * cipher) (hash : bytes -> bytes).
Context (np : side -> option (list bytes)).

Abbreviation circuit := (circuit cipher).
Abbreviation state := (sys cipher).

(** End [s] is now [c], has [rest] still to receive, and sends [ws]. *)
Definition put (y : state) (s : side) (c : circuit) (rest ws : list bytes) : state :=
  {| circ_of := upd (circ_of y) s c;
     wires_to := upd (upd (wires_to y) s rest) (other s) (wires_to y (other s) ++ ws) |}.

Definition exec (y : state) (a : action) : outcome state :=
  match a with
  | Package s sid data random =>
      match streams (circ_of y s) !! sid with
      | None => Ok y
      | Some _ =>
          let* (c, w) := package_data crypt hash (circ_of y s) sid (layer s) data random in
          Ok (put y s c (wires_to y s) (match w with Some w => [w] | None => [] end))
      end
  | Send s sid cmd data random =>
      let* (c, w) := relay_send_command_from_edge crypt hash sid (circ_of y s) cmd data (layer s) random in
      Ok (put y s c (wires_to y s) [w])
  | Flush s sid random =>
      match streams (circ_of y s) !! sid with
      | None => Ok y
      | Some _ =>
          let* (c, ws) := sendme_connection_edge_consider_sending crypt hash (circ_of y s) sid (layer s) false random in
          Ok (put y s c (wires_to y s) ws)
      end
  | Close s sid => Ok (put y s (with_streams (circ_of y s) (delete sid (streams (circ_of y s)))) (wires_to y s) [])
  | Receive s opt full random =>
      match wires_to y s with
      | [] => Ok y
      | w :: rest =>
          let* (c, ws) := receive_relay_cell crypt hash (np s) (circ_of y s) w (rdir s) opt full random in
          Ok (put y s c rest ws)
      end
  end.

Fixpoint run (y : state) (l : list action) : outcome state :=
  match l with [] => Ok y | a :: l => let* y := exec y a in run y l end.

Lemma run_app (l1 l2 : list action) : forall y, run y (l1 ++ l2) = let* y := run y l1 in run y l2.
Proof. induction l1 as [|a l1 IH]; intros y; cbn [app run obind]; [done|]. destruct (exec y a); cbn [obind]; [apply IH|done..]. Qed.

(** The cells are within the limits of the callers: a payload that fits, a random source that
    fills it. [Send] is for commands other than DATA and SENDME. *)
Definition wf_action (a : action) : Prop :=
  match a with
  | Package _ _ data random => zlen data <= RELAY_PAYLOAD_SIZE /\ CELL_PAYLOAD_SIZE <= zlen random
  | Send _ sid cmd data random =>
      0 <= sid < 65536 /\ 0 <= cmd < 256 /\ cmd <> RELAY_COMMAND_DATA /\ cmd <> RELAY_COMMAND_SENDME /\
      zlen data <= RELAY_PAYLOAD_SIZE /\ CELL_PAYLOAD_SIZE <= zlen random
  | Flush _ _ random => forall i, CELL_PAYLOAD_SIZE <= zlen (random i)
  | Close _ _ => True
  | Receive _ _ _ random => forall i, CELL_PAYLOAD_SIZE <= zlen (random i)
  end.

Hypothesis crypt_length : forall c p, length (fst (crypt c p)) = length p.
Hypothesis crypt_involutive : forall c p, fst (crypt c (fst (crypt c p))) = p.
Hypothesis crypt_advance : forall c p q, length p = length q -> snd (crypt c p) = snd (crypt c q).
Hypothesis hash_length : forall s, (20 <= length (hash s))%nat.

(** The package window each end starts with; it accepts the version that the other emits. *)
Context (initial : side -> Z).
Hypothesis initial_ok : forall s, 100 <= initial s <= 1000 /\ initial s mod 100 = 0.
Hypothesis versions_ok : forall s, accepts (np s) (emits_v1 (np (other s))).

Abbreviation flight := (flight crypt hash).
Abbreviation view := (view cipher).

(** ** The invariant of the system *)

Definition pk (v : view) : gmap Z Z := e_package_window <$> v_str v.
Definition dl (v : view) : gmap Z Z := e_deliver_window <$> v_str v.

Definition dir_from (v : side -> view) (ps : side -> list bytes) (s : side) : Prop :=
  let r := other s in
  dir hash (initial s) (emits_v1 (np r)) (v_pkg (v s)) (v_last (v s)) (pk (v s)) (v_dlv (v r)) (v_rd (v r)) (dl (v r)) (ps r) (ps s).

Definition end_ok (y : state) (v : side -> view) (ps : side -> list bytes) (s : side) : Prop :=
  end_view s (circ_of y s) = Some (v s) /\
  flight (v_rc (v s)) (v_rd (v s)) (wires_to y s) (ps s) (v_sc (v (other s))) (v_sd (v (other s))) /\
  dir_from v ps s.

Definition sinv (y : state) (v : side -> view) (ps : side -> list bytes) : Prop := forall s, end_ok y v ps s.

(** One end moves: what is left to prove is the two directions. *)
Lemma sinv_put (y : state) (v : side -> view) (ps : side -> list bytes) (s : side) (c : circuit) (v' : view)
    (rest ps0 ws qs : list bytes) :
  sinv y v ps -> end_view s c = Some v' ->
  flight (v_rc v') (v_rd v') rest ps0 (v_sc (v (other s))) (v_sd (v (other s))) ->
  flight (v_sc (v s)) (v_sd (v s)) ws qs (v_sc v') (v_sd v') ->
  dir hash (initial s) (emits_v1 (np (other s))) (v_pkg v') (v_last v') (pk v') (v_dlv (v (other s))) (v_rd (v (other s)))
    (dl (v (other s))) (ps (other s) ++ qs) ps0 ->
  dir hash (initial (other s)) (emits_v1 (np s)) (v_pkg (v (other s))) (v_last (v (other s))) (pk (v (other s)))
    (v_dlv v') (v_rd v') (dl v') ps0 (ps (other s) ++ qs) ->
  sinv (put y s c rest ws) (upd v s v') (upd (upd ps s ps0) (other s) (ps (other s) ++ qs)).
Proof.
  intros Hi Hv Hf Hfs Hd Hd' t. destruct (Hi s) as (_ & Hf0 & _). destruct (Hi (other s)) as (Hv1 & Hf1 & _).
  rewrite other_other in Hf1. destruct (side_cases s t) as [->| ->]; unfold end_ok, dir_from, put; cbn [circ_of wires_to];
    rewrite ?other_other, ?upd_same, ?upd_other, ?upd_other', ?upd_same.
  - split; [done|]. by split.
  - split; [done|]. split; [|done]. by eapply flight_app.
Qed.

(** [sinv_put] for an end that receives nothing. *)
Lemma sinv_send (y : state) (v : side -> view) (ps : side -> list bytes) (s : side) (c : circuit) (v' : view) (ws qs : list bytes) :
  sinv y v ps -> end_view s c = Some v' -> v_rc v' = v_rc (v s) -> v_rd v' = v_rd (v s) ->
  flight (v_sc (v s)) (v_sd (v s)) ws qs (v_sc v') (v_sd v') ->
  dir hash (initial s) (emits_v1 (np (other s))) (v_pkg v') (v_last v') (pk v') (v_dlv (v (other s))) (v_rd (v (other s)))
    (dl (v (other s))) (ps (other s) ++ qs) (ps s) ->
  dir hash (initial (other s)) (emits_v1 (np s)) (v_pkg (v (other s))) (v_last (v (other s))) (pk (v (other s)))
    (v_dlv v') (v_rd (v s)) (dl v') (ps s) (ps (other s) ++ qs) ->
  sinv (put y s c (wires_to y s) ws) (upd v s v') (upd (upd ps s (ps s)) (other s) (ps (other s) ++ qs)).
Proof.
  intros Hi Hv Hc Hd Hf H1 H2. apply sinv_put; try done.
  - rewrite Hc, Hd. apply (Hi s).
  - by rewrite Hd.
Qed.

Lemma dirs (y : state) (v : side -> view) (ps : side -> list bytes) (s : side) : sinv y v ps ->
  end_view s (circ_of y s) = Some (v s) /\
  dir hash (initial s) (emits_v1 (np (other s))) (v_pkg (v s)) (v_last (v s)) (pk (v s)) (v_dlv (v (other s))) (v_rd (v (other s)))
    (dl (v (other s))) (ps (other s)) (ps s) /\
  dir hash (initial (other s)) (emits_v1 (np s)) (v_pkg (v (other s))) (v_last (v (other s))) (pk (v (other s)))
    (v_dlv (v s)) (v_rd (v s)) (dl (v s)) (ps s) (ps (other s)).
Proof.
  intros Hi. destruct (Hi s) as (Hv & _ & Hd). destruct (Hi (other s)) as (_ & _ & Hd').
  unfold dir_from in Hd, Hd'. rewrite other_other in Hd'. by split.
Qed.
(** ** Windows of the streams *)

Lemma fmap_insert_same (f : edge -> Z) (m : gmap Z edge) (sid : Z) (e e' : edge) :
  m !! sid = Some e -> f e' = f e -> f <$> <[sid := e']> m = f <$> m.
Proof.
  intros Hm He. rewrite fmap_insert, He. apply insert_id. by rewrite lookup_fmap, Hm.
Qed.

Lemma fmap_lookup_some (f : edge -> Z) (m : gmap Z edge) (sid : Z) (e : edge) :
  m !! sid = Some e -> (f <$> m) !! sid = Some (f e).
Proof. intros Hm. by rewrite lookup_fmap, Hm. Qed.

Lemma fmap_lookup_none (f : edge -> Z) (m : gmap Z edge) (sid : Z) : m !! sid = None -> (f <$> m) !! sid = None.
Proof. intros Hm. by rewrite lookup_fmap, Hm. Qed.

(** ** Every action keeps the invariant *)

Definition keeps (y : state) (a : action) : Prop :=
  exists y' v' ps', exec y a = Ok y' /\ sinv y' v' ps'.

Lemma exec_package (y : state) (v : side -> view) (ps : side -> list bytes) (s : side) (sid : Z) (data random : bytes) :
  sinv y v ps -> wf_action (Package s sid data random) ->
  keeps y (Package s sid data random) /\
  (forall e, streams (circ_of y s) !! sid = Some e -> 0 < v_pkg (v s) -> 0 < e_package_window e ->
   exists y' w, exec y (Package s sid data random) = Ok y' /\ wires_to y' (other s) = wires_to y (other s) ++ [w]).
Proof.
  intros Hi [Hd Hr]. destruct (dirs y v ps s Hi) as (Hv & D1 & D2). unfold keeps. cbn [exec].
  destruct (ev_streams s _ _ ∅ Hv) as [-> _].
  destruct (v_str (v s) !! sid) as [e|] eqn:He; [|split; [by exists y, v, ps|done]].
  assert (Hsid : 0 < sid < 65536) by (apply (proj1 (d_ids _ _ _ _ _ _ _ _ _ _ _ D1) sid (e_package_window e)); by apply fmap_lookup_some).
  pose proof (package_ok crypt hash crypt_advance hash_length s _ _ sid e data random Hv He ltac:(lia) Hd Hr) as Hp.
  destruct (Z.leb_spec (v_pkg (v s)) 0) as [Hle|Hpk]; cbn [orb] in Hp.
  { rewrite Hp. cbn [obind]. split; [|intros e' _; lia]. eexists _, _, _. split; [done|].
    apply sinv_send with (v' := v s) (qs := []); rewrite ?app_nil_r; try done. }
  destruct (Z.leb_spec (e_package_window e) 0) as [Hle|Hepk].
  { rewrite Hp. cbn [obind]. split; [|intros e' [= <-]; lia]. eexists _, _, _. split; [done|].
    apply sinv_send with (v' := v s) (qs := []); rewrite ?app_nil_r; try done. }
  destruct Hp as (p & c' & sdig & -> & Hok & Hc & Hs & _ & _ & Hv'). cbn [obind]. split.
  2: { intros e' [= <-] _ _. eexists _, _. split; [done|]. unfold put. cbn [wires_to]. by rewrite upd_same. }
  eexists _, _, _. split; [done|]. eapply sinv_send with (qs := [p]); [exact Hi|exact Hv'|done..|by apply flight_one| |].
  - cbn [v_pkg v_last v_sd]. assert (E : v_sd (v s) = v_rd (v (other s)) ++ concat (ps (other s))).
    { destruct (Hi (other s)) as (_ & Hf & _). rewrite other_other in Hf. by apply flight_digest in Hf. }
    rewrite E, <- app_assoc. unfold pk. cbn [v_str]. rewrite fmap_insert. cbn [e_package_window].
    unfold cmd_of in *. rewrite <- Hs in He |- *. apply (dir_package hash _ _ (initial_ok _)); try done.
    by apply fmap_lookup_some.
  - cbn [v_dlv]. unfold dl. cbn [v_str]. rewrite (fmap_insert_same _ _ _ e) by done.
    apply (dir_send_qs hash _ _ (initial_ok _)); [done|]. constructor; [|constructor]. unfold cmd_of. rewrite Hc. done.
Qed.

Lemma exec_send (y : state) (v : side -> view) (ps : side -> list bytes) (s : side) (sid cmd : Z) (data random : bytes) :
  sinv y v ps -> wf_action (Send s sid cmd data random) -> keeps y (Send s sid cmd data random).
Proof.
  intros Hi (Hsid & Hcmd & Hnd & Hns & Hd & Hr). destruct (dirs y v ps s Hi) as (Hv & D1 & D2). unfold keeps. cbn [exec].
  destruct (send_ok crypt hash crypt_advance hash_length s _ _ sid cmd data random Hv Hsid Hcmd Hd Hr)
    as (p & c' & sdig & -> & Hok & Hc & _ & _ & _ & Hv'). cbn [obind].
  rewrite (proj2 (Z.eqb_neq _ _) Hnd) in Hv'. cbn [andb] in Hv'.
  eexists _, _, _. split; [done|]. eapply sinv_send with (qs := [p]); [exact Hi|exact Hv'|done..|by apply flight_one| |].
  - apply dir_send_ps; [done|]. constructor; [|constructor]. unfold cmd_of. by rewrite Hc.
  - apply (dir_send_qs hash _ _ (initial_ok _)); [done|]. constructor; [|constructor]. unfold cmd_of. by rewrite Hc.
Qed.

(** Flushing a stream leaves it with more than 450 cells to take. *)
Lemma exec_flush (y : state) (v : side -> view) (ps : side -> list bytes) (s : side) (sid : Z) (random : nat -> bytes) :
  sinv y v ps -> wf_action (Flush s sid random) ->
  exists y' v' ps' added, exec y (Flush s sid random) = Ok y' /\ sinv y' v' ps' /\
    ps' s = ps s /\ ps' (other s) = ps (other s) ++ added /\ Forall (fun p => cmd_of p = RELAY_COMMAND_SENDME) added /\
    (forall t, dom (v_str (v' t)) = dom (v_str (v t))) /\
    (forall t sid' w', dl (v' t) !! sid' = Some w' ->
       exists w, dl (v t) !! sid' = Some w /\ w <= w' /\ (t = s -> sid' = sid -> 450 < w')).
Proof.
  intros Hi Hr. destruct (dirs y v ps s Hi) as (Hv & D1 & D2). cbn [exec].
  destruct (ev_streams s _ _ ∅ Hv) as [Es _].
  rewrite Es. destruct (v_str (v s) !! sid) as [e|] eqn:He.
  2: { exists y, v, ps, []. rewrite app_nil_r. repeat (split; [done|]).
       intros t sid' w' Hw'. exists w'. split; [done|]. split; [lia|]. intros -> ->. unfold dl in Hw'.
       by rewrite (fmap_lookup_none _ _ _ He) in Hw'. }
  assert (Hsid : 0 < sid < 65536) by (apply (proj1 (d_ids _ _ _ _ _ _ _ _ _ _ _ D1) sid (e_package_window e)); by apply fmap_lookup_some).
  unfold sendme_connection_edge_consider_sending. rewrite Es, He. cbn [get obind].
  destruct (stream_loop_ok crypt hash crypt_advance hash_length s sid
    (Z.to_nat (STREAMWINDOW_START - e_deliver_window e)) ltac:(lia) _ _ e random Hv He) as
    (c' & ws & ss & e' & sc & sd & sdig & -> & Hfl & Hv' & Hss & Hpk & Hdl & Hlo & Hhi);
    [unfold STREAMWINDOW_START; lia|done|]. cbn [obind].
  assert (Hw : dl (v s) !! sid = Some (e_deliver_window e)) by (by apply fmap_lookup_some).
  assert (Hw5 : e_deliver_window e <= 500) by (apply (d_dy _ _ _ _ _ _ _ _ _ _ _ D2 sid); done).
  assert (Hall : Forall (fun p => cmd_of p = RELAY_COMMAND_SENDME) ss).
  { eapply Forall_impl; [exact Hss|]. by intros p [? _]. }
  assert (Hdl' : dl (vw_str (vw_send (v s) sc sd sdig) (<[sid:=e']> (v_str (v s)))) =
                 <[sid := e_deliver_window e + 50 * zlen ss]> (dl (v s))).
  { unfold dl. cbn [v_str vw_str]. by rewrite fmap_insert, Hdl. }
  eexists _, _, _, ss. split; [done|]. split.
  - eapply sinv_send with (qs := ss); [exact Hi|exact Hv'|done..| |].
    + unfold pk. cbn [v_str vw_str v_pkg v_last vw_send]. rewrite (fmap_insert_same _ _ _ e) by done.
      apply dir_send_ps; [done|]. eapply Forall_impl; [exact Hall|]. cbn beta. intros p Hp. by rewrite Hp.
    + rewrite Hdl'. apply (dir_flush hash _ _ (initial_ok _)); try done. rewrite <- Hdl. by apply Hhi.
  - rewrite upd_other', !upd_same. split; [done|]. split; [done|]. split; [done|]. split.
    + intros t. destruct (side_cases s t) as [->| ->]; [rewrite upd_same|by rewrite upd_other].
      cbn [v_str vw_str]. apply dom_insert_lookup_L. by eexists.
    + intros t sid' w'. destruct (side_cases s t) as [->| ->].
      2: { rewrite upd_other. intros Hw'. exists w'. split; [done|]. split; [lia|]. by destruct s. }
      rewrite upd_same, Hdl'. pose proof (zlen_nonneg ss). destruct (decide (sid = sid')) as [<-|Hne].
      * rewrite lookup_insert_eq. intros [= <-]. eexists. split; [exact Hw|]. split; [lia|]. intros _ _. lia.
      * rewrite lookup_insert_ne by done. intros Hw'. exists w'. split; [done|]. split; [lia|]. by intros _ ->.
Qed.
Lemma exec_close (y : state) (v : side -> view) (ps : side -> list bytes) (s : side) (sid : Z) :
  sinv y v ps -> keeps y (Close s sid).
Proof.
  intros Hi. destruct (dirs y v ps s Hi) as (Hv & D1 & D2). unfold keeps. cbn [exec].
  destruct (ev_streams s _ _ (delete sid (streams (circ_of y s))) Hv) as [Es Hv']. rewrite Es in Hv' |- *.
  eexists _, _, _. split; [done|].
  apply sinv_send with (v' := vw_str (v s) (delete sid (v_str (v s)))) (qs := []); rewrite ?app_nil_r; try done.
  - eapply dir_close; [exact D1| |done]. apply map_fmap_mono, delete_subseteq.
  - eapply dir_close; [exact D2|done|]. apply map_fmap_mono, delete_subseteq.
Qed.

(** The arrival of a cell: what it is answered with is SENDMEs, and only DATA is answered. *)
Definition received_ok (y : state) (v : side -> view) (ps : side -> list bytes) (s : side) (a : action) : Prop :=
  match ps s with
  | [] => exec y a = Ok y
  | p :: ps0 =>
      exists y' v' ps' added, exec y a = Ok y' /\ sinv y' v' ps' /\ ps' s = ps0 /\ ps' (other s) = ps (other s) ++ added /\
        Forall (fun q => cmd_of q = RELAY_COMMAND_SENDME) added /\ (length added <= 11)%nat /\
        (cmd_of p <> RELAY_COMMAND_DATA -> added = [] /\ forall t, dl (v' t) = dl (v t)) /\
        (forall t, dom (v_str (v' t)) = dom (v_str (v t)))
  end.

(** A cell that is answered with nothing. *)
Lemma received_quiet (y : state) (v : side -> view) (ps : side -> list bytes) (s : side) (p w : bytes) (ps0 rest : list bytes)
    (opt full : bool) (random : nat -> bytes) (c : circuit) (v' : view) :
  sinv y v ps -> ps s = p :: ps0 -> wires_to y s = w :: rest -> cmd_of p <> RELAY_COMMAND_DATA ->
  receive_relay_cell crypt hash (np s) (circ_of y s) w (rdir s) opt full random = Ok (c, []) ->
  end_view s c = Some v' ->
  v_sc v' = v_sc (v s) -> v_sd v' = v_sd (v s) -> v_rc v' = adv crypt (v_rc (v s)) -> v_rd v' = v_rd (v s) ++ p ->
  v_dlv v' = v_dlv (v s) -> dl v' = dl (v s) -> dom (v_str v') = dom (v_str (v s)) ->
  dir hash (initial s) (emits_v1 (np (other s))) (v_pkg v') (v_last v') (pk v') (v_dlv (v (other s))) (v_rd (v (other s)))
    (dl (v (other s))) (ps (other s)) ps0 ->
  received_ok y v ps s (Receive s opt full random).
Proof.
  intros Hi Hps Hw Hc Hr Hv' E1 E2 E3 E4 E5 E6 E7 D. destruct (dirs y v ps s Hi) as (_ & _ & D2).
  destruct (Hi s) as (_ & Hf & _). unfold received_ok. cbn [exec]. rewrite Hps, Hw in *. rewrite Hr. cbn [obind].
  destruct Hf as (_ & _ & Hf). eexists _, _, _, []. split; [done|]. split.
  - eapply sinv_put with (qs := []); [exact Hi|exact Hv'| | |by rewrite app_nil_r|].
    + rewrite E3, E4. exact Hf.
    + rewrite E1, E2. by split.
    + rewrite app_nil_r, E4, E5, E6. apply (dir_recv_ps hash _ _ (initial_ok _)); [|done]. exact D2.
  - rewrite upd_other', !upd_same. repeat (split; [done|]). split; [simpl; lia|]. split; [intros _; split; [done|]|];
      (intros t; destruct (side_cases s t) as [->| ->]; [by rewrite upd_same|by rewrite upd_other]).
Qed.

Lemma exec_receive_data (y : state) (v : side -> view) (ps : side -> list bytes) (s : side) (p w : bytes) (ps0 rest : list bytes)
    (opt full : bool) (random : nat -> bytes) :
  sinv y v ps -> wf_action (Receive s opt full random) -> ps s = p :: ps0 -> wires_to y s = w :: rest ->
  cmd_of p = RELAY_COMMAND_DATA -> received_ok y v ps s (Receive s opt full random).
Proof.
  intros Hi Hr Hps Hw Hc. destruct (dirs y v ps s Hi) as (Hv & D1 & D2). destruct (Hi s) as (_ & Hf & _).
  unfold received_ok. cbn [exec]. rewrite Hps, Hw in *. destruct Hf as (Hp & -> & Hf).
  assert (Hdy : forall e, v_str (v s) !! sid_of p = Some e -> 0 < e_deliver_window e <= 500).
  { intros e He. pose proof (d_dy _ _ _ _ _ _ _ _ _ _ _ D2 (sid_of p) (e_deliver_window e)) as H.
    cbn [count] in H. destruct (kind_data p (sid_of p) Hc) as (_ & _ & Hd & _). rewrite Hd, Z.eqb_refl in H.
    pose proof (count_nonneg (data_of (sid_of p)) ps0). cbn [Z.b2z] in H.
    specialize (H ltac:(by apply fmap_lookup_some)). lia. }
  destruct (recv_data crypt hash crypt_length crypt_involutive crypt_advance hash_length (np s) s _ _ p opt full random
    Hv Hp Hc (header_sid_range p Hp) (d_dlv _ _ _ _ _ _ _ _ _ _ _ D2) Hdy Hr)
    as (c' & ws & cs & ss & v' & -> & Hv' & Hfl & Epk & Elast & Erc & Erd & Edlv & Hcs & Hss & Hlen & Hstr).
  cbn [obind].
  assert (Hadd : Forall (fun q => cmd_of q = RELAY_COMMAND_SENDME) (cs ++ ss)).
  { apply Forall_app. split.
    - destruct (v_dlv (v s) =? 901); [|subst cs; constructor]. destruct Hcs as (q & -> & Hq & _). by repeat constructor.
    - eapply Forall_impl; [exact Hss|]. by intros q [? _]. }
  assert (Hlen' : (length (cs ++ ss) <= 11)%nat).
  { rewrite length_app. destruct (v_dlv (v s) =? 901); [destruct Hcs as (q & -> & _)|subst cs]; cbn [length]; lia. }
  assert (Hpk : pk v' = pk (v s) /\ dom (v_str v') = dom (v_str (v s))).
  { unfold sid_of in *. unfold pk. destruct (v_str (v s) !! stream_id (header p)) as [e|] eqn:He; [|by destruct Hstr as [-> _]].
    destruct (stream_id (header p) =? 0); [by destruct Hstr as [-> _]|].
    destruct Hstr as (e' & -> & E1 & _). split; [by apply (fmap_insert_same _ _ _ e)|].
    apply dom_insert_lookup_L. by eexists. }
  destruct Hpk as [Hpk Hdom].
  assert (D2' : dir hash (initial (other s)) (emits_v1 (np s)) (v_pkg (v (other s))) (v_last (v (other s))) (pk (v (other s)))
    (v_dlv v') (v_rd v') (dl v') ps0 (ps (other s) ++ cs ++ ss)).
  { pose proof (dir_recv_data hash _ _ (initial_ok (other s)) _ _ _ _ _ _ _ _ cs p D2 Hc Hcs) as D.
    rewrite <- Edlv, <- Erd in D. unfold sid_of in *.
    destruct (v_str (v s) !! stream_id (header p)) as [e|] eqn:He.
    - assert (Hl : dl (v s) !! stream_id (header p) = Some (e_deliver_window e)) by (by apply fmap_lookup_some).
      rewrite Hl in D.
      pose proof (proj2 (d_ids _ _ _ _ _ _ _ _ _ _ _ D2) _ _ Hl) as Hsid.
      rewrite (proj2 (Z.eqb_neq _ _)) in Hstr by lia. destruct Hstr as (e' & Es & _ & Ed & Hle).
      rewrite app_assoc. unfold dl at 1. rewrite Es, fmap_insert, Ed.
      eapply (dir_flush hash _ _ (initial_ok _)) in D; [|apply lookup_insert_eq|rewrite <- Ed; exact Hle|exact Hss].
      by rewrite insert_insert_eq in D.
    - destruct Hstr as [Es ->]. rewrite app_nil_r. unfold dl in D |- *. rewrite Es.
      by rewrite (fmap_lookup_none _ _ _ He) in D. }
  eexists _, _, _, (cs ++ ss). split; [done|]. split.
  - eapply sinv_put; [exact Hi|exact Hv'| |exact Hfl| |exact D2'].
    + rewrite Erc, Erd. exact Hf.
    + rewrite Epk, Elast, Hpk. apply dir_send_ps.
      * eapply (dir_recv_qs hash _ _ (initial_ok _)); [exact D1|]. by rewrite Hc.
      * eapply Forall_impl; [exact Hadd|]. cbn beta. intros q Hq. by rewrite Hq.
  - rewrite upd_other', !upd_same. repeat (split; [done|]). 
    intros t; destruct (side_cases s t) as [->| ->]; [by rewrite upd_same|by rewrite upd_other].
Qed.

Lemma exec_receive (y : state) (v : side -> view) (ps : side -> list bytes) (s : side) (opt full : bool) (random : nat -> bytes) :
  sinv y v ps -> wf_action (Receive s opt full random) -> received_ok y v ps s (Receive s opt full random).
Proof.
  intros Hi Hr. destruct (dirs y v ps s Hi) as (Hv & D1 & D2). destruct (Hi s) as (_ & Hf & _).
  destruct (ps s) as [|p ps0] eqn:Hps.
  { unfold received_ok. rewrite Hps. cbn [exec]. by destruct (wires_to y s). }
  destruct (wires_to y s) as [|w rest] eqn:Hw; [done|]. destruct Hf as (Hp & Ew & Hf).
  destruct (decide (cmd_of p = RELAY_COMMAND_DATA)) as [Hc|Hc]; [by eapply exec_receive_data|].
  destruct (decide (cmd_of p = RELAY_COMMAND_SENDME)) as [Hc'|Hc'].
  2: { destruct (recv_other crypt hash crypt_length crypt_involutive crypt_advance hash_length (np s) s _ _ p opt full random Hv Hp Hc Hc') as (c' & E & Hv').
       rewrite <- Ew in E. eapply received_quiet; [done|done|done|done|exact E|exact Hv'|done..|].
       by eapply (dir_recv_qs hash _ _ (initial_ok _)). }
  destruct (decide (sid_of p = 0)) as [Hs|Hs].
  - destruct (dir_recv_csend hash _ _ (initial_ok _) _ _ _ _ _ _ _ _ p D1 Hc' Hs) as (Hle & d & l & El & Hval & D).
    destruct (recv_csend crypt hash crypt_length crypt_involutive crypt_advance hash_length (np s) _ s _ _ p d l opt full random
      Hv Hp Hc' Hs El Hval (versions_ok s)) as (c' & E & Hv'); [destruct (initial_ok s); lia|].
    rewrite <- Ew in E. by eapply received_quiet; [done|done|done|done|exact E|exact Hv'|done..|].
  - destruct (dir_recv_ssend hash _ _ (initial_ok _) _ _ _ _ _ _ _ _ p D1 Hc' Hs) as (Hle & D).
    destruct (recv_ssend crypt hash crypt_length crypt_involutive crypt_advance hash_length (np s) s _ _ p opt full random
      Hv Hp Hc' Hs) as (c' & E & Hv').
    { intros e He. apply Hle. by apply fmap_lookup_some. }
    rewrite <- Ew in E. change (stream_id (header p)) with (sid_of p) in *.
    destruct (v_str (v s) !! sid_of p) as [e|] eqn:He.
    + assert (Hl : pk (v s) !! sid_of p = Some (e_package_window e)) by (by apply fmap_lookup_some). rewrite Hl in D.
      eapply received_quiet; [done|done|done|done|exact E|exact Hv'|done..| | |].
      * unfold dl. cbn [v_str vw_str]. by apply (fmap_insert_same _ _ _ e).
      * cbn [v_str vw_str]. apply dom_insert_lookup_L. by eexists.
      * unfold pk at 1. cbn [v_str vw_str]. rewrite fmap_insert. exact D.
    + unfold pk in D. rewrite (fmap_lookup_none _ _ _ He) in D.
      by eapply received_quiet; [done|done|done|done|exact E|exact Hv'|done..|].
Qed.

Lemma exec_keeps (y : state) (v : side -> view) (ps : side -> list bytes) (a : action) :
  sinv y v ps -> wf_action a -> keeps y a.
Proof.
  intros Hi Hw. destruct a.
  - by eapply exec_package.
  - by eapply exec_send.
  - destruct (exec_flush y v ps s sid random Hi Hw) as (y' & v' & ps' & _ & E & Hi' & _). by exists y', v', ps'.
  - by eapply exec_close.
  - pose proof (exec_receive y v ps s optimistic_data outbuf_too_full random Hi Hw) as H. unfold received_ok in H.
    destruct (ps s); [by exists y, v, ps|]. destruct H as (y' & v' & ps' & _ & E & Hi' & _). by exists y', v', ps'.
Qed.
Lemma run_keeps (l : list action) : forall (y : state) (v : side -> view) (ps : side -> list bytes),
  sinv y v ps -> Forall wf_action l -> exists y' v' ps', run y l = Ok y' /\ sinv y' v' ps'.
Proof.
  induction l as [|a l IH]; intros y v ps Hi Hl; [by exists y, v, ps|].
  apply Forall_cons in Hl as [Ha Hl]. destruct (exec_keeps y v ps a Hi Ha) as (y1 & v1 & ps1 & E & H1).
  cbn [run]. rewrite E. cbn [obind]. by apply (IH y1 v1 ps1).
Qed.

(** ** Draining *)

Definition weight (ps : list bytes) : nat :=
  foldr (fun p n => ((if is_data p then 12 else 1) + n)%nat) O ps.

Lemma weight_app (ps1 ps2 : list bytes) : weight (ps1 ++ ps2) = (weight ps1 + weight ps2)%nat.
Proof. induction ps1 as [|p ps1 IH]; [done|]. cbn [app weight foldr]. fold (weight (ps1 ++ ps2)) (weight ps1). lia. Qed.

Lemma weight_sendmes (ps : list bytes) : Forall (fun q => cmd_of q = RELAY_COMMAND_SENDME) ps -> weight ps = length ps.
Proof.
  induction 1 as [|p ps Hp _ IH]; [done|]. cbn [weight foldr length]. fold (weight ps). rewrite IH.
  by rewrite (proj1 (kind_sendme p 0 Hp)).
Qed.

Definition no_data (ps : side -> list bytes) : Prop := forall t, Forall (fun p => cmd_of p <> RELAY_COMMAND_DATA) (ps t).

Definition progress_only (a : action) : Prop :=
  match a with Receive _ _ _ _ | Flush _ _ _ => True | _ => False end.

Definition zeros : nat -> bytes := fun _ => replicate 509 NUL.
Definition take_next (s : side) : action := Receive s false false zeros.

Lemma take_next_wf (s : side) : wf_action (take_next s) /\ progress_only (take_next s).
Proof. split; [|done]. intros i. by vm_compute. Qed.

Lemma drain (n : nat) : forall (y : state) (v : side -> view) (ps : side -> list bytes),
  sinv y v ps -> (weight (ps Client) + weight (ps Exit) <= n)%nat ->
  exists l y' v' ps', Forall wf_action l /\ Forall progress_only l /\ run y l = Ok y' /\ sinv y' v' ps' /\
    (forall t, ps' t = []) /\ (forall t, dom (v_str (v' t)) = dom (v_str (v t))) /\
    (no_data ps -> forall t, dl (v' t) = dl (v t)).
Proof.
  induction n as [n IH] using (well_founded_induction lt_wf). intros y v ps Hi Hn.
  assert (Hstep : forall s p ps0, ps s = p :: ps0 ->
    exists l y' v' ps', Forall wf_action l /\ Forall progress_only l /\ run y l = Ok y' /\ sinv y' v' ps' /\
    (forall t, ps' t = []) /\ (forall t, dom (v_str (v' t)) = dom (v_str (v t))) /\
    (no_data ps -> forall t, dl (v' t) = dl (v t))).
  { intros s p ps0 Hps. destruct (take_next_wf s) as [Hw Hpo].
    pose proof (exec_receive y v ps s false false zeros Hi Hw) as H. unfold received_ok in H. rewrite Hps in H.
    destruct H as (y1 & v1 & ps1 & added & E & H1 & Es & Eo & Hadd & Hlen & Hq & Hdom).
    pose proof (weight_sendmes _ Hadd) as Hwa.
    assert (Hdec : (weight (ps1 Client) + weight (ps1 Exit) < weight (ps Client) + weight (ps Exit))%nat).
    { assert (Hp : weight (ps s) = ((if is_data p then 12 else 1) + weight ps0)%nat) by (by rewrite Hps).
      assert (Hd : is_data p = false -> added = []).
      { intros Hf. apply Hq. intros Hc. by rewrite (proj1 (kind_data p 0 Hc)) in Hf. }
      assert (Ho : weight (ps1 (other s)) = (weight (ps (other s)) + length added)%nat) by (by rewrite Eo, weight_app, Hwa).
      assert (Hs : weight (ps1 s) = weight ps0) by (by rewrite Es).
      destruct (is_data p); [|rewrite Hd in Ho by done; cbn [length] in Ho]; destruct s; cbn [other] in *; lia. }
    destruct (IH _ ltac:(eapply Nat.lt_le_trans; [exact Hdec|exact Hn]) y1 v1 ps1 H1 ltac:(done))
      as (l & y' & v' & ps' & Hl & Hlp & E' & H' & Hnil & Hdom' & Hdl).
    exists (take_next s :: l), y', v', ps'. split; [by constructor|]. split; [by constructor|].
    split; [cbn [run]; unfold take_next; by rewrite E|]. split; [done|]. split; [done|].
    split; [intros t; by rewrite Hdom', Hdom|].
    intros Hnd. pose proof (Hnd s) as Hnds. rewrite Hps in Hnds. apply Forall_cons in Hnds as [Hp Hnds].
    destruct (Hq Hp) as [-> Hdl1]. intros t. rewrite Hdl, Hdl1; [done|].
    intros t'. destruct (side_cases s t') as [->| ->]; [by rewrite Es|]. rewrite Eo, app_nil_r. apply Hnd. }
  destruct (ps Client) as [|p ps0] eqn:Hc; [|by eapply Hstep].
  destruct (ps Exit) as [|p ps0] eqn:He; [|by eapply Hstep].
  exists [], y, v, ps. split; [constructor|]. split; [constructor|]. split; [done|]. split; [done|]. split; [by intros []|]. done.
Qed.

Lemma flush_all (l : list (side * Z)) : forall (y : state) (v : side -> view) (ps : side -> list bytes),
  sinv y v ps -> no_data ps ->
  exists y' v' ps', run y (map (fun '(s, sid) => Flush s sid zeros) l) = Ok y' /\ sinv y' v' ps' /\ no_data ps' /\
    (forall t, dom (v_str (v' t)) = dom (v_str (v t))) /\
    (forall t sid w', dl (v' t) !! sid = Some w' ->
       (exists w, dl (v t) !! sid = Some w /\ w <= w') /\ ((t, sid) ∈ l -> 450 < w')).
Proof.
  induction l as [|[s sid] l IH]; intros y v ps Hi Hnd.
  - exists y, v, ps. repeat (split; [done|]). intros t sid w' Hw'. split; [by exists w'|]. by intros H%elem_of_nil.
  - destruct (exec_flush y v ps s sid zeros Hi) as (y1 & v1 & ps1 & added & E & H1 & Es & Eo & Hadd & Hdom & Hdl);
      [intros i; by vm_compute|].
    destruct (IH y1 v1 ps1 H1) as (y' & v' & ps' & E' & H' & Hnd' & Hdom' & Hdl').
    { intros t. destruct (side_cases s t) as [->| ->]; [rewrite Es; apply Hnd|]. rewrite Eo. apply Forall_app. split; [apply Hnd|].
      eapply Forall_impl; [exact Hadd|]. cbn beta. intros q Hq. by rewrite Hq. }
    exists y', v', ps'. cbn [map run]. rewrite E. split; [done|]. split; [done|]. split; [done|].
    split; [intros t; by rewrite Hdom', Hdom|].
    intros t sid' w' Hw'. destruct (Hdl' t sid' w' Hw') as ((w1 & Hw1 & Hle1) & Hin).
    destruct (Hdl t sid' w1 Hw1) as (w & Hw & Hle & Hhi). split; [exists w; split; [done|lia]|].
    intros [[= -> ->]|Hl]%elem_of_cons; [|by apply Hin]. specialize (Hhi eq_refl eq_refl). lia.
Qed.
End flow.

(** ** Properties *)

Section properties.
Context {cipher : Type} (crypt : cipher -> bytes -> bytes * cipher) (hash : bytes -> bytes).
Context (np : side -> option (list bytes)).

(** The laws of the cipher and the hash, whose digests fill the field of a SENDME. *)
Hypothesis crypt_length : forall c p, length (fst (crypt c p)) = length p.
Hypothesis crypt_involutive : forall c p, fst (crypt c (fst (crypt c p))) = p.
Hypothesis crypt_advance : forall c p q, length p = length q -> snd (crypt c p) = snd (crypt c q).
Hypothesis hash_length : forall s, (20 <= length (hash s))%nat.

(** The consensus: each end starts with a window of whole hundreds, and accepts the SENDMEs
    that the other emits. *)
Context (initial : side -> Z).
Hypothesis windows_ok : forall s, circuit_initial_package_window (np s) = Ok (initial s) /\ initial s mod 100 = 0.
Hypothesis versions_ok : forall s, accepts (np s) (emits_v1 (np (other s))).

Abbreviation state := (sys cipher).
Abbreviation run := (run crypt hash np).
Abbreviation sinv := (sinv crypt hash np initial).

(** A new circuit: empty queues, ciphers and digests in step, full windows, and the streams
    [opened] at both ends. *)
Definition fresh (y : state) (opened : gset Z) : Prop :=
  exists v : side -> view cipher,
    (forall s, end_view s (circ_of y s) = Some (v s) /\ wires_to y s = [] /\
       v_pkg (v s) = initial s /\ v_dlv (v s) = CIRCWINDOW_START /\ v_last (v s) = [] /\
       v_rc (v s) = v_sc (v (other s)) /\ v_rd (v s) = v_sd (v (other s)) /\
       v_str (v s) = gset_to_gmap {| e_package_window := STREAMWINDOW_START; e_deliver_window := STREAMWINDOW_START |} opened) /\
    (forall sid, sid ∈ opened -> 0 < sid < 65536).

Lemma initial_range (s : side) : 100 <= initial s <= 1000 /\ initial s mod 100 = 0.
Proof.
  destruct (windows_ok s) as [Hw Hm]. split; [|done]. unfold circuit_initial_package_window in Hw.
  destruct (get_param_range (np s) (bs "circwindow") CIRCWINDOW_START CIRCWINDOW_START_MIN CIRCWINDOW_START_MAX)
    as (w & E & Hr); [done|by vm_compute|]. rewrite E in Hw. cbn [obind] in Hw.
  unfold CIRCWINDOW_START_MIN, CIRCWINDOW_START_MAX in Hr. rewrite (proj2 (Z.ltb_ge _ _)) in Hw by lia.
  injection Hw as <-. lia.
Qed.

Lemma fresh_sinv (y : state) (opened : gset Z) : fresh y opened -> exists v, sinv y v (fun _ => []).
Proof.
  intros (v & Hv & Hids). exists v. intros s. destruct (Hv s) as (E & Ew & Ep & _ & El & Erc & Erd & Es).
  destruct (Hv (other s)) as (_ & _ & _ & Ed & _ & _ & _ & Es'). split; [done|]. split.
  - rewrite Ew. by split.
  - unfold dir_from. rewrite Ep, El, Ed. unfold pk, dl. rewrite Es, Es', !fmap_gset_to_gmap. cbn [e_package_window e_deliver_window].
    apply (dir_start hash _ _ (initial_range s)). intros sid w [Hin <-]%lookup_gset_to_gmap_Some. split; [by apply Hids|done].
Qed.

(** C34: Authenticated SENDMEs never close a circuit between honest ends. Let a circuit with one layer of encryption between its origin and its exit be
    fresh: full windows, nothing in flight, running digests and ciphers in step, some streams open at both ends with full windows, to which none is added later; let the cipher undo itself and advance by lengths only, and the hash have at least 20 bytes. Let the initial circuit
    window of each end, from its network parameters, be a multiple of 100, and let each end accept the version of SENDMEs that the other emits. Then, whatever the two ends do within the size of cells, in whatever order (package
    data, send other cells, acknowledge, end streams, take the next cell in flight, with any timing
    of the two queues), no step of the code fails: no window overflows, and every SENDME that arrives carries the digest expected next. At every moment
    the package window of an end is between 0 and what it started with, its deliver window is above 900, it waits for at most ten digests, and the windows
    of its streams are between 0 and 500. (With an initial window of 150, an honest SENDME closes the circuit.) *)
Theorem sendmes_never_close (y : state) (opened : gset Z) (l : list action) :
  fresh y opened -> Forall wf_action l ->
  exists y', run y l = Ok y' /\
    forall s, exists pkg dlv,
      the_package_window (circ_of y' s) (layer s) = Ok pkg /\ 0 <= pkg <= initial s /\
      the_deliver_window (circ_of y' s) (layer s) = Ok dlv /\ 900 < dlv <= 1000 /\
      (length (match sendme_last_digests (circ_of y' s) with Some l => l | None => [] end) <= 10)%nat /\
      forall sid e, streams (circ_of y' s) !! sid = Some e ->
        0 <= e_package_window e <= 500 /\ 0 <= e_deliver_window e <= 500.
Proof.
  intros Hf Hl. destruct (fresh_sinv y opened Hf) as (v & Hi).
  destruct (run_keeps crypt hash np crypt_length crypt_involutive crypt_advance hash_length initial initial_range
    versions_ok l y v _ Hi Hl) as (y' & v' & ps' & E & Hi').
  exists y'. split; [done|]. intros s. destruct (dirs _ _ _ _ y' v' ps' s Hi') as (Hv & D1 & D2).
  destruct (ev_windows s _ _ Hv) as [Hp Hd]. destruct (ev_last s _ _ [] Hv) as [El _]. destruct (ev_streams s _ _ ∅ Hv) as [Es _].
  destruct (dir_bounds hash _ _ (initial_range s) _ _ _ _ _ _ _ _ D1) as (Hb1 & _ & Hb3).
  eexists _, _. split; [exact Hp|]. split; [done|]. split; [exact Hd|]. split; [apply D2|]. split; [by rewrite El|].
  rewrite Es. intros sid e He.
  pose proof (d_px _ _ _ _ _ _ _ _ _ _ _ D1 sid (e_package_window e) (fmap_lookup_some _ _ _ _ He)).
  pose proof (d_dy _ _ _ _ _ _ _ _ _ _ _ D2 sid (e_deliver_window e) (fmap_lookup_some _ _ _ _ He)).
  pose proof (count_nonneg (data_of sid) (ps' (other s))). pose proof (count_nonneg (ssend_of sid) (ps' s)).
  pose proof (count_nonneg (data_of sid) (ps' s)). lia.
Qed.

(** C35: Flow control never stops the data for good, under the conditions of the theorem before: a fresh circuit with one layer and streams open at both ends, to which none is added, initial circuit windows that are multiples of 100, and ends that accept each other's version of SENDMEs. From any state that the two ends can
    reach from there, there are finitely many steps, of cells arriving and streams being acknowledged only, after which nothing is in flight, and every
    stream that is still open at both ends can package a cell, at either end: neither the circuit windows nor the stream windows can be used up on both
    sides. *)
Theorem sendmes_keep_data_flowing (y y1 : state) (opened : gset Z) (l1 : list action) :
  fresh y opened -> Forall wf_action l1 -> run y l1 = Ok y1 ->
  exists l2 y2, Forall wf_action l2 /\ Forall progress_only l2 /\ run y1 l2 = Ok y2 /\
    forall s, wires_to y2 s = [] /\ dom (streams (circ_of y2 s)) = dom (streams (circ_of y1 s)) /\
      forall sid data random, sid ∈ dom (streams (circ_of y2 s)) -> sid ∈ dom (streams (circ_of y2 (other s))) ->
        wf_action (Package s sid data random) ->
        exists y3 w, exec crypt hash np y2 (Package s sid data random) = Ok y3 /\ wires_to y3 (other s) = [w].
Proof.
  intros Hf Hl1 Hrun. destruct (fresh_sinv y opened Hf) as (v & Hi).
  destruct (run_keeps crypt hash np crypt_length crypt_involutive crypt_advance hash_length initial initial_range
    versions_ok l1 y v _ Hi Hl1) as (y1' & v1 & ps1 & E & Hi1). rewrite Hrun in E. injection E as <-.
  destruct (drain crypt hash np crypt_length crypt_involutive crypt_advance hash_length initial initial_range
    versions_ok _ y1 v1 ps1 Hi1 ltac:(done)) as (la & ya & va & psa & Hwa & Hpa & Ea & Hia & Hnila & Hdoma & _).
  set (lf := list_prod [Client; Exit] (elements (dom (v_str (va Client)) ∪ dom (v_str (va Exit))))).
  destruct (flush_all crypt hash np crypt_advance hash_length initial initial_range lf ya va psa Hia)
    as (yb & vb & psb & Eb & Hib & Hndb & Hdomb & Hdlb).
  { intros t. rewrite Hnila. constructor. }
  destruct (drain crypt hash np crypt_length crypt_involutive crypt_advance hash_length initial initial_range
    versions_ok _ yb vb psb Hib ltac:(done)) as (lc & yc & vc & psc & Hwc & Hpc & Ec & Hic & Hnilc & Hdomc & Hdlc).
  exists (la ++ map (fun '(s, sid) => Flush s sid zeros) lf ++ lc), yc.
  assert (Hz : forall i, CELL_PAYLOAD_SIZE <= zlen (zeros i)) by (intros i; by vm_compute).
  split; [|split; [|split]].
  - apply Forall_app. split; [done|]. apply Forall_app. split; [|done]. apply Forall_map, Forall_forall. by intros [s sid] _.
  - apply Forall_app. split; [done|]. apply Forall_app. split; [|done]. apply Forall_map, Forall_forall. by intros [s sid] _.
  - rewrite run_app, Ea. cbn [obind]. by rewrite run_app, Eb.
  - assert (Hst : forall s, streams (circ_of yc s) = v_str (vc s)).
    { intros s. destruct (Hic s) as (Hv & _). by destruct (ev_streams s _ _ ∅ Hv). }
    intros s. split.
    { destruct (Hic s) as (_ & Hfl & _). rewrite Hnilc in Hfl. by destruct (wires_to yc s). }
    split.
    { rewrite Hst, Hdomc, Hdomb, Hdoma. destruct (Hi1 s) as (Hv & _). by destruct (ev_streams s _ _ ∅ Hv) as [-> _]. }
    intros sid data random Hs Ho Hwf. rewrite Hst in Hs, Ho.
    apply elem_of_dom in Hs as [e He]. apply elem_of_dom in Ho as [e' He'].
    destruct (dirs _ _ _ _ yc vc psc s Hic) as (Hv & D1 & _). rewrite !Hnilc in D1.
    pose proof (fmap_lookup_some e_package_window _ _ _ He) as Hp. pose proof (fmap_lookup_some e_deliver_window _ _ _ He') as Hd.
    pose proof (d_both _ _ _ _ _ _ _ _ _ _ _ D1 sid _ _ Hp Hd) as Hb. cbn [count] in Hb.
    pose proof (d_sum _ _ _ _ _ _ _ _ _ _ _ D1) as Hsum. cbn [count] in Hsum. pose proof (d_dlv _ _ _ _ _ _ _ _ _ _ _ D1) as Hdlv.
    destruct (initial_range s) as [Hir _].
    assert (Hlo : 450 < e_deliver_window e').
    { fold (dl (vc (other s))) in Hd. rewrite (Hdlc Hndb) in Hd. destruct (Hdlb _ _ _ Hd) as [_ Hin]. apply Hin.
      unfold lf. apply list_elem_of_In, in_prod_iff. split; [destruct s; cbn; auto|]. apply list_elem_of_In, elem_of_elements.
      assert (Hin' : sid ∈ dom (v_str (va (other s)))) by (rewrite <- Hdomb, <- Hdomc; apply elem_of_dom; by eexists).
      apply elem_of_union. destruct s; [by right|by left]. }
    destruct (exec_package crypt hash np crypt_advance hash_length initial initial_range yc vc psc s sid data random Hic Hwf) as [_ Hex].
    destruct (Hex e) as (y3 & w & E3 & Ew); [by rewrite Hst|lia|lia|].
    exists y3, w. split; [done|]. rewrite Ew. destruct (Hic (other s)) as (_ & Hfl & _). rewrite Hnilc in Hfl.
    by destruct (wires_to yc (other s)).
Qed.
End properties.

(** ** Running the code *)

(** Two ends with these consensus parameters and the stream 7 open. *)
Definition ex_window (np : option (list bytes)) : Z :=
  match circuit_initial_package_window np with Ok w => w | _ => 0 end.
Definition ex_streams : gmap Z edge :=
  gset_to_gmap {| e_package_window := STREAMWINDOW_START; e_deliver_window := STREAMWINDOW_START |} {[7]}.
Definition ex_end (np : option (list bytes)) (s : side) : RelayCrypto.circuit bool :=
  let cr := ex_relay true false (bs "a") (bs "b") in
  {| kind := match s with
             | Client => ORIGIN_CIRCUIT [{| hop_open := true; hop_package_window := ex_window np;
                                            hop_deliver_window := CIRCWINDOW_START; pvt_crypto := cr |}]
             | Exit => OR_CIRCUIT cr
             end;
     package_window := ex_window np; deliver_window := CIRCWINDOW_START; sendme_last_digests := None;
     streams := ex_streams |}.
Definition ex_sys (np : option (list bytes)) : sys bool := {| circ_of := ex_end np; wires_to := fun _ => [] |}.
Definition ex_package : action := Package Client 7 (bs "hello") (zeros O).

Lemma ex_fresh : fresh (fun _ => 1000) (ex_sys None) {[7]}.
Proof.
  exists (fun s => match end_view s (ex_end None s) with
                   | Some v => v
                   | None => {| v_pkg := 0; v_dlv := 0; v_last := []; v_str := ∅; v_sc := true; v_sd := []; v_rc := true;
                                v_rd := []; v_sdig := [] |}
                   end).
  split; [by intros []|]. intros sid ->%elem_of_singleton. lia.
Qed.

Lemma ex_hash20 (s : bytes) : (20 <= length (ex_hash s))%nat.
Proof. unfold ex_hash. rewrite length_app, be_bytes_length. simpl. lia. Qed.

Lemma ex_versions (s : side) : accepts None (emits_v1 None).
Proof. exists 0. split; [done|by vm_compute]. Qed.

Lemma ex_package_wf : wf_action ex_package.
Proof. split; by vm_compute. Qed.

Theorem sendmes_never_close_witness :
  exists y', run ex_crypt ex_hash (fun _ => None) (ex_sys None) [ex_package; take_next Exit; Flush Exit 7 zeros; Close Client 7] = Ok y'.
Proof.
  destruct ex_crypt_laws as (H1 & H2 & H3 & _).
  destruct (sendmes_never_close ex_crypt ex_hash (fun _ => None) H1 H2 H3 ex_hash20 (fun _ => 1000)
    (fun _ => conj eq_refl eq_refl) ex_versions (ex_sys None) {[7]}
    [ex_package; take_next Exit; Flush Exit 7 zeros; Close Client 7] ex_fresh) as (y' & E & _); [|by exists y'].
  repeat constructor; try apply ex_package_wf; try (intros i); by vm_compute.
Defined.

Theorem sendmes_keep_data_flowing_witness :
  exists y1 l2 y2, run ex_crypt ex_hash (fun _ => None) (ex_sys None) [ex_package] = Ok y1 /\
    run ex_crypt ex_hash (fun _ => None) y1 l2 = Ok y2 /\ wires_to y2 Exit = [].
Proof.
  destruct ex_crypt_laws as (H1 & H2 & H3 & _).
  assert (Hrun : exists y1, run ex_crypt ex_hash (fun _ => None) (ex_sys None) [ex_package] = Ok y1)
    by (eexists; vm_compute; reflexivity).
  destruct Hrun as [y1 Hrun].
  destruct (sendmes_keep_data_flowing ex_crypt ex_hash (fun _ => None) H1 H2 H3 ex_hash20 (fun _ => 1000)
    (fun _ => conj eq_refl eq_refl) ex_versions (ex_sys None) y1 {[7]} [ex_package] ex_fresh) as (l2 & y2 & _ & _ & E & H);
    [repeat constructor; by vm_compute|exact Hrun|].
  exists y1, l2, y2. split; [done|]. split; [done|]. apply (H Exit).
Defined.

(** A hundred cells from the client, taken by the exit, and its answers taken by the client. *)
Definition ex_hundred : list action :=
  replicate 100 ex_package ++ replicate 100 (take_next Exit) ++ replicate 3 (take_next Client).

(** The package window of the client after those steps, with this consensus. *)
Definition ex_window_after (params : option (list bytes)) : outcome Z :=
  let* y := run ex_crypt ex_hash (fun _ => params) (ex_sys params) ex_hundred in
  the_package_window (circ_of y Client) (Some O).

(** what the consensus must not set. With the consensus parameter circwindow at 150, which is within the range that
    the code accepts, a client and an exit that both follow the code lose the circuit at the first
    circuit-level SENDME ([Err]: closed for a protocol violation): the client remembers the digests of its
    50th and 150th cells, the exit acknowledges the 100th. With 200 the same run is fine. *)
Theorem odd_circwindow_closes_circuit :
  circuit_initial_package_window (Some [bs "circwindow=150"]) = Ok 150 /\
  ex_window_after (Some [bs "circwindow=150"]) = Err /\
  ex_window_after (Some [bs "circwindow=200"]) = Ok 200.
Proof. split; [by vm_compute|]. split; by vm_compute. Qed.
