(* ===== verification/Scanf.v ===== *)
(** * Scanning: [lib/string/scanf.c]

    The restricted [sscanf] that the address parsers use. A [double] is the 64-bit IEEE
    value of the Standard Library's specification of floating point arithmetic. *)
From Stdlib Require Import SpecFloat.
From S2P Require Import Prelude ParseInt Strings Binascii.

Definition UINT_MAX : Z := 4294967295.
Definition INT_MIN : Z := -2147483648.
Definition MAX_SCANF_WIDTH : Z := 9999.

(** [raw_assert(num <= 9 && num >= 0)] is what the callers' test for a digit gives. *)
Definition digit_to_num (d : ascii) : outcome Z :=
  let num := b2z d - 48 in tor_assert ((num <=? 9) && (num >=? 0)) (Ok num).

(** What is stored through the arguments, in order. *)
Inductive scanned :=
  | SNum (z : Z)
  | SDouble (d : spec_float)
  | SString (s : bytes)
  | SChar (c : ascii).

(** [Err] is -1; then the caller does not use the position. *)
Fixpoint scan_unsigned_loop (hex : bool) (bufp : bytes) (result scanned_so_far width : Z) : outcome (Z * Z * bytes) :=
  match bufp with
  | [] => Ok (result, scanned_so_far, bufp)
  | ch :: rest =>
      if negb (b2z ch =? 0) && (if hex then TOR_ISXDIGIT ch else TOR_ISDIGIT ch) && (scanned_so_far <? width) then
        let* digit := if hex then Ok (hex_decode_digit ch) else digit_to_num ch in
        let base := if hex then 16 else 10 in
        if (ULONG_MAX - digit) / base <? result then Err
        else scan_unsigned_loop hex rest (result * base + digit) (scanned_so_far + 1) width
      else Ok (result, scanned_so_far, bufp)
  end.

Definition scan_unsigned (bufp : bytes) (width base : Z) : outcome (Z * bytes) :=
  tor_assert ((base =? 10) || (base =? 16)) (
  let width := if width <? 0 then MAX_SCANF_WIDTH else width in
  let* (result, scanned_so_far, bufp) := scan_unsigned_loop (base =? 16) bufp 0 0 width in
  if scanned_so_far =? 0 then Err else Ok (result, bufp)).

Definition scan_signed (bufp : bytes) (width : Z) : outcome (Z * bytes) :=
  let width := if width <? 0 then MAX_SCANF_WIDTH else width in
  let '(neg, bufp, width) := if b2z (deref bufp) =? 45 then (true, drop 1 bufp, width - 1) else (false, bufp, width) in
  let* (result, bufp) := scan_unsigned bufp width 10 in
  if neg && (0 <? result) then
    if LONG_MAX + 1 <? result then Err
    else if result =? LONG_MAX + 1 then Ok (LONG_MIN, bufp)
    else Ok (- result, bufp)
  else if LONG_MAX <? result then Err
  else Ok (result, bufp).

(** ** Doubles *)

Definition d_of_Z (z : Z) : spec_float := binary_normalize 53 1024 z 0 false.
Definition d_add : spec_float -> spec_float -> spec_float := SFadd 53 1024.
Definition d_mul : spec_float -> spec_float -> spec_float := SFmul 53 1024.
Definition d_div : spec_float -> spec_float -> spec_float := SFdiv 53 1024.

(** One of the two loops over digits; [scale] is the power of ten reached. *)
Fixpoint scan_double_loop (bufp : bytes) (result scale : spec_float) (scanned_so_far width : Z)
    : outcome (spec_float * spec_float * Z * bytes) :=
  match bufp with
  | [] => Ok (result, scale, scanned_so_far, bufp)
  | ch :: rest =>
      if TOR_ISDIGIT ch && (scanned_so_far <? width) then
        let* digit := digit_to_num ch in
        scan_double_loop rest (d_add (d_mul result (d_of_Z 10)) (d_of_Z digit)) (d_mul scale (d_of_Z 10))
          (scanned_so_far + 1) width
      else Ok (result, scale, scanned_so_far, bufp)
  end.

Definition scan_double (bufp : bytes) (width : Z) : outcome (spec_float * bytes) :=
  let width := if width <? 0 then MAX_SCANF_WIDTH else width in
  let '(neg, bufp) := if b2z (deref bufp) =? 45 then (true, drop 1 bufp) else (false, bufp) in
  let* (result, _, n, bufp) := scan_double_loop bufp (d_of_Z 0) (d_of_Z 1) 0 width in
  let* (result, n, bufp) :=
    if b2z (deref bufp) =? 46 then
      let* (fracval, denominator, n, bufp) := scan_double_loop (drop 1 bufp) (d_of_Z 0) (d_of_Z 1) (n + 1) width in
      Ok (d_add result (d_div fracval denominator), n, bufp)
    else Ok (result, n, bufp) in
  if n =? 0 then Err else Ok (if neg : bool then SFopp result else result, bufp).

(** What is copied and what is left. *)
Fixpoint scan_string_loop (bufp : bytes) (scanned_so_far width : Z) : bytes * bytes :=
  match bufp with
  | [] => ([], [])
  | ch :: rest =>
      if negb (b2z ch =? 0) && negb (TOR_ISSPACE ch) && (scanned_so_far <? width) then
        let '(out, bufp) := scan_string_loop rest (scanned_so_far + 1) width in (ch :: out, bufp)
      else ([], bufp)
  end.
Definition scan_string (bufp : bytes) (width : Z) : outcome (bytes * bytes) :=
  if width <? 0 then Err else Ok (scan_string_loop bufp 0 width).

(** ** The pattern *)

(** The digits of a width that has begun; [Err] is -1. *)
Fixpoint scan_width (pattern : bytes) (width : Z) : outcome (Z * bytes) :=
  match pattern with
  | ch :: rest =>
      if TOR_ISDIGIT ch then
        let* d := digit_to_num ch in
        let width := width * 10 + d in
        if MAX_SCANF_WIDTH <? width then Err else scan_width rest width
      else Ok (width, pattern)
  | [] => Ok (width, [])
  end.

Definition is_char (c : ascii) (z : Z) : bool := b2z c =? z.

(** The return value and what was stored. *)
Fixpoint vsscanf_loop (fuel : nat) (buf pattern : bytes) (n_matched : Z) (out : list scanned) : outcome (Z * list scanned) :=
  let stop := Ok (n_matched, out) in
  let malformed := Ok (-1, out) in
  match fuel with
  | O => Stuck
  | S f =>
      match pattern with
      | [] => stop
      | ch :: rest =>
          if is_char ch 0 then stop
          else if negb (is_char ch 37) then
            if b2z (deref buf) =? b2z ch then vsscanf_loop f (drop 1 buf) rest n_matched out else stop
          else
            let w := if TOR_ISDIGIT (deref rest)
                     then (let* d := digit_to_num (deref rest) in
                           let* (width, p) := scan_width (drop 1 rest) d in
                           if width =? 0 then Err else Ok (width, p))
                     else Ok (-1, rest) in
            match w with
            | Stuck => Stuck
            | Err => malformed
            | Ok (width, p) =>
                let '(longmod, p) := if is_char (deref p) 108 then (true, drop 1 p) else (false, p) in
                let conv := deref p in
                let next buf v := vsscanf_loop f buf (drop 1 p) (n_matched + 1) (out ++ [v]) in
                if is_char conv 117 || is_char conv 120 then
                  if b2z (deref buf) =? 0 then stop
                  else match scan_unsigned buf width (if is_char conv 117 then 10 else 16) with
                       | Stuck => Stuck
                       | Err => stop
                       | Ok (u, buf) => if negb longmod && (UINT_MAX <? u) then stop else next buf (SNum u)
                       end
                else if is_char conv 102 then
                  if negb longmod then malformed
                  else if b2z (deref buf) =? 0 then stop
                  else match scan_double buf width with
                       | Stuck => Stuck
                       | Err => stop
                       | Ok (d, buf) => next buf (SDouble d)
                       end
                else if is_char conv 100 then
                  match scan_signed buf width with
                  | Stuck => Stuck
                  | Err => stop
                  | Ok (lng, buf) =>
                      if negb longmod && ((lng <? INT_MIN) || (INT_MAX <? lng)) then stop else next buf (SNum lng)
                  end
                else if is_char conv 115 then
                  if longmod then malformed
                  else if width <? 0 then malformed
                  else match scan_string buf width with
                       | Stuck => Stuck
                       | Err => stop
                       | Ok (s, buf) => next buf (SString s)
                       end
                else if is_char conv 99 then
                  if longmod then malformed
                  else if negb (width =? -1) then malformed
                  else if b2z (deref buf) =? 0 then stop
                  else next (drop 1 buf) (SChar (deref buf))
                else if is_char conv 37 then
                  if negb (b2z (deref buf) =? 37) then stop
                  else if longmod then malformed
                  else vsscanf_loop f (drop 1 buf) (drop 1 p) n_matched out
                else malformed
            end
      end
  end.

(** [tor_vsscanf]; every turn uses up a character of the pattern. *)
Definition tor_vsscanf (buf pattern : bytes) : outcome (Z * list scanned) :=
  vsscanf_loop (S (length pattern)) buf pattern 0 [].
Definition tor_sscanf (buf pattern : bytes) : outcome (Z * list scanned) := tor_vsscanf buf pattern.
