(* ===== verification/Inaddr.v ===== *)
(** * The text form of IP addresses: [lib/net/inaddr.c]

    Printing and parsing of IPv4 and IPv6 addresses. An IPv4 address is the integer in host
    order, an IPv6 address the 16 bytes of [s6_addr]; a text is a C string. *)
From S2P Require Import Prelude ParseInt Endian Strings Smartutil Scanf Address.

(** [tor_snprintf(buf, size, ...)] where the formatted text is [s]; [Err] is -1. *)
Definition tor_snprintf (size : Z) (s : bytes) : outcome bytes :=
  if size =? 0 then Err else if SIZE_T_CEILING <? size then Err else if size <=? zlen s then Err else Ok s.

(** What [%x] prints. *)
Definition hex_char (d : Z) : ascii := nth (Z.to_nat d) (bs "0123456789abcdef") NUL.
Fixpoint hex_digits (fuel : nat) (n : Z) (acc : list Z) : list Z :=
  match fuel with
  | O => acc
  | S f => if n <? 16 then n :: acc else hex_digits f (n / 16) (n mod 16 :: acc)
  end.
Definition print_hex (n : Z) : bytes := hex_char <$> hex_digits (S (Z.to_nat (Z.log2 n))) n [].

(** ** IPv4 *)

Definition dotted (a b c d : Z) : bytes :=
  print_int a ++ bs "." ++ print_int b ++ bs "." ++ print_int c ++ bs "." ++ print_int d.

Definition tor_inet_ntoa (s_addr : Z) (buf_len : Z) : outcome bytes :=
  let a := s_addr in
  tor_snprintf buf_len (dotted (Z.land (Z.shiftr a 24) 0xff) (Z.land (Z.shiftr a 16) 0xff)
                          (Z.land (Z.shiftr a 8) 0xff) (Z.land a 0xff)).

Definition leading_zero (octet : bytes) : bool :=
  (1 <? zlen octet) && (b2z (deref octet) =? 48).

(** [None] is 0. *)
Definition tor_inet_aton (str : bytes) : outcome (option Z) :=
  let* (n, vals) := tor_sscanf str (bs "%3u.%3u.%3u.%3u%c") in
  if negb (n =? 4) then Ok None
  else
    match vals with
    | [SNum a; SNum b; SNum c; SNum d] =>
        let* (sl, _) := smartlist_split_string [] str (Some (bs ".")) 0 0 in
        if existsb leading_zero sl then Ok None
        else if 255 <? a then Ok None
        else if 255 <? b then Ok None
        else if 255 <? c then Ok None
        else if 255 <? d then Ok None
        else Ok (Some (Z.lor (Z.lor (Z.lor (wrap 32 (Z.shiftl a 24)) (Z.shiftl b 16)) (Z.shiftl c 8)) d))
    | _ => Stuck
    end.

(** ** IPv6: printing *)

Definition s6 (addr : bytes) (i : nat) : Z := b2z (nth i addr NUL).
Definition words_of (addr : bytes) : list Z :=
  (fun i => wrap 16 (Z.shiftl (s6 addr (2 * i)) 8 + s6 addr (2 * i + 1))) <$> seq 0 8.
Definition word (words : list Z) (i : nat) : Z := nth i words 0.

Fixpoint zero_run (words : list Z) : nat :=
  match words with w :: rest => if w =? 0 then S (zero_run rest) else O | [] => O end.

(** The longest run of zeros, the first of those of the same length: its position and length. *)
Fixpoint find_gap (fuel : nat) (words : list Z) (i : nat) (pos : Z) (len : nat) : Z * nat :=
  match fuel, words with
  | S f, w :: rest =>
      if w =? 0 then
        let n := zero_run words in
        if (len <? n)%nat then find_gap f (drop n words) (i + n) (Z.of_nat i) n
        else find_gap f (drop n words) (i + n) pos len
      else find_gap f rest (S i) pos len
  | _, _ => (pos, len)
  end.

(** A character stored at [cp], and a [tor_snprintf] into what is left of [buf\[64\]]. *)
Definition put_char (buf : bytes) (c : ascii) : outcome bytes :=
  if (64 <=? length buf)%nat then Stuck else Ok (buf ++ [c]).
Definition put_str (buf : bytes) (s : bytes) : bytes := buf ++ take (63 - length buf) s.

Fixpoint ntop_loop (fuel : nat) (words : list Z) (i : nat) (gap : Z) (buf : bytes) : outcome bytes :=
  match words with
  | [] => Ok buf
  | w :: rest =>
      match fuel with
      | O => Stuck
      | S f =>
          if (w =? 0) && (gap =? Z.of_nat i) then
            let* buf := if (i =? 0)%nat then put_char buf ":" else Ok buf in
            let* buf := put_char buf ":" in
            let n := zero_run words in
            ntop_loop f (drop n words) (i + n) gap buf
          else
            let buf := put_str buf (print_hex w) in
            let* buf := if negb (i =? 7)%nat then put_char buf ":" else Ok buf in
            ntop_loop f rest (S i) gap buf
      end
  end.

Definition ntop_v6 (addr : bytes) : outcome bytes :=
  let words := words_of addr in
  let v4 := dotted (s6 addr 12) (s6 addr 13) (s6 addr 14) (s6 addr 15) in
  if (word words 0 =? 0) && (word words 1 =? 0) && (word words 2 =? 0) && (word words 3 =? 0) && (word words 4 =? 0)
     && (((word words 5 =? 0) && negb (word words 6 =? 0) && negb (word words 7 =? 0)) || (word words 5 =? 0xffff))
  then
    if word words 5 =? 0 then tor_snprintf 64 (bs "::" ++ v4)
    else tor_snprintf 64 (bs "::" ++ print_hex (word words 5) ++ bs ":" ++ v4)
  else
    let '(pos, len) := find_gap 8 words 0 (-1) 0 in
    let pos := if (len <=? 1)%nat then -1 else pos in
    let* buf := ntop_loop 8 words 0 pos [] in
    if (64 <=? length buf)%nat then Stuck else Ok buf.

(** [Err] is NULL. *)
Definition tor_inet_ntop (src : tor_addr) (len : Z) : outcome bytes :=
  match src with
  | TA_INET a => tor_inet_ntoa a len
  | TA_INET6 addr => let* buf := ntop_v6 addr in if len <? zlen buf + 1 then Err else Ok buf
  | _ => Err
  end.

(** ** IPv6: parsing *)

(** [for (eow = dot-1; eow > src && TOR_ISDIGIT( *eow); --eow)], as an offset. *)
Fixpoint back_digits (src : bytes) (k : nat) : nat :=
  match k with O => O | S k' => if TOR_ISDIGIT (nth k src NUL) then back_digits src k' else k end.

(** The loop over the words, [len_eow] the number of characters from [eow] on: [i], [gapPos],
    [setWords] and the words; [Err] is [return 0]. *)
Fixpoint pton_loop (fuel : nat) (src : bytes) (len_eow : nat) (i gapPos setWords : Z) (words : list Z)
    : outcome (Z * Z * Z * list Z) :=
  if (len_eow <? length src)%nat then
    match fuel with
    | O => Stuck
    | S f =>
        if 7 <? i then Err
        else if TOR_ISXDIGIT (deref src) then
          let st := strtol src 16 in
          let next := st_end st in
          if bool_decide (next = src) then Err
          else
            let len := if b2z (deref next) =? 0 then (length src - len_eow)%nat else (length src - length next)%nat in
            if (4 <? len)%nat then Err
            else if (1 <? len)%nat && negb (TOR_ISXDIGIT (nth 1 src NUL)) then Err
            else
              let r := st_val st in
              tor_assert (0 <=? r) (tor_assert (r <? 65536) (
              let* words := aset words i (wrap 16 r) in
              let src := next in
              if negb (b2z (deref src) =? 58) && negb (length src =? len_eow)%nat then Err
              else pton_loop f (drop 1 src) len_eow (i + 1) gapPos (setWords + 1) words))
        else if (b2z (deref src) =? 58) && (0 <? i) && (gapPos =? -1) then
          pton_loop f (drop 1 src) len_eow i i setWords words
        else if (b2z (deref src) =? 58) && (i =? 0) && (len_eow <? length src - 1)%nat
                && (b2z (nth 1 src NUL) =? 58) && (gapPos =? -1) then
          pton_loop f (drop 2 src) len_eow i i setWords words
        else Err
    end
  else Ok (i, gapPos, setWords, words).

(** The bytes of the words. *)
Definition bytes_of (words : list Z) : bytes :=
  concat ((fun w => [z2b (Z.shiftr w 8); z2b (Z.land w 0xff)]) <$> words).

(** The dotted quad at the end: where the words end, and the words with it. *)
Definition pton_quad (src : bytes) (d : nat) (words : list Z) : outcome (nat * list Z) :=
  let k := back_digits src (d - 1) in
  if negb (b2z (nth k src NUL) =? 58) then Err
  else
    let eow := S k in
    let* (n, vals) := tor_sscanf (drop eow src) (bs "%3u.%3u.%3u.%3u%c") in
    if negb (n =? 4) then Err
    else
      match vals with
      | [SNum byte1; SNum byte2; SNum byte3; SNum byte4] =>
          if (255 <? byte1) || (255 <? byte2) || (255 <? byte3) || (255 <? byte4) then Err
          else let* words := aset words 6 (Z.lor (Z.shiftl byte1 8) byte2) in
               let* words := aset words 7 (Z.lor (Z.shiftl byte3 8) byte4) in
               Ok (eow, words)
      | _ => Stuck
      end.

(** [Err] is [return 0]. *)
Definition pton_v6 (src : bytes) : outcome bytes :=
  let len := length src in
  if (2 <? len)%nat && (b2z (nth (len - 1) src NUL) =? 58) && negb (b2z (nth (len - 2) src NUL) =? 58) then Err
  else
    let words := replicate 8 0xf8f8 in
    let dot := strchr src "."%char in
    let* (eow, words, setWords) :=
      match dot with
      | None => Ok (len, words, 0)
      | Some r =>
          let d := (len - length r)%nat in
          if (d =? 0)%nat then Err
          else let* (eow, words) := pton_quad src d words in Ok (eow, words, 2)
      end in
    let* (i, gapPos, setWords, words) := pton_loop (S len) src (len - eow) 0 (-1) setWords words in
    if (8 <? setWords) || ((setWords =? 8) && negb (gapPos =? -1)) || ((setWords <? 8) && (gapPos =? -1)) then Err
    else
      let* words :=
        if 0 <=? gapPos then
          let nToMove := setWords - (match dot with Some _ => 2 | None => 0 end) - gapPos in
          let gapLen := 8 - setWords in
          tor_assert (0 <=? nToMove) (
          let* words := amove words (gapPos + gapLen) gapPos nToMove in
          afill words gapPos gapLen 0)
        else Ok words in
      Ok (bytes_of words).

(** The address of this family, [None] for 0, [Err] for -1. *)
Definition tor_inet_pton (af : Z) (src : bytes) : outcome (option tor_addr) :=
  if af =? AF_INET then
    let* r := tor_inet_aton src in Ok (match r with Some a => Some (TA_INET a) | None => None end)
  else if af =? AF_INET6 then
    match pton_v6 src with
    | Ok b => Ok (Some (TA_INET6 b))
    | Err => Ok None
    | Stuck => Stuck
    end
  else Err.
