(* ===== verification/InaddrFacts.v ===== *)
(** * IP addresses as text, and back *)
From S2P Require Import Prelude ParseInt Endian Strings Binascii Smartutil Scanf Address Inaddr.

(** ** Digits *)

Definition dec_char (d : Z) : ascii := nth (Z.to_nat d) (bs "0123456789") NUL.
Definition fold_digits (base acc : Z) (ds : list Z) : Z := foldl (fun a d => a * base + d) acc ds.

Lemma hex_char_facts (d : Z) : 0 <= d < 16 ->
  digit_in 16 (hex_char d) = Some d /\ isspace (hex_char d) = false /\ TOR_ISXDIGIT (hex_char d) = true /\
  hex_char d <> "."%char /\ hex_char d <> ":"%char /\
  ~ (b2z (hex_char d) = 45 \/ b2z (hex_char d) = 43 \/ b2z (hex_char d) = 120 \/ b2z (hex_char d) = 88 \/
     b2z (hex_char d) = 0).
Proof.
  intros Hd.
  assert (H : (bool_decide (digit_in 16 (hex_char d) = Some d) && negb (isspace (hex_char d)) && TOR_ISXDIGIT (hex_char d)
          && negb (bool_decide (hex_char d = "."%char)) && negb (bool_decide (hex_char d = ":"%char))
          && negb ((b2z (hex_char d) =? 45) || (b2z (hex_char d) =? 43) || (b2z (hex_char d) =? 120) ||
                   (b2z (hex_char d) =? 88) || (b2z (hex_char d) =? 0))) = true).
  { revert d Hd. apply forall_range. by vm_compute. }
  rewrite !andb_true_iff, !negb_true_iff, !orb_false_iff, !bool_decide_eq_true, !bool_decide_eq_false, !Z.eqb_neq in H.
  tauto.
Qed.

Lemma dec_char_facts (d : Z) : 0 <= d < 10 ->
  TOR_ISDIGIT (dec_char d) = true /\ b2z (dec_char d) - 48 = d /\ dec_char d <> "."%char.
Proof.
  intros Hd.
  assert (H : (TOR_ISDIGIT (dec_char d) && (b2z (dec_char d) - 48 =? d) && negb (bool_decide (dec_char d = "."%char))) = true).
  { revert d Hd. apply forall_range. by vm_compute. }
  rewrite !andb_true_iff, negb_true_iff, bool_decide_eq_false, Z.eqb_eq in H. tauto.
Qed.

Lemma hex_digits_ok (f : nat) : forall n k acc, (1 <= k)%nat -> 0 <= n < 16 ^ Z.of_nat f -> n < 16 ^ Z.of_nat k -> (1 <= f)%nat ->
  exists ds, hex_digits f n acc = ds ++ acc /\ (1 <= length ds <= k)%nat /\ Forall (fun d => 0 <= d < 16) ds /\
    fold_digits 16 0 ds = n.
Proof.
  induction f as [|f IH]; intros n k acc Hk Hn Hnk Hf; [lia|]. cbn [hex_digits].
  destruct (Z.ltb_spec n 16) as [Hlt|Hge].
  - exists [n]. split; [done|]. split; [simpl; lia|]. split; [constructor; [lia|constructor]|]. unfold fold_digits. simpl. lia.
  - destruct k as [|[|k]]; [lia|simpl in Hnk; lia|].
    rewrite Nat2Z.inj_succ, Z.pow_succ_r in Hn, Hnk by lia.
    destruct f as [|f]; [simpl in Hn; lia|].
    destruct (IH (n / 16) (S k) (n mod 16 :: acc)) as (ds & -> & Hl & Hds & Hfold); [lia|dlia|dlia|lia|].
    exists (ds ++ [n mod 16]). split; [by rewrite <- app_assoc|]. split; [rewrite length_app; simpl; lia|].
    split; [apply Forall_app; split; [done|]; constructor; [dlia|constructor]|].
    unfold fold_digits in *. rewrite foldl_app, Hfold. simpl. dlia.
Qed.

(** What a 16-bit word prints as. *)
Lemma print_hex_digits (w : Z) : 0 <= w < 65536 ->
  exists ds, print_hex w = hex_char <$> ds /\ (1 <= length ds <= 4)%nat /\ Forall (fun d => 0 <= d < 16) ds /\
    fold_digits 16 0 ds = w.
Proof.
  intros Hw. unfold print_hex.
  destruct (hex_digits_ok (S (Z.to_nat (Z.log2 w))) w 4 []) as (ds & -> & H); [lia| |simpl; lia|lia|].
  - split; [lia|]. rewrite Nat2Z.inj_succ, Z2Nat.id by apply Z.log2_nonneg.
    destruct (decide (w = 0)) as [->|Hne]; [done|]. pose proof (proj2 (Z.log2_spec w ltac:(lia))).
    eapply Z.lt_le_trans; [done|]. apply Z.pow_le_mono_l. lia.
  - exists ds. by rewrite app_nil_r.
Qed.

(** What an octet prints as. *)
Lemma print_octet_digits (a : Z) : 0 <= a < 256 ->
  exists ds, print_int a = dec_char <$> ds /\ (1 <= length ds <= 3)%nat /\ Forall (fun d => 0 <= d < 10) ds /\
    fold_digits 10 0 ds = a /\ leading_zero (print_int a) = false.
Proof.
  intros Ha. set (ds := (fun c => b2z c - 48) <$> print_int a).
  assert (H : (fun a => let ds := (fun c => b2z c - 48) <$> print_int a in
     bool_decide (print_int a = dec_char <$> ds) && (1 <=? length ds)%nat && (length ds <=? 3)%nat
     && forallb (fun d => (0 <=? d) && (d <? 10)) ds && (fold_digits 10 0 ds =? a) && negb (leading_zero (print_int a))) a = true).
  { revert a Ha ds. intros a Ha _. revert a Ha. apply forall_range. by vm_compute. }
  cbn beta zeta in H. fold ds in H. rewrite !andb_true_iff, negb_true_iff, bool_decide_eq_true, !Nat.leb_le, Z.eqb_eq, forallb_forall in H.
  destruct H as (((((H0 & H1) & H2) & H3) & H4) & H5). exists ds. split; [done|]. split; [done|]. split; [|done].
  apply Forall_forall. intros d Hd%list_elem_of_In. apply H3 in Hd. lia.
Qed.

(** ** Scanning numbers *)

Lemma fold_digits_mono (base : Z) (ds : list Z) : 1 <= base -> forall acc, 0 <= acc -> Forall (fun d => 0 <= d < base) ds ->
  acc <= fold_digits base acc ds.
Proof.
  intros Hb. induction ds as [|d ds IH]; intros acc Ha Hds; [done|]. apply Forall_cons in Hds as [Hd Hds].
  unfold fold_digits in *. cbn [foldl]. etransitivity; [|apply IH; [nia|done]]. nia.
Qed.

Lemma scan_unsigned_digits (ds : list Z) (rest : bytes) (width : Z) : TOR_ISDIGIT (deref rest) = false ->
  forall acc n, 0 <= acc -> 0 <= n -> n + zlen ds <= width -> Forall (fun d => 0 <= d < 10) ds -> fold_digits 10 acc ds <= ULONG_MAX ->
  scan_unsigned_loop false ((dec_char <$> ds) ++ rest) acc n width = Ok (fold_digits 10 acc ds, n + zlen ds, rest).
Proof.
  intros Hr. induction ds as [|d ds IH]; intros acc n Ha Hn Hw Hds Hm.
  - cbn [fmap list_fmap app]. change (zlen []) with 0. rewrite Z.add_0_r. destruct rest as [|c rest]; [done|].
    cbn [scan_unsigned_loop deref] in *. by rewrite Hr, andb_false_r.
  - apply Forall_cons in Hds as [Hd Hds]. destruct (dec_char_facts d Hd) as (Hdig & Hv & _).
    assert (Hz : zlen (d :: ds) = 1 + zlen ds) by (unfold zlen; cbn [length]; lia). pose proof (zlen_nonneg ds).
    cbn [fmap list_fmap app scan_unsigned_loop]. rewrite Hdig.
    assert ((b2z (dec_char d) =? 0) = false) as -> by (apply Z.eqb_neq; lia).
    rewrite (proj2 (Z.ltb_lt _ _)) by lia. cbn [negb andb].
    unfold digit_to_num. rewrite Hv, (proj2 (Z.leb_le _ _)) by lia.
    assert ((d >=? 0) = true) as -> by lia. cbn [andb tor_assert obind].
    unfold fold_digits in Hm. cbn [foldl] in Hm. fold (fold_digits 10 (acc * 10 + d) ds) in Hm.
    pose proof (fold_digits_mono 10 ds ltac:(lia) (acc * 10 + d) ltac:(lia) Hds).
    rewrite (proj2 (Z.ltb_ge _ _)) by (apply Z.div_le_lower_bound; unfold ULONG_MAX in *; lia).
    rewrite IH by (done || lia). unfold fold_digits. cbn [foldl]. do 3 f_equal. lia.
Qed.

(** An octet, and what follows it. *)
Lemma scan_octet (a : Z) (rest : bytes) : 0 <= a < 256 -> TOR_ISDIGIT (deref rest) = false ->
  scan_unsigned (print_int a ++ rest) 3 10 = Ok (a, rest) /\ (b2z (deref (print_int a ++ rest)) =? 0) = false.
Proof.
  intros Ha Hr. destruct (print_octet_digits a Ha) as (ds & -> & Hl & Hds & Hf & _).
  unfold scan_unsigned. change ((10 =? 10) || (10 =? 16)) with true. cbn [tor_assert]. change (3 <? 0) with false.
  change (10 =? 16) with false. cbn iota. split.
  - rewrite scan_unsigned_digits by (done || unfold zlen, ULONG_MAX in *; lia). rewrite Hf. cbn [obind].
    rewrite (proj2 (Z.eqb_neq _ _)); [done|]. unfold zlen. lia.
  - destruct ds as [|d ds]; [cbn in Hl; lia|]. apply Forall_cons in Hds as [Hd _].
    destruct (dec_char_facts d Hd) as (_ & Hv & _). cbn [fmap list_fmap app deref]. apply Z.eqb_neq. lia.
Qed.

Definition quad_pattern : bytes := bs "%3u.%3u.%3u.%3u%c".

Lemma vsscanf_u3 (f : nat) (buf rest : bytes) (n : Z) (out : list scanned) :
  vsscanf_loop (S f) buf (bs "%3u" ++ rest) n out =
    if b2z (deref buf) =? 0 then Ok (n, out)
    else match scan_unsigned buf 3 10 with
         | Stuck => Stuck
         | Err => Ok (n, out)
         | Ok (u, buf) => if UINT_MAX <? u then Ok (n, out) else vsscanf_loop f buf rest (n + 1) (out ++ [SNum u])
         end.
Proof. reflexivity. Qed.

Lemma vsscanf_dot (f : nat) (buf rest : bytes) (n : Z) (out : list scanned) :
  vsscanf_loop (S f) ("."%char :: buf) ("."%char :: rest) n out = vsscanf_loop f buf rest n out.
Proof. reflexivity. Qed.

Lemma sscanf_dotted (a b c d : Z) : 0 <= a < 256 -> 0 <= b < 256 -> 0 <= c < 256 -> 0 <= d < 256 ->
  tor_sscanf (dotted a b c d) quad_pattern = Ok (4, [SNum a; SNum b; SNum c; SNum d]).
Proof.
  intros Ha Hb Hc Hd. unfold tor_sscanf, tor_vsscanf. change (S (length quad_pattern)) with 18%nat.
  change quad_pattern with (bs "%3u" ++ "."%char :: bs "%3u" ++ "."%char :: bs "%3u" ++ "."%char :: bs "%3u" ++ bs "%c").
  unfold dotted. 
  assert (Hu : forall x, 0 <= x < 256 -> (UINT_MAX <? x) = false) by (intros x Hx; unfold UINT_MAX; lia).
  rewrite vsscanf_u3. destruct (scan_octet a (bs "." ++ print_int b ++ bs "." ++ print_int c ++ bs "." ++ print_int d)) as [-> ->]; [done|done|].
  rewrite Hu by done. rewrite (vsscanf_dot _ (print_int b ++ bs "." ++ print_int c ++ bs "." ++ print_int d)).
  rewrite vsscanf_u3. destruct (scan_octet b (bs "." ++ print_int c ++ bs "." ++ print_int d)) as [-> ->]; [done|done|].
  rewrite Hu by done. rewrite (vsscanf_dot _ (print_int c ++ bs "." ++ print_int d)).
  rewrite vsscanf_u3. destruct (scan_octet c (bs "." ++ print_int d)) as [-> ->]; [done|done|].
  rewrite Hu by done. rewrite (vsscanf_dot _ (print_int d)).
  rewrite vsscanf_u3. destruct (scan_octet d []) as [H1 H2]; [done|done|]. rewrite app_nil_r in H1, H2. rewrite H1, H2, Hu by done.
  reflexivity.
Qed.

(** ** IPv4 *)

Lemma octet_no_dot (a : Z) : 0 <= a < 256 -> ~ ("."%char ∈ print_int a).
Proof.
  intros Ha. destruct (print_octet_digits a Ha) as (ds & -> & _ & Hds & _). intros Hin.
  apply list_elem_of_fmap in Hin as (d & Hd & Hin). rewrite Forall_forall in Hds.
  destruct (dec_char_facts d (Hds d Hin)) as (_ & _ & Hne). congruence.
Qed.

Lemma octets_lor (a b c d : Z) : 0 <= a < 256 -> 0 <= b < 256 -> 0 <= c < 256 -> 0 <= d < 256 ->
  Z.lor (Z.lor (Z.lor (wrap 32 (Z.shiftl a 24)) (Z.shiftl b 16)) (Z.shiftl c 8)) d = a * 2 ^ 24 + b * 2 ^ 16 + c * 2 ^ 8 + d.
Proof.
  intros Ha Hb Hc Hd.
  rewrite shiftl32 by (simpl; lia). rewrite <- (Z.shiftl_mul_pow2 a 24) by lia.
  assert (E : forall x y k, 0 <= k -> 0 <= y < 2 ^ k -> Z.lor (x * 2 ^ k) y = x * 2 ^ k + y).
  { intros x y k Hk Hy. rewrite <- Z.shiftl_mul_pow2 at 1 by done. by rewrite lor_shiftl_add by done. }
  rewrite !Z.shiftl_mul_pow2 by lia.
  replace (b * 2 ^ 16) with ((b * 2 ^ 16)) by lia. rewrite (E a (b * 2 ^ 16) 24) by (simpl; lia).
  replace (a * 2 ^ 24 + b * 2 ^ 16) with ((a * 2 ^ 8 + b) * 2 ^ 16) by (simpl; lia). rewrite (E _ (c * 2 ^ 8) 16) by (simpl; lia).
  replace ((a * 2 ^ 8 + b) * 2 ^ 16 + c * 2 ^ 8) with ((a * 2 ^ 16 + b * 2 ^ 8 + c) * 2 ^ 8) by (simpl; lia).
  rewrite (E _ d 8) by (simpl; lia). simpl. lia.
Qed.

Lemma aton_dotted (a b c d : Z) : 0 <= a < 256 -> 0 <= b < 256 -> 0 <= c < 256 -> 0 <= d < 256 ->
  tor_inet_aton (dotted a b c d) = Ok (Some (a * 2 ^ 24 + b * 2 ^ 16 + c * 2 ^ 8 + d)).
Proof.
  intros Ha Hb Hc Hd. unfold tor_inet_aton. change (bs "%3u.%3u.%3u.%3u%c") with quad_pattern.
  rewrite sscanf_dotted by done. cbn [obind negb Z.eqb Pos.eqb].
  assert (Hs : smartlist_split_string [] (dotted a b c d) (Some (bs ".")) 0 0 = Ok ([print_int a; print_int b; print_int c; print_int d], 4)).
  { unfold smartlist_split_string. change (bs ".") with ["."%char].
    change (dotted a b c d) with (join_fill [print_int a; print_int b; print_int c; print_int d] ["."%char]).
    apply (split_loop_of_join "."%char [print_int a; print_int b; print_int c; print_int d] _ [] 0); [done| |lia].
    repeat constructor; by apply octet_no_dot. }
  rewrite Hs. cbn [obind existsb].
  destruct (print_octet_digits a Ha) as (_ & _ & _ & _ & _ & ->). destruct (print_octet_digits b Hb) as (_ & _ & _ & _ & _ & ->).
  destruct (print_octet_digits c Hc) as (_ & _ & _ & _ & _ & ->). destruct (print_octet_digits d Hd) as (_ & _ & _ & _ & _ & ->).
  cbn [orb]. rewrite !(proj2 (Z.ltb_ge _ _)) by lia. do 2 f_equal.
  by apply octets_lor.
Qed.

Lemma dotted_length (a b c d : Z) : 0 <= a < 256 -> 0 <= b < 256 -> 0 <= c < 256 -> 0 <= d < 256 ->
  (length (dotted a b c d) <= 15)%nat.
Proof.
  assert (H : forall x, 0 <= x < 256 -> (length (print_int x) <= 3)%nat).
  { intros x Hx. destruct (print_octet_digits x Hx) as (ds & -> & Hl & _). rewrite length_fmap. lia. }
  intros Ha Hb Hc Hd. unfold dotted. rewrite !length_app. cbn [bs String.list_ascii_of_string length].
  pose proof (H a Ha). pose proof (H b Hb). pose proof (H c Hc). pose proof (H d Hd). lia.
Qed.

Lemma octets_of (a k : Z) : 0 <= a -> 0 <= k -> 0 <= Z.land (Z.shiftr a k) 0xff < 256 /\ Z.land (Z.shiftr a k) 0xff = (a / 2 ^ k) mod 256.
Proof.
  intros Ha Hk. change 0xff with (Z.ones 8). rewrite land_ones_mod, Z.shiftr_div_pow2 by lia.
  change (2 ^ 8) with 256. split; [|done]. apply Z.mod_pos_bound. lia.
Qed.

Lemma ntoa_aton (a len : Z) : 0 <= a < 2 ^ 32 -> 16 <= len <= SIZE_T_CEILING ->
  exists s, tor_inet_ntoa a len = Ok s /\ tor_inet_aton s = Ok (Some a) /\ zlen s < 16.
Proof.
  intros Ha Hl. unfold tor_inet_ntoa.
  destruct (octets_of a 24) as [R1 E1]; [lia|lia|]. destruct (octets_of a 16) as [R2 E2]; [lia|lia|].
  destruct (octets_of a 8) as [R3 E3]; [lia|lia|]. destruct (octets_of a 0) as [R4 E4]; [lia|lia|].
  rewrite Z.shiftr_0_r in R4, E4. pose proof (dotted_length _ _ _ _ R1 R2 R3 R4) as Hlen.
  eexists. unfold tor_snprintf. rewrite (proj2 (Z.eqb_neq _ _)), (proj2 (Z.ltb_ge _ _)), (proj2 (Z.leb_gt _ _)) by (unfold zlen; lia).
  split; [done|]. split; [|unfold zlen; lia]. rewrite aton_dotted by done. do 2 f_equal.
  rewrite E1, E2, E3, E4. change (2 ^ 32) with 4294967296 in Ha. rewrite Z.pow_0_r, Z.div_1_r.
  change (2 ^ 24) with 16777216. change (2 ^ 16) with 65536. change (2 ^ 8) with 256. dlia.
Qed.

(** ** IPv6: the words *)

Definition COLON : ascii := ":"%char.
Definition is_word (w : Z) : Prop := 0 <= w < 65536.

(** Each word with a colon after it; words with colons between them. *)
Definition wc (l : list Z) : bytes := concat ((fun w => print_hex w ++ [COLON]) <$> l).
Definition colons (l : list Z) : bytes := join_fill (print_hex <$> l) [COLON].

Lemma colons_snoc (l : list Z) (x : Z) : colons (l ++ [x]) = wc l ++ print_hex x.
Proof.
  induction l as [|w l IH]; [done|]. unfold colons, wc in *. cbn [app fmap list_fmap concat].
  rewrite <- !app_assoc. rewrite <- IH. cbn [join_fill]. destruct (print_hex <$> l ++ [x]) eqn:E; [|done].
  apply fmap_nil_inv in E. by destruct l.
Qed.

Lemma wc_app (l1 l2 : list Z) : wc (l1 ++ l2) = wc l1 ++ wc l2.
Proof. unfold wc. by rewrite fmap_app, concat_app. Qed.

Lemma print_hex_ne (w : Z) : is_word w -> (1 <= length (print_hex w) <= 4)%nat.
Proof. intros Hw. destruct (print_hex_digits w Hw) as (ds & -> & Hl & _). by rewrite length_fmap. Qed.

Lemma wc_length (l : list Z) : Forall is_word l -> (2 * length l <= length (wc l) <= 5 * length l)%nat.
Proof.
  induction 1 as [|w l Hw _ IH]; [done|]. unfold wc in *. cbn [fmap list_fmap concat length].
  rewrite !length_app. pose proof (print_hex_ne w Hw). cbn [length]. lia.
Qed.

Lemma print_hex_chars (w : Z) (c : ascii) : is_word w -> c ∈ print_hex w -> c <> "."%char /\ c <> COLON.
Proof.
  intros Hw. destruct (print_hex_digits w Hw) as (ds & -> & _ & Hds & _). intros (d & -> & Hd)%list_elem_of_fmap.
  rewrite Forall_forall in Hds. destruct (hex_char_facts d (Hds d Hd)) as (_ & _ & _ & H1 & H2 & _). done.
Qed.

Lemma wc_no_dot (l : list Z) : Forall is_word l -> ~ ("."%char ∈ wc l).
Proof.
  induction 1 as [|w l Hw _ IH]; [apply not_elem_of_nil|]. unfold wc in *. cbn [fmap list_fmap concat].
  intros [[H|H]%elem_of_app|H]%elem_of_app; [by apply (print_hex_chars w) in H as [H _]|by apply list_elem_of_singleton in H|done].
Qed.

Lemma strchr_none (s : bytes) (c : ascii) : ~ (c ∈ s) -> strchr s c = None.
Proof.
  induction s as [|d s IH]; [done|]. intros [Hd Hs]%not_elem_of_cons. cbn [strchr].
  destruct (decide (d = c)); [congruence|by apply IH].
Qed.

Lemma strchr_first (s t : bytes) (c : ascii) : ~ (c ∈ s) -> strchr (s ++ c :: t) c = Some (c :: t).
Proof.
  induction s as [|d s IH]; intros H; cbn [app strchr].
  - by destruct (decide (c = c)).
  - apply not_elem_of_cons in H as [Hd Hs]. destruct (decide (d = c)); [congruence|by apply IH].
Qed.

(** ** Parsing words *)

Definition stops (rest : bytes) : Prop := rest = [] \/ exists t, rest = COLON :: t.

Lemma scan_hex_digits (ds : list Z) (rest : bytes) : stops rest -> Forall (fun d => 0 <= d < 16) ds ->
  forall acc, scan_digits 16 acc ((hex_char <$> ds) ++ rest) = (fold_digits 16 acc ds, rest).
Proof.
  intros Hr. induction 1 as [|d ds Hd _ IH]; intros acc; cbn [fmap list_fmap app].
  - destruct Hr as [->|(t & ->)]; done.
  - cbn [scan_digits]. destruct (hex_char_facts d Hd) as (-> & _). by rewrite IH.
Qed.

Lemma strtol_word (w : Z) (rest : bytes) : is_word w -> stops rest ->
  strtol (print_hex w ++ rest) 16 = {| st_val := w; st_end := rest; st_erange := false |}.
Proof.
  intros Hw Hr. destruct (print_hex_digits w Hw) as (ds & E & Hl & Hds & Hf).
  pose proof (scan_hex_digits ds rest Hr Hds 0) as Hscan. rewrite Hf, <- E in Hscan.
  unfold strtol, strtox. rewrite E in *. destruct ds as [|d ds]; [simpl in Hl; lia|]. cbn [fmap list_fmap app] in *.
  apply Forall_cons in Hds as [Hd Hds]. destruct (hex_char_facts d Hd) as (Hin & Hsp & _ & _ & _ & Hch).
  cbn [skip_space]. rewrite Hsp, !(proj2 (Z.eqb_neq _ _)) by tauto.
  assert (Hres : resolve_base 16 (hex_char d :: (hex_char <$> ds) ++ rest) = (16, hex_char d :: (hex_char <$> ds) ++ rest)).
  { unfold resolve_base. change ((16 =? 0) || (16 =? 16)) with true. cbn [andb].
    destruct ds as [|d2 ds]; cbn [fmap list_fmap app].
    - destruct Hr as [->|(t & ->)]; [done|]. destruct t as [|t0 t]; [done|]. by rewrite andb_false_r.
    - apply Forall_cons in Hds as [Hd2 _]. destruct (hex_char_facts d2 Hd2) as (_ & _ & _ & _ & _ & Hch2).
      destruct ((hex_char <$> ds) ++ rest); [done|]. rewrite !(proj2 (Z.eqb_neq (b2z (hex_char d2)) _)) by tauto.
      cbn [orb]. by rewrite andb_false_r. }
  rewrite Hres. cbn [deref]. rewrite Hin, Hscan. unfold is_word in Hw.
  rewrite !(proj2 (Z.ltb_ge _ _)) by (unfold LONG_MIN, LONG_MAX; lia). done.
Qed.

Lemma stops_length (w : Z) (rest : bytes) : is_word w -> stops rest ->
  TOR_ISXDIGIT (deref (print_hex w ++ rest)) = true /\
  forall n, (1 < length (print_hex w))%nat -> n = nth 1 (print_hex w ++ rest) NUL -> TOR_ISXDIGIT n = true.
Proof.
  intros Hw Hr. destruct (print_hex_digits w Hw) as (ds & -> & Hl & Hds & _).
  destruct ds as [|d ds]; [simpl in Hl; lia|]. apply Forall_cons in Hds as [Hd Hds].
  split; [by apply hex_char_facts|]. intros n. rewrite length_fmap. intros Hn ->.
  destruct ds as [|d2 ds]; [simpl in Hn; lia|]. apply Forall_cons in Hds as [Hd2 _]. by apply hex_char_facts.
Qed.

(** One word of the loop, when a colon follows it or the end. *)
Lemma word_step (f : nat) (w : Z) (tail : bytes) (len_eow i : nat) (gap set : Z) (words : list Z) :
  is_word w -> (i <= 7)%nat -> length words = 8%nat -> (len_eow <= length tail)%nat ->
  pton_loop (S f) (print_hex w ++ COLON :: tail) len_eow (Z.of_nat i) gap set words =
  pton_loop f tail len_eow (Z.of_nat (S i)) gap (set + 1) (<[i := w]> words).
Proof.
  intros Hw Hi Hwl Hlen. pose proof (print_hex_ne w Hw) as Hne.
  assert (Hst : stops (COLON :: tail)) by (right; by eexists).
  destruct (stops_length w _ Hw Hst) as [Hx Hx1]. cbn [pton_loop].
  assert (Hlt : (len_eow <? length (print_hex w ++ COLON :: tail))%nat = true).
  { apply Nat.ltb_lt. rewrite length_app. cbn [length]. lia. }
  rewrite Hlt, (proj2 (Z.ltb_ge _ _)) by lia. rewrite Hx, (strtol_word w _ Hw Hst). cbn [st_end st_val].
  rewrite bool_decide_false.
  2: { intros E. apply (f_equal length) in E. rewrite length_app in E. lia. }
  change (b2z (deref (COLON :: tail)) =? 0) with false. cbn iota. rewrite length_app.
  replace (length (print_hex w) + length (COLON :: tail) - length (COLON :: tail))%nat with (length (print_hex w)) by lia.
  rewrite (proj2 (Nat.ltb_ge _ _)) by lia.
  assert (Hn1 : (1 <? length (print_hex w))%nat && negb (TOR_ISXDIGIT (nth 1 (print_hex w ++ COLON :: tail) NUL)) = false).
  { destruct (Nat.ltb_spec 1 (length (print_hex w))); [|done]. by rewrite (Hx1 _ ltac:(done) eq_refl). }
  rewrite Hn1. unfold is_word in Hw. rewrite (proj2 (Z.leb_le _ _)), (proj2 (Z.ltb_lt _ _)) by lia. cbn [tor_assert].
  rewrite aset_nat by lia. cbn [obind]. unfold wrap. rewrite Z.mod_small by (simpl; lia).
  change (b2z (deref (COLON :: tail)) =? 58) with true. cbn [negb andb drop].
  replace (Z.of_nat i + 1) with (Z.of_nat (S i)) by lia. done.
Qed.

Lemma word_end (f : nat) (w : Z) (i : nat) (gap set : Z) (words : list Z) :
  is_word w -> (i <= 7)%nat -> length words = 8%nat ->
  pton_loop (S f) (print_hex w) 0 (Z.of_nat i) gap set words = Ok (Z.of_nat (S i), gap, set + 1, <[i := w]> words).
Proof.
  intros Hw Hi Hwl. pose proof (print_hex_ne w Hw) as Hne. assert (Hst : stops []) by (by left).
  destruct (stops_length w _ Hw Hst) as [Hx Hx1]. pose proof (strtol_word w [] Hw Hst) as Hstr.
  rewrite app_nil_r in *. cbn [pton_loop]. rewrite (proj2 (Nat.ltb_lt _ _)), (proj2 (Z.ltb_ge _ _)) by lia.
  rewrite Hx, Hstr. cbn [st_end st_val].
  rewrite bool_decide_false.
  2: { intros E. apply (f_equal length) in E. simpl in E. lia. }
  change (b2z (deref []) =? 0) with true. cbn iota. rewrite Nat.sub_0_r.
  rewrite (proj2 (Nat.ltb_ge _ _)) by lia.
  assert (Hn1 : (1 <? length (print_hex w))%nat && negb (TOR_ISXDIGIT (nth 1 (print_hex w) NUL)) = false).
  { destruct (Nat.ltb_spec 1 (length (print_hex w))); [|done]. by rewrite (Hx1 _ ltac:(done) eq_refl). }
  rewrite Hn1. unfold is_word in Hw. rewrite (proj2 (Z.leb_le _ _)), (proj2 (Z.ltb_lt _ _)) by lia. cbn [tor_assert].
  rewrite aset_nat by lia. cbn [obind]. unfold wrap. rewrite Z.mod_small by (simpl; lia).
  cbn [length Nat.eqb negb]. rewrite andb_false_r. replace (Z.of_nat i + 1) with (Z.of_nat (S i)) by lia.
  by destruct f.
Qed.

(** The words [l] stored from position [i] on. *)
Definition stored (i : nat) (l words : list Z) : list Z := take i words ++ l ++ drop (i + length l) words.

Lemma stored_nil (i : nat) (words : list Z) : stored i [] words = words.
Proof. unfold stored. simpl. rewrite Nat.add_0_r. apply take_drop. Qed.

Lemma stored_cons (i : nat) (w : Z) (l words : list Z) : (i < length words)%nat ->
  stored (S i) l (<[i := w]> words) = stored i (w :: l) words.
Proof.
  intros Hi. unfold stored. rewrite take_S_insert by done. rewrite drop_insert_lt by lia.
  rewrite <- app_assoc. cbn [app length]. by replace (S i + length l)%nat with (i + S (length l))%nat by lia.
Qed.

Lemma words_colon (l : list Z) : forall f tail len_eow i gap set words, Forall is_word l ->
  (i + length l <= 8)%nat -> length words = 8%nat -> (len_eow <= length tail)%nat ->
  pton_loop (length l + f) (wc l ++ tail) len_eow (Z.of_nat i) gap set words =
  pton_loop f tail len_eow (Z.of_nat (i + length l)) gap (set + zlen l) (stored i l words).
Proof.
  induction l as [|w l IH]; intros f tail len_eow i gap set words Hl Hi Hw Hlen.
  - rewrite stored_nil. unfold zlen. cbn. by rewrite Nat.add_0_r, Z.add_0_r.
  - apply Forall_cons in Hl as [Hw0 Hl]. cbn [length] in *. unfold wc. cbn [fmap list_fmap concat Nat.add].
    fold (wc l). rewrite <- !app_assoc. cbn [app].
    rewrite word_step by (rewrite ?length_app; (done || lia)).
    rewrite IH by (rewrite ?length_insert; (done || lia)). rewrite stored_cons by lia.
    f_equal; [lia|unfold zlen; cbn [length]; lia].
Qed.

Lemma words_end (l : list Z) (f i : nat) (gap set : Z) (words : list Z) : Forall is_word l ->
  (i + length l <= 8)%nat -> length words = 8%nat ->
  pton_loop (length l + f) (colons l) 0 (Z.of_nat i) gap set words =
  Ok (Z.of_nat (i + length l), gap, set + zlen l, stored i l words).
Proof.
  intros Hl Hi Hw. destruct (decide (l = [])) as [->|Hne].
  - rewrite stored_nil. unfold zlen. cbn. rewrite Nat.add_0_r, Z.add_0_r. by destruct f.
  - apply snoc_inv in Hne as (l0 & x & ->). apply Forall_app in Hl as [Hl Hx]. apply Forall_cons in Hx as [Hx _].
    rewrite length_app in *. cbn [length] in *. rewrite colons_snoc.
    replace (length l0 + 1 + f)%nat with (length l0 + S f)%nat by lia.
    rewrite words_colon by (done || lia). rewrite word_end; [|done|lia|].
    2: { unfold stored. rewrite !length_app, length_take, length_drop. lia. }
    unfold zlen. rewrite length_app. cbn [length].
    replace (S (i + length l0)) with (i + (length l0 + 1))%nat by lia.
    replace (set + Z.of_nat (length l0) + 1) with (set + Z.of_nat (length l0 + 1)) by lia.
    do 2 f_equal. unfold stored. rewrite length_app. cbn [length].
    rewrite !app_assoc. rewrite insert_app_r_alt by (rewrite length_app, length_take; lia).
    rewrite length_app, length_take. replace (i + length l0 - (i `min` length words + length l0))%nat with O by lia.
    destruct (drop (i + length l0) words) as [|y rest] eqn:E.
    { apply (f_equal length) in E. rewrite length_drop in E. simpl in E. lia. }
    cbn [insert list_insert]. rewrite <- !app_assoc. cbn [app]. do 3 f_equal.
    replace (i + (length l0 + 1))%nat with (i + length l0 + 1)%nat by lia. rewrite <- drop_drop, E. done.
Qed.

(** ** IPv6: the words of an address *)

Lemma words_of_ok (b : bytes) : length b = 16%nat ->
  length (words_of b) = 8%nat /\ Forall is_word (words_of b) /\ bytes_of (words_of b) = b.
Proof.
  intros Hl. assert (Hw : forall x y, wrap 16 (Z.shiftl (b2z x) 8 + b2z y) = b2z x * 256 + b2z y).
  { intros x y. pose proof (b2z_range x). pose proof (b2z_range y). unfold wrap. rewrite Z.shiftl_mul_pow2 by lia.
    change (2 ^ 8) with 256. apply Z.mod_small. simpl. lia. }
  assert (Hb : forall x y, [z2b (Z.shiftr (b2z x * 256 + b2z y) 8); z2b (Z.land (b2z x * 256 + b2z y) 255)] = [x; y]).
  { intros x y. pose proof (b2z_range x). pose proof (b2z_range y). rewrite Z.shiftr_div_pow2 by lia.
    change 255 with (Z.ones 8). rewrite land_ones_mod by lia. change (2 ^ 8) with 256.
    replace ((b2z x * 256 + b2z y) / 256) with (b2z x) by dlia.
    replace ((b2z x * 256 + b2z y) mod 256) with (b2z y) by dlia. by rewrite !z2b_b2z. }
  assert (Hr : forall x y, is_word (b2z x * 256 + b2z y)).
  { intros x y. pose proof (b2z_range x). pose proof (b2z_range y). unfold is_word. lia. }
  do 16 (destruct b as [|? b]; [done|]). destruct b; [|done].
  unfold words_of, s6. cbn [seq fmap list_fmap nth Nat.mul Nat.add]. rewrite !Hw. split; [done|]. split.
  - repeat (constructor; [apply Hr|]). constructor.
  - unfold bytes_of. cbn [fmap list_fmap concat]. by rewrite !Hb.
Qed.

Lemma zero_run_ok (l : list Z) : (zero_run l <= length l)%nat /\ l = replicate (zero_run l) 0 ++ drop (zero_run l) l.
Proof.
  induction l as [|w l [IH1 IH2]]; [done|]. cbn [zero_run]. destruct (Z.eqb_spec w 0) as [->|]; [|split; [lia|done]].
  cbn [length replicate drop app]. split; [lia|]. by f_equal.
Qed.

(** What [find_gap] has found so far. *)
Definition gap_ok (ws : list Z) (pos : Z) (len : nat) : Prop :=
  (pos = -1 /\ len = O) \/ (exists p, pos = Z.of_nat p /\ (p + len <= length ws)%nat /\ len = zero_run (drop p ws)).

Lemma find_gap_ok (ws : list Z) (f : nat) : forall i pos len, gap_ok ws pos len ->
  let '(pos', len') := find_gap f (drop i ws) i pos len in gap_ok ws pos' len'.
Proof.
  induction f as [|f IH]; intros i pos len H; [done|]. cbn [find_gap].
  destruct (drop i ws) as [|w rest] eqn:E; [done|].
  assert (Hlen : (length (drop i ws) = length ws - i)%nat) by apply length_drop.
  assert (Hi : (i < length ws)%nat) by (rewrite E in Hlen; simpl in Hlen; lia).
  assert (Hrest : rest = drop (S i) ws).
  { rewrite <- (drop_drop ws i 1) || (replace (S i) with (i + 1)%nat by lia; rewrite <- drop_drop). by rewrite E. }
  destruct (w =? 0).
  - set (n := zero_run (w :: rest)).
    assert (Hd : drop n (w :: rest) = drop (i + n) ws) by (by rewrite <- E, drop_drop). rewrite Hd.
    destruct (len <? n)%nat; [|by apply IH]. apply IH. right. exists i. split; [done|].
    destruct (zero_run_ok (drop i ws)) as [Hz _]. rewrite E in Hz at 1. fold n in Hz.
    split; [lia|]. by rewrite E.
  - rewrite Hrest. by apply IH.
Qed.

(** ** IPv6: printing *)

Lemma put_str_fits (buf s : bytes) : (length buf + length s <= 63)%nat -> put_str buf s = buf ++ s.
Proof. intros H. unfold put_str. by rewrite take_ge by lia. Qed.

Lemma put_char_fits (buf : bytes) (c : ascii) : (length buf < 64)%nat -> put_char buf c = Ok (buf ++ [c]).
Proof. intros H. unfold put_char. by rewrite (proj2 (Nat.leb_gt _ _)) by lia. Qed.

(** Words before the eighth, away from the gap. *)
Lemma ntop_words (l : list Z) : forall f rest i gap buf, Forall is_word l -> (i + length l <= 7)%nat ->
  (forall j, (i <= j < i + length l)%nat -> gap <> Z.of_nat j) -> (length buf <= 5 * i + 2)%nat ->
  ntop_loop (length l + f) (l ++ rest) i gap buf = ntop_loop f rest (i + length l) gap (buf ++ wc l).
Proof.
  induction l as [|w l IH]; intros f rest i gap buf Hl Hi Hg Hb.
  - cbn [length app Nat.add]. unfold wc. cbn. by rewrite app_nil_r, Nat.add_0_r.
  - apply Forall_cons in Hl as [Hw Hl]. cbn [length app Nat.add ntop_loop] in *. pose proof (print_hex_ne w Hw).
    rewrite (proj2 (Z.eqb_neq gap _)) by (apply Hg; lia). rewrite andb_false_r.
    rewrite put_str_fits by lia. rewrite (proj2 (Nat.eqb_neq _ _)) by lia. cbn [negb].
    rewrite put_char_fits by (rewrite length_app; lia). cbn [obind].
    rewrite IH; [|done|lia|intros j Hj; apply Hg; lia|rewrite !length_app; cbn [length]; lia].
    unfold wc. cbn [fmap list_fmap concat]. rewrite <- !app_assoc. f_equal. lia.
Qed.

(** The words up to the eighth. *)
Lemma ntop_last (l : list Z) (f i : nat) (gap : Z) (buf : bytes) : Forall is_word l -> (i + length l = 8)%nat ->
  (forall j, (i <= j < i + length l)%nat -> gap <> Z.of_nat j) -> (length buf <= 5 * i + 2)%nat ->
  ntop_loop (length l + f) l i gap buf = Ok (buf ++ colons l).
Proof.
  intros Hl Hi Hg Hb. destruct (decide (l = [])) as [->|Hne].
  { cbn [length Nat.add]. unfold colons. cbn. rewrite app_nil_r. by destruct f. }
  apply snoc_inv in Hne as (l0 & x & ->). apply Forall_app in Hl as [Hl Hx]. apply Forall_cons in Hx as [Hx _].
  rewrite length_app in *. cbn [length] in *. replace (length l0 + 1 + f)%nat with (length l0 + S f)%nat by lia.
  rewrite ntop_words; [|done|lia|intros j Hj; apply Hg; lia|done]. cbn [ntop_loop].
  rewrite (proj2 (Z.eqb_neq gap _)) by (apply Hg; lia). rewrite andb_false_r.
  pose proof (wc_length l0 Hl). pose proof (print_hex_ne x Hx).
  rewrite put_str_fits by (rewrite length_app; lia).
  assert ((i + length l0 =? 7)%nat = true) as -> by (apply Nat.eqb_eq; lia). cbn [negb obind].
  rewrite colons_snoc, <- app_assoc. by destruct f.
Qed.

(** The text of the words with a gap, or without. *)
Definition gap_text (ws : list Z) (p n : nat) : bytes :=
  (if (p =? 0)%nat then [COLON] else wc (take p ws)) ++ COLON :: colons (drop (p + n) ws).

Lemma ntop_gap (ws : list Z) (p n : nat) : Forall is_word ws -> length ws = 8%nat -> (p + n <= 8)%nat -> (1 <= n)%nat ->
  n = zero_run (drop p ws) -> ntop_loop 8 ws 0 (Z.of_nat p) [] = Ok (gap_text ws p n).
Proof.
  intros Hws Hl Hp Hn Hz.
  assert (Hlp : length (take p ws) = p) by (rewrite length_take; lia).
  assert (H1 : Forall is_word (take p ws)) by (by apply Forall_take).
  assert (H2 : Forall is_word (drop (p + n) ws)) by (by apply Forall_drop).
  assert (Hd : length (drop (p + n) ws) = (8 - p - n)%nat) by (rewrite length_drop; lia).
  pose proof (wc_length _ H1) as Hwl. rewrite Hlp in Hwl.
  replace (ntop_loop 8 ws 0 (Z.of_nat p) []) with (ntop_loop (length (take p ws) + (8 - p)) (take p ws ++ drop p ws) 0 (Z.of_nat p) []).
  2: { rewrite take_drop, Hlp. f_equal. lia. }
  rewrite ntop_words; [|done|lia|intros j Hj; rewrite Hlp in Hj; lia|simpl; lia].
  cbn [app Nat.add]. rewrite Hlp.
  destruct (drop p ws) as [|w rest] eqn:E; [subst n; simpl in Hn; lia|].
  replace (8 - p)%nat with (S (length (drop (p + n) ws) + (n - 1)))%nat by lia.
  assert (Hw0 : w = 0).
  { subst n. cbn [zero_run] in Hn. destruct (Z.eqb_spec w 0); [done|lia]. }
  cbn [ntop_loop]. rewrite <- Hz. assert (Hdr : drop n (w :: rest) = drop (p + n) ws) by (by rewrite <- E, drop_drop).
  rewrite Hdr, Hw0. rewrite !Z.eqb_refl. cbn [Z.eqb andb]. unfold gap_text.
  destruct (Nat.eqb_spec p 0) as [->|Hp0].
  - cbn [Nat.add] in *. cbn [take wc fmap list_fmap concat obind app Nat.add]. rewrite put_char_fits by (simpl; lia). cbn [obind app].
    rewrite put_char_fits by (simpl; lia). cbn [obind app].
    rewrite ntop_last; [done|done|lia|intros j Hj; lia|simpl; lia].
  - cbn [obind]. rewrite put_char_fits by lia. cbn [obind].
    rewrite ntop_last; [|done|lia|intros j Hj; lia|rewrite length_app; cbn [length]; lia].
    by rewrite <- app_assoc.
Qed.

Lemma ntop_no_gap (ws : list Z) : Forall is_word ws -> length ws = 8%nat -> ntop_loop 8 ws 0 (-1) [] = Ok (colons ws).
Proof.
  intros Hws Hl. replace (ntop_loop 8 ws 0 (-1) []) with (ntop_loop (length ws + 0) ws 0 (-1) []) by (by rewrite Hl).
  by rewrite ntop_last by (done || lia || (intros; lia) || (simpl; lia)).
Qed.

(** ** IPv6: parsing what is printed *)

Lemma not_colon (c : ascii) : c <> COLON -> (b2z c =? 58) = false.
Proof. intros Hc. apply Z.eqb_neq. intros E. apply Hc, b2z_inj. by rewrite E. Qed.

Lemma nth_last_app (s t : bytes) : t <> [] -> exists c, nth (length (s ++ t) - 1) (s ++ t) NUL = c /\ c ∈ t.
Proof.
  intros Ht. apply snoc_inv in Ht as (t0 & c & ->). exists c. rewrite app_assoc, length_app. cbn [length].
  replace (length (s ++ t0) + 1 - 1)%nat with (length (s ++ t0)) by lia. rewrite nth_middle.
  split; [done|]. apply elem_of_app. right. by apply list_elem_of_singleton.
Qed.

Definition needless_colon (src : bytes) : bool :=
  let len := length src in
  (2 <? len)%nat && (b2z (nth (len - 1) src NUL) =? 58) && negb (b2z (nth (len - 2) src NUL) =? 58).

Lemma colons_end (s : bytes) (l : list Z) : Forall is_word l -> l <> [] -> needless_colon (s ++ colons l) = false.
Proof.
  intros Hl Hne. apply snoc_inv in Hne as (l0 & x & ->). apply Forall_app in Hl as [Hl Hx]. apply Forall_cons in Hx as [Hx _].
  rewrite colons_snoc, app_assoc. unfold needless_colon.
  destruct (nth_last_app (s ++ wc l0) (print_hex x)) as (c & -> & Hc).
  { pose proof (print_hex_ne x Hx). by destruct (print_hex x); [simpl in *; lia|]. }
  rewrite not_colon by (by destruct (print_hex_chars x c Hx Hc)). by rewrite andb_false_r.
Qed.

Lemma colons_no_dot (l : list Z) : Forall is_word l -> ~ ("."%char ∈ colons l).
Proof.
  intros Hl. destruct (decide (l = [])) as [->|Hne]; [apply not_elem_of_nil|].
  apply snoc_inv in Hne as (l0 & x & ->). apply Forall_app in Hl as [Hl Hx]. apply Forall_cons in Hx as [Hx _].
  rewrite colons_snoc. intros [H|H]%elem_of_app; [by apply wc_no_dot in H|by apply (print_hex_chars x) in H as [H _]].
Qed.

Lemma colons_length (l : list Z) : Forall is_word l -> l <> [] -> (length l <= length (colons l) <= 5 * length l)%nat.
Proof.
  intros Hl Hne. apply snoc_inv in Hne as (l0 & x & ->). apply Forall_app in Hl as [Hl Hx]. apply Forall_cons in Hx as [Hx _].
  rewrite colons_snoc, !length_app. pose proof (wc_length l0 Hl). pose proof (print_hex_ne x Hx). cbn [length]. lia.
Qed.

Lemma pton_colons (ws : list Z) : Forall is_word ws -> length ws = 8%nat -> pton_v6 (colons ws) = Ok (bytes_of ws).
Proof.
  intros Hws Hl. assert (Hne : ws <> []) by (by destruct ws). pose proof (colons_length ws Hws Hne) as Hlen.
  unfold pton_v6. fold (needless_colon (colons ws)). pose proof (colons_end [] ws Hws Hne) as Hc. cbn [app] in Hc. rewrite Hc.
  rewrite strchr_none by (by apply colons_no_dot). cbn [obind]. rewrite Nat.sub_diag.
  replace (S (length (colons ws))) with (length ws + (S (length (colons ws)) - 8))%nat by lia.
  change 0 with (Z.of_nat 0) at 1. rewrite words_end by (done || lia). unfold zlen. rewrite Hl. cbn [obind].
  change (0 + Z.of_nat 8) with 8. change (8 <? 8) with false. change (8 =? 8) with true. change (-1 =? -1) with true.
  cbn [negb andb orb]. change (0 <=? -1) with false. cbn [obind]. unfold stored. rewrite Hl. cbn [take Nat.add app].
  change (drop 8 (replicate 8 63736)) with (@nil Z). by rewrite app_nil_r.
Qed.

(** The gap at the beginning of a text. *)
Lemma gap_first (f : nat) (rest : bytes) (len : nat) (set : Z) (words : list Z) : (len <= length rest)%nat ->
  pton_loop (S f) (COLON :: COLON :: rest) len 0 (-1) set words = pton_loop f rest len 0 0 set words.
Proof.
  intros Hl. assert (H1 : (len <? S (S (length rest)))%nat = true) by (apply Nat.ltb_lt; lia).
  assert (H2 : (len <? S (S (length rest)) - 1)%nat = true) by (apply Nat.ltb_lt; lia).
  cbn [pton_loop]. change (length (COLON :: COLON :: rest)) with (S (S (length rest))). rewrite H1, H2.
  change (TOR_ISXDIGIT (deref (COLON :: COLON :: rest))) with false. change (7 <? 0) with false. cbn iota. done.
Qed.

(** Making room for the gap. *)
Lemma gap_fill (l1 l2 junk : list Z) (n : nat) : (length l1 + length l2 + n = 8)%nat -> length junk = n ->
  (let* words := amove (l1 ++ l2 ++ junk) (zlen l1 + Z.of_nat n) (zlen l1) (zlen l2) in afill words (zlen l1) (Z.of_nat n) 0)
  = Ok (l1 ++ replicate n 0 ++ l2).
Proof.
  intros Hl Hj. unfold amove, afill, zlen. rewrite !length_app.
  rewrite !(proj2 (Z.ltb_ge _ _)) by lia. cbn [orb obind].
  rewrite !length_app, !length_take, length_drop, !length_app.
  rewrite !(proj2 (Z.ltb_ge _ _)) by lia. cbn [orb]. f_equal.
  replace (Z.to_nat (Z.of_nat (length l1) + Z.of_nat n)) with (length l1 + n)%nat by lia. rewrite !Nat2Z.id.
  rewrite drop_app_length, (take_app_length l2 junk), (drop_ge (l1 ++ l2 ++ junk)) by (rewrite !length_app; lia). rewrite app_nil_r.
  assert (Ht : length (take (length l1 + n) (l1 ++ l2 ++ junk)) = (length l1 + n)%nat) by (rewrite length_take, !length_app; lia).
  rewrite (take_app_le (take (length l1 + n) _)) by lia. rewrite take_take, Nat.min_l by lia. rewrite take_app_length.
  by rewrite drop_app_length' by lia.
Qed.

Lemma pton_gap (ws : list Z) (p n : nat) : Forall is_word ws -> length ws = 8%nat -> (p + n <= 8)%nat -> (1 <= n)%nat ->
  n = zero_run (drop p ws) -> pton_v6 (gap_text ws p n) = Ok (bytes_of ws).
Proof.
  intros Hws Hl Hp Hn Hz. set (l1 := take p ws). set (l2 := drop (p + n) ws).
  assert (Hl1 : length l1 = p) by (unfold l1; rewrite length_take; lia).
  assert (Hl2 : length l2 = (8 - p - n)%nat) by (unfold l2; rewrite length_drop; lia).
  assert (H1 : Forall is_word l1) by (by apply Forall_take). assert (H2 : Forall is_word l2) by (by apply Forall_drop).
  assert (Hall : ws = l1 ++ replicate n 0 ++ l2).
  { rewrite <- (take_drop p ws) at 1. fold l1. f_equal. destruct (zero_run_ok (drop p ws)) as [_ E]. rewrite E at 1.
    rewrite <- Hz, drop_drop. done. }
  pose proof (wc_length l1 H1) as Hw1.
  (* the text *)
  set (text := gap_text ws p n).
  assert (Htext : text = (if (p =? 0)%nat then [COLON] else wc l1) ++ COLON :: colons l2) by done.
  assert (Hend : needless_colon text = false).
  { rewrite Htext. destruct (decide (l2 = [])) as [E|Hne].
    - rewrite E. unfold colons. cbn [fmap list_fmap join_fill]. destruct (Nat.eqb_spec p 0) as [->|Hp0]; [done|].
      assert (Hne : l1 <> []) by (by destruct l1). apply snoc_inv in Hne as (l0 & x & E1). rewrite E1, wc_app.
      unfold wc at 2. cbn [fmap list_fmap concat]. rewrite app_nil_r. unfold needless_colon. rewrite !app_assoc, !length_app. cbn [length].
      set (s := wc l0 ++ print_hex x).
      replace (length (wc l0) + length (print_hex x) + 1 + 1 - 2)%nat with (length s) by (unfold s; rewrite length_app; lia).
      rewrite <- (app_assoc s). cbn [app]. rewrite nth_middle. change (b2z COLON =? 58) with true. by rewrite andb_false_r.
    - change (COLON :: colons l2) with ([COLON] ++ colons l2). rewrite app_assoc. by apply colons_end. }
  assert (Hdot : ~ ("."%char ∈ text)).
  { rewrite Htext. intros [H|[H|H]%elem_of_cons]%elem_of_app; [|done|by apply colons_no_dot in H].
    destruct (p =? 0)%nat; [by apply list_elem_of_singleton in H|by apply wc_no_dot in H]. }
  assert (Hlen : (length l1 + length l2 < length text)%nat).
  { rewrite Htext, length_app. cbn [length]. destruct (decide (l2 = [])) as [->|Hne].
    - cbn. destruct (Nat.eqb_spec p 0); cbn [length]; lia.
    - pose proof (colons_length l2 H2 Hne). destruct (Nat.eqb_spec p 0); cbn [length]; lia. }
  unfold pton_v6. fold (needless_colon text). rewrite Hend, strchr_none by done. cbn [obind]. rewrite Nat.sub_diag.
  (* the loop *)
  assert (Hloop : pton_loop (S (length text)) text 0 0 (-1) 0 (replicate 8 0xf8f8) =
    Ok (Z.of_nat (p + length l2), Z.of_nat p, Z.of_nat (p + length l2), l1 ++ l2 ++ replicate n 0xf8f8)).
  { assert (Hst : stored p l2 (stored 0 l1 (replicate 8 63736)) = l1 ++ l2 ++ replicate n 63736).
    { unfold stored. rewrite take_0. cbn [app Nat.add]. rewrite Hl1, take_app_length' by lia.
      rewrite drop_app_ge by lia. rewrite drop_replicate, drop_replicate. do 3 f_equal. lia. }
    revert Hlen. generalize (length text). intros k Hlen. rewrite Htext. destruct (Nat.eqb_spec p 0) as [Hp0|Hp0].
    - assert (E : l1 = []) by (destruct l1; [done|simpl in Hl1; lia]). rewrite Hp0, E in *.
      rewrite stored_nil in Hst. cbn [app].
      replace (S k) with (S (length l2 + (k - length l2)))%nat by (cbn in Hlen; lia).
      rewrite gap_first by lia.
      pose proof (words_end l2 (k - length l2) 0 0 0 (replicate 8 63736) H2 ltac:(lia) eq_refl) as Hwe.
      change (Z.of_nat 0) with 0 in Hwe. rewrite Hwe, Hst. unfold zlen. do 3 f_equal.
    - replace (S k) with (length l1 + S (length l2 + (k - length l1 - length l2)))%nat by lia.
      pose proof (words_colon l1 (S (length l2 + (k - length l1 - length l2))) (COLON :: colons l2) 0 0 (-1) 0
        (replicate 8 63736) H1 ltac:(lia) eq_refl ltac:(lia)) as Hwe.
      change (Z.of_nat 0) with 0 in Hwe. rewrite Hwe, Hl1. cbn [Nat.add].
      assert (Hg : forall f words s, pton_loop (S f) (COLON :: colons l2) 0 (Z.of_nat p) (-1) s words
               = pton_loop f (colons l2) 0 (Z.of_nat p) (Z.of_nat p) s words).
      { intros f words s. cbn [pton_loop length]. cbn [Nat.ltb Nat.leb]. rewrite (proj2 (Z.ltb_ge 7 _)) by lia.
        change (TOR_ISXDIGIT (deref (COLON :: colons l2))) with false. cbn iota.
        change (b2z (deref (COLON :: colons l2)) =? 58) with true. rewrite (proj2 (Z.ltb_lt 0 _)) by lia. done. }
      rewrite Hg, words_end; [|done|lia|].
      2: { unfold stored. rewrite !length_app, length_take, length_drop, length_replicate. lia. }
      rewrite Hst. unfold zlen. rewrite Hl1. do 3 f_equal. lia. }
  rewrite Hloop. cbn [obind].
  rewrite !(proj2 (Z.ltb_ge _ _)) by lia. rewrite (proj2 (Z.eqb_neq _ 8)) by lia. rewrite (proj2 (Z.eqb_neq _ (-1))) by lia.
  rewrite andb_false_r. cbn [negb andb orb]. rewrite (proj2 (Z.leb_le 0 (Z.of_nat p))) by lia.
  replace (Z.of_nat (p + length l2) - 0 - Z.of_nat p) with (zlen l2) by (unfold zlen; lia).
  replace (8 - Z.of_nat (p + length l2)) with (Z.of_nat n) by lia. replace (Z.of_nat p) with (zlen l1) by (unfold zlen; lia).
  rewrite (proj2 (Z.leb_le _ _)) by apply zlen_nonneg. cbn [tor_assert].
  rewrite gap_fill by (rewrite ?length_replicate; lia). cbn [obind]. by rewrite <- Hall.
Qed.

(** ** IPv6 with a dotted quad at its end *)

Lemma back_digits_ok (pre digs : bytes) (rest : bytes) : Forall (fun c => TOR_ISDIGIT c = true) digs ->
  back_digits (pre ++ COLON :: digs ++ rest) (length pre + length digs) = length pre.
Proof.
  revert rest. induction digs as [|c digs IH] using rev_ind; intros rest Hd.
  - cbn [length app]. rewrite Nat.add_0_r. destruct (length pre) as [|k] eqn:E; [done|]. cbn [back_digits].
    rewrite <- E, nth_middle. done.
  - apply Forall_app in Hd as [Hd Hc]. apply Forall_cons in Hc as [Hc _]. rewrite length_app. cbn [length].
    replace (length pre + (length digs + 1))%nat with (S (length pre + length digs)) by lia. cbn [back_digits].
    assert (E : nth (S (length pre + length digs)) (pre ++ COLON :: (digs ++ [c]) ++ rest) NUL = c).
    { replace (pre ++ COLON :: (digs ++ [c]) ++ rest) with ((pre ++ COLON :: digs) ++ c :: rest).
      2: { by rewrite <- !app_assoc. }
      replace (S (length pre + length digs)) with (length (pre ++ COLON :: digs)) by (rewrite length_app; cbn [length]; lia).
      apply nth_middle. }
    rewrite E, Hc, <- app_assoc. apply IH. done.
Qed.

Definition octet (a : Z) : Prop := 0 <= a < 256.

Lemma dotted_shape (a b c d : Z) : octet a -> octet d ->
  exists rest s, dotted a b c d = print_int a ++ "."%char :: rest /\ dotted a b c d = s ++ print_int d /\
    Forall (fun x => TOR_ISDIGIT x = true) (print_int a) /\ (forall x, x ∈ print_int d -> x <> COLON) /\ print_int d <> [].
Proof.
  intros Ha Hd. eexists _, (print_int a ++ bs "." ++ print_int b ++ bs "." ++ print_int c ++ bs "."). split; [done|].
  split; [unfold dotted; by rewrite <- !app_assoc|]. split; [|split].
  - destruct (print_octet_digits a Ha) as (ds & -> & _ & Hds & _). apply Forall_fmap. eapply Forall_impl; [exact Hds|].
    intros x Hx. by apply dec_char_facts.
  - destruct (print_octet_digits d Hd) as (ds & -> & _ & Hds & _). intros x (y & -> & Hy)%list_elem_of_fmap E.
    rewrite Forall_forall in Hds. destruct (dec_char_facts y (Hds y Hy)) as (Hdig & _). by rewrite E in Hdig.
  - destruct (print_octet_digits d Hd) as (ds & -> & Hl & _). by destruct ds; [simpl in Hl; lia|].
Qed.

Lemma pton_quad_ok (pre : bytes) (a b c d : Z) (words : list Z) : octet a -> octet b -> octet c -> octet d -> length words = 8%nat ->
  pton_quad (pre ++ COLON :: dotted a b c d) (length pre + 1 + length (print_int a)) words =
  Ok (S (length pre), <[7%nat := Z.lor (Z.shiftl c 8) d]> (<[6%nat := Z.lor (Z.shiftl a 8) b]> words)).
Proof.
  intros Ha Hb Hc Hd Hw. destruct (dotted_shape a b c d Ha Hd) as (rest & _ & E & _ & Hdig & _). unfold pton_quad.
  replace (length pre + 1 + length (print_int a) - 1)%nat with (length pre + length (print_int a))%nat by lia.
  assert (Hk : back_digits (pre ++ COLON :: dotted a b c d) (length pre + length (print_int a)) = length pre)
    by (rewrite E; by apply back_digits_ok).
  rewrite !Hk. rewrite nth_middle. change (b2z COLON =? 58) with true. cbn [negb].
  change (pre ++ COLON :: dotted a b c d) with (pre ++ [COLON] ++ dotted a b c d). rewrite app_assoc.
  rewrite drop_app_length' by (rewrite length_app; cbn [length]; lia).
  change (bs "%3u.%3u.%3u.%3u%c") with quad_pattern. rewrite sscanf_dotted by done. cbn [obind negb Z.eqb Pos.eqb].
  unfold octet in *. rewrite !(proj2 (Z.ltb_ge 255 _)) by lia. cbn [orb].
  change 6 with (Z.of_nat 6). rewrite aset_nat by lia. cbn [obind]. change 7 with (Z.of_nat 7).
  rewrite aset_nat by (rewrite length_insert; lia). done.
Qed.

(** The text [pre ++ ":" ++ quad], once the loop over its words is known. *)
Lemma pton_v6_quad (pre : bytes) (a b c d i gap set : Z) (words words' : list Z) : octet a -> octet b -> octet c -> octet d ->
  ~ ("."%char ∈ pre) ->
  (let w := [0xf8f8; 0xf8f8; 0xf8f8; 0xf8f8; 0xf8f8; 0xf8f8; Z.lor (Z.shiftl a 8) b; Z.lor (Z.shiftl c 8) d] in
   forall f, pton_loop (S (S (S f))) (pre ++ COLON :: dotted a b c d) (length (dotted a b c d)) 0 (-1) 2 w = Ok (i, gap, set, words)) ->
  0 <= gap -> set < 8 -> 0 <= set - 2 - gap ->
  (let* w := amove words (gap + (8 - set)) gap (set - 2 - gap) in afill w gap (8 - set) 0) = Ok words' ->
  pton_v6 (pre ++ COLON :: dotted a b c d) = Ok (bytes_of words').
Proof.
  intros Ha Hb Hc Hd Hdot Hloop Hgap Hset Hmove Hfill. cbn zeta in Hloop.
  set (src := pre ++ COLON :: dotted a b c d).
  destruct (dotted_shape a b c d Ha Hd) as (rest & s & E & E' & _ & Hcol & Hne).
  unfold pton_v6. fold (needless_colon src).
  assert (Hend : needless_colon src = false).
  { unfold src. rewrite E'. replace (pre ++ COLON :: s ++ print_int d) with ((pre ++ COLON :: s) ++ print_int d) by (by rewrite <- app_assoc).
    unfold needless_colon. destruct (nth_last_app (pre ++ COLON :: s) (print_int d) Hne) as (x & -> & Hx).
    rewrite not_colon by (by apply Hcol). by rewrite andb_false_r. }
  assert (Hs : src = (pre ++ COLON :: print_int a) ++ "."%char :: rest) by (unfold src; rewrite E, <- app_assoc; done).
  assert (Hdotidx : strchr src "."%char = Some ("."%char :: rest)).
  { rewrite Hs. apply strchr_first. intros [H|[H|H]%elem_of_cons]%elem_of_app; [done|done|by apply (octet_no_dot a Ha) in H]. }
  rewrite Hend, Hdotidx.
  assert (Hd1 : (length src - length ("."%char :: rest) = length pre + 1 + length (print_int a))%nat).
  { rewrite Hs, !length_app. cbn [length]. lia. }
  rewrite Hd1. rewrite (proj2 (Nat.eqb_neq _ _)) by lia. unfold src at 1. rewrite pton_quad_ok by (done || by rewrite length_replicate).
  cbn [obind replicate insert list_insert].
  replace (length src - S (length pre))%nat with (length (dotted a b c d)) by (unfold src; rewrite length_app; cbn [length]; lia).
  assert (Hfuel : exists f, S (length src) = S (S (S f))).
  { exists (length src - 2)%nat. assert (2 <= length src)%nat; [|lia]. unfold src. rewrite length_app, E. cbn [length]. rewrite length_app. cbn [length]. lia. }
  destruct Hfuel as [f ->]. unfold src. rewrite Hloop. cbn [obind].
  rewrite (proj2 (Z.ltb_ge 8 _)), (proj2 (Z.eqb_neq set 8)), (proj2 (Z.eqb_neq gap (-1))) by lia.
  rewrite andb_false_r. cbn [negb andb orb]. rewrite (proj2 (Z.leb_le 0 gap)), (proj2 (Z.leb_le 0 _)) by lia. cbn [tor_assert].
  rewrite Hfill. done.
Qed.

Lemma pton_mapped (a b c d : Z) : octet a -> octet b -> octet c -> octet d ->
  let x := Z.lor (Z.shiftl a 8) b in let y := Z.lor (Z.shiftl c 8) d in
  pton_v6 (bs "::" ++ dotted a b c d) = Ok (bytes_of [0; 0; 0; 0; 0; 0; x; y]) /\
  pton_v6 (bs "::" ++ print_hex 0xffff ++ bs ":" ++ dotted a b c d) = Ok (bytes_of [0; 0; 0; 0; 0; 0xffff; x; y]).
Proof.
  intros Ha Hb Hc Hd x y. split.
  - apply (pton_v6_quad [COLON] a b c d 0 0 2 [0xf8f8; 0xf8f8; 0xf8f8; 0xf8f8; 0xf8f8; 0xf8f8; x; y]); try done.
    + intros H. by apply list_elem_of_singleton in H.
    + intros w f. cbn [app]. rewrite gap_first by done. cbn [pton_loop]. by rewrite Nat.ltb_irrefl.
  - change (bs "::" ++ print_hex 65535 ++ bs ":" ++ dotted a b c d) with (bs "::ffff" ++ COLON :: dotted a b c d).
    apply (pton_v6_quad (bs "::ffff") a b c d 1 0 3 [0xffff; 0xf8f8; 0xf8f8; 0xf8f8; 0xf8f8; 0xf8f8; x; y]); try done.
    { apply (bool_decide_eq_false_1 ("."%char ∈ bs "::ffff")). by vm_compute. }
    intros w f. change (bs "::ffff" ++ COLON :: dotted a b c d) with (COLON :: COLON :: (print_hex 0xffff ++ COLON :: dotted a b c d)).
    rewrite gap_first by (rewrite length_app; cbn [length]; lia).
    pose proof (word_step (S f) 0xffff (dotted a b c d) (length (dotted a b c d)) 0 0 2 w ltac:(unfold is_word; lia) ltac:(lia) eq_refl ltac:(lia)) as Hs.
    change (Z.of_nat 0) with 0 in Hs. rewrite Hs. cbn [pton_loop]. by rewrite Nat.ltb_irrefl.
Qed.

Lemma word_lor (x y : Z) : octet x -> octet y -> wrap 16 (Z.shiftl x 8 + y) = Z.lor (Z.shiftl x 8) y.
Proof.
  unfold octet. intros Hx Hy. rewrite lor_shiftl_add by (simpl; lia). rewrite Z.shiftl_mul_pow2 by lia.
  unfold wrap. apply Z.mod_small. simpl. lia.
Qed.

Lemma s6_octet (b : bytes) (i : nat) : octet (s6 b i).
Proof. apply b2z_range. Qed.

Lemma ntop_pton_v6 (b : bytes) : length b = 16%nat ->
  exists s, ntop_v6 b = Ok s /\ pton_v6 s = Ok b /\ zlen s < 46.
Proof.
  intros Hl. destruct (words_of_ok b Hl) as (Hwl & Hws & Hb). unfold ntop_v6.
  set (v4 := dotted (s6 b 12) (s6 b 13) (s6 b 14) (s6 b 15)).
  assert (Hv4 : zlen v4 <= 15) by (pose proof (dotted_length _ _ _ _ (s6_octet b 12) (s6_octet b 13) (s6_octet b 14) (s6_octet b 15)); unfold v4, zlen; lia).
  destruct (pton_mapped _ _ _ _ (s6_octet b 12) (s6_octet b 13) (s6_octet b 14) (s6_octet b 15)) as [Hp0 Hp1].
  fold v4 in Hp0, Hp1.
  rewrite <- !word_lor in Hp0, Hp1 by apply s6_octet.
  assert (Hsn : forall s, zlen s < 46 -> tor_snprintf 64 s = Ok s).
  { intros s Hs. unfold tor_snprintf. change (64 =? 0) with false. change (SIZE_T_CEILING <? 64) with false.
    by rewrite (proj2 (Z.leb_gt _ _)) by lia. }
  assert (Hexp : words_of b = [word (words_of b) 0; word (words_of b) 1; word (words_of b) 2; word (words_of b) 3; word (words_of b) 4;
     word (words_of b) 5; wrap 16 (Z.shiftl (s6 b 12) 8 + s6 b 13); wrap 16 (Z.shiftl (s6 b 14) 8 + s6 b 15)]) by reflexivity.
  destruct (_ && _) eqn:Hcond.
  - rewrite !andb_true_iff, orb_true_iff, !andb_true_iff, !Z.eqb_eq in Hcond. destruct Hcond as (((((H0 & H1) & H2) & H3) & H4) & H5).
    rewrite H0, H1, H2, H3, H4 in Hexp. destruct (Z.eqb_spec (word (words_of b) 5) 0) as [E|E].
    + eexists. rewrite Hsn by (rewrite zlen_app; change (zlen (bs "::")) with 2; lia). split; [done|].
      rewrite E in Hexp. rewrite Hp0, <- Hexp, Hb. split; [done|]. rewrite zlen_app. change (zlen (bs "::")) with 2. lia.
    + destruct H5 as [[[H5 _] _]|H5]; [done|]. rewrite H5 in Hexp |- *. eexists.
      assert (zlen (bs "::" ++ print_hex 65535 ++ bs ":" ++ v4) < 46).
      { rewrite !zlen_app. change (zlen (bs "::")) with 2. change (zlen (print_hex 65535)) with 4. change (zlen (bs ":")) with 1. lia. }
      rewrite Hsn by done. split; [done|]. rewrite Hp1, <- Hexp, Hb. by split.
  - clear Hcond Hexp Hp0 Hp1. pose proof (find_gap_ok (words_of b) 8 0 (-1) 0 ltac:(by left)) as Hg. rewrite drop_0 in Hg.
    destruct (find_gap 8 (words_of b) 0 (-1) 0) as [pos len].
    assert (Hno : exists s, (let* buf := ntop_loop 8 (words_of b) 0 (-1) [] in if (64 <=? length buf)%nat then Stuck else Ok buf) = Ok s /\
      pton_v6 s = Ok b /\ zlen s < 46).
    { rewrite ntop_no_gap by done. cbn [obind]. pose proof (colons_length (words_of b) Hws ltac:(done)) as Hc. rewrite Hwl in Hc.
      rewrite (proj2 (Nat.leb_gt _ _)) by lia. eexists. split; [done|]. rewrite pton_colons, Hb by done. split; [done|]. unfold zlen. lia. }
    destruct (Nat.leb_spec len 1) as [|Hlen]; [done|]. destruct Hg as [[-> ->]|(p & -> & Hp & Hz)]; [done|].
    rewrite (ntop_gap _ p len) by (done || lia). cbn [obind].
    assert (Ht : (length (gap_text (words_of b) p len) <= 41)%nat).
    { unfold gap_text. rewrite length_app. cbn [length].
      pose proof (wc_length (take p (words_of b)) (Forall_take _ _ _ Hws)) as H1. rewrite length_take in H1.
      assert (H2 : (length (colons (drop (p + len) (words_of b))) <= 5 * (8 - p - len))%nat).
      { destruct (decide (drop (p + len) (words_of b) = [])) as [->|Hne]; [simpl; lia|].
        pose proof (colons_length _ (Forall_drop _ (p + len) _ Hws) Hne) as H2. rewrite length_drop in H2. lia. }
      destruct (p =? 0)%nat; cbn [length]; lia. }
    rewrite (proj2 (Nat.leb_gt _ _)) by lia. eexists. split; [done|].
    rewrite pton_gap, Hb by (done || lia). split; [done|]. unfold zlen. lia.
Qed.

(** ** Any input *)

Lemma scan_unsigned_loop_safe (hex : bool) (buf : bytes) : forall result n width, 0 <= result <= ULONG_MAX ->
  safe (fun '(r, m, rest) => 0 <= r <= ULONG_MAX) (scan_unsigned_loop hex buf result n width).
Proof.
  induction buf as [|c buf IH]; intros result n width Hr; cbn [scan_unsigned_loop]; [done|].
  destruct (_ && _ && _) eqn:E; [|done]. rewrite !andb_true_iff in E. destruct E as [[_ Hd] _].
  assert (Hdig : exists d, (if hex then Ok (hex_decode_digit c) else digit_to_num c) = Ok d /\ 0 <= d < (if hex then 16 else 10)).
  { destruct hex.
    - eexists. split; [done|].
      set (P := fun z => let c := z2b z in negb (TOR_ISXDIGIT c) || ((0 <=? hex_decode_digit c) && (hex_decode_digit c <? 16))).
      assert (H : P (b2z c) = true) by (apply (forall_range P 256); [by vm_compute|apply b2z_range]).
      unfold P in H. cbn beta zeta in H. rewrite z2b_b2z, Hd in H. cbn [negb orb] in H. lia.
    - unfold digit_to_num, TOR_ISDIGIT in *. eexists. split; [|reflexivity || idtac].
      + rewrite (proj2 (Z.leb_le _ _)) by lia. assert ((b2z c - 48 >=? 0) = true) as -> by lia. done.
      + lia. }
  destruct Hdig as (d & -> & Hd'). cbn [obind]. destruct (Z.ltb_spec ((ULONG_MAX - d) / (if hex then 16 else 10)) result) as [|Hle]; [done|].
  apply IH. assert (0 < (if hex then 16 else 10)) by (by destruct hex).
  assert (result * (if hex then 16 else 10) <= ULONG_MAX - d); [|lia].
  pose proof (Z.mul_div_le (ULONG_MAX - d) (if hex then 16 else 10) ltac:(done)). nia.
Qed.

Lemma scan_u3_safe (buf : bytes) : safe (fun '(u, rest) => 0 <= u) (scan_unsigned buf 3 10).
Proof.
  unfold scan_unsigned. change ((10 =? 10) || (10 =? 16)) with true. cbn [tor_assert]. change (3 <? 0) with false. cbn iota.
  eapply safe_bind; [apply scan_unsigned_loop_safe; unfold ULONG_MAX; lia|]. intros [[r m] rest] Hr. destruct (m =? 0); [done|]. cbn. lia.
Qed.

(** The pattern of a dotted quad on any string. *)
Lemma sscanf_quad (buf : bytes) : exists n vals, tor_sscanf buf quad_pattern = Ok (n, vals) /\
  (n = 4 -> exists a b c d, vals = [SNum a; SNum b; SNum c; SNum d] /\ 0 <= a /\ 0 <= b /\ 0 <= c /\ 0 <= d).
Proof.
  unfold tor_sscanf, tor_vsscanf. change (S (length quad_pattern)) with 18%nat.
  change quad_pattern with (bs "%3u" ++ "."%char :: bs "%3u" ++ "."%char :: bs "%3u" ++ "."%char :: bs "%3u" ++ bs "%c").
  assert (Hstop : forall (n : Z) (vals : list scanned), n <> 4 -> exists n' vals', Ok (n, vals) = Ok (n', vals') /\
     (n' = 4 -> exists a b c d, vals' = [SNum a; SNum b; SNum c; SNum d] /\ 0 <= a /\ 0 <= b /\ 0 <= c /\ 0 <= d)).
  { intros n vals Hn. exists n, vals. split; [done|]. intros ->. done. }
  assert (Hu : forall f buf rest n out k,
     (n <> 4) -> (forall u buf', 0 <= u -> exists n' vals', vsscanf_loop f buf' rest (n + 1) (out ++ [SNum u]) = Ok (n', vals') /\ k n' vals') ->
     (forall vals, k n vals) -> exists n' vals', vsscanf_loop (S f) buf (bs "%3u" ++ rest) n out = Ok (n', vals') /\ k n' vals').
  { intros f b rest n out k Hn Hk Hs. rewrite vsscanf_u3. destruct (_ =? 0); [by exists n, out|].
    pose proof (scan_u3_safe b) as Hsafe. destruct (scan_unsigned b 3 10) as [[u b']| |]; [|by exists n, out|done].
    destruct (UINT_MAX <? u); [by exists n, out|]. by apply Hk. }
  assert (Hdot : forall f buf rest n out k, (forall buf', exists n' vals', vsscanf_loop f buf' rest n out = Ok (n', vals') /\ k n' vals') ->
     (forall vals, k n vals) -> exists n' vals', vsscanf_loop (S f) buf ("."%char :: rest) n out = Ok (n', vals') /\ k n' vals').
  { intros f b rest n out k Hk Hs. cbn [vsscanf_loop]. change (is_char "." 0) with false. change (is_char "." 37) with false. cbn [negb].
    destruct (_ =? _); [apply Hk|by exists n, out]. }
  apply Hu; [lia| |intros; lia]. intros u1 b1 H1. apply Hdot; [|intros; lia]. clear b1. intros b1.
  apply Hu; [lia| |intros; lia]. intros u2 b2 H2. apply Hdot; [|intros; lia]. clear b2. intros b2.
  apply Hu; [lia| |intros; lia]. intros u3 b3 H3. apply Hdot; [|intros; lia]. clear b3. intros b3.
  apply Hu; [lia| |intros; lia]. intros u4 b4 H4. cbn [app].
  change (vsscanf_loop 11 b4 (bs "%c") (0 + 1 + 1 + 1 + 1) [SNum u1; SNum u2; SNum u3; SNum u4]) with
    (if b2z (deref b4) =? 0 then Ok (4, [SNum u1; SNum u2; SNum u3; SNum u4])
     else Ok (5, [SNum u1; SNum u2; SNum u3; SNum u4; SChar (deref b4)])).
  destruct (_ =? 0); [|by eexists 5, _]. exists 4. eexists. split; [done|]. intros _. by exists u1, u2, u3, u4.
Qed.
