(* ===== verification/InaddrSafe.v ===== *)
(** * Addresses as text, on any input

    The parsers of [lib/net/inaddr.c] on an arbitrary C string: they never read or write out of
    bounds or fail an assertion, and what they accept is an address. Then the round trip of the
    printers and the parsers. *)
From stdpp Require Import gmap.
From S2P Require Import Prelude ParseInt Endian Strings Smartutil Scanf Address Inaddr InaddrFacts.

Definition c_string (s : bytes) : Prop := Forall (fun c => c <> NUL) s.

(** ** The digits that [strtol] takes *)

Lemma digit_in_16 (c : ascii) : TOR_ISXDIGIT c = bool_decide (is_Some (digit_in 16 c)).
Proof.
  set (P := fun z => Bool.eqb (TOR_ISXDIGIT (z2b z)) (bool_decide (is_Some (digit_in 16 (z2b z))))).
  assert (H : P (b2z c) = true) by (apply (forall_range P 256); [by vm_compute|apply b2z_range]).
  unfold P in H. rewrite z2b_b2z in H. by apply Bool.eqb_prop.
Qed.

Lemma digit_in_range (c : ascii) (d : Z) : digit_in 16 c = Some d -> 0 <= d < 16 /\ c <> COLON.
Proof.
  intros H. split; [|by intros ->].
  set (P := fun z => match digit_in 16 (z2b z) with Some d => (0 <=? d) && (d <? 16) | None => true end).
  assert (HP : P (b2z c) = true) by (apply (forall_range P 256); [by vm_compute|apply b2z_range]).
  unfold P in HP. rewrite z2b_b2z, H in HP. lia.
Qed.

Lemma xdigit_some (c : ascii) : TOR_ISXDIGIT c = true -> exists d, digit_in 16 c = Some d.
Proof. rewrite digit_in_16. intros [d H]%bool_decide_eq_true. by exists d. Qed.

Lemma xdigit_plain (c : ascii) : TOR_ISXDIGIT c = true -> isspace c = false /\ b2z c <> 45 /\ b2z c <> 43.
Proof.
  intros Hc. set (P := fun z => let c := z2b z in negb (TOR_ISXDIGIT c) || (negb (isspace c) && negb (z =? 45) && negb (z =? 43))).
  assert (H : P (b2z c) = true) by (apply (forall_range P 256); [by vm_compute|apply b2z_range]).
  unfold P in H. cbn zeta in H. rewrite z2b_b2z, Hc in H. cbn [negb orb] in H.
  destruct (isspace c); [done|]. split; [done|]. lia.
Qed.

Lemma scan_digits_taken (s : bytes) : forall acc v rest, scan_digits 16 acc s = (v, rest) ->
  exists w, s = w ++ rest /\ Forall (fun c => c <> COLON) w /\
    (0 <= acc -> 0 <= v /\ v < (acc + 1) * 16 ^ zlen w).
Proof.
  induction s as [|c s IH]; intros acc v rest; cbn [scan_digits].
  - intros [= <- <-]. exists []. split; [done|]. split; [done|]. unfold zlen. cbn [length]. change (16 ^ Z.of_nat 0) with 1. lia.
  - destruct (digit_in 16 c) as [d|] eqn:E.
    + intros H. destruct (IH _ _ _ H) as (w & -> & Hw & Hv). destruct (digit_in_range c d E) as [Hd Hc].
      exists (c :: w). split; [done|]. split; [by constructor|]. intros Ha.
      destruct Hv as [Hv0 Hv]; [lia|]. split; [done|]. unfold zlen in *. cbn [length].
      rewrite Nat2Z.inj_succ, Z.pow_succ_r by lia. assert (0 < 16 ^ Z.of_nat (length w)) by lia. nia.
    + intros [= <- <-]. exists []. split; [done|]. split; [done|]. unfold zlen. cbn [length]. change (16 ^ Z.of_nat 0) with 1. lia.
Qed.

(** [strtol] from a hexadecimal digit on: what it takes has no colon, and is small when it is
    four characters that start with two digits. *)
Lemma strtol_taken (src : bytes) : TOR_ISXDIGIT (deref src) = true ->
  exists w, src = w ++ st_end (strtol src 16) /\ w <> [] /\ Forall (fun c => c <> COLON) w /\
    ((length w <= 4)%nat -> ((1 < length w)%nat -> TOR_ISXDIGIT (nth 1 src NUL) = true) ->
       0 <= st_val (strtol src 16) < 65536).
Proof.
  intros Hx. destruct (xdigit_plain _ Hx) as (Hsp & Hm & Hp). destruct src as [|c src]; [done|]. cbn [deref hd] in *.
  destruct (xdigit_some _ Hx) as [d Hd].
  assert (Hres : exists pre s3 : bytes, resolve_base 16 (c :: src) = (16, s3) /\ c :: src = pre ++ s3 /\ is_Some (digit_in 16 (deref s3)) /\
    Forall (fun c => c <> COLON) pre /\ (pre = [] \/ (length pre = 2%nat /\ TOR_ISXDIGIT (nth 1 (c :: src) NUL) = false))).
  { unfold resolve_base. change ((16 =? 0) || (16 =? 16)) with true. cbn [andb].
    destruct src as [|x [|y src]]; [exists [], [c]; split_and!; [done|done|by exists d|done|by left]|exists [], [c; x]; split_and!; [done|done|by exists d|done|by left]|].
    destruct (_ && _) eqn:E; [|exists [], (c :: x :: y :: src); split_and!; [done|done|by exists d|done|by left]].
    rewrite !andb_true_iff, orb_true_iff, !Z.eqb_eq, bool_decide_eq_true in E. destruct E as [[E0 E1] E2].
    exists [c; x], (y :: src). split; [done|]. split; [done|]. split; [done|]. split.
    - constructor; [by intros ->|]. constructor; [|done]. intros ->. by destruct E1.
    - right. split; [done|]. cbn [nth]. rewrite <- (z2b_b2z x). by destruct E1 as [-> | ->]. }
  destruct Hres as (pre & s3 & Hr & Hs & [d3 Hd3] & Hpre & Hcase).
  unfold strtol, strtox. cbn [skip_space]. rewrite Hsp, !(proj2 (Z.eqb_neq _ _)) by done. rewrite Hr, Hd3.
  destruct (scan_digits 16 0 s3) as [v rest] eqn:Es. destruct (scan_digits_taken _ _ _ _ Es) as (w & Hw & Hwc & Hv).
  destruct Hv as [Hv0 Hv]; [done|].
  assert (Hwne : w <> []). { intros ->. cbn [app] in Hw. subst s3. destruct rest as [|r rest]; [done|].
    cbn [scan_digits deref hd] in *. rewrite Hd3 in Es. destruct (scan_digits_taken _ _ _ _ Es) as (w & Hw & _).
    apply (f_equal length) in Hw. rewrite length_app in Hw. cbn [length] in Hw. lia. }
  exists (pre ++ w). cbn zeta iota.
  assert (Hend : forall b r, st_end (if v <? LONG_MIN then {| st_val := LONG_MIN; st_end := rest; st_erange := true |}
     else if LONG_MAX <? v then {| st_val := LONG_MAX; st_end := rest; st_erange := b |}
     else {| st_val := v; st_end := rest; st_erange := r |}) = rest).
  { intros. by repeat case_match. }
  rewrite Hend. split; [by rewrite <- app_assoc, Hs, Hw|]. split; [by destruct pre|]. split; [by apply Forall_app|].
  intros H4 H1. destruct Hcase as [->|[Hp2 Hx1]].
  - cbn [app] in H4. assert (16 ^ zlen w <= 16 ^ 4) by (apply Z.pow_le_mono_r; unfold zlen; lia).
    change (16 ^ 4) with 65536 in *. rewrite (proj2 (Z.ltb_ge v LONG_MIN)) by (unfold LONG_MIN; lia).
    rewrite (proj2 (Z.ltb_ge LONG_MAX v)) by (unfold LONG_MAX; lia). cbn [st_val]. lia.
  - rewrite H1 in Hx1; [done|]. rewrite length_app. destruct w; [done|]. cbn [length] in *. lia.
Qed.

(** ** The loop over the words *)

(** Where the words end: the end of the text, or just after a colon. *)
Definition eow_ok (src : bytes) (n : nat) : Prop :=
  n = 0%nat \/ ((n < length src)%nat -> nth (length src - n - 1) src NUL = COLON).

Lemma nth_drop_add {A} (k j : nat) (l : list A) (d : A) : nth j (drop k l) d = nth (k + j) l d.
Proof. revert l. induction k as [|k IH]; intros [|x l]; cbn [drop Nat.add nth]; [done..|by destruct j|done]. Qed.

Lemma eow_drop (src : bytes) (n k : nat) : eow_ok src n -> eow_ok (drop k src) n.
Proof.
  intros [->|H]; [by left|right]. rewrite length_drop. intros Hn. rewrite nth_drop_add.
  replace (k + (length src - k - n - 1))%nat with (length src - n - 1)%nat by lia. apply H. lia.
Qed.

Lemma c_string_drop (src : bytes) (k : nat) : c_string src -> c_string (drop k src).
Proof. apply Forall_drop. Qed.

Lemma c_string_end (s : bytes) : c_string s -> b2z (deref s) = 0 -> s = [].
Proof.
  destruct s as [|c s]; [done|]. intros Hs H. apply Forall_cons in Hs as [Hc _]. destruct Hc.
  cbn in H. by rewrite <- (z2b_b2z c), H.
Qed.

(** The length of the word that the loop computes. *)
Lemma word_length (w next : bytes) (n : nat) : c_string next -> eow_ok (w ++ next) n ->
  Forall (fun c => c <> COLON) w -> (n < length (w ++ next))%nat ->
  (if b2z (deref next) =? 0 then (length (w ++ next) - n)%nat else (length (w ++ next) - length next)%nat) = length w.
Proof.
  intros Hs He Hw Hn. destruct (Z.eqb_spec (b2z (deref next)) 0) as [H0|H0].
  - apply c_string_end in H0 as ->; [|done]. rewrite app_nil_r in *. destruct He as [->|He]; [lia|].
    rewrite Forall_forall in Hw. destruct (Hw (nth (length w - n - 1) w NUL)).
    + apply list_elem_of_In, nth_In. lia.
    + by apply He.
  - rewrite length_app. lia.
Qed.

Definition loop_ok (i set : Z) (r : Z * Z * Z * list Z) : Prop :=
  let '(i', gap', set', words') := r in
  0 <= i' <= 8 /\ -1 <= gap' <= i' /\ set' = set + (i' - i) /\ length words' = 8%nat.

Lemma pton_loop_safe (n f : nat) : forall src i gap set words, (length src < f)%nat -> c_string src -> eow_ok src n ->
  0 <= i <= 8 -> -1 <= gap <= i -> length words = 8%nat ->
  safe (loop_ok i set) (pton_loop f src n i gap set words).
Proof.
  induction f as [|f IH]; intros src i gap set words Hf Hs He Hi Hg Hl; [lia|]. cbn [pton_loop].
  destruct (Nat.ltb_spec n (length src)) as [Hn|Hn]; [|cbn; lia].
  destruct (Z.ltb_spec 7 i); [done|].
  assert (Hskip : forall k gap', (0 < k)%nat -> -1 <= gap' <= i -> safe (loop_ok i set) (pton_loop f (drop k src) n i gap' set words)).
  { intros k gap' Hk Hg'. apply IH; [rewrite length_drop; lia|by apply c_string_drop|by apply eow_drop|done..]. }
  destruct (TOR_ISXDIGIT (deref src)) eqn:Hx.
  - destruct (strtol_taken src Hx) as (w & Hw & Hwne & Hwc & Hv). cbn zeta. set (next := st_end (strtol src 16)) in *.
    rewrite bool_decide_eq_false_2. 2:{ intros Heq. apply Hwne, length_zero_iff_nil. apply (f_equal length) in Hw. rewrite Heq, length_app in Hw. lia. }
    assert (Hnext : next = drop (length w) src) by (by rewrite Hw, drop_app_length).
    assert (Hlen := word_length w next n). rewrite <- Hw in Hlen. rewrite Hlen; [|by rewrite Hnext; apply c_string_drop|done..]. clear Hlen.
    destruct (Nat.ltb_spec 4 (length w)); [done|]. destruct (_ && _) eqn:E; [done|].
    destruct Hv as [Hv0 Hv1]; [done| |].
    { intros H1. rewrite (proj2 (Nat.ltb_lt _ _) H1) in E. by apply negb_false_iff. }
    clear E. rewrite (proj2 (Z.leb_le _ _)), (proj2 (Z.ltb_lt _ _)) by lia. cbn [tor_assert].
    destruct (aset_in words i (wrap 16 (st_val (strtol src 16)))) as (words' & -> & Hl'); [lia|]. cbn [obind].
    destruct (_ && _); [done|]. rewrite Hnext, drop_drop. eapply safe_mono.
    + apply IH; [rewrite length_drop; destruct w; [done|cbn [length]]; lia|by apply c_string_drop|by apply eow_drop|lia..].
    + intros [[[i' gap'] set'] words'']. unfold loop_ok. lia.
  - destruct (_ && _); [apply Hskip; lia|]. destruct (_ && _); [apply Hskip; lia|done].
Qed.

(** ** The parsers *)

Lemma pton_quad_safe (src : bytes) (d : nat) (words : list Z) : length words = 8%nat ->
  safe (fun '(eow, words) => (eow <= length src)%nat /\ eow_ok src (length src - eow) /\ length words = 8%nat) (pton_quad src d words).
Proof.
  intros Hl. unfold pton_quad. set (k := back_digits src (d - 1)). destruct (Z.eqb_spec (b2z (nth k src NUL)) 58) as [Hk|]; [|done].
  cbn [negb]. assert (Hks : (k < length src)%nat).
  { destruct (Nat.lt_ge_cases k (length src)); [done|]. by rewrite nth_overflow in Hk by done. }
  destruct (sscanf_quad (drop (S k) src)) as (n & vals & Hscan & Hv). change (bs "%3u.%3u.%3u.%3u%c") with quad_pattern.
  rewrite Hscan. cbn [obind]. destruct (Z.eqb_spec n 4) as [Hn|]; [|done]. cbn [negb].
  destruct (Hv Hn) as (a & b & c & e & -> & _). destruct (_ || _); [done|].
  destruct (aset_in words 6 (Z.lor (Z.shiftl a 8) b)) as (w1 & -> & Hl1); [lia|]. cbn [obind].
  destruct (aset_in w1 7 (Z.lor (Z.shiftl c 8) e)) as (w2 & -> & Hl2); [lia|]. cbn [obind safe].
  split; [lia|]. split; [|lia]. right. intros _. replace (length src - (length src - S k) - 1)%nat with k by lia.
  rewrite <- (z2b_b2z (nth k src NUL)), Hk. done.
Qed.

Lemma bytes_of_length (words : list Z) : length (bytes_of words) = (2 * length words)%nat.
Proof. unfold bytes_of. induction words as [|w ws IH]; [done|]. cbn [fmap list_fmap concat app length]. rewrite IH. lia. Qed.

Lemma amove_in {A} (l : list A) (dst src n : Z) : 0 <= dst -> 0 <= src -> 0 <= n ->
  dst + n <= Z.of_nat (length l) -> src + n <= Z.of_nat (length l) ->
  exists l', amove l dst src n = Ok l' /\ length l' = length l.
Proof. intros. unfold amove. repeat cases_b; try lia. eexists. split; [done|]. len. Qed.

Lemma afill_in {A} (l : list A) (start n : Z) (x : A) : 0 <= start -> 0 <= n -> start + n <= Z.of_nat (length l) ->
  exists l', afill l start n x = Ok l' /\ length l' = length l.
Proof. intros. unfold afill. repeat cases_b; try lia. eexists. split; [done|]. len. Qed.

Lemma pton_v6_safe (src : bytes) : c_string src -> safe (fun b => length b = 16%nat) (pton_v6 src).
Proof.
  intros Hs. unfold pton_v6. destruct (_ && _ && _); [done|].
  eapply (safe_bind (fun '(eow, words, set) => (eow <= length src)%nat /\ eow_ok src (length src - eow) /\ length words = 8%nat /\
    set = match strchr src "."%char with Some _ => 2 | None => 0 end)).
  - destruct (strchr src "."%char) as [r|].
    + destruct (_ =? _)%nat; [done|]. eapply safe_bind; [by apply pton_quad_safe|]. intros [eow words]. cbn. tauto.
    + cbn. split; [lia|]. split; [left; lia|done].
  - intros [[eow words] set] (Heow & He & Hl & Hset). eapply safe_bind.
    { apply (pton_loop_safe (length src - eow)); [lia|done|done|lia|lia|done]. }
    intros [[[i gap] set'] words'] (Hi & Hg & Hset' & Hl'). destruct (_ || _) eqn:E; [done|].
    assert (Hs8 : i <= set' <= 8) by (destruct (strchr src "."%char); lia).
    destruct (Z.leb_spec 0 gap); [|cbn [obind safe]; by rewrite bytes_of_length, Hl'].
    cbn zeta. replace (set' - _ - gap) with (i - gap) by (destruct (strchr src "."%char); lia).
    rewrite (proj2 (Z.leb_le _ _)) by lia. cbn [tor_assert].
    destruct (amove_in words' (gap + (8 - set')) gap (i - gap)) as (w1 & -> & H1); [lia..|]. cbn [obind].
    destruct (afill_in w1 gap (8 - set') 0) as (w2 & -> & H2); [lia..|]. cbn [obind safe]. rewrite bytes_of_length. lia.
Qed.

Lemma aton_safe (s : bytes) : exists r, tor_inet_aton s = Ok r /\ forall a, r = Some a -> 0 <= a < 2 ^ 32.
Proof.
  unfold tor_inet_aton. destruct (sscanf_quad s) as (n & vals & Hscan & Hv). change (bs "%3u.%3u.%3u.%3u%c") with quad_pattern.
  rewrite Hscan. cbn [obind]. destruct (Z.eqb_spec n 4) as [Hn|]; [|by exists None]. cbn [negb].
  destruct (Hv Hn) as (a & b & c & d & -> & Ha & Hb & Hc & Hd).
  unfold smartlist_split_string. destruct (split_loop_join (bs ".") ltac:(done) (S (length s)) [] s 0) as (ps & m & -> & _); [lia|].
  cbn [obind]. destruct (existsb _ _); [by exists None|].
  destruct (Z.ltb_spec 255 a); [by exists None|]. destruct (Z.ltb_spec 255 b); [by exists None|].
  destruct (Z.ltb_spec 255 c); [by exists None|]. destruct (Z.ltb_spec 255 d); [by exists None|].
  eexists. split; [done|]. rewrite octets_lor by lia. intros x [= <-]. simpl. lia.
Qed.

Lemma tor_inet_pton_safe (af : Z) (s : bytes) : c_string s ->
  safe (fun r => forall a, r = Some a -> addr_ok a /\ tor_addr_family a = af) (tor_inet_pton af s).
Proof.
  intros Hs. unfold tor_inet_pton. destruct (Z.eqb_spec af AF_INET) as [->|].
  - destruct (aton_safe s) as (r & -> & Hr). cbn. intros a Ha. destruct r as [v|]; [|done]. injection Ha as <-.
    split; [by apply Hr|done].
  - destruct (Z.eqb_spec af AF_INET6) as [->|]; [|done]. pose proof (pton_v6_safe s Hs) as H.
    destruct (pton_v6 s) as [b| |]; [|done|done]. cbn. intros a [= <-]. by split.
Qed.

(** an IPv4 or IPv6 address printed by [tor_inet_ntop] into a buffer of at least 46 bytes fits, and
    [tor_inet_pton] reads the same address back; and on every string whatsoever [tor_inet_pton] stays
    within its arrays and its assertions, and what it accepts is a well-formed address of the family
    that was asked for. *)
Theorem inet_text_roundtrip (a : tor_addr) (len : Z) (s : bytes) (af : Z) :
  addr_ok a -> tor_addr_family a = AF_INET \/ tor_addr_family a = AF_INET6 -> 46 <= len <= SIZE_T_CEILING -> c_string s ->
  (exists t, tor_inet_ntop a len = Ok t /\ zlen t < 46 /\ tor_inet_pton (tor_addr_family a) t = Ok (Some a)) /\
  safe (fun r => forall b, r = Some b -> addr_ok b /\ tor_addr_family b = af) (tor_inet_pton af s).
Proof.
  intros Ha Hf Hlen Hs. split; [|by apply tor_inet_pton_safe]. destruct a as [|p|v|b]; [by destruct Hf..| |]; cbn [addr_ok] in Ha.
  - destruct (ntoa_aton v len Ha) as (t & Ht & Hp & Hl); [lia|]. exists t. split; [done|]. split; [lia|].
    unfold tor_inet_pton. cbn [tor_addr_family]. rewrite Z.eqb_refl, Hp. done.
  - destruct (ntop_pton_v6 b Ha) as (t & Ht & Hp & Hl). exists t. unfold tor_inet_ntop. rewrite Ht. cbn [obind].
    rewrite (proj2 (Z.ltb_ge _ _)) by lia. split; [done|]. split; [done|].
    unfold tor_inet_pton. cbn [tor_addr_family]. change (AF_INET6 =? AF_INET) with false. change (AF_INET6 =? AF_INET6) with true.
    by rewrite Hp.
Qed.

Lemma inet_text_roundtrip_witness :
  let a := TA_INET6 (z2b <$> [0x20; 1; 0x0d; 0xb8; 0; 0; 0; 0; 0; 0; 0; 0; 0; 0; 0; 1]) in
  tor_inet_ntop a 48 = Ok (bs "2001:db8::1") /\ tor_inet_pton AF_INET6 (bs "1:2::3::4") = Ok None /\
  (exists t, tor_inet_ntop a 48 = Ok t /\ zlen t < 46 /\ tor_inet_pton AF_INET6 t = Ok (Some a)) /\
  safe (fun r => forall b, r = Some b -> addr_ok b /\ tor_addr_family b = AF_INET) (tor_inet_pton AF_INET (bs "1.2.3.4")).
Proof.
  split; [by vm_compute|]. split; [by vm_compute|].
  apply (inet_text_roundtrip (TA_INET6 (z2b <$> [0x20; 1; 0x0d; 0xb8; 0; 0; 0; 0; 0; 0; 0; 0; 0; 0; 0; 1])) 48 (bs "1.2.3.4") AF_INET).
  - by vm_compute.
  - by right.
  - unfold SIZE_T_CEILING. lia.
  - repeat (constructor; [done|]). constructor.
Defined.
