(* ===== verification/CryptoRsa.v ===== *)
(** * RSA keys: [lib/crypt_ops/crypto_rsa_openssl.c], [crypto_rsa.c], [lib/encoding/pem.c]

    The wrappers around OpenSSL's RSA objects, as far as directory documents use public keys, and
    the PEM form of a public key. OpenSSL is a parameter: a type of RSA objects with the library
    calls that the wrappers make. *)
From S2P Require Import Prelude ParseInt Strings Smartutil Binascii Inaddr.

(** ** OpenSSL *)

Class OpenSSL := {
  RSA : Type;
  (** [d2i_RSAPublicKey], [None] for NULL, and [i2d_RSAPublicKey], [None] for a failure. *)
  d2i_RSAPublicKey : bytes -> option RSA;
  i2d_RSAPublicKey : RSA -> option bytes;
  (** [RSA_get0_key]: the modulus and the exponent; whether [RSA_get0_factors] has a factor. *)
  RSA_n : RSA -> Z;
  RSA_e : RSA -> Z;
  RSA_has_p : RSA -> bool;
  (** [RSA_bits] and [RSA_size]. *)
  RSA_bits : RSA -> Z;
  RSA_size : RSA -> Z
}.

Definition PK_BYTES : Z := 1024 / 8.
Definition TOR_RSA_EXPONENT : Z := 65537.

Section rsa.
Context {ssl : OpenSSL}.

Record crypto_pk := { pk_refs : Z; pk_key : RSA }.

Definition crypto_new_pk_from_openssl_rsa_ (rsa : RSA) : crypto_pk := {| pk_refs := 1; pk_key := rsa |}.
Definition crypto_pk_key_is_private (k : crypto_pk) : bool := RSA_has_p (pk_key k).
Definition crypto_pk_public_exponent_ok (env : crypto_pk) : bool := RSA_e (pk_key env) =? TOR_RSA_EXPONENT.
Definition crypto_pk_keysize (env : crypto_pk) : Z := RSA_size (pk_key env).
Definition crypto_pk_num_bits (env : crypto_pk) : Z := RSA_bits (pk_key env).

(** The bytes stored at [dest], [Err] for -1. *)
Definition crypto_pk_asn1_encode (pk : crypto_pk) (dest_len : Z) : outcome bytes :=
  match i2d_RSAPublicKey (pk_key pk) with
  | None => Err
  | Some buf => if (dest_len <? zlen buf) || (SIZE_T_CEILING <? dest_len) then Err else Ok buf
  end.

Definition crypto_pk_asn1_decode (str : bytes) : option crypto_pk :=
  match d2i_RSAPublicKey str with Some rsa => Some (crypto_new_pk_from_openssl_rsa_ rsa) | None => None end.

End rsa.

(** ** PEM *)

Definition pem_encoded_size (src_len : Z) (objtype : bytes) : outcome Z :=
  let* b := base64_encode_size src_len BASE64_ENCODE_MULTILINE in
  Ok (zlen (bs "-----BEGIN -----" ++ [NL]) + zlen (bs "-----END -----" ++ [NL]) + zlen objtype * 2 + b + 1).

(** What is in [dest] afterwards, as a C string; [Err] is -1. *)
Definition pem_encode (destlen : Z) (src objtype : bytes) : outcome bytes :=
  let* s1 := tor_snprintf destlen (bs "-----BEGIN " ++ objtype ++ bs "-----" ++ [NL]) in
  let offset := zlen s1 in
  let* (n, dest) := base64_encode (replicate (Z.to_nat (destlen - offset)) NUL) src BASE64_ENCODE_MULTILINE in
  let s2 := take (Z.to_nat n) dest in
  let offset := offset + n in
  if destlen <? offset then Err
  else
    let* s3 := tor_snprintf (destlen - offset) (bs "-----END " ++ objtype ++ bs "-----" ++ [NL]) in
    let dest := s1 ++ s2 ++ s3 in
    let* size := pem_encoded_size (zlen src) objtype in
    tor_assert (zlen dest + 1 <=? size) (Ok dest).

(** The number of bytes and the contents of [dest]; [Err] is -1. *)
Definition pem_decode (dest src objtype : bytes) : outcome (Z * bytes) :=
  let src := eat_whitespace_eos src in
  let tag := bs "-----BEGIN " ++ objtype ++ bs "-----" in
  if (length src <? length tag)%nat || negb (fast_memeq src tag (length tag)) then Err
  else
    let src := eat_whitespace_eos_no_nl (drop (length tag) src) in
    match src with
    | c :: _ =>
        if negb (bool_decide (c = NL)) then Err
        else
          let* end_of_base64 := tor_memstr src (NL :: bs "-----END " ++ objtype ++ bs "-----") in
          match end_of_base64 with
          | None => Err
          | Some e => base64_decode dest (take e src)
          end
    | [] => Err
    end.

Definition RSA_PUBLIC_TAG : bytes := bs "RSA PUBLIC KEY".
Definition PUBLIC_ASN_MAX_OVERHEAD_FACTOR : Z := 3.

Section pk_strings.
Context {ssl : OpenSSL}.

(** [crypto_pk_write_to_string_generic] for public keys: the new string; [Err] is -1. *)
Definition crypto_pk_write_public_key_to_string (env : crypto_pk) : outcome bytes :=
  let buflen := crypto_pk_keysize env * PUBLIC_ASN_MAX_OVERHEAD_FACTOR in
  let* buf := crypto_pk_asn1_encode env buflen in
  let* resultlen := pem_encoded_size (zlen buf) RSA_PUBLIC_TAG in
  pem_encode resultlen buf RSA_PUBLIC_TAG.

(** [crypto_pk_read_from_string_generic] for public keys, the key that [env] takes over. *)
Definition crypto_pk_read_public_key_from_string (src : bytes) : outcome crypto_pk :=
  let* (n, buf) := pem_decode (replicate (length src) NUL) src RSA_PUBLIC_TAG in
  match crypto_pk_asn1_decode (take (Z.to_nat n) buf) with
  | Some pk => Ok pk
  | None => Err
  end.

End pk_strings.
