(* ===== verification/CryptoFormat.v ===== *)
(** * Keys and digests as text: [lib/crypt_ops/crypto_format.c], [feature/nodelist/nickname.c]

    The base-64 forms of digests and public keys in directory documents, without padding, and the
    syntax of nicknames. *)
From S2P Require Import Prelude ParseInt Strings Smartutil Binascii.

Definition DIGEST_LEN : nat := 20.
Definition DIGEST256_LEN : nat := 32.
Definition BASE64_DIGEST_LEN : nat := 27.
Definition BASE64_DIGEST256_LEN : nat := 43.
Definition CURVE25519_PUBKEY_LEN : nat := 32.
Definition CURVE25519_BASE64_LEN : nat := 43.
Definition CURVE25519_BASE64_PADDED_LEN : nat := 44.
Definition ED25519_BASE64_LEN : nat := 43.

(** The encoders through a buffer of 256 bytes: the string that is stored. *)
Definition to_base64 (digest : bytes) (len : nat) : outcome bytes :=
  let* (n, buf) := base64_encode_nopad (replicate 256 NUL) digest in
  tor_assert (n =? Z.of_nat len) (
  let* z := get (buf !! len) in
  tor_assert (b2z z =? 0) (Ok (take len buf))).
Definition digest_to_base64 (digest : bytes) : outcome bytes := to_base64 digest BASE64_DIGEST_LEN.
Definition digest256_to_base64 (digest : bytes) : outcome bytes := to_base64 digest BASE64_DIGEST256_LEN.
Definition ed25519_public_to_base64 (pkey : bytes) : outcome bytes := digest256_to_base64 pkey.

(** The decoders: the object of [len] bytes, [Err] for -1. *)
Definition from_base64 (len : nat) (d64 : bytes) : outcome bytes :=
  let* (n, digest) := base64_decode (replicate len NUL) d64 in
  if n =? Z.of_nat len then Ok digest else Err.
Definition digest_from_base64 (d64 : bytes) : outcome bytes := from_base64 DIGEST_LEN d64.
Definition digest256_from_base64 (d64 : bytes) : outcome bytes := from_base64 DIGEST256_LEN d64.
Definition ed25519_public_from_base64 (input : bytes) : outcome bytes := digest256_from_base64 input.

Definition curve25519_public_from_base64 (input : bytes) : outcome bytes :=
  let len := length input in
  if (len =? CURVE25519_BASE64_LEN)%nat then digest256_from_base64 input
  else if (len =? CURVE25519_BASE64_PADDED_LEN)%nat then
    let* (n, buf) := base64_decode (replicate (CURVE25519_BASE64_PADDED_LEN + 1) NUL) input in
    if n =? Z.of_nat CURVE25519_PUBKEY_LEN then Ok (take CURVE25519_PUBKEY_LEN buf) else Err
  else Err.

Definition curve25519_public_to_base64 (pkey : bytes) (pad : bool) : outcome bytes :=
  let dest := replicate (CURVE25519_BASE64_PADDED_LEN + 1) NUL in
  let* (n, output) := if pad then base64_encode dest pkey 0 else base64_encode_nopad dest pkey in
  let expected_len := if pad then CURVE25519_BASE64_PADDED_LEN else CURVE25519_BASE64_LEN in
  tor_assert (n =? Z.of_nat expected_len) (
  let* z := get (output !! expected_len) in
  tor_assert (b2z z =? 0) (Ok (take expected_len output))).

(** ** Nicknames *)

Definition MAX_NICKNAME_LEN : nat := 19.
Definition LEGAL_NICKNAME_CHARACTERS : bytes :=
  bs "ABCDEFGHIJKLMNOPQRSTUVWXYZabcdefghijklmnopqrstuvwxyz0123456789".
Definition HEX_DIGEST_LEN : nat := 40.
Definition HEX_CHARACTERS : bytes := bs "0123456789ABCDEFabcdef".

(** [strspn]: the length of the first part of the string that has only the given characters. *)
Fixpoint strspn (s accept : bytes) : nat :=
  match s with c :: s' => if bool_decide (c ∈ accept) then S (strspn s' accept) else O | [] => O end.

Definition is_legal_nickname (s : bytes) : bool :=
  let len := length s in
  (0 <? len)%nat && (len <=? MAX_NICKNAME_LEN)%nat && (strspn s LEGAL_NICKNAME_CHARACTERS =? len)%nat.

(** [len] is the length before the check of what follows the digest; the digits are those of the string. *)
Definition is_legal_hexdigest (s : bytes) : bool :=
  let s := if b2z (deref s) =? 36 then drop 1 s else s in
  let len := length s in
  let hex := (HEX_DIGEST_LEN <=? len)%nat && (strspn s HEX_CHARACTERS =? HEX_DIGEST_LEN)%nat in
  if (HEX_DIGEST_LEN <? len)%nat then
    let c := b2z (nth HEX_DIGEST_LEN s NUL) in
    if (c =? 61) || (c =? 126) then
      if negb (is_legal_nickname (drop (HEX_DIGEST_LEN + 1) s)) then false else hex
    else false
  else hex.

Definition is_legal_nickname_or_hexdigest (s : bytes) : bool :=
  if negb (b2z (deref s) =? 36) then is_legal_nickname s else is_legal_hexdigest s.

(** ** Base 64 without padding *)

Fixpoint base64_np (src : bytes) : bytes :=
  match src with
  | [] => []
  | [a] => [b64c (b2z a / 4); b64c (b2z a mod 4 * 16)]
  | [a; b] => [b64c (b2z a / 4); b64c (b2z a mod 4 * 16 + b2z b / 16); b64c (b2z b mod 16 * 4)]
  | a :: b :: c :: src' =>
      b64c (b2z a / 4) :: b64c (b2z a mod 4 * 16 + b2z b / 16)
      :: b64c (b2z b mod 16 * 4 + b2z c / 64) :: b64c (b2z c mod 64) :: base64_np src'
  end.

Definition b64_digit (c : ascii) : Prop := exists k, 0 <= k < 64 /\ c = b64c k.

Lemma base64_np_pad (src : bytes) : exists k, base64_of src = base64_np src ++ replicate k "="%char.
Proof.
  induction src as [|a|a b|a b c l [k IH]] using list_ind3; cbn [base64_of base64_np].
  - by exists 0%nat.
  - by exists 2%nat.
  - by exists 1%nat.
  - exists k. cbn [app]. by rewrite IH.
Qed.

Lemma base64_np_digits (src : bytes) : Forall b64_digit (base64_np src).
Proof.
  assert (H : forall z, 0 <= z < 64 -> b64_digit (b64c z)) by (intros z Hz; by exists z).
  induction src as [|a|a b|a b c l IH] using list_ind3; cbn [base64_np]; [constructor|..];
    pose proof (b2z_range a); try pose proof (b2z_range b); try pose proof (b2z_range c);
    repeat (constructor; [apply H; dlia|]); [constructor..|done].
Qed.

Lemma base64_np_length (src : bytes) : size (base64_np src) = CEIL_DIV (size src * 4) 3.
Proof.
  unfold size, CEIL_DIV. induction src as [|a|a b|a b c l IH] using list_ind3; [done..|].
  cbn [base64_np length]. dlia.
Qed.

(** Digits and padding are not the characters that the copy drops, nor NUL. *)
Lemma b64_digit_kept (c : ascii) : b64_digit c -> b2z c <> 0 /\ b2z c <> 61 /\ b2z c <> 10.
Proof.
  intros (k & Hk & ->). pose proof (forall_range (fun k => negb (b2z (b64c k) =? 0) && negb (b2z (b64c k) =? 61) && negb (b2z (b64c k) =? 10)) 64 eq_refl k Hk) as H.
  cbn beta in H. lia.
Qed.

(** The in-place copy: [o] is written, [g] is the gap between the two pointers, [cs] is still to be
    read. *)
Lemma nopad_copy (cs : bytes) : forall o g rest f, (length cs < f)%nat -> Forall b64_digit cs ->
  forall k, exists g', length g' = (length g + k)%nat /\
  nopad_loop (f + k) (o ++ g ++ cs ++ replicate k "="%char ++ NUL :: rest) (zlen o + zlen g) (zlen o)
  = Ok (o ++ cs ++ g' ++ NUL :: rest, zlen o + zlen cs).
Proof.
  assert (Hget : forall (o g : bytes) c t, aget (o ++ g ++ c :: t) (zlen o + zlen g) = Some c).
  { intros o g c t. unfold zlen. apply aget_Some. split; [lia|].
    replace (Z.to_nat (Z.of_nat (length o) + Z.of_nat (length g))) with (length (o ++ g)) by (rewrite length_app; lia).
    rewrite app_assoc. by apply list_lookup_middle. }
  induction cs as [|c cs IH]; intros o g rest f Hf Hc k; cbn [app].
  - revert g f Hf. induction k as [|k IHk]; intros g f Hf; cbn [replicate app].
    + exists g. split; [lia|]. destruct f as [|f]; [cbn in Hf; lia|]. rewrite Nat.add_0_r. cbn [nopad_loop].
      rewrite Hget. cbn [get obind]. unfold zlen. cbn [length]. change (b2z NUL =? 0) with true. cbn iota. by rewrite Z.add_0_r.
    + destruct (IHk (g ++ ["="%char]) f Hf) as (g' & Hg' & E). exists g'. rewrite length_app in Hg'. cbn [length] in Hg'. split; [lia|].
      rewrite Nat.add_succ_r. cbn [nopad_loop]. rewrite Hget. cbn [get obind]. change (b2z "=" =? 0) with false. change (b2z "=" =? 61) with true.
      cbn [orb]. rewrite <- E. f_equal; [|unfold zlen; rewrite length_app; cbn [length]; lia]. by rewrite <- app_assoc.
  - apply Forall_cons in Hc as [Hd Hc]. destruct (b64_digit_kept c Hd) as (H0 & H1 & H2). destruct f as [|f]; [cbn in Hf; lia|].
    cbn [Nat.add nopad_loop]. rewrite Hget. cbn [get obind]. rewrite !(proj2 (Z.eqb_neq _ _)) by done. cbn [orb].
    assert (Hset : exists g2, length g2 = length g /\
      aset (o ++ g ++ c :: cs ++ replicate k "="%char ++ NUL :: rest) (zlen o) c = Ok ((o ++ [c]) ++ g2 ++ cs ++ replicate k "="%char ++ NUL :: rest)).
    { destruct g as [|x g]; cbn [app].
      - exists []. split; [done|]. rewrite (aset_emit o _ c c) by done. done.
      - exists (g ++ [c]). split; [rewrite length_app; cbn; lia|]. rewrite (aset_emit o _ x c) by done. by rewrite <- !app_assoc. }
    destruct Hset as (g2 & Hg2 & ->). cbn [obind].
    destruct (IH (o ++ [c]) g2 rest f) with (k := k) as (g' & Hg' & E); [cbn in Hf; lia|done|]. exists g'. split; [lia|].
    replace (zlen o + zlen g + 1) with (zlen (o ++ [c]) + zlen g2) by (unfold zlen; rewrite length_app; cbn; lia).
    replace (zlen o + 1) with (zlen (o ++ [c])) by (unfold zlen; rewrite length_app; cbn; lia).
    rewrite E. rewrite <- app_assoc. f_equal. f_equal. unfold zlen. rewrite length_app. cbn [length]. lia.
Qed.

Lemma base64_np_c_string (src : bytes) : Forall (fun c => c <> NUL) (base64_np src).
Proof.
  eapply Forall_impl; [apply base64_np_digits|]. intros c Hc ->. by destruct (b64_digit_kept NUL Hc).
Qed.

Lemma base64_text_0 (src : bytes) : base64_text 0 src = base64_of src.
Proof. unfold base64_text. cbn [multiline]. by rewrite app_nil_r. Qed.

Lemma base64_encode_nopad_ok (dest src : bytes) : CEIL_DIV (size src) 3 < INT_MAX / 8 ->
  size (base64_of src) < size dest <= SIZE_T_CEILING ->
  exists tail, base64_encode_nopad dest src = Ok (zlen (base64_np src), base64_np src ++ NUL :: tail) /\
    length (base64_np src ++ NUL :: tail) = length dest.
Proof.
  intros H3 [H1 H2]. pose proof (base64_text_0 src) as Ht.
  unfold base64_encode_nopad. rewrite base64_encode_ok; [|done|by rewrite Ht]. rewrite Ht. cbn [obind].
  destruct (base64_np_pad src) as [k Hk]. pose proof (base64_np_digits src) as Hd.
  destruct (Z.leb_spec (size (base64_of src)) 0) as [H0|H0].
  - assert (base64_of src = []) as E by (apply length_zero_iff_nil; unfold size in H0; lia).
    assert (base64_np src = []) as -> by (rewrite E in Hk; symmetry in Hk; by apply app_eq_nil in Hk as [? _]).
    rewrite E. unfold padded. cbn [app length]. rewrite Nat.sub_0_r.
    destruct (length dest) as [|m] eqn:El; [unfold size in H1; rewrite El, E in H1; cbn in H1; lia|].
    exists (replicate m NUL). split; [done|]. cbn [length replicate]. by rewrite length_replicate.
  - unfold padded. set (m := (length dest - length (base64_of src))%nat).
    assert (Hm : (m = S (m - 1))%nat) by (unfold m, size in *; lia). rewrite Hm. cbn [replicate].
    assert (Hz : aget (base64_of src ++ NUL :: replicate (m - 1) NUL) (size (base64_of src)) = Some NUL).
    { unfold size. rewrite aget_nat. by apply list_lookup_middle. }
    rewrite Hz. cbn [get obind]. rewrite (proj2 (Z.ltb_lt _ _)) by done. change (b2z NUL =? 0) with true. cbn [andb tor_assert].
    destruct (nopad_copy (base64_np src) [] [] (replicate (m - 1) NUL) (S (length (base64_np src))) ltac:(lia) Hd k) as (g & Hg & E).
    cbn [app] in E. change (zlen [] + zlen []) with 0 in E. change (zlen []) with 0 in E.
    assert (Hfuel : exists x, length (base64_of src ++ NUL :: replicate (m - 1) NUL) = (length (base64_np src) + k + x)%nat).
    { exists m. rewrite Hk, !length_app, length_replicate. cbn [length]. rewrite length_replicate. lia. }
    destruct Hfuel as [x Hx].
    assert (Hmono : forall f a d i o r, nopad_loop f d i o = Ok r -> nopad_loop (f + a) d i o = Ok r).
    { induction f as [|f IH]; intros a d i o r; [done|]. cbn [nopad_loop Nat.add]. destruct (get (aget d i)) as [c| |]; cbn [obind]; [|done..].
      destruct (b2z c =? 0); [done|]. destruct (_ || _); [by apply IH|]. destruct (aset d o c); cbn [obind]; [by apply IH|done..]. }
    rewrite Hx. rewrite Hk, <- app_assoc. replace (S (length (base64_np src) + k + x))%nat with (S (length (base64_np src)) + k + x)%nat by lia.
    rewrite (Hmono _ x _ _ _ _ E). cbn [obind]. rewrite Z.add_0_l.
    assert (Hset : exists tl, aset (base64_np src ++ g ++ NUL :: replicate (m - 1) NUL) (zlen (base64_np src)) NUL = Ok (base64_np src ++ NUL :: tl) /\
      length tl = (length g + (m - 1))%nat).
    { destruct g as [|y g]; cbn [app].
      - exists (replicate (m - 1) NUL). rewrite (aset_emit _ _ NUL NUL) by done. rewrite <- app_assoc. split; [done|]. by rewrite length_replicate.
      - exists (g ++ NUL :: replicate (m - 1) NUL). rewrite (aset_emit _ _ y NUL) by done. rewrite <- app_assoc. split; [done|].
        rewrite length_app. cbn [length]. rewrite length_replicate. lia. }
    destruct Hset as (tl & -> & Htl). cbn [obind].
    assert (Hle : zlen (base64_np src) <= INT_MAX).
    { pose proof (base64_text_small src 0 H3) as Hs. rewrite Ht in Hs. unfold size in Hs. rewrite Hk, length_app in Hs. unfold zlen. lia. }
    rewrite (proj2 (Z.leb_le _ _)) by done. cbn [tor_assert]. exists tl. split; [done|].
    rewrite length_app. cbn [length]. rewrite Htl, Hg. assert (length (base64_of src) = length (base64_np src) + k)%nat by (rewrite Hk, length_app, length_replicate; lia).
    cbn [length]. unfold size in *. lia.
Qed.

Lemma decode_nopad (src : bytes) (n i : Z) (dest : bytes) (di : Z) :
  base64_decode_loop (base64_np src) n i dest di = base64_decode_loop (base64_of src) n i dest di.
Proof.
  destruct (base64_np_pad src) as [k Hk]. rewrite Hk. clear Hk. revert n i dest di.
  induction (base64_np src) as [|c cs IH]; intros n i dest di; cbn [app].
  - by destruct k.
  - cbn [base64_decode_loop]. destruct (get _) as [v| |]; cbn [obind]; [|done..].
    destruct (v =? X); [done|]. destruct (v =? SPC); [apply IH|]. destruct (v =? PAD); [done|].
    cbn zeta. destruct (_ =? 4); [|apply IH]. destruct (flush24 _ _ _) as [[d j]| |]; cbn [obind]; [apply IH|done..].
Qed.

Lemma base64_decode_np (dest src : bytes) : size src <= size dest <= INT_MAX ->
  base64_decode dest (base64_np src) = Ok (size src, padded src (length dest)).
Proof.
  intros H. rewrite <- (base64_decode_ok dest src 0 H), base64_text_0. unfold base64_decode.
  by rewrite decode_nopad.
Qed.

Lemma padded_full (s : bytes) (n : nat) : length s = n -> padded s n = s.
Proof. intros <-. unfold padded. rewrite Nat.sub_diag. apply app_nil_r. Qed.

Lemma from_base64_np (src : bytes) : (length src <= 1000)%nat -> from_base64 (length src) (base64_np src) = Ok src.
Proof.
  intros H. unfold from_base64. rewrite base64_decode_np by (unfold size, INT_MAX; rewrite length_replicate; lia).
  cbn [obind]. unfold size. rewrite Z.eqb_refl, length_replicate. by rewrite padded_full.
Qed.

Lemma to_base64_np (src : bytes) (len : nat) : (length src <= 100)%nat -> zlen (base64_np src) = Z.of_nat len ->
  to_base64 src len = Ok (base64_np src).
Proof.
  intros Hs Hl. unfold to_base64. assert (H3 : CEIL_DIV (size src) 3 < INT_MAX / 8) by (unfold CEIL_DIV, size, INT_MAX; dlia).
  destruct (base64_encode_nopad_ok (replicate 256 NUL) src) as (tl & -> & _); [done| |].
  { rewrite base64_of_length. unfold BASE64_LEN, CEIL_DIV, size, SIZE_T_CEILING. rewrite length_replicate. dlia. }
  cbn [obind]. rewrite Hl, Z.eqb_refl. cbn [tor_assert]. assert (length (base64_np src) = len) as <- by (unfold zlen in Hl; lia).
  rewrite list_lookup_middle by done. cbn [get obind]. change (b2z NUL =? 0) with true. cbn [tor_assert]. by rewrite take_app_length.
Qed.

(** A digest and its text. *)
Lemma digest_base64_roundtrip (d : bytes) : length d = DIGEST_LEN ->
  digest_to_base64 d = Ok (base64_np d) /\ digest_from_base64 (base64_np d) = Ok d /\ length (base64_np d) = BASE64_DIGEST_LEN.
Proof.
  unfold DIGEST_LEN, BASE64_DIGEST_LEN. intros Hd. pose proof (base64_np_length d) as Hl. unfold size, CEIL_DIV in Hl. rewrite Hd in Hl.
  change ((Z.of_nat 20 * 4 + (3 - 1)) / 3) with 27 in Hl. split; [|split; [|lia]].
  - apply to_base64_np; [lia|]. unfold zlen, BASE64_DIGEST_LEN. lia.
  - unfold digest_from_base64, DIGEST_LEN. rewrite <- Hd. apply from_base64_np. lia.
Qed.

Lemma digest256_base64_roundtrip (d : bytes) : length d = DIGEST256_LEN ->
  digest256_to_base64 d = Ok (base64_np d) /\ digest256_from_base64 (base64_np d) = Ok d /\ length (base64_np d) = BASE64_DIGEST256_LEN.
Proof.
  unfold DIGEST256_LEN, BASE64_DIGEST256_LEN. intros Hd. pose proof (base64_np_length d) as Hl. unfold size, CEIL_DIV in Hl. rewrite Hd in Hl.
  change ((Z.of_nat 32 * 4 + (3 - 1)) / 3) with 43 in Hl. split; [|split; [|lia]].
  - apply to_base64_np; [lia|]. unfold zlen, BASE64_DIGEST256_LEN. lia.
  - unfold digest256_from_base64, DIGEST256_LEN. rewrite <- Hd. apply from_base64_np. lia.
Qed.

(** A curve25519 key in its padded form. *)
Lemma curve25519_padded (k : bytes) : length k = CURVE25519_PUBKEY_LEN ->
  curve25519_public_from_base64 (base64_of k) = Ok k /\ length (base64_of k) = CURVE25519_BASE64_PADDED_LEN.
Proof.
  unfold CURVE25519_PUBKEY_LEN, CURVE25519_BASE64_PADDED_LEN. intros Hk. pose proof (base64_of_length k) as Hl.
  unfold size, BASE64_LEN, CEIL_DIV in Hl. rewrite Hk in Hl. change ((Z.of_nat 32 + (3 - 1)) / 3 * 4) with 44 in Hl.
  assert (E : length (base64_of k) = 44%nat) by lia. split; [|done]. unfold curve25519_public_from_base64, CURVE25519_BASE64_LEN, CURVE25519_BASE64_PADDED_LEN, CURVE25519_PUBKEY_LEN.
  rewrite E. change (44 =? 43)%nat with false. change (44 =? 44)%nat with true. cbn iota zeta.
  rewrite <- (base64_text_0 k), base64_decode_ok by (unfold size, INT_MAX; rewrite ?length_replicate; lia). cbn [obind].
  unfold size. rewrite Hk. change (Z.of_nat 32 =? Z.of_nat 32) with true. cbn iota. unfold padded. by rewrite <- Hk, take_app_length.
Qed.
