(* ===== verification/ParseCommon.v ===== *)
(** * Tokens of directory documents: [feature/dirparse/parsecommon.h] and [parsecommon.c]

    The tokenizer that every directory document goes through. A document is split into items: a
    keyword, its arguments, and possibly an object between BEGIN and END lines. A table of rules
    says how each keyword is parsed and how often and where it may appear. A range of the input,
    from a pointer up to [eos], is the list of its bytes. *)
From S2P Require Import Prelude ParseInt Strings Smartutil Binascii CryptoRsa.

Inductive directory_keyword :=
  | K_ACCEPT | K_ACCEPT6 | K_DIRECTORY_SIGNATURE | K_RECOMMENDED_SOFTWARE | K_REJECT | K_REJECT6 | K_ROUTER
  | K_SIGNED_DIRECTORY | K_SIGNING_KEY | K_ONION_KEY | K_ONION_KEY_NTOR | K_ROUTER_SIGNATURE | K_PUBLISHED
  | K_RUNNING_ROUTERS | K_ROUTER_STATUS | K_PLATFORM | K_PROTO | K_OPT | K_BANDWIDTH | K_CONTACT
  | K_NETWORK_STATUS | K_UPTIME | K_DIR_SIGNING_KEY | K_FAMILY | K_FINGERPRINT | K_HIBERNATING
  | K_READ_HISTORY | K_WRITE_HISTORY | K_NETWORK_STATUS_VERSION | K_DIR_SOURCE | K_DIR_OPTIONS
  | K_CLIENT_VERSIONS | K_SERVER_VERSIONS | K_RECOMMENDED_CLIENT_PROTOCOLS | K_RECOMMENDED_RELAY_PROTOCOLS
  | K_REQUIRED_CLIENT_PROTOCOLS | K_REQUIRED_RELAY_PROTOCOLS | K_OR_ADDRESS | K_ID | K_P | K_P6 | K_R | K_A
  | K_S | K_V | K_W | K_M | K_EXTRA_INFO | K_EXTRA_INFO_DIGEST | K_CACHES_EXTRA_INFO | K_HIDDEN_SERVICE_DIR
  | K_ALLOW_SINGLE_HOP_EXITS | K_IPV6_POLICY | K_ROUTER_SIG_ED25519 | K_IDENTITY_ED25519
  | K_MASTER_KEY_ED25519 | K_ONION_KEY_CROSSCERT | K_NTOR_ONION_KEY_CROSSCERT | K_DIRREQ_END
  | K_DIRREQ_V2_IPS | K_DIRREQ_V3_IPS | K_DIRREQ_V2_REQS | K_DIRREQ_V3_REQS | K_DIRREQ_V2_SHARE
  | K_DIRREQ_V3_SHARE | K_DIRREQ_V2_RESP | K_DIRREQ_V3_RESP | K_DIRREQ_V2_DIR | K_DIRREQ_V3_DIR
  | K_DIRREQ_V2_TUN | K_DIRREQ_V3_TUN | K_ENTRY_END | K_ENTRY_IPS | K_CELL_END | K_CELL_PROCESSED
  | K_CELL_QUEUED | K_CELL_TIME | K_CELL_CIRCS | K_EXIT_END | K_EXIT_WRITTEN | K_EXIT_READ | K_EXIT_OPENED
  | K_DIR_KEY_CERTIFICATE_VERSION | K_DIR_IDENTITY_KEY | K_DIR_KEY_PUBLISHED | K_DIR_KEY_EXPIRES
  | K_DIR_KEY_CERTIFICATION | K_DIR_KEY_CROSSCERT | K_DIR_ADDRESS | K_DIR_TUNNELLED | K_VOTE_STATUS
  | K_VALID_AFTER | K_FRESH_UNTIL | K_VALID_UNTIL | K_VOTING_DELAY | K_KNOWN_FLAGS | K_PARAMS
  | K_BW_WEIGHTS | K_VOTE_DIGEST | K_CONSENSUS_DIGEST | K_ADDITIONAL_DIGEST | K_ADDITIONAL_SIGNATURE
  | K_CONSENSUS_METHODS | K_CONSENSUS_METHOD | K_LEGACY_DIR_KEY | K_DIRECTORY_FOOTER | K_SIGNING_CERT_ED
  | K_SR_FLAG | K_COMMIT | K_PREVIOUS_SRV | K_CURRENT_SRV | K_PACKAGE | A_PURPOSE | A_LAST_LISTED
  | A_UNKNOWN_ | R_RENDEZVOUS_SERVICE_DESCRIPTOR | R_VERSION | R_PERMANENT_KEY | R_SECRET_ID_PART
  | R_PUBLICATION_TIME | R_PROTOCOL_VERSIONS | R_INTRODUCTION_POINTS | R_SIGNATURE | R_HS_DESCRIPTOR
  | R3_DESC_LIFETIME | R3_DESC_SIGNING_CERT | R3_REVISION_COUNTER | R3_SUPERENCRYPTED | R3_SIGNATURE
  | R3_CREATE2_FORMATS | R3_INTRO_AUTH_REQUIRED | R3_SINGLE_ONION_SERVICE | R3_INTRODUCTION_POINT
  | R3_INTRO_ONION_KEY | R3_INTRO_AUTH_KEY | R3_INTRO_ENC_KEY | R3_INTRO_ENC_KEY_CERT | R3_INTRO_LEGACY_KEY
  | R3_INTRO_LEGACY_KEY_CERT | R3_DESC_AUTH_TYPE | R3_DESC_AUTH_KEY | R3_DESC_AUTH_CLIENT | R3_ENCRYPTED
  | R_IPO_IDENTIFIER | R_IPO_IP_ADDRESS | R_IPO_ONION_PORT | R_IPO_ONION_KEY | R_IPO_SERVICE_KEY
  | C_CLIENT_NAME | C_DESCRIPTOR_COOKIE | C_CLIENT_KEY | ERR_ | EOF_ | NIL_.

(** The value of the enumeration constant. *)
Definition kw_num (k : directory_keyword) : Z :=
  match k with
  | K_ACCEPT => 0 | K_ACCEPT6 => 1 | K_DIRECTORY_SIGNATURE => 2 | K_RECOMMENDED_SOFTWARE => 3
  | K_REJECT => 4 | K_REJECT6 => 5 | K_ROUTER => 6 | K_SIGNED_DIRECTORY => 7 | K_SIGNING_KEY => 8
  | K_ONION_KEY => 9 | K_ONION_KEY_NTOR => 10 | K_ROUTER_SIGNATURE => 11 | K_PUBLISHED => 12
  | K_RUNNING_ROUTERS => 13 | K_ROUTER_STATUS => 14 | K_PLATFORM => 15 | K_PROTO => 16 | K_OPT => 17
  | K_BANDWIDTH => 18 | K_CONTACT => 19 | K_NETWORK_STATUS => 20 | K_UPTIME => 21 | K_DIR_SIGNING_KEY => 22
  | K_FAMILY => 23 | K_FINGERPRINT => 24 | K_HIBERNATING => 25 | K_READ_HISTORY => 26
  | K_WRITE_HISTORY => 27 | K_NETWORK_STATUS_VERSION => 28 | K_DIR_SOURCE => 29 | K_DIR_OPTIONS => 30
  | K_CLIENT_VERSIONS => 31 | K_SERVER_VERSIONS => 32 | K_RECOMMENDED_CLIENT_PROTOCOLS => 33
  | K_RECOMMENDED_RELAY_PROTOCOLS => 34 | K_REQUIRED_CLIENT_PROTOCOLS => 35
  | K_REQUIRED_RELAY_PROTOCOLS => 36 | K_OR_ADDRESS => 37 | K_ID => 38 | K_P => 39 | K_P6 => 40 | K_R => 41
  | K_A => 42 | K_S => 43 | K_V => 44 | K_W => 45 | K_M => 46 | K_EXTRA_INFO => 47
  | K_EXTRA_INFO_DIGEST => 48 | K_CACHES_EXTRA_INFO => 49 | K_HIDDEN_SERVICE_DIR => 50
  | K_ALLOW_SINGLE_HOP_EXITS => 51 | K_IPV6_POLICY => 52 | K_ROUTER_SIG_ED25519 => 53
  | K_IDENTITY_ED25519 => 54 | K_MASTER_KEY_ED25519 => 55 | K_ONION_KEY_CROSSCERT => 56
  | K_NTOR_ONION_KEY_CROSSCERT => 57 | K_DIRREQ_END => 58 | K_DIRREQ_V2_IPS => 59 | K_DIRREQ_V3_IPS => 60
  | K_DIRREQ_V2_REQS => 61 | K_DIRREQ_V3_REQS => 62 | K_DIRREQ_V2_SHARE => 63 | K_DIRREQ_V3_SHARE => 64
  | K_DIRREQ_V2_RESP => 65 | K_DIRREQ_V3_RESP => 66 | K_DIRREQ_V2_DIR => 67 | K_DIRREQ_V3_DIR => 68
  | K_DIRREQ_V2_TUN => 69 | K_DIRREQ_V3_TUN => 70 | K_ENTRY_END => 71 | K_ENTRY_IPS => 72
  | K_CELL_END => 73 | K_CELL_PROCESSED => 74 | K_CELL_QUEUED => 75 | K_CELL_TIME => 76
  | K_CELL_CIRCS => 77 | K_EXIT_END => 78 | K_EXIT_WRITTEN => 79 | K_EXIT_READ => 80 | K_EXIT_OPENED => 81
  | K_DIR_KEY_CERTIFICATE_VERSION => 82 | K_DIR_IDENTITY_KEY => 83 | K_DIR_KEY_PUBLISHED => 84
  | K_DIR_KEY_EXPIRES => 85 | K_DIR_KEY_CERTIFICATION => 86 | K_DIR_KEY_CROSSCERT => 87
  | K_DIR_ADDRESS => 88 | K_DIR_TUNNELLED => 89 | K_VOTE_STATUS => 90 | K_VALID_AFTER => 91
  | K_FRESH_UNTIL => 92 | K_VALID_UNTIL => 93 | K_VOTING_DELAY => 94 | K_KNOWN_FLAGS => 95 | K_PARAMS => 96
  | K_BW_WEIGHTS => 97 | K_VOTE_DIGEST => 98 | K_CONSENSUS_DIGEST => 99 | K_ADDITIONAL_DIGEST => 100
  | K_ADDITIONAL_SIGNATURE => 101 | K_CONSENSUS_METHODS => 102 | K_CONSENSUS_METHOD => 103
  | K_LEGACY_DIR_KEY => 104 | K_DIRECTORY_FOOTER => 105 | K_SIGNING_CERT_ED => 106 | K_SR_FLAG => 107
  | K_COMMIT => 108 | K_PREVIOUS_SRV => 109 | K_CURRENT_SRV => 110 | K_PACKAGE => 111 | A_PURPOSE => 112
  | A_LAST_LISTED => 113 | A_UNKNOWN_ => 114 | R_RENDEZVOUS_SERVICE_DESCRIPTOR => 115 | R_VERSION => 116
  | R_PERMANENT_KEY => 117 | R_SECRET_ID_PART => 118 | R_PUBLICATION_TIME => 119
  | R_PROTOCOL_VERSIONS => 120 | R_INTRODUCTION_POINTS => 121 | R_SIGNATURE => 122 | R_HS_DESCRIPTOR => 123
  | R3_DESC_LIFETIME => 124 | R3_DESC_SIGNING_CERT => 125 | R3_REVISION_COUNTER => 126
  | R3_SUPERENCRYPTED => 127 | R3_SIGNATURE => 128 | R3_CREATE2_FORMATS => 129
  | R3_INTRO_AUTH_REQUIRED => 130 | R3_SINGLE_ONION_SERVICE => 131 | R3_INTRODUCTION_POINT => 132
  | R3_INTRO_ONION_KEY => 133 | R3_INTRO_AUTH_KEY => 134 | R3_INTRO_ENC_KEY => 135
  | R3_INTRO_ENC_KEY_CERT => 136 | R3_INTRO_LEGACY_KEY => 137 | R3_INTRO_LEGACY_KEY_CERT => 138
  | R3_DESC_AUTH_TYPE => 139 | R3_DESC_AUTH_KEY => 140 | R3_DESC_AUTH_CLIENT => 141 | R3_ENCRYPTED => 142
  | R_IPO_IDENTIFIER => 143 | R_IPO_IP_ADDRESS => 144 | R_IPO_ONION_PORT => 145 | R_IPO_ONION_KEY => 146
  | R_IPO_SERVICE_KEY => 147 | C_CLIENT_NAME => 148 | C_DESCRIPTOR_COOKIE => 149 | C_CLIENT_KEY => 150
  | ERR_ => 151 | EOF_ => 152 | NIL_ => 153
  end.
Definition all_keywords : list directory_keyword :=
  [K_ACCEPT; K_ACCEPT6; K_DIRECTORY_SIGNATURE; K_RECOMMENDED_SOFTWARE; K_REJECT; K_REJECT6; K_ROUTER;
   K_SIGNED_DIRECTORY; K_SIGNING_KEY; K_ONION_KEY; K_ONION_KEY_NTOR; K_ROUTER_SIGNATURE; K_PUBLISHED;
   K_RUNNING_ROUTERS; K_ROUTER_STATUS; K_PLATFORM; K_PROTO; K_OPT; K_BANDWIDTH; K_CONTACT;
   K_NETWORK_STATUS; K_UPTIME; K_DIR_SIGNING_KEY; K_FAMILY; K_FINGERPRINT; K_HIBERNATING; K_READ_HISTORY;
   K_WRITE_HISTORY; K_NETWORK_STATUS_VERSION; K_DIR_SOURCE; K_DIR_OPTIONS; K_CLIENT_VERSIONS;
   K_SERVER_VERSIONS; K_RECOMMENDED_CLIENT_PROTOCOLS; K_RECOMMENDED_RELAY_PROTOCOLS;
   K_REQUIRED_CLIENT_PROTOCOLS; K_REQUIRED_RELAY_PROTOCOLS; K_OR_ADDRESS; K_ID; K_P; K_P6; K_R; K_A; K_S;
   K_V; K_W; K_M; K_EXTRA_INFO; K_EXTRA_INFO_DIGEST; K_CACHES_EXTRA_INFO; K_HIDDEN_SERVICE_DIR;
   K_ALLOW_SINGLE_HOP_EXITS; K_IPV6_POLICY; K_ROUTER_SIG_ED25519; K_IDENTITY_ED25519; K_MASTER_KEY_ED25519;
   K_ONION_KEY_CROSSCERT; K_NTOR_ONION_KEY_CROSSCERT; K_DIRREQ_END; K_DIRREQ_V2_IPS; K_DIRREQ_V3_IPS;
   K_DIRREQ_V2_REQS; K_DIRREQ_V3_REQS; K_DIRREQ_V2_SHARE; K_DIRREQ_V3_SHARE; K_DIRREQ_V2_RESP;
   K_DIRREQ_V3_RESP; K_DIRREQ_V2_DIR; K_DIRREQ_V3_DIR; K_DIRREQ_V2_TUN; K_DIRREQ_V3_TUN; K_ENTRY_END;
   K_ENTRY_IPS; K_CELL_END; K_CELL_PROCESSED; K_CELL_QUEUED; K_CELL_TIME; K_CELL_CIRCS; K_EXIT_END;
   K_EXIT_WRITTEN; K_EXIT_READ; K_EXIT_OPENED; K_DIR_KEY_CERTIFICATE_VERSION; K_DIR_IDENTITY_KEY;
   K_DIR_KEY_PUBLISHED; K_DIR_KEY_EXPIRES; K_DIR_KEY_CERTIFICATION; K_DIR_KEY_CROSSCERT; K_DIR_ADDRESS;
   K_DIR_TUNNELLED; K_VOTE_STATUS; K_VALID_AFTER; K_FRESH_UNTIL; K_VALID_UNTIL; K_VOTING_DELAY;
   K_KNOWN_FLAGS; K_PARAMS; K_BW_WEIGHTS; K_VOTE_DIGEST; K_CONSENSUS_DIGEST; K_ADDITIONAL_DIGEST;
   K_ADDITIONAL_SIGNATURE; K_CONSENSUS_METHODS; K_CONSENSUS_METHOD; K_LEGACY_DIR_KEY; K_DIRECTORY_FOOTER;
   K_SIGNING_CERT_ED; K_SR_FLAG; K_COMMIT; K_PREVIOUS_SRV; K_CURRENT_SRV; K_PACKAGE; A_PURPOSE;
   A_LAST_LISTED; A_UNKNOWN_; R_RENDEZVOUS_SERVICE_DESCRIPTOR; R_VERSION; R_PERMANENT_KEY;
   R_SECRET_ID_PART; R_PUBLICATION_TIME; R_PROTOCOL_VERSIONS; R_INTRODUCTION_POINTS; R_SIGNATURE;
   R_HS_DESCRIPTOR; R3_DESC_LIFETIME; R3_DESC_SIGNING_CERT; R3_REVISION_COUNTER; R3_SUPERENCRYPTED;
   R3_SIGNATURE; R3_CREATE2_FORMATS; R3_INTRO_AUTH_REQUIRED; R3_SINGLE_ONION_SERVICE;
   R3_INTRODUCTION_POINT; R3_INTRO_ONION_KEY; R3_INTRO_AUTH_KEY; R3_INTRO_ENC_KEY; R3_INTRO_ENC_KEY_CERT;
   R3_INTRO_LEGACY_KEY; R3_INTRO_LEGACY_KEY_CERT; R3_DESC_AUTH_TYPE; R3_DESC_AUTH_KEY; R3_DESC_AUTH_CLIENT;
   R3_ENCRYPTED; R_IPO_IDENTIFIER; R_IPO_IP_ADDRESS; R_IPO_ONION_PORT; R_IPO_ONION_KEY; R_IPO_SERVICE_KEY;
   C_CLIENT_NAME; C_DESCRIPTOR_COOKIE; C_CLIENT_KEY; ERR_; EOF_; NIL_].

Lemma all_keywords_num (k : directory_keyword) : nth (Z.to_nat (kw_num k)) all_keywords NIL_ = k.
Proof. by destruct k. Qed.

#[export] Instance directory_keyword_eq_dec : EqDecision directory_keyword.
Proof.
  refine (fun a b => match decide (kw_num a = kw_num b) with left e => left _ | right n => right _ end).
  - by rewrite <- (all_keywords_num a), <- (all_keywords_num b), e.
  - by intros ->.
Defined.

Lemma kw_num_range (k : directory_keyword) : 0 <= kw_num k <= kw_num NIL_.
Proof. by destruct k. Qed.

Definition MIN_ANNOTATION : directory_keyword := A_PURPOSE.
Definition MAX_ANNOTATION : directory_keyword := A_UNKNOWN_.
Definition is_annotation_kw (k : directory_keyword) : bool :=
  (kw_num MIN_ANNOTATION <=? kw_num k) && (kw_num k <=? kw_num MAX_ANNOTATION).

(** ** Rules *)

Inductive obj_syntax := NO_OBJ | NEED_OBJ | NEED_KEY_1024 | NEED_KEY | OBJ_OK.

#[export] Instance obj_syntax_eq_dec : EqDecision obj_syntax.
Proof. solve_decision. Defined.

Definition AT_START : Z := 1.
Definition AT_END : Z := 2.
Definition TS_ANNOTATIONS_OK : Z := 1.
Definition TS_NOCHECK : Z := 2.
Definition TS_NO_NEW_ANNOTATIONS : Z := 4.

Record token_rule := {
  r_t : bytes; r_v : directory_keyword; min_args : Z; max_args : Z; concat_args : bool; os : obj_syntax;
  min_cnt : Z; max_cnt : Z; pos : Z; is_annotation : bool
}.

(** Argument multiplicities and the macros for rules; a table is the list of its rules without the
    end marker. *)
Definition ARGS : Z * Z * bool := (0, INT_MAX, false).
Definition NO_ARGS : Z * Z * bool := (0, 0, false).
Definition CONCAT_ARGS : Z * Z * bool := (1, 1, true).
Definition GE (n : Z) : Z * Z * bool := (n, INT_MAX, false).
Definition EQ (n : Z) : Z * Z * bool := (n, n, false).

Definition mk_rule (s : string) (t : directory_keyword) (a : Z * Z * bool) (o : obj_syntax)
    (mn mx p : Z) (ann : bool) : token_rule :=
  let '(amin, amax, con) := a in
  {| r_t := bs s; r_v := t; min_args := amin; max_args := amax; concat_args := con; os := o;
     min_cnt := mn; max_cnt := mx; pos := p; is_annotation := ann |}.
Definition T s t a o := mk_rule s t a o 0 INT_MAX 0 false.
Definition T0N s t a o := mk_rule s t a o 0 INT_MAX 0 false.
Definition T1 s t a o := mk_rule s t a o 1 1 0 false.
Definition T1_START s t a o := mk_rule s t a o 1 1 AT_START false.
Definition T1_END s t a o := mk_rule s t a o 1 1 AT_END false.
Definition T1N s t a o := mk_rule s t a o 1 INT_MAX 0 false.
Definition T01 s t a o := mk_rule s t a o 0 1 0 false.
Definition A01 s t a o := mk_rule s t a o 0 1 0 true.

(** ** Tokens *)

Section tokens.
Context {ssl : OpenSSL}.

Record directory_token := {
  tp : directory_keyword; args : list bytes; object_type : option bytes; object_size : Z;
  object_body : option bytes; key : option crypto_pk; error : option bytes
}.

Definition n_args (tok : directory_token) : Z := zlen (args tok).

(** [RET_ERR(msg)]: the token that replaces the one under construction. *)
Definition ERR_TOKEN (msg : bytes) : directory_token :=
  {| tp := ERR_; args := []; object_type := None; object_size := 0; object_body := None; key := None;
     error := Some msg |}.

(** A message formatted into [char ebuf\[128\]]. *)
Definition ebuf (msg : bytes) : bytes := take 127 msg.

(** [memarea_strndup(area, s, n)]. *)
Fixpoint strndup (s : bytes) (n : nat) : bytes :=
  match s, n with
  | c :: s', S n' => if b2z c =? 0 then [] else c :: strndup s' n'
  | _, _ => []
  end.

Definition MAX_ARGS : nat := 512.

(** The loop over [cp]; [acc] the arguments so far. [None] is -1. *)
Fixpoint get_args_loop (fuel : nat) (cp : bytes) (acc : list bytes) : outcome (option (list bytes)) :=
  match cp with
  | [] => Ok (Some acc)
  | _ =>
      match fuel with
      | O => Stuck
      | S f =>
          if (length acc =? MAX_ARGS)%nat then Ok None
          else
            let e := find_whitespace cp in
            let acc := acc ++ [take (length cp - length e) cp] in
            match e with
            | [] => Ok (Some acc)
            | _ :: e' => get_args_loop f (eat_whitespace e') acc
            end
      end
  end.

Definition get_token_arguments (s : bytes) : outcome (option (list bytes)) :=
  let mem := strndup s (length s) in get_args_loop (length mem) mem [].

Definition token_check_object (kwd : bytes) (tok : directory_token) (o_syn : obj_syntax) : directory_token :=
  let need_key :=
    match key tok with
    | None => ERR_TOKEN (ebuf (bs "Missing public key for " ++ kwd))
    | Some k =>
        if crypto_pk_key_is_private k then
          ERR_TOKEN (ebuf (bs "Private key given for " ++ kwd ++ bs ", which wants a public key"))
        else tok
    end in
  match o_syn with
  | NO_OBJ =>
      match object_body tok, key tok with
      | Some _, _ => ERR_TOKEN (ebuf (bs "Unexpected object for " ++ kwd))
      | None, Some _ => ERR_TOKEN (ebuf (bs "Unexpected public key for " ++ kwd))
      | None, None => tok
      end
  | NEED_OBJ =>
      match object_body tok with None => ERR_TOKEN (ebuf (bs "Missing object for " ++ kwd)) | Some _ => tok end
  | NEED_KEY_1024 =>
      match key tok with
      | Some k =>
          if negb (crypto_pk_num_bits k =? PK_BYTES * 8) then
            ERR_TOKEN (ebuf (bs "Wrong size on key for " ++ kwd ++ bs ": " ++ print_int (crypto_pk_num_bits k) ++ bs " bits"))
          else need_key
      | None => need_key
      end
  | NEED_KEY => need_key
  | OBJ_OK => tok
  end.

(** The two ranges have the same length and contents. *)
Definition mem_eq_token (mem token : bytes) : bool :=
  (length mem =? length token)%nat && fast_memeq mem token (length token).

Definition MAX_UNPARSED_OBJECT_SIZE : Z := 128 * 1024.
Definition MAX_LINE_LENGTH : Z := 128 * 1024.

(** [eol] as an offset: the next newline, or the end of the range. *)
Definition line_end (s : bytes) : nat :=
  match memchr s NL (length s) with Some i => i | None => length s end.

(** The part of a line up to [next]. *)
Definition first_word (line : bytes) : bytes := take (length line - length (find_whitespace_eos line)) line.

Fixpoint find_rule (table : list token_rule) (word : bytes) : option token_rule :=
  match table with
  | r :: rest => if mem_eq_token word (r_t r) then Some r else find_rule rest word
  | [] => None
  end.

(** The part of [get_next_token] that looks at the keyword and its arguments: [line] from the keyword to the
    end of the line. The token, the object syntax it wants and the keyword of its rule; [inl] is an
    error. *)
Definition parse_keyword (table : list token_rule) (line : bytes) : outcome (directory_token + directory_token * obj_syntax * bytes) :=
  let next := find_whitespace_eos line in
  let word := first_word line in
  match find_rule table word with
  | Some r =>
      let kwd := r_t r in
      let line := eat_whitespace_eos_no_nl next in
      let* a := if concat_args r then Ok (Some [strndup line (length line)]) else get_token_arguments line in
      match a with
      | None => Ok (inl (ERR_TOKEN (ebuf (bs "Far too many arguments to " ++ kwd))))
      | Some a =>
          if zlen a <? min_args r then Ok (inl (ERR_TOKEN (ebuf (bs "Too few arguments to " ++ kwd))))
          else if max_args r <? zlen a then Ok (inl (ERR_TOKEN (ebuf (bs "Too many arguments to " ++ kwd))))
          else Ok (inr ({| tp := r_v r; args := a; object_type := None; object_size := 0; object_body := None;
                           key := None; error := None |}, os r, kwd))
      end
  | None =>
      let v := match line with c :: _ => if b2z c =? 64 then A_UNKNOWN_ else K_OPT | [] => K_OPT end in
      Ok (inr ({| tp := v; args := [strndup line (length line)]; object_type := None; object_size := 0;
                  object_body := None; key := None; error := None |}, OBJ_OK, []))
  end.

(** The rest: [s] begins on the line after the keyword, blanks skipped. The token with its object, and what
    follows. *)
Definition parse_object (tok : directory_token) (o_syn : obj_syntax) (s : bytes) : outcome (directory_token * bytes) :=
  let no_object := Ok (tok, s) in
  let bad msg := Ok (ERR_TOKEN (bs msg), s) in
  match memchr s NL (length s) with
  | None => no_object
  | Some eol =>
      if (eol <? 11)%nat || negb (strcmpstart s (bs "-----BEGIN ") =? 0) then no_object
      else if (eol <=? 16)%nat || (match memchr (drop 11 s) NUL (eol - 16) with Some _ => true | None => false end)
              || negb (mem_eq_token (take 5 (drop (eol - 5) s)) (bs "-----"))
              || (MAX_UNPARSED_OBJECT_SIZE <? Z.of_nat eol)
      then bad "Malformed object: bad begin line"
      else
        let obname_len := (eol - 16)%nat in
        let otype := strndup (drop 11 s) obname_len in
        let s := drop (eol + 1) s in
        let* next := tor_memstr s (bs "-----END ") in
        match next with
        | None => Ok (ERR_TOKEN (bs "Malformed object: missing object end line"), s)
        | Some next =>
            let tail := drop next s in
            let eol := line_end tail in
            if negb (eol =? 9 + obname_len + 5)%nat
               || negb (mem_eq_token (take obname_len (drop 9 tail)) otype)
               || negb (mem_eq_token (take 5 (drop (eol - 5) tail)) (bs "-----"))
            then Ok (ERR_TOKEN (ebuf (bs "Malformed object: mismatched end tag " ++ otype)), s)
            else if MAX_UNPARSED_OBJECT_SIZE <? Z.of_nat next
            then Ok (ERR_TOKEN (bs "Couldn't parse object: missing footer or object much too big."), s)
            else
              let* maxsize := base64_decode_maxsize (Z.of_nat next) in
              match base64_decode (replicate (Z.to_nat maxsize) NUL) (take next s) with
              | Stuck => Stuck
              | Err => Ok (ERR_TOKEN (bs "Malformed object: bad base64-encoded data"), s)
              | Ok (r, body) =>
                  let with_key k :=
                    {| tp := tp tok; args := args tok; object_type := Some otype; object_size := r;
                       object_body := Some body; key := k; error := None |} in
                  if strcmp otype (bs "RSA PUBLIC KEY") =? 0 then
                    if bool_decide (o_syn <> NEED_KEY) && bool_decide (o_syn <> NEED_KEY_1024) && bool_decide (o_syn <> OBJ_OK)
                    then Ok (ERR_TOKEN (bs "Unexpected public key."), s)
                    else
                      match crypto_pk_asn1_decode (take (Z.to_nat r) body) with
                      | None => Ok (ERR_TOKEN (bs "Couldn't parse public key."), s)
                      | Some k => Ok (with_key (Some k), drop eol tail)
                      end
                  else Ok (with_key None, drop eol tail)
              end
        end
  end.

(** The token and where [*s] is left. *)
Definition get_next_token (s : bytes) (table : list token_rule) : outcome (directory_token * bytes) :=
  let s := eat_whitespace_eos s in
  let eol := line_end s in
  if MAX_LINE_LENGTH <? Z.of_nat eol then Ok (ERR_TOKEN (bs "Line far too long"), s)
  else
    let line := take eol s in
    let after := drop eol s in
    let opt := mem_eq_token (first_word line) (bs "opt") in
    if negb opt && bool_decide (s = []) then Ok (ERR_TOKEN (bs "Unexpected EOF"), s)
    else
      let line := if opt then eat_whitespace_eos_no_nl (find_whitespace_eos line) else line in
      let* r := parse_keyword table line in
      match r with
      | inl e => Ok (e, s)
      | inr (tok, o_syn, kwd) =>
          let* (tok, s) := parse_object tok o_syn (eat_whitespace_eos after) in
          if bool_decide (tp tok = ERR_) then Ok (tok, s)
          else Ok (token_check_object kwd tok o_syn, s)
      end.

(** ** Whole documents *)

(** [++counts\[tp\]]. *)
Definition bump (counts : list Z) (k : directory_keyword) : outcome (list Z) :=
  let* c := get (aget counts (kw_num k)) in aset counts (kw_num k) (c + 1).
Fixpoint bump_all (counts : list Z) (out : list directory_token) : outcome (list Z) :=
  match out with
  | t :: rest => let* counts := bump counts (tp t) in bump_all counts rest
  | [] => Ok counts
  end.

(** The loop over the tokens; [last] the previous one. [Err] is -1. *)
Fixpoint tokenize_loop (fuel : nat) (s : bytes) (table : list token_rule) (last : option directory_token)
    (out : list directory_token) (counts : list Z) : outcome (list directory_token * list Z) :=
  let at_eof := match last with Some t => bool_decide (tp t = EOF_) | None => false end in
  match s with
  | [] => Ok (out, counts)
  | _ =>
      if at_eof then Ok (out, counts)
      else
        match fuel with
        | O => Stuck
        | S f =>
            let* (tok, s) := get_next_token s table in
            if bool_decide (tp tok = ERR_) then Err
            else
              let* counts := bump counts (tp tok) in
              tokenize_loop f (eat_whitespace_eos s) table (Some tok) (out ++ [tok]) counts
        end
  end.

Fixpoint first_nonannotation (out : list directory_token) : option nat :=
  match out with
  | t :: rest => if is_annotation_kw (tp t) then S <$> first_nonannotation rest else Some O
  | [] => None
  end.

(** The checks on the number and the place of one kind of item; [Err] is -1. *)
Definition check_rule (out : list directory_token) (counts : list Z) (first : nat) (r : token_rule) : outcome unit :=
  let* c := get (aget counts (kw_num (r_v r))) in
  if c <? min_cnt r then Err
  else if max_cnt r <? c then Err
  else
    let* _ := if negb (Z.land (pos r) AT_START =? 0) then
                match out with
                | [] => Err
                | _ => let* t := get (out !! first) in if bool_decide (tp t <> r_v r) then Err else Ok tt
                end
              else Ok tt in
    if negb (Z.land (pos r) AT_END =? 0) then
      match out with
      | [] => Err
      | _ => let* t := get (out !! (length out - 1)%nat) in if bool_decide (tp t <> r_v r) then Err else Ok tt
      end
    else Ok tt.

Fixpoint check_rules (out : list directory_token) (counts : list Z) (first : nat) (table : list token_rule) : outcome unit :=
  match table with
  | r :: rest => let* _ := check_rule out counts first r in check_rules out counts first rest
  | [] => Ok tt
  end.

(** [tokenize_string] on the range [s]; [has_end] tells whether the caller passed [end]. [out] already
    holds tokens; [Err] is -1. *)
Definition tokenize_string (s : bytes) (has_end : bool) (out : list directory_token) (table : list token_rule)
    (flags : Z) : outcome (list directory_token) :=
  let prev_len := length out in
  if has_end && match memchr s NUL (length s) with Some _ => true | None => false end then Err
  else
    let* counts := bump_all (replicate (Z.to_nat (kw_num NIL_)) 0) out in
    let* (out, counts) := tokenize_loop (S (length s)) s table None out counts in
    if flag_set flags TS_NOCHECK then Ok out
    else
      let* first :=
        if flag_set flags TS_ANNOTATIONS_OK then
          match first_nonannotation out with
          | None => Err
          | Some i =>
              if existsb (fun t => is_annotation_kw (tp t)) (drop i out) then Err
              else if flag_set flags TS_NO_NEW_ANNOTATIONS && negb (i =? prev_len)%nat then Err
              else Ok i
          end
        else if existsb (fun t => is_annotation_kw (tp t)) out then Err
        else Ok O in
      let* _ := check_rules out counts first table in
      Ok out.

(** ** Looking up tokens *)

Fixpoint find_opt_by_keyword (s : list directory_token) (keyword : directory_keyword) : option directory_token :=
  match s with
  | t :: rest => if bool_decide (tp t = keyword) then Some t else find_opt_by_keyword rest keyword
  | [] => None
  end.

(** [find_by_keyword_]: a missing token is a failed assertion. *)
Definition find_by_keyword (s : list directory_token) (keyword : directory_keyword) : outcome directory_token :=
  get (find_opt_by_keyword s keyword).

(** [None] when there is none. *)
Definition find_all_by_keyword (s : list directory_token) (k : directory_keyword) : option (list directory_token) :=
  match List.filter (fun t => bool_decide (tp t = k)) s with [] => None | l => Some l end.

End tokens.
