(* ===== verification/ParseFacts.v ===== *)
(** * The tokenizer on any input

    Every token that the tokenizer returns obeys the rule of its keyword, a document that it accepts
    obeys the table, and it always ends: each token uses up a character of the input. *)
From stdpp Require Import gmap.
From S2P Require Import Prelude ParseInt Strings Smartutil Binascii Inaddr InaddrSafe CryptoRsa ParseCommon.

(** ** Ranges *)

Lemma eat_ws_suffix (b : bool) (s : bytes) : exists pre, s = pre ++ eat_ws b s.
Proof.
  revert b. induction s as [|c s IH]; intros b; cbn [eat_ws]; [by exists []|].
  assert (H : forall b', exists pre, c :: s = pre ++ eat_ws b' s).
  { intros b'. destruct (IH b') as [pre Hp]. exists (c :: pre). cbn [app]. by rewrite <- Hp. }
  repeat case_match; by (apply H || exists []).
Qed.

Lemma eat_no_nl_suffix (s : bytes) : exists pre, s = pre ++ eat_whitespace_no_nl s.
Proof.
  induction s as [|c s [pre IH]]; cbn [eat_whitespace_no_nl]; [by exists []|].
  case_match; [|by exists []]. exists (c :: pre). cbn [app]. by rewrite <- IH.
Qed.

Lemma find_whitespace_suffix (s : bytes) : exists pre, s = pre ++ find_whitespace s.
Proof.
  induction s as [|c s [pre IH]]; cbn [find_whitespace]; [by exists []|].
  case_match; [by exists []|]. exists (c :: pre). cbn [app]. by rewrite <- IH.
Qed.

Lemma suffix_length (s t : bytes) : (exists pre, s = pre ++ t) -> (length t <= length s)%nat.
Proof. intros [pre ->]. rewrite length_app. lia. Qed.

Lemma eat_ws_length (b : bool) (s : bytes) : (length (eat_ws b s) <= length s)%nat.
Proof. apply suffix_length, eat_ws_suffix. Qed.

Lemma suffix_c_string (s t : bytes) : (exists pre, s = pre ++ t) -> c_string s -> c_string t.
Proof. intros [pre ->] H. by apply Forall_app in H as [_ H]. Qed.

Lemma eat_ws_head (s : bytes) : forall b c t, c_string s -> eat_ws b s = c :: t -> is_blank c = false /\ c <> "#"%char.
Proof.
  induction s as [|d s IH]; intros b c t Hs; cbn [eat_ws]; [done|].
  apply Forall_cons in Hs as [Hd Hs]. destruct (b && negb (b2z d =? 10)).
  - destruct (Z.eqb_spec (b2z d) 0) as [E|_]; [|by apply IH].
    destruct Hd. by rewrite <- (z2b_b2z d), E.
  - destruct (is_blank d) eqn:Eb; [by apply IH|]. destruct (Z.eqb_spec (b2z d) 35) as [E|E]; [by apply IH|].
    intros [= <- <-]. split; [done|]. by intros ->.
Qed.

Lemma line_end_le (s : bytes) : (line_end s <= length s)%nat.
Proof.
  unfold line_end. pose proof (memchr_ok (length s) s NL) as H. destruct (memchr s NL (length s)); [|lia].
  destruct H as (_ & H & _). lia.
Qed.

Lemma line_end_pos (c : ascii) (s : bytes) : c <> NL -> (0 < line_end (c :: s))%nat.
Proof.
  intros Hc. unfold line_end. pose proof (memchr_ok (length (c :: s)) (c :: s) NL) as H.
  destruct (memchr (c :: s) NL (length (c :: s))) as [[|k]|]; cbn [length]; [|lia..].
  destruct H as ([= E] & _). done.
Qed.

Lemma strndup_id (s : bytes) : c_string s -> strndup s (length s) = s.
Proof.
  induction 1 as [|c s Hc _ IH]; [done|]. cbn [strndup length]. destruct (Z.eqb_spec (b2z c) 0) as [E|_].
  - destruct Hc. by rewrite <- (z2b_b2z c), E.
  - by rewrite IH.
Qed.

Lemma strndup_c_string (s : bytes) : forall n, c_string (strndup s n).
Proof.
  induction s as [|c s IH]; intros [|n]; cbn [strndup]; try constructor.
  destruct (Z.eqb_spec (b2z c) 0) as [E|E]; constructor; [by intros ->|apply IH].
Qed.

(** A run that returns normally, with a property of the result. *)
Definition returns {A} (P : A -> Prop) (m : outcome A) : Prop := match m with Ok a => P a | _ => False end.

(** ** Arguments *)

Lemma get_args_ok (f : nat) : forall cp acc, (length cp <= f)%nat -> c_string cp -> Forall c_string acc ->
  returns (fun a => match a with Some l => Forall c_string l | None => True end) (get_args_loop f cp acc).
Proof.
  induction f as [|f IH]; intros cp acc Hf Hs Ha; cbn [get_args_loop]; destruct cp as [|c cp]; cbn [length] in Hf; try lia; [done|done|].
  destruct (_ =? _)%nat; [done|]. destruct (find_whitespace_suffix (c :: cp)) as [pre Hp].
  set (e := find_whitespace (c :: cp)) in *.
  assert (Hacc : Forall c_string (acc ++ [take (length (c :: cp) - length e) (c :: cp)])).
  { apply Forall_app. split; [done|]. constructor; [by apply Forall_take|done]. }
  assert (He : c_string e) by (eapply suffix_c_string; [by exists pre|done]).
  assert (Hl : (length e <= S (length cp))%nat) by (apply (f_equal length) in Hp; rewrite length_app in Hp; cbn [length] in Hp; lia).
  destruct e as [|d e']; [done|]. cbn [length] in Hl. apply Forall_cons in He as [_ He]. apply IH.
  - pose proof (eat_ws_length false e'). unfold eat_whitespace. lia.
  - eapply suffix_c_string; [apply eat_ws_suffix|done].
  - done.
Qed.

Lemma get_token_arguments_ok (s : bytes) :
  returns (fun a => match a with Some l => Forall c_string l | None => True end) (get_token_arguments s).
Proof. apply get_args_ok; [done|apply strndup_c_string|done]. Qed.

(** ** One token *)

Section token_facts.
Context {ssl : OpenSSL}.

(** What a rule promises about the object. *)
Definition obj_ok (o : obj_syntax) (tok : directory_token) : Prop :=
  match o with
  | NO_OBJ => object_body tok = None /\ key tok = None
  | NEED_OBJ => is_Some (object_body tok)
  | NEED_KEY_1024 => exists k, key tok = Some k /\ crypto_pk_key_is_private k = false /\ crypto_pk_num_bits k = 1024
  | NEED_KEY => exists k, key tok = Some k /\ crypto_pk_key_is_private k = false
  | OBJ_OK => True
  end.

(** The object is there with its size, and a key is the one that the object encodes. *)
Definition object_wf (tok : directory_token) : Prop :=
  (forall b, object_body tok = Some b -> 0 <= object_size tok <= zlen b) /\
  (forall k, key tok = Some k -> exists b, object_body tok = Some b /\
     crypto_pk_asn1_decode (take (Z.to_nat (object_size tok)) b) = Some k).

Definition token_ok (table : list token_rule) (tok : directory_token) : Prop :=
  Forall c_string (args tok) /\ object_wf tok /\
  ((n_args tok = 1 /\ (tp tok = K_OPT \/ tp tok = A_UNKNOWN_)) \/
   exists r, r ∈ table /\ tp tok = r_v r /\ min_args r <= n_args tok <= max_args r /\ obj_ok (os r) tok).

(** Keywords of rules are those of items. *)
Definition table_ok (table : list token_rule) : Prop :=
  Forall (fun r => r_v r <> ERR_ /\ r_v r <> EOF_ /\ r_v r <> NIL_) table.

Lemma find_rule_ok (table : list token_rule) (w : bytes) (r : token_rule) : find_rule table w = Some r -> r ∈ table.
Proof.
  induction table as [|r' table IH]; cbn [find_rule]; [done|]. case_match; [intros [= <-]; by left|]. intros H'. right. by apply IH.
Qed.

(** After [parse_keyword]: everything but the object. *)
Definition keyword_ok (table : list token_rule) (r : directory_token + directory_token * obj_syntax * bytes) : Prop :=
  match r with
  | inl e => tp e = ERR_
  | inr (tok, o, kwd) =>
      Forall c_string (args tok) /\ object_body tok = None /\ key tok = None /\ tp tok <> ERR_ /\
      ((o = OBJ_OK /\ n_args tok = 1 /\ (tp tok = K_OPT \/ tp tok = A_UNKNOWN_)) \/
       exists r, r ∈ table /\ tp tok = r_v r /\ min_args r <= n_args tok <= max_args r /\ o = os r)
  end.

Lemma parse_keyword_ok (table : list token_rule) (line : bytes) : table_ok table ->
  returns (keyword_ok table) (parse_keyword table line).
Proof.
  intros Ht. unfold parse_keyword. destruct (find_rule table (first_word line)) as [r|] eqn:E.
  - apply find_rule_ok in E as Hr. set (l := eat_whitespace_eos_no_nl _).
    assert (Ha : exists a, (if concat_args r then Ok (Some [strndup l (length l)]) else get_token_arguments l) = Ok a /\
      match a with Some x => Forall c_string x | None => True end).
    { destruct (concat_args r).
      - eexists. split; [done|]. constructor; [apply strndup_c_string|done].
      - pose proof (get_token_arguments_ok l) as Hs. destruct (get_token_arguments l) as [a| |]; [by exists a|done..]. }
    destruct Ha as (a & -> & Ha). cbn [obind]. destruct a as [a|]; [|done].
    destruct (Z.ltb_spec (zlen a) (min_args r)); [done|]. destruct (Z.ltb_spec (max_args r) (zlen a)); [done|].
    unfold table_ok in Ht. rewrite Forall_forall in Ht. destruct (Ht r Hr) as (H1 & _).
    cbn. split_and!; [done..|]. right. exists r. unfold n_args. cbn [args]. split_and!; try done; lia.
  - cbn. split_and!; [|done..|by repeat case_match|].
    + constructor; [apply strndup_c_string|done].
    + left. unfold n_args. cbn [args]. split; [done|]. split; [done|]. repeat case_match; auto.
Qed.

(** What [parse_object] leaves: an error, or the same item, with or without an object. *)
Definition object_step (tok : directory_token) (s : bytes) (r : directory_token * bytes) : Prop :=
  let '(tok', s') := r in
  (exists pre, s = pre ++ s') /\
  (tp tok' = ERR_ \/ (tp tok' = tp tok /\ args tok' = args tok /\ object_wf tok')).

Lemma suffix_trans (s t u : bytes) : (exists pre, s = pre ++ t) -> (exists pre, t = pre ++ u) -> exists pre, s = pre ++ u.
Proof. intros [p ->] [q ->]. exists (p ++ q). by rewrite app_assoc. Qed.

Lemma suffix_drop (s : bytes) (k : nat) : exists pre, s = pre ++ drop k s.
Proof. exists (take k s). by rewrite take_drop. Qed.

Lemma parse_object_ok (tok : directory_token) (o : obj_syntax) (s : bytes) : object_body tok = None -> key tok = None ->
  returns (object_step tok s) (parse_object tok o s).
Proof.
  intros Hb Hk. unfold parse_object.
  assert (Hsame : object_step tok s (tok, s)).
  { split; [by exists []|]. right. split; [done|]. split; [done|]. split; [by rewrite Hb|by rewrite Hk]. }
  destruct (memchr s NL (length s)) as [eol|]; [|done]. destruct (_ || _); [done|]. destruct (_ || _ || _ || _).
  { split; [by exists []|by left]. }
  cbn zeta. set (s2 := drop (eol + 1) s). assert (Hs2 : exists pre, s = pre ++ s2) by apply suffix_drop.
  destruct (tor_memmem_ok s2 (bs "-----END ")) as (next & Hn & _); [done|]. unfold tor_memstr. rewrite Hn. cbn [obind].
  destruct next as [next|]; [|by split; [done|left]]. set (tail := drop next s2).
  assert (Htail : exists pre, s = pre ++ drop (line_end tail) tail).
  { eapply suffix_trans; [exact Hs2|]. eapply suffix_trans; [apply suffix_drop|]. apply suffix_drop. }
  destruct (_ || _ || _); [by split; [done|left]|].
  destruct (Z.ltb_spec MAX_UNPARSED_OBJECT_SIZE (Z.of_nat next)) as [|Hsz]; [by split; [done|left]|].
  unfold base64_decode_maxsize. unfold MAX_UNPARSED_OBJECT_SIZE in Hsz.
  rewrite (proj2 (Z.ltb_lt _ _)) by (change (INT_MAX / 3) with 715827882; lia). cbn [tor_assert obind].
  pose proof (base64_decode_within (replicate (Z.to_nat (CEIL_DIV (Z.of_nat next * 3) 4)) NUL) (take next s2)) as Hd.
  destruct (base64_decode _ _) as [[r body]| |]; [|by split; [done|left]|done]. cbn in Hd. destruct Hd as [Hl Hr].
  assert (Hwf : forall k, (forall k', k = Some k' -> crypto_pk_asn1_decode (take (Z.to_nat r) body) = Some k') ->
    object_step tok s ({| tp := tp tok; args := args tok; object_type := Some (strndup (drop 11 s) (eol - 16)); object_size := r;
      object_body := Some body; key := k; error := None |}, drop (line_end tail) tail)).
  { intros k Hk'. split; [done|]. right. split; [done|]. split; [done|]. split.
    - cbn. intros b [= <-]. unfold size, zlen in *. rewrite Hl. lia.
    - cbn. intros k' ->. eauto. }
  destruct (_ =? 0); [|by apply Hwf]. destruct (_ && _ && _); [by split; [done|left]|].
  destruct (crypto_pk_asn1_decode _) as [k|] eqn:Ek; [|by split; [done|left]]. apply Hwf. by intros k' [= <-].
Qed.

Lemma token_check_object_ok (kwd : bytes) (tok : directory_token) (o : obj_syntax) :
  token_check_object kwd tok o = tok /\ obj_ok o tok \/ tp (token_check_object kwd tok o) = ERR_.
Proof.
  destruct o; cbn [token_check_object obj_ok].
  - destruct (object_body tok), (key tok); auto.
  - destruct (object_body tok) eqn:E; [left; split; [done|]|by right]. by eexists.
  - destruct (key tok) as [k|] eqn:E; [|by right]. destruct (Z.eqb_spec (crypto_pk_num_bits k) (PK_BYTES * 8)) as [Eb|]; [|by right].
    cbn [negb]. destruct (crypto_pk_key_is_private k) eqn:Ep; [by right|]. left. split; [done|]. by exists k.
  - destruct (key tok) as [k|] eqn:E; [|by right].
    destruct (crypto_pk_key_is_private k) eqn:Ep; [by right|]. left. split; [done|]. by exists k.
  - by left.
Qed.

(** A token from a range that is not empty: an error, or a token that obeys its rule, and less of the
    range is left. *)
Lemma get_next_token_ok (s : bytes) (table : list token_rule) : table_ok table -> c_string s ->
  returns (fun '(tok, s') => (exists pre, s = pre ++ s') /\
     (tp tok = ERR_ \/ ((length s' < length s)%nat /\ token_ok table tok /\ tp tok <> ERR_))) (get_next_token s table).
Proof.
  intros Ht Hs. unfold get_next_token. cbn zeta. pose proof (eat_ws_suffix false s) as Hsuf. fold (eat_whitespace_eos s) in Hsuf.
  set (s1 := eat_whitespace_eos s) in *. destruct (_ <? _); [by split; [done|left]|].
  destruct (negb _ && _) eqn:Eof; [by split; [done|left]|].
  assert (Hne : s1 <> []).
  { intros E. rewrite E in Eof. cbn in Eof. done. }
  assert (Hpos : (0 < line_end s1)%nat).
  { destruct s1 as [|c t] eqn:E1; [done|]. apply line_end_pos. intros ->. unfold eat_whitespace_eos in E1.
    by destruct (eat_ws_head s false NL t Hs E1) as [H _]. }
  set (line := if mem_eq_token _ _ then _ else _).
  pose proof (parse_keyword_ok table line Ht) as Hk. destruct (parse_keyword table line) as [r| |]; [|done..].
  cbn [returns obind] in Hk |- *. destruct r as [e|[[tok o] kwd]]; [by split; [done|left]|].
  destruct Hk as (Hargs & Hb & Hkey & Htp & Hrule).
  set (s2 := eat_whitespace_eos (drop (line_end s1) s1)).
  pose proof (parse_object_ok tok o s2 Hb Hkey) as Ho. destruct (parse_object tok o s2) as [[tok' s3]| |]; [|done..].
  cbn [returns obind] in Ho |- *. destruct Ho as [Hs3 Hstep].
  assert (Hs13 : exists pre, s = pre ++ s3).
  { eapply suffix_trans; [exact Hsuf|]. eapply suffix_trans; [apply (suffix_drop s1 (line_end s1))|].
    eapply suffix_trans; [apply (eat_ws_suffix false)|]. exact Hs3. }
  destruct Hstep as [He|(Htp' & Ha' & Hwf)]; [rewrite bool_decide_eq_true_2 by done; by split; [done|left]|].
  rewrite bool_decide_eq_false_2 by congruence. cbn [returns]. split; [done|].
  destruct (token_check_object_ok kwd tok' o) as [[-> Hobj]|He]; [|by left]. right. split; [|split; [|congruence]].
  - apply suffix_length in Hs3. apply suffix_length in Hsuf.
    pose proof (eat_ws_length false (drop (line_end s1) s1)) as H. fold (eat_whitespace_eos (drop (line_end s1) s1)) in H.
    fold s2 in H. rewrite length_drop in H. assert (0 < length s1)%nat by (destruct s1; [done|cbn [length]; lia]). lia.
  - split; [by rewrite Ha'|]. split; [done|]. unfold n_args. rewrite Ha', Htp'.
    destruct Hrule as [(-> & Hn & Hk)|(r & Hr & Hv & Hn & ->)]; [by left|right; by exists r].
Qed.

(** ** Documents *)

Definition kw_count (k : directory_keyword) (out : list directory_token) : Z :=
  zlen (filter (fun t => tp t = k) out).

(** [counts] holds the number of each kind of token. *)
Definition counts_ok (counts : list Z) (out : list directory_token) : Prop :=
  length counts = Z.to_nat (kw_num NIL_) /\
  forall k, k <> NIL_ -> aget counts (kw_num k) = Some (kw_count k out).

Lemma kw_num_lt (k : directory_keyword) : k <> NIL_ -> 0 <= kw_num k < kw_num NIL_.
Proof. by destruct k. Qed.

Lemma kw_num_inj (a b : directory_keyword) : kw_num a = kw_num b -> a = b.
Proof. intros H. by rewrite <- (all_keywords_num a), <- (all_keywords_num b), H. Qed.

Lemma kw_count_snoc (k : directory_keyword) (out : list directory_token) (t : directory_token) :
  kw_count k (out ++ [t]) = kw_count k out + if decide (tp t = k) then 1 else 0.
Proof.
  unfold kw_count, zlen. rewrite filter_app, length_app, filter_cons, filter_nil.
  destruct (decide (tp t = k)); cbn [length]; lia.
Qed.

Lemma bump_ok (counts : list Z) (out : list directory_token) (t : directory_token) : counts_ok counts out -> tp t <> NIL_ ->
  returns (fun counts' => counts_ok counts' (out ++ [t])) (bump counts (tp t)).
Proof.
  intros [Hl Hc] Ht. unfold bump. rewrite Hc by done. cbn [get obind]. pose proof (kw_num_lt _ Ht) as Hlt.
  unfold aset. rewrite (proj2 (Z.ltb_ge _ _)), (proj2 (Z.leb_gt _ _)) by lia. cbn [orb returns]. split; [by rewrite length_insert|].
  intros k Hk. rewrite kw_count_snoc. pose proof (kw_num_lt k Hk). apply aget_Some. split; [lia|].
  specialize (Hc k Hk). apply aget_Some in Hc as [_ Hc]. destruct (decide (tp t = k)) as [->|Hne].
  - rewrite list_lookup_insert_eq by lia. done.
  - rewrite list_lookup_insert_ne; [by rewrite Z.add_0_r|]. intros E. apply Hne, kw_num_inj. lia.
Qed.

Lemma bump_all_ok (out : list directory_token) : forall counts done_, counts_ok counts done_ -> Forall (fun t => tp t <> NIL_) out ->
  returns (fun counts' => counts_ok counts' (done_ ++ out)) (bump_all counts out).
Proof.
  induction out as [|t out IH]; intros counts d Hc Ho; cbn [bump_all]; [by rewrite app_nil_r|].
  apply Forall_cons in Ho as [Ht Ho]. pose proof (bump_ok counts d t Hc Ht) as Hb. destruct (bump counts (tp t)) as [c| |]; [|done..].
  cbn [returns obind] in *. rewrite cons_middle, app_assoc. by apply IH.
Qed.

Lemma token_ok_kw (table : list token_rule) (tok : directory_token) : table_ok table -> token_ok table tok -> tp tok <> EOF_ /\ tp tok <> NIL_.
Proof.
  intros Ht (_ & _ & [(_ & [-> | ->])|(r & Hr & -> & _)]); [done..|]. unfold table_ok in Ht. rewrite Forall_forall in Ht.
  destruct (Ht r Hr) as (_ & H1 & H2). done.
Qed.

Lemma tokenize_loop_ok (table : list token_rule) (f : nat) : table_ok table -> forall s last out counts, (length s < f)%nat -> c_string s ->
  counts_ok counts out ->
  safe (fun '(out', counts') => exists toks, out' = out ++ toks /\ Forall (token_ok table) toks /\ counts_ok counts' out')
    (tokenize_loop f s table last out counts).
Proof.
  intros Ht. induction f as [|f IH]; intros s last out counts Hf Hs Hc; [lia|]. cbn [tokenize_loop].
  destruct s as [|c s]; [exists []; by rewrite app_nil_r|]. destruct (match last with Some _ => _ | None => _ end); [exists []; by rewrite app_nil_r|].
  pose proof (get_next_token_ok (c :: s) table Ht Hs) as Hn. destruct (get_next_token (c :: s) table) as [[tok s']| |]; [|done..].
  cbn [returns obind] in *. destruct Hn as [Hsuf Hn]. destruct Hn as [->|(Hl & Htok & Herr)]; [done|].
  rewrite bool_decide_eq_false_2 by done. destruct (token_ok_kw table tok Ht Htok) as [_ Hnil].
  pose proof (bump_ok counts out tok Hc Hnil) as Hb. destruct (bump counts (tp tok)) as [counts'| |]; [|done..]. cbn [returns obind] in *.
  eapply safe_mono; [apply IH|].
  - pose proof (eat_ws_length false s'). unfold eat_whitespace_eos. lia.
  - eapply suffix_c_string; [apply eat_ws_suffix|]. by eapply suffix_c_string.
  - done.
  - intros [out' c'] (toks & -> & Htoks & Hc'). exists (tok :: toks). rewrite <- app_assoc. cbn [app]. split; [done|].
    split; [by constructor|]. by rewrite <- app_assoc in Hc'.
Qed.

(** What the table demands of a document whose first item that is no annotation is at [first]. *)
Definition rule_held (out : list directory_token) (first : nat) (r : token_rule) : Prop :=
  min_cnt r <= kw_count (r_v r) out <= max_cnt r /\
  (Z.land (pos r) AT_START <> 0 -> exists t, out !! first = Some t /\ tp t = r_v r) /\
  (Z.land (pos r) AT_END <> 0 -> exists t, out !! (length out - 1)%nat = Some t /\ tp t = r_v r).

Lemma place_ok (out : list directory_token) (i : nat) (b : bool) (k : directory_keyword) : (out <> [] -> (i < length out)%nat) ->
  safe (fun _ => b = true -> exists t, out !! i = Some t /\ tp t = k)
    (if b then match out with
               | [] => Err
               | _ => let* t := get (out !! i) in if bool_decide (tp t <> k) then Err else Ok tt
               end
     else Ok tt).
Proof.
  intros Hi. destruct b; [|done]. destruct out as [|t0 out]; [done|]. destruct (lookup_lt_is_Some_2 (t0 :: out) i) as [t Ht]; [by apply Hi|].
  rewrite Ht. cbn [get obind]. destruct (decide (tp t = k)) as [E|E].
  - rewrite bool_decide_eq_false_2 by auto. intros _. by exists t.
  - by rewrite bool_decide_eq_true_2.
Qed.

Lemma check_rules_ok (out : list directory_token) (counts : list Z) (first : nat) (table : list token_rule) :
  table_ok table -> counts_ok counts out -> (out <> [] -> (first < length out)%nat) ->
  safe (fun _ => Forall (rule_held out first) table) (check_rules out counts first table).
Proof.
  intros Ht [_ Hc] Hf. induction Ht as [|r table (_ & _ & Hr) _ IH]; cbn [check_rules]; [by cbn|].
  apply (safe_bind (fun _ => rule_held out first r)).
  - unfold check_rule. rewrite (Hc _ Hr). cbn [get obind]. destruct (Z.ltb_spec (kw_count (r_v r) out) (min_cnt r)); [done|].
    destruct (Z.ltb_spec (max_cnt r) (kw_count (r_v r) out)); [done|].
    eapply safe_bind; [apply (place_ok out first (negb (Z.land (pos r) AT_START =? 0)) (r_v r) Hf)|]. intros [] Hstart.
    eapply safe_mono; [apply (place_ok out (length out - 1) (negb (Z.land (pos r) AT_END =? 0)) (r_v r))|].
    { intros Ho. destruct out; [done|]. cbn [length]. lia. }
    intros [] Hend. split; [lia|]. split; intros Hb; [apply Hstart|apply Hend]; by apply negb_true_iff, Z.eqb_neq.
  - intros [] Hheld. eapply safe_mono; [apply IH|]. intros [] H. by constructor.
Qed.

Lemma first_nonannotation_lt (out : list directory_token) (i : nat) : first_nonannotation out = Some i -> (i < length out)%nat.
Proof.
  revert i. induction out as [|t out IH]; intros i; cbn [first_nonannotation]; [done|].
  case_match; [|intros [= <-]; cbn [length]; lia]. destruct (first_nonannotation out) as [j|]; [|done].
  intros [= <-]. cbn [length]. specialize (IH j eq_refl). lia.
Qed.

Definition has_annotation (out : list directory_token) : Prop := exists t, t ∈ out /\ is_annotation_kw (tp t) = true.

Lemma existsb_annotation (out : list directory_token) : existsb (fun t => is_annotation_kw (tp t)) out = false -> ~ has_annotation out.
Proof.
  intros H (t & Ht & Ha). assert (existsb (fun t => is_annotation_kw (tp t)) out = true); [|congruence].
  apply existsb_exists. exists t. split; [by apply list_elem_of_In|done].
Qed.

(** An accepted document: the new tokens obey their rules, and unless checks are off, the whole list obeys
    the table; without TS_ANNOTATIONS_OK there are no annotations. *)
Definition document_ok (table : list token_rule) (flags : Z) (out0 out : list directory_token) : Prop :=
  (exists toks, out = out0 ++ toks /\ Forall (token_ok table) toks) /\
  (flag_set flags TS_NOCHECK = false ->
     exists first, Forall (rule_held out first) table /\
       if flag_set flags TS_ANNOTATIONS_OK then first_nonannotation out = Some first /\ ~ has_annotation (drop first out)
       else first = O /\ ~ has_annotation out).

Lemma tokenize_string_ok (s : bytes) (has_end : bool) (out0 : list directory_token) (table : list token_rule) (flags : Z) :
  table_ok table -> has_end = true \/ c_string s -> Forall (fun t => tp t <> NIL_) out0 ->
  safe (document_ok table flags out0) (tokenize_string s has_end out0 table flags).
Proof.
  intros Ht Hs Ho. unfold tokenize_string. destruct (has_end && _) eqn:En; [done|].
  assert (Hcs : c_string s).
  { destruct Hs as [->|Hs]; [|done]. cbn [andb] in En. pose proof (memchr_ok (length s) s NUL) as Hm.
    destruct (memchr s NUL (length s)); [done|]. apply Forall_lookup. intros i c Hi ->. apply lookup_lt_Some in Hi as Hl. by apply (Hm i). }
  assert (Hc0 : counts_ok (replicate (Z.to_nat (kw_num NIL_)) 0) []).
  { split; [by rewrite length_replicate|]. intros k Hk. apply aget_Some. pose proof (kw_num_lt k Hk). split; [lia|].
    apply lookup_replicate. split; [done|lia]. }
  pose proof (bump_all_ok out0 _ [] Hc0 Ho) as Hb. destruct (bump_all _ out0) as [counts| |]; [|done..]. cbn [returns obind app] in *.
  eapply safe_bind; [apply (tokenize_loop_ok table (S (length s)) Ht s None out0 counts); [lia|done|done]|].
  intros [out counts'] (toks & -> & Htoks & Hc'). set (out := out0 ++ toks) in *.
  assert (Hdoc : exists t, out = out0 ++ t /\ Forall (token_ok table) t) by (by exists toks).
  destruct (flag_set flags TS_NOCHECK) eqn:Ef; [split; [done|by rewrite Ef]|].
  eapply (safe_bind (fun first => (out <> [] -> (first < length out)%nat) /\
     if flag_set flags TS_ANNOTATIONS_OK then first_nonannotation out = Some first /\ ~ has_annotation (drop first out)
     else first = O /\ ~ has_annotation out)).
  - destruct (flag_set flags TS_ANNOTATIONS_OK).
    + destruct (first_nonannotation out) as [i|] eqn:Ei; [|done]. apply first_nonannotation_lt in Ei as Hi.
      destruct (existsb _ _) eqn:Ex; [done|]. clear En. destruct (_ && _); [done|]. cbn. apply existsb_annotation in Ex. split; [by intros _|exact (conj eq_refl Ex)].
    + destruct (existsb _ _) eqn:Ex; [done|]. cbn. apply existsb_annotation in Ex. split; [|done].
      intros Hne. destruct out; [done|]. cbn [length]. lia.
  - intros first [Hf Hann]. eapply safe_bind; [by apply check_rules_ok|]. intros [] Hr. cbn. split; [done|]. intros _. by exists first.
Qed.

(** *** Looking up *)

Lemma find_opt_by_keyword_count (out : list directory_token) (k : directory_keyword) :
  match find_opt_by_keyword out k with
  | Some t => tp t = k /\ t ∈ out
  | None => kw_count k out = 0
  end.
Proof.
  induction out as [|t out IH]; cbn [find_opt_by_keyword]; [done|]. destruct (decide (tp t = k)) as [E|E].
  - rewrite bool_decide_eq_true_2 by done. split; [done|by left].
  - rewrite bool_decide_eq_false_2 by done. destruct (find_opt_by_keyword out k) as [t'|].
    + destruct IH as [IH1 IH2]. split; [done|by right].
    + unfold kw_count in *. rewrite filter_cons_False by done. done.
Qed.

Lemma find_by_keyword_ok (out : list directory_token) (k : directory_keyword) : 1 <= kw_count k out ->
  exists t, find_by_keyword out k = Ok t /\ tp t = k /\ t ∈ out.
Proof.
  intros Hc. pose proof (find_opt_by_keyword_count out k) as H. unfold find_by_keyword.
  destruct (find_opt_by_keyword out k) as [t|]; [|lia]. by exists t.
Qed.

(** C6: on any text the tokenizer ends, stays inside its buffers and passes its assertions: either it refuses the text, or every new
    token obeys the rule of its keyword (number of arguments, kind of object), the document obeys the counts and the places of the
    table, and the lookup of an item that the table requires cannot fail. *)
Theorem tokenize_string_contract (s : bytes) (has_end : bool) (out0 : list directory_token) (table : list token_rule) (flags : Z) :
  table_ok table -> has_end = true \/ c_string s -> Forall (fun t => tp t <> NIL_) out0 ->
  tokenize_string s has_end out0 table flags = Err \/
  exists out, tokenize_string s has_end out0 table flags = Ok out /\ document_ok table flags out0 out /\
    (flag_set flags TS_NOCHECK = false -> forall r, r ∈ table -> 1 <= min_cnt r ->
       exists t, find_by_keyword out (r_v r) = Ok t /\ tp t = r_v r /\ t ∈ out).
Proof.
  intros Ht Hs Ho. pose proof (tokenize_string_ok s has_end out0 table flags Ht Hs Ho) as H.
  destruct (tokenize_string s has_end out0 table flags) as [out| |]; [right|by left|done]. exists out. split; [done|]. split; [done|].
  intros Hf r Hr Hc. destruct H as [_ H]. destruct (H Hf) as (first & Hheld & _). rewrite Forall_forall in Hheld.
  apply find_by_keyword_ok. destruct (Hheld r Hr) as [Hk _]. lia.
Qed.

End token_facts.

(** A made-up RSA library, whose keys are their encodings. *)
Definition toy_ssl : OpenSSL :=
  {| RSA := bytes; d2i_RSAPublicKey := Some; i2d_RSAPublicKey := Some; RSA_n _ := 0; RSA_e _ := 65537;
     RSA_has_p _ := false; RSA_bits _ := 1024; RSA_size _ := 128 |}.

(** Two rules; the text is accepted, and the one without its required item is not. *)
Definition toy_table : list token_rule := [T1_START "r" K_R (GE 2) NO_OBJ; T01 "id" K_ID (EQ 1) NO_OBJ].
Lemma tokenize_string_contract_witness :
  let tokenize s := @tokenize_string toy_ssl s true [] toy_table 0 in
  tp <$> match tokenize (bs "r one two" ++ [NL] ++ bs "id x" ++ [NL]) with Ok l => l | _ => [] end = [K_R; K_ID] /\
  tokenize (bs "id x" ++ [NL]) = Err /\
  (tokenize (bs "r one two" ++ [NL]) = Err \/
   exists out, tokenize (bs "r one two" ++ [NL]) = Ok out /\ @document_ok toy_ssl toy_table 0 [] out /\
    (flag_set 0 TS_NOCHECK = false -> forall r, r ∈ toy_table -> 1 <= min_cnt r ->
       exists t, find_by_keyword out (r_v r) = Ok t /\ tp t = r_v r /\ t ∈ out)).
Proof.
  cbn zeta. split; [vm_compute; reflexivity|]. split; [vm_compute; reflexivity|].
  apply tokenize_string_contract; [by repeat constructor|by left|constructor].
Defined.
