(* ===== verification/Gsri.v ===== *)
(** * The GSRI: what a relay publishes and what a client parses

    [router_upload_descriptor_to_blockchain] of [feature/relay/router.c] writes a relay's entry (SRI);
    the concatenation of the entries is the document (GSRI) that a client parses as its consensus,
    with [feature/dirparse/ns_parse.c]. A consensus entry is the part of [routerstatus_t] that the
    parser sets; the protocol summary flags are not included. *)
From S2P Require Import Prelude ParseInt Strings Smartutil Binascii Inaddr Address PolicySummary CryptoRsa CryptoFormat ParseCommon.

(** ** Publishing *)

(** [tor_addr_to_str] and [fmt_addr_impl]; [Err] is NULL. *)
Definition TOR_ADDR_BUF_LEN : Z := 48.
Definition tor_addr_to_str (addr : tor_addr) (len : Z) (decorate : bool) : outcome bytes :=
  match addr with
  | TA_INET _ => if len <? 8 then Err else tor_inet_ntop addr len
  | TA_INET6 _ =>
      if len <? 3 + (if decorate then 2 else 0) then Err
      else if decorate then let* s := tor_inet_ntop addr (len - 2) in Ok (bs "[" ++ s ++ bs "]")
      else tor_inet_ntop addr len
  | TA_UNIX _ => let s := bs "AF_UNIX" in Ok (if len <=? zlen s then take (Z.to_nat (len - 1)) s else s)
  | TA_UNSPEC => Err
  end.
Definition fmt_addr_impl (addr : option tor_addr) (decorate : bool) : outcome bytes :=
  match addr with
  | None => Ok (bs "<null>")
  | Some a =>
      match tor_addr_to_str a TOR_ADDR_BUF_LEN decorate with
      | Ok s => Ok s
      | Err => Ok (bs "???")
      | Stuck => Stuck
      end
  end.

(** [sprintf] into a buffer of [size] bytes: too long a text overruns it. *)
Definition sprintf (size : Z) (text : bytes) : outcome bytes := if size <=? zlen text then Stuck else Ok text.

Section gsri.
Context {ssl : OpenSSL}.

(** What the function reads of a [routerinfo_t]; [onion_pkey] is the ASN.1 form of the key. *)
Record routerinfo := {
  ri_nickname : bytes; ri_identity_digest : bytes; ri_ipv4_addr : tor_addr; ri_ipv4_orport : Z;
  ri_onion_pkey : bytes; ri_onion_curve25519_pkey : bytes; ri_signing_key : bytes
}.

Definition router_get_rsa_onion_pkey (pkey : bytes) : option crypto_pk :=
  match pkey with [] => None | _ => crypto_pk_asn1_decode pkey end.

(** The entry in [str\[1024\]]. *)
Definition router_sri (ri : routerinfo) : outcome bytes :=
  let* reslen := base64_encode_size (Z.of_nat DIGEST_LEN) 0 in
  let* rsa_pubkey := get (router_get_rsa_onion_pkey (ri_onion_pkey ri)) in
  let* onion_pkey := match crypto_pk_write_public_key_to_string rsa_pubkey with Ok s => Ok s | _ => Stuck end in
  let* (n, kbuf) := match base64_encode (replicate 128 NUL) (ri_onion_curve25519_pkey ri) BASE64_ENCODE_MULTILINE with
                    | Ok r => Ok r | _ => Stuck end in
  let kbuf := take (Z.to_nat n) kbuf in
  let* ed_fp_base64 := ed25519_public_to_base64 (ri_signing_key ri) in
  let* (n, result) := match base64_encode_nopad (replicate (Z.to_nat (reslen + 1)) NUL) (ri_identity_digest ri) with
                      | Ok r => Ok r | _ => Stuck end in
  if 0 <? n then
    let result := take (Z.to_nat n) result in
    let* addr := fmt_addr_impl (Some (ri_ipv4_addr ri)) false in
    sprintf 1024 (bs "r " ++ ri_nickname ri ++ bs " " ++ result ++ bs " " ++ addr ++ bs " " ++ print_int (ri_ipv4_orport ri) ++ [NL] ++
                  bs "onion-key" ++ [NL] ++ onion_pkey ++
                  bs "ntor-onion-key " ++ kbuf ++
                  bs "id ed25519 " ++ ed_fp_base64 ++ [NL])
  else Stuck.

(** ** Parsing one entry *)

Definition rtrstatus_token_table : list token_rule :=
  [T1 "r" K_R (GE 4) NO_OBJ;
   T1 "onion-key" K_ONION_KEY NO_ARGS NEED_KEY_1024;
   T01 "ntor-onion-key" K_ONION_KEY_NTOR (GE 1) NO_OBJ;
   T0N "id" K_ID (GE 2) NO_OBJ].

Inductive consensus_flavor := FLAV_NS | FLAV_MICRODESC.
#[global] Instance consensus_flavor_eq_dec : EqDecision consensus_flavor.
Proof. solve_decision. Defined.

Definition networkstatus_parse_flavor_name (flavname : bytes) : option consensus_flavor :=
  if strcmp flavname (bs "ns") =? 0 then Some FLAV_NS
  else if strcmp flavname (bs "microdesc") =? 0 then Some FLAV_MICRODESC
  else None.

Record microdesc := {
  md_onion_pkey : bytes; md_onion_curve25519_pkey : option bytes; md_ed25519_identity_pkey : option bytes;
  md_exit_policy : option short_policy
}.
Record routerstatus := {
  rs_nickname : bytes; rs_identity_digest : bytes; rs_ipv4_addr : tor_addr; rs_ipv4_orport : Z; rs_md : microdesc;
  is_exit : bool; is_stable : bool; is_fast : bool; is_flagged_running : bool; is_named : bool; is_valid : bool;
  is_possible_guard : bool; is_hs_dir : bool; is_v2_dir : bool;
  has_bandwidth : bool; bw_is_unmeasured : bool; bandwidth_kb : Z
}.

(** The offset of the next entry, of the footer, or the length. *)
Definition find_start_of_next_routerstatus (s : bytes) : outcome nat :=
  let* e := tor_memstr s (NL :: bs "r ") in
  let eos := match e with Some e => S e | None => length s end in
  let* footer := tor_memstr (take eos s) (NL :: bs "directory-footer") in
  let* sig := tor_memstr (take eos s) (NL :: bs "directory-signature") in
  match footer, sig with
  | Some f, Some g => Ok (Nat.min f g + 1)%nat
  | Some f, None => Ok (f + 1)%nat
  | None, Some g => Ok (g + 1)%nat
  | None, None => Ok eos
  end.

(** The keys on the id lines; [Err] is [goto err]. *)
Fixpoint parse_id_lines (id_lines : list directory_token) (k : option bytes) : outcome (option bytes) :=
  match id_lines with
  | t :: rest =>
      tor_assert (2 <=? n_args t) (
      let* a0 := get (aget (args t) 0) in
      if strcmp a0 (bs "ed25519") =? 0 then
        match k with
        | Some _ => Err
        | None =>
            let* a1 := get (aget (args t) 1) in
            let* k := ed25519_public_from_base64 a1 in
            parse_id_lines rest (Some k)
        end
      else parse_id_lines rest k)
  | [] => Ok k
  end.


(** The entry that the tokens make; [Err] is [goto err]. *)
Definition routerstatus_from_tokens (tokens : list directory_token) (flav : consensus_flavor) : outcome routerstatus :=
  match tokens with
  | [] => Err
  | _ =>
      let* tok := find_by_keyword tokens K_R in
      tor_assert (4 <=? n_args tok) (
      if bool_decide (flav = FLAV_NS) && (n_args tok <? 8) then Err
      else
        let offset := match flav with FLAV_MICRODESC => -1 | FLAV_NS => 0 end in
        let* nickname := get (aget (args tok) 0) in
        if negb (is_legal_nickname nickname) then Err
        else
          let* a1 := get (aget (args tok) 1) in
          let* identity_digest := digest_from_base64 a1 in
          let* a3 := get (aget (args tok) (3 + offset)) in
          let* addr := tor_inet_aton a3 in
          match addr with
          | None => Err
          | Some addr =>
              let* a4 := get (aget (args tok) (4 + offset)) in
              let orport := wrap 16 (p_val (tor_parse_long a4 10 0 65535 false)) in
              let* tok := find_by_keyword tokens K_ONION_KEY in
              let* k := get (key tok) in
              if negb (crypto_pk_public_exponent_ok k) then Err
              else
                let* body := get (object_body tok) in
                let onion_pkey := take (Z.to_nat (object_size tok)) body in
                let* ntor :=
                  match find_opt_by_keyword tokens K_ONION_KEY_NTOR with
                  | None => Ok None
                  | Some tok =>
                      tor_assert (1 <=? n_args tok) (
                      let* a := get (aget (args tok) 0) in
                      let* k := curve25519_public_from_base64 a in Ok (Some k))
                  end in
                let* ed :=
                  match find_all_by_keyword tokens K_ID with
                  | None => Ok None
                  | Some id_lines => parse_id_lines id_lines None
                  end in
                let* exit_policy := match parse_short_policy (bs "accept 1-65535") with
                                    | Ok p => Ok (Some p) | Err => Ok None | Stuck => Stuck end in
                let* eq := get (strchr (bs "Bandwidth=1") "=") in
                let bw := tor_parse_ulong (drop 1 eq) 10 0 UINT32_MAX false in
                if negb (p_ok bw) then Err
                else
                  Ok {| rs_nickname := nickname; rs_identity_digest := identity_digest;
                        rs_ipv4_addr := TA_INET addr; rs_ipv4_orport := orport;
                        rs_md := {| md_onion_pkey := onion_pkey; md_onion_curve25519_pkey := ntor;
                                    md_ed25519_identity_pkey := ed; md_exit_policy := exit_policy |};
                        is_exit := true; is_stable := true; is_fast := true; is_flagged_running := true;
                        is_named := false; is_valid := true; is_possible_guard := true; is_hs_dir := true;
                        is_v2_dir := true; has_bandwidth := true; bw_is_unmeasured := true;
                        bandwidth_kb := wrap 32 (p_val bw) |}
          end)
  end.

(** For a consensus, that is without a vote: the entry, [None] for NULL, and where [*s] is left. *)
Definition routerstatus_parse_entry_from_string (s : bytes) (consensus_method : Z) (flav : consensus_flavor)
    : outcome (option routerstatus * bytes) :=
  let flav := if consensus_method =? 0 then FLAV_NS else flav in
  let* eos := find_start_of_next_routerstatus s in
  let r := let* tokens := tokenize_string (take eos s) true [] rtrstatus_token_table 0 in
           routerstatus_from_tokens tokens flav in
  match r with
  | Ok rs => Ok (Some rs, drop eos s)
  | Err => Ok (None, drop eos s)
  | Stuck => Stuck
  end.

(** ** Parsing the document *)

Inductive networkstatus_type := NS_TYPE_VOTE | NS_TYPE_CONSENSUS | NS_TYPE_OPINION.
#[global] Instance networkstatus_type_eq_dec : EqDecision networkstatus_type.
Proof. solve_decision. Defined.

Record networkstatus := {
  ns_type : networkstatus_type; ns_flavor : consensus_flavor; valid_after : Z; fresh_until : Z; valid_until : Z;
  ns_consensus_method : Z; recommended_client_protocols : bytes; recommended_relay_protocols : bytes;
  required_client_protocols : bytes; required_relay_protocols : bytes;
  known_flags : list bytes; weight_params : list bytes; routerstatus_list : list routerstatus
}.

Definition gsri_flags : list bytes :=
  bs <$> ["Authority"; "Exit"; "Fast"; "Guard"; "HSDir"; "NoEdConsensus"; "Running"; "Stable"; "StaleDesc"; "V2Dir"; "Valid"]%string.
Definition gsri_weights : list bytes :=
  bs <$> ["Wbd=3333"; "Wbe=0"; "Wbg=0"; "Wbm=10000"; "Wdb=10000"; "Web=10000"; "Wed=3333"; "Wee=10000"; "Weg=3333"; "Wem=10000";
          "Wgb=10000"; "Wgd=3333"; "Wgg=10000"; "Wgm=10000"; "Wmb=10000"; "Wmd=3333"; "Wme=0"; "Wmg=0"; "Wmm=10000"]%string.

(** Whether each flag is after the one before it. *)
Fixpoint flags_in_order (flags : list bytes) : bool :=
  match flags with
  | a :: (b :: _) as rest => (strcmp a b <? 0) && flags_in_order rest
  | _ => true
  end.


(** The loop over the weights; [Err] is [goto err]. *)
Fixpoint check_weights (bw : list bytes) : outcome unit :=
  match bw with
  | w :: rest =>
      match strchr w "=" with
      | None => Err
      | Some eq => if negb (p_ok (tor_parse_long (drop 1 eq) 10 INT32_MIN INT32_MAX false)) then Err else check_weights rest
      end
  | [] => Ok tt
  end.

(** The loop over the entries; [Err] is [goto err]. *)
Fixpoint parse_entries_loop (fuel : nat) (s : bytes) (consensus_method : Z) (flav : consensus_flavor) (acc : list routerstatus)
    : outcome (list routerstatus) :=
  if (2 <=? length s)%nat && fast_memeq s (bs "r ") 2 then
    match fuel with
    | O => Stuck
    | S f =>
        let* (rs, s) := routerstatus_parse_entry_from_string s consensus_method flav in
        match rs with
        | None => Err
        | Some rs => parse_entries_loop f s consensus_method flav (acc ++ [rs])
        end
    end
  else Ok acc.

(** [None] is NULL. *)
Definition networkstatus_parse_vote_from_string (s : bytes) (type : networkstatus_type) : outcome (option networkstatus) :=
  let r :=
    match networkstatus_parse_flavor_name (bs "microdesc") with
    | None => Err
    | Some flav =>
        if bool_decide (type <> NS_TYPE_CONSENSUS) then Err
        else if negb (flags_in_order gsri_flags) then Err
        else
          let* l := parse_entries_loop (S (length s)) s 29 flav [] in
          let* _ := check_weights gsri_weights in
          Ok {| ns_type := NS_TYPE_CONSENSUS; ns_flavor := flav; valid_after := 0; fresh_until := 0; valid_until := 0;
                ns_consensus_method := 29;
                recommended_client_protocols := bs "Cons=1-2 Desc=1-2 DirCache=1 HSDir=1 HSIntro=3 HSRend=1 Link=4 Microdesc=1-2 Relay=2";
                recommended_relay_protocols := bs "Cons=1-2 Desc=1-2 DirCache=1 HSDir=1 HSIntro=3 HSRend=1 Link=4 Microdesc=1-2 Relay=2";
                required_client_protocols := bs "Cons=1-2 Desc=1-2 DirCache=1 HSDir=1 HSIntro=3 HSRend=1 Link=4 Microdesc=1-2 Relay=2";
                required_relay_protocols := bs "Cons=1 Desc=1 DirCache=1 HSDir=1 HSIntro=3 HSRend=1 Link=3-4 Microdesc=1 Relay=1-2";
                known_flags := gsri_flags; weight_params := gsri_weights; routerstatus_list := l |}
    end in
  match r with Ok ns => Ok (Some ns) | Err => Ok None | Stuck => Stuck end.

End gsri.
