(* ===== verification/GsriFacts.v ===== *)
(** * The GSRI on any input

    Whatever bytes a client gets as its consensus, the parser ends and stays within its arrays and
    assertions, and the entries that it accepts are well formed. *)
From stdpp Require Import gmap.
From S2P Require Import Prelude ParseInt Strings Smartutil Binascii Inaddr InaddrFacts InaddrSafe Address PolicySummary CryptoRsa CryptoFormat ParseCommon ParseFacts Gsri.

Section gsri_any.
Context {ssl : OpenSSL}.

(** What every entry of a parsed consensus satisfies. *)
Definition rs_ok (rs : routerstatus) : Prop :=
  is_legal_nickname (rs_nickname rs) = true /\ length (rs_identity_digest rs) = DIGEST_LEN /\
  (exists v, rs_ipv4_addr rs = TA_INET v /\ 0 <= v < 2 ^ 32) /\ 0 <= rs_ipv4_orport rs <= 65535 /\
  (exists k, crypto_pk_asn1_decode (md_onion_pkey (rs_md rs)) = Some k /\ crypto_pk_num_bits k = 1024 /\
     crypto_pk_public_exponent_ok k = true /\ crypto_pk_key_is_private k = false) /\
  (forall k, md_onion_curve25519_pkey (rs_md rs) = Some k -> length k = CURVE25519_PUBKEY_LEN) /\
  (forall k, md_ed25519_identity_pkey (rs_md rs) = Some k -> length k = DIGEST256_LEN).

(** ** Keys *)

Lemma from_base64_safe (len : nat) (s : bytes) : safe (fun d => length d = len) (from_base64 len s).
Proof.
  unfold from_base64. pose proof (base64_decode_within (replicate len NUL) s) as H.
  destruct (base64_decode _ s) as [[n d]| |]; [|done|done]. cbn in *. destruct H as [H _]. rewrite length_replicate in H.
  by case_match.
Qed.

Lemma curve25519_from_base64_safe (s : bytes) : safe (fun k => length k = CURVE25519_PUBKEY_LEN) (curve25519_public_from_base64 s).
Proof.
  unfold curve25519_public_from_base64. destruct (_ =? _)%nat; [apply from_base64_safe|]. destruct (_ =? _)%nat; [|done].
  pose proof (base64_decode_within (replicate (CURVE25519_BASE64_PADDED_LEN + 1) NUL) s) as H.
  destruct (base64_decode _ s) as [[n d]| |]; [|done|done]. cbn [decodes_within obind] in *. destruct H as [H _]. rewrite length_replicate in H.
  case_match; [|done]. cbn. unfold CURVE25519_PUBKEY_LEN, CURVE25519_BASE64_PADDED_LEN in *. rewrite length_take. lia.
Qed.

(** ** Tokens of an entry *)

Lemma rtrstatus_table_ok : table_ok rtrstatus_token_table.
Proof. repeat (constructor; [done|]). constructor. Qed.

Lemma held_count (tokens : list directory_token) (first : nat) (r : token_rule) : Forall (rule_held tokens first) rtrstatus_token_table ->
  r ∈ rtrstatus_token_table -> min_cnt r <= kw_count (r_v r) tokens <= max_cnt r.
Proof. rewrite Forall_forall. intros H Hr. by destruct (H r Hr). Qed.

(** The rule of a token is the only one with its keyword. *)
Lemma token_rule_of (tok : directory_token) (r : token_rule) : token_ok rtrstatus_token_table tok -> r ∈ rtrstatus_token_table -> tp tok = r_v r ->
  min_args r <= n_args tok /\ obj_ok (os r) tok.
Proof.
  intros (_ & _ & H) Hr Ht. destruct H as [(_ & H)|(r' & Hr' & Ht' & Ha & Ho)].
  - exfalso. rewrite Ht in H. unfold rtrstatus_token_table in Hr. rewrite !elem_of_cons, elem_of_nil in Hr.
    destruct Hr as [E|[E|[E|[E|[]]]]]; rewrite E in H; cbn in H; destruct H; discriminate.
  - assert (r' = r) as ->; [|split; [lia|done]]. assert (E : r_v r' = r_v r) by congruence. clear -Hr Hr' E.
    unfold rtrstatus_token_table in *. rewrite !elem_of_cons, elem_of_nil in Hr, Hr'.
    destruct Hr as [F|[F|[F|[F|[]]]]], Hr' as [G|[G|[G|[G|[]]]]]; rewrite F, G in E |- *; cbn in E; (discriminate E || done).
Qed.

Lemma arg_get (tok : directory_token) (i n : Z) : n <= n_args tok -> 0 <= i < n ->
  exists a, aget (args tok) i = Some a.
Proof. unfold n_args, zlen. intros H Hi. destruct (aget_lt (args tok) i) as (a & Ha & _); [lia|]. by exists a. Qed.

Lemma parse_id_lines_safe (l : list directory_token) : Forall (fun t => 2 <= n_args t) l -> forall k,
  (forall x, k = Some x -> length x = DIGEST256_LEN) ->
  safe (fun k => forall x, k = Some x -> length x = DIGEST256_LEN) (parse_id_lines l k).
Proof.
  induction 1 as [|t l Ht _ IH]; intros k Hk; cbn [parse_id_lines]; [done|]. rewrite (proj2 (Z.leb_le _ _)) by done. cbn [tor_assert].
  destruct (arg_get t 0 2) as (a0 & ->); [done|lia|]. cbn [get obind]. destruct (_ =? 0); [|by apply IH].
  destruct k as [k|]; [done|]. destruct (arg_get t 1 2) as (a1 & ->); [done|lia|]. cbn [get obind].
  eapply safe_bind; [apply (from_base64_safe DIGEST256_LEN)|]. intros d Hd. apply IH. by intros x [= <-].
Qed.

Lemma find_all_elem (l : list directory_token) (k : directory_keyword) (l' : list directory_token) : find_all_by_keyword l k = Some l' ->
  forall t, t ∈ l' -> t ∈ l /\ tp t = k.
Proof.
  unfold find_all_by_keyword. destruct (List.filter _ l) as [|x f] eqn:E; [done|]. intros [= <-] t Ht. rewrite <- E in Ht.
  apply list_elem_of_In, filter_In in Ht as [H1 H2]. apply bool_decide_eq_true in H2. split; [by apply list_elem_of_In|done].
Qed.

Lemma exit_policy_ok : exists p, parse_short_policy (bs "accept 1-65535") = Ok p.
Proof. eexists. vm_compute. reflexivity. Qed.

Lemma R_r : T1 "r" K_R (GE 4) NO_OBJ ∈ rtrstatus_token_table. Proof. by left. Qed.
Lemma R_onion : T1 "onion-key" K_ONION_KEY NO_ARGS NEED_KEY_1024 ∈ rtrstatus_token_table. Proof. right. by left. Qed.
Lemma R_ntor : T01 "ntor-onion-key" K_ONION_KEY_NTOR (GE 1) NO_OBJ ∈ rtrstatus_token_table. Proof. right. right. by left. Qed.
Lemma R_id : T0N "id" K_ID (GE 2) NO_OBJ ∈ rtrstatus_token_table. Proof. right. right. right. by left. Qed.

Lemma from_tokens_safe (tokens : list directory_token) (flav : consensus_flavor) : document_ok rtrstatus_token_table 0 [] tokens ->
  safe rs_ok (routerstatus_from_tokens tokens flav).
Proof.
  intros [(toks & -> & Htoks) Hdoc]. cbn [app] in *. destruct (Hdoc eq_refl) as (first & Hheld & _). clear Hdoc. rewrite Forall_forall in Htoks.
  unfold routerstatus_from_tokens. destruct toks as [|t0 toks'] eqn:Etoks; [done|]. rewrite <- Etoks in *. clear Etoks t0 toks'.
  destruct (find_by_keyword_ok toks K_R) as (tr & -> & Htr & Hin).
  { pose proof (held_count toks first _ Hheld R_r) as H. cbn in H. lia. }
  cbn [obind]. destruct (token_rule_of tr _ (Htoks tr Hin) R_r Htr) as [Hn _]. cbn [min_args T1 mk_rule GE] in Hn.
  rewrite (proj2 (Z.leb_le _ _)) by done. cbn [tor_assert]. destruct (_ && _) eqn:E8; [done|].
  destruct (arg_get tr 0 4) as (a0 & ->); [done|lia|]. cbn [get obind]. destruct (is_legal_nickname a0) eqn:Enick; [|done]. cbn [negb].
  destruct (arg_get tr 1 4) as (a1 & ->); [done|lia|]. cbn [get obind].
  eapply safe_bind; [apply (from_base64_safe DIGEST_LEN)|]. intros dig Hdig.
  set (offset := match flav with FLAV_MICRODESC => -1 | FLAV_NS => 0 end).
  assert (Hoff : exists n, n <= n_args tr /\ 4 + offset < n /\ 0 <= 3 + offset).
  { destruct flav; cbn in E8 |- *.
    - exists 8. rewrite andb_true_l in E8 || idtac. lia.
    - exists 4. lia. }
  destruct Hoff as (n & Hn' & H4 & H3). destruct (arg_get tr (3 + offset) n) as (a3 & ->); [done|lia|]. cbn [get obind].
  destruct (aton_safe a3) as (r & -> & Hr). cbn [obind]. destruct r as [addr|]; [|done]. specialize (Hr addr eq_refl).
  destruct (arg_get tr (4 + offset) n) as (a4 & ->); [done|lia|]. cbn [get obind].
  destruct (find_by_keyword_ok toks K_ONION_KEY) as (tk & -> & Htk & Hink).
  { pose proof (held_count toks first _ Hheld R_onion) as H. cbn in H. lia. }
  cbn [obind]. destruct (token_rule_of tk _ (Htoks tk Hink) R_onion Htk) as [_ Hobj]. cbn [os T1 mk_rule NO_ARGS obj_ok] in Hobj.
  destruct Hobj as (k & Hkey & Hpriv & Hbits). rewrite Hkey. cbn [get obind].
  destruct (crypto_pk_public_exponent_ok k) eqn:Eexp; [|done]. cbn [negb].
  destruct (Htoks tk Hink) as (_ & [_ Hwf] & _). destruct (Hwf k Hkey) as (body & -> & Hdec). cbn [get obind].
  apply (safe_bind (fun ntor => forall x, ntor = Some x -> length x = CURVE25519_PUBKEY_LEN)).
  { pose proof (find_opt_by_keyword_count toks K_ONION_KEY_NTOR) as Hf. destruct (find_opt_by_keyword toks K_ONION_KEY_NTOR) as [tn|]; [|done].
    destruct Hf as [Htn Hinn]. destruct (token_rule_of tn _ (Htoks tn Hinn) R_ntor Htn) as [Hnn _]. cbn [min_args T01 mk_rule GE] in Hnn.
    rewrite (proj2 (Z.leb_le _ _)) by done. cbn [tor_assert]. destruct (arg_get tn 0 1) as (an & ->); [done|lia|]. cbn [get obind].
    eapply safe_bind; [apply curve25519_from_base64_safe|]. intros kk Hkk. cbn. by intros x [= <-]. }
  intros ntor Hntor. apply (safe_bind (fun ed => forall x, ed = Some x -> length x = DIGEST256_LEN)).
  { destruct (find_all_by_keyword toks K_ID) as [ids|] eqn:Eids; [|done]. apply parse_id_lines_safe; [|done].
    apply Forall_forall. intros t Ht. destruct (find_all_elem toks K_ID ids Eids t Ht) as [Hti Htp].
    by destruct (token_rule_of t _ (Htoks t Hti) R_id Htp) as [H _]. }
  intros ed Hed. destruct exit_policy_ok as (p & ->). cbn [obind].
  change (get (strchr (bs "Bandwidth=1") "=")) with (Ok (bs "=1")). cbn [obind].
  change (p_ok (tor_parse_ulong (drop 1 (bs "=1")) 10 0 UINT32_MAX false)) with true. cbn [negb safe].
  split; [done|]. split; [done|]. split; [by exists addr|]. split; [|split; [|split; [done|done]]].
  - cbn [rs_ipv4_orport]. unfold wrap. pose proof (Z.mod_pos_bound (p_val (tor_parse_long a4 10 0 65535 false)) (2 ^ 16) ltac:(done)). lia.
  - exists k. cbn [rs_md md_onion_pkey]. by rewrite Hdec.
Qed.

(** ** The document *)

Lemma memstr_bound (s needle : bytes) (p : nat) : needle <> [] -> tor_memstr s needle = Ok (Some p) -> (p + length needle <= length s)%nat.
Proof.
  intros Hn H. destruct (tor_memmem_ok s needle Hn) as (r & Hr & Hp). unfold tor_memstr in H. rewrite Hr in H.
  injection H as ->. by destruct Hp as [[Hp _] _].
Qed.

Lemma memstr_total (s needle : bytes) : needle <> [] -> exists r, tor_memstr s needle = Ok r.
Proof. intros Hn. destruct (tor_memmem_ok s needle Hn) as (r & Hr & _). by exists r. Qed.

Lemma find_start_ok (s : bytes) : s <> [] -> exists eos, find_start_of_next_routerstatus s = Ok eos /\ (1 <= eos <= length s)%nat.
Proof.
  intros Hs. unfold find_start_of_next_routerstatus. assert (Hpos : (1 <= length s)%nat) by (destruct s; [done|cbn; lia]).
  destruct (memstr_total s (NL :: bs "r ")) as [e He]; [done|]. rewrite He. cbn [obind].
  set (eos := match e with Some e => S e | None => length s end).
  assert (Heos : (1 <= eos <= length s)%nat).
  { unfold eos. destruct e as [e|]; [|lia]. apply memstr_bound in He; [|done]. cbn in He. lia. }
  destruct (memstr_total (take eos s) (NL :: bs "directory-footer")) as [f Hf]; [done|].
  destruct (memstr_total (take eos s) (NL :: bs "directory-signature")) as [g Hg]; [done|]. rewrite Hf, Hg. cbn [obind].
  assert (Hb : forall x n, n <> [] -> tor_memstr (take eos s) n = Ok (Some x) -> (x + 1 <= length s)%nat).
  { intros x n Hn H. apply memstr_bound in H; [|done]. rewrite length_take in H. destruct n; [done|]. cbn [length] in H. lia. }
  destruct f as [f|], g as [g|]; eexists; (split; [done|]); try apply Hb in Hf; try apply Hb in Hg; try done; lia.
Qed.

Lemma parse_entry_ok (s : bytes) (m : Z) (flav : consensus_flavor) : s <> [] ->
  exists rs s', routerstatus_parse_entry_from_string s m flav = Ok (rs, s') /\ (length s' < length s)%nat /\
    forall r, rs = Some r -> rs_ok r.
Proof.
  intros Hs. unfold routerstatus_parse_entry_from_string. destruct (find_start_ok s Hs) as (eos & -> & Heos). cbn [obind].
  set (m' := if m =? 0 then FLAV_NS else flav).
  assert (Hsafe : safe rs_ok (let* tokens := tokenize_string (take eos s) true [] rtrstatus_token_table 0 in routerstatus_from_tokens tokens m')).
  { eapply safe_bind; [apply tokenize_string_ok; [apply rtrstatus_table_ok|by left|done]|]. intros tokens. apply from_tokens_safe. }
  assert (Hl : (length (drop eos s) < length s)%nat) by (rewrite length_drop; lia).
  destruct (obind _ _) as [rs| |]; [| |done].
  - exists (Some rs), (drop eos s). split; [done|]. split; [done|]. by intros r [= <-].
  - exists None, (drop eos s). by split.
Qed.

Lemma parse_entries_loop_safe (m : Z) (flav : consensus_flavor) (f : nat) : forall s acc, (length s < f)%nat -> Forall rs_ok acc ->
  safe (Forall rs_ok) (parse_entries_loop f s m flav acc).
Proof.
  induction f as [|f IH]; intros s acc Hf Hacc; [lia|]. cbn [parse_entries_loop]. destruct (_ && _) eqn:E; [|done].
  destruct (parse_entry_ok s m flav) as (rs & s' & -> & Hl & Hrs); [by intros ->|]. cbn [obind]. destruct rs as [rs|]; [|done].
  apply IH; [lia|]. apply Forall_app. split; [done|]. constructor; [by apply Hrs|done].
Qed.

Lemma parse_vote_ok (s : bytes) (type : networkstatus_type) :
  exists r, networkstatus_parse_vote_from_string s type = Ok r /\
    forall ns, r = Some ns -> Forall rs_ok (routerstatus_list ns) /\ type = NS_TYPE_CONSENSUS.
Proof.
  unfold networkstatus_parse_vote_from_string. change (networkstatus_parse_flavor_name (bs "microdesc")) with (Some FLAV_MICRODESC). cbn iota.
  destruct (decide (type = NS_TYPE_CONSENSUS)) as [->|Ht]; [|rewrite bool_decide_eq_true_2 by done; by exists None].
  rewrite bool_decide_eq_false_2 by auto. assert (flags_in_order gsri_flags = true) as -> by done. cbn [negb].
  pose proof (parse_entries_loop_safe 29 FLAV_MICRODESC (S (length s)) s [] ltac:(lia) ltac:(done)) as H.
  destruct (parse_entries_loop _ s _ _ _) as [l| |]; [|by exists None|done]. cbn [obind safe] in *.
  assert (check_weights gsri_weights = Ok tt) as -> by (vm_compute; reflexivity). cbn [obind].
  eexists. split; [done|]. by intros ns [= <-].
Qed.

(** C5: whatever bytes a client is given as its consensus, the parser ends, never reads or writes outside its buffers and fails no
    assertion; it answers NULL or a consensus whose every entry has a legal nickname, a digest of 20 bytes, an IPv4 address and port in
    range, a public onion key of 1024 bits with the usual exponent, and keys of 32 bytes where it has them. *)
Theorem parse_vote_total (s : bytes) (type : networkstatus_type) :
  exists r, networkstatus_parse_vote_from_string s type = Ok r /\
    forall ns, r = Some ns -> Forall rs_ok (routerstatus_list ns) /\ type = NS_TYPE_CONSENSUS.
Proof. apply parse_vote_ok. Qed.

End gsri_any.
