(* ===== verification/GsriLines.v ===== *)
(** * Lines of directory documents

    What the tokenizer makes of a well-formed line, of a PEM object, and of text that is made of
    lines. *)
From stdpp Require Import gmap.
From S2P Require Import Prelude ParseInt Strings Smartutil Binascii Inaddr InaddrFacts InaddrSafe CryptoRsa CryptoFormat ParseCommon ParseFacts.

(** ** Words *)

Definition word_ok (w : bytes) : Prop := w <> [] /\ Forall (fun c => ends_word c = false) w.

(** A keyword with its arguments. *)
Definition item_line (kw : bytes) (words : list bytes) : bytes := join_fill (kw :: words) [SP].

(** What may follow an item without an object. *)
Definition plain_start (rest : bytes) : Prop :=
  rest = [] \/ exists c t, rest = c :: t /\ is_blank c = false /\ c <> "#"%char /\ c <> "-"%char.

Lemma not_ends_word (c : ascii) : ends_word c = false -> c <> NUL /\ c <> "#"%char /\ is_blank c = false /\ c <> NL /\ c <> SP.
Proof.
  intros H. split_and!; try (intros ->; discriminate H). unfold ends_word in H. by destruct (is_blank c); rewrite ?orb_true_r in H.
Qed.

Lemma is_blank_no_nl_blank (c : ascii) : is_blank c = false -> is_blank_no_nl c = false.
Proof. unfold is_blank, is_blank_no_nl. destruct (b2z c =? 32), (b2z c =? 9), (b2z c =? 13); cbn; rewrite ?orb_true_r; done. Qed.

Lemma word_c_string (w : bytes) : word_ok w -> c_string w.
Proof. intros [_ H]. eapply Forall_impl; [exact H|]. intros c Hc. exact (proj1 (not_ends_word c Hc)). Qed.

Lemma find_whitespace_word (w rest : bytes) : word_ok w -> rest = [] \/ (exists t, rest = SP :: t) -> find_whitespace (w ++ rest) = rest.
Proof.
  intros [_ Hw] Hr. induction Hw as [|c w Hc _ IH]; cbn [app].
  - by destruct Hr as [->|[t ->]].
  - cbn [find_whitespace]. by rewrite Hc.
Qed.

Lemma eat_word (w rest : bytes) : word_ok w -> eat_whitespace (w ++ rest) = w ++ rest /\ eat_whitespace_no_nl (w ++ rest) = w ++ rest.
Proof.
  intros [Hne Hw]. destruct w as [|c w]; [done|]. apply Forall_cons in Hw as [Hc _]. destruct (not_ends_word c Hc) as (_ & Hh & Hb & _).
  unfold eat_whitespace. cbn [app eat_ws eat_whitespace_no_nl andb]. rewrite Hb, (is_blank_no_nl_blank c Hb). split; [|done].
  destruct (Z.eqb_spec (b2z c) 35) as [E|]; [|done]. destruct Hh. by rewrite <- (z2b_b2z c), E.
Qed.

Lemma join_cons (w : bytes) (ws : list bytes) : ws <> [] -> join_fill (w :: ws) [SP] = w ++ SP :: join_fill ws [SP].
Proof. by destruct ws. Qed.

Lemma join_chars (ws : list bytes) (P : ascii -> Prop) : P SP -> Forall (Forall P) ws -> Forall P (join_fill ws [SP]).
Proof.
  intros Hsp. induction 1 as [|w ws Hw Hws IH]; cbn [join_fill]; [constructor|]. destruct ws as [|w2 ws]; [done|].
  apply Forall_app. split; [done|]. apply Forall_app. split; [by constructor|done].
Qed.

Lemma line_chars (kw : bytes) (words : list bytes) : Forall word_ok (kw :: words) -> Forall (fun c => c <> NUL /\ c <> NL) (item_line kw words).
Proof.
  intros H. apply join_chars; [done|]. eapply Forall_impl; [exact H|]. intros w [_ Hw]. eapply Forall_impl; [exact Hw|].
  intros c Hc. by apply not_ends_word in Hc as (H1 & _ & _ & H2 & _).
Qed.

Lemma get_args_words (ws : list bytes) : forall f acc, Forall word_ok ws -> (length (join_fill ws [SP]) <= f)%nat -> (length acc + length ws <= MAX_ARGS)%nat ->
  get_args_loop f (join_fill ws [SP]) acc = Ok (Some (acc ++ ws)).
Proof.
  induction ws as [|w ws IH]; intros f acc Hws Hf Hl.
  - cbn [join_fill]. destruct f; cbn [get_args_loop]; by rewrite app_nil_r.
  - apply Forall_cons in Hws as [Hw Hws].
    assert (Hrest : exists rest, join_fill (w :: ws) [SP] = w ++ rest /\ (rest = [] /\ ws = [] \/ rest = SP :: join_fill ws [SP])).
    { destruct ws as [|w2 ws]; [exists []; rewrite app_nil_r; auto|]. eexists. split; [by apply join_cons|]. by right. }
    destruct Hrest as (rest & Ej & Hrest). rewrite Ej in *. pose proof Hw as [Hne _].
    assert (Hpos : (0 < length w)%nat) by (destruct w; [done|cbn; lia]).
    destruct f as [|f]; [rewrite length_app in Hf; lia|].
    assert (Hstep : get_args_loop (S f) (w ++ rest) acc =
      (match rest with [] => Ok (Some (acc ++ [w])) | _ :: e' => get_args_loop f (eat_whitespace e') (acc ++ [w]) end)).
    { destruct (w ++ rest) as [|c t] eqn:Ew; [by destruct w|]. cbn [get_args_loop]. rewrite <- Ew.
      rewrite (proj2 (Nat.eqb_neq _ _)) by (cbn [length] in Hl; lia).
      rewrite find_whitespace_word; [|done|destruct Hrest as [[-> _]| ->]; eauto].
      rewrite length_app, Nat.add_sub, take_app_length. done. }
    rewrite Hstep. destruct Hrest as [[-> ->]| ->]; [done|].
    destruct ws as [|w2 ws]; [cbn; by destruct f|]. apply Forall_cons in Hws as H2. destruct H2 as [Hw2 _].
    assert (Ee : eat_whitespace (join_fill (w2 :: ws) [SP]) = join_fill (w2 :: ws) [SP]).
    { destruct ws as [|w3 ws]; [cbn [join_fill]; rewrite <- (app_nil_r w2) at 1; rewrite (proj1 (eat_word w2 [] Hw2)); by rewrite app_nil_r|].
      rewrite join_cons by done. by apply eat_word. }
    rewrite Ee, IH; [by rewrite <- app_assoc|done| |rewrite length_app; cbn [length] in *; lia].
    rewrite length_app in Hf. cbn [length] in Hf. lia.
Qed.

Lemma get_token_arguments_words (ws : list bytes) : Forall word_ok ws -> (length ws <= MAX_ARGS)%nat ->
  get_token_arguments (join_fill ws [SP]) = Ok (Some ws).
Proof.
  intros Hws Hl. unfold get_token_arguments.
  assert (Hs : c_string (join_fill ws [SP])).
  { apply join_chars; [done|]. eapply Forall_impl; [exact Hws|]. apply word_c_string. }
  rewrite strndup_id by done. by rewrite get_args_words.
Qed.

(** ** Lines *)

Lemma line_end_line (l rest : bytes) : Forall (fun c => c <> NL) l -> line_end (l ++ NL :: rest) = length l.
Proof. intros Hl. unfold line_end. rewrite memchr_here; [done|done|]. rewrite length_app. cbn [length]. lia. Qed.

Lemma plain_eat (rest : bytes) : plain_start rest -> eat_whitespace_eos rest = rest.
Proof.
  intros [->|(c & t & -> & Hb & Hh & _)]; [done|]. unfold eat_whitespace_eos. cbn [eat_ws andb]. rewrite Hb.
  destruct (Z.eqb_spec (b2z c) 35) as [E|]; [|done]. destruct Hh. by rewrite <- (z2b_b2z c), E.
Qed.

Lemma eat_newline (rest : bytes) : eat_whitespace_eos (NL :: rest) = eat_whitespace_eos rest.
Proof. done. Qed.

Section lines.
Context {ssl : OpenSSL}.

(** The token of an item without an object. *)
Definition plain_token (k : directory_keyword) (words : list bytes) : directory_token :=
  {| tp := k; args := words; object_type := None; object_size := 0; object_body := None; key := None; error := None |}.

Lemma no_object (tok : directory_token) (o : obj_syntax) (rest : bytes) : plain_start rest -> parse_object tok o rest = Ok (tok, rest).
Proof.
  intros Hr. unfold parse_object. destruct (memchr rest NL (length rest)) as [eol|]; [|done].
  assert (((strcmpstart rest (bs "-----BEGIN ") =? 0) = false)) as E.
  { destruct Hr as [->|(c & t & -> & _ & _ & Hc)]; [done|]. apply Z.eqb_neq. unfold strcmpstart. cbn [strncmp bs String.list_ascii_of_string length].
    assert (b2z c <> b2z "-"%char) as Hne by (intros E; apply Hc; by rewrite <- (z2b_b2z c), E). change (b2z "-"%char) with 45 in *.
    unfold deref. rewrite (proj2 (Z.eqb_neq _ _)) by exact Hne. change (b2z "-"%char) with 45. lia. }
  rewrite E. cbn [negb]. by rewrite orb_true_r.
Qed.

Lemma first_word_line (kw : bytes) (words : list bytes) : word_ok kw -> first_word (item_line kw words) = kw /\
  find_whitespace_eos (item_line kw words) = match words with [] => [] | _ => SP :: join_fill words [SP] end.
Proof.
  intros Hkw. unfold first_word, item_line, find_whitespace_eos. destruct words as [|w ws].
  - cbn [join_fill]. pose proof (find_whitespace_word kw [] Hkw ltac:(auto)) as E. rewrite app_nil_r in E. rewrite E.
    split; [|done]. cbn [length]. by rewrite Nat.sub_0_r, firstn_all.
  - rewrite join_cons by done. rewrite find_whitespace_word; [|done|eauto]. split; [|done].
    by rewrite length_app, Nat.add_sub, take_app_length.
Qed.

Lemma mem_eq_token_eq (a b : bytes) : mem_eq_token a b = bool_decide (a = b).
Proof.
  unfold mem_eq_token, fast_memeq. destruct (Nat.eqb_spec (length a) (length b)) as [E|E]; cbn [andb].
  - rewrite firstn_all. by rewrite <- E, firstn_all.
  - symmetry. apply bool_decide_eq_false_2. congruence.
Qed.

Lemma parse_keyword_line (table : list token_rule) (r : token_rule) (kw : bytes) (words : list bytes) :
  find_rule table kw = Some r -> concat_args r = false -> r_t r = kw -> min_args r <= zlen words <= max_args r ->
  Forall word_ok (kw :: words) -> (length words <= MAX_ARGS)%nat ->
  parse_keyword table (item_line kw words) = Ok (inr (plain_token (r_v r) words, os r, kw)).
Proof.
  intros Hr Hc Ht Hn Hws Hl. apply Forall_cons in Hws as [Hkw Hws]. unfold parse_keyword. destruct (first_word_line kw words Hkw) as [-> ->].
  rewrite Hr, Hc, Ht.
  assert (Hargs : get_token_arguments (eat_whitespace_eos_no_nl match words with [] => [] | _ => SP :: join_fill words [SP] end) = Ok (Some words)).
  { destruct words as [|w ws]; [done|]. unfold eat_whitespace_eos_no_nl. cbn [eat_whitespace_no_nl]. change (is_blank_no_nl SP) with true. cbn iota.
    apply Forall_cons in Hws as H2. destruct H2 as [Hw _].
    assert (Ee : eat_whitespace_no_nl (join_fill (w :: ws) [SP]) = join_fill (w :: ws) [SP]).
    { destruct ws as [|w3 ws]; [cbn [join_fill]; rewrite <- (app_nil_r w) at 1; rewrite (proj2 (eat_word w [] Hw)); by rewrite app_nil_r|].
      rewrite join_cons by done. by apply eat_word. }
    rewrite Ee. by apply get_token_arguments_words. }
  rewrite Hargs. cbn [obind]. rewrite !(proj2 (Z.ltb_ge _ _)) by lia. done.
Qed.

(** An item without an object: its token, and the tokenizer is at what follows the line. *)
Lemma next_plain (table : list token_rule) (r : token_rule) (kw : bytes) (words : list bytes) (rest : bytes) :
  find_rule table kw = Some r -> concat_args r = false -> r_t r = kw -> min_args r <= zlen words <= max_args r ->
  os r = NO_OBJ -> r_v r <> ERR_ -> kw <> bs "opt" ->
  Forall word_ok (kw :: words) -> (length words <= MAX_ARGS)%nat -> Z.of_nat (length (item_line kw words)) <= MAX_LINE_LENGTH -> plain_start rest ->
  get_next_token (item_line kw words ++ NL :: rest) table = Ok (plain_token (r_v r) words, rest).
Proof.
  intros Hr Hc Ht Hn Ho He Hopt Hws Hl Hlen Hrest. unfold get_next_token. cbn zeta.
  pose proof (line_chars kw words Hws) as Hch. apply Forall_cons in Hws as Hws'. destruct Hws' as [Hkw _].
  assert (Eeat : eat_whitespace_eos (item_line kw words ++ NL :: rest) = item_line kw words ++ NL :: rest).
  { unfold item_line. destruct words as [|w ws]; [by apply eat_word|]. rewrite join_cons by done. rewrite <- app_assoc. by apply eat_word. }
  rewrite Eeat, line_end_line by (eapply Forall_impl; [exact Hch|]; tauto).
  rewrite (proj2 (Z.ltb_ge _ _)) by done. rewrite take_app_length, drop_app_length.
  rewrite (proj1 (first_word_line kw words Hkw)), mem_eq_token_eq, bool_decide_eq_false_2 by done. cbn [negb andb].
  rewrite bool_decide_eq_false_2 by (intros E; apply (f_equal length) in E; rewrite length_app in E; cbn [length] in E; lia).
  rewrite (parse_keyword_line table r) by done. cbn [obind]. rewrite eat_newline, plain_eat, no_object by done. cbn [obind].
  rewrite bool_decide_eq_false_2 by done. by rewrite Ho.
Qed.

(** ** A public key in PEM form *)

Definition PEM_BEGIN : bytes := bs "-----BEGIN RSA PUBLIC KEY-----".
Definition PEM_END : bytes := bs "-----END RSA PUBLIC KEY-----".
Definition pem_of (der : bytes) : bytes :=
  PEM_BEGIN ++ NL :: base64_text BASE64_ENCODE_MULTILINE der ++ PEM_END ++ [NL].

Lemma memstr_at (s needle : bytes) (p : nat) : needle <> [] -> occurs_at s needle p -> (forall q, (q < p)%nat -> ~ occurs_at s needle q) ->
  tor_memstr s needle = Ok (Some p).
Proof.
  intros Hn Hp Hq. destruct (tor_memmem_ok s needle Hn) as (r & Hr & H). unfold tor_memstr. rewrite Hr. destruct r as [q|].
  - destruct H as [H1 H2]. do 2 f_equal. destruct (Nat.lt_trichotomy q p) as [L|[E|L]]; [by destruct (Hq q L)|done|by destruct (H2 p L)].
  - by destruct (H p).
Qed.

Lemma memstr_none (s needle : bytes) : needle <> [] -> (forall q, ~ occurs_at s needle q) -> tor_memstr s needle = Ok None.
Proof.
  intros Hn Hq. destruct (tor_memmem_ok s needle Hn) as (r & Hr & H). unfold tor_memstr. rewrite Hr. destruct r as [q|]; [|done].
  destruct (Hq q). apply H.
Qed.

Lemma occurs_head (s needle : bytes) (c : ascii) (q : nat) : occurs_at s (c :: needle) q -> s !! q = Some c.
Proof.
  intros [Hl H]. cbn [length] in H, Hl. destruct (drop q s) as [|d t] eqn:E; [done|]. injection H as -> _.
  assert (Hq : drop q s !! 0%nat = Some c) by (by rewrite E). by rewrite lookup_drop, Nat.add_0_r in Hq.
Qed.

(** The characters of the base-64 text. *)
Definition b64_char (c : ascii) : Prop := b64_digit c \/ c = "="%char \/ c = NL.

Lemma wrapped_chars (cs : bytes) : Forall b64_char cs -> forall ll, Forall b64_char (wrapped ll cs).
Proof.
  assert (b64_char NL) as Hnl by (right; by right).
  induction 1 as [|c cs Hc _ IH]; intros ll; cbn [wrapped]; [constructor|]. case_match; auto.
Qed.

Lemma base64_of_chars (src : bytes) : Forall b64_char (base64_of src).
Proof.
  destruct (base64_np_pad src) as [k ->]. apply Forall_app. split.
  - eapply Forall_impl; [apply base64_np_digits|]. intros c Hc. by left.
  - apply Forall_replicate. right. by left.
Qed.

Lemma base64_text_chars (flags : Z) (src : bytes) : Forall b64_char (base64_text flags src).
Proof.
  unfold base64_text, b64_body. apply Forall_app. split; [case_match; [apply wrapped_chars|]; apply base64_of_chars|].
  case_match; [|constructor]. constructor; [|constructor]. right. by right.
Qed.

Lemma b64_char_facts (c : ascii) : b64_char c -> c <> "-"%char /\ c <> NUL /\ c <> SP /\ c <> "#"%char.
Proof.
  intros [(k & Hk & ->)|[-> | ->]]; [|done..].
  pose proof (forall_range (fun k => bool_decide (b64c k <> "-"%char /\ b64c k <> NUL /\ b64c k <> SP /\ b64c k <> "#"%char)) 64 eq_refl k Hk) as H.
  by apply bool_decide_eq_true in H.
Qed.

Lemma base64_text_long (src : bytes) : size src <= CEIL_DIV (size (base64_text BASE64_ENCODE_MULTILINE src) * 3) 4.
Proof.
  assert (BASE64_LEN (size src) <= size (base64_text BASE64_ENCODE_MULTILINE src)) as H.
  { rewrite <- base64_of_length. unfold base64_text. rewrite size_app, b64_body_length.
    change (multiline BASE64_ENCODE_MULTILINE) with true. cbn iota. unfold size. assert (0 <= Z.of_nat (length (base64_of src)) / 64) by (apply Z.div_pos; lia). lia. }
  unfold BASE64_LEN, CEIL_DIV, size in *. dlia.
Qed.

Lemma pem_split (der rest : bytes) : pem_of der ++ rest = PEM_BEGIN ++ NL :: base64_text BASE64_ENCODE_MULTILINE der ++ PEM_END ++ NL :: rest.
Proof. unfold pem_of. rewrite <- !app_assoc. cbn [app]. by rewrite <- !app_assoc. Qed.

Definition key_token (kw : directory_keyword) (a : list bytes) (der : bytes) (body : bytes) (k : crypto_pk) : directory_token :=
  {| tp := kw; args := a; object_type := Some (bs "RSA PUBLIC KEY"); object_size := size der; object_body := Some body; key := Some k; error := None |}.

Lemma parse_pem (tok : directory_token) (o : obj_syntax) (der rest : bytes) (k : crypto_pk) :
  o = NEED_KEY \/ o = NEED_KEY_1024 \/ o = OBJ_OK -> crypto_pk_asn1_decode der = Some k -> size (base64_text BASE64_ENCODE_MULTILINE der) <= 100000 ->
  exists body, parse_object tok o (pem_of der ++ rest) = Ok (key_token (tp tok) (args tok) der body k, NL :: rest) /\
    take (Z.to_nat (size der)) body = der.
Proof.
  intros Ho Hk Hlen. rewrite pem_split. set (text := base64_text BASE64_ENCODE_MULTILINE der) in *.
  set (tail := text ++ PEM_END ++ NL :: rest).
  assert (Hmem : tor_memstr tail (bs "-----END ") = Ok (Some (length text))).
  { apply memstr_at; [done| |].
    - split; [unfold tail; rewrite !length_app; cbn; lia|]. unfold tail. rewrite drop_app_length. done.
    - intros q Hq H. apply occurs_head in H. unfold tail in H. rewrite lookup_app_l in H by done.
      pose proof (base64_text_chars BASE64_ENCODE_MULTILINE der) as Hc. fold text in Hc. rewrite Forall_lookup in Hc.
      by destruct (b64_char_facts _ (Hc q _ H)). }
  assert (Htake : take (length text) tail = text) by apply take_app_length.
  assert (Hdrop : drop (length text) tail = PEM_END ++ NL :: rest) by apply drop_app_length.
  assert (Hdec : forall dest, size der <= size dest <= INT_MAX -> base64_decode dest text = Ok (size der, padded der (length dest)))
    by (intros dest; apply base64_decode_ok).
  pose proof (base64_text_long der) as Hlong. fold text in Hlong. clearbody tail. clearbody text.
  unfold parse_object.
  assert (Hm : memchr (PEM_BEGIN ++ NL :: tail) NL (length (PEM_BEGIN ++ NL :: tail)) = Some 30%nat) by reflexivity. rewrite Hm. cbn zeta iota.
  match goal with |- context [if ?c then Ok (tok, _) else _] => assert (c = false) as -> by reflexivity end.
  match goal with |- context [if ?c then Ok (ERR_TOKEN (bs "Malformed object: bad begin line"), _) else _] => assert (c = false) as -> by reflexivity end.
  change (drop (30 + 1) (PEM_BEGIN ++ NL :: tail)) with tail. rewrite Hmem. cbn [obind]. rewrite Hdrop.
  assert (Hle : line_end (PEM_END ++ NL :: rest) = 28%nat) by reflexivity. rewrite Hle.
  match goal with |- context [if ?c then Ok (ERR_TOKEN (ebuf (_ ++ _)), _) else _] => assert (c = false) as -> by reflexivity end.
  unfold size in Hlen. rewrite (proj2 (Z.ltb_ge _ _)) by (unfold MAX_UNPARSED_OBJECT_SIZE; lia).
  unfold base64_decode_maxsize. rewrite (proj2 (Z.ltb_lt _ _)) by (change (INT_MAX / 3) with 715827882; lia). cbn [tor_assert obind].
  rewrite Htake, Hdec.
  2:{ unfold size in *. rewrite length_replicate. assert (CEIL_DIV (Z.of_nat (length text) * 3) 4 <= 75001) by (unfold CEIL_DIV; dlia). unfold INT_MAX. lia. }
  set (body := padded der _). assert (Hbody : take (Z.to_nat (size der)) body = der).
  { unfold body, padded, size. by rewrite Nat2Z.id, take_app_length. }
  change (strndup (drop 11 (PEM_BEGIN ++ NL :: tail)) (30 - 16)) with (bs "RSA PUBLIC KEY").
  change (strcmp (bs "RSA PUBLIC KEY") (bs "RSA PUBLIC KEY") =? 0) with true. cbn iota.
  assert ((bool_decide (o <> NEED_KEY) && bool_decide (o <> NEED_KEY_1024) && bool_decide (o <> OBJ_OK)) = false) as ->
    by (by destruct Ho as [->|[->| ->]]).
  rewrite Hbody, Hk. exists body. split; [done|done].
Qed.

(** A keyword alone on its line, with a public key as its object. *)
Lemma next_key (table : list token_rule) (r : token_rule) (kw der rest : bytes) (k : crypto_pk) :
  find_rule table kw = Some r -> concat_args r = false -> r_t r = kw -> min_args r = 0 /\ max_args r = 0 ->
  os r = NEED_KEY_1024 -> r_v r <> ERR_ -> kw <> bs "opt" -> word_ok kw -> Z.of_nat (length kw) <= MAX_LINE_LENGTH ->
  crypto_pk_asn1_decode der = Some k -> size (base64_text BASE64_ENCODE_MULTILINE der) <= 100000 ->
  crypto_pk_num_bits k = 1024 -> crypto_pk_key_is_private k = false ->
  exists body, get_next_token (kw ++ NL :: pem_of der ++ rest) table = Ok (key_token (r_v r) [] der body k, NL :: rest) /\
    take (Z.to_nat (size der)) body = der.
Proof.
  intros Hr Hc Ht Hn Ho He Hopt Hkw Hl Hk Hsz Hbits Hpriv. unfold get_next_token. cbn zeta.
  rewrite (proj1 (eat_word kw (NL :: pem_of der ++ rest) Hkw) : eat_whitespace_eos _ = _).
  pose proof (line_chars kw [] ltac:(by constructor)) as Hch. unfold item_line in Hch. cbn [join_fill] in Hch.
  rewrite line_end_line by (eapply Forall_impl; [exact Hch|]; tauto).
  rewrite (proj2 (Z.ltb_ge _ _)) by done. rewrite take_app_length, drop_app_length.
  pose proof (first_word_line kw [] Hkw) as [Hw _]. unfold item_line in Hw. cbn [join_fill] in Hw. rewrite Hw.
  rewrite mem_eq_token_eq, bool_decide_eq_false_2 by done. cbn [negb andb].
  rewrite bool_decide_eq_false_2 by (intros E; apply (f_equal length) in E; rewrite length_app in E; cbn [length] in E; lia).
  pose proof (parse_keyword_line table r kw [] Hr Hc Ht) as Hp. unfold item_line in Hp. cbn [join_fill] in Hp.
  rewrite Hp; [|unfold zlen; cbn; lia|by constructor|unfold MAX_ARGS; cbn; lia]. cbn [obind].
  assert (Hee : eat_whitespace_eos (NL :: pem_of der ++ rest) = pem_of der ++ rest) by (rewrite pem_split; done). rewrite Hee.
  destruct (parse_pem (plain_token (r_v r) []) (os r) der rest k) as (body & -> & Hbody); [rewrite Ho; auto|done|done|].
  cbn [obind plain_token tp args]. exists body. split; [|done]. unfold key_token at 1. cbn [tp]. rewrite bool_decide_eq_false_2 by done.
  rewrite Ho. unfold token_check_object, key_token. cbn [key]. rewrite Hbits. change (1024 =? PK_BYTES * 8) with true. cbn [negb].
  by rewrite Hpriv.
Qed.

End lines.

(** ** Text that is made of lines *)

Definition unlines (ls : list bytes) : bytes := concat ((fun l => l ++ [NL]) <$> ls).
Definition no_nl (l : bytes) : Prop := Forall (fun c => c <> NL) l.

Lemma unlines_cons (l : bytes) (ls : list bytes) (rest : bytes) : unlines (l :: ls) ++ rest = l ++ NL :: unlines ls ++ rest.
Proof. unfold unlines. cbn [fmap list_fmap concat]. by rewrite <- !app_assoc. Qed.

Lemma prefix_line (w l t : bytes) : ~ (NL ∈ w) -> w `prefix_of` l ++ NL :: t -> w `prefix_of` l.
Proof.
  revert l. induction w as [|c w IH]; intros l Hw [u Hu]; [apply prefix_nil|]. apply not_elem_of_cons in Hw as [Hc Hw].
  destruct l as [|d l]; cbn [app] in Hu; [by injection Hu as <- _|]. injection Hu as -> Hu. apply prefix_cons, IH; [done|by exists u].
Qed.

Lemma occurs_at_prefix (s needle : bytes) (q : nat) : occurs_at s needle q -> needle `prefix_of` drop q s.
Proof. intros [_ H]. exists (drop (length needle) (drop q s)). by rewrite <- H at 1; rewrite take_drop. Qed.

Lemma occurs_lines (w : bytes) : ~ (NL ∈ w) -> forall ls l0 rest q, no_nl l0 -> Forall no_nl ls -> Forall (fun l => ~ w `prefix_of` l) ls ->
  occurs_at (unlines (l0 :: ls) ++ rest) (NL :: w) q ->
  (S q = length (unlines (l0 :: ls)) /\ w `prefix_of` rest) \/ (length (unlines (l0 :: ls)) <= q)%nat.
Proof.
  intros Hw. induction ls as [|l1 ls IH]; intros l0 rest q H0 Hls Hpre Hocc; rewrite unlines_cons in Hocc.
  - apply occurs_at_prefix in Hocc as Hp. apply occurs_head in Hocc as Hh. unfold unlines in *. cbn [fmap list_fmap concat app] in *. rewrite app_nil_r, length_app. cbn [length].
    destruct (Nat.lt_trichotomy q (length l0)) as [L|[->|L]]; [|left|right; lia].
    + rewrite lookup_app_l in Hh by done. unfold no_nl in H0. rewrite Forall_lookup in H0. by destruct (H0 q _ Hh).
    + split; [lia|]. rewrite drop_app_length in Hp. destruct Hp as [u Hu]. injection Hu as Hu. by exists u.
  - apply Forall_cons in Hls as [H1 Hls]. apply Forall_cons in Hpre as [Hp1 Hpre]. apply occurs_head in Hocc as Hh.
    assert (HL : length (unlines (l0 :: l1 :: ls)) = (length l0 + 1 + length (unlines (l1 :: ls)))%nat).
    { unfold unlines. cbn [fmap list_fmap concat]. rewrite !length_app. cbn [length]. lia. }
    destruct (Nat.lt_trichotomy q (length l0)) as [L|[->|L]].
    + rewrite lookup_app_l in Hh by done. unfold no_nl in H0. rewrite Forall_lookup in H0. by destruct (H0 q _ Hh).
    + apply occurs_at_prefix in Hocc. rewrite drop_app_length in Hocc. destruct Hocc as [u Hu]. injection Hu as Hu.
      destruct Hp1. rewrite unlines_cons in Hu. eapply prefix_line; [done|]. by exists u.
    + assert (Hocc' : occurs_at (unlines (l1 :: ls) ++ rest) (NL :: w) (q - length l0 - 1)).
      { destruct Hocc as [Ha Hb]. split; [rewrite length_app in Ha; cbn [length] in Ha |- *; lia|].
        assert (E : l0 ++ NL :: unlines (l1 :: ls) ++ rest = (l0 ++ [NL]) ++ unlines (l1 :: ls) ++ rest) by (by rewrite <- app_assoc).
        rewrite E, drop_app_ge in Hb by (rewrite length_app; cbn [length]; lia). rewrite length_app in Hb. cbn [length] in Hb.
        by rewrite <- Nat.sub_add_distr. }
      destruct (IH l1 rest _ H1 Hls Hpre Hocc') as [[Hq Hr]|Hq]; [left; split; [lia|done]|right; lia].
Qed.

(** Searching for a line that starts with [w]. *)
Lemma find_line (w l0 : bytes) (ls : list bytes) (rest : bytes) : ~ (NL ∈ w) -> w <> [] -> no_nl l0 -> Forall no_nl ls -> Forall (fun l => ~ w `prefix_of` l) ls ->
  (w `prefix_of` rest -> tor_memstr (unlines (l0 :: ls) ++ rest) (NL :: w) = Ok (Some (length (unlines (l0 :: ls)) - 1)%nat)) /\
  tor_memstr (unlines (l0 :: ls)) (NL :: w) = Ok None.
Proof.
  intros Hw Hne H0 Hls Hpre. split.
  - intros [u Hu]. assert (Hlast : exists t, unlines (l0 :: ls) = t ++ [NL]).
    { destruct (exists_last (l := l0 :: ls) ltac:(done)) as (f & x & E). exists (unlines f ++ x). rewrite E. unfold unlines.
      rewrite fmap_app, concat_app. cbn [fmap list_fmap concat]. by rewrite app_nil_r, app_assoc. }
    destruct Hlast as [t Ht]. apply memstr_at; [done| |].
    + rewrite Ht, Hu, length_app. cbn [length]. rewrite Nat.add_sub. split; [rewrite !length_app; cbn [length]; lia|].
      rewrite <- app_assoc, drop_app_length. cbn [app length take]. by rewrite take_app_length.
    + intros q Hq Hocc. destruct (occurs_lines w Hw ls l0 rest q H0 Hls Hpre Hocc) as [[Hq' _]|Hq']; lia.
  - apply memstr_none; [done|]. intros q Hocc. pose proof Hocc as [Hlen _]. cbn [length] in Hlen.
    rewrite <- (app_nil_r (unlines (l0 :: ls))) in Hocc. destruct (occurs_lines w Hw ls l0 [] q H0 Hls Hpre Hocc) as [[_ Hp]|Hq]; [|lia].
    by apply prefix_nil_inv in Hp.
Qed.
