(* ===== verification/GsriRoundtrip.v ===== *)
(** * A relay's entry is what a client reads

    The text that [router_upload_descriptor_to_blockchain] makes fits its buffer, and a client that
    parses the concatenation of such texts gets the relays back, in order. *)
From stdpp Require Import gmap.
From S2P Require Import Prelude ParseInt Strings Smartutil Binascii Inaddr InaddrFacts InaddrSafe Address PolicySummary CryptoRsa CryptoFormat ParseCommon ParseFacts Gsri GsriFacts GsriLines.

(** ** Words that are printed *)

Lemma ends_word_digit (c : ascii) : TOR_ISDIGIT c = true -> ends_word c = false.
Proof.
  intros H. set (P := fun z => let c := z2b z in negb (TOR_ISDIGIT c) || negb (ends_word c)).
  assert (HP : P (b2z c) = true) by (apply (forall_range P 256); [by vm_compute|apply b2z_range]).
  unfold P in HP. cbn zeta in HP. rewrite z2b_b2z, H in HP. by apply negb_true_iff.
Qed.

Lemma dec_digits_chars (f : nat) : forall n tail, Forall (fun c => ends_word c = false) tail ->
  Forall (fun c => ends_word c = false) (dec_digits f n tail).
Proof.
  induction f as [|f IH]; intros n tail Ht; cbn [dec_digits]; [done|].
  assert (Forall (fun c => ends_word c = false) (z2b (48 + n mod 10) :: tail)).
  { constructor; [|done]. apply ends_word_digit, isdigit_dec_char. apply Z.mod_pos_bound. lia. }
  case_match; [done|]. by apply IH.
Qed.

Lemma print_int_word (z : Z) : 0 <= z -> word_ok (print_int z).
Proof.
  intros Hz. unfold print_int. rewrite (proj2 (Z.ltb_ge _ _)) by lia. unfold print_nat. split.
  - destruct (dec_digits_head (S (Z.to_nat (Z.log2 z))) z [] ltac:(lia) Hz) as (k & l & -> & _). done.
  - by apply dec_digits_chars.
Qed.

Lemma print_int_short (z : Z) (k : nat) : 0 <= z < 10 ^ Z.of_nat k -> (0 < k)%nat -> (length (print_int z) <= k)%nat.
Proof.
  intros Hz Hk. unfold print_int. rewrite (proj2 (Z.ltb_ge _ _)) by lia. unfold print_nat.
  pose proof (dec_digits_length (S (Z.to_nat (Z.log2 z))) z [] k Hz Hk) as H. cbn [length] in H. lia.
Qed.

Lemma dotted_word (a b c d : Z) : 0 <= a -> 0 <= b -> 0 <= c -> 0 <= d -> word_ok (dotted a b c d).
Proof.
  intros Ha Hb Hc Hd. destruct (print_int_word a Ha) as [Hne Wa]. destruct (print_int_word b Hb) as [_ Wb].
  destruct (print_int_word c Hc) as [_ Wc]. destruct (print_int_word d Hd) as [_ Wd].
  unfold dotted. split; [by destruct (print_int a)|]. repeat (apply Forall_app; split; [done || by repeat constructor|]). done.
Qed.

Lemma fmt_addr_ipv4 (v : Z) : 0 <= v < 2 ^ 32 ->
  exists s, fmt_addr_impl (Some (TA_INET v)) false = Ok s /\ tor_inet_aton s = Ok (Some v) /\ zlen s < 16 /\ word_ok s.
Proof.
  intros Hv. destruct (ntoa_aton v 48 Hv) as (s & Hs & Ha & Hl); [unfold SIZE_T_CEILING; lia|]. exists s.
  unfold fmt_addr_impl, tor_addr_to_str, tor_inet_ntop, TOR_ADDR_BUF_LEN. change (48 <? 8) with false. cbn iota. rewrite Hs.
  split; [done|]. split; [done|]. split; [done|]. unfold tor_inet_ntoa, tor_snprintf in Hs. repeat case_match; try done.
  injection Hs as <-. apply dotted_word; apply Z.land_nonneg; right; lia.
Qed.

Lemma b64_digit_word (c : ascii) : b64_digit c \/ c = "="%char -> ends_word c = false.
Proof.
  intros [(k & Hk & ->)| ->]; [|done].
  exact (proj1 (negb_true_iff _) (forall_range (fun k => negb (ends_word (b64c k))) 64 eq_refl k Hk)).
Qed.

Lemma base64_np_word (src : bytes) : src <> [] -> word_ok (base64_np src).
Proof.
  intros Hs. split; [by destruct src as [|a [|b [|c l]]]|]. eapply Forall_impl; [apply base64_np_digits|].
  intros c Hc. apply b64_digit_word. by left.
Qed.

Lemma base64_of_word (src : bytes) : src <> [] -> word_ok (base64_of src).
Proof.
  intros Hs. destruct (base64_np_pad src) as [k ->]. destruct (base64_np_word src Hs) as [Hne Hw].
  split; [by destruct (base64_np src)|]. apply Forall_app. split; [done|]. by apply Forall_replicate.
Qed.

Lemma nickname_word (s : bytes) : is_legal_nickname s = true -> word_ok s /\ (length s <= MAX_NICKNAME_LEN)%nat.
Proof.
  unfold is_legal_nickname. rewrite !andb_true_iff, Nat.ltb_lt, Nat.leb_le, Nat.eqb_eq. intros [[Hp Hl] Hs]. split; [|done].
  split; [intros ->; cbn in Hp; lia|]. clear -Hs. revert Hs. induction s as [|c s IH]; cbn [strspn length]; [constructor|].
  destruct (bool_decide_reflect (c ∈ LEGAL_NICKNAME_CHARACTERS)) as [Hc|]; [|done]. intros [= Hs]. constructor; [|by apply IH].
  assert (Hall : Forall (fun c => ends_word c = false) LEGAL_NICKNAME_CHARACTERS).
  { apply Forall_forall. intros x Hx. pose proof (forallb_forall (fun c => negb (ends_word c)) LEGAL_NICKNAME_CHARACTERS) as [H _].
    apply negb_true_iff, H; [by vm_compute|by apply list_elem_of_In]. }
  rewrite Forall_forall in Hall. by apply Hall.
Qed.

(** ** The lines of a PEM text *)

(** Lines of base-64 characters. *)
Definition b64_line (l : bytes) : Prop := Forall (fun c => b64_digit c \/ c = "="%char) l.

Lemma wrapped_lines (cs : bytes) : b64_line cs -> forall ll, 0 <= ll < 64 ->
  exists ls last, wrapped ll cs = unlines ls ++ last /\ Forall b64_line ls /\ b64_line last /\
    (cs <> [] -> (ll + size cs) mod 64 = 0 -> last = [] /\ ls <> []).
Proof.
  induction 1 as [|c cs Hc _ IH]; intros ll Hll; cbn [wrapped].
  - exists [], []. split_and!; try done; constructor.
  - destruct (Z.eqb_spec ((ll + 1) mod 64) 0) as [E|E].
    + destruct (IH 0) as (ls & last & Hw & Hls & Hlast & Hend); [lia|]. rewrite Hw. exists ([c] :: ls), last. split; [done|].
      split; [constructor; [by apply Forall_singleton|done]|]. split; [done|]. intros _ Hm. split; [|done].
      destruct cs as [|d cs]; [|apply Hend; [done|rewrite size_cons in Hm; dlia]].
      cbn [wrapped] in Hw. symmetry in Hw. by apply app_eq_nil in Hw as [_ Hw].
    + destruct (IH (ll + 1)) as (ls & last & -> & Hls & Hlast & Hend); [dlia|]. destruct ls as [|l ls].
      * exists [], (c :: last). split; [done|]. split; [done|]. split; [by constructor|]. intros _ Hm. rewrite size_cons in Hm.
        destruct cs as [|d cs]; [unfold size in Hm; cbn in Hm; lia|]. destruct Hend as [_ Hls']; [done|rewrite <- Hm; f_equal; lia|done].
      * apply Forall_cons in Hls as [Hl Hls]. exists ((c :: l) :: ls), last. split; [done|]. split; [constructor; [by constructor|done]|].
        split; [done|]. intros _ Hm. split; [|done]. rewrite size_cons in Hm.
        destruct cs as [|d cs]; [unfold size in Hm; cbn in Hm; lia|]. apply Hend; [done|rewrite <- Hm; f_equal; lia].
Qed.

Lemma base64_of_line (src : bytes) : b64_line (base64_of src).
Proof.
  destruct (base64_np_pad src) as [k ->]. apply Forall_app. split.
  - eapply Forall_impl; [apply base64_np_digits|]. intros c Hc. by left.
  - apply Forall_replicate. by right.
Qed.

Lemma unlines_app (l1 l2 : list bytes) : unlines (l1 ++ l2) = unlines l1 ++ unlines l2.
Proof. unfold unlines. by rewrite fmap_app, concat_app. Qed.

Lemma base64_text_lines (src : bytes) : exists ls, base64_text BASE64_ENCODE_MULTILINE src = unlines ls /\ Forall b64_line ls.
Proof.
  unfold base64_text, b64_body. change (multiline BASE64_ENCODE_MULTILINE) with true. cbn iota. cbn [andb].
  pose proof (base64_of_line src) as Hb. destruct (base64_of src) as [|c cs]; [by exists []|].
  destruct (wrapped_lines (c :: cs) Hb 0) as (ls & last & -> & Hls & Hlast & Hend); [lia|].
  destruct (Z.eqb_spec (size (c :: cs) mod 64) 0) as [E|E]; cbn [negb].
  - destruct Hend as [-> _]; [done|done|]. exists ls. by rewrite !app_nil_r.
  - exists (ls ++ [last]). rewrite unlines_app, <- app_assoc. split; [f_equal; unfold unlines; cbn [fmap list_fmap concat]; by rewrite app_nil_r|].
    apply Forall_app. split; [done|by apply Forall_singleton].
Qed.

(** ** The entry of a relay *)

Lemma base64_text_32 (k : bytes) : length k = CURVE25519_PUBKEY_LEN -> base64_text BASE64_ENCODE_MULTILINE k = base64_of k ++ [NL].
Proof.
  unfold CURVE25519_PUBKEY_LEN. intros Hk. pose proof (base64_of_length k) as Hl. unfold size at 2, BASE64_LEN, CEIL_DIV in Hl. rewrite Hk in Hl.
  change ((Z.of_nat 32 + (3 - 1)) / 3 * 4) with 44 in Hl. unfold base64_text, b64_body. change (multiline BASE64_ENCODE_MULTILINE) with true.
  cbn iota. rewrite Hl. cbn [andb Z.eqb]. change (negb (44 mod 64 =? 0)) with true. cbn iota. f_equal.
  assert (H : forall cs ll, 0 <= ll -> ll + size cs < 64 -> wrapped ll cs = cs).
  { induction cs as [|c cs IH]; intros ll H0 H1; cbn [wrapped]; [done|]. rewrite size_cons in H1. assert (0 <= size cs) by (unfold size; lia).
    rewrite (Z.mod_small (ll + 1)) by lia. rewrite (proj2 (Z.eqb_neq _ _)) by lia. rewrite IH; [done|lia|lia]. }
  apply H; lia.
Qed.

Lemma snprintf_fits (n : Z) (s : bytes) : zlen s < n -> n <= SIZE_T_CEILING -> tor_snprintf n s = Ok s.
Proof.
  intros H1 H2. unfold tor_snprintf. assert (0 <= zlen s) by (unfold zlen; lia).
  rewrite (proj2 (Z.eqb_neq _ _)), (proj2 (Z.ltb_ge _ _)), (proj2 (Z.leb_gt _ _)) by lia. done.
Qed.

Section roundtrip.
Context {ssl : OpenSSL}.

Lemma write_public_key (k : crypto_pk) (der : bytes) : i2d_RSAPublicKey (pk_key k) = Some der -> crypto_pk_keysize k = 128 -> zlen der <= 384 ->
  crypto_pk_write_public_key_to_string k = Ok (pem_of der).
Proof.
  intros Hd Hs Hl. unfold crypto_pk_write_public_key_to_string, crypto_pk_asn1_encode. rewrite Hd, Hs.
  change (128 * PUBLIC_ASN_MAX_OVERHEAD_FACTOR) with 384. rewrite !(proj2 (Z.ltb_ge _ _)) by (unfold SIZE_T_CEILING; lia). cbn [orb obind].
  assert (H3 : CEIL_DIV (size der) 3 < INT_MAX / 8) by (change (INT_MAX / 8) with 268435455; unfold CEIL_DIV, size, zlen in *; dlia).
  unfold pem_encoded_size. change (zlen der) with (size der). rewrite base64_encode_size_ok by done. cbn [obind].
  set (text := base64_text BASE64_ENCODE_MULTILINE der).
  assert (Htext : 0 <= size text < INT_MAX) by (split; [unfold size; lia|by apply base64_text_small]).
  change (zlen (bs "-----BEGIN -----" ++ [NL]) + zlen (bs "-----END -----" ++ [NL]) + zlen RSA_PUBLIC_TAG * 2 + size text + 1) with (17 + 15 + 28 + size text + 1).
  unfold pem_encode. change (bs "-----BEGIN " ++ RSA_PUBLIC_TAG ++ bs "-----" ++ [NL]) with (PEM_BEGIN ++ [NL]).
  change (bs "-----END " ++ RSA_PUBLIC_TAG ++ bs "-----" ++ [NL]) with (PEM_END ++ [NL]).
  assert (L1 : zlen (PEM_BEGIN ++ [NL]) = 31) by done. assert (L2 : zlen (PEM_END ++ [NL]) = 29) by done. unfold INT_MAX in Htext.
  rewrite snprintf_fits by (unfold SIZE_T_CEILING; lia). cbn [obind]. rewrite L1.
  assert (Hrep : size (replicate (Z.to_nat (17 + 15 + 28 + size text + 1 - 31)) NUL) = size text + 30).
  { set (n := size text) in *. unfold size. rewrite length_replicate. lia. }
  rewrite base64_encode_ok; [|done|rewrite Hrep; unfold SIZE_T_CEILING; fold text; lia]. fold text. cbn [obind].
  assert (Htake : take (Z.to_nat (size text)) (padded text (length (replicate (Z.to_nat (17 + 15 + 28 + size text + 1 - 31)) NUL))) = text).
  { unfold padded, size. by rewrite Nat2Z.id, take_app_length. }
  rewrite Htake. rewrite (proj2 (Z.ltb_ge _ _)) by lia. rewrite snprintf_fits by (unfold SIZE_T_CEILING; lia). cbn [obind].
  unfold pem_encoded_size. rewrite base64_encode_size_ok by done. cbn [obind]. fold text.
  change (zlen (bs "-----BEGIN -----" ++ [NL]) + zlen (bs "-----END -----" ++ [NL]) + zlen RSA_PUBLIC_TAG * 2 + size text + 1) with (17 + 15 + 28 + size text + 1).
  rewrite (proj2 (Z.leb_le _ _)).
  - done.
  - unfold zlen in *. rewrite !length_app in *. unfold size in *. lia.
Qed.

(** The relays whose entries can be published: the onion key is a public key of 1024 bits with the usual
    exponent, in the form that OpenSSL writes. *)
Definition ri_ok (ri : routerinfo) : Prop :=
  is_legal_nickname (ri_nickname ri) = true /\ length (ri_identity_digest ri) = DIGEST_LEN /\
  (exists v, ri_ipv4_addr ri = TA_INET v /\ 0 <= v < 2 ^ 32) /\ 0 <= ri_ipv4_orport ri <= 65535 /\
  (exists k, crypto_pk_asn1_decode (ri_onion_pkey ri) = Some k /\ i2d_RSAPublicKey (pk_key k) = Some (ri_onion_pkey ri) /\
     crypto_pk_num_bits k = 1024 /\ crypto_pk_keysize k = 128 /\ crypto_pk_public_exponent_ok k = true /\ crypto_pk_key_is_private k = false) /\
  1 <= zlen (ri_onion_pkey ri) <= 384 /\
  length (ri_onion_curve25519_pkey ri) = CURVE25519_PUBKEY_LEN /\ length (ri_signing_key ri) = DIGEST256_LEN.

(** What a client makes of the entry. *)
Definition rs_of (ri : routerinfo) (policy : short_policy) : routerstatus :=
  {| rs_nickname := ri_nickname ri; rs_identity_digest := ri_identity_digest ri; rs_ipv4_addr := ri_ipv4_addr ri;
     rs_ipv4_orport := ri_ipv4_orport ri;
     rs_md := {| md_onion_pkey := ri_onion_pkey ri; md_onion_curve25519_pkey := Some (ri_onion_curve25519_pkey ri);
                 md_ed25519_identity_pkey := Some (ri_signing_key ri); md_exit_policy := Some policy |};
     is_exit := true; is_stable := true; is_fast := true; is_flagged_running := true; is_named := false; is_valid := true;
     is_possible_guard := true; is_hs_dir := true; is_v2_dir := true; has_bandwidth := true; bw_is_unmeasured := true; bandwidth_kb := 1 |}.

(** The words of the lines. *)
Definition r_words (ri : routerinfo) (addr : bytes) : list bytes :=
  [ri_nickname ri; base64_np (ri_identity_digest ri); addr; print_int (ri_ipv4_orport ri)].
Definition sri_text (ri : routerinfo) (addr : bytes) : bytes :=
  item_line (bs "r") (r_words ri addr) ++ NL :: bs "onion-key" ++ NL :: pem_of (ri_onion_pkey ri) ++
  item_line (bs "ntor-onion-key") [base64_of (ri_onion_curve25519_pkey ri)] ++ NL ::
  item_line (bs "id") [bs "ed25519"; base64_np (ri_signing_key ri)] ++ [NL].

Lemma pem_length (der : bytes) : zlen der <= 384 -> zlen (pem_of der) <= 580.
Proof.
  intros H. unfold pem_of, zlen in *. rewrite !length_app. cbn [length]. rewrite !length_app. cbn [length].
  assert (Hs : size (base64_text BASE64_ENCODE_MULTILINE der) <= 520).
  { unfold base64_text. rewrite size_app, b64_body_length, base64_of_length. change (multiline BASE64_ENCODE_MULTILINE) with true. cbn iota. cbn [andb].
    unfold BASE64_LEN, CEIL_DIV, size. destruct (Z.eqb_spec ((Z.of_nat (length der) + (3 - 1)) / 3 * 4 mod 64) 0); cbn [negb length]; dlia. }
  unfold size in Hs. change (length PEM_BEGIN) with 30%nat. change (length PEM_END) with 28%nat. lia.
Qed.

Lemma router_sri_ok (ri : routerinfo) : ri_ok ri ->
  exists addr v, ri_ipv4_addr ri = TA_INET v /\ tor_inet_aton addr = Ok (Some v) /\ word_ok addr /\
    router_sri ri = Ok (sri_text ri addr) /\ zlen (sri_text ri addr) < 1024.
Proof.
  intros (Hnick & Hdig & (v & Hv & Hvr) & Hport & (k & Hk & Hi2d & Hbits & Hsz & Hexp & Hpriv) & Hlen & Hntor & Hed).
  destruct (fmt_addr_ipv4 v Hvr) as (addr & Haddr & Haton & Hal & Hword). exists addr, v. split; [done|]. split; [done|]. split; [done|].
  destruct (digest_base64_roundtrip _ Hdig) as (_ & _ & Hnp). destruct (digest256_base64_roundtrip _ Hed) as (Hedt & _ & Hednp).
  destruct (nickname_word _ Hnick) as [_ Hnl]. destruct (curve25519_padded _ Hntor) as (_ & Hkl).
  assert (Hpl := print_int_short (ri_ipv4_orport ri) 5 ltac:(change (10 ^ Z.of_nat 5) with 100000; lia) ltac:(lia)).
  pose proof (pem_length (ri_onion_pkey ri) ltac:(lia)) as Hpem.
  assert (Hlt : zlen (sri_text ri addr) < 1024).
  { unfold sri_text, r_words, item_line. cbn [join_fill]. unfold zlen in *. repeat (rewrite length_app; cbn [length]).
    unfold MAX_NICKNAME_LEN, BASE64_DIGEST_LEN, BASE64_DIGEST256_LEN, CURVE25519_BASE64_PADDED_LEN in *. cbn [length bs String.list_ascii_of_string].
    change (length (bs "onion-key")) with 9%nat. lia. }
  split; [|done]. unfold router_sri. change (base64_encode_size (Z.of_nat DIGEST_LEN) 0) with (Ok 28). cbn [obind].
  assert (Hget : router_get_rsa_onion_pkey (ri_onion_pkey ri) = Some k).
  { unfold router_get_rsa_onion_pkey. destruct (ri_onion_pkey ri) eqn:E; [unfold zlen in Hlen; cbn in Hlen; lia|done]. }
  rewrite Hget. cbn [get obind]. rewrite (write_public_key k (ri_onion_pkey ri)) by (done || lia). cbn [obind].
  assert (Hnt := base64_text_32 _ Hntor).
  rewrite base64_encode_ok.
  2:{ change (INT_MAX / 8) with 268435455. unfold CEIL_DIV, size. rewrite Hntor. done. }
  2:{ rewrite Hnt. unfold size. rewrite length_app, Hkl, length_replicate. unfold SIZE_T_CEILING. cbn. lia. }
  cbn [obind]. rewrite Hnt. unfold ed25519_public_to_base64. rewrite Hedt. cbn [obind].
  destruct (base64_encode_nopad_ok (replicate (Z.to_nat (28 + 1)) NUL) (ri_identity_digest ri)) as (tl & -> & _).
  { change (INT_MAX / 8) with 268435455. unfold CEIL_DIV, size. rewrite Hdig. done. }
  { rewrite base64_of_length. unfold BASE64_LEN, CEIL_DIV, size. rewrite Hdig, length_replicate. done. }
  cbn [obind]. unfold zlen at 1. rewrite Hnp. change (0 <? Z.of_nat BASE64_DIGEST_LEN) with true. cbn iota.
  rewrite Hv, Haddr. cbn [obind]. unfold zlen at 1. rewrite Nat2Z.id, take_app_length.
  assert (Hkb : take (Z.to_nat (size (base64_of (ri_onion_curve25519_pkey ri) ++ [NL]))) (padded (base64_of (ri_onion_curve25519_pkey ri) ++ [NL]) (length (replicate 128 NUL)))
     = base64_of (ri_onion_curve25519_pkey ri) ++ [NL]).
  { unfold padded, size. by rewrite Nat2Z.id, take_app_length. }
  rewrite Hkb. match goal with |- sprintf 1024 ?t = _ => assert (t = sri_text ri addr) as -> end.
  { unfold sri_text, r_words, item_line. cbn [join_fill]. rewrite <- !app_assoc. cbn [app bs String.list_ascii_of_string]. by rewrite <- ?app_assoc. }
  unfold sprintf. by rewrite (proj2 (Z.leb_gt _ _)).
Qed.

(** ** Reading the entry back *)

Lemma tokenize_step (f : nat) (s s' : bytes) (table : list token_rule) (last : option directory_token) (out : list directory_token)
    (counts counts' : list Z) (tok : directory_token) :
  s <> [] -> match last with Some t => tp t <> EOF_ | None => True end -> get_next_token s table = Ok (tok, s') -> tp tok <> ERR_ ->
  bump counts (tp tok) = Ok counts' ->
  tokenize_loop (S f) s table last out counts = tokenize_loop f (eat_whitespace_eos s') table (Some tok) (out ++ [tok]) counts'.
Proof.
  intros Hs Hl Hn He Hb. destruct s as [|c s]; [done|]. cbn [tokenize_loop].
  assert (match last with Some t => bool_decide (tp t = EOF_) | None => false end = false) as ->.
  { destruct last; [by apply bool_decide_eq_false_2|done]. }
  rewrite Hn. cbn [obind]. rewrite bool_decide_eq_false_2 by done. by rewrite Hb.
Qed.

(** The four tokens of an entry. *)
Definition entry_tokens (ri : routerinfo) (addr body : bytes) (k : crypto_pk) : list directory_token :=
  [plain_token K_R (r_words ri addr); key_token K_ONION_KEY [] (ri_onion_pkey ri) body k;
   plain_token K_ONION_KEY_NTOR [base64_of (ri_onion_curve25519_pkey ri)];
   plain_token K_ID [bs "ed25519"; base64_np (ri_signing_key ri)]].

Definition counts_of (ks : list directory_keyword) : list Z :=
  foldl (fun c k => match bump c k with Ok c => c | _ => c end) (replicate (Z.to_nat (kw_num NIL_)) 0) ks.

Lemma words_of_ri (ri : routerinfo) (addr : bytes) : ri_ok ri -> word_ok addr ->
  Forall word_ok (bs "r" :: r_words ri addr) /\ Forall word_ok [bs "ntor-onion-key"; base64_of (ri_onion_curve25519_pkey ri)] /\
  Forall word_ok [bs "id"; bs "ed25519"; base64_np (ri_signing_key ri)].
Proof.
  intros (Hnick & Hdig & _ & Hport & _ & _ & Hntor & Hed) Hw.
  assert (Hc : forall s, forallb (fun c => negb (ends_word c)) s = true -> s <> [] -> word_ok s).
  { intros s H Hne. split; [done|]. apply Forall_forall. intros x Hx. rewrite forallb_forall in H. by apply negb_true_iff, H, list_elem_of_In. }
  destruct (nickname_word _ Hnick) as [Hn _].
  assert (Hd : word_ok (base64_np (ri_identity_digest ri))) by (apply base64_np_word; intros E; by rewrite E in Hdig).
  assert (He : word_ok (base64_np (ri_signing_key ri))) by (apply base64_np_word; intros E; by rewrite E in Hed).
  assert (Ht : word_ok (base64_of (ri_onion_curve25519_pkey ri))) by (apply base64_of_word; intros E; by rewrite E in Hntor).
  assert (Hp : word_ok (print_int (ri_ipv4_orport ri))) by (apply print_int_word; lia).
  split; [|split]; repeat (constructor; [done || by apply Hc|]); constructor.
Qed.

Lemma key_text_short (ri : routerinfo) : ri_ok ri -> size (base64_text BASE64_ENCODE_MULTILINE (ri_onion_pkey ri)) <= 100000.
Proof.
  intros (_ & _ & _ & _ & _ & Hl & _). pose proof (pem_length (ri_onion_pkey ri) ltac:(lia)) as H. unfold pem_of, zlen, size in *.
  rewrite length_app in H. cbn [length] in H. rewrite length_app in H. lia.
Qed.

Lemma plain_line (kw : bytes) (words : list bytes) (rest : bytes) (c : ascii) (t : bytes) : kw = c :: t -> ends_word c = false -> c <> "-"%char ->
  plain_start (item_line kw words ++ rest).
Proof.
  intros -> Hc Hm. right. exists c, (drop 1 (item_line (c :: t) words) ++ rest). destruct (not_ends_word c Hc) as (_ & Hh & Hb & _).
  split; [by destruct words|]. split_and!; done.
Qed.

Lemma tokenize_entry (ri : routerinfo) (addr : bytes) (k : crypto_pk) : ri_ok ri -> word_ok addr -> zlen (sri_text ri addr) < 1024 ->
  crypto_pk_asn1_decode (ri_onion_pkey ri) = Some k -> crypto_pk_num_bits k = 1024 -> crypto_pk_key_is_private k = false ->
  exists body, take (Z.to_nat (size (ri_onion_pkey ri))) body = ri_onion_pkey ri /\
    tokenize_loop (S (length (sri_text ri addr))) (sri_text ri addr) rtrstatus_token_table None [] (counts_of [])
    = Ok (entry_tokens ri addr body k, counts_of [K_R; K_ONION_KEY; K_ONION_KEY_NTOR; K_ID]).
Proof.
  intros Hok Haddr Hlen Hk Hbits Hpriv. destruct (words_of_ri ri addr Hok Haddr) as (W1 & W2 & W3). pose proof (key_text_short ri Hok) as Hkt.
  assert (Hll : Z.of_nat (length (sri_text ri addr)) < 1024) by exact Hlen. unfold sri_text in Hll. repeat (rewrite length_app in Hll; cbn [length] in Hll).
  assert (Hfuel : exists f, S (length (sri_text ri addr)) = S (S (S (S (S f))))).
  { unfold sri_text. repeat (rewrite length_app; cbn [length]). eexists. rewrite !Nat.add_succ_r. cbn. reflexivity. }
  destruct Hfuel as [f ->]. unfold sri_text.
  set (t4 := item_line (bs "id") [bs "ed25519"; base64_np (ri_signing_key ri)]) in *. set (t3 := item_line (bs "ntor-onion-key") [base64_of (ri_onion_curve25519_pkey ri)]) in *.
  set (rest3 := t3 ++ NL :: t4 ++ [NL]).
  assert (P4 : plain_start (t4 ++ [NL])) by (by apply (plain_line (bs "id") _ _ "i"%char (bs "d"))).
  assert (P3 : plain_start rest3) by (by apply (plain_line (bs "ntor-onion-key") _ _ "n"%char (bs "tor-onion-key"))).
  set (rest2 := bs "onion-key" ++ NL :: pem_of (ri_onion_pkey ri) ++ rest3).
  assert (P2 : plain_start rest2) by (by apply (plain_line (bs "onion-key") [] _ "o"%char (bs "nion-key"))).
  rewrite (tokenize_step _ _ rest2 _ _ _ _ (counts_of [K_R]) (plain_token K_R (r_words ri addr))).
  2:{ unfold item_line, r_words. by rewrite join_cons by done. }
  2:{ done. }
  2:{ apply (next_plain rtrstatus_token_table (T1 "r" K_R (GE 4) NO_OBJ)); try done; [by apply Nat.leb_le|unfold MAX_LINE_LENGTH; lia]. }
  2:{ done. }
  2:{ vm_compute. reflexivity. }
  rewrite (plain_eat rest2 P2).
  destruct (next_key rtrstatus_token_table (T1 "onion-key" K_ONION_KEY NO_ARGS NEED_KEY_1024) (bs "onion-key") (ri_onion_pkey ri) rest3 k) as (body & Hnext & Hbody); try done.
  { split; [done|]. apply Forall_forall. intros x Hx. pose proof (proj1 (forallb_forall (fun c => negb (ends_word c)) (bs "onion-key")) ltac:(by vm_compute) x) as H.
    by apply negb_true_iff, H, list_elem_of_In. }
  exists body. split; [done|].
  rewrite (tokenize_step _ rest2 (NL :: rest3) _ _ _ _ (counts_of [K_R; K_ONION_KEY]) (key_token K_ONION_KEY [] (ri_onion_pkey ri) body k));
    [|done|done|exact Hnext|done|vm_compute; reflexivity].
  rewrite eat_newline, (plain_eat rest3 P3).
  rewrite (tokenize_step _ rest3 (t4 ++ [NL]) _ _ _ _ (counts_of [K_R; K_ONION_KEY; K_ONION_KEY_NTOR]) (plain_token K_ONION_KEY_NTOR [base64_of (ri_onion_curve25519_pkey ri)]));
    [|done|done| |done|vm_compute; reflexivity].
  2:{ apply (next_plain rtrstatus_token_table (T01 "ntor-onion-key" K_ONION_KEY_NTOR (GE 1) NO_OBJ)); try done; [by apply Nat.leb_le|unfold MAX_LINE_LENGTH; fold t3; lia]. }
  rewrite (plain_eat _ P4).
  rewrite (tokenize_step _ (t4 ++ [NL]) [] _ _ _ _ (counts_of [K_R; K_ONION_KEY; K_ONION_KEY_NTOR; K_ID]) (plain_token K_ID [bs "ed25519"; base64_np (ri_signing_key ri)]));
    [|done|done| |done|vm_compute; reflexivity].
  2:{ apply (next_plain rtrstatus_token_table (T0N "id" K_ID (GE 2) NO_OBJ)); try done; [by apply Nat.leb_le|unfold MAX_LINE_LENGTH; fold t4; lia|by left]. }
  done.
Qed.

(** ** The lines of the entry *)

Definition entry_lines (ri : routerinfo) (addr : bytes) (ls : list bytes) : list bytes :=
  bs "onion-key" :: PEM_BEGIN :: ls ++
  [PEM_END; item_line (bs "ntor-onion-key") [base64_of (ri_onion_curve25519_pkey ri)];
   item_line (bs "id") [bs "ed25519"; base64_np (ri_signing_key ri)]].

Lemma entry_unlines (ri : routerinfo) (addr : bytes) : exists ls, Forall b64_line ls /\
  sri_text ri addr = unlines (item_line (bs "r") (r_words ri addr) :: entry_lines ri addr ls).
Proof.
  destruct (base64_text_lines (ri_onion_pkey ri)) as (ls & Hls & Hb). exists ls. split; [done|].
  unfold sri_text, entry_lines, pem_of. rewrite Hls.
  change (?x :: bs "onion-key" :: PEM_BEGIN :: ls ++ ?t) with ([x; bs "onion-key"; PEM_BEGIN] ++ ls ++ t).
  rewrite !unlines_app. unfold unlines at 2 4. cbn [fmap list_fmap concat]. rewrite <- !app_assoc. cbn [app]. by rewrite <- !app_assoc.
Qed.

Lemma b64_line_char (l : bytes) (c : ascii) : b64_line l -> c ∈ l -> c <> NL /\ c <> NUL /\ c <> SP /\ c <> "-"%char.
Proof.
  unfold b64_line. rewrite Forall_forall. intros H Hc.
  destruct (b64_char_facts c) as (H1 & H2 & H3 & _); [destruct (H c Hc); [by left|right; by left]|].
  split_and!; try done. intros ->. by specialize (b64_digit_word NL (H NL Hc)).
Qed.

Lemma not_prefix_char (w l : bytes) (c : ascii) : c ∈ w -> ~ (c ∈ l) -> ~ w `prefix_of` l.
Proof. intros Hw Hl [u ->]. apply Hl. rewrite elem_of_app. by left. Qed.

(** A property of every line of the entry but the first. *)
Lemma entry_lines_all (P : bytes -> Prop) (ri : routerinfo) (addr : bytes) (ls : list bytes) : P (bs "onion-key") -> P PEM_BEGIN -> P PEM_END ->
  Forall P ls -> P (item_line (bs "ntor-onion-key") [base64_of (ri_onion_curve25519_pkey ri)]) ->
  P (item_line (bs "id") [bs "ed25519"; base64_np (ri_signing_key ri)]) -> Forall P (entry_lines ri addr ls).
Proof. intros H1 H2 H3 H4 H5 H6. unfold entry_lines. constructor; [done|]. constructor; [done|]. apply Forall_app. split; [done|]. by repeat constructor. Qed.

Lemma entry_plain (ri : routerinfo) (addr : bytes) (ls : list bytes) : ri_ok ri -> word_ok addr -> Forall b64_line ls ->
  Forall (Forall (fun c => c <> NUL /\ c <> NL)) (item_line (bs "r") (r_words ri addr) :: entry_lines ri addr ls).
Proof.
  intros Hok Hw Hls. destruct (words_of_ri ri addr Hok Hw) as (W1 & W2 & W3).
  assert (Hc : forall s, forallb (fun c => bool_decide (c <> NUL /\ c <> NL)) s = true -> Forall (fun c => c <> NUL /\ c <> NL) s).
  { intros s H. apply Forall_forall. intros x Hx. rewrite forallb_forall in H. specialize (H x ltac:(by apply list_elem_of_In)). by apply bool_decide_eq_true in H. }
  constructor; [by apply line_chars|]. apply entry_lines_all; [by apply Hc..| |by apply line_chars|by apply line_chars].
  eapply Forall_impl; [exact Hls|]. intros l Hl. apply Forall_forall. intros c Hx. by destruct (b64_line_char l c Hl Hx) as (H1 & H2 & _).
Qed.

(** No other line starts as an item that ends an entry does. *)
Lemma entry_no_marker (ri : routerinfo) (addr : bytes) (ls : list bytes) (w : bytes) : Forall b64_line ls ->
  w ∈ [bs "r "; bs "directory-footer"; bs "directory-signature"] ->
  Forall (fun l => ~ w `prefix_of` l) (entry_lines ri addr ls).
Proof.
  intros Hls Hw. assert (Hhead : forall a b l, w = a :: b -> forall c, c <> a -> ~ w `prefix_of` c :: l).
  { intros a b l -> c Hc [u Hu]. by injection Hu as -> _. }
  assert (Hsp : SP ∈ w \/ "-"%char ∈ w).
  { rewrite !elem_of_cons, elem_of_nil in Hw. destruct Hw as [->|[->|[->|[]]]]; [left|right|right]; apply (bool_decide_unpack _); by vm_compute. }
  assert (Hb : Forall (fun l => ~ w `prefix_of` l) ls).
  { eapply Forall_impl; [exact Hls|]. intros l Hl. destruct Hsp as [Hs|Hs]; (eapply not_prefix_char; [exact Hs|]); intros Hc; by destruct (b64_line_char l _ Hl Hc) as (_ & _ & H1 & H2). }
  rewrite !elem_of_cons, elem_of_nil in Hw. destruct Hw as [->|[->|[->|[]]]]; (apply entry_lines_all; [| | |done| |]); by eapply Hhead.
Qed.

Lemma find_start_entry (ri : routerinfo) (addr rest : bytes) : ri_ok ri -> word_ok addr -> rest = [] \/ bs "r " `prefix_of` rest ->
  find_start_of_next_routerstatus (sri_text ri addr ++ rest) = Ok (length (sri_text ri addr)).
Proof.
  intros Hok Hw Hrest. destruct (entry_unlines ri addr) as (ls & Hls & Ht). pose proof (entry_plain ri addr ls Hok Hw Hls) as Hp.
  assert (Hnl : Forall no_nl (item_line (bs "r") (r_words ri addr) :: entry_lines ri addr ls)).
  { eapply Forall_impl; [exact Hp|]. intros l Hl. eapply Forall_impl; [exact Hl|]. tauto. }
  apply Forall_cons in Hnl as [H0 Hnl].
  assert (Hfind : forall w, w ∈ [bs "r "; bs "directory-footer"; bs "directory-signature"] ->
    (w `prefix_of` rest -> tor_memstr (sri_text ri addr ++ rest) (NL :: w) = Ok (Some (length (sri_text ri addr) - 1)%nat)) /\
    tor_memstr (sri_text ri addr) (NL :: w) = Ok None).
  { intros w Hin. rewrite Ht. apply find_line; [| |done|done|by apply entry_no_marker];
      rewrite !elem_of_cons, elem_of_nil in Hin; destruct Hin as [->|[->|[->|[]]]]; [..|done|done|done]; apply (bool_decide_unpack _); by vm_compute. }
  unfold find_start_of_next_routerstatus.
  assert (Hlen : (0 < length (sri_text ri addr))%nat) by (unfold sri_text; rewrite length_app; cbn [length]; lia).
  destruct (Hfind (bs "directory-footer")) as [_ Hf]; [right; by left|]. destruct (Hfind (bs "directory-signature")) as [_ Hg]; [right; right; by left|].
  destruct (Hfind (bs "r ")) as [Hr Hr0]; [by left|]. destruct Hrest as [->|Hrest].
  - rewrite app_nil_r, Hr0. cbn [obind]. rewrite take_ge by done. by rewrite Hf, Hg.
  - rewrite (Hr Hrest). cbn [obind]. replace (S (length (sri_text ri addr) - 1)) with (length (sri_text ri addr)) by lia.
    rewrite take_app_length. by rewrite Hf, Hg.
Qed.

Lemma unlines_all (P : ascii -> Prop) (ls : list bytes) : P NL -> Forall (Forall P) ls -> Forall P (unlines ls).
Proof.
  intros Hnl. induction 1 as [|l ls Hl _ IH]; [constructor|]. unfold unlines. cbn [fmap list_fmap concat].
  apply Forall_app. split; [|done]. apply Forall_app. split; [done|by constructor].
Qed.

Lemma entry_no_nul (ri : routerinfo) (addr : bytes) : ri_ok ri -> word_ok addr -> Forall (fun c => c <> NUL) (sri_text ri addr).
Proof.
  intros Hok Hw. destruct (entry_unlines ri addr) as (ls & Hls & ->). apply unlines_all; [done|].
  eapply Forall_impl; [by apply entry_plain|]. intros l Hl. eapply Forall_impl; [exact Hl|]. by intros c [Hc _].
Qed.

Lemma entry_rules (ri : routerinfo) (addr body : bytes) (k : crypto_pk) :
  check_rules (entry_tokens ri addr body k) (counts_of [K_R; K_ONION_KEY; K_ONION_KEY_NTOR; K_ID]) 0 rtrstatus_token_table = Ok tt.
Proof. vm_compute. reflexivity. Qed.

Lemma tokenize_string_entry (ri : routerinfo) (addr : bytes) (k : crypto_pk) : ri_ok ri -> word_ok addr -> zlen (sri_text ri addr) < 1024 ->
  crypto_pk_asn1_decode (ri_onion_pkey ri) = Some k -> crypto_pk_num_bits k = 1024 -> crypto_pk_key_is_private k = false ->
  exists body, take (Z.to_nat (size (ri_onion_pkey ri))) body = ri_onion_pkey ri /\
    tokenize_string (sri_text ri addr) true [] rtrstatus_token_table 0 = Ok (entry_tokens ri addr body k).
Proof.
  intros Hok Hw Hlen Hk Hbits Hpriv. destruct (tokenize_entry ri addr k Hok Hw Hlen Hk Hbits Hpriv) as (body & Hbody & Ht).
  exists body. split; [done|]. unfold tokenize_string. rewrite memchr_absent by (by apply entry_no_nul). cbn [andb bump_all obind].
  change (replicate (Z.to_nat (kw_num NIL_)) 0) with (counts_of []). rewrite Ht. cbn [obind].
  change (flag_set 0 TS_NOCHECK) with false. change (flag_set 0 TS_ANNOTATIONS_OK) with false. cbn iota.
  change (existsb (fun t => is_annotation_kw (tp t)) (entry_tokens ri addr body k)) with false. cbn iota. cbn [obind].
  by rewrite entry_rules.
Qed.

Lemma tor_parse_long_port (z : Z) : 0 <= z <= 65535 -> p_val (tor_parse_long (print_int z) 10 0 65535 false) = z.
Proof.
  intros Hz. unfold tor_parse_long. change (10 <? 0) with false. cbn iota.
  pose proof (strtol_print z [] eq_refl) as Hs. rewrite app_nil_r in Hs. rewrite Hs.
  unfold CHECK_STRTOX_RESULT. cbn [st_erange st_end st_val].
  assert (LONG_MIN <= 0 /\ 65535 <= LONG_MAX) as [Hmin Hmax] by (split; done).
  rewrite (proj2 (Z.ltb_ge z LONG_MIN)), (proj2 (Z.ltb_ge LONG_MAX z)) by lia.
  rewrite bool_decide_false by (by destruct (print_int_word z ltac:(lia))).
  cbn. rewrite (Z.min_l z), (Z.max_r LONG_MIN) by lia. rewrite (proj2 (Z.ltb_ge z 0)), (proj2 (Z.ltb_ge 65535 z)) by lia. done.
Qed.

Lemma from_entry_tokens (ri : routerinfo) (addr body : bytes) (k : crypto_pk) (v : Z) (policy : short_policy) : ri_ok ri ->
  ri_ipv4_addr ri = TA_INET v -> tor_inet_aton addr = Ok (Some v) -> crypto_pk_public_exponent_ok k = true ->
  take (Z.to_nat (size (ri_onion_pkey ri))) body = ri_onion_pkey ri -> parse_short_policy (bs "accept 1-65535") = Ok policy ->
  routerstatus_from_tokens (entry_tokens ri addr body k) FLAV_MICRODESC = Ok (rs_of ri policy).
Proof.
  intros (Hnick & Hdig & _ & Hport & _ & _ & Hntor & Hed) Hv Haton Hexp Hbody Hpol.
  destruct (digest_base64_roundtrip _ Hdig) as (_ & Hdd & _). destruct (digest256_base64_roundtrip _ Hed) as (_ & Hee & _).
  destruct (curve25519_padded _ Hntor) as (Hcc & _).
  assert (F1 : find_by_keyword (entry_tokens ri addr body k) K_R = Ok (plain_token K_R (r_words ri addr))) by reflexivity.
  assert (F2 : find_by_keyword (entry_tokens ri addr body k) K_ONION_KEY = Ok (key_token K_ONION_KEY [] (ri_onion_pkey ri) body k)) by reflexivity.
  assert (F3 : find_opt_by_keyword (entry_tokens ri addr body k) K_ONION_KEY_NTOR = Some (plain_token K_ONION_KEY_NTOR [base64_of (ri_onion_curve25519_pkey ri)])) by reflexivity.
  assert (F4 : find_all_by_keyword (entry_tokens ri addr body k) K_ID = Some [plain_token K_ID [bs "ed25519"; base64_np (ri_signing_key ri)]]) by reflexivity.
  unfold routerstatus_from_tokens. destruct (entry_tokens ri addr body k) as [|t0 toks]; [done|]. rewrite F1, F2, F3, F4. clear F1 F2 F3 F4.
  cbn [obind plain_token args]. change (n_args (plain_token K_R (r_words ri addr))) with 4. cbn [tor_assert Z.leb andb Z.compare Pos.compare Pos.compare_cont].
  change (bool_decide (FLAV_MICRODESC = FLAV_NS)) with false. cbn [andb]. unfold r_words.
  change (aget (?a :: _) 0) with (Some a). change (aget (_ :: ?b :: _) 1) with (Some b).
  change (3 + -1) with 2. change (4 + -1) with 3. change (aget (_ :: _ :: ?b :: _) 2) with (Some b). change (aget (_ :: _ :: _ :: ?b :: _) 3) with (Some b).
  cbn [get obind]. rewrite Hnick. cbn [negb]. rewrite Hdd. cbn [obind]. rewrite Haton. cbn [obind key_token key get object_body object_size]. rewrite Hexp. cbn [negb].
  change (1 <=? n_args (plain_token _ [_])) with true. cbn [tor_assert]. change (aget [?a] 0) with (Some a). cbn [get obind]. rewrite Hcc. cbn [obind].
  cbn [parse_id_lines args plain_token]. change (2 <=? n_args _) with true. cbn [tor_assert]. change (aget (?a :: _) 0) with (Some a). change (aget (_ :: ?b :: _) 1) with (Some b).
  cbn [get obind]. change (strcmp (bs "ed25519") (bs "ed25519") =? 0) with true. cbn iota. unfold ed25519_public_from_base64. rewrite Hee. cbn [obind]. rewrite Hpol. cbn [obind].
  change (strchr (bs "Bandwidth=1") "=") with (Some (bs "=1")). cbn [get obind].
  change (tor_parse_ulong (drop 1 (bs "=1")) 10 0 UINT32_MAX false) with {| p_val := 1; p_ok := true; p_next := None |}. cbn [p_ok p_val negb].
  rewrite Hbody, tor_parse_long_port by done. unfold rs_of, wrap. rewrite Hv. rewrite (Z.mod_small (ri_ipv4_orport ri)) by lia. done.
Qed.

(** ** The document *)

Lemma parse_entry_printed (ri : routerinfo) (addr rest : bytes) (v : Z) (policy : short_policy) : ri_ok ri -> ri_ipv4_addr ri = TA_INET v ->
  tor_inet_aton addr = Ok (Some v) -> word_ok addr -> zlen (sri_text ri addr) < 1024 -> rest = [] \/ bs "r " `prefix_of` rest ->
  parse_short_policy (bs "accept 1-65535") = Ok policy ->
  routerstatus_parse_entry_from_string (sri_text ri addr ++ rest) 29 FLAV_MICRODESC = Ok (Some (rs_of ri policy), rest).
Proof.
  intros Hok Hv Haton Hw Hlen Hrest Hpol. pose proof Hok as (_ & _ & _ & _ & (k & Hk & _ & Hbits & _ & Hexp & Hpriv) & _).
  unfold routerstatus_parse_entry_from_string. change (29 =? 0) with false. cbn iota zeta. rewrite find_start_entry by done. cbn [obind].
  rewrite take_app_length, drop_app_length. destruct (tokenize_string_entry ri addr k) as (body & Hbody & ->); [done..|]. cbn [obind].
  by rewrite (from_entry_tokens ri addr body k v policy).
Qed.

(** The entry [e] that is made for [ri] can be read back. *)
Definition readable (policy : short_policy) (ri : routerinfo) (e : bytes) : Prop :=
  bs "r " `prefix_of` e /\ forall rest, rest = [] \/ bs "r " `prefix_of` rest ->
  routerstatus_parse_entry_from_string (e ++ rest) 29 FLAV_MICRODESC = Ok (Some (rs_of ri policy), rest).

Lemma router_sri_readable (policy : short_policy) (ri : routerinfo) : parse_short_policy (bs "accept 1-65535") = Ok policy -> ri_ok ri ->
  exists e, (router_sri ri = Ok e /\ zlen e < 1024) /\ readable policy ri e.
Proof.
  intros Hpol Hok. destruct (router_sri_ok ri Hok) as (addr & v & Hv & Haton & Hw & Hsri & Hlen). exists (sri_text ri addr). split; [done|]. split.
  - unfold sri_text, item_line, r_words. rewrite join_cons by done. rewrite <- app_assoc. by eexists.
  - intros rest Hrest. by apply (parse_entry_printed ri addr rest v policy).
Qed.

Lemma parse_entries_printed (policy : short_policy) (ris : list routerinfo) (es : list bytes) : Forall2 (readable policy) ris es ->
  forall f acc, (length (concat es) < f)%nat ->
  parse_entries_loop f (concat es) 29 FLAV_MICRODESC acc = Ok (acc ++ ((fun ri => rs_of ri policy) <$> ris)).
Proof.
  induction 1 as [|ri e ris es [[u Hu] Hread] Hrec IH]; intros f acc Hf.
  - destruct f; cbn; by rewrite app_nil_r.
  - cbn [concat] in *. assert (Hnext : concat es = [] \/ bs "r " `prefix_of` concat es).
    { destruct Hrec as [|ri' e' ris' es' [[u' Hu'] _] _]; [by left|right]. cbn [concat]. rewrite Hu', <- app_assoc. by eexists. }
    assert (Hstart : ((2 <=? length (e ++ concat es))%nat && fast_memeq (e ++ concat es) (bs "r ") 2) = true) by (by rewrite Hu).
    rewrite length_app in Hf. assert (0 < length e)%nat by (rewrite Hu, length_app; cbn; lia).
    destruct f as [|f]; [lia|]. cbn [parse_entries_loop]. rewrite Hstart, Hread by done. cbn [obind].
    rewrite IH by lia. cbn [fmap list_fmap]. by rewrite <- app_assoc.
Qed.

Lemma gsri_published (ris : list routerinfo) : Forall ri_ok ris ->
  exists es policy ns, Forall2 (fun ri e => router_sri ri = Ok e /\ zlen e < 1024) ris es /\
    parse_short_policy (bs "accept 1-65535") = Ok policy /\
    networkstatus_parse_vote_from_string (concat es) NS_TYPE_CONSENSUS = Ok (Some ns) /\
    routerstatus_list ns = (fun ri => rs_of ri policy) <$> ris.
Proof.
  intros Hris. destruct exit_policy_ok as [policy Hpol].
  assert (Hes : exists es, Forall2 (fun ri e => (router_sri ri = Ok e /\ zlen e < 1024) /\ readable policy ri e) ris es).
  { induction Hris as [|ri ris Hri _ [es IH]]; [by exists []|]. destruct (router_sri_readable policy ri Hpol Hri) as (e & He). exists (e :: es). by constructor. }
  destruct Hes as [es Hes]. eexists es, policy, _. split; [eapply Forall2_impl; [exact Hes|]; by intros ? ? [? _]|]. split; [done|].
  assert (Hread : Forall2 (readable policy) ris es) by (eapply Forall2_impl; [exact Hes|]; by intros ? ? [_ ?]).
  unfold networkstatus_parse_vote_from_string. change (networkstatus_parse_flavor_name (bs "microdesc")) with (Some FLAV_MICRODESC).
  change (bool_decide (NS_TYPE_CONSENSUS <> NS_TYPE_CONSENSUS)) with false. change (flags_in_order gsri_flags) with true. cbn iota. cbn [negb].
  rewrite (parse_entries_printed policy ris es Hread) by lia. cbn [obind].
  assert (Hw : check_weights gsri_weights = Ok tt) by (vm_compute; reflexivity). rewrite Hw. cbn [obind]. split; [reflexivity|done].
Qed.

(** C1: every relay whose keys and names are of the usual form gets an entry that fits the buffer it is printed into, and a client
    that parses the published entries, one after the other, gets a consensus that lists exactly these relays in this order,
    each with the nickname, identity digest, address, port and keys that it published. *)
Theorem gsri_roundtrip (ris : list routerinfo) : Forall ri_ok ris ->
  exists es policy ns, Forall2 (fun ri e => router_sri ri = Ok e /\ zlen e < 1024) ris es /\
    parse_short_policy (bs "accept 1-65535") = Ok policy /\
    networkstatus_parse_vote_from_string (concat es) NS_TYPE_CONSENSUS = Ok (Some ns) /\
    routerstatus_list ns = (fun ri => rs_of ri policy) <$> ris.
Proof. apply gsri_published. Qed.

End roundtrip.

(** Two relays with made-up keys. *)
Definition toy_relay (name : string) (digest ip port : Z) : routerinfo :=
  {| ri_nickname := bs name; ri_identity_digest := replicate 20 (z2b digest); ri_ipv4_addr := TA_INET ip; ri_ipv4_orport := port;
     ri_onion_pkey := replicate 140 (z2b 77); ri_onion_curve25519_pkey := replicate 32 (z2b 200); ri_signing_key := replicate 32 (z2b 9) |}.
Definition toy_relays : list routerinfo := [toy_relay "alice" 141 3232235777 9001; toy_relay "bob" 7 16909060 443].

Lemma toy_relay_ok (name : string) (d ip p : Z) : is_legal_nickname (bs name) = true -> 0 <= ip < 2 ^ 32 -> 0 <= p <= 65535 ->
  @ri_ok toy_ssl (toy_relay name d ip p).
Proof.
  intros Hn Hi Hp. unfold ri_ok, toy_relay. cbn [ri_nickname ri_identity_digest ri_ipv4_addr ri_ipv4_orport ri_onion_pkey ri_onion_curve25519_pkey ri_signing_key].
  split; [done|]. split; [done|]. split; [by exists ip|]. split; [done|]. split; [by eexists|]. done.
Qed.

Lemma gsri_roundtrip_witness :
  Forall (@ri_ok toy_ssl) toy_relays /\
  exists es policy ns, Forall2 (fun ri e => @router_sri toy_ssl ri = Ok e /\ zlen e < 1024) toy_relays es /\
    parse_short_policy (bs "accept 1-65535") = Ok policy /\
    @networkstatus_parse_vote_from_string toy_ssl (concat es) NS_TYPE_CONSENSUS = Ok (Some ns) /\
    routerstatus_list ns = (fun ri => rs_of ri policy) <$> toy_relays.
Proof.
  assert (Hall : Forall (@ri_ok toy_ssl) toy_relays).
  { constructor; [|constructor; [|constructor]]; apply toy_relay_ok; (done || lia || (vm_compute; reflexivity)). }
  split; [exact Hall|]. exact (@gsri_roundtrip toy_ssl toy_relays Hall).
Defined.
