(* ===== verification/Bkem.v ===== *)
(** * Broadcast encryption of relay entries: [feature/relay/router.c], [bkem.h]

    BADNET's relays encrypt their entries for the set of healthy relays, with the broadcast scheme of
    Boneh, Gentry and Waters over a symmetric pairing. The PBC library is a parameter: two groups with
    the operations that the code calls. The sizes of the allocations matter here, so a block from
    [malloc] has [slack] usable bytes more than were asked for. The two key files are their contents. *)
From S2P Require Import Prelude ParseInt Strings Smartutil Binascii ConsDiffDoc.

(** ** The PBC library *)

Class PBC := {
  G1 : Type;
  GT : Type;
  (** [element_mul] and [element_pow_zn] in the first group, [element_mul], [element_pow_zn] and
      [element_div] in the second; exponents are integers. *)
  g1_mul : G1 -> G1 -> G1;
  g1_pow : G1 -> Z -> G1;
  gt_mul : GT -> GT -> GT;
  gt_pow : GT -> Z -> GT;
  gt_div : GT -> GT -> GT;
  pairing_apply : G1 -> G1 -> GT;
  (** [element_set_str] in base 10, [element_to_bytes_compressed], [element_from_bytes_compressed]
      with [element_length_in_bytes_compressed], and [element_to_bytes] of the second group. *)
  g1_set_str : bytes -> G1;
  g1_to_bytes_compressed : G1 -> bytes;
  g1_from_bytes_compressed : bytes -> G1;
  g1_length : nat;
  gt_to_bytes : GT -> bytes
}.

(** What the manual of PBC says of them, as far as the theorems need it. *)
Class PBCSpec (pbc : PBC) := {
  g1_pow_add (x : G1) (a b : Z) : g1_mul (g1_pow x a) (g1_pow x b) = g1_pow x (a + b);
  g1_pow_mul (x : G1) (a b : Z) : g1_pow (g1_pow x a) b = g1_pow x (a * b);
  pairing_bilinear (x y : G1) (a b : Z) :
    pairing_apply (g1_pow x a) (g1_pow y b) = gt_pow (pairing_apply x y) (a * b);
  gt_pow_mul (x : GT) (a b : Z) : gt_pow (gt_pow x a) b = gt_pow x (a * b);
  gt_pow_div (x : GT) (a b : Z) : gt_div (gt_pow x a) (gt_pow x b) = gt_pow x (a - b);
  g1_compressed_length (x : G1) : length (g1_to_bytes_compressed x) = g1_length;
  g1_decompress (x : G1) : g1_from_bytes_compressed (g1_to_bytes_compressed x) = x
}.

(** ** The parameters of the system *)

Record bkem_global_params := { gps_N : Z; gps_B : Z; gps_A : Z }.

Definition MAX_REALY_NUMBER : Z := 1000.

Definition setup_global_system (N : Z) : bkem_global_params :=
  let B := Z.sqrt N in
  let A := Z.quot (N + B - 1) B in
  {| gps_N := A * B; gps_B := B; gps_A := A |}.

Section bkem.
Context {pbc : PBC} (slack : Z).

Record pubkey := { pk_g : G1; pk_g_i : list G1; pk_v_i : list G1 }.
Record keypair := { HDR : list G1; kp_K : GT }.

(** ** The key files *)

(** [fgets] of 512 bytes on what is left of a file: the line, [None] at the end, and the rest. *)
Fixpoint fgets (size : nat) (file : bytes) : bytes * bytes :=
  match size, file with
  | S n, c :: file' =>
      if decide (c = NL) then ([c], file') else let '(line, rest) := fgets n file' in (c :: line, rest)
  | _, _ => ([], file)
  end.

(** [fgets(strLine, 512, fp)] into a buffer that may hold an earlier line: at the end of the file the
    buffer is as before. *)
Definition fgets_512 (strLine : option bytes) (file : bytes) : option bytes * bytes :=
  match file with [] => (strLine, []) | _ => let '(line, rest) := fgets 511 file in (Some line, rest) end.

(** The loop over the lines of the public key. *)
Fixpoint read_elements (n : nat) (strLine : option bytes) (file : bytes) : outcome (list G1) :=
  match n with
  | O => Ok []
  | S n =>
      let '(strLine, file) := fgets_512 strLine file in
      let* line := get strLine in
      let* l := read_elements n strLine file in
      Ok (g1_set_str (cstr line) :: l)
  end.

Definition bkem_param (BEPK : bytes) : outcome (bkem_global_params * pubkey) :=
  let gps := setup_global_system MAX_REALY_NUMBER in
  let* l := read_elements (Z.to_nat (1 + 2 * gps_B gps + gps_A gps)) None BEPK in
  match l with
  | [] => Stuck
  | g :: l =>
      let n := Z.to_nat (2 * gps_B gps) in
      Ok (gps, {| pk_g := g; pk_g_i := take n l; pk_v_i := drop n l |})
  end.

(** ** Keys *)

(** The loop over the receivers; [None] is the early return, which leaves [*key] as it was. *)
Fixpoint add_recipients (gps : bkem_global_params) (PK : pubkey) (recip : list Z) (HDR : list G1) : outcome (option (list G1)) :=
  match recip with
  | [] => Ok (Some HDR)
  | s :: recip =>
      if (s <? 0) || (gps_N gps <=? s) then Ok None
      else
        let line := Z.quot s (gps_B gps) in
        let pos := Z.rem s (gps_B gps) in
        let* h := get (aget HDR (line + 1)) in
        let* g := get (aget (pk_g_i PK) (gps_B gps - 1 - pos)) in
        let* HDR := aset HDR (line + 1) (g1_mul h g) in
        add_recipients gps PK recip HDR
  end.

(** [t] is the random exponent. *)
Definition get_encryption_key (recip : list Z) (PK : pubkey) (gps : bkem_global_params) (t : Z) : outcome (option keypair) :=
  let* gB := get (aget (pk_g_i PK) (gps_B gps - 1)) in
  let* g0 := get (aget (pk_g_i PK) 0) in
  let K := gt_pow (pairing_apply gB g0) t in
  let hdr0 := g1_pow (pk_g PK) t in
  let* HDR := if (Z.of_nat (length (pk_v_i PK)) <? gps_A gps) then Stuck else Ok (hdr0 :: take (Z.to_nat (gps_A gps)) (pk_v_i PK)) in
  let* HDR := add_recipients gps PK recip HDR in
  match HDR with
  | None => Ok None
  | Some (h :: HDR) => Ok (Some {| HDR := h :: ((fun x => g1_pow x t) <$> HDR); kp_K := K |})
  | Some [] => Stuck
  end.

(** The loop over the receivers; [None] is the early return, which leaves [K] without a value. *)
Fixpoint mul_others (gps : bkem_global_params) (PK : pubkey) (a b : Z) (recip : list Z) (temp : G1) : outcome (option G1) :=
  match recip with
  | [] => Ok (Some temp)
  | s :: recip =>
      if (s <? 0) || (gps_N gps <? s) then Ok None
      else
        let line := Z.quot s (gps_B gps) in
        let pos := Z.rem s (gps_B gps) in
        if (line =? a) && negb (pos =? b) then
          let* g := get (aget (pk_g_i PK) (gps_B gps - pos + b)) in
          mul_others gps PK a b recip (g1_mul temp g)
        else mul_others gps PK a b recip temp
  end.

Definition get_decryption_key (gps : bkem_global_params) (recip : list Z) (index : Z) (d_i : G1) (HDR : list G1) (PK : pubkey)
    : outcome (option GT) :=
  let a := Z.quot index (gps_B gps) in
  let b := Z.rem index (gps_B gps) in
  let* gb := get (aget (pk_g_i PK) b) in
  let* h := get (aget HDR (a + 1)) in
  let nom := pairing_apply gb h in
  let* temp := mul_others gps PK a b recip d_i in
  match temp with
  | None => Ok None
  | Some temp =>
      let* h0 := get (aget HDR 0) in
      Ok (Some (gt_div nom (pairing_apply temp h0)))
  end.

(** ** Their text *)

(** [sprintf("%02X")] at the end of a string, in a block of [size] bytes: with the NUL, it has to fit. *)
Definition hexd_upper (d : Z) : ascii := z2b (if d <? 10 then 48 + d else 55 + d).
Definition sprintf_02X (size : Z) (str : bytes) (c : ascii) : outcome bytes :=
  let str := str ++ [hexd_upper (b2z c / 16); hexd_upper (b2z c mod 16)] in
  if size + slack <? zlen str + 1 then Stuck else Ok str.
Fixpoint print_bytes (size : Z) (str data : bytes) : outcome bytes :=
  match data with
  | [] => Ok str
  | c :: data => let* str := sprintf_02X size str c in print_bytes size str data
  end.

Definition key_text (K : GT) : outcome bytes :=
  match gt_to_bytes K with [] => Stuck | data => print_bytes 512 [] data end.

Definition bkem_encryption (BEPK : bytes) (recip : list Z) (t : Z) : outcome (bytes * bytes) :=
  let* (gps, PK) := bkem_param BEPK in
  let* kp := get_encryption_key recip PK gps t in
  let* kp := get kp in
  let* KeyStr := key_text (kp_K kp) in
  let HdrSize := Z.of_nat g1_length in
  let* Hdr := print_bytes (2 * HdrSize * (gps_A gps + 1)) [] (concat (g1_to_bytes_compressed <$> HDR kp)) in
  Ok (KeyStr, Hdr).

(** [sscanf("%2X")]: the number, [None] when nothing matches. *)
Definition isspace (c : ascii) : bool := ((9 <=? b2z c) && (b2z c <=? 13)) || (b2z c =? 32).
Fixpoint skip_space (s : bytes) : bytes :=
  match s with c :: s' => if isspace c then skip_space s' else s | [] => [] end.
Definition sscanf_2X (s : bytes) : option Z :=
  let hex c := if hex_decode_digit c <? 0 then None else Some (hex_decode_digit c) in
  match take 2 (skip_space s) with
  | [c1; c2] =>
      if bool_decide (c1 = "+"%char) then hex c2
      else if bool_decide (c1 = "-"%char) then (fun v => wrap 32 (- v)) <$> hex c2
      else if bool_decide (c1 = "0"%char) && (bool_decide (c2 = "x"%char) || bool_decide (c2 = "X"%char)) then None
      else match hex c1, hex c2 with
           | Some v1, Some v2 => Some (16 * v1 + v2)
           | Some v1, None => Some v1
           | None, _ => None
           end
  | [c] => hex c
  | _ => None
  end.

(** An [unsigned int] stored at [buf + j]. *)
Definition put_uint (buf : list (option ascii)) (j v : Z) : outcome (list (option ascii)) :=
  let* buf := aset buf j (Some (z2b v)) in
  let* buf := aset buf (j + 1) (Some (z2b (Z.shiftr v 8))) in
  let* buf := aset buf (j + 2) (Some (z2b (Z.shiftr v 16))) in
  aset buf (j + 3) (Some (z2b (Z.shiftr v 24))).

(** The loop that fills [HdrData]; the bytes that were never written are [None]. *)
Fixpoint scan_hdr (fuel : nat) (s : bytes) (buf : list (option ascii)) (j : Z) : outcome (list (option ascii)) :=
  match sscanf_2X s with
  | None => Ok buf
  | Some v =>
      match fuel with
      | O => Stuck
      | S f =>
          let* buf := put_uint buf j v in
          if (length s <? 2)%nat then Stuck else scan_hdr f (drop 2 s) buf (j + 1)
      end
  end.

Definition read_hdr (HdrDataSize : Z) (s : bytes) : outcome G1 :=
  let* buf := scan_hdr (S (length s)) s (replicate (Z.to_nat (HdrDataSize + slack)) None) 0 in
  if (length buf <? g1_length)%nat then Stuck
  else let* data := get (mapM id (take g1_length buf)) in Ok (g1_from_bytes_compressed data).

Fixpoint read_hdrs (n : nat) (HdrDataSize : Z) (Hdr : list bytes) : outcome (list G1) :=
  match n, Hdr with
  | O, _ => Ok []
  | S n, s :: Hdr => let* h := read_hdr HdrDataSize s in let* l := read_hdrs n HdrDataSize Hdr in Ok (h :: l)
  | S _, [] => Stuck
  end.

Definition bkem_decryption (BEPK BESK : bytes) (recip : list Z) (index : Z) (Hdr : list bytes) : outcome bytes :=
  let* (gps, PK) := bkem_param BEPK in
  let* line := get (fst (fgets_512 None BESK)) in
  let d_i := g1_set_str (cstr line) in
  let* hdr0 := get (Hdr !! 0%nat) in
  let HdrDataSize := zlen hdr0 / 2 in
  let* HDR := read_hdrs (Z.to_nat (gps_A gps + 1)) HdrDataSize Hdr in
  let* K := get_decryption_key gps recip index d_i HDR PK in
  let* K := get K in
  key_text K.

End bkem.
