(* ===== verification/BkemFacts.v ===== *)
(** * Broadcast encryption: members recover the key, and so does everybody else

    The exponents behind the header and the keys, over any pairing with the documented laws. *)
From S2P Require Import Prelude ParseInt Strings Smartutil Binascii ConsDiffDoc Bkem.

(** ** The parameters *)

Lemma setup_covers (N : Z) : 1 <= N -> let gps := setup_global_system N in
  1 <= gps_B gps /\ 1 <= gps_A gps /\ gps_N gps = gps_A gps * gps_B gps /\ N <= gps_N gps < N + gps_B gps.
Proof.
  intros HN. cbn. assert (HB : 1 <= Z.sqrt N) by (apply Z.sqrt_le_square; lia). set (B := Z.sqrt N) in *.
  rewrite Z.quot_div_nonneg by lia. pose proof (Z.div_mod (N + B - 1) B ltac:(lia)). pose proof (Z.mod_pos_bound (N + B - 1) B ltac:(lia)).
  split_and!; [done|apply Z.div_le_lower_bound; lia|done|nia|nia].
Qed.

Section bkem_facts.
Context {pbc : PBC} {spec : PBCSpec pbc} (gps : bkem_global_params) (g : G1) (alpha : Z) (gamma : Z -> Z).

(** A public key for [g], [alpha] and the [gamma]s: the powers of [alpha], except perhaps the one of
    [B + 1], which the scheme keeps secret. *)
Record public_key (PK : pubkey) : Prop := {
  pk_pos : 1 <= gps_B gps /\ 0 <= gps_A gps /\ gps_N gps = gps_A gps * gps_B gps;
  pk_gen : pk_g PK = g;
  pk_powers (j : Z) : 0 <= j < 2 * gps_B gps -> j <> gps_B gps -> aget (pk_g_i PK) j = Some (g1_pow g (alpha ^ (j + 1)));
  pk_lines (a : Z) : 0 <= a < gps_A gps -> aget (pk_v_i PK) a = Some (g1_pow g (gamma a));
  pk_count : zlen (pk_v_i PK) = gps_A gps
}.

Definition in_range (s : Z) : Prop := 0 <= s < gps_N gps.

Lemma in_range_line (s : Z) : 1 <= gps_B gps -> gps_N gps = gps_A gps * gps_B gps -> in_range s ->
  Z.quot s (gps_B gps) = s / gps_B gps /\ Z.rem s (gps_B gps) = s mod gps_B gps /\
  0 <= s / gps_B gps < gps_A gps /\ 0 <= s mod gps_B gps < gps_B gps.
Proof.
  unfold in_range. intros HB HN Hs. rewrite Z.quot_div_nonneg, Z.rem_mod_nonneg by lia.
  pose proof (Z.mod_pos_bound s (gps_B gps) ltac:(lia)). split_and!; [done|done|apply Z.div_pos; lia|apply Z.div_lt_upper_bound; lia|lia|lia].
Qed.

(** What the receivers of one line add to its exponent. *)
Fixpoint line_sum (a : Z) (recip : list Z) : Z :=
  match recip with
  | [] => 0
  | s :: recip => (if s / gps_B gps =? a then alpha ^ (gps_B gps - s mod gps_B gps) else 0) + line_sum a recip
  end.

(** What the other receivers of the line add to the exponent of [temp]. *)
Fixpoint others_sum (a b : Z) (recip : list Z) : Z :=
  match recip with
  | [] => 0
  | s :: recip =>
      (if (s / gps_B gps =? a) && negb (s mod gps_B gps =? b) then alpha ^ (gps_B gps - s mod gps_B gps + b + 1) else 0)
      + others_sum a b recip
  end.

Definition times (index : Z) (recip : list Z) : Z := zlen (filter (fun s => s = index) recip).

Lemma sums_relation (index : Z) (recip : list Z) : 1 <= gps_B gps -> 0 <= index ->
  let a := index / gps_B gps in let b := index mod gps_B gps in
  line_sum a recip * alpha ^ (b + 1) = others_sum a b recip + times index recip * alpha ^ (gps_B gps + 1).
Proof.
  intros HB Hi. cbn zeta. set (a := index / gps_B gps). set (b := index mod gps_B gps).
  assert (Hb : 0 <= b < gps_B gps) by (apply Z.mod_pos_bound; lia).
  unfold times. induction recip as [|s recip IH]; cbn [line_sum others_sum]; [done|].
  pose proof (Z.mod_pos_bound s (gps_B gps) ltac:(lia)) as Hs. rewrite Z.mul_add_distr_r, IH. clear IH.
  assert (Hsame : s / gps_B gps = a -> s mod gps_B gps = b -> s = index).
  { intros E1 E2. rewrite (Z.div_mod s (gps_B gps)), (Z.div_mod index (gps_B gps)) by lia. unfold a, b in *. by rewrite E1, E2. }
  destruct (Z.eqb_spec (s / gps_B gps) a) as [E1|E1]; [destruct (Z.eqb_spec (s mod gps_B gps) b) as [E2|E2]|]; cbn [andb negb].
  - rewrite filter_cons_True by auto. rewrite E2, <- Z.pow_add_r by lia. replace (gps_B gps - b + (b + 1)) with (gps_B gps + 1) by lia.
    unfold zlen. cbn [length]. lia.
  - rewrite filter_cons_False by (intros ->; done). rewrite <- Z.pow_add_r by lia.
    replace (gps_B gps - s mod gps_B gps + (b + 1)) with (gps_B gps - s mod gps_B gps + b + 1) by lia. lia.
  - rewrite filter_cons_False by (intros ->; done). lia.
Qed.

(** ** The two loops *)

Lemma add_recipients_ok (PK : pubkey) (h0 : G1) (recip : list Z) : public_key PK -> Forall in_range recip -> forall exps, zlen exps = gps_A gps ->
  exists exps', add_recipients gps PK recip (h0 :: (g1_pow g <$> exps)) = Ok (Some (h0 :: (g1_pow g <$> exps'))) /\
    zlen exps' = gps_A gps /\ forall a, aget exps' a = (fun x => x + line_sum a recip) <$> aget exps a.
Proof.
  intros HPK. destruct (pk_pos PK HPK) as (HB & HA & HN). induction 1 as [|s recip Hs _ IH]; intros exps Hl; cbn [add_recipients line_sum].
  - exists exps. split_and!; try done. intros a. destruct (aget exps a); cbn; [|done]. f_equal. lia.
  - destruct (in_range_line s HB HN Hs) as (Hq & Hr & Hline & Hp). rewrite Hq, Hr. destruct Hs as [Hs1 Hs2].
    rewrite (proj2 (Z.ltb_ge _ _)), (proj2 (Z.leb_gt _ _)) by lia. cbn [orb].
    set (line := s / gps_B gps) in *. set (pos := s mod gps_B gps) in *.
    destruct (aget_lt exps line) as (x & Hx & Hx'); [unfold zlen in Hl; lia|].
    assert (Hget : aget (h0 :: (g1_pow g <$> exps)) (line + 1) = Some (g1_pow g x)).
    { apply aget_Some. split; [lia|]. replace (Z.to_nat (line + 1)) with (S (Z.to_nat line)) by lia. change ((h0 :: ?l) !! S ?n) with (l !! n). by rewrite list_lookup_fmap, Hx'. }
    rewrite Hget. cbn [get obind]. rewrite (pk_powers PK HPK) by lia. cbn [get obind]. rewrite g1_pow_add.
    replace (gps_B gps - 1 - pos + 1) with (gps_B gps - pos) by lia.
    assert (Hset : aset (h0 :: (g1_pow g <$> exps)) (line + 1) (g1_pow g (x + alpha ^ (gps_B gps - pos)))
       = Ok (h0 :: (g1_pow g <$> <[Z.to_nat line := x + alpha ^ (gps_B gps - pos)]> exps))).
    { unfold aset. cbn [length]. rewrite length_fmap, (proj2 (Z.ltb_ge _ _)), (proj2 (Z.leb_gt _ _)) by (unfold zlen in Hl; lia). cbn [orb].
      replace (Z.to_nat (line + 1)) with (S (Z.to_nat line)) by lia. change (<[S ?n := ?y]> (?h :: ?l)) with (h :: <[n := y]> l). by rewrite list_fmap_insert. }
    rewrite Hset. cbn [obind]. destruct (IH (<[Z.to_nat line := x + alpha ^ (gps_B gps - pos)]> exps)) as (exps' & -> & Hl' & Ha); [unfold zlen in *; by rewrite length_insert|].
    exists exps'. split_and!; [done|done|]. intros a. rewrite Ha. unfold aget. destruct (Z.ltb_spec a 0); [done|].
    destruct (Z.eqb_spec line a) as [<-|E].
    + rewrite list_lookup_insert_eq by (unfold zlen in Hl; lia). rewrite Hx'. cbn. f_equal. lia.
    + rewrite list_lookup_insert_ne by lia. destruct (exps !! Z.to_nat a); cbn; [|done]. f_equal; lia.
Qed.

Lemma mul_others_ok (PK : pubkey) (a b : Z) (recip : list Z) : public_key PK -> Forall in_range recip -> 0 <= b < gps_B gps -> forall x,
  mul_others gps PK a b recip (g1_pow g x) = Ok (Some (g1_pow g (x + others_sum a b recip))).
Proof.
  intros HPK Hrec Hb. destruct (pk_pos PK HPK) as (HB & HA & HN). induction Hrec as [|s recip Hs _ IH]; intros x; cbn [mul_others others_sum].
  - by rewrite Z.add_0_r.
  - destruct (in_range_line s HB HN Hs) as (Hq & Hr & Hline & Hp). rewrite Hq, Hr. destruct Hs as [Hs1 Hs2].
    rewrite (proj2 (Z.ltb_ge _ _)), (proj2 (Z.ltb_ge _ _)) by lia. cbn [orb]. destruct (_ =? a) eqn:Ea; cbn [andb]; [|by rewrite IH, Z.add_0_l].
    destruct (Z.eqb_spec (s mod gps_B gps) b) as [E|E]; cbn [negb]; [by rewrite IH, Z.add_0_l|].
    rewrite (pk_powers PK HPK) by lia. cbn [get obind]. rewrite g1_pow_add, IH. by rewrite Z.add_assoc.
Qed.

(** ** The keys *)

(** The header that is made for some receivers and a random exponent. *)
Definition header_ok (recip : list Z) (t : Z) (HDR : list G1) : Prop :=
  zlen HDR = gps_A gps + 1 /\ aget HDR 0 = Some (g1_pow g t) /\
  forall a, 0 <= a < gps_A gps -> aget HDR (a + 1) = Some (g1_pow g ((gamma a + line_sum a recip) * t)).

(** The key that is encapsulated: a power of the pairing of the generator with itself. *)
Definition session_key (t : Z) : GT := gt_pow (pairing_apply g g) (alpha ^ (gps_B gps + 1) * t).

Lemma get_encryption_key_ok (PK : pubkey) (recip : list Z) (t : Z) : public_key PK -> Forall in_range recip ->
  exists HDR, get_encryption_key recip PK gps t = Ok (Some {| HDR := HDR; kp_K := session_key t |}) /\ header_ok recip t HDR.
Proof.
  intros HPK Hrec. destruct (pk_pos PK HPK) as (HB & HA & HN). unfold get_encryption_key.
  rewrite (pk_powers PK HPK (gps_B gps - 1)), (pk_powers PK HPK 0) by lia. cbn [get obind]. rewrite (pk_gen PK HPK).
  pose proof (pk_count PK HPK) as Hc. unfold zlen in Hc. rewrite (proj2 (Z.ltb_ge _ _)) by lia. cbn [obind].
  assert (Hv : take (Z.to_nat (gps_A gps)) (pk_v_i PK) = g1_pow g <$> (gamma <$> seqZ 0 (gps_A gps))).
  { rewrite take_ge by lia. apply list_eq. intros i. rewrite !list_lookup_fmap. destruct (decide (i < length (pk_v_i PK))%nat) as [Hi|Hi].
    - rewrite lookup_seqZ_lt by lia. cbn. pose proof (pk_lines PK HPK (Z.of_nat i) ltac:(lia)) as H. rewrite aget_nat in H. by rewrite H, Z.add_0_l.
    - rewrite lookup_seqZ_ge by lia. by rewrite lookup_ge_None_2 by lia. }
  rewrite Hv. destruct (add_recipients_ok PK (g1_pow g t) recip HPK Hrec (gamma <$> seqZ 0 (gps_A gps))) as (exps & -> & Hl & Ha).
  { unfold zlen. rewrite length_fmap, length_seqZ. lia. }
  cbn [obind]. eexists. split.
  - do 3 f_equal. unfold session_key. rewrite pairing_bilinear, gt_pow_mul. f_equal.
    replace (gps_B gps - 1 + 1) with (gps_B gps) by lia. by rewrite Z.add_0_l, Z.pow_add_r by lia.
  - split; [unfold zlen in *; cbn [length]; rewrite !length_fmap; lia|]. split; [done|]. intros a Hra.
    assert (Hx : exps !! Z.to_nat a = Some (gamma a + line_sum a recip)).
    { rewrite <- (aget_nat exps), Z2Nat.id, Ha by lia. unfold aget. rewrite (proj2 (Z.ltb_ge _ _)) by lia.
      rewrite list_lookup_fmap, lookup_seqZ_lt by lia. cbn. by rewrite Z.add_0_l, Z2Nat.id by lia. }
    apply aget_Some. split; [lia|]. replace (Z.to_nat (a + 1)) with (S (Z.to_nat a)) by lia. change ((?h :: ?l) !! S ?n) with (l !! n).
    rewrite !list_lookup_fmap, Hx. cbn. by rewrite g1_pow_mul.
Qed.

(** What anyone with the private key of [index] gets: the session key, as often as [index] is a receiver. *)
Lemma get_decryption_key_ok (PK : pubkey) (recip : list Z) (t index : Z) (HDR : list G1) (d_i : G1) : public_key PK -> Forall in_range recip ->
  in_range index -> header_ok recip t HDR ->
  d_i = g1_pow g (gamma (index / gps_B gps) * alpha ^ (index mod gps_B gps + 1)) ->
  get_decryption_key gps recip index d_i HDR PK = Ok (Some (gt_pow (session_key t) (times index recip))).
Proof.
  intros HPK Hrec Hidx (_ & H0 & Hlines) ->. destruct (pk_pos PK HPK) as (HB & HA & HN).
  destruct (in_range_line index HB HN Hidx) as (Hq & Hr & Ha & Hb). unfold get_decryption_key. rewrite Hq, Hr.
  pose proof (sums_relation index recip HB (proj1 Hidx)) as Hrel. cbn zeta in Hrel.
  set (a := index / gps_B gps) in *. set (b := index mod gps_B gps) in *.
  rewrite (pk_powers PK HPK) by lia. cbn [get obind]. rewrite Hlines by lia. cbn [get obind].
  rewrite mul_others_ok by done. cbn [obind]. rewrite H0. cbn [get obind]. do 2 f_equal.
  rewrite !pairing_bilinear, gt_pow_div. unfold session_key. rewrite gt_pow_mul. f_equal.
  transitivity ((line_sum a recip * alpha ^ (b + 1) - others_sum a b recip) * t); [ring|]. rewrite Hrel. ring.
Qed.

End bkem_facts.

(** ** The text of keys and headers *)

Definition hex2 (c : ascii) : bytes := [hexd_upper (b2z c / 16); hexd_upper (b2z c mod 16)].
Definition hex_text (data : bytes) : bytes := concat (hex2 <$> data).

Lemma hex_text_length (data : bytes) : zlen (hex_text data) = 2 * zlen data.
Proof.
  unfold zlen, hex_text. induction data as [|c data IH]; cbn [fmap list_fmap concat]; [done|].
  rewrite length_app. change (length (hex2 c)) with 2%nat. cbn [length]. change (list_fmap ascii bytes hex2 data) with (hex2 <$> data). lia.
Qed.

Lemma hex_text_app (a b : bytes) : hex_text (a ++ b) = hex_text a ++ hex_text b.
Proof. unfold hex_text. by rewrite fmap_app, concat_app. Qed.

Lemma print_bytes_ok (slack size : Z) (data : bytes) : forall str, zlen str + 2 * zlen data + 1 <= size + slack ->
  print_bytes slack size str data = Ok (str ++ hex_text data).
Proof.
  induction data as [|c data IH]; intros str Hl; cbn [print_bytes]; [by rewrite app_nil_r|].
  unfold sprintf_02X. fold (hex2 c). assert (Hc : zlen (c :: data) = 1 + zlen data) by (unfold zlen; cbn [length]; lia). rewrite Hc in Hl.
  assert (Hs : zlen (str ++ hex2 c) = zlen str + 2) by (by rewrite zlen_app). pose proof (zlen_nonneg data).
  rewrite Hs, (proj2 (Z.ltb_ge _ _)) by lia. cbn [obind]. rewrite IH by lia. by rewrite <- app_assoc.
Qed.

(** A text that does not fit is written past the end of its block. *)
Lemma print_bytes_overrun (slack size : Z) (data : bytes) : data <> [] -> forall str, size + slack < zlen str + 2 * zlen data + 1 ->
  print_bytes slack size str data = Stuck.
Proof.
  induction data as [|c data IH]; intros Hne str Hl; cbn [print_bytes]; [done|].
  unfold sprintf_02X. fold (hex2 c). assert (Hs : zlen (str ++ hex2 c) = zlen str + 2) by (by rewrite zlen_app). rewrite Hs.
  destruct (Z.ltb_spec (size + slack) (zlen str + 2 + 1)); [done|]. cbn [obind]. unfold zlen in *. cbn [length] in Hl.
  apply IH; [intros ->; cbn in *; lia|lia].
Qed.

(** What comes back from the chain: the text in lower case. *)
Definition lower_hex2 (c : ascii) : bytes := TOR_TOLOWER <$> hex2 c.

Lemma lower_hex2_scan (c : ascii) (s : bytes) : sscanf_2X (lower_hex2 c ++ s) = Some (b2z c).
Proof.
  set (P := fun z => bool_decide (isspace (TOR_TOLOWER (hexd_upper (b2z (z2b z) / 16))) = false /\ sscanf_2X (lower_hex2 (z2b z)) = Some (b2z (z2b z)))).
  assert (HP : P (b2z c) = true) by (apply (forall_range P 256); [by vm_compute|apply b2z_range]). unfold P in HP. rewrite z2b_b2z in HP.
  apply bool_decide_eq_true in HP as [H1 H2]. rewrite <- H2. unfold sscanf_2X, lower_hex2, hex2. cbn [fmap list_fmap app skip_space]. by rewrite H1.
Qed.

Lemma put_uint_byte (out : list (option ascii)) (k : nat) (x : list (option ascii)) (c : ascii) : length x = k -> (4 <= k)%nat ->
  exists x', put_uint (out ++ x) (Z.of_nat (length out)) (b2z c) = Ok ((out ++ [Some c]) ++ x') /\ S (length x') = k.
Proof.
  intros <- Hk. destruct x as [|x0 [|x1 [|x2 [|x3 x]]]]; cbn [length] in Hk; try lia. unfold put_uint.
  rewrite (aset_emit out _ x0) by done. cbn [obind]. rewrite (aset_emit (out ++ [_]) _ x1) by (rewrite length_app; cbn; lia). cbn [obind].
  rewrite (aset_emit ((out ++ [_]) ++ [_]) _ x2) by (rewrite !length_app; cbn; lia). cbn [obind].
  rewrite (aset_emit (((out ++ [_]) ++ [_]) ++ [_]) _ x3) by (rewrite !length_app; cbn; lia).
  rewrite z2b_b2z, <- !app_assoc. cbn [app]. eexists. rewrite <- app_assoc. split; [reflexivity|]. cbn. lia.
Qed.

Lemma scan_hdr_ok (data : bytes) : forall fuel out x, (length data < fuel)%nat -> (length data + 3 <= length x)%nat ->
  exists x', scan_hdr fuel (concat (lower_hex2 <$> data)) (out ++ x) (Z.of_nat (length out)) = Ok ((out ++ (Some <$> data)) ++ x') /\
    (length data + length x' = length x)%nat.
Proof.
  induction data as [|c data IH]; intros fuel out x Hf Hx.
  - exists x. destruct fuel; cbn; rewrite app_nil_r; done.
  - destruct fuel as [|f]; [cbn in Hf; lia|]. cbn [fmap list_fmap concat scan_hdr]. rewrite lower_hex2_scan.
    destruct (put_uint_byte out (length x) x c) as (x1 & Hput & Hl); [done|cbn [length] in Hx; lia|]. rewrite Hput. cbn [obind].
    assert (Hd : drop 2 (lower_hex2 c ++ concat (lower_hex2 <$> data)) = concat (lower_hex2 <$> data)) by done.
    assert (Hlen : (length (lower_hex2 c ++ concat (lower_hex2 <$> data)) <? 2)%nat = false) by (by rewrite length_app). 
    rewrite Hlen, Hd. cbn [length] in Hf, Hx. destruct (IH f (out ++ [Some c]) x1) as (x' & Hs & Hl'); [lia|lia|].
    rewrite length_app in Hs. cbn [length] in Hs. replace (Z.of_nat (length out) + 1) with (Z.of_nat (length out + 1)) by lia.
    fold (@fmap list list_fmap _ _ lower_hex2 data). rewrite Hs. exists x'. cbn [fmap list_fmap]. rewrite <- !app_assoc. cbn [app]. split; [done|cbn [length]; lia].
Qed.

(** What [Relay.py] makes of the header on the chain: pieces of [n] characters. *)
Definition relay_hdr (k n : nat) (hdr : bytes) : list bytes := (fun i => take n (drop (i * n) hdr)) <$> seq 0 k.

Lemma relay_hdr_pieces (n : nat) (ls : list bytes) : Forall (fun l => length l = n) ls -> relay_hdr (length ls) n (concat ls) = ls.
Proof.
  unfold relay_hdr. induction 1 as [|l ls Hl Hls IH]; [done|]. cbn [length seq fmap list_fmap concat]. f_equal.
  - cbn. rewrite <- Hl. apply take_app_length.
  - rewrite <- IH at 2. rewrite <- fmap_S_seq, <- list_fmap_compose. apply list_fmap_ext. intros k i _. cbn [compose].
    rewrite <- Hl. cbn [Nat.mul]. rewrite <- drop_drop. by rewrite drop_app_length.
Qed.

Lemma lower_hex_text (data : bytes) : TOR_TOLOWER <$> hex_text data = concat (lower_hex2 <$> data).
Proof.
  unfold hex_text. induction data as [|c data IH]; [done|]. cbn [fmap list_fmap concat]. rewrite <- IH.
  change (list_fmap ascii ascii TOR_TOLOWER) with (fmap (M := list) TOR_TOLOWER). by rewrite fmap_app.
Qed.

Lemma hex_text_concat (l : list bytes) : hex_text (concat l) = concat (hex_text <$> l).
Proof. induction l as [|d l IH]; [done|]. cbn [concat fmap list_fmap]. by rewrite hex_text_app, IH. Qed.

Section bkem_text.
Context {pbc : PBC} {spec : PBCSpec pbc} (slack : Z).

Lemma read_hdr_ok (h : G1) : 3 <= slack -> read_hdr slack (Z.of_nat g1_length) (TOR_TOLOWER <$> hex_text (g1_to_bytes_compressed h)) = Ok h.
Proof.
  intros Hs. pose proof (g1_compressed_length h) as Hl. set (data := g1_to_bytes_compressed h) in *. unfold read_hdr. rewrite lower_hex_text.
  set (n := Z.to_nat (Z.of_nat g1_length + slack)).
  assert (Hfuel : (length data < S (length (concat (lower_hex2 <$> data))))%nat).
  { rewrite <- lower_hex_text, length_fmap. pose proof (hex_text_length data) as H. unfold zlen in H. lia. }
  destruct (scan_hdr_ok data _ [] (replicate n None) Hfuel) as (x & Hscan & Hx); [rewrite length_replicate; lia|].
  cbn [app length] in Hscan. change (Z.of_nat 0) with 0 in Hscan. rewrite Hscan. cbn [obind]. rewrite length_replicate in Hx.
  rewrite length_app, length_fmap, (proj2 (Nat.ltb_ge _ _)) by lia.
  assert (Htake : take g1_length ((Some <$> data) ++ x) = Some <$> data) by (apply take_app_length'; by rewrite length_fmap).
  rewrite Htake. assert (Hm : mapM id (Some <$> data) = Some data) by (apply mapM_Some; rewrite Forall2_fmap_l; by apply Forall_Forall2_diag, Forall_true).
  rewrite Hm. cbn [get obind]. unfold data. by rewrite g1_decompress.
Qed.

Lemma read_hdrs_ok (hs : list G1) : 3 <= slack ->
  read_hdrs slack (length hs) (Z.of_nat g1_length) ((fun h => TOR_TOLOWER <$> hex_text (g1_to_bytes_compressed h)) <$> hs) = Ok hs.
Proof.
  intros Hs. induction hs as [|h hs IH]; [done|]. cbn [length fmap list_fmap read_hdrs]. rewrite read_hdr_ok by done. cbn [obind].
  change (list_fmap G1 bytes ?f hs) with (f <$> hs). by rewrite IH.
Qed.

(** The elements of the second group have a fixed size, whose text fits its block. *)
Definition gt_text_fits : Prop := forall K : GT, 1 <= zlen (gt_to_bytes K) /\ 2 * zlen (gt_to_bytes K) + 1 <= 512.

Lemma key_text_ok (K : GT) : 0 <= slack -> gt_text_fits -> key_text slack K = Ok (hex_text (gt_to_bytes K)).
Proof.
  intros Hs Hf. destruct (Hf K) as [H1 H2]. unfold key_text. destruct (gt_to_bytes K) as [|c d] eqn:E; [unfold zlen in H1; cbn [length] in H1; lia|]. rewrite <- E.
  rewrite print_bytes_ok; [done|]. rewrite E. change (zlen []) with 0. lia.
Qed.
End bkem_text.

(** ** The scheme *)

Section bkem_scheme.
Context {pbc : PBC} {spec : PBCSpec pbc}.

(** The text of a header as it comes back from the chain, in pieces. *)
Definition hdr_texts (HDR : list G1) : list bytes := (fun h => TOR_TOLOWER <$> hex_text (g1_to_bytes_compressed h)) <$> HDR.

Lemma hdr_texts_concat (HDR : list G1) : TOR_TOLOWER <$> hex_text (concat (g1_to_bytes_compressed <$> HDR)) = concat (hdr_texts HDR).
Proof.
  rewrite hex_text_concat. unfold hdr_texts. induction HDR as [|h hs IH]; [done|]. cbn [fmap list_fmap concat]. rewrite <- IH. apply fmap_app.
Qed.
Lemma hdr_texts_length (HDR : list G1) : Forall (fun s => length s = (2 * g1_length)%nat) (hdr_texts HDR).
Proof.
  unfold hdr_texts. apply Forall_fmap, Forall_true. intros h. cbn [compose]. rewrite length_fmap.
  pose proof (hex_text_length (g1_to_bytes_compressed h)) as H. unfold zlen in H. rewrite g1_compressed_length in H. lia.
Qed.

Section bkem_ends.
Context (gps : bkem_global_params) (g : G1) (alpha : Z) (gamma : Z -> Z).

Lemma bkem_encryption_ok (slack : Z) (BEPK : bytes) (PK : pubkey) (recip : list Z) (t : Z) : 3 <= slack -> gt_text_fits ->
  bkem_param BEPK = Ok (gps, PK) -> public_key gps g alpha gamma PK -> Forall (in_range gps) recip ->
  exists HDR, header_ok gps g alpha gamma recip t HDR /\
    bkem_encryption slack BEPK recip t = Ok (hex_text (gt_to_bytes (session_key gps g alpha t)), hex_text (concat (g1_to_bytes_compressed <$> HDR))).
Proof.
  intros Hs Hfit Hpar HPK Hrec. destruct (get_encryption_key_ok gps g alpha gamma PK recip t HPK Hrec) as (HDR & Henc & Hhdr). pose proof Hhdr as (Hlen & _ & _).
  exists HDR. split; [done|].
  assert (Hsz : forall hs : list G1, zlen (concat (g1_to_bytes_compressed <$> hs)) = Z.of_nat g1_length * zlen hs).
  { unfold zlen. induction hs as [|h hs IH]; cbn [fmap list_fmap concat length]; [lia|]. rewrite length_app, g1_compressed_length. change (list_fmap G1 bytes ?f hs) with (f <$> hs). lia. }
  unfold bkem_encryption. rewrite Hpar. cbn [obind]. rewrite Henc. cbn [obind get kp_K Bkem.HDR]. rewrite key_text_ok by (done || lia). cbn [obind].
  rewrite print_bytes_ok; [done|]. rewrite Hsz, Hlen. unfold zlen. cbn [length]. lia.
Qed.

Lemma bkem_decryption_ok (slack : Z) (BEPK BESK line rest : bytes) (PK : pubkey) (recip : list Z) (t index : Z) (HDR : list G1) :
  3 <= slack -> gt_text_fits -> bkem_param BEPK = Ok (gps, PK) -> public_key gps g alpha gamma PK ->
  fgets_512 None BESK = (Some line, rest) ->
  g1_set_str (cstr line) = g1_pow g (gamma (index / gps_B gps) * alpha ^ (index mod gps_B gps + 1)) ->
  Forall (in_range gps) recip -> in_range gps index -> times index recip = 1 -> header_ok gps g alpha gamma recip t HDR ->
  bkem_decryption slack BEPK BESK recip index (hdr_texts HDR) = Ok (hex_text (gt_to_bytes (session_key gps g alpha t))).
Proof.
  intros Hs Hfit Hpar HPK Hline Hd Hrec Hidx Hone Hhdr.
  unfold bkem_decryption. rewrite Hpar. cbn [obind]. rewrite Hline. cbn [fst get obind]. rewrite Hd.
  pose proof Hhdr as (Hlen & Hfirst & Hrest). set (h0 := g1_pow g t) in *.
  assert (H0 : hdr_texts HDR !! 0%nat = Some (TOR_TOLOWER <$> hex_text (g1_to_bytes_compressed h0))).
  { apply aget_Some in Hfirst as [_ Hfirst]. unfold hdr_texts. by rewrite list_lookup_fmap, (Hfirst : HDR !! 0%nat = _). }
  rewrite H0. cbn [get obind].
  assert (Hsize : zlen (TOR_TOLOWER <$> hex_text (g1_to_bytes_compressed h0)) / 2 = Z.of_nat g1_length).
  { unfold zlen. rewrite length_fmap. change (Z.of_nat (length (hex_text ?d))) with (zlen (hex_text d)). rewrite hex_text_length. unfold zlen. rewrite g1_compressed_length.
    rewrite Z.mul_comm. by apply Z.div_mul. }
  rewrite Hsize. replace (Z.to_nat (gps_A gps + 1)) with (length HDR) by (unfold zlen in Hlen; lia). unfold hdr_texts. rewrite read_hdrs_ok by done. cbn [obind].
  rewrite (get_decryption_key_ok gps g alpha gamma PK recip t index HDR _ HPK Hrec Hidx Hhdr eq_refl). cbn [get obind]. rewrite Hone.
  assert (H1 : gt_pow (session_key gps g alpha t) 1 = session_key gps g alpha t) by (unfold session_key; by rewrite gt_pow_mul, Z.mul_1_r).
  rewrite H1. apply key_text_ok; [lia|done].
Qed.

(** C7: with blocks that have three spare bytes, broadcast encryption works end to end: a set of receivers in range, a random exponent and the
    public key file give a key and a header; and every relay that is a receiver, exactly once, gets the same key from the header, as it comes
    back from the chain, with its own private key file. *)
Theorem bkem_roundtrip (slack : Z) (BEPK BESK line rest : bytes) (PK : pubkey)
    (recip : list Z) (t index : Z) :
  3 <= slack -> gt_text_fits -> (1 <= g1_length)%nat ->
  bkem_param BEPK = Ok (gps, PK) -> public_key gps g alpha gamma PK ->
  fgets_512 None BESK = (Some line, rest) ->
  g1_set_str (cstr line) = g1_pow g (gamma (index / gps_B gps) * alpha ^ (index mod gps_B gps + 1)) ->
  Forall (in_range gps) recip -> in_range gps index -> times index recip = 1 ->
  exists KeyStr Hdr, bkem_encryption slack BEPK recip t = Ok (KeyStr, Hdr) /\
    bkem_decryption slack BEPK BESK recip index (relay_hdr (Z.to_nat (gps_A gps + 1)) (2 * g1_length) (TOR_TOLOWER <$> Hdr)) = Ok KeyStr.
Proof.
  intros Hs Hfit Hg1 Hpar HPK Hline Hd Hrec Hidx Hone. destruct (bkem_encryption_ok slack BEPK PK recip t Hs Hfit Hpar HPK Hrec) as (HDR & Hhdr & Henc).
  eexists _, _. split; [exact Henc|]. rewrite hdr_texts_concat. destruct Hhdr as (Hlen & Hhdr).
  replace (Z.to_nat (gps_A gps + 1)) with (length (hdr_texts HDR)) by (unfold hdr_texts; rewrite length_fmap; unfold zlen in Hlen; lia).
  rewrite relay_hdr_pieces by apply hdr_texts_length. by eapply bkem_decryption_ok.
Qed.

End bkem_ends.

(** C8: the key files hold one power too many. When the public key also has the element for the exponent of [B + 1], as the table of [2 B]
    elements that [bkem_param] reads makes it, then the key of every header is the pairing of that element with the first element of the
    header: whoever reads the public key and the header off the chain has the key, receiver or not. *)
Theorem bkem_key_is_public (gps : bkem_global_params) (PK : pubkey) (g : G1) (alpha : Z) (gamma : Z -> Z) (recip : list Z) (t : Z) :
  public_key gps g alpha gamma PK -> Forall (in_range gps) recip ->
  aget (pk_g_i PK) (gps_B gps) = Some (g1_pow g (alpha ^ (gps_B gps + 1))) ->
  exists kp gB h0, get_encryption_key recip PK gps t = Ok (Some kp) /\ aget (pk_g_i PK) (gps_B gps) = Some gB /\
    aget (HDR kp) 0 = Some h0 /\ kp_K kp = pairing_apply gB h0.
Proof.
  intros HPK Hrec HB. destruct (get_encryption_key_ok gps g alpha gamma PK recip t HPK Hrec) as (HDR & -> & _ & H0 & _).
  eexists _, _, _. split; [reflexivity|]. split; [exact HB|]. split; [exact H0|]. cbn [kp_K]. by rewrite pairing_bilinear.
Qed.

Lemma read_elements_no_err (n : nat) : forall strLine file, read_elements n strLine file <> Err /\
  forall l, read_elements n strLine file = Ok l -> length l = n.
Proof.
  induction n as [|n IH]; intros strLine file; cbn [read_elements]; [split; [done|by intros l [= <-]]|].
  destruct (fgets_512 strLine file) as [s f]. destruct s as [line|]; cbn [get obind]; [|done].
  destruct (IH (Some line) f) as [H1 H2]. destruct (read_elements n (Some line) f); cbn [obind]; [|done|done].
  split; [done|]. intros l [= <-]. cbn [length]. by rewrite H2.
Qed.

Lemma bkem_param_no_err (BEPK : bytes) : bkem_param BEPK <> Err /\
  forall gps PK, bkem_param BEPK = Ok (gps, PK) -> gps_A gps = 33.
Proof.
  unfold bkem_param. set (n := Z.to_nat _). destruct (read_elements_no_err n None BEPK) as [H1 _].
  destruct (read_elements n None BEPK) as [[|g l]| |]; cbn [obind]; [done| |done|done]. split; [done|]. by intros gps PK [= <- _].
Qed.

Lemma add_recipients_no_err (gps : bkem_global_params) (PK : pubkey) (recip : list Z) : forall HDR, add_recipients gps PK recip HDR <> Err /\
  forall HDR', add_recipients gps PK recip HDR = Ok (Some HDR') -> length HDR' = length HDR.
Proof.
  induction recip as [|s recip IH]; intros HDR; cbn [add_recipients]; [split; [done|by intros HDR' [= <-]]|].
  destruct (_ || _); [done|]. destruct (aget HDR _) as [h|]; cbn [get obind]; [|done]. destruct (aget (pk_g_i PK) _) as [x|]; cbn [get obind]; [|done].
  unfold aset. destruct (_ || _); cbn [obind]; [done|]. destruct (IH (<[Z.to_nat (s ÷ gps_B gps + 1):=g1_mul h x]> HDR)) as [H1 H2].
  split; [done|]. intros HDR' H. rewrite (H2 _ H). apply length_insert.
Qed.

Lemma get_encryption_key_no_err (gps : bkem_global_params) (PK : pubkey) (recip : list Z) (t : Z) : 0 <= gps_A gps ->
  get_encryption_key recip PK gps t <> Err /\
  forall kp, get_encryption_key recip PK gps t = Ok (Some kp) -> zlen (HDR kp) = gps_A gps + 1.
Proof.
  intros HA. unfold get_encryption_key. destruct (aget _ _) as [gB|]; cbn [get obind]; [|done]. destruct (aget _ 0) as [g0|]; cbn [get obind]; [|done].
  destruct (Z.ltb_spec (Z.of_nat (length (pk_v_i PK))) (gps_A gps)) as [|Hv]; cbn [obind]; [done|].
  set (H0 := _ :: take _ _). destruct (add_recipients_no_err gps PK recip H0) as [H1 H2].
  assert (Hl : length H0 = S (Z.to_nat (gps_A gps))) by (unfold H0; cbn [length]; rewrite length_take; lia).
  destruct (add_recipients gps PK recip H0) as [[[|h HDR]|]| |]; cbn [obind]; [done| |done|done|done]. split; [done|]. intros kp [= <-].
  cbn [Bkem.HDR]. specialize (H2 _ eq_refl). unfold zlen. cbn [length] in *. rewrite length_fmap. lia.
Qed.

Lemma print_bytes_no_err (slack size : Z) (data : bytes) : forall str, print_bytes slack size str data <> Err.
Proof.
  induction data as [|c data IH]; intros str; cbn [print_bytes]; [done|]. unfold sprintf_02X. destruct (_ <? _); cbn [obind]; [done|apply IH].
Qed.

(** the block for the text of the header has no room for the NUL: with blocks of exactly the size that is asked for, encryption never
    returns properly, whatever the receivers are; the last [sprintf] writes one byte past the end of the block. *)
Theorem bkem_encryption_overruns (BEPK : bytes) (recip : list Z) (t : Z) : (1 <= g1_length)%nat -> bkem_encryption 0 BEPK recip t = Stuck.
Proof.
  intros Hg1. unfold bkem_encryption. destruct (bkem_param_no_err BEPK) as [Hp1 Hp2]. destruct (bkem_param BEPK) as [[gps PK]| |]; cbn [obind]; [|done|done].
  specialize (Hp2 gps PK eq_refl). destruct (get_encryption_key_no_err gps PK recip t ltac:(lia)) as [He1 He2].
  destruct (get_encryption_key recip PK gps t) as [[kp|]| |]; cbn [obind get]; [|done|done|done]. specialize (He2 kp eq_refl).
  assert (Hk : key_text 0 (kp_K kp) <> Err) by (unfold key_text; case_match; [done|apply print_bytes_no_err]).
  destruct (key_text 0 (kp_K kp)); cbn [obind]; [|done|done].
  assert (Hsz : forall hs : list G1, zlen (concat (g1_to_bytes_compressed <$> hs)) = Z.of_nat g1_length * zlen hs).
  { unfold zlen. induction hs as [|h hs IH]; cbn [fmap list_fmap concat length]; [lia|]. rewrite length_app, g1_compressed_length. change (list_fmap G1 bytes ?f hs) with (f <$> hs). lia. }
  specialize (Hsz (HDR kp)). rewrite He2, Hp2 in Hsz. rewrite print_bytes_overrun; [done| |].
  - intros E. rewrite E in Hsz. unfold zlen in Hsz. cbn [length] in Hsz. lia.
  - rewrite Hsz, Hp2. change (zlen []) with 0. lia.
Qed.

(** A receiver out of range makes encryption use a key pair that was never assigned: [get_encryption_key] only logs and returns. *)
Lemma bkem_encryption_out_of_range (slack : Z) (BEPK : bytes) (recip1 recip2 : list Z) (s t : Z) (gps : bkem_global_params) (PK : pubkey) (g : G1) (alpha : Z) (gamma : Z -> Z) :
  bkem_param BEPK = Ok (gps, PK) -> public_key gps g alpha gamma PK -> Forall (in_range gps) recip1 -> ~ in_range gps s ->
  get_encryption_key (recip1 ++ s :: recip2) PK gps t = Ok None /\ bkem_encryption slack BEPK (recip1 ++ s :: recip2) t = Stuck.
Proof.
  intros Hpar HPK Hrec Hs. assert (Hnone : get_encryption_key (recip1 ++ s :: recip2) PK gps t = Ok None).
  { destruct (get_encryption_key_ok gps g alpha gamma PK recip1 t HPK Hrec) as (HDR & Hok & _). revert Hok. unfold get_encryption_key.
    destruct (aget _ _) as [gB|]; cbn [get obind]; [|done]. destruct (aget _ 0) as [g0|]; cbn [get obind]; [|done].
    destruct (_ <? _); cbn [obind]; [done|]. set (H0 := _ :: take _ _). clearbody H0. revert H0. clear Hpar. induction Hrec as [|r recip1 Hr _ IH]; intros H0; cbn [app add_recipients].
    - intros _. unfold in_range in Hs. destruct (Z.ltb_spec s 0); [done|]. by rewrite (proj2 (Z.leb_le _ _)) by lia.
    - destruct (_ || _); [done|]. destruct (aget H0 _) as [h|]; cbn [get obind]; [|done]. destruct (aget (pk_g_i PK) _) as [x|]; cbn [get obind]; [|done].
      destruct (aset H0 _ _) as [H1| |]; cbn [obind]; [|done|done]. apply IH. }
  split; [done|]. unfold bkem_encryption. rewrite Hpar. cbn [obind]. by rewrite Hnone.
Qed.

End bkem_scheme.

(** ** A small pairing *)

(** The residues modulo 251 with addition; the pairing is multiplication. *)
Definition residue : Type := { z : Z | ((0 <=? z) && (z <? 251)) = true }.
Lemma residue_bound (z : Z) : ((0 <=? z mod 251) && (z mod 251 <? 251)) = true.
Proof. pose proof (Z.mod_pos_bound z 251 ltac:(lia)). apply andb_true_iff. split; [apply Z.leb_le|apply Z.ltb_lt]; lia. Qed.
Definition mkr (z : Z) : residue := exist _ (z mod 251) (residue_bound z).

Lemma mkr_eq (x y : Z) : x mod 251 = y mod 251 -> mkr x = mkr y.
Proof. intros H. unfold mkr. apply (sig_eq_pi _). exact H. Qed.
Lemma mkr_id (x : residue) : mkr (`x) = x.
Proof. apply (sig_eq_pi _). destruct x as [z Hz]. cbn. apply andb_true_iff in Hz as [H1 H2]. apply Z.mod_small. lia. Qed.

Definition toy_pbc : PBC :=
  {| G1 := residue; GT := residue; g1_mul x y := mkr (`x + `y); g1_pow x a := mkr (a * `x); gt_mul x y := mkr (`x + `y);
     gt_pow x a := mkr (a * `x); gt_div x y := mkr (`x - `y); pairing_apply x y := mkr (`x * `y);
     g1_set_str s := mkr (st_val (strtol s 10)); g1_to_bytes_compressed x := z2b (`x) :: replicate 64 NUL;
     g1_from_bytes_compressed s := mkr (b2z (default NUL (head s))); g1_length := 65; gt_to_bytes x := replicate 16 (z2b (`x)) |}.

#[local] Ltac residues := intros; apply mkr_eq; cbn -[Z.modulo]; rewrite ?Zmult_mod_idemp_l, ?Zmult_mod_idemp_r, ?Zplus_mod_idemp_l, ?Zplus_mod_idemp_r, ?Zminus_mod_idemp_l, ?Zminus_mod_idemp_r, ?Zmult_mod_idemp_l, ?Zmult_mod_idemp_r.

#[local] Instance toy_spec : PBCSpec toy_pbc.
Proof.
  split.
  - residues. f_equal. ring.
  - residues. f_equal. ring.
  - residues. f_equal. ring.
  - residues. f_equal. ring.
  - residues. f_equal. ring.
  - done.
  - intros x. cbn. rewrite <- (mkr_id x) at 2. apply mkr_eq. destruct x as [z Hz]. cbn. apply andb_true_iff in Hz as [H1 H2]. 
    by rewrite b2z_z2b by lia.
Qed.

(** The keys of a system with the generator 1, [alpha] 3 and the [gamma]s [7 a + 5]: the public key file and the private key of relay 40. *)
Definition toy_line (z : Z) : bytes := print_int z ++ [NL].
Definition toy_gamma (a : Z) : Z := 7 * a + 5.
Definition toy_BEPK : bytes :=
  concat (toy_line <$> (1 :: ((fun j => 3 ^ (j + 1) mod 251) <$> seqZ 0 62) ++ (toy_gamma <$> seqZ 0 33))).
Definition toy_BESK : bytes := toy_line ((toy_gamma 1 * 3 ^ 10) mod 251).
Definition toy_gps : bkem_global_params := setup_global_system MAX_REALY_NUMBER.
Definition toy_pk : @pubkey toy_pbc :=
  @Build_pubkey toy_pbc (mkr 1) ((fun j => mkr (3 ^ (j + 1) mod 251)) <$> seqZ 0 62) ((fun a => mkr (toy_gamma a)) <$> seqZ 0 33).

Lemma Ok_eq {A} (x y : A) : Ok x = Ok y -> x = y.
Proof. by intros [= ->]. Qed.

Lemma toy_param : @bkem_param toy_pbc toy_BEPK = Ok (toy_gps, toy_pk).
Proof.
  unfold bkem_param. change (setup_global_system MAX_REALY_NUMBER) with toy_gps. change (Z.to_nat (1 + 2 * gps_B toy_gps + gps_A toy_gps)) with 96%nat.
  set (r := @read_elements toy_pbc 96 None toy_BEPK).
  assert (Hr : omap (fmap (fun x : residue => `x)) r = Ok (1 :: ((fun j => 3 ^ (j + 1) mod 251) <$> seqZ 0 62) ++ (toy_gamma <$> seqZ 0 33))) by (vm_compute; reflexivity).
  destruct r as [l| |]; [|done|done]. cbn [omap obind] in *. apply Ok_eq in Hr.
  assert (Hl : l = mkr <$> (1 :: ((fun j => 3 ^ (j + 1) mod 251) <$> seqZ 0 62) ++ (toy_gamma <$> seqZ 0 33))).
  { rewrite <- Hr, <- list_fmap_compose. symmetry. rewrite <- (list_fmap_id l) at 2. apply list_fmap_ext. intros i x _. apply mkr_id. }
  rewrite Hl. cbn [fmap list_fmap]. change (list_fmap ?A ?B ?f ?x) with (f <$> x). rewrite fmap_app, <- !list_fmap_compose.
  rewrite take_app_length', drop_app_length' by (by rewrite length_fmap, length_seqZ). done.
Qed.

Lemma toy_power (j : Z) : 0 <= j < 62 -> aget (@pk_g_i toy_pbc toy_pk) j = Some (@g1_pow toy_pbc (mkr 1) (3 ^ (j + 1))).
Proof.
  intros Hj. unfold aget. rewrite (proj2 (Z.ltb_ge _ _)) by lia. cbn [pk_g_i toy_pk]. rewrite list_lookup_fmap, lookup_seqZ_lt by lia. cbn -[Z.pow Z.modulo].
  f_equal. apply mkr_eq. rewrite Z.add_0_l, Z2Nat.id, Z.mod_mod by lia. by rewrite Z.mul_1_r.
Qed.

Lemma toy_public : @public_key toy_pbc toy_gps (mkr 1) 3 toy_gamma toy_pk.
Proof.
  split; [by vm_compute|done| | |done].
  - intros j Hj _. by apply toy_power.
  - intros a Ha. change (0 <= a < 33) in Ha. unfold aget. rewrite (proj2 (Z.ltb_ge _ _)) by lia. cbn [pk_v_i toy_pk].
    rewrite list_lookup_fmap, lookup_seqZ_lt by lia. cbn -[Z.modulo toy_gamma]. f_equal. apply mkr_eq. rewrite Z.add_0_l, Z2Nat.id by lia. by rewrite Z.mul_1_r.
Qed.

Lemma bkem_roundtrip_witness :
  @gt_text_fits toy_pbc /\ @bkem_param toy_pbc toy_BEPK = Ok (toy_gps, toy_pk) /\ @public_key toy_pbc toy_gps (mkr 1) 3 toy_gamma toy_pk /\
  exists KeyStr Hdr, @bkem_encryption toy_pbc 3 toy_BEPK [7; 40; 1022] 99 = Ok (KeyStr, Hdr) /\
    @bkem_decryption toy_pbc 3 toy_BEPK toy_BESK [7; 40; 1022] 40 (relay_hdr 34 130 (TOR_TOLOWER <$> Hdr)) = Ok KeyStr.
Proof.
  assert (Hfit : @gt_text_fits toy_pbc) by (intros K; by vm_compute).
  split; [exact Hfit|]. split; [exact toy_param|]. split; [exact toy_public|].
  refine (@bkem_roundtrip toy_pbc toy_spec toy_gps (mkr 1) 3 toy_gamma 3 toy_BEPK toy_BESK toy_BESK [] toy_pk [7; 40; 1022] 99 40
    _ Hfit _ toy_param toy_public _ _ _ _ _); [done|cbn; lia|vm_compute; reflexivity| | |by vm_compute|done].
  - apply (sig_eq_pi _). by vm_compute.
  - repeat (constructor; [by vm_compute|]). constructor.
Defined.

Lemma bkem_key_is_public_witness :
  exists kp gB h0, @get_encryption_key toy_pbc [7; 40] toy_pk toy_gps 99 = Ok (Some kp) /\ aget (@pk_g_i toy_pbc toy_pk) 31 = Some gB /\
    aget (HDR kp) 0 = Some h0 /\ kp_K kp = @pairing_apply toy_pbc gB h0.
Proof.
  refine (@bkem_key_is_public toy_pbc toy_spec toy_gps toy_pk (mkr 1) 3 toy_gamma [7; 40] 99 toy_public _ _).
  - repeat (constructor; [by vm_compute|]). constructor.
  - by apply toy_power.
Defined.

Lemma bkem_encryption_overruns_witness : @bkem_encryption toy_pbc 0 toy_BEPK [7; 40; 1022] 99 = Stuck.
Proof. apply (@bkem_encryption_overruns toy_pbc toy_spec toy_BEPK [7; 40; 1022] 99). vm_compute. lia. Defined.
