(* ===== verification/Consensus.v ===== *)
(** * The current consensus: [feature/nodelist/networkstatus.c]

    Which consensus is current, how a document replaces it and what is carried over, and the lookups in
    the list of entries. A loaded consensus is the parsed document together with what the process keeps
    per entry. Notifications of other modules are not included; the check of the required protocols is in [RequiredProtos]. *)
From S2P Require Import Prelude ParseInt Strings Smartutil Binascii DiOps Inaddr Address PolicySummary CryptoRsa CryptoFormat ParseCommon Gsri.

Definition REASONABLY_LIVE_TIME : Z := 24 * 60 * 60.
Definition NSSET_REQUIRE_FLAVOR : Z := 16.

Section consensus.
Context {ssl : OpenSSL} (download_status : Type) (fresh_dl_status : download_status).

(** An entry with its local fields, and a consensus in memory. *)
Record entry := { e_rs : routerstatus; last_dir_503_at : Z; descriptor_digest : bytes; dl_status : download_status }.
Record loaded := { l_ns : networkstatus; l_list : list entry }.

(** The parser leaves the local fields, and the descriptor digest, at zero. *)
Definition new_entry (rs : routerstatus) : entry :=
  {| e_rs := rs; last_dir_503_at := 0; descriptor_digest := replicate DIGEST256_LEN NUL; dl_status := fresh_dl_status |}.
Definition load (ns : networkstatus) : loaded := {| l_ns := ns; l_list := new_entry <$> routerstatus_list ns |}.

(** ** Lookups *)

(** Digests are arrays of 20 bytes, so that the comparison has a value. *)
Definition compare_digest_to_routerstatus_entry (key : bytes) (rs : entry) : Z :=
  match tor_memcmp key (rs_identity_digest (e_rs rs)) DIGEST_LEN with Ok z => z | _ => 0 end.

Definition networkstatus_vote_find_mutable_entry (ns : loaded) (digest : bytes) : outcome (option entry) :=
  smartlist_bsearch (l_list ns) (compare_digest_to_routerstatus_entry digest).
Definition networkstatus_vote_find_entry (ns : loaded) (digest : bytes) : outcome (option entry) :=
  networkstatus_vote_find_mutable_entry ns digest.
Definition networkstatus_vote_find_entry_idx (ns : loaded) (digest : bytes) : outcome (Z * bool) :=
  smartlist_bsearch_idx (l_list ns) (compare_digest_to_routerstatus_entry digest).

(** ** What is carried over *)

(** [SMARTLIST_FOREACH_JOIN]: the inner loop goes over the old entries that are smaller. *)
Fixpoint join_seek (old : list entry) (rs_new : entry) : outcome (option entry * list entry) :=
  match old with
  | [] => Ok (None, [])
  | rs_old :: rest =>
      let* cmp := tor_memcmp (rs_identity_digest (e_rs rs_old)) (rs_identity_digest (e_rs rs_new)) DIGEST_LEN in
      if 0 <? cmp then Ok (None, old)
      else if cmp =? 0 then Ok (Some rs_old, old)
      else join_seek rest rs_new
  end.

Definition carry_over (rs_old rs_new : entry) : entry :=
  {| e_rs := e_rs rs_new; last_dir_503_at := last_dir_503_at rs_old; descriptor_digest := descriptor_digest rs_new;
     dl_status := if bool_decide (take DIGEST256_LEN (descriptor_digest rs_old) = take DIGEST256_LEN (descriptor_digest rs_new))
                  then dl_status rs_old else dl_status rs_new |}.

Fixpoint join_loop (old new : list entry) : outcome (list entry) :=
  match new with
  | [] => Ok []
  | rs_new :: new =>
      let* (found, old) := join_seek old rs_new in
      let* rest := join_loop old new in
      Ok (match found with Some rs_old => carry_over rs_old rs_new | None => rs_new end :: rest)
  end.

Definition networkstatus_copy_old_consensus_info (new_c : loaded) (old_c : option loaded) : outcome loaded :=
  match old_c with
  | None => Ok new_c
  | Some old_c =>
      match l_list old_c with
      | [] => Ok new_c
      | _ => let* l := join_loop (l_list old_c) (l_list new_c) in Ok {| l_ns := l_ns new_c; l_list := l |}
      end
  end.

(** ** The current consensus *)

Record ns_globals := { current_ns_consensus : option loaded; current_md_consensus : option loaded }.

(** What the functions ask of the options. *)
Context (we_use_microdescriptors_for_circuits : bool) (serves_all_flavors : bool).

Definition usable_consensus_flavor : consensus_flavor :=
  if we_use_microdescriptors_for_circuits then FLAV_MICRODESC else FLAV_NS.
Definition we_want_to_fetch_flavor (flavor : consensus_flavor) : bool :=
  serves_all_flavors || bool_decide (flavor = usable_consensus_flavor).

Definition networkstatus_get_latest_consensus (g : ns_globals) : option loaded :=
  if we_use_microdescriptors_for_circuits then current_md_consensus g else current_ns_consensus g.
Definition networkstatus_get_latest_consensus_by_flavor (g : ns_globals) (f : consensus_flavor) : option loaded :=
  match f with FLAV_NS => current_ns_consensus g | FLAV_MICRODESC => current_md_consensus g end.

Definition networkstatus_is_live (ns : loaded) (now : Z) : bool :=
  (valid_after (l_ns ns) <=? now) && (now <=? valid_until (l_ns ns)).
Definition networkstatus_get_live_consensus (g : ns_globals) (now : Z) : option loaded :=
  match networkstatus_get_latest_consensus g with
  | Some ns => if networkstatus_is_live ns now then Some ns else None
  | None => None
  end.

Definition networkstatus_valid_after_is_reasonably_live (valid_after now : Z) : bool :=
  valid_after - REASONABLY_LIVE_TIME <=? now.
Definition networkstatus_valid_until_is_reasonably_live (valid_until now : Z) : bool :=
  now <=? valid_until + REASONABLY_LIVE_TIME.
Definition networkstatus_consensus_reasonably_live (consensus : option loaded) (now : Z) : bool :=
  match consensus with None => false | Some _ => true end.
Definition networkstatus_get_reasonably_live_consensus (g : ns_globals) (now : Z) (flavor : consensus_flavor) : option loaded :=
  let consensus := networkstatus_get_latest_consensus_by_flavor g flavor in
  if networkstatus_consensus_reasonably_live consensus now then consensus else None.

(** The result code and the new globals. *)
Definition networkstatus_set_current_consensus (consensus flavor : bytes) (flags : Z) (g : ns_globals) : outcome (Z * ns_globals) :=
  match networkstatus_parse_flavor_name flavor with
  | None => Ok (-2, g)
  | Some flav =>
      let* c := networkstatus_parse_vote_from_string consensus NS_TYPE_CONSENSUS in
      match c with
      | None => Ok (-2, g)
      | Some ns =>
          if bool_decide (ns_flavor ns <> flav) && negb (Z.land flags NSSET_REQUIRE_FLAVOR =? 0) then Ok (-1, g)
          else
            let flav := if bool_decide (ns_flavor ns <> flav) then ns_flavor ns else flav in
            if bool_decide (flav <> usable_consensus_flavor) && negb (we_want_to_fetch_flavor flav) then Ok (-1, g)
            else
              match flav with
              | FLAV_NS =>
                  let* c := networkstatus_copy_old_consensus_info (load ns) (current_ns_consensus g) in
                  Ok (0, {| current_ns_consensus := Some c; current_md_consensus := current_md_consensus g |})
              | FLAV_MICRODESC =>
                  let* c := networkstatus_copy_old_consensus_info (load ns) (current_md_consensus g) in
                  Ok (0, {| current_ns_consensus := current_ns_consensus g; current_md_consensus := Some c |})
              end
      end
  end.

(** The file that is read, and its contents, [None] when there is no such file; a client reads the GSRI in place of the cached
    consensus. *)
Definition clientPath : bytes := bs "/usr/local/BADNET-V3-client/".
Definition reload_consensus_from_file (is_client : bool) (read_file : bytes -> option bytes) (fname flavor : bytes) (flags : Z) (g : ns_globals)
    : outcome (Z * ns_globals) :=
  let fname := if is_client && (strcmp fname (clientPath ++ bs "lib/cached-microdesc-consensus") =? 0)
               then clientPath ++ bs "lib/GSRI" else fname in
  match read_file fname with
  | None => Ok (0, g)
  | Some data => networkstatus_set_current_consensus data flavor flags g
  end.

End consensus.

Arguments e_rs {download_status}.
Arguments l_list {download_status}.
Arguments l_ns {download_status}.
