(* ===== verification/ConsensusFacts.v ===== *)
(** * The current consensus: lookups, what is carried over, and any sequence of reloads *)
From stdpp Require Import gmap.
From S2P Require Import Prelude ParseInt Strings Smartutil Binascii DiOps Endian Inaddr InaddrFacts Address PolicySummary CryptoRsa CryptoFormat ParseCommon ParseFacts Gsri GsriFacts GsriRoundtrip Consensus.

(** ** Binary search on any list *)

(** Without any order on the members, binary search still ends within the list and passes its assertions; what it finds is a member. *)
Lemma bsearch_loop_total {A} (sl : list A) (compare : A -> Z) : sl <> [] ->
  forall fuel lo hi, 0 <= lo -> lo <= hi + 1 -> 0 <= hi < zlen sl -> hi - lo + 1 < Z.of_nat fuel ->
  (forall x, aget sl (lo - 1) = Some x -> 0 < compare x) ->
  (forall x, aget sl (hi + 1) = Some x -> compare x < 0) ->
  exists idx found, bsearch_loop fuel sl compare (zlen sl) lo hi = Ok (idx, found) /\
    (found = true -> exists x, aget sl idx = Some x /\ compare x = 0).
Proof.
  intros Hne. unfold zlen.
  induction fuel as [|f IH]; intros lo hi Hlo Hlh Hhi Hf Hbelow Habove; [lia|].
  cbn [bsearch_loop]. unfold tor_assert. destruct (Z.leb_spec lo hi) as [L|L].
  - set (mid := lo + (hi - lo) / 2). assert (Hmid : lo <= mid <= hi) by (unfold mid; dlia).
    destruct (aget_lt sl mid) as (x & Hx & _); [lia|]. rewrite Hx. cbn [get obind].
    destruct (Z.eqb_spec (compare x) 0) as [E|E]; [exists mid, true; split; [done|by exists x]|].
    destruct (Z.ltb_spec 0 (compare x)) as [Lc|Lc].
    + rewrite (proj2 (Z.ltb_lt _ _)) by lia.
      apply IH; try done; try lia. intros y. replace (mid + 1 - 1) with mid by lia. rewrite Hx. by intros [= <-].
    + rewrite (proj2 (Z.ltb_lt _ _)) by lia. destruct (Z.ltb_spec 0 mid) as [L0|L0].
      * apply IH; try done; try lia. intros y. replace (mid - 1 + 1) with mid by lia. rewrite Hx. intros [= <-]. lia.
      * rewrite (proj2 (Z.eqb_eq _ _)), (proj2 (Z.eqb_eq mid 0)) by lia. by exists 0, false.
  - assert (lo = hi + 1) as -> by lia. rewrite (proj2 (Z.eqb_eq _ _)), !(proj2 (Z.leb_le _ _)) by lia.
    destruct (Z.ltb_spec (hi + 1) (Z.of_nat (length sl))) as [Ll|Ll].
    + destruct (aget_lt sl (hi + 1)) as (x & Hx & _); [lia|]. rewrite Hx. cbn [get obind].
      rewrite (proj2 (Z.ltb_lt _ _)) by (by apply Habove). by exists (hi + 1), false.
    + destruct (aget_lt sl (Z.of_nat (length sl) - 1)) as (x & Hx & _); [lia|]. rewrite Hx. cbn [get obind].
      rewrite (proj2 (Z.ltb_lt _ _)); [by exists (hi + 1), false|]. apply Hbelow. by replace (hi + 1 - 1) with (Z.of_nat (length sl) - 1) by lia.
Qed.

Lemma bsearch_total {A} (sl : list A) (compare : A -> Z) :
  exists r, smartlist_bsearch sl compare = Ok r /\ forall x, r = Some x -> x ∈ sl /\ compare x = 0.
Proof.
  unfold smartlist_bsearch, smartlist_bsearch_idx, tor_assert. destruct (Z.eqb_spec (zlen sl) 0) as [E|E]; [by exists None|].
  rewrite (proj2 (Z.ltb_lt _ _)) by (unfold zlen in *; lia).
  destruct (bsearch_loop_total sl compare ltac:(by intros ->) (S (length sl)) 0 (zlen sl - 1)) as (idx & found & -> & Hf); try (unfold zlen in *; lia); [by intros x| |].
  { intros x Hx. apply aget_Some in Hx as [_ Hx]. apply lookup_lt_Some in Hx. unfold zlen in Hx. lia. }
  cbn [obind]. destruct found; [|by exists None]. destruct (Hf eq_refl) as (x & Hx & Hc). rewrite Hx. cbn [get obind]. exists (Some x). split; [done|].
  intros y [= <-]. split; [|done]. apply aget_Some in Hx as [_ Hx]. by apply list_elem_of_lookup_2 in Hx.
Qed.

Section consensus_facts.
Context {ssl : OpenSSL} {download_status : Type} (fresh_dl_status : download_status).
Abbreviation entry := (entry download_status).
Abbreviation loaded := (loaded download_status).

(** The digest of an entry as a number; the order of the numbers is that of the comparison. *)
Definition digest_num (e : entry) : Z := be (rs_identity_digest (e_rs e)).
Definition digest_ok (e : entry) : Prop := length (rs_identity_digest (e_rs e)) = DIGEST_LEN.
(** The order that the comments ask of the list. *)
Definition sorted_by_digest (l : list entry) : Prop :=
  forall i j x y, (i < j)%nat -> l !! i = Some x -> l !! j = Some y -> digest_num x < digest_num y.

Lemma memcmp_digest (a b : bytes) : length a = DIGEST_LEN -> length b = DIGEST_LEN ->
  exists z, tor_memcmp a b DIGEST_LEN = Ok z /\ Z.sgn z = Z.sgn (be a - be b) /\ (z = 0 <-> a = b).
Proof.
  intros Ha Hb. exists (first_diff a b). split; [rewrite memcmp_first_diff by lia; by rewrite !take_ge by lia|].
  split; [apply first_diff_sgn; congruence|]. split; [apply first_diff_0; congruence|intros ->; apply first_diff_eq].
Qed.

Lemma compare_digest_ok (key : bytes) (e : entry) : length key = DIGEST_LEN -> digest_ok e ->
  Z.sgn (compare_digest_to_routerstatus_entry download_status key e) = Z.sgn (be key - digest_num e) /\
  (compare_digest_to_routerstatus_entry download_status key e = 0 <-> key = rs_identity_digest (e_rs e)).
Proof.
  intros Hk He. unfold compare_digest_to_routerstatus_entry. destruct (memcmp_digest key (rs_identity_digest (e_rs e)) Hk He) as (z & -> & Hz & H0). done.
Qed.

Lemma lookup_sorted (l : list entry) (key : bytes) : length key = DIGEST_LEN -> Forall digest_ok l -> sorted_by_digest l ->
  exists r, smartlist_bsearch l (compare_digest_to_routerstatus_entry download_status key) = Ok r /\
    (forall e, r = Some e <-> e ∈ l /\ rs_identity_digest (e_rs e) = key).
Proof.
  intros Hk Hl Hs. set (cmp := compare_digest_to_routerstatus_entry download_status key). rewrite Forall_forall in Hl.
  assert (Hkey : key_sorted l cmp).
  { intros i j x y Hij Hx Hy. specialize (Hs i j x y Hij Hx Hy).
    destruct (compare_digest_ok key x Hk) as [Cx _]; [by apply Hl, list_elem_of_lookup_2 with i|].
    destruct (compare_digest_ok key y Hk) as [Cy _]; [by apply Hl, list_elem_of_lookup_2 with j|]. unfold cmp. lia. }
  destruct (bsearch_idx_ok l cmp Hkey) as (idx & found & Hi & Hpost). unfold smartlist_bsearch. rewrite Hi. cbn [obind].
  destruct found; cbn [bsearch_post] in Hpost.
  - destruct Hpost as (x & Hx & Hc). rewrite Hx. cbn [get obind]. eexists. split; [done|]. apply aget_Some in Hx as [_ Hx].
    assert (Hkx : rs_identity_digest (e_rs x) = key) by (symmetry; apply (compare_digest_ok key x Hk); [by eapply Hl, list_elem_of_lookup_2|done]).
    intros e. split; [intros [= <-]; split; [by eapply list_elem_of_lookup_2|done]|]. intros [He Hke]. apply list_elem_of_lookup in He as [j He].
    f_equal. destruct (Nat.lt_trichotomy (Z.to_nat idx) j) as [L|[E|L]]; [|congruence|].
    + specialize (Hs _ _ _ _ L Hx He). unfold digest_num in Hs. rewrite Hkx, Hke in Hs. lia.
    + specialize (Hs _ _ _ _ L He Hx). unfold digest_num in Hs. rewrite Hkx, Hke in Hs. lia.
  - exists None. split; [done|]. intros e. split; [done|]. intros [He Hke]. apply list_elem_of_lookup in He as [j He]. destruct Hpost as [_ Hpost].
    specialize (Hpost j e He). destruct (compare_digest_ok key e Hk) as [_ C0]; [by eapply Hl, list_elem_of_lookup_2|].
    assert (Hz : cmp e = 0) by (by apply C0). destruct (bool_decide _); lia.
Qed.


(** ** What is carried over *)

(** The entry of the old consensus with the identity of [n], if there is one. *)
Definition same_identity (n o : entry) : Prop := rs_identity_digest (e_rs o) = rs_identity_digest (e_rs n).
#[local] Instance same_identity_dec (n o : entry) : Decision (same_identity n o).
Proof. unfold same_identity. apply _. Defined.
Definition carried (old : list entry) (n : entry) : entry :=
  match filter (same_identity n) old with o :: _ => carry_over download_status o n | [] => n end.

Lemma join_seek_ok (n : entry) (old : list entry) : digest_ok n -> Forall digest_ok old ->
  exists found pre old', join_seek download_status old n = Ok (found, old') /\ old = pre ++ old' /\ Forall (fun o => digest_num o < digest_num n) pre /\
    match found with
    | Some o => same_identity n o /\ exists rest, old' = o :: rest
    | None => match old' with [] => True | o :: _ => digest_num n < digest_num o end
    end.
Proof.
  intros Hn. induction 1 as [|o old Ho _ (found & pre & old' & Hseek & Hold & Hpre & Hf)]; cbn [join_seek].
  - exists None, [], []. split_and!; [done|done|constructor|done].
  - destruct (memcmp_digest _ _ Ho Hn) as (z & -> & Hz & H0). fold (digest_num o) (digest_num n) in Hz. cbn [obind].
    destruct (Z.ltb_spec 0 z) as [L|L]; [exists None, [], (o :: old); split_and!; [done|done|constructor|lia]|].
    destruct (Z.eqb_spec z 0) as [E|E].
    + exists (Some o), [], (o :: old). split_and!; [done|done|constructor|by apply H0|by exists old].
    + exists found, (o :: pre), old'. split_and!; [done|by rewrite Hold|constructor; [lia|done]|done].
Qed.

Lemma join_loop_total (new : list entry) : Forall digest_ok new -> forall old, Forall digest_ok old ->
  exists l, join_loop download_status old new = Ok l /\ e_rs <$> l = e_rs <$> new.
Proof.
  induction 1 as [|n new Hn _ IH]; intros old Hold; cbn [join_loop]; [by exists []|].
  destruct (join_seek_ok n old Hn Hold) as (found & pre & old' & -> & E & _). cbn [obind].
  destruct (IH old') as (l & -> & Hl); [rewrite E in Hold; by apply Forall_app in Hold as [_ ?]|]. cbn [obind].
  eexists. split; [done|]. cbn [fmap list_fmap]. f_equal; [by destruct found|exact Hl].
Qed.

Lemma filter_none {A} (P : A -> Prop) `{!forall x, Decision (P x)} (l : list A) : Forall (fun x => ~ P x) l -> filter P l = [].
Proof. induction 1 as [|x l Hx _ IH]; [done|]. by rewrite filter_cons_False. Qed.

Lemma sorted_app (l1 l2 : list entry) : sorted_by_digest (l1 ++ l2) -> sorted_by_digest l2.
Proof.
  intros H i j x y Hij Hx Hy. apply (H (length l1 + i)%nat (length l1 + j)%nat x y); [lia| |];
    by rewrite lookup_app_r, Nat.add_comm, Nat.add_sub by lia.
Qed.

Lemma sorted_head (o : entry) (l : list entry) : sorted_by_digest (o :: l) -> Forall (fun x => digest_num o < digest_num x) l.
Proof. intros H. apply Forall_lookup. intros i x Hx. by apply (H 0%nat (S i) o x); [lia| |]. Qed.

Lemma join_loop_sorted (new : list entry) : Forall digest_ok new -> forall old, Forall digest_ok old -> sorted_by_digest old -> sorted_by_digest new ->
  join_loop download_status old new = Ok (carried old <$> new).
Proof.
  induction 1 as [|n new Hn _ IH]; intros old Hold Hso Hsn; cbn [join_loop]; [done|].
  assert (Hdiff : forall a b, digest_num a <> digest_num b -> ~ same_identity a b) by (intros a b H E; apply H; unfold digest_num; by rewrite E).
  destruct (join_seek_ok n old Hn Hold) as (found & pre & old' & -> & E & Hpre & Hf). cbn [obind].
  assert (Hso' : sorted_by_digest old') by (rewrite E in Hso; by eapply sorted_app).
  rewrite IH; [|rewrite E in Hold; by apply Forall_app in Hold as [_ ?]|done|by apply (sorted_app [n] new)]. cbn [obind fmap list_fmap]. do 2 f_equal.
  - assert (Hp0 : filter (same_identity n) pre = []) by (apply filter_none; eapply Forall_impl; [exact Hpre|]; intros o Ho; cbn in Ho; apply Hdiff; lia).
    unfold carried. rewrite E, filter_app, Hp0. cbn [app]. destruct found as [o|].
    + destruct Hf as (Hs & rest & ->). by rewrite filter_cons_True.
    + rewrite filter_none; [done|]. destruct old' as [|o old']; [constructor|]. constructor; [apply Hdiff; lia|].
      eapply Forall_impl; [by apply sorted_head|]. intros x Hx. cbn in Hx. apply Hdiff. lia.
  - apply list_fmap_ext. intros i m Hm.
    pose proof (sorted_head n new Hsn) as Hgt. rewrite Forall_lookup in Hgt. specialize (Hgt i m Hm). cbn in Hgt.
    assert (Hp0 : filter (same_identity m) pre = []) by (apply filter_none; eapply Forall_impl; [exact Hpre|]; intros o Ho; cbn in Ho; apply Hdiff; lia).
    unfold carried. by rewrite E, filter_app, Hp0.
Qed.

(** When a new consensus replaces an old one and both are sorted by identity digest, every entry keeps its status, and the entries whose
    relay was in the old consensus, and no others, take over its local information. *)
Theorem copy_old_consensus_info_correct (new_c old_c : loaded) :
  Forall digest_ok (l_list new_c) -> Forall digest_ok (l_list old_c) -> sorted_by_digest (l_list old_c) -> sorted_by_digest (l_list new_c) ->
  exists c, networkstatus_copy_old_consensus_info download_status new_c (Some old_c) = Ok c /\ l_ns c = l_ns new_c /\
    l_list c = carried (l_list old_c) <$> l_list new_c.
Proof.
  intros Hn Ho Hso Hsn. unfold networkstatus_copy_old_consensus_info. destruct (l_list old_c) as [|o old] eqn:E.
  - exists new_c. split; [done|]. split; [done|]. rewrite <- (list_fmap_id (l_list new_c)) at 1. by apply list_fmap_ext.
  - rewrite <- E in *. rewrite join_loop_sorted by done. cbn [obind]. eexists. split; [done|]. done.
Qed.

(** looking a relay up in the consensus always ends without a failed assertion and gives nothing or an entry of that identity; in
    a list that is sorted by identity digest it finds the entry whenever there is one. *)
Theorem find_entry_correct (ns : loaded) (digest : bytes) : length digest = DIGEST_LEN -> Forall digest_ok (l_list ns) ->
  exists r, networkstatus_vote_find_entry download_status ns digest = Ok r /\
    (forall e, r = Some e -> e ∈ l_list ns /\ rs_identity_digest (e_rs e) = digest) /\
    (sorted_by_digest (l_list ns) -> forall e, e ∈ l_list ns -> rs_identity_digest (e_rs e) = digest -> r = Some e).
Proof.
  intros Hd Hl. unfold networkstatus_vote_find_entry, networkstatus_vote_find_mutable_entry.
  destruct (bsearch_total (l_list ns) (compare_digest_to_routerstatus_entry download_status digest)) as (r & Hr & Hsome). exists r. split; [done|]. split.
  - intros e He. destruct (Hsome e He) as [Hin H0]. split; [done|]. symmetry. rewrite Forall_forall in Hl. by apply (compare_digest_ok digest e Hd (Hl e Hin)).
  - intros Hs e Hin He. destruct (lookup_sorted (l_list ns) digest Hd Hl Hs) as (r' & Hr' & Hiff). rewrite Hr in Hr'. injection Hr' as ->. by apply Hiff.
Qed.

(** ** The list of a GSRI is in the order of publication *)

Lemma rs_of_digest (ri : routerinfo) (policy : short_policy) : rs_identity_digest (rs_of ri policy) = ri_identity_digest ri.
Proof. done. Qed.

(** C23: nobody sorts the GSRI. When two relays are published and the digest of the first one is the greater, a client parses both,
    but looking up the second one in the consensus answers that there is no such relay. *)
Theorem gsri_lookup_misses (ri1 ri2 : routerinfo) : ri_ok ri1 -> ri_ok ri2 -> be (ri_identity_digest ri2) < be (ri_identity_digest ri1) ->
  exists e1 e2 ns rs, router_sri ri1 = Ok e1 /\ router_sri ri2 = Ok e2 /\
    networkstatus_parse_vote_from_string (e1 ++ e2) NS_TYPE_CONSENSUS = Ok (Some ns) /\
    rs ∈ routerstatus_list ns /\ rs_identity_digest rs = ri_identity_digest ri2 /\ rs_nickname rs = ri_nickname ri2 /\
    networkstatus_vote_find_entry download_status (load download_status fresh_dl_status ns) (ri_identity_digest ri2) = Ok None.
Proof.
  intros H1 H2 Hlt. destruct (gsri_published [ri1; ri2]) as (es & policy & ns & Hes & _ & Hparse & Hlist); [by apply Forall_cons; split; [|apply Forall_singleton]|].
  inversion Hes as [|? e1 ? es1 [He1 _] Hes1]; subst. inversion Hes1 as [|? e2 ? es2 [He2 _] Hes2]; subst. inversion Hes2; subst.
  cbn [concat] in Hparse. rewrite app_nil_r in Hparse. exists e1, e2, ns, (rs_of ri2 policy). split_and!; try done.
  { rewrite Hlist. right. by left. }
  unfold networkstatus_vote_find_entry, networkstatus_vote_find_mutable_entry, load. cbn [l_list]. rewrite Hlist.
  set (x1 := new_entry download_status fresh_dl_status (rs_of ri1 policy)). set (x2 := new_entry download_status fresh_dl_status (rs_of ri2 policy)).
  change (new_entry download_status fresh_dl_status <$> ((fun ri => rs_of ri policy) <$> [ri1; ri2])) with [x1; x2].
  destruct H1 as (_ & Hd1 & _). destruct H2 as (_ & Hd2 & _).
  destruct (compare_digest_ok (ri_identity_digest ri2) x1 Hd2) as [Hc _]; [done|].
  unfold smartlist_bsearch, smartlist_bsearch_idx. change (zlen [x1; x2]) with 2. change (2 =? 0) with false. cbn iota. cbn [tor_assert Z.ltb Z.compare].
  cbn [bsearch_loop length]. change (0 <=? 2 - 1) with true. cbn iota zeta. change (0 + (2 - 1 - 0) / 2) with 0. change (aget [x1; x2] 0) with (Some x1). cbn [get obind].
  set (c := compare_digest_to_routerstatus_entry _ _ _) in *. change (digest_num x1) with (be (ri_identity_digest ri1)) in Hc.
  rewrite (proj2 (Z.eqb_neq c 0)), (proj2 (Z.ltb_ge 0 c)), (proj2 (Z.ltb_lt c 0)) by lia. reflexivity.
Qed.

(** ** Any sequence of reloads *)

Section reloads.
Context (we_use_microdescriptors serves_all : bool).

(** The globals that the process can have: none at the start, then after any documents. *)
Inductive reachable : ns_globals download_status -> Prop :=
  | reach_start : reachable {| current_ns_consensus := None; current_md_consensus := None |}
  | reach_set (g g' : ns_globals download_status) (text flavor : bytes) (flags r : Z) : reachable g ->
      networkstatus_set_current_consensus download_status fresh_dl_status we_use_microdescriptors serves_all text flavor flags g = Ok (r, g') ->
      reachable g'.

(** What holds of a current consensus. *)
Definition consensus_inv (g : ns_globals download_status) : Prop :=
  current_ns_consensus _ g = None /\
  forall c, current_md_consensus _ g = Some c ->
    Forall rs_ok (e_rs <$> l_list c) /\ e_rs <$> l_list c = routerstatus_list (l_ns c) /\ valid_until (l_ns c) = 0 /\
    (we_use_microdescriptors = true \/ serves_all = true).

Lemma rs_ok_digests (l : list entry) : Forall rs_ok (e_rs <$> l) -> Forall digest_ok l.
Proof.
  rewrite !Forall_forall. intros H e He. destruct (H (e_rs e)) as (_ & Hd & _); [|exact Hd]. apply list_elem_of_fmap. by exists e.
Qed.

Lemma parse_vote_fields (text : bytes) (ns : networkstatus) : networkstatus_parse_vote_from_string text NS_TYPE_CONSENSUS = Ok (Some ns) ->
  ns_flavor ns = FLAV_MICRODESC /\ valid_until ns = 0.
Proof.
  unfold networkstatus_parse_vote_from_string. change (networkstatus_parse_flavor_name (bs "microdesc")) with (Some FLAV_MICRODESC). cbn iota.
  change (bool_decide (NS_TYPE_CONSENSUS <> NS_TYPE_CONSENSUS)) with false. change (flags_in_order gsri_flags) with true. cbn iota. cbn [negb].
  destruct (parse_entries_loop _ _ _ _ _) as [l| |]; cbn [obind]; [|done|done]. destruct (check_weights _); cbn [obind]; [|done|done]. by intros [= <-].
Qed.

Lemma copy_old_total (new_c : loaded) (old_c : option loaded) : Forall digest_ok (l_list new_c) ->
  (forall o, old_c = Some o -> Forall digest_ok (l_list o)) ->
  exists c, networkstatus_copy_old_consensus_info download_status new_c old_c = Ok c /\ l_ns c = l_ns new_c /\ e_rs <$> l_list c = e_rs <$> l_list new_c.
Proof.
  intros Hn Ho. unfold networkstatus_copy_old_consensus_info. destruct old_c as [o|]; [|by exists new_c]. specialize (Ho o eq_refl).
  destruct (l_list o) as [|x old] eqn:E; [by exists new_c|]. destruct (join_loop_total (l_list new_c) Hn (x :: old) Ho) as (l & -> & Hl). cbn [obind].
  eexists. split; [done|]. by split.
Qed.

(** One document: the result and the new globals. *)
Lemma set_current_ok (g : ns_globals download_status) (text flavor : bytes) (flags : Z) : consensus_inv g ->
  exists r g', networkstatus_set_current_consensus download_status fresh_dl_status we_use_microdescriptors serves_all text flavor flags g = Ok (r, g') /\
    consensus_inv g' /\
    ((r = -2 \/ r = -1) /\ g' = g \/
     r = 0 /\ exists ns c, networkstatus_parse_vote_from_string text NS_TYPE_CONSENSUS = Ok (Some ns) /\
       current_md_consensus _ g' = Some c /\ l_ns c = ns /\ e_rs <$> l_list c = routerstatus_list ns).
Proof.
  intros [Hns Hmd]. unfold networkstatus_set_current_consensus. destruct (networkstatus_parse_flavor_name flavor) as [flav|].
  2:{ exists (-2), g. split; [done|]. split; [by split|]. left. auto. }
  destruct (parse_vote_ok text NS_TYPE_CONSENSUS) as (c & Hparse & Hc). rewrite Hparse. cbn [obind]. destruct c as [ns|].
  2:{ exists (-2), g. split; [done|]. split; [by split|]. left. auto. }
  destruct (Hc ns eq_refl) as [Hrs _]. destruct (parse_vote_fields text ns Hparse) as [Hflav Hval]. rewrite Hflav.
  destruct (_ && _). { exists (-1), g. split; [done|]. split; [by split|]. left. auto. }
  assert (Hf : (if bool_decide (FLAV_MICRODESC <> flav) then FLAV_MICRODESC else flav) = FLAV_MICRODESC) by (by destruct flav).
  rewrite Hf. destruct (_ && negb (we_want_to_fetch_flavor _ _ _)) eqn:E.
  { exists (-1), g. split; [done|]. split; [by split|]. left. auto. }
  assert (Hopt : we_use_microdescriptors = true \/ serves_all = true).
  { revert E. unfold we_want_to_fetch_flavor, usable_consensus_flavor. destruct we_use_microdescriptors; [auto|]. destruct serves_all; [auto|done]. }
  assert (Hnew : e_rs <$> l_list (load download_status fresh_dl_status ns) = routerstatus_list ns).
  { cbn [load l_list]. rewrite <- list_fmap_compose. rewrite <- (list_fmap_id (routerstatus_list ns)) at 2. by apply list_fmap_ext. }
  destruct (copy_old_total (load download_status fresh_dl_status ns) (current_md_consensus _ g)) as (c & Hcopy & Hl & He).
  { apply rs_ok_digests. by rewrite Hnew. }
  { intros o Ho. apply rs_ok_digests. by destruct (Hmd o Ho). }
  rewrite Hcopy. cbn [obind]. eexists _, _. split; [reflexivity|]. rewrite Hnew in He. split.
  - split; [exact Hns|]. cbn [current_md_consensus]. intros c' [= <-]. rewrite He, Hl. cbn [load l_ns]. done.
  - right. split; [done|]. exists ns, c. done.
Qed.

Lemma reachable_inv (g : ns_globals download_status) : reachable g -> consensus_inv g.
Proof.
  induction 1 as [|g g' text flavor flags r _ IH Hset]; [by split|].
  destruct (set_current_ok g text flavor flags IH) as (r' & g2 & Hset' & Hinv & _). rewrite Hset in Hset'. by injection Hset' as -> ->.
Qed.

(** C22: after any sequence of documents, whatever their bytes, flavor and flags: loading one more ends without a failed assertion, with 0, -1 or -2;
    unless it is 0 the current consensus is the one from before; if it is 0 the current consensus is the parsed document, entry by entry.
    The entries of the current consensus are always well formed; there never is a consensus of flavor ns, so that without microdescriptors
    there is no latest consensus at all; and there never is a live consensus, as every document has 0 for the end of its validity. *)
Theorem consensus_reloads (g : ns_globals download_status) (text flavor : bytes) (flags now : Z) : reachable g -> 0 < now ->
  (exists r g', networkstatus_set_current_consensus download_status fresh_dl_status we_use_microdescriptors serves_all text flavor flags g = Ok (r, g') /\
    ((r = -2 \/ r = -1) /\ g' = g \/
     r = 0 /\ exists ns c, networkstatus_parse_vote_from_string text NS_TYPE_CONSENSUS = Ok (Some ns) /\
       current_md_consensus _ g' = Some c /\ l_ns c = ns /\ e_rs <$> l_list c = routerstatus_list ns)) /\
  (forall c, networkstatus_get_latest_consensus download_status we_use_microdescriptors g = Some c ->
     we_use_microdescriptors = true /\ Forall rs_ok (e_rs <$> l_list c)) /\
  networkstatus_get_live_consensus download_status we_use_microdescriptors g now = None.
Proof.
  intros Hg Hnow. apply reachable_inv in Hg as Hinv. destruct (set_current_ok g text flavor flags Hinv) as (r & g' & Hset & _ & Hres).
  destruct Hinv as [Hns Hmd]. unfold networkstatus_get_live_consensus, networkstatus_get_latest_consensus. split; [by exists r, g'|]. split.
  - intros c. destruct we_use_microdescriptors; [|by rewrite Hns]. intros Hc. split; [done|]. by destruct (Hmd c Hc).
  - destruct we_use_microdescriptors; [|by rewrite Hns]. destruct (current_md_consensus _ g) as [c|] eqn:E; [|done].
    destruct (Hmd c eq_refl) as (_ & _ & Hv & _). unfold networkstatus_is_live. by rewrite Hv, (proj2 (Z.leb_gt now 0)), andb_false_r by lia.
Qed.

End reloads.
End consensus_facts.

(** ** Small consensuses *)

Definition toy_entry (digest when dl : Z) : entry Z :=
  {| e_rs := @rs_of (toy_relay "relay" digest 16909060 443) {| is_accept := true; entries := [] |};
     last_dir_503_at := when; descriptor_digest := replicate 32 NUL; dl_status := dl |}.
Definition toy_ns : networkstatus :=
  {| ns_type := NS_TYPE_CONSENSUS; ns_flavor := FLAV_MICRODESC; valid_after := 0; fresh_until := 0; valid_until := 0; ns_consensus_method := 29;
     recommended_client_protocols := []; recommended_relay_protocols := []; required_client_protocols := []; required_relay_protocols := [];
     known_flags := []; weight_params := []; routerstatus_list := [] |}.
Definition toy_loaded (l : list (entry Z)) : loaded Z := {| l_ns := toy_ns; l_list := l |}.

Lemma toy_sorted (l : list (entry Z)) : (fix incr (l : list (entry Z)) := match l with x :: ((y :: _) as r) => (digest_num x <? digest_num y) && incr r | _ => true end) l = true ->
  sorted_by_digest l.
Proof.
  intros H. assert (Hlt : forall i x y, l !! i = Some x -> l !! S i = Some y -> digest_num x < digest_num y).
  { induction l as [|a [|b l] IH]; intros i x y Hx Hy; [done|by destruct i|]. apply andb_true_iff in H as [H1 H2].
    destruct i as [|i]; [injection Hx as <-; injection Hy as <-; lia|]. by apply (IH H2 i). }
  intros i j x y Hij Hx Hy. revert y Hy. induction Hij as [|j Hij IH]; intros y Hy; [by apply (Hlt i)|].
  destruct (l !! j) as [z|] eqn:Hz; [|apply lookup_ge_None in Hz; apply lookup_lt_Some in Hy; lia].
  specialize (IH z eq_refl). specialize (Hlt j z y Hz Hy). lia.
Qed.

Lemma find_entry_correct_witness :
  let l := [toy_entry 7 1 2; toy_entry 99 3 4; toy_entry 141 5 6] in
  networkstatus_vote_find_entry Z (toy_loaded l) (replicate 20 (z2b 99)) = Ok (Some (toy_entry 99 3 4)) /\
  exists r, networkstatus_vote_find_entry Z (toy_loaded l) (replicate 20 (z2b 141)) = Ok r /\
    (forall e, r = Some e -> e ∈ l /\ rs_identity_digest (e_rs e) = replicate 20 (z2b 141)) /\
    (sorted_by_digest l -> forall e, e ∈ l -> rs_identity_digest (e_rs e) = replicate 20 (z2b 141) -> r = Some e).
Proof.
  cbn zeta. split; [vm_compute; reflexivity|].
  apply (find_entry_correct (toy_loaded [toy_entry 7 1 2; toy_entry 99 3 4; toy_entry 141 5 6])); [done|]. by repeat constructor.
Defined.

Lemma copy_old_consensus_info_correct_witness :
  let old := [toy_entry 7 1 2; toy_entry 99 3 4] in let new := [toy_entry 8 0 0; toy_entry 99 0 0] in
  carried old <$> new = [toy_entry 8 0 0; toy_entry 99 3 4] /\
  exists c, networkstatus_copy_old_consensus_info Z (toy_loaded new) (Some (toy_loaded old)) = Ok c /\ l_ns c = toy_ns /\
    l_list c = carried old <$> new.
Proof.
  cbn zeta. split; [vm_compute; reflexivity|].
  apply (copy_old_consensus_info_correct (toy_loaded [toy_entry 8 0 0; toy_entry 99 0 0]) (toy_loaded [toy_entry 7 1 2; toy_entry 99 3 4]));
    [by repeat constructor|by repeat constructor| |]; apply toy_sorted; vm_compute; reflexivity.
Defined.

Lemma gsri_lookup_misses_witness :
  exists e1 e2 ns rs, @router_sri toy_ssl (toy_relay "alice" 141 3232235777 9001) = Ok e1 /\ @router_sri toy_ssl (toy_relay "bob" 7 16909060 443) = Ok e2 /\
    @networkstatus_parse_vote_from_string toy_ssl (e1 ++ e2) NS_TYPE_CONSENSUS = Ok (Some ns) /\
    rs ∈ routerstatus_list ns /\ rs_identity_digest rs = replicate 20 (z2b 7) /\ rs_nickname rs = bs "bob" /\
    networkstatus_vote_find_entry Z (load Z 0 ns) (replicate 20 (z2b 7)) = Ok None.
Proof.
  apply (@gsri_lookup_misses toy_ssl Z 0 (toy_relay "alice" 141 3232235777 9001) (toy_relay "bob" 7 16909060 443)); [| |by vm_compute].
  all: apply toy_relay_ok; done.
Defined.

Lemma consensus_reloads_witness :
  let g0 := {| current_ns_consensus := None; current_md_consensus := None |} in
  @networkstatus_set_current_consensus toy_ssl Z 0 true false (bs "hello") (bs "nonsense") 0 g0 = Ok (-2, g0) /\
  (exists r g', @networkstatus_set_current_consensus toy_ssl Z 0 true false (bs "hello") (bs "microdesc") 1 g0 = Ok (r, g') /\
    ((r = -2 \/ r = -1) /\ g' = g0 \/
     r = 0 /\ exists ns c, @networkstatus_parse_vote_from_string toy_ssl (bs "hello") NS_TYPE_CONSENSUS = Ok (Some ns) /\
       current_md_consensus _ g' = Some c /\ l_ns c = ns /\ e_rs <$> l_list c = routerstatus_list ns)) /\
  (forall c, networkstatus_get_latest_consensus Z true g0 = Some c -> true = true /\ Forall (@rs_ok toy_ssl) (e_rs <$> l_list c)) /\
  networkstatus_get_live_consensus Z true g0 1700000000 = None.
Proof.
  cbn zeta. split; [vm_compute; reflexivity|].
  apply (@consensus_reloads toy_ssl Z 0 true false _ (bs "hello") (bs "microdesc") 1 1700000000); [apply reach_start|done].
Defined.
