(* ===== verification/StringOrder.v ===== *)
(** * The order of [strcmp] on C strings: a total order that only equal strings share a place in *)
From S2P Require Import Prelude ParseInt Strings InaddrSafe.

(** ** The recursion on both strings *)

Lemma strcmp_cons (c d : ascii) (a b : bytes) : strcmp (c :: a) (d :: b) = if b2z c =? b2z d then strcmp a b else b2z c - b2z d.
Proof. done. Qed.
Lemma strcmp_nil_l (b : bytes) : c_string b -> b <> [] -> strcmp [] b < 0.
Proof.
  destruct b as [|d b]; [done|]. intros [Hd _]%Forall_cons _. unfold strcmp. cbn [length strncmp deref].
  pose proof (b2z_range d). assert (b2z d <> b2z NUL) by (by intros E%b2z_inj). change (b2z NUL) with 0 in *.
  destruct (Z.eqb_spec 0 (b2z d)); lia.
Qed.
Lemma strcmp_nil_r (a : bytes) : c_string a -> a <> [] -> 0 < strcmp a [].
Proof.
  destruct a as [|d a]; [done|]. intros [Hd _]%Forall_cons _. unfold strcmp. cbn [length strncmp deref].
  pose proof (b2z_range d). assert (b2z d <> b2z NUL) by (by intros E%b2z_inj). change (b2z NUL) with 0 in *.
  destruct (Z.eqb_spec (b2z d) 0); lia.
Qed.

Lemma strcmp_refl (a : bytes) : strcmp a a = 0.
Proof. induction a as [|c a IH]; [done|]. by rewrite strcmp_cons, Z.eqb_refl. Qed.

Lemma strcmp_0 (a : bytes) : forall b, c_string a -> c_string b -> (strcmp a b = 0 <-> a = b).
Proof.
  intros b Ha Hb. split; [|intros ->; apply strcmp_refl]. revert b Hb. induction Ha as [|c a Hc Ha IH]; intros [|d b] Hb H; [done| | |].
  - pose proof (strcmp_nil_l (d :: b) Hb ltac:(done)). lia.
  - pose proof (strcmp_nil_r (c :: a) ltac:(by constructor) ltac:(done)). lia.
  - rewrite strcmp_cons in H. apply Forall_cons in Hb as [_ Hb]. destruct (Z.eqb_spec (b2z c) (b2z d)) as [->%b2z_inj|]; [|lia]. f_equal. by apply IH.
Qed.

Lemma strcmp_antisym (a : bytes) : forall b, strcmp b a = - strcmp a b.
Proof.
  induction a as [|c a IH]; intros [|d b].
  - done.
  - unfold strcmp. cbn [length strncmp deref]. change (b2z NUL) with 0. rewrite (Z.eqb_sym 0). destruct (Z.eqb_spec (b2z d) 0); lia.
  - unfold strcmp. cbn [length strncmp deref]. change (b2z NUL) with 0. rewrite (Z.eqb_sym 0). destruct (Z.eqb_spec (b2z c) 0); lia.
  - rewrite !strcmp_cons, (Z.eqb_sym (b2z d)), IH. destruct (Z.eqb_spec (b2z c) (b2z d)); lia.
Qed.

Lemma strcmp_trans (a : bytes) : forall b c, c_string a -> c_string b -> c_string c -> strcmp a b < 0 -> strcmp b c < 0 -> strcmp a c < 0.
Proof.
  induction a as [|x a IH]; intros [|y b] [|z c] Ha Hb Hc H1 H2; try done.
  - pose proof (strcmp_nil_r (y :: b) Hb ltac:(done)). lia.
  - by apply strcmp_nil_l.
  - pose proof (strcmp_nil_r (x :: a) Ha ltac:(done)). lia.
  - pose proof (strcmp_nil_r (y :: b) Hb ltac:(done)). lia.
  - apply Forall_cons in Ha as [_ Ha], Hb as [_ Hb], Hc as [_ Hc]. rewrite strcmp_cons in *.
    destruct (Z.eqb_spec (b2z x) (b2z y)), (Z.eqb_spec (b2z y) (b2z z)), (Z.eqb_spec (b2z x) (b2z z)); try lia. by apply (IH b c).
Qed.

(** ** Membership by [strcmp] *)

Lemma strcmp_eqb (a b : bytes) : c_string a -> c_string b -> (strcmp a b =? 0) = bool_decide (a = b).
Proof. intros Ha Hb. pose proof (strcmp_0 a b Ha Hb). destruct (Z.eqb_spec (strcmp a b) 0); case_bool_decide; tauto. Qed.
