(* ===== verification/Versions.v ===== *)
(** * Tor versions: [core/or/versions.c]

    Parsing, comparing and sorting of version strings, and what a list of recommended versions says about
    one's own. The summary of protocol versions, from the same file, is in [Protover]. *)
From S2P Require Import Prelude ParseInt Strings Smartutil Binascii DiOps.

Definition MAX_STATUS_TAG_LEN : nat := 32.

Inductive ver_status := VER_PRE | VER_RC | VER_RELEASE.
Definition ver_status_num (s : ver_status) : Z := match s with VER_PRE => 0 | VER_RC => 1 | VER_RELEASE => 2 end.

Record tor_version := {
  major : Z; minor : Z; micro : Z; status : ver_status; patchlevel : Z; status_tag : bytes; svn_revision : Z;
  git_tag_len : Z; git_tag : bytes
}.

(** ** Parsing *)

(** [NUMBER] and [DOT]: the number and the rest; [Err] is [return -1]. *)
Definition NUMBER (cp : bytes) : outcome (Z * bytes) :=
  if negb (TOR_ISDIGIT (deref cp)) then Err
  else
    let r := tor_parse_uint64 cp 10 0 INT32_MAX true in
    if negb (p_ok r) then Err
    else
      match p_next r with
      | None => Err
      | Some eos => if (length eos =? length cp)%nat then Err else Ok (to_int (p_val r), eos)
      end.
Definition DOT (cp : bytes) : outcome bytes := if bool_decide (deref cp = "."%char) then Ok (drop 1 cp) else Err.

(** From the label [status_tag] on. *)
Definition parse_status_tag (out : tor_version) (cp : bytes) : outcome tor_version :=
  let cp := if bool_decide (deref cp = "-"%char) || bool_decide (deref cp = "."%char) then drop 1 cp else cp in
  let eos := find_whitespace cp in
  let tag := take (length cp - length eos) cp in
  let tag := if (MAX_STATUS_TAG_LEN <=? length tag)%nat then take (MAX_STATUS_TAG_LEN - 1) cp else tag in
  let cp := eat_whitespace eos in
  let with_svn n len digest :=
    {| major := major out; minor := minor out; micro := micro out; status := status out; patchlevel := patchlevel out;
       status_tag := tag; svn_revision := n; git_tag_len := len; git_tag := digest |} in
  if strcmpstart cp (bs "(r") =? 0 then
    Ok (with_svn (to_int (st_val (strtol (drop 2 cp) 10))) (git_tag_len out) (git_tag out))
  else if strcmpstart cp (bs "(git-") =? 0 then
    match memchr cp ")" (length cp) with
    | None => Err
    | Some close_paren =>
        let hexlen := Z.of_nat close_paren - 5 in
        if 40 <? hexlen then Err
        else if (hexlen =? 0) || (hexlen mod 2 =? 1) then Err
        else
          let* (n, digest) := base16_decode (replicate (Z.to_nat (hexlen / 2)) NUL) (take (Z.to_nat hexlen) (drop 5 cp)) in
          if negb (n =? hexlen / 2) then Err
          else Ok (with_svn (svn_revision out) (hexlen / 2) (digest ++ drop (length digest) (git_tag out)))
    end
  else Ok (with_svn (svn_revision out) (git_tag_len out) (git_tag out)).

Definition tor_version_parse (s : bytes) : outcome tor_version :=
  let cp := if strcasecmpstart s (bs "Tor ") =? 0 then drop 4 s else s in
  let out ma mi mc st pl := {| major := ma; minor := mi; micro := mc; status := st; patchlevel := pl; status_tag := [];
                              svn_revision := 0; git_tag_len := 0; git_tag := replicate 20 NUL |} in
  let* (ma, cp) := NUMBER cp in
  let* cp := DOT cp in
  let* (mi, cp) := NUMBER cp in
  if bool_decide (deref cp = NUL) then Ok (out ma mi 0 VER_RELEASE 0)
  else if bool_decide (deref cp = "-"%char) then parse_status_tag (out ma mi 0 VER_RELEASE 0) cp
  else
    let* cp := DOT cp in
    let* (mc, cp) := NUMBER cp in
    if bool_decide (deref cp = NUL) then Ok (out ma mi mc VER_RELEASE 0)
    else if bool_decide (deref cp = "-"%char) then parse_status_tag (out ma mi mc VER_RELEASE 0) cp
    else
      let* (st, cp) :=
        if bool_decide (deref cp = "."%char) then Ok (VER_RELEASE, drop 1 cp)
        else if strncmp cp (bs "pre") 3 =? 0 then Ok (VER_PRE, drop 3 cp)
        else if strncmp cp (bs "rc") 2 =? 0 then Ok (VER_RC, drop 2 cp)
        else Err in
      let* (pl, cp) := NUMBER cp in
      parse_status_tag (out ma mi mc st pl) cp.

(** 1 with a version, 0, or -1. *)
Definition tor_version_parse_platform (platform : bytes) (strict : bool) : outcome (Z * option tor_version) :=
  if negb (strcmpstart platform (bs "Tor ") =? 0) then Ok (0, None)
  else
    let start := eat_whitespace (drop 3 platform) in
    match start with
    | [] => Ok (-1, None)
    | _ =>
        let s := find_whitespace start in
        let s2 := eat_whitespace s in
        let s := if (strcmpstart s2 (bs "(r") =? 0) || (strcmpstart s2 (bs "(git-") =? 0) then find_whitespace s2 else s in
        if 128 <=? zlen start - zlen s + 1 then Ok (-1, None)
        else
          match tor_version_parse (take (length start - length s) start) with
          | Ok v =>
              if strict && ((major v <? 0) || (minor v <? 0) || (micro v <? 0) || (patchlevel v <? 0) || (svn_revision v <? 0))
              then Ok (-1, None) else Ok (1, Some v)
          | Err => Ok (-1, None)
          | Stuck => Stuck
          end
    end.

(** ** Comparing *)

(** [CMP]: the sign of the difference of two [int]s as [unsigned]s, read as an [int]. *)
Definition CMP (a b : Z) : Z := Z.sgn (to_int (wrap 32 a - wrap 32 b)).

Definition tor_version_compare (a b : tor_version) : Z :=
  let cmp c k := if c =? 0 then k else c in
  cmp (CMP (major a) (major b)) (
  cmp (CMP (minor a) (minor b)) (
  cmp (CMP (micro a) (micro b)) (
  cmp (CMP (ver_status_num (status a)) (ver_status_num (status b))) (
  cmp (CMP (patchlevel a) (patchlevel b)) (
  cmp (strcmp (status_tag a) (status_tag b)) (
  cmp (CMP (svn_revision a) (svn_revision b)) (
  cmp (CMP (git_tag_len a) (git_tag_len b)) (
  if negb (git_tag_len a =? 0) then first_diff (take (Z.to_nat (git_tag_len a)) (git_tag a)) (take (Z.to_nat (git_tag_len a)) (git_tag b)) else 0)))))))).

Definition tor_version_same_series (a b : tor_version) : bool :=
  (major a =? major b) && (minor a =? minor b) && (micro a =? micro b).

Definition tor_version_as_new_as (platform cutoff : bytes) : outcome bool :=
  match tor_version_parse cutoff with
  | Stuck => Stuck
  | Err => Ok false
  | Ok cutoff_version =>
      let* (r, v) := tor_version_parse_platform platform false in
      match v with
      | Some router_version => Ok (0 <=? tor_version_compare router_version cutoff_version)
      | None => Ok true
      end
  end.

(** [tor_version_parse] in the conditions of the callers. *)
Definition try_parse (s : bytes) : outcome (option tor_version) :=
  match tor_version_parse s with Ok v => Ok (Some v) | Err => Ok None | Stuck => Stuck end.

Definition compare_tor_version_str_ptr_ (a b : bytes) : outcome Z :=
  let* ca := try_parse a in
  let* cb := try_parse b in
  match ca, cb with
  | Some va, Some vb => Ok (tor_version_compare va vb)
  | Some _, None => Ok (-1)
  | None, Some _ => Ok 1
  | None, None => Ok (strcmp a b)
  end.

(** ** Recommended versions *)

Inductive version_status := VS_RECOMMENDED | VS_OLD | VS_NEW | VS_NEW_IN_SERIES | VS_UNRECOMMENDED | VS_EMPTY.

Record found_flags := { found_newer : bool; found_older : bool; found_newer_in_series : bool; found_any_in_series : bool }.

(** The loop; [None] is the jump with VS_RECOMMENDED. *)
Fixpoint obsolete_loop (mine : tor_version) (version_sl : list bytes) (f : found_flags) : outcome (option found_flags) :=
  match version_sl with
  | [] => Ok (Some f)
  | cp :: version_sl =>
      let cp := if strcmpstart cp (bs "Tor ") =? 0 then drop 4 cp else cp in
      let* other := try_parse cp in
      match other with
      | None => obsolete_loop mine version_sl f
      | Some other =>
          let same := tor_version_same_series mine other in
          let r := tor_version_compare mine other in
          if r =? 0 then Ok None
          else
            obsolete_loop mine version_sl
              {| found_newer := found_newer f || (r <? 0); found_older := found_older f || (0 <? r);
                 found_newer_in_series := found_newer_in_series f || ((r <? 0) && same);
                 found_any_in_series := found_any_in_series f || same |}
      end
  end.

Definition tor_version_is_obsolete (myversion versionlist : bytes) : outcome version_status :=
  match tor_version_parse myversion with
  | Ok mine =>
      let* (version_sl, _) := smartlist_split_string [] versionlist (Some (bs ",")) SPLIT_SKIP_SPACE 0 in
      match versionlist with
      | [] => Ok VS_EMPTY
      | _ =>
          let* f := obsolete_loop mine version_sl {| found_newer := false; found_older := false; found_newer_in_series := false; found_any_in_series := false |} in
          match f with
          | None => Ok VS_RECOMMENDED
          | Some f =>
              if found_any_in_series f && negb (found_newer_in_series f) && found_newer f then Ok VS_NEW_IN_SERIES
              else if found_newer f && negb (found_older f) then Ok VS_OLD
              else if found_older f && negb (found_newer f) then Ok VS_NEW
              else Ok VS_UNRECOMMENDED
          end
      end
  | _ => Stuck
  end.
