(* ===== verification/VersionsFacts.v ===== *)
(** * Tor versions: parsing is safe and bounded, comparison is a total order, and what a list of recommended versions says *)
From stdpp Require Import gmap.
From S2P Require Import Prelude ParseInt Strings Smartutil Binascii DiOps InaddrSafe ParseCommon ParseFacts StringOrder Versions.

(** ** Parsing *)

Definition int_ok (z : Z) : Prop := 0 <= z <= INT32_MAX.
Record version_ok (v : tor_version) : Prop := {
  ok_major : int_ok (major v); ok_minor : int_ok (minor v); ok_micro : int_ok (micro v); ok_patchlevel : int_ok (patchlevel v);
  ok_tag : c_string (status_tag v) /\ (length (status_tag v) < MAX_STATUS_TAG_LEN)%nat;
  ok_svn : - 2 ^ 31 <= svn_revision v < 2 ^ 31;
  ok_git : length (git_tag v) = 20%nat /\ 0 <= git_tag_len v <= 20
}.

Lemma scan_digits_suffix (base : Z) (s : bytes) : forall acc, exists pre, s = pre ++ snd (scan_digits base acc s).
Proof.
  induction s as [|c s IH]; intros acc; cbn [scan_digits]; [by exists []|]. destruct (digit_in base c) as [d|]; [|by exists []].
  destruct (IH (acc * base + d)) as [pre E]. exists (c :: pre). cbn [app]. by rewrite <- E.
Qed.

Lemma strtoul_10_suffix (s : bytes) : TOR_ISDIGIT (deref s) = true -> exists pre, s = pre ++ st_end (strtoul s 10).
Proof.
  destruct s as [|c s]; [done|]. cbn [deref]. intros Hc. unfold strtoul. rewrite strtox_10 by done. destruct (scan_digits_suffix 10 (c :: s) 0) as [pre E].
  exists pre. by destruct (_ <? _).
Qed.

Lemma NUMBER_safe (cp : bytes) : c_string cp -> safe (fun r => int_ok r.1 /\ c_string r.2) (NUMBER cp).
Proof.
  intros Hcp. unfold NUMBER. destruct (TOR_ISDIGIT (deref cp)) eqn:Hd; [|done]. cbn [negb]. set (r := tor_parse_uint64 cp 10 0 INT32_MAX true).
  destruct (p_ok r) eqn:Hok; [|done]. cbn [negb]. destruct (p_next r) as [eos|] eqn:Hn; [|done]. destruct (_ =? _)%nat; [done|].
  assert (Hv : 0 <= p_val r <= INT32_MAX) by (unfold r, tor_parse_uint64 in *; cbn in Hok |- *; by apply CHECK_STRTOX_bounds).
  cbn [safe fst snd]. split.
  - unfold to_int, wrap, INT32_MAX, int_ok in *. rewrite Z.mod_small by lia. by rewrite (proj2 (Z.ltb_lt _ _)) by lia.
  - destruct (strtoul_10_suffix cp Hd) as [pre E]. assert (eos = st_end (strtoul cp 10)) as ->; [|by eapply suffix_c_string; [exists pre|]].
    unfold r, tor_parse_uint64 in Hn. change (10 <? 0) with false in Hn. cbn iota in Hn. unfold CHECK_STRTOX_RESULT in Hn. cbn [negb andb] in Hn.
    repeat (case_match; [cbn [p_next] in Hn; congruence|]). cbn [p_next] in Hn. congruence.
Qed.

Lemma DOT_safe (cp : bytes) : c_string cp -> safe c_string (DOT cp).
Proof. intros H. unfold DOT. destruct (bool_decide _); [|done]. cbn. by apply Forall_drop. Qed.

Lemma to_int_range (z : Z) : - 2 ^ 31 <= to_int z < 2 ^ 31.
Proof. unfold to_int, wrap. pose proof (Z.mod_pos_bound z (2 ^ 32) ltac:(lia)). destruct (Z.ltb_spec (z mod 2 ^ 32) (2 ^ 31)); lia. Qed.

Lemma strcmpstart_take (s p : bytes) : c_string p -> strcmpstart s p = 0 -> take (length p) s = p.
Proof.
  unfold strcmpstart. intros Hp. revert s. induction Hp as [|c p Hc _ IH]; intros s H; [done|]. destruct s as [|d s]; cbn [length strncmp deref] in H.
  - destruct (Z.eqb_spec (b2z NUL) (b2z c)) as [E|E]; [by apply b2z_inj in E; destruct Hc|]. exfalso; lia.
  - destruct (Z.eqb_spec (b2z d) (b2z c)) as [->%b2z_inj|E]; [|exfalso; lia]. cbn [length take]. by rewrite IH.
Qed.

Lemma parse_status_tag_safe (out : tor_version) (cp : bytes) : c_string cp -> version_ok out -> safe version_ok (parse_status_tag out cp).
Proof.
  intros Hcp Hout. unfold parse_status_tag. set (cp1 := if _ || _ then drop 1 cp else cp).
  assert (Hcp1 : c_string cp1) by (unfold cp1; destruct (_ || _); [by apply Forall_drop|done]).
  set (tag := if (MAX_STATUS_TAG_LEN <=? _)%nat then _ else _).
  assert (Htag : c_string tag /\ (length tag < MAX_STATUS_TAG_LEN)%nat).
  { unfold tag. destruct (Nat.leb_spec MAX_STATUS_TAG_LEN (length (take (length cp1 - length (find_whitespace cp1)) cp1))); [|split; [by apply Forall_take|done]].
    split; [by apply Forall_take|]. rewrite length_take. unfold MAX_STATUS_TAG_LEN. lia. }
  set (cp2 := eat_whitespace _).
  destruct Hout as [? ? ? ? _ ? [? ?]]. destruct (Z.eqb_spec (strcmpstart cp2 (bs "(r")) 0); [constructor; cbn; done || apply to_int_range|].
  destruct (Z.eqb_spec (strcmpstart cp2 (bs "(git-")) 0) as [Hg|]; [|by constructor].
  pose proof (memchr_ok (length cp2) cp2 ")") as Hm. destruct (memchr cp2 ")" (length cp2)) as [p|]; [|done].
  destruct (Z.ltb_spec 40 (Z.of_nat p - 5)); [done|]. destruct (Z.eqb_spec (Z.of_nat p - 5) 0), (Z.eqb_spec ((Z.of_nat p - 5) mod 2) 1); try done. cbn [orb].
  assert (5 <= p)%nat.
  { apply strcmpstart_take in Hg; [|by repeat constructor]. destruct Hm as [Hm _]. destruct (Nat.le_gt_cases 5 p) as [L|L]; [done|].
    rewrite <- (lookup_take_lt cp2 5) in Hm by done. cbn [length bs String.list_ascii_of_string] in Hg. change (length (bs "(git-")) with 5%nat in Hg. rewrite Hg in Hm.
    by do 5 (destruct p as [|p]; [done|]). }
  set (len := Z.to_nat ((Z.of_nat p - 5) / 2)). eapply safe_bind; [|].
  - instantiate (1 := fun r => length r.2 = len). pose proof (base16_decode_within (replicate len NUL) (take (Z.to_nat (Z.of_nat p - 5)) (drop 5 cp2))) as Hw.
    destruct (base16_decode _ _) as [[k d]| |]; [|done..]. cbn in Hw |- *. rewrite length_replicate in Hw. tauto.
  - intros [k digest] Hl. cbn in Hl. destruct (k =? _); [|done]. cbn [negb safe]. constructor; cbn; [done..|]. rewrite length_app, length_drop, Hl.
    unfold len in *. split; dlia.
Qed.

Lemma version_parse_safe (s : bytes) : c_string s -> safe version_ok (tor_version_parse s).
Proof.
  intros Hs. unfold tor_version_parse. set (cp0 := if _ =? 0 then drop 4 s else s). assert (H0 : c_string cp0) by (unfold cp0; destruct (_ =? _); [by apply Forall_drop|done]).
  assert (Hout : forall ma mi mc st pl, int_ok ma -> int_ok mi -> int_ok mc -> int_ok pl ->
    version_ok {| major := ma; minor := mi; micro := mc; status := st; patchlevel := pl; status_tag := []; svn_revision := 0; git_tag_len := 0; git_tag := replicate 20 NUL |}).
  { intros. constructor; cbn; try done; try lia. split; [by constructor|]. unfold MAX_STATUS_TAG_LEN. lia. }
  assert (Hz : int_ok 0) by done.
  eapply safe_bind; [by apply NUMBER_safe|]. intros [ma cp1] [Hma H1]. cbn in Hma, H1.
  eapply safe_bind; [by apply DOT_safe|]. intros cp2 H2.
  eapply safe_bind; [by apply NUMBER_safe|]. intros [mi cp3] [Hmi H3]. cbn in Hmi, H3.
  destruct (bool_decide _); [by apply Hout|]. destruct (bool_decide _); [apply parse_status_tag_safe; [done|by apply Hout]|].
  eapply safe_bind; [by apply DOT_safe|]. intros cp4 H4.
  eapply safe_bind; [by apply NUMBER_safe|]. intros [mc cp5] [Hmc H5]. cbn in Hmc, H5.
  destruct (bool_decide _); [by apply Hout|]. destruct (bool_decide _); [apply parse_status_tag_safe; [done|by apply Hout]|].
  eapply (safe_bind (fun r : ver_status * bytes => c_string r.2)); [repeat case_match; cbn; done || by apply Forall_drop|]. intros [st cp6] H6. cbn in H6.
  eapply safe_bind; [by apply NUMBER_safe|]. intros [pl cp7] [Hpl H7]. cbn in Hpl, H7. apply parse_status_tag_safe; [done|by apply Hout].
Qed.

Definition parsed_version (s : bytes) : option tor_version := match tor_version_parse s with Ok v => Some v | _ => None end.

Lemma try_parse_version (s : bytes) : c_string s -> try_parse s = Ok (parsed_version s) /\ forall v, parsed_version s = Some v -> version_ok v.
Proof.
  intros Hs. unfold try_parse, parsed_version. pose proof (version_parse_safe s Hs) as H. destruct (tor_version_parse s); [|done..]. split; [done|]. by intros v [= <-].
Qed.

(** ** Lexicographic comparison *)

(** A three-way comparison that orders what [R] relates; [R] narrows to the ties of the comparisons before it. *)
Record cmp_ok {A} (R : A -> A -> Prop) (f : A -> A -> Z) : Prop := {
  cmp_antisym : forall a b, R a b -> Z.sgn (f b a) = - Z.sgn (f a b);
  cmp_trans : forall a b c, R a b -> R b c -> R a c -> f a b <= 0 -> f b c <= 0 -> f a c <= 0 /\ (f a c = 0 -> f a b = 0 /\ f b c = 0)
}.

Definition lex {A} (f g : A -> A -> Z) (a b : A) : Z := if f a b =? 0 then g a b else f a b.
Definition ties {A} (R : A -> A -> Prop) (f : A -> A -> Z) (a b : A) : Prop := R a b /\ f a b = 0.

Lemma lex_ok {A} (R : A -> A -> Prop) (f g : A -> A -> Z) : cmp_ok R f -> cmp_ok (ties R f) g -> cmp_ok R (lex f g).
Proof.
  intros Hf Hg. split.
  - intros a b Hab. pose proof (cmp_antisym _ _ Hf a b Hab). unfold lex. destruct (Z.eqb_spec (f a b) 0), (Z.eqb_spec (f b a) 0); [|lia..]. by apply (cmp_antisym _ _ Hg).
  - intros a b c Hab Hbc Hac. unfold lex. intros H1 H2.
    assert (Hfab : f a b <= 0) by (destruct (Z.eqb_spec (f a b) 0); lia). assert (Hfbc : f b c <= 0) by (destruct (Z.eqb_spec (f b c) 0); lia).
    destruct (cmp_trans _ _ Hf a b c Hab Hbc Hac Hfab Hfbc) as [Hfac H0]. destruct (Z.eqb_spec (f a c) 0) as [E|E]; [|lia].
    destruct (H0 E) as [Eab Ebc]. rewrite Eab, Ebc in *. cbn [Z.eqb] in *. by apply (cmp_trans _ _ Hg a b c).
Qed.

Lemma lex_0 {A} (f g : A -> A -> Z) (a b : A) : lex f g a b = 0 <-> f a b = 0 /\ g a b = 0.
Proof. unfold lex. destruct (Z.eqb_spec (f a b) 0); lia. Qed.

(** Two versions whose [svn_revision] is not negative; a negative one compares as a large unsigned number. *)
Definition comparable (a b : tor_version) : Prop := (version_ok a /\ 0 <= svn_revision a) /\ (version_ok b /\ 0 <= svn_revision b).

Lemma CMP_exact (a b : Z) : int_ok a -> int_ok b -> CMP a b = Z.sgn (a - b).
Proof.
  unfold int_ok, INT32_MAX. intros Ha Hb. unfold CMP. f_equal. unfold to_int, wrap. rewrite !(Z.mod_small a), !(Z.mod_small b) by lia.
  destruct (Z.lt_ge_cases a b) as [L|L].
  - replace (a - b) with (a - b + 2 ^ 32 + (-1) * 2 ^ 32) by lia. rewrite Z_mod_plus_full, Z.mod_small by lia. rewrite (proj2 (Z.ltb_ge _ _)); lia.
  - rewrite Z.mod_small by lia. by rewrite (proj2 (Z.ltb_lt _ _)) by lia.
Qed.

Lemma CMP_ok {A} (R : A -> A -> Prop) (field : A -> Z) : (forall a b, R a b -> int_ok (field a) /\ int_ok (field b)) -> cmp_ok R (fun a b => CMP (field a) (field b)).
Proof.
  intros H. split.
  - intros a b Hab. destruct (H a b Hab). rewrite !CMP_exact by done. lia.
  - intros a b c Hab Hbc Hac. destruct (H a b Hab), (H b c Hbc). rewrite !CMP_exact by done. lia.
Qed.

Lemma strcmp_ok {A} (R : A -> A -> Prop) (field : A -> bytes) : (forall a b, R a b -> c_string (field a) /\ c_string (field b)) ->
  cmp_ok R (fun a b => strcmp (field a) (field b)).
Proof.
  intros H. split.
  - intros a b _. rewrite strcmp_antisym. lia.
  - intros a b c Hab Hbc Hac H1 H2. destruct (H a b Hab) as [Ha Hb], (H b c Hbc) as [_ Hc].
    pose proof (strcmp_0 _ _ Ha Hb) as E1. pose proof (strcmp_0 _ _ Hb Hc) as E2. destruct (Z.eq_dec (strcmp (field a) (field b)) 0) as [E|E].
    + rewrite (proj1 E1 E), strcmp_refl. tauto.
    + destruct (Z.eq_dec (strcmp (field b) (field c)) 0) as [E'|E']; [rewrite <- (proj1 E2 E'); lia|].
      pose proof (strcmp_trans (field a) (field b) (field c) Ha Hb Hc ltac:(lia) ltac:(lia)). lia.
Qed.

(** [memcmp] of the bytes of the tags that count. *)
Definition tag_bytes (v : tor_version) : bytes := take (Z.to_nat (git_tag_len v)) (git_tag v).

Lemma first_diff_antisym (a : bytes) : forall b, length a = length b -> first_diff b a = - first_diff a b.
Proof.
  induction a as [|c a IH]; intros [|d b] H; try done. cbn [first_diff]. rewrite (Z.eqb_sym (b2z d)), IH by (cbn in H; lia). destruct (Z.eqb_spec (b2z c) (b2z d)); lia.
Qed.

Lemma first_diff_trans (a : bytes) : forall b c, length a = length b -> length b = length c -> first_diff a b <= 0 -> first_diff b c <= 0 ->
  first_diff a c <= 0 /\ (first_diff a c = 0 -> first_diff a b = 0 /\ first_diff b c = 0).
Proof.
  induction a as [|x a IH]; intros [|y b] [|z c] H1 H2; try done. cbn [first_diff].
  destruct (Z.eqb_spec (b2z x) (b2z y)), (Z.eqb_spec (b2z y) (b2z z)), (Z.eqb_spec (b2z x) (b2z z)); try lia. apply IH; cbn in *; lia.
Qed.

Lemma first_diff_ok {A} (R : A -> A -> Prop) (field : A -> bytes) : (forall a b, R a b -> length (field a) = length (field b)) ->
  cmp_ok R (fun a b => first_diff (field a) (field b)).
Proof.
  intros H. split.
  - intros a b Hab. rewrite first_diff_antisym by auto. lia.
  - intros a b c Hab Hbc _. apply first_diff_trans; auto.
Qed.

(** [tor_version_compare] as a chain of comparisons. *)
Definition chain : tor_version -> tor_version -> Z :=
  lex (fun a b => CMP (major a) (major b)) (lex (fun a b => CMP (minor a) (minor b)) (lex (fun a b => CMP (micro a) (micro b))
  (lex (fun a b => CMP (ver_status_num (status a)) (ver_status_num (status b))) (lex (fun a b => CMP (patchlevel a) (patchlevel b))
  (lex (fun a b => strcmp (status_tag a) (status_tag b)) (lex (fun a b => CMP (svn_revision a) (svn_revision b))
  (lex (fun a b => CMP (git_tag_len a) (git_tag_len b)) (fun a b => first_diff (tag_bytes a) (tag_bytes b))))))))).

Lemma compare_chain (a b : tor_version) : comparable a b -> tor_version_compare a b = chain a b.
Proof.
  intros [[Ha _] [Hb _]]. unfold tor_version_compare, chain, lex. repeat (case_match; [|done]).
  destruct (Z.eqb_spec (git_tag_len a) 0) as [E|E]; cbn [negb]; [by unfold tag_bytes at 1; rewrite E|].
  assert (git_tag_len a = git_tag_len b) as El; [|by unfold tag_bytes; rewrite <- El].
  destruct Ha as [_ _ _ _ _ _ [_ Ha]], Hb as [_ _ _ _ _ _ [_ Hb]]. match goal with H : (CMP (git_tag_len a) _ =? 0) = true |- _ => apply Z.eqb_eq in H; rewrite CMP_exact in H by (unfold int_ok, INT32_MAX; lia) end. lia.
Qed.

Lemma status_int (v : tor_version) : int_ok (ver_status_num (status v)).
Proof. unfold int_ok, INT32_MAX. destruct (status v); cbn; lia. Qed.

Lemma svn_int (v : tor_version) : version_ok v -> 0 <= svn_revision v -> int_ok (svn_revision v).
Proof. intros [_ _ _ _ _ H _]. unfold int_ok, INT32_MAX. lia. Qed.

Lemma tag_length (v : tor_version) : version_ok v -> length (tag_bytes v) = Z.to_nat (git_tag_len v).
Proof. intros [_ _ _ _ _ _ [H1 H2]]. unfold tag_bytes. rewrite length_take. lia. Qed.

Lemma git_int (v : tor_version) : version_ok v -> int_ok (git_tag_len v).
Proof. intros [_ _ _ _ _ _ [_ H]]. unfold int_ok, INT32_MAX. lia. Qed.

(** What the comparisons before have related. *)
Ltac untie H := repeat match type of H with ties _ _ _ _ => destruct H as [H _] end; destruct H as [[Ha Hsa] [Hb Hsb]].

Lemma chain_ok : cmp_ok comparable chain.
Proof.
  unfold chain.
  repeat (apply lex_ok; [first [apply CMP_ok|apply strcmp_ok]; intros a b H;
    untie H;
    first [split; apply status_int|split; by apply svn_int|split; by apply git_int|destruct Ha as [? ? ? ? [? ?] ? ?], Hb as [? ? ? ? [? ?] ? ?]; done]|]).
  apply first_diff_ok. intros a b H. destruct H as [H Hl]. untie H.
  rewrite !tag_length by done. rewrite CMP_exact in Hl by (by apply git_int). f_equal. lia.
Qed.

(** Versions that compare as equal. *)
Definition same_version (a b : tor_version) : Prop :=
  major a = major b /\ minor a = minor b /\ micro a = micro b /\ status a = status b /\ patchlevel a = patchlevel b /\
  status_tag a = status_tag b /\ svn_revision a = svn_revision b /\ git_tag_len a = git_tag_len b /\ tag_bytes a = tag_bytes b.

Lemma CMP_0 (a b : Z) : int_ok a -> int_ok b -> (CMP a b = 0 <-> a = b).
Proof. intros. rewrite CMP_exact by done. lia. Qed.

Lemma chain_0 (a b : tor_version) : comparable a b -> (chain a b = 0 <-> same_version a b).
Proof.
  intros [[Ha Hsa] [Hb Hsb]]. unfold chain, same_version. rewrite !lex_0.
  rewrite (CMP_0 (svn_revision a)), (CMP_0 (git_tag_len a)), (CMP_0 (ver_status_num (status a))) by (first [by apply svn_int|by apply git_int|apply status_int]).
  pose proof (tag_length a Ha) as La. pose proof (tag_length b Hb) as Lb. destruct Ha as [? ? ? ? [? ?] ? ?], Hb as [? ? ? ? [? ?] ? ?].
  rewrite !CMP_0, strcmp_0 by done.
  assert (Hst : ver_status_num (status a) = ver_status_num (status b) <-> status a = status b) by (by destruct (status a), (status b)).
  assert (Hfd : git_tag_len a = git_tag_len b -> (first_diff (tag_bytes a) (tag_bytes b) = 0 <-> tag_bytes a = tag_bytes b)).
  { intros El. split; [apply first_diff_0; congruence|intros ->; apply first_diff_eq]. }
  tauto.
Qed.

(** ** Recommended versions *)

(** [SPLIT_SKIP_SPACE] on one piece. *)
Definition strip_space (p : bytes) : bytes := let q := skip_while TOR_ISSPACE p in take (trim_end q (length q)) q.

Lemma trim_end_app (q t : bytes) (e : nat) : (e <= length q)%nat -> trim_end (q ++ t) e = trim_end q e.
Proof. induction e as [|e IH]; intros He; [done|]. cbn [trim_end]. rewrite lookup_app_l by lia. destruct (q !! e); [|done]. by rewrite IH by lia. Qed.

Lemma trim_end_le (q : bytes) (e : nat) : (trim_end q e <= e)%nat.
Proof. induction e as [|e IH]; cbn [trim_end]; [lia|]. destruct (q !! e); [|lia]. destruct (TOR_ISSPACE _); lia. Qed.

Lemma skip_while_app (p : bytes) (t : bytes) : TOR_ISSPACE (deref t) = false -> t <> [] -> skip_while TOR_ISSPACE (p ++ t) = skip_while TOR_ISSPACE p ++ t.
Proof.
  intros Ht Hne. induction p as [|c p IH]; cbn [app skip_while]; [by destruct t as [|d t]; [|cbn in Ht |- *; rewrite Ht]|]. by destruct (TOR_ISSPACE c).
Qed.

Lemma skip_while_elem (c : ascii) (p : bytes) : c ∈ skip_while TOR_ISSPACE p -> c ∈ p.
Proof. induction p as [|d p IH]; cbn; [done|]. destruct (TOR_ISSPACE d); [|done]. intros H. right. by apply IH. Qed.

Lemma split_spaces (pieces : list bytes) : Forall (fun p => ","%char ∉ p) pieces -> pieces <> [] -> forall fuel sl n,
  (length (join_fill pieces [","%char]) < fuel)%nat ->
  exists m, split_loop fuel sl (join_fill pieces [","%char]) (Some [","%char]) SPLIT_SKIP_SPACE 0 n = Ok (sl ++ (strip_space <$> pieces), m).
Proof.
  induction 1 as [|p pieces Hp Hps IH]; intros Hne fuel sl n Hf; [done|]. destruct fuel as [|f]; [lia|]. cbn [split_loop].
  change (flag_set SPLIT_SKIP_SPACE SPLIT_SKIP_SPACE) with true. change (flag_set SPLIT_SKIP_SPACE SPLIT_IGNORE_BLANK) with false.
  change (flag_set SPLIT_SKIP_SPACE SPLIT_STRIP_SPACE) with false. cbn iota. cbn [negb]. rewrite orb_true_r. cbn iota.
  assert (Hq : ","%char ∉ skip_while TOR_ISSPACE p) by (intros H; by apply Hp, skip_while_elem).
  destruct pieces as [|p' ps].
  - cbn [join_fill]. unfold split_end. cbn [Z.ltb andb Z.compare].
    destruct (strstr_char ","%char _ [] Hq) as [_ ->]. rewrite drop_all. by eexists.
  - set (rest := join_fill (p' :: ps) [","%char]) in *. change (join_fill (p :: p' :: ps) [","%char]) with (p ++ ","%char :: rest) in *.
    rewrite skip_while_app by done. set (q := skip_while TOR_ISSPACE p) in *.
    assert (He : split_end (q ++ ","%char :: rest) (Some [","%char]) 0 n = length q).
    { unfold split_end. cbn [Z.ltb andb Z.compare]. destruct (strstr_char ","%char q rest Hq) as [-> _]. rewrite length_app. cbn [length]. lia. }
    rewrite He, drop_app_length. replace (drop (length q + length [","%char]) (q ++ ","%char :: rest)) with rest by (by rewrite drop_app_add).
    rewrite trim_end_app by lia. rewrite take_app_le by apply trim_end_le.
    destruct (IH ltac:(done) f (sl ++ [strip_space p]) (n + 1)) as (m & Hm); [rewrite length_app in Hf; cbn [length] in Hf; lia|].
    exists m. change (take (trim_end q (length q)) q) with (strip_space p). rewrite Hm. by rewrite <- app_assoc.
Qed.

(** A listed version, if it parses. *)
Definition listed_version (piece : bytes) : option tor_version :=
  let cp := strip_space piece in parsed_version (if strcmpstart cp (bs "Tor ") =? 0 then drop 4 cp else cp).
Definition listed_versions (pieces : list bytes) : list tor_version := base.omap listed_version pieces.

Definition status_of (mine : tor_version) (others : list tor_version) : version_status :=
  let cmp := tor_version_compare mine in
  let same := tor_version_same_series mine in
  if existsb (fun o => cmp o =? 0) others then VS_RECOMMENDED
  else if existsb same others && negb (existsb (fun o => same o && (cmp o <? 0)) others) && existsb (fun o => cmp o <? 0) others then VS_NEW_IN_SERIES
  else if existsb (fun o => cmp o <? 0) others && forallb (fun o => cmp o <? 0) others then VS_OLD
  else if negb (bool_decide (others = [])) && forallb (fun o => 0 <? cmp o) others then VS_NEW
  else VS_UNRECOMMENDED.

Lemma c_string_strip (p : bytes) : c_string p -> c_string (strip_space p).
Proof. intros H. unfold strip_space. apply Forall_take. induction H as [|c p Hc H IH]; cbn [skip_while]; [constructor|]. destruct (TOR_ISSPACE c); [done|by constructor]. Qed.

Lemma obsolete_loop_ok (mine : tor_version) (pieces : list bytes) : Forall c_string pieces -> forall f,
  obsolete_loop mine (strip_space <$> pieces) f =
  Ok (if existsb (fun o => tor_version_compare mine o =? 0) (listed_versions pieces) then None
      else Some {| found_newer := found_newer f || existsb (fun o => tor_version_compare mine o <? 0) (listed_versions pieces);
                   found_older := found_older f || existsb (fun o => 0 <? tor_version_compare mine o) (listed_versions pieces);
                   found_newer_in_series := found_newer_in_series f || existsb (fun o => (tor_version_compare mine o <? 0) && tor_version_same_series mine o) (listed_versions pieces);
                   found_any_in_series := found_any_in_series f || existsb (tor_version_same_series mine) (listed_versions pieces) |}).
Proof.
  induction 1 as [|p pieces Hp _ IH]; intros f; [cbn; rewrite !orb_false_r; by destruct f|]. cbn [fmap list_fmap obsolete_loop].
  unfold listed_versions in *. cbn [base.omap list_omap].
  set (cp := if _ =? 0 then drop 4 (strip_space p) else strip_space p). change (listed_version p) with (parsed_version cp).
  assert (Hc : c_string cp) by (unfold cp; destruct (_ =? _); [apply Forall_drop|]; by apply c_string_strip).
  destruct (try_parse_version cp Hc) as [-> _]. cbn [obind]. change (list_fmap _ _ ?g pieces) with (g <$> pieces). change (list_omap _ _ ?g pieces) with (base.omap g pieces).
  destruct (parsed_version cp) as [o|]; [|apply IH]. cbn [existsb]. destruct (Z.eqb_spec (tor_version_compare mine o) 0); [done|]. cbn [orb]. rewrite IH.
  cbn [found_newer found_older found_newer_in_series found_any_in_series]. by rewrite <- !orb_assoc.
Qed.

Lemma older_none (mine : tor_version) (l : list tor_version) : existsb (fun o => tor_version_compare mine o =? 0) l = false ->
  negb (existsb (fun o => 0 <? tor_version_compare mine o) l) = forallb (fun o => tor_version_compare mine o <? 0) l /\
  negb (existsb (fun o => tor_version_compare mine o <? 0) l) = forallb (fun o => 0 <? tor_version_compare mine o) l /\
  existsb (fun o => 0 <? tor_version_compare mine o) l || existsb (fun o => tor_version_compare mine o <? 0) l = negb (bool_decide (l = [])).
Proof.
  induction l as [|o l IH]; [done|]. cbn [existsb forallb]. intros [H0%Z.eqb_neq H]%orb_false_iff. destruct (IH H) as (IH1 & IH2 & _).
  rewrite bool_decide_false by done. rewrite !negb_orb, IH1, IH2. set (z := tor_version_compare mine o) in *. clearbody z.
  destruct (Z.ltb_spec 0 z), (Z.ltb_spec z 0); try lia; cbn; rewrite ?orb_true_r; done.
Qed.

Lemma obsolete_ok (myversion : bytes) (mine : tor_version) (pieces : list bytes) : tor_version_parse myversion = Ok mine ->
  pieces <> [] -> Forall (fun p => c_string p /\ ","%char ∉ p) pieces ->
  tor_version_is_obsolete myversion (join_fill pieces (bs ",")) =
  Ok (if bool_decide (join_fill pieces (bs ",") = []) then VS_EMPTY else status_of mine (listed_versions pieces)).
Proof.
  intros Hmine Hne Hps. unfold tor_version_is_obsolete. rewrite Hmine. apply Forall_and in Hps as [Hc Hcomma].
  unfold smartlist_split_string. destruct (split_spaces pieces Hcomma Hne (S (length (join_fill pieces (bs ",")))) [] 0) as (m & Hm); [cbn; lia|].
  change (bs ",") with [","%char] in *. rewrite Hm. cbn [obind app]. destruct (join_fill pieces [","%char]) as [|c0 s0]; [by rewrite bool_decide_true|].
  rewrite bool_decide_false by done. rewrite obsolete_loop_ok by done. cbn [obind]. unfold status_of.
  destruct (existsb (fun o => tor_version_compare mine o =? 0) (listed_versions pieces)) eqn:E0; [done|].
  cbn [found_newer found_older found_newer_in_series found_any_in_series orb].
  destruct (older_none mine _ E0) as (H1 & H2 & H3). rewrite <- H1, <- H2, <- H3.
  replace (existsb (fun o => tor_version_same_series mine o && (tor_version_compare mine o <? 0)) (listed_versions pieces))
    with (existsb (fun o => (tor_version_compare mine o <? 0) && tor_version_same_series mine o) (listed_versions pieces))
    by (clear; induction (listed_versions pieces) as [|o l IH]; [done|]; cbn [existsb]; by rewrite IH, andb_comm).
  destruct (existsb (tor_version_same_series mine) _), (existsb (fun o => (_ <? 0) && _) _), (existsb (fun o => tor_version_compare mine o <? 0) _),
    (existsb (fun o => 0 <? tor_version_compare mine o) _); reflexivity.
Qed.

(** ** Properties *)

(** C31: On every C string [tor_version_parse] ends without an undefined access; the version it accepts has numbers from 0 to INT32_MAX, a status tag of
    at most 31 characters and a git tag within its 20 bytes. On versions whose [svn_revision] is not negative [tor_version_compare] is a total
    order: antisymmetric, transitive, and 0 exactly on versions that agree in every field and in the bytes of the git tag that count. *)
Theorem tor_version_compare_total_order (s : bytes) :
  c_string s ->
  safe version_ok (tor_version_parse s) /\
  (forall a b, comparable a b -> Z.sgn (tor_version_compare b a) = - Z.sgn (tor_version_compare a b)) /\
  (forall a b, comparable a b -> tor_version_compare a b = 0 <-> same_version a b) /\
  (forall a b c, comparable a b -> comparable b c -> tor_version_compare a b <= 0 -> tor_version_compare b c <= 0 ->
     tor_version_compare a c <= 0 /\ (tor_version_compare a c = 0 -> same_version a b /\ same_version b c)).
Proof.
  intros Hs. split_and!; [by apply version_parse_safe| | |].
  - intros a b H. rewrite !compare_chain by (done || by destruct H). by apply (cmp_antisym _ _ chain_ok).
  - intros a b H. rewrite compare_chain by done. by apply chain_0.
  - intros a b c Hab Hbc. assert (Hac : comparable a c) by (by destruct Hab, Hbc). rewrite !compare_chain by done. intros H1 H2.
    destruct (cmp_trans _ _ chain_ok a b c Hab Hbc Hac H1 H2) as [H3 H4]. split; [done|]. intros E. rewrite <- !chain_0 by done. by apply H4.
Qed.

Theorem tor_version_compare_total_order_witness : c_string (bs "0.4.6.5 (git-deadbeef)") /\ safe version_ok (tor_version_parse (bs "0.4.6.5 (git-deadbeef)")).
Proof.
  assert (H : c_string (bs "0.4.6.5 (git-deadbeef)")) by (by repeat constructor). split; [exact H|].
  exact (proj1 (tor_version_compare_total_order _ H)).
Defined.

(** [tor_version_is_obsolete] for a version that parses and a list of versions joined with commas, with or without spaces and the prefix "Tor ":
    VS_EMPTY for the empty text, otherwise what [status_of] says of the listed versions that parse: recommended if one is equal; new in its series if its
    series is listed, no newer version of it is, and some newer version is; old or new if all are newer or all are older; otherwise unrecommended.
    The comment asks for VS_NEW_IN_SERIES without the last condition: for 0.4.6.5 against "0.4.6.4" it says that, and the code says VS_NEW. *)
Theorem tor_version_is_obsolete_correct (myversion : bytes) (mine : tor_version) (pieces : list bytes) : tor_version_parse myversion = Ok mine ->
  pieces <> [] -> Forall (fun p => c_string p /\ ","%char ∉ p) pieces ->
  tor_version_is_obsolete myversion (join_fill pieces (bs ",")) =
    Ok (if bool_decide (join_fill pieces (bs ",") = []) then VS_EMPTY else status_of mine (listed_versions pieces)) /\
  tor_version_is_obsolete (bs "0.4.6.5") (bs "0.4.6.4") = Ok VS_NEW.
Proof. intros. split; [by apply obsolete_ok|]. vm_compute. reflexivity. Qed.

Theorem tor_version_is_obsolete_correct_witness : let mine := {| major := 0; minor := 4; micro := 6; status := VER_RELEASE; patchlevel := 5; status_tag := [];
    svn_revision := 0; git_tag_len := 0; git_tag := replicate 20 NUL |} in
  tor_version_is_obsolete (bs "0.4.6.5") (bs "0.4.5.9, Tor 0.4.6.3,0.4.7.1-alpha, x") = Ok VS_NEW_IN_SERIES.
Proof.
  intros mine. assert (Hp : tor_version_parse (bs "0.4.6.5") = Ok mine) by (vm_compute; reflexivity).
  destruct (tor_version_is_obsolete_correct (bs "0.4.6.5") mine [bs "0.4.5.9"; bs " Tor 0.4.6.3"; bs "0.4.7.1-alpha"; bs " x"] Hp ltac:(done)) as [H _].
  - unfold c_string. apply (bool_decide_unpack _). by vm_compute.
  - etransitivity; [exact H|]. vm_compute. reflexivity.
Defined.
