(* ===== verification/Protover.v ===== *)
(** * Subprotocol versions: [core/or/protover.c], and their summary in [core/or/versions.c]

    Lists of protocols with the sets of versions that are supported, as bit masks; their text, voting on
    them, and the check of what a consensus requires. *)
From stdpp Require Import gmap.
From S2P Require Import Prelude ParseInt Strings Smartutil Versions.

Inductive protocol_type :=
  | PRT_LINK | PRT_LINKAUTH | PRT_RELAY | PRT_DIRCACHE | PRT_HSDIR | PRT_HSINTRO | PRT_HSREND | PRT_DESC | PRT_MICRODESC
  | PRT_CONS | PRT_PADDING | PRT_FLOWCTRL.

(** [PROTOCOL_NAMES] with [protocol_type_to_str]. *)
Definition protocol_type_to_str (pr : protocol_type) : bytes :=
  match pr with
  | PRT_LINK => bs "Link" | PRT_LINKAUTH => bs "LinkAuth" | PRT_RELAY => bs "Relay" | PRT_DIRCACHE => bs "DirCache"
  | PRT_HSDIR => bs "HSDir" | PRT_HSINTRO => bs "HSIntro" | PRT_HSREND => bs "HSRend" | PRT_DESC => bs "Desc"
  | PRT_MICRODESC => bs "Microdesc" | PRT_PADDING => bs "Padding" | PRT_CONS => bs "Cons" | PRT_FLOWCTRL => bs "FlowCtrl"
  end.

Definition MAX_PROTOCOL_NAME_LENGTH : nat := 100.
Definition MAX_PROTOCOL_VERSION : Z := 63.

Record proto_entry := { pe_name : bytes; bitmask : Z }.

(** ** Bit masks of 64 bits; a shift by 64 or more is undefined *)

Definition BIT (x : Z) : Z := wrap 64 (Z.shiftl 1 x).
Definition shl64 (x n : Z) : outcome Z := if (0 <=? n) && (n <? 64) then Ok (wrap 64 (Z.shiftl x n)) else Stuck.
Definition shr64 (x n : Z) : outcome Z := if (0 <=? n) && (n <? 64) then Ok (Z.shiftr x n) else Stuck.

Definition bitmask_for_range (low high : Z) : outcome Z :=
  let* mask := shl64 UINT64_MAX (63 - high) in
  let* mask := shr64 mask (63 - high + low) in
  shl64 mask low.

(** ** Parsing *)

(** The range is the first [n] characters of [s]; [Err] is -1. *)
Definition parse_version_range (s : bytes) (n : nat) : outcome (Z * Z) :=
  let end_of_range := (length s - n)%nat in
  if negb (TOR_ISDIGIT (deref s)) then Err
  else
    let r := tor_parse_ulong s 10 0 MAX_PROTOCOL_VERSION true in
    let low := wrap 32 (p_val r) in
    if negb (p_ok r) then Err
    else
      let* next := get (p_next r) in
      if (length next <? end_of_range)%nat then Err
      else if (length next =? end_of_range)%nat then Ok (low, low)
      else if negb (bool_decide (deref next = "-"%char)) then Err
      else
        let s := drop 1 next in
        if negb (TOR_ISDIGIT (deref s)) then Err
        else
          let r := tor_parse_ulong s 10 0 MAX_PROTOCOL_VERSION true in
          let high := wrap 32 (p_val r) in
          if negb (p_ok r) then Err
          else
            let* next := get (p_next r) in
            if negb (length next =? end_of_range)%nat then Err
            else if high <? low then Err
            else Ok (low, high).

Definition is_valid_keyword (s : bytes) : bool := forallb (fun c => TOR_ISALNUM c || bool_decide (c = "-"%char)) s.

(** The loop over the ranges; what is left of the entry is the first [m] characters of [s]. *)
Fixpoint parse_ranges_loop (fuel : nat) (s : bytes) (m : nat) (mask : Z) : outcome Z :=
  if (m =? 0)%nat then Ok mask
  else
    match fuel with
    | O => Stuck
    | S f =>
        let comma := match memchr s "," m with Some c => c | None => m end in
        let* (low, high) := parse_version_range s comma in
        let* b := bitmask_for_range low high in
        let mask := Z.lor mask b in
        let '(s, m) := (drop comma s, (m - comma)%nat) in
        let '(s, m) := if (1 <? m)%nat then (drop 1 s, (m - 1)%nat) else (s, m) in
        parse_ranges_loop f s m mask
    end.

(** The entry is the first [n] characters of [s]; [Err] is NULL. *)
Definition parse_single_entry (s : bytes) (n : nat) : outcome proto_entry :=
  match memchr s "=" n with
  | None => Err
  | Some equals =>
      if (equals =? 0)%nat then Err
      else if (MAX_PROTOCOL_NAME_LENGTH <? equals)%nat then Err
      else if negb (is_valid_keyword (take equals s)) then Err
      else
        tor_assert (equals <? n)%nat (
        let* mask := parse_ranges_loop (S n) (drop (equals + 1) s) (n - (equals + 1)) 0 in
        Ok {| pe_name := take equals s; bitmask := mask |})
  end.

Fixpoint skip_spaces (s : bytes) : bytes :=
  match s with c :: s' => if decide (c = SP) then skip_spaces s' else s | [] => [] end.

Fixpoint parse_protocol_loop (fuel : nat) (s : bytes) (entries : list proto_entry) : outcome (list proto_entry) :=
  match s with
  | [] => Ok entries
  | _ =>
      match fuel with
      | O => Stuck
      | S f =>
          let end_of_entry := match memchr s SP (length s) with Some e => e | None => length s end in
          let* entry := parse_single_entry s end_of_entry in
          parse_protocol_loop f (skip_spaces (drop end_of_entry s)) (entries ++ [entry])
      end
  end.

(** [Err] is NULL. *)
Definition parse_protocol_list (s : bytes) : outcome (list proto_entry) := parse_protocol_loop (S (length s)) s [].

(** In conditions: [None] for NULL. *)
Definition try_parse_protocol_list (s : bytes) : outcome (option (list proto_entry)) :=
  match parse_protocol_list s with Ok l => Ok (Some l) | Err => Ok None | Stuck => Stuck end.

Definition protover_list_is_invalid (s : bytes) : outcome bool :=
  let* l := try_parse_protocol_list s in Ok (match l with None => true | Some _ => false end).

(** ** Lookups *)

Fixpoint find_entry_by_name (protos : list proto_entry) (name : bytes) : option proto_entry :=
  match protos with
  | ent :: protos => if strcmp (pe_name ent) name =? 0 then Some ent else find_entry_by_name protos name
  | [] => None
  end.

Definition protocol_list_contains (protos : list proto_entry) (pr : protocol_type) (ver : Z) : bool :=
  if MAX_PROTOCOL_VERSION <? ver then false
  else match find_entry_by_name protos (protocol_type_to_str pr) with
       | Some ent => negb (Z.land (bitmask ent) (BIT ver) =? 0)
       | None => false
       end.

Definition protocol_list_supports_protocol (list : bytes) (tp : protocol_type) (version : Z) : outcome bool :=
  let* protocols := try_parse_protocol_list list in
  match protocols with
  | None => Ok false
  | Some protocols => Ok (protocol_list_contains protocols tp version)
  end.

Definition protocol_list_supports_protocol_or_later (list : bytes) (tp : protocol_type) (version : Z) : outcome bool :=
  let* protocols := try_parse_protocol_list list in
  match protocols with
  | None => Ok false
  | Some protocols =>
      let* mask := bitmask_for_range version 63 in
      Ok (existsb (fun proto => (strcasecmp (pe_name proto) (protocol_type_to_str tp) =? 0) && negb (Z.land (bitmask proto) mask =? 0)) protocols)
  end.

(** With OpenSSL, that is with HAVE_WORKING_TOR_TLS_GET_TLSSECRETS. *)
Definition protover_get_supported_protocols : bytes :=
  bs "Cons=1-2 Desc=1-2 DirCache=2 FlowCtrl=1 HSDir=1-2 HSIntro=3-5 HSRend=1-2 Link=1-5 LinkAuth=1,3 Microdesc=1-2 Padding=2 Relay=1-3".

Definition get_supported_protocol_list : outcome (list proto_entry) := parse_protocol_list protover_get_supported_protocols.

Definition protover_is_supported_here (pr : protocol_type) (ver : Z) : outcome bool :=
  let* ours := get_supported_protocol_list in Ok (protocol_list_contains ours pr ver).

(** ** Encoding *)

(** The number of trailing zeros; undefined for 0. *)
Fixpoint ctz (fuel : nat) (x : Z) : Z :=
  match fuel with O => 0 | S f => if Z.odd x then 0 else 1 + ctz f (Z.shiftr x 1) end.
Definition trailing_zeros (x : Z) : outcome Z := if x =? 0 then Stuck else Ok (ctz 64 x).

Definition not64 (x : Z) : Z := UINT64_MAX - x.

(** The loop over the runs of ones. *)
Fixpoint encode_loop (fuel : nat) (mask shift : Z) (first : bool) : outcome bytes :=
  if mask =? 0 then Ok []
  else
    match fuel with
    | O => Stuck
    | S f =>
        let comma := if first then [] else bs "," in
        let* zeros := trailing_zeros mask in
        let* mask := shr64 mask zeros in
        let shift := shift + zeros in
        let* ones := if mask =? 0 then Ok 64 else trailing_zeros (not64 mask) in
        let chunk := if ones =? 1 then comma ++ print_int shift
                     else comma ++ print_int shift ++ bs "-" ++ print_int (shift + ones - 1) in
        if ones =? 64 then Ok chunk
        else
          let* mask := shr64 mask ones in
          let* rest := encode_loop f mask (shift + ones) false in
          Ok (chunk ++ rest)
    end.

(** The chunks of one entry, joined. *)
Definition proto_entry_encode_into (entry : proto_entry) : outcome bytes :=
  let* ranges := encode_loop 65 (bitmask entry) 0 true in
  Ok (pe_name entry ++ bs "=" ++ ranges).

Fixpoint encode_entries (separator : bytes) (sl : list proto_entry) : outcome bytes :=
  match sl with
  | [] => Ok []
  | ent :: sl =>
      let* chunk := proto_entry_encode_into ent in
      let* rest := encode_entries (bs " ") sl in
      Ok (separator ++ chunk ++ rest)
  end.
Definition encode_protocol_list (sl : list proto_entry) : outcome bytes := encode_entries [] sl.

(** ** Voting *)

(** The votes that parse, and the names in them, in the order of their first appearance. *)
Fixpoint parse_votes (votes : list bytes) (parsed : list (list proto_entry)) (proto_names : list bytes)
    : outcome (list (list proto_entry) * list bytes) :=
  match votes with
  | [] => Ok (parsed, proto_names)
  | vote :: votes =>
      let* unexpanded := try_parse_protocol_list vote in
      match unexpanded with
      | None => parse_votes votes parsed proto_names
      | Some unexpanded =>
          let names := foldl (fun names ent => if smartlist_contains_string names (pe_name ent) then names else names ++ [pe_name ent]) proto_names unexpanded in
          parse_votes votes (parsed ++ [unexpanded]) names
      end
  end.

(** [counts\[i\]], a [uint8_t], after the loop over the votes. *)
Definition count_votes (parsed : list (list proto_entry)) (name : bytes) (i : Z) : Z :=
  foldl (fun c vote => match find_entry_by_name vote name with
                       | Some ent => if negb (Z.land (bitmask ent) (BIT i) =? 0) then wrap 8 (c + 1) else c
                       | None => c
                       end) 0 parsed.

Definition result_bitmask (parsed : list (list proto_entry)) (name : bytes) (threshold : Z) : Z :=
  foldl (fun m i => if threshold <=? count_votes parsed name i then Z.lor m (BIT i) else m) 0 (seqZ 0 64).

(** [smartlist_sort_strings]; the names are distinct, so that every sorting algorithm gives this. *)
Fixpoint insert_string (s : bytes) (l : list bytes) : list bytes :=
  match l with x :: l' => if strcmp s x <=? 0 then s :: l else x :: insert_string s l' | [] => [s] end.
Definition smartlist_sort_strings (l : list bytes) : list bytes := foldr insert_string [] l.

Definition protover_compute_vote (list_of_proto_strings : list bytes) (threshold : Z) : outcome bytes :=
  tor_assert (zlen list_of_proto_strings <? 256) (
  match list_of_proto_strings with
  | [] => Ok []
  | _ =>
      let* (parsed, proto_names) := parse_votes list_of_proto_strings [] [] in
      let result := List.filter (fun e => negb (bitmask e =? 0))
                      ((fun name => {| pe_name := name; bitmask := result_bitmask parsed name threshold |}) <$> smartlist_sort_strings proto_names) in
      encode_protocol_list result
  end).

(** ** What we support *)

Definition missing_entries (supported entries : list proto_entry) : list proto_entry :=
  List.filter (fun e => negb (bitmask e =? 0))
    ((fun ent => match find_entry_by_name supported (pe_name ent) with
                 | None => ent
                 | Some mine => {| pe_name := pe_name ent; bitmask := Z.land (bitmask ent) (not64 (bitmask mine)) |}
                 end) <$> entries).

(** The answer and [*missing_out], for callers that pass one. *)
Definition protover_all_supported (s : option bytes) : outcome (bool * option bytes) :=
  match s with
  | None => Ok (true, None)
  | Some s =>
      let* entries := try_parse_protocol_list s in
      match entries with
      | None => Ok (true, None)
      | Some entries =>
          let* supported := get_supported_protocol_list in
          match missing_entries supported entries with
          | [] => Ok (true, None)
          | missing => let* text := encode_protocol_list missing in Ok (false, Some text)
          end
      end
  end.

Definition FIRST_TOR_VERSION_TO_ADVERTISE_PROTOCOLS : bytes := bs "0.2.9.3-alpha".

Definition protover_compute_for_old_tor (version : option bytes) : outcome bytes :=
  let version := default (bs "0.2.5.15") version in
  let* b := tor_version_as_new_as version FIRST_TOR_VERSION_TO_ADVERTISE_PROTOCOLS in
  if b : bool then Ok []
  else
    let* b := tor_version_as_new_as version (bs "0.2.9.1-alpha") in
    if b : bool then Ok (bs "Cons=1-2 Desc=1-2 DirCache=1 HSDir=1 HSIntro=3 HSRend=1-2 Link=1-4 LinkAuth=1 Microdesc=1-2 Relay=1-2")
    else
      let* b := tor_version_as_new_as version (bs "0.2.7.5") in
      if b : bool then Ok (bs "Cons=1-2 Desc=1-2 DirCache=1 HSDir=1 HSIntro=3 HSRend=1 Link=1-4 LinkAuth=1 Microdesc=1-2 Relay=1-2")
      else
        let* b := tor_version_as_new_as version (bs "0.2.4.19") in
        if b : bool then Ok (bs "Cons=1 Desc=1 DirCache=1 HSDir=1 HSIntro=3 HSRend=1 Link=1-4 LinkAuth=1 Microdesc=1 Relay=1-2")
        else Ok [].
