(* ===== verification/ProtoverFacts.v ===== *)
(** * Subprotocol versions: masks as sets of versions, the text of a list, votes, and what is supported *)
From Stdlib Require Import Sorted.
From stdpp Require Import gmap.
From S2P Require Import Prelude ParseInt Strings Smartutil InaddrSafe StringOrder Versions Protover.

(** ** Masks *)

Definition mask_ok (m : Z) : Prop := 0 <= m < 2 ^ 64.
(** Not all 64 versions, which the encoder cannot count. *)
Definition mask_encodable (m : Z) : Prop := 0 <= m < 2 ^ 64 - 1.
Definition range_mask (low high : Z) : Z := Z.shiftl (Z.ones (high - low + 1)) low.

Lemma bitmask_for_range_ok (low high : Z) : 0 <= low <= high -> high < 64 -> bitmask_for_range low high = Ok (range_mask low high).
Proof.
  intros Hl Hh.
  set (P h l := match bitmask_for_range l h with Ok m => (h <? l) || (m =? range_mask l h) | _ => h <? l end).
  assert (H : forallb (fun h => forallb (P h) (seqZ 0 64)) (seqZ 0 64) = true) by (by vm_compute).
  pose proof (forall_range (P high) 64 (forall_range (fun h => forallb (P h) (seqZ 0 64)) 64 H high ltac:(lia)) low ltac:(lia)) as Hp.
  unfold P in Hp. destruct (bitmask_for_range low high) as [m| |]; cbn in Hp.
  - apply orb_true_iff in Hp as [Hp%Z.ltb_lt | ->%Z.eqb_eq]; [lia|done].
  - apply Z.ltb_lt in Hp. lia.
  - apply Z.ltb_lt in Hp. lia.
Qed.

Lemma range_mask_testbit (low high i : Z) : 0 <= low <= high -> 0 <= i ->
  Z.testbit (range_mask low high) i = (low <=? i) && (i <=? high).
Proof.
  intros Hl Hi. unfold range_mask. rewrite Z.shiftl_spec by done. destruct (Z.leb_spec low i).
  - rewrite Z.testbit_ones_nonneg by lia. cbn [andb]. destruct (Z.ltb_spec (i - low) (high - low + 1)), (Z.leb_spec i high); done || lia.
  - by rewrite Z.testbit_neg_r by lia.
Qed.

Lemma mask_bits (m : Z) : 0 <= m -> (mask_ok m <-> forall i, 64 <= i -> Z.testbit m i = false).
Proof.
  intros Hm. split.
  - intros [_ H] i Hi. destruct (Z.eq_dec m 0) as [->|Hn]; [apply Z.bits_0|].
    apply Z.bits_above_log2; [done|]. apply Z.log2_lt_pow2 in H; lia.
  - intros H. split; [done|]. destruct (Z.eq_dec m 0) as [->|Hn]; [done|]. apply Z.log2_lt_pow2; [lia|].
    destruct (Z.lt_ge_cases (Z.log2 m) 64) as [L|L]; [done|]. specialize (H _ L). by rewrite Z.bit_log2 in H by lia.
Qed.

Lemma mask_eq (a b : Z) : mask_ok a -> mask_ok b -> (forall i, 0 <= i < 64 -> Z.testbit a i = Z.testbit b i) -> a = b.
Proof.
  intros Ha Hb H. apply Z.bits_inj'. intros i Hi. destruct (Z.lt_ge_cases i 64) as [L|L]; [by apply H|].
  rewrite (proj1 (mask_bits a ltac:(unfold mask_ok in *; lia)) Ha i L). by rewrite (proj1 (mask_bits b ltac:(unfold mask_ok in *; lia)) Hb i L).
Qed.

Lemma range_mask_ok (low high : Z) : 0 <= low <= high -> high < 64 -> mask_ok (range_mask low high).
Proof.
  intros Hl Hh. apply mask_bits.
  - unfold range_mask. apply Z.shiftl_nonneg, Z.lt_le_incl. rewrite Z.ones_equiv. pose proof (Z.pow_gt_1 2 (high - low + 1)). lia.
  - intros i Hi. rewrite range_mask_testbit by lia. destruct (Z.leb_spec low i), (Z.leb_spec i high); done || lia.
Qed.

Lemma lor_mask_ok (a b : Z) : mask_ok a -> mask_ok b -> mask_ok (Z.lor a b).
Proof.
  intros Ha Hb. assert (0 <= Z.lor a b) by (apply Z.lor_nonneg; unfold mask_ok in *; lia). apply mask_bits; [done|]. intros i Hi.
  rewrite Z.lor_spec, (proj1 (mask_bits a ltac:(unfold mask_ok in *; lia)) Ha i Hi). by rewrite (proj1 (mask_bits b ltac:(unfold mask_ok in *; lia)) Hb i Hi).
Qed.

Lemma BIT_ok (i : Z) : 0 <= i < 64 -> BIT i = 2 ^ i.
Proof. intros Hi. unfold BIT, wrap. rewrite Z.shiftl_1_l. apply Z.mod_small. split; [apply Z.pow_nonneg; lia|apply Z.pow_lt_mono_r; lia]. Qed.

Lemma BIT_testbit (m i : Z) : 0 <= i < 64 -> negb (Z.land m (BIT i) =? 0) = Z.testbit m i.
Proof.
  intros Hi. rewrite BIT_ok by done. destruct (Z.testbit m i) eqn:E.
  - apply negb_true_iff, Z.eqb_neq. intros H. assert (Z.testbit (Z.land m (2 ^ i)) i = true) as Ht by (rewrite Z.land_spec, E, Z.pow2_bits_true; [done|lia]).
    by rewrite H, Z.bits_0 in Ht.
  - apply negb_false_iff, Z.eqb_eq. apply Z.bits_inj'. intros j Hj. rewrite Z.land_spec, Z.bits_0, Z.pow2_bits_eqb by lia.
    destruct (Z.eqb_spec i j) as [->|]; [by rewrite E|by rewrite andb_false_r].
Qed.

Lemma not64_testbit (m i : Z) : mask_ok m -> 0 <= i < 64 -> Z.testbit (not64 m) i = negb (Z.testbit m i).
Proof.
  intros Hm Hi. replace (not64 m) with (Z.lnot m mod 2 ^ 64).
  - rewrite Z.mod_pow2_bits_low by lia. apply Z.lnot_spec. lia.
  - unfold not64, Z.lnot, UINT64_MAX, mask_ok in *. dlia.
Qed.

Lemma not64_ok (m : Z) : mask_ok m -> mask_ok (not64 m).
Proof. unfold mask_ok, not64, UINT64_MAX. lia. Qed.

(** ** Trailing zeros *)

Lemma ctz_ok (fuel : nat) : forall x, 0 < x < 2 ^ Z.of_nat fuel ->
  0 <= ctz fuel x < Z.of_nat fuel /\ Z.testbit x (ctz fuel x) = true /\ forall i, i < ctz fuel x -> Z.testbit x i = false.
Proof.
  induction fuel as [|f IH]; intros x Hx; [cbn in Hx; lia|]. cbn [ctz]. destruct (Z.odd x) eqn:E.
  - split; [lia|]. split; [by rewrite Z.bit0_odd|]. intros i Hi. by apply Z.testbit_neg_r.
  - rewrite Nat2Z.inj_succ, Z.pow_succ_r in Hx by lia. assert (Hs : Z.shiftr x 1 = x / 2) by (by rewrite Z.shiftr_div_pow2).
    assert (Heven : x mod 2 = 0) by (rewrite Zmod_odd, E; done).
    destruct (IH (Z.shiftr x 1)) as (H1 & H2 & H3); [rewrite Hs; dlia|]. split; [lia|].
    rewrite Z.shiftr_spec in H2 by lia. split; [by rewrite Z.add_comm|]. intros i Hi.
    destruct (Z.lt_trichotomy i 0) as [L|[->|L]]; [by apply Z.testbit_neg_r|by rewrite Z.bit0_odd|].
    specialize (H3 (i - 1) ltac:(lia)). rewrite Z.shiftr_spec in H3 by lia. by rewrite Z.sub_add in H3.
Qed.

Lemma trailing_zeros_ok (x : Z) : mask_ok x -> x <> 0 ->
  exists n, trailing_zeros x = Ok n /\ 0 <= n < 64 /\ Z.testbit x n = true /\ forall i, i < n -> Z.testbit x i = false.
Proof.
  intros [H1 H2] Hx. unfold trailing_zeros. rewrite (proj2 (Z.eqb_neq _ _)) by done.
  destruct (ctz_ok 64 x) as (? & ? & ?); [change (Z.of_nat 64) with 64; lia|]. by eexists.
Qed.

(** ** The text of a mask: its maximal runs of ones *)

Definition range_text (r : Z * Z) : bytes := if r.1 =? r.2 then print_int r.1 else print_int r.1 ++ bs "-" ++ print_int r.2.
Fixpoint ranges_text (first : bool) (rs : list (Z * Z)) : bytes :=
  match rs with [] => [] | r :: rs => (if first then [] else bs ",") ++ range_text r ++ ranges_text false rs end.
Definition range_ok (r : Z * Z) : Prop := 0 <= r.1 <= r.2 /\ r.2 < 64.
Definition ranges_mask (rs : list (Z * Z)) : Z := foldr (fun r m => Z.lor (range_mask r.1 r.2) m) 0 rs.

Lemma shr_bound (m a b : Z) : 0 <= m < 2 ^ b -> 0 <= a <= b -> 0 <= Z.shiftr m a < 2 ^ (b - a).
Proof.
  intros Hm Ha. rewrite Z.shiftr_div_pow2 by lia. assert (0 < 2 ^ a) by (apply Z.pow_pos_nonneg; lia).
  split; [apply Z.div_pos; lia|]. apply Z.div_lt_upper_bound; [done|]. rewrite <- Z.pow_add_r by lia. replace (a + (b - a)) with b by lia. lia.
Qed.

Lemma bit_below (m b i : Z) : 0 <= m < 2 ^ b -> 0 <= b -> Z.testbit m i = true -> 0 <= i < b.
Proof.
  intros Hm Hb Hi. split; [destruct (Z.lt_ge_cases i 0); [by rewrite Z.testbit_neg_r in Hi|done]|].
  destruct (Z.lt_ge_cases i b) as [L|L]; [done|]. destruct (Z.eq_dec m 0) as [->|Hn]; [by rewrite Z.bits_0 in Hi|].
  rewrite Z.bits_above_log2 in Hi; [done|lia|]. assert (Z.log2 m < b) by (apply Z.log2_lt_pow2; lia). lia.
Qed.

Lemma pow64 (b : Z) : b <= 64 -> 2 ^ b <= 2 ^ 64.
Proof. intros. apply Z.pow_le_mono_r; lia. Qed.

(** The next run: what the two counts and the two shifts give. *)
Lemma next_run (mask shift : Z) : 0 <= shift <= 64 -> 0 < mask < 2 ^ (64 - shift) -> (shift = 0 -> mask <> 2 ^ 64 - 1) ->
  exists z n, trailing_zeros mask = Ok z /\ 0 <= z < 64 /\ Z.shiftr mask z <> 0 /\ trailing_zeros (not64 (Z.shiftr mask z)) = Ok n /\
    1 <= n < 64 /\ shift + z + n <= 64 /\
    Z.shiftl mask shift = Z.lor (range_mask (shift + z) (shift + z + n - 1)) (Z.shiftl (Z.shiftr (Z.shiftr mask z) n) (shift + z + n)).
Proof.
  intros Hs Hm Hfull. pose proof (pow64 (64 - shift) ltac:(lia)).
  destruct (trailing_zeros_ok mask) as (z & Hz & Hz1 & Hz2 & Hz3); [unfold mask_ok; lia|lia|].
  pose proof (bit_below mask (64 - shift) z ltac:(lia) ltac:(lia) Hz2).
  pose proof (shr_bound mask z (64 - shift) ltac:(lia) ltac:(lia)) as H1. pose proof (pow64 (64 - shift - z) ltac:(lia)).
  set (m1 := Z.shiftr mask z) in *. assert (Hm1 : mask_ok m1) by (unfold mask_ok; lia).
  assert (Hb0 : Z.testbit m1 0 = true) by (unfold m1; by rewrite Z.shiftr_spec, Z.add_0_l by lia).
  assert (Hn0 : m1 <> 0) by (intros E; by rewrite E, Z.bits_0 in Hb0).
  destruct (trailing_zeros_ok (not64 m1)) as (n & Hn & Hn1 & Hn2 & Hn3); [by apply not64_ok| |].
  { unfold not64, UINT64_MAX. intros E. assert (Hfe : m1 = 2 ^ 64 - 1) by lia.
    destruct (Z.eq_dec (shift + z) 0) as [E0|E0].
    - apply Hfull; [lia|]. rewrite <- Hfe. unfold m1. replace z with 0 by lia. by rewrite Z.shiftr_0_r.
    - assert (2 ^ (64 - shift - z) <= 2 ^ 63) by (apply Z.pow_le_mono_r; lia). lia. }
  assert (Hones : forall i, 0 <= i < n -> Z.testbit m1 i = true).
  { intros i Hi. specialize (Hn3 i ltac:(lia)). rewrite not64_testbit in Hn3 by (done || lia). by apply negb_false_iff. }
  assert (1 <= n). { destruct (Z.eq_dec n 0) as [->|]; [|lia]. by rewrite not64_testbit, Hb0 in Hn2 by (done || lia). }
  pose proof (bit_below m1 (64 - shift - z) (n - 1) H1 ltac:(lia) (Hones (n - 1) ltac:(lia))).
  exists z, n. split_and!; [done|lia|lia|done|done|lia|lia|lia|].
  apply Z.bits_inj'. intros i Hi. rewrite Z.lor_spec, range_mask_testbit, !Z.shiftl_spec by lia.
  destruct (Z.lt_ge_cases i (shift + z)) as [L|L].
  - rewrite (Z.testbit_neg_r _ (i - (shift + z + n))), (Hz3 (i - shift)) by lia. destruct (Z.leb_spec (shift + z) i); [lia|done].
  - rewrite (proj2 (Z.leb_le _ _)) by lia. cbn [andb]. destruct (Z.leb_spec i (shift + z + n - 1)) as [L'|L'].
    + specialize (Hones (i - (shift + z)) ltac:(lia)). unfold m1 in Hones. rewrite Z.shiftr_spec in Hones by lia.
      cbn [orb]. rewrite <- Hones. f_equal. lia.
    + cbn [orb]. unfold m1. rewrite !Z.shiftr_spec by lia. f_equal. lia.
Qed.

Lemma encode_loop_ok (fuel : nat) : forall mask shift first, 0 <= shift <= 64 -> 0 <= mask < 2 ^ (64 - shift) -> (shift = 0 -> mask <> 2 ^ 64 - 1) ->
  64 - shift < Z.of_nat fuel ->
  exists rs, encode_loop fuel mask shift first = Ok (ranges_text first rs) /\ Forall range_ok rs /\ ranges_mask rs = Z.shiftl mask shift.
Proof.
  induction fuel as [|f IH]; intros mask shift first Hs Hm Hfull Hf; [lia|]. cbn [encode_loop].
  destruct (Z.eqb_spec mask 0) as [->|Hm0]; [exists []; split_and!; [done|constructor|by rewrite Z.shiftl_0_l]|].
  destruct (next_run mask shift Hs ltac:(lia) Hfull) as (z & n & -> & Hz & Hz0 & Hn & Hn1 & Hsum & Hmask). cbn [obind].
  unfold shr64. rewrite (proj2 (Z.leb_le 0 z)), (proj2 (Z.ltb_lt z 64)) by lia. cbn [andb obind].
  rewrite (proj2 (Z.eqb_neq _ 0)) by done. rewrite Hn. cbn [obind]. rewrite (proj2 (Z.eqb_neq n 64)) by lia.
  rewrite (proj2 (Z.leb_le 0 n)), (proj2 (Z.ltb_lt n 64)) by lia. cbn [andb obind].
  destruct (IH (Z.shiftr (Z.shiftr mask z) n) (shift + z + n) false) as (rs & -> & Hrs & Hrm); [lia| |lia|lia|].
  { rewrite Z.shiftr_shiftr by lia. replace (64 - (shift + z + n)) with (64 - shift - (z + n)) by lia. apply shr_bound; lia. }
  cbn [obind]. exists ((shift + z, shift + z + n - 1) :: rs). split_and!.
  - cbn [ranges_text]. rewrite (app_assoc _ (range_text _)). do 2 f_equal. unfold range_text. cbn [fst snd].
    destruct (Z.eqb_spec n 1), (Z.eqb_spec (shift + z) (shift + z + n - 1)); done || lia.
  - constructor; [split; cbn; lia|done].
  - cbn [ranges_mask foldr fst snd]. unfold ranges_mask in Hrm. rewrite Hrm. by rewrite Hmask.
Qed.

Lemma encode_mask_ok (mask : Z) : mask_encodable mask -> exists rs, encode_loop 65 mask 0 true = Ok (ranges_text true rs) /\ Forall range_ok rs /\ ranges_mask rs = mask.
Proof. intros Hm. destruct (encode_loop_ok 65 mask 0 true) as (rs & ? & ? & E); [lia|unfold mask_encodable in Hm; change (64 - 0) with 64; lia|unfold mask_encodable in Hm; lia|lia|]. rewrite Z.shiftl_0_r in E. by exists rs. Qed.

(** ** Parsing what was printed *)

Lemma print_int_all_digits (z : Z) : 0 <= z -> Forall (fun c => TOR_ISDIGIT c = true) (print_int z).
Proof.
  intros Hz. unfold print_int. rewrite (proj2 (Z.ltb_ge _ _)) by done. unfold print_nat.
  assert (H : forall f n tail, 0 <= n -> Forall (fun c => TOR_ISDIGIT c = true) tail -> Forall (fun c => TOR_ISDIGIT c = true) (dec_digits f n tail)).
  { induction f as [|f IH]; intros n tail Hn Ht; [done|]. cbn [dec_digits].
    assert (Hc : TOR_ISDIGIT (z2b (48 + n mod 10)) = true) by (apply isdigit_dec_char; dlia).
    destruct (n <? 10); [by constructor|]. apply IH; [dlia|by constructor]. }
  by apply H.
Qed.

Lemma digits_not (c : ascii) (s : bytes) : TOR_ISDIGIT c = false -> Forall (fun c => TOR_ISDIGIT c = true) s -> Forall (fun d => d <> c) s.
Proof. intros Hc Hs. eapply Forall_impl; [exact Hs|]. cbn. intros d Hd ->. congruence. Qed.

Lemma range_text_not (c : ascii) (r : Z * Z) : range_ok r -> TOR_ISDIGIT c = false -> c <> "-"%char -> Forall (fun d => d <> c) (range_text r).
Proof.
  intros [H1 H2] Hc Hd. unfold range_text.
  assert (H : forall z, 0 <= z -> Forall (fun d => d <> c) (print_int z)) by (intros z Hz; by apply digits_not, print_int_all_digits).
  destruct (_ =? _); [by apply H; lia|]. apply Forall_app; split; [by apply H; lia|]. constructor; [by intros <-|]. apply H; lia.
Qed.

Lemma print_int_first (z : Z) (rest : bytes) : 0 <= z -> TOR_ISDIGIT (deref (print_int z ++ rest)) = true.
Proof.
  intros Hz. pose proof (print_int_all_digits z Hz) as H. pose proof (print_int_nonnil z). destruct (print_int z); [done|]. by apply Forall_cons in H as [? _].
Qed.

Lemma parse_version_range_text (r : Z * Z) (rest : bytes) : range_ok r -> TOR_ISDIGIT (deref rest) = false -> deref rest <> "-"%char ->
  parse_version_range (range_text r ++ rest) (length (range_text r)) = Ok r.
Proof.
  destruct r as [low high]. intros [H1 H2] Hd Hm. cbn in H1, H2. unfold parse_version_range.
  replace (length (range_text (low, high) ++ rest) - length (range_text (low, high)))%nat with (length rest) by (rewrite length_app; lia).
  assert (Hw : forall z, 0 <= z < 64 -> wrap 32 z = z) by (intros; unfold wrap; rewrite Z.mod_small; lia).
  unfold range_text, MAX_PROTOCOL_VERSION. cbn [fst snd]. destruct (Z.eqb_spec low high) as [<-|Hne].
  - rewrite print_int_first by lia. cbn [negb]. rewrite tor_parse_ulong_print by (unfold ULONG_MAX; done || lia). cbn [p_val p_ok p_next negb get obind].
    rewrite Hw by lia. by rewrite Nat.ltb_irrefl, Nat.eqb_refl.
  - rewrite <- app_assoc. rewrite print_int_first by lia. cbn [negb].
    rewrite tor_parse_ulong_print by (unfold ULONG_MAX; done || lia). cbn [p_val p_ok p_next negb get obind].
    rewrite (proj2 (Nat.ltb_ge _ _)), (proj2 (Nat.eqb_neq _ _)) by (rewrite !length_app; cbn; lia).
    change (bool_decide (deref ((bs "-" ++ print_int high) ++ rest) = "-"%char)) with true. cbn [negb].
    change (drop 1 ((bs "-" ++ print_int high) ++ rest)) with (print_int high ++ rest).
    rewrite print_int_first by lia. cbn [negb]. rewrite tor_parse_ulong_print by (unfold ULONG_MAX; done || lia). cbn [p_val p_ok p_next negb get obind].
    rewrite Nat.eqb_refl, !Hw by lia. cbn [negb]. by rewrite (proj2 (Z.ltb_ge _ _)) by lia.
Qed.

Definition range_end (c : ascii) : Prop := TOR_ISDIGIT c = false /\ c <> "-"%char.

Lemma range_text_pos (r : Z * Z) : (0 < length (range_text r))%nat.
Proof.
  assert (H : forall z, (0 < length (print_int z))%nat) by (intros z; pose proof (print_int_nonnil z); by destruct (print_int z); cbn; [|lia]).
  unfold range_text. destruct (_ =? _); rewrite ?length_app; pose proof (H r.1); lia.
Qed.

Lemma parse_ranges_text (rs : list (Z * Z)) : forall f rest acc, Forall range_ok rs -> range_end (deref rest) -> (length rs <= f)%nat ->
  parse_ranges_loop f (ranges_text true rs ++ rest) (length (ranges_text true rs)) acc = Ok (Z.lor acc (ranges_mask rs)).
Proof.
  induction rs as [|r rs IH]; intros f rest acc Hrs Hend Hf.
  - destruct f; cbn; by rewrite Z.lor_0_r.
  - apply Forall_cons in Hrs as [Hr Hrs]. destruct f as [|f]; [cbn in Hf; lia|]. pose proof (range_text_pos r) as Hpos.
    cbn [ranges_text app]. cbn [parse_ranges_loop]. rewrite (proj2 (Nat.eqb_neq _ 0)) by (rewrite length_app; lia).
    set (more := ranges_text false rs). rewrite <- !app_assoc.
    assert (Hc : match memchr (range_text r ++ more ++ rest) "," (length (range_text r ++ more)) with Some c => c | None => length (range_text r ++ more) end = length (range_text r)).
    { unfold more. destruct rs as [|r' rs]; cbn [ranges_text app].
      - rewrite app_nil_r, memchr_prefix_absent by (by apply range_text_not). done.
      - change (bs "," ++ ?x) with (","%char :: x). rewrite <- app_comm_cons, memchr_here by (first [by apply range_text_not|rewrite length_app; cbn; lia]). done. }
    rewrite Hc. assert (Hre : range_end (deref (more ++ rest))) by (unfold more; destruct rs; [done|by split]).
    destruct Hre as [? ?]. rewrite parse_version_range_text by done. cbn [obind]. destruct r as [low high]. destruct Hr as [Hr1 Hr2]. cbn in Hr1, Hr2.
    rewrite bitmask_for_range_ok by done. cbn [obind]. rewrite length_app, drop_app_length.
    replace (length (range_text (low, high)) + length more - length (range_text (low, high)))%nat with (length more) by lia.
    unfold more. destruct rs as [|r' rs].
    + cbn [ranges_text length app]. change (1 <? 0)%nat with false. cbn iota. destruct f; cbn; by rewrite Z.lor_0_r.
    + cbn [ranges_text]. change (bs "," ++ ?x) with (","%char :: x). cbn [length app]. pose proof (range_text_pos r').
      rewrite (proj2 (Nat.ltb_lt 1 _)) by (rewrite length_app; lia). cbn [drop]. rewrite Nat.sub_1_r. cbn [Nat.pred].
      specialize (IH f rest (Z.lor acc (range_mask low high)) Hrs Hend ltac:(cbn in *; lia)). cbn [ranges_text app] in IH.
      rewrite drop_0, IH. f_equal. unfold ranges_mask. cbn [foldr fst snd]. by rewrite !Z.lor_assoc.
Qed.

(** ** Entries and lists *)

(** What the parser guarantees of an entry. *)
Definition name_ok (name : bytes) : Prop := name <> [] /\ (length name <= MAX_PROTOCOL_NAME_LENGTH)%nat /\ is_valid_keyword name = true.
Definition entry_ok (e : proto_entry) : Prop := name_ok (pe_name e) /\ mask_ok (bitmask e).
Definition encodable (e : proto_entry) : Prop := name_ok (pe_name e) /\ mask_encodable (bitmask e).

Definition entry_text (e : proto_entry) (rs : list (Z * Z)) : bytes := pe_name e ++ bs "=" ++ ranges_text true rs.

Lemma keyword_not (c : ascii) (name : bytes) : TOR_ISALNUM c || bool_decide (c = "-"%char) = false -> is_valid_keyword name = true ->
  Forall (fun d => d <> c) name.
Proof. intros Hc Hn. apply Forall_forall. intros d Hd ->. unfold is_valid_keyword in Hn. rewrite forallb_forall in Hn. rewrite Hn in Hc; [done|by apply list_elem_of_In]. Qed.

Lemma ranges_text_not (c : ascii) (rs : list (Z * Z)) : Forall range_ok rs -> TOR_ISDIGIT c = false -> c <> "-"%char -> c <> ","%char ->
  forall first, Forall (fun d => d <> c) (ranges_text first rs).
Proof.
  intros Hrs Hc Hd He. induction Hrs as [|r rs Hr _ IH]; intros first; [done|]. cbn [ranges_text]. apply Forall_app. split.
  - destruct first; [done|]. constructor; [by intros <-|done].
  - apply Forall_app. split; [by apply range_text_not|done].
Qed.

Lemma ranges_text_length (rs : list (Z * Z)) : forall first, (length rs <= length (ranges_text first rs))%nat.
Proof. induction rs as [|r rs IH]; intros first; [done|]. cbn [ranges_text length]. rewrite !length_app. pose proof (range_text_pos r). specialize (IH false). lia. Qed.

Lemma encode_entry_ok (e : proto_entry) : encodable e -> exists rs, proto_entry_encode_into e = Ok (entry_text e rs) /\ Forall range_ok rs /\ ranges_mask rs = bitmask e.
Proof. intros [_ Hm]. destruct (encode_mask_ok _ Hm) as (rs & He & ? & ?). exists rs. unfold proto_entry_encode_into. by rewrite He. Qed.

Lemma parse_single_entry_text (e : proto_entry) (rs : list (Z * Z)) (rest : bytes) : entry_ok e -> Forall range_ok rs -> ranges_mask rs = bitmask e ->
  range_end (deref rest) -> parse_single_entry (entry_text e rs ++ rest) (length (entry_text e rs)) = Ok e.
Proof.
  intros [(Hn1 & Hn2 & Hn3) _] Hrs Hm Hend. unfold parse_single_entry, entry_text. rewrite <- !app_assoc.
  change (bs "=" ++ ?x) with ("="%char :: x). set (ranges := ranges_text true rs).
  assert (Hl : length (pe_name e ++ "="%char :: ranges) = (length (pe_name e) + 1 + length ranges)%nat) by (rewrite length_app; cbn; lia).
  rewrite Hl, memchr_here by (first [by apply keyword_not|lia]).
  rewrite (proj2 (Nat.eqb_neq _ 0)) by (by destruct (pe_name e)). rewrite (proj2 (Nat.ltb_ge _ _)) by done.
  rewrite take_app_length, Hn3. cbn [negb]. unfold tor_assert. rewrite (proj2 (Nat.ltb_lt _ _)) by lia.
  replace (drop (length (pe_name e) + 1) (pe_name e ++ "="%char :: ranges ++ rest)) with (ranges ++ rest) by (by rewrite drop_app_add).
  replace (length (pe_name e) + 1 + length ranges - (length (pe_name e) + 1))%nat with (length ranges) by lia. unfold ranges.
  rewrite parse_ranges_text; [cbn [obind]; rewrite Z.lor_0_l, Hm; by destruct e|done|done|].
  pose proof (ranges_text_length rs true). unfold ranges. lia.
Qed.

Lemma skip_spaces_not (s : bytes) : deref s <> SP -> skip_spaces s = s.
Proof. destruct s as [|c s]; [done|]. cbn. intros H. by rewrite decide_False. Qed.

(** The entries separated by spaces. *)
Fixpoint list_text (texts : list bytes) : bytes :=
  match texts with [] => [] | [t] => t | t :: texts => t ++ bs " " ++ list_text texts end.

Lemma encode_entries_ok (es : list proto_entry) : Forall encodable es ->
  exists tr : list (list (Z * Z)), length tr = length es /\ Forall2 (fun e rs => Forall range_ok rs /\ ranges_mask rs = bitmask e) es tr /\
    forall sep, encode_entries sep es = Ok (match es with [] => [] | _ => sep ++ list_text (zip_with entry_text es tr) end).
Proof.
  induction 1 as [|e es He _ (tr & Hlen & Htr & IH)]; [exists []; by split_and!|].
  destruct (encode_entry_ok e He) as (rs & Hrs & ? & ?). exists (rs :: tr). split_and!; [cbn; lia|by constructor|].
  intros sep. cbn [encode_entries]. rewrite Hrs. cbn [obind]. rewrite IH. cbn [obind zip_with]. do 2 f_equal.
  destruct es as [|e' es]; [by destruct tr; cbn; rewrite app_nil_r|]. destruct tr as [|rs' tr]; [done|]. cbn [zip_with list_text]. done.
Qed.

Lemma entry_text_not_space (e : proto_entry) (rs : list (Z * Z)) : name_ok (pe_name e) -> Forall range_ok rs -> Forall (fun d => d <> SP) (entry_text e rs).
Proof.
  intros (_ & _ & Hn) Hrs. unfold entry_text. apply Forall_app; split; [by apply keyword_not|]. constructor; [done|]. by apply ranges_text_not.
Qed.

Lemma encodable_ok (e : proto_entry) : encodable e -> entry_ok e.
Proof. intros [? ?]. split; [done|]. unfold mask_ok, mask_encodable in *. lia. Qed.

Lemma parse_list_text (es : list proto_entry) : forall tr f acc, Forall entry_ok es ->
  Forall2 (fun e rs => Forall range_ok rs /\ ranges_mask rs = bitmask e) es tr -> (length es <= f)%nat ->
  parse_protocol_loop f (list_text (zip_with entry_text es tr)) acc = Ok (acc ++ es).
Proof.
  induction es as [|e es IH]; intros tr f acc He Htr Hf; [destruct f; cbn; by rewrite app_nil_r|].
  apply Forall2_cons_inv_l in Htr as (rs & tr' & [Hrs Hm] & Htr & ->). apply Forall_cons in He as [He Hes]. destruct f as [|f]; [cbn in Hf; lia|].
  pose proof (entry_text_not_space e rs (proj1 He) Hrs) as Hns.
  set (rest := match es with [] => [] | _ => bs " " ++ list_text (zip_with entry_text es tr') end).
  assert (Hsplit : list_text (zip_with entry_text (e :: es) (rs :: tr')) = entry_text e rs ++ rest).
  { unfold rest. destruct es as [|e' es]; [by rewrite app_nil_r|]. by inversion Htr; subst. }
  rewrite Hsplit. destruct (entry_text e rs ++ rest) as [|c s'] eqn:Es.
  { apply app_eq_nil in Es as [Es _]. unfold entry_text in Es. apply app_eq_nil in Es as [Es _]. destruct He as [[He _] _]. done. }
  cbn [parse_protocol_loop]. rewrite <- Es.
  assert (Hend : match memchr (entry_text e rs ++ rest) SP (length (entry_text e rs ++ rest)) with Some x => x | None => length (entry_text e rs ++ rest) end = length (entry_text e rs)).
  { unfold rest. destruct es as [|e' es]; [by rewrite app_nil_r, memchr_absent by done|].
    change (bs " " ++ ?x) with (SP :: x). by rewrite memchr_here by (first [done|rewrite length_app; cbn; lia]). }
  rewrite Hend, parse_single_entry_text; [|done|done|done|unfold rest; by destruct es; split]. cbn [obind]. rewrite drop_app_length.
  replace (skip_spaces rest) with (list_text (zip_with entry_text es tr')).
  - rewrite IH by (done || (cbn in Hf; lia)). by rewrite <- app_assoc.
  - unfold rest. destruct es as [|e' es]; [done|]. apply Forall2_cons_inv_l in Htr as (rs' & tr'' & [Hrs' _] & _ & ->).
    apply Forall_cons in Hes as [[Hn' _] _]. change (skip_spaces (bs " " ++ ?x)) with (skip_spaces x). symmetry. apply skip_spaces_not.
    pose proof (entry_text_not_space e' rs' Hn' Hrs') as H. cbn [zip_with list_text].
    destruct (entry_text e' rs') as [|d t] eqn:Et; [unfold entry_text in Et; by destruct (pe_name e')|]. apply Forall_cons in H as [? _]. by destruct (zip_with entry_text es tr'').
Qed.

Lemma list_text_length (es : list proto_entry) (tr : list (list (Z * Z))) : length tr = length es -> (length es <= length (list_text (zip_with entry_text es tr)))%nat.
Proof.
  revert tr. induction es as [|e es IH]; intros [|rs tr] Hl; try done. cbn [zip_with list_text length].
  assert (0 < length (entry_text e rs))%nat by (unfold entry_text; rewrite !length_app; cbn; lia). specialize (IH tr ltac:(cbn in Hl; lia)).
  destruct (zip_with entry_text es tr) eqn:E; [destruct es, tr; cbn in *; lia || done|]. rewrite !length_app. cbn [length] in *. change (length (bs " ")) with 1%nat. lia.
Qed.

Lemma encode_parse (es : list proto_entry) : Forall encodable es -> exists text, encode_protocol_list es = Ok text /\ parse_protocol_list text = Ok es.
Proof.
  intros He. destruct (encode_entries_ok es He) as (tr & Hlen & Htr & Henc).
  exists (list_text (zip_with entry_text es tr)). split.
  - unfold encode_protocol_list. rewrite Henc. by destruct es.
  - unfold parse_protocol_list. pose proof (list_text_length es tr Hlen). rewrite (parse_list_text es tr); [done| |done|lia].
    eapply Forall_impl; [exact He|]. apply encodable_ok.
Qed.

(** ** Parsing any string *)

Lemma parse_ulong_next (s : bytes) : exists next, p_next (tor_parse_ulong s 10 0 MAX_PROTOCOL_VERSION true) = Some next.
Proof.
  unfold tor_parse_ulong. change (10 <? 0) with false. cbn iota. unfold CHECK_STRTOX_RESULT. cbn [negb andb].
  repeat (case_match; [by eexists|]). by eexists.
Qed.

Lemma parse_ulong_bounds (s : bytes) : p_ok (tor_parse_ulong s 10 0 MAX_PROTOCOL_VERSION true) = true ->
  0 <= wrap 32 (p_val (tor_parse_ulong s 10 0 MAX_PROTOCOL_VERSION true)) < 64.
Proof. intros H. apply CHECK_STRTOX_bounds in H. unfold MAX_PROTOCOL_VERSION in *. unfold wrap. rewrite Z.mod_small; unfold tor_parse_ulong in *; cbn in *; lia. Qed.

Lemma parse_version_range_safe (s : bytes) (n : nat) : safe (fun r => range_ok r /\ TOR_ISDIGIT (deref s) = true) (parse_version_range s n).
Proof.
  unfold parse_version_range. destruct (TOR_ISDIGIT (deref s)) eqn:Hd; [|done]. cbn [negb].
  destruct (p_ok (tor_parse_ulong s _ _ _ _)) eqn:Hok; [|done]. cbn [negb]. apply parse_ulong_bounds in Hok.
  destruct (parse_ulong_next s) as (next & ->). cbn [get obind]. destruct (_ <? _)%nat; [done|].
  destruct (_ =? _)%nat; [split; [|done]; unfold range_ok; cbn [fst snd]; lia|]. destruct (bool_decide _); [|done]. cbn [negb].
  destruct (TOR_ISDIGIT (deref (drop 1 next))); cbn [negb]; [|exact I]. destruct (p_ok (tor_parse_ulong (drop 1 next) _ _ _ _)) eqn:Hok2; [|done]. cbn [negb].
  apply parse_ulong_bounds in Hok2. destruct (parse_ulong_next (drop 1 next)) as (next2 & ->). cbn [get obind].
  destruct (_ =? _)%nat; [|done]. cbn [negb]. destruct (Z.ltb_spec (wrap 32 (p_val (tor_parse_ulong (drop 1 next) 10 0 MAX_PROTOCOL_VERSION true))) (wrap 32 (p_val (tor_parse_ulong s 10 0 MAX_PROTOCOL_VERSION true)))); [done|].
  split; [|done]; unfold range_ok; cbn [fst snd]; lia.
Qed.

Lemma parse_ranges_safe (f : nat) : forall s m mask, (m <= f)%nat -> mask_ok mask -> safe mask_ok (parse_ranges_loop f s m mask).
Proof.
  induction f as [|f IH]; intros s m mask Hm Hmask; [assert (m = 0%nat) as -> by lia; done|]. cbn [parse_ranges_loop].
  destruct (Nat.eqb_spec m 0) as [->|Hm0]; [done|]. pose proof (memchr_ok m s "," ) as Hc.
  set (comma := match memchr s "," m with Some c => c | None => m end).
  assert (Hcm : (comma <= m)%nat) by (unfold comma; destruct (memchr s "," m); [lia|done]).
  eapply safe_bind; [apply parse_version_range_safe|]. intros [low high] [[Hr1 Hr2] Hd]. cbn in Hr1, Hr2. rewrite bitmask_for_range_ok by done. cbn [obind].
  assert (0 < comma)%nat. { unfold comma. destruct (memchr s "," m) as [c|]; [|lia]. destruct Hc as [Hc _]. destruct c; [|lia]. destruct s as [|? ?]; [done|]. cbn in Hc. injection Hc as ->. done. }
  assert (mask_ok (Z.lor mask (range_mask low high))) by (by apply lor_mask_ok, range_mask_ok).
  destruct (1 <? m - comma)%nat; apply IH; done || lia.
Qed.

Lemma parse_single_entry_safe (s : bytes) (n : nat) : safe (fun e => entry_ok e /\ (0 < n)%nat) (parse_single_entry s n).
Proof.
  unfold parse_single_entry. pose proof (memchr_ok n s "=") as Heq. destruct (memchr s "=" n) as [k|]; [|done]. destruct Heq as (Hk & Hkn & _).
  destruct (Nat.eqb_spec k 0); [done|]. destruct (Nat.ltb_spec MAX_PROTOCOL_NAME_LENGTH k); [done|]. destruct (is_valid_keyword _) eqn:Hv; [|done]. cbn [negb].
  unfold tor_assert. rewrite (proj2 (Nat.ltb_lt _ _)) by done. eapply safe_bind; [apply parse_ranges_safe; [lia|by unfold mask_ok]|]. intros mask Hmask.
  apply lookup_lt_Some in Hk. split; [|lia]. split; [|done]. cbn. split_and!; [|rewrite length_take; lia|done].
  intros E. apply (f_equal length) in E. rewrite length_take in E. cbn in E. lia.
Qed.

Lemma skip_spaces_length (s : bytes) : (length (skip_spaces s) <= length s)%nat.
Proof. induction s as [|c s IH]; cbn; [lia|]. destruct (decide _); cbn; lia. Qed.

Lemma parse_list_safe (s : bytes) : safe (Forall entry_ok) (parse_protocol_list s).
Proof.
  unfold parse_protocol_list.
  assert (H : forall f s acc, (length s <= f)%nat -> Forall entry_ok acc -> safe (Forall entry_ok) (parse_protocol_loop f s acc)); [|by apply H; [lia|constructor]].
  clear s. induction f as [|f IH]; intros s acc Hf Hacc; (destruct s as [|c s]; [done|]); [cbn in Hf; lia|]. cbn [parse_protocol_loop].
  eapply safe_bind; [apply parse_single_entry_safe|]. intros e [He Hn]. apply IH; [|apply Forall_app; by split; [|constructor]].
  pose proof (skip_spaces_length (drop (match memchr (c :: s) SP (length (c :: s)) with Some e => e | None => length (c :: s) end) (c :: s))) as Hl.
  rewrite length_drop in Hl. cbn [length] in *. lia.
Qed.

(** [parse_protocol_list] as a total function: what a caller gets. *)
Definition parsed_list (s : bytes) : option (list proto_entry) := match parse_protocol_list s with Ok l => Some l | _ => None end.

Lemma try_parse_total (s : bytes) : try_parse_protocol_list s = Ok (parsed_list s) /\ Forall entry_ok (default [] (parsed_list s)).
Proof. unfold try_parse_protocol_list, parsed_list. pose proof (parse_list_safe s) as H. destruct (parse_protocol_list s); cbn in *; [done| |done]. by split; [|constructor]. Qed.

(** ** Lookups *)

Lemma name_c_string (name : bytes) : name_ok name -> c_string name.
Proof. intros (_ & _ & H). by apply keyword_not. Qed.

Lemma find_entry_some (es : list proto_entry) (name : bytes) (e : proto_entry) : Forall entry_ok es -> c_string name ->
  find_entry_by_name es name = Some e -> e ∈ es /\ pe_name e = name.
Proof.
  intros Hes Hn. induction Hes as [|e' es [He _] _ IH]; [done|]. cbn [find_entry_by_name]. rewrite strcmp_eqb by (done || by apply name_c_string).
  case_bool_decide as E; [intros [= <-]; split; [by left|done]|]. intros H. destruct (IH H). split; [by right|done].
Qed.

Lemma find_entry_none (es : list proto_entry) (name : bytes) : Forall entry_ok es -> c_string name ->
  find_entry_by_name es name = None <-> name ∉ pe_name <$> es.
Proof.
  intros Hes Hn. induction Hes as [|e' es [He _] _ IH]; [cbn; split; [intros _; apply not_elem_of_nil|done]|]. cbn [find_entry_by_name fmap list_fmap].
  rewrite strcmp_eqb, not_elem_of_cons by (done || by apply name_c_string). case_bool_decide as E; [split; [done|]; intros [H _]; congruence|].
  change (list_fmap _ _ ?f es) with (f <$> es) in *. rewrite IH. split; [intros H; split; [congruence|done]|tauto].
Qed.

Lemma find_entry_nodup (es : list proto_entry) (e : proto_entry) : Forall entry_ok es -> NoDup (pe_name <$> es) -> e ∈ es -> find_entry_by_name es (pe_name e) = Some e.
Proof.
  intros Hes Hnd He. rewrite Forall_forall in Hes. pose proof (name_c_string _ (proj1 (Hes e He))) as Hn. rewrite <- Forall_forall in Hes.
  destruct (find_entry_by_name es (pe_name e)) as [e'|] eqn:E; [|apply find_entry_none in E; [|done..]; destruct E; by apply list_elem_of_fmap_2].
  apply find_entry_some in E as [He' En]; [|done..]. f_equal. apply list_elem_of_lookup in He as [i Hi], He' as [j Hj].
  assert (j = i) as ->; [|congruence]. apply (NoDup_lookup (pe_name <$> es) j i (pe_name e)); [done|by rewrite list_lookup_fmap, Hj; cbn; rewrite En|by rewrite list_lookup_fmap, Hi].
Qed.

(** A list of entries as a set of names with versions: the first entry of a name counts. *)
Definition lists (es : list proto_entry) (name : bytes) (i : Z) : bool :=
  match find_entry_by_name es name with Some e => Z.testbit (bitmask e) i | None => false end.

(** ** Counting votes *)

Definition votes_for (parsed : list (list proto_entry)) (name : bytes) (i : Z) : Z := zlen (List.filter (fun vote => lists vote name i) parsed).

Lemma count_votes_ok (parsed : list (list proto_entry)) (name : bytes) (i : Z) : 0 <= i < 64 -> zlen parsed < 256 ->
  count_votes parsed name i = votes_for parsed name i.
Proof.
  intros Hi Hl. unfold count_votes, votes_for.
  assert (H : forall c, 0 <= c -> c + zlen parsed < 256 -> foldl (fun c vote => match find_entry_by_name vote name with
                       | Some ent => if negb (Z.land (bitmask ent) (BIT i) =? 0) then wrap 8 (c + 1) else c
                       | None => c end) c parsed = c + zlen (List.filter (fun vote => lists vote name i) parsed)); [|by rewrite H by (pose proof (zlen_nonneg parsed); lia)].
  clear Hl. unfold zlen. induction parsed as [|v parsed IH]; intros c Hc Hl; [cbn [foldl List.filter length]; lia|]. cbn [foldl List.filter length] in *.
  change (lists v name i) with (match find_entry_by_name v name with Some e => Z.testbit (bitmask e) i | None => false end).
  destruct (find_entry_by_name v name) as [e|]; [|apply IH; lia]. rewrite BIT_testbit by done.
  destruct (Z.testbit (bitmask e) i); [|apply IH; lia]. unfold wrap. rewrite Z.mod_small by (change (2 ^ 8) with 256; lia). rewrite IH by lia. cbn [length]. lia.
Qed.

Lemma result_bitmask_ok (parsed : list (list proto_entry)) (name : bytes) (threshold : Z) : zlen parsed < 256 ->
  mask_ok (result_bitmask parsed name threshold) /\
  forall i, 0 <= i < 64 -> Z.testbit (result_bitmask parsed name threshold) i = (threshold <=? votes_for parsed name i).
Proof.
  intros Hl. unfold result_bitmask.
  set (step := fun m i => if threshold <=? count_votes parsed name i then Z.lor m (BIT i) else m).
  assert (H : forall l m, Forall (fun i => 0 <= i < 64) l -> mask_ok m -> mask_ok (foldl step m l) /\
             forall i, 0 <= i < 64 -> Z.testbit (foldl step m l) i = Z.testbit m i || (bool_decide (i ∈ l) && (threshold <=? count_votes parsed name i))).
  { induction l as [|j l IH]; intros m Hl' Hm; [split; [done|]; intros i Hi; cbn [foldl]; rewrite bool_decide_false by apply not_elem_of_nil; by rewrite orb_false_r|].
    apply Forall_cons in Hl' as [Hj Hl']. cbn [foldl]. assert (HB : mask_ok (BIT j)) by (rewrite BIT_ok by done; split; [apply Z.pow_nonneg; lia|apply Z.pow_lt_mono_r; lia]).
    destruct (IH (step m j) Hl') as [IH1 IH2]; [unfold step; destruct (_ <=? _); [by apply lor_mask_ok|done]|]. split; [done|].
    intros i Hi. rewrite IH2 by done. unfold step. destruct (Z.eq_dec i j) as [->|Hne].
    - rewrite (bool_decide_true (j ∈ j :: l)) by (by left). destruct (threshold <=? _); cbn [andb]; [|by rewrite andb_false_r].
      rewrite Z.lor_spec, BIT_ok, Z.pow2_bits_true by lia. by rewrite !orb_true_r.
    - assert (Hbd : bool_decide (i ∈ j :: l) = bool_decide (i ∈ l)) by (apply bool_decide_ext; rewrite elem_of_cons; tauto). rewrite Hbd.
      destruct (threshold <=? count_votes parsed name j); [|done]. by rewrite Z.lor_spec, BIT_ok, Z.pow2_bits_false, orb_false_r by lia. }
  destruct (H (seqZ 0 64) 0) as [H1 H2]; [by vm_compute; repeat constructor|done|]. split; [done|]. intros i Hi. rewrite H2 by done.
  rewrite Z.bits_0, bool_decide_true by (apply elem_of_seqZ; lia). by rewrite <- count_votes_ok.
Qed.

(** ** The names that are voted on *)

Definition names_of (parsed : list (list proto_entry)) : list bytes := pe_name <$> concat parsed.

Lemma contains_string_ok (l : list bytes) (s : bytes) : Forall c_string l -> c_string s -> smartlist_contains_string l s = bool_decide (s ∈ l).
Proof.
  intros Hl Hs. unfold smartlist_contains_string. induction Hl as [|x l Hx _ IH]; [done|]. cbn [existsb]. rewrite strcmp_eqb, IH by done.
  destruct (decide (x = s)) as [->|E]; [rewrite bool_decide_true by done; symmetry; apply bool_decide_true; by left|].
  rewrite bool_decide_false by done. apply bool_decide_ext. rewrite elem_of_cons. naive_solver.
Qed.

Definition add_name (names : list bytes) (ent : proto_entry) : list bytes :=
  if smartlist_contains_string names (pe_name ent) then names else names ++ [pe_name ent].

Lemma add_names_ok (es : list proto_entry) : forall names, Forall entry_ok es -> Forall name_ok names -> NoDup names ->
  Forall name_ok (foldl add_name names es) /\ NoDup (foldl add_name names es) /\ forall n, n ∈ foldl add_name names es <-> n ∈ names \/ n ∈ pe_name <$> es.
Proof.
  induction es as [|e es IH]; intros names Hes Hn Hnd; [split_and!; [done|done|]; intros n; cbn; rewrite elem_of_nil; tauto|].
  apply Forall_cons in Hes as [[He _] Hes]. cbn [foldl]. unfold add_name at 2 4 6.
  rewrite contains_string_ok; [|eapply Forall_impl; [exact Hn|]; apply name_c_string|by apply name_c_string].
  case_bool_decide as E.
  - destruct (IH names Hes Hn Hnd) as (? & ? & Hiff). split_and!; [done|done|]. intros n. rewrite Hiff. cbn [fmap list_fmap]. rewrite elem_of_cons. naive_solver.
  - destruct (IH (names ++ [pe_name e]) Hes) as (? & ? & Hiff); [apply Forall_app; by split; [|constructor]| |].
    { apply NoDup_app. split_and!; [done| |apply NoDup_singleton]. intros x Hx. rewrite list_elem_of_singleton. congruence. }
    split_and!; [done|done|]. intros n. rewrite Hiff. cbn [fmap list_fmap]. rewrite elem_of_cons, elem_of_app, list_elem_of_singleton. naive_solver.
Qed.

(** The votes that parse. *)
Definition parsed_votes (votes : list bytes) : list (list proto_entry) := base.omap parsed_list votes.

Lemma parsed_votes_ok (votes : list bytes) : Forall (Forall entry_ok) (parsed_votes votes) /\ zlen (parsed_votes votes) <= zlen votes.
Proof.
  unfold parsed_votes, zlen. induction votes as [|v votes [IH1 IH2]]; [done|]. cbn [base.omap list_omap]. destruct (try_parse_total v) as [_ H].
  change (list_omap _ _ ?f votes) with (base.omap f votes) in *. destruct (parsed_list v) as [l|]; cbn [length] in *; [split; [by constructor|lia]|split; [done|lia]].
Qed.

Lemma parse_votes_ok (votes : list bytes) : forall parsed names, Forall name_ok names -> NoDup names ->
  exists names', parse_votes votes parsed names = Ok (parsed ++ parsed_votes votes, names') /\ Forall name_ok names' /\ NoDup names' /\
    forall n, n ∈ names' <-> n ∈ names \/ n ∈ names_of (parsed_votes votes).
Proof.
  induction votes as [|v votes IH]; intros parsed names Hn Hnd.
  - exists names. split_and!; [cbn; by rewrite app_nil_r|done|done|]. intros n. unfold names_of, parsed_votes. cbn. rewrite elem_of_nil. tauto.
  - cbn [parse_votes]. destruct (try_parse_total v) as [-> Hv]. cbn [obind]. unfold parsed_votes. cbn [base.omap list_omap].
    change (list_omap _ _ ?f votes) with (parsed_votes votes). destruct (parsed_list v) as [l|]; [|by apply IH]. cbn in Hv.
    destruct (add_names_ok l names Hv Hn Hnd) as (H1 & H2 & H3). destruct (IH (parsed ++ [l]) (foldl add_name names l) H1 H2) as (names' & Hp & ? & ? & Hiff).
    exists names'. split_and!; [by rewrite <- app_assoc in Hp|done|done|]. intros n. rewrite Hiff, H3. unfold names_of. cbn [concat]. rewrite fmap_app, elem_of_app. tauto.
Qed.

(** ** Sorting *)

Definition before (a b : bytes) : Prop := strcmp a b < 0.

Lemma insert_string_perm (s : bytes) (l : list bytes) : insert_string s l ≡ₚ s :: l.
Proof. induction l as [|x l IH]; [done|]. cbn. destruct (_ <=? _); [done|]. rewrite IH. apply perm_swap. Qed.

Lemma sort_perm (l : list bytes) : smartlist_sort_strings l ≡ₚ l.
Proof. unfold smartlist_sort_strings. induction l as [|s l IH]; [done|]. cbn [foldr]. by rewrite insert_string_perm, IH. Qed.

Lemma insert_string_sorted (s : bytes) (l : list bytes) : c_string s -> Forall c_string l -> s ∉ l -> StronglySorted before l -> StronglySorted before (insert_string s l).
Proof.
  intros Hs Hl Hni Hso. induction Hso as [|x l Hso IH Hx]; [by repeat constructor|]. apply Forall_cons in Hl as [Hcx Hl]. apply not_elem_of_cons in Hni as [Hne Hni].
  cbn [insert_string]. pose proof (strcmp_0 s x Hs Hcx). destruct (Z.leb_spec (strcmp s x) 0) as [L|L].
  - assert (Hsx : before s x) by (unfold before; destruct (Z.eq_dec (strcmp s x) 0); [tauto|lia]). constructor; [by constructor|]. constructor; [done|].
    rewrite Forall_forall in *. intros y Hy. by apply (strcmp_trans s x y); [done|done|by apply Hl|done|by apply Hx].
  - constructor; [by apply IH|]. rewrite insert_string_perm. constructor; [unfold before; rewrite strcmp_antisym; lia|done].
Qed.

Lemma sort_sorted (l : list bytes) : Forall c_string l -> NoDup l -> StronglySorted before (smartlist_sort_strings l).
Proof.
  unfold smartlist_sort_strings. induction l as [|s l IH]; intros Hc Hnd; [constructor|]. apply Forall_cons in Hc as [Hs Hc]. apply NoDup_cons in Hnd as [Hni Hnd].
  cbn [foldr]. pose proof (sort_perm l) as Hp. unfold smartlist_sort_strings in Hp. apply insert_string_sorted; [done|by rewrite Hp|by rewrite Hp|by apply IH].
Qed.

(** ** Votes *)

Lemma result_entries (names : list bytes) (f : bytes -> Z) : Forall name_ok names -> NoDup names -> (forall n, mask_ok (f n)) ->
  let es := List.filter (fun e => negb (bitmask e =? 0)) ((fun n => {| pe_name := n; bitmask := f n |}) <$> names) in
  Forall entry_ok es /\ NoDup (pe_name <$> es) /\ (forall e, e ∈ es <-> pe_name e ∈ names /\ bitmask e = f (pe_name e) /\ bitmask e <> 0) /\
  sublist (pe_name <$> es) names.
Proof.
  intros Hn Hnd Hf es.
  assert (Hsub : sublist (pe_name <$> es) names).
  { unfold es. clear. induction names as [|n names IH]; [done|]. cbn [fmap list_fmap List.filter bitmask]. change (list_fmap _ _ ?g names) with (g <$> names) in *.
    destruct (negb _); cbn [fmap list_fmap]; by constructor. }
  assert (Hin : forall e, e ∈ es <-> pe_name e ∈ names /\ bitmask e = f (pe_name e) /\ bitmask e <> 0).
  { intros e. unfold es. rewrite list_elem_of_In, filter_In, <- list_elem_of_In, list_elem_of_fmap, negb_true_iff, Z.eqb_neq. split.
    - intros [(n & -> & H) Hb]. by split_and!.
    - intros (H & Hb & H0). split; [|done]. exists (pe_name e). split; [|done]. destruct e; cbn in *. by rewrite Hb. }
  split_and!; [|by eapply sublist_NoDup|done|done]. apply Forall_forall. intros e He. apply Hin in He as (H & Hb & _). rewrite Forall_forall in Hn. split; [by apply Hn|by rewrite Hb].
Qed.

Lemma lists_elem (es : list proto_entry) (name : bytes) (i : Z) : Forall entry_ok es -> NoDup (pe_name <$> es) -> c_string name ->
  lists es name i = true <-> exists e, e ∈ es /\ pe_name e = name /\ Z.testbit (bitmask e) i = true.
Proof.
  intros Hes Hnd Hn. unfold lists. split.
  - destruct (find_entry_by_name es name) as [e|] eqn:E; [|done]. apply find_entry_some in E as [? ?]; [|done..]. by exists e.
  - intros (e & He & <- & Hb). by rewrite find_entry_nodup.
Qed.

Lemma unlisted_name (parsed : list (list proto_entry)) (name : bytes) (i : Z) : Forall (Forall entry_ok) parsed -> c_string name -> name ∉ names_of parsed ->
  votes_for parsed name i = 0.
Proof.
  intros Hp Hn. unfold votes_for, zlen, names_of. induction Hp as [|v parsed Hv _ IH]; [done|]. cbn [concat List.filter]. rewrite fmap_app, not_elem_of_app. intros [H1 H2].
  apply find_entry_none in H1; [|done..]. change (lists v name i) with (match find_entry_by_name v name with Some e => Z.testbit (bitmask e) i | None => false end). rewrite H1. by apply IH.
Qed.

Lemma sorted_sublist (l1 l2 : list bytes) : sublist l1 l2 -> StronglySorted before l2 -> StronglySorted before l1.
Proof.
  induction 1 as [|x l1 l2 Hs IH|x l1 l2 Hs IH]; intros H; [done|..]; apply StronglySorted_inv in H as [H1 H2]; [|by apply IH].
  constructor; [by apply IH|]. rewrite Forall_forall in *. intros y Hy. apply H2. by eapply elem_of_sublist.
Qed.

Lemma compute_vote_ok (votes : list bytes) (threshold : Z) : zlen votes < 256 -> 0 < threshold ->
  (forall name, exists i, 0 <= i < 64 /\ votes_for (parsed_votes votes) name i < threshold) ->
  exists text es, protover_compute_vote votes threshold = Ok text /\ parse_protocol_list text = Ok es /\ StronglySorted before (pe_name <$> es) /\
    forall name i, c_string name -> 0 <= i < 64 -> lists es name i = (threshold <=? votes_for (parsed_votes votes) name i).
Proof.
  intros Hl Ht Hfull. set (parsed := parsed_votes votes) in *. destruct (parsed_votes_ok votes) as [Hp Hpl]. fold parsed in Hp, Hpl.
  destruct (parse_votes_ok votes [] [] ltac:(constructor) ltac:(constructor)) as (names & Hpv & Hn & Hnd & Hiff). fold parsed in Hpv, Hiff.
  set (f := fun n => result_bitmask parsed n threshold).
  assert (Hf : forall n, mask_ok (f n) /\ forall i, 0 <= i < 64 -> Z.testbit (f n) i = (threshold <=? votes_for parsed n i)) by (intros n; apply result_bitmask_ok; lia).
  destruct (result_entries (smartlist_sort_strings names) f) as (Hes & Hends & Hin & Hsub); [by rewrite sort_perm|by rewrite sort_perm|apply Hf|].
  set (es := List.filter _ _) in *.
  assert (Henc : Forall encodable es).
  { rewrite Forall_forall in *. intros e He. specialize (Hes e He). split; [apply Hes|]. destruct Hes as [_ Hm]. apply Hin in He as (_ & Hb & _).
    destruct (Z.eq_dec (bitmask e) (2 ^ 64 - 1)) as [E|E]; [|unfold mask_ok, mask_encodable in *; lia].
    destruct (Hfull (pe_name e)) as (i & Hi & Hv). pose proof (proj2 (Hf (pe_name e)) i Hi) as Hb'. rewrite <- Hb, E in Hb'.
    rewrite (proj2 (Z.leb_gt _ _)) in Hb' by done. change (2 ^ 64 - 1) with (Z.ones 64) in Hb'. by rewrite Z.ones_spec_low in Hb' by lia. }
  destruct (encode_parse es Henc) as (text & Htext & Hparse).
  assert (Hcompute : protover_compute_vote votes threshold = Ok text).
  { unfold protover_compute_vote, tor_assert. rewrite (proj2 (Z.ltb_lt _ _)) by done. destruct votes as [|v votes]; [|by rewrite Hpv].
    injection Hpv as <-. by injection Htext as <-. }
  exists text, es. split_and!; [done|done|eapply sorted_sublist; [exact Hsub|]; apply sort_sorted; [|done]; eapply Forall_impl; [exact Hn|]; apply name_c_string|].
  intros name i Hname Hi. apply eq_iff_eq_true. rewrite lists_elem by done. rewrite <- (proj2 (Hf name) i Hi). split.
  - intros (e & He & <- & Hb). apply Hin in He as (_ & Hbm & _). by rewrite <- Hbm.
  - intros Hb. exists {| pe_name := name; bitmask := f name |}. split_and!; [|done|done]. apply Hin. cbn. split_and!; [|done|intros E; by rewrite E, Z.bits_0 in Hb].
    rewrite sort_perm. apply Hiff. right. rewrite (proj2 (Hf name) i Hi) in Hb. apply Z.leb_le in Hb.
    destruct (decide (name ∈ names_of parsed)) as [|Hni]; [done|]. pose proof (unlisted_name parsed name i Hp Hname Hni). lia.
Qed.

(** ** What is missing *)

(** Our own list, and that it parses. *)
Definition ours : list proto_entry := default [] (parsed_list protover_get_supported_protocols).
Lemma get_ours : get_supported_protocol_list = Ok ours.
Proof. vm_compute. reflexivity. Qed.
Lemma ours_ok : Forall entry_ok ours.
Proof. apply try_parse_total. Qed.

(** That some entry of a list carries the name with the version. *)
Definition mentions (es : list proto_entry) (name : bytes) (i : Z) : Prop := exists e, e ∈ es /\ pe_name e = name /\ Z.testbit (bitmask e) i = true.

(** An entry without the versions that [supported] has. *)
Definition missing_of (supported : list proto_entry) (ent : proto_entry) : proto_entry :=
  match find_entry_by_name supported (pe_name ent) with
  | None => ent
  | Some mine => {| pe_name := pe_name ent; bitmask := Z.land (bitmask ent) (not64 (bitmask mine)) |}
  end.

Lemma missing_of_ok (supported : list proto_entry) (e : proto_entry) : Forall entry_ok supported -> entry_ok e ->
  pe_name (missing_of supported e) = pe_name e /\ mask_ok (bitmask (missing_of supported e)) /\
  forall i, 0 <= i < 64 -> Z.testbit (bitmask (missing_of supported e)) i = Z.testbit (bitmask e) i && negb (lists supported (pe_name e) i).
Proof.
  intros Hs [Hn Hm]. unfold missing_of, lists. destruct (find_entry_by_name supported (pe_name e)) as [mine|] eqn:E.
  - apply find_entry_some in E as [Hin _]; [|done|by apply name_c_string]. rewrite Forall_forall in Hs. destruct (Hs mine Hin) as [_ Hmm]. cbn [pe_name bitmask]. split_and!; [done| |].
    + apply mask_bits; [apply Z.land_nonneg; left; apply Hm|]. intros i Hi. rewrite Z.land_spec. by rewrite (proj1 (mask_bits _ (proj1 Hm)) Hm i Hi).
    + intros i Hi. by rewrite Z.land_spec, not64_testbit.
  - split_and!; [done|done|]. intros i Hi. by rewrite andb_true_r.
Qed.

Lemma mask_nonzero (m : Z) : mask_ok m -> m <> 0 -> exists i, 0 <= i < 64 /\ Z.testbit m i = true.
Proof. intros Hm Hn. destruct (trailing_zeros_ok m Hm Hn) as (i & _ & ? & ? & _). by exists i. Qed.

Lemma missing_entries_ok (supported es : list proto_entry) : Forall entry_ok supported -> Forall entry_ok es ->
  Forall (fun e => entry_ok e /\ bitmask e <> 0) (missing_entries supported es) /\
  forall name i, 0 <= i < 64 -> (mentions (missing_entries supported es) name i <-> mentions es name i /\ lists supported name i = false).
Proof.
  intros Hs Hes. change (missing_entries supported es) with (List.filter (fun e => negb (bitmask e =? 0)) (missing_of supported <$> es)).
  assert (Hin : forall e, e ∈ List.filter (fun e => negb (bitmask e =? 0)) (missing_of supported <$> es) <-> bitmask e <> 0 /\ exists e', e' ∈ es /\ e = missing_of supported e').
  { intros e. rewrite list_elem_of_In, filter_In, <- list_elem_of_In, list_elem_of_fmap, negb_true_iff, Z.eqb_neq. naive_solver. }
  rewrite Forall_forall in Hes. split.
  - apply Forall_forall. intros e He. apply Hin in He as (H0 & e' & He' & ->). destruct (missing_of_ok supported e' Hs (Hes _ He')) as (Hn & Hm & _).
    split; [|done]. split; [rewrite Hn; by apply Hes|done].
  - intros name i Hi. split.
    + intros (e & He & <- & Hb). apply Hin in He as (_ & e' & He' & ->). destruct (missing_of_ok supported e' Hs (Hes _ He')) as (Hn & _ & Hbits).
      rewrite Hbits in Hb by done. apply andb_true_iff in Hb as [Hb Hl%negb_true_iff]. rewrite Hn. split; [by exists e'|done].
    + intros [(e & He & <- & Hb) Hl]. destruct (missing_of_ok supported e Hs (Hes _ He)) as (Hn & _ & Hbits). exists (missing_of supported e).
      assert (Hb' : Z.testbit (bitmask (missing_of supported e)) i = true) by (by rewrite Hbits, Hb, Hl). split_and!; [|done|done].
      apply Hin. split; [|by exists e]. intros E. by rewrite E, Z.bits_0 in Hb'.
Qed.

Lemma missing_none (supported es : list proto_entry) : Forall entry_ok supported -> Forall entry_ok es ->
  missing_entries supported es = [] <-> forall name i, 0 <= i < 64 -> mentions es name i -> lists supported name i = true.
Proof.
  intros Hs Hes. destruct (missing_entries_ok supported es Hs Hes) as [Hm Hiff]. split.
  - intros E name i Hi He. destruct (lists supported name i) eqn:El; [done|]. rewrite E in Hiff. destruct (proj2 (Hiff name i Hi) (conj He El)) as (e & H & _). by apply elem_of_nil in H.
  - intros H. destruct (missing_entries supported es) as [|e l]; [done|]. apply Forall_cons in Hm as [[Hok H0] _]. destruct (mask_nonzero _ (proj2 Hok) H0) as (i & Hi & Hb).
    destruct (proj1 (Hiff (pe_name e) i Hi)) as [H1 H2]; [exists e; split_and!; [by left|done|done]|]. by rewrite (H _ _ Hi H1) in H2.
Qed.

Lemma contains_lists (es : list proto_entry) (pr : protocol_type) (ver : Z) : 0 <= ver ->
  protocol_list_contains es pr ver = (ver <=? 63) && lists es (protocol_type_to_str pr) ver.
Proof.
  intros Hv. unfold protocol_list_contains, lists, MAX_PROTOCOL_VERSION. destruct (Z.ltb_spec 63 ver); [by rewrite (proj2 (Z.leb_gt _ _)) by lia|]. rewrite (proj2 (Z.leb_le ver 63)) by lia. cbn [andb].
  destruct (find_entry_by_name es _) as [e|]; [|done]. apply BIT_testbit. lia.
Qed.

(** ** The full mask *)

Lemma encode_full : encode_loop 65 (2 ^ 64 - 1) 0 true = Stuck.
Proof. vm_compute. reflexivity. Qed.

Lemma encode_entries_cases (es : list proto_entry) : Forall entry_ok es -> forall sep,
  (encode_entries sep es = Stuck <-> exists e, e ∈ es /\ bitmask e = 2 ^ 64 - 1) /\ encode_entries sep es <> Err.
Proof.
  induction 1 as [|e es [Hn Hm] _ IH]; intros sep; cbn [encode_entries]; [split; [|done]; split; [done|]; intros (e & H & _); by apply elem_of_nil in H|].
  destruct (Z.eq_dec (bitmask e) (2 ^ 64 - 1)) as [E|E].
  - unfold proto_entry_encode_into. rewrite E, encode_full. split; [|done]. split; [|done]. intros _. exists e. split; [by left|done].
  - destruct (encode_entry_ok e) as (rs & -> & _); [split; [done|unfold mask_ok, mask_encodable in *; lia]|]. cbn [obind]. destruct (IH (bs " ")) as [IH1 IH2].
    assert (H : (exists e', e' ∈ e :: es /\ bitmask e' = 2 ^ 64 - 1) <-> exists e', e' ∈ es /\ bitmask e' = 2 ^ 64 - 1).
    { split; intros (e' & He' & ?); exists e'; (split; [|done]); [apply elem_of_cons in He' as [->|]; [done|done]|by right]. }
    rewrite H, <- IH1. by destruct (encode_entries (bs " ") es).
Qed.

(** A full mask is missing only where one is asked for. *)
Lemma all_missing (e : proto_entry) (es : list proto_entry) : Forall entry_ok es -> e ∈ missing_entries ours es -> bitmask e = 2 ^ 64 - 1 ->
  exists e', e' ∈ es /\ bitmask e' = 2 ^ 64 - 1.
Proof.
  intros Hes He Ef. unfold missing_entries in He. rewrite list_elem_of_In, filter_In, <- list_elem_of_In in He. destruct He as [He _].
  apply list_elem_of_fmap in He as (e' & E & He'). exists e'. split; [done|]. change (e = missing_of ours e') in E. rewrite Forall_forall in Hes.
  destruct (missing_of_ok ours e' ours_ok (Hes e' He')) as (_ & _ & Hbits). rewrite <- E, Ef in Hbits.
  apply mask_eq; [by apply Hes|unfold mask_ok; lia|]. intros i Hi. specialize (Hbits i Hi). change (2 ^ 64 - 1) with (Z.ones 64) in *.
  rewrite Z.ones_spec_low in * by lia. symmetry in Hbits. by apply andb_true_iff in Hbits as [? _].
Qed.

(** ** Properties *)

(** C30: What [encode_protocol_list] writes for any list of valid entries, none of which has all 64 versions, [parse_protocol_list] reads back
    as the same list. *)
Theorem protover_roundtrip (es : list proto_entry) : Forall encodable es ->
  exists text, encode_protocol_list es = Ok text /\ parse_protocol_list text = Ok es.
Proof. apply encode_parse. Qed.

Theorem protover_roundtrip_witness : let es := [{| pe_name := bs "Link"; bitmask := 0x8000000000000036 |}; {| pe_name := bs "Foo-1"; bitmask := 0 |}] in
  exists text, encode_protocol_list es = Ok text /\ parse_protocol_list text = Ok es.
Proof.
  apply protover_roundtrip. repeat constructor; cbn; done || lia.
Defined.

(** [parse_protocol_list] ends on every string without an undefined shift or a failed assertion, with an error or with entries whose
    names have 1 to 100 letters, digits and hyphens; encoding the entries again is undefined exactly if some entry has
    all the versions 0-63: then [trailing_zeros] is called with 0, which is undefined, and so
    [protover_all_supported] is undefined for the requirement "Foo=0-63". *)
Theorem protover_full_mask_undefined (s : bytes) :
  parse_protocol_list s <> Stuck /\
  (forall es, parse_protocol_list s = Ok es -> Forall entry_ok es /\ (encode_protocol_list es = Stuck <-> exists e, e ∈ es /\ bitmask e = 2 ^ 64 - 1)) /\
  protover_all_supported (Some (bs "Foo=0-63")) = Stuck.
Proof.
  pose proof (parse_list_safe s) as Hs. split_and!; [by intros E; rewrite E in Hs| |vm_compute; reflexivity].
  intros es H. rewrite H in Hs. split; [done|]. apply (encode_entries_cases es Hs []).
Qed.

Theorem protover_full_mask_undefined_witness : let es := [{| pe_name := bs "Foo"; bitmask := 2 ^ 64 - 1 |}] in
  parse_protocol_list (bs "Foo=0-31,32-63") = Ok es /\
  Forall entry_ok es /\ (encode_protocol_list es = Stuck <-> exists e, e ∈ es /\ bitmask e = 2 ^ 64 - 1).
Proof.
  intros es. assert (H : parse_protocol_list (bs "Foo=0-31,32-63") = Ok es) by (vm_compute; reflexivity).
  split; [exact H|]. exact (proj1 (proj2 (protover_full_mask_undefined (bs "Foo=0-31,32-63"))) es H).
Defined.

(** The votes with any entry that has the name and the version. *)
Definition mentionsb (es : list proto_entry) (name : bytes) (i : Z) : bool :=
  existsb (fun e => bool_decide (pe_name e = name) && Z.testbit (bitmask e) i) es.
Definition votes_mentioning (parsed : list (list proto_entry)) (name : bytes) (i : Z) : Z := zlen (List.filter (fun vote => mentionsb vote name i) parsed).

Lemma mentionsb_true (es : list proto_entry) (name : bytes) (i : Z) : mentionsb es name i = true <-> mentions es name i.
Proof.
  unfold mentionsb, mentions. rewrite existsb_exists. setoid_rewrite andb_true_iff. setoid_rewrite bool_decide_eq_true. by setoid_rewrite <- list_elem_of_In.
Qed.

Lemma lists_mentions (es : list proto_entry) (name : bytes) (i : Z) : Forall entry_ok es -> c_string name ->
  (lists es name i = true -> mentionsb es name i = true) /\ (NoDup (pe_name <$> es) -> lists es name i = mentionsb es name i).
Proof.
  intros Hes Hn. split.
  - intros H. apply mentionsb_true. unfold lists in H. destruct (find_entry_by_name es name) as [e|] eqn:E; [|done]. apply find_entry_some in E as [? ?]; [|done..]. by exists e.
  - intros Hnd. apply eq_iff_eq_true. rewrite mentionsb_true. by apply lists_elem.
Qed.

Lemma votes_for_mentioning (parsed : list (list proto_entry)) (name : bytes) (i : Z) : Forall (Forall entry_ok) parsed -> c_string name ->
  votes_for parsed name i <= votes_mentioning parsed name i /\
  (Forall (fun vote => NoDup (pe_name <$> vote)) parsed -> votes_for parsed name i = votes_mentioning parsed name i).
Proof.
  intros Hp Hn. unfold votes_for, votes_mentioning, zlen. induction Hp as [|v parsed Hv _ [IH1 IH2]]; [done|]. cbn [List.filter].
  destruct (lists_mentions v name i Hv Hn) as [H1 H2]. split.
  - destruct (lists v name i); [rewrite H1 by done; cbn [length]; lia|]. destruct (mentionsb v name i); cbn [length]; lia.
  - intros [Hd Hr]%Forall_cons. rewrite (H2 Hd). destruct (mentionsb v name i); cbn [length]; [f_equal; specialize (IH2 Hr); lia|by apply IH2].
Qed.

(** C29: For fewer than 256 votes, a positive threshold, and no protocol all of whose 64 versions reach it, [protover_compute_vote] gives a text
    that parses as entries in strictly increasing order of their names, and that lists a version of a protocol exactly if it is in the first entry that has the name in
    at least [threshold] of the votes that parse. If no vote repeats a name, these are the votes that list the version in any entry, as the comment of the function
    wants it. If a vote repeats a name, as in Foo=1 Foo=2, what its later entries list is not counted; so a version may be missing from the result, but none is there
    that fewer than [threshold] votes list. *)
Theorem protover_compute_vote_correct (votes : list bytes) (threshold : Z) : zlen votes < 256 -> 0 < threshold ->
  (forall name, exists i, 0 <= i < 64 /\ votes_for (parsed_votes votes) name i < threshold) ->
  exists text es, protover_compute_vote votes threshold = Ok text /\ parse_protocol_list text = Ok es /\ StronglySorted before (pe_name <$> es) /\
    forall name i, c_string name -> 0 <= i < 64 ->
      lists es name i = (threshold <=? votes_for (parsed_votes votes) name i) /\
      (Forall (fun vote => NoDup (pe_name <$> vote)) (parsed_votes votes) -> lists es name i = (threshold <=? votes_mentioning (parsed_votes votes) name i)) /\
      (lists es name i = true -> threshold <= votes_mentioning (parsed_votes votes) name i).
Proof.
  intros Hl Ht Hfull. destruct (compute_vote_ok votes threshold Hl Ht Hfull) as (text & es & H1 & H2 & H3 & H4). exists text, es. split_and!; [done..|].
  intros name i Hn Hi. destruct (votes_for_mentioning (parsed_votes votes) name i) as [Hle Heq]; [apply parsed_votes_ok|done|]. rewrite (H4 name i Hn Hi).
  split_and!; [done|intros Hd; by rewrite Heq|]. intros H%Z.leb_le. lia.
Qed.

Theorem protover_compute_vote_correct_witness : let votes := [bs "Link=1-4 Relay=1"; bs "Link=3-5"; bs "Link=,"] in
  exists text es, protover_compute_vote votes 2 = Ok text /\ parse_protocol_list text = Ok es /\
    forall i, 0 <= i < 64 -> lists es (bs "Link") i = (2 <=? votes_mentioning (parsed_votes votes) (bs "Link") i).
Proof.
  intros votes. assert (Ep : parsed_votes votes = [[{| pe_name := bs "Link"; bitmask := 30 |}; {| pe_name := bs "Relay"; bitmask := 2 |}]; [{| pe_name := bs "Link"; bitmask := 56 |}]]) by (vm_compute; reflexivity).
  destruct (protover_compute_vote_correct votes 2) as (text & es & H1 & H2 & _ & H3); [done|done| |].
  - intros name. exists 0. split; [lia|]. rewrite Ep. unfold votes_for. cbn [List.filter]. unfold lists. cbn [find_entry_by_name pe_name].
    by destruct (strcmp (bs "Link") name =? 0), (strcmp (bs "Relay") name =? 0).
  - exists text, es. split; [exact H1|]. split; [exact H2|]. intros i Hi. destruct (H3 (bs "Link") i) as (_ & H & _); [by repeat constructor|exact Hi|]. apply H. rewrite Ep.
    repeat constructor; by (vm_compute; intros Hx; repeat (apply elem_of_cons in Hx as [Hx|Hx] || apply elem_of_nil in Hx)).
Defined.

(** A vote that repeats a name loses what it lists after the first time. *)
Example repeated_name_not_counted :
  protover_compute_vote [bs "Foo=1 Foo=2"; bs "Foo=1 Foo=2"] 2 = Ok (bs "Foo=1").
Proof. vm_compute. reflexivity. Qed.

(** For a text with entries none of which has all 64 versions, [protover_all_supported] answers yes exactly if every version that the
    text mentions is supported here ([protover_is_supported_here]), and otherwise names in a text that parses exactly the versions that are
    not; a text that does not parse counts as supported. *)
Theorem protover_all_supported_correct (s : bytes) : (forall e, e ∈ default [] (parsed_list s) -> bitmask e <> 2 ^ 64 - 1) ->
  match parsed_list s with
  | None => protover_all_supported (Some s) = Ok (true, None)
  | Some es =>
      if decide (missing_entries ours es = []) then
        protover_all_supported (Some s) = Ok (true, None) /\ forall name i, 0 <= i < 64 -> mentions es name i -> lists ours name i = true
      else exists text missing, protover_all_supported (Some s) = Ok (false, Some text) /\ parse_protocol_list text = Ok missing /\ missing <> [] /\
        forall name i, 0 <= i < 64 -> (mentions missing name i <-> mentions es name i /\ lists ours name i = false)
  end /\
  (forall pr ver, 0 <= ver -> protover_is_supported_here pr ver = Ok ((ver <=? 63) && lists ours (protocol_type_to_str pr) ver)).
Proof.
  intros Hfull. split; [|intros pr ver Hv; unfold protover_is_supported_here; rewrite get_ours; cbn [obind]; by rewrite contains_lists].
  unfold protover_all_supported. destruct (try_parse_total s) as [-> Hes]. cbn [obind]. destruct (parsed_list s) as [es|]; [|done]. cbn in Hes, Hfull.
  rewrite get_ours. cbn [obind]. destruct (decide (missing_entries ours es = [])) as [E|E]; [rewrite E; split; [done|]; apply (missing_none ours es ours_ok Hes), E|].
  destruct (missing_entries_ok ours es ours_ok Hes) as [Hm Hiff].
  destruct (encode_parse (missing_entries ours es)) as (text & Htext & Hparse); [|destruct (missing_entries ours es) as [|p l]; [done|]; rewrite Htext; cbn [obind]; by exists text, (p :: l)].
  apply Forall_forall. intros e He. rewrite Forall_forall in Hm. destruct (Hm e He) as [[Hn Hmask] _]. split; [done|].
  destruct (Z.eq_dec (bitmask e) (2 ^ 64 - 1)) as [Ef|]; [|unfold mask_ok, mask_encodable in *; lia]. exfalso.
  destruct (all_missing e es Hes He Ef) as (e' & He' & Ef'). by apply (Hfull e').
Qed.

Theorem protover_all_supported_correct_witness : let s := bs "Link=4-6 Foo=3" in
  match parsed_list s with
  | None => protover_all_supported (Some s) = Ok (true, None)
  | Some es =>
      if decide (missing_entries ours es = []) then
        protover_all_supported (Some s) = Ok (true, None) /\ forall name i, 0 <= i < 64 -> mentions es name i -> lists ours name i = true
      else exists text missing, protover_all_supported (Some s) = Ok (false, Some text) /\ parse_protocol_list text = Ok missing /\ missing <> [] /\
        forall name i, 0 <= i < 64 -> (mentions missing name i <-> mentions es name i /\ lists ours name i = false)
  end /\
  (forall pr ver, 0 <= ver -> protover_is_supported_here pr ver = Ok ((ver <=? 63) && lists ours (protocol_type_to_str pr) ver)).
Proof.
  intros s. apply protover_all_supported_correct. replace (parsed_list s) with (Some [{| pe_name := bs "Link"; bitmask := 112 |}; {| pe_name := bs "Foo"; bitmask := 8 |}]) by (vm_compute; reflexivity).
  intros e He. apply elem_of_cons in He as [->|He]; [done|]. apply elem_of_cons in He as [->|He]; [done|]. by apply elem_of_nil in He.
Defined.
