(* ===== verification/ProtoSummary.v ===== *)
(** * What a relay's protocols and version allow: the second half of [core/or/versions.c]

    The summary of a relay's subprotocol versions as flags, and the cache of summaries by text: whatever the cache has
    seen before, a caller gets the summary of its own text. *)
From stdpp Require Import gmap strings.
From S2P Require Import Prelude ParseInt Strings Smartutil InaddrSafe ParseFacts StringOrder Versions VersionsFacts Protover ProtoverFacts.

Definition MAX_PROTOVER_SUMMARY_MAP_LEN : Z := 1024.

Definition PROTOVER_LINKAUTH_ED25519_HANDSHAKE : Z := 3.
Definition PROTOVER_RELAY_EXTEND2 : Z := 2.
Definition PROTOVER_RELAY_ACCEPT_IPV6 : Z := 2.
Definition PROTOVER_RELAY_EXTEND_IPV6 : Z := 3.
Definition PROTOVER_RELAY_CANONICAL_IPV6 : Z := 3.
Definition PROTOVER_HS_INTRO_V3 : Z := 4.
Definition PROTOVER_HS_INTRO_DOS : Z := 5.
Definition PROTOVER_HS_RENDEZVOUS_POINT_V3 : Z := 2.
Definition PROTOVER_HSDIR_V3 : Z := 2.
Definition PROTOVER_HS_SETUP_PADDING : Z := 2.

Record protover_summary_flags := {
  protocols_known : bool; supports_extend2_cells : bool; supports_accepting_ipv6_extends : bool;
  supports_initiating_ipv6_extends : bool; supports_canonical_ipv6_conns : bool;
  supports_ed25519_link_handshake_compat : bool; supports_ed25519_link_handshake_any : bool;
  supports_ed25519_hs_intro : bool; supports_establish_intro_dos_extension : bool; supports_v3_hsdir : bool;
  supports_v3_rendezvous_point : bool; supports_hs_setup_padding : bool
}.
Definition no_flags : protover_summary_flags :=
  {| protocols_known := false; supports_extend2_cells := false; supports_accepting_ipv6_extends := false;
     supports_initiating_ipv6_extends := false; supports_canonical_ipv6_conns := false;
     supports_ed25519_link_handshake_compat := false; supports_ed25519_link_handshake_any := false;
     supports_ed25519_hs_intro := false; supports_establish_intro_dos_extension := false; supports_v3_hsdir := false;
     supports_v3_rendezvous_point := false; supports_hs_setup_padding := false |}.

(** [protover_summary_map], empty for NULL. *)
Abbreviation summary_map := (gmap (list ascii) protover_summary_flags).

(** The flags of a text that is not in the cache; the second operand of [||] is only computed when the first is 0. *)
Definition summarize (protocols : bytes) : outcome protover_summary_flags :=
  let* compat := protocol_list_supports_protocol protocols PRT_LINKAUTH PROTOVER_LINKAUTH_ED25519_HANDSHAKE in
  let* any := protocol_list_supports_protocol_or_later protocols PRT_LINKAUTH PROTOVER_LINKAUTH_ED25519_HANDSHAKE in
  let* extend2 := protocol_list_supports_protocol protocols PRT_RELAY PROTOVER_RELAY_EXTEND2 in
  let* accept := (let* a := protocol_list_supports_protocol protocols PRT_RELAY PROTOVER_RELAY_ACCEPT_IPV6 in
                  if a : bool then Ok true else protocol_list_supports_protocol protocols PRT_RELAY PROTOVER_RELAY_EXTEND_IPV6) in
  let* initiate := protocol_list_supports_protocol protocols PRT_RELAY PROTOVER_RELAY_EXTEND_IPV6 in
  let* canonical := protocol_list_supports_protocol protocols PRT_RELAY PROTOVER_RELAY_CANONICAL_IPV6 in
  let* intro := protocol_list_supports_protocol protocols PRT_HSINTRO PROTOVER_HS_INTRO_V3 in
  let* dos := protocol_list_supports_protocol protocols PRT_HSINTRO PROTOVER_HS_INTRO_DOS in
  let* rend := protocol_list_supports_protocol protocols PRT_HSREND PROTOVER_HS_RENDEZVOUS_POINT_V3 in
  let* hsdir := protocol_list_supports_protocol protocols PRT_HSDIR PROTOVER_HSDIR_V3 in
  let* padding := protocol_list_supports_protocol protocols PRT_PADDING PROTOVER_HS_SETUP_PADDING in
  Ok {| protocols_known := true; supports_extend2_cells := extend2; supports_accepting_ipv6_extends := accept;
        supports_initiating_ipv6_extends := initiate; supports_canonical_ipv6_conns := canonical;
        supports_ed25519_link_handshake_compat := compat; supports_ed25519_link_handshake_any := any;
        supports_ed25519_hs_intro := intro; supports_establish_intro_dos_extension := dos; supports_v3_hsdir := hsdir;
        supports_v3_rendezvous_point := rend; supports_hs_setup_padding := padding |}.

(** [*out] and the map after the call. *)
Definition memoize_protover_summary (protover_summary_map : summary_map) (protocols : bytes) : outcome (protover_summary_flags * summary_map) :=
  let map := if MAX_PROTOVER_SUMMARY_MAP_LEN <=? Z.of_nat (base.size protover_summary_map) then (∅ : summary_map) else protover_summary_map in
  match map !! protocols with
  | Some cached => tor_assert (protocols_known cached) (Ok (cached, map))
  | None => let* out := summarize protocols in Ok (out, <[protocols := out]> map)
  end.

(** [*out] and the map after the call; a NULL argument is [None]. *)
Definition summarize_protover_flags (map : summary_map) (protocols version : option bytes) : outcome (protover_summary_flags * summary_map) :=
  let* (out, map) :=
    match protocols with
    | Some p => if strcmp p [] =? 0 then Ok (no_flags, map) else memoize_protover_summary map p
    | None => Ok (no_flags, map)
    end in
  match version with
  | Some v =>
      if negb (strcmp v [] =? 0) && (strcmpstart v (bs "Tor ") =? 0) then
        if negb (protocols_known out) then
          let* b := tor_version_as_new_as v (bs "0.2.4.8-alpha") in
          Ok ({| protocols_known := true; supports_extend2_cells := b; supports_accepting_ipv6_extends := supports_accepting_ipv6_extends out;
                 supports_initiating_ipv6_extends := supports_initiating_ipv6_extends out; supports_canonical_ipv6_conns := supports_canonical_ipv6_conns out;
                 supports_ed25519_link_handshake_compat := supports_ed25519_link_handshake_compat out;
                 supports_ed25519_link_handshake_any := supports_ed25519_link_handshake_any out;
                 supports_ed25519_hs_intro := supports_ed25519_hs_intro out;
                 supports_establish_intro_dos_extension := supports_establish_intro_dos_extension out;
                 supports_v3_hsdir := supports_v3_hsdir out; supports_v3_rendezvous_point := supports_v3_rendezvous_point out;
                 supports_hs_setup_padding := supports_hs_setup_padding out |}, map)
        else
          let* b := tor_version_as_new_as v (bs "0.3.0.8") in
          Ok ({| protocols_known := protocols_known out; supports_extend2_cells := supports_extend2_cells out;
                 supports_accepting_ipv6_extends := supports_accepting_ipv6_extends out;
                 supports_initiating_ipv6_extends := supports_initiating_ipv6_extends out; supports_canonical_ipv6_conns := supports_canonical_ipv6_conns out;
                 supports_ed25519_link_handshake_compat := supports_ed25519_link_handshake_compat out;
                 supports_ed25519_link_handshake_any := supports_ed25519_link_handshake_any out;
                 supports_ed25519_hs_intro := supports_ed25519_hs_intro out;
                 supports_establish_intro_dos_extension := supports_establish_intro_dos_extension out;
                 supports_v3_hsdir := b && supports_v3_hsdir out; supports_v3_rendezvous_point := supports_v3_rendezvous_point out;
                 supports_hs_setup_padding := supports_hs_setup_padding out |}, map)
      else Ok (out, map)
  | None => Ok (out, map)
  end.

(** [protover_summary_cache_free_all]. *)
Definition protover_summary_cache_free_all (map : summary_map) : summary_map := ∅.

(** ** What a summary says *)

(** A list mentions a version of the protocol from [ver] on. *)
Definition lists_or_later (es : list proto_entry) (name : bytes) (ver : Z) : bool :=
  existsb (fun e => (strcasecmp (pe_name e) name =? 0) && existsb (fun i => Z.testbit (bitmask e) i) (seqZ ver (64 - ver))) es.

(** The flags by what the text lists; a text that does not parse lists nothing. *)
Definition summary_of (protocols : bytes) : protover_summary_flags :=
  let es := default [] (parsed_list protocols) in
  let has pr ver := lists es (protocol_type_to_str pr) ver in
  {| protocols_known := true; supports_extend2_cells := has PRT_RELAY 2;
     supports_accepting_ipv6_extends := has PRT_RELAY 2 || has PRT_RELAY 3; supports_initiating_ipv6_extends := has PRT_RELAY 3;
     supports_canonical_ipv6_conns := has PRT_RELAY 3; supports_ed25519_link_handshake_compat := has PRT_LINKAUTH 3;
     supports_ed25519_link_handshake_any := lists_or_later es (bs "LinkAuth") 3; supports_ed25519_hs_intro := has PRT_HSINTRO 4;
     supports_establish_intro_dos_extension := has PRT_HSINTRO 5; supports_v3_hsdir := has PRT_HSDIR 2;
     supports_v3_rendezvous_point := has PRT_HSREND 2; supports_hs_setup_padding := has PRT_PADDING 2 |}.

Lemma supports_lists (protocols : bytes) (pr : protocol_type) (ver : Z) : 0 <= ver < 64 ->
  protocol_list_supports_protocol protocols pr ver = Ok (lists (default [] (parsed_list protocols)) (protocol_type_to_str pr) ver).
Proof.
  intros Hv. unfold protocol_list_supports_protocol. destruct (try_parse_total protocols) as [-> _]. cbn [obind].
  destruct (parsed_list protocols) as [es|]; [|done]. rewrite contains_lists by lia. by rewrite (proj2 (Z.leb_le _ _)) by lia.
Qed.

Lemma range_bits (m ver : Z) : mask_ok m -> 0 <= ver < 64 ->
  negb (Z.land m (range_mask ver 63) =? 0) = existsb (fun i => Z.testbit m i) (seqZ ver (64 - ver)).
Proof.
  intros Hm Hv. apply eq_iff_eq_true. rewrite negb_true_iff, Z.eqb_neq, existsb_exists. pose proof (range_mask_ok ver 63 ltac:(lia) ltac:(lia)) as Hr.
  assert (Hl : mask_ok (Z.land m (range_mask ver 63))).
  { apply mask_bits; [apply Z.land_nonneg; left; apply Hm|]. intros i Hi. rewrite Z.land_spec. by rewrite (proj1 (mask_bits _ (proj1 Hm)) Hm i Hi). }
  split.
  - intros H. destruct (mask_nonzero _ Hl H) as (i & Hi & Hb). rewrite Z.land_spec, range_mask_testbit in Hb by lia.
    apply andb_true_iff in Hb as [Hb [H1 H2]%andb_true_iff]. exists i. split; [|done]. apply list_elem_of_In, elem_of_seqZ. lia.
  - intros (i & Hi & Hb) E. apply list_elem_of_In, elem_of_seqZ in Hi. assert (H : Z.testbit (Z.land m (range_mask ver 63)) i = true); [|by rewrite E, Z.bits_0 in H].
    rewrite Z.land_spec, range_mask_testbit, Hb by lia. cbn [andb]. apply andb_true_iff. lia.
Qed.

Lemma supports_or_later (protocols : bytes) (pr : protocol_type) (ver : Z) : 0 <= ver < 64 ->
  protocol_list_supports_protocol_or_later protocols pr ver = Ok (lists_or_later (default [] (parsed_list protocols)) (protocol_type_to_str pr) ver).
Proof.
  intros Hv. unfold protocol_list_supports_protocol_or_later. destruct (try_parse_total protocols) as [-> Hes]. cbn [obind].
  destruct (parsed_list protocols) as [es|]; [|done]. rewrite bitmask_for_range_ok by lia. cbn [obind default]. f_equal. unfold lists_or_later. cbn in Hes.
  induction Hes as [|e es [_ He] _ IH]; [done|]. cbn [existsb]. by rewrite IH, range_bits.
Qed.

Lemma or_ok (a b : bool) : (if a then Ok true else Ok b) = Ok (a || b).
Proof. by destruct a. Qed.

Lemma summarize_ok (protocols : bytes) : summarize protocols = Ok (summary_of protocols).
Proof.
  unfold summarize. rewrite !supports_lists, supports_or_later by (by split; vm_compute). cbn [obind]. by rewrite or_ok.
Qed.

(** ** The cache *)

Definition cache_ok (map : summary_map) : Prop :=
  Z.of_nat (base.size map) <= MAX_PROTOVER_SUMMARY_MAP_LEN /\ forall text f, map !! text = Some f -> f = summary_of text.

Lemma cache_ok_empty : cache_ok ∅.
Proof. split; [by rewrite map_size_empty|]. intros text f H. by rewrite lookup_empty in H. Qed.

Lemma memoize_ok (map : summary_map) (protocols : bytes) : cache_ok map ->
  exists map', memoize_protover_summary map protocols = Ok (summary_of protocols, map') /\ cache_ok map'.
Proof.
  intros Hmap. unfold memoize_protover_summary. set (map0 := if _ <=? _ then ∅ else map).
  assert (H0 : cache_ok map0 /\ Z.of_nat (base.size map0) < MAX_PROTOVER_SUMMARY_MAP_LEN).
  { unfold map0. destruct (Z.leb_spec MAX_PROTOVER_SUMMARY_MAP_LEN (Z.of_nat (base.size map))); [|done]. split; [apply cache_ok_empty|by rewrite map_size_empty]. }
  destruct H0 as [H0 Hs]. destruct (map0 !! protocols) as [f|] eqn:E.
  - exists map0. split; [|done]. by rewrite (proj2 H0 _ _ E).
  - rewrite summarize_ok. cbn [obind]. eexists. split; [done|]. split; [rewrite map_size_insert_None by done; lia|].
    intros text f. rewrite lookup_insert. case_decide as Et; [intros [= <-]; by rewrite Et|apply H0].
Qed.

Lemma as_new_as_total (platform cutoff : bytes) : c_string platform -> c_string cutoff -> exists b, tor_version_as_new_as platform cutoff = Ok b.
Proof.
  intros Hp Hc. unfold tor_version_as_new_as. pose proof (version_parse_safe cutoff Hc) as H. destruct (tor_version_parse cutoff) as [v| |]; [|by eexists|done].
  unfold tor_version_parse_platform. destruct (negb _); [by eexists|]. set (start := eat_whitespace (drop 3 platform)).
  destruct start as [|c s] eqn:E; [by eexists|]. set (e := if _ || _ then _ else _). destruct (_ <=? _); [by eexists|].
  assert (Hs : c_string (take (length (c :: s) - length e) (c :: s))).
  { apply Forall_take. rewrite <- E. eapply suffix_c_string; [apply eat_ws_suffix|]. by apply Forall_drop. }
  pose proof (version_parse_safe _ Hs) as H'. destruct (tor_version_parse (take _ _)); [|by eexists|done]. cbn [obind andb]. by eexists.
Qed.

(** The version's part of the summary, once the protocols are known. *)
Definition adjust (version : option bytes) (f : protover_summary_flags) : protover_summary_flags :=
  let as_new cutoff := match version with Some v => match tor_version_as_new_as v (bs cutoff) with Ok b => b | _ => false end | None => true end in
  let tor := match version with Some v => negb (strcmp v [] =? 0) && (strcmpstart v (bs "Tor ") =? 0) | None => false end in
  if negb tor then f
  else
    {| protocols_known := true; supports_extend2_cells := if protocols_known f then supports_extend2_cells f else as_new "0.2.4.8-alpha"%string;
       supports_accepting_ipv6_extends := supports_accepting_ipv6_extends f;
       supports_initiating_ipv6_extends := supports_initiating_ipv6_extends f; supports_canonical_ipv6_conns := supports_canonical_ipv6_conns f;
       supports_ed25519_link_handshake_compat := supports_ed25519_link_handshake_compat f;
       supports_ed25519_link_handshake_any := supports_ed25519_link_handshake_any f; supports_ed25519_hs_intro := supports_ed25519_hs_intro f;
       supports_establish_intro_dos_extension := supports_establish_intro_dos_extension f;
       supports_v3_hsdir := (negb (protocols_known f) || as_new "0.3.0.8"%string) && supports_v3_hsdir f;
       supports_v3_rendezvous_point := supports_v3_rendezvous_point f; supports_hs_setup_padding := supports_hs_setup_padding f |}.

Definition summary_for (protocols version : option bytes) : protover_summary_flags :=
  adjust version (match protocols with Some p => if strcmp p [] =? 0 then no_flags else summary_of p | None => no_flags end).

Lemma summarize_flags_ok (map : summary_map) (protocols version : option bytes) : cache_ok map -> (forall v, version = Some v -> c_string v) ->
  exists map', summarize_protover_flags map protocols version = Ok (summary_for protocols version, map') /\ cache_ok map'.
Proof.
  intros Hmap Hv. unfold summarize_protover_flags, summary_for.
  set (base := match protocols with Some p => if strcmp p [] =? 0 then no_flags else summary_of p | None => no_flags end).
  assert (H : exists map', match protocols with Some p => if strcmp p [] =? 0 then Ok (no_flags, map) else memoize_protover_summary map p | None => Ok (no_flags, map) end
                = Ok (base, map') /\ cache_ok map').
  { unfold base. destruct protocols as [p|]; [|by exists map]. destruct (strcmp p [] =? 0); [by exists map|]. by apply memoize_ok. }
  destruct H as (map' & -> & Hmap'). cbn [obind]. exists map'. split; [|done]. unfold adjust. destruct version as [v|]; [|done].
  destruct (negb (strcmp v [] =? 0) && (strcmpstart v (bs "Tor ") =? 0)); cbn [negb]; [|done].
  destruct (as_new_as_total v (bs "0.2.4.8-alpha")) as [b1 H1]; [by apply Hv|by repeat constructor|].
  destruct (as_new_as_total v (bs "0.3.0.8")) as [b2 H2]; [by apply Hv|by repeat constructor|]. rewrite H1, H2. cbn [obind].
  assert (Hh : protocols_known base = false -> supports_v3_hsdir base = false).
  { unfold base. destruct protocols as [p|]; [|done]. by destruct (strcmp p [] =? 0). }
  destruct (protocols_known base) eqn:E; cbn [negb orb andb]; [done|]. by rewrite Hh.
Qed.

(** ** Properties *)

(** Whatever summaries the cache holds from calls before, [summarize_protover_flags] ends and gives the flags that the protocol list and the version
    alone determine (each flag is set exactly if the parsed list mentions the version it stands for; a "Tor" version replaces a missing list, and
    withdraws the v3 HSDir flag before 0.3.0.8), and leaves a cache of at most 1024 right summaries. *)
Theorem summarize_protover_flags_correct (calls : list (option bytes * option bytes)) :
  Forall (fun c => forall v, c.2 = Some v -> c_string v) calls ->
  exists map, foldl (fun (r : outcome (list protover_summary_flags * summary_map)) c => let* (outs, map) := r in
                 let* (out, map) := summarize_protover_flags map c.1 c.2 in Ok (outs ++ [out], map)) (Ok ([], protover_summary_cache_free_all ∅)) calls
    = Ok ((fun c => summary_for c.1 c.2) <$> calls, map) /\ cache_ok map.
Proof.
  intros Hc.
  assert (H : forall outs map, cache_ok map -> exists map', foldl (fun (r : outcome (list protover_summary_flags * summary_map)) c => let* (outs, map) := r in
                 let* (out, map) := summarize_protover_flags map c.1 c.2 in Ok (outs ++ [out], map)) (Ok (outs, map)) calls
    = Ok (outs ++ ((fun c => summary_for c.1 c.2) <$> calls), map') /\ cache_ok map'); [|by apply (H [] ∅), cache_ok_empty].
  induction Hc as [|[p v] calls Hv _ IH]; intros outs map Hmap; [exists map; by rewrite app_nil_r|]. cbn [foldl fst snd obind].
  destruct (summarize_flags_ok map p v Hmap Hv) as (map' & -> & Hmap'). cbn [obind]. destruct (IH (outs ++ [summary_for p v]) map' Hmap') as (map'' & -> & ?).
  exists map''. by rewrite <- app_assoc.
Qed.

Theorem summarize_protover_flags_correct_witness :
  let calls := [(Some (bs "Relay=1-3 HSDir=2 LinkAuth=1,3"), Some (bs "Tor 0.2.9.1")); (None, Some (bs "Tor 0.4.6.5")); (Some (bs "Relay=1-3 HSDir=2 LinkAuth=1,3"), None)] in
  (fun f => (supports_v3_hsdir f, supports_extend2_cells f)) <$> ((fun c => summary_for c.1 c.2) <$> calls) = [(false, true); (false, true); (true, true)] /\
  exists map, foldl (fun (r : outcome (list protover_summary_flags * summary_map)) c => let* (outs, map) := r in
                 let* (out, map) := summarize_protover_flags map c.1 c.2 in Ok (outs ++ [out], map)) (Ok ([], protover_summary_cache_free_all ∅)) calls
    = Ok ((fun c => summary_for c.1 c.2) <$> calls, map) /\ cache_ok map.
Proof.
  intros calls. split; [vm_compute; reflexivity|]. apply summarize_protover_flags_correct.
  assert (H1 : c_string (bs "Tor 0.2.9.1")) by (by repeat constructor). assert (H2 : c_string (bs "Tor 0.4.6.5")) by (by repeat constructor).
  constructor; [by intros v [= <-]|]. constructor; [by intros v [= <-]|]. constructor; [by intros v|constructor].
Defined.
