(* ===== verification/TimeFmt.v ===== *)
(** * Dates and times: [lib/encoding/time_fmt.c], [lib/wallclock/time_to_tm.c]

    From seconds since 1970 to calendar dates and back, and the texts of dates. *)
From S2P Require Import Prelude ParseInt Strings Scanf Inaddr.

Definition RFC1123_TIME_LEN : Z := 29.
Definition ISO_TIME_LEN : Z := 19.

Record tm := { tm_sec : Z; tm_min : Z; tm_hour : Z; tm_mday : Z; tm_mon : Z; tm_year : Z; tm_wday : Z; tm_yday : Z }.

(** ** The C library *)

(** [gmtime_r]; [None] for NULL, when the year does not fit. Years of the calculation begin in March, in eras of 400 years. *)
Definition civil_from_days (days : Z) : Z * Z * Z * Z :=
  let z := days + 719468 in
  let doe := z mod 146097 in
  let yoe := (doe - doe / 1460 + doe / 36524 - doe / 146096) / 365 in
  let doy := doe - (365 * yoe + yoe / 4 - yoe / 100) in
  let mp := (5 * doy + 2) / 153 in
  let d := doy - (153 * mp + 2) / 5 + 1 in
  let m := if mp <? 10 then mp + 3 else mp - 9 in
  let y := yoe + z / 146097 * 400 + (if m <=? 2 then 1 else 0) in
  let leap := (y mod 4 =? 0) && (negb (y mod 100 =? 0) || (y mod 400 =? 0)) in
  (y, m, d, if m <=? 2 then doy - 306 else doy + 59 + (if leap then 1 else 0)).

Definition gmtime (t : Z) : option tm :=
  let days := t / 86400 in
  let rem := t mod 86400 in
  let '(y, m, d, yday) := civil_from_days days in
  if (y - 1900 <? INT_MIN) || (INT_MAX <? y - 1900) then None
  else Some {| tm_sec := rem mod 60; tm_min := rem / 60 mod 60; tm_hour := rem / 3600; tm_mday := d; tm_mon := m - 1;
               tm_year := y - 1900; tm_wday := (days + 4) mod 7; tm_yday := yday |}.

(** [%02d], and [%d] and [%H] of [strftime], for numbers of at most two digits. *)
Definition pad2 (n : Z) : bytes := if n <? 10 then bs "0" ++ print_int n else print_int n.
Definition strftime_iso (t : tm) : bytes :=
  print_int (tm_year t + 1900) ++ bs "-" ++ pad2 (tm_mon t + 1) ++ bs "-" ++ pad2 (tm_mday t) ++ bs " " ++ pad2 (tm_hour t) ++ bs ":" ++ pad2 (tm_min t) ++ bs ":" ++ pad2 (tm_sec t).
Definition strftime_rfc1123 (t : tm) : bytes :=
  bs "___, " ++ pad2 (tm_mday t) ++ bs " ___ " ++ print_int (tm_year t + 1900) ++ bs " " ++ pad2 (tm_hour t) ++ bs ":" ++ pad2 (tm_min t) ++ bs ":" ++ pad2 (tm_sec t) ++ bs " GMT".
(** [strftime] into a buffer of [max] bytes; what does not fit leaves the buffer undefined. *)
Definition strftime (max : Z) (text : bytes) : outcome bytes := if max <=? zlen text then Stuck else Ok text.

(** ** [time_to_tm.c] *)

Definition correct_tm (timep : Z) (r : option tm) : tm :=
  match r with
  | Some r =>
      if 8099 <? tm_year r then
        {| tm_sec := 59; tm_min := 59; tm_hour := 23; tm_mday := 31; tm_mon := 11; tm_year := 8099; tm_wday := 6; tm_yday := 364 |}
      else if tm_year r <? 1 - 1900 then
        {| tm_sec := 0; tm_min := 0; tm_hour := 0; tm_mday := 1; tm_mon := 0; tm_year := 1 - 1900; tm_wday := 0; tm_yday := 0 |}
      else r
  | None =>
      if timep <? 0 then
        {| tm_sec := 0; tm_min := 0; tm_hour := 0; tm_mday := 1; tm_mon := 0; tm_year := 70; tm_wday := 0; tm_yday := 0 |}
      else if INT32_MAX <=? timep then
        {| tm_sec := 59; tm_min := 59; tm_hour := 23; tm_mday := 31; tm_mon := 11; tm_year := 137; tm_wday := 6; tm_yday := 364 |}
      else {| tm_sec := 0; tm_min := 0; tm_hour := 0; tm_mday := 0; tm_mon := 0; tm_year := 0; tm_wday := 0; tm_yday := 0 |}
  end.
Definition tor_gmtime_r_msg (timep : Z) : tm := correct_tm timep (gmtime timep).

(** ** [time_fmt.c] *)

Definition tor_gmtime_r (timep : Z) : tm := tor_gmtime_r_msg timep.

(** With C's division and remainder. *)
Definition IS_LEAPYEAR (y : Z) : bool := (Z.rem y 4 =? 0) && (negb (Z.rem y 100 =? 0) || (Z.rem y 400 =? 0)).
Definition n_leapdays (year1 year2 : Z) : Z :=
  let year1 := year1 - 1 in
  let year2 := year2 - 1 in
  (Z.quot year2 4 - Z.quot year1 4) - (Z.quot year2 100 - Z.quot year1 100) + (Z.quot year2 400 - Z.quot year1 400).
Definition days_per_month : list Z := [31; 28; 31; 30; 31; 30; 31; 31; 30; 31; 30; 31].
Definition dpm_of (m : Z) : Z := nth (Z.to_nat m) days_per_month 0.

(** [*time_out]; [Err] is -1. [time_t] has 64 bits. *)
Definition tor_timegm (t : tm) : outcome Z :=
  let year := if tm_year t <? INT32_MAX - 1900 then tm_year t + 1900 else INT32_MAX in
  let invalid_year := (year <? 1970) || (INT32_MAX - 1900 <=? tm_year t) in
  let dpm :=
    if (0 <=? tm_mon t) && (tm_mon t <=? 11) then
      if (tm_mon t =? 1) && negb invalid_year && IS_LEAPYEAR (tm_year t) then 29 else dpm_of (tm_mon t)
    else 0 in
  if invalid_year || (tm_mon t <? 0) || (11 <? tm_mon t) || (tm_mday t <? 1) || (dpm <? tm_mday t)
     || (tm_hour t <? 0) || (23 <? tm_hour t) || (tm_min t <? 0) || (59 <? tm_min t) || (tm_sec t <? 0) || (60 <? tm_sec t)
  then Err
  else
    let days := 365 * (year - 1970) + n_leapdays 1970 year in
    let days := foldl (fun days i => days + dpm_of i) days (seqZ 0 (tm_mon t)) in
    let days := if (1 <? tm_mon t) && IS_LEAPYEAR year then days + 1 else days in
    let days := days + (tm_mday t - 1) in
    let hours := days * 24 + tm_hour t in
    let minutes := hours * 60 + tm_min t in
    Ok (minutes * 60 + tm_sec t).

Definition WEEKDAY_NAMES : list bytes := bs <$> ["Sun"; "Mon"; "Tue"; "Wed"; "Thu"; "Fri"; "Sat"]%string.
Definition MONTH_NAMES : list bytes :=
  bs <$> ["Jan"; "Feb"; "Mar"; "Apr"; "May"; "Jun"; "Jul"; "Aug"; "Sep"; "Oct"; "Nov"; "Dec"]%string.

Definition format_rfc1123_time (t : Z) : outcome bytes :=
  let tm := tor_gmtime_r t in
  let* buf := strftime (RFC1123_TIME_LEN + 1) (strftime_rfc1123 tm) in
  tor_assert ((0 <=? tm_wday tm) && (tm_wday tm <=? 6)) (
  let buf := nth (Z.to_nat (tm_wday tm)) WEEKDAY_NAMES [] ++ drop 3 buf in
  tor_assert ((0 <=? tm_mon tm) && (tm_mon tm <=? 11)) (
  Ok (take 8 buf ++ nth (Z.to_nat (tm_mon tm)) MONTH_NAMES [] ++ drop 11 buf))).

(** The first month with this name. *)
Fixpoint month_index (cmp : bytes -> bytes -> Z) (names : list bytes) (month : bytes) (i : Z) : Z :=
  match names with
  | [] => -1
  | name :: names => if cmp month name =? 0 then i else month_index cmp names month (i + 1)
  end.

Definition parse_rfc1123_time (buf : bytes) : outcome Z :=
  if negb (zlen buf =? RFC1123_TIME_LEN) then Err
  else
    let* (n, fields) := tor_sscanf buf (bs "%3s, %2u %3s %u %2u:%2u:%2u GMT") in
    match fields with
    | [SString weekday; SNum mday; SString month; SNum year; SNum hour; SNum min; SNum sec] =>
        if n <? 7 then Err
        else
          let m := month_index strcmp MONTH_NAMES month 0 in
          if m <? 0 then Err
          else
            let invalid_year := (INT32_MAX <=? year) || (year <? 1970) in
            let dpm := if (m =? 1) && negb invalid_year && IS_LEAPYEAR year then 29 else dpm_of m in
            if invalid_year || (mday <? 1) || (dpm <? mday) || (23 <? hour) || (59 <? min) || (60 <? sec) then Err
            else tor_timegm {| tm_sec := sec; tm_min := min; tm_hour := hour; tm_mday := mday; tm_mon := m; tm_year := year - 1900; tm_wday := 0; tm_yday := 0 |}
    | _ => Err
    end.

Definition format_iso_time (t : Z) : outcome bytes := strftime (ISO_TIME_LEN + 1) (strftime_iso (tor_gmtime_r t)).
(** [buf\[10\] = 'T'], in a buffer of [ISO_TIME_LEN + 1] bytes. *)
Definition format_iso_time_nospace (t : Z) : outcome bytes :=
  let* buf := format_iso_time t in
  Ok (take 10 buf ++ bs "T" ++ drop 11 buf).
(** [%06d] of a number of at most six digits. *)
Definition pad6 (n : Z) : bytes := replicate (6 - length (print_int n)) "0"%char ++ print_int n.
(** [tor_snprintf] after the first [ISO_TIME_LEN] bytes. *)
Definition format_iso_time_nospace_usec (tv_sec tv_usec : Z) : outcome bytes :=
  let* buf := format_iso_time_nospace tv_sec in
  match tor_snprintf 8 (bs "." ++ pad6 tv_usec) with Ok frac => Ok (buf ++ frac) | _ => Stuck end.

Definition parse_iso_time_ (cp : bytes) (strict nospace : bool) : outcome Z :=
  let* (n_fields, fields) := tor_sscanf cp (bs "%u-%2u-%2u%c%2u:%2u:%2u%c") in
  if (if strict then negb (n_fields =? 7) else n_fields <? 7) then Err
  else
    match fields with
    | SNum year :: SNum month :: SNum day :: SChar separator_char :: SNum hour :: SNum minute :: SNum second :: _ =>
        if negb (bool_decide (separator_char = if nospace then "T"%char else " "%char)) then Err
        else if (year <? 1970) || (month <? 1) || (12 <? month) || (day <? 1) || (31 <? day) || (23 <? hour) || (59 <? minute) || (60 <? second) || (INT32_MAX <=? year)
        then Err
        else tor_timegm {| tm_sec := second; tm_min := minute; tm_hour := hour; tm_mday := day; tm_mon := month - 1; tm_year := year - 1900; tm_wday := 0; tm_yday := 0 |}
    | _ => Stuck
    end.
Definition parse_iso_time (cp : bytes) : outcome Z := parse_iso_time_ cp true false.
Definition parse_iso_time_nospace (cp : bytes) : outcome Z := parse_iso_time_ cp true true.

(** [cp] after the comma, in the two formats with one. *)
Definition parse_http_date (cp : bytes) : outcome (Z * bytes * Z * Z * Z * Z) :=
  match tor_sscanf cp (bs "%2u %3s %4u %2u:%2u:%2u GMT") with
  | Ok (6, [SNum mday; SString month; SNum year; SNum hour; SNum min; SNum sec]) => Ok (mday, month, wrap 32 (year - 1900), hour, min, sec)
  | Stuck => Stuck
  | _ =>
      match tor_sscanf cp (bs "%2u-%3s-%2u %2u:%2u:%2u GMT") with
      | Ok (6, [SNum mday; SString month; SNum year; SNum hour; SNum min; SNum sec]) => Ok (mday, month, year, hour, min, sec)
      | Stuck => Stuck
      | _ => Err
      end
  end.

(** [Err] is -1. Of several months with the name the last one counts, and there is at most one. *)
Definition parse_http_time (date : bytes) : outcome tm :=
  let* (mday, month, year, hour, min, sec) :=
    match strchr date ","%char with
    | Some cp =>
        let cp := drop 1 cp in
        if negb (bool_decide (deref cp = " "%char)) then Err else parse_http_date (drop 1 cp)
    | None =>
        match tor_sscanf date (bs "%3s %3s %2u %2u:%2u:%2u %4u") with
        | Ok (7, [SString wkday; SString month; SNum mday; SNum hour; SNum min; SNum sec; SNum year]) => Ok (mday, month, wrap 32 (year - 1900), hour, min, sec)
        | Stuck => Stuck
        | _ => Err
        end
    end in
  let t := {| tm_sec := to_int sec; tm_min := to_int min; tm_hour := to_int hour; tm_mday := to_int mday;
              tm_mon := month_index (fun a b => strcasecmp b a) MONTH_NAMES month 0; tm_year := to_int year; tm_wday := 0; tm_yday := 0 |} in
  if (tm_year t <? 0) || (tm_mon t <? 0) || (11 <? tm_mon t) || (tm_mday t <? 1) || (31 <? tm_mday t) || (tm_hour t <? 0) || (23 <? tm_hour t)
     || (tm_min t <? 0) || (59 <? tm_min t) || (tm_sec t <? 0) || (60 <? tm_sec t)
  then Err else Ok t.

Definition format_time_interval (out_len interval : Z) : outcome bytes :=
  let interval := if interval <? - LONG_MAX then LONG_MAX else if interval <? 0 then - interval else interval in
  let '(day, interval) := if 86400 <=? interval then (interval / 86400, interval mod 86400) else (0, interval) in
  let '(hour, interval) := if 3600 <=? interval then (interval / 3600, interval mod 3600) else (0, interval) in
  let '(min, interval) := if 60 <=? interval then (interval / 60, interval mod 60) else (0, interval) in
  let sec := interval in
  if negb (day =? 0) then tor_snprintf out_len (print_int day ++ bs " days, " ++ print_int hour ++ bs " hours, " ++ print_int min ++ bs " minutes")
  else if negb (hour =? 0) then tor_snprintf out_len (print_int hour ++ bs " hours, " ++ print_int min ++ bs " minutes")
  else if negb (min =? 0) then tor_snprintf out_len (print_int min ++ bs " minutes, " ++ print_int sec ++ bs " seconds")
  else tor_snprintf out_len (print_int sec ++ bs " seconds").
