(* ===== verification/TimeFmtFacts.v ===== *)
(** * Dates: the calendar calculation and its inverse, and the texts of dates read back *)
From stdpp Require Import gmap.
From S2P Require Import Prelude ParseInt Strings Scanf Inaddr InaddrFacts TimeFmt.

(** ** The calendar *)

Definition leap (y : Z) : bool := (y mod 4 =? 0) && (negb (y mod 100 =? 0) || (y mod 400 =? 0)).
Definition month_days (y m : Z) : Z := if (m =? 2) && leap y then 29 else dpm_of (m - 1).
(** Days of the months before [m] in a year that is not a leap year. *)
Definition days_before (m : Z) : Z := nth (Z.to_nat (m - 1)) [0; 31; 59; 90; 120; 151; 181; 212; 243; 273; 304; 334] 0.
(** Days from 1970 to a date of the Gregorian calendar. *)
Definition day_number (y m d : Z) : Z :=
  365 * (y - 1970) + ((y - 1) / 4 - 492) - ((y - 1) / 100 - 19) + ((y - 1) / 400 - 4) + days_before m + (if (2 <? m) && leap y then 1 else 0) + d - 1.
Definition date_ok (y m d : Z) : Prop := 1 <= m <= 12 /\ 1 <= d <= month_days y m.

(** The years of an era begin in March; the last one has the extra day of the era. *)
Definition year_start (k : Z) : Z := 365 * k + k / 4 - k / 100.
Definition year_end (k : Z) : Z := if k =? 399 then 146097 else year_start (k + 1).
(** What [civil_from_days] divides by 365. *)
Definition year_guess (doe : Z) : Z := doe - doe / 1460 + doe / 36524 - doe / 146096.

Lemma year_guess_mono (a b : Z) : a <= b -> year_guess a <= year_guess b.
Proof.
  assert (H : forall n : nat, year_guess a <= year_guess (a + Z.of_nat n)); [|intros Hab; specialize (H (Z.to_nat (b - a))); by replace (a + Z.of_nat (Z.to_nat (b - a))) with b in H by lia].
  induction n as [|n IH]; [by rewrite Z.add_0_r|]. etransitivity; [exact IH|]. replace (a + Z.of_nat (S n)) with (a + Z.of_nat n + 1) by lia.
  generalize (a + Z.of_nat n). intros c. unfold year_guess. dlia.
Qed.

(** Every year of the era: its guess, its length, and its two parts counted from 1970. *)
Definition era_year_ok (k : Z) : bool :=
  (365 * k <=? year_guess (year_start k)) && (year_guess (year_end k - 1) <? 365 * (k + 1))
  && (year_end k - year_start k =? 365 + (if leap (k + 1) then 1 else 0))
  && (365 * (k - 1970) + ((k - 1) / 4 - 492) - ((k - 1) / 100 - 19) + ((k - 1) / 400 - 4) + 59 + (if leap k then 1 else 0) =? year_start k - 719468)
  && (365 * (k + 1 - 1970) + (k / 4 - 492) - (k / 100 - 19) + (k / 400 - 4) - 306 =? year_start k - 719468).
Lemma era_years_ok (k : Z) : 0 <= k < 400 -> era_year_ok k = true.
Proof. apply forall_range. vm_compute. reflexivity. Qed.

(** Every day of such a year. *)
Definition year_day_ok (doy : Z) : bool :=
  let mp := (5 * doy + 2) / 153 in
  let d := doy - (153 * mp + 2) / 5 + 1 in
  let m := if mp <? 10 then mp + 3 else mp - 9 in
  (1 <=? m) && (m <=? 12) && (1 <=? d) && (d <=? if (m =? 2) && (doy =? 365) then 29 else dpm_of (m - 1))
  && (days_before m + d - 1 =? if 2 <? m then doy + 59 else doy - 306).
Lemma year_days_ok (doy : Z) : 0 <= doy < 366 -> year_day_ok doy = true.
Proof. apply forall_range. vm_compute. reflexivity. Qed.

Lemma era_year (doe : Z) : 0 <= doe < 146097 -> exists k, 0 <= k < 400 /\ year_start k <= doe < year_end k.
Proof.
  intros H. assert (Hn : forall n : nat, (n <= 400)%nat -> doe < (if Z.of_nat n =? 400 then 146097 else year_start (Z.of_nat n)) -> exists k, 0 <= k < Z.of_nat n /\ year_start k <= doe < year_end k);
    [|apply (Hn 400%nat); [lia|change (Z.of_nat 400 =? 400) with true; cbn iota; lia]].
  induction n as [|n IH]; intros Hle Hd; [change (year_start (Z.of_nat 0)) with 0 in Hd; change (Z.of_nat 0 =? 400) with false in Hd; cbn iota in Hd; lia|].
  destruct (Z.lt_ge_cases doe (year_start (Z.of_nat n))) as [L|L].
  - destruct IH as (k & Hk & ?); [lia|by rewrite (proj2 (Z.eqb_neq _ _)) by lia|]. exists k. split; [lia|done].
  - exists (Z.of_nat n). split; [lia|]. split; [done|]. unfold year_end. replace (Z.of_nat n + 1) with (Z.of_nat (S n)) by lia.
    destruct (Z.eqb_spec (Z.of_nat n) 399), (Z.eqb_spec (Z.of_nat (S n)) 400); done || lia.
Qed.

(** The first era. *)
Lemma era_ok (doe : Z) : 0 <= doe < 146097 ->
  let '(y, m, d, _) := civil_from_days (doe - 719468) in date_ok y m d /\ day_number y m d = doe - 719468.
Proof.
  intros Hdoe. destruct (era_year doe Hdoe) as (k & Hk & Hs). pose proof (era_years_ok k Hk) as Hy. unfold era_year_ok in Hy.
  rewrite !andb_true_iff, !Z.leb_le, Z.ltb_lt, !Z.eqb_eq in Hy. destruct Hy as ((((H1 & H2) & H3) & H4) & H5).
  pose proof (year_guess_mono (year_start k) doe ltac:(lia)). pose proof (year_guess_mono doe (year_end k - 1) ltac:(lia)).
  assert (Hyoe : year_guess doe / 365 = k) by (symmetry; apply (Z.div_unique_pos _ _ _ (year_guess doe - 365 * k)); lia).
  unfold civil_from_days. replace (doe - 719468 + 719468) with doe by lia. rewrite (Z.mod_small doe 146097), (Z.div_small doe 146097) by done.
  fold (year_guess doe). rewrite Hyoe. fold (year_start k). set (doy := doe - year_start k).
  assert (Hdoy : 0 <= doy < 365 + (if leap (k + 1) then 1 else 0)) by (unfold doy; lia).
  pose proof (year_days_ok doy ltac:(destruct (leap (k + 1)); lia)) as Hd. unfold year_day_ok in Hd. cbv zeta in *.
  set (mp := (5 * doy + 2) / 153) in *. set (m := if mp <? 10 then mp + 3 else mp - 9) in *. set (d := doy - (153 * mp + 2) / 5 + 1) in *.
  rewrite !andb_true_iff, !Z.leb_le, Z.eqb_eq in Hd. destruct Hd as ((((D1 & D2) & D3) & D4) & D5). clearbody d m. clear mp.
  unfold date_ok, month_days, day_number. destruct (Z.leb_spec m 2) as [L|L].
  - rewrite (proj2 (Z.ltb_ge 2 m)) in * by done. replace (k + 0 * 400 + 1) with (k + 1) by lia. replace (k + 1 - 1) with k by lia. cbn [andb]. split; [|unfold doy in *; lia].
    split; [done|]. split; [done|]. destruct (Z.eqb_spec m 2) as [->|]; [|done]. cbn [andb] in *. destruct (leap (k + 1)); [destruct (Z.eqb_spec doy 365); [done|change (dpm_of (2 - 1)) with 28 in *; lia]|].
    by rewrite (proj2 (Z.eqb_neq _ _)) in D4 by lia.
  - rewrite (proj2 (Z.ltb_lt 2 m)) in * by done. replace (k + 0 * 400 + 0) with k by lia. cbn [andb]. rewrite (proj2 (Z.eqb_neq m 2)) in * by lia. cbn [andb] in *.
    split; [done|]. unfold doy in *. lia.
Qed.

Lemma leap_shift (y k : Z) : leap (y + 400 * k) = leap y.
Proof.
  unfold leap. replace (y + 400 * k) with (y + (100 * k) * 4) at 1 by lia. rewrite Z_mod_plus_full.
  replace (y + 400 * k) with (y + (4 * k) * 100) at 1 by lia. rewrite Z_mod_plus_full.
  replace (y + 400 * k) with (y + k * 400) by lia. by rewrite Z_mod_plus_full.
Qed.

Lemma day_number_shift (y m d k : Z) : day_number (y + 400 * k) m d = day_number y m d + 146097 * k.
Proof.
  unfold day_number. rewrite leap_shift. replace (y + 400 * k - 1) with (y - 1 + 400 * k) by lia.
  assert (H4 : (y - 1 + 400 * k) / 4 = (y - 1) / 4 + 100 * k) by (rewrite <- Z.div_add by lia; f_equal; lia).
  assert (H100 : (y - 1 + 400 * k) / 100 = (y - 1) / 100 + 4 * k) by (rewrite <- Z.div_add by lia; f_equal; lia).
  assert (H400 : (y - 1 + 400 * k) / 400 = (y - 1) / 400 + k) by (rewrite <- Z.div_add by lia; f_equal; lia).
  rewrite H4, H100, H400. lia.
Qed.

Lemma civil_ok (days : Z) : let '(y, m, d, _) := civil_from_days days in date_ok y m d /\ day_number y m d = days.
Proof.
  set (z := days + 719468). set (doe := z mod 146097). set (era := z / 146097).
  assert (Hdoe : 0 <= doe < 146097) by (apply Z.mod_pos_bound; lia).
  pose proof (era_ok doe Hdoe) as H. unfold civil_from_days in *.
  replace (doe - 719468 + 719468) with doe in H by lia. rewrite (Z.mod_small doe 146097), (Z.div_small doe 146097) in H by done.
  fold z. fold doe. fold era. cbv zeta in *.
  set (yoe := (doe - doe / 1460 + doe / 36524 - doe / 146096) / 365) in *. set (doy := doe - (365 * yoe + yoe / 4 - yoe / 100)) in *.
  set (mp := (5 * doy + 2) / 153) in *. set (m := if mp <? 10 then mp + 3 else mp - 9) in *. set (d := doy - (153 * mp + 2) / 5 + 1) in *.
  set (y0 := yoe + 0 * 400 + (if m <=? 2 then 1 else 0)) in *.
  replace (yoe + era * 400 + (if m <=? 2 then 1 else 0)) with (y0 + 400 * era) by (unfold y0; lia). destruct H as [[H1 H2] H3].
  split; [split; [done|]; unfold month_days in *; by rewrite leap_shift|].
  rewrite day_number_shift, H3. unfold doe, era. pose proof (Z.div_mod z 146097). unfold z in *. lia.
Qed.

Lemma month_days_pos (m : Z) : 1 <= m <= 12 -> 28 <= dpm_of (m - 1) <= 31 /\ 0 <= days_before m <= 334 /\ days_before m + dpm_of (m - 1) <= 365 /\
  foldl (fun days i => days + dpm_of i) 0 (seqZ 0 (m - 1)) = days_before m.
Proof.
  intros Hm. set (P := fun k => let m := k + 1 in (28 <=? dpm_of (m - 1)) && (dpm_of (m - 1) <=? 31) && (0 <=? days_before m) && (days_before m <=? 334)
    && (days_before m + dpm_of (m - 1) <=? 365) && (foldl (fun days i => days + dpm_of i) 0 (seqZ 0 (m - 1)) =? days_before m)).
  pose proof (forall_range P 12 ltac:(by vm_compute) (m - 1) ltac:(lia)) as H. unfold P in H. rewrite Z.sub_add in H. lia.
Qed.

Lemma foldl_days (l : list Z) : forall a, foldl (fun days i => days + dpm_of i) a l = a + foldl (fun days i => days + dpm_of i) 0 l.
Proof. induction l as [|i l IH]; intros a; cbn [foldl]; [lia|]. rewrite (IH (a + _)), (IH (0 + _)). lia. Qed.

(** The day of the year, and the years that a range of days can have. *)
Lemma year_range (y m d : Z) : date_ok y m d -> 0 <= day_number y m d < 2932897 -> 1970 <= y <= 9999.
Proof.
  intros [Hm Hd] Hn. destruct (month_days_pos m Hm) as (H1 & H2 & H3 & _). unfold month_days in Hd. unfold day_number in Hn.
  assert (Hdoy : 0 <= days_before m + (if (2 <? m) && leap y then 1 else 0) + d - 1 <= 365 /\ (leap y = false -> days_before m + (if (2 <? m) && leap y then 1 else 0) + d - 1 <= 364)).
  { destruct (Z.eq_dec m 2) as [->|Hne].
    - change (2 =? 2) with true in *. change (2 <? 2) with false in *. change (days_before 2) with 31 in *. change (dpm_of (2 - 1)) with 28 in *. destruct (leap y); cbn [andb] in *; lia.
    - rewrite (proj2 (Z.eqb_neq _ _)) in Hd by done. destruct (leap y), (2 <? m); cbn [andb] in *; lia. }
  destruct Hdoy as [Hdoy Hl]. set (doy := days_before m + (if (2 <? m) && leap y then 1 else 0) + d - 1) in *.
  assert (Hn' : 0 <= 365 * (y - 1970) + ((y - 1) / 4 - 492) - ((y - 1) / 100 - 19) + ((y - 1) / 400 - 4) + doy < 2932897) by (unfold doy; lia). clear Hn. clearbody doy.
  split.
  - destruct (Z.lt_ge_cases y 1970) as [L|]; [|done]. exfalso. destruct (Z.eq_dec y 1969) as [->|]; [specialize (Hl eq_refl); dlia|].
    dlia.
  - destruct (Z.le_gt_cases y 9999) as [|L]; [done|]. exfalso. destruct (Z.eq_dec y 10000) as [->|]; [dlia|]. dlia.
Qed.

(** ** [tor_gmtime_r] and [tor_timegm] *)

(** The last second of the year 9999, plus one. *)
Definition Y10K : Z := 2932897 * 86400.
(** The leap days that [tor_timegm] does not know: its test of the year is off by 1900. *)
Definition bad_leap_day (t : tm) : bool := (tm_mon t =? 1) && (tm_mday t =? 29) && ((tm_year t + 1900) mod 400 =? 0).

Record tm_ok (t : tm) : Prop := {
  tm_ok_date : date_ok (tm_year t + 1900) (tm_mon t + 1) (tm_mday t);
  tm_ok_year : 1970 <= tm_year t + 1900 <= 9999;
  tm_ok_hour : 0 <= tm_hour t <= 23; tm_ok_min : 0 <= tm_min t <= 59; tm_ok_sec : 0 <= tm_sec t <= 59; tm_ok_wday : 0 <= tm_wday t <= 6
}.

Definition seconds_of (t : tm) : Z := ((day_number (tm_year t + 1900) (tm_mon t + 1) (tm_mday t) * 24 + tm_hour t) * 60 + tm_min t) * 60 + tm_sec t.

Lemma gmtime_ok (t : Z) : 0 <= t < Y10K -> tm_ok (tor_gmtime_r t) /\ seconds_of (tor_gmtime_r t) = t.
Proof.
  intros Ht. unfold Y10K in Ht. unfold tor_gmtime_r, tor_gmtime_r_msg, gmtime. pose proof (civil_ok (t / 86400)) as Hc.
  destruct (civil_from_days (t / 86400)) as [[[y m] d] yd]. destruct Hc as [Hd Hn]. pose proof (year_range y m d Hd ltac:(rewrite Hn; dlia)) as Hy.
  unfold INT_MIN, INT_MAX. rewrite !(proj2 (Z.ltb_ge _ _)) by lia. cbn [orb]. unfold correct_tm. cbn [tm_year]. rewrite !(proj2 (Z.ltb_ge _ _)) by lia.
  assert (Hr : 0 <= t mod 86400 < 86400) by (apply Z.mod_pos_bound; lia). set (r := t mod 86400) in *.
  split.
  - constructor; cbn; rewrite ?Z.sub_add; try done; try dlia.
  - unfold seconds_of. cbn. rewrite !Z.sub_add, Hn. assert (t = t / 86400 * 86400 + r) by (unfold r; dlia). clearbody r. dlia.
Qed.

Lemma IS_LEAPYEAR_ok (y : Z) : 0 <= y -> IS_LEAPYEAR y = leap y.
Proof. intros Hy. unfold IS_LEAPYEAR, leap. by rewrite !Z.rem_mod_nonneg by lia. Qed.

Lemma n_leapdays_ok (y : Z) : 1970 <= y -> n_leapdays 1970 y = (y - 1) / 4 - 492 - ((y - 1) / 100 - 19) + ((y - 1) / 400 - 4).
Proof. intros Hy. unfold n_leapdays. rewrite !Z.quot_div_nonneg by lia. reflexivity. Qed.

(** [tor_timegm] on a date: its own notion of a leap day decides about 29 February. *)
Definition timegm_date_ok (t : tm) : bool := negb ((tm_mon t =? 1) && (tm_mday t =? 29)) || leap (tm_year t).

Lemma timegm_ok (t : tm) : tm_ok t -> tor_timegm t = if timegm_date_ok t then Ok (seconds_of t) else Err.
Proof.
  intros [[Hm Hd] Hy Hh Hmin Hs _]. unfold tor_timegm, timegm_date_ok. unfold INT32_MAX. rewrite (proj2 (Z.ltb_lt (tm_year t) _)) by lia.
  rewrite (proj2 (Z.ltb_ge (tm_year t + 1900) 1970)), (proj2 (Z.leb_gt _ (tm_year t))) by lia. cbn [orb negb].
  rewrite (proj2 (Z.leb_le 0 (tm_mon t))), (proj2 (Z.leb_le (tm_mon t) 11)) by lia. cbn [andb]. rewrite andb_true_r, (IS_LEAPYEAR_ok (tm_year t)) by lia.
  rewrite (proj2 (Z.ltb_ge (tm_mon t) 0)), (proj2 (Z.ltb_ge 11 (tm_mon t))), (proj2 (Z.ltb_ge (tm_mday t) 1)), (proj2 (Z.ltb_ge (tm_hour t) 0)), (proj2 (Z.ltb_ge 23 (tm_hour t))),
    (proj2 (Z.ltb_ge (tm_min t) 0)), (proj2 (Z.ltb_ge 59 (tm_min t))), (proj2 (Z.ltb_ge (tm_sec t) 0)), (proj2 (Z.ltb_ge 60 (tm_sec t))) by lia. cbn [orb]. rewrite !orb_false_r.
  destruct (month_days_pos (tm_mon t + 1) Hm) as (H1 & _ & _ & H4). unfold month_days in Hd. replace (tm_mon t + 1 - 1) with (tm_mon t) in * by lia.
  assert (Hdpm : (if (tm_mon t =? 1) && leap (tm_year t) then 29 else dpm_of (tm_mon t)) <? tm_mday t = negb (negb ((tm_mon t =? 1) && (tm_mday t =? 29)) || leap (tm_year t))).
  { destruct (Z.eq_dec (tm_mon t) 1) as [E|E].
    - rewrite E in *. change (1 + 1 =? 2) with true in Hd. change (dpm_of 1) with 28 in *. cbn [Z.eqb andb negb orb] in *.
      destruct (leap (tm_year t)), (leap (tm_year t + 1900)), (Z.eqb_spec (tm_mday t) 29); cbn; lia.
    - rewrite (proj2 (Z.eqb_neq (tm_mon t) 1)) by done. rewrite (proj2 (Z.eqb_neq (tm_mon t + 1) 2)) in Hd by lia. cbn [andb negb orb] in *. lia. }
  rewrite Hdpm. destruct (negb ((tm_mon t =? 1) && (tm_mday t =? 29)) || leap (tm_year t)); cbn [negb]; [|done].
  f_equal. rewrite foldl_days, H4, n_leapdays_ok, (IS_LEAPYEAR_ok (tm_year t + 1900)) by lia. unfold seconds_of, day_number.
  destruct (Z.ltb_spec 1 (tm_mon t)), (Z.ltb_spec 2 (tm_mon t + 1)); try lia; destruct (leap (tm_year t + 1900)); cbn [andb]; lia.
Qed.

(** On a date that exists, [tor_timegm]'s notion fails exactly on the bad leap days. *)
Lemma bad_leap (t : tm) : tm_ok t -> timegm_date_ok t = negb (bad_leap_day t).
Proof.
  intros [[Hm Hd] Hy _ _ _ _]. unfold timegm_date_ok, bad_leap_day. destruct (Z.eq_dec (tm_mon t) 1) as [E|E]; [|by rewrite (proj2 (Z.eqb_neq _ _)) by done].
  rewrite E in *. unfold month_days in Hd. change (1 + 1 =? 2) with true in Hd. change (1 + 1 - 1) with 1 in Hd. change (dpm_of 1) with 28 in Hd. cbn [Z.eqb andb] in *.
  destruct (Z.eqb_spec (tm_mday t) 29) as [Ed|]; [|done]. cbn [andb negb orb]. unfold leap in *.
  destruct (Z.eqb_spec ((tm_year t + 1900) mod 4) 0); [|cbn [andb] in Hd; lia]. cbn [andb] in Hd.
  destruct (Z.eqb_spec (tm_year t mod 4) 0), (Z.eqb_spec (tm_year t mod 100) 0), (Z.eqb_spec (tm_year t mod 400) 0), (Z.eqb_spec ((tm_year t + 1900) mod 100) 0), (Z.eqb_spec ((tm_year t + 1900) mod 400) 0);
    cbn [andb negb orb] in *; try reflexivity; try lia; exfalso; dlia.
Qed.

(** ** Scanning the fields *)

Lemma pad2_digits (n : Z) : 0 <= n < 100 -> pad2 n = dec_char <$> [n / 10; n mod 10].
Proof.
  intros Hn. set (P := fun n => bool_decide (pad2 n = dec_char <$> [n / 10; n mod 10])).
  assert (H : P n = true) by (apply (forall_range P 100); [by vm_compute|done]). by apply bool_decide_eq_true in H.
Qed.

Lemma year_digits (y : Z) : 1970 <= y <= 9999 -> print_int y = dec_char <$> [y / 1000; y / 100 mod 10; y / 10 mod 10; y mod 10].
Proof.
  intros Hy. set (P := fun y => (y <? 1970) || bool_decide (print_int y = dec_char <$> [y / 1000; y / 100 mod 10; y / 10 mod 10; y mod 10])).
  assert (H : P y = true) by (apply (forall_range P 10000); [by vm_compute|lia]). unfold P in H.
  rewrite (proj2 (Z.ltb_ge _ _)) in H by lia. by apply bool_decide_eq_true in H.
Qed.

Lemma scan_field (ds : list Z) (rest : bytes) (width : Z) : TOR_ISDIGIT (deref rest) = false -> (0 < length ds)%nat -> Forall (fun d => 0 <= d < 10) ds ->
  (width <? 0 = true /\ zlen ds <= MAX_SCANF_WIDTH \/ zlen ds <= width) -> fold_digits 10 0 ds <= ULONG_MAX ->
  scan_unsigned ((dec_char <$> ds) ++ rest) width 10 = Ok (fold_digits 10 0 ds, rest) /\ (b2z (deref ((dec_char <$> ds) ++ rest)) =? 0) = false.
Proof.
  intros Hr Hl Hds Hw Hm. unfold scan_unsigned. change ((10 =? 10) || (10 =? 16)) with true. cbn [tor_assert]. change (10 =? 16) with false. split.
  - rewrite scan_unsigned_digits; [cbn [obind]; rewrite (proj2 (Z.eqb_neq _ _)) by (unfold zlen; lia); done|done|done|done| |done|done].
    pose proof (zlen_nonneg ds). destruct Hw as [[-> ?]|?]; [lia|]. rewrite (proj2 (Z.ltb_ge _ _)) by lia. lia.
  - destruct ds as [|d ds]; [cbn in Hl; lia|]. apply Forall_cons in Hds as [Hd _].
    destruct (dec_char_facts d Hd) as (_ & Hv & _). cbn [fmap list_fmap app deref]. apply Z.eqb_neq. lia.
Qed.

(** A two-digit field under [%2u]. *)
Lemma vsscanf_2u (f : nat) (n : Z) (rest pattern : bytes) (k : Z) (out : list scanned) : 0 <= n < 100 -> TOR_ISDIGIT (deref rest) = false ->
  vsscanf_loop (S f) (pad2 n ++ rest) (bs "%2u" ++ pattern) k out = vsscanf_loop f rest pattern (k + 1) (out ++ [SNum n]).
Proof.
  intros Hn Hr. rewrite pad2_digits by done.
  destruct (scan_field [n / 10; n mod 10] rest 2 Hr) as [H1 H2]; [cbn; lia|repeat constructor; dlia|right; done|unfold fold_digits, ULONG_MAX; cbn; dlia|].
  change (vsscanf_loop (S f) ((dec_char <$> [n / 10; n mod 10]) ++ rest) (bs "%2u" ++ pattern) k out)
    with (if b2z (deref ((dec_char <$> [n / 10; n mod 10]) ++ rest)) =? 0 then Ok (k, out)
          else match scan_unsigned ((dec_char <$> [n / 10; n mod 10]) ++ rest) 2 10 with
               | Stuck => Stuck | Err => Ok (k, out)
               | Ok (u, buf) => if UINT_MAX <? u then Ok (k, out) else vsscanf_loop f buf pattern (k + 1) (out ++ [SNum u]) end).
  rewrite H2, H1. assert (Hf : fold_digits 10 0 [n / 10; n mod 10] = n) by (unfold fold_digits; cbn; dlia). rewrite Hf. by rewrite (proj2 (Z.ltb_ge _ _)) by (unfold UINT_MAX; lia).
Qed.

(** A year under [%u] and under [%4u]. *)
Lemma scan_year (width : Z) (y : Z) (rest : bytes) : 1970 <= y <= 9999 -> TOR_ISDIGIT (deref rest) = false -> width = -1 \/ width = 4 ->
  scan_unsigned (print_int y ++ rest) width 10 = Ok (y, rest) /\ (b2z (deref (print_int y ++ rest)) =? 0) = false /\ (UINT_MAX <? y) = false.
Proof.
  intros Hn Hr Hw. rewrite year_digits by done. set (ds := [y / 1000; y / 100 mod 10; y / 10 mod 10; y mod 10]).
  assert (Hf : fold_digits 10 0 ds = y) by (unfold fold_digits, ds; cbn; dlia).
  destruct (scan_field ds rest width Hr) as [H1 H2]; [cbn; lia|unfold ds; repeat constructor; dlia|destruct Hw as [-> | ->]; [left; done|right; done]|rewrite Hf; unfold ULONG_MAX; lia|].
  split; [by rewrite H1, Hf|]. split; [done|]. apply Z.ltb_ge. unfold UINT_MAX. lia.
Qed.

Lemma vsscanf_year (f : nat) (y : Z) (rest pattern : bytes) (k : Z) (out : list scanned) : 1970 <= y <= 9999 -> TOR_ISDIGIT (deref rest) = false ->
  vsscanf_loop (S f) (print_int y ++ rest) (bs "%u" ++ pattern) k out = vsscanf_loop f rest pattern (k + 1) (out ++ [SNum y]).
Proof.
  intros Hn Hr. destruct (scan_year (-1) y rest Hn Hr ltac:(by left)) as (H1 & H2 & H3).
  change (vsscanf_loop (S f) (print_int y ++ rest) (bs "%u" ++ pattern) k out)
    with (if b2z (deref (print_int y ++ rest)) =? 0 then Ok (k, out)
          else match scan_unsigned (print_int y ++ rest) (-1) 10 with
               | Stuck => Stuck | Err => Ok (k, out)
               | Ok (u, buf) => if UINT_MAX <? u then Ok (k, out) else vsscanf_loop f buf pattern (k + 1) (out ++ [SNum u]) end).
  by rewrite H2, H1, H3.
Qed.

Lemma vsscanf_year4 (f : nat) (y : Z) (rest pattern : bytes) (k : Z) (out : list scanned) : 1970 <= y <= 9999 -> TOR_ISDIGIT (deref rest) = false ->
  vsscanf_loop (S f) (print_int y ++ rest) (bs "%4u" ++ pattern) k out = vsscanf_loop f rest pattern (k + 1) (out ++ [SNum y]).
Proof.
  intros Hn Hr. destruct (scan_year 4 y rest Hn Hr ltac:(by right)) as (H1 & H2 & H3).
  change (vsscanf_loop (S f) (print_int y ++ rest) (bs "%4u" ++ pattern) k out)
    with (if b2z (deref (print_int y ++ rest)) =? 0 then Ok (k, out)
          else match scan_unsigned (print_int y ++ rest) 4 10 with
               | Stuck => Stuck | Err => Ok (k, out)
               | Ok (u, buf) => if UINT_MAX <? u then Ok (k, out) else vsscanf_loop f buf pattern (k + 1) (out ++ [SNum u]) end).
  by rewrite H2, H1, H3.
Qed.

(** A character of the pattern that is not a conversion. *)
Lemma vsscanf_lit (f : nat) (c : ascii) (rest pattern : bytes) (k : Z) (out : list scanned) : is_char c 0 || is_char c 37 = false ->
  vsscanf_loop (S f) (c :: rest) (c :: pattern) k out = vsscanf_loop f rest pattern k out.
Proof. intros [H1 H2]%orb_false_iff. cbn [vsscanf_loop]. rewrite H1, H2. cbn [negb deref drop]. by rewrite Z.eqb_refl. Qed.

(** [%c]. *)
Lemma vsscanf_c (f : nat) (c : ascii) (rest pattern : bytes) (k : Z) (out : list scanned) : c <> NUL ->
  vsscanf_loop (S f) (c :: rest) (bs "%c" ++ pattern) k out = vsscanf_loop f rest pattern (k + 1) (out ++ [SChar c]).
Proof.
  intros Hc. change (vsscanf_loop (S f) (c :: rest) (bs "%c" ++ pattern) k out)
    with (if b2z c =? 0 then Ok (k, out) else vsscanf_loop f rest pattern (k + 1) (out ++ [SChar c])).
  rewrite (proj2 (Z.eqb_neq _ _)); [done|]. intros E. apply Hc. by apply b2z_inj.
Qed.

(** ** The ISO format *)

Definition iso_text (sep : ascii) (t : tm) : bytes :=
  print_int (tm_year t + 1900) ++ "-"%char :: pad2 (tm_mon t + 1) ++ "-"%char :: pad2 (tm_mday t) ++ sep :: pad2 (tm_hour t) ++ ":"%char :: pad2 (tm_min t) ++ ":"%char :: pad2 (tm_sec t).

Lemma tm_fields (t : tm) : tm_ok t -> 0 <= tm_mon t + 1 < 100 /\ 0 <= tm_mday t < 100 /\ 1 <= tm_mday t <= 31.
Proof.
  intros [[Hm Hd] _ _ _ _ _]. destruct (month_days_pos _ Hm) as (H & _). unfold month_days in Hd. destruct (_ && _); lia.
Qed.

Lemma sscanf_iso (sep : ascii) (t : tm) : tm_ok t -> sep <> NUL -> TOR_ISDIGIT sep = false ->
  tor_sscanf (iso_text sep t) (bs "%u-%2u-%2u%c%2u:%2u:%2u%c") =
    Ok (7, [SNum (tm_year t + 1900); SNum (tm_mon t + 1); SNum (tm_mday t); SChar sep; SNum (tm_hour t); SNum (tm_min t); SNum (tm_sec t)]).
Proof.
  intros Ht Hsep Hd. destruct (tm_fields t Ht) as (Hmon & Hmday & _). destruct Ht as [_ Hy Hh Hmin Hs _]. unfold tor_sscanf, tor_vsscanf, iso_text.
  change (S (length (bs "%u-%2u-%2u%c%2u:%2u:%2u%c"))) with 26%nat.
  change (bs "%u-%2u-%2u%c%2u:%2u:%2u%c") with (bs "%u" ++ "-"%char :: bs "%2u" ++ "-"%char :: bs "%2u" ++ bs "%c" ++ bs "%2u" ++ ":"%char :: bs "%2u" ++ ":"%char :: bs "%2u" ++ bs "%c").
  rewrite vsscanf_year by done. rewrite vsscanf_lit by done. rewrite vsscanf_2u by done. rewrite vsscanf_lit by done. rewrite vsscanf_2u by done.
  rewrite vsscanf_c by done. rewrite vsscanf_2u by (done || lia). rewrite vsscanf_lit by done. rewrite vsscanf_2u by (done || lia). rewrite vsscanf_lit by done.
  rewrite <- (app_nil_r (pad2 (tm_sec t))). rewrite vsscanf_2u by (done || lia). reflexivity.
Qed.

(** The date without the day of the week and of the year, as the parsers leave it. *)
Definition date_only (t : tm) : tm :=
  {| tm_sec := tm_sec t; tm_min := tm_min t; tm_hour := tm_hour t; tm_mday := tm_mday t; tm_mon := tm_mon t; tm_year := tm_year t; tm_wday := 0; tm_yday := 0 |}.
Lemma date_only_ok (t : tm) : tm_ok t -> tm_ok (date_only t).
Proof. intros []. by constructor. Qed.

(** What every parser gives for the text of a date that exists. *)
Definition parsed_time (t : tm) : outcome Z := if bad_leap_day t then Err else Ok (seconds_of t).
Lemma seconds_date_only (t : tm) : seconds_of (date_only t) = seconds_of t.
Proof. unfold seconds_of, date_only. cbn [tm_sec tm_min tm_hour tm_mday tm_mon tm_year]. reflexivity. Qed.

Lemma timegm_date_only (t : tm) : tm_ok t -> tor_timegm (date_only t) = parsed_time t.
Proof.
  intros Ht. rewrite timegm_ok by (by apply date_only_ok). rewrite bad_leap by (by apply date_only_ok). unfold parsed_time. change (bad_leap_day (date_only t)) with (bad_leap_day t).
  rewrite seconds_date_only. destruct (bad_leap_day t); reflexivity.
Qed.

Lemma parse_iso_text (t : tm) (strict nospace : bool) : tm_ok t -> parse_iso_time_ (iso_text (if nospace then "T"%char else " "%char) t) strict nospace = parsed_time t.
Proof.
  intros Ht. unfold parse_iso_time_. rewrite sscanf_iso by (done || by destruct nospace). cbn [obind].
  replace (if strict then negb (7 =? 7) else 7 <? 7) with false by (by destruct strict). cbn iota. rewrite bool_decide_true by done. cbn [negb].
  destruct (tm_fields t Ht) as (_ & _ & Hmday). pose proof Ht as [[Hm _] Hy Hh Hmin Hs _]. unfold INT32_MAX.
  rewrite (proj2 (Z.ltb_ge (tm_year t + 1900) 1970)), (proj2 (Z.ltb_ge (tm_mon t + 1) 1)), (proj2 (Z.ltb_ge 12 (tm_mon t + 1))), (proj2 (Z.ltb_ge (tm_mday t) 1)), (proj2 (Z.ltb_ge 31 (tm_mday t))),
    (proj2 (Z.ltb_ge 23 (tm_hour t))), (proj2 (Z.ltb_ge 59 (tm_min t))), (proj2 (Z.ltb_ge 60 (tm_sec t))), (proj2 (Z.leb_gt _ (tm_year t + 1900))) by lia. cbn [orb].
  rewrite <- timegm_date_only by done. unfold date_only. do 2 f_equal; lia.
Qed.

Lemma pad2_length (n : Z) : 0 <= n < 100 -> length (pad2 n) = 2%nat.
Proof. intros Hn. by rewrite pad2_digits. Qed.

Lemma iso_text_length (sep : ascii) (t : tm) : tm_ok t -> length (iso_text sep t) = 19%nat.
Proof.
  intros Ht. destruct (tm_fields t Ht) as (H1 & H2 & _). destruct Ht as [_ Hy Hh Hmin Hs _]. unfold iso_text.
  repeat (rewrite length_app; cbn [length]). rewrite !pad2_length, year_digits by lia. reflexivity.
Qed.

Lemma strftime_iso_text (d : tm) : strftime_iso d = iso_text " " d.
Proof. unfold strftime_iso, iso_text. cbn [bs String.list_ascii_of_string app]. reflexivity. Qed.

Lemma format_iso_text (t : Z) : 0 <= t < Y10K -> format_iso_time t = Ok (iso_text " " (tor_gmtime_r t)) /\ format_iso_time_nospace t = Ok (iso_text "T" (tor_gmtime_r t)).
Proof.
  intros Ht. destruct (gmtime_ok t Ht) as [Hok _]. set (d := tor_gmtime_r t) in *.
  assert (H : format_iso_time t = Ok (iso_text " " d)).
  { unfold format_iso_time, strftime. fold d. rewrite strftime_iso_text. unfold zlen. by rewrite iso_text_length by done. }
  split; [done|]. unfold format_iso_time_nospace. rewrite H. cbn [obind]. f_equal.
  destruct (tm_fields d Hok) as (H1 & H2 & _). destruct Hok as [_ Hy _ _ _ _]. unfold iso_text. rewrite year_digits, (pad2_digits (tm_mon d + 1)), (pad2_digits (tm_mday d)) by done.
  cbn [fmap list_fmap app take drop bs String.list_ascii_of_string]. generalize (dec_char ((tm_year d + 1900) / 1000)), (dec_char ((tm_year d + 1900) / 100 mod 10)), (dec_char ((tm_year d + 1900) / 10 mod 10)), (dec_char ((tm_year d + 1900) mod 10)),
    (dec_char ((tm_mon d + 1) / 10)), (dec_char ((tm_mon d + 1) mod 10)), (dec_char (tm_mday d / 10)), (dec_char (tm_mday d mod 10)), (pad2 (tm_hour d) ++ ":"%char :: pad2 (tm_min d) ++ ":"%char :: pad2 (tm_sec d)). reflexivity.
Qed.

(** ** The RFC 1123 format *)

Definition rfc1123_text (t : tm) : bytes :=
  nth (Z.to_nat (tm_wday t)) WEEKDAY_NAMES [] ++ ","%char :: " "%char :: pad2 (tm_mday t) ++ " "%char :: nth (Z.to_nat (tm_mon t)) MONTH_NAMES [] ++ " "%char :: print_int (tm_year t + 1900)
  ++ " "%char :: pad2 (tm_hour t) ++ ":"%char :: pad2 (tm_min t) ++ ":"%char :: pad2 (tm_sec t) ++ bs " GMT".

(** The names have three letters, and a month's name leads to its number. *)
Definition word3 (w : bytes) : bool :=
  (length w =? 3)%nat && forallb (fun c => negb (b2z c =? 0) && negb (TOR_ISSPACE c)) w.
Lemma weekday_names (i : Z) : 0 <= i <= 6 -> word3 (nth (Z.to_nat i) WEEKDAY_NAMES []) = true.
Proof. intros Hi. apply (forall_range (fun i => word3 (nth (Z.to_nat i) WEEKDAY_NAMES [])) 7); [by vm_compute|lia]. Qed.
Lemma month_names (i : Z) : 0 <= i <= 11 -> word3 (nth (Z.to_nat i) MONTH_NAMES []) = true /\
  month_index strcmp MONTH_NAMES (nth (Z.to_nat i) MONTH_NAMES []) 0 = i /\
  month_index (fun a b => strcasecmp b a) MONTH_NAMES (nth (Z.to_nat i) MONTH_NAMES []) 0 = i.
Proof.
  intros Hi. pose proof (forall_range (fun i => word3 (nth (Z.to_nat i) MONTH_NAMES []) && (month_index strcmp MONTH_NAMES (nth (Z.to_nat i) MONTH_NAMES []) 0 =? i)
    && (month_index (fun a b => strcasecmp b a) MONTH_NAMES (nth (Z.to_nat i) MONTH_NAMES []) 0 =? i)) 12 ltac:(by vm_compute) i ltac:(lia)) as H. cbn beta in H.
  rewrite !andb_true_iff, !Z.eqb_eq in H. tauto.
Qed.

(** [%3s] on a word of three characters. *)
Lemma vsscanf_3s (f : nat) (w rest pattern : bytes) (k : Z) (out : list scanned) : word3 w = true ->
  vsscanf_loop (S f) (w ++ rest) (bs "%3s" ++ pattern) k out = vsscanf_loop f rest pattern (k + 1) (out ++ [SString w]).
Proof.
  unfold word3. intros [Hl Hw]%andb_true_iff. destruct w as [|a [|b [|c [|]]]]; try done. cbn [forallb] in Hw. rewrite !andb_true_iff in Hw.
  destruct Hw as ([Ha1 Ha2] & [Hb1 Hb2] & [Hc1 Hc2] & _).
  change (vsscanf_loop (S f) ([a; b; c] ++ rest) (bs "%3s" ++ pattern) k out)
    with (match scan_string ([a; b; c] ++ rest) 3 with Stuck => Stuck | Err => Ok (k, out) | Ok (s, buf) => vsscanf_loop f buf pattern (k + 1) (out ++ [SString s]) end).
  unfold scan_string. change (3 <? 0) with false. cbn iota. cbn [app scan_string_loop]. rewrite Ha1, Ha2, Hb1, Hb2, Hc1, Hc2. cbn [andb].
  replace (scan_string_loop rest (0 + 1 + 1 + 1) 3) with (@nil ascii, rest); [done|]. destruct rest as [|d rest]; [done|]. cbn [scan_string_loop]. by rewrite andb_false_r.
Qed.

Definition time_pattern : bytes := " "%char :: bs "%2u" ++ ":"%char :: bs "%2u" ++ ":"%char :: bs "%2u" ++ bs " GMT".
Definition time_text (t : tm) : bytes := " "%char :: pad2 (tm_hour t) ++ ":"%char :: pad2 (tm_min t) ++ ":"%char :: pad2 (tm_sec t) ++ bs " GMT".

Lemma vsscanf_time (f : nat) (t : tm) (k : Z) (out : list scanned) : tm_ok t ->
  vsscanf_loop (S (S (S (S (S (S (S (S (S (S (S f))))))))))) (time_text t) time_pattern k out = Ok (k + 1 + 1 + 1, out ++ [SNum (tm_hour t)] ++ [SNum (tm_min t)] ++ [SNum (tm_sec t)]).
Proof.
  intros [_ Hy Hh Hmin Hs _]. unfold time_text, time_pattern. rewrite vsscanf_lit by done. rewrite vsscanf_2u by (done || lia). rewrite vsscanf_lit by done.
  rewrite vsscanf_2u by (done || lia). rewrite vsscanf_lit by done. rewrite vsscanf_2u by (done || lia). change (bs " GMT") with [" "%char; "G"%char; "M"%char; "T"%char].
  rewrite !vsscanf_lit by done. cbn [vsscanf_loop]. by rewrite <- !app_assoc.
Qed.

Lemma sscanf_rfc1123 (t : tm) : tm_ok t -> tor_sscanf (rfc1123_text t) (bs "%3s, %2u %3s %u %2u:%2u:%2u GMT") =
    Ok (7, [SString (nth (Z.to_nat (tm_wday t)) WEEKDAY_NAMES []); SNum (tm_mday t); SString (nth (Z.to_nat (tm_mon t)) MONTH_NAMES []); SNum (tm_year t + 1900);
            SNum (tm_hour t); SNum (tm_min t); SNum (tm_sec t)]).
Proof.
  intros Ht. destruct (tm_fields t Ht) as (Hmon & Hmday & _). pose proof Ht as [[Hm _] Hy Hh Hmin Hs Hw]. unfold tor_sscanf, tor_vsscanf, rfc1123_text.
  change (S (length (bs "%3s, %2u %3s %u %2u:%2u:%2u GMT"))) with 32%nat.
  change (bs "%3s, %2u %3s %u %2u:%2u:%2u GMT") with (bs "%3s" ++ ","%char :: " "%char :: bs "%2u" ++ " "%char :: bs "%3s" ++ " "%char :: bs "%u" ++ time_pattern).
  change (" "%char :: pad2 (tm_hour t) ++ ":"%char :: pad2 (tm_min t) ++ ":"%char :: pad2 (tm_sec t) ++ bs " GMT") with (time_text t).
  rewrite vsscanf_3s by (by apply weekday_names). rewrite !vsscanf_lit by done. rewrite vsscanf_2u by done. rewrite vsscanf_lit by done.
  rewrite vsscanf_3s by (apply month_names; lia). rewrite vsscanf_lit by done. rewrite vsscanf_year by done. rewrite vsscanf_time by done. reflexivity.
Qed.

Lemma word3_length (w : bytes) : word3 w = true -> length w = 3%nat.
Proof. unfold word3. by intros [?%Nat.eqb_eq _]%andb_true_iff. Qed.

Lemma rfc1123_length (t : tm) : tm_ok t -> zlen (rfc1123_text t) = RFC1123_TIME_LEN.
Proof.
  intros Ht. destruct (tm_fields t Ht) as (_ & H2 & _). destruct Ht as [[Hm _] Hy Hh Hmin Hs Hw]. unfold rfc1123_text, zlen.
  repeat (rewrite length_app; cbn [length]). rewrite !pad2_length, year_digits by lia.
  rewrite (word3_length _ (weekday_names _ Hw)), (word3_length _ (proj1 (month_names (tm_mon t) ltac:(lia)))). reflexivity.
Qed.

Lemma format_rfc1123_text (t : Z) : 0 <= t < Y10K -> format_rfc1123_time t = Ok (rfc1123_text (tor_gmtime_r t)).
Proof.
  intros Ht. destruct (gmtime_ok t Ht) as [Hok _]. unfold format_rfc1123_time. set (d := tor_gmtime_r t) in *. destruct (tm_fields d Hok) as (_ & H2 & _).
  pose proof (rfc1123_length d Hok) as Hlen. destruct Hok as [[Hm _] Hy Hh Hmin Hs Hw].
  pose proof (weekday_names (tm_wday d) Hw) as Hwd%word3_length. pose proof (proj1 (month_names (tm_mon d) ltac:(lia))) as Hmd%word3_length.
  unfold strftime. replace (zlen (strftime_rfc1123 d)) with RFC1123_TIME_LEN.
  - change (RFC1123_TIME_LEN + 1 <=? RFC1123_TIME_LEN) with false. cbn [obind]. unfold tor_assert.
    rewrite (proj2 (Z.leb_le 0 (tm_wday d))), (proj2 (Z.leb_le (tm_wday d) 6)), (proj2 (Z.leb_le 0 (tm_mon d))), (proj2 (Z.leb_le (tm_mon d) 11)) by lia. cbn [andb]. f_equal.
    unfold rfc1123_text, strftime_rfc1123. rewrite (pad2_digits (tm_mday d)) by done. cbn [fmap list_fmap app drop bs String.list_ascii_of_string].
    destruct (nth (Z.to_nat (tm_wday d)) WEEKDAY_NAMES []) as [|a [|b [|c [|]]]]; try discriminate Hwd.
    cbn [app take drop]. generalize (dec_char (tm_mday d / 10)), (dec_char (tm_mday d mod 10)). reflexivity.
  - symmetry. rewrite <- Hlen. unfold strftime_rfc1123, rfc1123_text, zlen. f_equal. repeat (rewrite length_app; cbn [length bs String.list_ascii_of_string]). lia.
Qed.

Lemma parse_rfc1123_text (t : tm) : tm_ok t -> parse_rfc1123_time (rfc1123_text t) = parsed_time t.
Proof.
  intros Ht. unfold parse_rfc1123_time. rewrite rfc1123_length, Z.eqb_refl by done. cbn [negb]. rewrite sscanf_rfc1123 by done. cbn [obind].
  change (7 <? 7) with false. cbn iota. pose proof Ht as [[Hm Hd] Hy Hh Hmin Hs Hw]. destruct (month_names (tm_mon t) ltac:(lia)) as (_ & -> & _).
  rewrite (proj2 (Z.ltb_ge (tm_mon t) 0)) by lia. unfold INT32_MAX. rewrite (proj2 (Z.leb_gt _ (tm_year t + 1900))), (proj2 (Z.ltb_ge (tm_year t + 1900) 1970)) by lia. cbn [orb negb].
  rewrite andb_true_r, IS_LEAPYEAR_ok by lia. unfold month_days in Hd. replace (tm_mon t + 1 - 1) with (tm_mon t) in Hd by lia.
  replace (tm_mon t + 1 =? 2) with (tm_mon t =? 1) in Hd by (destruct (Z.eqb_spec (tm_mon t) 1), (Z.eqb_spec (tm_mon t + 1) 2); done || lia).
  rewrite (proj2 (Z.ltb_ge (tm_mday t) 1)), (proj2 (Z.ltb_ge _ (tm_mday t))), (proj2 (Z.ltb_ge 23 (tm_hour t))), (proj2 (Z.ltb_ge 59 (tm_min t))), (proj2 (Z.ltb_ge 60 (tm_sec t))) by lia. cbn [orb].
  rewrite <- timegm_date_only by done. unfold date_only. do 2 f_equal; lia.
Qed.

(** The HTTP parser skips the day of the week. *)
Lemma sscanf_http (t : tm) : tm_ok t ->
  tor_sscanf (pad2 (tm_mday t) ++ " "%char :: nth (Z.to_nat (tm_mon t)) MONTH_NAMES [] ++ " "%char :: print_int (tm_year t + 1900) ++ time_text t) (bs "%2u %3s %4u %2u:%2u:%2u GMT") =
    Ok (6, [SNum (tm_mday t); SString (nth (Z.to_nat (tm_mon t)) MONTH_NAMES []); SNum (tm_year t + 1900); SNum (tm_hour t); SNum (tm_min t); SNum (tm_sec t)]).
Proof.
  intros Ht. destruct (tm_fields t Ht) as (_ & Hmday & _). pose proof Ht as [[Hm _] Hy Hh Hmin Hs Hw]. unfold tor_sscanf, tor_vsscanf.
  change (S (length (bs "%2u %3s %4u %2u:%2u:%2u GMT"))) with 28%nat.
  change (bs "%2u %3s %4u %2u:%2u:%2u GMT") with (bs "%2u" ++ " "%char :: bs "%3s" ++ " "%char :: bs "%4u" ++ time_pattern).
  rewrite vsscanf_2u by done. rewrite vsscanf_lit by done. rewrite vsscanf_3s by (apply month_names; lia). rewrite vsscanf_lit by done.
  rewrite vsscanf_year4 by done. rewrite vsscanf_time by done. reflexivity.
Qed.

Lemma strchr_word (c : ascii) (w rest : bytes) : Forall (fun d => d <> c) w -> strchr (w ++ c :: rest) c = Some (c :: rest).
Proof. induction 1 as [|d w Hd _ IH]; cbn [app strchr]; [by rewrite decide_True|]. by rewrite decide_False. Qed.

Lemma weekday_no_comma (i : Z) : 0 <= i <= 6 -> Forall (fun d => d <> ","%char) (nth (Z.to_nat i) WEEKDAY_NAMES []).
Proof.
  intros Hi. pose proof (forall_range (fun i => forallb (fun d => negb (bool_decide (d = ","%char))) (nth (Z.to_nat i) WEEKDAY_NAMES [])) 7 ltac:(by vm_compute) i ltac:(lia)) as H.
  cbn beta in H. rewrite forallb_forall in H. apply Forall_forall. intros d Hd%list_elem_of_In. apply H in Hd. by apply negb_true_iff, bool_decide_eq_false in Hd.
Qed.

Lemma parse_http_text (t : tm) : tm_ok t -> parse_http_time (rfc1123_text t) = Ok (date_only t).
Proof.
  intros Ht. pose proof Ht as [[Hm _] Hy Hh Hmin Hs Hw]. destruct (tm_fields t Ht) as (_ & _ & Hd). unfold parse_http_time, rfc1123_text.
  rewrite strchr_word by (by apply weekday_no_comma). cbn [drop deref]. rewrite bool_decide_true by done. cbn [negb]. unfold parse_http_date.
  change (" "%char :: pad2 (tm_hour t) ++ ":"%char :: pad2 (tm_min t) ++ ":"%char :: pad2 (tm_sec t) ++ bs " GMT") with (time_text t).
  rewrite drop_0, sscanf_http by done. cbn iota beta. cbn [obind]. replace (tm_year t + 1900 - 1900) with (tm_year t) by lia.
  assert (Hwr : wrap 32 (tm_year t) = tm_year t) by (unfold wrap; apply Z.mod_small; lia). rewrite Hwr.
  rewrite !to_int_small by (unfold INT32_MIN, INT32_MAX; lia). destruct (month_names (tm_mon t) ltac:(lia)) as (_ & _ & ->). cbn [tm_year tm_mon tm_mday tm_hour tm_min tm_sec].
  rewrite (proj2 (Z.ltb_ge (tm_year t) 0)), (proj2 (Z.ltb_ge (tm_mon t) 0)), (proj2 (Z.ltb_ge 11 (tm_mon t))), (proj2 (Z.ltb_ge (tm_mday t) 1)), (proj2 (Z.ltb_ge 31 (tm_mday t))), (proj2 (Z.ltb_ge (tm_hour t) 0)),
    (proj2 (Z.ltb_ge 23 (tm_hour t))), (proj2 (Z.ltb_ge (tm_min t) 0)), (proj2 (Z.ltb_ge 59 (tm_min t))), (proj2 (Z.ltb_ge (tm_sec t) 0)), (proj2 (Z.ltb_ge 60 (tm_sec t))) by lia. reflexivity.
Qed.

(** ** Properties *)

(** For every second of the years 1970 to 9999 the text that [format_iso_time], [format_iso_time_nospace] or [format_rfc1123_time] writes is
    read back by the matching parser as the same second, and by [parse_http_time] as the same date, except that the first three refuse 29 February of every year that 400
    divides, such as 2000 ([tor_timegm] tests [tm_year], the years since 1900, for being a leap year). *)
Theorem time_text_roundtrip (t : Z) : 0 <= t < Y10K ->
  let expected := if bad_leap_day (tor_gmtime_r t) then Err else Ok t in
  (exists text, format_iso_time t = Ok text /\ parse_iso_time text = expected) /\
  (exists text, format_iso_time_nospace t = Ok text /\ parse_iso_time_nospace text = expected) /\
  (exists text, format_rfc1123_time t = Ok text /\ parse_rfc1123_time text = expected /\ parse_http_time text = Ok (date_only (tor_gmtime_r t))) /\
  tor_timegm (tor_gmtime_r t) = expected.
Proof.
  intros Ht expected. destruct (gmtime_ok t Ht) as [Hok Hs].
  assert (He : parsed_time (tor_gmtime_r t) = expected) by (unfold parsed_time, expected; by rewrite Hs).
  destruct (format_iso_text t Ht) as [H1 H2]. split_and!.
  - exists (iso_text " " (tor_gmtime_r t)). split; [exact H1|]. unfold parse_iso_time. by rewrite (parse_iso_text _ true false).
  - exists (iso_text "T" (tor_gmtime_r t)). split; [exact H2|]. unfold parse_iso_time_nospace. by rewrite (parse_iso_text _ true true).
  - exists (rfc1123_text (tor_gmtime_r t)). split; [by apply format_rfc1123_text|]. split; [by rewrite parse_rfc1123_text|by apply parse_http_text].
  - rewrite timegm_ok, bad_leap by done. unfold expected. rewrite Hs. by destruct (bad_leap_day _).
Qed.

Theorem time_text_roundtrip_witness : format_iso_time 951782400 = Ok (bs "2000-02-29 00:00:00") /\ parse_iso_time (bs "2000-02-29 00:00:00") = Err /\
  exists text, format_iso_time 1623024000 = Ok text /\ parse_iso_time text = Ok 1623024000.
Proof.
  assert (H1 : 0 <= 951782400 < Y10K) by (vm_compute; split; congruence). assert (H2 : 0 <= 1623024000 < Y10K) by (vm_compute; split; congruence).
  split; [vm_compute; reflexivity|]. split; [|exact (proj1 (time_text_roundtrip 1623024000 H2))].
  destruct (proj1 (time_text_roundtrip 951782400 H1)) as (text & Ht & Hp).
  assert (E : format_iso_time 951782400 = Ok (bs "2000-02-29 00:00:00")) by (vm_compute; reflexivity). rewrite E in Ht. injection Ht as <-. exact Hp.
Defined.

(** [tor_timegm] on every date with a valid time of day, in the years 1970 to 9999, that the Gregorian calendar has: it gives the number of seconds since 1970,
    except on the leap days it does not know; and it also takes 29 February of a year such as 2300, which the calendar does not have, for 1 March. *)
Theorem tor_timegm_correct (t : tm) : tm_ok t ->
  tor_timegm t = (if bad_leap_day t then Err else Ok (seconds_of t)) /\
  (let feb29 := {| tm_sec := 0; tm_min := 0; tm_hour := 0; tm_mday := 29; tm_mon := 1; tm_year := 400; tm_wday := 0; tm_yday := 0 |} in
   let mar1 := {| tm_sec := 0; tm_min := 0; tm_hour := 0; tm_mday := 1; tm_mon := 2; tm_year := 400; tm_wday := 0; tm_yday := 0 |} in
   leap 2300 = false /\ exists s, tor_timegm feb29 = Ok s /\ tor_timegm mar1 = Ok s).
Proof.
  intros Ht. split; [rewrite timegm_ok, bad_leap by done; by destruct (bad_leap_day t)|]. split; [reflexivity|]. eexists. split; vm_compute; reflexivity.
Qed.

Theorem tor_timegm_correct_witness : let t := {| tm_sec := 20; tm_min := 54; tm_hour := 15; tm_mday := 29; tm_mon := 8; tm_year := 106; tm_wday := 5; tm_yday := 271 |} in
  tor_timegm t = Ok 1159545260.
Proof.
  intros t. assert (H : tm_ok t) by (constructor; cbn; try lia; split; vm_compute; split; congruence).
  etransitivity; [exact (proj1 (tor_timegm_correct t H))|]. vm_compute. reflexivity.
Defined.
