(* ===== verification/RequiredProtos.v ===== *)
(** * Protocols that a consensus requires: [feature/nodelist/networkstatus.c], [core/or/versions.c]

    The check, on every new consensus, of the protocol versions that it lists as required or recommended, and what
    the check comes to for a consensus that was read from a GSRI. *)
From stdpp Require Import gmap.
From S2P Require Import Prelude ParseInt Strings Smartutil Scanf Inaddr CryptoRsa ParseCommon ParseFacts Gsri GsriFacts Protover TimeFmt.

Definition APPROX_RELEASE_DATE : bytes := bs "2021-06-07".
(** [tor_snprintf] of the date fits. *)
Definition tor_get_approx_release_date : outcome Z :=
  let* tbuf := tor_snprintf (ISO_TIME_LEN + 1) (APPROX_RELEASE_DATE ++ bs " 00:00:00") in
  match parse_iso_time tbuf with Ok result => Ok result | Err => Ok 0 | Stuck => Stuck end.

Definition required_warning (func missing : bytes) : bytes :=
  bs "At least one protocol listed as required in the consensus is not supported by this version of Tor. You should upgrade. This version of Tor will not work as a "
  ++ func ++ bs " on the Tor network. The missing protocols are: " ++ missing.
Definition recommended_warning (func missing : bytes) : bytes :=
  bs "At least one protocol listed as recommended in the consensus is not supported by this version of Tor. You should upgrade. This version of Tor will eventually stop working as a "
  ++ func ++ bs " on the Tor network. The missing protocols are: " ++ missing.

(** Whether to exit, and [*warning_out]. *)
Definition networkstatus_check_required_protocols (ns : networkstatus) (client_mode : bool) : outcome (bool * option bytes) :=
  let func := if client_mode then bs "client" else bs "relay" in
  let* release := tor_get_approx_release_date in
  if negb (release <=? valid_after ns) then Ok (false, None)
  else
    let '(required, recommended) :=
      if client_mode then (required_client_protocols ns, recommended_client_protocols ns)
      else (required_relay_protocols ns, recommended_relay_protocols ns) in
    let* (ok, missing) := protover_all_supported (Some required) in
    if negb ok then Ok (true, Some (required_warning func (default [] missing)))
    else
      let* (ok, missing) := protover_all_supported (Some recommended) in
      if negb ok then Ok (false, Some (recommended_warning func (default [] missing))) else Ok (false, None).

(** Whether the process exits, and the warnings that are logged before. *)
Definition handle_missing_protocol_warning_impl (c : networkstatus) (is_client : bool) : outcome (bool * list bytes) :=
  let* (should_exit, protocol_warning) := networkstatus_check_required_protocols c is_client in
  Ok (should_exit, match protocol_warning with Some w => [w] | None => [] end).
Definition handle_missing_protocol_warning (c : networkstatus) (server_mode any_client_port_set : bool) : outcome (bool * list bytes) :=
  let is_server := server_mode in
  let is_client := any_client_port_set || negb is_server in
  let* (exited, warnings) := if is_server then handle_missing_protocol_warning_impl c false else Ok (false, []) in
  if exited : bool then Ok (true, warnings)
  else
    let* (exited, more) := if is_client then handle_missing_protocol_warning_impl c true else Ok (false, []) in
    Ok (exited, warnings ++ more).

Section required.
Context {ssl : OpenSSL}.

Lemma release_date : tor_get_approx_release_date = Ok 1623024000.
Proof. vm_compute. reflexivity. Qed.

(** The release date is after 1970, and a GSRI has no date. *)
Lemma parse_vote_protocols (s : bytes) (type : networkstatus_type) (ns : networkstatus) : networkstatus_parse_vote_from_string s type = Ok (Some ns) ->
  valid_after ns = 0 /\ required_client_protocols ns = bs "Cons=1-2 Desc=1-2 DirCache=1 HSDir=1 HSIntro=3 HSRend=1 Link=4 Microdesc=1-2 Relay=2" /\
  required_relay_protocols ns = bs "Cons=1 Desc=1 DirCache=1 HSDir=1 HSIntro=3 HSRend=1 Link=3-4 Microdesc=1 Relay=1-2".
Proof.
  unfold networkstatus_parse_vote_from_string. intros H. destruct (networkstatus_parse_flavor_name _) as [flav|]; [|done].
  destruct (bool_decide _); [done|]. destruct (negb _); [done|]. destruct (parse_entries_loop _ _ _ _ _) as [l| |]; [|done..]. cbn [obind] in H.
  destruct (check_weights gsri_weights); [|done..]. cbn [obind] in H. injection H as <-. done.
Qed.

(** For every consensus that is read from a GSRI the check of the required protocols neither exits nor warns, as a client and as a relay: the GSRI has no date,
    and the check is skipped for a consensus from before the release date. This version does not support what such a consensus requires: of its
    requirements for clients and for relays DirCache=1 is missing. *)
Theorem gsri_requirements_ignored (s : bytes) (type : networkstatus_type) (ns : networkstatus) (server_mode any_client_port_set : bool) :
  networkstatus_parse_vote_from_string s type = Ok (Some ns) ->
  handle_missing_protocol_warning ns server_mode any_client_port_set = Ok (false, []) /\
  protover_all_supported (Some (required_client_protocols ns)) = Ok (false, Some (bs "DirCache=1")) /\
  protover_all_supported (Some (required_relay_protocols ns)) = Ok (false, Some (bs "DirCache=1")).
Proof.
  intros H. destruct (parse_vote_protocols s type ns H) as (Hv & -> & ->). split; [|split; vm_compute; reflexivity].
  assert (Hc : forall b, networkstatus_check_required_protocols ns b = Ok (false, None)) by (intros b; unfold networkstatus_check_required_protocols; rewrite release_date; cbn [obind]; by rewrite Hv).
  unfold handle_missing_protocol_warning, handle_missing_protocol_warning_impl. rewrite !Hc. by destruct server_mode, any_client_port_set.
Qed.

End required.

Theorem gsri_requirements_ignored_witness : exists ns, @networkstatus_parse_vote_from_string toy_ssl [] NS_TYPE_CONSENSUS = Ok (Some ns) /\
  handle_missing_protocol_warning ns false true = Ok (false, []) /\
  protover_all_supported (Some (required_client_protocols ns)) = Ok (false, Some (bs "DirCache=1")).
Proof.
  eexists. assert (H : @networkstatus_parse_vote_from_string toy_ssl [] NS_TYPE_CONSENSUS = Ok (Some _)) by (cbv -[toy_ssl]; reflexivity).
  split; [exact H|]. destruct (@gsri_requirements_ignored toy_ssl [] NS_TYPE_CONSENSUS _ false true H) as (H1 & H2 & _). split; [exact H1|exact H2].
Defined.
