(* ===== verification/TokenBucket.v ===== *)
(** * Token buckets: [lib/evloop/token_bucket.c], [lib/evloop/token_bucket.h]

    A token bucket limits a rate: it holds at most a burst of tokens, is refilled in proportion to the time that passed, and may
    run into debt.  The raw bucket is an [int32_t] next to a configuration of unsigned and signed 32-bit members; the arithmetic
    mixes them with [size_t] and [ssize_t], and is written out here at each width.  The theorems relate it to a bucket over the
    integers: a level that is refilled without rounding or overflow. *)
From S2P Require Import Prelude.

Definition TOKEN_BUCKET_MAX_BURST : Z := INT32_MAX.
(** Units of [monotime_coarse_to_stamp] where the clock is [clock_gettime]: nanoseconds shifted by 20. *)
Definition STAMP_TICKS_PER_SECOND : Z := 953.
Definition TICKS_PER_STEP : Z := 16.

Record token_bucket_cfg := mk_cfg { rate : Z; burst : Z }.
Record token_bucket_raw := mk_raw { bucket : Z }.

(** The assertions on [rate] and [burst] are nonfatal. *)
Definition token_bucket_cfg_init (rate burst : Z) : token_bucket_cfg :=
  let burst := if TOKEN_BUCKET_MAX_BURST <? burst then TOKEN_BUCKET_MAX_BURST else burst in
  mk_cfg rate burst.

Definition token_bucket_raw_reset (cfg : token_bucket_cfg) : token_bucket_raw := mk_raw (burst cfg).
Definition token_bucket_raw_adjust (b : token_bucket_raw) (cfg : token_bucket_cfg) : token_bucket_raw :=
  mk_raw (if burst cfg <? bucket b then burst cfg else bucket b).

(** Division by zero is undefined: [Stuck].  The sum is one of [uint32_t], converted back. *)
Definition token_bucket_raw_refill_steps (b : token_bucket_raw) (cfg : token_bucket_cfg) (elapsed : Z)
    : outcome (token_bucket_raw * bool) :=
  let was_empty := bucket b <=? 0 in
  let gap := wrap 64 (wrap 64 (burst cfg) - wrap 64 (bucket b)) in
  if rate cfg =? 0 then Stuck
  else
    let b' := if gap / rate cfg <? elapsed then burst cfg
              else to_int (bucket b + wrap 32 (rate cfg * elapsed)) in
    Ok (mk_raw b', was_empty && (0 <? b')).

(** [BUG(n < 0)] logs and goes on.  The difference is one of [ssize_t], where overflow is undefined, and is truncated. *)
Definition token_bucket_raw_dec (b : token_bucket_raw) (n : Z) : outcome (token_bucket_raw * bool) :=
  if n <? 0 then Ok (b, false)
  else
    let becomes_empty := (0 <? bucket b) && (bucket b <=? n) in
    if bucket b - n <? LONG_MIN then Stuck
    else Ok (mk_raw (to_int (bucket b - n)), becomes_empty).

Definition token_bucket_raw_get (b : token_bucket_raw) : Z := if 0 <=? bucket b then bucket b else 0.

Definition monotime_coarse_stamp_units_to_approx_msec (units : Z) : Z :=
  wrap 64 (units * 1000) / STAMP_TICKS_PER_SECOND.
Definition rate_per_sec_to_rate_per_step (rate : Z) : Z :=
  let units := wrap 64 (rate * TICKS_PER_STEP) in
  let val := wrap 32 (monotime_coarse_stamp_units_to_approx_msec units / 1000) in
  if val =? 0 then 1 else val.

(** ** A bucket to read from and one to write to *)
Record token_bucket_rw := mk_rw {
  rw_cfg : token_bucket_cfg;
  read_bucket : token_bucket_raw;
  write_bucket : token_bucket_raw;
  rw_last_refilled : Z }.

Definition token_bucket_rw_adjust (b : token_bucket_rw) (rate burst : Z) : token_bucket_rw :=
  let cfg := token_bucket_cfg_init (rate_per_sec_to_rate_per_step rate) burst in
  mk_rw cfg (token_bucket_raw_adjust (read_bucket b) cfg) (token_bucket_raw_adjust (write_bucket b) cfg) (rw_last_refilled b).
Definition token_bucket_rw_reset (b : token_bucket_rw) (now_ts : Z) : token_bucket_rw :=
  mk_rw (rw_cfg b) (token_bucket_raw_reset (rw_cfg b)) (token_bucket_raw_reset (rw_cfg b)) now_ts.
Definition token_bucket_rw_init (rate burst now_ts : Z) : token_bucket_rw :=
  token_bucket_rw_reset (token_bucket_rw_adjust (mk_rw (mk_cfg 0 0) (mk_raw 0) (mk_raw 0) 0) rate burst) now_ts.

Definition TB_READ : Z := 1.
Definition TB_WRITE : Z := 2.
Definition flag (b : bool) (f : Z) : Z := if b then f else 0.

Definition token_bucket_rw_refill (b : token_bucket_rw) (now_ts : Z) : outcome (token_bucket_rw * Z) :=
  let elapsed_ticks := wrap 32 (now_ts - rw_last_refilled b) in
  if UINT32_MAX - 300 * 1000 <? elapsed_ticks then Ok (b, 0)
  else
    let elapsed_steps := elapsed_ticks / TICKS_PER_STEP in
    if elapsed_steps =? 0 then Ok (b, 0)
    else
      let* (r, fr) := token_bucket_raw_refill_steps (read_bucket b) (rw_cfg b) elapsed_steps in
      let* (w, fw) := token_bucket_raw_refill_steps (write_bucket b) (rw_cfg b) elapsed_steps in
      Ok (mk_rw (rw_cfg b) r w now_ts, Z.lor (flag fr TB_READ) (flag fw TB_WRITE)).

Definition token_bucket_rw_dec_read (b : token_bucket_rw) (n : Z) : outcome (token_bucket_rw * bool) :=
  let* (r, f) := token_bucket_raw_dec (read_bucket b) n in
  Ok (mk_rw (rw_cfg b) r (write_bucket b) (rw_last_refilled b), f).
Definition token_bucket_rw_dec_write (b : token_bucket_rw) (n : Z) : outcome (token_bucket_rw * bool) :=
  let* (w, f) := token_bucket_raw_dec (write_bucket b) n in
  Ok (mk_rw (rw_cfg b) (read_bucket b) w (rw_last_refilled b), f).
Definition token_bucket_rw_dec (b : token_bucket_rw) (n_read n_written : Z) : outcome (token_bucket_rw * Z) :=
  let* (b, fr) := token_bucket_rw_dec_read b n_read in
  let* (b, fw) := token_bucket_rw_dec_write b n_written in
  Ok (b, Z.lor (flag fr TB_READ) (flag fw TB_WRITE)).
Definition token_bucket_rw_get_read (b : token_bucket_rw) : Z := token_bucket_raw_get (read_bucket b).
Definition token_bucket_rw_get_write (b : token_bucket_rw) : Z := token_bucket_raw_get (write_bucket b).

(** ** One bucket of events *)
Record token_bucket_ctr := mk_ctr {
  ctr_cfg : token_bucket_cfg;
  counter : token_bucket_raw;
  last_refilled_at_timestamp : Z }.

Definition token_bucket_ctr_adjust (b : token_bucket_ctr) (rate burst : Z) : token_bucket_ctr :=
  let cfg := token_bucket_cfg_init rate burst in
  mk_ctr cfg (token_bucket_raw_adjust (counter b) cfg) (last_refilled_at_timestamp b).
Definition token_bucket_ctr_reset (b : token_bucket_ctr) (now_ts : Z) : token_bucket_ctr :=
  mk_ctr (ctr_cfg b) (token_bucket_raw_reset (ctr_cfg b)) now_ts.
Definition token_bucket_ctr_zero : token_bucket_ctr := mk_ctr (mk_cfg 0 0) (mk_raw 0) 0.
Definition token_bucket_ctr_init (rate burst now_ts : Z) : token_bucket_ctr :=
  token_bucket_ctr_reset (token_bucket_ctr_adjust token_bucket_ctr_zero rate burst) now_ts.

Definition token_bucket_ctr_refill (b : token_bucket_ctr) (now_ts : Z) : outcome token_bucket_ctr :=
  let elapsed_ticks := wrap 32 (now_ts - last_refilled_at_timestamp b) in
  if UINT32_MAX - 300 * 1000 <? elapsed_ticks then Ok b
  else
    let* (c, _) := token_bucket_raw_refill_steps (counter b) (ctr_cfg b) elapsed_ticks in
    Ok (mk_ctr (ctr_cfg b) c now_ts).
Definition token_bucket_ctr_dec (b : token_bucket_ctr) (n : Z) : outcome (token_bucket_ctr * bool) :=
  let* (c, f) := token_bucket_raw_dec (counter b) n in
  Ok (mk_ctr (ctr_cfg b) c (last_refilled_at_timestamp b), f).
Definition token_bucket_ctr_get (b : token_bucket_ctr) : Z := token_bucket_raw_get (counter b).

(** ** The raw operations over the integers *)
Definition cfg_ok (cfg : token_bucket_cfg) : Prop := 0 < rate cfg <= UINT32_MAX /\ 0 <= burst cfg <= INT32_MAX.
Definition raw_ok (cfg : token_bucket_cfg) (b : token_bucket_raw) : Prop := INT32_MIN <= bucket b <= burst cfg.

Ltac tb_lia := unfold cfg_ok, raw_ok, TOKEN_BUCKET_MAX_BURST, UINT32_MAX, INT32_MIN, INT32_MAX, LONG_MIN in *; cbn [bucket rate burst] in *; lia.

Lemma cfg_init_ok (r b : Z) : 0 < r <= UINT32_MAX -> 0 <= b -> cfg_ok (token_bucket_cfg_init r b).
Proof. unfold token_bucket_cfg_init. intros. cases_b; tb_lia. Qed.

Lemma raw_adjust_ok (b : token_bucket_raw) (cfg cfg' : token_bucket_cfg) : raw_ok cfg b -> 0 <= burst cfg' ->
  raw_ok cfg' (token_bucket_raw_adjust b cfg').
Proof. unfold token_bucket_raw_adjust. intros. cases_b; tb_lia. Qed.

Lemma to_int_wrap (a z : Z) : to_int (a + wrap 32 z) = to_int (a + z).
Proof. unfold to_int, wrap. by rewrite Zplus_mod_idemp_r. Qed.

(** The room in the bucket, computed in [size_t], is the true one. *)
Lemma gap_exact (cfg : token_bucket_cfg) (b : token_bucket_raw) : cfg_ok cfg -> raw_ok cfg b ->
  wrap 64 (wrap 64 (burst cfg) - wrap 64 (bucket b)) = burst cfg - bucket b.
Proof. unfold wrap. intros H1 H2. rewrite <- Zminus_mod. apply Z.mod_small. tb_lia. Qed.

(** A refill is a saturating addition. *)
Lemma raw_refill_spec (cfg : token_bucket_cfg) (b : token_bucket_raw) (elapsed : Z) :
  cfg_ok cfg -> raw_ok cfg b -> 0 <= elapsed ->
  exists b' f, token_bucket_raw_refill_steps b cfg elapsed = Ok (b', f) /\
    bucket b' = Z.min (burst cfg) (bucket b + rate cfg * elapsed) /\ f = (bucket b <=? 0) && (0 <? bucket b') /\ raw_ok cfg b'.
Proof.
  intros Hc Hb He. pose proof Hc as [Hr _].
  unfold token_bucket_raw_refill_steps. rewrite gap_exact, to_int_wrap by done.
  rewrite (proj2 (Z.eqb_neq _ 0)) by lia. eexists _, _. split; [done|].
  pose proof (Z.mul_div_le (burst cfg - bucket b) (rate cfg) ltac:(lia)) as Hle.
  pose proof (Z.mul_succ_div_gt (burst cfg - bucket b) (rate cfg) ltac:(lia)) as Hgt.
  unfold raw_ok. cbn [bucket]. destruct (Z.ltb_spec ((burst cfg - bucket b) / rate cfg) elapsed) as [H|H].
  - assert (burst cfg - bucket b < rate cfg * elapsed) by nia. split; [lia|split; [done|tb_lia]].
  - assert (0 <= rate cfg * elapsed <= burst cfg - bucket b) by nia.
    rewrite to_int_small by tb_lia. split; [lia|split; [done|tb_lia]].
Qed.

(** A withdrawal is exact as long as the debt fits. *)
Lemma raw_dec_spec (cfg : token_bucket_cfg) (b : token_bucket_raw) (n : Z) : cfg_ok cfg -> raw_ok cfg b -> 0 <= n -> INT32_MIN <= bucket b - n ->
  exists b', token_bucket_raw_dec b n = Ok (b', (0 <? bucket b) && (bucket b' <=? 0)) /\ bucket b' = bucket b - n /\ raw_ok cfg b'.
Proof.
  intros Hc Hb Hn Hm. unfold token_bucket_raw_dec. rewrite (proj2 (Z.ltb_ge n 0)) by lia.
  rewrite (proj2 (Z.ltb_ge _ LONG_MIN)) by tb_lia. rewrite to_int_small by tb_lia.
  exists (mk_raw (bucket b - n)). split; [|split; [done|tb_lia]]. do 3 f_equal. cbn [bucket]. destruct (Z.leb_spec (bucket b) n), (Z.leb_spec (bucket b - n) 0); lia.
Qed.

(** A new counter is full. *)
Lemma ctr_init_full (r b t : Z) : token_bucket_ctr_init r b t = mk_ctr (mk_cfg r (Z.min INT32_MAX b)) (mk_raw (Z.min INT32_MAX b)) t.
Proof.
  unfold token_bucket_ctr_init, token_bucket_ctr_reset, token_bucket_raw_reset, token_bucket_ctr_adjust, token_bucket_cfg_init, TOKEN_BUCKET_MAX_BURST. cbn [ctr_cfg burst].
  rewrite Z.min_comm. unfold Z.min. destruct (Z.ltb_spec INT32_MAX b), (Z.compare_spec b INT32_MAX); by (lia || (subst; done) || (f_equal; f_equal; lia)).
Qed.

(** ** Runs of a counter, and the bucket that they implement *)
Inductive tb_event := Refill (now : Z) | Take (n : Z).

(** Time is an integer here; the timestamp that the code is given is its low 32 bits. *)
Definition ctr_step (b : token_bucket_ctr) (e : tb_event) : outcome token_bucket_ctr :=
  match e with
  | Refill now => token_bucket_ctr_refill b (wrap 32 now)
  | Take n => let* (b, _) := token_bucket_ctr_dec b n in Ok b
  end.
Fixpoint ctr_run (b : token_bucket_ctr) (l : list tb_event) : outcome token_bucket_ctr :=
  match l with [] => Ok b | e :: l => let* b := ctr_step b e in ctr_run b l end.

Record level := mk_level { tokens : Z; as_of : Z }.
Definition level_step (cfg : token_bucket_cfg) (v : level) (e : tb_event) : level :=
  match e with
  | Refill now => mk_level (Z.min (burst cfg) (tokens v + rate cfg * (now - as_of v))) now
  | Take n => mk_level (tokens v - n) (as_of v)
  end.
Definition level_run (cfg : token_bucket_cfg) (v : level) (l : list tb_event) : level := fold_left (level_step cfg) l v.

(** Time does not go back, a pause is shorter than the 32 bits of a timestamp less 300000, and no debt exceeds 2^31. *)
Definition event_ok (v : level) (e : tb_event) : Prop :=
  match e with
  | Refill now => as_of v <= now <= as_of v + (UINT32_MAX - 300 * 1000)
  | Take n => 0 <= n /\ INT32_MIN <= tokens v - n
  end.
Fixpoint events_ok (cfg : token_bucket_cfg) (v : level) (l : list tb_event) : Prop :=
  match l with [] => True | e :: l => event_ok v e /\ events_ok cfg (level_step cfg v e) l end.

Fixpoint taken (l : list tb_event) : Z :=
  match l with [] => 0 | Take n :: l => n + taken l | Refill _ :: l => taken l end.

(** The counter shows the level [v]. *)
Definition shows (cfg : token_bucket_cfg) (b : token_bucket_ctr) (v : level) : Prop :=
  ctr_cfg b = cfg /\ bucket (counter b) = tokens v /\ last_refilled_at_timestamp b = wrap 32 (as_of v) /\ raw_ok cfg (counter b).

Lemma elapsed_exact (t t' : Z) : t <= t' <= t + UINT32_MAX -> wrap 32 (wrap 32 t' - wrap 32 t) = t' - t.
Proof. unfold wrap, UINT32_MAX. intros. rewrite <- Zminus_mod. apply Z.mod_small. lia. Qed.

Lemma elapsed_back (t t' : Z) : t - UINT32_MAX <= t' < t -> wrap 32 (wrap 32 t' - wrap 32 t) = 2 ^ 32 + (t' - t).
Proof. unfold wrap, UINT32_MAX. intros. rewrite <- Zminus_mod. symmetry. apply (Z.mod_unique_pos _ _ (-1)); lia. Qed.

Lemma ctr_refill_spec (cfg : token_bucket_cfg) (b : token_bucket_ctr) (v : level) (now : Z) : cfg_ok cfg -> shows cfg b v -> event_ok v (Refill now) ->
  exists b', token_bucket_ctr_refill b (wrap 32 now) = Ok b' /\ shows cfg b' (level_step cfg v (Refill now)).
Proof.
  intros Hc (<- & Hb & Ht & Hr) Hn. cbn [event_ok] in Hn. unfold token_bucket_ctr_refill. rewrite Ht, elapsed_exact by tb_lia.
  rewrite (proj2 (Z.ltb_ge _ _)) by lia.
  destruct (raw_refill_spec (ctr_cfg b) (counter b) (now - as_of v) Hc Hr ltac:(lia)) as (c & f & -> & Hbc & _ & Hok).
  eexists. split; [reflexivity|]. split; [done|]. cbn. rewrite Hbc, Hb. done.
Qed.

Lemma ctr_dec_spec (cfg : token_bucket_cfg) (b : token_bucket_ctr) (v : level) (n : Z) : cfg_ok cfg -> shows cfg b v -> event_ok v (Take n) ->
  exists b' f, token_bucket_ctr_dec b n = Ok (b', f) /\ shows cfg b' (level_step cfg v (Take n)).
Proof.
  intros Hc (<- & Hb & Ht & Hr) [Hn Hm]. unfold token_bucket_ctr_dec. rewrite <- Hb in Hm.
  destruct (raw_dec_spec (ctr_cfg b) (counter b) n Hc Hr Hn Hm) as (c & -> & Hbc & Hok).
  eexists _, _. split; [reflexivity|]. split; [done|]. cbn. by rewrite Hbc, Hb.
Qed.

Lemma level_run_bound (cfg : token_bucket_cfg) (l : list tb_event) : forall v, tokens (level_run cfg v l) + taken l <= tokens v + rate cfg * (as_of (level_run cfg v l) - as_of v).
Proof.
  induction l as [|e l IH]; intros v; [cbn; lia|]. specialize (IH (level_step cfg v e)).
  change (level_run cfg v (e :: l)) with (level_run cfg (level_step cfg v e) l). destruct (level_run cfg (level_step cfg v e) l) as [a t].
  destruct e; cbn in *; lia.
Qed.

(** C28: The counter of a token bucket, with its 32-bit timestamps, its [int32_t] level and the mixed signed and unsigned arithmetic of its refill, is the
    token bucket over the integers, as long as it is used within bounds: the rate is positive, the clock does not go back, no pause exceeds the 32 bits of
    a timestamp less 300000, and no withdrawal makes the debt exceed 2^31. After every such run of refills and withdrawals, no step of which is undefined,
    it is at the level that is refilled at the rate, without rounding, up to the burst. Hence what is taken out of it never exceeds what it held at first
    plus the rate times the time that passed, less what it holds at the end. (A rate of 0 divides by zero, and a larger debt wraps around.) *)
Theorem token_bucket_ctr_refines (cfg : token_bucket_cfg) (l : list tb_event) (b : token_bucket_ctr) (v : level) :
  cfg_ok cfg -> shows cfg b v -> events_ok cfg v l ->
  exists b', ctr_run b l = Ok b' /\ shows cfg b' (level_run cfg v l) /\
    bucket (counter b') + taken l <= bucket (counter b) + rate cfg * (as_of (level_run cfg v l) - as_of v).
Proof.
  intros Hc Hs Hl. assert (Hrun : exists b', ctr_run b l = Ok b' /\ shows cfg b' (level_run cfg v l)).
  { revert b v Hs Hl. induction l as [|e l IH]; intros b v Hs Hl; [by exists b|]. destruct Hl as [He Hl]. cbn [ctr_run]. destruct e as [now|n]; cbn [ctr_step].
    - destruct (ctr_refill_spec cfg b v now Hc Hs He) as (b1 & -> & Hs1). exact (IH b1 _ Hs1 Hl).
    - destruct (ctr_dec_spec cfg b v n Hc Hs He) as (b1 & f & -> & Hs1). exact (IH b1 _ Hs1 Hl). }
  destruct Hrun as (b' & Hr & Hs'). exists b'. split; [done|split; [done|]]. pose proof (level_run_bound cfg l v).
  destruct Hs as (_ & -> & _), Hs' as (_ & -> & _). lia.
Qed.

(** A bucket of 3 tokens per second and a burst of 10 that wraps its timestamp. *)
Lemma token_bucket_ctr_refines_witness :
  exists b', ctr_run (mk_ctr (mk_cfg 3 10) (mk_raw 4) 4294967295) [Take 5; Refill 4294967297; Take 2; Refill 4294967300] = Ok b' /\
    shows (mk_cfg 3 10) b' (mk_level 10 4294967300) /\ bucket (counter b') + 7 <= 4 + 3 * 5.
Proof.
  refine (token_bucket_ctr_refines (mk_cfg 3 10) [Take 5; Refill 4294967297; Take 2; Refill 4294967300]
    (mk_ctr (mk_cfg 3 10) (mk_raw 4) 4294967295) (mk_level 4 4294967295) _ _ _); [by vm_compute|by repeat split|by vm_compute].
Defined.

(** Past that the debt wraps: one withdrawal of 2^31 from a bucket that owes one token fills it. *)
Lemma raw_dec_wraps : token_bucket_raw_dec (mk_raw (-1)) 2147483648 = Ok (mk_raw 2147483647, false).
Proof. reflexivity. Qed.

(** ** The pair of buckets of a connection *)
Definition rw_ok (b : token_bucket_rw) : Prop := cfg_ok (rw_cfg b) /\ raw_ok (rw_cfg b) (read_bucket b) /\ raw_ok (rw_cfg b) (write_bucket b).

(** Both divisions of the conversion together round down once. *)
Lemma rate_per_step_exact (r : Z) : 0 <= r <= UINT32_MAX -> rate_per_sec_to_rate_per_step r = Z.max 1 (r * 16 / 953).
Proof.
  unfold UINT32_MAX. intros Hr. unfold rate_per_sec_to_rate_per_step, monotime_coarse_stamp_units_to_approx_msec, STAMP_TICKS_PER_SECOND, TICKS_PER_STEP, wrap.
  rewrite (Z.mod_small (r * 16)), (Z.mod_small (r * 16 * 1000)) by lia.
  rewrite Z.div_div, (Z.mul_comm 953 1000), <- Z.div_div, Z.div_mul by lia.
  rewrite Z.mod_small by dlia. cases_b; dlia.
Qed.

Lemma rw_init_ok (r b now : Z) : 0 < r <= UINT32_MAX -> 0 <= b -> rw_ok (token_bucket_rw_init r b now).
Proof.
  intros Hr Hb. assert (Hc : cfg_ok (token_bucket_cfg_init (rate_per_sec_to_rate_per_step r) b)).
  { apply cfg_init_ok; [|done]. rewrite rate_per_step_exact by tb_lia. unfold UINT32_MAX in *. dlia. }
  split; [exact Hc|]. cbn [token_bucket_rw_init token_bucket_rw_reset token_bucket_rw_adjust rw_cfg read_bucket write_bucket].
  unfold token_bucket_raw_reset, raw_ok, cfg_ok in *. cbn [bucket]. unfold INT32_MIN. lia.
Qed.

Definition rw_flags (b b' : token_bucket_rw) : Z :=
  Z.lor (flag ((bucket (read_bucket b) <=? 0) && (0 <? bucket (read_bucket b'))) TB_READ)
        (flag ((bucket (write_bucket b) <=? 0) && (0 <? bucket (write_bucket b'))) TB_WRITE).

(** A refill of the read and write buckets of a connection adds to each the rate per step times the whole steps that
    passed, up to the burst, and returns which of them stopped being empty; less than one step, or a clock that went back by up to 300000
    ticks, changes nothing. For a pair configured with at least 60 bytes a second, the bytes added are at most that rate times
    the time that passed, in stamps of 1/953 of a second; below, it is 60 bytes a second that bounds them. *)
Theorem token_bucket_rw_refill_correct (b : token_bucket_rw) (r t now : Z) :
  rw_ok b -> 0 < r <= UINT32_MAX -> rate (rw_cfg b) = rate_per_sec_to_rate_per_step r -> rw_last_refilled b = wrap 32 t ->
  - (300 * 1000) <= now - t <= UINT32_MAX - 300 * 1000 ->
  exists b' f, token_bucket_rw_refill b (wrap 32 now) = Ok (b', f) /\ rw_ok b' /\
    (now - t < 16 -> b' = b /\ f = 0) /\
    (16 <= now - t ->
       bucket (read_bucket b') = Z.min (burst (rw_cfg b)) (bucket (read_bucket b) + rate (rw_cfg b) * ((now - t) / 16)) /\
       bucket (write_bucket b') = Z.min (burst (rw_cfg b)) (bucket (write_bucket b) + rate (rw_cfg b) * ((now - t) / 16)) /\
       rw_cfg b' = rw_cfg b /\ rw_last_refilled b' = wrap 32 now /\ f = rw_flags b b' /\
       953 * (bucket (read_bucket b') - bucket (read_bucket b)) <= Z.max 60 r * (now - t)).
Proof.
  intros (Hc & Hrd & Hwr) Hr Hrate Ht Hn. unfold token_bucket_rw_refill. rewrite Ht. unfold TICKS_PER_STEP.
  destruct (Z.ltb_spec now t) as [Hb|Hf].
  { rewrite elapsed_back by tb_lia. rewrite (proj2 (Z.ltb_lt _ _)) by tb_lia.
    exists b, 0. split; [done|split; [done|split; [done|intros; exfalso; lia]]]. }
  rewrite elapsed_exact by tb_lia. rewrite (proj2 (Z.ltb_ge _ _)) by lia.
  destruct (Z.eqb_spec ((now - t) / 16) 0) as [H0|H0].
  { exists b, 0. split; [done|split; [done|split; [done|intros; exfalso; dlia]]]. }
  assert (16 <= now - t) by dlia.
  destruct (raw_refill_spec _ _ ((now - t) / 16) Hc Hrd ltac:(dlia)) as (r1 & f1 & -> & Hr1 & -> & Hok1).
  destruct (raw_refill_spec _ _ ((now - t) / 16) Hc Hwr ltac:(dlia)) as (w1 & f2 & -> & Hw1 & -> & Hok2). cbn [obind].
  eexists _, _. split; [reflexivity|]. split; [exact (conj Hc (conj Hok1 Hok2))|]. split; [intros; exfalso; lia|]. intros _. cbn [read_bucket write_bucket rw_cfg rw_last_refilled].
  split; [done|split; [done|split; [done|split; [done|split; [done|]]]]].
  rewrite Hr1, Hrate, rate_per_step_exact by tb_lia. clear -Hr H.
  assert (953 * Z.max 1 (r * 16 / 953) <= 16 * Z.max 60 r) by dlia. assert (16 * ((now - t) / 16) <= now - t) by dlia. assert (0 < (now - t) / 16) by dlia.
  generalize dependent (Z.max 1 (r * 16 / 953)). generalize dependent ((now - t) / 16). intros k Hk Hk0 m Hm. nia.
Qed.

Lemma token_bucket_rw_refill_correct_witness :
  exists b' f, token_bucket_rw_refill (mk_rw (mk_cfg 16 1000) (mk_raw (-20)) (mk_raw 990) 4294967295) 49 = Ok (b', f) /\ rw_ok b' /\ f = TB_READ /\ bucket (read_bucket b') = 28.
Proof.
  destruct (token_bucket_rw_refill_correct (mk_rw (mk_cfg 16 1000) (mk_raw (-20)) (mk_raw 990) 4294967295) 1000 4294967295 (4294967296 + 49))
    as (b' & f & E & Hok & _ & H); [by vm_compute|by vm_compute|by vm_compute|by vm_compute|by vm_compute|].
  exists b', f. change (wrap 32 (4294967296 + 49)) with 49 in E. split; [exact E|split; [exact Hok|]].
  vm_compute in E. injection E as <- <-. by vm_compute.
Defined.
