(* ===== verification/CellExtensions.v ===== *)
(** * Extensions of onion service cells: [trunnel/hs/cell_common.c], [trunnel/hs/cell_establish_intro.c]

    The list of extensions of an ESTABLISH_INTRO cell and the extension that carries the parameters of the introduction
    point's rate limit: objects, setters, checks, encoders and parsers with their error codes. An object that refers to others
    (the elements of a dynamic array) holds them; allocation does not fail. The encoders return their result and
    what they have written; the parsers their result and, when it is not negative, the object. *)
From S2P Require Import Prelude ParseInt Endian.

(** ** Arrays of objects *)
Section arrays.
Context {A : Type} (encode : Z -> A -> outcome (Z * bytes)) (parse : bytes -> outcome (Z * option A)).

(** The loops over the elements that trunnel writes out for each array: [avail] is the room left at the first of them. *)
Fixpoint encode_elements (avail : Z) (l : list A) : outcome (Z * bytes) :=
  match l with
  | [] => Ok (0, [])
  | x :: l =>
      tor_assert (0 <=? avail) (
      let* (result, out) := encode avail x in
      if result <? 0 then Ok (result, out)
      else
        let* (r, more) := encode_elements (avail - result) l in
        Ok (if r <? 0 then r else result + r, out ++ more))
  end.

(** The negative result of the element that fails, or the elements and the rest of the input. *)
Fixpoint parse_elements (n : nat) (ptr : bytes) : outcome (Z + list A * bytes) :=
  match n with
  | O => Ok (inr ([], ptr))
  | S n =>
      let* (result, elt) := parse ptr in
      if result <? 0 then Ok (inl result)
      else
        tor_assert (result <=? zlen ptr) (
        let* elt := get elt in
        let* rest := parse_elements n (drop (Z.to_nat result) ptr) in
        Ok (match rest with inl e => inl e | inr (l, p) => inr (elt :: l, p) end))
  end.
End arrays.

(** ** A parameter of the extension for rate limits *)
Record dos_param := mk_param { type : Z; value : Z; param_error : bool }.

Definition trn_cell_extension_dos_param_new : dos_param := mk_param 0 0 false.
Definition trn_cell_extension_dos_param_set_type (inp : dos_param) (val : Z) : dos_param := mk_param val (value inp) (param_error inp).
Definition trn_cell_extension_dos_param_set_value (inp : dos_param) (val : Z) : dos_param := mk_param (type inp) val (param_error inp).

Definition set_failed : bytes := bs "A set function failed on this object".
Definition trn_cell_extension_dos_param_check (obj : option dos_param) : option bytes :=
  match obj with
  | None => Some (bs "Object was NULL")
  | Some obj => if param_error obj then Some set_failed else None
  end.
Definition trn_cell_extension_dos_param_encoded_len (obj : dos_param) : Z :=
  match trn_cell_extension_dos_param_check (Some obj) with Some _ => -1 | None => 0 + 1 + 8 end.
Definition trn_cell_extension_dos_param_encode (avail : Z) (obj : dos_param) : outcome (Z * bytes) :=
  match trn_cell_extension_dos_param_check (Some obj) with
  | Some _ => Ok (-1, [])
  | None =>
      tor_assert (0 <=? avail) (
      if avail - 0 <? 1 then Ok (-2, [])
      else if avail - 1 <? 8 then Ok (-2, set_uint8 (type obj))
      else Ok (9, set_uint8 (type obj) ++ be_bytes 8 (value obj)))
  end.
Definition trn_cell_extension_dos_param_parse (input : bytes) : outcome (Z * option dos_param) :=
  let remaining := zlen input in
  if remaining <? 1 then Ok (-2, None)
  else
    let* t := get_uint8 input in
    let ptr := drop 1 input in
    let remaining := remaining - 1 in
    if remaining <? 8 then Ok (-2, None)
    else
      let* v := get_be 8 ptr in
      let remaining := remaining - 8 in
      Ok (zlen input - remaining, Some (mk_param t v false)).

(** ** The extension for rate limits *)
Record dos_extension := mk_dos { n_params : Z; params : list dos_param; dos_error : bool }.

Definition trn_cell_extension_dos_new : dos_extension := mk_dos 0 [] false.
Definition trn_cell_extension_dos_set_n_params (inp : dos_extension) (val : Z) : dos_extension := mk_dos val (params inp) (dos_error inp).
Definition trn_cell_extension_dos_get_n_params (inp : dos_extension) : Z := n_params inp.
(** Reading past the array is undefined. *)
Definition trn_cell_extension_dos_getconst_params (inp : dos_extension) (idx : Z) : outcome dos_param := get (aget (params inp) idx).
Definition trn_cell_extension_dos_add_params (inp : dos_extension) (elt : dos_param) : dos_extension * Z :=
  if zlen (params inp) =? 255 then (mk_dos (n_params inp) (params inp) true, -1)
  else (mk_dos (n_params inp) (params inp ++ [elt]) (dos_error inp), 0).

Fixpoint first_message {A} (check : option A -> option bytes) (l : list A) : option bytes :=
  match l with
  | [] => None
  | x :: l => match check (Some x) with Some msg => Some msg | None => first_message check l end
  end.

Definition trn_cell_extension_dos_check (obj : option dos_extension) : option bytes :=
  match obj with
  | None => Some (bs "Object was NULL")
  | Some obj =>
      if dos_error obj then Some set_failed
      else
        match first_message trn_cell_extension_dos_param_check (params obj) with
        | Some msg => Some msg
        | None => if zlen (params obj) =? n_params obj then None else Some (bs "Length mismatch for params")
        end
  end.
Definition trn_cell_extension_dos_encoded_len (obj : dos_extension) : Z :=
  match trn_cell_extension_dos_check (Some obj) with
  | Some _ => -1
  | None => fold_left (fun result p => result + trn_cell_extension_dos_param_encoded_len p) (params obj) (0 + 1)
  end.
Definition trn_cell_extension_dos_encode (avail : Z) (obj : dos_extension) : outcome (Z * bytes) :=
  match trn_cell_extension_dos_check (Some obj) with
  | Some _ => Ok (-1, [])
  | None =>
      tor_assert (0 <=? avail) (
      if avail - 0 <? 1 then Ok (-2, [])
      else
        let* (r, more) := encode_elements trn_cell_extension_dos_param_encode (avail - 1) (params obj) in
        Ok (if r <? 0 then r else 1 + r, set_uint8 (n_params obj) ++ more))
  end.
Definition trn_cell_extension_dos_parse (input : bytes) : outcome (Z * option dos_extension) :=
  let remaining := zlen input in
  if remaining <? 1 then Ok (-2, None)
  else
    let* n := get_uint8 input in
    let* r := parse_elements trn_cell_extension_dos_param_parse (Z.to_nat n) (drop 1 input) in
    match r with
    | inl result => Ok (result, None)
    | inr (l, ptr) => Ok (zlen input - zlen ptr, Some (mk_dos n l false))
    end.

(** ** One extension: a type and bytes *)
Record ext_field := mk_field { field_type : Z; field_len : Z; field : bytes; field_error : bool }.

Definition trn_cell_extension_field_new : ext_field := mk_field 0 0 [] false.
Definition trn_cell_extension_field_set_field_type (inp : ext_field) (val : Z) : ext_field := mk_field val (field_len inp) (field inp) (field_error inp).
Definition trn_cell_extension_field_get_field_type (inp : ext_field) : Z := field_type inp.
(** The parameter of the setter is a [uint8_t]. *)
Definition trn_cell_extension_field_set_field_len (inp : ext_field) (val : Z) : ext_field := mk_field (field_type inp) (wrap 8 val) (field inp) (field_error inp).
(** Bytes are cut off or zero bytes added. *)
Definition trn_cell_extension_field_setlen_field (inp : ext_field) (newlen : Z) : ext_field * Z :=
  if 255 <? newlen then (mk_field (field_type inp) (field_len inp) (field inp) true, -1)
  else (mk_field (field_type inp) (field_len inp)
          (take (Z.to_nat newlen) (field inp) ++ replicate (Z.to_nat newlen - length (field inp)) NUL) (field_error inp), 0).
(** What a caller does to the array that [trn_cell_extension_field_getarray_field] gives it: bytes written at its start. *)
Definition field_write (inp : ext_field) (s : bytes) : outcome ext_field :=
  if (length (field inp) <? length s)%nat then Stuck
  else Ok (mk_field (field_type inp) (field_len inp) (s ++ drop (length s) (field inp)) (field_error inp)).

Definition trn_cell_extension_field_check (obj : option ext_field) : option bytes :=
  match obj with
  | None => Some (bs "Object was NULL")
  | Some obj =>
      if field_error obj then Some set_failed
      else if zlen (field obj) =? field_len obj then None else Some (bs "Length mismatch for field")
  end.
Definition trn_cell_extension_field_encoded_len (obj : ext_field) : Z :=
  match trn_cell_extension_field_check (Some obj) with Some _ => -1 | None => 0 + 1 + 1 + zlen (field obj) end.
Definition trn_cell_extension_field_encode (avail : Z) (obj : ext_field) : outcome (Z * bytes) :=
  match trn_cell_extension_field_check (Some obj) with
  | Some _ => Ok (-1, [])
  | None =>
      tor_assert (0 <=? avail) (
      if avail - 0 <? 1 then Ok (-2, [])
      else if avail - 1 <? 1 then Ok (-2, set_uint8 (field_type obj))
      else
        let out := set_uint8 (field_type obj) ++ set_uint8 (field_len obj) in
        tor_assert (field_len obj =? zlen (field obj)) (
        if avail - 2 <? zlen (field obj) then Ok (-2, out)
        else Ok (2 + zlen (field obj), out ++ field obj)))
  end.
Definition trn_cell_extension_field_parse (input : bytes) : outcome (Z * option ext_field) :=
  let remaining := zlen input in
  if remaining <? 1 then Ok (-2, None)
  else
    let* t := get_uint8 input in
    let remaining := remaining - 1 in
    if remaining <? 1 then Ok (-2, None)
    else
      let* n := get_uint8 (drop 1 input) in
      let remaining := remaining - 1 in
      if remaining <? n then Ok (-2, None)
      else
        let remaining := remaining - n in
        Ok (zlen input - remaining, Some (mk_field t n (take (Z.to_nat n) (drop 2 input)) false)).

(** ** The list of extensions of a cell *)
Record cell_extension := mk_ext { num : Z; fields : list ext_field; ext_error : bool }.

Definition trn_cell_extension_new : cell_extension := mk_ext 0 [] false.
Definition trn_cell_extension_get_num (inp : cell_extension) : Z := num inp.
Definition trn_cell_extension_set_num (inp : cell_extension) (val : Z) : cell_extension := mk_ext (wrap 8 val) (fields inp) (ext_error inp).
Definition trn_cell_extension_getconst_fields (inp : cell_extension) (idx : Z) : outcome ext_field := get (aget (fields inp) idx).
Definition trn_cell_extension_add_fields (inp : cell_extension) (elt : ext_field) : cell_extension * Z :=
  if zlen (fields inp) =? 255 then (mk_ext (num inp) (fields inp) true, -1)
  else (mk_ext (num inp) (fields inp ++ [elt]) (ext_error inp), 0).
Definition trn_cell_extension_check (obj : option cell_extension) : option bytes :=
  match obj with
  | None => Some (bs "Object was NULL")
  | Some obj =>
      if ext_error obj then Some set_failed
      else
        match first_message trn_cell_extension_field_check (fields obj) with
        | Some msg => Some msg
        | None => if zlen (fields obj) =? num obj then None else Some (bs "Length mismatch for fields")
        end
  end.
Definition trn_cell_extension_encoded_len (obj : cell_extension) : Z :=
  match trn_cell_extension_check (Some obj) with
  | Some _ => -1
  | None => fold_left (fun result f => result + trn_cell_extension_field_encoded_len f) (fields obj) (0 + 1)
  end.
Definition trn_cell_extension_encode (avail : Z) (obj : cell_extension) : outcome (Z * bytes) :=
  match trn_cell_extension_check (Some obj) with
  | Some _ => Ok (-1, [])
  | None =>
      tor_assert (0 <=? avail) (
      if avail - 0 <? 1 then Ok (-2, [])
      else
        let* (r, more) := encode_elements trn_cell_extension_field_encode (avail - 1) (fields obj) in
        Ok (if r <? 0 then r else 1 + r, set_uint8 (num obj) ++ more))
  end.
Definition trn_cell_extension_parse (input : bytes) : outcome (Z * option cell_extension) :=
  let remaining := zlen input in
  if remaining <? 1 then Ok (-2, None)
  else
    let* n := get_uint8 input in
    let* r := parse_elements trn_cell_extension_field_parse (Z.to_nat n) (drop 1 input) in
    match r with
    | inl result => Ok (result, None)
    | inr (l, ptr) => Ok (zlen input - zlen ptr, Some (mk_ext n l false))
    end.

(** ** The contract of an encoder and its parser *)
Class Codec (A : Type) := {
  cd_encode : Z -> A -> outcome (Z * bytes);
  cd_parse : bytes -> outcome (Z * option A);
  cd_text : A -> bytes;
  cd_wf : A -> Prop;
  cd_encode_ok (avail : Z) (x : A) : cd_wf x -> zlen (cd_text x) <= avail -> cd_encode avail x = Ok (zlen (cd_text x), cd_text x);
  cd_parse_ok (x : A) (rest : bytes) : cd_wf x -> cd_parse (cd_text x ++ rest) = Ok (zlen (cd_text x), Some x);
  cd_parse_total (s : bytes) : (exists r, r < 0 /\ cd_parse s = Ok (r, None)) \/
    (exists x rest, cd_wf x /\ s = cd_text x ++ rest /\ cd_parse s = Ok (zlen (cd_text x), Some x))
}.

(** An array of objects with a contract. *)
Section array_codec.
Context {A : Type} {C : Codec A}.

Definition array_text (l : list A) : bytes := concat (map cd_text l).

Lemma encode_elements_ok (l : list A) : forall avail, Forall cd_wf l -> zlen (array_text l) <= avail ->
  encode_elements cd_encode avail l = Ok (zlen (array_text l), array_text l).
Proof.
  induction l as [|x l IH]; intros avail Hw Hl; [done|]. inversion Hw as [|? ? Hx Hw']; subst.
  unfold array_text in *. cbn [map concat encode_elements] in *. rewrite zlen_app in *. pose proof (zlen_nonneg (cd_text x)). pose proof (zlen_nonneg (concat (map cd_text l))).
  rewrite (proj2 (Z.leb_le 0 avail)) by lia. cbn [tor_assert]. rewrite cd_encode_ok by (done || lia). cbn [obind].
  rewrite (proj2 (Z.ltb_ge _ 0)) by lia. rewrite IH by (done || lia). cbn [obind]. by rewrite (proj2 (Z.ltb_ge _ 0)) by lia.
Qed.

Lemma parse_elements_ok (l : list A) (rest : bytes) : Forall cd_wf l ->
  parse_elements cd_parse (length l) (array_text l ++ rest) = Ok (inr (l, rest)).
Proof.
  induction l as [|x l IH]; intros Hw; [done|]. inversion Hw as [|? ? Hx Hw']; subst.
  unfold array_text in *. cbn [map concat length parse_elements]. rewrite <- app_assoc, cd_parse_ok by done. cbn [obind].
  pose proof (zlen_nonneg (cd_text x)). rewrite (proj2 (Z.ltb_ge _ 0)) by lia.
  rewrite (proj2 (Z.leb_le _ _)) by (rewrite zlen_app; pose proof (zlen_nonneg (concat (map cd_text l) ++ rest)); lia).
  cbn [tor_assert get obind]. unfold zlen. rewrite Nat2Z.id, drop_app_length. by rewrite IH.
Qed.

Lemma parse_elements_total (n : nat) : forall s, (exists r, r < 0 /\ parse_elements cd_parse n s = Ok (inl r)) \/
  (exists l rest, Forall cd_wf l /\ length l = n /\ s = array_text l ++ rest /\ parse_elements cd_parse n s = Ok (inr (l, rest))).
Proof.
  induction n as [|n IH]; intros s; [right; by exists [], s|]. cbn [parse_elements].
  destruct (cd_parse_total s) as [(r & Hr & ->)|(x & rest & Hx & -> & ->)]; cbn [obind].
  { left. exists r. split; [done|]. by rewrite (proj2 (Z.ltb_lt _ _)). }
  pose proof (zlen_nonneg (cd_text x)). rewrite (proj2 (Z.ltb_ge _ 0)) by lia.
  rewrite (proj2 (Z.leb_le _ _)) by (rewrite zlen_app; pose proof (zlen_nonneg rest); lia). cbn [tor_assert get obind].
  unfold zlen at 1 2. rewrite Nat2Z.id, drop_app_length. destruct (IH rest) as [(r & Hr & ->)|(l & rest' & Hl & Hn & -> & ->)]; cbn [obind].
  - left. by exists r.
  - right. exists (x :: l), rest'. split; [by constructor|]. split; [cbn; lia|]. split; [|done]. unfold array_text. cbn. by rewrite <- app_assoc.
Qed.
End array_codec.

(** Integers at the front of an input. *)
Lemma get_uint8_app (v : Z) (rest : bytes) : 0 <= v < 256 -> get_uint8 (set_uint8 v ++ rest) = Ok v.
Proof. intros. by apply get_be_app. Qed.
Lemma drop_uint8 (v : Z) (rest : bytes) : drop 1 (set_uint8 v ++ rest) = rest.
Proof. reflexivity. Qed.
Lemma drop2_uint8 (v w : Z) (rest : bytes) : drop 2 (set_uint8 v ++ set_uint8 w ++ rest) = rest.
Proof. reflexivity. Qed.
Lemma zlen_be_bytes (n : nat) (v : Z) : zlen (be_bytes n v) = Z.of_nat n.
Proof. unfold zlen. by rewrite be_bytes_length. Qed.
Lemma read_uint8 (s : bytes) : 1 <= zlen s -> exists v rest, 0 <= v < 256 /\ s = set_uint8 v ++ rest.
Proof.
  intros H. destruct (get_be_split 1 s) as (v & _ & Hv & ->); [unfold zlen in H; lia|]. by exists v, (drop 1 s).
Qed.

Ltac zl := unfold set_uint8 in *; rewrite ?zlen_app, ?zlen_be_bytes in *; repeat match goal with
  | |- context[zlen ?s] => lazymatch goal with H : 0 <= zlen s |- _ => fail | _ => pose proof (zlen_nonneg s) end end;
  change (Z.of_nat 1) with 1 in *; change (Z.of_nat 8) with 8 in *; lia.
Ltac ltb_f := rewrite (proj2 (Z.ltb_ge _ _)) by zl.
Ltac ltb_t := rewrite (proj2 (Z.ltb_lt _ _)) by zl.
Ltac leb_t := rewrite (proj2 (Z.leb_le _ _)) by zl.

#[export] Instance param_codec : Codec dos_param.
Proof.
  refine {| cd_encode := trn_cell_extension_dos_param_encode; cd_parse := trn_cell_extension_dos_param_parse;
            cd_text := fun x => set_uint8 (type x) ++ be_bytes 8 (value x);
            cd_wf := fun x => 0 <= type x < 256 /\ 0 <= value x < 2 ^ 64 /\ param_error x = false |}.
  - intros avail [t v e] (Ht & Hv & He) Hl. cbn -[set_uint8 be_bytes zlen Z.pow] in *. subst e. unfold trn_cell_extension_dos_param_encode. cbn -[set_uint8 be_bytes zlen Z.pow].
    leb_t. cbn [tor_assert]. ltb_f. ltb_f. reflexivity.
  - intros [t v e] rest (Ht & Hv & He). cbn [type value param_error] in *. subst e. unfold trn_cell_extension_dos_param_parse.
    ltb_f. rewrite <- app_assoc, get_uint8_app by done. cbn [obind]. rewrite drop_uint8. ltb_f. rewrite get_be_app by done. cbn [obind].
    do 2 f_equal. zl.
  - intros s. unfold trn_cell_extension_dos_param_parse. destruct (Z.ltb_spec (zlen s) 1) as [H|H]; [left; by exists (-2)|].
    destruct (read_uint8 s H) as (t & s' & Ht & ->). rewrite get_uint8_app by done. cbn [obind]. rewrite drop_uint8.
    destruct (Z.ltb_spec (zlen (set_uint8 t ++ s') - 1) 8) as [H'|H']; [left; by exists (-2)|]. right.
    assert (Hs : (8 <= length s')%nat) by (unfold set_uint8 in *; rewrite zlen_app, zlen_be_bytes in H'; unfold zlen in H'; lia).
    destruct (get_be_split 8 s' Hs) as (v & Hg & Hv & E). rewrite Hg. cbn [obind].
    exists (mk_param t v false), (drop 8 s'). split; [by cbn|]. cbn [type value]. split; [by rewrite <- app_assoc, <- E|].
    do 2 f_equal. zl.
Defined.

#[export] Instance field_codec : Codec ext_field.
Proof.
  refine {| cd_encode := trn_cell_extension_field_encode; cd_parse := trn_cell_extension_field_parse;
            cd_text := fun x => set_uint8 (field_type x) ++ set_uint8 (field_len x) ++ field x;
            cd_wf := fun x => 0 <= field_type x < 256 /\ 0 <= field_len x < 256 /\ field_len x = zlen (field x) /\ field_error x = false |}.
  - intros avail [t n f e] (Ht & Hn & Hf & He) Hl. cbn [field_type field_len field field_error] in *. subst e.
    unfold trn_cell_extension_field_encode, trn_cell_extension_field_check. cbn [field_type field_len field field_error].
    rewrite Hf, Z.eqb_refl. leb_t. cbn [tor_assert]. ltb_f. ltb_f. ltb_f. rewrite <- app_assoc. do 2 f_equal. zl.
  - intros [t n f e] rest (Ht & Hn & Hf & He). cbn [field_type field_len field field_error] in *. subst e. unfold trn_cell_extension_field_parse.
    ltb_f. rewrite <- !app_assoc, get_uint8_app by done. cbn [obind]. ltb_f. rewrite drop_uint8, get_uint8_app by done. cbn [obind]. ltb_f.
    rewrite drop2_uint8. assert (E : Z.to_nat n = length f) by (unfold zlen in Hf; lia). rewrite E, take_app_length. do 2 f_equal. zl.
  - intros s. unfold trn_cell_extension_field_parse. destruct (Z.ltb_spec (zlen s) 1) as [H|H]; [left; by exists (-2)|].
    destruct (read_uint8 s H) as (t & s1 & Ht & ->). rewrite get_uint8_app by done. cbn [obind]. rewrite drop_uint8.
    destruct (Z.ltb_spec (zlen (set_uint8 t ++ s1) - 1) 1) as [H1|H1]; [left; by exists (-2)|].
    destruct (read_uint8 s1 ltac:(zl)) as (n & s2 & Hn & ->). rewrite get_uint8_app by done. cbn [obind].
    destruct (Z.ltb_spec (zlen (set_uint8 t ++ set_uint8 n ++ s2) - 1 - 1) n) as [H2|H2]; [left; by exists (-2)|].
    right. rewrite drop2_uint8.
    assert (Hl : zlen (take (Z.to_nat n) s2) = n) by (assert (zlen s2 >= n) by zl; unfold zlen in *; rewrite length_take; lia).
    exists (mk_field t n (take (Z.to_nat n) s2) false), (drop (Z.to_nat n) s2). cbn [field_type field_len field field_error].
    split; [by rewrite Hl|]. split; [by rewrite <- !app_assoc, take_drop|]. rewrite !zlen_app, Hl. do 2 f_equal. zl.
Defined.

Lemma first_message_none {A} (check : option A -> option bytes) (l : list A) : Forall (fun x => check (Some x) = None) l -> first_message check l = None.
Proof. induction 1 as [|x l Hx _ IH]; [done|]. cbn. by rewrite Hx. Qed.

Lemma dos_check_ok (x : dos_extension) : n_params x = zlen (params x) -> Forall cd_wf (params x) -> dos_error x = false ->
  trn_cell_extension_dos_check (Some x) = None.
Proof.
  intros Hn Hp He. unfold trn_cell_extension_dos_check. rewrite He, first_message_none, Hn, Z.eqb_refl; [done|].
  eapply Forall_impl; [exact Hp|]. intros p (_ & _ & E). unfold trn_cell_extension_dos_param_check. by rewrite E.
Qed.

#[export] Instance dos_codec : Codec dos_extension.
Proof.
  refine {| cd_encode := trn_cell_extension_dos_encode; cd_parse := trn_cell_extension_dos_parse;
            cd_text := fun x => set_uint8 (n_params x) ++ array_text (params x);
            cd_wf := fun x => 0 <= n_params x < 256 /\ n_params x = zlen (params x) /\ Forall cd_wf (params x) /\ dos_error x = false |}.
  - intros avail x (Hr & Hn & Hp & He) Hl. unfold trn_cell_extension_dos_encode. rewrite dos_check_ok by done.
    pose proof (zlen_nonneg (array_text (params x))). leb_t. cbn [tor_assert]. ltb_f.
    change trn_cell_extension_dos_param_encode with (cd_encode (A := dos_param)).
    rewrite encode_elements_ok by (done || zl). cbn [obind]. ltb_f. do 2 f_equal. zl.
  - intros [n l e] rest (Hr & Hn & Hp & He). cbn [n_params params dos_error] in *. subst e. unfold trn_cell_extension_dos_parse. ltb_f.
    rewrite <- app_assoc, get_uint8_app, drop_uint8 by done. cbn [obind]. assert (E : Z.to_nat n = length l) by (unfold zlen in Hn; lia).
    change trn_cell_extension_dos_param_parse with (cd_parse (A := dos_param)). rewrite E, parse_elements_ok by done. cbn [obind].
    do 2 f_equal. zl.
  - intros s. unfold trn_cell_extension_dos_parse. destruct (Z.ltb_spec (zlen s) 1) as [H|H]; [left; by exists (-2)|].
    destruct (read_uint8 s H) as (n & s1 & Hn & ->). rewrite get_uint8_app, drop_uint8 by done. cbn [obind].
    change trn_cell_extension_dos_param_parse with (cd_parse (A := dos_param)).
    destruct (parse_elements_total (A := dos_param) (Z.to_nat n) s1) as [(r & Hr & E)|(l & rest & Hl & Hlen & -> & E)]; rewrite E; cbn [obind]; [left; by exists r|].
    right. assert (Hz : n = zlen l) by (unfold zlen; lia). exists (mk_dos n l false), rest. cbn [n_params params dos_error].
    split; [by rewrite Hz in *|]. split; [by rewrite <- app_assoc|]. do 2 f_equal. zl.
Defined.

Lemma ext_check_ok (x : cell_extension) : num x = zlen (fields x) -> Forall cd_wf (fields x) -> ext_error x = false ->
  trn_cell_extension_check (Some x) = None.
Proof.
  intros Hn Hp He. unfold trn_cell_extension_check. rewrite He, first_message_none, Hn, Z.eqb_refl; [done|].
  eapply Forall_impl; [exact Hp|]. intros p (_ & _ & E & Ee). unfold trn_cell_extension_field_check. by rewrite Ee, E, Z.eqb_refl.
Qed.

#[export] Instance ext_codec : Codec cell_extension.
Proof.
  refine {| cd_encode := trn_cell_extension_encode; cd_parse := trn_cell_extension_parse;
            cd_text := fun x => set_uint8 (num x) ++ array_text (fields x);
            cd_wf := fun x => 0 <= num x < 256 /\ num x = zlen (fields x) /\ Forall cd_wf (fields x) /\ ext_error x = false |}.
  - intros avail x (Hr & Hn & Hp & He) Hl. unfold trn_cell_extension_encode. rewrite ext_check_ok by done.
    pose proof (zlen_nonneg (array_text (fields x))). leb_t. cbn [tor_assert]. ltb_f.
    change trn_cell_extension_field_encode with (cd_encode (A := ext_field)).
    rewrite encode_elements_ok by (done || zl). cbn [obind]. ltb_f. do 2 f_equal. zl.
  - intros [n l e] rest (Hr & Hn & Hp & He). cbn [num fields ext_error] in *. subst e. unfold trn_cell_extension_parse. ltb_f.
    rewrite <- app_assoc, get_uint8_app, drop_uint8 by done. cbn [obind]. assert (E : Z.to_nat n = length l) by (unfold zlen in Hn; lia).
    change trn_cell_extension_field_parse with (cd_parse (A := ext_field)). rewrite E, parse_elements_ok by done. cbn [obind].
    do 2 f_equal. zl.
  - intros s. unfold trn_cell_extension_parse. destruct (Z.ltb_spec (zlen s) 1) as [H|H]; [left; by exists (-2)|].
    destruct (read_uint8 s H) as (n & s1 & Hn & ->). rewrite get_uint8_app, drop_uint8 by done. cbn [obind].
    change trn_cell_extension_field_parse with (cd_parse (A := ext_field)).
    destruct (parse_elements_total (A := ext_field) (Z.to_nat n) s1) as [(r & Hr & E)|(l & rest & Hl & Hlen & -> & E)]; rewrite E; cbn [obind]; [left; by exists r|].
    right. assert (Hz : n = zlen l) by (unfold zlen; lia). exists (mk_ext n l false), rest. cbn [num fields ext_error].
    split; [by rewrite Hz in *|]. split; [by rewrite <- app_assoc|]. do 2 f_equal. zl.
Defined.

(** The parsers of an extension list and of the rate limit extension, on any input, end with a negative result and no object or are
    the inverse of the encoders: the object is well formed, the result is the length of its encoding, which the input starts with, and
    the encoder, given at least that room, writes exactly those bytes. *)
Theorem extension_codecs_inverse (s : bytes) (avail : Z) :
  ((exists r, r < 0 /\ trn_cell_extension_parse s = Ok (r, None)) \/
   (exists x text rest, s = text ++ rest /\ trn_cell_extension_parse s = Ok (zlen text, Some x) /\
      trn_cell_extension_check (Some x) = None /\ (zlen text <= avail -> trn_cell_extension_encode avail x = Ok (zlen text, text)))) /\
  ((exists r, r < 0 /\ trn_cell_extension_dos_parse s = Ok (r, None)) \/
   (exists x text rest, s = text ++ rest /\ trn_cell_extension_dos_parse s = Ok (zlen text, Some x) /\
      trn_cell_extension_dos_check (Some x) = None /\ (zlen text <= avail -> trn_cell_extension_dos_encode avail x = Ok (zlen text, text)))).
Proof.
  split.
  - destruct (cd_parse_total (A := cell_extension) s) as [H|(x & rest & Hw & Hs & Hp)]; [by left|right].
    exists x, (cd_text x), rest. split; [done|]. split; [done|]. split; [by apply ext_check_ok; apply Hw|]. intros H. exact (cd_encode_ok (A := cell_extension) avail x Hw H).
  - destruct (cd_parse_total (A := dos_extension) s) as [H|(x & rest & Hw & Hs & Hp)]; [by left|right].
    exists x, (cd_text x), rest. split; [done|]. split; [done|]. split; [by apply dos_check_ok; apply Hw|]. intros H. exact (cd_encode_ok (A := dos_extension) avail x Hw H).
Qed.
