(* ===== verification/HsDos.v ===== *)
(** * Rate limits of introduction points: [feature/hs/hs_dos.c], [feature/hs/hs_intropoint.c], [feature/hs/hs_cell.c]

    An introduction point limits the INTRODUCE2 cells it relays to a service with one token bucket per circuit. The
    limit comes from consensus parameters, or from an extension that the service puts in its ESTABLISH_INTRO cell. The path of the
    extension is modelled from the service's configuration to the bucket of the circuit; the rest of the cell, its
    signature and its registration are not. The clock is an argument. *)
From stdpp Require Import gmap.
From S2P Require Import Prelude ParseInt Endian Strings Sendme SendmeFacts TokenBucket CellExtensions.

Definition HS_DOS_INTRODUCE_DEFAULT_CELL_RATE_PER_SEC : Z := 25.
Definition HS_DOS_INTRODUCE_DEFAULT_CELL_BURST_PER_SEC : Z := 200.
Definition HS_DOS_INTRODUCE_ENABLED_DEFAULT : Z := 0.
Definition CIRCUIT_PURPOSE_INTRO_POINT : Z := 2.
Definition TRUNNEL_CELL_EXTENSION_TYPE_DOS : Z := 1.
Definition TRUNNEL_DOS_PARAM_TYPE_INTRO2_RATE_PER_SEC : Z := 1.
Definition TRUNNEL_DOS_PARAM_TYPE_INTRO2_BURST_PER_SEC : Z := 2.
Definition HS_CONFIG_V3_DOS_DEFENSE_RATE_PER_SEC_MAX : Z := INT32_MAX.
Definition HS_CONFIG_V3_DOS_DEFENSE_BURST_PER_SEC_MAX : Z := INT32_MAX.

(** What an introduction circuit has for the limit; its flags are one bit wide. *)
Record or_circuit := mk_circ {
  introduce2_dos_defense_enabled : bool;
  introduce2_dos_defense_explicit : bool;
  introduce2_bucket : token_bucket_ctr;
  purpose : Z }.

(** The static variables of the module. *)
Record hs_dos := mk_hs_dos {
  consensus_param_introduce_rate_per_sec : Z;
  consensus_param_introduce_burst_per_sec : Z;
  consensus_param_introduce_defense_enabled : Z;
  intro2_rejected_count : Z }.
Definition hs_dos_start : hs_dos :=
  mk_hs_dos HS_DOS_INTRODUCE_DEFAULT_CELL_RATE_PER_SEC HS_DOS_INTRODUCE_DEFAULT_CELL_BURST_PER_SEC HS_DOS_INTRODUCE_ENABLED_DEFAULT 0.

Definition get_intro2_enable_consensus_param (ns : option (list bytes)) : outcome Z :=
  networkstatus_get_param ns (bs "HiddenServiceEnableIntroDoSDefense") HS_DOS_INTRODUCE_ENABLED_DEFAULT 0 1.
Definition get_intro2_rate_consensus_param (ns : option (list bytes)) : outcome Z :=
  networkstatus_get_param ns (bs "HiddenServiceEnableIntroDoSRatePerSec") HS_DOS_INTRODUCE_DEFAULT_CELL_RATE_PER_SEC 0 INT32_MAX.
Definition get_intro2_burst_consensus_param (ns : option (list bytes)) : outcome Z :=
  networkstatus_get_param ns (bs "HiddenServiceEnableIntroDoSBurstPerSec") HS_DOS_INTRODUCE_DEFAULT_CELL_BURST_PER_SEC 0 INT32_MAX.

(** [intro_circs] is what [hs_circuitmap_get_all_intro_circ_relay_side] finds. *)
Definition update_intro_circuits (st : hs_dos) (intro_circs : list or_circuit) : list or_circuit :=
  map (fun circ =>
    if introduce2_dos_defense_explicit circ then circ
    else mk_circ (Z.odd (consensus_param_introduce_defense_enabled st)) (introduce2_dos_defense_explicit circ)
           (token_bucket_ctr_adjust (introduce2_bucket circ) (consensus_param_introduce_rate_per_sec st) (consensus_param_introduce_burst_per_sec st))
           (purpose circ)) intro_circs.

Definition set_consensus_parameters (st : hs_dos) (ns : option (list bytes)) (intro_circs : list or_circuit) : outcome (hs_dos * list or_circuit) :=
  let* rate := get_intro2_rate_consensus_param ns in
  let* burst := get_intro2_burst_consensus_param ns in
  let* enabled := get_intro2_enable_consensus_param ns in
  let st := mk_hs_dos rate burst enabled (intro2_rejected_count st) in
  Ok (st, update_intro_circuits st intro_circs).

Definition hs_dos_setup_default_intro2_defenses (st : hs_dos) (circ : or_circuit) (now : Z) : or_circuit :=
  mk_circ (Z.odd (consensus_param_introduce_defense_enabled st)) (introduce2_dos_defense_explicit circ)
    (token_bucket_ctr_init (consensus_param_introduce_rate_per_sec st) (consensus_param_introduce_burst_per_sec st) (wrap 32 now))
    (purpose circ).

Definition hs_dos_consensus_has_changed (st : hs_dos) (public_server_mode : bool) (ns : option (list bytes)) (intro_circs : list or_circuit)
    : outcome (hs_dos * list or_circuit) :=
  if negb public_server_mode then Ok (st, intro_circs) else set_consensus_parameters st ns intro_circs.
Definition hs_dos_init (st : hs_dos) (latest : option (list bytes)) (intro_circs : list or_circuit) : outcome (hs_dos * list or_circuit) :=
  set_consensus_parameters st latest intro_circs.

Definition with_bucket (circ : or_circuit) (b : token_bucket_ctr) : or_circuit :=
  mk_circ (introduce2_dos_defense_enabled circ) (introduce2_dos_defense_explicit circ) b (purpose circ).
Definition reject (st : hs_dos) : hs_dos :=
  mk_hs_dos (consensus_param_introduce_rate_per_sec st) (consensus_param_introduce_burst_per_sec st)
    (consensus_param_introduce_defense_enabled st) (wrap 64 (intro2_rejected_count st + 1)).

Definition hs_dos_can_send_intro2 (st : hs_dos) (circ : or_circuit) (now : Z) : outcome (hs_dos * or_circuit * bool) :=
  if negb (introduce2_dos_defense_enabled circ) then Ok (st, circ, true)
  else if negb (purpose circ =? CIRCUIT_PURPOSE_INTRO_POINT) then Ok (reject st, circ, false)
  else
    let* b := token_bucket_ctr_refill (introduce2_bucket circ) (wrap 32 now) in
    let* b :=
      if 0 <? token_bucket_ctr_get b then
        let* (b, _) := token_bucket_ctr_dec b 1 in Ok b
      else Ok b in
    let circ := with_bucket circ b in
    if 0 <? token_bucket_ctr_get b then Ok (st, circ, true) else Ok (reject st, circ, false).

(** ** The extension of an ESTABLISH_INTRO cell: the introduction point *)
Definition cell_dos_extension_parameters_are_valid (intro2_rate_per_sec intro2_burst_per_sec : Z) : bool :=
  if HS_CONFIG_V3_DOS_DEFENSE_RATE_PER_SEC_MAX <? intro2_rate_per_sec then false
  else if HS_CONFIG_V3_DOS_DEFENSE_BURST_PER_SEC_MAX <? intro2_burst_per_sec then false
  else if intro2_burst_per_sec <? intro2_rate_per_sec then false
  else true.

(** [None]: an unknown parameter ends the handler. *)
Fixpoint read_dos_params (idx : Z) (fuel : nat) (dos : dos_extension) (rate burst : Z) : outcome (option (Z * Z)) :=
  if trn_cell_extension_dos_get_n_params dos <=? idx then Ok (Some (rate, burst))
  else
    match fuel with
    | O => Stuck
    | S fuel =>
        let* param := trn_cell_extension_dos_getconst_params dos idx in
        if type param =? TRUNNEL_DOS_PARAM_TYPE_INTRO2_RATE_PER_SEC then read_dos_params (idx + 1) fuel dos (value param) burst
        else if type param =? TRUNNEL_DOS_PARAM_TYPE_INTRO2_BURST_PER_SEC then read_dos_params (idx + 1) fuel dos rate (value param)
        else Ok None
    end.

Definition handle_establish_intro_cell_dos_extension (fld : ext_field) (circ : or_circuit) (now : Z) : outcome or_circuit :=
  let* (ret, dos) := trn_cell_extension_dos_parse (field fld) in
  if ret <? 0 then Ok circ
  else
    let* dos := get dos in
    let* r := read_dos_params 0 (Z.to_nat (trn_cell_extension_dos_get_n_params dos)) dos 0 0 in
    match r with
    | None => Ok circ
    | Some (rate, burst) =>
        if (rate =? 0) || (burst =? 0) then Ok (mk_circ false true (introduce2_bucket circ) (purpose circ))
        else if negb (cell_dos_extension_parameters_are_valid rate burst) then Ok (mk_circ false true (introduce2_bucket circ) (purpose circ))
        else Ok (mk_circ true true (token_bucket_ctr_init (wrap 32 rate) (wrap 32 burst) (wrap 32 now)) (purpose circ))
    end.

Fixpoint handle_extensions (idx : Z) (fuel : nat) (extensions : cell_extension) (circ : or_circuit) (now : Z) : outcome or_circuit :=
  if trn_cell_extension_get_num extensions <=? idx then Ok circ
  else
    match fuel with
    | O => Stuck
    | S fuel =>
        let* fld := trn_cell_extension_getconst_fields extensions idx in
        let* circ :=
          if trn_cell_extension_field_get_field_type fld =? TRUNNEL_CELL_EXTENSION_TYPE_DOS
          then handle_establish_intro_cell_dos_extension fld circ now else Ok circ in
        handle_extensions (idx + 1) fuel extensions circ now
    end.
Definition handle_establish_intro_cell_extensions (extensions : option cell_extension) (circ : or_circuit) (now : Z) : outcome or_circuit :=
  match extensions with
  | None => Ok circ
  | Some e => handle_extensions 0 (Z.to_nat (trn_cell_extension_get_num e)) e circ now
  end.

(** The part of [handle_verified_establish_intro_cell] about the limit; the circuit becomes an introduction circuit when the answer
    is sent. *)
Definition handle_verified_establish_intro_cell (st : hs_dos) (circ : or_circuit) (extensions : option cell_extension) (now : Z) (established_sent : bool)
    : outcome (or_circuit * Z) :=
  let circ := hs_dos_setup_default_intro2_defenses st circ now in
  let* circ := handle_establish_intro_cell_extensions extensions circ now in
  if negb established_sent then Ok (circ, -1)
  else Ok (mk_circ (introduce2_dos_defense_enabled circ) (introduce2_dos_defense_explicit circ) (introduce2_bucket circ) CIRCUIT_PURPOSE_INTRO_POINT, 0).

(** ** The service *)
Record hs_service_config := mk_config {
  has_dos_defense_enabled : bool;
  intro_dos_rate_per_sec : Z;
  intro_dos_burst_per_sec : Z }.

(** The parameter is added to an array of fewer than 255: the result of the addition is ignored. *)
Definition build_establish_intro_dos_param (dos_ext : dos_extension) (param_type param_value : Z) : outcome dos_extension :=
  tor_assert ((param_type =? TRUNNEL_DOS_PARAM_TYPE_INTRO2_RATE_PER_SEC) || (param_type =? TRUNNEL_DOS_PARAM_TYPE_INTRO2_BURST_PER_SEC)) (
  let dos_param := trn_cell_extension_dos_param_set_value (trn_cell_extension_dos_param_set_type trn_cell_extension_dos_param_new param_type) param_value in
  Ok (fst (trn_cell_extension_dos_add_params dos_ext dos_param))).

Definition build_establish_intro_dos_extension (service_config : hs_service_config) (extensions : cell_extension) : outcome (cell_extension * Z) :=
  let fld := trn_cell_extension_field_set_field_type trn_cell_extension_field_new TRUNNEL_CELL_EXTENSION_TYPE_DOS in
  let dos_ext := trn_cell_extension_dos_set_n_params trn_cell_extension_dos_new 2 in
  let* dos_ext := build_establish_intro_dos_param dos_ext TRUNNEL_DOS_PARAM_TYPE_INTRO2_RATE_PER_SEC (intro_dos_rate_per_sec service_config) in
  let* dos_ext := build_establish_intro_dos_param dos_ext TRUNNEL_DOS_PARAM_TYPE_INTRO2_BURST_PER_SEC (intro_dos_burst_per_sec service_config) in
  let ret := trn_cell_extension_dos_encoded_len dos_ext in
  if ret <=? 0 then Ok (extensions, -1)
  else
    let dos_ext_encoded_len := ret in
    let fld := trn_cell_extension_field_set_field_len fld dos_ext_encoded_len in
    let '(fld, _) := trn_cell_extension_field_setlen_field fld dos_ext_encoded_len in
    let* (ret, out) := trn_cell_extension_dos_encode (zlen (field fld)) dos_ext in
    let* fld := field_write fld out in
    if ret <=? 0 then Ok (extensions, -1)
    else
      tor_assert (ret =? dos_ext_encoded_len) (
      let '(extensions, _) := trn_cell_extension_add_fields extensions fld in
      Ok (trn_cell_extension_set_num extensions (trn_cell_extension_get_num extensions + 1), 0)).

Definition build_establish_intro_extensions (service_config : hs_service_config) (support_intro2_dos_defense : bool) : outcome cell_extension :=
  let extensions := trn_cell_extension_set_num trn_cell_extension_new 0 in
  if has_dos_defense_enabled service_config && support_intro2_dos_defense then
    let* (extensions, _) := build_establish_intro_dos_extension service_config extensions in
    Ok extensions
  else Ok extensions.

(** ** Round trip of the extension *)
Definition dos_of (r b : Z) : dos_extension :=
  mk_dos 2 [mk_param TRUNNEL_DOS_PARAM_TYPE_INTRO2_RATE_PER_SEC r false; mk_param TRUNNEL_DOS_PARAM_TYPE_INTRO2_BURST_PER_SEC b false] false.
Definition field_of (r b : Z) : ext_field := mk_field TRUNNEL_CELL_EXTENSION_TYPE_DOS 19 (cd_text (dos_of r b)) false.
Definition ext_of (r b : Z) : cell_extension := mk_ext 1 [field_of r b] false.

Lemma dos_of_wf (r b : Z) : 0 <= r < 2 ^ 64 -> 0 <= b < 2 ^ 64 -> cd_wf (dos_of r b).
Proof.
  intros Hr Hb. split; [done|split; [done|split; [|done]]].
  apply Forall_cons. split; [by split|]. apply Forall_cons. split; [by split|]. constructor.
Qed.
Lemma ext_of_wf (r b : Z) : cd_wf (ext_of r b).
Proof. split; [done|split; [done|split; [|done]]]. apply Forall_cons. split; [by split|constructor]. Qed.

Lemma build_ok (c : hs_service_config) (support : bool) : 0 <= intro_dos_rate_per_sec c < 2 ^ 64 -> 0 <= intro_dos_burst_per_sec c < 2 ^ 64 ->
  build_establish_intro_extensions c support =
  Ok (if has_dos_defense_enabled c && support then ext_of (intro_dos_rate_per_sec c) (intro_dos_burst_per_sec c) else trn_cell_extension_new).
Proof.
  intros Hr Hb. unfold build_establish_intro_extensions. destruct (has_dos_defense_enabled c && support); [|done].
  unfold build_establish_intro_dos_extension. pose proof (dos_of_wf _ _ Hr Hb) as Hw.
  set (r := intro_dos_rate_per_sec c) in *. set (b := intro_dos_burst_per_sec c) in *.
  change (build_establish_intro_dos_param (trn_cell_extension_dos_set_n_params trn_cell_extension_dos_new 2) TRUNNEL_DOS_PARAM_TYPE_INTRO2_RATE_PER_SEC r)
    with (Ok (mk_dos 2 [mk_param 1 r false] false)). cbn [obind].
  change (build_establish_intro_dos_param (mk_dos 2 [mk_param 1 r false] false) TRUNNEL_DOS_PARAM_TYPE_INTRO2_BURST_PER_SEC b) with (Ok (dos_of r b)).
  cbn [obind]. change (trn_cell_extension_dos_encoded_len (dos_of r b)) with 19. cbn -[trn_cell_extension_dos_encode field_write dos_of].
  pose proof (cd_encode_ok 19 (dos_of r b) Hw ltac:(done)) as E. cbn [cd_encode dos_codec] in E.
  change (zlen (take (Z.to_nat 19) [] ++ replicate (Z.to_nat 19 - 0) NUL)) with 19. rewrite E. reflexivity.
Qed.

Definition default_circ (st : hs_dos) (circ : or_circuit) (now : Z) : or_circuit := hs_dos_setup_default_intro2_defenses st circ now.

Lemma handle_dos_of (r b : Z) (circ : or_circuit) (now : Z) : 0 <= r < 2 ^ 64 -> 0 <= b < 2 ^ 64 ->
  handle_establish_intro_cell_dos_extension (field_of r b) circ now =
  Ok (if (r =? 0) || (b =? 0) || negb (cell_dos_extension_parameters_are_valid r b) then mk_circ false true (introduce2_bucket circ) (purpose circ)
      else mk_circ true true (token_bucket_ctr_init (wrap 32 r) (wrap 32 b) (wrap 32 now)) (purpose circ)).
Proof.
  intros Hr Hb. unfold handle_establish_intro_cell_dos_extension.
  pose proof (cd_parse_ok (dos_of r b) [] (dos_of_wf r b Hr Hb)) as E. rewrite app_nil_r in E. change (field (field_of r b)) with (cd_text (dos_of r b)).
  cbn [cd_parse dos_codec] in E. rewrite E. cbn [obind]. change (zlen (cd_text (dos_of r b)) <? 0) with false. cbv iota.
  cbn [get obind]. change (read_dos_params 0 (Z.to_nat (trn_cell_extension_dos_get_n_params (dos_of r b))) (dos_of r b) 0 0) with (Ok (Some (r, b))).
  cbn [obind]. by destruct ((r =? 0) || (b =? 0)), (cell_dos_extension_parameters_are_valid r b).
Qed.

(** C26: The limit that a service is configured with reaches its introduction point: the extension list that the service builds is
    encoded, the introduction point parses it from the cell, and the circuit ends with a full bucket of exactly the configured rate and burst
    when both are positive, at most 2^31-1, and the burst is not below the rate; with no limit, marked as explicit, for other values; and with
    the limit of the consensus when the service sends no extension. *)
Theorem hs_dos_extension_roundtrip (c : hs_service_config) (support : bool) (st : hs_dos) (circ : or_circuit) (now avail : Z) (rest : bytes) :
  0 <= intro_dos_rate_per_sec c < 2 ^ 32 -> 0 <= intro_dos_burst_per_sec c < 2 ^ 32 -> 22 <= avail ->
  exists e text e' circ', build_establish_intro_extensions c support = Ok e /\ trn_cell_extension_encode avail e = Ok (zlen text, text) /\
    trn_cell_extension_parse (text ++ rest) = Ok (zlen text, Some e') /\
    handle_verified_establish_intro_cell st circ (Some e') now true = Ok (circ', 0) /\ purpose circ' = CIRCUIT_PURPOSE_INTRO_POINT /\
    let r := intro_dos_rate_per_sec c in
    let b := intro_dos_burst_per_sec c in
    let full rate burst := mk_ctr (mk_cfg rate burst) (mk_raw burst) (wrap 32 now) in
    if has_dos_defense_enabled c && support then
      introduce2_dos_defense_explicit circ' = true /\
      introduce2_dos_defense_enabled circ' = (0 <? r) && (r <=? b) && (b <=? INT32_MAX) /\
      (introduce2_dos_defense_enabled circ' = true -> introduce2_bucket circ' = full r b)
    else
      introduce2_dos_defense_explicit circ' = introduce2_dos_defense_explicit circ /\
      introduce2_dos_defense_enabled circ' = Z.odd (consensus_param_introduce_defense_enabled st) /\
      introduce2_bucket circ' = full (consensus_param_introduce_rate_per_sec st) (Z.min INT32_MAX (consensus_param_introduce_burst_per_sec st)).
Proof.
  intros Hr Hb Ha. rewrite build_ok by lia. destruct (has_dos_defense_enabled c && support).
  - set (r := intro_dos_rate_per_sec c) in *. set (b := intro_dos_burst_per_sec c) in *.
    assert (Hw : cd_wf (ext_of r b)) by apply ext_of_wf.
    pose proof (cd_encode_ok avail _ Hw) as He. pose proof (cd_parse_ok _ rest Hw) as Hp. cbn [cd_encode cd_parse ext_codec] in He, Hp.
    eexists _, (cd_text (ext_of r b)), (ext_of r b), _. split; [done|]. split; [by apply He|]. split; [exact Hp|].
    unfold handle_verified_establish_intro_cell, handle_establish_intro_cell_extensions.
    change (Z.to_nat (trn_cell_extension_get_num (ext_of r b))) with 1%nat. cbn [handle_extensions]. change (trn_cell_extension_get_num (ext_of r b) <=? 0) with false.
    change (trn_cell_extension_getconst_fields (ext_of r b) 0) with (Ok (field_of r b)). cbn [obind].
    change (trn_cell_extension_field_get_field_type (field_of r b) =? TRUNNEL_CELL_EXTENSION_TYPE_DOS) with true. cbv iota.
    rewrite handle_dos_of by lia. cbn [obind]. change (trn_cell_extension_get_num (ext_of r b) <=? 0 + 1) with true. cbn [obind negb].
    split; [reflexivity|]. split; [reflexivity|]. cbv zeta. unfold cell_dos_extension_parameters_are_valid, HS_CONFIG_V3_DOS_DEFENSE_RATE_PER_SEC_MAX, HS_CONFIG_V3_DOS_DEFENSE_BURST_PER_SEC_MAX, INT32_MAX.
    assert (wrap 32 r = r) as -> by by apply Z.mod_small. assert (wrap 32 b = b) as -> by by apply Z.mod_small.
    destruct (Z.eqb_spec r 0), (Z.eqb_spec b 0), (Z.ltb_spec 2147483647 r), (Z.ltb_spec 2147483647 b), (Z.ltb_spec b r);
      cbn; (split; [done|split; [lia|]]); try done.
    intros _. rewrite ctr_init_full, Z.min_r by tb_lia. done.
  - pose proof (cd_encode_ok avail trn_cell_extension_new) as He. pose proof (cd_parse_ok trn_cell_extension_new rest) as Hp. cbn [cd_encode cd_parse ext_codec] in He, Hp.
    eexists _, (cd_text trn_cell_extension_new), trn_cell_extension_new, _. split; [done|]. split; [apply He; [by repeat split|change (1 <= avail); lia]|].
    split; [by apply Hp|]. split; [reflexivity|]. split; [reflexivity|]. cbn -[token_bucket_ctr_init]. split; [done|split; [done|]]. apply ctr_init_full.
Qed.

Lemma hs_dos_extension_roundtrip_witness :
  exists e text e' circ', build_establish_intro_extensions (mk_config true 5 40) true = Ok e /\ trn_cell_extension_encode 400 e = Ok (zlen text, text) /\
    trn_cell_extension_parse (text ++ bs "signature") = Ok (zlen text, Some e') /\
    handle_verified_establish_intro_cell hs_dos_start (mk_circ false false token_bucket_ctr_zero 1) (Some e') 1623024000 true = Ok (circ', 0) /\
    introduce2_dos_defense_enabled circ' = true /\ introduce2_bucket circ' = mk_ctr (mk_cfg 5 40) (mk_raw 40) 1623024000.
Proof.
  destruct (hs_dos_extension_roundtrip (mk_config true 5 40) true hs_dos_start (mk_circ false false token_bucket_ctr_zero 1) 1623024000 400 (bs "signature"))
    as (e & text & e' & circ' & H1 & H2 & H3 & H4 & _ & _ & H5 & H6); [by vm_compute|by vm_compute|by vm_compute|].
  exists e, text, e', circ'. split; [exact H1|split; [exact H2|split; [exact H3|split; [exact H4|]]]].
  change ((0 <? intro_dos_rate_per_sec (mk_config true 5 40)) && _ && _) with true in H5. split; [exact H5|exact (H6 H5)].
Defined.

(** ** The limit *)

(** A circuit under a limit, its bucket at the level [v]. *)
Definition limited (cfg : token_bucket_cfg) (circ : or_circuit) (v : level) : Prop :=
  introduce2_dos_defense_enabled circ = true /\ purpose circ = CIRCUIT_PURPOSE_INTRO_POINT /\ shows cfg (introduce2_bucket circ) v /\ 0 <= tokens v.
Definition intro_level (cfg : token_bucket_cfg) (v : level) (now : Z) : level :=
  let v := level_step cfg v (Refill now) in
  if 0 <? tokens v then level_step cfg v (Take 1) else v.

Lemma shows_get (cfg : token_bucket_cfg) (b : token_bucket_ctr) (v : level) : shows cfg b v -> token_bucket_ctr_get b = Z.max 0 (tokens v).
Proof. intros (_ & Hb & _). unfold token_bucket_ctr_get, token_bucket_raw_get. rewrite Hb. destruct (Z.leb_spec 0 (tokens v)); lia. Qed.

Lemma can_send_limited (cfg : token_bucket_cfg) (st : hs_dos) (circ : or_circuit) (v : level) (now : Z) :
  cfg_ok cfg -> limited cfg circ v -> event_ok v (Refill now) ->
  let v' := intro_level cfg v now in
  exists circ', hs_dos_can_send_intro2 st circ now = Ok (if 0 <? tokens v' then st else reject st, circ', 0 <? tokens v') /\ limited cfg circ' v'.
Proof.
  intros Hc (He & Hp & Hs & Hv) Hn. unfold hs_dos_can_send_intro2. rewrite He, Hp. cbn [negb Z.eqb Pos.eqb CIRCUIT_PURPOSE_INTRO_POINT].
  destruct (ctr_refill_spec cfg _ v now Hc Hs Hn) as (b1 & -> & Hs1). cbn [obind]. rewrite (shows_get cfg b1 _ Hs1).
  assert (H1 : 0 <= tokens (level_step cfg v (Refill now))) by (cbn in *; pose proof Hc; unfold cfg_ok in *; nia).
  unfold intro_level. set (v1 := level_step cfg v (Refill now)) in *. rewrite Z.max_r by done. cbv zeta.
  destruct (Z.ltb_spec 0 (tokens v1)) as [Hpos|Hz].
  - destruct (ctr_dec_spec cfg b1 v1 1 Hc Hs1) as (b2 & f & -> & Hs2); [split; [done|unfold INT32_MIN; lia]|]. cbn [obind].
    change (tokens (level_step cfg v1 (Take 1))) with (tokens v1 - 1). rewrite (shows_get cfg b2 _ Hs2), Z.max_r by (change (0 <= tokens v1 - 1); lia).
    change (tokens (level_step cfg v1 (Take 1))) with (tokens v1 - 1).
    destruct (0 <? tokens v1 - 1); (eexists; split; [reflexivity|]; split; [done|split; [done|split; [done|change (0 <= tokens v1 - 1); lia]]]).
  - cbn [obind]. rewrite (shows_get cfg b1 _ Hs1), Z.max_r by done. rewrite (proj2 (Z.ltb_ge _ _)) by done.
    eexists. split; [reflexivity|]. by split.
Qed.

(** The INTRODUCE1 cells that arrive at the given times, and for each whether it is relayed. *)
Fixpoint intro_run (st : hs_dos) (circ : or_circuit) (times : list Z) : outcome (hs_dos * or_circuit * list bool) :=
  match times with
  | [] => Ok (st, circ, [])
  | now :: times =>
      let* (st, circ, b) := hs_dos_can_send_intro2 st circ now in
      let* (st, circ, l) := intro_run st circ times in
      Ok (st, circ, b :: l)
  end.
Fixpoint times_ok (t : Z) (times : list Z) : Prop :=
  match times with [] => True | now :: times => t <= now <= t + (UINT32_MAX - 300 * 1000) /\ times_ok now times end.
Fixpoint count (b : bool) (l : list bool) : Z :=
  match l with [] => 0 | x :: l => (if Bool.eqb x b then 1 else 0) + count b l end.

Lemma last_cons_default {A} (x : A) (l : list A) (d : A) : List.last (x :: l) d = List.last l x.
Proof. revert x d. induction l as [|y l IH]; intros x d; [done|]. change (List.last (x :: y :: l) d) with (List.last (y :: l) d). by rewrite IH, (IH y x). Qed.

Lemma intro_level_bound (cfg : token_bucket_cfg) (v : level) (now : Z) : 0 <= tokens v -> 0 <= rate cfg * (now - as_of v) -> 0 <= burst cfg ->
  let v' := intro_level cfg v now in
  as_of v' = now /\ 0 <= tokens v' /\ tokens v' <= Z.max 0 (burst cfg - 1) /\ tokens v' <= Z.max 0 (tokens v - 1 + rate cfg * (now - as_of v)).
Proof. intros Hv Hr Hb. unfold intro_level. cbn. destruct (Z.ltb_spec 0 (Z.min (burst cfg) (tokens v + rate cfg * (now - as_of v)))); cbn; lia. Qed.

Lemma intro_run_limited (cfg : token_bucket_cfg) (times : list Z) : cfg_ok cfg -> forall (st : hs_dos) (circ : or_circuit) (v : level),
  limited cfg circ v -> times_ok (as_of v) times ->
  exists st' circ' l, intro_run st circ times = Ok (st', circ', l) /\ length l = length times /\
    count true l <= Z.max 0 (tokens v - 1 + rate cfg * (List.last times (as_of v) - as_of v)) /\
    wrap 64 (intro2_rejected_count st') = wrap 64 (intro2_rejected_count st + count false l) /\
    (burst cfg <= 1 -> count true l = 0) /\ as_of v <= List.last times (as_of v).
Proof.
  intros Hc. induction times as [|now times IH]; intros st circ v Hl Ht.
  { exists st, circ, []. cbn. rewrite Z.add_0_r. split; [done|split; [done|split; [lia|split; [done|split; [done|lia]]]]]. }
  destruct Ht as [Hn Ht]. pose proof Hc as [Hr Hb]. destruct (intro_level_bound cfg v now) as (Ha & H0 & Hbu & Hle); [apply Hl|nia|lia|]. assert (Hv : 0 <= tokens v) by apply Hl.
  destruct (can_send_limited cfg st circ v now Hc Hl Hn) as (circ1 & E & Hl1). cbn [intro_run]. rewrite E. cbn [obind].
  set (v' := intro_level cfg v now) in *. rewrite <- Ha in Ht.
  destruct (IH (if 0 <? tokens v' then st else reject st) circ1 v' Hl1 Ht) as (st2 & circ2 & l & -> & Hlen & Hcnt & Hrej & Hone & Hlast). cbn [obind].
  rewrite (last_cons_default now times (as_of v)). rewrite Ha in *. set (T := List.last times now) in *.
  exists st2, circ2, ((0 <? tokens v') :: l). split; [done|]. split; [cbn; lia|]. cbn [count].
  assert (0 <= rate cfg * (T - now)) by nia. assert (0 <= rate cfg * (now - as_of v)) by nia.
  replace (rate cfg * (T - as_of v)) with (rate cfg * (now - as_of v) + rate cfg * (T - now)) by ring.
  destruct (Z.ltb_spec 0 (tokens v')); cbn [Bool.eqb]; (split; [lia|split; [|split; [lia|lia]]]); rewrite Hrej; [by rewrite Z.add_0_l|].
  cbn [reject intro2_rejected_count]. unfold wrap. rewrite Zplus_mod_idemp_l. f_equal. lia.
Qed.

(** C27: An introduction point never relays more INTRODUCE2 cells on a circuit with a limit than one less than the bucket held plus the rate times the
    seconds that passed, or none if that is negative. Let the rate be positive and the bucket not in debt, and let the clock not go back and no pause
    exceed the 32 bits of a timestamp less 300000. Then, however the INTRODUCE1 cells arrive, every one is answered, each refusal is counted (modulo
    2^64), and no step is undefined. In particular a burst of one relays nothing at all, whatever the rate. With a rate of 0, which a consensus can set,
    the refill divides by zero. *)
Theorem hs_dos_rate_limit (cfg : token_bucket_cfg) (st : hs_dos) (circ : or_circuit) (v : level) (times : list Z) :
  cfg_ok cfg -> limited cfg circ v -> times_ok (as_of v) times ->
  exists st' circ' l, intro_run st circ times = Ok (st', circ', l) /\ length l = length times /\
    count true l <= Z.max 0 (tokens v - 1 + rate cfg * (List.last times (as_of v) - as_of v)) /\
    wrap 64 (intro2_rejected_count st') = wrap 64 (intro2_rejected_count st + count false l) /\
    (burst cfg <= 1 -> count true l = 0).
Proof.
  intros Hc Hl Ht. destruct (intro_run_limited cfg times Hc st circ v Hl Ht) as (st' & circ' & l & H1 & H2 & H3 & H4 & H5 & _).
  by exists st', circ', l.
Qed.

(** Six cells within two seconds on a bucket of 3, refilled by 1 a second. *)
Lemma hs_dos_rate_limit_witness :
  exists st' circ' l, intro_run hs_dos_start (mk_circ true true (mk_ctr (mk_cfg 1 3) (mk_raw 3) 1623024000) CIRCUIT_PURPOSE_INTRO_POINT)
      [1623024000; 1623024000; 1623024000; 1623024001; 1623024001; 1623024002] = Ok (st', circ', l) /\
    l = [true; true; false; false; false; false] /\ count true l <= 4.
Proof.
  destruct (hs_dos_rate_limit (mk_cfg 1 3) hs_dos_start (mk_circ true true (mk_ctr (mk_cfg 1 3) (mk_raw 3) 1623024000) CIRCUIT_PURPOSE_INTRO_POINT)
    (mk_level 3 1623024000) [1623024000; 1623024000; 1623024000; 1623024001; 1623024001; 1623024002]) as (st' & circ' & l & E & _ & H & _);
    [by vm_compute|by vm_compute|by vm_compute|].
  exists st', circ', l. split; [exact E|]. vm_compute in E. injection E as <- <- <-. by vm_compute.
Defined.

(** ** Consensus parameters that stop the relay *)

(** A consensus that turns the defence on and sets its rate to 0, which the parameter's range allows, makes a new introduction circuit
    unusable: the refill of its bucket divides by zero at the first INTRODUCE1 cell. *)
Theorem hs_dos_zero_rate (st : hs_dos) (ns : option (list bytes)) (circs : list or_circuit) (circ : or_circuit) (now now' : Z) :
  get_intro2_rate_consensus_param ns = Ok 0 -> get_intro2_enable_consensus_param ns = Ok 1 ->
  now <= now' <= now + (UINT32_MAX - 300 * 1000) ->
  exists st' circs' circ', hs_dos_consensus_has_changed st true ns circs = Ok (st', circs') /\
    handle_verified_establish_intro_cell st' circ None now true = Ok (circ', 0) /\ hs_dos_can_send_intro2 st' circ' now' = Stuck.
Proof.
  intros Hr He Hn. unfold hs_dos_consensus_has_changed, set_consensus_parameters. rewrite Hr, He. cbn [negb obind].
  destruct (get_param_range ns (bs "HiddenServiceEnableIntroDoSBurstPerSec") HS_DOS_INTRODUCE_DEFAULT_CELL_BURST_PER_SEC 0 INT32_MAX ltac:(done) ltac:(done)) as (b & Hb & _).
  unfold get_intro2_burst_consensus_param. rewrite Hb. cbn [obind]. eexists _, _, _. split; [reflexivity|]. split; [reflexivity|].
  unfold hs_dos_can_send_intro2. cbn -[token_bucket_ctr_init token_bucket_ctr_refill wrap]. rewrite ctr_init_full.
  unfold token_bucket_ctr_refill. cbn -[wrap Z.mul]. rewrite elapsed_exact by tb_lia. by rewrite (proj2 (Z.ltb_ge _ _)) by lia.
Qed.

Lemma hs_dos_zero_rate_witness :
  exists st' circs' circ',
    hs_dos_consensus_has_changed hs_dos_start true (Some [bs "HiddenServiceEnableIntroDoSDefense=1"; bs "HiddenServiceEnableIntroDoSRatePerSec=0"]) [] = Ok (st', circs') /\
    handle_verified_establish_intro_cell st' (mk_circ false false token_bucket_ctr_zero 1) None 1623024000 true = Ok (circ', 0) /\
    hs_dos_can_send_intro2 st' circ' 1623024000 = Stuck.
Proof. apply (hs_dos_zero_rate hs_dos_start _ [] (mk_circ false false token_bucket_ctr_zero 1) 1623024000 1623024000); by vm_compute. Defined.
