(* ===== verification/Dos.v ===== *)
(** * Denial of service mitigation: [core/or/dos.c], with the client map of [feature/stats/geoip_stats.c]

    A relay counts, for each client address, its open connections, the rate at which it opens them and the rate at which
    it creates circuits, and marks an address that exceeds a limit. The counts live in the entries of the client map, which other code
    adds, ages and frees; a connection that is counted carries a flag, which the map clears when it frees the entry that counts it.
    The state is the client map, the connections and the static variables of both files. The clock and the bytes of the random number generator are
    arguments; logging is left out. *)
From stdpp Require Import gmap.
From S2P Require Import Prelude ParseInt DiOps Strings Endian Address Sendme TokenBucket.

(** ** Random integers: [lib/crypt_ops/crypto_rand_numeric.c]

    [draws] are the integers that [crypto_rand] gives; [Err] waits for more of them. *)
Definition UINT_MAX : Z := 4294967295.
Definition rand_cutoff (maxval limit : Z) : Z := maxval - maxval mod limit.
Fixpoint first_below (cutoff : Z) (draws : list Z) : outcome Z :=
  match draws with [] => Err | val :: draws => if val <? cutoff then Ok val else first_below cutoff draws end.
Definition crypto_rand_uint (limit : Z) (draws : list Z) : outcome Z :=
  tor_assert (limit <? UINT_MAX) (
  tor_assert (0 <? limit) (
  let* val := first_below (rand_cutoff UINT_MAX limit) draws in Ok (val mod limit))).
Definition crypto_rand_int (max : Z) (draws : list Z) : outcome Z :=
  tor_assert (max <=? INT_MAX + 1) (let* v := crypto_rand_uint max draws in Ok (to_int v)).
Definition crypto_rand_int_range (min max : Z) (draws : list Z) : outcome Z :=
  tor_assert (min <? max) (
  tor_assert (max <=? INT_MAX) (
  let* v := crypto_rand_int (wrap 32 (max - min)) draws in Ok (to_int (min + v)))).

(** ** Parameters *)
Definition DOS_CC_ENABLED_DEFAULT : Z := 0.
Definition DOS_CC_DEFENSE_NONE : Z := 1.
Definition DOS_CC_DEFENSE_REFUSE_CELL : Z := 2.
Definition DOS_CC_DEFENSE_MAX : Z := 2.
Definition DOS_CC_DEFENSE_TYPE_DEFAULT : Z := DOS_CC_DEFENSE_REFUSE_CELL.
Definition DOS_CC_MIN_CONCURRENT_CONN_DEFAULT : Z := 3.
Definition DOS_CC_CIRCUIT_RATE_DEFAULT : Z := 3.
Definition DOS_CC_CIRCUIT_BURST_DEFAULT : Z := 90.
Definition DOS_CC_DEFENSE_TIME_PERIOD_DEFAULT : Z := 60 * 60.
Definition DOS_CONN_ENABLED_DEFAULT : Z := 0.
Definition DOS_CONN_MAX_CONCURRENT_COUNT_DEFAULT : Z := 100.
Definition DOS_CONN_DEFENSE_NONE : Z := 1.
Definition DOS_CONN_DEFENSE_CLOSE : Z := 2.
Definition DOS_CONN_DEFENSE_MAX : Z := 2.
Definition DOS_CONN_DEFENSE_TYPE_DEFAULT : Z := DOS_CONN_DEFENSE_CLOSE.
Definition DOS_CONN_CONNECT_RATE_DEFAULT : Z := 20.
Definition DOS_CONN_CONNECT_BURST_DEFAULT : Z := 40.
Definition DOS_CONN_CONNECT_DEFENSE_TIME_PERIOD_DEFAULT : Z := 24 * 60 * 60.
Definition DOS_CONN_CONNECT_DEFENSE_TIME_PERIOD_MIN : Z := 10.

(** The options of the module: [-1] is the automatic choice of the first three, 0 an option that is not set. *)
Record dos_options := mk_options {
  DoSCircuitCreationEnabled : Z;
  DoSConnectionEnabled : Z;
  DoSRefuseSingleHopClientRendezvous : Z;
  DoSCircuitCreationMinConnections : Z;
  DoSCircuitCreationRate : Z;
  DoSCircuitCreationBurst : Z;
  DoSCircuitCreationDefenseType : Z;
  DoSCircuitCreationDefenseTimePeriod : Z;
  DoSConnectionMaxConcurrentCount : Z;
  DoSConnectionDefenseType : Z;
  DoSConnectionConnectRate : Z;
  DoSConnectionConnectBurst : Z;
  DoSConnectionConnectDefenseTimePeriod : Z }.
Definition dos_options_default : dos_options := mk_options (-1) (-1) (-1) 0 0 0 0 0 0 0 0 0 0.

(** The static variables that hold parameters. *)
Record dos_params := mk_params {
  dos_cc_enabled : bool;
  dos_cc_min_concurrent_conn : Z;
  dos_cc_circuit_rate : Z;
  dos_cc_circuit_burst : Z;
  dos_cc_defense_type : Z;
  dos_cc_defense_time_period : Z;
  dos_conn_enabled : bool;
  dos_conn_max_concurrent_count : Z;
  dos_conn_defense_type : Z;
  dos_conn_connect_rate : Z;
  dos_conn_connect_burst : Z;
  dos_conn_connect_defense_time_period : Z }.
Definition dos_params_start : dos_params :=
  mk_params false 0 0 0 0 0 false 0 0 DOS_CONN_CONNECT_RATE_DEFAULT DOS_CONN_CONNECT_BURST_DEFAULT DOS_CONN_CONNECT_DEFENSE_TIME_PERIOD_DEFAULT.

Section params.
Context (opt : dos_options) (ns : option (list bytes)).

Definition get_param_cc_enabled : outcome bool :=
  if negb (DoSCircuitCreationEnabled opt =? -1) then Ok (negb (DoSCircuitCreationEnabled opt =? 0))
  else let* v := networkstatus_get_param ns (bs "DoSCircuitCreationEnabled") DOS_CC_ENABLED_DEFAULT 0 1 in Ok (negb (v =? 0)).
Definition get_param_cc_min_concurrent_connection : outcome Z :=
  if negb (DoSCircuitCreationMinConnections opt =? 0) then Ok (wrap 32 (DoSCircuitCreationMinConnections opt))
  else networkstatus_get_param ns (bs "DoSCircuitCreationMinConnections") DOS_CC_MIN_CONCURRENT_CONN_DEFAULT 1 INT32_MAX.
Definition get_param_cc_circuit_rate : outcome Z :=
  if negb (DoSCircuitCreationRate opt =? 0) then Ok (wrap 32 (DoSCircuitCreationRate opt))
  else networkstatus_get_param ns (bs "DoSCircuitCreationRate") DOS_CC_CIRCUIT_RATE_DEFAULT 1 INT32_MAX.
Definition get_param_cc_circuit_burst : outcome Z :=
  if negb (DoSCircuitCreationBurst opt =? 0) then Ok (wrap 32 (DoSCircuitCreationBurst opt))
  else networkstatus_get_param ns (bs "DoSCircuitCreationBurst") DOS_CC_CIRCUIT_BURST_DEFAULT 1 INT32_MAX.
Definition get_param_cc_defense_type : outcome Z :=
  if negb (DoSCircuitCreationDefenseType opt =? 0) then Ok (wrap 32 (DoSCircuitCreationDefenseType opt))
  else networkstatus_get_param ns (bs "DoSCircuitCreationDefenseType") DOS_CC_DEFENSE_TYPE_DEFAULT DOS_CC_DEFENSE_NONE DOS_CC_DEFENSE_MAX.
Definition get_param_cc_defense_time_period : outcome Z :=
  if negb (DoSCircuitCreationDefenseTimePeriod opt =? 0) then Ok (DoSCircuitCreationDefenseTimePeriod opt)
  else networkstatus_get_param ns (bs "DoSCircuitCreationDefenseTimePeriod") DOS_CC_DEFENSE_TIME_PERIOD_DEFAULT 0 INT32_MAX.
Definition get_param_conn_enabled : outcome bool :=
  if negb (DoSConnectionEnabled opt =? -1) then Ok (negb (DoSConnectionEnabled opt =? 0))
  else let* v := networkstatus_get_param ns (bs "DoSConnectionEnabled") DOS_CONN_ENABLED_DEFAULT 0 1 in Ok (negb (v =? 0)).
Definition get_param_conn_max_concurrent_count : outcome Z :=
  if negb (DoSConnectionMaxConcurrentCount opt =? 0) then Ok (wrap 32 (DoSConnectionMaxConcurrentCount opt))
  else networkstatus_get_param ns (bs "DoSConnectionMaxConcurrentCount") DOS_CONN_MAX_CONCURRENT_COUNT_DEFAULT 1 INT32_MAX.
Definition get_param_conn_defense_type : outcome Z :=
  if negb (DoSConnectionDefenseType opt =? 0) then Ok (wrap 32 (DoSConnectionDefenseType opt))
  else networkstatus_get_param ns (bs "DoSConnectionDefenseType") DOS_CONN_DEFENSE_TYPE_DEFAULT DOS_CONN_DEFENSE_NONE DOS_CONN_DEFENSE_MAX.
Definition get_param_conn_connect_rate : outcome Z :=
  if negb (DoSConnectionConnectRate opt =? 0) then Ok (wrap 32 (DoSConnectionConnectRate opt))
  else networkstatus_get_param ns (bs "DoSConnectionConnectRate") DOS_CONN_CONNECT_RATE_DEFAULT 1 INT32_MAX.
Definition get_param_conn_connect_burst : outcome Z :=
  if negb (DoSConnectionConnectBurst opt =? 0) then Ok (wrap 32 (DoSConnectionConnectBurst opt))
  else networkstatus_get_param ns (bs "DoSConnectionConnectBurst") DOS_CONN_CONNECT_BURST_DEFAULT 1 INT32_MAX.
Definition get_param_conn_connect_defense_time_period : outcome Z :=
  if negb (DoSConnectionConnectDefenseTimePeriod opt =? 0) then Ok (DoSConnectionConnectDefenseTimePeriod opt)
  else networkstatus_get_param ns (bs "DoSConnectionConnectDefenseTimePeriod") DOS_CONN_CONNECT_DEFENSE_TIME_PERIOD_DEFAULT
         DOS_CONN_CONNECT_DEFENSE_TIME_PERIOD_MIN INT32_MAX.

Definition set_dos_parameters : outcome dos_params :=
  let* cc_enabled := get_param_cc_enabled in
  let* cc_min := get_param_cc_min_concurrent_connection in
  let* cc_rate := get_param_cc_circuit_rate in
  let* cc_burst := get_param_cc_circuit_burst in
  let* cc_period := get_param_cc_defense_time_period in
  let* cc_type := get_param_cc_defense_type in
  let* conn_enabled := get_param_conn_enabled in
  let* conn_max := get_param_conn_max_concurrent_count in
  let* conn_type := get_param_conn_defense_type in
  let* conn_rate := get_param_conn_connect_rate in
  let* conn_burst := get_param_conn_connect_burst in
  let* conn_period := get_param_conn_connect_defense_time_period in
  Ok (mk_params cc_enabled cc_min cc_rate cc_burst cc_type cc_period conn_enabled conn_max conn_type conn_rate conn_burst conn_period).
End params.

(** ** Statistics of an address *)
Record cc_client_stats := mk_cc {
  circuit_bucket : Z;
  last_circ_bucket_refill_ts : Z;
  cc_marked_until_ts : Z }.
Record conn_client_stats := mk_conn {
  concurrent_count : Z;
  connect_count : token_bucket_ctr;
  conn_marked_until_ts : Z }.
Record dos_client_stats := mk_stats { conn_stats : conn_client_stats; cc_stats : cc_client_stats }.
Definition dos_client_stats_zero : dos_client_stats := mk_stats (mk_conn 0 token_bucket_ctr_zero 0) (mk_cc 0 0 0).

Definition get_circuit_rate_per_second (p : dos_params) : Z := dos_cc_circuit_rate p.

(** The assertions about the new count are nonfatal. *)
Definition cc_stats_refill_bucket (p : dos_params) (stats : cc_client_stats) (now : Z) : cc_client_stats :=
  let last_refill_ts := last_circ_bucket_refill_ts stats in
  if now =? last_refill_ts then stats
  else
    let circuit_rate := get_circuit_rate_per_second p in
    let num_token :=
      if last_refill_ts =? 0 then dos_cc_circuit_burst p
      else if now <? last_refill_ts then dos_cc_circuit_burst p
      else
        let elapsed_time_last_refill := wrap 64 (now - last_refill_ts) in
        if UINT32_MAX <? elapsed_time_last_refill then dos_cc_circuit_burst p
        else wrap 64 (elapsed_time_last_refill * circuit_rate) in
    let new_circuit_bucket_count :=
      if UINT32_MAX - circuit_bucket stats <? num_token then dos_cc_circuit_burst p
      else
        let sum := wrap 32 (circuit_bucket stats + wrap 32 num_token) in
        if dos_cc_circuit_burst p <? sum then dos_cc_circuit_burst p else sum in
    mk_cc new_circuit_bucket_count now (cc_marked_until_ts stats).

Definition cc_has_exhausted_circuits (p : dos_params) (stats : dos_client_stats) : bool :=
  (circuit_bucket (cc_stats stats) =? 0) && (dos_cc_min_concurrent_conn p <=? concurrent_count (conn_stats stats)).

(** Half of the period is an [int] that becomes unsigned. The sums of times stay below 2^63. *)
Definition cc_mark_client (p : dos_params) (stats : cc_client_stats) (now : Z) (draws : list Z) : outcome cc_client_stats :=
  let* r := crypto_rand_int_range 1 (wrap 32 (Z.quot (dos_cc_defense_time_period p) 2)) draws in
  Ok (mk_cc (circuit_bucket stats) (last_circ_bucket_refill_ts stats) (now + dos_cc_defense_time_period p + r)).
Definition conn_mark_client (p : dos_params) (stats : conn_client_stats) (now : Z) (draws : list Z) : outcome conn_client_stats :=
  let* r := crypto_rand_int_range 1 (wrap 32 (Z.quot (dos_conn_connect_defense_time_period p) 2)) draws in
  Ok (mk_conn (concurrent_count stats) (connect_count stats) (now + dos_conn_connect_defense_time_period p + r)).

Definition conn_update_on_connect (p : dos_params) (stats : conn_client_stats) (now : Z) (draws : list Z) : outcome conn_client_stats :=
  let count := wrap 32 (concurrent_count stats + 1) in
  let* b := token_bucket_ctr_refill (connect_count stats) (wrap 32 now) in
  let* b :=
    if 0 <? token_bucket_ctr_get b then
      let* (b, _) := token_bucket_ctr_dec b 1 in Ok b
    else Ok b in
  let stats := mk_conn count b (conn_marked_until_ts stats) in
  if (token_bucket_ctr_get b =? 0) && (conn_marked_until_ts stats =? 0) then conn_mark_client p stats now draws else Ok stats.

Definition conn_update_on_close (stats : conn_client_stats) : conn_client_stats :=
  if concurrent_count stats =? 0 then stats
  else mk_conn (concurrent_count stats - 1) (connect_count stats) (conn_marked_until_ts stats).
