(* ===== verification/ClientMap.v ===== *)
(** * The client map and the mitigation that uses it: [feature/stats/geoip_stats.c], [core/or/dos.c]

    The entries of the client map, the connections that they count, and every operation of the mitigation on them. The
    hash table is a list of entries, found by the comparison that the table is generated with; its iteration order, which nothing
    depends on, is that of the list. A pointer to an entry is only used until the next lookup: an operation that finds an entry
    and changes it is an update of the entry with that key. The connections are a map by their identity. *)
From stdpp Require Import gmap.
From S2P Require Import Prelude ParseInt DiOps Strings Endian Address Sendme TokenBucket Dos.

Definition GEOIP_CLIENT_CONNECT : Z := 0.
Definition GEOIP_CLIENT_NETWORKSTATUS : Z := 1.
Definition MAX_LAST_SEEN_IN_MINUTES : Z := 0x3fffffff.
Definition WRITE_STATS_INTERVAL : Z := 24 * 60 * 60.
Definition GEOIP_CLIENT_CACHE_OOM_MIN_CUTOFF : Z := 4 * 60 * 60.
Definition GEOIP_CLIENT_CACHE_OOM_STEP : Z := 15 * 50.
Definition COUNTRY_MAX : Z := 32767.
Definition SIZE_MAX : Z := 18446744073709551615.

Record clientmap_entry := mk_entry {
  ent_addr : tor_addr;
  transport_name : option bytes;
  last_seen_in_minutes : Z;
  action : Z;
  dos_stats : dos_client_stats }.
Record or_connection := mk_orconn { conn_addr : tor_addr; tracked_for_dos_mitigation : bool }.

(** What is counted for the heartbeat. *)
Record dos_counters := mk_counters {
  cc_num_rejected_cells : Z;
  cc_num_marked_addrs : Z;
  conn_num_addr_rejected : Z;
  conn_num_addr_connect_rejected : Z;
  num_single_hop_client_refused : Z }.

Record world := mk_world {
  client_history : list clientmap_entry;
  connections : gmap Z or_connection;
  geoip_client_history_cache_size : Z;
  n_v3_ns_requests : list Z;
  dparams : dos_params;
  counters : dos_counters }.
Definition with_history (w : world) (l : list clientmap_entry) : world :=
  mk_world l (connections w) (geoip_client_history_cache_size w) (n_v3_ns_requests w) (dparams w) (counters w).
Definition with_connections (w : world) (m : gmap Z or_connection) : world :=
  mk_world (client_history w) m (geoip_client_history_cache_size w) (n_v3_ns_requests w) (dparams w) (counters w).
Definition with_cache_size (w : world) (n : Z) : world :=
  mk_world (client_history w) (connections w) n (n_v3_ns_requests w) (dparams w) (counters w).
Definition with_requests (w : world) (l : list Z) : world :=
  mk_world (client_history w) (connections w) (geoip_client_history_cache_size w) l (dparams w) (counters w).
Definition with_dparams (w : world) (p : dos_params) : world :=
  mk_world (client_history w) (connections w) (geoip_client_history_cache_size w) (n_v3_ns_requests w) p (counters w).
Definition with_counters (w : world) (c : dos_counters) : world :=
  mk_world (client_history w) (connections w) (geoip_client_history_cache_size w) (n_v3_ns_requests w) (dparams w) c.

(** ** The table *)
Definition clientmap_entries_eq (a b : clientmap_entry) : bool :=
  if negb (strcmp_opt (transport_name a) (transport_name b) =? 0) then false
  else tor_addr_eq (ent_addr a) (ent_addr b) && (action a =? action b).
Definition lookup_key (addr : tor_addr) (transport : option bytes) (act : Z) : clientmap_entry :=
  mk_entry addr transport 0 act dos_client_stats_zero.
Definition geoip_lookup_client (w : world) (addr : tor_addr) (transport : option bytes) (act : Z) : option clientmap_entry :=
  List.find (clientmap_entries_eq (lookup_key addr transport act)) (client_history w).

(** A change of the entry with the key of [e]: the one that a lookup finds. *)
Fixpoint update_entry (e : clientmap_entry) (l : list clientmap_entry) : list clientmap_entry :=
  match l with
  | [] => []
  | x :: l => if clientmap_entries_eq e x then e :: l else x :: update_entry e l
  end.
Definition with_stats (e : clientmap_entry) (s : dos_client_stats) : clientmap_entry :=
  mk_entry (ent_addr e) (transport_name e) (last_seen_in_minutes e) (action e) s.
Definition set_stats (w : world) (e : clientmap_entry) (s : dos_client_stats) : world :=
  with_history w (update_entry (with_stats e s) (client_history w)).

(** ** Memory of the table *)
Definition geoip_increment_client_history_cache_size (w : world) (n : Z) : world :=
  if SIZE_MAX - n <? geoip_client_history_cache_size w then with_cache_size w SIZE_MAX
  else with_cache_size w (geoip_client_history_cache_size w + n).
Definition geoip_decrement_client_history_cache_size (w : world) (n : Z) : world :=
  if geoip_client_history_cache_size w <? n then with_cache_size w 0
  else with_cache_size w (geoip_client_history_cache_size w - n).

Definition dos_geoip_entry_about_to_free (w : world) (e : clientmap_entry) : world :=
  if concurrent_count (conn_stats (dos_stats e)) =? 0 then w
  else with_connections w ((fun c => if tor_addr_eq (ent_addr e) (conn_addr c) then mk_orconn (conn_addr c) false else c) <$> connections w).

Definition dos_geoip_entry_init (p : dos_params) (e : clientmap_entry) (now : Z) : clientmap_entry :=
  let s := dos_stats e in
  with_stats e (mk_stats (mk_conn (concurrent_count (conn_stats s))
      (token_bucket_ctr_init (dos_conn_connect_rate p) (dos_conn_connect_burst p) (wrap 32 now)) (conn_marked_until_ts (conn_stats s))) (cc_stats s)).

(** [sizeof_entry] is the size of a [clientmap_entry_t], which the platform decides. *)
Section table.
Context (sizeof_entry : Z).

Definition clientmap_entry_size (e : clientmap_entry) : Z :=
  sizeof_entry + match transport_name e with Some t => zlen t | None => 0 end.
Definition clientmap_entry_free (w : world) (e : clientmap_entry) : world :=
  geoip_decrement_client_history_cache_size (dos_geoip_entry_about_to_free w e) (clientmap_entry_size e).
Definition clientmap_entry_new (w : world) (act : Z) (addr : tor_addr) (transport : option bytes) (now : Z) : outcome (world * clientmap_entry) :=
  tor_assert ((act =? GEOIP_CLIENT_CONNECT) || (act =? GEOIP_CLIENT_NETWORKSTATUS)) (
  let entry := dos_geoip_entry_init (dparams w) (mk_entry addr transport 0 act dos_client_stats_zero) now in
  Ok (geoip_increment_client_history_cache_size w (clientmap_entry_size entry), entry)).

(** The loops that go over the table and free the entries that [p] picks, with the bytes that the out-of-memory handler counts. *)
Fixpoint remove_entries (p : clientmap_entry -> bool) (l : list clientmap_entry) (w : world) (n : Z) : list clientmap_entry * world * Z :=
  match l with
  | [] => ([], w, n)
  | e :: l =>
      if p e then remove_entries p l (clientmap_entry_free w e) (wrap 64 (n + clientmap_entry_size e))
      else let '(l, w, n) := remove_entries p l w n in (e :: l, w, n)
  end.
Definition remove_where (p : clientmap_entry -> bool) (w : world) : world * Z :=
  let '(l, w, n) := remove_entries p (client_history w) w 0 in (with_history w l, n).

Definition client_history_clear (w : world) : world := fst (remove_where (fun e => action e =? GEOIP_CLIENT_CONNECT) w).
(** Division of a [time_t] rounds towards zero. *)
Definition geoip_remove_old_clients (w : world) (cutoff : Z) : world := fst (remove_where (fun e => last_seen_in_minutes e <? Z.quot cutoff 60) w).
Definition oom_clean_client_entries (w : world) (cutoff : Z) : world * Z := remove_where (fun e => last_seen_in_minutes e <? Z.quot cutoff 60) w.

(** The cutoff moves by 750 seconds from a day down to four hours: 96 rounds. *)
Fixpoint oom_loop (fuel : nat) (w : world) (now k min_remove_bytes bytes_removed : Z) : outcome (world * Z) :=
  match fuel with
  | O => Stuck
  | S fuel =>
      if k <=? GEOIP_CLIENT_CACHE_OOM_MIN_CUTOFF then Ok (w, bytes_removed)
      else
        let '(w, n) := oom_clean_client_entries w (now - k) in
        let bytes_removed := wrap 64 (bytes_removed + n) in
        if bytes_removed <? min_remove_bytes then oom_loop fuel w now (k - GEOIP_CLIENT_CACHE_OOM_STEP) min_remove_bytes bytes_removed
        else Ok (w, bytes_removed)
  end.
Definition geoip_client_cache_handle_oom (w : world) (now min_remove_bytes : Z) : outcome (world * Z) :=
  tor_assert (negb (min_remove_bytes =? 0)) (oom_loop 100 w now WRITE_STATS_INTERVAL min_remove_bytes 0).
Definition geoip_client_cache_total_allocation (w : world) : Z := geoip_client_history_cache_size w.

(** ** Clients that are seen *)
Record stats_options := mk_stats_options {
  EntryStatistics : bool;
  BridgeRelay : bool;
  BridgeRecordUsageByCountry : bool;
  DirReqStatistics : bool;
  BridgeAuthoritativeDir : bool }.
Definition should_record_bridge_info (o : stats_options) : bool := BridgeRelay o && BridgeRecordUsageByCountry o.
Definition dos_is_enabled (p : dos_params) : bool := dos_cc_enabled p || dos_conn_enabled p.
Definition dos_enabled (p : dos_params) : bool := dos_is_enabled p.

Definition increment_v3_ns_request (l : list Z) (country : Z) : outcome (list Z) :=
  if country <? 0 then Ok l
  else
    let l :=
      if zlen l <=? country then
        let new_len := if zlen l =? 0 then 256 else zlen l * 2 in
        let new_len := if new_len <=? country then country + 1 else new_len in
        l ++ replicate (Z.to_nat (new_len - zlen l)) 0
      else l in
    let* n := get (aget l country) in aset l country (wrap 32 (n + 1)).

(** [country] is what [geoip_get_country_by_addr] answers; [now] the argument and [clock] the time that [approx_time] gives. *)
Definition geoip_note_client_seen (o : stats_options) (country : Z) (w : world) (act : Z) (addr : tor_addr) (transport : option bytes) (now clock : Z) : outcome world :=
  if (if act =? GEOIP_CLIENT_CONNECT then negb (dos_enabled (dparams w)) && negb (EntryStatistics o) && negb (should_record_bridge_info o)
      else negb (DirReqStatistics o) || BridgeAuthoritativeDir o) then Ok w
  else
    let* (w, ent) :=
      match geoip_lookup_client w addr transport act with
      | Some ent => Ok (w, ent)
      | None => let* (w, ent) := clientmap_entry_new w act addr transport clock in Ok (with_history w (ent :: client_history w), ent)
      end in
    let seen := if (Z.quot now 60 <=? MAX_LAST_SEEN_IN_MINUTES) && (0 <=? now) then Z.quot now 60 else 0 in
    let w := with_history w (update_entry (mk_entry (ent_addr ent) (transport_name ent) seen (action ent) (dos_stats ent)) (client_history w)) in
    if act =? GEOIP_CLIENT_NETWORKSTATUS then
      let country_idx := if country <? 0 then 0 else country in
      if COUNTRY_MAX <? country_idx then Ok w
      else let* l := increment_v3_ns_request (n_v3_ns_requests w) country_idx in Ok (with_requests w l)
    else Ok w.
End table.

(** ** Circuits of an address: [core/or/dos.c] *)
Record channel := mk_channel { is_client : bool; remote_addr : option tor_addr }.
Definition channel_is_client (chan : channel) : bool := is_client chan.
Definition channel_get_addr_if_possible (chan : channel) : option tor_addr := remote_addr chan.

(** The entry of the client at the other end of a channel, if it is one that is followed. *)
Definition channel_entry (w : world) (chan : channel) : option clientmap_entry :=
  if negb (channel_is_client chan) then None
  else
    match channel_get_addr_if_possible chan with
    | None => None
    | Some addr => geoip_lookup_client w addr None GEOIP_CLIENT_CONNECT
    end.

Definition cc_channel_addr_is_marked (w : world) (chan : option channel) (now : Z) : bool :=
  match chan with
  | None => false
  | Some chan =>
      match channel_entry w chan with
      | None => false
      | Some entry => now <=? cc_marked_until_ts (cc_stats (dos_stats entry))
      end
  end.

Definition count_marked (c : dos_counters) : dos_counters :=
  mk_counters (cc_num_rejected_cells c) (wrap 32 (cc_num_marked_addrs c + 1)) (conn_num_addr_rejected c) (conn_num_addr_connect_rejected c) (num_single_hop_client_refused c).
Definition count_rejected_cell (c : dos_counters) : dos_counters :=
  mk_counters (wrap 64 (cc_num_rejected_cells c + 1)) (cc_num_marked_addrs c) (conn_num_addr_rejected c) (conn_num_addr_connect_rejected c) (num_single_hop_client_refused c).
Definition count_addr_rejected (c : dos_counters) : dos_counters :=
  mk_counters (cc_num_rejected_cells c) (cc_num_marked_addrs c) (wrap 64 (conn_num_addr_rejected c + 1)) (conn_num_addr_connect_rejected c) (num_single_hop_client_refused c).
Definition count_connect_rejected (c : dos_counters) : dos_counters :=
  mk_counters (cc_num_rejected_cells c) (cc_num_marked_addrs c) (conn_num_addr_rejected c) (wrap 64 (conn_num_addr_connect_rejected c + 1)) (num_single_hop_client_refused c).
Definition count_single_hop (c : dos_counters) : dos_counters :=
  mk_counters (cc_num_rejected_cells c) (cc_num_marked_addrs c) (conn_num_addr_rejected c) (conn_num_addr_connect_rejected c) (wrap 64 (num_single_hop_client_refused c + 1)).

Definition take_circuit (s : cc_client_stats) : cc_client_stats :=
  if 0 <? circuit_bucket s then mk_cc (circuit_bucket s - 1) (last_circ_bucket_refill_ts s) (cc_marked_until_ts s) else s.

Definition dos_cc_new_create_cell (w : world) (chan : channel) (now : Z) (draws : list Z) : outcome world :=
  if negb (dos_cc_enabled (dparams w)) then Ok w
  else
    match channel_entry w chan with
    | None => Ok w
    | Some entry =>
        let s := dos_stats entry in
        let cc := take_circuit (cc_stats_refill_bucket (dparams w) (cc_stats s) now) in
        let s := mk_stats (conn_stats s) cc in
        if cc_has_exhausted_circuits (dparams w) s then
          let c := if cc_marked_until_ts cc =? 0 then count_marked (counters w) else counters w in
          let* cc := cc_mark_client (dparams w) cc now draws in
          Ok (with_counters (set_stats w entry (mk_stats (conn_stats s) cc)) c)
        else Ok (set_stats w entry s)
    end.

Definition dos_cc_get_defense_type (w : world) (chan : channel) (now : Z) : world * Z :=
  if negb (dos_cc_enabled (dparams w)) then (w, DOS_CC_DEFENSE_NONE)
  else if cc_channel_addr_is_marked w (Some chan) now then (with_counters w (count_rejected_cell (counters w)), dos_cc_defense_type (dparams w))
  else (w, DOS_CC_DEFENSE_NONE).

(** ** Connections of an address *)
Definition with_conn_stats (s : dos_client_stats) (c : conn_client_stats) : dos_client_stats := mk_stats c (cc_stats s).

Definition dos_conn_addr_get_defense_type (w : world) (addr : tor_addr) (now : Z) : world * Z :=
  if negb (dos_conn_enabled (dparams w)) then (w, DOS_CONN_DEFENSE_NONE)
  else
    match geoip_lookup_client w addr None GEOIP_CLIENT_CONNECT with
    | None => (w, DOS_CONN_DEFENSE_NONE)
    | Some entry =>
        let c := conn_stats (dos_stats entry) in
        if now <=? conn_marked_until_ts c then (with_counters w (count_connect_rejected (counters w)), dos_conn_defense_type (dparams w))
        else
          let w := set_stats w entry (with_conn_stats (dos_stats entry) (mk_conn (concurrent_count c) (connect_count c) 0)) in
          if dos_conn_max_concurrent_count (dparams w) <? concurrent_count c
          then (with_counters w (count_addr_rejected (counters w)), dos_conn_defense_type (dparams w))
          else (w, DOS_CONN_DEFENSE_NONE)
    end.

(** [known] is what [nodelist_probably_contains_address] answers. A connection that does not exist is no case of the code. *)
Definition dos_new_client_conn (known : tor_addr -> bool) (w : world) (id : Z) (transport : option bytes) (now : Z) (draws : list Z) : outcome world :=
  let* or_conn := get (connections w !! id) in
  if negb (dos_is_enabled (dparams w)) then Ok w
  else if known (conn_addr or_conn) then Ok w
  else
    match geoip_lookup_client w (conn_addr or_conn) transport GEOIP_CLIENT_CONNECT with
    | None => Ok w
    | Some entry =>
        let* c := conn_update_on_connect (dparams w) (conn_stats (dos_stats entry)) now draws in
        let w := set_stats w entry (with_conn_stats (dos_stats entry) c) in
        Ok (with_connections w (<[id := mk_orconn (conn_addr or_conn) true]> (connections w)))
    end.

Definition dos_close_client_conn (w : world) (or_conn : or_connection) : world :=
  if negb (tracked_for_dos_mitigation or_conn) then w
  else
    match geoip_lookup_client w (conn_addr or_conn) None GEOIP_CLIENT_CONNECT with
    | None => w
    | Some entry => set_stats w entry (with_conn_stats (dos_stats entry) (conn_update_on_close (conn_stats (dos_stats entry))))
    end.

(** ** The subsystem *)
Definition cc_free_all (p : dos_params) : dos_params :=
  mk_params false (dos_cc_min_concurrent_conn p) (dos_cc_circuit_rate p) (dos_cc_circuit_burst p) (dos_cc_defense_type p) (dos_cc_defense_time_period p)
    (dos_conn_enabled p) (dos_conn_max_concurrent_count p) (dos_conn_defense_type p) (dos_conn_connect_rate p) (dos_conn_connect_burst p) (dos_conn_connect_defense_time_period p).
Definition conn_free_all (p : dos_params) : dos_params :=
  mk_params (dos_cc_enabled p) (dos_cc_min_concurrent_conn p) (dos_cc_circuit_rate p) (dos_cc_circuit_burst p) (dos_cc_defense_type p) (dos_cc_defense_time_period p)
    false (dos_conn_max_concurrent_count p) (dos_conn_defense_type p) (dos_conn_connect_rate p) (dos_conn_connect_burst p) (dos_conn_connect_defense_time_period p).
Definition cc_consensus_has_changed (opt : dos_options) (p : dos_params) (ns : option (list bytes)) : outcome dos_params :=
  if dos_cc_enabled p then let* e := get_param_cc_enabled opt ns in Ok (if negb e then cc_free_all p else p) else Ok p.
Definition conn_consensus_has_changed (opt : dos_options) (p : dos_params) (ns : option (list bytes)) : outcome dos_params :=
  if dos_conn_enabled p then let* e := get_param_conn_enabled opt ns in Ok (if negb e then conn_free_all p else p) else Ok p.
Definition dos_consensus_has_changed (opt : dos_options) (public_server_mode : bool) (w : world) (ns : option (list bytes)) : outcome world :=
  if negb public_server_mode then Ok w
  else
    let* p := cc_consensus_has_changed opt (dparams w) ns in
    let* p := conn_consensus_has_changed opt p ns in
    let* p := set_dos_parameters opt ns in
    Ok (with_dparams w p).
Definition dos_init (opt : dos_options) (w : world) (latest : option (list bytes)) : outcome world :=
  let* p := set_dos_parameters opt latest in Ok (with_dparams w p).
Definition dos_free_all (w : world) : world := with_dparams w (conn_free_all (cc_free_all (dparams w))).

Definition dos_note_refuse_single_hop_client (w : world) : world := with_counters w (count_single_hop (counters w)).
Definition dos_should_refuse_single_hop_client (opt : dos_options) (public_server_mode : bool) (latest : option (list bytes)) : outcome bool :=
  if negb public_server_mode then Ok false
  else if negb (DoSRefuseSingleHopClientRendezvous opt =? -1) then Ok (negb (DoSRefuseSingleHopClientRendezvous opt =? 0))
  else let* v := networkstatus_get_param latest (bs "DoSRefuseSingleHopClientRendezvous") 0 0 1 in Ok (negb (v =? 0)).

(** ** The callers: [channel_do_open_actions], [connection_handle_listener_read], [connection_free_] *)

(** A channel opens that the other side started: the address is noted in the map, then the connection counted. *)
Definition channel_do_open_actions (sizeof_entry : Z) (o : stats_options) (known : tor_addr -> bool) (w : world) (chan : channel) (id : Z)
    (transport : option bytes) (now clock : Z) (draws : list Z) : outcome world :=
  if negb (channel_is_client chan) then Ok w
  else
    match channel_get_addr_if_possible chan with
    | None => Ok w
    | Some addr =>
        let* w := geoip_note_client_seen sizeof_entry o 0 w GEOIP_CLIENT_CONNECT addr transport now clock in
        dos_new_client_conn known w id transport clock draws
    end.
(** The connection leaves the array of connections before it is freed. *)
Definition connection_free_or (w : world) (id : Z) : outcome world :=
  let* or_conn := get (connections w !! id) in
  Ok (dos_close_client_conn (with_connections w (delete id (connections w))) or_conn).
