(* ===== verification/DosFacts.v ===== *)
(** * The mitigation counts connections exactly, and limits circuits: proofs about [Dos.v] and [ClientMap.v] *)
From stdpp Require Import gmap relations.
From S2P Require Import Prelude ParseInt DiOps Strings Endian Address Sendme SendmeFacts InaddrSafe StringOrder TokenBucket Dos ClientMap.

(** ** The table finds entries by their key *)
Abbreviation client_key := (tor_addr * option bytes * Z)%type.
Definition key (e : clientmap_entry) : client_key := (ent_addr e, transport_name e, action e).
Definition entry_ok (e : clientmap_entry) : Prop := addr_ok (ent_addr e) /\ forall t, transport_name e = Some t -> c_string t.

Lemma transport_eqb (a b : option bytes) : (forall t, a = Some t -> c_string t) -> (forall t, b = Some t -> c_string t) ->
  (strcmp_opt a b =? 0) = bool_decide (a = b).
Proof.
  intros Ha Hb. destruct a as [a|], b as [b|]; [|done..]. cbn [strcmp_opt]. rewrite strcmp_eqb by auto.
  apply bool_decide_ext. split; [by intros ->|by intros [= ->]].
Qed.

Lemma entries_eqb (a b : clientmap_entry) : entry_ok a -> entry_ok b -> clientmap_entries_eq a b = bool_decide (key a = key b).
Proof.
  intros [Ha Ha'] [Hb Hb']. unfold clientmap_entries_eq. rewrite transport_eqb, addr_eqb by done. unfold key.
  apply Bool.eq_iff_eq_true. rewrite bool_decide_eq_true. destruct (decide (transport_name a = transport_name b)) as [E|E].
  - rewrite bool_decide_true by done. cbn [negb]. rewrite andb_true_iff, bool_decide_eq_true, Z.eqb_eq, E. split; [by intros [-> ->]|by intros [= -> ->]].
  - rewrite bool_decide_false by done. cbn [negb]. split; [done|]. intros H. by simplify_eq.
Qed.

Lemma find_key (k : clientmap_entry) (l : list clientmap_entry) : entry_ok k -> Forall entry_ok l ->
  match List.find (clientmap_entries_eq k) l with
  | Some e => e ∈ l /\ key e = key k
  | None => key k ∉ map key l
  end.
Proof.
  intros Hk. induction l as [|x l IH]; intros Hl; [apply not_elem_of_nil|]. inversion Hl; subst. cbn [List.find].
  rewrite entries_eqb by done. case_bool_decide as E; [split; [left|done]|]. specialize (IH ltac:(done)).
  destruct (List.find _ l) as [e|]; [destruct IH; by split; [right|]|]. cbn. by rewrite not_elem_of_cons.
Qed.

Lemma update_keys (e : clientmap_entry) (l : list clientmap_entry) : entry_ok e -> Forall entry_ok l -> map key (update_entry e l) = map key l.
Proof.
  intros He. induction l as [|x l IH]; intros Hl; [done|]. inversion Hl; subst. cbn [update_entry].
  rewrite entries_eqb by done. case_bool_decide as E; cbn [map]; [by rewrite E|by rewrite IH].
Qed.

Lemma update_ok (e : clientmap_entry) (l : list clientmap_entry) : entry_ok e -> Forall entry_ok l -> Forall entry_ok (update_entry e l).
Proof.
  intros He. induction 1 as [|x l Hx Hl IH]; [done|]. cbn [update_entry]. destruct (clientmap_entries_eq e x); by constructor.
Qed.

Lemma update_elem (e x : clientmap_entry) (l : list clientmap_entry) : entry_ok e -> Forall entry_ok l -> NoDup (map key l) ->
  x ∈ update_entry e l -> (x = e /\ key e ∈ map key l) \/ (x ∈ l /\ key x <> key e).
Proof.
  intros He. induction l as [|y l IH]; intros Hl Hn Hx; [by apply elem_of_nil in Hx|]. inversion Hl; subst. cbn [map update_entry] in *.
  apply NoDup_cons in Hn as [Hy Hn]. rewrite entries_eqb in Hx by done. case_bool_decide as E.
  - apply elem_of_cons in Hx as [->|Hx]; [left; split; [done|rewrite E; left]|]. right. split; [by right|].
    intros E'. apply Hy. rewrite <- E, <- E'. apply list_elem_of_fmap. by exists x.
  - apply elem_of_cons in Hx as [->|Hx]; [right; split; [left|congruence]|].
    destruct (IH ltac:(done) Hn Hx) as [[-> H]|[H H']]; [left; split; [done|by right]|right; split; [by right|done]].
Qed.

(** ** Counting connections *)
Definition counted_at (a : tor_addr) (c : or_connection) : Prop := tracked_for_dos_mitigation c = true /\ conn_addr c = a.
#[export] Instance counted_at_dec a c : Decision (counted_at a c).
Proof. unfold counted_at. apply _. Defined.
Definition tcount (a : tor_addr) (m : gmap Z or_connection) : Z := Z.of_nat (size (filter (fun ic => counted_at a ic.2) m)).
Definition one (P : Prop) `{Decision P} : Z := if decide P then 1 else 0.

Lemma tcount_insert_new (a : tor_addr) (m : gmap Z or_connection) (i : Z) (c : or_connection) : m !! i = None ->
  tcount a (<[i := c]> m) = one (counted_at a c) + tcount a m.
Proof.
  intros Hi. unfold tcount, one. destruct (decide (counted_at a c)) as [H|H].
  - rewrite map_filter_insert_True by done. rewrite map_size_insert_None; [lia|]. by rewrite map_lookup_filter_None_2; [|left].
  - rewrite map_filter_insert_False by done. by rewrite delete_id.
Qed.

Lemma tcount_delete (a : tor_addr) (m : gmap Z or_connection) (i : Z) (c : or_connection) : m !! i = Some c ->
  tcount a (delete i m) = tcount a m - one (counted_at a c).
Proof.
  intros Hi. rewrite <- (insert_delete_id m i c Hi) at 2. rewrite tcount_insert_new by apply lookup_delete_eq. lia.
Qed.

Lemma tcount_insert (a : tor_addr) (m : gmap Z or_connection) (i : Z) (c c' : or_connection) : m !! i = Some c ->
  tcount a (<[i := c']> m) = one (counted_at a c') + tcount a m - one (counted_at a c).
Proof.
  intros Hi. rewrite <- insert_delete_eq, tcount_insert_new by apply lookup_delete_eq. rewrite (tcount_delete a m i c Hi). lia.
Qed.

Lemma tcount_range (a : tor_addr) (m : gmap Z or_connection) : 0 <= tcount a m <= Z.of_nat (size m).
Proof. unfold tcount. split; [lia|]. apply inj_le, map_subseteq_size, map_filter_subseteq. Qed.

Lemma tcount_ext (a : tor_addr) (m m' : gmap Z or_connection) :
  (forall i c', m' !! i = Some c' -> exists c, m !! i = Some c /\ (counted_at a c' <-> counted_at a c)) -> dom m = dom m' -> tcount a m = tcount a m'.
Proof.
  intros H Hd. unfold tcount. f_equal. rewrite <- !size_dom. f_equal. apply set_eq. intros i. rewrite !elem_of_dom. split; intros [c Hc];
    apply map_lookup_filter_Some in Hc as [Hi Hc].
  - assert (Hin : i ∈ dom m') by (rewrite <- Hd; apply elem_of_dom; by exists c). apply elem_of_dom in Hin as [c' Hi'].
    destruct (H i c' Hi') as (c0 & E & Hiff). exists c'. apply map_lookup_filter_Some. split; [done|]. apply Hiff. by simplify_eq.
  - destruct (H i c Hi) as (c0 & E & Hiff). exists c0. apply map_lookup_filter_Some. split; [done|]. by apply Hiff.
Qed.

Lemma tcount_zero (a : tor_addr) (m : gmap Z or_connection) : tcount a m = 0 -> forall i c, m !! i = Some c -> ~ counted_at a c.
Proof.
  intros H i c Hi Hc. unfold tcount in H. assert (E : filter (fun ic => counted_at a ic.2) m = ∅) by (apply map_size_empty_iff; lia).
  assert (filter (fun ic => counted_at a ic.2) m !! i = Some c) as E' by (by apply map_lookup_filter_Some). by rewrite E, lookup_empty in E'.
Qed.

(** ** The invariant of the map and the connections *)

(** The key under which the connections of an address without a transport are counted. *)
Definition conn_key (a : tor_addr) : client_key := (a, None, GEOIP_CLIENT_CONNECT).
Definition expected (e : clientmap_entry) (m : gmap Z or_connection) : Z :=
  if decide (key e = conn_key (ent_addr e)) then tcount (ent_addr e) m else 0.
Record counted (l : list clientmap_entry) (m : gmap Z or_connection) : Prop := {
  ct_entries : Forall entry_ok l;
  ct_conns : map_Forall (fun _ c => addr_ok (conn_addr c)) m;
  ct_nodup : NoDup (map key l);
  ct_count : forall e, e ∈ l -> concurrent_count (conn_stats (dos_stats e)) = expected e m;
  ct_tracked : forall i c, m !! i = Some c -> tracked_for_dos_mitigation c = true -> conn_key (conn_addr c) ∈ map key l }.

Lemma entry_in (l : list clientmap_entry) (e : clientmap_entry) : e ∈ l -> Forall entry_ok l -> entry_ok e.
Proof. intros He Hl. rewrite Forall_forall in Hl. by apply Hl. Qed.
Lemma key_in (l : list clientmap_entry) (e : clientmap_entry) : e ∈ l -> key e ∈ map key l.
Proof. intros. apply list_elem_of_fmap. by exists e. Qed.
Lemma expected_key (e e' : clientmap_entry) (m : gmap Z or_connection) : key e = key e' -> expected e m = expected e' m.
Proof. unfold expected. intros E. assert (ent_addr e = ent_addr e') as Ha by (by injection E). rewrite E, Ha. done. Qed.

Lemma entry_ok_key (e e' : clientmap_entry) : key e' = key e -> entry_ok e -> entry_ok e'.
Proof. destruct e, e'. unfold key, entry_ok. cbn. by intros [= -> -> ->]. Qed.

(** An entry changes in anything but its key and its count. *)
Lemma counted_update (l : list clientmap_entry) (m m' : gmap Z or_connection) (e e' : clientmap_entry) : counted l m -> e ∈ l -> key e' = key e ->
  concurrent_count (conn_stats (dos_stats e')) = expected e m' ->
  map_Forall (fun _ c => addr_ok (conn_addr c)) m' ->
  (forall x, x ∈ l -> key x <> key e -> expected x m' = expected x m) ->
  (forall i c, m' !! i = Some c -> tracked_for_dos_mitigation c = true -> conn_key (conn_addr c) ∈ map key l) ->
  counted (update_entry e' l) m'.
Proof.
  intros [He _ Hn Hc _] Hin Hk Hcnt Hm Hx Ht. pose proof (entry_in l e Hin He) as Hoe.
  pose proof (entry_ok_key e e' Hk Hoe) as Hoe'.
  split; [by apply update_ok|done|by rewrite update_keys|..].
  - intros x Hx'. apply update_elem in Hx' as [[-> _]|[Hx' Hne]]; [..|done|done|done].
    + rewrite Hcnt. by apply expected_key.
    + rewrite Hk in Hne. rewrite Hx by done. by apply Hc.
  - by rewrite update_keys.
Qed.

Lemma lookup_in (w : world) (a : tor_addr) (t : option bytes) (act : Z) : Forall entry_ok (client_history w) -> addr_ok a -> (forall t', t = Some t' -> c_string t') ->
  match geoip_lookup_client w a t act with
  | Some e => e ∈ client_history w /\ key e = (a, t, act)
  | None => (a, t, act) ∉ map key (client_history w)
  end.
Proof. intros Hl Ha Ht. apply (find_key (lookup_key a t act) (client_history w)); [by split|done]. Qed.

(** ** Entries that are freed *)
Definition freed (m : gmap Z or_connection) (e : clientmap_entry) : gmap Z or_connection :=
  if concurrent_count (conn_stats (dos_stats e)) =? 0 then m
  else (fun c => if tor_addr_eq (ent_addr e) (conn_addr c) then mk_orconn (conn_addr c) false else c) <$> m.

Lemma free_connections (sz : Z) (w : world) (e : clientmap_entry) : connections (clientmap_entry_free sz w e) = freed (connections w) e.
Proof.
  unfold clientmap_entry_free, geoip_decrement_client_history_cache_size, dos_geoip_entry_about_to_free, freed.
  destruct (concurrent_count _ =? 0), (_ <? _); done.
Qed.

Lemma freed_lookup (m : gmap Z or_connection) (e : clientmap_entry) (i : Z) (c' : or_connection) : addr_ok (ent_addr e) ->
  map_Forall (fun _ c => addr_ok (conn_addr c)) m -> concurrent_count (conn_stats (dos_stats e)) <> 0 -> freed m e !! i = Some c' ->
  exists c, m !! i = Some c /\ conn_addr c' = conn_addr c /\
    tracked_for_dos_mitigation c' = tracked_for_dos_mitigation c && negb (bool_decide (ent_addr e = conn_addr c)).
Proof.
  intros He Hm Hc. unfold freed. rewrite (proj2 (Z.eqb_neq _ 0)) by done. rewrite lookup_fmap. destruct (m !! i) as [c|] eqn:Hi; [|done].
  cbn. intros [= <-]. exists c. rewrite addr_eqb by (done || by eapply Hm). case_bool_decide; cbn; by rewrite ?andb_false_r, ?andb_true_r.
Qed.

Lemma counted_remove (kept l : list clientmap_entry) (m m' : gmap Z or_connection) (e : clientmap_entry) :
  counted (kept ++ e :: l) m -> map_Forall (fun _ c => addr_ok (conn_addr c)) m' ->
  (forall x, key x <> key e -> expected x m' = expected x m) ->
  (forall i c', m' !! i = Some c' -> tracked_for_dos_mitigation c' = true ->
     exists c, m !! i = Some c /\ tracked_for_dos_mitigation c = true /\ conn_addr c' = conn_addr c /\ conn_key (conn_addr c) <> key e) ->
  counted (kept ++ l) m'.
Proof.
  intros [He _ Hn Hc Ht] Hm Hx Hk. assert (Hin : forall x, x ∈ kept ++ l -> x ∈ kept ++ e :: l) by (intros x; rewrite !elem_of_app, elem_of_cons; tauto).
  rewrite map_app in Hn, Ht. cbn [map] in Hn, Ht. rewrite NoDup_app, NoDup_cons in Hn. destruct Hn as (Hn1 & Hn2 & Hn3 & Hn4).
  rewrite Forall_forall in He. split; [apply Forall_forall; auto|done| | |].
  - rewrite map_app. apply NoDup_app. split; [done|split; [|done]]. intros k Hk1 Hk2. apply (Hn2 k Hk1). by right.
  - intros x Hxin. rewrite Hx; [by apply Hc, Hin|]. intros E. apply elem_of_app in Hxin as [Hxin|Hxin]; apply key_in in Hxin; rewrite E in Hxin;
      [by apply (Hn2 _ Hxin); left|done].
  - intros i c' Hi Htr. destruct (Hk i c' Hi Htr) as (c & Hic & Htc & -> & Hne). specialize (Ht i c Hic Htc).
    rewrite map_app. rewrite elem_of_app, elem_of_cons in Ht. rewrite elem_of_app. tauto.
Qed.

Lemma counted_free (kept l : list clientmap_entry) (m : gmap Z or_connection) (e : clientmap_entry) :
  counted (kept ++ e :: l) m -> counted (kept ++ l) (freed m e).
Proof.
  intros H. pose proof H as [He Hm _ Hc _]. assert (Hin : e ∈ kept ++ e :: l) by (rewrite elem_of_app; right; left).
  pose proof (entry_in _ e Hin He) as [Hoe _]. pose proof (Hc e Hin) as Hce. destruct (decide (concurrent_count (conn_stats (dos_stats e)) = 0)) as [H0|H0].
  - unfold freed. rewrite H0, Z.eqb_refl. apply (counted_remove kept l m m e); [done..|]. intros i c Hi Htr. exists c. split; [done|split; [done|split; [done|]]].
    intros E. unfold expected in Hce. assert (Ha : ent_addr e = conn_addr c) by (unfold key, conn_key in E; congruence).
    rewrite <- E, Ha, decide_True, H0 in Hce by done. by apply (tcount_zero _ m (eq_sym Hce) i c Hi).
  - assert (Hk : key e = conn_key (ent_addr e)) by (unfold expected in Hce; destruct (decide _); congruence).
    pose proof (fun i c' => freed_lookup m e i c' Hoe Hm H0) as Hfr. apply (counted_remove kept l m _ e H).
    + intros i c' Hi. destruct (Hfr i c' Hi) as (c & Hic & -> & _). by eapply Hm.
    + intros x Hx. unfold expected. destruct (decide (key x = _)) as [Ex|]; [|done]. symmetry.
      apply tcount_ext; [|unfold freed; by rewrite (proj2 (Z.eqb_neq _ 0)), dom_fmap_L by done]. intros i c' Hi. destruct (Hfr i c' Hi) as (c & Hic & Ea & Etr).
      exists c. split; [done|]. unfold counted_at. rewrite Ea, Etr. case_bool_decide as Eq; cbn [negb]; [|by rewrite andb_true_r].
      rewrite andb_false_r. split; [by intros []|]. intros [_ Eax]. destruct Hx. rewrite Ex, Hk. congruence.
    + intros i c' Hi Htr. destruct (Hfr i c' Hi) as (c & Hic & Ea & Etr). rewrite Htr in Etr. symmetry in Etr. apply andb_true_iff in Etr as [Htc Hb].
      apply negb_true_iff, bool_decide_eq_false in Hb. exists c. split; [done|split; [done|split; [done|]]]. rewrite Hk. unfold conn_key. congruence.
Qed.

Lemma remove_entries_counted (sz : Z) (p : clientmap_entry -> bool) (l : list clientmap_entry) : forall kept w n,
  counted (kept ++ l) (connections w) ->
  let '(l', w', _) := remove_entries sz p l w n in counted (kept ++ l') (connections w') /\ dparams w' = dparams w /\ size (connections w') = size (connections w).
Proof.
  induction l as [|e l IH]; intros kept w n H; [done|]. cbn [remove_entries]. destruct (p e).
  - specialize (IH kept (clientmap_entry_free sz w e) (wrap 64 (n + clientmap_entry_size sz e))). rewrite free_connections in IH.
    specialize (IH (counted_free _ _ _ _ H)). destruct (remove_entries _ _ _ _) as [[l' w'] n'] eqn:E. destruct IH as (IH & Hp & Hs). split; [done|split].
    + rewrite Hp. unfold clientmap_entry_free, geoip_decrement_client_history_cache_size, dos_geoip_entry_about_to_free.
      destruct (concurrent_count _ =? 0), (_ <? _); done.
    + rewrite Hs. unfold freed. destruct (_ =? 0); [done|]. apply map_size_fmap.
  - specialize (IH (kept ++ [e]) w n). rewrite <- app_assoc in IH. specialize (IH H). destruct (remove_entries _ _ l w n) as [[l' w'] n'].
    rewrite <- app_assoc in IH. exact IH.
Qed.

(** ** The states of the program *)
Definition ok (w : world) : Prop := counted (client_history w) (connections w).

Lemma remove_where_ok (sz : Z) (p : clientmap_entry -> bool) (w : world) : ok w ->
  ok (fst (remove_where sz p w)) /\ size (connections (fst (remove_where sz p w))) = size (connections w).
Proof.
  intros H. unfold remove_where. pose proof (remove_entries_counted sz p (client_history w) [] w 0 H) as Hr.
  destruct (remove_entries _ _ _ _) as [[l' w'] n'] eqn:E. destruct Hr as (Hr & _ & Hs). by split.
Qed.

Lemma set_stats_ok (w : world) (e : clientmap_entry) (s : dos_client_stats) : ok w -> e ∈ client_history w ->
  concurrent_count (conn_stats s) = concurrent_count (conn_stats (dos_stats e)) -> ok (set_stats w e s).
Proof.
  intros H Hin Hs. pose proof H as [_ Hm _ Hc Ht]. unfold ok, set_stats. cbn. apply (counted_update _ (connections w)  _ e); try done.
  cbn. rewrite Hs. by apply Hc.
Qed.

Lemma no_entry_no_conn (w : world) (a : tor_addr) : ok w -> conn_key a ∉ map key (client_history w) -> tcount a (connections w) = 0.
Proof.
  intros [_ _ _ _ Ht] Ha. unfold tcount.
  assert (filter (fun ic => counted_at a ic.2) (connections w) = ∅) as ->; [|done]. apply map_eq. intros i. rewrite lookup_empty. apply map_lookup_filter_None. right. intros c Hi [Htr E]. apply Ha. rewrite <- E. by apply (Ht i c).
Qed.

Lemma new_entry_ok (w : world) (e : clientmap_entry) : ok w -> entry_ok e -> key e ∉ map key (client_history w) -> concurrent_count (conn_stats (dos_stats e)) = 0 ->
  ok (with_history w (e :: client_history w)).
Proof.
  intros H He Hk H0. pose proof H as [Hl Hm Hn Hc Ht]. split; cbn; [by constructor|done|by constructor| |].
  - intros x Hx. apply elem_of_cons in Hx as [->|Hx]; [|by apply Hc]. rewrite H0. unfold expected. destruct (decide _) as [E|]; [|done].
    symmetry. apply no_entry_no_conn; [done|]. by rewrite <- E.
  - intros i c Hi Htr. right. by apply (Ht i c).
Qed.

(** The entry of an update differs in its age. *)
Lemma update_age_ok (w : world) (e e' : clientmap_entry) : ok w -> e ∈ client_history w -> key e' = key e -> dos_stats e' = dos_stats e ->
  ok (with_history w (update_entry e' (client_history w))).
Proof.
  intros H Hin Hk Hs. pose proof H as [_ Hm _ Hc Ht]. unfold ok. cbn. apply (counted_update _ (connections w) _ e); try done. rewrite Hs. by apply Hc.
Qed.

Lemma note_client_seen_ok (sz : Z) (o : stats_options) (country : Z) (w w' : world) (act : Z) (a : tor_addr) (t : option bytes) (now clock : Z) :
  ok w -> addr_ok a -> (forall t', t = Some t' -> c_string t') -> geoip_note_client_seen sz o country w act a t now clock = Ok w' ->
  ok w' /\ connections w' = connections w /\ dparams w' = dparams w.
Proof.
  intros H Ha Ht. unfold geoip_note_client_seen. destruct (if act =? GEOIP_CLIENT_CONNECT then _ else _); [by intros [= <-]|].
  pose proof (lookup_in w a t act (ct_entries _ _ H) Ha Ht) as Hl. cbv zeta.
  assert (Hent : forall w1 e, ok w1 -> connections w1 = connections w -> dparams w1 = dparams w -> e ∈ client_history w1 ->
    forall seen r, (let w2 := with_history w1 (update_entry (mk_entry (ent_addr e) (transport_name e) seen (action e) (dos_stats e)) (client_history w1)) in
      if act =? GEOIP_CLIENT_NETWORKSTATUS then
        let country_idx := if country <? 0 then 0 else country in
        if COUNTRY_MAX <? country_idx then Ok w2
        else let* l := increment_v3_ns_request (n_v3_ns_requests w2) country_idx in Ok (with_requests w2 l)
      else Ok w2) = Ok r -> ok r /\ connections r = connections w /\ dparams r = dparams w).
  { intros w1 e H1 Hc1 Hp1 Hin seen r Hr. cbv zeta in Hr.
    pose proof (update_age_ok w1 e (mk_entry (ent_addr e) (transport_name e) seen (action e) (dos_stats e)) H1 Hin eq_refl eq_refl) as H2.
    destruct (act =? GEOIP_CLIENT_NETWORKSTATUS); [|by injection Hr as <-]. destruct (COUNTRY_MAX <? _); [by injection Hr as <-|].
    destruct (increment_v3_ns_request _ _) as [l| |]; [|done..]. by injection Hr as <-. }
  destruct (geoip_lookup_client w a t act) as [e|]; cbn [obind].
  - destruct Hl as [Hin _]. intros Hr. by eapply (Hent w e H).
  - unfold clientmap_entry_new. destruct ((act =? _) || _); [|done]. cbn [tor_assert obind].
    set (e := dos_geoip_entry_init _ _ _). set (w1 := geoip_increment_client_history_cache_size w _).
    assert (H1 : client_history w1 = client_history w /\ connections w1 = connections w /\ dparams w1 = dparams w).
    { unfold w1, geoip_increment_client_history_cache_size. by destruct (SIZE_MAX - clientmap_entry_size sz e <? geoip_client_history_cache_size w). }
    destruct H1 as (E1 & E2 & E3). intros Hr. apply (Hent (with_history w1 (e :: client_history w1)) e) in Hr; [done|..]; [|done|done|by left].
    apply new_entry_ok; [|by split|by rewrite E1|done]. unfold ok. by rewrite E1, E2.
Qed.

Lemma connect_count_wrap (p : dos_params) (s s' : conn_client_stats) (now : Z) (draws : list Z) : conn_update_on_connect p s now draws = Ok s' ->
  concurrent_count s' = wrap 32 (concurrent_count s + 1).
Proof.
  unfold conn_update_on_connect, conn_mark_client. destruct (token_bucket_ctr_refill _ _) as [b| |]; [|done..]. cbn [obind].
  destruct (if 0 <? token_bucket_ctr_get b then _ else _) as [b'| |]; [|done..]. cbn [obind].
  destruct (_ && _); [|by intros [= <-]]. cbn [concurrent_count]. destruct (crypto_rand_int_range _ _ _); [|done..]. by intros [= <-].
Qed.

Lemma one_yes (P : Prop) `{Decision P} : P -> one P = 1.
Proof. intros. unfold one. by rewrite decide_True. Qed.
Lemma one_no (P : Prop) `{Decision P} : ~ P -> one P = 0.
Proof. intros. unfold one. by rewrite decide_False. Qed.

Lemma new_conn_ok (known : tor_addr -> bool) (w w' : world) (id : Z) (c : or_connection) (now : Z) (draws : list Z) :
  ok w -> Z.of_nat (size (connections w)) < 2 ^ 32 -> connections w !! id = Some c -> tracked_for_dos_mitigation c = false ->
  dos_new_client_conn known w id None now draws = Ok w' -> ok w' /\ size (connections w') = size (connections w).
Proof.
  intros H Hsz Hi Htr. unfold dos_new_client_conn. rewrite Hi. cbn [get obind]. destruct (negb _); [by intros [= <-]|]. destruct (known _); [by intros [= <-]|].
  pose proof H as [Hl Hm Hn Hc Ht]. pose proof (lookup_in w (conn_addr c) None GEOIP_CLIENT_CONNECT Hl (Hm id c Hi) ltac:(done)) as Hlk.
  destruct (geoip_lookup_client _ _ _ _) as [e|]; [|by intros [= <-]]. destruct Hlk as [Hin Hk].
  destruct (conn_update_on_connect _ _ _ _) as [s'| |] eqn:Es; [|done..]. cbn [obind]. intros [= <-]. apply connect_count_wrap in Es.
  assert (Ha : ent_addr e = conn_addr c) by (unfold key in Hk; congruence).
  set (c' := mk_orconn (conn_addr c) true). set (m' := <[id:=c']> (connections w)).
  assert (Hone : forall a, tcount a m' = tcount a (connections w) + one (counted_at a c')).
  { intros a. unfold m'. rewrite (tcount_insert a _ id c c' Hi), (one_no (counted_at a c)); [lia|]. intros [E _]. congruence. }
  assert (Hsize : size m' = size (connections w)) by (unfold m'; rewrite map_size_insert, Hi; done).
  split; [|exact Hsize]. unfold ok. cbn [set_stats with_history with_connections client_history connections]. apply (counted_update _ (connections w) m' e); try done.
  - cbn. rewrite Es, (Hc e Hin). unfold expected. rewrite Ha.  rewrite !decide_True by exact Hk. pose proof (tcount_range (conn_addr c) m') as Hr. pose proof (tcount_range (conn_addr c) (connections w)).
    rewrite Hone, one_yes in Hr |- * by done. unfold wrap. rewrite Z.mod_small; lia.
  - unfold m'. apply map_Forall_insert_2; [by apply (Hm id c)|done].
  - intros x Hx Hne. unfold expected. destruct (decide _) as [Ex|]; [|done]. rewrite Hone, one_no; [lia|]. intros [_ Eq]. apply Hne. rewrite Ex, Hk. cbn in Eq. by rewrite Eq.
  - intros i c0 Hi0 Htr0. unfold m' in Hi0. apply lookup_insert_Some in Hi0 as [[<- <-]|[_ Hi0]]; [|by apply (Ht i c0)]. cbn. change (conn_key (conn_addr c)) with (conn_addr c, None (A := bytes), GEOIP_CLIENT_CONNECT).
    rewrite <- Hk. by apply key_in.
Qed.

Lemma delete_conn_untracked (w : world) (id : Z) (c : or_connection) : ok w -> connections w !! id = Some c -> tracked_for_dos_mitigation c = false ->
  ok (with_connections w (delete id (connections w))).
Proof.
  intros [Hl Hm Hn Hc Ht] Hi Htr. split; cbn; [done|by apply map_Forall_delete|done| |].
  - intros e He. rewrite (Hc e He). unfold expected. destruct (decide _); [|done]. rewrite (tcount_delete _ _ id c Hi), one_no; [lia|]. intros [E _]. congruence.
  - intros i c0 Hi0. apply lookup_delete_Some in Hi0 as [_ Hi0]. by apply (Ht i c0).
Qed.

Lemma close_ok (w w' : world) (id : Z) : ok w -> connection_free_or w id = Ok w' -> ok w' /\ connections w' = delete id (connections w).
Proof.
  intros H. unfold connection_free_or. destruct (connections w !! id) as [c|] eqn:Hi; [|done]. cbn [get obind]. intros [= <-].
  unfold dos_close_client_conn. destruct (tracked_for_dos_mitigation c) eqn:Htr; cbn [negb]; [|split; [by eapply delete_conn_untracked|done]].
  pose proof H as [Hl Hm Hn Hc Ht]. set (w1 := with_connections w (delete id (connections w))).
  pose proof (lookup_in w1 (conn_addr c) None GEOIP_CLIENT_CONNECT Hl (Hm id c Hi) ltac:(done)) as Hlk.
  destruct (geoip_lookup_client _ _ _ _) as [e|]; [|by destruct (Hlk (Ht id c Hi Htr))]. destruct Hlk as [Hin Hk]. split; [|done].
  assert (Ha : ent_addr e = conn_addr c) by (unfold key in Hk; congruence).
  pose proof (fun a => tcount_delete a (connections w) id c Hi) as Hd. unfold ok. cbn.
  assert (H1 : tcount (conn_addr c) (delete id (connections w)) = tcount (conn_addr c) (connections w) - 1) by (by rewrite Hd, one_yes).
  pose proof (tcount_range (conn_addr c) (delete id (connections w))).
  apply (counted_update _ (connections w) _ e); try done.
  - cbn. unfold conn_update_on_close. rewrite (Hc e Hin). unfold expected. rewrite Ha, !decide_True by exact Hk.
    rewrite (proj2 (Z.eqb_neq _ 0)) by lia. cbn. lia.
  - by apply map_Forall_delete.
  - intros x Hx Hne. unfold expected. destruct (decide _) as [Ex|]; [|done]. rewrite Hd, one_no; [lia|]. intros [_ Eq]. apply Hne. rewrite Ex, Hk. by rewrite Eq.
  - intros i c0 Hi0. apply lookup_delete_Some in Hi0 as [_ Hi0]. by apply (Ht i c0).
Qed.

Lemma oom_ok (sz : Z) (fuel : nat) : forall w w' now k m b n, ok w -> oom_loop sz fuel w now k m b = Ok (w', n) ->
  ok w' /\ size (connections w') = size (connections w).
Proof.
  induction fuel as [|fuel IH]; intros w w' now k m b n H; [done|]. cbn [oom_loop]. destruct (k <=? _); [by intros [= <- <-]|].
  unfold oom_clean_client_entries. pose proof (remove_where_ok sz (fun e => last_seen_in_minutes e <? Z.quot (now - k) 60) w H) as [H1 Hs].
  destruct (remove_where _ _ w) as [w1 n1]. cbn [fst] in *. destruct (_ <? m); [|by intros [= <- <-]]. intros E. rewrite <- Hs. by eapply IH.
Qed.

Lemma channel_entry_in (w : world) (chan : channel) (e : clientmap_entry) : ok w -> (forall a, remote_addr chan = Some a -> addr_ok a) ->
  channel_entry w chan = Some e -> e ∈ client_history w.
Proof.
  intros H Ha. unfold channel_entry, channel_get_addr_if_possible. destruct (negb _); [done|]. destruct (remote_addr chan) as [a|]; [|done].
  pose proof (lookup_in w a None GEOIP_CLIENT_CONNECT (ct_entries _ _ H) (Ha a eq_refl) ltac:(done)) as Hl.
  destruct (geoip_lookup_client _ _ _ _); [|done]. intros [= <-]. apply Hl.
Qed.

Lemma create_cell_ok (w w' : world) (chan : channel) (now : Z) (draws : list Z) : ok w -> (forall a, remote_addr chan = Some a -> addr_ok a) ->
  dos_cc_new_create_cell w chan now draws = Ok w' -> ok w' /\ connections w' = connections w.
Proof.
  intros H Ha. unfold dos_cc_new_create_cell. destruct (negb _); [by intros [= <-]|].
  destruct (channel_entry w chan) as [e|] eqn:Ee; [|by intros [= <-]]. apply channel_entry_in in Ee; [|done..].
  destruct (cc_has_exhausted_circuits _ _); [|intros [= <-]; by split; [apply set_stats_ok|]].
  destruct (cc_mark_client _ _ _ _) as [s| |]; [|done..]. cbn [obind]. intros [= <-]. split; [|done]. by apply (set_stats_ok w e).
Qed.

Lemma defense_type_ok (w : world) (a : tor_addr) (now : Z) : ok w -> addr_ok a ->
  ok (fst (dos_conn_addr_get_defense_type w a now)) /\ connections (fst (dos_conn_addr_get_defense_type w a now)) = connections w.
Proof.
  intros H Ha. unfold dos_conn_addr_get_defense_type. destruct (negb _); [done|].
  pose proof (lookup_in w a None GEOIP_CLIENT_CONNECT (ct_entries _ _ H) Ha ltac:(done)) as Hl. destruct (geoip_lookup_client _ _ _ _) as [e|]; [|done].
  destruct (now <=? _); [done|]. destruct Hl as [Hin _].
  pose proof (set_stats_ok w e (with_conn_stats (dos_stats e) (mk_conn (concurrent_count (conn_stats (dos_stats e))) (connect_count (conn_stats (dos_stats e))) 0)) H Hin eq_refl).
  by destruct (_ <? _).
Qed.

(** ** Runs of the relay *)

(** What can happen, in any order and at any time, to a relay whose clients use no pluggable transport: connections are accepted, opened once
    and closed, addresses are seen by the directory code, circuits are created, addresses are asked about, parameters change, and
    entries are freed for their age, for memory, or all at once. *)
Inductive dos_step (sz : Z) (known : tor_addr -> bool) (w : world) : world -> Prop :=
  | step_accept id a : addr_ok a -> connections w !! id = None -> Z.of_nat (size (connections w)) + 1 < 2 ^ 32 ->
      dos_step sz known w (with_connections w (<[id := mk_orconn a false]> (connections w)))
  | step_open o chan id c now clock draws w' : (forall a, remote_addr chan = Some a -> addr_ok a) ->
      connections w !! id = Some c -> tracked_for_dos_mitigation c = false ->
      channel_do_open_actions sz o known w chan id None now clock draws = Ok w' -> dos_step sz known w w'
  | step_close id w' : connection_free_or w id = Ok w' -> dos_step sz known w w'
  | step_seen o country a t now clock w' : addr_ok a -> (forall t', t = Some t' -> c_string t') ->
      geoip_note_client_seen sz o country w GEOIP_CLIENT_NETWORKSTATUS a t now clock = Ok w' -> dos_step sz known w w'
  | step_create chan now draws w' : (forall a, remote_addr chan = Some a -> addr_ok a) -> dos_cc_new_create_cell w chan now draws = Ok w' -> dos_step sz known w w'
  | step_defense a now : addr_ok a -> dos_step sz known w (fst (dos_conn_addr_get_defense_type w a now))
  | step_cell chan now : dos_step sz known w (fst (dos_cc_get_defense_type w chan now))
  | step_consensus opt public ns w' : dos_consensus_has_changed opt public w ns = Ok w' -> dos_step sz known w w'
  | step_init opt latest w' : dos_init opt w latest = Ok w' -> dos_step sz known w w'
  | step_clear : dos_step sz known w (client_history_clear sz w)
  | step_age cutoff : dos_step sz known w (geoip_remove_old_clients sz w cutoff)
  | step_oom now bytes w' n : geoip_client_cache_handle_oom sz w now bytes = Ok (w', n) -> dos_step sz known w w'.

Definition start (p : dos_params) : world := mk_world [] ∅ 0 [] p (mk_counters 0 0 0 0 0).
Definition fits (w : world) : Prop := Z.of_nat (size (connections w)) < 2 ^ 32.

Lemma start_ok (p : dos_params) : ok (start p) /\ fits (start p).
Proof. split; [|done]. split; cbn; [apply Forall_nil_2|apply map_Forall_empty|apply NoDup_nil_2|by intros e He%elem_of_nil|intros i c Hi; by rewrite lookup_empty in Hi]. Qed.

Lemma open_ok (sz : Z) (o : stats_options) (known : tor_addr -> bool) (w w' : world) (chan : channel) (id : Z) (c : or_connection) (now clock : Z) (draws : list Z) :
  ok w -> fits w -> (forall a, remote_addr chan = Some a -> addr_ok a) -> connections w !! id = Some c -> tracked_for_dos_mitigation c = false ->
  channel_do_open_actions sz o known w chan id None now clock draws = Ok w' -> ok w' /\ fits w'.
Proof.
  intros H Hf Ha Hi Htr. unfold channel_do_open_actions, channel_get_addr_if_possible. destruct (negb _); [by intros [= <-]|].
  destruct (remote_addr chan) as [a|]; [|by intros [= <-]].
  destruct (geoip_note_client_seen _ _ _ _ _ _ _ _ _) as [w1| |] eqn:E1; [|done..]. cbn [obind].
  destruct (note_client_seen_ok _ _ _ _ _ _ _ None _ _ H (Ha a eq_refl) ltac:(done) E1) as (H1 & Hc1 & _). intros E2.
  unfold fits in *. rewrite <- Hc1 in *. destruct (new_conn_ok _ _ _ _ _ _ _ H1 Hf Hi Htr E2) as [H2 Hs]. by rewrite Hs.
Qed.

Lemma accept_ok (w : world) (id : Z) (a : tor_addr) : ok w -> addr_ok a -> connections w !! id = None ->
  ok (with_connections w (<[id := mk_orconn a false]> (connections w))).
Proof.
  intros [Hl Hm Hn Hc Ht] Ha Hi. split; cbn; [done|by apply map_Forall_insert_2|done| |].
  - intros e He. rewrite (Hc e He). unfold expected. destruct (decide _); [|done]. rewrite tcount_insert_new, one_no; [lia|by intros [? _]|done].
  - intros i c Hic. apply lookup_insert_Some in Hic as [[<- <-]|[_ Hic]]; [done|by apply (Ht i c)].
Qed.

Lemma step_ok (sz : Z) (known : tor_addr -> bool) (w w' : world) : dos_step sz known w w' -> ok w -> fits w -> ok w' /\ fits w'.
Proof.
  intros Hs H Hf. destruct Hs.
  - split; [by apply accept_ok|]. unfold fits in *. cbn. rewrite map_size_insert_None by done. lia.
  - by eapply open_ok.
  - edestruct close_ok as [H1' E]; [exact H|eassumption|]. split; [done|]. unfold fits in *. rewrite E.
    pose proof (map_subseteq_size _ _ (delete_subseteq (connections w) id)). lia.
  - edestruct note_client_seen_ok as (H1' & E & _); [exact H| | |eassumption|]; [done..|]. split; [done|]. unfold fits. by rewrite E.
  - edestruct create_cell_ok as [H1' E]; [exact H| |eassumption|]; [done|]. split; [done|]. unfold fits. by rewrite E.
  - destruct (defense_type_ok w a now H ltac:(done)) as [H1 E]. split; [done|]. unfold fits. by rewrite E.
  - unfold dos_cc_get_defense_type. by destruct (negb (dos_cc_enabled (dparams w))), (cc_channel_addr_is_marked w (Some chan) now).
  - match goal with E : _ = Ok w' |- _ => revert E end. unfold dos_consensus_has_changed. destruct (negb public); [by intros [= <-]|].
    destruct (cc_consensus_has_changed _ _ _); [|done..]. cbn [obind]. destruct (conn_consensus_has_changed _ _ _); [|done..]. cbn [obind].
    destruct (set_dos_parameters _ _); [|done..]. by intros [= <-].
  - match goal with E : _ = Ok w' |- _ => revert E end. unfold dos_init. destruct (set_dos_parameters _ _); [|done..]. by intros [= <-].
  - destruct (remove_where_ok sz (fun e => action e =? GEOIP_CLIENT_CONNECT) w H) as [H1 E]. split; [done|]. unfold fits, client_history_clear. by rewrite E.
  - destruct (remove_where_ok sz (fun e => last_seen_in_minutes e <? Z.quot cutoff 60) w H) as [H1 E]. split; [done|]. unfold fits, geoip_remove_old_clients. by rewrite E.
  - match goal with E : _ = Ok (w', n) |- _ => revert E end. unfold geoip_client_cache_handle_oom. destruct (negb _); [|done]. cbn [tor_assert]. intros E.
    destruct (oom_ok _ _ _ _ _ _ _ _ _ H E) as [H1 Hs]. split; [done|]. unfold fits. by rewrite Hs.
Qed.

(** C24: A relay whose clients use no pluggable transport knows exactly how many of its open connections come from each address: after any run of
    connections, circuits, directory requests, parameter changes and removals of entries, the count of an address's entry is the number of
    open connections from it that are counted, an address without an entry has none, the close of a counted connection finds a positive
    count, and the answer to whether an address may connect again refuses exactly while it is marked or has more such connections than allowed. *)
Theorem dos_counts_connections (sz : Z) (known : tor_addr -> bool) (p : dos_params) (w : world) (a : tor_addr) (now : Z) :
  rtc (dos_step sz known) (start p) w -> addr_ok a -> 0 <= dos_conn_max_concurrent_count (dparams w) ->
  (forall id c, connections w !! id = Some c -> tracked_for_dos_mitigation c = true ->
     exists e, geoip_lookup_client w (conn_addr c) None GEOIP_CLIENT_CONNECT = Some e /\ 0 < concurrent_count (conn_stats (dos_stats e))) /\
  match geoip_lookup_client w a None GEOIP_CLIENT_CONNECT with
  | Some e => concurrent_count (conn_stats (dos_stats e)) = tcount a (connections w)
  | None => tcount a (connections w) = 0
  end /\
  (dos_conn_enabled (dparams w) = true ->
   let marked := match geoip_lookup_client w a None GEOIP_CLIENT_CONNECT with
                 | Some e => now <=? conn_marked_until_ts (conn_stats (dos_stats e)) | None => false end in
   snd (dos_conn_addr_get_defense_type w a now) =
     if marked || (dos_conn_max_concurrent_count (dparams w) <? tcount a (connections w)) then dos_conn_defense_type (dparams w) else DOS_CONN_DEFENSE_NONE).
Proof.
  intros Hr Ha Hmax. assert (H : ok w).
  { assert (ok w /\ fits w) as [H _]; [|done]. destruct (start_ok p) as [H0 H1]. induction Hr as [|x y z Hs _ IH]; [done|]. destruct (step_ok _ _ _ _ Hs H0 H1). by apply IH. }
  clear Hr. pose proof H as [Hl Hm Hn Hc Ht].
  assert (Hlk : forall b, addr_ok b -> match geoip_lookup_client w b None GEOIP_CLIENT_CONNECT with
    | Some e => concurrent_count (conn_stats (dos_stats e)) = tcount b (connections w) | None => tcount b (connections w) = 0 end).
  { intros b Hb. pose proof (lookup_in w b None GEOIP_CLIENT_CONNECT Hl Hb ltac:(done)) as Hk. destruct (geoip_lookup_client _ _ _ _) as [e|].
    - destruct Hk as [Hin Hk]. rewrite (Hc e Hin). unfold expected. assert (ent_addr e = b) as -> by (unfold key in Hk; congruence). by rewrite decide_True.
    - by apply no_entry_no_conn. }
  split; [|split; [by apply Hlk|]].
  - intros id c Hi Htr. specialize (Hlk (conn_addr c) (Hm id c Hi)).
    assert (Hp : 0 < tcount (conn_addr c) (connections w)).
    { pose proof (tcount_range (conn_addr c) (connections w)). destruct (decide (tcount (conn_addr c) (connections w) = 0)) as [E|]; [|lia].
      by destruct (tcount_zero _ _ E id c Hi). }
    destruct (geoip_lookup_client _ _ _ _) as [e|]; [|lia]. exists e. split; [done|lia].
  - intros Hen. unfold dos_conn_addr_get_defense_type. rewrite Hen. cbn [negb]. specialize (Hlk a Ha).
    destruct (geoip_lookup_client _ _ _ _) as [e|]; cbv zeta; [|by rewrite Hlk, (proj2 (Z.ltb_ge _ _))].
    rewrite Hlk. destruct (now <=? _); [done|]. cbn [set_stats with_history dparams]. by destruct (_ <? _).
Qed.

Definition demo_params : dos_params := mk_params false 3 3 90 2 3600 true 1 2 20 40 86400.
Definition demo_options : stats_options := mk_stats_options false false false false false.
Definition demo_addr : tor_addr := TA_INET 0x01020304.
Definition demo_chan : channel := mk_channel true (Some demo_addr).
(** A client accepted on connection [id], its channel opened with the given transport. *)
Definition demo_connect (w : world) (id : Z) (t : option bytes) : outcome world :=
  channel_do_open_actions 200 demo_options (fun _ => false) (with_connections w (<[id := mk_orconn demo_addr false]> (connections w))) demo_chan id t 1623024000 1623024000 [].

(** Two connections of one address: one more is refused. *)
Lemma dos_counts_connections_witness : exists w, rtc (dos_step 200 (fun _ => false)) (start demo_params) w /\
  tcount demo_addr (connections w) = 2 /\ snd (dos_conn_addr_get_defense_type w demo_addr 1623024001) = DOS_CONN_DEFENSE_CLOSE.
Proof.
  assert (Hrun : exists w, rtc (dos_step 200 (fun _ => false)) (start demo_params) w /\ (let* w1 := demo_connect (start demo_params) 1 None in demo_connect w1 2 None) = Ok w).
  { eexists. split; [|vm_compute; reflexivity]. eapply rtc_l; [apply (step_accept 200 _ _ 1 demo_addr); by vm_compute|].
    eapply rtc_l; [eapply (step_open 200 _ _ demo_options demo_chan 1 (mk_orconn demo_addr false) 1623024000 1623024000 []); [by intros a [= <-]|by vm_compute|done|by vm_compute]|].
    eapply rtc_l; [eapply (step_accept 200 _ _ 2 demo_addr); by vm_compute|].
    eapply rtc_l; [eapply (step_open 200 _ _ demo_options demo_chan 2 (mk_orconn demo_addr false) 1623024000 1623024000 []); [by intros a [= <-]|by vm_compute|done|by vm_compute]|].
    apply rtc_refl. }
  destruct Hrun as (w & Hr & E). exists w. vm_compute in E. injection E as E.
  assert (Hmax : 0 <= dos_conn_max_concurrent_count (dparams w)) by (rewrite <- E; by vm_compute).
  destruct (dos_counts_connections 200 (fun _ => false) demo_params w demo_addr 1623024001 Hr ltac:(done) Hmax) as (_ & _ & H).
  split; [exact Hr|]. rewrite H by (rewrite <- E; reflexivity). rewrite <- E. split; by vm_compute.
Defined.

(** With a pluggable transport the counts are wrong. The close of a connection looks for the entry without a transport: when a direct client and a client over
    a transport connect from one address and the second closes, the entry of the first loses its only connection, which is still open, and
    the entry of the second keeps one that is gone. *)
Theorem dos_transport_miscounts :
  exists w w', (let* w1 := demo_connect (start demo_params) 1 None in demo_connect w1 2 (Some (bs "obfs4"))) = Ok w /\ connection_free_or w 2 = Ok w' /\
    dom (connections w') = {[1]} /\ tcount demo_addr (connections w') = 1 /\
    (concurrent_count ∘ conn_stats ∘ dos_stats) <$> geoip_lookup_client w' demo_addr None GEOIP_CLIENT_CONNECT = Some 0 /\
    (concurrent_count ∘ conn_stats ∘ dos_stats) <$> geoip_lookup_client w' demo_addr (Some (bs "obfs4")) GEOIP_CLIENT_CONNECT = Some 1.
Proof. eexists _, _. split; [vm_compute; reflexivity|]. split; [vm_compute; reflexivity|]. by vm_compute. Qed.

(** ** Circuits *)

Lemma rand_range_ok (h : Z) (draws : list Z) : 2 <= h <= INT_MAX -> Exists (fun v => v < 2 ^ 31) draws ->
  exists r, crypto_rand_int_range 1 h draws = Ok r /\ 1 <= r < h.
Proof.
  unfold INT_MAX. intros Hh Hd. unfold crypto_rand_int_range, crypto_rand_int, crypto_rand_uint, INT_MAX, UINT_MAX, wrap.
  rewrite (proj2 (Z.ltb_lt 1 h)), (proj2 (Z.leb_le h _)) by lia. cbn [tor_assert]. rewrite Z.mod_small by lia.
  rewrite (proj2 (Z.leb_le (h - 1) _)), (proj2 (Z.ltb_lt (h - 1) _)), (proj2 (Z.ltb_lt 0 (h - 1))) by lia. cbn [tor_assert].
  assert (Hcut : 2 ^ 31 <= rand_cutoff 4294967295 (h - 1)) by (unfold rand_cutoff; pose proof (Z.mod_pos_bound 4294967295 (h - 1)); lia).
  assert (Hf : exists v, first_below (rand_cutoff 4294967295 (h - 1)) draws = Ok v).
  { induction Hd as [v l Hv|v l _ [v' IH]]; cbn [first_below]; [rewrite (proj2 (Z.ltb_lt _ _)) by lia; by exists v|]. destruct (v <? _); [by exists v|by exists v']. }
  destruct Hf as [v ->]. cbn [obind]. pose proof (Z.mod_pos_bound v (h - 1) ltac:(lia)).
  rewrite !to_int_small by (unfold INT32_MIN, INT32_MAX; rewrite ?to_int_small by (unfold INT32_MIN, INT32_MAX; lia); lia).
  eexists. split; [done|]. lia.
Qed.

Definition cc_ok (p : dos_params) (s : cc_client_stats) : Prop :=
  1 <= dos_cc_circuit_rate p <= UINT32_MAX /\ 0 <= dos_cc_circuit_burst p <= UINT32_MAX /\ 0 <= circuit_bucket s <= UINT32_MAX /\
  0 <= last_circ_bucket_refill_ts s < 2 ^ 62.
(** The circuits that an address has left when a cell arrives. *)
Definition circuits_left (p : dos_params) (s : cc_client_stats) (now : Z) : Z :=
  if now =? last_circ_bucket_refill_ts s then circuit_bucket s
  else if (last_circ_bucket_refill_ts s =? 0) || (now <? last_circ_bucket_refill_ts s) then dos_cc_circuit_burst p
  else Z.min (dos_cc_circuit_burst p) (circuit_bucket s + dos_cc_circuit_rate p * (now - last_circ_bucket_refill_ts s)).

Lemma refill_exact (p : dos_params) (s : cc_client_stats) (now : Z) : cc_ok p s -> 0 <= now < 2 ^ 62 ->
  cc_stats_refill_bucket p s now = mk_cc (circuits_left p s now) now (cc_marked_until_ts s).
Proof.
  intros (Hr & Hb & Hc & Ht) Hn. unfold cc_stats_refill_bucket, circuits_left, get_circuit_rate_per_second. destruct s as [b last mk]. cbn [circuit_bucket last_circ_bucket_refill_ts cc_marked_until_ts] in *.
  destruct (Z.eqb_spec now last) as [->|Hne]; [done|]. f_equal. unfold UINT32_MAX in *.
  assert (Hfull : forall n, n = dos_cc_circuit_burst p -> (if 4294967295 - b <? n then dos_cc_circuit_burst p
    else let sum := wrap 32 (b + wrap 32 n) in if dos_cc_circuit_burst p <? sum then dos_cc_circuit_burst p else sum) = dos_cc_circuit_burst p).
  { intros n ->. destruct (Z.ltb_spec (4294967295 - b) (dos_cc_circuit_burst p)); [done|]. unfold wrap. rewrite (Z.mod_small (dos_cc_circuit_burst p)), Z.mod_small by lia.
    cbv zeta. destruct (Z.ltb_spec (dos_cc_circuit_burst p) (b + dos_cc_circuit_burst p)); lia. }
  destruct (Z.eqb_spec last 0); cbn [orb]; [by apply Hfull|]. destruct (Z.ltb_spec now last); [by apply Hfull|].
  assert (He : wrap 64 (now - last) = now - last) by (apply Z.mod_small; lia). rewrite He.
  destruct (Z.ltb_spec 4294967295 (now - last)) as [Hbig|Hsmall]; [rewrite Hfull by done; nia|].
  assert (Hp : wrap 64 ((now - last) * dos_cc_circuit_rate p) = dos_cc_circuit_rate p * (now - last)) by (rewrite Z.mul_comm; apply Z.mod_small; nia).
  rewrite Hp. assert (0 <= dos_cc_circuit_rate p * (now - last)) by nia. generalize dependent (dos_cc_circuit_rate p * (now - last)). intros k _ Hk.
  destruct (Z.ltb_spec (4294967295 - b) k); [lia|]. unfold wrap. rewrite (Z.mod_small k), Z.mod_small by lia. cbv zeta.
  destruct (Z.ltb_spec (dos_cc_circuit_burst p) (b + k)); lia.
Qed.

Lemma find_update (k e : clientmap_entry) (l : list clientmap_entry) (e' : clientmap_entry) : entry_ok k -> Forall entry_ok l -> key e' = key e ->
  List.find (clientmap_entries_eq k) l = Some e -> List.find (clientmap_entries_eq k) (update_entry e' l) = Some e'.
Proof.
  intros Hk Hl He. induction Hl as [|x l Hx Hl IH]; [done|]. cbn [List.find update_entry]. intros Hf.
  assert (Hke : key e = key k /\ entry_ok e).
  { pose proof (find_key k (x :: l) Hk ltac:(by constructor)) as Hfk. cbn [List.find] in Hfk. rewrite Hf in Hfk. destruct Hfk as [Hin E]. split; [done|].
    apply (entry_in (x :: l)); [done|by constructor]. }
  destruct Hke as [Eke Hoe]. pose proof (entry_ok_key e e' He Hoe) as Hoe'. rewrite (entries_eqb k x) in Hf by done. rewrite (entries_eqb e' x) by done.
  case_bool_decide as E; case_bool_decide as E'; try congruence; cbn [List.find]; rewrite entries_eqb by done.
  - by rewrite bool_decide_true by congruence.
  - rewrite bool_decide_false by done. by apply IH.
Qed.

Lemma channel_entry_update (w : world) (chan : channel) (e : clientmap_entry) (s : dos_client_stats) : Forall entry_ok (client_history w) ->
  (forall a, remote_addr chan = Some a -> addr_ok a) -> channel_entry w chan = Some e -> channel_entry (set_stats w e s) chan = Some (with_stats e s).
Proof.
  intros Hl Ha. unfold channel_entry, channel_get_addr_if_possible. destruct (negb _); [done|]. destruct (remote_addr chan) as [a|]; [|done].
  apply find_update; [|done|done]. split; [by apply Ha|done].
Qed.

Lemma mark_ok (p : dos_params) (s : cc_client_stats) (now : Z) (draws : list Z) : 4 <= dos_cc_defense_time_period p <= INT_MAX -> Exists (fun v => v < 2 ^ 31) draws ->
  exists m, cc_mark_client p s now draws = Ok (mk_cc (circuit_bucket s) (last_circ_bucket_refill_ts s) m) /\
    now + dos_cc_defense_time_period p < m < now + dos_cc_defense_time_period p + Z.quot (dos_cc_defense_time_period p) 2.
Proof.
  unfold INT_MAX. intros Hp Hd. unfold cc_mark_client. set (h := Z.quot (dos_cc_defense_time_period p) 2).
  assert (Hh : 2 <= h <= INT_MAX) by (unfold h, INT_MAX; rewrite Z.quot_div_nonneg by lia; dlia).
  unfold wrap. rewrite Z.mod_small by (unfold INT_MAX in *; lia). destruct (rand_range_ok h draws Hh Hd) as (r & -> & Hr). cbn [obind].
  eexists. split; [done|]. lia.
Qed.

Lemma mark_short (p : dos_params) (s : cc_client_stats) (now : Z) (draws : list Z) : 0 <= dos_cc_defense_time_period p < 4 -> cc_mark_client p s now draws = Stuck.
Proof.
  intros Hp. unfold cc_mark_client, crypto_rand_int_range, wrap. rewrite Z.quot_div_nonneg, Z.mod_small by dlia.
  by rewrite (proj2 (Z.ltb_ge 1 _)) by dlia.
Qed.

(** C25: What a CREATE cell of a followed client does: the address's circuits are refilled at the rate up to the burst (to the burst when it was
    never refilled, or the clock went back), one is taken, and the address is marked exactly when none is left and it has enough connections; its
    cells are then refused from that moment until the mark, which lies between the period and one and a half periods ahead. A period below four
    seconds, which a consensus or the configuration may set, stops the relay with a failed assertion at the first address to be marked. *)
Theorem dos_create_cell_correct (w : world) (chan : channel) (e : clientmap_entry) (now : Z) (draws : list Z) :
  let p := dparams w in
  let s := dos_stats e in
  let left := Z.max 0 (circuits_left p (cc_stats s) now - 1) in
  let exhausted := (left =? 0) && (dos_cc_min_concurrent_conn p <=? concurrent_count (conn_stats s)) in
  let period := dos_cc_defense_time_period p in
  Forall entry_ok (client_history w) -> (forall a, remote_addr chan = Some a -> addr_ok a) ->
  dos_cc_enabled p = true -> channel_entry w chan = Some e -> cc_ok p (cc_stats s) -> 0 <= now < 2 ^ 62 -> 0 <= period <= INT_MAX ->
  Exists (fun v => v < 2 ^ 31) draws ->
  if exhausted && (period <? 4) then dos_cc_new_create_cell w chan now draws = Stuck
  else exists w' m, dos_cc_new_create_cell w chan now draws = Ok w' /\
    channel_entry w' chan = Some (with_stats e (mk_stats (conn_stats s) (mk_cc left now m))) /\
    (if exhausted then now + period < m < now + period + Z.quot period 2 else m = cc_marked_until_ts (cc_stats s)) /\
    forall t, snd (dos_cc_get_defense_type w' chan t) = if t <=? m then dos_cc_defense_type p else DOS_CC_DEFENSE_NONE.
Proof.
  cbv zeta. intros Hl Ha Hen He Hcc Hn Hp Hd. unfold dos_cc_new_create_cell. rewrite Hen, He. cbn [negb]. rewrite refill_exact by done.
  assert (Hleft : 0 <= circuits_left (dparams w) (cc_stats (dos_stats e)) now).
  { destruct Hcc as (H1 & H2 & H3 & H4). unfold circuits_left. destruct (now =? _); [lia|]. destruct (_ =? 0); cbn [orb]; [lia|]. destruct (Z.ltb_spec now (last_circ_bucket_refill_ts (cc_stats (dos_stats e)))); [lia|]. nia. }
  set (n := circuits_left _ _ _) in *. assert (Htake : take_circuit (mk_cc n now (cc_marked_until_ts (cc_stats (dos_stats e)))) = mk_cc (Z.max 0 (n - 1)) now (cc_marked_until_ts (cc_stats (dos_stats e)))).
  { unfold take_circuit. cbn [circuit_bucket]. destruct (Z.ltb_spec 0 n); cbn; f_equal; lia. }
  rewrite Htake. set (left := Z.max 0 (n - 1)). unfold cc_has_exhausted_circuits. cbn [cc_stats conn_stats circuit_bucket cc_marked_until_ts].
  assert (Hfin : forall w' m, channel_entry w' chan = Some (with_stats e (mk_stats (conn_stats (dos_stats e)) (mk_cc left now m))) -> dparams w' = dparams w ->
    forall t, snd (dos_cc_get_defense_type w' chan t) = if t <=? m then dos_cc_defense_type (dparams w) else DOS_CC_DEFENSE_NONE).
  { intros w' m E Ep t. unfold dos_cc_get_defense_type, cc_channel_addr_is_marked. rewrite Ep, Hen, E. cbn. by destruct (t <=? m). }
  destruct ((left =? 0) && _); cbn [andb]; cbv iota.
  - destruct (Z.ltb_spec (dos_cc_defense_time_period (dparams w)) 4); [by rewrite mark_short by lia|].
    destruct (mark_ok (dparams w) (mk_cc left now (cc_marked_until_ts (cc_stats (dos_stats e)))) now draws ltac:(lia) Hd) as (m & -> & Hm). cbn [obind].
    eexists _, m. split; [done|]. pose proof (channel_entry_update w chan e (mk_stats (conn_stats (dos_stats e)) (mk_cc left now m)) Hl Ha He) as Hu.
    split; [exact Hu|]. split; [done|]. by apply Hfin.
  - eexists _, _. split; [done|]. pose proof (channel_entry_update w chan e (mk_stats (conn_stats (dos_stats e)) (mk_cc left now (cc_marked_until_ts (cc_stats (dos_stats e))))) Hl Ha He) as Hu.
    split; [exact Hu|]. split; [done|]. by apply Hfin.
Qed.

(** An address with one circuit left and three connections is marked for more than an hour. *)
Lemma dos_create_cell_correct_witness :
  let p := mk_params true 3 3 90 2 3600 false 0 0 20 40 86400 in
  let e := mk_entry demo_addr None 27050400 GEOIP_CLIENT_CONNECT (mk_stats (mk_conn 3 token_bucket_ctr_zero 0) (mk_cc 1 1623024000 0)) in
  let w := mk_world [e] ∅ 200 [] p (mk_counters 0 0 0 0 0) in
  exists w' m, dos_cc_new_create_cell w demo_chan 1623024000 [123456789] = Ok w' /\ 1623024000 + 3600 < m < 1623024000 + 3600 + 1800 /\
    snd (dos_cc_get_defense_type w' demo_chan 1623027600) = DOS_CC_DEFENSE_REFUSE_CELL.
Proof.
  intros p e w. pose proof (dos_create_cell_correct w demo_chan e 1623024000 [123456789]) as H. cbv zeta in H.
  change (circuits_left (dparams w) (cc_stats (dos_stats e)) 1623024000) with 1 in H.
  change (((Z.max 0 (1 - 1) =? 0) && _) && _) with false in H. change ((Z.max 0 (1 - 1) =? 0) && _) with true in H. cbv iota in H.
  destruct H as (w' & m & E & _ & Hm & Ht).
  - apply Forall_cons. split; [by split|constructor].
  - by intros a [= <-].
  - reflexivity.
  - reflexivity.
  - by vm_compute.
  - by vm_compute.
  - by vm_compute.
  - constructor. by vm_compute.
  - exists w', m. split; [exact E|split; [exact Hm|]]. rewrite Ht. change (dos_cc_defense_time_period (dparams w)) with 3600 in Hm.
    rewrite (proj2 (Z.leb_le _ _)) by lia. reflexivity.
Defined.
