(* ===== verification/Contract.v ===== *)
(** * The directory contract: [DirectoryContract.sol]

    The smart contract that takes the place of Tor's directory authorities: relays register and upload their encrypted entries (SRI)
    with digests of the entries (NSD), the owner marks relays as unhealthy, relays read the entries, clients the digests. The contract is
    compiled with Solidity 0.7, whose integers wrap around. A call that reverts, by a [require] or by an access outside an array, is
    [Err]; it leaves the state as it was. Gas and the transfer of fees, which no method calls, are left out. *)
From stdpp Require Import gmap.
From S2P Require Import Prelude.

Definition uint8 (z : Z) : Z := wrap 8 z.
Definition uint16 (z : Z) : Z := wrap 16 z.

(** [require(b)]. *)
Definition require {A} (b : bool) (k : outcome A) : outcome A := if b then k else Err.
(** An array in memory; an access outside it reverts. *)
Definition mem_get {A} (l : list A) (i : Z) : outcome A := match aget l i with Some x => Ok x | None => Err end.
Definition mem_set {A} (l : list A) (i : Z) (x : A) : outcome (list A) := match aset l i x with Ok l => Ok l | _ => Err end.

(** ** The state *)

Record Relay := { registered : bool; healthflag : bool; counter : Z; Hdr : bytes; encryptedSRI : bytes; NSD : bytes }.
(** What a mapping holds where nothing was stored. *)
Definition no_relay : Relay :=
  {| registered := false; healthflag := false; counter := 0; Hdr := []; encryptedSRI := []; NSD := [] |}.

(** Addresses of accounts are integers. *)
Record contract := {
  owner : Z; RelayUploadPeriod : Z; relayIndex : Z; unhealthyRelaySet : list Z; CurrentCounter : Z;
  CounterOP : gmap Z bool; CounterList : gmap Z (list Z); relay : gmap Z Relay; relayaddr : gmap Z Z
}.

Definition CounterOP_at (c : contract) (i : Z) : bool := default false (CounterOP c !! i).
Definition CounterList_at (c : contract) (i : Z) : list Z := default [] (CounterList c !! i).
Definition relay_at (c : contract) (i : Z) : Relay := default no_relay (relay c !! i).
Definition relayaddr_at (c : contract) (a : Z) : Z := default 0 (relayaddr c !! a).

Definition set_relay (c : contract) (i : Z) (r : Relay) : contract :=
  {| owner := owner c; RelayUploadPeriod := RelayUploadPeriod c; relayIndex := relayIndex c; unhealthyRelaySet := unhealthyRelaySet c;
     CurrentCounter := CurrentCounter c; CounterOP := CounterOP c; CounterList := CounterList c;
     relay := <[i := r]> (relay c); relayaddr := relayaddr c |}.

(** The entry of the log under the current counter, and the next counter. *)
Definition log_operation (c : contract) (op : bool) (l : list Z) : contract :=
  {| owner := owner c; RelayUploadPeriod := RelayUploadPeriod c; relayIndex := relayIndex c; unhealthyRelaySet := unhealthyRelaySet c;
     CurrentCounter := uint8 (CurrentCounter c + 1);
     CounterOP := <[CurrentCounter c := op]> (CounterOP c); CounterList := <[CurrentCounter c := l]> (CounterList c);
     relay := relay c; relayaddr := relayaddr c |}.

(** [constructor], by the account [sender]. *)
Definition deploy (sender : Z) : contract :=
  {| owner := sender; RelayUploadPeriod := 60; relayIndex := 1; unhealthyRelaySet := []; CurrentCounter := 1;
     CounterOP := ∅; CounterList := ∅; relay := ∅; relayaddr := ∅ |}.

Section methods.
Context (sender : Z).

(** ** Methods of relays *)

Definition relay_registration_check (c : contract) : outcome Z :=
  if registered (relay_at c (relayaddr_at c sender)) then Ok (relayaddr_at c sender) else Ok 0.

Definition new_relay (r : Relay) : Relay :=
  {| registered := true; healthflag := true; counter := counter r; Hdr := Hdr r; encryptedSRI := encryptedSRI r; NSD := NSD r |}.

Definition relay_register (c : contract) : outcome contract :=
  require (negb (registered (relay_at c (relayaddr_at c sender)))) (
  let i := relayIndex c in
  let c1 := log_operation (set_relay c i (new_relay (relay_at c i))) true [i] in
  Ok {| owner := owner c1; RelayUploadPeriod := RelayUploadPeriod c1; relayIndex := uint16 (i + 1); unhealthyRelaySet := unhealthyRelaySet c1;
        CurrentCounter := CurrentCounter c1; CounterOP := CounterOP c1; CounterList := CounterList c1;
        relay := relay c1; relayaddr := <[sender := i]> (relayaddr c1) |}).

Definition is_registered (c : contract) : bool := registered (relay_at c (relayaddr_at c sender)).

Definition relay_get_upload_period (c : contract) : outcome Z := require (is_registered c) (Ok (RelayUploadPeriod c)).
Definition relay_get_index_set (c : contract) : outcome (Z * list Z) :=
  require (is_registered c) (Ok (relayIndex c, unhealthyRelaySet c)).
Definition relay_get_current_counter (c : contract) : outcome Z := require (is_registered c) (Ok (CurrentCounter c)).

Definition relay_upload_SRI_and_NSD (_counter : Z) (_Hdr _encryptedSRI _NSD : bytes) (c : contract) : outcome contract :=
  require (healthflag (relay_at c (relayaddr_at c sender))) (
  let index := relayaddr_at c sender in
  let r := relay_at c index in
  Ok (set_relay c index {| registered := registered r; healthflag := healthflag r; counter := _counter; Hdr := _Hdr;
                           encryptedSRI := _encryptedSRI; NSD := _NSD |})).

Definition relay_download_SRI (i : Z) (c : contract) : outcome (Z * bytes * bytes) :=
  require (is_registered c) (
  require ((i <? relayIndex c) && healthflag (relay_at c i)) (
  Ok (counter (relay_at c i), Hdr (relay_at c i), encryptedSRI (relay_at c i)))).

(** The loop over the counters from [i], which fills the arrays from their ends. *)
Fixpoint counter_list_loop (n : nat) (i : Z) (c : contract) (operation : list bool) (alterSet : list (list Z))
    : outcome (list bool * list (list Z)) :=
  match n with
  | O => Ok (operation, alterSet)
  | S n =>
      let* operation := mem_set operation (CurrentCounter c - i - 1) (CounterOP_at c i) in
      let* alterSet := mem_set alterSet (CurrentCounter c - i - 1) (CounterList_at c i) in
      counter_list_loop n (uint8 (i + 1)) c operation alterSet
  end.
Definition relay_get_counter_list (counter : Z) (c : contract) : outcome (list bool * list (list Z)) :=
  require (is_registered c) (
  require (counter <? CurrentCounter c) (
  let n := Z.to_nat (CurrentCounter c - counter) in
  counter_list_loop n counter c (replicate n false) (replicate n []))).

Definition relay_cancellation (c : contract) : outcome contract :=
  require (is_registered c) (
  Ok {| owner := owner c; RelayUploadPeriod := RelayUploadPeriod c; relayIndex := relayIndex c; unhealthyRelaySet := unhealthyRelaySet c;
        CurrentCounter := CurrentCounter c; CounterOP := CounterOP c; CounterList := CounterList c;
        relay := delete (relayaddr_at c sender) (relay c); relayaddr := delete sender (relayaddr c) |}).

(** ** The method of clients *)

(** The loop over the relays from [i]. *)
Fixpoint NSD_loop (n : nat) (i : Z) (c : contract) (NSDIndex : list bool) (NSDbytes : bytes) : outcome (list bool * bytes) :=
  match n with
  | O => Ok (NSDIndex, NSDbytes)
  | S n =>
      if healthflag (relay_at c i) then
        let* NSDIndex := mem_set NSDIndex (i - 1) true in
        NSD_loop n (uint16 (i + 1)) c NSDIndex (NSDbytes ++ NSD (relay_at c i))
      else
        let* NSDIndex := mem_set NSDIndex i false in
        NSD_loop n (uint16 (i + 1)) c NSDIndex NSDbytes
  end.
Definition client_download_NSD (c : contract) : outcome (list bool * bytes) :=
  NSD_loop (Z.to_nat (relayIndex c - 1)) 1 c (replicate (Z.to_nat (uint16 (relayIndex c - 1))) false) [].

(** ** Methods of the owner *)

Definition setSRIperiod (period : Z) (c : contract) : outcome contract :=
  require (sender =? owner c) (
  Ok {| owner := owner c; RelayUploadPeriod := period; relayIndex := relayIndex c; unhealthyRelaySet := unhealthyRelaySet c;
        CurrentCounter := CurrentCounter c; CounterOP := CounterOP c; CounterList := CounterList c; relay := relay c; relayaddr := relayaddr c |}).
Definition getrelayIndex (c : contract) : outcome Z := require (sender =? owner c) (Ok (relayIndex c)).
Definition getinfo (i : Z) (c : contract) : outcome (Z * bytes * bytes * bytes) :=
  require (sender =? owner c) (Ok (counter (relay_at c i), Hdr (relay_at c i), encryptedSRI (relay_at c i), NSD (relay_at c i))).
Definition getHealthFlag (i : Z) (c : contract) : outcome bool := require (sender =? owner c) (Ok (healthflag (relay_at c i))).

Definition unhealthy (r : Relay) : Relay :=
  {| registered := registered r; healthflag := false; counter := counter r; Hdr := Hdr r; encryptedSRI := encryptedSRI r; NSD := NSD r |}.
Definition push_unhealthy (c : contract) (i : Z) : contract :=
  {| owner := owner c; RelayUploadPeriod := RelayUploadPeriod c; relayIndex := relayIndex c; unhealthyRelaySet := unhealthyRelaySet c ++ [i];
     CurrentCounter := CurrentCounter c; CounterOP := CounterOP c; CounterList := CounterList c; relay := relay c; relayaddr := relayaddr c |}.

(** The loop over the first [size] entries of [l], from [i]. *)
Fixpoint modify_loop (n : nat) (i : Z) (l : list Z) (c : contract) : outcome contract :=
  match n with
  | O => Ok c
  | S n =>
      let* x := mem_get l i in
      require (healthflag (relay_at c x)) (
      modify_loop n (uint16 (i + 1)) l (push_unhealthy (set_relay c x (unhealthy (relay_at c x))) x))
  end.
Definition modifyHealthFlag (size : Z) (l : list Z) (c : contract) : outcome contract :=
  require (sender =? owner c) (
  let* c := modify_loop (Z.to_nat size) 0 l c in
  Ok (log_operation c false l)).

End methods.

(** ** Transactions *)

Inductive tx :=
  | Tx_relay_register
  | Tx_relay_upload_SRI_and_NSD (_counter : Z) (_Hdr _encryptedSRI _NSD : bytes)
  | Tx_relay_cancellation
  | Tx_setSRIperiod (period : Z)
  | Tx_modifyHealthFlag (size : Z) (l : list Z).

Definition call_tx (sender : Z) (t : tx) (c : contract) : outcome contract :=
  match t with
  | Tx_relay_register => relay_register sender c
  | Tx_relay_upload_SRI_and_NSD n h e d => relay_upload_SRI_and_NSD sender n h e d c
  | Tx_relay_cancellation => relay_cancellation sender c
  | Tx_setSRIperiod p => setSRIperiod sender p c
  | Tx_modifyHealthFlag size l => modifyHealthFlag sender size l c
  end.
(** A transaction that reverts changes nothing. *)
Definition transact (c : contract) (st : Z * tx) : contract :=
  match call_tx (fst st) (snd st) c with Ok c' => c' | _ => c end.
Definition transact_all (c : contract) (l : list (Z * tx)) : contract := fold_left transact l c.
