(* ===== verification/ContractFacts.v ===== *)
(** * The directory contract is a log of joins and removals

    The contract keeps its log under counters of eight bits. Up to 254 operations it is the list of the operations; the theorems
    say what relays read of it, what a cancellation leaves behind, what clients read, and what happens when the counter wraps around. *)
From stdpp Require Import gmap.
From S2P Require Import Prelude Contract.

(** ** The specification: a list of events *)

Inductive event := Joined (i : Z) | Removed (l : list Z).
Definition event_op (e : event) : bool := match e with Joined _ => true | Removed _ => false end.
Definition event_list (e : event) : list Z := match e with Joined i => [i] | Removed l => l end.

Definition member_step (S : list Z) (e : event) : list Z :=
  match e with Joined i => S ++ [i] | Removed l => filter (fun x => x ∉ l) S end.
(** The relays that take part after the events. *)
Definition members (h : list event) : list Z := fold_left member_step h [].

(** The events of a run of transactions. *)
Definition events (c : contract) (st : Z * tx) : list event :=
  match call_tx (fst st) (snd st) c, snd st with
  | Ok _, Tx_relay_register => [Joined (relayIndex c)]
  | Ok _, Tx_modifyHealthFlag _ l => [Removed l]
  | _, _ => []
  end.
Fixpoint history (c : contract) (txs : list (Z * tx)) : list event :=
  match txs with [] => [] | st :: txs => events c st ++ history (transact c st) txs end.

(** The owner gives the length of the list that it passes. *)
Definition well_sized (st : Z * tx) : Prop :=
  match snd st with Tx_modifyHealthFlag size l => size = zlen l /\ zlen l < 65536 | _ => True end.

Record refines (c : contract) (h : list event) : Prop := {
  ref_len : zlen h <= 254;
  ref_counter : CurrentCounter c = 1 + zlen h;
  ref_log (k : nat) (e : event) : h !! k = Some e ->
    CounterOP_at c (1 + Z.of_nat k) = event_op e /\ CounterList_at c (1 + Z.of_nat k) = event_list e;
  ref_zero : CounterOP_at c 0 = false /\ CounterList_at c 0 = [];
  ref_index : 1 <= relayIndex c <= 1 + zlen h;
  ref_members : members h = filter (fun x => x ∉ unhealthyRelaySet c) (seqZ 1 (relayIndex c - 1));
  ref_unhealthy : Forall (fun x => 1 <= x < relayIndex c) (unhealthyRelaySet c);
  ref_health (i : Z) : healthflag (relay_at c i) = true ->
    1 <= i < relayIndex c /\ registered (relay_at c i) = true /\ i ∉ unhealthyRelaySet c;
  ref_registered (i : Z) : registered (relay_at c i) = true ->
    1 <= i < relayIndex c /\ (healthflag (relay_at c i) = true \/ i ∈ unhealthyRelaySet c);
  ref_addr (a : Z) : relayaddr_at c a <> 0 -> registered (relay_at c (relayaddr_at c a)) = true;
  ref_addr_inj (a b : Z) : relayaddr_at c a <> 0 -> relayaddr_at c a = relayaddr_at c b -> a = b
}.

(** ** Reading the state *)

Lemma relay_at_set (c : contract) (i j : Z) (r : Relay) : relay_at (set_relay c i r) j = if decide (i = j) then r else relay_at c j.
Proof. unfold relay_at. cbn [set_relay relay]. destruct (decide (i = j)) as [->|]; [by rewrite lookup_insert_eq|by rewrite lookup_insert_ne]. Qed.

Lemma deploy_refines (o : Z) : refines (deploy o) [].
Proof. split; try done; try (by split); constructor. Qed.

Lemma not_registered_zero (c : contract) (h : list event) : refines c h -> registered (relay_at c 0) = false.
Proof. intros R. destruct (registered (relay_at c 0)) eqn:E; [|done]. apply (ref_registered c h R) in E. lia. Qed.

(** A registered account has an index of its own, which is not 0. *)
Lemma registered_index (c : contract) (h : list event) (a : Z) : refines c h -> is_registered a c = true ->
  relayaddr_at c a <> 0 /\ 1 <= relayaddr_at c a < relayIndex c.
Proof.
  intros R Ha. unfold is_registered in Ha. split; [|by apply (ref_registered c h R)].
  intros E. rewrite E, (not_registered_zero c h R) in Ha. done.
Qed.

Lemma unregistered_index (c : contract) (h : list event) (a : Z) : refines c h -> is_registered a c = false -> relayaddr_at c a = 0.
Proof.
  intros R Ha. destruct (decide (relayaddr_at c a = 0)) as [|n]; [done|]. apply (ref_addr c h R) in n. unfold is_registered in Ha. congruence.
Qed.

(** ** The log *)

Definition logs (c : contract) (h : list event) : Prop :=
  CurrentCounter c = 1 + zlen h /\ CounterOP_at c 0 = false /\ CounterList_at c 0 = [] /\
  forall k e, h !! k = Some e -> CounterOP_at c (1 + Z.of_nat k) = event_op e /\ CounterList_at c (1 + Z.of_nat k) = event_list e.

Lemma refines_logs (c : contract) (h : list event) : refines c h -> logs c h.
Proof. intros R. split_and!; apply R. Qed.

Lemma log_operation_logs (c : contract) (h : list event) (e : event) : zlen h <= 253 -> logs c h ->
  logs (log_operation c (event_op e) (event_list e)) (h ++ [e]).
Proof.
  intros Hl (HC & HO & HL & Hlog). unfold logs, log_operation, CounterOP_at, CounterList_at in *. cbn [CurrentCounter CounterOP CounterList].
  pose proof (zlen_nonneg h). rewrite zlen_app. change (zlen [e]) with 1. rewrite HC. split_and!.
  - unfold uint8, wrap. rewrite Z.mod_small by lia. lia.
  - by rewrite lookup_insert_ne by lia.
  - by rewrite lookup_insert_ne by lia.
  - intros k e' Hk. destruct (decide (k = length h)) as [->|Hn].
    + rewrite lookup_app_r, Nat.sub_diag in Hk by done. injection Hk as <-. unfold zlen. by rewrite !lookup_insert_eq.
    + assert (Hk' : (k < length h)%nat) by (apply lookup_lt_Some in Hk; rewrite length_app in Hk; cbn in Hk; lia).
      rewrite lookup_app_l in Hk by done. unfold zlen. rewrite !lookup_insert_ne by lia. by apply Hlog.
Qed.

Lemma members_snoc (h : list event) (e : event) : members (h ++ [e]) = member_step (members h) e.
Proof. unfold members. by rewrite fold_left_app. Qed.

(** ** Every transaction keeps the log *)

Lemma register_refines (c c' : contract) (h : list event) (a : Z) : refines c h -> zlen h <= 253 -> relay_register a c = Ok c' ->
  refines c' (h ++ [Joined (relayIndex c)]).
Proof.
  intros R Hl. pose proof (zlen_nonneg h). unfold relay_register. fold (is_registered a c). destruct (is_registered a c) eqn:Ea; cbn [negb require]; [done|]. intros [= <-].
  pose proof (unregistered_index c h a R Ea) as Ha. set (n := relayIndex c). assert (En : relayIndex c = n) by done. set (c1 := set_relay c n (new_relay (relay_at c n))).
  match goal with |- refines ?x _ => set (c' := x) end.
  assert (HL : logs c' (h ++ [Joined n])) by (apply (log_operation_logs c1 h (Joined n) Hl); apply (refines_logs c h R)).
  destruct HL as (HC & HO & HL & Hlog). pose proof (ref_index c h R) as Hn. pose proof (ref_len c h R).
  assert (Hn' : relayIndex c' = n + 1) by (cbn; unfold uint16, wrap; rewrite Z.mod_small; lia).
  assert (Hrel : forall i, relay_at c' i = if decide (n = i) then new_relay (relay_at c n) else relay_at c i) by (intros i; apply relay_at_set).
  assert (Hadr : forall b, relayaddr_at c' b = if decide (a = b) then n else relayaddr_at c b).
  { intros b. unfold relayaddr_at. cbn. destruct (decide (a = b)) as [->|]; [by rewrite lookup_insert_eq|by rewrite lookup_insert_ne]. }
  assert (Hun : Forall (fun x => 1 <= x < n) (unhealthyRelaySet c)) by apply (ref_unhealthy c h R).
  assert (Hfresh : n ∉ unhealthyRelaySet c) by (intros Hx; rewrite Forall_forall in Hun; apply Hun in Hx; lia).
  split; try done.
  - rewrite zlen_app. change (zlen [_]) with 1. lia.
  - rewrite Hn', zlen_app. change (zlen [_]) with 1. lia.
  - rewrite members_snoc, (ref_members c h R), Hn'. cbn [member_step]. replace (n + 1 - 1) with (relayIndex c - 1 + 1) by lia.
    rewrite seqZ_app by lia. rewrite filter_app. f_equal. change (seqZ ?m 1) with [m]. rewrite filter_cons_True by (cbn; by replace (1 + (relayIndex c - 1)) with n by lia).
    rewrite filter_nil. f_equal. lia.
  - rewrite Hn'. eapply Forall_impl; [exact Hun|]. cbn. lia.
  - intros i. rewrite Hrel, Hn'. destruct (decide (n = i)) as [<-|]; intros Hi; [by split_and!; [lia|lia| |]|].
    apply (ref_health c h R) in Hi as (? & ? & ?).  by split_and!; [lia|lia| |].
  - intros i. rewrite Hrel, Hn'. destruct (decide (n = i)) as [<-|]; intros Hi; [split; [lia|by left]|].
    apply (ref_registered c h R) in Hi as [? ?].  split; [lia|done].
  - intros b. rewrite Hadr, Hrel. destruct (decide (a = b)) as [->|]; [by rewrite decide_True|]. intros Hb.
    destruct (decide (n = _)); [done|]. by apply (ref_addr c h R).
  - intros b b'. rewrite !Hadr. assert (Hold : forall x, relayaddr_at c x <> 0 -> relayaddr_at c x <> n).
    { intros x Hx%(ref_addr c h R)%(ref_registered c h R).  lia. }
    assert (Hn0 : n <> 0) by lia. destruct (decide (a = b)) as [Hab|], (decide (a = b')) as [Hab'|]; intros Hb E; [congruence| | |by apply (ref_addr_inj c h R)].
    + destruct (Hold b'); [congruence|done].
    + by destruct (Hold b).
Qed.

(** A change of entries that leaves the flags and the registry alone. *)
Definition same_registry (c c' : contract) : Prop :=
  relayIndex c' = relayIndex c /\ unhealthyRelaySet c' = unhealthyRelaySet c /\ CurrentCounter c' = CurrentCounter c /\
  CounterOP c' = CounterOP c /\ CounterList c' = CounterList c /\ relayaddr c' = relayaddr c /\
  forall i, registered (relay_at c' i) = registered (relay_at c i) /\ healthflag (relay_at c' i) = healthflag (relay_at c i).

Lemma same_registry_refines (c c' : contract) (h : list event) : same_registry c c' -> refines c h -> refines c' h.
Proof.
  intros (E1 & E2 & E3 & E4 & E5 & E6 & Hrel) R.
  assert (Ha : forall a, relayaddr_at c' a = relayaddr_at c a) by (intros a; unfold relayaddr_at; by rewrite E6).
  assert (Ho : forall i, CounterOP_at c' i = CounterOP_at c i) by (intros i; unfold CounterOP_at; by rewrite E4).
  assert (Hl : forall i, CounterList_at c' i = CounterList_at c i) by (intros i; unfold CounterList_at; by rewrite E5).
  split; rewrite ?E1, ?E2, ?E3, ?Ho, ?Hl; try apply R.
  - intros k e. rewrite Ho, Hl. apply R.
  - intros i. destruct (Hrel i) as [-> ->]. apply R.
  - intros i. destruct (Hrel i) as [-> ->]. apply R.
  - intros a. rewrite Ha. destruct (Hrel (relayaddr_at c a)) as [-> _]. apply R.
  - intros a b. rewrite !Ha. apply R.
Qed.

Lemma upload_same (c c' : contract) (a n : Z) (hd e d : bytes) : relay_upload_SRI_and_NSD a n hd e d c = Ok c' -> same_registry c c'.
Proof.
  unfold relay_upload_SRI_and_NSD. destruct (healthflag _) eqn:Eh; cbn [require]; [|done]. intros [= <-]. unfold same_registry. split_and!; try done.
  intros i. rewrite relay_at_set. by destruct (decide _) as [<-|].
Qed.

Lemma period_same (c c' : contract) (a p : Z) : setSRIperiod a p c = Ok c' -> same_registry c c'.
Proof. unfold setSRIperiod. destruct (_ =? _); cbn [require]; [|done]. by intros [= <-]. Qed.

Lemma cancel_refines (c c' : contract) (h : list event) (a : Z) : refines c h -> relay_cancellation a c = Ok c' -> refines c' h.
Proof.
  intros R. unfold relay_cancellation. destruct (is_registered a c) eqn:Ea; cbn [require]; [|done]. intros [= <-].
  destruct (registered_index c h a R Ea) as [Hna Hia]. set (i0 := relayaddr_at c a) in *. match goal with |- refines ?x _ => set (c' := x) end.
  assert (Hrel : forall i, relay_at c' i = if decide (i0 = i) then no_relay else relay_at c i).
  { intros i. unfold relay_at. cbn. destruct (decide (i0 = i)) as [->|]; [by rewrite lookup_delete_eq|by rewrite lookup_delete_ne]. }
  assert (Hadr : forall b, relayaddr_at c' b = if decide (a = b) then 0 else relayaddr_at c b).
  { intros b. unfold relayaddr_at. cbn. destruct (decide (a = b)) as [->|]; [by rewrite lookup_delete_eq|by rewrite lookup_delete_ne]. }
  split; try apply R.
  - intros i. rewrite Hrel. destruct (decide _); [done|apply R].
  - intros i. rewrite Hrel. destruct (decide _); [done|apply R].
  - intros b. rewrite Hadr. destruct (decide (a = b)) as [|Hab]; [done|]. intros Hb. rewrite Hrel, decide_False; [by apply (ref_addr c h R)|].
    intros E. apply Hab. by apply (ref_addr_inj c h R).
  - intros b b'. rewrite !Hadr. destruct (decide (a = b)), (decide (a = b')); try congruence; by apply (ref_addr_inj c h R).
Qed.

(** The loop of [modifyHealthFlag]. *)
Lemma modify_loop_ok (l : list Z) (n : nat) : forall i c c', Z.of_nat n + i = zlen l -> 0 <= i -> zlen l < 65536 -> modify_loop n i l c = Ok c' ->
  let rest := drop (Z.to_nat i) l in
  relayIndex c' = relayIndex c /\ unhealthyRelaySet c' = unhealthyRelaySet c ++ rest /\ CurrentCounter c' = CurrentCounter c /\
  CounterOP c' = CounterOP c /\ CounterList c' = CounterList c /\ relayaddr c' = relayaddr c /\
  Forall (fun x => healthflag (relay_at c x) = true) rest /\
  forall j, relay_at c' j = if decide (j ∈ rest) then unhealthy (relay_at c j) else relay_at c j.
Proof.
  induction n as [|n IH]; intros i c c' Hn Hi Hl; cbn [modify_loop].
  - intros [= <-]. cbn zeta. rewrite drop_ge by (unfold zlen in Hn; lia). rewrite app_nil_r. split_and!; try done. 
  - unfold mem_get. destruct (aget l i) as [x|] eqn:Ex; cbn [obind]; [|done]. destruct (healthflag (relay_at c x)) eqn:Eh; cbn [require]; [|done].
    apply aget_Some in Ex as [_ Ex]. assert (Ei : uint16 (i + 1) = i + 1) by (unfold uint16, wrap; apply Z.mod_small; lia). rewrite Ei.
    intros H. apply IH in H as (E1 & E2 & E3 & E4 & E5 & E6 & Hall & Hrel); [|lia..].
    cbn [set_relay push_unhealthy relayIndex unhealthyRelaySet CurrentCounter CounterOP CounterList relayaddr] in *.
    assert (Hd : drop (Z.to_nat i) l = x :: drop (Z.to_nat (i + 1)) l) by (replace (Z.to_nat (i + 1)) with (S (Z.to_nat i)) by lia; by apply drop_S).
    cbn zeta. rewrite Hd.
    assert (Hset : forall j, relay_at (push_unhealthy (set_relay c x (unhealthy (relay_at c x))) x) j = if decide (x = j) then unhealthy (relay_at c x) else relay_at c j)
      by (intros j; apply relay_at_set).
    assert (Hall' : Forall (fun y => y <> x /\ healthflag (relay_at c y) = true) (drop (Z.to_nat (i + 1)) l)).
    { eapply Forall_impl; [exact Hall|]. intros y. cbn. rewrite Hset. destruct (decide (x = y)); [done|]. intros; split; [congruence|done]. }
    split_and!; try done; [by rewrite E2, <- app_assoc| |].
    + constructor; [done|]. eapply Forall_impl; [exact Hall'|]. by intros y [_ ?].
    + intros j. rewrite Hrel, !Hset. rewrite Forall_forall in Hall'. destruct (decide (j ∈ drop _ l)) as [Hj|Hj].
      * destruct (Hall' j Hj) as [Hne _]. rewrite decide_False by congruence. rewrite decide_True; [done|]. by right.
      * destruct (decide (x = j)) as [->|Hne]; [rewrite decide_True; [done|left]|rewrite decide_False; [done|]]. rewrite elem_of_cons. naive_solver.
Qed.

Lemma modify_refines (c c' : contract) (h : list event) (a : Z) (l : list Z) : refines c h -> zlen h <= 253 -> zlen l < 65536 ->
  modifyHealthFlag a (zlen l) l c = Ok c' -> refines c' (h ++ [Removed l]).
Proof.
  intros R Hh Hl. unfold modifyHealthFlag. destruct (_ =? _); cbn [require]; [|done]. destruct (modify_loop _ 0 l c) as [c1| |] eqn:Em; cbn [obind]; [|done..].
  intros [= <-]. match goal with |- refines ?x _ => set (c' := x) end.
  apply modify_loop_ok in Em as (E1 & E2 & E3 & E4 & E5 & E6 & Hall & Hrel); [|unfold zlen; lia|lia|done]. cbn [drop Z.to_nat] in *.
  assert (Hlogs : logs c1 h) by (destruct (refines_logs c h R) as (? & ? & ? & ?); unfold logs, CounterOP_at, CounterList_at in *; by rewrite E3, E4, E5).
  destruct (log_operation_logs c1 h (Removed l) Hh Hlogs) as (HC & HO & HL & Hlog).
  assert (Hr : forall i, relay_at c' i = if decide (i ∈ l) then unhealthy (relay_at c i) else relay_at c i) by done.
  assert (Ha : forall b, relayaddr_at c' b = relayaddr_at c b) by (intros b; unfold relayaddr_at; cbn; by rewrite E6).
  assert (Hreg : forall i, registered (relay_at c' i) = registered (relay_at c i)) by (intros i; rewrite Hr; by destruct (decide _)).
  assert (Hi : relayIndex c' = relayIndex c) by done. assert (Hu : unhealthyRelaySet c' = unhealthyRelaySet c ++ l) by done.
  assert (Hmem : forall x, x ∈ l -> healthflag (relay_at c x) = true) by (by apply Forall_forall).
  split; try done; rewrite ?Hi, ?Hu.
  - rewrite zlen_app. change (zlen [_]) with 1. lia.
  - rewrite zlen_app. change (zlen [_]) with 1. pose proof (ref_index c h R). lia.
  - rewrite members_snoc, (ref_members c h R). cbn [member_step]. rewrite list_filter_filter. apply list_filter_iff. intros x. rewrite elem_of_app. tauto.
  - apply Forall_app. split; [apply R|]. apply Forall_forall. intros x Hx%Hmem%(ref_health c h R). tauto.
  - intros i. rewrite Hreg, Hr. destruct (decide _) as [|Hn]; [done|]. intros Hx%(ref_health c h R). rewrite elem_of_app. tauto.
  - intros i. rewrite Hreg, Hr. intros Hx%(ref_registered c h R). rewrite elem_of_app. destruct (decide _); cbn [unhealthy healthflag]; tauto.
  - intros b. rewrite Ha, Hreg. apply (ref_addr c h R).
  - intros b b'. rewrite !Ha. apply (ref_addr_inj c h R).
Qed.

Lemma transact_refines (c : contract) (h : list event) (st : Z * tx) : refines c h -> well_sized st -> zlen (h ++ events c st) <= 254 ->
  refines (transact c st) (h ++ events c st).
Proof.
  intros R Hw. unfold transact, events. destruct st as [a t]. cbn [fst snd] in *. rewrite zlen_app. intros Hl.
  destruct (call_tx a t c) as [c'| |] eqn:E; [|by rewrite app_nil_r..].
  destruct t as [|n hd e d| |p|size l]; cbn [call_tx] in E; cbn in Hw; rewrite ?app_nil_r.
  - change (zlen [_]) with 1 in Hl. apply (register_refines c c' h a R); [lia|done].
  - eapply same_registry_refines; [by eapply upload_same|done].
  - by eapply cancel_refines.
  - eapply same_registry_refines; [by eapply period_same|done].
  - change (zlen [_]) with 1 in Hl. destruct Hw as [-> Hw]. by apply (modify_refines c c' h a l R); [lia| |].
Qed.

Lemma transact_all_refines (txs : list (Z * tx)) : forall c h, refines c h -> Forall well_sized txs -> zlen (h ++ history c txs) <= 254 ->
  refines (transact_all c txs) (h ++ history c txs).
Proof.
  induction txs as [|st txs IH]; intros c h R Hw Hl; cbn [history]; [by rewrite app_nil_r|]. apply Forall_cons in Hw as [Hst Hw].
  cbn [history] in Hl. rewrite app_assoc in *. apply IH; [apply transact_refines; try done|done|done].
  rewrite zlen_app in Hl. pose proof (zlen_nonneg (history (transact c st) txs)). lia.
Qed.

(** ** What relays read *)

(** The answer of [relay_get_counter_list]: the operations from the counter on, the last one first. *)
Lemma counter_list_ok (c : contract) (h : list event) (n : nat) : forall k ops sets, refines c h -> 1 <= k -> k + Z.of_nat n = CurrentCounter c ->
  length ops = n -> length sets = n ->
  forall ops' sets', 
  counter_list_loop n k c (ops ++ ops') (sets ++ sets') =
    Ok (reverse (event_op <$> drop (Z.to_nat (k - 1)) h) ++ ops', reverse (event_list <$> drop (Z.to_nat (k - 1)) h) ++ sets').
Proof.
  induction n as [|n IH]; intros k ops sets R Hk Hn Ho Hs ops' sets'; cbn [counter_list_loop].
  - apply nil_length_inv in Ho as ->, Hs as ->. pose proof (ref_counter c h R). rewrite drop_ge by (unfold zlen in *; lia). done.
  - pose proof (ref_counter c h R) as HC. pose proof (ref_len c h R). assert (Hu : uint8 (k + 1) = k + 1) by (unfold uint8, wrap; apply Z.mod_small; lia).
    destruct (snoc_inv ops) as (ops0 & o & ->); [by destruct ops|]. destruct (snoc_inv sets) as (sets0 & s & ->); [by destruct sets|].
    rewrite length_app in Ho, Hs. cbn [length] in Ho, Hs. rewrite <- !app_assoc. cbn [app]. unfold mem_set.
    rewrite !aset_emit by lia. cbn [obind]. rewrite Hu, <- !app_assoc. rewrite IH by (done || lia). cbn [app].
    destruct (lookup_lt_is_Some_2 h (Z.to_nat (k - 1))) as [e He]; [unfold zlen in *; lia|].
    destruct (ref_log c h R _ _ He) as [Hop Hlist]. replace (1 + Z.of_nat (Z.to_nat (k - 1))) with k in Hop, Hlist by lia. rewrite Hop, Hlist.
    replace (Z.to_nat (k + 1 - 1)) with (S (Z.to_nat (k - 1))) by lia. rewrite (drop_S h e (Z.to_nat (k - 1))) by done.
    cbn [fmap list_fmap]. rewrite !reverse_cons, <- !app_assoc. done.
Qed.

(** The log from the counter [k] on, the last operation first; the counter 0, of a relay that never uploaded, adds an empty removal. *)
Definition log_from (h : list event) (k : Z) : list event := reverse (drop (Z.to_nat (k - 1)) h) ++ (if k =? 0 then [Removed []] else []).

Lemma relay_get_counter_list_ok (c : contract) (h : list event) (a k : Z) : refines c h -> is_registered a c = true -> 0 <= k < CurrentCounter c ->
  relay_get_counter_list a k c = Ok (event_op <$> log_from h k, event_list <$> log_from h k).
Proof.
  intros R Ha Hk. unfold relay_get_counter_list, log_from. rewrite Ha. cbn [require]. rewrite (proj2 (Z.ltb_lt _ _)) by lia. cbn [require].
  rewrite !fmap_app, !fmap_reverse.
  assert (Hloop : forall n k, n = Z.to_nat (CurrentCounter c - k) -> 1 <= k <= CurrentCounter c -> forall ops' sets',
    counter_list_loop n k c (replicate n false ++ ops') (replicate n [] ++ sets') =
    Ok (reverse (event_op <$> drop (Z.to_nat (k - 1)) h) ++ ops', reverse (event_list <$> drop (Z.to_nat (k - 1)) h) ++ sets')).
  { intros n k' -> Hk' ops' sets'. apply counter_list_ok; try done; rewrite ?length_replicate; lia. }
  destruct (Z.eqb_spec k 0) as [->|Hk0].
  - pose proof (ref_counter c h R) as HC. pose proof (zlen_nonneg h). replace (Z.to_nat (CurrentCounter c - 0)) with (Z.to_nat (CurrentCounter c - 1) + 1)%nat by lia.
    rewrite !replicate_add. change (replicate 1 ?x) with [x]. set (n := Z.to_nat (CurrentCounter c - 1)). rewrite Nat.add_1_r. cbn [counter_list_loop]. unfold mem_set.
    rewrite !aset_emit by (rewrite length_replicate; lia). cbn [obind]. change (uint8 (0 + 1)) with 1. destruct (ref_zero c h R) as [-> ->]. rewrite !app_nil_r.
    rewrite (Hloop n 1) by lia. done.
  - pose proof (Hloop _ k eq_refl ltac:(lia) [] []) as H. rewrite !app_nil_r in H. rewrite !app_nil_r. exact H.
Qed.

(** ** Relays that leave *)

Definition gone (c : contract) (i : Z) : Prop := 1 <= i < relayIndex c /\ healthflag (relay_at c i) = false /\ i ∉ unhealthyRelaySet c.

Lemma gone_not_addressed (c : contract) (h : list event) (i a : Z) : refines c h -> gone c i -> is_registered a c = true -> relayaddr_at c a <> i.
Proof.
  intros R (Hi & Hh & Hu) Ha E. unfold is_registered in Ha. rewrite E in Ha. apply (ref_registered c h R) in Ha as [_ [?|?]]; [congruence|done].
Qed.

Lemma gone_forever (c : contract) (h : list event) (i : Z) (st : Z * tx) : refines c h -> gone c i -> well_sized st ->
  zlen (h ++ events c st) <= 254 -> gone (transact c st) i.
Proof.
  intros R G Hw. pose proof G as (Hi & Hh & Hu). unfold transact, events. destruct st as [a t]. cbn [fst snd]. destruct (call_tx a t c) as [c'| |] eqn:E; [|done..].
  destruct t as [|n hd e d| |p|size l]; cbn [call_tx] in E; cbn in Hw; rewrite ?zlen_app; change (zlen [_]) with 1; intros Hl.
  - assert (Hn : relayIndex c' = relayIndex c + 1 /\ unhealthyRelaySet c' = unhealthyRelaySet c /\
                 forall j, relay_at c' j = if decide (relayIndex c = j) then new_relay (relay_at c (relayIndex c)) else relay_at c j).
    { revert E. unfold relay_register. destruct (negb _); cbn [require]; [|done]. intros [= <-]. cbn. pose proof (ref_index c h R).
      split_and!; [unfold uint16, wrap; apply Z.mod_small; lia|done|intros j; apply relay_at_set]. }
    destruct Hn as (En & Eu & Er). unfold gone. rewrite En, Eu, Er, decide_False by lia. split_and!; [lia|lia|done|done].
  - apply upload_same in E as (E1 & E2 & _ & _ & _ & _ & Hr). unfold gone. rewrite E1, E2. destruct (Hr i) as [_ ->]. done.
  - revert E. unfold relay_cancellation. destruct (is_registered a c) eqn:Ea; cbn [require]; [|done]. intros [= <-]. unfold gone, relay_at. cbn.
    split_and!; [lia|lia| |done]. rewrite lookup_delete_ne; [exact Hh|]. by eapply gone_not_addressed.
  - apply period_same in E as (E1 & E2 & _ & _ & _ & _ & Hr). unfold gone. rewrite E1, E2. destruct (Hr i) as [_ ->]. done.
  - destruct Hw as [-> Hw]. revert E. unfold modifyHealthFlag. destruct (_ =? _); cbn [require]; [|done]. destruct (modify_loop _ 0 l c) as [c1| |] eqn:Em; cbn [obind]; [|done..].
    intros [= <-]. apply modify_loop_ok in Em as (E1 & E2 & _ & _ & _ & _ & Hall & Hrel); [|unfold zlen; lia|lia|done]. cbn [drop Z.to_nat] in *.
    rewrite Forall_forall in Hall. assert (Hil : i ∉ l) by (intros Hx%Hall; congruence).
    unfold gone. change (relay_at (log_operation ?x _ _) i) with (relay_at x i). cbn [log_operation relayIndex unhealthyRelaySet].
    rewrite E1, E2, Hrel, decide_False by done. rewrite elem_of_app. split_and!; [lia|lia|done|tauto].
Qed.

Lemma cancelled_gone (c : contract) (h : list event) (a : Z) : refines c h -> is_registered a c = true -> healthflag (relay_at c (relayaddr_at c a)) = true ->
  gone (transact c (a, Tx_relay_cancellation)) (relayaddr_at c a).
Proof.
  intros R Ha Hh. unfold transact. cbn [fst snd call_tx]. unfold relay_cancellation. rewrite Ha. cbn [require]. destruct (registered_index c h a R Ha) as [_ Hi].
  apply (ref_health c h R) in Hh as (_ & _ & Hu). unfold gone. cbn. split_and!; [lia|lia| |done]. unfold relay_at. cbn. by rewrite lookup_delete_eq.
Qed.

(** ** What clients read *)

Definition healthy (c : contract) (i : Z) : bool := healthflag (relay_at c i).

Lemma NSD_loop_ok (c : contract) (m : nat) : forall i acc pre, 1 <= i -> i + Z.of_nat m <= 65536 -> Z.of_nat (length pre) = i - 1 ->
  NSD_loop m i c (pre ++ replicate m false) acc =
  if (Z.of_nat m =? 0) || healthy c (i + Z.of_nat m - 1)
  then Ok (pre ++ (healthy c <$> seqZ i (Z.of_nat m)), acc ++ concat ((fun j => NSD (relay_at c j)) <$> filter (fun j => healthy c j = true) (seqZ i (Z.of_nat m))))
  else Err.
Proof.
  induction m as [|m IH]; intros i acc pre Hi Hm Hl; cbn [NSD_loop].
  - cbn. by rewrite !app_nil_r.
  - rewrite (proj2 (Z.eqb_neq (Z.of_nat (S m)) 0)) by lia. cbn [orb]. rewrite seqZ_cons by lia. replace (Z.pred (Z.of_nat (S m))) with (Z.of_nat m) by lia.
    replace (Z.succ i) with (i + 1) by lia. cbn [fmap list_fmap replicate]. unfold mem_set. fold (healthy c i).
    assert (Hu : m <> O -> uint16 (i + 1) = i + 1) by (intros; unfold uint16, wrap; apply Z.mod_small; lia).
    assert (Hlast : i + Z.of_nat (S m) - 1 = i + 1 + Z.of_nat m - 1) by lia. rewrite Hlast.
    destruct (healthy c i) eqn:Eh.
    + rewrite aset_emit by lia. cbn [obind]. rewrite filter_cons_True by done. cbn [fmap list_fmap concat].
      destruct m as [|m]; [replace (i + 1 + Z.of_nat 0 - 1) with i by lia; rewrite Eh; cbn; by rewrite !app_nil_r|].
      rewrite Hu, IH by (done || rewrite ?length_app; cbn [length]; lia). rewrite (proj2 (Z.eqb_neq _ _)) by lia. cbn [orb]. by rewrite <- !app_assoc.
    + rewrite filter_cons_False by congruence. destruct m as [|m].
      { cbn [replicate]. unfold aset. rewrite (proj2 (Z.leb_le _ i)) by (rewrite length_app; cbn [length]; lia). rewrite orb_true_r. cbn [obind].
        replace (i + 1 + Z.of_nat 0 - 1) with i by lia. by rewrite Eh. }
      cbn [replicate]. change (false :: false :: ?r) with ([false] ++ false :: r). rewrite app_assoc, aset_emit by (rewrite length_app; cbn [length]; lia). cbn [obind].
      rewrite Hu by done. rewrite <- (app_assoc (pre ++ [false])). change ([false] ++ replicate m false) with (replicate (S m) false).
      rewrite IH by (done || rewrite ?length_app; cbn [length]; lia). rewrite (proj2 (Z.eqb_neq _ _)) by lia. cbn [orb]. by rewrite <- !app_assoc.
Qed.

(** The digests of the healthy relays, unless the last relay is not healthy: then no client can read any. *)
Lemma client_download_NSD_ok (c : contract) : 1 <= relayIndex c <= 65535 ->
  client_download_NSD c =
  if (relayIndex c =? 1) || healthy c (relayIndex c - 1)
  then Ok (healthy c <$> seqZ 1 (relayIndex c - 1), concat ((fun j => NSD (relay_at c j)) <$> filter (fun j => healthy c j = true) (seqZ 1 (relayIndex c - 1))))
  else Err.
Proof.
  intros Hn. unfold client_download_NSD. assert (Hu : uint16 (relayIndex c - 1) = relayIndex c - 1) by (unfold uint16, wrap; apply Z.mod_small; lia). rewrite Hu.
  pose proof (NSD_loop_ok c (Z.to_nat (relayIndex c - 1)) 1 [] [] ltac:(done) ltac:(lia) eq_refl) as H. cbn [app] in H. rewrite H, Z2Nat.id by lia.
  replace (1 + (relayIndex c - 1) - 1) with (relayIndex c - 1) by lia. f_equal. f_equal. destruct (Z.eqb_spec (relayIndex c) 1), (Z.eqb_spec (relayIndex c - 1) 0); lia || done.
Qed.

(** [modifyHealthFlag] marks as many relays as its first argument says, but logs its whole list: with 1 and two healthy relays, the second one stays healthy and
    in the set, while the log says that it was removed. *)
Lemma modifyHealthFlag_trusts_size (c : contract) (i j : Z) : healthy c i = true -> healthy c j = true -> i <> j ->
  exists c', modifyHealthFlag (owner c) 1 [i; j] c = Ok c' /\ healthy c' j = true /\ unhealthyRelaySet c' = unhealthyRelaySet c ++ [i] /\
    CounterOP_at c' (CurrentCounter c) = false /\ CounterList_at c' (CurrentCounter c) = [i; j].
Proof.
  intros Hi Hj Hn. unfold modifyHealthFlag. rewrite Z.eqb_refl. cbn [require]. change (Z.to_nat 1) with 1%nat. cbn [modify_loop]. change (mem_get [i; j] 0) with (Ok i). cbn [obind].
  unfold healthy in *. rewrite Hi. cbn [require modify_loop obind]. eexists. split; [done|]. split_and!; [|done|..].
  - change (healthflag (relay_at (set_relay c i (unhealthy (relay_at c i))) j) = true). by rewrite relay_at_set, decide_False.
  - unfold CounterOP_at. cbn. by rewrite lookup_insert_eq.
  - unfold CounterList_at. cbn. by rewrite lookup_insert_eq.
Qed.

(** C3: The directory contract is a log, as long as its counter has not wrapped around and its owner counts well. After any transactions of any accounts,
    those that revert included, in which the owner passes with each list of relays to mark the length of that very list, and of which at most 254 take
    effect as registrations or markings: every registered account reads the number of these operations plus one as the counter, exactly the members that
    they leave as the set, and from any counter the operations since, the last one first. (If the owner passes less than the length, the log names relays
    that were not marked.) *)
Theorem contract_refines_log (o : Z) (txs : list (Z * tx)) : Forall well_sized txs ->
  let c := transact_all (deploy o) txs in let h := history (deploy o) txs in zlen h <= 254 ->
  forall a, is_registered a c = true ->
    relay_get_current_counter a c = Ok (1 + zlen h) /\
    (exists n unhealthy, relay_get_index_set a c = Ok (n, unhealthy) /\ filter (fun i => i ∉ unhealthy) (seqZ 1 (n - 1)) = members h) /\
    forall k, 0 <= k <= zlen h -> relay_get_counter_list a k c = Ok (event_op <$> log_from h k, event_list <$> log_from h k).
Proof.
  intros Hw c h Hl a Ha. pose proof (transact_all_refines txs (deploy o) [] (deploy_refines o) Hw Hl) as R. change (refines c h) in R.
  unfold relay_get_current_counter, relay_get_index_set. rewrite Ha. cbn [require]. rewrite <- (ref_counter c h R). split; [done|].
  split; [eexists _, _; split; [done|by rewrite (ref_members c h R)]|]. intros k Hk. apply relay_get_counter_list_ok; [done|done|]. rewrite (ref_counter c h R). lia.
Qed.

Lemma contract_refines_log_witness :
  let txs := [(10, Tx_relay_register); (20, Tx_relay_register); (10, Tx_relay_register); (30, Tx_relay_register); (1, Tx_modifyHealthFlag 1 [2])] in
  let c := transact_all (deploy 1) txs in
  relay_get_current_counter 10 c = Ok 5 /\ members (history (deploy 1) txs) = [1; 3] /\
  relay_get_counter_list 10 2 c = Ok ([false; true; true], [[2]; [3]; [2]]).
Proof.
  intros txs c. destruct (contract_refines_log 1 txs ltac:(repeat constructor) ltac:(by vm_compute) 10 ltac:(vm_compute; reflexivity)) as (H1 & _ & H3).
  split; [exact H1|]. split; [vm_compute; reflexivity|]. exact (H3 2 ltac:(by vm_compute)).
Defined.
