(* ===== verification/ChainPy.v ===== *)
(** * The blockchain from Python: [SC/Relay.py] and [SC/Client.py]

    The functions that the C code calls, over the directory contract. A Python function is a run from a world to an outcome and the world
    it leaves: [Err] is an exception. The web3 library, AES and SHA-256 are parameters. Between two requests of a node the contract serves
    other accounts: the world holds a schedule, with the transactions that come before each request, or the failure of the request.
    Strings are their UTF-8 bytes. The log file is left out. *)
From stdpp Require Import gmap.
From S2P Require Import Prelude ParseInt Strings Binascii Contract.

(** ** Runs *)

Definition run (St A : Type) : Type := St -> outcome A * St.
#[export] Instance run_ret (St : Type) : MRet (run St) := fun A a s => (Ok a, s).
#[export] Instance run_bind (St : Type) : MBind (run St) := fun A B k m s =>
  match m s with (Ok a, s) => k a s | (Err, s) => (Err, s) | (Stuck, s) => (Stuck, s) end.
Definition lift {St A} (o : outcome A) : run St A := fun s => (o, s).
Definition gets {St A} (f : St -> A) : run St A := fun s => (Ok (f s), s).
Definition modify {St} (f : St -> St) : run St unit := fun s => (Ok tt, f s).

(** ** The libraries *)

Class PyLibs := {
  (** [AES.new(key, AES.MODE_CBC, iv).encrypt(data)] and [.decrypt(data)]; [None] is a [ValueError]. *)
  aes_cbc_encrypt : bytes -> bytes -> bytes -> option bytes;
  aes_cbc_decrypt : bytes -> bytes -> bytes -> option bytes;
  sha256 : bytes -> bytes;
  (** What web3 makes of a string that is passed for [bytes]; [None] is an exception. *)
  to_bytes : bytes -> option bytes
}.

(** [bytes.hex], [binascii.hexlify] and [hexdigest]. *)
Definition hexd_lower (d : Z) : ascii := z2b (if d <? 10 then 48 + d else 87 + d).
Definition py_hex (data : bytes) : bytes := concat ((fun c => [hexd_lower (b2z c / 16); hexd_lower (b2z c mod 16)]) <$> data).

(** What the documentation of the libraries says of them, as far as the theorems need it. *)
Class PyLibsSpec (libs : PyLibs) := {
  aes_inverse (key iv data : bytes) : length key = 32%nat -> length iv = 16%nat -> zlen data mod 16 = 0 ->
    exists ct, aes_cbc_encrypt key iv data = Some ct /\ length ct = length data /\ aes_cbc_decrypt key iv ct = Some data;
  sha256_length (data : bytes) : length (sha256 data) = 32%nat;
  (** Digits of either case. *)
  to_bytes_hex (s data : bytes) : TOR_TOLOWER <$> s = py_hex data -> to_bytes (bs "0x" ++ s) = Some data
}.

(** ** The world *)

Inductive access :=
  (** The request is served after these transactions of other accounts. *)
  | Served (others : list (Z * tx))
  (** The request raises an exception; a transaction is not sent. *)
  | Failed
  (** The transaction is not mined in time: [TimeoutError]. *)
  | TimedOut.

Record py_world := {
  chain : contract; sched : list access;
  (** The global variables of [Relay.py]. *)
  Counter : Z; relaySet : list Z;
  (** The files [lib/NIME] and [lib/NIME-cached] of a relay, and [lib/NSD] of a client. *)
  NIME : option bytes; NIME_cached : option bytes; NSD_file : option bytes
}.
Definition with_chain (w : py_world) (c : contract) (s : list access) : py_world :=
  {| chain := c; sched := s; Counter := Counter w; relaySet := relaySet w; NIME := NIME w; NIME_cached := NIME_cached w; NSD_file := NSD_file w |}.
Definition set_Counter (n : Z) (w : py_world) : py_world :=
  {| chain := chain w; sched := sched w; Counter := n; relaySet := relaySet w; NIME := NIME w; NIME_cached := NIME_cached w; NSD_file := NSD_file w |}.
Definition set_relaySet (l : list Z) (w : py_world) : py_world :=
  {| chain := chain w; sched := sched w; Counter := Counter w; relaySet := l; NIME := NIME w; NIME_cached := NIME_cached w; NSD_file := NSD_file w |}.
Definition set_files (nime cached : option bytes) (w : py_world) : py_world :=
  {| chain := chain w; sched := sched w; Counter := Counter w; relaySet := relaySet w; NIME := nime; NIME_cached := cached; NSD_file := NSD_file w |}.
Definition set_NSD_file (s : bytes) (w : py_world) : py_world :=
  {| chain := chain w; sched := sched w; Counter := Counter w; relaySet := relaySet w; NIME := NIME w; NIME_cached := NIME_cached w; NSD_file := Some s |}.

Abbreviation py := (run py_world).

(** The next request: [true] when it is served, [false] when it times out. *)
Definition request : py bool := fun w =>
  match sched w with
  | [] => (Ok true, w)
  | Served l :: s => (Ok true, with_chain w (transact_all (chain w) l) s)
  | Failed :: s => (Err, with_chain w (chain w) s)
  | TimedOut :: s => (Ok false, with_chain w (chain w) s)
  end.
(** [contract_instance.functions.f().call()]. *)
Definition call {A} (f : contract -> outcome A) : py A :=
  served ← request;
  if (served : bool) then c ← gets chain; lift (match f c with Ok a => Ok a | _ => Err end) else lift Err.

Section relay_py.
Context {libs : PyLibs} (wallet_addr : Z).

(** A transaction: [buildTransaction] with its gas given, [signTransaction], [sendRawTransaction], [waitForTransactionReceipt]. A transaction
    that reverts has a receipt too. [false] is a [TimeoutError]. *)
Definition send (t : tx) : py bool :=
  served ← request;
  if (served : bool) then _ ← modify (fun w => with_chain w (transact (chain w) (wallet_addr, t)) (sched w)); mret true else mret false.

(** ** Registration *)

Definition relayRegistrationCheck : py Z := call (relay_registration_check wallet_addr).
Definition relayRegister : py unit := mined ← send Tx_relay_register; if (mined : bool) then mret tt else lift Err.

(** ** The set of healthy relays *)

Definition relayGetIndexSet : py (Z * list Z) := call (relay_get_index_set wallet_addr).
Definition relayGetCurrentCounter : py Z := call (relay_get_current_counter wallet_addr).
Definition relayGetSet : py (Z * list Z) :=
  '(relayTotalNum, UnhealthySet) ← relayGetIndexSet;
  _ ← modify (set_relaySet (filter (fun i => i ∉ UnhealthySet) (seqZ 1 (relayTotalNum - 1))));
  n ← relayGetCurrentCounter;
  _ ← modify (set_Counter n);
  gets (fun w => (Counter w, relaySet w)).

(** ** Encryption and upload *)

Definition AES_CBC_IV : bytes := replicate 16 "q"%char.
Definition padding (text : bytes) : bytes :=
  let remainder := (length text mod 16)%nat in
  let padding_needed := if (remainder =? 0)%nat then 0%nat else (16 - remainder)%nat in
  text ++ replicate padding_needed NUL.
Definition AES_encrypt (plain_text key : bytes) : outcome bytes :=
  match aes_cbc_encrypt key AES_CBC_IV (padding plain_text) with Some cipher_text => Ok (py_hex cipher_text) | None => Err end.

Definition bytes_arg (s : bytes) : outcome bytes := match to_bytes s with Some b => Ok b | None => Err end.

(** Both ways out of the [try] return. *)
Definition relayUploadSRIAndNSD (_Counter : Z) (Hdr SRI Key : bytes) : py unit :=
  let _HDR := bs "0x" ++ Hdr in
  let AES_key := take 32 Key in
  enSRI ← lift (AES_encrypt SRI AES_key);
  let _enSRI := bs "0x" ++ enSRI in
  let _NSD := bs "0x" ++ py_hex (sha256 SRI) in
  hdr ← lift (bytes_arg _HDR);
  en ← lift (bytes_arg _enSRI);
  nsd ← lift (bytes_arg _NSD);
  _ ← send (Tx_relay_upload_SRI_and_NSD _Counter hdr en nsd);
  mret tt.

(** ** Download and decryption *)

Fixpoint split_operations (operation : list bool) (alterSet : list (list Z)) : outcome (list Z * list Z) :=
  match operation, alterSet with
  | [], _ => Ok ([], [])
  | op :: operation, l :: alterSet =>
      let* (addSet, deleteSet) := split_operations operation alterSet in
      if (op : bool) then Ok (addSet, l ++ deleteSet) else Ok (l ++ addSet, deleteSet)
  | _ :: _, [] => Err
  end.
Definition relayGetCounterList (index : Z) : py (list Z * list Z) :=
  '(operation, alterSet) ← call (relay_get_counter_list wallet_addr index);
  lift (split_operations operation alterSet).

Definition relayDownloadSRIHelper (index : Z) : py (Z * bytes * bytes) :=
  '(counter, Hdr, enSRI) ← call (relay_download_SRI wallet_addr index);
  mret (counter, py_hex Hdr, py_hex enSRI).

(** [S += addSet\[i\]] adds an integer to a list: [TypeError]. *)
Definition add_all (addSet l : list Z) : outcome (list Z) := match addSet with [] => Ok l | _ :: _ => Err end.
(** [S.remove(x)]: [ValueError] when [x] is not there. *)
Fixpoint py_remove (x : Z) (l : list Z) : option (list Z) :=
  match l with
  | [] => None
  | y :: l => if y =? x then Some l else (fun l => y :: l) <$> py_remove x l
  end.
Fixpoint remove_all (deleteSet l : list Z) : outcome (list Z) :=
  match deleteSet with
  | [] => Ok l
  | x :: deleteSet => match py_remove x l with Some l => remove_all deleteSet l | None => Err end
  end.

(** [re.findall(r'.{130}', s)]. *)
Fixpoint findall_130 (fuel : nat) (s : bytes) : list bytes :=
  match fuel with
  | O => []
  | S f =>
      if (length s <? 130)%nat then []
      else if decide (NL ∈ take 130 s) then findall_130 f (drop 1 s)
      else take 130 s :: findall_130 f (drop 130 s)
  end.

Definition relayDownloadSRI (relayID : Z) : py (list Z * list bytes * bytes) :=
  '(relayCounter, Hdr, relayEnSRI) ← relayDownloadSRIHelper relayID;
  S ← gets relaySet;
  n ← gets Counter;
  S ← (if relayCounter <? n then
         '(addSet, deleteSet) ← relayGetCounterList relayCounter;
         lift (let* S := add_all addSet S in remove_all deleteSet S)
       else mret S);
  let relayHdr := findall_130 (length Hdr) Hdr in
  mret (S, relayHdr, relayEnSRI).

(** [binascii.a2b_hex]. *)
Fixpoint a2b_hex (s : bytes) : option bytes :=
  match s with
  | [] => Some []
  | c1 :: c2 :: s =>
      if (hex_decode_digit c1 <? 0) || (hex_decode_digit c2 <? 0) then None
      else (fun l => z2b (16 * hex_decode_digit c1 + hex_decode_digit c2) :: l) <$> a2b_hex s
  | [_] => None
  end.
(** [str.rstrip] of NULs. *)
Definition rstrip_NUL (s : bytes) : bytes := reverse ((fix strip l := match l with c :: l' => if decide (c = NUL) then strip l' else l | [] => [] end) (reverse s)).

(** [None] is a [UnicodeDecodeError]. *)
Definition AES_decrypt (cipher_text key : bytes) : outcome (option bytes) :=
  match a2b_hex cipher_text with
  | None => Err
  | Some data =>
      match aes_cbc_decrypt key AES_CBC_IV data with
      | None => Err
      | Some plain_text =>
          let* utf8 := string_is_utf8 plain_text in
          Ok (if utf8 then Some (rstrip_NUL plain_text) else None)
      end
  end.

Definition relayDecryptSRIs (relayID : Z) (enSRI decKey : bytes) (fileEnd : Z) : py unit :=
  let AES_Key := take 32 decKey in
  r ← lift (AES_decrypt enSRI AES_Key);
  match r with
  | None => mret tt
  | Some _SRI =>
      _ ← modify (fun w => set_files (NIME w) (Some (default [] (NIME_cached w) ++ bs "index " ++ print_int relayID ++ [NL] ++ _SRI)) w);
      if fileEnd =? 1 then
        _ ← modify (fun w => match NIME w with Some _ => set_files None (NIME_cached w) w | None => w end);
        modify (fun w => match NIME_cached w with Some s => set_files (Some s) None w | None => w end)
      else mret tt
  end.

End relay_py.

(** ** Clients: [SC/Client.py] *)

(** The lines of the file; [local] counts the relays whose flag is set. *)
Fixpoint NSD_lines (relayID : Z) (NSDIndex : list bool) (NSD : bytes) (local : nat) : bytes :=
  match NSDIndex with
  | [] => []
  | true :: NSDIndex =>
      print_int (relayID + 1) ++ [SP] ++ take 64 (drop (local * 64) NSD) ++ [NL] ++ NSD_lines (relayID + 1) NSDIndex NSD (S local)
  | false :: NSDIndex => NSD_lines (relayID + 1) NSDIndex NSD local
  end.
Definition clientDownloadNSD : py unit :=
  '(NSDIndex, _NSD) ← call client_download_NSD;
  modify (set_NSD_file (NSD_lines 0 NSDIndex (py_hex _NSD) 0)).
