(* ===== verification/Publish.v ===== *)
(** * Publishing on the blockchain: [feature/relay/router.c]

    [relay_register], [router_download_descriptor_from_blockchain], [router_upload_descriptor_to_blockchain] and the life of a relay's own
    descriptor around them. The C code runs [Relay.py] through the interface of CPython: a call that raises gives NULL and leaves the
    exception set. Of that interface: [PyLong_AsLong] of NULL is -1 with an exception set; [PyArg_ParseTuple] of NULL reads through it;
    a function must not be called while an exception is set; [PyRun_SimpleString] prints an exception and clears it. [Py_Initialize]
    succeeds. References are not counted, and what the control port and the log are told is left out. *)
From stdpp Require Import gmap.
From S2P Require Import Prelude ParseInt Strings CryptoRsa Gsri Bkem Contract ChainPy.

Section publish.
Context {ssl : OpenSSL} {pbc : PBC} {libs : PyLibs}.
(** The spare bytes of a block, the two key files, and the account of the relay. *)
Context (slack : Z) (BEPK BESK : bytes) (wallet_addr : Z).

(** ** The state *)

(** The variables of the descriptor; a signed extra-info document is its text. *)
Record descriptor := {
  desc_routerinfo : option routerinfo; desc_extrainfo : option bytes; desc_gen_reason : option bytes;
  desc_clean_since : Z; desc_dirty_reason : option bytes; desc_needs_upload : bool; omit_ipv6_on_publish : bool
}.
Definition initial_descriptor : descriptor :=
  {| desc_routerinfo := None; desc_extrainfo := None; desc_gen_reason := Some (bs "uninitialized reason");
     desc_clean_since := 0; desc_dirty_reason := Some (bs "Tor just started"); desc_needs_upload := false; omit_ipv6_on_publish := false |}.

(** [exc]: an exception is set; [importable]: [import Relay] succeeds. *)
Record node := {
  wd : py_world; importable : bool; exc : bool;
  python_is_initialized : bool; relay_is_registered : bool; myIndex : Z; desc : descriptor
}.
Abbreviation prog := (run node).

Definition set_wd (n : node) (w : py_world) (e : bool) : node :=
  {| wd := w; importable := importable n; exc := e; python_is_initialized := python_is_initialized n;
     relay_is_registered := relay_is_registered n; myIndex := myIndex n; desc := desc n |}.
Definition set_exc (e : bool) (n : node) : node := set_wd n (wd n) e.
Definition set_initialized (n : node) : node :=
  {| wd := wd n; importable := importable n; exc := exc n; python_is_initialized := true;
     relay_is_registered := relay_is_registered n; myIndex := myIndex n; desc := desc n |}.
Definition set_registered (r : bool) (i : Z) (n : node) : node :=
  {| wd := wd n; importable := importable n; exc := exc n; python_is_initialized := python_is_initialized n;
     relay_is_registered := r; myIndex := i; desc := desc n |}.
Definition set_desc (d : descriptor) (n : node) : node :=
  {| wd := wd n; importable := importable n; exc := exc n; python_is_initialized := python_is_initialized n;
     relay_is_registered := relay_is_registered n; myIndex := myIndex n; desc := d |}.

(** ** CPython *)

(** The beginning of each of the functions: [Py_Initialize], the two [PyRun_SimpleString], the import and its dictionary. *)
Definition py_enter : prog bool :=
  _ ← modify (fun n => set_exc false (set_initialized n));
  ok ← gets importable;
  if (ok : bool) then mret true else _ ← modify (set_exc true); mret false.

(** [PyObject_CallObject]; [None] is NULL. *)
Definition py_call {A} (f : py A) : prog (option A) := fun n =>
  if exc n then (Stuck, n)
  else match f (wd n) with
       | (Ok a, w) => (Ok (Some a), set_wd n w false)
       | (Err, w) => (Ok None, set_wd n w true)
       | (Stuck, w) => (Stuck, set_wd n w false)
       end.
Definition PyLong_AsLong (r : option Z) : prog Z :=
  match r with Some v => mret v | None => _ ← modify (set_exc true); mret (-1) end.
Definition PyArg_ParseTuple {A} (r : option A) : prog A := lift (get r).

(** C code that has no failure value of its own. *)
Definition c_lift {A} (o : outcome A) : prog A := lift (match o with Ok a => Ok a | _ => Stuck end).

(** ** Registration *)

Definition relay_register : prog Z :=
  ok ← py_enter;
  if (ok : bool) then
    pResVal ← py_call (relayRegistrationCheck wallet_addr);
    index ← PyLong_AsLong pResVal;
    i ← (if index =? 0 then
           _ ← py_call (relayRegister wallet_addr);
           pResVal ← py_call (relayRegistrationCheck wallet_addr);
           PyLong_AsLong pResVal
         else mret index);
    _ ← modify (set_registered true i);
    mret 1
  else mret 0.

(** ** Upload *)

(** [t] is the random exponent of the encryption. *)
Definition router_upload_descriptor_to_blockchain (ri : routerinfo) (t : Z) : prog Z :=
  str ← c_lift (router_sri ri);
  ok ← py_enter;
  if (ok : bool) then
    pResVal ← py_call (relayGetSet wallet_addr);
    '(Counter, relaySet) ← PyArg_ParseTuple pResVal;
    '(Key, Hdr) ← c_lift (bkem_encryption slack BEPK relaySet t);
    _ ← py_call (relayUploadSRIAndNSD wallet_addr Counter Hdr str Key);
    mret 1
  else mret 0.

(** ** Download *)

(** [strcpy] of the pieces of the header into blocks of 200 bytes. *)
Fixpoint copy_hdrs (l : list bytes) : outcome (list bytes) :=
  match l with
  | [] => Ok []
  | s :: l => if 200 + slack <? zlen s + 1 then Stuck else let* l := copy_hdrs l in Ok (s :: l)
  end.

Definition download_one (relayID fileEnd : Z) : prog unit :=
  pResVal ← py_call (relayDownloadSRI wallet_addr relayID);
  '(recip, pHdr, enSRI) ← PyArg_ParseTuple pResVal;
  if zlen enSRI =? 0 then mret tt
  else
    Hdr ← c_lift (copy_hdrs pHdr);
    index ← gets myIndex;
    decKey ← c_lift (bkem_decryption slack BEPK BESK recip (to_int index) Hdr);
    _ ← py_call (relayDecryptSRIs relayID enSRI decKey fileEnd);
    mret tt.

Fixpoint download_loop (relaySet : list Z) : prog unit :=
  match relaySet with
  | [] => mret tt
  | relayID :: relaySet =>
      _ ← download_one relayID (match relaySet with [] => 1 | _ => 0 end);
      download_loop relaySet
  end.

Definition router_download_descriptor_from_blockchain : prog Z :=
  ok ← py_enter;
  if (ok : bool) then
    pResVal ← py_call (relayGetSet wallet_addr);
    '(Counter, relaySet) ← PyArg_ParseTuple pResVal;
    _ ← download_loop relaySet;
    mret 1
  else mret 0.

(** ** The descriptor *)

(** [fresh] is what [router_build_fresh_descriptor] gives, [now] the clock. *)
Definition router_rebuild_descriptor (fresh : option (routerinfo * option bytes)) (now t : Z) (force : bool) (flag : Z) : prog bool :=
  d ← gets desc;
  if negb (desc_clean_since d =? 0) && negb force then mret true
  else match fresh with
  | None => mret false
  | Some (ri, ei) =>
      published ← (if flag =? 1 then
                     registered ← gets relay_is_registered;
                     r ← (if (registered : bool) then mret 1 else relay_register);
                     if r =? 0 then mret false
                     else
                       r ← router_download_descriptor_from_blockchain;
                       if r =? 0 then mret false
                       else
                         r ← router_upload_descriptor_to_blockchain ri t;
                         if r =? 0 then mret false else mret true
                   else mret true);
      if (published : bool) then
        _ ← modify (fun n => set_desc
               {| desc_routerinfo := Some ri; desc_extrainfo := ei; desc_gen_reason := desc_dirty_reason (desc n);
                  desc_clean_since := now; desc_dirty_reason := None; desc_needs_upload := true;
                  omit_ipv6_on_publish := omit_ipv6_on_publish (desc n) |} n);
        mret true
      else mret false
  end.

Definition mark_my_descriptor_dirty (reason : option bytes) : prog unit :=
  let reason := match reason with Some r => r | None => bs "marked descriptor dirty for unspecified reason" end in
  modify (fun n => let d := desc n in set_desc
    {| desc_routerinfo := desc_routerinfo d; desc_extrainfo := desc_extrainfo d; desc_gen_reason := desc_gen_reason d;
       desc_clean_since := 0; desc_dirty_reason := match desc_dirty_reason d with Some r => Some r | None => Some reason end;
       desc_needs_upload := desc_needs_upload d; omit_ipv6_on_publish := omit_ipv6_on_publish d |} n).

Definition mark_my_descriptor_if_omit_ipv6_changes (reason : option bytes) (omit_ipv6 : bool) : prog unit :=
  previous ← gets (fun n => omit_ipv6_on_publish (desc n));
  _ ← modify (fun n => let d := desc n in set_desc
    {| desc_routerinfo := desc_routerinfo d; desc_extrainfo := desc_extrainfo d; desc_gen_reason := desc_gen_reason d;
       desc_clean_since := desc_clean_since d; desc_dirty_reason := desc_dirty_reason d;
       desc_needs_upload := desc_needs_upload d; omit_ipv6_on_publish := omit_ipv6 |} n);
  if Bool.eqb previous omit_ipv6 then mret tt else mark_my_descriptor_dirty reason.

Definition router_get_my_extrainfo (server_mode : bool) (fresh : option (routerinfo * option bytes)) (now t : Z) : prog (option bytes) :=
  if server_mode then
    ok ← router_rebuild_descriptor fresh now t false 0;
    if (ok : bool) then gets (fun n => desc_extrainfo (desc n)) else mret None
  else mret None.

(** [relay_periodic.c]: once per hour. *)
Definition CHECK_DESCRIPTOR_INTERVAL : Z := 60 * 60.
Definition check_descriptor_callback (fresh : option (routerinfo * option bytes)) (now t : Z) : prog Z :=
  rebuilt ← router_rebuild_descriptor fresh now t true 1;
  mret CHECK_DESCRIPTOR_INTERVAL.

End publish.
