(* ===== verification/PublishFacts.v ===== *)
(** * What relays and clients get from the blockchain

    The set of receivers that a relay reconstructs for an old entry, the way of an entry from one relay to another, and what stops it. *)
From stdpp Require Import gmap.
From S2P Require Import Prelude ParseInt Strings Smartutil Binascii ConsDiffDoc CryptoRsa ParseFacts Gsri GsriRoundtrip Bkem BkemFacts Contract ContractFacts ChainPy Publish.

(** ** Runs *)

Lemma bind_ok {St A B} (m : run St A) (k : A -> run St B) (s s' : St) (a : A) : m s = (Ok a, s') -> mbind k m s = k a s'.
Proof. intros E. unfold mbind, run_bind. by rewrite E. Qed.
Lemma bind_err {St A B} (m : run St A) (k : A -> run St B) (s s' : St) : m s = (Err, s') -> mbind k m s = (Err, s').
Proof. intros E. unfold mbind, run_bind. by rewrite E. Qed.
Lemma bind_stuck {St A B} (m : run St A) (k : A -> run St B) (s s' : St) : m s = (Stuck, s') -> mbind k m s = (Stuck, s').
Proof. intros E. unfold mbind, run_bind. by rewrite E. Qed.
Lemma bind_inv {St A B} (m : run St A) (k : A -> run St B) (s s' : St) (b : B) : mbind k m s = (Ok b, s') ->
  exists a s1, m s = (Ok a, s1) /\ k a s1 = (Ok b, s').
Proof. unfold mbind, run_bind. destruct (m s) as [[a| |] s1]; [eauto|done..]. Qed.

(** ** Joins and removals in the log *)

Definition joined (t : list event) : list Z := concat ((fun e => match e with Joined i => [i] | Removed _ => [] end) <$> t).
Definition removed (t : list event) : list Z := concat ((fun e => match e with Joined _ => [] | Removed l => l end) <$> t).
Definition joins_only (t : list event) : bool := bool_decide (removed t = []).

Lemma removed_app (s t : list event) : removed (s ++ t) = removed s ++ removed t.
Proof. unfold removed. by rewrite fmap_app, concat_app. Qed.
Lemma joined_app (s t : list event) : joined (s ++ t) = joined s ++ joined t.
Proof. unfold joined. by rewrite fmap_app, concat_app. Qed.
Lemma joined_reverse (t : list event) : joined (reverse t) = reverse (joined t).
Proof.
  induction t as [|e t IH]; [done|]. rewrite reverse_cons, joined_app, IH. change (e :: t) with ([e] ++ t). rewrite joined_app, reverse_app. f_equal.
  by destruct e.
Qed.
Lemma removed_reverse (t : list event) : removed (reverse t) = [] <-> removed t = [].
Proof.
  induction t as [|e t IH]; [done|]. rewrite reverse_cons, removed_app. change (e :: t) with ([e] ++ t). rewrite removed_app, !app_nil, IH. tauto.
Qed.

Lemma members_joins (h t : list event) : removed t = [] -> members (h ++ t) = members h ++ joined t.
Proof.
  induction t as [|e t IH] using rev_ind; intros Hr; [by rewrite !app_nil_r|]. rewrite removed_app, app_nil in Hr. destruct Hr as [Ht He].
  rewrite app_assoc, members_snoc, IH, joined_app, app_assoc by done. destruct e as [i|l]; cbn in *; [done|]. rewrite app_nil_r in *. subst l.
  apply filter_all, Forall_true. intros x. apply not_elem_of_nil.
Qed.

Lemma split_log (l : list event) : split_operations (event_op <$> l) (event_list <$> l) = Ok (removed l, joined l).
Proof. induction l as [|[i|s] l IH]; cbn; [done|by rewrite IH..]. Qed.

Lemma py_remove_last (x : Z) (l : list Z) : x ∉ l -> py_remove x (l ++ [x]) = Some l.
Proof.
  induction l as [|y l IH]; cbn; [by rewrite Z.eqb_refl|]. intros [Hy Hx]%not_elem_of_cons. rewrite (proj2 (Z.eqb_neq y x)) by congruence. by rewrite IH.
Qed.
Lemma remove_all_joined (j : list Z) : forall l, NoDup (l ++ j) -> remove_all (reverse j) (l ++ j) = Ok l.
Proof.
  induction j as [|x j IH] using rev_ind; intros l Hnd; [by rewrite app_nil_r|]. rewrite reverse_snoc, app_assoc in *. cbn [remove_all].
  apply NoDup_app in Hnd as (Hnd & Hx & _). rewrite py_remove_last; [by apply IH|]. intros Hl. apply (Hx x Hl). left.
Qed.

(** A relay that is not in the list cannot be removed from it. *)
Lemma py_remove_none (x : Z) (l : list Z) : x ∉ l -> py_remove x l = None.
Proof.
  induction l as [|y l IH]; cbn; [done|]. intros [Hy Hx]%not_elem_of_cons. rewrite (proj2 (Z.eqb_neq y x)) by congruence. by rewrite IH.
Qed.

Lemma members_nodup (c : contract) (h : list event) : refines c h -> NoDup (members h).
Proof. intros R. rewrite (ref_members c h R). apply NoDup_filter, NoDup_seqZ. Qed.

Lemma members_range (c : contract) (h : list event) (i : Z) : refines c h -> i ∈ members h -> 1 <= i < relayIndex c.
Proof. intros R. rewrite (ref_members c h R). intros [_ H%elem_of_seqZ]%list_elem_of_filter. lia. Qed.

Lemma healthy_member (c : contract) (h : list event) (i : Z) : refines c h -> healthy c i = true -> i ∈ members h.
Proof.
  intros R (Hi & _ & Hu)%(ref_health c h R). rewrite (ref_members c h R). apply list_elem_of_filter. split; [done|]. apply elem_of_seqZ. lia.
Qed.

(** What the log makes of the current set for an entry with the counter [k]: the members at that time, unless somebody was removed since. *)
Lemma log_undo (c : contract) (h : list event) (k : Z) : refines c h -> 0 <= k ->
  (let* l := add_all (removed (log_from h k)) (members h) in remove_all (joined (log_from h k)) l) =
  if joins_only (drop (Z.to_nat (k - 1)) h) then Ok (members (take (Z.to_nat (k - 1)) h)) else Err.
Proof.
  intros R Hk. unfold log_from, joins_only. set (n := Z.to_nat (k - 1)).
  assert (Ez : removed (if k =? 0 then [Removed []] else []) = [] /\ joined (if k =? 0 then [Removed []] else []) = []) by (by destruct (k =? 0)).
  destruct Ez as [Er Ej]. rewrite removed_app, joined_app, Er, Ej, !app_nil_r, joined_reverse.
  destruct (bool_decide_reflect (removed (drop n h) = [])) as [Hr|Hr].
  - rewrite (proj2 (removed_reverse _) Hr). cbn [add_all obind]. pose proof (members_joins (take n h) (drop n h) Hr) as Hm. rewrite take_drop in Hm.
    rewrite Hm. apply remove_all_joined. rewrite <- Hm. by eapply members_nodup.
  - destruct (removed (reverse (drop n h))) as [|x l] eqn:E; [by destruct Hr; apply removed_reverse|done].
Qed.

(** ** Hexadecimal text *)

Lemma py_hex_lower (data : bytes) : py_hex data = TOR_TOLOWER <$> hex_text data.
Proof.
  unfold py_hex, hex_text. induction data as [|c data IH]; [done|]. cbn [fmap list_fmap concat].
  change (list_fmap ascii ascii TOR_TOLOWER) with (fmap (M := list) TOR_TOLOWER). rewrite fmap_app. change (list_fmap ascii bytes ?f data) with (f <$> data). rewrite IH. f_equal.
  set (P := fun z => bool_decide ([hexd_lower (b2z (z2b z) / 16); hexd_lower (b2z (z2b z) mod 16)] = TOR_TOLOWER <$> hex2 (z2b z))).
  assert (HP : P (b2z c) = true) by (apply (forall_range P 256); [by vm_compute|apply b2z_range]).
  unfold P in HP. rewrite z2b_b2z in HP. by apply bool_decide_eq_true in HP.
Qed.

Lemma py_hex_lower_again (data : bytes) : TOR_TOLOWER <$> py_hex data = py_hex data.
Proof.
  rewrite py_hex_lower, <- list_fmap_compose. apply list_fmap_ext. intros k c _. cbn [compose].
  set (P := fun z => bool_decide (TOR_TOLOWER (TOR_TOLOWER (z2b z)) = TOR_TOLOWER (z2b z))).
  assert (HP : P (b2z c) = true) by (apply (forall_range P 256); [by vm_compute|apply b2z_range]). unfold P in HP. rewrite z2b_b2z in HP. by apply bool_decide_eq_true in HP.
Qed.

Lemma py_hex_length (data : bytes) : length (py_hex data) = (2 * length data)%nat.
Proof. unfold py_hex. induction data as [|c data IH]; [done|]. cbn [fmap list_fmap concat]. rewrite length_app. change (list_fmap ascii bytes ?f data) with (f <$> data). rewrite IH. cbn [length]. lia. Qed.

Lemma a2b_hex_py_hex (data : bytes) : a2b_hex (py_hex data) = Some data.
Proof.
  unfold py_hex. induction data as [|c data IH]; [done|]. cbn [fmap list_fmap concat app a2b_hex]. change (list_fmap ascii bytes ?f data) with (f <$> data). rewrite IH.
  set (P := fun z => let c := z2b z in let d1 := hex_decode_digit (hexd_lower (b2z c / 16)) in let d2 := hex_decode_digit (hexd_lower (b2z c mod 16)) in
                     negb (d1 <? 0) && negb (d2 <? 0) && bool_decide (z2b (16 * d1 + d2) = c)).
  assert (HP : P (b2z c) = true) by (apply (forall_range P 256); [by vm_compute|apply b2z_range]). unfold P in HP. rewrite z2b_b2z in HP. cbn zeta in HP.
  apply andb_true_iff in HP as [[H1 H2]%andb_true_iff H3%bool_decide_eq_true]. apply negb_true_iff in H1, H2. rewrite H1, H2. cbn. by rewrite H3.
Qed.

Lemma py_hex_no_newline (data : bytes) : NL ∉ py_hex data.
Proof.
  unfold py_hex. induction data as [|c data IH]; [apply not_elem_of_nil|]. cbn [fmap list_fmap concat]. change (list_fmap ascii bytes ?f data) with (f <$> data).
  set (P := fun z => bool_decide (NL ∉ [hexd_lower (b2z (z2b z) / 16); hexd_lower (b2z (z2b z) mod 16)])).
  assert (HP : P (b2z c) = true) by (apply (forall_range P 256); [by vm_compute|apply b2z_range]). unfold P in HP. rewrite z2b_b2z in HP. apply bool_decide_eq_true in HP.
  rewrite not_elem_of_app. done.
Qed.

Lemma findall_pieces (ls : list bytes) : Forall (fun s => length s = 130%nat) ls -> NL ∉ concat ls -> forall fuel, (length (concat ls) <= fuel)%nat ->
  findall_130 fuel (concat ls) = ls.
Proof.
  induction 1 as [|s ls Hs _ IH]; intros Hnl fuel Hf; [by destruct fuel|]. cbn [concat] in *. rewrite length_app in Hf.
  destruct fuel as [|f]; [lia|]. cbn [findall_130]. rewrite (proj2 (Nat.ltb_ge _ _)) by (rewrite length_app; lia).
  rewrite (take_app_length' s (concat ls) 130), (drop_app_length' s (concat ls) 130) by done. apply not_elem_of_app in Hnl as [H1 H2]. rewrite decide_False by done. f_equal. apply IH; [done|lia].
Qed.

Lemma findall_short (fuel : nat) (s : bytes) : (length s < 130)%nat -> findall_130 fuel s = [].
Proof. intros H. destruct fuel; cbn [findall_130]; [done|]. by rewrite (proj2 (Nat.ltb_lt _ _)). Qed.

(** ** Padding *)

Lemma padding_length (s : bytes) : zlen (padding s) mod 16 = 0.
Proof.
  unfold padding, zlen. rewrite length_app, length_replicate. destruct (Nat.eqb_spec (length s mod 16) 0); dlia.
Qed.

Lemma padding_nuls (s : bytes) : exists k, padding s = s ++ replicate k NUL.
Proof. unfold padding. eauto. Qed.

Lemma rstrip_nuls (s : bytes) (c : ascii) (k : nat) : c <> NUL -> rstrip_NUL ((s ++ [c]) ++ replicate k NUL) = s ++ [c].
Proof.
  intros Hc. unfold rstrip_NUL. rewrite reverse_app, reverse_replicate. induction k as [|k IH]; cbn [replicate app].
  - rewrite reverse_snoc. rewrite decide_False by done. by rewrite <- reverse_snoc, reverse_involutive.
  - rewrite decide_True by done. exact IH.
Qed.

Lemma utf8_padding (s : bytes) : is_utf8 s -> string_is_utf8 (padding s) = Ok true.
Proof.
  intros (cps & Hcps & ->). destruct (padding_nuls (concat (utf8_enc <$> cps))) as [k ->].
  unfold string_is_utf8. destruct (utf8_loop_ok _ (concat (utf8_enc <$> cps) ++ replicate k NUL) (le_n _)) as (b & -> & Hb). f_equal. apply Hb.
  exists (cps ++ replicate k 0). split.
  - apply Forall_app. split; [done|]. apply Forall_replicate. unfold scalar_value. lia.
  - rewrite fmap_app, concat_app. f_equal. rewrite fmap_replicate. clear Hb. induction k as [|k IH]; [done|]. cbn. f_equal. exact IH.
Qed.

(** The entry ends with a newline. *)
Lemma router_sri_newline `{ssl : OpenSSL} (ri : routerinfo) (sri : bytes) : router_sri ri = Ok sri -> exists s, sri = s ++ [NL].
Proof.
  unfold router_sri, sprintf. intros H.
  repeat match type of H with
  | obind _ _ = Ok _ => apply obind_ok in H as (? & ? & H)
  | (let '(_, _) := ?p in _) = Ok _ => destruct p
  | (if ?b then Stuck else _) = Ok _ => destruct b; [done|]
  | (if ?b then _ else Stuck) = Ok _ => destruct b; [|done]
  end.
  apply Ok_eq in H as <-. eexists. by rewrite !app_assoc.
Qed.

(** ** Requests without interference *)

Lemma request_quiet (w : py_world) : sched w = [] -> request w = (Ok true, w).
Proof. intros H. unfold request. by rewrite H. Qed.
Lemma call_quiet {A} (f : contract -> outcome A) (w : py_world) : sched w = [] ->
  call f w = (match f (chain w) with Ok a => Ok a | _ => Err end, w).
Proof. intros H. unfold call. by rewrite (bind_ok _ _ w w true) by (by apply request_quiet). Qed.
Lemma send_quiet (a : Z) (t : tx) (w : py_world) : sched w = [] -> send a t w = (Ok true, with_chain w (transact (chain w) (a, t)) []).
Proof. intros H. unfold send. rewrite (bind_ok _ _ w w true) by (by apply request_quiet). rewrite <- H. done. Qed.

(** The world of a relay that has just read the set. *)
Record synced (h : list event) (w : py_world) : Prop := {
  sy_chain : refines (chain w) h;
  sy_quiet : sched w = [];
  sy_Counter : Counter w = CurrentCounter (chain w);
  sy_set : relaySet w = members h
}.

Definition read_set (h : list event) (w : py_world) : py_world := set_Counter (CurrentCounter (chain w)) (set_relaySet (members h) w).

Lemma relayGetSet_quiet (a : Z) (w : py_world) (h : list event) : refines (chain w) h -> sched w = [] -> is_registered a (chain w) = true ->
  relayGetSet a w = (Ok (CurrentCounter (chain w), members h), read_set h w).
Proof.
  intros R Hs Ha. unfold relayGetSet, relayGetIndexSet, relayGetCurrentCounter.
  rewrite (bind_ok _ _ w w (relayIndex (chain w), unhealthyRelaySet (chain w))).
  2:{ rewrite call_quiet by done. unfold relay_get_index_set. by rewrite Ha. }
  set (l := filter _ _). assert (El : l = members h) by (by rewrite (ref_members _ h R)). rewrite El.
  set (w1 := set_relaySet (members h) w). rewrite (bind_ok _ _ w w1 tt) by done.
  rewrite (bind_ok _ _ w1 w1 (CurrentCounter (chain w))); [done|]. rewrite call_quiet by done. unfold relay_get_current_counter. change (chain w1) with (chain w). by rewrite Ha.
Qed.

Lemma read_set_synced (w : py_world) (h : list event) : refines (chain w) h -> sched w = [] -> synced h (read_set h w).
Proof. intros R Hs. by split. Qed.

(** The members that an entry with the counter [k] was encrypted for. *)
Definition members_at (h : list event) (k : Z) : list Z := members (take (Z.to_nat (k - 1)) h).
Definition since (h : list event) (k : Z) : list event := drop (Z.to_nat (k - 1)) h.

Lemma download_helper_quiet (a i : Z) (w : py_world) : sched w = [] -> is_registered a (chain w) = true -> i < relayIndex (chain w) ->
  relayDownloadSRIHelper a i w =
  (if healthy (chain w) i then let r := relay_at (chain w) i in Ok (counter r, py_hex (Hdr r), py_hex (encryptedSRI r)) else Err, w).
Proof.
  intros Hs Ha Hi. unfold relayDownloadSRIHelper. set (r := relay_at (chain w) i).
  assert (E : call (relay_download_SRI a i) w = (if healthy (chain w) i then Ok (counter r, Hdr r, encryptedSRI r) else Err, w)).
  { rewrite call_quiet by done. unfold relay_download_SRI. rewrite Ha. cbn [require]. rewrite (proj2 (Z.ltb_lt _ _) Hi). cbn [andb]. unfold healthy.
    by destruct (healthflag (relay_at (chain w) i)). }
  destruct (healthy (chain w) i); [by erewrite bind_ok by exact E|by erewrite bind_err by exact E].
Qed.

Lemma relayDownloadSRI_quiet (a i : Z) (w : py_world) (h : list event) : synced h w -> is_registered a (chain w) = true -> healthy (chain w) i = true ->
  let r := relay_at (chain w) i in 0 <= counter r <= CurrentCounter (chain w) ->
  relayDownloadSRI a i w =
  (if joins_only (since h (counter r)) then Ok (members_at h (counter r), findall_130 (length (py_hex (Hdr r))) (py_hex (Hdr r)), py_hex (encryptedSRI r)) else Err, w).
Proof.
  intros [R Hs HC Hset] Ha Hh r Hk. pose proof (ref_health _ h R i Hh) as (Hi & _ & _). unfold relayDownloadSRI.
  rewrite (bind_ok _ _ w w (counter r, py_hex (Hdr r), py_hex (encryptedSRI r))) by (rewrite download_helper_quiet by (done || lia); by rewrite Hh).
  rewrite (bind_ok _ _ w w (relaySet w)), (bind_ok _ _ w w (Counter w)) by done. rewrite HC, Hset.
  set (m := if _ <? _ then _ else _).
  assert (Em : m w = (if joins_only (since h (counter r)) then Ok (members_at h (counter r)) else Err, w)).
  { unfold m, since, members_at. pose proof (ref_counter _ h R) as Hc. destruct (Z.ltb_spec (counter r) (CurrentCounter (chain w))).
    - set (L := log_from h (counter r)). rewrite (bind_ok _ _ w w (removed L, joined L)).
      + unfold lift. f_equal. rewrite <- (log_undo _ h _ R) by lia. done.
      + unfold relayGetCounterList. rewrite (bind_ok _ _ w w (event_op <$> L, event_list <$> L)).
        * unfold lift. f_equal. apply split_log.
        * rewrite call_quiet by done. by rewrite (relay_get_counter_list_ok _ h a) by (done || lia).
    - rewrite drop_ge, take_ge by (unfold zlen in Hc; lia). done. }
  destruct (joins_only _); [by erewrite bind_ok|by erewrite bind_err].
Qed.

(** ** One entry *)

(** A call from C of a function that does not raise, or that does. *)
Lemma py_call_ok {A} (f : py A) (n : node) (w : py_world) (a : A) : exc n = false -> f (wd n) = (Ok a, w) ->
  py_call f n = (Ok (Some a), set_wd n w false).
Proof. intros He E. unfold py_call. by rewrite He, E. Qed.
Lemma py_call_err {A} (f : py A) (n : node) (w : py_world) : exc n = false -> f (wd n) = (Err, w) ->
  py_call f n = (Ok None, set_wd n w true).
Proof. intros He E. unfold py_call. by rewrite He, E. Qed.
Lemma set_wd_same (n : node) : set_wd n (wd n) (exc n) = n.
Proof. by destruct n. Qed.

Definition entry_text (i : Z) (sri : bytes) : bytes := bs "index " ++ print_int i ++ [NL] ++ sri.
(** An entry goes to the end of the cache; after the last one the cache becomes the file that is read. *)
Definition add_entry (i : Z) (sri : bytes) (fileEnd : Z) (w : py_world) : py_world :=
  let s := default [] (NIME_cached w) ++ entry_text i sri in
  if fileEnd =? 1 then set_files (Some s) None w else set_files (NIME w) (Some s) w.

(** ** Other accounts *)

(** Transactions that register relays or upload entries. *)
Definition peaceful (st : Z * tx) : Prop :=
  match snd st with Tx_relay_register | Tx_relay_upload_SRI_and_NSD _ _ _ _ => True | _ => False end.

Lemma peaceful_sized (st : Z * tx) : peaceful st -> well_sized st.
Proof. unfold peaceful, well_sized. by destruct (snd st). Qed.

Lemma register_effects (b : Z) (c c' : contract) : Contract.relay_register b c = Ok c' ->
  registered (relay_at c (relayaddr_at c b)) = false /\
  (forall j, relay_at c' j = if decide (relayIndex c = j) then new_relay (relay_at c (relayIndex c)) else relay_at c j) /\
  (forall x, relayaddr_at c' x = if decide (b = x) then relayIndex c else relayaddr_at c x).
Proof.
  unfold Contract.relay_register. destruct (registered _) eqn:Eb; cbn [negb require]; [done|]. intros [= <-]. split; [done|]. split; [intros j; apply relay_at_set|].
  intros x. unfold relayaddr_at. cbn. destruct (decide (b = x)) as [->|]; [by rewrite lookup_insert_eq|by rewrite lookup_insert_ne].
Qed.

(** They leave a registered relay's index and, if they are not its own, its entry alone. *)
Lemma peaceful_keeps (c : contract) (h : list event) (a : Z) (st : Z * tx) : refines c h -> is_registered a c = true -> peaceful st ->
  let c' := transact c st in
  relayaddr_at c' a = relayaddr_at c a /\ is_registered a c' = true /\ (fst st <> a -> relay_at c' (relayaddr_at c a) = relay_at c (relayaddr_at c a)) /\
  removed (events c st) = [].
Proof.
  intros R Ha Hp. cbn zeta. destruct (registered_index c h a R Ha) as [Hn0 Hidx]. unfold transact, events. destruct st as [b t]. cbn [fst snd].
  destruct (call_tx b t c) as [c'| |] eqn:E; [|by split_and!..]. unfold is_registered in *. destruct t as [|k hd en d| | |]; try done; cbn [call_tx] in E.
  - destruct (register_effects b c c' E) as (Eb & Hr & Hadr). assert (Hba : b <> a) by (intros ->; congruence).
    rewrite Hadr, !Hr, !decide_False by (done || lia). by split_and!.
  - revert E. unfold relay_upload_SRI_and_NSD. destruct (healthflag (relay_at c (relayaddr_at c b))) eqn:Eb; cbn [require]; [|done]. intros [= <-].
    change (relayaddr_at (set_relay c ?i ?r) a) with (relayaddr_at c a). rewrite !relay_at_set. split_and!; try done.
    + destruct (decide _) as [E|]; [|done]. cbn. by rewrite E.
    + intros Hba. rewrite decide_False; [done|]. intros E. apply Hba. apply (ref_addr_inj c h R); [|done].
      apply (ref_health c h R) in Eb. lia.
Qed.

Lemma peaceful_all (txs : list (Z * tx)) : forall c h a, refines c h -> is_registered a c = true -> Forall peaceful txs -> zlen (h ++ history c txs) <= 254 ->
  let c' := transact_all c txs in
  relayaddr_at c' a = relayaddr_at c a /\ is_registered a c' = true /\ removed (history c txs) = [] /\ refines c' (h ++ history c txs) /\
  (Forall (fun st => fst st <> a) txs -> relay_at c' (relayaddr_at c a) = relay_at c (relayaddr_at c a)).
Proof.
  induction txs as [|st txs IH]; intros c h a R Ha Hp Hl; cbn zeta; cbn [history transact_all] in *; [rewrite app_nil_r; by split_and!|].
  apply Forall_cons in Hp as [Hst Hp]. destruct (peaceful_keeps c h a st R Ha Hst) as (E1 & E2 & E3 & E4). rewrite app_assoc in *.
  assert (R' : refines (transact c st) (h ++ events c st)).
  { apply transact_refines; [done|by apply peaceful_sized|]. rewrite zlen_app in Hl. pose proof (zlen_nonneg (history (transact c st) txs)). lia. }
  destruct (IH _ _ a R' E2 Hp Hl) as (F1 & F2 & F3 & F4 & F5). change (transact_all c (st :: txs)) with (transact_all (transact c st) txs).
  rewrite removed_app, E4, F3, F1, E1. split_and!; try done. intros Hne. apply Forall_cons in Hne as [Hna Hne]. rewrite E1 in F5. rewrite F5 by done. by apply E3.
Qed.

(** ** The files after a download *)

(** The entries of the members, in order; the one of a relay that never uploaded is [None]. *)
Abbreviation entries := (list (Z * option bytes)).
Fixpoint store (es : entries) (w : py_world) : py_world :=
  match es with
  | [] => w
  | (i, o) :: es => store es (match o with Some sri => add_entry i sri (match es with [] => 1 | _ => 0 end) w | None => w end)
  end.
Definition texts (es : entries) : bytes := concat ((fun e => match snd e with Some sri => entry_text (fst e) sri | None => [] end) <$> es).
Definition complete (es : entries) : bool := match last es with Some (_, Some _) => true | _ => false end.

Lemma store_world (es : entries) : forall w, chain (store es w) = chain w /\ sched (store es w) = sched w /\
  Counter (store es w) = Counter w /\ relaySet (store es w) = relaySet w.
Proof.
  induction es as [|[i [sri|]] es IH]; intros w; cbn [store]; [done| |apply IH].
  destruct (IH (add_entry i sri (match es with [] => 1 | _ => 0 end) w)) as (-> & -> & -> & ->). unfold add_entry. by destruct (_ =? 1).
Qed.

Lemma entry_text_nonnil (i : Z) (sri s : bytes) : entry_text i sri ++ s <> [].
Proof. done. Qed.

Lemma store_files (es : entries) : forall w,
  NIME (store es w) = (if complete es then Some (default [] (NIME_cached w) ++ texts es) else NIME w) /\
  NIME_cached (store es w) = (if complete es then None else if decide (texts es = []) then NIME_cached w else Some (default [] (NIME_cached w) ++ texts es)).
Proof.
  induction es as [|[i o] es IH]; intros w; [done|]. cbn [store]. destruct (IH (match o with Some sri => add_entry i sri (match es with [] => 1 | _ => 0 end) w | None => w end)) as [-> ->].
  destruct es as [|e es].
  { destruct o as [sri|]; [|done]. unfold complete, texts, add_entry. cbn [last fmap list_fmap concat snd fst Z.eqb Pos.eqb set_files NIME NIME_cached]. by rewrite app_nil_r. }
  assert (Ec : complete ((i, o) :: e :: es) = complete (e :: es)) by done. rewrite Ec.
  assert (Et : texts ((i, o) :: e :: es) = (match o with Some sri => entry_text i sri | None => [] end) ++ texts (e :: es)) by done. rewrite Et.
  set (ts := texts (e :: es)). destruct o as [sri|]; [|done]. unfold add_entry. cbn [Z.eqb set_files NIME NIME_cached default from_option]. unfold id.
  destruct (complete (e :: es)); [by rewrite <- app_assoc|]. rewrite (decide_False (P := entry_text i sri ++ ts = [])) by apply entry_text_nonnil.
  destruct (decide (ts = [])) as [->|]; [by rewrite app_nil_r|by rewrite <- app_assoc].
Qed.

Section delivery.
Context {ssl : OpenSSL} {pbc : PBC} {spec : PBCSpec pbc} {libs : PyLibs} {lspec : PyLibsSpec libs}.
Context (slack : Z) (BEPK BESK : bytes) (gps : bkem_global_params) (PK : pubkey) (g : G1) (alpha : Z) (gamma : Z -> Z).
(** The sizes of BADNET's groups: 65 bytes for an element of the first one, and a key of 32 digits at least. *)
Hypothesis slack_spare : 3 <= slack.
Hypothesis key_fits : gt_text_fits.
Hypothesis key_long : forall K : GT, 16 <= zlen (gt_to_bytes K).
Hypothesis g1_size : g1_length = 65%nat.
Hypothesis param_ok : bkem_param BEPK = Ok (gps, PK).
Hypothesis key_ok : public_key gps g alpha gamma PK.

Definition sym_key (t : Z) : bytes := hex_text (gt_to_bytes (session_key gps g alpha t)).

(** The private key of the relay [me]. *)
Definition private_key (me : Z) : Prop :=
  exists line rest, fgets_512 None BESK = (Some line, rest) /\
    g1_set_str (cstr line) = g1_pow g (gamma (me / gps_B gps) * alpha ^ (me mod gps_B gps + 1)).

(** The entry of the relay [i] is the text [sri], encrypted for the members at the time of its counter. *)
Definition sealed (c : contract) (h : list event) (i : Z) (sri : bytes) : Prop :=
  let r := relay_at c i in
  healthy c i = true /\ 1 <= counter r <= CurrentCounter c /\
  exists t HDR, header_ok gps g alpha gamma (members_at h (counter r)) t HDR /\ Hdr r = concat (g1_to_bytes_compressed <$> HDR) /\
    aes_cbc_encrypt (take 32 (sym_key t)) AES_CBC_IV (padding sri) = Some (encryptedSRI r).

(** An entry as [router_sri] makes it. *)
Definition proper_sri (sri : bytes) : Prop := is_utf8 sri /\ exists s, sri = s ++ [NL].

Lemma sym_key_length (t : Z) : length (take 32 (sym_key t)) = 32%nat.
Proof.
  pose proof (hex_text_length (gt_to_bytes (session_key gps g alpha t))) as H. pose proof (key_long (session_key gps g alpha t)).
  unfold sym_key. rewrite length_take. unfold zlen in *. lia.
Qed.

Lemma relayDecryptSRIs_ok (i t fileEnd : Z) (sri ct : bytes) (w : py_world) : proper_sri sri ->
  aes_cbc_encrypt (take 32 (sym_key t)) AES_CBC_IV (padding sri) = Some ct ->
  relayDecryptSRIs i (py_hex ct) (sym_key t) fileEnd w = (Ok tt, add_entry i sri fileEnd w) /\ zlen (py_hex ct) <> 0.
Proof.
  intros [Hu [s Hs]] He.
  destruct (aes_inverse _ AES_CBC_IV (padding sri) (sym_key_length t) (length_replicate _ _) (padding_length sri)) as (ct' & He' & Hl & Hd).
  rewrite He in He'. injection He' as <-. split.
  - unfold relayDecryptSRIs, AES_decrypt. rewrite a2b_hex_py_hex, Hd, utf8_padding by done. cbn [obind].
    assert (Hr : rstrip_NUL (padding sri) = sri) by (destruct (padding_nuls sri) as [k ->]; rewrite Hs; by apply rstrip_nuls).
    rewrite Hr. unfold add_entry, entry_text. destruct (fileEnd =? 1); [|done]. unfold mbind, run_bind, modify, lift. cbn. by destruct (NIME w).
  - unfold zlen. rewrite py_hex_length, Hl. destruct (padding_nuls sri) as [k ->]. rewrite Hs, !length_app. cbn [length]. lia.
Qed.

Lemma copy_hdrs_ok (l : list bytes) : Forall (fun s => length s = 130%nat) l -> copy_hdrs slack l = Ok l.
Proof.
  induction 1 as [|s l Hs _ IH]; [done|]. cbn [copy_hdrs]. unfold zlen. rewrite (proj2 (Z.ltb_ge _ _)) by lia. by rewrite IH.
Qed.

Lemma members_in_range (c : contract) (h : list event) : refines c h -> Forall (in_range gps) (members h).
Proof.
  intros R. apply Forall_forall. intros x Hx. apply (members_range c h x R) in Hx. pose proof (ref_index c h R). pose proof (ref_len c h R).
  assert (Eg : gps = setup_global_system MAX_REALY_NUMBER).
  { pose proof param_ok as Hp. unfold bkem_param in Hp. apply obind_ok in Hp as ([|? ?] & _ & Hp); [done|]. by injection Hp as <-. }
  unfold in_range. rewrite Eg. change (gps_N _) with 1023. lia.
Qed.

Lemma members_split (h : list event) (k : Z) : joins_only (since h k) = true -> members h = members_at h k ++ joined (since h k).
Proof.
  intros Hj%bool_decide_eq_true. unfold members_at, since in *. rewrite <- members_joins by done. by rewrite take_drop.
Qed.
Lemma members_at_sub (h : list event) (k : Z) : joins_only (since h k) = true -> forall x, x ∈ members_at h k -> x ∈ members h.
Proof. intros Hj x Hx. rewrite (members_split h k Hj), elem_of_app. by left. Qed.
Lemma members_at_nodup (c : contract) (h : list event) (k : Z) : refines c h -> joins_only (since h k) = true -> NoDup (members_at h k).
Proof. intros R Hj. pose proof (members_nodup c h R) as Hnd. rewrite (members_split h k Hj) in Hnd. by apply NoDup_app in Hnd as [? _]. Qed.
Lemma times_one (x : Z) (l : list Z) : NoDup l -> x ∈ l -> times x l = 1.
Proof.
  intros Hnd. induction Hnd as [|y l Hy _ IH]; intros Hx; [by apply elem_of_nil in Hx|]. unfold times in *. apply elem_of_cons in Hx as [->|Hx].
  - rewrite filter_cons_True by done. assert (E : filter (fun s => s = y) l = []).
    { clear IH. induction l as [|z l IHl]; [done|]. apply not_elem_of_cons in Hy as [Hz Hy]. rewrite filter_cons_False by congruence. by apply IHl. }
    rewrite E. done.
  - rewrite filter_cons_False by (intros ->; done). by apply IH.
Qed.

Lemma download_one_sealed (b i fileEnd : Z) (h : list event) (sri : bytes) (n : node) : synced h (wd n) -> exc n = false ->
  is_registered b (chain (wd n)) = true -> sealed (chain (wd n)) h i sri -> proper_sri sri ->
  joins_only (since h (counter (relay_at (chain (wd n)) i))) = true -> myIndex n ∈ members_at h (counter (relay_at (chain (wd n)) i)) ->
  private_key (myIndex n) ->
  download_one slack BEPK BESK b i fileEnd n = (Ok tt, set_wd n (add_entry i sri fileEnd (wd n)) false).
Proof.
  intros Hsy He Hb (Hh & Hk & t & HDR & Hhdr & Hr & Hct) Hsri Hj Hme (line & rest & Hline & Hd). set (r := relay_at (chain (wd n)) i) in *.
  destruct (relayDecryptSRIs_ok i t fileEnd sri (encryptedSRI r) (wd n) Hsri Hct) as [Hdec Hne].
  unfold download_one. pose proof (relayDownloadSRI_quiet b i (wd n) h Hsy Hb Hh ltac:(fold r; lia)) as Hdl. cbn zeta in Hdl. fold r in Hdl. rewrite Hj in Hdl. cbv iota in Hdl.
  assert (Hpieces : findall_130 (length (py_hex (Hdr r))) (py_hex (Hdr r)) = hdr_texts HDR).
  { pose proof (py_hex_no_newline (Hdr r)) as Hnl. revert Hnl. rewrite py_hex_lower, Hr, hdr_texts_concat. intros Hnl. apply findall_pieces; [|done|done].
    pose proof (hdr_texts_length HDR) as Hl. by rewrite g1_size in Hl. }
  rewrite Hpieces in Hdl. rewrite (bind_ok _ _ _ _ _ (py_call_ok _ _ _ _ He Hdl)). unfold PyArg_ParseTuple at 1. cbn [get].
  assert (En : set_wd n (wd n) false = n) by (rewrite <- He; apply set_wd_same). rewrite En. unfold lift at 1. erewrite bind_ok by done.
  cbv beta iota. rewrite (proj2 (Z.eqb_neq _ _)) by done.
  rewrite (bind_ok _ _ n n (hdr_texts HDR)).
  2:{ unfold c_lift, lift. rewrite copy_hdrs_ok; [done|]. pose proof (hdr_texts_length HDR) as Hl. by rewrite g1_size in Hl. }
  rewrite (bind_ok _ _ n n (myIndex n)) by done. pose proof (members_at_sub _ _ Hj _ Hme) as Hmem.
  pose proof (members_range _ _ _ (sy_chain _ _ Hsy) Hmem) as Hmr. pose proof (ref_index _ _ (sy_chain _ _ Hsy)) as Hix. pose proof (ref_len _ _ (sy_chain _ _ Hsy)).
  rewrite (bind_ok _ _ n n (sym_key t)).
  2:{ unfold c_lift, lift. rewrite to_int_small by (unfold INT32_MIN, INT32_MAX; lia).
      pose proof (members_in_range _ _ (sy_chain _ _ Hsy)) as Hir. rewrite Forall_forall in Hir.
      rewrite (bkem_decryption_ok gps g alpha gamma slack BEPK BESK line rest PK _ t (myIndex n) HDR); try done; [| |].
      - apply Forall_forall. intros x Hx. apply Hir. by apply (members_at_sub _ _ Hj).
      - by apply Hir.
      - apply times_one; [by eapply members_at_nodup, Hj; apply Hsy|done]. }
  rewrite (bind_ok _ _ _ _ _ (py_call_ok _ _ _ _ He Hdec)). done.
Qed.

Lemma download_one_empty (b i fileEnd : Z) (h : list event) (n : node) : synced h (wd n) -> exc n = false ->
  is_registered b (chain (wd n)) = true -> healthy (chain (wd n)) i = true ->
  let r := relay_at (chain (wd n)) i in 0 <= counter r <= CurrentCounter (chain (wd n)) -> encryptedSRI r = [] ->
  joins_only (since h (counter r)) = true -> download_one slack BEPK BESK b i fileEnd n = (Ok tt, n).
Proof.
  intros Hsy He Hb Hh r Hk Hen Hj. unfold download_one.
  pose proof (relayDownloadSRI_quiet b i (wd n) h Hsy Hb Hh Hk) as Hdl. cbn zeta in Hdl. fold r in Hdl. rewrite Hj, Hen in Hdl. cbv iota in Hdl.
  rewrite (bind_ok _ _ _ _ _ (py_call_ok _ _ _ _ He Hdl)). rewrite <- He, set_wd_same. done.
Qed.

Lemma py_enter_ok (n : node) : importable n = true -> py_enter n = (Ok true, set_exc false (set_initialized n)).
Proof. intros Hi. unfold py_enter. cbn. unfold mbind, run_bind, modify, gets. cbn. by rewrite Hi. Qed.

(** What an upload stores. *)
Definition stored_entry (c : contract) (i k : Z) (hdr en nsd : bytes) : contract :=
  set_relay c i {| registered := registered (relay_at c i); healthflag := healthflag (relay_at c i); counter := k; Hdr := hdr; encryptedSRI := en; NSD := nsd |}.

Lemma relayUploadSRIAndNSD_ok (a k t : Z) (HDR : list G1) (sri : bytes) (w : py_world) : sched w = [] -> healthy (chain w) (relayaddr_at (chain w) a) = true ->
  exists ct, aes_cbc_encrypt (take 32 (sym_key t)) AES_CBC_IV (padding sri) = Some ct /\
    relayUploadSRIAndNSD a k (hex_text (concat (g1_to_bytes_compressed <$> HDR))) sri (sym_key t) w =
    (Ok tt, with_chain w (stored_entry (chain w) (relayaddr_at (chain w) a) k (concat (g1_to_bytes_compressed <$> HDR)) ct (sha256 sri)) []).
Proof.
  intros Hs Hh. destruct (aes_inverse _ AES_CBC_IV (padding sri) (sym_key_length t) (length_replicate _ _) (padding_length sri)) as (ct & Hct & _ & _).
  exists ct. split; [exact Hct|]. unfold relayUploadSRIAndNSD, AES_encrypt. rewrite Hct. set (hd := concat _).
  rewrite (bind_ok _ _ w w (py_hex ct)) by done. unfold bytes_arg. rewrite (to_bytes_hex (hex_text hd) hd) by (by rewrite py_hex_lower).
  rewrite (bind_ok _ _ w w hd) by done. rewrite (to_bytes_hex (py_hex ct) ct), (to_bytes_hex (py_hex (sha256 sri)) (sha256 sri)) by apply py_hex_lower_again.
  rewrite (bind_ok _ _ w w ct), (bind_ok _ _ w w (sha256 sri)) by done. rewrite (bind_ok _ _ _ _ _ (send_quiet a _ w Hs)).
  unfold mret, run_ret. do 2 f_equal. unfold transact. cbn [fst snd call_tx]. unfold relay_upload_SRI_and_NSD. unfold healthy in Hh. unfold stored_entry. by rewrite Hh.
Qed.

Lemma upload_ok (a t : Z) (ri : routerinfo) (sri : bytes) (n : node) (h : list event) : let c := chain (wd n) in
  refines c h -> sched (wd n) = [] -> importable n = true -> is_registered a c = true -> healthy c (relayaddr_at c a) = true -> router_sri ri = Ok sri ->
  exists HDR ct, header_ok gps g alpha gamma (members h) t HDR /\ aes_cbc_encrypt (take 32 (sym_key t)) AES_CBC_IV (padding sri) = Some ct /\
    router_upload_descriptor_to_blockchain slack BEPK a ri t n =
    (Ok 1, set_wd (set_initialized n) (with_chain (read_set h (wd n))
             (stored_entry c (relayaddr_at c a) (CurrentCounter c) (concat (g1_to_bytes_compressed <$> HDR)) ct (sha256 sri)) []) false).
Proof.
  intros c R Hs Hi Ha Hh Hri. destruct (bkem_encryption_ok gps g alpha gamma slack BEPK PK (members h) t slack_spare key_fits param_ok key_ok (members_in_range c h R)) as (HDR & Hhdr & Henc).
  destruct (relayUploadSRIAndNSD_ok a (CurrentCounter c) t HDR sri (read_set h (wd n)) Hs Hh) as (ct & Hct & Hup). exists HDR, ct. split; [done|]. split; [done|].
  unfold router_upload_descriptor_to_blockchain. rewrite Hri. rewrite (bind_ok _ _ n n sri) by done. rewrite (bind_ok _ _ _ _ _ (py_enter_ok n Hi)). cbv iota.
  set (n1 := set_exc false (set_initialized n)).
  assert (Hget : relayGetSet a (wd n1) = (Ok (CurrentCounter c, members h), read_set h (wd n))) by (by apply relayGetSet_quiet).
  rewrite (bind_ok _ _ _ _ _ (py_call_ok _ n1 _ _ eq_refl Hget)). set (n2 := set_wd n1 (read_set h (wd n)) false).
  rewrite (bind_ok _ _ n2 n2 (CurrentCounter c, members h)) by done. cbv beta iota.
  rewrite (bind_ok _ _ n2 n2 (sym_key t, hex_text (concat (g1_to_bytes_compressed <$> HDR)))) by (unfold c_lift, lift; by rewrite Henc). cbv beta iota.
  rewrite (bind_ok _ _ _ _ _ (py_call_ok _ n2 _ _ eq_refl Hup)). done.
Qed.

(** ** The whole download *)

(** The entry of a member for the relay with the index [me]. *)
Inductive entry_of (c : contract) (h : list event) (me : Z) : Z * option bytes -> Prop :=
  | entry_none (i : Z) : healthy c i = true -> 0 <= counter (relay_at c i) <= CurrentCounter c -> encryptedSRI (relay_at c i) = [] ->
      joins_only (since h (counter (relay_at c i))) = true -> entry_of c h me (i, None)
  | entry_some (i : Z) (sri : bytes) : sealed c h i sri -> proper_sri sri -> joins_only (since h (counter (relay_at c i))) = true ->
      me ∈ members_at h (counter (relay_at c i)) -> entry_of c h me (i, Some sri).

Lemma synced_store (h : list event) (es : entries) (w : py_world) : synced h w -> synced h (store es w).
Proof. intros [R Hs HC Hset]. destruct (store_world es w) as (E1 & E2 & E3 & E4). split; rewrite ?E1, ?E2, ?E3, ?E4; done. Qed.

Lemma download_loop_ok (b : Z) (h : list event) (es : entries) : forall n, synced h (wd n) -> exc n = false -> is_registered b (chain (wd n)) = true ->
  private_key (myIndex n) -> Forall (entry_of (chain (wd n)) h (myIndex n)) es ->
  download_loop slack BEPK BESK b (fst <$> es) n = (Ok tt, set_wd n (store es (wd n)) false).
Proof.
  induction es as [|[i o] es IH]; intros n Hsy He Hb Hpk Hes; [unfold mret; cbn; by rewrite <- He, set_wd_same|].
  apply Forall_cons in Hes as [Hi Hes]. cbn [fmap list_fmap fst download_loop store]. change (list_fmap (Z * option bytes)%type Z fst es) with (fst <$> es).
  set (f := match fst <$> es with [] => 1 | _ => 0 end). assert (Ef : f = match es with [] => 1 | _ => 0 end) by (by destruct es). rewrite <- Ef.
  set (w1 := match o with Some sri => add_entry i sri f (wd n) | None => wd n end).
  assert (Hone : download_one slack BEPK BESK b i f n = (Ok tt, set_wd n w1 false)).
  { unfold w1. inversion Hi as [i' H1 H2 H3 H4|i' sri H1 H2 H3 H4]; subst.
    - rewrite (download_one_empty b i f h n) by done. by rewrite <- He, set_wd_same.
    - by eapply download_one_sealed. }
  rewrite (bind_ok _ _ _ _ _ Hone). set (n1 := set_wd n w1 false).
  assert (Hw1 : chain w1 = chain (wd n) /\ sched w1 = sched (wd n) /\ Counter w1 = Counter (wd n) /\ relaySet w1 = relaySet (wd n))
    by (unfold w1, add_entry; destruct o; [by destruct (_ =? 1)|done]).
  destruct Hw1 as (E1 & E2 & E3 & E4).
  rewrite (IH n1); [done|destruct Hsy; split; cbn; rewrite ?E1, ?E2, ?E3, ?E4; done|done|cbn; by rewrite E1|done|cbn; by rewrite E1].
Qed.

Lemma download_ok (b : Z) (h : list event) (es : entries) (n : node) : refines (chain (wd n)) h -> sched (wd n) = [] -> importable n = true ->
  is_registered b (chain (wd n)) = true -> private_key (myIndex n) -> fst <$> es = members h -> Forall (entry_of (chain (wd n)) h (myIndex n)) es ->
  router_download_descriptor_from_blockchain slack BEPK BESK b n = (Ok 1, set_wd (set_initialized n) (store es (read_set h (wd n))) false).
Proof.
  intros R Hs Hi Hb Hpk Hm Hes. unfold router_download_descriptor_from_blockchain. rewrite (bind_ok _ _ _ _ _ (py_enter_ok n Hi)). cbv iota.
  set (n1 := set_exc false (set_initialized n)).
  assert (Hget : relayGetSet b (wd n1) = (Ok (CurrentCounter (chain (wd n)), members h), read_set h (wd n))) by (by apply relayGetSet_quiet).
  rewrite (bind_ok _ _ _ _ _ (py_call_ok _ n1 _ _ eq_refl Hget)). set (n2 := set_wd n1 (read_set h (wd n)) false).
  rewrite (bind_ok _ _ n2 n2 (CurrentCounter (chain (wd n)), members h)) by done. cbv beta iota. rewrite <- Hm.
  rewrite (bind_ok _ _ _ _ _ (download_loop_ok b h es n2 (read_set_synced _ _ R Hs) eq_refl Hb Hpk Hes)). done.
Qed.

(** C9: What a download leaves in the files of a relay. Let the blocks for the texts of keys and headers have at least three spare bytes, the key files be
    those of one setup and the private key the relay's own, let the log of the contract have at most 254 operations, none of them a removal since the
    counter of any entry, and let nothing come between the requests, and let Python's import of the relay's module succeed. Let every member of the set be
    healthy and either have published nothing, or an entry as the code makes it, encrypted for a set of which the reader was a member already; entries
    from before the reader joined are not covered. Then the download succeeds: the published entries go, in the order of the members, each under its
    index, to the end of the cache. They become the file that is read if and only if the last member has published; otherwise that file stays as it was
    and the cache stays too. *)
Theorem download_files (b : Z) (h : list event) (es : entries) (n : node) : refines (chain (wd n)) h -> sched (wd n) = [] -> importable n = true ->
  is_registered b (chain (wd n)) = true -> private_key (myIndex n) -> fst <$> es = members h -> Forall (entry_of (chain (wd n)) h (myIndex n)) es ->
  exists n', router_download_descriptor_from_blockchain slack BEPK BESK b n = (Ok 1, n') /\ exc n' = false /\ chain (wd n') = chain (wd n) /\
    let cache := default [] (NIME_cached (wd n)) in
    NIME (wd n') = (if complete es then Some (cache ++ texts es) else NIME (wd n)) /\
    NIME_cached (wd n') = (if complete es then None else if decide (texts es = []) then NIME_cached (wd n) else Some (cache ++ texts es)).
Proof.
  intros R Hs Hi Hb Hpk Hm Hes. eexists. split; [by eapply download_ok|]. split; [done|]. cbn [wd set_wd].
  destruct (store_world es (read_set h (wd n))) as (E & _). split; [by rewrite E|]. exact (store_files es (read_set h (wd n))).
Qed.

(** A member that has not published yet, and has the highest index, as the relay that joined last, stops everybody: no download replaces the
    file that is read, and each one appends all entries to the cache once more. *)
Theorem unpublished_relay_blocks_NIME (b : Z) (h : list event) (es : entries) (n : node) : refines (chain (wd n)) h -> sched (wd n) = [] -> importable n = true ->
  is_registered b (chain (wd n)) = true -> private_key (myIndex n) -> fst <$> es = members h -> Forall (entry_of (chain (wd n)) h (myIndex n)) es ->
  complete es = false -> texts es <> [] ->
  exists n1 n2, router_download_descriptor_from_blockchain slack BEPK BESK b n = (Ok 1, n1) /\
    router_download_descriptor_from_blockchain slack BEPK BESK b n1 = (Ok 1, n2) /\ NIME (wd n2) = NIME (wd n) /\
    NIME_cached (wd n2) = Some (default [] (NIME_cached (wd n)) ++ texts es ++ texts es).
Proof.
  intros R Hs Hi Hb Hpk Hm Hes Hc Ht. eexists _, _. split; [by eapply download_ok|]. set (w1 := store es (read_set h (wd n))).
  destruct (store_world es (read_set h (wd n))) as (E1 & E2 & _). fold w1 in E1, E2. change (chain (read_set h (wd n))) with (chain (wd n)) in E1.
  split; [eapply (download_ok b h es); cbn [wd set_wd set_initialized myIndex importable]; rewrite ?E1, ?E2; done|]. cbn [wd set_wd].
  destruct (store_files es (read_set h (wd n))) as [F1 F2], (store_files es (read_set h w1)) as [G1 G2]. fold w1 in F1, F2. rewrite Hc in *. rewrite decide_False in F2, G2 by done.
  change (NIME (read_set h w1)) with (NIME w1) in G1. change (NIME_cached (read_set h w1)) with (NIME_cached w1) in G2. rewrite F1 in G1. rewrite F2 in G2.
  split; [exact G1|]. fold w1. rewrite G2. cbn [default from_option]. unfold id. by rewrite <- app_assoc.
Qed.

(** ** From one relay to another *)

Lemma stored_entry_refines (c : contract) (h : list event) (i k : Z) (hd en d : bytes) : refines c h -> refines (stored_entry c i k hd en d) h.
Proof.
  intros R. eapply same_registry_refines; [|exact R]. unfold same_registry, stored_entry. split_and!; try done.
  intros j. rewrite relay_at_set. by destruct (decide _) as [<-|].
Qed.

(** C2: Publishing works from one relay to another, under conditions that the other theorems show to be needed. Let the blocks that the texts of keys and
    headers are put in have at least three spare bytes, let the key files be those of one setup, let Python's import of the relay's module succeed, and
    let the log of the contract have at most 254 operations in the end, so that its counter has not wrapped around. Relay [a], registered and healthy,
    uploads its entry, a UTF-8 text, and no transaction of another account comes between its requests; then other accounts register and upload what they
    like, but nobody cancels, is removed or calls another method, and [a] itself does nothing. Let relay [b] have been registered and healthy at the time
    of the upload, have its private key, and have read the counter and the set that the contract has now, with nothing in between. Then its download of
    the entry of [a] succeeds: what goes to its files is the very text of the entry, under the index of [a]. *)
Theorem sri_reaches_relay (a b t fileEnd : Z) (ri : routerinfo) (sri : bytes) (na : node) (h : list event) (txs : list (Z * tx)) :
  let c := chain (wd na) in
  refines c h -> sched (wd na) = [] -> importable na = true ->
  is_registered a c = true -> healthy c (relayaddr_at c a) = true -> router_sri ri = Ok sri -> is_utf8 sri ->
  is_registered b c = true -> healthy c (relayaddr_at c b) = true ->
  Forall peaceful txs -> Forall (fun st => fst st <> a) txs ->
  exists na', router_upload_descriptor_to_blockchain slack BEPK a ri t na = (Ok 1, na') /\
    let c' := transact_all (chain (wd na')) txs in
    let h' := h ++ history (chain (wd na')) txs in
    forall nb, zlen h' <= 254 -> chain (wd nb) = c' -> sched (wd nb) = [] -> Counter (wd nb) = CurrentCounter c' -> relaySet (wd nb) = members h' ->
      exc nb = false -> myIndex nb = relayaddr_at c b -> private_key (myIndex nb) ->
      download_one slack BEPK BESK b (relayaddr_at c a) fileEnd nb = (Ok tt, set_wd nb (add_entry (relayaddr_at c a) sri fileEnd (wd nb)) false).
Proof.
  intros c R Hs Hi Ha Hh Hri Hu Hb Hhb Hp Hne. destruct (upload_ok a t ri sri na h R Hs Hi Ha Hh Hri) as (HDR & ct & Hhdr & Hct & ->). eexists. split; [done|].
  cbn [wd set_wd chain with_chain]. fold c. set (ia := relayaddr_at c a). set (c1 := stored_entry c ia (CurrentCounter c) (concat (g1_to_bytes_compressed <$> HDR)) ct (sha256 sri)).
  cbn zeta. intros nb Hl Hc Hsb HC Hset He Hme Hpk.
  assert (R1 : refines c1 h) by (by apply stored_entry_refines).
  assert (Ereg : forall x, is_registered x c = true -> is_registered x c1 = true).
  { intros x. unfold is_registered. change (relayaddr_at c1 x) with (relayaddr_at c x). unfold c1, stored_entry. rewrite relay_at_set. by destruct (decide _) as [<-|]. }
  destruct (peaceful_all txs c1 h a R1 (Ereg a Ha) Hp Hl) as (_ & _ & F3 & F4 & F5). specialize (F5 Hne). change (relayaddr_at c1 a) with ia in F5.
  destruct (peaceful_all txs c1 h b R1 (Ereg b Hb) Hp Hl) as (_ & G2 & _ & _ & _).
  set (h' := h ++ history c1 txs) in *. pose proof (ref_counter c h R) as Hcc. pose proof (ref_counter _ _ F4) as Hcc'. pose proof (zlen_nonneg h).
  assert (Er : relay_at (chain (wd nb)) ia = {| registered := registered (relay_at c ia); healthflag := healthflag (relay_at c ia); counter := CurrentCounter c;
     Hdr := concat (g1_to_bytes_compressed <$> HDR); encryptedSRI := ct; NSD := sha256 sri |}) by (rewrite Hc, F5; unfold c1, stored_entry; by rewrite relay_at_set, decide_True).
  assert (Eh : take (Z.to_nat (CurrentCounter c - 1)) h' = h /\ drop (Z.to_nat (CurrentCounter c - 1)) h' = history c1 txs).
  { assert (E : Z.to_nat (CurrentCounter c - 1) = length h) by (unfold zlen in Hcc; lia). rewrite E. unfold h'. by rewrite take_app_length, drop_app_length. }
  destruct Eh as [Etake Edrop].
  apply (download_one_sealed b ia fileEnd h' sri nb); try done.
  - split; rewrite ?Hc; done.
  - by rewrite Hc.
  - unfold sealed. rewrite Er. cbn [counter Hdr encryptedSRI]. split; [|split].
    + unfold healthy in *. by rewrite Er.
    + rewrite Hc, Hcc'. unfold h'. rewrite zlen_app. pose proof (zlen_nonneg (history c1 txs)). lia.
    + exists t, HDR. split_and!; [|done|done]. unfold members_at. by rewrite Etake.
  - split; [done|]. by eapply router_sri_newline.
  - rewrite Er. unfold since. cbn [counter]. rewrite Edrop. by apply bool_decide_eq_true.
  - rewrite Er. unfold members_at. cbn [counter]. rewrite Etake, Hme. by apply (healthy_member c).
Qed.
End delivery.

(** C4: The set that a relay decrypts an old entry with. Let the log of the contract have at most 254 operations, as their count is the counter and has
    eight bits, let no transaction of another account come between the requests, and let the entry be of a healthy relay and carry a counter not beyond
    the current one, as an entry that was uploaded as the code does it. Then right after a registered relay has read the current set, the set it gets for
    the entry is the very list of the members at the counter of the entry, that is the list the entry was encrypted for; unless a relay was removed since,
    when an exception is raised. *)
Theorem download_set_exact {libs : PyLibs} (b i : Z) (w : py_world) (h : list event) : let r := relay_at (chain w) i in
  refines (chain w) h -> sched w = [] -> is_registered b (chain w) = true -> healthy (chain w) i = true -> 0 <= counter r <= CurrentCounter (chain w) ->
  (relayGetSet b ≫= fun _ => relayDownloadSRI b i) w =
  (if joins_only (since h (counter r))
   then Ok (members_at h (counter r), findall_130 (length (py_hex (Hdr r))) (py_hex (Hdr r)), py_hex (encryptedSRI r)) else Err, read_set h w).
Proof.
  intros r R Hs Hb Hh Hk. rewrite (bind_ok _ _ _ _ _ (relayGetSet_quiet b w h R Hs Hb)).
  exact (relayDownloadSRI_quiet b i (read_set h w) h (read_set_synced w h R Hs) Hb Hh Hk).
Qed.

(** ** A small network *)

(** Ciphers that do nothing, a constant hash, and the hexadecimal of web3. *)
Definition toy_libs : PyLibs :=
  {| aes_cbc_encrypt _ _ data := Some data; aes_cbc_decrypt _ _ data := Some data; sha256 _ := replicate 32 "s"%char;
     to_bytes s := a2b_hex (drop 2 s) |}.

Lemma a2b_hex_lower (n : nat) : forall s, (length s <= n)%nat -> a2b_hex (TOR_TOLOWER <$> s) = a2b_hex s.
Proof.
  assert (Hd : forall c, hex_decode_digit (TOR_TOLOWER c) = hex_decode_digit c).
  { intros c. set (P := fun z => hex_decode_digit (TOR_TOLOWER (z2b z)) =? hex_decode_digit (z2b z)).
    assert (HP : P (b2z c) = true) by (apply (forall_range P 256); [by vm_compute|apply b2z_range]). unfold P in HP. rewrite z2b_b2z in HP. by apply Z.eqb_eq. }
  induction n as [|n IH]; intros [|c1 [|c2 s]] Hn; cbn [length] in Hn; try done; try lia. cbn [fmap list_fmap a2b_hex]. rewrite !Hd.
  change (list_fmap ascii ascii ?f s) with (f <$> s). by rewrite IH by lia.
Qed.

#[export] Instance toy_libs_spec : PyLibsSpec toy_libs.
Proof.
  split.
  - intros key iv data _ _ _. by exists data.
  - done.
  - intros s data Hs. cbn. rewrite drop_0, <- (a2b_hex_lower (length s)) by done. rewrite Hs. apply a2b_hex_py_hex.
Qed.

(** The owner has the account 1; the accounts 10 and 20 have registered. *)
Definition toy_txs : list (Z * tx) := [(10, Tx_relay_register); (20, Tx_relay_register)].
Definition toy_chain : contract := transact_all (deploy 1) toy_txs.
Definition toy_history : list event := [Joined 1; Joined 2].
Definition toy_world (c : contract) (s : list access) : py_world :=
  {| chain := c; sched := s; Counter := 1; relaySet := []; NIME := None; NIME_cached := None; NSD_file := None |}.
Definition toy_node (c : contract) (s : list access) (i : Z) : node :=
  {| wd := toy_world c s; importable := true; exc := false; python_is_initialized := false; relay_is_registered := true; myIndex := i; desc := initial_descriptor |}.
Definition toy_BESK_2 : bytes := toy_line ((toy_gamma 0 * 3 ^ 3) mod 251).

Lemma toy_refines : refines toy_chain toy_history.
Proof.
  assert (E : toy_history = [] ++ history (deploy 1) toy_txs) by (vm_compute; reflexivity). rewrite E.
  apply transact_all_refines; [apply deploy_refines| |]; [repeat constructor|]. by vm_compute.
Qed.

Lemma toy_private_key : @private_key toy_pbc toy_BESK_2 toy_gps (mkr 1) 3 toy_gamma 2.
Proof. exists toy_BESK_2, []. split; [vm_compute; reflexivity|]. apply (sig_eq_pi _). vm_compute. reflexivity. Qed.

Lemma toy_key_long : forall K : @GT toy_pbc, 16 <= zlen (gt_to_bytes K).
Proof. intros K. by vm_compute. Qed.
Lemma toy_fits : @gt_text_fits toy_pbc.
Proof. intros K. by vm_compute. Qed.

Lemma string_is_utf8_ok (s : bytes) : string_is_utf8 s = Ok true -> is_utf8 s.
Proof. unfold string_is_utf8. destruct (utf8_loop_ok _ s (le_n _)) as (b & -> & Hb). intros [= ->]. by apply Hb. Qed.

Definition toy_ri : routerinfo := toy_relay "alice" 141 3232235777 9001.
Definition toy_sri : bytes := match @router_sri toy_ssl toy_ri with Ok s => s | _ => [] end.
Lemma toy_router_sri : @router_sri toy_ssl toy_ri = Ok toy_sri.
Proof. vm_compute. reflexivity. Qed.
Lemma toy_sri_utf8 : is_utf8 toy_sri.
Proof. apply string_is_utf8_ok. vm_compute. reflexivity. Qed.

Lemma history_short (c : contract) (st : Z * tx) : zlen (history c [st]) <= 1.
Proof. cbn [history]. rewrite app_nil_r. unfold events. by destruct (call_tx _ _ _), (snd st). Qed.

(** The relay 10 uploads, the account 30 registers, the relay 20 reads. *)
Lemma sri_reaches_relay_witness :
  exists na', @router_upload_descriptor_to_blockchain toy_ssl toy_pbc toy_libs 3 toy_BEPK 10 toy_ri 99 (toy_node toy_chain [] 1) = (Ok 1, na') /\
  exists nb nb', chain (wd nb) = transact_all (chain (wd na')) [(30, Tx_relay_register)] /\
    @download_one toy_pbc toy_libs 3 toy_BEPK toy_BESK_2 20 1 1 nb = (Ok tt, nb') /\ NIME (wd nb') = Some (entry_text 1 toy_sri).
Proof.
  destruct (@sri_reaches_relay toy_ssl toy_pbc toy_spec toy_libs toy_libs_spec 3 toy_BEPK toy_BESK_2 toy_gps toy_pk (mkr 1) 3 toy_gamma
    ltac:(done) toy_fits toy_key_long eq_refl toy_param toy_public 10 20 99 1 toy_ri toy_sri (toy_node toy_chain [] 1) toy_history [(30, Tx_relay_register)]
    toy_refines eq_refl eq_refl ltac:(vm_compute; reflexivity) ltac:(vm_compute; reflexivity) toy_router_sri toy_sri_utf8
    ltac:(vm_compute; reflexivity) ltac:(vm_compute; reflexivity) ltac:(repeat constructor) ltac:(repeat constructor; done)) as (na' & Hup & Hdl).
  exists na'. split; [exact Hup|]. set (c' := transact_all (chain (wd na')) _) in *. set (h' := toy_history ++ _) in *.
  assert (E1 : relayaddr_at (chain (wd (toy_node toy_chain [] 1))) 10 = 1) by (vm_compute; reflexivity).
  assert (E2 : relayaddr_at (chain (wd (toy_node toy_chain [] 1))) 20 = 2) by (vm_compute; reflexivity). rewrite E1, E2 in Hdl.
  set (nb := set_wd (toy_node c' [] 2) (set_Counter (CurrentCounter c') (set_relaySet (members h') (toy_world c' []))) false).
  eexists nb, _. split; [reflexivity|]. split; [apply (Hdl nb); [|reflexivity..|exact toy_private_key]|reflexivity].
  unfold h'. rewrite zlen_app. pose proof (history_short (chain (wd na')) (30, Tx_relay_register)). change (zlen toy_history) with 2. lia.
Defined.

(** The relay 10 has uploaded, the relay 20 has not. *)
Definition toy_entries : entries := [(1, Some toy_sri); (2, None)].
Lemma toy_published : exists c, refines c toy_history /\ is_registered 20 c = true /\ (CurrentCounter c = 3 /\ healthy c 1 = true /\ counter (relay_at c 1) = 3) /\
  Forall (@entry_of toy_pbc toy_libs toy_gps (mkr 1) 3 toy_gamma c toy_history 2) toy_entries.
Proof.
  destruct (@upload_ok toy_ssl toy_pbc toy_spec toy_libs toy_libs_spec 3 toy_BEPK toy_gps toy_pk (mkr 1) 3 toy_gamma ltac:(done) toy_fits toy_key_long eq_refl toy_param toy_public
    10 99 toy_ri toy_sri (toy_node toy_chain [] 1) toy_history toy_refines eq_refl eq_refl ltac:(vm_compute; reflexivity) ltac:(vm_compute; reflexivity) toy_router_sri)
    as (HDR & ct & Hhdr & Hct & _).
  set (c := stored_entry toy_chain 1 3 (concat (@g1_to_bytes_compressed toy_pbc <$> HDR)) ct (replicate 32 "s"%char)). exists c.
  assert (E1 : relay_at c 1 = {| registered := true; healthflag := true; counter := 3; Hdr := concat (@g1_to_bytes_compressed toy_pbc <$> HDR);
    encryptedSRI := ct; NSD := replicate 32 "s"%char |}) by (unfold c, stored_entry; rewrite relay_at_set, decide_True by done; by vm_compute).
  assert (E2 : relay_at c 2 = new_relay no_relay) by (unfold c, stored_entry; rewrite relay_at_set, decide_False by done; vm_compute; reflexivity).
  split; [apply stored_entry_refines, toy_refines|]. split; [unfold is_registered; change (relayaddr_at c 20) with (relayaddr_at toy_chain 20);
    assert (Ea : relayaddr_at toy_chain 20 = 2) by (vm_compute; reflexivity); by rewrite Ea, E2|].
  assert (EC : CurrentCounter c = 3) by (vm_compute; reflexivity). clearbody c. split; [split; [exact EC|unfold healthy; rewrite E1; cbn [healthflag counter]; split; reflexivity]|]. constructor; [|constructor; [|constructor]].
  - constructor.
    + unfold sealed, healthy. rewrite E1. cbn [healthflag counter Hdr encryptedSRI]. split; [done|]. split; [rewrite EC; lia|]. exists 99, HDR. split; [exact Hhdr|]. split; [done|exact Hct].
    + split; [exact toy_sri_utf8|]. by eapply router_sri_newline, toy_router_sri.
    + rewrite E1. vm_compute. reflexivity.
    + rewrite E1. change (2 ∈ [1; 2]). right. left.
  - apply entry_none; unfold healthy; rewrite ?EC, E2; [reflexivity|cbn; lia|reflexivity|vm_compute; reflexivity].
Qed.

Lemma download_files_witness : exists n n', sched (wd n) = [] /\ @router_download_descriptor_from_blockchain toy_pbc toy_libs 3 toy_BEPK toy_BESK_2 20 n = (Ok 1, n') /\
  NIME (wd n') = None /\ NIME_cached (wd n') = Some (entry_text 1 toy_sri).
Proof.
  destruct toy_published as (c & R & Hb & _ & Hes). set (n := toy_node c [] 2).
  destruct (@download_files toy_pbc toy_spec toy_libs toy_libs_spec 3 toy_BEPK toy_BESK_2 toy_gps toy_pk (mkr 1) 3 toy_gamma ltac:(done) toy_fits toy_key_long eq_refl
    toy_param toy_public 20 toy_history toy_entries n R eq_refl eq_refl Hb toy_private_key eq_refl Hes) as (n' & Hd & _ & _ & H1 & H2).
  exists n, n'. split; [reflexivity|]. split; [exact Hd|]. split; [exact H1|]. rewrite H2. vm_compute. reflexivity.
Defined.

Lemma unpublished_relay_blocks_NIME_witness : exists n n1 n2, sched (wd n) = [] /\
  @router_download_descriptor_from_blockchain toy_pbc toy_libs 3 toy_BEPK toy_BESK_2 20 n = (Ok 1, n1) /\
  @router_download_descriptor_from_blockchain toy_pbc toy_libs 3 toy_BEPK toy_BESK_2 20 n1 = (Ok 1, n2) /\ NIME (wd n2) = None /\
  NIME_cached (wd n2) = Some (entry_text 1 toy_sri ++ entry_text 1 toy_sri).
Proof.
  destruct toy_published as (c & R & Hb & _ & Hes). set (n := toy_node c [] 2).
  destruct (@unpublished_relay_blocks_NIME toy_pbc toy_spec toy_libs toy_libs_spec 3 toy_BEPK toy_BESK_2 toy_gps toy_pk (mkr 1) 3 toy_gamma ltac:(done) toy_fits toy_key_long eq_refl
    toy_param toy_public 20 toy_history toy_entries n R eq_refl eq_refl Hb toy_private_key eq_refl Hes eq_refl ltac:(done)) as (n1 & n2 & H1 & H2 & H3 & H4).
  exists n, n1, n2. split; [reflexivity|]. split; [exact H1|]. split; [exact H2|]. split; [exact H3|]. rewrite H4. vm_compute. reflexivity.
Defined.

Lemma download_set_exact_witness : exists c w', (relayGetSet 20 ≫= fun _ => relayDownloadSRI 20 1) (toy_world c []) = (Ok ([1; 2], findall_130 (length (py_hex (Hdr (relay_at c 1)))) (py_hex (Hdr (relay_at c 1))), py_hex (encryptedSRI (relay_at c 1))), w').
Proof.
  destruct toy_published as (c & R & Hb & (HC & Hh & Hk) & _). exists c, (read_set toy_history (toy_world c [])).
  assert (Hr : 0 <= counter (relay_at c 1) <= CurrentCounter c) by (rewrite Hk, HC; lia).
  pose proof (@download_set_exact toy_libs 20 1 (toy_world c []) toy_history R eq_refl Hb Hh Hr) as H. cbn [chain toy_world] in H. rewrite Hk in H.
  exact H.
Defined.
