(* ===== verification/PublishErrors.v ===== *)
(** * What stops the publication of entries

    One removal, one cancellation, one short header, one registration at the wrong moment, one failed request: each stops the relays. Then
    what clients read, and the life of a relay's own descriptor. *)
From stdpp Require Import gmap.
From S2P Require Import Prelude ParseInt Strings Binascii CryptoRsa ParseFacts Gsri GsriRoundtrip Bkem BkemFacts Contract ContractFacts ChainPy Publish PublishFacts.

(** ** C code has no exceptions *)

Definition no_err {St A} (m : run St A) : Prop := forall s, fst (m s) <> Err.
Create HintDb runs.

Lemma no_err_bind {St A B} (m : run St A) (k : A -> run St B) : no_err m -> (forall a, no_err (k a)) -> no_err (mbind k m).
Proof. intros Hm Hk s. unfold mbind, run_bind. specialize (Hm s). destruct (m s) as [[a| |] s']; [apply Hk|done|done]. Qed.
Lemma no_err_ret {St A} (a : A) : no_err (mret a : run St A).
Proof. done. Qed.
Lemma no_err_modify {St} (f : St -> St) : no_err (modify f).
Proof. done. Qed.
Lemma no_err_gets {St A} (f : St -> A) : no_err (gets f).
Proof. done. Qed.
Lemma no_err_py_call {A} (f : py A) : no_err (py_call f).
Proof. intros n. unfold py_call. destruct (exc n); [done|]. by destruct (f (wd n)) as [[a| |] w]. Qed.
Lemma no_err_parse {A} (r : option A) : no_err (PyArg_ParseTuple r).
Proof. intros n. by destruct r. Qed.
Lemma no_err_c_lift {A} (o : outcome A) : no_err (c_lift o).
Proof. intros n. by destruct o. Qed.
#[export] Hint Resolve no_err_bind no_err_ret no_err_modify no_err_gets no_err_py_call no_err_parse no_err_c_lift : runs.
Ltac no_err := repeat first [progress intros|apply no_err_bind|solve [eauto with runs]|case_match].

Lemma no_err_PyLong (r : option Z) : no_err (PyLong_AsLong r).
Proof. unfold PyLong_AsLong. no_err. Qed.
Lemma no_err_enter : no_err py_enter.
Proof. unfold py_enter. no_err. Qed.
#[export] Hint Resolve no_err_PyLong no_err_enter : runs.

Lemma not_ok_stuck {St A} (m : run St A) (s : St) : no_err m -> (forall b s', m s <> (Ok b, s')) -> fst (m s) = Stuck.
Proof. intros Hn Ho. specialize (Hn s). destruct (m s) as [[b| |] s']; [by destruct (Ho b s')|done|done]. Qed.

Lemma fst_bind_stuck {St A B} (m : run St A) (k : A -> run St B) (s : St) : fst (m s) = Stuck -> fst (mbind k m s) = Stuck.
Proof. unfold mbind, run_bind. destruct (m s) as [[a| |] s']; cbn; done. Qed.
Lemma fst_bind_err {St A B} (m : run St A) (k : A -> run St B) (s : St) : fst (m s) = Err -> fst (mbind k m s) = Err.
Proof. unfold mbind, run_bind. destruct (m s) as [[a| |] s']; cbn; done. Qed.

(** ** A run of a Python function that leaves the world as it was *)

Definition pure_at {A} (w : py_world) (m : py A) : Prop := snd (m w) = w.
Lemma pure_bind {A B} (w : py_world) (m : py A) (k : A -> py B) : pure_at w m -> (forall a, pure_at w (k a)) -> pure_at w (mbind k m).
Proof. unfold pure_at, mbind, run_bind. intros Hm Hk. destruct (m w) as [[a| |] w']; cbn in *; subst; [apply Hk|done|done]. Qed.
Lemma pure_call {A} (w : py_world) (f : contract -> outcome A) : sched w = [] -> pure_at w (call f).
Proof. intros H. unfold pure_at. by rewrite call_quiet. Qed.

Section failures.
Context {ssl : OpenSSL} {pbc : PBC} {libs : PyLibs} (slack : Z) (BEPK BESK : bytes) (b : Z).

Abbreviation one := (download_one slack BEPK BESK b).
Abbreviation loop := (download_loop slack BEPK BESK b).
Abbreviation download := (router_download_descriptor_from_blockchain slack BEPK BESK b).

Lemma no_err_one (i f : Z) : no_err (one i f).
Proof. unfold download_one. no_err. Qed.
#[local] Hint Resolve no_err_one : runs.
Lemma no_err_loop (l : list Z) : no_err (loop l).
Proof. induction l as [|i l IH]; cbn [download_loop]; no_err. Qed.
#[local] Hint Resolve no_err_loop : runs.
Lemma no_err_download : no_err download.
Proof. unfold router_download_descriptor_from_blockchain. no_err. Qed.
#[local] Hint Resolve no_err_download : runs.

(** ** A download changes only the files *)

Lemma relayDownloadSRI_pure (i : Z) (w : py_world) : sched w = [] -> pure_at w (relayDownloadSRI b i).
Proof.
  intros Hs. unfold relayDownloadSRI, relayDownloadSRIHelper, relayGetCounterList.
  repeat first [by apply pure_call|reflexivity|progress intros|apply pure_bind|case_match].
Qed.

Lemma relayDecryptSRIs_files (i f : Z) (en key : bytes) (w : py_world) : exists o x y, relayDecryptSRIs i en key f w = (o, set_files x y w).
Proof.
  assert (Hw : w = set_files (NIME w) (NIME_cached w) w) by (by destruct w). unfold relayDecryptSRIs. destruct (AES_decrypt en (take 32 key)) as [[sri|]| |].
  2-4: unfold mbind, run_bind, lift, mret, run_ret; rewrite Hw; by eexists _, _, _.
  unfold mbind, run_bind, lift, modify, mret, run_ret. destruct (f =? 1); [|by eexists _, _, _]. cbn. by destruct (NIME w); eexists _, _, _.
Qed.

Definition filed (n : node) (x y : option bytes) (e : bool) : node := set_wd n (set_files x y (wd n)) e.
Lemma filed_same (n : node) : filed n (NIME (wd n)) (NIME_cached (wd n)) (exc n) = n.
Proof. by destruct n as [[] ? ? ? ? ? ?]. Qed.

Lemma one_filed (i f : Z) (n n' : node) : sched (wd n) = [] -> one i f n = (Ok tt, n') -> exists x y e, n' = filed n x y e.
Proof.
  intros Hs H. unfold download_one in H. apply bind_inv in H as (r & n1 & H1 & H).
  assert (Hn1 : exists e, n1 = set_wd n (wd n) e).
  { revert H1. unfold py_call. destruct (exc n); [done|]. pose proof (relayDownloadSRI_pure i (wd n) Hs) as Hp. unfold pure_at in Hp.
    destruct (relayDownloadSRI b i (wd n)) as [[a| |] w]; cbn in Hp; subst; [| |done]; intros [= _ <-]; eauto. }
  destruct Hn1 as [e ->]. apply bind_inv in H as ([[S H2] en] & n2 & Hp & H). destruct r as [r|]; [|done]. injection Hp as -> <-.
  assert (Hbase : exists x y e', set_wd n (wd n) e = filed n x y e') by (exists (NIME (wd n)), (NIME_cached (wd n)), e; by destruct n as [[] ? ? ? ? ? ?]).
  destruct (zlen en =? 0); [by injection H as <-|].
  apply bind_inv in H as (hd & n3 & Hh & H). unfold c_lift, lift in Hh. injection Hh as _ <-.
  apply bind_inv in H as (ix & n3 & Hh & H). injection Hh as <- <-. apply bind_inv in H as (key & n3 & Hh & H). unfold c_lift, lift in Hh. injection Hh as _ <-.
  apply bind_inv in H as (u & n3 & Hh & H). injection H as <-. revert Hh. unfold py_call. destruct (exc _); [done|]. cbn [wd set_wd].
  destruct (relayDecryptSRIs_files i f en key (wd n)) as (o & x & y & E). rewrite E. destruct o; [| |done]; intros [= _ <-]; by eexists _, _, _.
Qed.

(** Each member is read, by a relay whose files only have changed. *)
Lemma loop_inv (l : list Z) : forall n n', sched (wd n) = [] -> loop l n = (Ok tt, n') ->
  forall i, i ∈ l -> exists x y e f n1, one i f (filed n x y e) = (Ok tt, n1).
Proof.
  induction l as [|j l IH]; intros n n' Hs H i Hi; [by apply elem_of_nil in Hi|]. cbn [download_loop] in H. apply bind_inv in H as ([] & n1 & H1 & H).
  apply elem_of_cons in Hi as [->|Hi].
  - exists (NIME (wd n)), (NIME_cached (wd n)), (exc n). rewrite filed_same. eauto.
  - destruct (one_filed _ _ _ _ Hs H1) as (x & y & e & ->). destruct (IH (filed n x y e) n' Hs H i Hi) as (x' & y' & e' & f & n2 & E). exists x', y', e', f, n2. exact E.
Qed.

(** A member whose entry cannot be read stops the download. *)
Lemma download_stuck (h : list event) (i : Z) (n : node) : refines (chain (wd n)) h -> sched (wd n) = [] -> importable n = true ->
  is_registered b (chain (wd n)) = true -> i ∈ members h ->
  (forall f n1 n2, synced h (wd n1) -> chain (wd n1) = chain (wd n) -> one i f n1 <> (Ok tt, n2)) -> fst (download n) = Stuck.
Proof.
  intros R Hs Hi Hb Hm Hfail. apply not_ok_stuck; [apply no_err_download|].
  intros r n' H. unfold router_download_descriptor_from_blockchain in H. apply bind_inv in H as (ok & n1 & H1 & H). rewrite (py_enter_ok n Hi) in H1. injection H1 as <- <-. cbv iota in H.
  apply bind_inv in H as (res & n1 & H1 & H). set (n0 := set_exc false (set_initialized n)) in *.
  assert (Hget : relayGetSet b (wd n0) = (Ok (CurrentCounter (chain (wd n)), members h), read_set h (wd n))) by (by apply relayGetSet_quiet).
  rewrite (py_call_ok _ n0 _ _ eq_refl Hget) in H1. injection H1 as <- <-. apply bind_inv in H as ([k l] & n1 & H1 & H). injection H1 as <- <- <-.
  apply bind_inv in H as ([] & n1 & H1 & _). eapply loop_inv in H1 as (x & y & e & f & n2 & Hone); [|done|exact Hm]. revert Hone. apply Hfail; [|done].
  destruct (read_set_synced (wd n) h R Hs). by split.
Qed.

(** An exception in [relayDownloadSRI] is a NULL that [PyArg_ParseTuple] reads through. *)
Lemma one_raises (i f : Z) (n n' : node) : fst (relayDownloadSRI b i (wd n)) = Err -> one i f n <> (Ok tt, n').
Proof.
  intros He H. unfold download_one in H. apply bind_inv in H as (r & n1 & H1 & H). apply bind_inv in H as (t & n2 & H2 & _).
  revert H1. unfold py_call. destruct (exc n); [done|]. destruct (relayDownloadSRI b i (wd n)) as [[a| |] w]; cbn in He; try done. by intros [= <- <-].
Qed.

(** The hourly callback of a relay that is registered: no descriptor without a download. *)
Lemma rebuild_stuck (ri : routerinfo) (ei : option bytes) (now t : Z) (n : node) : relay_is_registered n = true -> fst (download n) = Stuck ->
  fst (router_rebuild_descriptor slack BEPK BESK b (Some (ri, ei)) now t true 1 n) = Stuck.
Proof.
  intros Hr Hd. unfold router_rebuild_descriptor. rewrite (bind_ok _ _ n n (desc n)) by done. rewrite andb_false_r. cbv iota beta. change (1 =? 1) with true. cbv iota.
  apply fst_bind_stuck. rewrite (bind_ok _ _ n n (relay_is_registered n)) by done. rewrite Hr. rewrite (bind_ok _ _ n n 1) by done. change (1 =? 0) with false. cbv iota.
  by apply fst_bind_stuck.
Qed.

(** C10: Removing a relay stops the network. Let the contract's log have at most 254 operations, among them a marking of at least one relay by its owner,
    and let a registered relay's set still hold a member whose entry has a counter from before that. Then its hourly download crashes, with no transaction
    in between: [Relay.py] adds the integers of the log to a list as if they were lists, the exception comes back as a NULL result, and the C code parses
    it. As every relay downloads before it uploads, the old entries are not replaced. *)
Theorem removal_stops_downloads (h1 h2 : list event) (l : list Z) (i now t : Z) (ri : routerinfo) (ei : option bytes) (n : node) : let c := chain (wd n) in
  refines c (h1 ++ Removed l :: h2) -> l <> [] -> i ∈ members (h1 ++ Removed l :: h2) -> 0 <= counter (relay_at c i) <= 1 + zlen h1 ->
  sched (wd n) = [] -> importable n = true -> is_registered b c = true -> relay_is_registered n = true ->
  fst (download n) = Stuck /\ fst (router_rebuild_descriptor slack BEPK BESK b (Some (ri, ei)) now t true 1 n) = Stuck.
Proof.
  intros c R Hl Hi Hk Hs Him Hb Hr. set (h := h1 ++ Removed l :: h2) in *. enough (Hd : fst (download n) = Stuck) by (split; [done|by apply rebuild_stuck]).
  apply (download_stuck h i); try done. intros f n1 n2 Hsy Hc. apply one_raises. pose proof (sy_quiet _ _ Hsy) as Hq. fold c in Hc.
  destruct (healthy c i) eqn:Eh.
  - rewrite (relayDownloadSRI_quiet b i (wd n1) h); rewrite ?Hc; try done.
    + assert (Ej : joins_only (since h (counter (relay_at c i))) = false); [|by rewrite Ej].
      apply bool_decide_eq_false. unfold since, h. rewrite drop_app_le by (unfold zlen in Hk; lia). rewrite removed_app. intros [_ E]%app_nil. cbn in E. by apply app_nil in E as [? _].
    + pose proof (ref_counter c h R). pose proof (ref_len c h R). unfold h in *. rewrite zlen_app in *. change (zlen (Removed l :: h2)) with (Z.of_nat (S (length h2))) in *. lia.
  - unfold relayDownloadSRI. apply fst_bind_err. rewrite download_helper_quiet; rewrite ?Hc; [by rewrite Eh|done|done|]. apply (members_range c h i R Hi).
Qed.

(** C11: A relay that cancels its registration while it is healthy stops all others, as long as the contract works at all: whatever transactions of any
    accounts follow, in which the owner passes the right lengths of lists, and as long as the log has at most 254 operations (then its counter wraps
    around), its index stays in the set of every relay, the contract refuses to give its entry, and every download of a registered relay crashes that no
    transaction comes between and for which Python's import of the relay's module succeeds. *)
Theorem cancellation_stops_downloads (c : contract) (h : list event) (a : Z) (txs : list (Z * tx)) (n : node) :
  refines c h -> is_registered a c = true -> healthy c (relayaddr_at c a) = true ->
  let c1 := transact c (a, Tx_relay_cancellation) in
  Forall well_sized txs -> zlen (h ++ history c1 txs) <= 254 ->
  chain (wd n) = transact_all c1 txs -> sched (wd n) = [] -> importable n = true -> is_registered b (chain (wd n)) = true ->
  relayaddr_at c a ∈ members (h ++ history c1 txs) /\ fst (download n) = Stuck.
Proof.
  intros R Ha Hh c1 Hw Hl Hc Hs Him Hb. set (i := relayaddr_at c a).
  assert (R1 : refines c1 h).
  { pose proof (transact_refines c h (a, Tx_relay_cancellation) R I) as H. unfold events in H. cbn [fst snd call_tx] in H. rewrite zlen_app in Hl.
    pose proof (zlen_nonneg (history c1 txs)). destruct (relay_cancellation a c); rewrite app_nil_r in H; apply H; lia. }
  assert (G1 : gone c1 i) by (by eapply cancelled_gone).
  assert (Hall : forall txs c1 h, refines c1 h -> gone c1 i -> Forall well_sized txs -> zlen (h ++ history c1 txs) <= 254 ->
    refines (transact_all c1 txs) (h ++ history c1 txs) /\ gone (transact_all c1 txs) i).
  { clear. induction txs as [|st txs IH]; intros c1 h R1 G1 Hw Hl; cbn [history] in *; [by rewrite app_nil_r|]. apply Forall_cons in Hw as [Hst Hw]. rewrite app_assoc in *.
    assert (Hl1 : zlen (h ++ events c1 st) <= 254) by (rewrite zlen_app in Hl; pose proof (zlen_nonneg (history (transact c1 st) txs)); lia).
    apply (IH (transact c1 st)); [by apply transact_refines|by eapply gone_forever|done|done]. }
  destruct (Hall txs c1 h R1 G1 Hw Hl) as [R2 G2]. rewrite <- Hc in R2, G2. destruct G2 as (Hi & Hhi & Hui). set (h2 := h ++ history c1 txs) in *.
  assert (Hm : i ∈ members h2) by (rewrite (ref_members _ _ R2); apply list_elem_of_filter; split; [done|]; apply elem_of_seqZ; lia).
  split; [done|]. apply (download_stuck h2 i); try done. intros f n1 n2 Hsy Hc1. apply one_raises. pose proof (sy_quiet _ _ Hsy) as Hq.
  unfold relayDownloadSRI. apply fst_bind_err. rewrite download_helper_quiet; rewrite ?Hc1; [|done|done|lia]. unfold healthy. by rewrite Hhi.
Qed.

Lemma relayDownloadSRI_pieces (i : Z) (w w' : py_world) (l : list Z) (hd : list bytes) (en : bytes) : sched w = [] ->
  relayDownloadSRI b i w = (Ok (l, hd, en), w') ->
  hd = findall_130 (length (py_hex (Hdr (relay_at (chain w) i)))) (py_hex (Hdr (relay_at (chain w) i))) /\ en = py_hex (encryptedSRI (relay_at (chain w) i)).
Proof.
  intros Hs H. unfold relayDownloadSRI in H. apply bind_inv in H as ([[k hdr] e] & w1 & H1 & H). unfold relayDownloadSRIHelper in H1. apply bind_inv in H1 as ([[k' hdr'] e'] & w2 & H1 & H2).
  rewrite call_quiet in H1 by done. unfold relay_download_SRI in H1. destruct (is_registered b (chain w)); cbn [require] in H1; [|done].
  destruct (_ && _); cbn [require] in H1; [|done]. injection H1 as <- <- <- <-. injection H2 as <- <- <- <-.
  apply bind_inv in H as (s & w3 & _ & H). apply bind_inv in H as (k2 & w4 & _ & H). apply bind_inv in H as (s2 & w5 & _ & H). by injection H as <- <- <- _.
Qed.

(** C13: Any healthy relay can stop all others: it uploads an entry that is not empty with a header of less than 65 bytes. The pieces of the header are
    then fewer than one, and every registered relay that downloads right after that, with at most 254 operations in the contract's log, reads beyond them. *)
Theorem short_header_stops_downloads (c : contract) (h : list event) (a k : Z) (hd en d : bytes) (n : node) :
  refines c h -> healthy c (relayaddr_at c a) = true -> (length hd < 65)%nat -> en <> [] ->
  chain (wd n) = transact c (a, Tx_relay_upload_SRI_and_NSD k hd en d) -> sched (wd n) = [] -> importable n = true -> is_registered b (chain (wd n)) = true ->
  fst (download n) = Stuck.
Proof.
  intros R Hh Hhd Hen Hc Hs Him Hb. set (i := relayaddr_at c a) in *.
  assert (Ec : chain (wd n) = stored_entry c i k hd en d).
  { rewrite Hc. unfold transact. cbn [fst snd call_tx]. unfold relay_upload_SRI_and_NSD, stored_entry. fold i. unfold healthy in Hh. by rewrite Hh. }
  assert (R1 : refines (chain (wd n)) h) by (rewrite Ec; by apply stored_entry_refines).
  pose proof (healthy_member c h i R Hh) as Hm.
  apply (download_stuck h i); try done. intros f n1 n2 Hsy Hc1 H. unfold download_one in H. apply bind_inv in H as (r & n3 & H1 & H).
  apply bind_inv in H as ([[l p] e] & n4 & H2 & H). destruct r as [[[l' p'] e']|]; [|done]. injection H2 as -> -> -> <-.
  assert (Hpe : p = [] /\ zlen e <> 0).
  { revert H1. unfold py_call. destruct (exc n1); [done|]. destruct (relayDownloadSRI b i (wd n1)) as [[v| |] w] eqn:E; [|done..]. intros [= -> _].
    apply relayDownloadSRI_pieces in E as [-> ->]; [|apply (sy_quiet _ _ Hsy)]. rewrite Hc1, Ec. unfold stored_entry. rewrite relay_at_set, decide_True by done. cbn [Hdr encryptedSRI].
    split; [apply findall_short; rewrite py_hex_length; lia|]. unfold zlen. rewrite py_hex_length. destruct en; [done|cbn [length]; lia]. }
  destruct Hpe as [-> He]. rewrite (proj2 (Z.eqb_neq _ _)) in H by done. apply bind_inv in H as (hd' & n5 & H1' & H). injection H1' as <- <-.
  apply bind_inv in H as (ix & n5 & H1' & H). injection H1' as <- <-. apply bind_inv in H as (key & n5 & H1' & _). revert H1'. unfold c_lift, lift, bkem_decryption.
  destruct (bkem_param BEPK) as [[gps PK]| |]; cbn [obind]; [|done..]. destruct (fst (fgets_512 None BESK)); done.
Qed.

(** The set and the counter are read by two requests: what other accounts do before the second one shows in the counter only. *)
Lemma relayGetSet_scheduled (l : list (Z * tx)) (rest : list access) (h : list event) (w : py_world) : let c := chain w in let c1 := transact_all c l in
  refines c h -> sched w = Served [] :: Served l :: rest -> is_registered b c = true -> is_registered b c1 = true ->
  relayGetSet b w = (Ok (CurrentCounter c1, members h), set_Counter (CurrentCounter c1) (with_chain (set_relaySet (members h) w) c1 rest)).
Proof.
  intros c c1 R Hs Hb Hb1. unfold relayGetSet, relayGetIndexSet, relayGetCurrentCounter. set (w1 := with_chain w c (Served l :: rest)).
  assert (Q1 : call (relay_get_index_set b) w = (Ok (relayIndex c, unhealthyRelaySet c), w1)).
  { unfold call. rewrite (bind_ok _ _ w w1 true) by (unfold request; by rewrite Hs). cbv iota. unfold mbind, run_bind, gets, lift.
    change (chain w1) with c. unfold relay_get_index_set. by rewrite Hb. }
  rewrite (bind_ok _ _ _ _ _ Q1). rewrite <- (ref_members c h R). rewrite (bind_ok _ _ w1 (set_relaySet (members h) w1) tt) by done.
  set (w1' := set_relaySet (members h) w1). set (w2 := with_chain w1' c1 rest).
  assert (Q2 : call (relay_get_current_counter b) w1' = (Ok (CurrentCounter c1), w2)).
  { unfold call. rewrite (bind_ok _ _ w1' w2 true) by done. cbv iota. unfold mbind, run_bind, gets, lift. change (chain w2) with c1. unfold relay_get_current_counter. by rewrite Hb1. }
  by rewrite (bind_ok _ _ _ _ _ Q2).
Qed.

(** An entry of a world whose log has a relay that the set does not have, and that was made before it joined, raises. *)
Lemma unknown_relay_raises (h : list event) (j i : Z) (w : py_world) : let c1 := chain w in
  refines c1 (h ++ [Joined j]) -> sched w = [] -> is_registered b c1 = true -> Counter w = CurrentCounter c1 -> relaySet w = members h -> j ∉ members h ->
  i < relayIndex c1 -> 0 <= counter (relay_at c1 i) <= 1 + zlen h -> fst (relayDownloadSRI b i w) = Err.
Proof.
  intros c1 R1 Hs Hb HC Hset Hj Hi Hk. unfold relayDownloadSRI. destruct (healthy c1 i) eqn:Eh; [|apply fst_bind_err; rewrite download_helper_quiet by done; fold c1; by rewrite Eh].
  set (r := relay_at c1 i) in *. rewrite (bind_ok _ _ w w (counter r, py_hex (Hdr r), py_hex (encryptedSRI r))) by (rewrite download_helper_quiet by done; fold c1; by rewrite Eh).
  rewrite (bind_ok _ _ w w (members h)), (bind_ok _ _ w w (Counter w)) by (unfold gets; by rewrite ?Hset). apply fst_bind_err. rewrite HC.
  pose proof (ref_counter c1 _ R1) as HC1. rewrite zlen_app in HC1. change (zlen [Joined j]) with 1 in HC1. rewrite (proj2 (Z.ltb_lt _ _)) by lia.
  set (L := log_from (h ++ [Joined j]) (counter r)). rewrite (bind_ok _ _ w w (removed L, joined L)).
  2:{ unfold relayGetCounterList. rewrite (bind_ok _ _ w w (event_op <$> L, event_list <$> L)) by (rewrite call_quiet by done; fold c1;
        by rewrite (relay_get_counter_list_ok c1 (h ++ [Joined j]) b) by (done || lia)). unfold lift. f_equal. apply split_log. }
  unfold lift. cbn [fst]. destruct (removed L) as [|x l]; [|done]. cbn [add_all obind].
  assert (EJ : exists J, joined L = j :: J).
  { unfold L, log_from. rewrite joined_app, drop_app_le by (unfold zlen in Hk; lia). rewrite reverse_snoc. change (Joined j :: ?l) with ([Joined j] ++ l). rewrite joined_app. cbn. eauto. }
  destruct EJ as [J ->]. cbn [remove_all]. by rewrite py_remove_none.
Qed.

(** C12: A registration at the wrong moment crashes a download. Let the log of the contract have at most 253 operations and the members' entries counters
    not beyond the current one. The set and the counter are read by two requests; when an account registers between them, the log has a relay that the set
    does not have, removing it from the set raises an exception, and the C code parses the NULL. *)
Theorem registration_race (a : Z) (h : list event) (n : node) : let c := chain (wd n) in
  refines c h -> zlen h <= 253 -> is_registered b c = true -> healthy c (relayaddr_at c b) = true -> is_registered a c = false ->
  (forall i, i ∈ members h -> 0 <= counter (relay_at c i) <= CurrentCounter c) ->
  sched (wd n) = [Served []; Served [(a, Tx_relay_register)]] -> importable n = true -> fst (download n) = Stuck.
Proof.
  intros c R Hl Hb Hhb Ha Hk Hs Him. apply not_ok_stuck; [apply no_err_download|]. intros r n' H. unfold router_download_descriptor_from_blockchain in H.
  apply bind_inv in H as (ok & n1 & H1 & H). rewrite (py_enter_ok n Him) in H1. injection H1 as <- <-. cbv iota in H. set (n0 := set_exc false (set_initialized n)) in *.
  set (j := relayIndex c). set (c1 := transact_all c [(a, Tx_relay_register)]).
  assert (Hreg : Contract.relay_register a c = Ok c1).
  { unfold c1, transact_all. cbn [fold_left]. unfold transact. cbn [fst snd call_tx]. unfold Contract.relay_register. unfold is_registered in Ha. by rewrite Ha. }
  pose proof (register_refines c c1 h a R Hl Hreg) as R1. fold j in R1. destruct (register_effects a c c1 Hreg) as (_ & Hrel & Hadr). assert (Hab : a <> b) by (intros ->; congruence).
  assert (Hb1 : is_registered b c1 = true) by (unfold is_registered in *; rewrite Hadr, decide_False by done; rewrite Hrel; by destruct (decide _)).
  pose proof (relayGetSet_scheduled [(a, Tx_relay_register)] [] h (wd n0) R Hs Hb Hb1) as Hget.
  apply bind_inv in H as (res & n1 & H1 & H). rewrite (py_call_ok _ n0 _ _ eq_refl Hget) in H1. injection H1 as <- <-.
  apply bind_inv in H as ([k l] & n1 & H1 & H). injection H1 as <- <- <-. apply bind_inv in H as ([] & n1 & H1 & _).
  assert (Hin : relayaddr_at c b ∈ members h) by (by eapply healthy_member). destruct (members h) as [|i rest] eqn:Em; [by apply elem_of_nil in Hin|].
  cbn [download_loop] in H1. apply bind_inv in H1 as ([] & n2 & H1 & _). revert H1. apply one_raises.
  assert (Hi : 1 <= i < j) by (apply (members_range c h i R); rewrite Em; left).
  apply (unknown_relay_raises h j i); try done.
  - intros Hj. apply (members_range c h j R) in Hj. fold j in Hj. lia.
  - change (i < relayIndex c1). apply (members_range c1 _ i R1). rewrite members_snoc, Em. left.
  - change (0 <= counter (relay_at c1 i) <= 1 + zlen h). rewrite Hrel, decide_False by (fold j; lia). rewrite <- (ref_counter c h R). apply Hk. left.
Qed.

(** One request that fails is enough to spoil the registration: when the first check of the registration raises, the relay counts as registered
    with the index -1 and is not registered; and if its account is new, the same callback crashes in the download. *)
Theorem failed_check_registers (s : list access) (n : node) : sched (wd n) = Failed :: s -> importable n = true -> relay_is_registered n = false ->
  exists n', relay_register b n = (Ok 1, n') /\ relay_is_registered n' = true /\ myIndex n' = -1 /\ chain (wd n') = chain (wd n) /\
    forall ri ei now t, s = [] -> is_registered b (chain (wd n)) = false ->
      fst (router_rebuild_descriptor slack BEPK BESK b (Some (ri, ei)) now t true 1 n) = Stuck.
Proof.
  intros Hs Him Hr. set (w1 := with_chain (wd n) (chain (wd n)) s). set (n0 := set_exc false (set_initialized n)).
  assert (Hchk : relayRegistrationCheck b (wd n0) = (Err, w1)).
  { unfold relayRegistrationCheck, call. apply bind_err. unfold request. change (sched (wd n0)) with (sched (wd n)). by rewrite Hs. }
  set (n' := set_registered true (-1) (set_exc true (set_wd n0 w1 true))). exists n'.
  assert (Hreg : relay_register b n = (Ok 1, n')).
  { unfold relay_register. rewrite (bind_ok _ _ _ _ _ (py_enter_ok n Him)). cbv iota. fold n0. rewrite (bind_ok _ _ _ _ _ (py_call_err _ n0 _ eq_refl Hchk)).
    rewrite (bind_ok _ _ _ (set_exc true (set_wd n0 w1 true)) (-1)) by done. change (-1 =? 0) with false. cbv iota. by erewrite bind_ok by done. }
  split; [done|]. split; [done|]. split; [done|]. split; [done|]. intros ri ei now t -> Hb.
  unfold router_rebuild_descriptor. rewrite (bind_ok _ _ n n (desc n)) by done. rewrite andb_false_r. cbv iota beta. change (1 =? 1) with true. cbv iota.
  apply fst_bind_stuck. rewrite (bind_ok _ _ n n (relay_is_registered n)) by done. rewrite Hr. rewrite (bind_ok _ _ _ _ _ Hreg). change (1 =? 0) with false. cbv iota.
  apply fst_bind_stuck. unfold router_download_descriptor_from_blockchain. rewrite (bind_ok _ _ _ _ _ (py_enter_ok n' Him)). cbv iota.
  set (n2 := set_exc false (set_initialized n')).
  assert (Hget : relayGetSet b (wd n2) = (Err, w1)).
  { unfold relayGetSet. apply bind_err. unfold relayGetIndexSet. rewrite call_quiet by done. unfold relay_get_index_set. change (chain (wd n2)) with (chain (wd n)). by rewrite Hb. }
  rewrite (bind_ok _ _ _ _ _ (py_call_err _ n2 _ eq_refl Hget)). by apply fst_bind_stuck.
Qed.

(** An upload reports success whatever becomes of its transaction: when the request fails, when it times out, and when the contract rejects it
    because the relay was marked as unhealthy, nothing is stored, and the function returns 1. *)
Theorem upload_reports_success (h : list event) (t : Z) (ri : routerinfo) (sri Key Hdr : bytes) (rest : list access) (n : node) : let c := chain (wd n) in
  refines c h -> importable n = true -> is_registered b c = true -> router_sri ri = Ok sri -> bkem_encryption slack BEPK (members h) t = Ok (Key, Hdr) ->
  sched (wd n) = Served [] :: Served [] :: rest ->
  (head rest = Some Failed \/ head rest = Some TimedOut \/ rest = [] /\ healthy c (relayaddr_at c b) = false) ->
  exists n', router_upload_descriptor_to_blockchain slack BEPK b ri t n = (Ok 1, n') /\ chain (wd n') = c.
Proof.
  intros c R Him Hb Hri Henc Hs Hrest. unfold router_upload_descriptor_to_blockchain. rewrite Hri. rewrite (bind_ok _ _ n n sri) by done. rewrite (bind_ok _ _ _ _ _ (py_enter_ok n Him)). cbv iota.
  set (n1 := set_exc false (set_initialized n)). pose proof (relayGetSet_scheduled [] rest h (wd n1) R Hs Hb Hb) as Hget.
  set (w2 := set_Counter _ _) in Hget. change (transact_all (chain (wd n1)) []) with c in Hget.
  rewrite (bind_ok _ _ _ _ _ (py_call_ok _ n1 _ _ eq_refl Hget)). set (n2 := set_wd n1 w2 false). rewrite (bind_ok _ _ n2 n2 (CurrentCounter c, members h)) by done. cbv beta iota.
  rewrite (bind_ok _ _ n2 n2 (Key, Hdr)) by (unfold c_lift, lift; by rewrite Henc). cbv beta iota.
  assert (Hup : exists o w3, relayUploadSRIAndNSD b (CurrentCounter c) Hdr sri Key w2 = (o, w3) /\ o <> Stuck /\ chain w3 = c).
  { unfold relayUploadSRIAndNSD, AES_encrypt, bytes_arg. destruct (aes_cbc_encrypt _ _ _) as [ct|]; [|by eexists _, w2]. unfold lift, mbind, run_bind.
    destruct (to_bytes _); [|by eexists _, w2]. destruct (to_bytes _); [|by eexists _, w2]. destruct (to_bytes _); [|by eexists _, w2].
    unfold send, mbind, run_bind, request. change (sched w2) with rest.
    destruct Hrest as [Hf|[Hf|[-> Hf]]]; [destruct rest as [|x rest]; [done|]; injection Hf as ->; by eexists _, _..|].
    eexists _, _. split; [done|]. split; [done|]. cbn [chain with_chain modify]. change (chain w2) with c. unfold transact. cbn [fst snd call_tx].
    unfold relay_upload_SRI_and_NSD. unfold healthy in Hf. by rewrite Hf. }
  destruct Hup as (o & w3 & Hup & Ho & Hc3). 
  assert (Hcall : exists r e, py_call (relayUploadSRIAndNSD b (CurrentCounter c) Hdr sri Key) n2 = (Ok r, set_wd n2 w3 e)).
  { unfold py_call. cbn [exc n2 set_wd]. change (wd n2) with w2. rewrite Hup. destruct o; [by eexists _, _..|done]. }
  destruct Hcall as (r & e & Hcall). rewrite (bind_ok _ _ _ _ _ Hcall). eexists. split; [done|exact Hc3].
Qed.
End failures.

(** ** The counter wraps around *)

(** The counter has eight bits. The operation after the 254th sets it to 0; then the contract refuses to give the log from any counter, and a relay
    that reads the counter takes every entry, however old, as encrypted for the set of now. *)
Theorem counter_wraps (c c' : contract) (h : list event) (x : Z) : refines c h -> zlen h = 254 -> Contract.relay_register x c = Ok c' ->
  CurrentCounter c' = 0 /\ (forall a k, 0 <= k -> relay_get_counter_list a k c' = Err) /\
  forall (a i : Z) (w : py_world), chain w = c' -> sched w = [] -> Counter w = CurrentCounter c' -> is_registered a c' = true ->
    healthy c' i = true -> i < relayIndex c' -> 0 <= counter (relay_at c' i) ->
    exists hd en, relayDownloadSRI a i w = (Ok (relaySet w, hd, en), w).
Proof.
  intros R Hl Hreg. assert (HC : CurrentCounter c' = 0).
  { revert Hreg. unfold Contract.relay_register. destruct (negb _); cbn [require]; [|done]. intros [= <-]. cbn. rewrite (ref_counter c h R), Hl. done. }
  split; [done|]. split.
  - intros a k Hk. unfold relay_get_counter_list. destruct (is_registered a c'); cbn [require]; [|done]. rewrite HC. by rewrite (proj2 (Z.ltb_ge k 0)) by lia.
  - intros a i w Hc Hs Hw Ha Hh Hi Hk. eexists _, _. unfold relayDownloadSRI.
    rewrite (bind_ok _ _ w w (counter (relay_at c' i), py_hex (Hdr (relay_at c' i)), py_hex (encryptedSRI (relay_at c' i))))
      by (rewrite download_helper_quiet; rewrite ?Hc; [by rewrite Hh|done|done|done]).
    rewrite (bind_ok _ _ w w (relaySet w)), (bind_ok _ _ w w (Counter w)) by done. rewrite Hw, HC, (proj2 (Z.ltb_ge _ _)) by lia. done.
Qed.

(** ** What clients get *)

Definition NSD_line (c : contract) (i : Z) : bytes := print_int i ++ [SP] ++ py_hex (NSD (relay_at c i)) ++ [NL].

Lemma NSD_lines_ok (c : contract) (m : nat) : forall i local pre, length pre = (local * 64)%nat ->
  Forall (fun j => healthy c j = true -> length (NSD (relay_at c j)) = 32%nat) (seqZ i (Z.of_nat m)) ->
  let hs := filter (fun j => healthy c j = true) (seqZ i (Z.of_nat m)) in
  NSD_lines (i - 1) (healthy c <$> seqZ i (Z.of_nat m)) (pre ++ py_hex (concat ((fun j => NSD (relay_at c j)) <$> hs))) local = concat (NSD_line c <$> hs).
Proof.
  induction m as [|m IH]; intros i local pre Hp; [done|]. rewrite seqZ_cons by lia. replace (Z.pred (Z.of_nat (S m))) with (Z.of_nat m) by lia. replace (Z.succ i) with (i + 1) by lia.
  intros [Hi Hall]%Forall_cons. cbn zeta. cbn [fmap list_fmap NSD_lines]. change (list_fmap Z bool ?f ?l) with (f <$> l). destruct (healthy c i) eqn:Eh.
  - rewrite filter_cons_True by done. cbn [fmap list_fmap concat]. set (hs := filter _ (seqZ (i + 1) _)).
    change (list_fmap Z bytes ?f ?l) with (f <$> l). specialize (Hi eq_refl).
    assert (Hx : forall a b, py_hex (a ++ b) = py_hex a ++ py_hex b) by (intros x y; unfold py_hex; by rewrite fmap_app, concat_app).
    rewrite Hx. unfold NSD_line at 1. rewrite drop_app_length' by done. rewrite take_app_length' by (rewrite py_hex_length; lia).
    replace (i - 1 + 1) with i by lia. rewrite <- !app_assoc. do 4 f_equal. rewrite app_assoc.
    specialize (IH (i + 1) (S local) (pre ++ py_hex (NSD (relay_at c i)))). replace (i + 1 - 1) with i in IH by lia. apply IH; [|done].
    rewrite length_app, py_hex_length. lia.
  - rewrite filter_cons_False by congruence. specialize (IH (i + 1) local pre Hp Hall). replace (i + 1 - 1) with i in IH by lia. replace (i - 1 + 1) with i by lia. exact IH.
Qed.

(** C15: What a client's file of digests holds. When the log of the contract has at most 254 operations, every healthy relay has uploaded a digest of 32
    bytes, and the last relay is healthy or there is none, it has one line for each healthy relay, with its index and its digest, in order. *)
Theorem client_NSD_correct (c : contract) (h : list event) (w : py_world) : refines c h -> chain w = c -> sched w = [] ->
  Forall (fun j => healthy c j = true -> length (NSD (relay_at c j)) = 32%nat) (seqZ 1 (relayIndex c - 1)) ->
  relayIndex c = 1 \/ healthy c (relayIndex c - 1) = true ->
  clientDownloadNSD w = (Ok tt, set_NSD_file (concat (NSD_line c <$> filter (fun j => healthy c j = true) (seqZ 1 (relayIndex c - 1)))) w).
Proof.
  intros R Hc Hs Hall Hlast. pose proof (ref_index c h R). pose proof (ref_len c h R). unfold clientDownloadNSD.
  set (hs := filter _ _) in *.
  rewrite (bind_ok _ _ w w (healthy c <$> seqZ 1 (relayIndex c - 1), concat ((fun j => NSD (relay_at c j)) <$> hs))).
  2:{ rewrite call_quiet by done. rewrite Hc, client_download_NSD_ok by lia.
      assert (E : (relayIndex c =? 1) || healthy c (relayIndex c - 1) = true) by (apply orb_true_iff; destruct Hlast; [left; by apply Z.eqb_eq|by right]). by rewrite E. }
  unfold modify. do 2 f_equal. pose proof (NSD_lines_ok c (Z.to_nat (relayIndex c - 1)) 1 0 [] eq_refl) as HL. rewrite Z2Nat.id in HL by lia. by apply HL.
Qed.

(** When it does not. If the relay that registered last is not healthy, as when it has cancelled, no client can read any digest; and a relay that has
    registered but not uploaded gets the digest of the relay after it, which gets none. *)
Theorem client_NSD_fails (c : contract) (h : list event) (w : py_world) : refines c h -> chain w = c -> sched w = [] -> 2 <= relayIndex c ->
  (healthy c (relayIndex c - 1) = false -> clientDownloadNSD w = (Err, w)) /\
  (relayIndex c = 3 -> healthy c 1 = true -> healthy c 2 = true -> NSD (relay_at c 1) = [] -> length (NSD (relay_at c 2)) = 32%nat ->
   clientDownloadNSD w = (Ok tt, set_NSD_file (bs "1 " ++ py_hex (NSD (relay_at c 2)) ++ [NL] ++ bs "2 " ++ [NL]) w)).
Proof.
  intros R Hc Hs Hi. pose proof (ref_index c h R). pose proof (ref_len c h R).
  pose proof (client_download_NSD_ok c ltac:(lia)) as HN. unfold clientDownloadNSD. split.
  - intros Hh. apply bind_err. rewrite call_quiet by done. rewrite Hc, HN, Hh, (proj2 (Z.eqb_neq _ _)) by lia. done.
  - intros E3 H1 H2 HN1 HN2. rewrite E3 in HN. change (3 - 1) with 2 in HN. rewrite H2, orb_true_r in HN. change (seqZ 1 2) with [1; 2] in HN.
    rewrite !filter_cons_True, filter_nil in HN by done. cbn [fmap list_fmap concat] in HN. rewrite HN1, H1, H2, app_nil_r in HN. cbn [app] in HN.
    rewrite (bind_ok _ _ w w ([true; true], NSD (relay_at c 2))) by (rewrite call_quiet by done; by rewrite Hc, HN).
    assert (Hlen : length (py_hex (NSD (relay_at c 2))) = 64%nat) by (rewrite py_hex_length; lia).
    unfold modify. do 2 f_equal. cbn [NSD_lines]. rewrite drop_0, take_ge by lia. rewrite drop_ge, take_nil by lia. done.
Qed.

(** ** The life of the descriptor *)

(** A part of the state that Python and the files do not reach. *)
Class c_static {T} (P : node -> T) : Prop := {
  static_wd (n : node) (w : py_world) (e : bool) : P (set_wd n w e) = P n;
  static_initialized (n : node) : P (set_initialized n) = P n
}.
#[export] Instance static_desc : c_static desc.
Proof. done. Qed.
#[export] Instance static_registered : c_static relay_is_registered.
Proof. done. Qed.

Definition keeps {T A} (P : node -> T) (m : run node A) : Prop := forall n, P (snd (m n)) = P n.
Create HintDb life.

Section keeps.
Context {T : Type} (P : node -> T) `{!c_static P}.
Lemma keeps_bind {A B} (m : run node A) (k : A -> run node B) : keeps P m -> (forall a, keeps P (k a)) -> keeps P (mbind k m).
Proof.
  intros Hm Hk n. unfold mbind, run_bind. specialize (Hm n). destruct (m n) as [[a| |] n1]; cbn in *; [|done..]. by rewrite (Hk a n1).
Qed.
Lemma keeps_ret {A} (a : A) : keeps P (mret a).
Proof. done. Qed.
Lemma keeps_gets {A} (f : node -> A) : keeps P (gets f).
Proof. done. Qed.
Lemma keeps_call {A} (f : py A) : keeps P (py_call f).
Proof. intros n. unfold py_call. destruct (exc n); [done|]. destruct (f (wd n)) as [[a| |] w]; apply static_wd. Qed.
Lemma keeps_parse {A} (r : option A) : keeps P (PyArg_ParseTuple r).
Proof. done. Qed.
Lemma keeps_c_lift {A} (o : outcome A) : keeps P (c_lift o).
Proof. done. Qed.
Lemma keeps_exc (e : bool) : keeps P (modify (set_exc e)).
Proof. intros n. apply static_wd. Qed.
Lemma keeps_init : keeps P (modify (fun n => set_exc false (set_initialized n))).
Proof. intros n. cbn. unfold set_exc. by rewrite static_wd, static_initialized. Qed.
End keeps.
#[export] Hint Resolve keeps_ret keeps_gets keeps_call keeps_parse keeps_c_lift keeps_exc keeps_init : life.
Ltac keeps := repeat first [progress intros|apply keeps_bind|solve [eauto with life typeclass_instances]|case_match].

Section life.
Context {ssl : OpenSSL} {pbc : PBC} {libs : PyLibs} (slack : Z) (BEPK BESK : bytes) (b : Z).

Section static.
Context {T : Type} (P : node -> T) `{!c_static P}.
Lemma keeps_enter : keeps P py_enter.
Proof. unfold py_enter. keeps. Qed.
Lemma keeps_PyLong (r : option Z) : keeps P (PyLong_AsLong r).
Proof. unfold PyLong_AsLong. keeps. Qed.
#[local] Hint Resolve keeps_enter keeps_PyLong : life.
Lemma keeps_loop (l : list Z) : keeps P (download_loop slack BEPK BESK b l).
Proof. induction l as [|i l IH]; cbn [download_loop]; [keeps|]. apply keeps_bind; [|done]. unfold download_one. keeps. Qed.
#[local] Hint Resolve keeps_loop : life.
Lemma keeps_download : keeps P (router_download_descriptor_from_blockchain slack BEPK BESK b).
Proof. unfold router_download_descriptor_from_blockchain. keeps. Qed.
Lemma keeps_upload (ri : routerinfo) (t : Z) : keeps P (router_upload_descriptor_to_blockchain slack BEPK b ri t).
Proof. unfold router_upload_descriptor_to_blockchain. keeps. Qed.
End static.
#[local] Hint Resolve keeps_enter keeps_PyLong keeps_download keeps_upload : life.

Lemma keeps_register : keeps desc (relay_register b).
Proof. unfold relay_register. keeps. done. Qed.

(** Unless it gives up at once, registration sets the flag. *)
Lemma register_sets (n n' : node) (r : Z) : relay_register b n = (Ok r, n') -> r = 0 \/ relay_is_registered n' = true.
Proof.
  unfold relay_register. intros H. apply bind_inv in H as ([] & n1 & _ & H); [|injection H as <- _; by left].
  apply bind_inv in H as (p & n2 & _ & H). apply bind_inv in H as (i & n3 & _ & H). apply bind_inv in H as (j & n4 & _ & H).
  apply bind_inv in H as (u & n5 & H5 & H). injection H5 as <- <-. injection H as _ <-. by right.
Qed.

Abbreviation rebuild := (router_rebuild_descriptor slack BEPK BESK b).

(** What a rebuild does to the descriptor: nothing, because it is clean, or because the rebuild fails; or it is replaced. *)
Lemma rebuild_cases (fresh : option (routerinfo * option bytes)) (now t flag : Z) (force r : bool) (n n' : node) :
  rebuild fresh now t force flag n = (Ok r, n') ->
  (r = true /\ desc_clean_since (desc n) <> 0 /\ force = false /\ n' = n) \/ (r = false /\ desc n' = desc n) \/
  (r = true /\ exists ri ei, fresh = Some (ri, ei) /\ (flag = 1 -> relay_is_registered n' = true) /\
     desc n' = {| desc_routerinfo := Some ri; desc_extrainfo := ei; desc_gen_reason := desc_dirty_reason (desc n); desc_clean_since := now;
                  desc_dirty_reason := None; desc_needs_upload := true; omit_ipv6_on_publish := omit_ipv6_on_publish (desc n) |}).
Proof.
  unfold router_rebuild_descriptor. rewrite (bind_ok _ _ n n (desc n)) by done.
  intros H. destruct (negb (desc_clean_since (desc n) =? 0) && negb force) eqn:Ec.
  { injection H as <- <-. apply andb_true_iff in Ec as [H1%negb_true_iff%Z.eqb_neq H2%negb_true_iff]. by left. }
  right. destruct fresh as [[ri ei]|]; [|injection H as <- <-; by left].
  apply bind_inv in H as (published & n1 & H1 & H).
  assert (Hp : desc n1 = desc n /\ (published = true -> flag = 1 -> relay_is_registered n1 = true)).
  { revert H1. destruct (Z.eqb_spec flag 1); [|by intros [= <- <-]]. rewrite (bind_ok _ _ n n (relay_is_registered n)) by done. intros H1.
    apply bind_inv in H1 as (r1 & n2 & H2 & H1).
    assert (Hd2 : desc n2 = desc n) by (destruct (relay_is_registered n); [by injection H2 as _ <-|pose proof (keeps_register n) as K; by rewrite H2 in K]).
    assert (Hr2 : r1 = 0 \/ relay_is_registered n2 = true) by (destruct (relay_is_registered n) eqn:Er; [injection H2 as _ <-; by right|by eapply register_sets]).
    destruct (Z.eqb_spec r1 0); [by injection H1 as <- <-|]. destruct Hr2 as [|Hr2]; [done|].
    apply bind_inv in H1 as (r2 & n3 & H3 & H1). pose proof (keeps_download desc n2) as K1. pose proof (keeps_download relay_is_registered n2) as K2. rewrite H3 in K1, K2. cbn in K1, K2.
    destruct (r2 =? 0); [injection H1 as <- <-; split; [congruence|done]|].
    apply bind_inv in H1 as (r3 & n4 & H4 & H1). pose proof (keeps_upload desc ri t n3) as K3. pose proof (keeps_upload relay_is_registered ri t n3) as K4. rewrite H4 in K3, K4. cbn in K3, K4.
    destruct (r3 =? 0); injection H1 as <- <-; split; congruence || done. }
  destruct Hp as [Hd Hr]. destruct published; [right|left; injection H as <- <-; done].
  apply bind_inv in H as ([] & n2 & H2 & H). injection H2 as <-. injection H as <- <-. split; [done|]. exists ri, ei. split; [done|]. split; [by apply Hr|].
  cbn. by rewrite Hd.
Qed.

(** The calls that touch the descriptor. *)
Inductive step (n : node) : node -> Prop :=
  | step_rebuild fresh now t force flag r n' : now <> 0 -> rebuild fresh now t force flag n = (Ok r, n') -> step n n'
  | step_dirty reason n' : mark_my_descriptor_dirty reason n = (Ok tt, n') -> step n n'
  | step_omit reason o n' : mark_my_descriptor_if_omit_ipv6_changes reason o n = (Ok tt, n') -> step n n'
  | step_extrainfo server fresh now t e n' : now <> 0 -> router_get_my_extrainfo slack BEPK BESK b server fresh now t n = (Ok e, n') -> step n n'.

(** A descriptor is dirty for a reason, and a clean one is there. *)
Definition desc_ok (d : descriptor) : Prop :=
  (desc_clean_since d = 0 <-> desc_dirty_reason d <> None) /\ (desc_clean_since d <> 0 -> desc_routerinfo d <> None).

Lemma rebuild_desc_ok (fresh : option (routerinfo * option bytes)) (now t flag : Z) (force r : bool) (n n' : node) : now <> 0 ->
  rebuild fresh now t force flag n = (Ok r, n') -> desc_ok (desc n) -> desc_ok (desc n').
Proof.
  intros Hn H Hok. apply rebuild_cases in H as [(_ & _ & _ & ->)|[(_ & ->)|(_ & ri & ei & _ & _ & ->)]]; [done|done|]. unfold desc_ok. cbn. by split; [split|].
Qed.

Lemma dirty_desc_ok (reason : option bytes) (n : node) : desc_ok (desc (snd (mark_my_descriptor_dirty reason n))).
Proof. unfold desc_ok. cbn. split; [|done]. split; [intros _; by destruct (desc_dirty_reason (desc n))|done]. Qed.

Lemma step_desc_ok (n n' : node) : step n n' -> desc_ok (desc n) -> desc_ok (desc n').
Proof.
  intros [fresh now t force flag r m Hn H|reason m H|reason o m H|server fresh now t e m Hn H] Hok.
  - by eapply rebuild_desc_ok.
  - pose proof (dirty_desc_ok reason n) as K. by rewrite H in K.
  - unfold mark_my_descriptor_if_omit_ipv6_changes in H. apply bind_inv in H as (p & n1 & H1 & H). injection H1 as <- <-. apply bind_inv in H as ([] & n1 & H1 & H). injection H1 as <-.
    destruct (Bool.eqb _ o); [by injection H as <-|]. match type of H with _ ?x = _ => pose proof (dirty_desc_ok reason x) as K end. by rewrite H in K.
  - unfold router_get_my_extrainfo in H. destruct server; [|by injection H as _ <-]. apply bind_inv in H as (ok & n1 & H1 & H).
    assert (m = n1) as -> by (destruct ok; by injection H). by eapply rebuild_desc_ok.
Qed.

(** C14: The life of a relay's descriptor: from the start of the program, after any calls that rebuild it, read it or mark it dirty, it is dirty exactly
    if there is a reason, a clean descriptor is there, and a rebuild that publishes leaves the relay registered, with the descriptor just
    built, clean from now on; a rebuild that fails changes nothing. A forced rebuild of a clean descriptor, as the hourly one is, leaves a
    descriptor without a reason of generation. *)
Theorem descriptor_life (n0 n : node) : desc n0 = initial_descriptor -> rtc step n0 n -> desc_ok (desc n) /\
  forall fresh now t force r n', rebuild fresh now t force 1 n = (Ok r, n') ->
    (r = false -> desc n' = desc n) /\
    (r = true -> force = true -> exists ri ei, fresh = Some (ri, ei) /\ relay_is_registered n' = true /\
       desc_routerinfo (desc n') = Some ri /\ desc_clean_since (desc n') = now /\ desc_needs_upload (desc n') = true /\
       (desc_clean_since (desc n) <> 0 -> desc_gen_reason (desc n') = None)).
Proof.
  intros H0 Hs. assert (Hok : desc_ok (desc n)).
  { assert (Hi : desc_ok (desc n0)) by (rewrite H0; unfold desc_ok; cbn; by split; [split|]). clear H0.
    induction Hs as [n|n n1 n2 H1 _ IH]; [done|]. apply IH. by eapply step_desc_ok. }
  split; [done|]. intros fresh now t force r n' H. apply rebuild_cases in H as [(-> & _ & -> & ->)|[(-> & ->)|(-> & ri & ei & -> & Hr & Hd)]].
  - split; [done|]. by intros _ [=].
  - by split; [|intros [=]].
  - split; [by intros [=]|]. intros _ _. exists ri, ei. rewrite Hd. cbn. split; [done|]. split; [by apply Hr|]. split; [done|]. split; [done|]. split; [done|].
    intros Hc. destruct (desc_dirty_reason (desc n)) eqn:E; [|done]. destruct Hc. apply Hok. by rewrite E.
Qed.
End life.

(** ** In the small network *)

Definition toy_txs3 : list (Z * tx) := toy_txs ++ [(30, Tx_relay_register)].

(** The owner removes the relay 3, and the relay 1 has not uploaded since. *)
Lemma removal_stops_downloads_witness :
  let n := toy_node (transact_all (deploy 1) (toy_txs3 ++ [(1, Tx_modifyHealthFlag 1 [3])])) [] 2 in
  fst (@router_download_descriptor_from_blockchain toy_pbc toy_libs 3 toy_BEPK toy_BESK_2 20 n) = Stuck /\
  fst (@router_rebuild_descriptor toy_ssl toy_pbc toy_libs 3 toy_BEPK toy_BESK_2 20 (Some (toy_ri, None)) 1700000000 99 true 1 n) = Stuck.
Proof.
  set (txs := toy_txs3 ++ _). assert (R : refines (transact_all (deploy 1) txs) ([Joined 1; Joined 2; Joined 3] ++ Removed [3] :: [])).
  { assert (E : [Joined 1; Joined 2; Joined 3] ++ Removed [3] :: [] = [] ++ history (deploy 1) txs) by (vm_compute; reflexivity). rewrite E.
    apply transact_all_refines; [apply deploy_refines|repeat constructor|]. by vm_compute. }
  apply (@removal_stops_downloads toy_ssl toy_pbc toy_libs 3 toy_BEPK toy_BESK_2 20 _ [] [3] 1 1700000000 99 toy_ri None (toy_node _ [] 2) R);
    [done|left|vm_compute; by split|reflexivity|reflexivity|vm_compute; reflexivity|reflexivity].
Defined.

(** The relay of the account 30 cancels, and the account 40 registers. *)
Lemma cancellation_stops_downloads_witness :
  let c := transact_all (deploy 1) toy_txs3 in
  let n := toy_node (transact_all (transact c (30, Tx_relay_cancellation)) [(40, Tx_relay_register)]) [] 2 in
  fst (@router_download_descriptor_from_blockchain toy_pbc toy_libs 3 toy_BEPK toy_BESK_2 20 n) = Stuck.
Proof.
  intros c n. assert (R : refines c ([] ++ history (deploy 1) toy_txs3)) by (apply transact_all_refines; [apply deploy_refines|repeat constructor|by vm_compute]).
  apply (@cancellation_stops_downloads toy_pbc toy_libs 3 toy_BEPK toy_BESK_2 20 c _ 30 [(40, Tx_relay_register)] n R);
    [vm_compute; reflexivity|vm_compute; reflexivity|repeat constructor|by vm_compute|reflexivity|reflexivity|reflexivity|vm_compute; reflexivity].
Defined.

Lemma short_header_stops_downloads_witness :
  let n := toy_node (transact toy_chain (10, Tx_relay_upload_SRI_and_NSD 3 (bs "short") (bs "entry") [])) [] 2 in
  fst (@router_download_descriptor_from_blockchain toy_pbc toy_libs 3 toy_BEPK toy_BESK_2 20 n) = Stuck.
Proof.
  intros n. apply (@short_header_stops_downloads toy_pbc toy_libs 3 toy_BEPK toy_BESK_2 20 toy_chain toy_history 10 3 (bs "short") (bs "entry") [] n toy_refines);
    [vm_compute; reflexivity|cbn; lia|done|reflexivity|reflexivity|reflexivity|vm_compute; reflexivity].
Defined.

Lemma registration_race_witness :
  fst (@router_download_descriptor_from_blockchain toy_pbc toy_libs 3 toy_BEPK toy_BESK_2 20 (toy_node toy_chain [Served []; Served [(30, Tx_relay_register)]] 2)) = Stuck.
Proof.
  apply (@registration_race toy_pbc toy_libs 3 toy_BEPK toy_BESK_2 20 30 toy_history (toy_node toy_chain [Served []; Served [(30, Tx_relay_register)]] 2) toy_refines);
    [by vm_compute|vm_compute; reflexivity|vm_compute; reflexivity|vm_compute; reflexivity| |reflexivity|reflexivity].
  intros i Hi. assert (E : members toy_history = [1; 2]) by reflexivity. rewrite E in Hi. apply elem_of_cons in Hi as [->|Hi]; [by vm_compute|].
  apply list_elem_of_singleton in Hi as ->. by vm_compute.
Defined.

(** Both relays upload digests. *)
Definition toy_digests : contract :=
  transact_all toy_chain [(10, Tx_relay_upload_SRI_and_NSD 3 [] [] (replicate 32 "a"%char)); (20, Tx_relay_upload_SRI_and_NSD 3 [] [] (replicate 32 "b"%char))].
Lemma client_NSD_correct_witness :
  exists w', clientDownloadNSD (toy_world toy_digests []) = (Ok tt, w') /\
    NSD_file w' = Some (bs "1 " ++ py_hex (replicate 32 "a"%char) ++ [NL] ++ bs "2 " ++ py_hex (replicate 32 "b"%char) ++ [NL]).
Proof.
  assert (R : refines toy_digests toy_history).
  { assert (E : toy_history = toy_history ++ history toy_chain [(10, Tx_relay_upload_SRI_and_NSD 3 [] [] (replicate 32 "a"%char)); (20, Tx_relay_upload_SRI_and_NSD 3 [] [] (replicate 32 "b"%char))])
      by (vm_compute; reflexivity). rewrite E. apply transact_all_refines; [exact toy_refines|repeat constructor|]. by vm_compute. }
  eexists. split; [apply (client_NSD_correct toy_digests toy_history (toy_world toy_digests []) R eq_refl eq_refl)|vm_compute; reflexivity].
  - assert (E : seqZ 1 (relayIndex toy_digests - 1) = [1; 2]) by (vm_compute; reflexivity). rewrite E. repeat constructor; intros _; by vm_compute.
  - right. vm_compute. reflexivity.
Defined.

Lemma descriptor_life_witness : exists n, @rtc node (@step toy_ssl toy_pbc toy_libs 3 toy_BEPK toy_BESK_2 20) (toy_node toy_chain [] 2) n /\
  desc_ok (desc n) /\ desc_clean_since (desc n) = 1700000000.
Proof.
  set (n0 := toy_node toy_chain [] 2).
  assert (H : exists n, @router_rebuild_descriptor toy_ssl toy_pbc toy_libs 3 toy_BEPK toy_BESK_2 20 (Some (toy_ri, None)) 1700000000 99 false 0 n0 = (Ok true, n) /\
    desc_clean_since (desc n) = 1700000000) by (eexists; split; reflexivity).
  destruct H as (n & H & Hc). exists n. assert (Hs : @rtc node (@step toy_ssl toy_pbc toy_libs 3 toy_BEPK toy_BESK_2 20) n0 n) by (apply rtc_once; eapply step_rebuild; [|exact H]; lia).
  split; [exact Hs|]. split; [|exact Hc]. exact (proj1 (@descriptor_life toy_ssl toy_pbc toy_libs 3 toy_BEPK toy_BESK_2 20 n0 n eq_refl Hs)).
Defined.
