(* ===== verification/LinkSpec.v ===== *)
(** * Bodies of cells that create circuits: [trunnel/ed25519_cert.c]

    Link specifiers, which say how to reach a relay, and the bodies of CREATE2, EXTEND and EXTEND2 cells: objects, checks,
    encoders and parsers with their error codes, after the manner of [CellExtensions], whose interface of codecs they meet. *)
From S2P Require Import Prelude ParseInt Endian CellExtensions.

(** [memcpy] of [n] bytes from [p]. *)
Definition read_bytes (n : nat) (p : bytes) : outcome bytes := if (length p <? n)%nat then Stuck else Ok (take n p).

(** Members of a body written one after the other: the room is checked before each of them. *)
Fixpoint encode_parts (avail : Z) (l : list bytes) : outcome (bool * bytes) :=
  match l with
  | [] => Ok (true, [])
  | p :: l =>
      tor_assert (0 <=? avail) (
      if avail <? zlen p then Ok (false, [])
      else
        let* (ok, out) := encode_parts (avail - zlen p) l in
        Ok (ok, p ++ out))
  end.

(** ** Link specifiers *)
Definition LS_IPV4 : Z := 0.
Definition LS_IPV6 : Z := 1.
Definition LS_LEGACY_ID : Z := 2.
Definition LS_ED25519_ID : Z := 3.

Record link_specifier := mk_ls {
  ls_type : Z; ls_len : Z;
  un_ipv4_addr : Z; un_ipv4_port : Z;
  un_ipv6_addr : bytes; un_ipv6_port : Z;
  un_legacy_id : bytes; un_ed25519_id : bytes;
  un_unrecognized : bytes;
  ls_error : bool
}.

Definition link_specifier_new : link_specifier :=
  mk_ls 0 0 0 0 (replicate 16 NUL) 0 (replicate 20 NUL) (replicate 32 NUL) [] false.
Definition link_specifier_check (obj : option link_specifier) : option bytes :=
  match obj with
  | None => Some (bs "Object was NULL")
  | Some obj => if ls_error obj then Some set_failed else None
  end.

(** The members of the union that the type selects. *)
Definition ls_members (obj : link_specifier) : list bytes :=
  if ls_type obj =? LS_IPV4 then [set_uint32 (un_ipv4_addr obj); set_uint16 (un_ipv4_port obj)]
  else if ls_type obj =? LS_IPV6 then [un_ipv6_addr obj; set_uint16 (un_ipv6_port obj)]
  else if ls_type obj =? LS_LEGACY_ID then [un_legacy_id obj]
  else if ls_type obj =? LS_ED25519_ID then [un_ed25519_id obj]
  else [un_unrecognized obj].

Definition link_specifier_encoded_len (obj : link_specifier) : Z :=
  match link_specifier_check (Some obj) with
  | Some _ => -1
  | None =>
      0 + 1 + 1 +
      (if ls_type obj =? LS_IPV4 then 4 + 2
       else if ls_type obj =? LS_IPV6 then 16 + 2
       else if ls_type obj =? LS_LEGACY_ID then 20
       else if ls_type obj =? LS_ED25519_ID then 32
       else zlen (un_unrecognized obj))
  end.

(** The length in the object is written first and then replaced by the length of the union. *)
Definition link_specifier_encode (avail : Z) (obj : link_specifier) : outcome (Z * bytes) :=
  match link_specifier_check (Some obj) with
  | Some _ => Ok (-1, [])
  | None =>
      let* (ok, out) := encode_parts avail [set_uint8 (ls_type obj); set_uint8 (ls_len obj)] in
      if negb ok then Ok (-2, out)
      else
        let* (ok, un) := encode_parts (avail - 2) (ls_members obj) in
        if negb ok then Ok (-2, out ++ un)
        else if 255 <? zlen un then Ok (-1, out ++ un)
        else Ok (2 + zlen un, set_uint8 (ls_type obj) ++ set_uint8 (zlen un) ++ un)
  end.

(** The union, of the [remaining] bytes at [ptr]: the object, the bytes of it that are left and the pointer after it. *)
Definition parse_union (obj : link_specifier) (remaining : Z) (ptr : bytes) : outcome (option (link_specifier * Z * bytes)) :=
  let '(mk_ls t n a4 p4 a6 p6 id ed un e) := obj in
  if t =? LS_IPV4 then
    if remaining <? 4 then Ok None
    else
      let* a4 := get_uint32 ptr in
      let remaining := remaining - 4 in let ptr := drop 4 ptr in
      if remaining <? 2 then Ok None
      else
        let* p4 := get_uint16 ptr in
        Ok (Some (mk_ls t n a4 p4 a6 p6 id ed un e, remaining - 2, drop 2 ptr))
  else if t =? LS_IPV6 then
    if remaining <? 16 then Ok None
    else
      let* a6 := read_bytes 16 ptr in
      let remaining := remaining - 16 in let ptr := drop 16 ptr in
      if remaining <? 2 then Ok None
      else
        let* p6 := get_uint16 ptr in
        Ok (Some (mk_ls t n a4 p4 a6 p6 id ed un e, remaining - 2, drop 2 ptr))
  else if t =? LS_LEGACY_ID then
    if remaining <? 20 then Ok None
    else
      let* id := read_bytes 20 ptr in
      Ok (Some (mk_ls t n a4 p4 a6 p6 id ed un e, remaining - 20, drop 20 ptr))
  else if t =? LS_ED25519_ID then
    if remaining <? 32 then Ok None
    else
      let* ed := read_bytes 32 ptr in
      Ok (Some (mk_ls t n a4 p4 a6 p6 id ed un e, remaining - 32, drop 32 ptr))
  else
    let* un := read_bytes (Z.to_nat remaining) ptr in
    Ok (Some (mk_ls t n a4 p4 a6 p6 id ed un e, remaining - remaining, drop (Z.to_nat remaining) ptr)).

Definition link_specifier_parse (input : bytes) : outcome (Z * option link_specifier) :=
  let '(mk_ls _ _ a4 p4 a6 p6 id ed un e) := link_specifier_new in
  let remaining := zlen input in
  if remaining <? 1 then Ok (-2, None)
  else
    let* t := get_uint8 input in
    let remaining := remaining - 1 in let ptr := drop 1 input in
    if remaining <? 1 then Ok (-2, None)
    else
      let* n := get_uint8 ptr in
      let remaining := remaining - 1 in let ptr := drop 1 ptr in
      if remaining <? n then Ok (-2, None)
      else
        let remaining_after := remaining - n in
        let* r := parse_union (mk_ls t n a4 p4 a6 p6 id ed un e) n ptr in
        match r with
        | None => Ok (-1, None)
        | Some (obj, remaining, ptr) =>
            if negb (remaining =? 0) then Ok (-1, None)
            else tor_assert (zlen ptr =? remaining_after) (Ok (zlen input - remaining_after, Some obj))
        end.

(** ** The body of a CREATE2 cell *)
Record create2_cell_body := mk_create2 {
  c2_handshake_type : Z; c2_handshake_len : Z; c2_handshake_data : bytes; c2_error : bool
}.

Definition create2_cell_body_new : create2_cell_body := mk_create2 0 0 [] false.
Definition create2_cell_body_setlen_handshake_data (inp : create2_cell_body) (newlen : Z) : create2_cell_body * Z :=
  if 65535 <? newlen then (mk_create2 (c2_handshake_type inp) (c2_handshake_len inp) (c2_handshake_data inp) true, -1)
  else (mk_create2 (c2_handshake_type inp) (c2_handshake_len inp)
          (take (Z.to_nat newlen) (c2_handshake_data inp) ++ replicate (Z.to_nat newlen - length (c2_handshake_data inp)) NUL)
          (c2_error inp), 0).
(** What a caller writes at the start of the array that [create2_cell_body_getarray_handshake_data] gives it. *)
Definition handshake_data_write (inp : create2_cell_body) (s : bytes) : outcome create2_cell_body :=
  if (length (c2_handshake_data inp) <? length s)%nat then Stuck
  else Ok (mk_create2 (c2_handshake_type inp) (c2_handshake_len inp) (s ++ drop (length s) (c2_handshake_data inp)) (c2_error inp)).
Definition create2_cell_body_check (obj : option create2_cell_body) : option bytes :=
  match obj with
  | None => Some (bs "Object was NULL")
  | Some obj =>
      if c2_error obj then Some set_failed
      else if zlen (c2_handshake_data obj) =? c2_handshake_len obj then None else Some (bs "Length mismatch for handshake_data")
  end.
Definition create2_cell_body_encoded_len (obj : create2_cell_body) : Z :=
  match create2_cell_body_check (Some obj) with Some _ => -1 | None => 0 + 2 + 2 + zlen (c2_handshake_data obj) end.
Definition create2_cell_body_encode (avail : Z) (obj : option create2_cell_body) : outcome (Z * bytes) :=
  match create2_cell_body_check obj, obj with
  | None, Some obj =>
      let* (ok, out) := encode_parts avail [set_uint16 (c2_handshake_type obj); set_uint16 (c2_handshake_len obj)] in
      if negb ok then Ok (-2, out)
      else
        tor_assert (c2_handshake_len obj =? zlen (c2_handshake_data obj)) (
        let* (ok, data) := encode_parts (avail - 4) [c2_handshake_data obj] in
        Ok (if ok then 4 + zlen data else -2, out ++ data))
  | _, _ => Ok (-1, [])
  end.
Definition create2_cell_body_parse (input : bytes) : outcome (Z * option create2_cell_body) :=
  let remaining := zlen input in
  if remaining <? 2 then Ok (-2, None)
  else
    let* t := get_uint16 input in
    let remaining := remaining - 2 in let ptr := drop 2 input in
    if remaining <? 2 then Ok (-2, None)
    else
      let* n := get_uint16 ptr in
      let remaining := remaining - 2 in let ptr := drop 2 ptr in
      if remaining <? n then Ok (-2, None)
      else
        let* data := read_bytes (Z.to_nat n) ptr in
        let remaining := remaining - n in let ptr := drop (Z.to_nat n) ptr in
        tor_assert (zlen ptr =? remaining) (Ok (zlen input - remaining, Some (mk_create2 t n data false))).

(** ** The body of an EXTEND cell *)
Record extend1_cell_body := mk_extend1 {
  e1_ipv4addr : Z; e1_port : Z; e1_onionskin : bytes; e1_identity : bytes; e1_error : bool
}.

Definition extend1_cell_body_check (obj : option extend1_cell_body) : option bytes :=
  match obj with
  | None => Some (bs "Object was NULL")
  | Some obj => if e1_error obj then Some set_failed else None
  end.
Definition extend1_cell_body_encoded_len (obj : extend1_cell_body) : Z :=
  match extend1_cell_body_check (Some obj) with Some _ => -1 | None => 0 + 4 + 2 + 186 + 20 end.
Definition extend1_cell_body_encode (avail : Z) (obj : extend1_cell_body) : outcome (Z * bytes) :=
  match extend1_cell_body_check (Some obj) with
  | Some _ => Ok (-1, [])
  | None =>
      let* (ok, out) := encode_parts avail [set_uint32 (e1_ipv4addr obj); set_uint16 (e1_port obj); e1_onionskin obj; e1_identity obj] in
      Ok (if ok then zlen out else -2, out)
  end.
Definition extend1_cell_body_parse (input : bytes) : outcome (Z * option extend1_cell_body) :=
  let remaining := zlen input in
  if remaining <? 4 then Ok (-2, None)
  else
    let* a := get_uint32 input in
    let remaining := remaining - 4 in let ptr := drop 4 input in
    if remaining <? 2 then Ok (-2, None)
    else
      let* p := get_uint16 ptr in
      let remaining := remaining - 2 in let ptr := drop 2 ptr in
      if remaining <? 186 then Ok (-2, None)
      else
        let* skin := read_bytes 186 ptr in
        let remaining := remaining - 186 in let ptr := drop 186 ptr in
        if remaining <? 20 then Ok (-2, None)
        else
          let* id := read_bytes 20 ptr in
          let remaining := remaining - 20 in let ptr := drop 20 ptr in
          tor_assert (zlen ptr =? remaining) (Ok (zlen input - remaining, Some (mk_extend1 a p skin id false))).

(** ** The body of an EXTEND2 cell *)
Record extend2_cell_body := mk_extend2 {
  e2_n_spec : Z; e2_ls : list link_specifier; e2_create2 : option create2_cell_body; e2_error : bool
}.

Definition extend2_cell_body_new : extend2_cell_body := mk_extend2 0 [] None false.
Definition extend2_cell_body_add_ls (inp : extend2_cell_body) (elt : link_specifier) : extend2_cell_body * Z :=
  if zlen (e2_ls inp) =? 255 then (mk_extend2 (e2_n_spec inp) (e2_ls inp) (e2_create2 inp) true, -1)
  else (mk_extend2 (e2_n_spec inp) (e2_ls inp ++ [elt]) (e2_create2 inp) (e2_error inp), 0).
Definition extend2_cell_body_check (obj : option extend2_cell_body) : option bytes :=
  match obj with
  | None => Some (bs "Object was NULL")
  | Some obj =>
      if e2_error obj then Some set_failed
      else
        match first_message link_specifier_check (e2_ls obj) with
        | Some msg => Some msg
        | None =>
            if negb (zlen (e2_ls obj) =? e2_n_spec obj) then Some (bs "Length mismatch for ls")
            else create2_cell_body_check (e2_create2 obj)
        end
  end.
(** Reading the length of a body that is not there does not happen: the check refuses it. *)
Definition extend2_cell_body_encoded_len (obj : extend2_cell_body) : outcome Z :=
  match extend2_cell_body_check (Some obj) with
  | Some _ => Ok (-1)
  | None =>
      let* c := get (e2_create2 obj) in
      Ok (fold_left (fun result l => result + link_specifier_encoded_len l) (e2_ls obj) (0 + 1) + create2_cell_body_encoded_len c)
  end.
Definition extend2_cell_body_encode (avail : Z) (obj : extend2_cell_body) : outcome (Z * bytes) :=
  match extend2_cell_body_check (Some obj) with
  | Some _ => Ok (-1, [])
  | None =>
      tor_assert (0 <=? avail) (
      if avail - 0 <? 1 then Ok (-2, [])
      else
        let out := set_uint8 (e2_n_spec obj) in
        let* (result, specs) := encode_elements link_specifier_encode (avail - 1) (e2_ls obj) in
        if result <? 0 then Ok (result, out ++ specs)
        else
          let written := 1 + result in
          tor_assert (written <=? avail) (
          let* (result, handshake) := create2_cell_body_encode (avail - written) (e2_create2 obj) in
          Ok (if result <? 0 then result else written + result, out ++ specs ++ handshake)))
  end.
Definition extend2_cell_body_parse (input : bytes) : outcome (Z * option extend2_cell_body) :=
  let remaining := zlen input in
  if remaining <? 1 then Ok (-2, None)
  else
    let* n := get_uint8 input in
    let* r := parse_elements link_specifier_parse (Z.to_nat n) (drop 1 input) in
    match r with
    | inl result => Ok (result, None)
    | inr (specs, ptr) =>
        let* (result, create2) := create2_cell_body_parse ptr in
        if result <? 0 then Ok (result, None)
        else
          tor_assert (result <=? zlen ptr) (
          let* create2 := get create2 in
          Ok (zlen input - (zlen ptr - result), Some (mk_extend2 n specs (Some create2) false)))
    end.

(** ** The contract of each codec *)

Lemma encode_parts_ok (l : list bytes) : forall avail, zlen (concat l) <= avail -> encode_parts avail l = Ok (true, concat l).
Proof.
  induction l as [|p l IH]; intros avail H; [done|]. cbn [concat encode_parts] in *. rewrite zlen_app in H.
  pose proof (zlen_nonneg p). pose proof (zlen_nonneg (concat l)).
  rewrite (proj2 (Z.leb_le 0 avail)), (proj2 (Z.ltb_ge _ _)) by lia. cbn [tor_assert]. by rewrite IH by lia.
Qed.

Lemma read_bytes_app (n : nat) (s rest : bytes) : length s = n -> read_bytes n (s ++ rest) = Ok s.
Proof. intros <-. unfold read_bytes. rewrite (proj2 (Nat.ltb_ge _ _)) by (rewrite length_app; lia). by rewrite take_app_length. Qed.
Lemma drop_be (n : nat) (v : Z) (rest : bytes) : drop n (be_bytes n v ++ rest) = rest.
Proof. by rewrite drop_app_le, drop_ge by (rewrite be_bytes_length; lia). Qed.
Lemma drop_at (n : nat) (s rest : bytes) : length s = n -> drop n (s ++ rest) = rest.
Proof. intros <-. apply drop_app_length. Qed.
Lemma get_uint16_app (v : Z) (rest : bytes) : 0 <= v < 2 ^ 16 -> get_uint16 (set_uint16 v ++ rest) = Ok v.
Proof. intros. by apply get_be_app. Qed.
Lemma get_uint32_app (v : Z) (rest : bytes) : 0 <= v < 2 ^ 32 -> get_uint32 (set_uint32 v ++ rest) = Ok v.
Proof. intros. by apply get_be_app. Qed.
Lemma read_be (n : nat) (s : bytes) : Z.of_nat n <= zlen s -> exists v rest, 0 <= v < 2 ^ (8 * Z.of_nat n) /\ s = be_bytes n v ++ rest.
Proof. intros H. destruct (get_be_split n s) as (v & _ & Hv & E); [unfold zlen in H; lia|]. by exists v, (drop n s). Qed.
Lemma read_array (n : nat) (s : bytes) : Z.of_nat n <= zlen s -> exists a rest, length a = n /\ s = a ++ rest.
Proof. intros H. exists (take n s), (drop n s). rewrite take_drop, length_take. unfold zlen in H. split; [lia|done]. Qed.

(** The objects that a parser makes: the members of the union that the type does not select are zero. *)
Definition ls_ipv4 (a p : Z) : link_specifier := mk_ls LS_IPV4 6 a p (replicate 16 NUL) 0 (replicate 20 NUL) (replicate 32 NUL) [] false.
Definition ls_ipv6 (a : bytes) (p : Z) : link_specifier := mk_ls LS_IPV6 18 0 0 a p (replicate 20 NUL) (replicate 32 NUL) [] false.
Definition ls_legacy (id : bytes) : link_specifier := mk_ls LS_LEGACY_ID 20 0 0 (replicate 16 NUL) 0 id (replicate 32 NUL) [] false.
Definition ls_ed25519 (id : bytes) : link_specifier := mk_ls LS_ED25519_ID 32 0 0 (replicate 16 NUL) 0 (replicate 20 NUL) id [] false.
Definition ls_other (t : Z) (s : bytes) : link_specifier :=
  mk_ls t (zlen s) 0 0 (replicate 16 NUL) 0 (replicate 20 NUL) (replicate 32 NUL) s false.

Inductive ls_wf : link_specifier -> Prop :=
  | ls_wf_ipv4 a p : 0 <= a < 2 ^ 32 -> 0 <= p < 2 ^ 16 -> ls_wf (ls_ipv4 a p)
  | ls_wf_ipv6 a p : length a = 16%nat -> 0 <= p < 2 ^ 16 -> ls_wf (ls_ipv6 a p)
  | ls_wf_legacy id : length id = 20%nat -> ls_wf (ls_legacy id)
  | ls_wf_ed25519 id : length id = 32%nat -> ls_wf (ls_ed25519 id)
  | ls_wf_other t s : 3 < t < 256 -> zlen s < 256 -> ls_wf (ls_other t s).

Definition ls_text (obj : link_specifier) : bytes := set_uint8 (ls_type obj) ++ set_uint8 (ls_len obj) ++ concat (ls_members obj).

Lemma ls_members_other (t : Z) (s : bytes) : 3 < t -> ls_members (ls_other t s) = [s].
Proof. intros. unfold ls_members, ls_other, LS_IPV4, LS_IPV6, LS_LEGACY_ID, LS_ED25519_ID. cbn. by rewrite !(proj2 (Z.eqb_neq t _)) by lia. Qed.

Lemma ls_wf_facts (obj : link_specifier) : ls_wf obj ->
  0 <= ls_type obj < 256 /\ 0 <= ls_len obj < 256 /\ ls_len obj = zlen (concat (ls_members obj)) /\ ls_error obj = false.
Proof.
  destruct 1 as [a p _ _|a p Ha _|id Hi|id Hi|t s Ht Hs]; try rewrite (ls_members_other t s) by lia; cbn -[zlen set_uint32 set_uint16];
    unfold LS_IPV4, LS_IPV6, LS_LEGACY_ID, LS_ED25519_ID, set_uint16, set_uint32;
    rewrite ?zlen_app, ?zlen_be_bytes; unfold zlen in *; cbn [length]; rewrite ?app_nil_r, ?Ha, ?Hi; cbn; split_and!; try lia; done.
Qed.

(** The union is read back, whatever follows it. *)
Lemma parse_union_ok (obj : link_specifier) (rest : bytes) : ls_wf obj ->
  parse_union (mk_ls (ls_type obj) (ls_len obj) 0 0 (replicate 16 NUL) 0 (replicate 20 NUL) (replicate 32 NUL) [] false) (ls_len obj)
    (concat (ls_members obj) ++ rest) = Ok (Some (obj, 0, rest)).
Proof.
  destruct 1 as [a p Ha Hp|a p Ha Hp|id Hi|id Hi|t s Ht Hs].
  - cbn -[set_uint32 set_uint16 get_uint32 get_uint16 drop Z.pow app]. rewrite app_nil_r, <- app_assoc, get_uint32_app by done. cbn [obind].
    unfold set_uint32. rewrite drop_be, get_uint16_app by done. cbn [obind]. unfold set_uint16. by rewrite drop_be.
  - cbn -[set_uint16 read_bytes get_uint16 drop Z.pow app]. rewrite app_nil_r, <- app_assoc, read_bytes_app by done. cbn [obind].
    rewrite drop_at, get_uint16_app by done. cbn [obind]. unfold set_uint16. by rewrite drop_be.
  - cbn -[read_bytes drop app]. rewrite app_nil_r, read_bytes_app by done. cbn [obind]. by rewrite drop_at.
  - cbn -[read_bytes drop app]. rewrite app_nil_r, read_bytes_app by done. cbn [obind]. by rewrite drop_at.
  - rewrite ls_members_other by lia. cbn [concat]. rewrite app_nil_r. unfold parse_union, ls_other, LS_IPV4, LS_IPV6, LS_LEGACY_ID, LS_ED25519_ID.
    cbn [ls_type ls_len]. rewrite !(proj2 (Z.eqb_neq t _)) by lia. unfold zlen. rewrite Nat2Z.id, read_bytes_app by done. cbn [obind].
    rewrite drop_at by done. by rewrite Z.sub_diag.
Qed.

(** What the union of any input is: cut off, followed by bytes it does not explain, or the members of an object. *)
Lemma parse_union_total (t n : Z) (ptr : bytes) : 0 <= t < 256 -> 0 <= n < 256 -> n <= zlen ptr ->
  exists r, parse_union (mk_ls t n 0 0 (replicate 16 NUL) 0 (replicate 20 NUL) (replicate 32 NUL) [] false) n ptr = Ok r /\
    match r with
    | None => True
    | Some (obj, 0, rest) => ls_wf obj /\ ls_type obj = t /\ ls_len obj = n /\ ptr = concat (ls_members obj) ++ rest
    | Some (_, _, _) => True
    end.
Proof.
  intros Ht Hn Hl. unfold parse_union, LS_IPV4, LS_IPV6, LS_LEGACY_ID, LS_ED25519_ID.
  destruct (Z.eqb_spec t 0) as [->|]; [|destruct (Z.eqb_spec t 1) as [->|]; [|destruct (Z.eqb_spec t 2) as [->|]; [|destruct (Z.eqb_spec t 3) as [->|]]]].
  - destruct (Z.ltb_spec n 4); [by eexists|]. destruct (read_be 4 ptr ltac:(lia)) as (a & r1 & Ha & ->).
    change (be_bytes 4 a) with (set_uint32 a) in *. rewrite get_uint32_app by done. cbn [obind]. unfold set_uint32 in *. rewrite drop_be.
    rewrite zlen_app, zlen_be_bytes in Hl. destruct (Z.ltb_spec (n - 4) 2); [by eexists|]. destruct (read_be 2 r1 ltac:(lia)) as (p & r2 & Hp & ->).
    change (be_bytes 2 p) with (set_uint16 p). rewrite get_uint16_app by done. cbn [obind]. unfold set_uint16. rewrite drop_be.
    eexists. split; [done|]. destruct (n - 4 - 2) eqn:E; [|done..]. replace n with 6 by lia.
    split; [by apply (ls_wf_ipv4 a p)|]. split_and!; [done..|]. cbn -[be_bytes]. by rewrite app_nil_r, <- app_assoc.
  - destruct (Z.ltb_spec n 16); [by eexists|]. destruct (read_array 16 ptr ltac:(lia)) as (a & r1 & Ha & ->).
    rewrite read_bytes_app by done. cbn [obind]. rewrite drop_at by done. assert (zlen a = 16) by (unfold zlen; lia).
    rewrite zlen_app in Hl. destruct (Z.ltb_spec (n - 16) 2); [by eexists|]. destruct (read_be 2 r1 ltac:(lia)) as (p & r2 & Hp & ->).
    change (be_bytes 2 p) with (set_uint16 p). rewrite get_uint16_app by done. cbn [obind]. unfold set_uint16. rewrite drop_be.
    eexists. split; [done|]. destruct (n - 16 - 2) eqn:E; [|done..]. replace n with 18 by lia.
    split; [by apply (ls_wf_ipv6 a p)|]. split_and!; [done..|]. cbn -[be_bytes]. by rewrite app_nil_r, <- app_assoc.
  - destruct (Z.ltb_spec n 20); [by eexists|]. destruct (read_array 20 ptr ltac:(lia)) as (a & r1 & Ha & ->).
    rewrite read_bytes_app by done. cbn [obind]. rewrite drop_at by done.
    eexists. split; [done|]. destruct (n - 20) eqn:E; [|done..]. replace n with 20 by lia.
    split; [by apply (ls_wf_legacy a)|]. split_and!; [done..|]. cbn. by rewrite app_nil_r.
  - destruct (Z.ltb_spec n 32); [by eexists|]. destruct (read_array 32 ptr ltac:(lia)) as (a & r1 & Ha & ->).
    rewrite read_bytes_app by done. cbn [obind]. rewrite drop_at by done.
    eexists. split; [done|]. destruct (n - 32) eqn:E; [|done..]. replace n with 32 by lia.
    split; [by apply (ls_wf_ed25519 a)|]. split_and!; [done..|]. cbn. by rewrite app_nil_r.
  - destruct (read_array (Z.to_nat n) ptr ltac:(lia)) as (a & r1 & Ha & ->). rewrite read_bytes_app, drop_at by done. cbn [obind].
    eexists. split; [done|]. rewrite Z.sub_diag. assert (zlen a = n) by (unfold zlen; lia). rewrite <- H.
    split; [apply (ls_wf_other t a); lia|]. split_and!; [done..|]. change (mk_ls t (zlen a) 0 0 _ 0 _ _ a false) with (ls_other t a).
    rewrite ls_members_other by lia. cbn. by rewrite app_nil_r.
Qed.

#[export] Instance link_specifier_codec : Codec link_specifier.
Proof.
  refine {| cd_encode := link_specifier_encode; cd_parse := link_specifier_parse; cd_text := ls_text; cd_wf := ls_wf |}.
  - intros avail x Hw Hl. destruct (ls_wf_facts x Hw) as (Ht & Hn & E & He). unfold ls_text in *.
    unfold link_specifier_encode, link_specifier_check. rewrite He, encode_parts_ok by (cbn [concat]; rewrite app_nil_r; zl). cbn [obind negb].
    rewrite encode_parts_ok by zl. cbn [obind negb]. rewrite <- E. ltb_f. do 2 f_equal. zl.
  - intros x rest Hw. destruct (ls_wf_facts x Hw) as (Ht & Hn & E & _). unfold ls_text, link_specifier_parse, link_specifier_new. ltb_f.
    rewrite <- !app_assoc, get_uint8_app by done. cbn [obind]. ltb_f. rewrite drop_uint8, get_uint8_app by done. cbn [obind]. ltb_f.
    rewrite drop_uint8, parse_union_ok by done. cbn [obind Z.eqb negb]. rewrite (proj2 (Z.eqb_eq _ _)) by zl. cbn [tor_assert]. do 2 f_equal. zl.
  - intros s. unfold link_specifier_parse, link_specifier_new. destruct (Z.ltb_spec (zlen s) 1) as [H|H]; [left; by exists (-2)|].
    destruct (read_uint8 s H) as (t & s1 & Ht & ->). rewrite get_uint8_app by done. cbn [obind]. rewrite drop_uint8.
    destruct (Z.ltb_spec (zlen (set_uint8 t ++ s1) - 1) 1) as [H1|H1]; [left; by exists (-2)|].
    destruct (read_uint8 s1 ltac:(zl)) as (n & s2 & Hn & ->). rewrite get_uint8_app by done. cbn [obind]. rewrite drop_uint8.
    destruct (Z.ltb_spec (zlen (set_uint8 t ++ set_uint8 n ++ s2) - 1 - 1) n) as [H2|H2]; [left; by exists (-2)|].
    destruct (parse_union_total t n s2 Ht Hn ltac:(zl)) as (r & -> & Hr). cbn [obind].
    destruct r as [[[obj rem] rest]|]; [|left; by exists (-1)]. destruct (Z.eqb_spec rem 0) as [->|]; [|left; by exists (-1)].
    cbn [negb]. right. destruct Hr as (Hw & Et & En & ->). destruct (ls_wf_facts obj Hw) as (_ & _ & E & _).
    rewrite (proj2 (Z.eqb_eq _ _)) by zl. cbn [tor_assert]. exists obj, rest. unfold ls_text. rewrite Et, En, <- !app_assoc. do 2 (split; [done|]).
    do 2 f_equal. zl.
Defined.

Lemma drop_uint16 (v : Z) (rest : bytes) : drop 2 (set_uint16 v ++ rest) = rest.
Proof. apply drop_be. Qed.
Lemma drop_uint32 (v : Z) (rest : bytes) : drop 4 (set_uint32 v ++ rest) = rest.
Proof. apply drop_be. Qed.
Lemma read_uint16 (s : bytes) : 2 <= zlen s -> exists v rest, 0 <= v < 2 ^ 16 /\ s = set_uint16 v ++ rest.
Proof. intros H. by apply (read_be 2). Qed.
Lemma read_uint32 (s : bytes) : 4 <= zlen s -> exists v rest, 0 <= v < 2 ^ 32 /\ s = set_uint32 v ++ rest.
Proof. intros H. by apply (read_be 4). Qed.
Lemma zlen_uint16 (v : Z) : zlen (set_uint16 v) = 2.
Proof. apply zlen_be_bytes. Qed.
Lemma zlen_uint32 (v : Z) : zlen (set_uint32 v) = 4.
Proof. apply zlen_be_bytes. Qed.
Lemma zlen_uint8 (v : Z) : zlen (set_uint8 v) = 1.
Proof. apply zlen_be_bytes. Qed.
Lemma zlen_at (n : nat) (s : bytes) : length s = n -> zlen s = Z.of_nat n.
Proof. by intros <-. Qed.

(** Lengths of encodings, with the lengths of arrays from the context. *)
Ltac zw := repeat match goal with H : length ?s = ?n |- _ => apply zlen_at in H; cbn in H end;
  rewrite ?app_nil_r, ?zlen_app, ?zlen_uint8, ?zlen_uint16, ?zlen_uint32 in *; repeat match goal with
  | |- context[zlen ?s] => lazymatch goal with H : 0 <= zlen s |- _ => fail | _ => pose proof (zlen_nonneg s) end end; lia.
Ltac ltb_fw := rewrite (proj2 (Z.ltb_ge _ _)) by zw.
Ltac eqb_tw := rewrite (proj2 (Z.eqb_eq _ _)) by zw.
Ltac leb_tw := rewrite (proj2 (Z.leb_le _ _)) by zw.

Definition create2_wf (x : create2_cell_body) : Prop :=
  0 <= c2_handshake_type x < 2 ^ 16 /\ 0 <= c2_handshake_len x < 2 ^ 16 /\ c2_handshake_len x = zlen (c2_handshake_data x) /\ c2_error x = false.
Definition create2_text (x : create2_cell_body) : bytes := set_uint16 (c2_handshake_type x) ++ set_uint16 (c2_handshake_len x) ++ c2_handshake_data x.

#[export] Instance create2_codec : Codec create2_cell_body.
Proof.
  refine {| cd_encode := fun avail x => create2_cell_body_encode avail (Some x); cd_parse := create2_cell_body_parse;
            cd_text := create2_text; cd_wf := create2_wf |}.
  - intros avail [t n d e] (Ht & Hn & Hd & He) Hl. unfold create2_text, create2_cell_body_encode, create2_cell_body_check in *.
    cbn [c2_handshake_type c2_handshake_len c2_handshake_data c2_error] in *. subst e. rewrite Hd, Z.eqb_refl, encode_parts_ok by (cbn [concat]; zw).
    cbn [obind negb tor_assert concat]. rewrite encode_parts_ok by (cbn [concat]; zw). cbn [obind concat]. rewrite !app_nil_r, <- app_assoc. do 2 f_equal. zw.
  - intros [t n d e] rest (Ht & Hn & Hd & He). unfold create2_text, create2_cell_body_parse. cbn [c2_handshake_type c2_handshake_len c2_handshake_data c2_error] in *.
    subst e. rewrite <- !app_assoc. ltb_fw. rewrite get_uint16_app, drop_uint16 by done. cbn [obind]. ltb_fw. rewrite get_uint16_app, drop_uint16 by done. cbn [obind].
    ltb_fw. assert (E : Z.to_nat n = length d) by (unfold zlen in Hd; lia). rewrite E, read_bytes_app, drop_app_length by done. cbn [obind]. eqb_tw. cbn [tor_assert]. do 2 f_equal. zw.
  - intros s. unfold create2_cell_body_parse. destruct (Z.ltb_spec (zlen s) 2) as [H|H]; [left; by exists (-2)|].
    destruct (read_uint16 s H) as (t & s1 & Ht & ->). rewrite get_uint16_app, drop_uint16 by done. cbn [obind].
    destruct (Z.ltb_spec (zlen (set_uint16 t ++ s1) - 2) 2) as [H1|H1]; [left; by exists (-2)|].
    destruct (read_uint16 s1 ltac:(zw)) as (n & s2 & Hn & ->). rewrite get_uint16_app, drop_uint16 by done. cbn [obind].
    destruct (Z.ltb_spec (zlen (set_uint16 t ++ set_uint16 n ++ s2) - 2 - 2) n) as [H2|H2]; [left; by exists (-2)|].
    destruct (read_array (Z.to_nat n) s2 ltac:(zw)) as (d & rest & Hd & ->). rewrite read_bytes_app, drop_at by done. cbn [obind]. assert (zlen d = n) by (unfold zlen; lia).
    right. clear Hd. eqb_tw. cbn [tor_assert]. exists (mk_create2 t n d false), rest. split; [by unfold create2_wf; cbn [c2_handshake_type c2_handshake_len c2_handshake_data c2_error]|].
    unfold create2_text. cbn [c2_handshake_type c2_handshake_len c2_handshake_data]. split; [by rewrite <- !app_assoc|]. do 2 f_equal. zw.
Defined.

#[export] Instance extend1_codec : Codec extend1_cell_body.
Proof.
  refine {| cd_encode := extend1_cell_body_encode; cd_parse := extend1_cell_body_parse;
            cd_text := fun x => set_uint32 (e1_ipv4addr x) ++ set_uint16 (e1_port x) ++ e1_onionskin x ++ e1_identity x;
            cd_wf := fun x => 0 <= e1_ipv4addr x < 2 ^ 32 /\ 0 <= e1_port x < 2 ^ 16 /\ length (e1_onionskin x) = 186%nat /\ length (e1_identity x) = 20%nat /\ e1_error x = false |}.
  - intros avail [a p k i e] (Ha & Hp & Hk & Hi & He) Hl. unfold extend1_cell_body_encode, extend1_cell_body_check. cbn [e1_ipv4addr e1_port e1_onionskin e1_identity e1_error] in *.
    subst e. rewrite encode_parts_ok by (cbn [concat]; by rewrite app_nil_r). cbn [obind concat]. by rewrite app_nil_r.
  - intros [a p k i e] rest (Ha & Hp & Hk & Hi & He). unfold extend1_cell_body_parse. cbn [e1_ipv4addr e1_port e1_onionskin e1_identity e1_error] in *. subst e.
    rewrite <- !app_assoc. ltb_fw. rewrite get_uint32_app, drop_uint32 by done. cbn [obind]. ltb_fw. rewrite get_uint16_app, drop_uint16 by done. cbn [obind].
    ltb_fw. rewrite read_bytes_app, drop_at by done. cbn [obind]. ltb_fw. rewrite read_bytes_app, drop_at by done. cbn [obind]. eqb_tw. cbn [tor_assert]. do 2 f_equal. zw.
  - intros s. unfold extend1_cell_body_parse. destruct (Z.ltb_spec (zlen s) 4) as [H|H]; [left; by exists (-2)|].
    destruct (read_uint32 s H) as (a & s1 & Ha & ->). rewrite get_uint32_app, drop_uint32 by done. cbn [obind].
    destruct (Z.ltb_spec (zlen (set_uint32 a ++ s1) - 4) 2) as [H1|H1]; [left; by exists (-2)|].
    destruct (read_uint16 s1 ltac:(zw)) as (p & s2 & Hp & ->). rewrite get_uint16_app, drop_uint16 by done. cbn [obind].
    destruct (Z.ltb_spec (zlen (set_uint32 a ++ set_uint16 p ++ s2) - 4 - 2) 186) as [H2|H2]; [left; by exists (-2)|].
    destruct (read_array 186 s2 ltac:(zw)) as (k & s3 & Hk & ->). rewrite read_bytes_app, drop_at by done. cbn [obind].
    destruct (Z.ltb_spec (zlen (set_uint32 a ++ set_uint16 p ++ k ++ s3) - 4 - 2 - 186) 20) as [H3|H3]; [left; by exists (-2)|].
    destruct (read_array 20 s3 ltac:(zw)) as (i & rest & Hi & ->). rewrite read_bytes_app, drop_at by done. cbn [obind].
    right. eqb_tw. cbn [tor_assert]. exists (mk_extend1 a p k i false), rest. cbn [e1_ipv4addr e1_port e1_onionskin e1_identity e1_error].
    split; [done|]. split; [by rewrite <- !app_assoc|]. do 2 f_equal. zw.
Defined.

Definition extend2_wf (x : extend2_cell_body) : Prop :=
  0 <= e2_n_spec x < 256 /\ e2_n_spec x = zlen (e2_ls x) /\ Forall cd_wf (e2_ls x) /\ e2_error x = false /\
  match e2_create2 x with Some c => cd_wf c | None => False end.
Definition extend2_text (x : extend2_cell_body) : bytes :=
  set_uint8 (e2_n_spec x) ++ array_text (e2_ls x) ++ match e2_create2 x with Some c => cd_text c | None => [] end.

Lemma create2_check_ok (x : create2_cell_body) : create2_wf x -> create2_cell_body_check (Some x) = None.
Proof. intros (_ & _ & Hd & He). unfold create2_cell_body_check. by rewrite He, Hd, Z.eqb_refl. Qed.

Lemma extend2_check_ok (x : extend2_cell_body) : extend2_wf x -> extend2_cell_body_check (Some x) = None.
Proof.
  intros (_ & Hn & Hl & He & Hc). unfold extend2_cell_body_check. rewrite He, first_message_none, Hn, Z.eqb_refl.
  - cbn [negb]. destruct (e2_create2 x); [by apply create2_check_ok|done].
  - eapply Forall_impl; [exact Hl|]. intros l Hw. destruct (ls_wf_facts l Hw) as (_ & _ & _ & E). unfold link_specifier_check. by rewrite E.
Qed.

#[export] Instance extend2_codec : Codec extend2_cell_body.
Proof.
  refine {| cd_encode := extend2_cell_body_encode; cd_parse := extend2_cell_body_parse; cd_text := extend2_text; cd_wf := extend2_wf |}.
  - intros avail x Hw Hl. pose proof (extend2_check_ok x Hw) as Hk. destruct Hw as (Hr & Hn & Hls & He & Hc). unfold extend2_cell_body_encode, extend2_text in *. rewrite Hk.
    destruct (e2_create2 x) as [c|]; [|done]. pose proof (zlen_nonneg (array_text (e2_ls x))). pose proof (zlen_nonneg (cd_text c)). leb_tw. cbn [tor_assert]. ltb_fw.
    change link_specifier_encode with (cd_encode (A := link_specifier)). rewrite encode_elements_ok by (done || zw). cbn [obind]. ltb_fw. leb_tw. cbn [tor_assert].
    change (create2_cell_body_encode ?a (Some c)) with (cd_encode (A := create2_cell_body) a c). rewrite cd_encode_ok by (done || zw). cbn [obind]. ltb_fw. do 2 f_equal. zw.
  - intros [n l c e] rest (Hr & Hn & Hls & He & Hc). unfold extend2_text, extend2_cell_body_parse. cbn [e2_n_spec e2_ls e2_create2 e2_error] in *. subst e. destruct c as [c|]; [|done].
    rewrite <- !app_assoc. ltb_fw. rewrite get_uint8_app, drop_uint8 by done. cbn [obind]. assert (E : Z.to_nat n = length l) by (unfold zlen in Hn; lia).
    change link_specifier_parse with (cd_parse (A := link_specifier)). rewrite E, parse_elements_ok by done. cbn [obind].
    change create2_cell_body_parse with (cd_parse (A := create2_cell_body)). rewrite cd_parse_ok by done. cbn [obind]. pose proof (zlen_nonneg (cd_text c)).
    ltb_fw. leb_tw. cbn [tor_assert get obind]. do 2 f_equal. zw.
  - intros s. unfold extend2_cell_body_parse. destruct (Z.ltb_spec (zlen s) 1) as [H|H]; [left; by exists (-2)|].
    destruct (read_uint8 s H) as (n & s1 & Hn & ->). rewrite get_uint8_app, drop_uint8 by done. cbn [obind].
    change link_specifier_parse with (cd_parse (A := link_specifier)).
    destruct (parse_elements_total (A := link_specifier) (Z.to_nat n) s1) as [(r & Hr & E)|(l & s2 & Hl & Hlen & -> & E)]; rewrite E; cbn [obind]; [left; by exists r|].
    change create2_cell_body_parse with (cd_parse (A := create2_cell_body)).
    destruct (cd_parse_total (A := create2_cell_body) s2) as [(r & Hr & Ec)|(c & rest & Hc & -> & Ec)]; rewrite Ec; cbn [obind].
    { left. exists r. split; [done|]. by rewrite (proj2 (Z.ltb_lt _ _)). }
    pose proof (zlen_nonneg (cd_text c)). ltb_fw. leb_tw. cbn [tor_assert get obind]. right.
    assert (Hz : n = zlen l) by (unfold zlen; lia). exists (mk_extend2 n l (Some c) false), rest. unfold extend2_wf, extend2_text. cbn [e2_n_spec e2_ls e2_create2 e2_error].
    split; [by rewrite Hz in *|]. split; [by rewrite <- !app_assoc|]. do 2 f_equal. zw.
Defined.
