(* ===== verification/CircuitCells.v ===== *)
(** * Cells that create and extend circuits: [core/or/onion.c]

    CREATE, CREATED, EXTEND and EXTENDED cells, in their three versions, between the bytes of a cell and the structures
    that the handshakes work on. Arrays have the length of the C array; [memcpy] reads and writes within them or is stuck. A function that
    fails is [Err]: its callers do not look at what it has written then. *)
From stdpp Require Import gmap.
From S2P Require Import Prelude ParseInt DiOps Strings Endian Address Cells RelayCell Sendme CellExtensions LinkSpec.

Definition CELL_CREATE : Z := 1.
Definition CELL_CREATED : Z := 2.
Definition CELL_CREATE_FAST : Z := 5.
Definition CELL_CREATED_FAST : Z := 6.
Definition CELL_CREATE2 : Z := 10.
Definition CELL_CREATED2 : Z := 11.
Definition RELAY_COMMAND_EXTEND : Z := 6.
Definition RELAY_COMMAND_EXTENDED : Z := 7.
Definition RELAY_COMMAND_EXTEND2 : Z := 14.
Definition RELAY_COMMAND_EXTENDED2 : Z := 15.
Definition ONION_HANDSHAKE_TYPE_TAP : Z := 0.
Definition ONION_HANDSHAKE_TYPE_FAST : Z := 1.
Definition ONION_HANDSHAKE_TYPE_NTOR : Z := 2.
Definition TAP_ONIONSKIN_CHALLENGE_LEN : Z := 42 + 16 + 128.
Definition TAP_ONIONSKIN_REPLY_LEN : Z := 128 + 20.
Definition CREATE_FAST_LEN : Z := 20.
Definition CREATED_FAST_LEN : Z := 20 * 2.
Definition NTOR_ONIONSKIN_LEN : Z := 84.
Definition NTOR_REPLY_LEN : Z := 64.
Definition NTOR_CREATE_MAGIC : bytes := bs "ntorNTORntorNTOR".

(** [memcpy] to the offset [off] of an array. *)
Definition store_at (dest : bytes) (off : nat) (s : bytes) : outcome bytes :=
  if (length dest <? off + length s)%nat then Stuck else Ok (take off dest ++ s ++ drop (off + length s) dest).

(** ** The structures *)
Record create_cell := mk_create { cell_type : Z; handshake_type : Z; handshake_len : Z; onionskin : bytes }.
Record created_cell := mk_created { created_type : Z; reply_len : Z; reply : bytes }.
Record addr_port := mk_ap { ap_addr : tor_addr; ap_port : Z }.
Record extend_cell := mk_extend {
  extend_type : Z; orport_ipv4 : addr_port; orport_ipv6 : addr_port; node_id : bytes; ed_pubkey : bytes; ec_create : create_cell
}.
Record extended_cell := mk_extended { extended_type : Z; ex_created : created_cell }.

Definition ONIONSKIN_SIZE : nat := Z.to_nat (CELL_PAYLOAD_SIZE - 4).
Definition REPLY_SIZE : nat := Z.to_nat (CELL_PAYLOAD_SIZE - 2).
Definition unspec_ap : addr_port := mk_ap TA_UNSPEC 0.
Definition create_zero : create_cell := mk_create 0 0 0 (replicate ONIONSKIN_SIZE NUL).
Definition created_zero : created_cell := mk_created 0 0 (replicate REPLY_SIZE NUL).

Definition tor_addr_port_is_valid_ap (ap : addr_port) (for_listening : bool) : bool :=
  tor_addr_is_valid (Some (ap_addr ap)) for_listening && tor_port_is_valid (ap_port ap) for_listening.
Definition tor_addr_copy_ipv6_bytes (a : tor_addr) : bytes :=
  match a with TA_INET6 b => b | _ => replicate 16 NUL end.
Definition ed25519_public_key_is_zero (pubkey : bytes) : outcome Z := safe_mem_is_zero pubkey 32.

(** ** CREATE cells *)
Definition check_create_cell (cell : create_cell) (unknown_ok : bool) : bool :=
  let t := cell_type cell in let h := handshake_type cell in let n := handshake_len cell in
  (if t =? CELL_CREATE then (h =? ONION_HANDSHAKE_TYPE_TAP) || (h =? ONION_HANDSHAKE_TYPE_NTOR)
   else if t =? CELL_CREATE_FAST then h =? ONION_HANDSHAKE_TYPE_FAST
   else t =? CELL_CREATE2)
  && (if h =? ONION_HANDSHAKE_TYPE_TAP then n =? TAP_ONIONSKIN_CHALLENGE_LEN
      else if h =? ONION_HANDSHAKE_TYPE_FAST then n =? CREATE_FAST_LEN
      else if h =? ONION_HANDSHAKE_TYPE_NTOR then n =? NTOR_ONIONSKIN_LEN
      else unknown_ok).

Definition create_cell_init (t h n : Z) (skin : bytes) : outcome create_cell :=
  let* s := read_bytes (Z.to_nat n) skin in
  let* k := store_at (replicate ONIONSKIN_SIZE NUL) 0 s in
  Ok (mk_create t h n k).

(** [p] has at least [p_len] bytes. *)
Definition parse_create2_payload (p : bytes) (p_len : Z) : outcome create_cell :=
  if p_len <? 4 then Err
  else
    let* h := get_uint16 p in
    let* n := get_uint16 (drop 2 p) in
    if (CELL_PAYLOAD_SIZE - 4 <? n) || (p_len - 4 <? n) then Err
    else if h =? ONION_HANDSHAKE_TYPE_FAST then Err
    else create_cell_init CELL_CREATE2 h n (drop 4 p).

Definition create_cell_parse (cell_in : cell) : outcome create_cell :=
  let p := payload cell_in in let t := command cell_in in
  let* c :=
    if t =? CELL_CREATE then
      let* ntor := tor_memeq p NTOR_CREATE_MAGIC 16 in
      if negb (ntor =? 0) then create_cell_init CELL_CREATE ONION_HANDSHAKE_TYPE_NTOR NTOR_ONIONSKIN_LEN (drop 16 p)
      else create_cell_init CELL_CREATE ONION_HANDSHAKE_TYPE_TAP TAP_ONIONSKIN_CHALLENGE_LEN p
    else if t =? CELL_CREATE_FAST then create_cell_init CELL_CREATE_FAST ONION_HANDSHAKE_TYPE_FAST CREATE_FAST_LEN p
    else if t =? CELL_CREATE2 then parse_create2_payload p CELL_PAYLOAD_SIZE
    else Err in
  if check_create_cell c false then Ok c else Err.

(** [relayed]: a cell that this relay did not originate. The circuit identifier stays as it is. *)
Definition create_cell_format_impl (cell_out : cell) (cell_in : create_cell) (relayed : bool) : outcome cell :=
  let t := cell_type cell_in in let n := handshake_len cell_in in
  let zero := replicate (Z.to_nat CELL_PAYLOAD_SIZE) NUL in
  if negb (check_create_cell cell_in relayed) then Err
  else
    let* out :=
      if (t =? CELL_CREATE) || (t =? CELL_CREATE_FAST) then
        let magic := (t =? CELL_CREATE) && (handshake_type cell_in =? ONION_HANDSHAKE_TYPE_NTOR) in
        let* p := if magic then store_at zero 0 NTOR_CREATE_MAGIC else Ok zero in
        let off := if magic then 16 else 0 in
        tor_assert (n <=? CELL_PAYLOAD_SIZE - off) (
        let* s := read_bytes (Z.to_nat n) (onionskin cell_in) in
        store_at p (Z.to_nat off) s)
      else if t =? CELL_CREATE2 then
        tor_assert (n <=? CELL_PAYLOAD_SIZE - 4) (
        let* p := store_at zero 0 (set_uint16 (handshake_type cell_in)) in
        let* p := store_at p 2 (set_uint16 n) in
        let* s := read_bytes (Z.to_nat n) (onionskin cell_in) in
        store_at p 4 s)
      else Err in
    Ok {| circ_id := circ_id cell_out; command := t; payload := out |}.
Definition create_cell_format (cell_out : cell) (cell_in : create_cell) : outcome cell := create_cell_format_impl cell_out cell_in false.
Definition create_cell_format_relayed (cell_out : cell) (cell_in : create_cell) : outcome cell := create_cell_format_impl cell_out cell_in true.

(** ** CREATED cells *)
Definition check_created_cell (cell : created_cell) : bool :=
  let t := created_type cell in let n := reply_len cell in
  if t =? CELL_CREATED then (n =? TAP_ONIONSKIN_REPLY_LEN) || (n =? NTOR_REPLY_LEN)
  else if t =? CELL_CREATED_FAST then n =? CREATED_FAST_LEN
  else if t =? CELL_CREATED2 then n <=? RELAY_PAYLOAD_SIZE - 2
  else true.

(** A reply of [n] bytes, in an array of zero bytes. *)
Definition created_of (t n : Z) (p : bytes) : outcome created_cell :=
  let* s := read_bytes (Z.to_nat n) p in
  let* r := store_at (replicate REPLY_SIZE NUL) 0 s in
  Ok (mk_created t n r).

Definition created_cell_parse (cell_in : cell) : outcome created_cell :=
  let p := payload cell_in in let t := command cell_in in
  let* c :=
    if t =? CELL_CREATED then created_of CELL_CREATED TAP_ONIONSKIN_REPLY_LEN p
    else if t =? CELL_CREATED_FAST then created_of CELL_CREATED_FAST CREATED_FAST_LEN p
    else if t =? CELL_CREATED2 then
      let* n := get_uint16 p in
      if CELL_PAYLOAD_SIZE - 2 <? n then Err else created_of CELL_CREATED2 n (drop 2 p)
    else Ok created_zero in
  if check_created_cell c then Ok c else Err.

Definition created_cell_format (cell_out : cell) (cell_in : created_cell) : outcome cell :=
  let t := created_type cell_in in let n := reply_len cell_in in
  let zero := replicate (Z.to_nat CELL_PAYLOAD_SIZE) NUL in
  if negb (check_created_cell cell_in) then Err
  else
    let* out :=
      if (t =? CELL_CREATED) || (t =? CELL_CREATED_FAST) then
        tor_assert (n <=? CELL_PAYLOAD_SIZE) (
        let* s := read_bytes (Z.to_nat n) (reply cell_in) in
        store_at zero 0 s)
      else if t =? CELL_CREATED2 then
        tor_assert (n <=? CELL_PAYLOAD_SIZE - 2) (
        let* p := store_at zero 0 (set_uint16 n) in
        let* s := read_bytes (Z.to_nat n) (reply cell_in) in
        store_at p 2 s)
      else Err in
    Ok {| circ_id := circ_id cell_out; command := t; payload := out |}.

(** ** EXTEND cells *)
Definition check_extend_cell (cell : extend_cell) : outcome bool :=
  let is_extend2 := extend_type cell =? RELAY_COMMAND_EXTEND2 in
  let* zero := tor_digest_is_zero (node_id cell) in
  if negb (zero =? 0) then Ok false
  else if negb (tor_addr_port_is_valid_ap (orport_ipv4 cell) false) &&
          (negb is_extend2 || negb (tor_addr_port_is_valid_ap (orport_ipv6 cell) false)) then Ok false
  else
    let t := cell_type (ec_create cell) in
    let known :=
      if t =? CELL_CREATE then extend_type cell =? RELAY_COMMAND_EXTEND
      else if t =? CELL_CREATE2 then (extend_type cell =? RELAY_COMMAND_EXTEND2) || (extend_type cell =? RELAY_COMMAND_EXTEND)
      else false in
    if negb known then Ok false
    else if handshake_type (ec_create cell) =? ONION_HANDSHAKE_TYPE_FAST then Ok false
    else Ok (check_create_cell (ec_create cell) true).

Definition extend_cell_from_extend1_cell_body (cell : extend1_cell_body) : outcome extend_cell :=
  let* ntor := tor_memeq (e1_onionskin cell) NTOR_CREATE_MAGIC 16 in
  let* create :=
    if negb (ntor =? 0) then create_cell_init CELL_CREATE2 ONION_HANDSHAKE_TYPE_NTOR NTOR_ONIONSKIN_LEN (drop 16 (e1_onionskin cell))
    else create_cell_init CELL_CREATE ONION_HANDSHAKE_TYPE_TAP TAP_ONIONSKIN_CHALLENGE_LEN (e1_onionskin cell) in
  Ok (mk_extend RELAY_COMMAND_EXTEND (mk_ap (TA_INET (e1_ipv4addr cell)) (e1_port cell)) unspec_ap (e1_identity cell) (replicate 32 NUL) create).

Definition create_cell_from_create2_cell_body (cell : create2_cell_body) : outcome create_cell :=
  if Z.of_nat ONIONSKIN_SIZE <? c2_handshake_len cell then Err
  else create_cell_init CELL_CREATE2 (c2_handshake_type cell) (c2_handshake_len cell) (c2_handshake_data cell).

(** What the loop over the link specifiers has found, and the cell it fills. *)
Record found := mk_found { found_ipv4 : bool; found_ipv6 : bool; found_rsa_id : bool; found_ed_id : bool; found_cell : extend_cell }.

Definition take_spec (f : found) (ls : link_specifier) : outcome found :=
  let '(mk_found f4 f6 fr fe (mk_extend t a4 a6 id ed c)) := f in
  if ls_type ls =? LS_IPV4 then
    Ok (if f4 then f else mk_found true f6 fr fe (mk_extend t (mk_ap (TA_INET (un_ipv4_addr ls)) (un_ipv4_port ls)) a6 id ed c))
  else if ls_type ls =? LS_IPV6 then
    Ok (if f6 then f else mk_found f4 true fr fe (mk_extend t a4 (mk_ap (TA_INET6 (un_ipv6_addr ls)) (un_ipv6_port ls)) id ed c))
  else if ls_type ls =? LS_LEGACY_ID then
    if fr then Err else Ok (mk_found f4 f6 true fe (mk_extend t a4 a6 (un_legacy_id ls) ed c))
  else if ls_type ls =? LS_ED25519_ID then
    if fe then Err else Ok (mk_found f4 f6 fr true (mk_extend t a4 a6 id (un_ed25519_id ls) c))
  else Ok f.

Fixpoint take_specs (n : nat) (l : list link_specifier) (f : found) : outcome found :=
  match n, l with
  | O, _ => Ok f
  | S n, [] => Stuck
  | S n, ls :: l => let* f := take_spec f ls in take_specs n l f
  end.

Definition extend_zero (t : Z) : extend_cell := mk_extend t unspec_ap unspec_ap (replicate 20 NUL) (replicate 32 NUL) create_zero.

Definition extend_cell_from_extend2_cell_body (cell : extend2_cell_body) : outcome extend_cell :=
  let* f := take_specs (Z.to_nat (e2_n_spec cell)) (e2_ls cell) (mk_found false false false false (extend_zero RELAY_COMMAND_EXTEND2)) in
  if negb (found_rsa_id f) then Err
  else if negb (found_ipv4 f) && negb (found_ipv6 f) then Err
  else
    let* c2 := get (e2_create2 cell) in
    let* create := create_cell_from_create2_cell_body c2 in
    let '(mk_extend t a4 a6 id ed _) := found_cell f in
    Ok (mk_extend t a4 a6 id ed create).

(** [p] is what can be read at the pointer [payload]. *)
Definition extend_cell_parse (cmd : Z) (p : bytes) (payload_length : Z) : outcome extend_cell :=
  if RELAY_PAYLOAD_SIZE <? payload_length then Err
  else
    let* input := read_bytes (Z.to_nat payload_length) p in
    let* c :=
      if cmd =? RELAY_COMMAND_EXTEND then
        let* (r, body) := extend1_cell_body_parse input in
        match body with Some body => if r <? 0 then Err else extend_cell_from_extend1_cell_body body | None => Err end
      else if cmd =? RELAY_COMMAND_EXTEND2 then
        let* (r, body) := extend2_cell_body_parse input in
        match body with Some body => if r <? 0 then Err else extend_cell_from_extend2_cell_body body | None => Err end
      else Err in
    let* ok := check_extend_cell c in
    if ok then Ok c else Err.

(** [opt_extend] is the option ExtendByEd25519ID, [latest] the parameters of the current consensus. *)
Definition should_include_ed25519_id_extend_cells (opt_extend : Z) (latest : option (list bytes)) : outcome Z :=
  if negb (opt_extend =? -1) then Ok opt_extend
  else networkstatus_get_param latest (bs "ExtendByEd25519ID") 0 0 1.

(** The command, the length and the whole payload of the relay cell. *)
Definition extend_cell_format (opt_extend : Z) (latest : option (list bytes)) (cell_in : extend_cell) : outcome (Z * Z * bytes) :=
  let zero := replicate (Z.to_nat RELAY_PAYLOAD_SIZE) NUL in
  let create := ec_create cell_in in
  let* ok := check_extend_cell cell_in in
  if negb ok then Err
  else if extend_type cell_in =? RELAY_COMMAND_EXTEND then
    let* p := store_at zero 0 (set_uint32 (tor_addr_to_ipv4h (ap_addr (orport_ipv4 cell_in)))) in
    let* p := store_at p 4 (set_uint16 (ap_port (orport_ipv4 cell_in))) in
    let* p :=
      if handshake_type create =? ONION_HANDSHAKE_TYPE_NTOR then
        let* p := store_at p 6 NTOR_CREATE_MAGIC in
        let* s := read_bytes (Z.to_nat NTOR_ONIONSKIN_LEN) (onionskin create) in
        store_at p 22 s
      else
        let* s := read_bytes (Z.to_nat TAP_ONIONSKIN_CHALLENGE_LEN) (onionskin create) in
        store_at p 6 s in
    let* p := store_at p (Z.to_nat (6 + TAP_ONIONSKIN_CHALLENGE_LEN)) (node_id cell_in) in
    Ok (RELAY_COMMAND_EXTEND, 6 + TAP_ONIONSKIN_CHALLENGE_LEN + 20, p)
  else if extend_type cell_in =? RELAY_COMMAND_EXTEND2 then
    let add ls st := let '(cell, n) := st in (fst (extend2_cell_body_add_ls cell ls), wrap 8 (n + 1)) in
    let st := (extend2_cell_body_new, 1) in
    let st :=
      if tor_addr_port_is_valid_ap (orport_ipv4 cell_in) false then
        add (ls_ipv4 (tor_addr_to_ipv4h (ap_addr (orport_ipv4 cell_in))) (ap_port (orport_ipv4 cell_in))) st
      else st in
    let st := (fst (extend2_cell_body_add_ls (fst st) (ls_legacy (node_id cell_in))), snd st) in
    let* include := should_include_ed25519_id_extend_cells opt_extend latest in
    let* zero_ed := ed25519_public_key_is_zero (ed_pubkey cell_in) in
    let st := if negb (include =? 0) && (zero_ed =? 0) then add (ls_ed25519 (ed_pubkey cell_in)) st else st in
    let st :=
      if tor_addr_port_is_valid_ap (orport_ipv6 cell_in) false then
        add (ls_ipv6 (tor_addr_copy_ipv6_bytes (ap_addr (orport_ipv6 cell_in))) (ap_port (orport_ipv6 cell_in))) st
      else st in
    let '(cell, n_specifiers) := st in
    let c2 := mk_create2 (handshake_type create) (handshake_len create) [] false in
    let c2 := fst (create2_cell_body_setlen_handshake_data c2 (handshake_len create)) in
    let* s := read_bytes (Z.to_nat (handshake_len create)) (onionskin create) in
    let* c2 := handshake_data_write c2 s in
    let cell := mk_extend2 n_specifiers (e2_ls cell) (Some c2) (e2_error cell) in
    let* (len_encoded, out) := extend2_cell_body_encode RELAY_PAYLOAD_SIZE cell in
    if (len_encoded <? 0) || (65535 <? len_encoded) then Err
    else
      let* p := store_at zero 0 out in
      Ok (RELAY_COMMAND_EXTEND2, len_encoded, p)
  else Err.

(** ** EXTENDED cells *)
Definition check_extended_cell (cell : extended_cell) : bool :=
  let t := created_type (ex_created cell) in
  (if t =? CELL_CREATED then extended_type cell =? RELAY_COMMAND_EXTENDED
   else if t =? CELL_CREATED2 then extended_type cell =? RELAY_COMMAND_EXTENDED2
   else false)
  && check_created_cell (ex_created cell).

(** The difference is one of [size_t]. *)
Definition extended_cell_parse (cmd : Z) (p : bytes) (payload_len : Z) : outcome extended_cell :=
  if RELAY_PAYLOAD_SIZE <? payload_len then Err
  else
    let* c :=
      if cmd =? RELAY_COMMAND_EXTENDED then
        if negb (payload_len =? TAP_ONIONSKIN_REPLY_LEN) then Err
        else
          let* created := created_of CELL_CREATED TAP_ONIONSKIN_REPLY_LEN p in
          Ok (mk_extended RELAY_COMMAND_EXTENDED created)
      else if cmd =? RELAY_COMMAND_EXTENDED2 then
        let* n := get_uint16 p in
        if (RELAY_PAYLOAD_SIZE - 2 <? n) || (wrap 64 (payload_len - 2) <? n) then Err
        else
          let* created := created_of CELL_CREATED2 n (drop 2 p) in
          Ok (mk_extended RELAY_COMMAND_EXTENDED2 created)
      else Err in
    if check_extended_cell c then Ok c else Err.

Definition extended_cell_format (cell_in : extended_cell) : outcome (Z * Z * bytes) :=
  let zero := replicate (Z.to_nat RELAY_PAYLOAD_SIZE) NUL in
  let created := ex_created cell_in in
  if negb (check_extended_cell cell_in) then Err
  else if extended_type cell_in =? RELAY_COMMAND_EXTENDED then
    let* s := read_bytes (Z.to_nat TAP_ONIONSKIN_REPLY_LEN) (reply created) in
    let* p := store_at zero 0 s in
    Ok (RELAY_COMMAND_EXTENDED, TAP_ONIONSKIN_REPLY_LEN, p)
  else if extended_type cell_in =? RELAY_COMMAND_EXTENDED2 then
    let* p := store_at zero 0 (set_uint16 (reply_len created)) in
    if RELAY_PAYLOAD_SIZE <? 2 + reply_len created then Err
    else
      let* s := read_bytes (Z.to_nat (reply_len created)) (reply created) in
      let* p := store_at p 2 s in
      Ok (RELAY_COMMAND_EXTENDED2, wrap 16 (2 + reply_len created), p)
  else Err.

(** ** A CREATED cell that arrives at a relay: the end of [command_process_created_cell] in [core/or/command.c]

    On a circuit this relay has extended, the reply goes back in a relay cell: its command, length and payload. *)
Definition created_to_extended (c : cell) : outcome (Z * Z * bytes) :=
  let* created := created_cell_parse c in
  let t := if created_type created =? CELL_CREATED2 then RELAY_COMMAND_EXTENDED2 else RELAY_COMMAND_EXTENDED in
  extended_cell_format (mk_extended t created).
