(* ===== verification/CircuitCellsFacts.v ===== *)
(** * Theorems about the cells that create and extend circuits

    What the parsers of [CircuitCells] do with any input, and what arrives of a handshake that travels in an EXTEND cell to a relay,
    in a CREATE cell to the next one, and of the reply on the way back. *)
From stdpp Require Import gmap.
From S2P Require Import Prelude ParseInt DiOps Strings Endian Address Cells RelayCell Sendme SendmeFacts CellExtensions LinkSpec CircuitCells.

(** ** Arrays filled from their start *)
Definition pad (n : nat) (s : bytes) : bytes := s ++ replicate (n - length s) NUL.

Lemma pad_length (n : nat) (s : bytes) : (length s <= n)%nat -> length (pad n s) = n.
Proof. unfold pad. intros. rewrite length_app, length_replicate. lia. Qed.
Lemma pad_nil (n : nat) : pad n [] = replicate n NUL.
Proof. unfold pad. cbn. by rewrite Nat.sub_0_r. Qed.

Lemma store_pad (n off : nat) (a s : bytes) : off = length a -> (length a + length s <= n)%nat -> store_at (pad n a) off s = Ok (pad n (a ++ s)).
Proof.
  intros -> H. unfold store_at. rewrite pad_length by lia. rewrite (proj2 (Nat.ltb_ge _ _)) by lia. unfold pad.
  rewrite take_app_length, length_app. rewrite drop_app_ge, drop_replicate by lia. rewrite <- app_assoc. do 4 f_equal. lia.
Qed.

Lemma store_zero (n : nat) (s : bytes) : (length s <= n)%nat -> store_at (replicate n NUL) 0 s = Ok (pad n s).
Proof. intros. rewrite <- pad_nil. by apply store_pad. Qed.

Lemma read_pad (n : nat) (s : bytes) : read_bytes (length s) (pad n s) = Ok s.
Proof. by apply read_bytes_app. Qed.

Lemma read_pad_at (n k : nat) (s : bytes) : length s = k -> read_bytes k (pad n s) = Ok s.
Proof. intros <-. apply read_pad. Qed.

Lemma read_pad_more (n k : nat) (s : bytes) : (length s <= k <= n)%nat -> read_bytes k (pad n s) = Ok (pad k s).
Proof.
  intros H. unfold read_bytes. rewrite pad_length by lia. rewrite (proj2 (Nat.ltb_ge _ _)) by lia. unfold pad.
  rewrite take_app_ge, take_replicate by lia. do 3 f_equal. lia.
Qed.

Lemma pad_app (n : nat) (s t : bytes) : pad n (s ++ t) = s ++ pad (n - length s) t.
Proof. unfold pad. rewrite length_app, <- app_assoc. do 3 f_equal. lia. Qed.

Lemma take_pad (n k : nat) (s : bytes) : (k <= length s)%nat -> take k (pad n s) = take k s.
Proof. intros. unfold pad. by rewrite take_app_le by lia. Qed.

Lemma length_zlen (s : bytes) : Z.to_nat (zlen s) = length s.
Proof. unfold zlen. lia. Qed.

(** ** The structures the parsers make *)
Definition create_with (t h : Z) (s : bytes) : create_cell := mk_create t h (zlen s) (pad ONIONSKIN_SIZE s).
Definition created_with (t : Z) (s : bytes) : created_cell := mk_created t (zlen s) (pad REPLY_SIZE s).

Lemma create_cell_init_ok (t h n : Z) (s rest : bytes) : n = zlen s -> (length s <= ONIONSKIN_SIZE)%nat ->
  create_cell_init t h n (s ++ rest) = Ok (create_with t h s).
Proof.
  intros -> H. unfold create_cell_init. rewrite length_zlen, read_bytes_app by done. cbn [obind]. by rewrite store_zero.
Qed.
Lemma created_of_ok (t n : Z) (s rest : bytes) : n = zlen s -> (length s <= REPLY_SIZE)%nat -> created_of t n (s ++ rest) = Ok (created_with t s).
Proof. intros -> H. unfold created_of. rewrite length_zlen, read_bytes_app by done. cbn [obind]. by rewrite store_zero. Qed.

(** The bytes of a CREATE cell: the old cells announce an ntor handshake by the magic string. *)
Definition create_body (t h : Z) (s : bytes) : bytes :=
  if t =? CELL_CREATE2 then set_uint16 h ++ set_uint16 (zlen s) ++ s
  else if (t =? CELL_CREATE) && (h =? ONION_HANDSHAKE_TYPE_NTOR) then NTOR_CREATE_MAGIC ++ s else s.

Lemma check_create_types (c : create_cell) (unknown_ok : bool) : check_create_cell c unknown_ok = true ->
  cell_type c = CELL_CREATE \/ cell_type c = CELL_CREATE_FAST \/ cell_type c = CELL_CREATE2.
Proof.
  unfold check_create_cell. destruct (Z.eqb_spec (cell_type c) CELL_CREATE); [by left|]. destruct (Z.eqb_spec (cell_type c) CELL_CREATE_FAST); [by right; left|].
  destruct (Z.eqb_spec (cell_type c) CELL_CREATE2); [by right; right|done].
Qed.

Definition cell_of (c : cell) (t : Z) (body : bytes) : cell :=
  {| circ_id := circ_id c; command := t; payload := pad (Z.to_nat CELL_PAYLOAD_SIZE) body |}.

(** Formatting puts the type in the command and the body at the start of the payload. *)
Lemma create_format_ok (c : cell) (t h : Z) (s : bytes) (relayed : bool) : check_create_cell (create_with t h s) relayed = true ->
  (length s <= ONIONSKIN_SIZE)%nat -> create_cell_format_impl c (create_with t h s) relayed = Ok (cell_of c t (create_body t h s)).
Proof.
  intros Hk Hl. pose proof (check_create_types _ _ Hk) as Ht. unfold create_cell_format_impl. rewrite Hk. cbn [negb cell_type handshake_type handshake_len onionskin create_with] in *.
  unfold cell_of, create_body. change (Z.to_nat CELL_PAYLOAD_SIZE) with 509%nat. change ONIONSKIN_SIZE with 505%nat in *.
  assert (Hs : zlen s <= 505) by (unfold zlen; lia).
  rewrite length_zlen, read_pad. destruct Ht as [->|[->| ->]]; unfold CELL_CREATE, CELL_CREATE_FAST, CELL_CREATE2; cbn [Z.eqb Pos.eqb orb andb].
  - destruct (Z.eqb_spec h ONION_HANDSHAKE_TYPE_NTOR) as [->|]; cbn [obind].
    + rewrite store_zero by (cbn; lia). cbn [obind]. rewrite (proj2 (Z.leb_le _ _)).
      * cbn [tor_assert obind]. rewrite store_pad; [done|done|]. unfold check_create_cell in Hk. cbn in Hk. apply Z.eqb_eq in Hk. unfold NTOR_ONIONSKIN_LEN in Hk.
        unfold zlen in Hk. cbn. lia.
      * unfold check_create_cell in Hk. cbn in Hk. apply Z.eqb_eq in Hk. rewrite Hk. done.
    + rewrite (proj2 (Z.leb_le _ _)) by (unfold CELL_PAYLOAD_SIZE; lia). cbn [tor_assert obind]. by rewrite store_zero by lia.
  - rewrite (proj2 (Z.leb_le _ _)) by (unfold CELL_PAYLOAD_SIZE; lia). cbn [tor_assert obind]. by rewrite store_zero by lia.
  - rewrite (proj2 (Z.leb_le _ _)) by (unfold CELL_PAYLOAD_SIZE; lia). cbn [tor_assert]. rewrite store_zero by (cbn; lia). cbn [obind].
    rewrite store_pad by (cbn; lia). cbn [obind]. rewrite store_pad by (cbn; lia). cbn [obind]. by rewrite <- app_assoc.
Qed.

Lemma magic_ntor (s rest : bytes) : tor_memeq (NTOR_CREATE_MAGIC ++ s ++ rest) NTOR_CREATE_MAGIC 16 = Ok 1.
Proof. rewrite tor_memeq_ok by (cbn; lia). reflexivity. Qed.

(** A TAP handshake that begins with the magic string would be taken for an ntor handshake. *)
Definition not_magic (t h : Z) (s : bytes) : Prop :=
  t = CELL_CREATE -> h = ONION_HANDSHAKE_TYPE_TAP -> take 16 s <> NTOR_CREATE_MAGIC.

Lemma create_parse_ok (c : cell) (t h : Z) (s : bytes) : check_create_cell (create_with t h s) false = true ->
  (length s <= ONIONSKIN_SIZE)%nat -> 0 <= h < 2 ^ 16 -> ~ (t = CELL_CREATE2 /\ h = ONION_HANDSHAKE_TYPE_FAST) -> not_magic t h s ->
  create_cell_parse (cell_of c t (create_body t h s)) = Ok (create_with t h s).
Proof.
  intros Hk Hl Hh Hf Hm. pose proof (check_create_types _ _ Hk) as Ht. unfold create_cell_parse, cell_of. cbn [payload command].
  cbn [cell_type create_with] in Ht. change ONIONSKIN_SIZE with 505%nat in *. assert (Hs : zlen s <= 505) by (unfold zlen; lia).
  pose proof Hk as Hk'. unfold check_create_cell in Hk'. cbn [cell_type handshake_type handshake_len create_with] in Hk'.
  destruct Ht as [->|[->| ->]]; unfold create_body, CELL_CREATE, CELL_CREATE_FAST, CELL_CREATE2 in *; cbn [Z.eqb Pos.eqb orb andb] in *.
  - destruct (Z.eqb_spec h ONION_HANDSHAKE_TYPE_TAP) as [->|]; [|destruct (Z.eqb_spec h ONION_HANDSHAKE_TYPE_NTOR) as [->|]; [|done]]; cbn [orb andb Z.eqb] in *.
    + apply Z.eqb_eq in Hk'. assert (length s = 186%nat) as Hn by (unfold zlen in Hk'; unfold TAP_ONIONSKIN_CHALLENGE_LEN in Hk'; lia).
      change (Z.to_nat CELL_PAYLOAD_SIZE) with 509%nat. change (ONION_HANDSHAKE_TYPE_TAP =? ONION_HANDSHAKE_TYPE_NTOR) with false. cbn [andb].
      rewrite tor_memeq_ok by (rewrite ?pad_length by lia; cbn; lia). unfold fast_memeq. rewrite take_pad by lia.
      rewrite (bool_decide_false _ (Hm eq_refl eq_refl)). cbn [obind Z.eqb negb]. unfold pad. rewrite create_cell_init_ok by (done || lia). cbn [obind]. by rewrite Hk.
    + unfold pad. rewrite <- app_assoc, magic_ntor. cbn [obind Z.eqb negb]. apply Z.eqb_eq in Hk'.
      rewrite drop_at by done. rewrite create_cell_init_ok by (done || lia). cbn [obind]. by rewrite Hk.
  - destruct (Z.eqb_spec h ONION_HANDSHAKE_TYPE_FAST) as [->|]; [|done]. cbn [andb Z.eqb] in *. unfold pad.
    apply Z.eqb_eq in Hk'. rewrite create_cell_init_ok by (done || lia). cbn [obind]. by rewrite Hk.
  - unfold parse_create2_payload, CELL_PAYLOAD_SIZE. cbn [Z.ltb Z.compare Pos.compare Pos.compare_cont]. unfold pad. rewrite <- !app_assoc.
    rewrite get_uint16_app, drop_uint16 by done. cbn [obind]. rewrite get_uint16_app by (unfold zlen; lia). cbn [obind].
    rewrite (proj2 (Z.ltb_ge (509 - 4) _)) by lia. cbn [orb]. rewrite (proj2 (Z.eqb_neq h _)) by tauto.
    change 4%nat with (2 + 2)%nat. rewrite <- drop_drop, drop_uint16, drop_uint16. rewrite create_cell_init_ok by (done || lia). cbn [obind]. unfold CELL_CREATE2. by rewrite Hk.
Qed.

(** ** Replies *)
Definition created_body (t : Z) (s : bytes) : bytes := if t =? CELL_CREATED2 then set_uint16 (zlen s) ++ s else s.
(** What a reply is for those it reaches: an old CREATED cell does not say how long it is. *)
Definition reply_seen (t : Z) (s : bytes) : bytes := if t =? CELL_CREATED then pad (Z.to_nat TAP_ONIONSKIN_REPLY_LEN) s else s.
Definition known_created (t : Z) : Prop := t = CELL_CREATED \/ t = CELL_CREATED_FAST \/ t = CELL_CREATED2.

Lemma created_len (t : Z) (s : bytes) : known_created t -> check_created_cell (created_with t s) = true ->
  zlen s <= 496 /\ (t = CELL_CREATED -> zlen s = 148 \/ zlen s = 64) /\ (t = CELL_CREATED_FAST -> zlen s = 40).
Proof.
  unfold check_created_cell, created_with, TAP_ONIONSKIN_REPLY_LEN, NTOR_REPLY_LEN, CREATED_FAST_LEN, RELAY_PAYLOAD_SIZE, RELAY_HEADER_SIZE, CELL_PAYLOAD_SIZE.
  cbn [created_type reply_len]. intros [->|[->| ->]]; unfold CELL_CREATED, CELL_CREATED_FAST, CELL_CREATED2; cbn [Z.eqb Pos.eqb]; intros H;
    (split; [|split; intros E; try discriminate E]); try (apply orb_true_iff in H; rewrite !Z.eqb_eq in H); try apply Z.eqb_eq in H; try apply Z.leb_le in H; lia.
Qed.

Lemma created_format_ok (c : cell) (t : Z) (s : bytes) : known_created t -> check_created_cell (created_with t s) = true ->
  created_cell_format c (created_with t s) = Ok (cell_of c t (created_body t s)).
Proof.
  intros Ht Hk. destruct (created_len t s Ht Hk) as (Hl & _ & _). unfold created_cell_format. rewrite Hk. cbn [negb created_type reply_len reply created_with].
  unfold cell_of, created_body. change (Z.to_nat CELL_PAYLOAD_SIZE) with 509%nat. change REPLY_SIZE with 507%nat. rewrite length_zlen, read_pad.
  assert (length s <= 496)%nat by (unfold zlen in Hl; lia). unfold CELL_PAYLOAD_SIZE.
  destruct Ht as [->|[->| ->]]; unfold CELL_CREATED, CELL_CREATED_FAST, CELL_CREATED2; cbn [Z.eqb Pos.eqb orb]; rewrite (proj2 (Z.leb_le _ _)) by lia; cbn [tor_assert].
  - cbn [obind]. by rewrite store_zero by lia.
  - cbn [obind]. by rewrite store_zero by lia.
  - rewrite store_zero by (cbn; lia). cbn [obind]. by rewrite store_pad by (cbn; lia).
Qed.

Lemma pad_pad (n k : nat) (s : bytes) : (length s <= k <= n)%nat -> pad n s = pad k s ++ replicate (n - k) NUL.
Proof. intros. unfold pad. rewrite <- app_assoc, <- replicate_add. do 2 f_equal. lia. Qed.

Lemma zlen_pad (n : nat) (s : bytes) : (length s <= n)%nat -> zlen (pad n s) = Z.of_nat n.
Proof. intros. unfold zlen. by rewrite pad_length. Qed.

Lemma created_parse_ok (c : cell) (t : Z) (s : bytes) : known_created t -> check_created_cell (created_with t s) = true ->
  created_cell_parse (cell_of c t (created_body t s)) = Ok (created_with t (reply_seen t s)).
Proof.
  intros Ht Hk. destruct (created_len t s Ht Hk) as (Hl & H1 & H2). assert (length s <= 496)%nat by (unfold zlen in Hl; lia).
  unfold created_cell_parse, cell_of, created_body, reply_seen. cbn [payload command]. change (Z.to_nat CELL_PAYLOAD_SIZE) with 509%nat. change (Z.to_nat TAP_ONIONSKIN_REPLY_LEN) with 148%nat.
  destruct Ht as [->|[->| ->]]; unfold CELL_CREATED, CELL_CREATED_FAST, CELL_CREATED2 in *; cbn [Z.eqb Pos.eqb].
  - assert (length s <= 148)%nat by (destruct (H1 eq_refl); unfold zlen in *; lia).
    rewrite (pad_pad 509 148), created_of_ok by (rewrite ?zlen_pad, ?pad_length by lia; done || (change REPLY_SIZE with 507%nat; lia)). cbn [obind].
    unfold check_created_cell, created_with. cbn [created_type reply_len]. by rewrite zlen_pad by lia.
  - unfold pad. rewrite created_of_ok by (done || (rewrite H2; done) || (change REPLY_SIZE with 507%nat; lia)). cbn [obind]. by rewrite Hk.
  - unfold pad. rewrite <- app_assoc, get_uint16_app, drop_uint16 by (unfold zlen in *; lia). cbn [obind]. unfold CELL_PAYLOAD_SIZE.
    rewrite (proj2 (Z.ltb_ge _ _)) by lia. rewrite created_of_ok by (done || (change REPLY_SIZE with 507%nat; lia)). cbn [obind]. unfold CELL_CREATED2. by rewrite Hk.
Qed.

Definition extended_command (t : Z) : Z := if t =? CELL_CREATED2 then RELAY_COMMAND_EXTENDED2 else RELAY_COMMAND_EXTENDED.
Definition relay_payload (body : bytes) : bytes := pad (Z.to_nat RELAY_PAYLOAD_SIZE) body.

(** The relay that gets the reply sends it on, and the other end of the circuit reads it. *)
Lemma extended_format_ok (t : Z) (s : bytes) : t = CELL_CREATED \/ t = CELL_CREATED2 -> check_created_cell (created_with t s) = true ->
  extended_cell_format (mk_extended (extended_command t) (created_with t s)) =
    Ok (extended_command t, zlen (created_body t (reply_seen t s)), relay_payload (created_body t (reply_seen t s))).
Proof.
  intros Ht Hk. destruct (created_len t s ltac:(unfold known_created; tauto) Hk) as (Hl & H1 & _). assert (length s <= 496)%nat by (unfold zlen in Hl; lia).
  unfold extended_cell_format, check_extended_cell. cbn [ex_created extended_type]. rewrite Hk. unfold created_body, reply_seen, extended_command, relay_payload. cbn [created_type reply_len reply created_with].
  change (Z.to_nat TAP_ONIONSKIN_REPLY_LEN) with 148%nat. change (Z.to_nat RELAY_PAYLOAD_SIZE) with 498%nat. change REPLY_SIZE with 507%nat.
  destruct Ht as [->| ->]; cbn [Z.eqb Pos.eqb CELL_CREATED CELL_CREATED2 RELAY_COMMAND_EXTENDED RELAY_COMMAND_EXTENDED2 andb negb].
  - assert (length s <= 148)%nat by (destruct (H1 eq_refl); unfold zlen in *; lia).
    rewrite read_pad_more by lia. cbn [obind]. rewrite store_zero by (rewrite pad_length; lia). cbn [obind]. by rewrite zlen_pad by lia.
  - rewrite store_zero by (cbn; lia). cbn [obind]. rewrite (proj2 (Z.ltb_ge _ _)) by (change RELAY_PAYLOAD_SIZE with 498; lia).
    rewrite length_zlen, read_pad. cbn [obind]. rewrite store_pad by (cbn; lia). cbn [obind]. rewrite zlen_app, zlen_uint16. unfold wrap. by rewrite Z.mod_small by (unfold zlen in *; lia).
Qed.

Lemma extended_parse_ok (t : Z) (s : bytes) : t = CELL_CREATED \/ t = CELL_CREATED2 -> check_created_cell (created_with t s) = true ->
  extended_cell_parse (extended_command t) (relay_payload (created_body t (reply_seen t s))) (zlen (created_body t (reply_seen t s))) =
    Ok (mk_extended (extended_command t) (created_with t (reply_seen t s))).
Proof.
  intros Ht Hk. destruct (created_len t s ltac:(unfold known_created; tauto) Hk) as (Hl & H1 & _). assert (length s <= 496)%nat by (unfold zlen in Hl; lia).
  unfold extended_cell_parse. change RELAY_PAYLOAD_SIZE with 498. unfold relay_payload. change (Z.to_nat RELAY_PAYLOAD_SIZE) with 498%nat. unfold created_body, reply_seen, extended_command.
  change (Z.to_nat TAP_ONIONSKIN_REPLY_LEN) with 148%nat.
  destruct Ht as [->| ->]; cbn [Z.eqb Pos.eqb CELL_CREATED CELL_CREATED2 RELAY_COMMAND_EXTENDED RELAY_COMMAND_EXTENDED2].
  - assert (length s <= 148)%nat by (destruct (H1 eq_refl); unfold zlen in *; lia).
    rewrite zlen_pad by lia. cbn [Z.ltb Z.compare Pos.compare Pos.compare_cont Z.eqb Pos.eqb negb]. rewrite <- (take_drop 148 (pad 498 _)), take_pad by (rewrite pad_length; lia).
    rewrite take_ge by (rewrite pad_length; lia). change (Z.of_nat 148) with TAP_ONIONSKIN_REPLY_LEN. rewrite Z.eqb_refl. cbn [negb]. rewrite created_of_ok by (rewrite ?zlen_pad, ?pad_length by lia; done || (change REPLY_SIZE with 507%nat; lia)). cbn [obind].
    unfold check_extended_cell, check_created_cell, created_with. cbn [ex_created created_type reply_len extended_type]. by rewrite zlen_pad by lia.
  - rewrite zlen_app, zlen_uint16. rewrite (proj2 (Z.ltb_ge 498 _)) by lia. unfold pad. rewrite <- app_assoc, get_uint16_app, drop_uint16 by (unfold zlen in *; lia). cbn [obind].
    rewrite (proj2 (Z.ltb_ge _ _)) by lia. cbn [orb]. unfold wrap. rewrite Z.mod_small by (unfold zlen in *; lia). rewrite (proj2 (Z.ltb_ge _ _)) by lia.
    rewrite created_of_ok by (done || (change REPLY_SIZE with 507%nat; lia)). cbn [obind]. unfold check_extended_cell. cbn [ex_created extended_type created_type created_with]. change (check_created_cell (mk_created _ _ _)) with (check_created_cell (created_with CELL_CREATED2 s)). by rewrite Hk.
Qed.

(** ** EXTEND cells *)
Definition ap_ok (v6 : bool) (a : addr_port) : Prop :=
  0 <= ap_port a < 2 ^ 16 /\
  match ap_addr a with
  | TA_UNSPEC => True
  | TA_INET v => v6 = false /\ 0 <= v < 2 ^ 32
  | TA_INET6 b => v6 = true /\ length b = 16%nat
  | TA_UNIX _ => False
  end.
(** The structures the code fills: an address of each family or none. *)
Definition extend_ok (c : extend_cell) : Prop :=
  ap_ok false (orport_ipv4 c) /\ ap_ok true (orport_ipv6 c) /\ length (node_id c) = 20%nat /\ length (ed_pubkey c) = 32%nat.

Lemma ap_ok_unspec (v6 : bool) : ap_ok v6 unspec_ap.
Proof. by split. Qed.
Lemma ap_ok_inet (a p : Z) : 0 <= a < 2 ^ 32 -> 0 <= p < 2 ^ 16 -> ap_ok false (mk_ap (TA_INET a) p).
Proof. done. Qed.

Definition is_zero (s : bytes) : bool := bool_decide (s = replicate (length s) NUL).

Lemma digest_zero_ok (s : bytes) : length s = 20%nat -> tor_digest_is_zero s = Ok (if is_zero s then 1 else 0).
Proof. intros H. unfold tor_digest_is_zero, is_zero. rewrite safe_mem_is_zero_ok, take_ge, H by lia. done. Qed.
Lemma ed_zero_ok (s : bytes) : length s = 32%nat -> ed25519_public_key_is_zero s = Ok (if is_zero s then 1 else 0).
Proof. intros H. unfold ed25519_public_key_is_zero, is_zero. rewrite safe_mem_is_zero_ok, take_ge, H by lia. done. Qed.

Definition valid_ap (a : addr_port) : bool := tor_addr_port_is_valid_ap a false.
Definition extend_valid (c : extend_cell) : bool :=
  let t := cell_type (ec_create c) in let is2 := extend_type c =? RELAY_COMMAND_EXTEND2 in let is1 := extend_type c =? RELAY_COMMAND_EXTEND in
  negb (is_zero (node_id c)) && (valid_ap (orport_ipv4 c) || (is2 && valid_ap (orport_ipv6 c)))
  && ((t =? CELL_CREATE) && is1 || (t =? CELL_CREATE2) && (is1 || is2))
  && negb (handshake_type (ec_create c) =? ONION_HANDSHAKE_TYPE_FAST) && check_create_cell (ec_create c) true.

Lemma check_extend_ok (c : extend_cell) : length (node_id c) = 20%nat -> check_extend_cell c = Ok (extend_valid c).
Proof.
  intros H. unfold check_extend_cell, extend_valid. rewrite digest_zero_ok by done. cbn [obind]. fold (valid_ap (orport_ipv4 c)) (valid_ap (orport_ipv6 c)).
  destruct (is_zero (node_id c)); [done|]. cbn [Z.eqb negb andb].
  destruct (valid_ap (orport_ipv4 c)), (extend_type c =? RELAY_COMMAND_EXTEND2), (valid_ap (orport_ipv6 c)); cbn [negb andb orb]; try done;
    (destruct (Z.eqb_spec (cell_type (ec_create c)) CELL_CREATE) as [->|]; [change (CELL_CREATE =? CELL_CREATE2) with false|destruct (cell_type (ec_create c) =? CELL_CREATE2)]);
    destruct (extend_type c =? RELAY_COMMAND_EXTEND); cbn [negb andb orb]; try done; by destruct (handshake_type (ec_create c) =? ONION_HANDSHAKE_TYPE_FAST).
Qed.

Lemma valid_ipv4 (a : addr_port) : ap_ok false a -> valid_ap a = true ->
  exists v, a = mk_ap (TA_INET v) (ap_port a) /\ 0 <= v < 2 ^ 32 /\ 0 <= ap_port a < 2 ^ 16.
Proof. destruct a as [[| |v|b] p]; intros (Hp & Ha) Hv; cbn in *; try done; [|by destruct Ha]. exists v. tauto. Qed.
Lemma valid_ipv6 (a : addr_port) : ap_ok true a -> valid_ap a = true ->
  exists b, a = mk_ap (TA_INET6 b) (ap_port a) /\ length b = 16%nat /\ 0 <= ap_port a < 2 ^ 16.
Proof. destruct a as [[| |v|b] p]; intros (Hp & Ha) Hv; cbn in *; try done; [by destruct Ha|]. exists b. tauto. Qed.

(** The link specifiers of a cell, in the order in which they are written. *)
Definition ec_specs (include : bool) (c : extend_cell) : list link_specifier :=
  (if valid_ap (orport_ipv4 c) then [ls_ipv4 (tor_addr_to_ipv4h (ap_addr (orport_ipv4 c))) (ap_port (orport_ipv4 c))] else [])
  ++ [ls_legacy (node_id c)]
  ++ (if include && negb (is_zero (ed_pubkey c)) then [ls_ed25519 (ed_pubkey c)] else [])
  ++ (if valid_ap (orport_ipv6 c) then [ls_ipv6 (tor_addr_copy_ipv6_bytes (ap_addr (orport_ipv6 c))) (ap_port (orport_ipv6 c))] else []).
Definition ec_body (include : bool) (c : extend_cell) (s : bytes) : extend2_cell_body :=
  mk_extend2 (zlen (ec_specs include c)) (ec_specs include c) (Some (mk_create2 (handshake_type (ec_create c)) (zlen s) s false)) false.

Lemma ec_specs_wf (include : bool) (c : extend_cell) : extend_ok c -> Forall cd_wf (ec_specs include c).
Proof.
  intros (H4 & H6 & Hi & He). unfold ec_specs. repeat apply Forall_app_2.
  - destruct (valid_ap (orport_ipv4 c)) eqn:E; [|done]. destruct (valid_ipv4 _ H4 E) as (v & -> & Hv & Hp). constructor; [|done]. by apply ls_wf_ipv4.
  - constructor; [|done]. by apply ls_wf_legacy.
  - destruct (include && _); [|done]. constructor; [|done]. by apply ls_wf_ed25519.
  - destruct (valid_ap (orport_ipv6 c)) eqn:E; [|done]. destruct (valid_ipv6 _ H6 E) as (v & -> & Hv & Hp). constructor; [|done]. by apply ls_wf_ipv6.
Qed.

Lemma ec_body_wf (include : bool) (c : extend_cell) (s : bytes) : extend_ok c -> 0 <= handshake_type (ec_create c) < 2 ^ 16 -> zlen s < 2 ^ 16 ->
  extend2_wf (ec_body include c s).
Proof.
  intros Hc Hh Hs. unfold extend2_wf, ec_body. cbn [e2_n_spec e2_ls e2_error e2_create2]. split_and!; try done.
  - apply zlen_nonneg.
  - unfold ec_specs, zlen. rewrite !length_app. destruct (valid_ap _), (include && _), (valid_ap _); cbn; lia.
  - by apply ec_specs_wf.
  - cbn. unfold create2_wf. cbn [c2_handshake_type c2_handshake_len c2_handshake_data c2_error]. pose proof (zlen_nonneg s). done.
Qed.

(** With all four link specifiers there is room for a handshake of 409 bytes. *)
Lemma ec_body_fits (include : bool) (c : extend_cell) (s : bytes) : extend_ok c -> zlen s <= 409 -> zlen (extend2_text (ec_body include c s)) <= 498.
Proof.
  intros (H4 & H6 & Hi & He) Hs. unfold extend2_text, ec_body, ec_specs, array_text. cbn [e2_n_spec e2_ls e2_create2]. rewrite !map_app, !concat_app.
  destruct (valid_ap (orport_ipv4 c)) eqn:E4, (include && _), (valid_ap (orport_ipv6 c)) eqn:E6;
    try (destruct (valid_ipv6 _ H6 E6) as (b & -> & Hb & _)); cbn [map concat]; unfold cd_text, link_specifier_codec, create2_codec, ls_text, create2_text;
    cbn -[zlen set_uint8 set_uint16 set_uint32]; zw.
Qed.

(** The code that builds the body, with its count of specifiers. *)
Lemma handshake_data_ok (h : Z) (s : bytes) : zlen s < 2 ^ 16 ->
  handshake_data_write (fst (create2_cell_body_setlen_handshake_data (mk_create2 h (zlen s) [] false) (zlen s))) s = Ok (mk_create2 h (zlen s) s false).
Proof.
  intros H. unfold create2_cell_body_setlen_handshake_data. rewrite (proj2 (Z.ltb_ge _ _)) by lia. cbn [fst c2_handshake_type c2_handshake_len c2_handshake_data c2_error].
  rewrite length_zlen. cbn [length]. rewrite take_nil, Nat.sub_0_r. unfold handshake_data_write. cbn [c2_handshake_type c2_handshake_len c2_handshake_data c2_error app].
  rewrite length_replicate, (proj2 (Nat.ltb_ge _ _)) by lia. by rewrite drop_replicate, Nat.sub_diag, app_nil_r.
Qed.

Lemma emit_body_ok (x : extend2_cell_body) : extend2_wf x -> zlen (extend2_text x) <= RELAY_PAYLOAD_SIZE ->
  (let* (len_encoded, out) := extend2_cell_body_encode RELAY_PAYLOAD_SIZE x in
   if (len_encoded <? 0) || (65535 <? len_encoded) then Err
   else let* p := store_at (replicate (Z.to_nat RELAY_PAYLOAD_SIZE) NUL) 0 out in Ok (RELAY_COMMAND_EXTEND2, len_encoded, p)) =
  Ok (RELAY_COMMAND_EXTEND2, zlen (extend2_text x), relay_payload (extend2_text x)).
Proof.
  intros Hw Hf. change extend2_cell_body_encode with (cd_encode (A := extend2_cell_body)). rewrite cd_encode_ok by done. cbn [obind].
  change (cd_text x) with (extend2_text x). change RELAY_PAYLOAD_SIZE with 498 in Hf. pose proof (zlen_nonneg (extend2_text x)).
  rewrite (proj2 (Z.ltb_ge _ 0)), (proj2 (Z.ltb_ge 65535 _)) by lia. cbn [orb]. change (Z.to_nat RELAY_PAYLOAD_SIZE) with 498%nat.
  rewrite store_zero by (unfold zlen in Hf; lia). done.
Qed.

(** What a body of a given length leaves for the handshake. *)
Lemma handshake_fits (include : bool) (c : extend_cell) (s : bytes) (n : Z) : zlen (extend2_text (ec_body include c s)) <= n -> zlen s <= n.
Proof.
  unfold extend2_text, ec_body. cbn [e2_n_spec e2_ls e2_create2]. unfold cd_text, create2_codec, create2_text. cbn [c2_handshake_data]. rewrite !zlen_app.
  intros H. repeat match type of H with context[zlen ?x] => lazymatch goal with _ : 0 <= zlen x |- _ => fail | _ => pose proof (zlen_nonneg x) end end. lia.
Qed.

Lemma extend2_format_ok (opt i : Z) (latest : option (list bytes)) (c : extend_cell) (h : Z) (s : bytes) : extend_ok c -> extend_valid c = true ->
  extend_type c = RELAY_COMMAND_EXTEND2 -> ec_create c = create_with CELL_CREATE2 h s -> 0 <= h < 2 ^ 16 ->
  should_include_ed25519_id_extend_cells opt latest = Ok i -> zlen (extend2_text (ec_body (negb (i =? 0)) c s)) <= RELAY_PAYLOAD_SIZE ->
  extend_cell_format opt latest c =
    Ok (RELAY_COMMAND_EXTEND2, zlen (extend2_text (ec_body (negb (i =? 0)) c s)), relay_payload (extend2_text (ec_body (negb (i =? 0)) c s))).
Proof.
  intros Hc Hv Ht Hs Hh Hi Hf. pose proof (handshake_fits _ _ _ _ Hf) as Hsl. change RELAY_PAYLOAD_SIZE with 498 in Hsl.
  rewrite <- (emit_body_ok _ (ec_body_wf _ c s Hc ltac:(by rewrite Hs) ltac:(lia)) Hf).
  destruct Hc as (_ & _ & Hid & Hed). unfold extend_cell_format. rewrite check_extend_ok, Hv, Ht by done.
  cbn [obind negb Z.eqb Pos.eqb RELAY_COMMAND_EXTEND2 RELAY_COMMAND_EXTEND]. rewrite Hi, ed_zero_ok by done. cbn [obind]. unfold ec_body. rewrite Hs.
  cbn [handshake_type handshake_len onionskin create_with]. change ONIONSKIN_SIZE with 505%nat. rewrite length_zlen, read_pad. unfold ec_specs, valid_ap.
  destruct (tor_addr_port_is_valid_ap (orport_ipv4 c) false), (negb (i =? 0)), (is_zero (ed_pubkey c)), (tor_addr_port_is_valid_ap (orport_ipv6 c) false);
    cbn [obind]; rewrite handshake_data_ok by lia; reflexivity.
Qed.

(** What a relay sees of an EXTEND2 cell: usable addresses, and the Ed25519 identity if the client includes it. *)
Definition seen_ap (a : addr_port) : addr_port := if valid_ap a then a else unspec_ap.
Definition extend_seen (include : bool) (c : extend_cell) : extend_cell :=
  mk_extend RELAY_COMMAND_EXTEND2 (seen_ap (orport_ipv4 c)) (seen_ap (orport_ipv6 c)) (node_id c)
    (if include then ed_pubkey c else replicate 32 NUL) (ec_create c).

Lemma valid_seen (a : addr_port) : valid_ap (seen_ap a) = valid_ap a.
Proof. unfold seen_ap. by destruct (valid_ap a) eqn:E. Qed.

Lemma extend_seen_valid (include : bool) (c : extend_cell) : extend_type c = RELAY_COMMAND_EXTEND2 -> extend_valid (extend_seen include c) = extend_valid c.
Proof. intros Ht. unfold extend_valid, extend_seen. cbn [extend_type orport_ipv4 orport_ipv6 node_id ec_create]. by rewrite !valid_seen, Ht. Qed.

Lemma is_zero_eq (n : nat) (s : bytes) : length s = n -> is_zero s = true -> s = replicate n NUL.
Proof. intros <- H. by apply bool_decide_eq_true in H. Qed.

(** The loop over the specifiers of a cell finds what the cell had. *)
Lemma take_specs_ok (include : bool) (c : extend_cell) : extend_ok c -> valid_ap (orport_ipv4 c) || valid_ap (orport_ipv6 c) = true ->
  exists f, take_specs (length (ec_specs include c)) (ec_specs include c) (mk_found false false false false (extend_zero RELAY_COMMAND_EXTEND2)) = Ok f /\
    found_rsa_id f = true /\ found_ipv4 f || found_ipv6 f = true /\
    (let '(mk_extend t a4 a6 id ed _) := found_cell f in mk_extend t a4 a6 id ed (ec_create c)) = extend_seen include c.
Proof.
  intros (H4 & H6 & Hi & He) Hv. unfold ec_specs, extend_seen, seen_ap.
  destruct (valid_ap (orport_ipv4 c)) eqn:E4, (valid_ap (orport_ipv6 c)) eqn:E6; try done;
    try (destruct (valid_ipv4 _ H4 E4) as (v & -> & _ & _)); try (destruct (valid_ipv6 _ H6 E6) as (b & -> & _ & _));
    destruct include; cbn [andb]; try (destruct (is_zero (ed_pubkey c)) eqn:Ez; [rewrite (is_zero_eq 32 _ He Ez)|]);
    eexists; (split; [reflexivity|]); done.
Qed.

Lemma create_of_body_ok (h : Z) (s : bytes) : (length s <= ONIONSKIN_SIZE)%nat ->
  create_cell_from_create2_cell_body (mk_create2 h (zlen s) s false) = Ok (create_with CELL_CREATE2 h s).
Proof.
  intros H. unfold create_cell_from_create2_cell_body. cbn [c2_handshake_type c2_handshake_len c2_handshake_data].
  rewrite (proj2 (Z.ltb_ge _ _)) by (unfold zlen; lia). rewrite <- (app_nil_r s) at 2. by rewrite create_cell_init_ok.
Qed.

Lemma read_payload (body : bytes) : zlen body <= RELAY_PAYLOAD_SIZE -> read_bytes (Z.to_nat (zlen body)) (relay_payload body) = Ok body.
Proof. intros H. rewrite length_zlen. apply read_pad. Qed.

Lemma extend2_parse_ok (include : bool) (c : extend_cell) (h : Z) (s : bytes) : extend_ok c -> extend_valid c = true ->
  extend_type c = RELAY_COMMAND_EXTEND2 -> ec_create c = create_with CELL_CREATE2 h s -> 0 <= h < 2 ^ 16 ->
  zlen (extend2_text (ec_body include c s)) <= RELAY_PAYLOAD_SIZE ->
  extend_cell_parse RELAY_COMMAND_EXTEND2 (relay_payload (extend2_text (ec_body include c s))) (zlen (extend2_text (ec_body include c s))) = Ok (extend_seen include c).
Proof.
  intros Hc Hv Ht Hs Hh Hf. pose proof (handshake_fits _ _ _ _ Hf) as Hsl. change RELAY_PAYLOAD_SIZE with 498 in Hsl.
  pose proof (ec_body_wf include c s Hc ltac:(by rewrite Hs) ltac:(lia)) as Hw. unfold extend_cell_parse. rewrite (proj2 (Z.ltb_ge _ _)), read_payload by done. cbn [obind].
  change (RELAY_COMMAND_EXTEND2 =? RELAY_COMMAND_EXTEND) with false. rewrite Z.eqb_refl. cbn [obind].
  pose proof (cd_parse_ok (A := extend2_cell_body) (ec_body include c s) [] Hw) as Hp. rewrite app_nil_r in Hp.
  change (extend2_cell_body_parse (extend2_text (ec_body include c s)) = Ok (zlen (extend2_text (ec_body include c s)), Some (ec_body include c s))) in Hp.
  rewrite Hp. cbn [obind]. rewrite (proj2 (Z.ltb_ge _ _)) by apply zlen_nonneg.
  assert (Ha : valid_ap (orport_ipv4 c) || valid_ap (orport_ipv6 c) = true).
  { unfold extend_valid in Hv. destruct (valid_ap (orport_ipv4 c)), (valid_ap (orport_ipv6 c)); rewrite ?andb_false_r in Hv; done. }
  destruct (take_specs_ok include c Hc Ha) as (f & Hk & Hr & H46 & Es).
  unfold extend_cell_from_extend2_cell_body, ec_body. cbn [e2_n_spec e2_ls e2_create2]. unfold zlen at 1. rewrite Nat2Z.id, Hk. cbn [obind]. rewrite Hr. cbn [negb].
  rewrite <- negb_orb, H46. cbn [negb get obind]. rewrite Hs. cbn [handshake_type create_with].
  rewrite create_of_body_ok by (change ONIONSKIN_SIZE with 505%nat; unfold zlen in Hsl; lia). cbn [obind]. rewrite <- Hs.
  destruct (found_cell f) as [t a4 a6 id ed k]. rewrite Es. cbn [obind].
  rewrite check_extend_ok by apply Hc. cbn [obind]. by rewrite extend_seen_valid, Hv.
Qed.

(** ** The old EXTEND cell *)
Lemma pad_twice (n k : nat) (s : bytes) : (length s <= k <= n)%nat -> pad n (pad k s) = pad n s.
Proof. intros. rewrite (pad_pad n k s) by lia. unfold pad at 1. by rewrite pad_length by lia. Qed.

Lemma store_gap (n off : nat) (a s : bytes) : (length a <= off)%nat -> (off + length s <= n)%nat -> store_at (pad n a) off s = Ok (pad n (pad off a ++ s)).
Proof. intros. rewrite <- (pad_twice n off a) by lia. apply store_pad; rewrite pad_length; lia. Qed.

Definition skin1 (h : Z) (s : bytes) : bytes := if h =? ONION_HANDSHAKE_TYPE_NTOR then pad 186 (NTOR_CREATE_MAGIC ++ s) else s.
Definition extend1_body (c : extend_cell) (h : Z) (s : bytes) : extend1_cell_body :=
  mk_extend1 (tor_addr_to_ipv4h (ap_addr (orport_ipv4 c))) (ap_port (orport_ipv4 c)) (skin1 h s) (node_id c) false.

(** The handshakes that an old cell can carry. *)
Definition old_handshake (h : Z) (s : bytes) : Prop :=
  (h = ONION_HANDSHAKE_TYPE_TAP /\ length s = 186%nat) \/ (h = ONION_HANDSHAKE_TYPE_NTOR /\ length s = 84%nat).

Lemma skin1_length (h : Z) (s : bytes) : old_handshake h s -> length (skin1 h s) = 186%nat.
Proof. intros [[-> H]|[-> H]]; [done|]. unfold skin1. cbn [Z.eqb Pos.eqb ONION_HANDSHAKE_TYPE_NTOR]. rewrite pad_length; [done|]. rewrite length_app. cbn. lia. Qed.

Lemma extend1_valid_ap (c : extend_cell) : extend_type c = RELAY_COMMAND_EXTEND -> extend_valid c = true -> valid_ap (orport_ipv4 c) = true.
Proof. intros Ht. unfold extend_valid. rewrite Ht. change (RELAY_COMMAND_EXTEND =? RELAY_COMMAND_EXTEND2) with false. destruct (valid_ap (orport_ipv4 c)); [done|]. by rewrite andb_false_r. Qed.

Lemma extend1_body_wf (c : extend_cell) (h : Z) (s : bytes) : extend_ok c -> extend_valid c = true -> extend_type c = RELAY_COMMAND_EXTEND -> old_handshake h s ->
  cd_wf (extend1_body c h s) /\ zlen (cd_text (extend1_body c h s)) = 212.
Proof.
  intros (H4 & _ & Hi & _) Hv Ht Hs. pose proof (skin1_length h s Hs) as Hk. unfold extend1_body.
  destruct (valid_ipv4 _ H4 (extend1_valid_ap c Ht Hv)) as (v & -> & Hr & Hp). cbn -[zlen Z.pow set_uint32 set_uint16]. split; [done|].
  rewrite !zlen_app, zlen_uint32, zlen_uint16. unfold zlen. rewrite Hk, Hi. done.
Qed.

Lemma extend1_format_ok (opt : Z) (latest : option (list bytes)) (c : extend_cell) (t h : Z) (s : bytes) : extend_ok c -> extend_valid c = true ->
  extend_type c = RELAY_COMMAND_EXTEND -> ec_create c = create_with t h s -> old_handshake h s ->
  extend_cell_format opt latest c = Ok (RELAY_COMMAND_EXTEND, 212, relay_payload (cd_text (extend1_body c h s))).
Proof.
  intros Hc Hv Ht Hs Ho. assert (Hn : length (set_uint32 (tor_addr_to_ipv4h (ap_addr (orport_ipv4 c)))) = 4%nat) by apply be_bytes_length.
  assert (Hp : length (set_uint16 (ap_port (orport_ipv4 c))) = 2%nat) by apply be_bytes_length. destruct Hc as (_ & _ & Hi & _).
  unfold extend_cell_format. rewrite check_extend_ok, Hv, Ht, Hs by done. cbn [obind negb Z.eqb Pos.eqb RELAY_COMMAND_EXTEND handshake_type onionskin create_with].
  change (Z.to_nat RELAY_PAYLOAD_SIZE) with 498%nat. change ONIONSKIN_SIZE with 505%nat. rewrite store_zero by lia. cbn [obind]. rewrite store_pad by lia. cbn [obind].
  change (Z.to_nat (6 + TAP_ONIONSKIN_CHALLENGE_LEN)) with 192%nat. change (Z.to_nat TAP_ONIONSKIN_CHALLENGE_LEN) with 186%nat. change (Z.to_nat NTOR_ONIONSKIN_LEN) with 84%nat.
  unfold relay_payload. change (Z.to_nat RELAY_PAYLOAD_SIZE) with 498%nat. unfold cd_text, extend1_codec, extend1_body. cbn [e1_ipv4addr e1_port e1_onionskin e1_identity].
  assert (Hmg : length NTOR_CREATE_MAGIC = 16%nat) by done.
  destruct Ho as [[-> Hl]|[-> Hl]]; unfold skin1; cbn [Z.eqb Pos.eqb ONION_HANDSHAKE_TYPE_NTOR ONION_HANDSHAKE_TYPE_TAP].
  - rewrite read_pad_at by done. cbn [obind]. rewrite store_pad by (rewrite ?length_app; lia). cbn [obind]. rewrite store_pad by (rewrite ?length_app; lia). cbn [obind]. by rewrite <- !app_assoc.
  - rewrite store_pad by (rewrite ?length_app; lia). cbn [obind]. rewrite read_pad_at by done. cbn [obind]. rewrite store_pad by (rewrite ?length_app; lia). cbn [obind].
    rewrite store_gap by (rewrite ?length_app; lia). cbn [obind]. rewrite <- !app_assoc, (pad_app 192), Hn, (pad_app (192 - 4)), Hp, <- !app_assoc. done.
Qed.

Definition extend1_seen (c : extend_cell) (h : Z) (s : bytes) : extend_cell :=
  mk_extend RELAY_COMMAND_EXTEND (orport_ipv4 c) unspec_ap (node_id c) (replicate 32 NUL)
    (create_with (if h =? ONION_HANDSHAKE_TYPE_NTOR then CELL_CREATE2 else CELL_CREATE) h s).

Lemma extend1_parse_ok (c : extend_cell) (t h : Z) (s : bytes) : extend_ok c -> extend_valid c = true ->
  extend_type c = RELAY_COMMAND_EXTEND -> ec_create c = create_with t h s -> old_handshake h s -> not_magic CELL_CREATE h s ->
  extend_cell_parse RELAY_COMMAND_EXTEND (relay_payload (cd_text (extend1_body c h s))) 212 = Ok (extend1_seen c h s).
Proof.
  intros Hc Hv Ht Hs Ho Hm. destruct (extend1_body_wf c h s Hc Hv Ht Ho) as (Hw & Hz). unfold extend_cell_parse. rewrite <- Hz at 1.
  rewrite (proj2 (Z.ltb_ge _ _)), <- Hz, read_payload by (rewrite Hz; done). cbn [obind]. rewrite Z.eqb_refl.
  pose proof (cd_parse_ok (extend1_body c h s) [] Hw) as Hp. rewrite app_nil_r in Hp. change extend1_cell_body_parse with (cd_parse (A := extend1_cell_body)). rewrite Hp, Hz. cbn [obind Z.ltb Z.compare].
  assert (Hr : extend_cell_from_extend1_cell_body (extend1_body c h s) = Ok (extend1_seen c h s)).
  { destruct (valid_ipv4 _ (proj1 Hc) (extend1_valid_ap c Ht Hv)) as (v & Ea & _). unfold extend_cell_from_extend1_cell_body, extend1_body, extend1_seen. rewrite Ea. cbn [e1_onionskin e1_ipv4addr e1_port e1_identity ap_addr ap_port tor_addr_to_ipv4h].
    destruct Ho as [[-> Hl]|[-> Hl]]; unfold skin1; cbn [Z.eqb Pos.eqb ONION_HANDSHAKE_TYPE_NTOR ONION_HANDSHAKE_TYPE_TAP].
    - rewrite tor_memeq_ok by (cbn; lia). unfold fast_memeq. rewrite (bool_decide_false _ (Hm eq_refl eq_refl)). cbn [obind Z.eqb negb].
      rewrite <- (app_nil_r s) at 1. rewrite create_cell_init_ok by (unfold zlen; rewrite Hl; done || (change ONIONSKIN_SIZE with 505%nat; lia)). done.
    - unfold pad. rewrite <- app_assoc, magic_ntor. cbn [obind Z.eqb negb]. rewrite drop_at by done.
      rewrite create_cell_init_ok by (unfold zlen; rewrite Hl; done || (change ONIONSKIN_SIZE with 505%nat; lia)). done. }
  rewrite Hr. cbn [obind]. rewrite check_extend_ok by apply Hc. cbn [obind].
  assert (extend_valid (extend1_seen c h s) = true) as ->; [|done]. pose proof (extend1_valid_ap c Ht Hv) as Ha. unfold extend_valid in *. rewrite Ht, Ha in Hv. unfold extend1_seen.
  cbn [extend_type orport_ipv4 orport_ipv6 node_id ec_create]. rewrite Ha. cbn [orb] in *. destruct (is_zero (node_id c)); [done|].
  destruct Ho as [[-> Hl]|[-> Hl]]; unfold check_create_cell, zlen, create_with; cbn [cell_type handshake_type handshake_len]; unfold zlen; rewrite Hl; done.
Qed.

(** ** Any input *)
Lemma create_init_total (t h n : Z) (p : bytes) : 0 <= n -> n <= zlen p -> n <= 505 ->
  exists s rest, p = s ++ rest /\ zlen s = n /\ (length s <= ONIONSKIN_SIZE)%nat /\ create_cell_init t h n p = Ok (create_with t h s).
Proof.
  intros H0 H1 H2. destruct (read_array (Z.to_nat n) p ltac:(lia)) as (s & rest & Hs & ->). assert (zlen s = n) by (unfold zlen; lia).
  exists s, rest. split; [done|]. split; [done|]. split; [change ONIONSKIN_SIZE with 505%nat; lia|]. apply create_cell_init_ok; [done|]. change ONIONSKIN_SIZE with 505%nat. lia.
Qed.
Lemma created_of_total (t n : Z) (p : bytes) : 0 <= n -> n <= zlen p -> n <= 507 ->
  exists s, zlen s = n /\ created_of t n p = Ok (created_with t s).
Proof.
  intros H0 H1 H2. destruct (read_array (Z.to_nat n) p ltac:(lia)) as (s & rest & Hs & ->). assert (zlen s = n) by (unfold zlen; lia).
  exists s. split; [done|]. apply created_of_ok; [done|]. change REPLY_SIZE with 507%nat. lia.
Qed.

Lemma created_of_take (t n : Z) (p : bytes) : 0 <= n -> n <= zlen p -> n <= 507 -> created_of t n p = Ok (created_with t (take (Z.to_nat n) p)).
Proof.
  intros H0 H1 H2. destruct (read_array (Z.to_nat n) p ltac:(lia)) as (s & rest & Hs & ->). assert (zlen s = n) by (unfold zlen; lia).
  rewrite take_app_length' by done. apply created_of_ok; [done|]. change REPLY_SIZE with 507%nat. lia.
Qed.

(** Handshakes that a CREATE cell can carry. *)
Definition create_ok (k : create_cell) : Prop :=
  exists t h s, k = create_with t h s /\ (length s <= ONIONSKIN_SIZE)%nat /\ 0 <= h < 2 ^ 16 /\ ~ (t = CELL_CREATE2 /\ h = ONION_HANDSHAKE_TYPE_FAST) /\ not_magic t h s.

Lemma read_u16 (s : bytes) : 2 <= zlen s -> exists v, get_uint16 s = Ok v /\ 0 <= v < 2 ^ 16.
Proof. intros H. destruct (read_uint16 s H) as (v & rest & Hv & ->). exists v. by rewrite get_uint16_app. Qed.

Lemma zlen_drop (n : nat) (s : bytes) : zlen (drop n s) = zlen s - Z.min (Z.of_nat n) (zlen s).
Proof. unfold zlen. rewrite length_drop. lia. Qed.

Lemma create_parse_total (c : cell) : length (payload c) = 509%nat ->
  create_cell_parse c = Err \/ exists k, create_cell_parse c = Ok k /\ create_ok k /\ check_create_cell k false = true /\ cell_type k = command c.
Proof.
  intros Hp. assert (Hz : zlen (payload c) = 509) by (unfold zlen; lia). unfold create_cell_parse.
  assert (Hd : forall k, create_ok k -> cell_type k = command c -> (let* c0 := Ok k in if check_create_cell c0 false then Ok c0 else Err) = Err \/
    exists k0, (let* c0 := Ok k in if check_create_cell c0 false then Ok c0 else Err) = Ok k0 /\ create_ok k0 /\ check_create_cell k0 false = true /\ cell_type k0 = command c).
  { intros k Hk Ht. cbn [obind]. destruct (check_create_cell k false) eqn:E; [right; by exists k|by left]. }
  destruct (Z.eqb_spec (command c) CELL_CREATE) as [Ec|]; [|destruct (Z.eqb_spec (command c) CELL_CREATE_FAST) as [Ec|]; [|destruct (Z.eqb_spec (command c) CELL_CREATE2) as [Ec|]; [|by left]]].
  - rewrite tor_memeq_ok by (rewrite ?Hp; cbn; lia). cbn [obind]. destruct (fast_memeq (payload c) NTOR_CREATE_MAGIC 16) eqn:Em; cbn [Z.eqb negb].
    + destruct (create_init_total CELL_CREATE ONION_HANDSHAKE_TYPE_NTOR NTOR_ONIONSKIN_LEN (drop 16 (payload c))) as (s & rest & _ & Hs & Hl & E); [done|rewrite zlen_drop, Hz; done|done|].
      rewrite E. apply Hd; [|done]. exists CELL_CREATE, ONION_HANDSHAKE_TYPE_NTOR, s. split_and!; try done. by intros [H _].
    + destruct (create_init_total CELL_CREATE ONION_HANDSHAKE_TYPE_TAP TAP_ONIONSKIN_CHALLENGE_LEN (payload c)) as (s & rest & Es & Hs & Hl & E); [done|rewrite Hz; done|done|].
      rewrite E. apply Hd; [|done]. exists CELL_CREATE, ONION_HANDSHAKE_TYPE_TAP, s. split_and!; try done; [by intros [H _]|]. intros _ _ Hm.
      unfold fast_memeq in Em. rewrite Es, take_app_le, Hm in Em by (unfold zlen, TAP_ONIONSKIN_CHALLENGE_LEN in Hs; lia). done.
  - destruct (create_init_total CELL_CREATE_FAST ONION_HANDSHAKE_TYPE_FAST CREATE_FAST_LEN (payload c)) as (s & rest & Es & Hs & Hl & E); [done|rewrite Hz; done|done|].
    rewrite E. apply Hd; [|done]. exists CELL_CREATE_FAST, ONION_HANDSHAKE_TYPE_FAST, s. split_and!; try done; by intros [H _].
  - unfold parse_create2_payload, CELL_PAYLOAD_SIZE. change (509 <? 4) with false. cbv iota.
    destruct (read_u16 (payload c) ltac:(lia)) as (h & -> & Hh). cbn [obind]. destruct (read_u16 (drop 2 (payload c)) ltac:(rewrite zlen_drop; lia)) as (m & -> & Hn). cbn [obind].
    destruct (Z.ltb_spec (509 - 4) m); [by left|]. cbn [orb]. destruct (Z.eqb_spec h ONION_HANDSHAKE_TYPE_FAST); [by left|].
    destruct (create_init_total CELL_CREATE2 h m (drop 4 (payload c))) as (s & rest & Es & Hs & Hl & E); [lia|rewrite zlen_drop; lia|lia|].
    rewrite E. apply Hd; [|done]. exists CELL_CREATE2, h, s. split_and!; try done; unfold not_magic; tauto || done.
Qed.

Lemma created_parse_total (c : cell) : length (payload c) = 509%nat -> known_created (command c) ->
  created_cell_parse c = Err \/ exists s, created_cell_parse c = Ok (created_with (command c) s) /\ check_created_cell (created_with (command c) s) = true /\
    (command c = CELL_CREATED -> zlen s = 148).
Proof.
  intros Hp Hk. assert (Hz : zlen (payload c) = 509) by (unfold zlen; lia). unfold created_cell_parse. destruct Hk as [->|[->| ->]].
  - destruct (created_of_total CELL_CREATED TAP_ONIONSKIN_REPLY_LEN (payload c)) as (s & Hs & E); [done|by rewrite Hz|done|].
    change (CELL_CREATED =? CELL_CREATED) with true. cbv iota. rewrite E. cbn [obind]. destruct (check_created_cell (created_with CELL_CREATED s)) eqn:Ek; [right; by exists s|by left].
  - destruct (created_of_total CELL_CREATED_FAST CREATED_FAST_LEN (payload c)) as (s & Hs & E); [done|by rewrite Hz|done|].
    change (CELL_CREATED_FAST =? CELL_CREATED) with false. change (CELL_CREATED_FAST =? CELL_CREATED_FAST) with true. cbv iota. rewrite E. cbn [obind].
    destruct (check_created_cell (created_with CELL_CREATED_FAST s)) eqn:Ek; [right; by exists s|by left].
  - change (CELL_CREATED2 =? CELL_CREATED) with false. change (CELL_CREATED2 =? CELL_CREATED_FAST) with false. change (CELL_CREATED2 =? CELL_CREATED2) with true. cbv iota.
    destruct (read_u16 (payload c) ltac:(lia)) as (n & -> & Hn). cbn [obind]. unfold CELL_PAYLOAD_SIZE. destruct (Z.ltb_spec (509 - 2) n); [by left|].
    destruct (created_of_total CELL_CREATED2 n (drop 2 (payload c))) as (s & Hs & E); [lia|rewrite zlen_drop; lia|lia|].
    rewrite E. cbn [obind]. destruct (check_created_cell (created_with CELL_CREATED2 s)) eqn:Ek; [right; by exists s|by left].
Qed.

(** What the loop over link specifiers keeps: fields are of their type, those not found are as at the start, and the specifiers found, written
    out again, are no longer than those read. *)
Definition found_size (f : found) : Z :=
  (if found_ipv4 f then 8 else 0) + (if found_ipv6 f then 20 else 0) + (if found_rsa_id f then 22 else 0) + (if found_ed_id f then 34 else 0).
Definition found_inv (f : found) (n : Z) : Prop :=
  let c := found_cell f in
  extend_ok c /\ extend_type c = RELAY_COMMAND_EXTEND2 /\ ec_create c = create_zero /\ found_size f <= n /\
  (found_ipv4 f = true \/ orport_ipv4 c = unspec_ap) /\ (found_ipv6 f = true \/ orport_ipv6 c = unspec_ap) /\
  (found_ed_id f = true \/ ed_pubkey c = replicate 32 NUL).

Lemma zlen_ls_text (ls : link_specifier) : ls_wf ls -> zlen (ls_text ls) = 2 + ls_len ls.
Proof. intros H. destruct (ls_wf_facts ls H) as (_ & _ & E & _). unfold ls_text. rewrite !zlen_app, !zlen_uint8. lia. Qed.

Lemma take_spec_total (f : found) (n : Z) (ls : link_specifier) : ls_wf ls -> found_inv f n ->
  take_spec f ls = Err \/ exists f', take_spec f ls = Ok f' /\ found_inv f' (n + zlen (ls_text ls)).
Proof.
  intros Hw (Hc & Ht & Hk & Hn & H4 & H6 & He). rewrite (zlen_ls_text ls Hw).
  destruct f as [f4 f6 fr fe [t a4 a6 id ed c]]. unfold found_inv, found_size, extend_ok in *.
  cbn [found_ipv4 found_ipv6 found_rsa_id found_ed_id found_cell extend_type orport_ipv4 orport_ipv6 node_id ed_pubkey ec_create] in *. destruct Hc as (C4 & C6 & Ci & Ce).
  destruct Hw as [a p Ha Hp|a p Ha Hp|k Hi|k Hi|u s Hu Hs].
  - unfold take_spec, ls_ipv4. cbn [ls_type ls_len un_ipv4_addr un_ipv4_port]. rewrite Z.eqb_refl. right. destruct f4; eexists; (split; [reflexivity|]);
      cbn [found_ipv4 found_ipv6 found_rsa_id found_ed_id found_cell extend_type orport_ipv4 orport_ipv6 node_id ed_pubkey ec_create]; split_and!; try done; try lia; by left.
  - unfold take_spec, ls_ipv6. cbn [ls_type ls_len un_ipv6_addr un_ipv6_port]. change (LS_IPV6 =? LS_IPV4) with false. rewrite Z.eqb_refl. right. destruct f6; eexists; (split; [reflexivity|]);
      cbn [found_ipv4 found_ipv6 found_rsa_id found_ed_id found_cell extend_type orport_ipv4 orport_ipv6 node_id ed_pubkey ec_create]; split_and!; try done; try lia; by left.
  - unfold take_spec, ls_legacy. cbn [ls_type ls_len un_legacy_id]. change (LS_LEGACY_ID =? LS_IPV4) with false. change (LS_LEGACY_ID =? LS_IPV6) with false. rewrite Z.eqb_refl.
    destruct fr; [by left|]. right. eexists. split; [reflexivity|]. cbn [found_ipv4 found_ipv6 found_rsa_id found_ed_id found_cell extend_type orport_ipv4 orport_ipv6 node_id ed_pubkey ec_create]. split_and!; try done; lia.
  - unfold take_spec, ls_ed25519. cbn [ls_type ls_len un_ed25519_id]. change (LS_ED25519_ID =? LS_IPV4) with false. change (LS_ED25519_ID =? LS_IPV6) with false. change (LS_ED25519_ID =? LS_LEGACY_ID) with false. rewrite Z.eqb_refl.
    destruct fe; [by left|]. right. eexists. split; [reflexivity|]. cbn [found_ipv4 found_ipv6 found_rsa_id found_ed_id found_cell extend_type orport_ipv4 orport_ipv6 node_id ed_pubkey ec_create]. split_and!; try done; try lia; by left.
  - right. unfold take_spec, ls_other, LS_IPV4, LS_IPV6, LS_LEGACY_ID, LS_ED25519_ID. cbn [ls_type ls_len]. rewrite !(proj2 (Z.eqb_neq u _)) by lia. eexists. split; [reflexivity|].
    cbn [found_ipv4 found_ipv6 found_rsa_id found_ed_id found_cell extend_type orport_ipv4 orport_ipv6 node_id ed_pubkey ec_create]. pose proof (zlen_nonneg s). split_and!; try done; lia.
Qed.

Lemma take_specs_total (l : list link_specifier) : forall (f : found) (n : Z), Forall cd_wf l -> found_inv f n ->
  take_specs (length l) l f = Err \/ exists f', take_specs (length l) l f = Ok f' /\ found_inv f' (n + zlen (array_text l)).
Proof.
  induction l as [|ls l IH]; intros f n Hw Hf; [right; exists f; split; [done|]; unfold array_text; cbn; by rewrite Z.add_0_r|].
  inversion Hw as [|? ? H1 H2]; subst. cbn [length take_specs]. destruct (take_spec_total f n ls H1 Hf) as [->|(f1 & -> & Hf1)]; [by left|]. cbn [obind].
  destruct (IH f1 _ H2 Hf1) as [->|(f2 & -> & Hf2)]; [by left|right]. exists f2. split; [done|].
  unfold array_text in *. cbn [map concat]. change (cd_text ls) with (ls_text ls). rewrite zlen_app, Z.add_assoc. done.
Qed.

(** Written out again, a cell is no longer than what was found. *)
Lemma specs_size (f : found) (n : Z) : found_inv f n -> found_rsa_id f = true -> zlen (array_text (ec_specs true (found_cell f))) <= n.
Proof.
  intros ((C4 & C6 & Ci & Ce) & _ & _ & Hn & H4 & H6 & He) Hr. etransitivity; [|exact Hn]. unfold found_size. rewrite Hr.
  assert (E4 : valid_ap (orport_ipv4 (found_cell f)) = true -> found_ipv4 f = true) by (destruct H4 as [->| ->]; done).
  assert (E6 : valid_ap (orport_ipv6 (found_cell f)) = true -> found_ipv6 f = true) by (destruct H6 as [->| ->]; done).
  assert (Ee : is_zero (ed_pubkey (found_cell f)) = false -> found_ed_id f = true) by (destruct He as [->| ->]; done).
  unfold ec_specs, array_text. rewrite !map_app, !concat_app. cbn [andb].
  destruct (valid_ap (orport_ipv4 (found_cell f))) eqn:V4, (is_zero (ed_pubkey (found_cell f))), (valid_ap (orport_ipv6 (found_cell f))) eqn:V6;
    try rewrite E4 by done; try rewrite E6 by done; try rewrite Ee by done;
    try (destruct (valid_ipv6 _ C6 V6) as (b & -> & Hb & _)); cbn [map concat negb]; unfold cd_text, link_specifier_codec, ls_text; cbn -[zlen set_uint8 set_uint16 set_uint32];
    destruct (found_ipv4 f), (found_ipv6 f), (found_ed_id f); zw.
Qed.

Lemma found_start : found_inv (mk_found false false false false (extend_zero RELAY_COMMAND_EXTEND2)) 0.
Proof.
  unfold found_inv. cbn [found_cell found_ipv4 found_ipv6 found_ed_id extend_zero orport_ipv4 orport_ipv6 ed_pubkey extend_type ec_create].
  split; [by repeat split|]. split_and!; try done; by right.
Qed.

Lemma extend2_body_total (x : extend2_cell_body) : extend2_wf x ->
  extend_cell_from_extend2_cell_body x = Err \/
  exists k h s, extend_cell_from_extend2_cell_body x = Ok k /\ extend_ok k /\ extend_type k = RELAY_COMMAND_EXTEND2 /\ 0 <= h < 2 ^ 16 /\
    (length s <= ONIONSKIN_SIZE)%nat /\ ec_create k = create_with CELL_CREATE2 h s /\ zlen (extend2_text (ec_body true k s)) <= zlen (extend2_text x).
Proof.
  intros (Hn & En & Hl & He & Hc2). unfold extend_cell_from_extend2_cell_body. destruct (e2_create2 x) as [[h n s e]|] eqn:Ex; [|done].
  assert (E : Z.to_nat (e2_n_spec x) = length (e2_ls x)) by (unfold zlen in En; lia). rewrite E.
  destruct (take_specs_total (e2_ls x) _ 0 Hl found_start) as [->|(f & -> & Hf)]; [by left|]. cbn [obind]. destruct (found_rsa_id f) eqn:Er; [|by left]. cbn [negb].
  destruct (negb (found_ipv4 f) && negb (found_ipv6 f)); [by left|]. cbn [get obind].
  destruct Hc2 as (Hh & Hn2 & E2 & Hce). cbn [c2_handshake_type c2_handshake_len c2_handshake_data c2_error] in *. subst n e.
  destruct (Nat.leb_spec (length s) ONIONSKIN_SIZE) as [Hs|Hs].
  - rewrite create_of_body_ok by done. cbn [obind]. pose proof (specs_size f _ Hf Er) as Hz. destruct Hf as (Hok & Ht & _). destruct (found_cell f) as [t a4 a6 id ed k]. right.
    eexists _, h, s. split; [reflexivity|]. cbn [extend_type ec_create]. do 5 (split; [done|]). rewrite Z.add_0_l in Hz.
    unfold extend2_text, ec_body. cbn [e2_n_spec e2_ls e2_create2 ec_create handshake_type create_with]. rewrite Ex, !zlen_app, !zlen_uint8.
    change (ec_specs true _) with (ec_specs true (mk_extend t a4 a6 id ed k)). lia.
  - left. unfold create_cell_from_create2_cell_body. cbn [c2_handshake_len]. by rewrite (proj2 (Z.ltb_lt _ _)) by (unfold zlen; lia).
Qed.

Lemma extend1_body_total (x : extend1_cell_body) : cd_wf x ->
  exists h s, old_handshake h s /\ not_magic CELL_CREATE h s /\
    extend_cell_from_extend1_cell_body x = Ok (mk_extend RELAY_COMMAND_EXTEND (mk_ap (TA_INET (e1_ipv4addr x)) (e1_port x)) unspec_ap (e1_identity x) (replicate 32 NUL)
      (create_with (if h =? ONION_HANDSHAKE_TYPE_NTOR then CELL_CREATE2 else CELL_CREATE) h s)).
Proof.
  intros (Ha & Hp & Hk & Hi & He). unfold extend_cell_from_extend1_cell_body. rewrite tor_memeq_ok by (cbn; lia). cbn [obind].
  assert (Hz : zlen (e1_onionskin x) = 186) by (unfold zlen; lia). destruct (fast_memeq (e1_onionskin x) NTOR_CREATE_MAGIC 16) eqn:Em; cbn [Z.eqb negb].
  - destruct (create_init_total CELL_CREATE2 ONION_HANDSHAKE_TYPE_NTOR NTOR_ONIONSKIN_LEN (drop 16 (e1_onionskin x))) as (s & rest & _ & Hs & Hl & E); [done|rewrite zlen_drop, Hz; done|done|].
    rewrite E. exists ONION_HANDSHAKE_TYPE_NTOR, s. split; [right; split; [done|]; unfold zlen, NTOR_ONIONSKIN_LEN in Hs; lia|]. split; [by intros _ H|done].
  - destruct (create_init_total CELL_CREATE ONION_HANDSHAKE_TYPE_TAP TAP_ONIONSKIN_CHALLENGE_LEN (e1_onionskin x)) as (s & rest & Es & Hs & Hl & E); [done|by rewrite Hz|done|].
    rewrite E. exists ONION_HANDSHAKE_TYPE_TAP, s. assert (length s = 186%nat) by (unfold zlen, TAP_ONIONSKIN_CHALLENGE_LEN in Hs; lia). split; [by left|]. split; [|done].
    intros _ _ Hm. unfold fast_memeq in Em. by rewrite Es, take_app_le, Hm in Em by lia.
Qed.

Lemma extend_parse_total (cmd len : Z) (p : bytes) : 0 <= len -> RELAY_PAYLOAD_SIZE <= zlen p ->
  extend_cell_parse cmd p len = Err \/
  exists k h s, extend_cell_parse cmd p len = Ok k /\ extend_ok k /\ extend_valid k = true /\ extend_type k = cmd /\ 0 <= h < 2 ^ 16 /\ (length s <= ONIONSKIN_SIZE)%nat /\
    ((cmd = RELAY_COMMAND_EXTEND /\ old_handshake h s /\ not_magic CELL_CREATE h s /\ k = extend1_seen k h s) \/
     (cmd = RELAY_COMMAND_EXTEND2 /\ ec_create k = create_with CELL_CREATE2 h s /\ zlen (extend2_text (ec_body true k s)) <= RELAY_PAYLOAD_SIZE)).
Proof.
  intros H0 Hl. unfold extend_cell_parse. destruct (Z.ltb_spec RELAY_PAYLOAD_SIZE len); [by left|].
  destruct (read_array (Z.to_nat len) p ltac:(lia)) as (input & rest & Hin & ->). rewrite read_bytes_app by done. cbn [obind].
  assert (Hfin : forall k, length (node_id k) = 20%nat -> (let* ok := check_extend_cell k in if ok then Ok k else Err) = (if extend_valid k then Ok k else Err)).
  { intros k Hk. by rewrite check_extend_ok by done. }
  destruct (Z.eqb_spec cmd RELAY_COMMAND_EXTEND) as [->|]; [|destruct (Z.eqb_spec cmd RELAY_COMMAND_EXTEND2) as [->|]; [|by left]].
  - change extend1_cell_body_parse with (cd_parse (A := extend1_cell_body)). destruct (cd_parse_total (A := extend1_cell_body) input) as [(r & Hr & ->)|(x & rest' & Hw & Es & ->)]; [by left|].
    cbn [obind]. rewrite (proj2 (Z.ltb_ge _ _)) by apply zlen_nonneg. destruct (extend1_body_total x Hw) as (h & s & Ho & Hm & E). rewrite E. cbn [obind]. destruct Hw as (Ha & Hp & Hk & Hi & He).
    rewrite Hfin by done. destruct (extend_valid _) eqn:Ev; [right|by left]. eexists _, h, s. split; [done|]. split; [split_and!; [by apply ap_ok_inet|apply ap_ok_unspec|done|done]|].
    split; [exact Ev|]. split; [done|]. split; [destruct Ho as [[-> _]|[-> _]]; done|]. split; [change ONIONSKIN_SIZE with 505%nat; destruct Ho as [[_ ?]|[_ ?]]; lia|].
    left. done.
  - change extend2_cell_body_parse with (cd_parse (A := extend2_cell_body)). destruct (cd_parse_total (A := extend2_cell_body) input) as [(r & Hr & ->)|(x & rest' & Hw & Es & ->)]; [by left|].
    cbn [obind]. rewrite (proj2 (Z.ltb_ge _ _)) by apply zlen_nonneg. destruct (extend2_body_total x Hw) as [->|(k & h & s & -> & Hok & Ht & Hh & Hs & Ek & Hz)]; [by left|]. cbn [obind].
    rewrite Hfin by apply Hok. destruct (extend_valid k) eqn:Ev; [right|by left]. exists k, h, s. do 6 (split; [done|]). right. do 2 (split; [done|]).
    change (cd_text x) with (extend2_text x) in Es. assert (zlen input <= RELAY_PAYLOAD_SIZE) by (unfold zlen in *; lia). rewrite Es, zlen_app in H1. pose proof (zlen_nonneg rest'). lia.
Qed.

(** Where the reply of an EXTENDED cell is read: within the length that is given, unless this is the length of an EXTENDED2 cell and less than two. *)
Definition extended_read (cmd len : Z) (p s : bytes) : Prop :=
  (cmd = RELAY_COMMAND_EXTENDED -> len = 148 /\ s = take 148 p) /\
  (cmd = RELAY_COMMAND_EXTENDED2 -> get_uint16 p = Ok (zlen s) /\ s = take (length s) (drop 2 p) /\ (2 <= len -> 2 + zlen s <= len)).

Lemma extended_parse_total (cmd len : Z) (p : bytes) : length p = 498%nat -> 0 <= len ->
  extended_cell_parse cmd p len = Err \/
  exists t s, (t = CELL_CREATED \/ t = CELL_CREATED2) /\ cmd = extended_command t /\ (t = CELL_CREATED -> zlen s = 148) /\ extended_cell_parse cmd p len = Ok (mk_extended cmd (created_with t s)) /\
    check_created_cell (created_with t s) = true /\ extended_read cmd len p s.
Proof.
  intros Hp Hl. assert (Hz : zlen p = 498) by (unfold zlen; lia). unfold extended_cell_parse. destruct (Z.ltb_spec RELAY_PAYLOAD_SIZE len) as [|Hl2]; [by left|]. change RELAY_PAYLOAD_SIZE with 498 in Hl2.
  destruct (Z.eqb_spec cmd RELAY_COMMAND_EXTENDED) as [->|]; [|destruct (Z.eqb_spec cmd RELAY_COMMAND_EXTENDED2) as [->|]; [|by left]].
  - destruct (Z.eqb_spec len TAP_ONIONSKIN_REPLY_LEN) as [->|]; cbn [negb]; [|by left]. rewrite (created_of_take CELL_CREATED TAP_ONIONSKIN_REPLY_LEN p) by (rewrite ?Hz; done). cbn [obind].
    destruct (check_extended_cell _) eqn:E; [right|by left]. exists CELL_CREATED, (take 148 p). split; [by left|]. split; [done|].
    split; [intros _; unfold zlen; rewrite length_take; lia|]. split; [done|]. split; [by apply andb_true_iff in E as [_ E]|]. by split.
  - destruct (read_u16 p ltac:(lia)) as (m & Hu & Hm). rewrite Hu. cbn [obind]. destruct (Z.ltb_spec (RELAY_PAYLOAD_SIZE - 2) m) as [|Hm2]; [by left|]. change (RELAY_PAYLOAD_SIZE - 2) with 496 in Hm2. cbn [orb].
    destruct (Z.ltb_spec (wrap 64 (len - 2)) m) as [|Hw]; [by left|].
    rewrite (created_of_take CELL_CREATED2 m (drop 2 p)) by (rewrite ?zlen_drop; lia). cbn [obind].
    destruct (check_extended_cell _) eqn:E; [right|by left]. set (s := take (Z.to_nat m) (drop 2 p)) in *.
    assert (Hs : zlen s = m) by (unfold s, zlen; rewrite length_take, length_drop; lia).
    exists CELL_CREATED2, s. split; [by right|]. do 3 (split; [done|]). split; [by apply andb_true_iff in E as [_ E]|]. split; [done|]. intros _. rewrite Hs. split; [done|].
    split; [unfold s; rewrite length_take, length_drop; f_equal; lia|]. intros H2. unfold wrap in Hw. rewrite Z.mod_small in Hw by lia. lia.
Qed.

(** ** The way of a handshake *)

(** A client writes an EXTEND cell, a relay reads it and writes a CREATE cell, the next relay reads that. *)
Definition handshake_trip (opt_extend : Z) (latest : option (list bytes)) (ec : extend_cell) (c : cell) : outcome create_cell :=
  let* (cmd, len, p) := extend_cell_format opt_extend latest ec in
  let* k := extend_cell_parse cmd p len in
  let* c' := create_cell_format_relayed c (ec_create k) in
  create_cell_parse c'.
(** That relay writes a CREATED cell, the first one makes an EXTENDED cell of it, the client reads that. *)
Definition reply_trip (created : created_cell) (c : cell) : outcome extended_cell :=
  let* c' := created_cell_format c created in
  let* (cmd, len, p) := created_to_extended c' in
  extended_cell_parse cmd p len.

Lemma should_include_ok (opt_extend : Z) (latest : option (list bytes)) : exists i, should_include_ed25519_id_extend_cells opt_extend latest = Ok i.
Proof.
  unfold should_include_ed25519_id_extend_cells. destruct (negb _); [by eexists|].
  destruct (get_param_range latest (bs "ExtendByEd25519ID") 0 0 1) as (v & -> & _); [lia..|]. by eexists.
Qed.

Lemma old_check (t h : Z) (s : bytes) : t = CELL_CREATE \/ t = CELL_CREATE2 -> old_handshake h s -> check_create_cell (create_with t h s) false = true.
Proof. intros [->| ->] [[-> Hl]|[-> Hl]]; unfold check_create_cell, create_with, zlen; cbn [cell_type handshake_type handshake_len]; rewrite Hl; done. Qed.

(** A known handshake in a CREATE cell gets to the next relay. *)
Lemma create_hop (c : cell) (t h : Z) (s : bytes) (relayed : bool) : t = CELL_CREATE \/ t = CELL_CREATE2 -> old_handshake h s -> not_magic t h s ->
  (let* c' := create_cell_format_impl c (create_with t h s) relayed in create_cell_parse c') = Ok (create_with t h s).
Proof.
  intros Ht Ho Hm. pose proof (old_check t h s Ht Ho) as Hk. assert (Hl : (length s <= ONIONSKIN_SIZE)%nat) by (change ONIONSKIN_SIZE with 505%nat; destruct Ho as [[_ ?]|[_ ?]]; lia).
  rewrite create_format_ok; [|destruct relayed; [|done]; destruct Ht as [->| ->], Ho as [[-> E]|[-> E]]; unfold check_create_cell, create_with, zlen; cbn [cell_type handshake_type handshake_len]; by rewrite E|done].
  cbn [obind]. apply create_parse_ok; [done|done| | |done]; destruct Ho as [[-> _]|[-> _]]; try done; by intros [_ ?].
Qed.

Lemma reply_trip_ok (t : Z) (s : bytes) (c : cell) : t = CELL_CREATED \/ t = CELL_CREATED2 -> check_created_cell (created_with t s) = true ->
  reply_trip (created_with t s) c = Ok (mk_extended (extended_command t) (created_with t (reply_seen t s))).
Proof.
  intros Ht Hk. assert (Hkn : known_created t) by (unfold known_created; tauto). unfold reply_trip, created_to_extended. rewrite created_format_ok by done. cbn [obind].
  rewrite created_parse_ok by done. cbn [obind]. cbn [created_type created_with]. fold (extended_command t).
  assert (Hk2 : check_created_cell (created_with t (reply_seen t s)) = true /\ reply_seen t (reply_seen t s) = reply_seen t s).
  { destruct Ht as [->| ->]; [|done]. destruct (created_len CELL_CREATED s Hkn Hk) as (_ & H1 & _). assert (length s <= 148)%nat by (destruct (H1 eq_refl); unfold zlen in *; lia).
    unfold reply_seen. change (CELL_CREATED =? CELL_CREATED) with true. cbv iota. change (Z.to_nat TAP_ONIONSKIN_REPLY_LEN) with 148%nat. split; [|by apply pad_twice].
    unfold check_created_cell, created_with. cbn [created_type reply_len]. by rewrite zlen_pad by lia. }
  destruct Hk2 as (Hk2 & Er). rewrite extended_format_ok by done. cbn [obind]. rewrite extended_parse_ok by done. by rewrite Er.
Qed.

Definition trip_type (ec : extend_cell) (h : Z) : Z :=
  if (extend_type ec =? RELAY_COMMAND_EXTEND) && (h =? ONION_HANDSHAKE_TYPE_TAP) then CELL_CREATE else CELL_CREATE2.

Lemma extend_valid_types (ec : extend_cell) (t h : Z) (s : bytes) : extend_valid ec = true -> ec_create ec = create_with t h s ->
  extend_type ec = RELAY_COMMAND_EXTEND \/ (extend_type ec = RELAY_COMMAND_EXTEND2 /\ t = CELL_CREATE2).
Proof.
  unfold extend_valid. intros Hv E. rewrite E in Hv. cbn [cell_type create_with] in Hv. destruct (Z.eqb_spec (extend_type ec) RELAY_COMMAND_EXTEND); [by left|right].
  destruct (Z.eqb_spec (extend_type ec) RELAY_COMMAND_EXTEND2); destruct (Z.eqb_spec t CELL_CREATE2); try done; rewrite ?andb_false_r in Hv; cbn [orb andb] in Hv; rewrite ?andb_false_r in Hv; done.
Qed.

Lemma handshake_trip_ok (opt_extend : Z) (latest : option (list bytes)) (ec : extend_cell) (t h : Z) (s : bytes) (c : cell) :
  extend_ok ec -> extend_valid ec = true -> ec_create ec = create_with t h s -> old_handshake h s ->
  (extend_type ec = RELAY_COMMAND_EXTEND -> not_magic CELL_CREATE h s) ->
  handshake_trip opt_extend latest ec c = Ok (create_with (trip_type ec h) h s) /\
  (exists cmd len p k, extend_cell_format opt_extend latest ec = Ok (cmd, len, p) /\ length p = 498%nat /\ extend_cell_parse cmd p len = Ok k /\
     node_id k = node_id ec /\ orport_ipv4 k = seen_ap (orport_ipv4 ec) /\ (cmd = RELAY_COMMAND_EXTEND2 -> orport_ipv6 k = seen_ap (orport_ipv6 ec))).
Proof.
  intros Hc Hv He Ho Hm. unfold handshake_trip, trip_type.
  assert (Hl : (length s <= 186)%nat) by (destruct Ho as [[_ ?]|[_ ?]]; lia).
  destruct (extend_valid_types ec t h s Hv He) as [Ht|[Ht ->]]; rewrite Ht.
  - rewrite (extend1_format_ok opt_extend latest ec t h s) by done. cbn [obind]. rewrite (extend1_parse_ok ec t h s) by auto. cbn [obind ec_create extend1_seen].
    change (RELAY_COMMAND_EXTEND =? RELAY_COMMAND_EXTEND) with true. cbn [andb]. split.
    + destruct Ho as [[-> Hs]|[-> Hs]]; (apply create_hop; [by auto|unfold old_handshake; by auto|]); [by auto|by intros _].
    + eexists _, _, _, _. split; [done|]. split.
      * apply pad_length. destruct (extend1_body_wf ec h s Hc Hv Ht Ho) as (_ & Hz). change (Z.to_nat RELAY_PAYLOAD_SIZE) with 498%nat. unfold zlen in Hz. lia.
      * split; [apply (extend1_parse_ok ec t h s); auto|]. split; [done|]. split; [|done]. cbn [orport_ipv4 extend1_seen]. unfold seen_ap. by rewrite (extend1_valid_ap ec Ht Hv).
  - destruct (should_include_ok opt_extend latest) as (i & Hi). assert (Hh : 0 <= h < 2 ^ 16) by (destruct Ho as [[-> _]|[-> _]]; done).
    assert (Hf : zlen (extend2_text (ec_body (negb (i =? 0)) ec s)) <= RELAY_PAYLOAD_SIZE) by (apply ec_body_fits; [done|unfold zlen; lia]).
    rewrite (extend2_format_ok opt_extend i latest ec h s) by done. cbn [obind]. rewrite (extend2_parse_ok _ ec h s) by done. cbn [obind ec_create extend_seen].
    change (RELAY_COMMAND_EXTEND2 =? RELAY_COMMAND_EXTEND) with false. cbn [andb]. rewrite He. split; [by apply create_hop; auto|].
    eexists _, _, _, _. split; [done|]. split.
    + apply pad_length. change (Z.to_nat RELAY_PAYLOAD_SIZE) with 498%nat. change RELAY_PAYLOAD_SIZE with 498 in Hf. unfold zlen in *. lia.
    + split; [by apply (extend2_parse_ok _ ec h s)|]. done.
Qed.

(** C17: A circuit is extended as the protocol wants it, whatever cells it takes. Let a client's EXTEND or EXTEND2 cell, with an address of a usable
    family, carry a TAP or an ntor handshake. Then the relay that gets the cell reads the identity it is meant to extend to and the usable addresses,
    and the relay after it, to which it sends a CREATE cell, gets the very bytes of the handshake, with its type - in a CREATE cell for TAP in an old
    EXTEND cell, and in a CREATE2 cell otherwise, as ntor handshakes are recognised by a magic string; a TAP handshake in an old cell must not begin with it. Every
    reply that the last relay may send back reaches the client: exactly in CREATED2 and EXTENDED2 cells, and filled with zeros to the length of a
    TAP reply in old ones. *)
Theorem circuit_extension_delivers (opt_extend : Z) (latest : option (list bytes)) (ec : extend_cell) (t h : Z) (s : bytes) (c : cell) :
  extend_ok ec -> extend_valid ec = true -> ec_create ec = create_with t h s -> old_handshake h s ->
  (extend_type ec = RELAY_COMMAND_EXTEND -> not_magic CELL_CREATE h s) ->
  handshake_trip opt_extend latest ec c = Ok (create_with (trip_type ec h) h s) /\
  (exists cmd len p k, extend_cell_format opt_extend latest ec = Ok (cmd, len, p) /\ length p = 498%nat /\ extend_cell_parse cmd p len = Ok k /\
     node_id k = node_id ec /\ orport_ipv4 k = seen_ap (orport_ipv4 ec) /\ (cmd = RELAY_COMMAND_EXTEND2 -> orport_ipv6 k = seen_ap (orport_ipv6 ec))) /\
  (forall rt r, rt = CELL_CREATED \/ rt = CELL_CREATED2 -> check_created_cell (created_with rt r) = true ->
     reply_trip (created_with rt r) c = Ok (mk_extended (extended_command rt) (created_with rt (reply_seen rt r)))).
Proof.
  intros Hc Hv He Ho Hm. destruct (handshake_trip_ok opt_extend latest ec t h s c Hc Hv He Ho Hm) as (H1 & H2). split; [done|]. split; [done|]. intros. by apply reply_trip_ok.
Qed.

Definition ex_skin : bytes := replicate 84 "s"%char.
Definition ex_extend : extend_cell :=
  mk_extend RELAY_COMMAND_EXTEND2 (mk_ap (TA_INET 16909060) 9001) (mk_ap (TA_INET6 (replicate 16 "a"%char)) 0) (replicate 20 "i"%char) (replicate 32 "e"%char)
    (create_with CELL_CREATE2 ONION_HANDSHAKE_TYPE_NTOR ex_skin).
Definition ex_cell : cell := {| circ_id := 7; command := 0; payload := replicate 509 NUL |}.

Theorem circuit_extension_delivers_witness :
  handshake_trip 1 None ex_extend ex_cell = Ok (create_with CELL_CREATE2 ONION_HANDSHAKE_TYPE_NTOR ex_skin) /\
  reply_trip (created_with CELL_CREATED2 (bs "reply")) ex_cell = Ok (mk_extended RELAY_COMMAND_EXTENDED2 (created_with CELL_CREATED2 (bs "reply"))).
Proof.
  destruct (circuit_extension_delivers 1 None ex_extend CELL_CREATE2 ONION_HANDSHAKE_TYPE_NTOR ex_skin ex_cell) as (H1 & _ & H2).
  - split; [by split|]. by split.
  - by vm_compute.
  - reflexivity.
  - by right.
  - done.
  - split; [exact H1|]. apply H2; [by right|by vm_compute].
Defined.

Lemma extend_valid_facts (k : extend_cell) : extend_valid k = true ->
  is_zero (node_id k) = false /\ valid_ap (orport_ipv4 k) || valid_ap (orport_ipv6 k) = true /\ check_create_cell (ec_create k) true = true.
Proof.
  unfold extend_valid. rewrite !andb_true_iff. intros ((((H1 & H2) & _) & _) & H5). split; [by destruct (is_zero (node_id k))|]. split; [|done].
  destruct (valid_ap (orport_ipv4 k)), (valid_ap (orport_ipv6 k)); try done. by rewrite andb_false_r in H2.
Qed.

(** An EXTEND cell that was accepted, written out again. *)
Lemma extend_again (cmd : Z) (k : extend_cell) (h : Z) (s : bytes) : extend_ok k -> extend_valid k = true -> extend_type k = cmd -> 0 <= h < 2 ^ 16 ->
  ((cmd = RELAY_COMMAND_EXTEND /\ old_handshake h s /\ not_magic CELL_CREATE h s /\ k = extend1_seen k h s) \/
   (cmd = RELAY_COMMAND_EXTEND2 /\ ec_create k = create_with CELL_CREATE2 h s /\ zlen (extend2_text (ec_body true k s)) <= RELAY_PAYLOAD_SIZE)) ->
  (exists t, ec_create k = create_with t h s) /\
  exists len' p', extend_cell_format 1 None k = Ok (cmd, len', p') /\
    extend_cell_parse cmd p' len' = Ok (if cmd =? RELAY_COMMAND_EXTEND2 then extend_seen true k else k).
Proof.
  intros Hok Hv Ht Hh [(-> & Ho & Hm & E)|(-> & Ek & Hf)].
  - assert (Ek : ec_create k = create_with (if h =? ONION_HANDSHAKE_TYPE_NTOR then CELL_CREATE2 else CELL_CREATE) h s) by (rewrite E; done).
    split; [by eexists|]. eexists _, _. split; [by apply (extend1_format_ok 1 None k _ h s Hok Hv Ht Ek)|].
    rewrite (extend1_parse_ok k _ h s Hok Hv Ht Ek) by done. change (RELAY_COMMAND_EXTEND =? RELAY_COMMAND_EXTEND2) with false. by rewrite <- E.
  - split; [by eexists|]. eexists _, _. split; [by apply (extend2_format_ok 1 1 None k h s)|]. by apply (extend2_parse_ok true k h s).
Qed.

(** The length of an EXTENDED2 cell of no byte or one byte is not looked at: the difference of lengths that the parser compares with wraps around
    then. A reply of up to 496 bytes is read past the end that the relay cell gives itself, from what follows in the cell, and accepted just as
    if the cell had been full; with two bytes or more, a reply that does not fit into the length given is refused. *)
Theorem short_extended2_accepted (p : bytes) (n len : Z) : length p = 498%nat -> get_uint16 p = Ok n -> n <= 496 -> 0 <= len <= 498 ->
  (len < 2 -> exists s, zlen s = n /\ extended_cell_parse RELAY_COMMAND_EXTENDED2 p len = Ok (mk_extended RELAY_COMMAND_EXTENDED2 (created_with CELL_CREATED2 s)) /\
     p = set_uint16 n ++ s ++ drop (Z.to_nat (2 + n)) p) /\
  (2 <= len < 2 + n -> extended_cell_parse RELAY_COMMAND_EXTENDED2 p len = Err).
Proof.
  intros Hp Hg Hn Hlen. assert (Hz : zlen p = 498) by (unfold zlen; lia). destruct (read_uint16 p ltac:(lia)) as (n' & rest & Hn' & ->).
  rewrite get_uint16_app in Hg by done. injection Hg as ->. rewrite zlen_app, zlen_uint16 in Hz. unfold extended_cell_parse. rewrite get_uint16_app by done. cbn [obind].
  change RELAY_PAYLOAD_SIZE with 498. rewrite (proj2 (Z.ltb_ge _ _)) by lia. change (RELAY_COMMAND_EXTENDED2 =? RELAY_COMMAND_EXTENDED) with false. rewrite Z.eqb_refl.
  rewrite (proj2 (Z.ltb_ge (498 - 2) _)) by lia. cbn [orb]. unfold wrap. split; intros Hl.
  - assert (E : (len - 2) mod 2 ^ 64 = len - 2 + 2 ^ 64) by dlia. rewrite E, (proj2 (Z.ltb_ge _ _)) by lia.
    destruct (read_array (Z.to_nat n) rest ltac:(lia)) as (s & rest' & Hs & ->). assert (zlen s = n) by (unfold zlen; lia). exists s. split; [done|].
    rewrite drop_uint16, created_of_ok by (done || (change REPLY_SIZE with 507%nat; lia)). cbn [obind]. split.
    + unfold check_extended_cell, check_created_cell, created_with. cbn [ex_created extended_type created_type reply_len]. change RELAY_PAYLOAD_SIZE with 498.
      change (CELL_CREATED2 =? CELL_CREATED) with false. change (CELL_CREATED2 =? CELL_CREATED_FAST) with false. rewrite !Z.eqb_refl, (proj2 (Z.leb_le _ _)) by lia. done.
    + rewrite Z2Nat.inj_add by lia. change (Z.to_nat 2) with 2%nat. rewrite <- drop_drop, drop_uint16. by rewrite drop_at.
  - rewrite Z.mod_small by lia. by rewrite (proj2 (Z.ltb_lt _ _)) by lia.
Qed.

Theorem short_extended2_accepted_witness :
  exists s, zlen s = 64 /\ extended_cell_parse RELAY_COMMAND_EXTENDED2 (relay_payload (set_uint16 64 ++ bs "padding of the cell")) 0 =
    Ok (mk_extended RELAY_COMMAND_EXTENDED2 (created_with CELL_CREATED2 s)).
Proof.
  destruct (short_extended2_accepted (relay_payload (set_uint16 64 ++ bs "padding of the cell")) 64 0) as (H & _); [reflexivity|reflexivity|lia|lia|].
  destruct (H ltac:(lia)) as (s & Hs & E & _). by exists s.
Defined.


(** Cells that are accepted: the EXTEND2 cell of a client, the CREATE2 cell made of it, and a CREATED2 and an EXTENDED2 cell with a reply. *)
Definition ex_create2 : cell := default ex_cell (match create_cell_format_relayed ex_cell (ec_create ex_extend) with Ok c => Some c | _ => None end).
Definition ex_created2 : cell := default ex_cell (match created_cell_format ex_cell (created_with CELL_CREATED2 (bs "reply")) with Ok c => Some c | _ => None end).
Definition ex_extend2 : Z * bytes := match extend_cell_format 1 None ex_extend with Ok (_, len, p) => (len, p) | _ => (0, []) end.

