(* ===== verification/ExtendCircuit.v ===== *)
(** * A relay extends a circuit: [feature/relay/circuitbuild_relay.c], [core/or/channel.c], [core/or/circuitbuild.c]

    From an EXTEND cell to the CREATE cell for the next relay: the checks of the request, the choice among the open channels to that relay
    or a new connection, and what happens to the circuits that wait for a connection when it is there. The list of nodes, the map
    of channels by identity and the map of circuit identifiers are values; random numbers and the start of a connection are
    arguments. Circuits are those that other relays and clients build through this one; logging is left out. *)
From stdpp Require Import gmap.
From S2P Require Import Prelude ParseInt DiOps Strings Endian Address Cells RelayCell Sendme CellExtensions LinkSpec CircuitCells.

(** ** Channels *)
Inductive channel_state :=
  CHANNEL_STATE_CLOSED | CHANNEL_STATE_OPENING | CHANNEL_STATE_OPEN | CHANNEL_STATE_MAINT | CHANNEL_STATE_CLOSING | CHANNEL_STATE_ERROR.
#[export] Instance channel_state_eq_dec : EqDecision channel_state.
Proof. solve_decision. Defined.
Inductive circ_id_type_t := CIRC_ID_TYPE_LOWER | CIRC_ID_TYPE_HIGHER | CIRC_ID_TYPE_NEITHER.

(** The OR connection of a channel. *)
Record or_conn := mk_conn { conn_ap : addr_port; canonical_orport : addr_port; conn_is_canonical : bool }.

(** [methods_set]: the pointers to the methods of the channel are not NULL, as after [channel_tls_common_init]. *)
Record channel := mk_channel {
  global_identifier : Z; methods_set : bool; identity_digest : bytes; ed25519_identity : bytes; chan_state : channel_state;
  is_client : bool; is_bad_for_new_circs : bool; is_canonical_to_peer : bool; timestamp_created : Z;
  num_n_circuits : Z; num_p_circuits : Z; wide_circ_ids : bool; circ_id_type : circ_id_type_t; tls_conn : option or_conn
}.

Record extend_info := mk_ei { ei_identity : bytes; ei_ed : bytes; ei_orports : list addr_port }.

Definition channel_condemned (chan : channel) : bool :=
  bool_decide (chan_state chan = CHANNEL_STATE_CLOSING) || bool_decide (chan_state chan = CHANNEL_STATE_CLOSED) || bool_decide (chan_state chan = CHANNEL_STATE_ERROR).
Definition channel_is_open (chan : channel) : bool := bool_decide (chan_state chan = CHANNEL_STATE_OPEN).

Definition channel_tls_is_canonical_method (chan : channel) : bool :=
  match tls_conn chan with Some c => conn_is_canonical c | None => false end.
Definition channel_is_canonical (chan : channel) : outcome bool := tor_assert (methods_set chan) (Ok (channel_tls_is_canonical_method chan)).

Definition channel_tls_matches_target_method (chan : channel) (target : tor_addr) : bool :=
  match tls_conn chan with Some c => tor_addr_eq (ap_addr (conn_ap c)) target | None => false end.
(** Without an address it is a bug and the answer false. *)
Definition channel_matches_target_addr_for_extend (chan : channel) (ipv4 ipv6 : option tor_addr) : outcome bool :=
  tor_assert (methods_set chan) (
  Ok (match ipv4 with Some a => channel_tls_matches_target_method chan a | None => false end
      || match ipv6 with Some a => channel_tls_matches_target_method chan a | None => false end)).

Definition extend_info_has_orport (ei : extend_info) (addr : tor_addr) (port : Z) : bool :=
  existsb (fun ap => tor_addr_eq (ap_addr ap) addr && (ap_port ap =? port)) (ei_orports ei).
Definition channel_tls_matches_extend_info_method (chan : channel) (ei : extend_info) : bool :=
  match tls_conn chan with
  | None => false
  | Some c =>
      let orport := canonical_orport c in
      (negb (tor_addr_is_unspec (ap_addr orport)) && extend_info_has_orport ei (ap_addr orport) (ap_port orport))
      || extend_info_has_orport ei (ap_addr (conn_ap c)) (ap_port (conn_ap c))
  end.
Definition channel_matches_extend_info (chan : channel) (ei : extend_info) : outcome bool :=
  tor_assert (methods_set chan) (Ok (channel_tls_matches_extend_info_method chan ei)).

(** Absent keys match. *)
Definition channel_remote_identity_matches (chan : channel) (rsa_id_digest ed_id : option bytes) : outcome bool :=
  let* rsa := match rsa_id_digest with Some d => tor_memeq d (identity_digest chan) 20 | None => Ok 1 end in
  if rsa =? 0 then Ok false
  else
    let* ed := match ed_id with Some d => tor_memeq d (ed25519_identity chan) 32 | None => Ok 1 end in
    Ok (negb (ed =? 0)).

(** The channels of each identity, the newest first. *)
Abbreviation channel_idmap := (list (bytes * list channel)).
Fixpoint idmap_find (m : channel_idmap) (digest : bytes) : option (list channel) :=
  match m with
  | [] => None
  | (d, l) :: m => if bool_decide (d = digest) then Some l else idmap_find m digest
  end.

Fixpoint first_matching (l : list channel) (rsa_id_digest ed_id : option bytes) : outcome (list channel) :=
  match l with
  | [] => Ok []
  | chan :: l' =>
      let* ok := channel_remote_identity_matches chan rsa_id_digest ed_id in
      if ok then Ok l else first_matching l' rsa_id_digest ed_id
  end.
(** The first channel that matches and those after it in its list. An Ed25519 key of zeros is no key. *)
Definition channel_find_by_remote_identity (m : channel_idmap) (rsa_id_digest : bytes) (ed_id : option bytes) : outcome (list channel) :=
  let* ed_id :=
    match ed_id with
    | Some d => let* z := ed25519_public_key_is_zero d in Ok (if z =? 0 then ed_id else None)
    | None => Ok None
    end in
  match idmap_find m rsa_id_digest with
  | Some l => first_matching l (Some rsa_id_digest) ed_id
  | None => Ok []
  end.

Definition channel_num_circuits (chan : channel) : Z := num_n_circuits chan + num_p_circuits chan.
Definition channel_is_better (a b : channel) : outcome bool :=
  if negb (is_bad_for_new_circs a) && is_bad_for_new_circs b then Ok true
  else if is_bad_for_new_circs a && negb (is_bad_for_new_circs b) then Ok false
  else
    let* a_is_canonical := channel_is_canonical a in
    let* b_is_canonical := channel_is_canonical b in
    Ok (if a_is_canonical && negb b_is_canonical then true
        else if negb a_is_canonical && b_is_canonical then false
        else if is_canonical_to_peer a && negb (is_canonical_to_peer b) then true
        else if negb (is_canonical_to_peer a) && is_canonical_to_peer b then false
        else if timestamp_created a <? timestamp_created b then true
        else if timestamp_created b <? timestamp_created a then false
        else channel_num_circuits b <? channel_num_circuits a).

(** What the walk over the channels keeps. *)
Record walk := mk_walk { best : option channel; n_inprogress_goodaddr : Z; n_old : Z; n_noncanonical : Z }.
Definition walk_start : walk := mk_walk None 0 0 0.

Definition consider (rsa_id_digest : bytes) (ed_id : option bytes) (ipv4 ipv6 : option tor_addr) (w : walk) (chan : channel) : outcome walk :=
  let* same := tor_memeq (identity_digest chan) rsa_id_digest 20 in
  tor_assert (negb (same =? 0)) (
  if channel_condemned chan then Ok w
  else if is_client chan then Ok w
  else
    let* ids := channel_remote_identity_matches chan (Some rsa_id_digest) ed_id in
    if negb ids then Ok w
    else
      let* matches_target := channel_matches_target_addr_for_extend chan ipv4 ipv6 in
      if negb (channel_is_open chan) then
        Ok (if matches_target then mk_walk (best w) (n_inprogress_goodaddr w + 1) (n_old w) (n_noncanonical w) else w)
      else if is_bad_for_new_circs chan then Ok (mk_walk (best w) (n_inprogress_goodaddr w) (n_old w + 1) (n_noncanonical w))
      else
        let* canonical := channel_is_canonical chan in
        if negb canonical && negb matches_target then Ok (mk_walk (best w) (n_inprogress_goodaddr w) (n_old w) (n_noncanonical w + 1))
        else
          match best w with
          | None => Ok (mk_walk (Some chan) (n_inprogress_goodaddr w) (n_old w) (n_noncanonical w))
          | Some b =>
              let* better := channel_is_better chan b in
              Ok (if better then mk_walk (Some chan) (n_inprogress_goodaddr w) (n_old w) (n_noncanonical w) else w)
          end).
Fixpoint walk_channels (rsa_id_digest : bytes) (ed_id : option bytes) (ipv4 ipv6 : option tor_addr) (w : walk) (l : list channel) : outcome walk :=
  match l with
  | [] => Ok w
  | chan :: l =>
      let* w := consider rsa_id_digest ed_id ipv4 ipv6 w chan in
      walk_channels rsa_id_digest ed_id ipv4 ipv6 w l
  end.

(** The channel, the message and whether to launch a connection. This is for a circuit of others: [for_origin_circ] is false. *)
Definition channel_get_for_extend (m : channel_idmap) (rsa_id_digest : bytes) (ed_id : option bytes) (ipv4 ipv6 : option tor_addr)
    : outcome (option channel * bytes * bool) :=
  let* l := channel_find_by_remote_identity m rsa_id_digest ed_id in
  let* w := walk_channels rsa_id_digest ed_id ipv4 ipv6 walk_start l in
  Ok (match best w with
      | Some b => (Some b, bs "Connection is fine; using it.", false)
      | None =>
          if negb (n_inprogress_goodaddr w =? 0) then (None, bs "Connection in progress; waiting.", false)
          else if negb (n_old w =? 0) || negb (n_noncanonical w =? 0) then
            (None, bs "Connections all too old, or too non-canonical.  Launching a new one.", true)
          else (None, bs "Not connected. Connecting.", true)
      end).

(** ** Circuits *)
Inductive circuit_state := CIRCUIT_STATE_BUILDING | CIRCUIT_STATE_ONIONSKIN_PENDING | CIRCUIT_STATE_CHAN_WAIT | CIRCUIT_STATE_GUARD_WAIT | CIRCUIT_STATE_OPEN.
#[export] Instance circuit_state_eq_dec : EqDecision circuit_state.
Proof. solve_decision. Defined.
Definition END_CIRC_REASON_CONNECTFAILED : Z := 6.
Definition END_CIRC_REASON_RESOURCELIMIT : Z := 5.
Definition END_CIRC_REASON_CHANNEL_CLOSED : Z := 8.
Definition MAX_CIRCID_ATTEMPTS : nat := 64.

(** A circuit of others. [out_queue] is what was appended to the queues of its next channel. *)
Record circuit := mk_circuit {
  p_chan : option channel; n_chan : option channel; n_hop : option extend_info; n_circ_id : Z;
  n_chan_create_cell : option create_cell; circ_state : circuit_state; marked_for_close : option Z; out_queue : list (channel * cell)
}.

(** A node of the node list, by what is asked of it. *)
Record node := mk_node {
  node_supports_ed25519_link_authentication : bool; node_ed25519_id : option bytes; node_prim_orport : addr_port; node_pref_ipv6_orport : addr_port
}.
Record relay_options := mk_options { server_mode : bool; ExtendAllowPrivateAddresses : bool; has_ipv6_orport : bool }.

(** Circuit identifiers of each channel: a circuit, or a placeholder. *)
Abbreviation circid_map := (gmap (Z * Z) bool).
Definition circuit_id_in_use_on_channel (m : circid_map) (id : Z) (chan : channel) : Z :=
  match m !! (global_identifier chan, id) with Some true => 1 | Some false => 2 | None => 0 end.

(** [crypto_rand] until an identifier is not zero; [rand] are the random numbers. *)
Fixpoint draw_circ_id (mask : Z) (rand : list Z) : outcome (Z * list Z) :=
  match rand with
  | [] => Stuck
  | r :: rand => let id := Z.land r mask in if id =? 0 then draw_circ_id mask rand else Ok (id, rand)
  end.
Fixpoint try_circ_ids (attempts : nat) (m : circid_map) (chan : channel) (mask high_bit : Z) (rand : list Z) : outcome Z :=
  match attempts with
  | O => Ok 0
  | S attempts =>
      let* (id, rand) := draw_circ_id mask rand in
      let id := Z.lor id high_bit in
      if circuit_id_in_use_on_channel m id chan =? 0 then Ok id else try_circ_ids attempts m chan mask high_bit rand
  end.
Definition get_unique_circ_id_by_chan (m : circid_map) (chan : channel) (rand : list Z) : outcome Z :=
  match circ_id_type chan with
  | CIRC_ID_TYPE_NEITHER => Ok 0
  | t =>
      let max_range := if wide_circ_ids chan then Z.shiftl 1 31 else Z.shiftl 1 15 in
      let high_bit := match t with CIRC_ID_TYPE_HIGHER => max_range | _ => 0 end in
      try_circ_ids MAX_CIRCID_ATTEMPTS m chan (max_range - 1) high_bit rand
  end.

(** The circuit, the map and whether it was a success. *)
Definition circuit_deliver_create_cell (m : circid_map) (circ : circuit) (create : create_cell) (relayed : bool) (rand : list Z)
    : outcome (circuit * circid_map * bool) :=
  let '(mk_circuit pc nc nh id kc st mk q) := circ in
  let* chan := get nc in
  let t := cell_type create in
  tor_assert ((t =? CELL_CREATE) || (t =? CELL_CREATE_FAST) || (t =? CELL_CREATE2)) (
  let failed := (mk_circuit pc None nh id kc st mk q, m, false) in
  let* new_id := get_unique_circ_id_by_chan m chan rand in
  if new_id =? 0 then Ok failed
  else
    let zero := {| circ_id := 0; command := 0; payload := replicate (Z.to_nat CELL_PAYLOAD_SIZE) NUL |} in
    match create_cell_format_impl zero create relayed with
    | Stuck => Stuck
    | Err => Ok failed
    | Ok c =>
        let c := {| circ_id := new_id; command := command c; payload := payload c |} in
        Ok (mk_circuit pc nc nh new_id kc st mk (q ++ [(chan, c)]), <[(global_identifier chan, new_id) := true]> m, true)
    end).

(** ** The checks of an EXTEND cell *)
Definition circuit_extend_state_valid_helper (opts : relay_options) (circ : circuit) : bool :=
  server_mode opts && match n_chan circ, n_hop circ with None, None => true | _, _ => false end.

Definition circuit_extend_add_ed25519_helper (nodes : gmap bytes node) (ec : extend_cell) : outcome extend_cell :=
  let* zero := tor_digest_is_zero (node_id ec) in
  if negb (zero =? 0) then Err
  else
    let* zero := ed25519_public_key_is_zero (ed_pubkey ec) in
    if zero =? 0 then Ok ec
    else
      match nodes !! node_id ec with
      | Some nd =>
          match node_supports_ed25519_link_authentication nd, node_ed25519_id nd with
          | true, Some id => Ok (mk_extend (extend_type ec) (orport_ipv4 ec) (orport_ipv6 ec) (node_id ec) id (ec_create ec))
          | _, _ => Ok ec
          end
      | None => Ok ec
      end.

(** An address the cell does not have is the one the node has. *)
Definition fill_ap (own of_node : addr_port) : addr_port :=
  if tor_addr_is_null (ap_addr own) && negb (tor_addr_is_null (ap_addr of_node)) then of_node else own.
Definition circuit_extend_add_ipv4_helper (nodes : gmap bytes node) (ec : extend_cell) : extend_cell :=
  match nodes !! node_id ec with
  | Some nd => mk_extend (extend_type ec) (fill_ap (orport_ipv4 ec) (node_prim_orport nd)) (orport_ipv6 ec) (node_id ec) (ed_pubkey ec) (ec_create ec)
  | None => ec
  end.
Definition circuit_extend_add_ipv6_helper (nodes : gmap bytes node) (ec : extend_cell) : extend_cell :=
  match nodes !! node_id ec with
  | Some nd => mk_extend (extend_type ec) (orport_ipv4 ec) (fill_ap (orport_ipv6 ec) (node_pref_ipv6_orport nd)) (node_id ec) (ed_pubkey ec) (ec_create ec)
  | None => ec
  end.

Definition circuit_extend_addr_port_is_valid (opts : relay_options) (ap : addr_port) : bool :=
  tor_addr_port_is_valid_ap ap false && negb (tor_addr_is_internal (ap_addr ap) false && negb (ExtendAllowPrivateAddresses opts)).

Definition circuit_extend_lspec_valid_helper (opts : relay_options) (ec : extend_cell) (circ : circuit) : outcome bool :=
  if negb (circuit_extend_addr_port_is_valid opts (orport_ipv4 ec)) && negb (circuit_extend_addr_port_is_valid opts (orport_ipv6 ec)) then Ok false
  else
    match p_chan circ with
    | None => Ok false
    | Some prev =>
        let* back := tor_memeq (node_id ec) (identity_digest prev) 20 in
        if negb (back =? 0) then Ok false
        else
          let* zero := ed25519_public_key_is_zero (ed_pubkey ec) in
          if negb (zero =? 0) then Ok true
          else
            let* back := tor_memeq (ed_pubkey ec) (ed25519_identity prev) 32 in
            Ok (back =? 0)
    end.

(** ** The connection to the next relay *)

(** [choose_ipv6] is the answer of [crypto_fast_rng_one_in_n]. *)
Definition circuit_choose_ip_ap_for_extend (opts : relay_options) (choose_ipv6 : bool) (ipv4_ap ipv6_ap : option addr_port) : option addr_port :=
  let ipv6_ap := if has_ipv6_orport opts then ipv6_ap else None in
  match ipv6_ap, ipv4_ap with
  | None, _ => ipv4_ap
  | _, None => ipv6_ap
  | Some _, Some _ => if choose_ipv6 then ipv6_ap else ipv4_ap
  end.

Definition extend_info_new (rsa_id_digest ed_id : bytes) (addr : tor_addr) (port : Z) : outcome extend_info :=
  let* zero := ed25519_public_key_is_zero ed_id in
  let info := mk_ei rsa_id_digest (if zero =? 0 then ed_id else replicate 32 NUL) [unspec_ap; unspec_ap] in
  Ok (mk_ei (ei_identity info) (ei_ed info) [mk_ap addr port; unspec_ap]).

Definition circuit_mark (circ : circuit) (reason : Z) : circuit :=
  let '(mk_circuit pc nc nh id kc st mk q) := circ in
  mk_circuit pc nc nh id kc st (match mk with Some r => Some r | None => Some reason end) q.

(** [connect] tells whether [channel_connect_for_circuit] gives a channel. *)
Definition circuit_open_connection_for_extend (opts : relay_options) (choose_ipv6 : bool) (connect : extend_info -> bool)
    (ec : extend_cell) (circ : circuit) (should_launch : bool) : outcome circuit :=
  let valid ap := if circuit_extend_addr_port_is_valid opts ap then Some ap else None in
  match valid (orport_ipv4 ec), valid (orport_ipv6 ec) with
  | None, None => Ok (circuit_mark circ END_CIRC_REASON_CONNECTFAILED)
  | ipv4, ipv6 =>
      match circuit_choose_ip_ap_for_extend opts choose_ipv6 ipv4 ipv6 with
      | None => Ok (circuit_mark circ END_CIRC_REASON_CONNECTFAILED)
      | Some chosen =>
          let* info := extend_info_new (node_id ec) (ed_pubkey ec) (ap_addr chosen) (ap_port chosen) in
          let '(mk_circuit pc nc _ id _ _ mk q) := circ in
          let circ := mk_circuit pc nc (Some info) id (Some (ec_create ec)) CIRCUIT_STATE_CHAN_WAIT mk q in
          Ok (if should_launch && negb (connect info) then circuit_mark circ END_CIRC_REASON_CONNECTFAILED else circ)
      end
  end.

(** ** [circuit_extend] *)
Definition circuit_extend (opts : relay_options) (nodes : gmap bytes node) (chans : channel_idmap) (ids : circid_map)
    (choose_ipv6 : bool) (connect : extend_info -> bool) (rand : list Z) (c : cell) (circ : circuit) : outcome (circuit * circid_map) :=
  if negb (circuit_extend_state_valid_helper opts circ) then Err
  else
    let* rh := relay_header_unpack (payload c) in
    let* ec := extend_cell_parse (rh_command rh) (drop (Z.to_nat RELAY_HEADER_SIZE) (payload c)) (rh_length rh) in
    let* ec := circuit_extend_add_ed25519_helper nodes ec in
    let* ok := circuit_extend_lspec_valid_helper opts ec circ in
    if negb ok then Err
    else
      let ec := circuit_extend_add_ipv4_helper nodes ec in
      let ec := circuit_extend_add_ipv6_helper nodes ec in
      let addr ap := if circuit_extend_addr_port_is_valid opts ap then Some (ap_addr ap) else None in
      if bool_decide (addr (orport_ipv4 ec) = None) && bool_decide (addr (orport_ipv6 ec) = None) then Err
      else
        let* (n, _, should_launch) := channel_get_for_extend chans (node_id ec) (Some (ed_pubkey ec)) (addr (orport_ipv4 ec)) (addr (orport_ipv6 ec)) in
        match n with
        | None =>
            let* circ := circuit_open_connection_for_extend opts choose_ipv6 connect ec circ should_launch in
            Ok (circ, ids)
        | Some n =>
            let '(mk_circuit pc _ nh id kc st mk q) := circ in
            tor_assert (bool_decide (nh = None)) (
            let* (circ, ids, ok) := circuit_deliver_create_cell ids (mk_circuit pc (Some n) nh id kc st mk q) (ec_create ec) true rand in
            if ok then Ok (circ, ids) else Err)
        end.

(** ** The circuits that wait for a channel *)

(** One circuit of [circuits_pending_chans]. *)
Definition pending_on_channel (circ : circuit) (chan : channel) : outcome bool :=
  match marked_for_close circ, n_hop circ with
  | None, Some hop =>
      tor_assert (bool_decide (circ_state circ = CIRCUIT_STATE_CHAN_WAIT)) (
      let* zero := tor_digest_is_zero (ei_identity hop) in
      if negb (zero =? 0) then channel_matches_extend_info chan hop
      else let* same := tor_memeq (identity_digest chan) (ei_identity hop) 20 in Ok (negb (same =? 0)))
  | _, _ => Ok false
  end.

(** The body of the loop of [circuit_n_chan_done]. Where it asks if the channel is canonical, it looks at the pointer to the method. *)
Definition n_chan_done_circuit (chan : channel) (status : bool) (ids : circid_map) (rand : list Z) (circ : circuit) : outcome (circuit * circid_map) :=
  match marked_for_close circ, n_chan circ, n_hop circ with
  | None, None, Some hop =>
      if negb (bool_decide (circ_state circ = CIRCUIT_STATE_CHAN_WAIT)) then Ok (circ, ids)
      else
        let* zero := tor_digest_is_zero (ei_identity hop) in
        let rsa_ident := if zero =? 0 then Some (ei_identity hop) else None in
        let* zero := ed25519_public_key_is_zero (ei_ed hop) in
        let ed_ident := if zero =? 0 then Some (ei_ed hop) else None in
        let* goes_on :=
          match rsa_ident, ed_ident with
          | None, None => channel_matches_extend_info chan hop
          | _, _ =>
              let* ok := channel_remote_identity_matches chan rsa_ident ed_ident in
              if negb ok then Ok false
              else if negb (methods_set chan) then channel_matches_extend_info chan hop
              else Ok true
          end in
        if negb goes_on then Ok (circ, ids)
        else if negb status then Ok (circuit_mark circ END_CIRC_REASON_CHANNEL_CLOSED, ids)
        else
          let '(mk_circuit pc _ _ id kc st mk q) := circ in
          let* create := get kc in
          let* (circ, ids, ok) := circuit_deliver_create_cell ids (mk_circuit pc (Some chan) None id kc st mk q) create true rand in
          if negb ok then Ok (circuit_mark circ END_CIRC_REASON_RESOURCELIMIT, ids)
          else
            let '(mk_circuit pc nc nh id _ _ mk q) := circ in
            Ok (mk_circuit pc nc nh id None CIRCUIT_STATE_OPEN mk q, ids)
  | _, _, _ => Ok (circ, ids)
  end.

(** The circuits that wait, each with the random numbers it draws; those not pending on the channel stay as they are. *)
Fixpoint pending_flags (circs : list (circuit * list Z)) (chan : channel) : outcome (list bool) :=
  match circs with
  | [] => Ok []
  | (circ, _) :: circs =>
      let* b := pending_on_channel circ chan in
      let* l := pending_flags circs chan in
      Ok (b :: l)
  end.
Fixpoint n_chan_done_loop (chan : channel) (status : bool) (ids : circid_map) (circs : list (circuit * list Z)) (flags : list bool)
    : outcome (list circuit * circid_map) :=
  match circs, flags with
  | (circ, rand) :: circs, b :: flags =>
      let* (circ, ids) := if b : bool then n_chan_done_circuit chan status ids rand circ else Ok (circ, ids) in
      let* (l, ids) := n_chan_done_loop chan status ids circs flags in
      Ok (circ :: l, ids)
  | _, _ => Ok ([], ids)
  end.
Definition circuit_n_chan_done (chan : channel) (status : bool) (ids : circid_map) (circs : list (circuit * list Z)) : outcome (list circuit * circid_map) :=
  let* flags := pending_flags circs chan in
  n_chan_done_loop chan status ids circs flags.
