(* ===== verification/ExtendCircuitFacts.v ===== *)
(** * Theorems about the extension of circuits by relays

    The choice of a channel is the choice of a best one; a request to extend a circuit goes to the relay it names and to no other, with the handshake
    it carries, or waits for a connection; and what waits is sent when a connection is there. *)
From stdpp Require Import gmap.
From S2P Require Import Prelude ParseInt DiOps Strings Endian Address Cells RelayCell Sendme SendmeFacts CellExtensions LinkSpec CircuitCells CircuitCellsFacts ExtendCircuit.

(** ** Channels of one identity *)
Definition chan_ok (chan : channel) : Prop := methods_set chan = true /\ length (identity_digest chan) = 20%nat /\ length (ed25519_identity chan) = 32%nat.
Definition idmap_ok (m : channel_idmap) : Prop :=
  forall d l, idmap_find m d = Some l -> Forall (fun chan => chan_ok chan /\ identity_digest chan = d) l.

Lemma memeq_whole (a b : bytes) (n : nat) : length a = n -> length b = n -> tor_memeq a b n = Ok (if bool_decide (a = b) then 1 else 0).
Proof. intros Ha Hb. rewrite tor_memeq_ok by lia. unfold fast_memeq. by rewrite !take_ge by lia. Qed.

(** The target of an extension, and which channels serve it. *)
Record target := mk_target { tg_rsa : bytes; tg_ed : bytes; tg_ipv4 : option tor_addr; tg_ipv6 : option tor_addr }.
Definition target_ok (t : target) : Prop := length (tg_rsa t) = 20%nat /\ length (tg_ed t) = 32%nat.

Definition at_target (t : target) (chan : channel) : bool :=
  match tg_ipv4 t with Some a => channel_tls_matches_target_method chan a | None => false end
  || match tg_ipv6 t with Some a => channel_tls_matches_target_method chan a | None => false end.
Definition same_keys (t : target) (chan : channel) : bool :=
  bool_decide (tg_rsa t = identity_digest chan) && bool_decide (tg_ed t = ed25519_identity chan).
Definition eligible (t : target) (chan : channel) : bool :=
  channel_is_open chan && negb (is_client chan) && same_keys t chan && negb (is_bad_for_new_circs chan)
  && (channel_tls_is_canonical_method chan || at_target t chan).
(** A connection that is being made to an address of the target. *)
Definition in_progress (t : target) (chan : channel) : bool :=
  negb (channel_condemned chan) && negb (channel_is_open chan) && negb (is_client chan) && same_keys t chan && at_target t chan.

(** ** The order of channels *)
Definition b2n (b : bool) : Z := if b then 1 else 0.
Definition quality (chan : channel) : list Z :=
  [b2n (negb (is_bad_for_new_circs chan)); b2n (channel_tls_is_canonical_method chan); b2n (is_canonical_to_peer chan);
   - timestamp_created chan; channel_num_circuits chan].
Fixpoint lex_gt (a b : list Z) : bool :=
  match a, b with
  | x :: a, y :: b => (y <? x) || ((x =? y) && lex_gt a b)
  | _, _ => false
  end.

Lemma lex_gt_trans (a : list Z) : forall b c, lex_gt a b = true -> lex_gt b c = true -> lex_gt a c = true.
Proof.
  induction a as [|x a IH]; intros [|y b] [|z c]; try done. cbn. rewrite !orb_true_iff, !andb_true_iff, !Z.ltb_lt, !Z.eqb_eq.
  intros [H1|[-> H1]] [H2|[-> H2]]; [left; lia|by left|by left|]. right. split; [done|]. by eapply IH.
Qed.

Lemma lex_gt_irrefl (a : list Z) : lex_gt a a = false.
Proof. induction a as [|x a IH]; [done|]. cbn. by rewrite Z.ltb_irrefl, Z.eqb_refl. Qed.

Lemma is_better_ok (a b : channel) : chan_ok a -> chan_ok b -> channel_is_better a b = Ok (lex_gt (quality a) (quality b)).
Proof.
  intros (Ha & _) (Hb & _). unfold channel_is_better, channel_is_canonical, quality, channel_num_circuits. rewrite Ha, Hb. cbn [tor_assert obind lex_gt].
  destruct (is_bad_for_new_circs a), (is_bad_for_new_circs b); cbn [negb andb b2n Z.ltb Z.eqb Z.compare orb]; try reflexivity;
    destruct (channel_tls_is_canonical_method a), (channel_tls_is_canonical_method b); cbn [negb andb b2n Z.ltb Z.eqb Z.compare orb]; try reflexivity;
    destruct (is_canonical_to_peer a), (is_canonical_to_peer b); cbn [negb andb b2n Z.ltb Z.eqb Z.compare orb]; try reflexivity; f_equal;
    destruct (Z.ltb_spec (timestamp_created a) (timestamp_created b)), (Z.ltb_spec (timestamp_created b) (timestamp_created a)),
      (Z.ltb_spec (- timestamp_created b) (- timestamp_created a)), (Z.eqb_spec (- timestamp_created a) (- timestamp_created b)); try lia; cbn [orb andb]; try reflexivity;
    by rewrite andb_false_r, orb_false_r.
Qed.

(** ** The walk *)
Definition walk_inv (t : target) (seen : list channel) (w : walk) : Prop :=
  match best w with
  | Some b => In b seen /\ eligible t b = true /\ forall x, In x seen -> eligible t x = true -> lex_gt (quality x) (quality b) = false
  | None => forall x, In x seen -> eligible t x = false
  end /\ 0 <= n_inprogress_goodaddr w /\ (n_inprogress_goodaddr w = 0 <-> existsb (in_progress t) seen = false).

Lemma identity_ok (t : target) (chan : channel) : target_ok t -> chan_ok chan ->
  channel_remote_identity_matches chan (Some (tg_rsa t)) (Some (tg_ed t)) = Ok (same_keys t chan).
Proof.
  intros (Hr & He) (_ & Hi & Hd). unfold channel_remote_identity_matches, same_keys. rewrite !memeq_whole by done. cbn [obind].
  destruct (bool_decide (tg_rsa t = _)); [|done]. by destruct (bool_decide (tg_ed t = _)).
Qed.

Lemma in_snoc {A} (x y : A) (l : list A) : In x (l ++ [y]) <-> In x l \/ x = y.
Proof. rewrite in_app_iff. cbn. intuition. Qed.

Lemma progress_step (t : target) (seen : list channel) (n n' : Z) (chan : channel) : 0 <= n -> (n = 0 <-> existsb (in_progress t) seen = false) ->
  n' = n + b2n (in_progress t chan) -> 0 <= n' /\ (n' = 0 <-> existsb (in_progress t) (seen ++ [chan]) = false).
Proof.
  intros H0 Hn ->. rewrite existsb_app. cbn [existsb]. rewrite orb_false_r, orb_false_iff. unfold b2n. destruct (in_progress t chan).
  - split; [lia|]. split; [lia|by intros [_ ?]].
  - rewrite Z.add_0_r, Hn. tauto.
Qed.

Lemma walk_skip (t : target) (seen : list channel) (w w' : walk) (chan : channel) : walk_inv t seen w -> eligible t chan = false ->
  best w' = best w -> n_inprogress_goodaddr w' = n_inprogress_goodaddr w + b2n (in_progress t chan) -> walk_inv t (seen ++ [chan]) w'.
Proof.
  intros (Hb & H0 & Hn) He Eb En. unfold walk_inv. rewrite Eb. split; [|by eapply progress_step].
  destruct (best w) as [b|].
  - destruct Hb as (Hi & Heb & Hm). split; [apply in_snoc; by left|]. split; [done|]. intros x [Hx| ->]%in_snoc Hex; [by apply Hm|congruence].
  - intros x [Hx| ->]%in_snoc; [by apply Hb|done].
Qed.

Lemma walk_take (t : target) (seen : list channel) (w w' : walk) (chan : channel) : walk_inv t seen w -> eligible t chan = true ->
  best w' = match best w with Some b => if lex_gt (quality chan) (quality b) then Some chan else Some b | None => Some chan end ->
  n_inprogress_goodaddr w' = n_inprogress_goodaddr w -> in_progress t chan = false -> walk_inv t (seen ++ [chan]) w'.
Proof.
  intros (Hb & H0 & Hn) He Eb En Hp. unfold walk_inv. rewrite Eb. split; [|eapply progress_step; [exact H0|exact Hn|]; rewrite En, Hp; cbn; lia].
  destruct (best w) as [b|].
  - destruct Hb as (Hi & Heb & Hm). destruct (lex_gt (quality chan) (quality b)) eqn:Eg.
    + split; [apply in_snoc; by right|]. split; [done|]. intros x [Hx| ->]%in_snoc Hex.
      * destruct (lex_gt (quality x) (quality chan)) eqn:Ex; [|done]. by rewrite <- (Hm x Hx Hex), (lex_gt_trans _ _ _ Ex Eg).
      * apply lex_gt_irrefl.
    + split; [apply in_snoc; by left|]. split; [done|]. intros x [Hx| ->]%in_snoc Hex; [by apply Hm|done].
  - split; [apply in_snoc; by right|]. split; [done|]. intros x [Hx| ->]%in_snoc Hex; [by rewrite (Hb x Hx) in Hex|].
    apply lex_gt_irrefl.
Qed.

Lemma consider_channel_ok (t : target) (seen : list channel) (w : walk) (chan : channel) : target_ok t -> Forall chan_ok seen -> chan_ok chan -> identity_digest chan = tg_rsa t ->
  walk_inv t seen w -> exists w', consider (tg_rsa t) (Some (tg_ed t)) (tg_ipv4 t) (tg_ipv6 t) w chan = Ok w' /\ walk_inv t (seen ++ [chan]) w'.
Proof.
  intros Ht Hs Hc Hi Hw. unfold consider. rewrite memeq_whole by (apply Ht || apply Hc). rewrite bool_decide_true by done. cbn [obind Z.eqb negb tor_assert].
  assert (Hskip : eligible t chan = false -> in_progress t chan = false -> exists w', Ok w = Ok w' /\ walk_inv t (seen ++ [chan]) w').
  { intros He Hp. exists w. split; [done|]. eapply walk_skip; [exact Hw|done|done|rewrite Hp; cbn; lia]. }
  destruct (channel_condemned chan) eqn:Ec.
  { apply Hskip; unfold eligible, in_progress; [|by rewrite Ec]. unfold channel_condemned, channel_is_open in *. by destruct (chan_state chan). }
  destruct (is_client chan) eqn:Ecl; [apply Hskip; unfold eligible, in_progress; rewrite Ecl; by rewrite ?andb_false_r|].
  rewrite identity_ok by done. cbn [obind]. destruct (same_keys t chan) eqn:Ek; cbn [negb]; [|apply Hskip; unfold eligible, in_progress; rewrite Ek; by rewrite ?andb_false_r].
  pose proof Hc as (Hms & _). unfold channel_matches_target_addr_for_extend, channel_is_canonical. rewrite Hms. cbn [tor_assert obind]. fold (at_target t chan).
  assert (Hp : in_progress t chan = negb (channel_is_open chan) && at_target t chan) by (unfold in_progress; rewrite Ec, Ecl, Ek; cbn; by rewrite ?andb_true_r).
  assert (He : eligible t chan = channel_is_open chan && negb (is_bad_for_new_circs chan) && (channel_tls_is_canonical_method chan || at_target t chan)) by (unfold eligible; rewrite Ecl, Ek; cbn; by rewrite ?andb_true_r).
  destruct (channel_is_open chan); cbn [negb andb] in *.
  - destruct (is_bad_for_new_circs chan); cbn [negb andb] in *.
    { eexists. split; [done|]. eapply walk_skip; [exact Hw|done|done|rewrite Hp; cbn; lia]. }
    destruct (channel_tls_is_canonical_method chan || at_target t chan) eqn:Eo.
    + assert (negb (channel_tls_is_canonical_method chan) && negb (at_target t chan) = false) as -> by (by rewrite <- negb_orb, Eo).
      destruct (best w) as [b|] eqn:Eb.
      * assert (Hb : chan_ok b) by (destruct Hw as (Hb & _); rewrite Eb in Hb; rewrite List.Forall_forall in Hs; apply Hs, Hb).
        rewrite is_better_ok by done. cbn [obind]. eexists. split; [done|]. eapply walk_take; [exact Hw|done| |by destruct (lex_gt _ _)|done]. rewrite Eb. by destruct (lex_gt _ _).
      * eexists. split; [done|]. eapply walk_take; [exact Hw|done|by rewrite Eb|done|done].
    + assert (negb (channel_tls_is_canonical_method chan) && negb (at_target t chan) = true) as -> by (by rewrite <- negb_orb, Eo).
      eexists. split; [done|]. eapply walk_skip; [exact Hw|done|done|rewrite Hp; cbn; lia].
  - eexists. split; [done|]. eapply walk_skip; [exact Hw|done|by destruct (at_target t chan)|]. rewrite Hp. destruct (at_target t chan); cbn; lia.
Qed.

Lemma walk_ok (t : target) (l : list channel) : forall seen w, target_ok t -> Forall chan_ok seen -> Forall (fun c => chan_ok c /\ identity_digest c = tg_rsa t) l ->
  walk_inv t seen w -> exists w', walk_channels (tg_rsa t) (Some (tg_ed t)) (tg_ipv4 t) (tg_ipv6 t) w l = Ok w' /\ walk_inv t (seen ++ l) w'.
Proof.
  induction l as [|c l IH]; intros seen w Ht Hs Hl Hw; [exists w; split; [done|]; by rewrite app_nil_r|].
  inversion Hl as [|? ? (Hc & Hi) Hl']; subst. cbn [walk_channels]. destruct (consider_channel_ok t seen w c Ht Hs Hc Hi Hw) as (w1 & -> & Hw1). cbn [obind].
  destruct (IH (seen ++ [c]) w1 Ht) as (w' & -> & Hw'); [by apply Forall_app_2; [|by constructor]|done|done|]. exists w'. split; [done|]. by rewrite <- app_assoc in Hw'.
Qed.

(** The channels of the relay, of which the search leaves out some that do not match at the start. *)
Definition channels_of (m : channel_idmap) (rsa : bytes) : list channel := match idmap_find m rsa with Some l => l | None => [] end.

Lemma first_matching_ok (t : target) (ed : option bytes) (l : list channel) : target_ok t -> Forall (fun c => chan_ok c /\ identity_digest c = tg_rsa t) l ->
  ed = None \/ ed = Some (tg_ed t) ->
  exists pre rest, l = pre ++ rest /\ first_matching l (Some (tg_rsa t)) ed = Ok rest /\ Forall (fun c => same_keys t c = false) pre.
Proof.
  intros Ht Hl He. induction l as [|c l IH]; [by exists [], []|]. inversion Hl as [|? ? (Hc & Hi) Hl']; subst. cbn [first_matching].
  destruct He as [->| ->].
  - unfold channel_remote_identity_matches. rewrite memeq_whole by (apply Ht || apply Hc). rewrite bool_decide_true by done. cbn [obind]. by exists [], (c :: l).
  - rewrite identity_ok by done. cbn [obind]. destruct (same_keys t c) eqn:Ek; [by exists [], (c :: l)|].
    destruct (IH Hl') as (pre & rest & -> & -> & Hp). exists (c :: pre), rest. split; [done|]. split; [done|]. by constructor.
Qed.

Lemma find_ok (t : target) (m : channel_idmap) : target_ok t -> idmap_ok m ->
  exists pre rest, channels_of m (tg_rsa t) = pre ++ rest /\ channel_find_by_remote_identity m (tg_rsa t) (Some (tg_ed t)) = Ok rest /\
    Forall (fun c => same_keys t c = false) pre.
Proof.
  intros Ht Hm. unfold channel_find_by_remote_identity, channels_of. rewrite ed_zero_ok by apply Ht. cbn [obind].
  destruct (idmap_find m (tg_rsa t)) as [l|] eqn:E; [|by exists [], []]. apply first_matching_ok; [done|by apply Hm|]. destruct (is_zero (tg_ed t)); [by left|by right].
Qed.

Lemma existsb_false_all {A} (f : A -> bool) (l : list A) : Forall (fun x => f x = false) l -> existsb f l = false.
Proof. induction 1 as [|x l Hx _ IH]; [done|]. cbn. by rewrite Hx. Qed.

Lemma walk_start_inv (t : target) : walk_inv t [] walk_start.
Proof. split; [by intros x Hx|]. split; [cbn; lia|done]. Qed.

Lemma get_for_extend_ok (m : channel_idmap) (t : target) : idmap_ok m -> target_ok t ->
  exists r msg launch, channel_get_for_extend m (tg_rsa t) (Some (tg_ed t)) (tg_ipv4 t) (tg_ipv6 t) = Ok (r, msg, launch) /\
    match r with
    | Some b =>
        In b (channels_of m (tg_rsa t)) /\ eligible t b = true /\ launch = false /\
        forall x, In x (channels_of m (tg_rsa t)) -> eligible t x = true -> channel_is_better x b = Ok false
    | None =>
        (forall x, In x (channels_of m (tg_rsa t)) -> eligible t x = false) /\
        launch = negb (existsb (in_progress t) (channels_of m (tg_rsa t)))
    end.
Proof.
  intros Hm Ht. destruct (find_ok t m Ht Hm) as (pre & rest & El & Ef & Hpre). unfold channel_get_for_extend. rewrite Ef. cbn [obind].
  assert (Hall : Forall (fun c => chan_ok c /\ identity_digest c = tg_rsa t) (pre ++ rest)).
  { rewrite <- El. unfold channels_of. destruct (idmap_find m (tg_rsa t)) eqn:E; [by apply Hm|done]. }
  destruct (walk_ok t rest [] walk_start Ht) as (w & Ew & Hb & H0 & Hn); [done|by apply Forall_app in Hall as [_ ?]|apply walk_start_inv|].
  rewrite Ew. cbn [obind app] in *. rewrite El.
  assert (Hpe : forall x, In x pre -> eligible t x = false).
  { intros x Hx. rewrite List.Forall_forall in Hpre. unfold eligible. by rewrite (Hpre x Hx), ?andb_false_r. }
  assert (Hpp : existsb (in_progress t) (pre ++ rest) = existsb (in_progress t) rest).
  { rewrite existsb_app, existsb_false_all; [done|]. eapply Forall_impl; [exact Hpre|]. intros x Hx. unfold in_progress. by rewrite Hx, ?andb_false_r. }
  destruct (best w) as [b|].
  - eexists _, _, _. split; [done|]. destruct Hb as (Hi & He & Hbest). split; [apply in_app_iff; by right|]. split; [done|]. split; [done|].
    intros x Hx Hex. rewrite List.Forall_forall in Hall. rewrite is_better_ok by (apply Hall; auto using in_or_app). f_equal.
    apply in_app_iff in Hx as [Hx|Hx]; [by rewrite (Hpe x Hx) in Hex|by apply Hbest].
  - rewrite Hpp. assert (Hex : forall x, In x (pre ++ rest) -> eligible t x = false) by (intros x [Hx|Hx]%in_app_iff; auto).
    destruct (Z.eqb_spec (n_inprogress_goodaddr w) 0) as [E|E]; cbn [negb].
    + apply Hn in E. rewrite E. destruct (_ || _); eexists _, _, _; (split; [done|]); done.
    + assert (existsb (in_progress t) rest = true) as -> by (destruct (existsb (in_progress t) rest); [done|by tauto]). eexists _, _, _. split; [done|]. done.
Qed.

(** C21: The channel for an extension is a best one. Of the channels to the relay that is asked for, those are eligible that are open, not to a client, not marked as bad for new
    circuits, have both keys that are asked for - where a key of zeros is not a wildcard, as it is in the search for the first channel - and are canonical or at one of the addresses asked for.
    If there is one, an eligible channel is returned that no eligible one beats, in the order of canonicity, canonicity to the peer, age and number of
    circuits. If there is none, no channel is returned, and a new connection is to be launched unless one to such an address is in progress. *)
Theorem channel_get_for_extend_best (m : channel_idmap) (t : target) : idmap_ok m -> target_ok t ->
  exists r msg launch, channel_get_for_extend m (tg_rsa t) (Some (tg_ed t)) (tg_ipv4 t) (tg_ipv6 t) = Ok (r, msg, launch) /\
    match r with
    | Some b =>
        In b (channels_of m (tg_rsa t)) /\ eligible t b = true /\ launch = false /\
        forall x, In x (channels_of m (tg_rsa t)) -> eligible t x = true -> channel_is_better x b = Ok false
    | None =>
        (forall x, In x (channels_of m (tg_rsa t)) -> eligible t x = false) /\
        launch = negb (existsb (in_progress t) (channels_of m (tg_rsa t)))
    end.
Proof. apply get_for_extend_ok. Qed.

(** Channels to one relay: at another address, at the address asked for, and canonical but younger. *)
Definition ex_id : bytes := replicate 20 "i"%char.
Definition ex_ed : bytes := replicate 32 "e"%char.
Definition ex_channel (n created : Z) (addr : tor_addr) (canonical : bool) : channel :=
  mk_channel n true ex_id ex_ed CHANNEL_STATE_OPEN false false false created 0 0 true CIRC_ID_TYPE_HIGHER (Some (mk_conn (mk_ap addr 9001) unspec_ap canonical)).
Definition ex_chans : channel_idmap :=
  [(ex_id, [ex_channel 3 30 (TA_INET 84281096) true; ex_channel 2 20 (TA_INET 16909060) false; ex_channel 1 10 (TA_INET 84281096) false])].
Definition ex_target : target := mk_target ex_id ex_ed (Some (TA_INET 16909060)) None.

Lemma ex_chans_ok : idmap_ok ex_chans.
Proof.
  intros d l. cbn. case_bool_decide as E; [|done]. intros [= <-]. subst d. repeat constructor.
Qed.

Theorem channel_get_for_extend_best_witness :
  exists msg, channel_get_for_extend ex_chans ex_id (Some ex_ed) (Some (TA_INET 16909060)) None = Ok (Some (ex_channel 3 30 (TA_INET 84281096) true), msg, false).
Proof.
  destruct (channel_get_for_extend_best ex_chans ex_target ex_chans_ok (conj eq_refl eq_refl)) as (r & msg & launch & E & _).
  vm_compute in E. injection E as <- <- <-. eexists. by vm_compute.
Defined.

(** ** Circuit identifiers *)
Definition good_draws (rand : list Z) : nat := length (filter (fun r => Z.land r 32767 <> 0) rand).
Definition id_bits (chan : channel) : Z := if wide_circ_ids chan then 31 else 15.

(** The identifiers that are tried: the numbers drawn, without the zeros, in the half of the range that is this side's, at most 64 of them. *)
Definition nonzero_draws (k : Z) (rand : list Z) : list Z := filter (fun d => d <> 0) ((fun r => Z.land r (Z.ones k)) <$> rand).
Definition half_start (chan : channel) : Z := match circ_id_type chan with CIRC_ID_TYPE_HIGHER => 2 ^ id_bits chan | _ => 0 end.
Definition candidates (chan : channel) (rand : list Z) : list Z :=
  match circ_id_type chan with
  | CIRC_ID_TYPE_NEITHER => []
  | _ => (fun d => half_start chan + d) <$> take 64 (nonzero_draws (id_bits chan) rand)
  end.
(** The first of them that is not in use, neither by a circuit nor by a placeholder. *)
Definition unused (m : circid_map) (chan : channel) (id : Z) : bool := bool_decide (m !! (global_identifier chan, id) = None).
Definition picks (m : circid_map) (chan : channel) (rand : list Z) : option Z := List.find (unused m chan) (candidates chan rand).
(** The identifier found: unused on the channel, and in the half of the range that is this side's. *)
Definition fresh_id (m : circid_map) (chan : channel) (id : Z) : Prop :=
  m !! (global_identifier chan, id) = None /\
  match circ_id_type chan with
  | CIRC_ID_TYPE_LOWER => 0 < id < 2 ^ id_bits chan
  | CIRC_ID_TYPE_HIGHER => 2 ^ id_bits chan < id < 2 ^ (id_bits chan + 1)
  | CIRC_ID_TYPE_NEITHER => False
  end.
(** None of them is free. *)
Definition no_id (m : circid_map) (chan : channel) (rand : list Z) : Prop :=
  forall id, In id (candidates chan rand) -> m !! (global_identifier chan, id) <> None.

Lemma land_mask_zero (r k : Z) : 15 <= k -> Z.land r (Z.ones k) = 0 -> Z.land r 32767 = 0.
Proof.
  intros Hk H. change 32767 with (Z.ones 15). assert (E : Z.ones 15 = Z.land (Z.ones k) (Z.ones 15)).
  { apply Z.bits_inj'. intros i Hi. rewrite Z.land_spec, !Z.testbit_ones_nonneg by lia. destruct (Z.ltb_spec i 15), (Z.ltb_spec i k); try done; lia. }
  by rewrite E, Z.land_assoc, H.
Qed.

Lemma enough_draws (k : Z) (rand : list Z) : 15 <= k -> (good_draws rand <= length (nonzero_draws k rand))%nat.
Proof.
  intros Hk. unfold good_draws, nonzero_draws. induction rand as [|r rand IH]; [done|]. rewrite fmap_cons.
  destruct (decide (Z.land r (Z.ones k) = 0)) as [E|E].
  - rewrite (filter_cons_False _ r) by (intros H; by apply H, (land_mask_zero r k)). by rewrite filter_cons_False by (intros H; by apply H).
  - rewrite (filter_cons_True _ (Z.land r (Z.ones k))) by done. cbn [length]. rewrite filter_cons. destruct (decide _); cbn [length]; lia.
Qed.

Lemma draw_ok (k : Z) (rand : list Z) (d : Z) (l : list Z) : nonzero_draws k rand = d :: l ->
  exists rand', draw_circ_id (Z.ones k) rand = Ok (d, rand') /\ nonzero_draws k rand' = l.
Proof.
  induction rand as [|r rand IH]; [done|]. unfold nonzero_draws in *. rewrite fmap_cons. cbn [draw_circ_id].
  destruct (Z.eqb_spec (Z.land r (Z.ones k)) 0) as [E|E].
  - rewrite filter_cons_False by (intros H; by apply H). apply IH.
  - rewrite filter_cons_True by done. intros [= <- <-]. by exists rand.
Qed.

Lemma draws_range (k : Z) (rand : list Z) (d : Z) : 0 <= k -> In d (nonzero_draws k rand) -> 0 < d < 2 ^ k.
Proof.
  intros Hk Hd. apply list_elem_of_In, list_elem_of_filter in Hd as (Hn & Hd). apply list_elem_of_fmap in Hd as (r & -> & _).
  rewrite Z.land_ones in * by lia. pose proof (Z.mod_pos_bound r (2 ^ k) ltac:(lia)). lia.
Qed.

Lemma lor_high (d high k : Z) : 0 <= k -> 0 < d < 2 ^ k -> high = 0 \/ high = 2 ^ k -> Z.lor d high = high + d.
Proof.
  intros Hk Hd [->| ->]; [by rewrite Z.lor_0_r|]. rewrite <- (Z.shiftl_1_l k) at 1. rewrite Z.lor_comm, lor_shiftl_add by lia. lia.
Qed.

Lemma try_ids_ok (n : nat) (m : circid_map) (chan : channel) (k high : Z) : 0 <= k -> high = 0 \/ high = 2 ^ k ->
  forall rand, (n <= length (nonzero_draws k rand))%nat ->
  try_circ_ids n m chan (Z.ones k) high rand = Ok (default 0 (List.find (unused m chan) ((fun d => high + d) <$> take n (nonzero_draws k rand)))).
Proof.
  intros Hk Hh. induction n as [|n IH]; intros rand Hl; [done|]. destruct (nonzero_draws k rand) as [|d l] eqn:E; [by cbn in Hl; lia|].
  cbn [try_circ_ids take fmap list_fmap List.find]. destruct (draw_ok k rand d l E) as (rand' & -> & E'). cbn [obind].
  assert (Hd : 0 < d < 2 ^ k) by (apply (draws_range k rand); [done|rewrite E; by left]). rewrite (lor_high d high k) by done.
  unfold circuit_id_in_use_on_channel, unused at 1. destruct (m !! (global_identifier chan, high + d)) as [[]|]; cbn [Z.eqb bool_decide]; try done;
    rewrite bool_decide_false by done; rewrite IH, E' by (rewrite E'; cbn in Hl; lia); done.
Qed.

Lemma unique_id_picks (m : circid_map) (chan : channel) (rand : list Z) : (64 <= good_draws rand)%nat ->
  get_unique_circ_id_by_chan m chan rand = Ok (default 0 (picks m chan rand)).
Proof.
  intros Hg. unfold get_unique_circ_id_by_chan, picks, candidates, half_start. set (k := id_bits chan).
  assert (Hk : 15 <= k) by (unfold k, id_bits; destruct (wide_circ_ids chan); lia). pose proof (enough_draws k rand Hk).
  assert (Er : (if wide_circ_ids chan then Z.shiftl 1 31 else Z.shiftl 1 15) = 2 ^ k) by (unfold k, id_bits; by destruct (wide_circ_ids chan)).
  assert (Eo : 2 ^ k - 1 = Z.ones k) by (rewrite Z.ones_equiv; lia).
  assert (Hm : (MAX_CIRCID_ATTEMPTS <= length (nonzero_draws k rand))%nat) by (unfold MAX_CIRCID_ATTEMPTS; lia).
  destruct (circ_id_type chan); [| |done]; rewrite Er, Eo.
  - apply (try_ids_ok MAX_CIRCID_ATTEMPTS m chan k 0); [lia|by left|done].
  - apply (try_ids_ok MAX_CIRCID_ATTEMPTS m chan k (2 ^ k)); [lia|by right|done].
Qed.

Lemma picks_fresh (m : circid_map) (chan : channel) (rand : list Z) (id : Z) : picks m chan rand = Some id -> id <> 0 /\ fresh_id m chan id.
Proof.
  intros H. apply List.find_some in H as (Hi & Hu). apply bool_decide_eq_true in Hu. unfold candidates, half_start, fresh_id in *. set (k := id_bits chan) in *.
  assert (Hk : 15 <= k) by (unfold k, id_bits; destruct (wide_circ_ids chan); lia).
  assert (Hr : forall h, In id ((fun d => h + d) <$> take 64 (nonzero_draws k rand)) -> h < id < h + 2 ^ k).
  { intros h Hd. apply list_elem_of_In, list_elem_of_fmap in Hd as (d & -> & Hd). apply elem_of_take in Hd as (i & Hd & _).
    assert (0 < d < 2 ^ k); [|lia]. apply (draws_range k rand); [lia|]. apply list_elem_of_In. by eapply list_elem_of_lookup_2. }
  destruct (circ_id_type chan); [| |done].
  - specialize (Hr 0 Hi). repeat split; [lia|done|lia..].
  - specialize (Hr _ Hi). rewrite Z.pow_add_r by lia. change (2 ^ 1) with 2. repeat split; [lia|done|lia..].
Qed.

Lemma picks_none (m : circid_map) (chan : channel) (rand : list Z) : picks m chan rand = None -> no_id m chan rand.
Proof. intros H id Hi. pose proof (List.find_none _ _ H id Hi) as Hu. by apply bool_decide_eq_false in Hu. Qed.

(** ** Sending a CREATE cell *)
Definition create_wire (id : Z) (create : create_cell) (c : cell) : Prop :=
  exists t h s, create = create_with t h s /\ c = {| circ_id := id; command := t; payload := pad 509 (create_body t h s) |}.

(** A handshake that fits, of a kind that can be sent on. *)
Definition sendable (create : create_cell) : Prop :=
  exists t h s, create = create_with t h s /\ (length s <= ONIONSKIN_SIZE)%nat /\ check_create_cell create true = true.

Lemma deliver_with_id (ids : circid_map) (pc : option channel) (chan : channel) (nh : option extend_info) (id : Z) (kc : option create_cell) (st : circuit_state)
    (mk : option Z) (q : list (channel * cell)) (create : create_cell) (rand : list Z) (new_id : Z) : sendable create ->
  get_unique_circ_id_by_chan ids chan rand = Ok new_id -> new_id <> 0 ->
  exists c, create_wire new_id create c /\ circuit_deliver_create_cell ids (mk_circuit pc (Some chan) nh id kc st mk q) create true rand =
    Ok (mk_circuit pc (Some chan) nh new_id kc st mk (q ++ [(chan, c)]), <[(global_identifier chan, new_id) := true]> ids, true).
Proof.
  intros (t & h & s & -> & Hs & Hk) Hg Hn. pose proof (check_create_types _ _ Hk) as Ht. unfold circuit_deliver_create_cell. cbn [get obind cell_type create_with] in *.
  assert ((t =? CELL_CREATE) || (t =? CELL_CREATE_FAST) || (t =? CELL_CREATE2) = true) as -> by (destruct Ht as [->|[->| ->]]; done). cbn [tor_assert].
  rewrite Hg. cbn [obind]. rewrite (proj2 (Z.eqb_neq new_id 0)) by done. rewrite create_format_ok by done. eexists. split; [by exists t, h, s|]. done.
Qed.

Lemma deliver_ok (ids : circid_map) (pc : option channel) (chan : channel) (nh : option extend_info) (id : Z) (kc : option create_cell) (st : circuit_state)
    (mk : option Z) (q : list (channel * cell)) (create : create_cell) (rand : list Z) : sendable create -> (64 <= good_draws rand)%nat ->
  exists circ' ids' ok, circuit_deliver_create_cell ids (mk_circuit pc (Some chan) nh id kc st mk q) create true rand = Ok (circ', ids', ok) /\
    if ok then
      exists new_id c, picks ids chan rand = Some new_id /\ fresh_id ids chan new_id /\ create_wire new_id create c /\
        circ' = mk_circuit pc (Some chan) nh new_id kc st mk (q ++ [(chan, c)]) /\ ids' = <[(global_identifier chan, new_id) := true]> ids
    else no_id ids chan rand /\ circ' = mk_circuit pc None nh id kc st mk q /\ ids' = ids.
Proof.
  intros Hs Hg. pose proof (unique_id_picks ids chan rand Hg) as E. destruct (picks ids chan rand) as [new_id|] eqn:Ep; cbn [default from_option] in E.
  - destruct (picks_fresh _ _ _ _ Ep) as (Hn & Hf). destruct (deliver_with_id ids pc chan nh id kc st mk q create rand new_id Hs E Hn) as (c & Hw & ->).
    eexists _, _, true. split; [done|]. by exists new_id, c.
  - destruct Hs as (t & h & s & -> & _ & Hk). pose proof (check_create_types _ _ Hk) as Ht. unfold circuit_deliver_create_cell. cbn [get obind cell_type create_with] in *.
    assert ((t =? CELL_CREATE) || (t =? CELL_CREATE_FAST) || (t =? CELL_CREATE2) = true) as -> by (destruct Ht as [->|[->| ->]]; done). cbn [tor_assert].
    rewrite E. eexists _, _, false. split; [done|]. split; [by apply picks_none|done].
Qed.

(** ** A request to extend a circuit *)
Definition nodes_ok (nodes : gmap bytes node) : Prop :=
  forall id nd ed, nodes !! id = Some nd -> node_ed25519_id nd = Some ed -> length ed = 32%nat.

Definition extend_of_cell (c : cell) : outcome extend_cell :=
  let* rh := relay_header_unpack (payload c) in
  extend_cell_parse (rh_command rh) (drop (Z.to_nat RELAY_HEADER_SIZE) (payload c)) (rh_length rh).

(** The cell with the Ed25519 identity and the addresses that the relay adds. *)
Definition with_ed (ec : extend_cell) (ed : bytes) : extend_cell :=
  mk_extend (extend_type ec) (orport_ipv4 ec) (orport_ipv6 ec) (node_id ec) ed (ec_create ec).
Definition full_cell (nodes : gmap bytes node) (ec : extend_cell) (ed : bytes) : extend_cell :=
  circuit_extend_add_ipv6_helper nodes (circuit_extend_add_ipv4_helper nodes (with_ed ec ed)).
Definition usable (opts : relay_options) (ap : addr_port) : option addr_port :=
  if circuit_extend_addr_port_is_valid opts ap then Some ap else None.
Definition target_of (opts : relay_options) (nodes : gmap bytes node) (ec : extend_cell) (ed : bytes) : target :=
  let k := full_cell nodes ec ed in
  mk_target (node_id ec) ed (ap_addr <$> usable opts (orport_ipv4 k)) (ap_addr <$> usable opts (orport_ipv6 k)).

(** The Ed25519 identity of the next relay: that of the cell, or else that of the node list. *)
Definition ed_for (nodes : gmap bytes node) (ec : extend_cell) : bytes :=
  if is_zero (ed_pubkey ec)
  then default (ed_pubkey ec) (nd ← nodes !! node_id ec; if node_supports_ed25519_link_authentication nd then node_ed25519_id nd else None)
  else ed_pubkey ec.

(** The address of a new connection: an IPv6 address only if this relay has one, and if it is the only one or drawn. *)
Definition address_for (opts : relay_options) (choose : bool) (a4 a6 : option addr_port) (ap : addr_port) : Prop :=
  (a4 = Some ap /\ (choose = false \/ has_ipv6_orport opts = false \/ a6 = None)) \/
  (a6 = Some ap /\ has_ipv6_orport opts = true /\ (choose = true \/ a4 = None)).

Section request.
Context (opts : relay_options) (nodes : gmap bytes node) (chans : channel_idmap) (ids : circid_map) (choose : bool) (connect : extend_info -> bool)
  (rand : list Z).

(** The best of the eligible channels to the relay. *)
Definition best_channel (ec : extend_cell) (n : channel) : Prop :=
  let t := target_of opts nodes ec (ed_for nodes ec) in
  In n (channels_of chans (node_id ec)) /\ eligible t n = true /\
  forall x, In x (channels_of chans (node_id ec)) -> eligible t x = true -> channel_is_better x n = Ok false.

(** What becomes of the circuit: the CREATE cell is sent, the circuit waits for a connection, or it is closed. A circuit that waits is closed too
    if a connection was to be made, as none is in progress, and could not be. *)
Inductive extended_to (ec : extend_cell) (circ : circuit) : circuit -> circid_map -> Prop :=
  | ext_sent n id c :
      best_channel ec n -> picks ids n rand = Some id -> fresh_id ids n id -> create_wire id (ec_create ec) c ->
      extended_to ec circ
        (mk_circuit (p_chan circ) (Some n) None id (n_chan_create_cell circ) (circ_state circ) (marked_for_close circ) (out_queue circ ++ [(n, c)]))
        (<[(global_identifier n, id) := true]> ids)
  | ext_waits ap (hop := mk_ei (node_id ec) (ed_for nodes ec) [ap; unspec_ap]) (t := target_of opts nodes ec (ed_for nodes ec)) :
      (forall x, In x (channels_of chans (node_id ec)) -> eligible t x = false) ->
      address_for opts choose (usable opts (orport_ipv4 (full_cell nodes ec (ed_for nodes ec)))) (usable opts (orport_ipv6 (full_cell nodes ec (ed_for nodes ec)))) ap ->
      extended_to ec circ
        (mk_circuit (p_chan circ) None (Some hop) (n_circ_id circ) (Some (ec_create ec)) CIRCUIT_STATE_CHAN_WAIT
           (if existsb (in_progress t) (channels_of chans (node_id ec)) || connect hop then marked_for_close circ
            else marked_for_close (circuit_mark circ END_CIRC_REASON_CONNECTFAILED)) (out_queue circ)) ids
  | ext_closed :
      (forall x, In x (channels_of chans (node_id ec)) -> eligible (target_of opts nodes ec (ed_for nodes ec)) x = false) ->
      has_ipv6_orport opts = false -> usable opts (orport_ipv4 (full_cell nodes ec (ed_for nodes ec))) = None ->
      extended_to ec circ (circuit_mark circ END_CIRC_REASON_CONNECTFAILED) ids.

(** Why a request is refused. *)
Inductive refused (c : cell) (circ : circuit) : Prop :=
  | ref_state : server_mode opts = false \/ n_chan circ <> None \/ n_hop circ <> None -> refused c circ
  | ref_cell : extend_of_cell c = Err -> refused c circ
  | ref_address ec : extend_of_cell c = Ok ec -> usable opts (orport_ipv4 ec) = None -> usable opts (orport_ipv6 ec) = None -> refused c circ
  | ref_no_prev : p_chan circ = None -> refused c circ
  | ref_back ec prev : extend_of_cell c = Ok ec -> p_chan circ = Some prev ->
      node_id ec = identity_digest prev \/ (is_zero (ed_for nodes ec) = false /\ ed_for nodes ec = ed25519_identity prev) -> refused c circ
  | ref_no_id ec n : extend_of_cell c = Ok ec -> best_channel ec n -> no_id ids n rand -> refused c circ.
End request.

Lemma add_ed25519_ok (nodes : gmap bytes node) (ec : extend_cell) : nodes_ok nodes -> length (node_id ec) = 20%nat -> length (ed_pubkey ec) = 32%nat ->
  is_zero (node_id ec) = false ->
  circuit_extend_add_ed25519_helper nodes ec = Ok (with_ed ec (ed_for nodes ec)) /\ length (ed_for nodes ec) = 32%nat.
Proof.
  intros Hn Hi He Hz. unfold circuit_extend_add_ed25519_helper, ed_for. rewrite digest_zero_ok, ed_zero_ok by done. cbn [obind]. rewrite Hz.
  cbn [Z.eqb negb]. assert (Hs : ec = with_ed ec (ed_pubkey ec)) by (by destruct ec).
  destruct (is_zero (ed_pubkey ec)); cbn [Z.eqb]; [|by rewrite <- Hs].
  destruct (nodes !! node_id ec) as [nd|] eqn:E; cbn [mbind option_bind default from_option]; [|by rewrite <- Hs].
  destruct (node_supports_ed25519_link_authentication nd), (node_ed25519_id nd) as [ed|] eqn:Ed; cbn [default from_option]; unfold id; rewrite <- ?Hs; try done.
  split; [done|]. by eapply Hn.
Qed.

Lemma lspec_valid_ok (opts : relay_options) (nodes : gmap bytes node) (ids : circid_map) (chans : channel_idmap) (rand : list Z) (c : cell) (ec : extend_cell) (circ : circuit) :
  extend_of_cell c = Ok ec -> length (node_id ec) = 20%nat -> length (ed_for nodes ec) = 32%nat -> (forall prev, p_chan circ = Some prev -> chan_ok prev) ->
  exists b, circuit_extend_lspec_valid_helper opts (with_ed ec (ed_for nodes ec)) circ = Ok b /\
    if b then exists prev, p_chan circ = Some prev /\ node_id ec <> identity_digest prev /\ (is_zero (ed_for nodes ec) = false -> ed_for nodes ec <> ed25519_identity prev) /\
                (usable opts (orport_ipv4 ec) <> None \/ usable opts (orport_ipv6 ec) <> None)
    else refused opts nodes chans ids rand c circ.
Proof.
  intros Hx Hi He Hc. unfold circuit_extend_lspec_valid_helper. cbn [orport_ipv4 orport_ipv6 node_id ed_pubkey with_ed].
  pose proof (ref_address opts nodes chans ids rand c circ ec Hx) as Ra. unfold usable in *.
  destruct (circuit_extend_addr_port_is_valid opts (orport_ipv4 ec)) eqn:E4, (circuit_extend_addr_port_is_valid opts (orport_ipv6 ec)) eqn:E6; cbn [negb andb];
    [..|by exists false; split; [|apply Ra]].
  all: destruct (p_chan circ) as [prev|] eqn:Ep; [|exists false; split; [done|by apply ref_no_prev]].
  all: destruct (Hc prev eq_refl) as (_ & Hpi & Hpe); rewrite !memeq_whole, ed_zero_ok by done; cbn [obind].
  all: pose proof (ref_back opts nodes chans ids rand c circ ec prev Hx Ep) as Rb.
  all: destruct (bool_decide (node_id ec = identity_digest prev)) eqn:E; cbn [Z.eqb negb];
    [apply bool_decide_eq_true in E; exists false; split; [done|]; apply Rb; by left|apply bool_decide_eq_false in E].
  all: assert (Hu : (if true then Some (orport_ipv4 ec) else None) <> None \/ (if true then Some (orport_ipv6 ec) else None) <> None) by (by left).
  all: destruct (is_zero (ed_for nodes ec)) eqn:Ez; cbn [Z.eqb negb obind];
    [exists true; split; [done|]; exists prev; split_and!; [done|done|by intros|]; by (left + right)|].
  all: destruct (bool_decide (ed_for nodes ec = ed25519_identity prev)) eqn:E2; cbn [Z.eqb];
    [apply bool_decide_eq_true in E2; exists false; split; [done|]; apply Rb; by right|apply bool_decide_eq_false in E2].
  all: exists true; split; [done|]; exists prev; split_and!; [done|done|by intros|]; by (left + right).
Qed.

(** An address that can be used stays when the node's addresses are filled in. *)
Lemma usable_fill (opts : relay_options) (own of_node : addr_port) : usable opts own <> None -> fill_ap own of_node = own.
Proof.
  unfold usable, circuit_extend_addr_port_is_valid, fill_ap, tor_addr_port_is_valid_ap. intros H.
  destruct (tor_addr_is_null (ap_addr own)) eqn:E; [|done]. exfalso. apply H.
  assert (Hv : tor_addr_is_valid (Some (ap_addr own)) false = false); [|by rewrite Hv].
  unfold tor_addr_is_valid. rewrite E. by destruct (ap_addr own).
Qed.
Lemma usable_full (opts : relay_options) (nodes : gmap bytes node) (ec : extend_cell) (ed : bytes) :
  usable opts (orport_ipv4 ec) <> None \/ usable opts (orport_ipv6 ec) <> None ->
  usable opts (orport_ipv4 (full_cell nodes ec ed)) <> None \/ usable opts (orport_ipv6 (full_cell nodes ec ed)) <> None.
Proof.
  unfold full_cell, circuit_extend_add_ipv6_helper, circuit_extend_add_ipv4_helper. cbn [node_id with_ed].
  destruct (nodes !! node_id ec) as [nd|] eqn:E; cbn [node_id with_ed]; rewrite ?E; [|done]. cbn [orport_ipv4 orport_ipv6 with_ed].
  intros [H|H]; [left|right]; by rewrite (usable_fill opts).
Qed.

Lemma full_cell_fields (nodes : gmap bytes node) (ec : extend_cell) (ed : bytes) :
  node_id (full_cell nodes ec ed) = node_id ec /\ ed_pubkey (full_cell nodes ec ed) = ed /\ ec_create (full_cell nodes ec ed) = ec_create ec.
Proof.
  unfold full_cell, circuit_extend_add_ipv6_helper, circuit_extend_add_ipv4_helper. cbn [node_id with_ed].
  destruct (nodes !! node_id ec) eqn:E; cbn [node_id with_ed]; by rewrite E.
Qed.

Lemma info_new_ok (id ed : bytes) (addr : tor_addr) (port : Z) : length ed = 32%nat ->
  extend_info_new id ed addr port = Ok (mk_ei id ed [mk_ap addr port; unspec_ap]).
Proof.
  intros He. unfold extend_info_new. rewrite ed_zero_ok by done. cbn [obind ei_identity ei_ed]. destruct (is_zero ed) eqn:E; cbn [Z.eqb]; [|done].
  by rewrite (is_zero_eq 32 ed He E).
Qed.

Lemma choose_ok (opts : relay_options) (b : bool) (a4 a6 : option addr_port) (ap : addr_port) : circuit_choose_ip_ap_for_extend opts b a4 a6 = Some ap ->
  address_for opts b a4 a6 ap.
Proof. unfold circuit_choose_ip_ap_for_extend, address_for. destruct (has_ipv6_orport opts), a6, a4, b; cbn; intros [= <-]; by auto 6. Qed.
Lemma choose_none (opts : relay_options) (b : bool) (a4 a6 : option addr_port) : circuit_choose_ip_ap_for_extend opts b a4 a6 = None -> a4 <> None \/ a6 <> None ->
  has_ipv6_orport opts = false /\ a4 = None.
Proof. unfold circuit_choose_ip_ap_for_extend. destruct (has_ipv6_orport opts), a6, a4, b; cbn; by intuition. Qed.

Lemma open_connection_ok (opts : relay_options) (nodes : gmap bytes node) (chans : channel_idmap) (ids : circid_map) (choose : bool) (connect : extend_info -> bool)
    (rand : list Z) (ec : extend_cell) (circ : circuit) (ed := ed_for nodes ec) (t := target_of opts nodes ec ed) : length ed = 32%nat -> n_chan circ = None ->
  (forall x, In x (channels_of chans (node_id ec)) -> eligible t x = false) ->
  usable opts (orport_ipv4 (full_cell nodes ec ed)) <> None \/ usable opts (orport_ipv6 (full_cell nodes ec ed)) <> None ->
  exists circ', circuit_open_connection_for_extend opts choose connect (full_cell nodes ec ed) circ (negb (existsb (in_progress t) (channels_of chans (node_id ec)))) = Ok circ' /\
    extended_to opts nodes chans ids choose connect rand ec circ circ' ids.
Proof.
  intros He Hn Hx Hu. destruct (full_cell_fields nodes ec ed) as (Ei & Ee & Ec). unfold circuit_open_connection_for_extend.
  fold (usable opts (orport_ipv4 (full_cell nodes ec ed))) (usable opts (orport_ipv6 (full_cell nodes ec ed))). rewrite Ei, Ee, Ec.
  pose proof (ext_closed opts nodes chans ids choose connect rand ec circ Hx) as Wc. fold ed in Wc.
  pose proof (fun ap => ext_waits opts nodes chans ids choose connect rand ec circ ap Hx) as Ww. cbv zeta in Ww. fold ed t in Ww.
  set (a4 := usable opts (orport_ipv4 (full_cell nodes ec ed))) in *. set (a6 := usable opts (orport_ipv6 (full_cell nodes ec ed))) in *.
  set (busy := existsb (in_progress t) (channels_of chans (node_id ec))) in *.
  assert (H : exists circ', match circuit_choose_ip_ap_for_extend opts choose a4 a6 with
     | None => Ok (circuit_mark circ END_CIRC_REASON_CONNECTFAILED)
     | Some chosen =>
         let* info := extend_info_new (node_id ec) ed (ap_addr chosen) (ap_port chosen) in
         let '(mk_circuit pc nc _ id _ _ mk q) := circ in
         let circ := mk_circuit pc nc (Some info) id (Some (ec_create ec)) CIRCUIT_STATE_CHAN_WAIT mk q in
         Ok (if negb busy && negb (connect info) then circuit_mark circ END_CIRC_REASON_CONNECTFAILED else circ)
     end = Ok circ' /\ extended_to opts nodes chans ids choose connect rand ec circ circ' ids).
  { destruct (circuit_choose_ip_ap_for_extend opts choose a4 a6) as [ap|] eqn:E.
    - specialize (Ww ap (choose_ok _ _ _ _ _ E)). rewrite info_new_ok by done. cbn [obind].
      assert (Eap : mk_ap (ap_addr ap) (ap_port ap) = ap) by (by destruct ap). rewrite Eap.
      destruct circ as [pc nc nh id kc st mk q]. cbn [p_chan n_chan n_circ_id marked_for_close out_queue circuit_mark] in *. subst nc.
      eexists. split; [done|]. by destruct busy, (connect _).
    - destruct (choose_none _ _ _ _ E Hu) as (Ho & E4). eexists. split; [done|]. by apply Wc. }
  destruct a4 as [ap4|], a6 as [ap6|]; try exact H. by destruct Hu.
Qed.

Lemma parse_extend_total (c : cell) : length (payload c) = 509%nat ->
  extend_of_cell c = Err \/ exists ec, extend_of_cell c = Ok ec /\ extend_ok ec /\ is_zero (node_id ec) = false /\ sendable (ec_create ec).
Proof.
  intros Hp. assert (Hu : exists rh, relay_header_unpack (payload c) = Ok rh /\ 0 <= rh_length rh).
  { unfold relay_header_unpack. destruct (get_be_split 1 (payload c) ltac:(lia)) as (v1 & E1 & _). destruct (get_be_split 2 (drop 1 (payload c)) ltac:(rewrite length_drop; lia)) as (v2 & E2 & _).
    destruct (get_be_split 2 (drop 3 (payload c)) ltac:(rewrite length_drop; lia)) as (v3 & E3 & _). destruct (get_be_split 2 (drop 9 (payload c)) ltac:(rewrite length_drop; lia)) as (v4 & E4 & Hv4 & _).
    unfold get_uint8, get_uint16. rewrite E1. cbn [obind]. rewrite E2. cbn [obind]. rewrite E3. cbn [obind]. rewrite E4. cbn [obind]. eexists. split; [done|]. cbn. lia. }
  destruct Hu as (rh & Hu & Hl). unfold extend_of_cell. rewrite Hu. cbn [obind].
  destruct (extend_parse_total (rh_command rh) (rh_length rh) (drop (Z.to_nat RELAY_HEADER_SIZE) (payload c)) Hl) as [->|(k & h & s & -> & Hok & Hv & Ht & Hh & Hs & Hx)];
    [unfold zlen; rewrite length_drop, Hp; done|by left|right].
  exists k. split; [done|]. split; [done|]. destruct (extend_valid_facts k Hv) as (Hz & _ & Hk). split; [done|].
  destruct (extend_again _ k h s Hok Hv Ht Hh Hx) as ((t & Ek) & _). exists t, h, s. done.
Qed.

Lemma state_valid_ok (opts : relay_options) (circ : circuit) :
  (circuit_extend_state_valid_helper opts circ = false /\ (server_mode opts = false \/ n_chan circ <> None \/ n_hop circ <> None)) \/
  (circuit_extend_state_valid_helper opts circ = true /\ server_mode opts = true /\ n_chan circ = None /\ n_hop circ = None).
Proof.
  unfold circuit_extend_state_valid_helper. destruct (server_mode opts), (n_chan circ), (n_hop circ); cbn [andb]; (by right; split_and!) || (left; split; [done|auto]).
Qed.

(** From a valid request on. *)
Lemma go_on_ok (opts : relay_options) (nodes : gmap bytes node) (chans : channel_idmap) (ids : circid_map) (choose : bool) (connect : extend_info -> bool) (rand : list Z)
    (ec : extend_cell) (circ : circuit) (k := full_cell nodes ec (ed_for nodes ec)) :
  idmap_ok chans -> length (node_id ec) = 20%nat -> length (ed_for nodes ec) = 32%nat -> sendable (ec_create ec) -> (64 <= good_draws rand)%nat ->
  n_chan circ = None -> n_hop circ = None -> usable opts (orport_ipv4 ec) <> None \/ usable opts (orport_ipv6 ec) <> None ->
  let addr ap := if circuit_extend_addr_port_is_valid opts ap then Some (ap_addr ap) else None in
  let res :=
    if bool_decide (addr (orport_ipv4 k) = None) && bool_decide (addr (orport_ipv6 k) = None) then Err
    else
      let* (n, _, should_launch) := channel_get_for_extend chans (node_id k) (Some (ed_pubkey k)) (addr (orport_ipv4 k)) (addr (orport_ipv6 k)) in
      match n with
      | None => let* circ := circuit_open_connection_for_extend opts choose connect k circ should_launch in Ok (circ, ids)
      | Some n =>
          let '(mk_circuit pc _ nh id kc st mk q) := circ in
          tor_assert (bool_decide (nh = None)) (
          let* (circ, ids, ok) := circuit_deliver_create_cell ids (mk_circuit pc (Some n) nh id kc st mk q) (ec_create k) true rand in
          if ok then Ok (circ, ids) else Err)
      end in
  (res = Err /\ exists n, best_channel opts nodes chans ec n /\ no_id ids n rand) \/
  exists circ' ids', res = Ok (circ', ids') /\ extended_to opts nodes chans ids choose connect rand ec circ circ' ids'.
Proof.
  intros Hch Hi Hed Hs Hr Hnc Hnh Hu addr res. subst res. apply (usable_full opts nodes ec (ed_for nodes ec)) in Hu. fold k in Hu.
  destruct (full_cell_fields nodes ec (ed_for nodes ec)) as (Ei & Ee & Ec). fold k in Ei, Ee, Ec. rewrite Ei, Ee, Ec.
  assert (Ea : forall ap, addr ap = ap_addr <$> usable opts ap) by (intros ap; unfold addr, usable; by destruct (circuit_extend_addr_port_is_valid opts ap)). rewrite !Ea.
  assert (bool_decide (ap_addr <$> usable opts (orport_ipv4 k) = None) && bool_decide (ap_addr <$> usable opts (orport_ipv6 k) = None) = false) as ->
    by (destruct (usable opts (orport_ipv4 k)), (usable opts (orport_ipv6 k)); [done..|by destruct Hu]).
  destruct (get_for_extend_ok chans (target_of opts nodes ec (ed_for nodes ec)) Hch (conj Hi Hed)) as (r & msg & launch & Eg & Hg).
  unfold target_of in Eg. cbn [tg_rsa tg_ed tg_ipv4 tg_ipv6] in Eg. fold k in Eg. rewrite Eg. cbn [obind].
  change (tg_rsa (target_of opts nodes ec (ed_for nodes ec))) with (node_id ec) in Hg. destruct r as [n|].
  - destruct Hg as (Hin & Hel & _ & Hbest). assert (Hb : best_channel opts nodes chans ec n) by (by repeat split).
    pose proof (ext_sent opts nodes chans ids choose connect rand ec circ n) as W.
    destruct circ as [pc nc nh id kc st mk q]. cbn [p_chan n_chan n_hop n_chan_create_cell circ_state marked_for_close out_queue] in *. subst nc nh. rewrite bool_decide_true by done. cbn [tor_assert].
    destruct (deliver_ok ids pc n None id kc st mk q (ec_create ec) rand Hs Hr) as (circ' & ids' & [] & -> & Hok); cbn [obind].
    + destruct Hok as (new_id & cl & Hp & Hf & Hw & -> & ->). right. eexists _, _. split; [done|]. by eapply W.
    + destruct Hok as (Hno & _). left. split; [done|]. by exists n.
  - destruct Hg as (Hx & ->). right. destruct (open_connection_ok opts nodes chans ids choose connect rand ec circ Hed Hnc Hx Hu) as (circ' & E & Hc'). fold k in E. cbn [tg_rsa target_of]. rewrite E. by eexists _, _.
Qed.

(** C16: A relay extends a circuit exactly when it may, and exactly as it was asked to. On any relay cell, whatever the nodes, channels and circuit identifiers are, and
    given 64 random numbers that are not zero in their low bits, [circuit_extend] refuses only for one of six reasons: this is no server or the circuit has a next hop; the cell cannot
    be read as an EXTEND cell; it has no valid address, where private ones are valid only by an option; there is no previous hop; the cell names the previous hop, by its identity or
    by its Ed25519 identity, which is that of the cell or else of the node list; or there is a best eligible channel, but each of the identifiers drawn is in use on it. If it
    does not refuse, the opposite of the first five holds, and one of three things has been done: a CREATE cell with the handshake of the EXTEND cell and the first free
    identifier drawn is queued on a best eligible channel to that relay; or, as no channel is eligible, the circuit keeps the handshake and waits for a connection to
    that relay at a valid address, and it is marked for closing exactly if no such connection was in progress and none could be launched (or if it was marked before); or, as the
    only valid address is an IPv6 address and this relay has none, the circuit is marked for closing. *)
Theorem circuit_extend_sound (opts : relay_options) (nodes : gmap bytes node) (chans : channel_idmap) (ids : circid_map) (choose : bool)
    (connect : extend_info -> bool) (rand : list Z) (c : cell) (circ : circuit) :
  length (payload c) = 509%nat -> idmap_ok chans -> nodes_ok nodes -> (forall prev, p_chan circ = Some prev -> chan_ok prev) -> (64 <= good_draws rand)%nat ->
  (circuit_extend opts nodes chans ids choose connect rand c circ = Err /\ refused opts nodes chans ids rand c circ) \/
  exists ec prev circ' ids', circuit_extend opts nodes chans ids choose connect rand c circ = Ok (circ', ids') /\
    server_mode opts = true /\ n_chan circ = None /\ n_hop circ = None /\ p_chan circ = Some prev /\
    extend_of_cell c = Ok ec /\ is_zero (node_id ec) = false /\ node_id ec <> identity_digest prev /\
    (usable opts (orport_ipv4 ec) <> None \/ usable opts (orport_ipv6 ec) <> None) /\
    (is_zero (ed_for nodes ec) = false -> ed_for nodes ec <> ed25519_identity prev) /\
    extended_to opts nodes chans ids choose connect rand ec circ circ' ids'.
Proof.
  intros Hp Hch Hnd Hprev Hr. unfold circuit_extend. destruct (state_valid_ok opts circ) as [(-> & Hst)|(-> & Hsm & Hnc & Hnh)]; [left; split; [done|by apply ref_state]|]. cbn [negb].
  pose proof (parse_extend_total c Hp) as Ht. pose proof (eq_refl (extend_of_cell c)) as Ex. unfold extend_of_cell at 1 in Ex.
  destruct (relay_header_unpack (payload c)) as [rh| |] eqn:Eh; cbn [obind] in *; [|left; split; [done|by apply ref_cell]|destruct Ht as [?|(? & ? & _)]; congruence].
  rewrite Ex. destruct Ht as [E|(ec & E & (_ & _ & Hi & He) & Hz & Hs)]; rewrite E; [left; split; [done|by apply ref_cell]|]. cbn [obind].
  destruct (add_ed25519_ok nodes ec Hnd Hi He Hz) as (-> & Hed). cbn [obind].
  destruct (lspec_valid_ok opts nodes ids chans rand c ec circ E Hi Hed Hprev) as ([] & -> & Hb); [|by left]. cbn [obind negb]. destruct Hb as (prev & Epc & Hn1 & Hn2 & Hu).
  fold (full_cell nodes ec (ed_for nodes ec)). destruct (go_on_ok opts nodes chans ids choose connect rand ec circ Hch Hi Hed Hs Hr Hnc Hnh Hu) as [(-> & n & Hbest & Hno)|(circ' & ids' & -> & Hto)].
  - left. split; [done|]. by eapply ref_no_id.
  - right. by exists ec, prev, circ', ids'.
Qed.

Definition ex_options : relay_options := mk_options true false false.
Definition ex_prev : channel :=
  mk_channel 9 true (replicate 20 "p"%char) (replicate 32 "q"%char) CHANNEL_STATE_OPEN false false false 5 0 1 true CIRC_ID_TYPE_LOWER None.
Definition ex_circuit : circuit := mk_circuit (Some ex_prev) None None 0 None CIRCUIT_STATE_OPEN None [].
Definition ex_rand : list Z := replicate 64 77.
Definition ex_relay_cell : cell :=
  {| circ_id := 5; command := 9;
     payload := match extend_cell_format 1 None ex_extend with
                | Ok (cmd, len, p) => header_bytes {| rh_command := cmd; recognized := 0; stream_id := 0; integrity := replicate 4 NUL; rh_length := len |} ++ p
                | _ => []
                end |}.

Theorem circuit_extend_sound_witness :
  exists ec circ' ids', circuit_extend ex_options ∅ ex_chans ∅ false (fun _ => true) ex_rand ex_relay_cell ex_circuit = Ok (circ', ids') /\
    extended_to ex_options ∅ ex_chans ∅ false (fun _ => true) ex_rand ec ex_circuit circ' ids' /\ n_circ_id circ' = 77 + 2 ^ 31.
Proof.
  destruct (circuit_extend_sound ex_options ∅ ex_chans ∅ false (fun _ => true) ex_rand ex_relay_cell ex_circuit) as [[H _]|(ec & prev & circ' & ids' & E & _ & _ & _ & _ & _ & _ & _ & _ & _ & H)].
  - by vm_compute.
  - exact ex_chans_ok.
  - intros id nd ed H. by rewrite lookup_empty in H.
  - intros prev [= <-]. by repeat split.
  - apply Nat.leb_le. by vm_compute.
  - exfalso. vm_compute in H. discriminate H.
  - exists ec, circ', ids'. split; [exact E|]. split; [exact H|].
    assert (Hc : (match circuit_extend ex_options ∅ ex_chans ∅ false (fun _ => true) ex_rand ex_relay_cell ex_circuit with Ok (circ', _) => n_circ_id circ' | _ => 0 end) = 77 + 2 ^ 31) by (by vm_compute).
    by rewrite E in Hc.
Defined.

(** ** Circuits that wait for a channel *)
Definition hop_keys (hop : extend_info) (chan : channel) : bool :=
  bool_decide (ei_identity hop = identity_digest chan) && (is_zero (ei_ed hop) || bool_decide (ei_ed hop = ed25519_identity chan)).

(** What [circuit_extend] leaves of a circuit that waits. *)
Definition waits_for (circ : circuit) (hop : extend_info) (create : create_cell) : Prop :=
  n_hop circ = Some hop /\ n_chan circ = None /\ circ_state circ = CIRCUIT_STATE_CHAN_WAIT /\ n_chan_create_cell circ = Some create /\ sendable create /\
  length (ei_identity hop) = 20%nat /\ is_zero (ei_identity hop) = false /\ length (ei_ed hop) = 32%nat.
Definition pending_ok (circ : circuit) : Prop := marked_for_close circ <> None \/ n_hop circ = None \/ exists hop create, waits_for circ hop create.

Lemma extended_pending_ok (opts : relay_options) (nodes : gmap bytes node) (chans : channel_idmap) (ids ids' : circid_map) (choose : bool) (connect : extend_info -> bool)
    (rand : list Z) (ec : extend_cell) (circ circ' : circuit) :
  n_hop circ = None -> length (node_id ec) = 20%nat -> is_zero (node_id ec) = false -> length (ed_for nodes ec) = 32%nat -> sendable (ec_create ec) ->
  extended_to opts nodes chans ids choose connect rand ec circ circ' ids' -> pending_ok circ'.
Proof.
  intros Hh Hi Hz He Hs H. destruct H as [n id c|ap|].
  - right. by left.
  - right. right. eexists _, _. by repeat split.
  - right. left. by destruct circ.
Qed.

(** One circuit of those that wait, when a channel is there, or has failed. *)
Inductive done_to (chan : channel) (status : bool) (ids : circid_map) (circ : circuit) (rand : list Z) : circuit -> circid_map -> Prop :=
  | done_other : (forall hop, n_hop circ = Some hop -> marked_for_close circ = None -> hop_keys hop chan = false) -> done_to chan status ids circ rand circ ids
  | done_failed hop : status = false -> n_hop circ = Some hop -> marked_for_close circ = None -> hop_keys hop chan = true ->
      done_to chan status ids circ rand (circuit_mark circ END_CIRC_REASON_CHANNEL_CLOSED) ids
  | done_sent hop create id c : status = true -> waits_for circ hop create -> marked_for_close circ = None -> hop_keys hop chan = true ->
      picks ids chan rand = Some id -> fresh_id ids chan id -> create_wire id create c ->
      done_to chan status ids circ rand (mk_circuit (p_chan circ) (Some chan) None id None CIRCUIT_STATE_OPEN None (out_queue circ ++ [(chan, c)]))
        (<[(global_identifier chan, id) := true]> ids)
  | done_no_id hop create : status = true -> waits_for circ hop create -> marked_for_close circ = None -> hop_keys hop chan = true -> no_id ids chan rand ->
      done_to chan status ids circ rand
        (mk_circuit (p_chan circ) None None (n_circ_id circ) (Some create) CIRCUIT_STATE_CHAN_WAIT (Some END_CIRC_REASON_RESOURCELIMIT) (out_queue circ)) ids.

Inductive done_all (chan : channel) (status : bool) : circid_map -> list (circuit * list Z) -> list circuit -> circid_map -> Prop :=
  | done_nil ids : done_all chan status ids [] [] ids
  | done_cons ids ids1 ids2 circ rand circ' l l' : done_to chan status ids circ rand circ' ids1 -> done_all chan status ids1 l l' ids2 ->
      done_all chan status ids ((circ, rand) :: l) (circ' :: l') ids2.

Lemma pending_flag_ok (chan : channel) (circ : circuit) : chan_ok chan -> pending_ok circ ->
  exists b, pending_on_channel circ chan = Ok b /\
    (b = false -> forall hop, n_hop circ = Some hop -> marked_for_close circ = None -> hop_keys hop chan = false) /\
    (b = true -> marked_for_close circ = None /\ exists hop create, waits_for circ hop create /\ ei_identity hop = identity_digest chan).
Proof.
  intros (Hm & Hi & Hd) Hp. unfold pending_on_channel. destruct (marked_for_close circ) eqn:Em; [by exists false|]. destruct Hp as [Hp|[->|(hop & create & Hw)]]; [done|by exists false|].
  pose proof Hw as (-> & _ & Hst & _ & _ & Hl & Hz & _). rewrite bool_decide_true, digest_zero_ok, Hz by done. cbn [tor_assert obind Z.eqb negb]. rewrite memeq_whole by done. cbn [obind].
  destruct (bool_decide (identity_digest chan = ei_identity hop)) eqn:E; cbn [Z.eqb negb]; eexists; (split; [done|]); split; try done.
  - intros _. split; [done|]. exists hop, create. split; [done|]. by apply bool_decide_eq_true in E.
  - intros _ hop' [= <-] _. apply bool_decide_eq_false in E. unfold hop_keys. by rewrite bool_decide_false by auto.
Qed.

(** The body of the loop for such a circuit, where the question about the channel's method is settled. *)
Lemma n_chan_done_circuit_eq (chan : channel) (status : bool) (ids : circid_map) (rand : list Z) (pc : option channel) (id : Z) (q : list (channel * cell))
    (hop : extend_info) (create : create_cell) (circ := mk_circuit pc None (Some hop) id (Some create) CIRCUIT_STATE_CHAN_WAIT None q) :
  chan_ok chan -> waits_for circ hop create -> ei_identity hop = identity_digest chan ->
  n_chan_done_circuit chan status ids rand circ =
    if negb (hop_keys hop chan) then Ok (circ, ids)
    else if negb status then Ok (circuit_mark circ END_CIRC_REASON_CHANNEL_CLOSED, ids)
    else
      let* (circ, ids, ok) := circuit_deliver_create_cell ids (mk_circuit pc (Some chan) None id (Some create) CIRCUIT_STATE_CHAN_WAIT None q) create true rand in
      if negb ok then Ok (circuit_mark circ END_CIRC_REASON_RESOURCELIMIT, ids)
      else let '(mk_circuit pc nc nh id _ _ mk q) := circ in Ok (mk_circuit pc nc nh id None CIRCUIT_STATE_OPEN mk q, ids).
Proof.
  intros (Hm & Hi & Hd) (_ & _ & _ & _ & _ & Hl & Hz & He) Hid. unfold n_chan_done_circuit, circ. cbn [marked_for_close n_chan n_hop circ_state]. rewrite bool_decide_true by done. cbn [negb].
  rewrite digest_zero_ok, ed_zero_ok, Hz by done. cbn [obind Z.eqb]. unfold channel_remote_identity_matches, hop_keys. rewrite memeq_whole, bool_decide_true by done. cbn [obind Z.eqb andb get].
  destruct (is_zero (ei_ed hop)); cbn [Z.eqb obind orb negb]; rewrite ?Hm; cbn [obind negb]; [done|]. rewrite memeq_whole by done. cbn [obind].
  destruct (bool_decide (ei_ed hop = _)); cbn [Z.eqb negb obind]; by rewrite ?Hm.
Qed.

Lemma n_chan_done_circuit_ok (chan : channel) (status : bool) (ids : circid_map) (rand : list Z) (circ : circuit) (hop : extend_info) (create : create_cell) :
  chan_ok chan -> marked_for_close circ = None -> waits_for circ hop create -> ei_identity hop = identity_digest chan -> (64 <= good_draws rand)%nat ->
  exists circ' ids', n_chan_done_circuit chan status ids rand circ = Ok (circ', ids') /\ done_to chan status ids circ rand circ' ids'.
Proof.
  intros Hc Hk Hw Hid Hr. pose proof Hw as (Hh & Hn & Hst & Hkc & Hs & _).
  pose proof (done_sent chan status ids circ rand hop create) as Wsent. pose proof (done_no_id chan status ids circ rand hop create) as Wfail. pose proof (done_failed chan status ids circ rand hop) as Wdown.
  pose proof (done_other chan status ids circ rand) as Wother. destruct circ as [pc nc nh id kc st mk q]. cbn [p_chan n_chan n_hop n_circ_id n_chan_create_cell circ_state marked_for_close out_queue] in *. subst nc nh kc mk st.
  rewrite (n_chan_done_circuit_eq chan status ids rand pc id q hop create) by done. destruct (hop_keys hop chan) eqn:Ek; cbn [negb].
  2:{ eexists _, _. split; [done|]. apply Wother. intros hop' Hh'. congruence. }
  destruct status; cbn [negb]; [|eexists _, _; split; [done|]; by apply Wdown].
  destruct (deliver_ok ids pc chan None id (Some create) CIRCUIT_STATE_CHAN_WAIT None q create rand Hs Hr) as (circ' & ids' & ok & -> & Hok). cbn [obind].
  destruct ok; [destruct Hok as (new_id & c & Hpk & Hf & Hwr & -> & ->)|destruct Hok as (Hno & -> & ->)]; cbn [negb]; eexists _, _; (split; [done|]).
  - by apply Wsent.
  - by apply Wfail.
Qed.

(** C19: When a connection is there, or has failed, the circuits that wait for it are served, one after the other. Let each of them be as [circuit_extend] leaves it (marked
    for closing, or waiting for no relay, or waiting with a handshake that can be sent), and let 64 of the random numbers drawn for each not be zero in their low bits. Each
    that is not marked and waits for the keys of the channel, where an Ed25519 key of zeros is any, is marked for closing if the channel failed; otherwise its CREATE cell, with
    the handshake it has kept and the first identifier drawn that is free on the channel, is queued on the channel and the circuit is open; only if each of the identifiers drawn is in
    use, after those given to the circuits before it, is it marked for closing. All other circuits stay as they are. No assertion fails. *)
Theorem circuit_n_chan_done_correct (chan : channel) (status : bool) (circs : list (circuit * list Z)) (ids : circid_map) :
  chan_ok chan -> Forall (fun x => pending_ok x.1 /\ (64 <= good_draws x.2)%nat) circs ->
  exists l ids', circuit_n_chan_done chan status ids circs = Ok (l, ids') /\ done_all chan status ids circs l ids'.
Proof.
  intros Hc Hall. unfold circuit_n_chan_done.
  assert (H : exists flags, pending_flags circs chan = Ok flags /\ forall ids, exists l ids', n_chan_done_loop chan status ids circs flags = Ok (l, ids') /\ done_all chan status ids circs l ids').
  { induction Hall as [|[circ rand] circs (Hp & Hr) _ (flags & Ef & IH)]; cbn [fst snd] in *.
    - exists []. split; [done|]. intros ids0. eexists _, _. split; [done|]. apply done_nil.
    - destruct (pending_flag_ok chan circ Hc Hp) as (b & Eb & Hf & Ht). exists (b :: flags). cbn [pending_flags]. rewrite Eb, Ef. cbn [obind]. split; [done|]. intros ids0. cbn [n_chan_done_loop fmap list_fmap fst].
      assert (Hone : exists circ' ids', (if b then n_chan_done_circuit chan status ids0 rand circ else Ok (circ, ids0)) = Ok (circ', ids') /\ done_to chan status ids0 circ rand circ' ids').
      { destruct b; [|eexists _, _; split; [done|]; by apply done_other, Hf]. destruct (Ht eq_refl) as (Hk & hop & create & Hw & Hid). by apply (n_chan_done_circuit_ok chan status ids0 rand circ hop create). }
      destruct Hone as (circ' & ids1 & -> & Hd). cbn [obind]. destruct (IH ids1) as (l & ids2 & -> & Hl). cbn [obind]. eexists _, _. split; [done|]. by eapply done_cons. }
  destruct H as (flags & -> & H). cbn [obind]. apply H.
Qed.

Definition ex_hop : extend_info := mk_ei ex_id ex_ed [mk_ap (TA_INET 16909060) 9001; unspec_ap].
Definition ex_waiting : circuit :=
  mk_circuit (Some ex_prev) None (Some ex_hop) 0 (Some (create_with CELL_CREATE2 ONION_HANDSHAKE_TYPE_NTOR ex_skin)) CIRCUIT_STATE_CHAN_WAIT None [].

Lemma ex_waits : waits_for ex_waiting ex_hop (create_with CELL_CREATE2 ONION_HANDSHAKE_TYPE_NTOR ex_skin).
Proof.
  do 4 (split; [done|]). split; [|by repeat split]. exists CELL_CREATE2, ONION_HANDSHAKE_TYPE_NTOR, ex_skin. split; [done|].
  split; [apply Nat.leb_le|]; by vm_compute.
Qed.

Theorem circuit_n_chan_done_correct_witness :
  exists l ids', circuit_n_chan_done (ex_channel 1 10 (TA_INET 16909060) false) true ∅ [(ex_waiting, ex_rand); (ex_circuit, ex_rand)] = Ok (l, ids') /\
    done_all (ex_channel 1 10 (TA_INET 16909060) false) true ∅ [(ex_waiting, ex_rand); (ex_circuit, ex_rand)] l ids'.
Proof.
  apply (circuit_n_chan_done_correct (ex_channel 1 10 (TA_INET 16909060) false) true [(ex_waiting, ex_rand); (ex_circuit, ex_rand)] ∅).
  - by repeat split.
  - assert (Hg : (64 <= good_draws ex_rand)%nat) by (apply Nat.leb_le; by vm_compute).
    constructor; [split; [right; right; eexists _, _; exact ex_waits|exact Hg]|]. constructor; [split; [right; by left|exact Hg]|done].
Defined.

Lemma has_orport_false (hop : extend_info) (ap : addr_port) (a : tor_addr) (port : Z) : ei_orports hop = [ap; unspec_ap] -> addr_ok (ap_addr ap) -> addr_ok a ->
  a <> ap_addr ap -> a <> TA_UNSPEC -> extend_info_has_orport hop a port = false.
Proof.
  intros Ho Ha Hok Hn Hu. unfold extend_info_has_orport. rewrite Ho. cbn [existsb ap_addr unspec_ap]. rewrite !addr_eqb by done.
  by rewrite !bool_decide_false by congruence.
Qed.

Lemma elsewhere_no_match (chan : channel) (cn : or_conn) (hop : extend_info) (ap : addr_port) : tls_conn chan = Some cn -> ei_orports hop = [ap; unspec_ap] ->
  addr_ok (ap_addr ap) -> addr_ok (ap_addr (conn_ap cn)) -> addr_ok (ap_addr (canonical_orport cn)) ->
  ap_addr (canonical_orport cn) <> ap_addr ap -> ap_addr (conn_ap cn) <> ap_addr ap -> ap_addr (conn_ap cn) <> TA_UNSPEC ->
  channel_tls_matches_extend_info_method chan hop = false.
Proof.
  intros Hcn Ho Ha Hc Hk H1 H2 H3. unfold channel_tls_matches_extend_info_method. rewrite Hcn, (has_orport_false hop ap (ap_addr (conn_ap cn))), orb_false_r by done.
  destruct (tor_addr_is_unspec (ap_addr (canonical_orport cn))) eqn:E; [done|]. rewrite (has_orport_false hop ap); [done..|]. intros Hu. by rewrite Hu in E.
Qed.

(** C20: A circuit that waits takes a connection from anywhere. Let an unmarked circuit wait for a relay at one address, as [circuit_extend] leaves it,
    with a handshake that can be sent. Let a channel with the keys that it waits for be connected to another (known and well-formed) address than this
    one, and not be canonical; and let that address not be the one that the node list has for the relay either, as when the relay is not in it (the
    connection then knows no canonical address). Had the channel been there before, it would not have been used for this circuit, and it does not match
    what the circuit waits for. Yet the CREATE cell is sent on it, if an identifier is found, and the circuit is open: the loop over the circuits asks
    whether the channel has a method that tells if it is canonical, not what that method answers. *)
Theorem waiting_circuit_takes_any_address (chan : channel) (cn : or_conn) (circ : circuit) (hop : extend_info) (create : create_cell) (ap : addr_port) (ids : circid_map) (rand : list Z) (id : Z) :
  chan_ok chan -> waits_for circ hop create -> marked_for_close circ = None -> hop_keys hop chan = true -> ei_orports hop = [ap; unspec_ap] ->
  tls_conn chan = Some cn -> conn_is_canonical cn = false -> addr_ok (ap_addr ap) -> addr_ok (ap_addr (conn_ap cn)) -> addr_ok (ap_addr (canonical_orport cn)) ->
  ap_addr (canonical_orport cn) <> ap_addr ap -> ap_addr (conn_ap cn) <> ap_addr ap -> ap_addr (conn_ap cn) <> TA_UNSPEC ->
  get_unique_circ_id_by_chan ids chan rand = Ok id -> id <> 0 ->
  eligible (mk_target (ei_identity hop) (ei_ed hop) (Some (ap_addr ap)) None) chan = false /\
  channel_is_canonical chan = Ok false /\ channel_matches_extend_info chan hop = Ok false /\
  exists circ' ids' c, circuit_n_chan_done chan true ids [(circ, rand)] = Ok ([circ'], ids') /\ create_wire id create c /\
    n_chan circ' = Some chan /\ circ_state circ' = CIRCUIT_STATE_OPEN /\ out_queue circ' = out_queue circ ++ [(chan, c)].
Proof.
  intros Hc Hw Hmk Hk Ho Hcn Hcan Ha Hac Hap Hcp Hne Hun Hid Hnz. pose proof Hc as (Hm & _).
  assert (E1 : tor_addr_eq (ap_addr (conn_ap cn)) (ap_addr ap) = false) by (rewrite addr_eqb by done; by apply bool_decide_eq_false).
  split; [unfold eligible, channel_tls_is_canonical_method, at_target, channel_tls_matches_target_method; cbn [tg_ipv4 tg_ipv6]; by rewrite Hcn, Hcan, E1, andb_false_r|].
  split; [unfold channel_is_canonical, channel_tls_is_canonical_method; by rewrite Hm, Hcn, Hcan|].
  split; [unfold channel_matches_extend_info; rewrite Hm; cbn [tor_assert]; by rewrite (elsewhere_no_match chan cn hop ap)|].
  assert (Hki : ei_identity hop = identity_digest chan) by (unfold hop_keys in Hk; apply andb_true_iff in Hk as [Hk _]; by apply bool_decide_eq_true in Hk).
  destruct (pending_flag_ok chan circ Hc) as (b & Eb & Hf & _); [by right; right; exists hop, create|]. pose proof Hw as (Hh & Hn & Hst & Hkc & Hs & _).
  destruct b; [|by rewrite (Hf eq_refl hop Hh Hmk) in Hk]. unfold circuit_n_chan_done. cbn [pending_flags n_chan_done_loop]. rewrite Eb. cbn [obind n_chan_done_loop].
  destruct circ as [pc nc nh cid kc st mk q]. cbn [p_chan n_chan n_hop n_circ_id n_chan_create_cell circ_state marked_for_close out_queue] in *. subst nc nh kc mk st.
  rewrite (n_chan_done_circuit_eq chan true ids rand pc cid q hop create), Hk by done. cbn [negb].
  destruct (deliver_with_id ids pc chan None cid (Some create) CIRCUIT_STATE_CHAN_WAIT None q create rand id Hs Hid Hnz) as (c & Hwr & ->). cbn [obind negb].
  eexists _, _, c. done.
Qed.

Theorem waiting_circuit_takes_any_address_witness :
  exists circ' ids' c, circuit_n_chan_done (ex_channel 1 10 (TA_INET 84281096) false) true ∅ [(ex_waiting, ex_rand)] = Ok ([circ'], ids') /\
    out_queue circ' = [(ex_channel 1 10 (TA_INET 84281096) false, c)].
Proof.
  destruct (waiting_circuit_takes_any_address (ex_channel 1 10 (TA_INET 84281096) false) (mk_conn (mk_ap (TA_INET 84281096) 9001) unspec_ap false) ex_waiting ex_hop
    (create_with CELL_CREATE2 ONION_HANDSHAKE_TYPE_NTOR ex_skin) (mk_ap (TA_INET 16909060) 9001) ∅ ex_rand (77 + 2 ^ 31))
    as (_ & _ & _ & circ' & ids' & c & E & _ & _ & _ & Eq); try done.
  - exact ex_waits.
  - by exists circ', ids', c.
Defined.
